(* ===== verification/_CoqProject ===== *)
-Q . S2P
Prelude.v
Alock.v
AlockProofs.v
AlockSteps.v
AlockFifo.v
CacheLineLock.v
CacheLineLockProofs.v
Generator.v
Links.v
Lru.v
LruProofs.v
LruSeq.v
LruPart.v
LruPartProofs.v
LruPopulate.v
LruRestore.v
Collision.v
CollisionProofs.v
Status.v
StatusProofs.v
Request.v
RequestProofs.v
CacheLine.v
CacheLineProofs.v
CacheLineSteps.v
AsyncLock.v
AsyncLockProofs.v
Pipeline.v
PipelineProofs.v
Engine.v
EngineProofs.v
EngineCheck.v
PartMove.v
IndexList.v
IndexListProofs.v
IoClass.v
IoClassProofs.v
HashLock.v
HashLockProofs.v
EngineIo.v
EngineIoProofs.v
EngineBase.v
Cleaner.v
Engines.v
Content.v
EngineSpec.v
EngineExamples.v
CleanerProofs.v
EngineRuns.v
EngineReads.v
EngineWrites.v
EngineHistory.v
Evict.v
EvictIter.v
EvictTake.v
EvictNext.v
EvictAssign.v
EvictLoop.v
EvictSpace.v
EvictPinned.v
EvictRemap.v
EvictClean.v
EvictEngine.v
EvictProps.v
Nhit.v
NhitProofs.v
NhitSpec.v
Promotion.v
PromotionProofs.v
PromotionProps.v
RbTree.v
RbShape.v
RbInsert.v
RbIndex.v
RbRemove.v
RbClasses.v
RbProps.v
SeqDetect.v
SeqTrack.v
SeqProps.v
