(* ===== verification/Prelude.v ===== *)
(** * A verification library for the Open CAS Framework (OCF)

    OCF is a block cache: requests to a slow core device are served from
    fixed-size cache lines on a fast device.  For every cache line the metadata
    keep which core line it holds, which of its blocks are valid and dirty, and
    which eviction list it is on; requests lock the cache lines they use.  This
    library models that core as executable state transformers and proves its
    operations correct.  It follows the C code function by function and keeps
    its names.

    ** Reading the models

    [Prelude.M S A] is the type of a C function over a component state [S]:
    [None] stands for a failed [ENV_BUG_ON], an [ENV_BUG], or an access outside
    an array.  [wp m Q s] is total correctness: started in [s], [m] runs to its
    end without a bug and satisfies [Q]; every theorem about an operation is
    therefore also the theorem that no assertion of it fails.  Arrays are finite
    maps, unsigned words are integers reduced modulo their width where the
    source can leave it, bit fields are truncated on assignment.

    ** The parts

    - The lock of one cache line, [src/utils/utils_alock.c]: [Alock] has the
      access words, the hashed waiter lists, the fast and slow lock paths and
      the unlock paths that hand a lock over.  [AlockProofs] has the invariant
      of the lock table, [AlockSteps] the transition system of clients that
      lock, wait, cancel and unlock in any order, with mutual exclusion, no
      lost wake-up, the meaning of the access word and the absence of bugs;
      [AlockFifo] the order of hand-over, and two theorems on what the code does
      at its limits (255 readers; cancelling one of two waits of a request).
    - The locks of a request, [src/concurrency/ocf_cache_line_concurrency.c]:
      [CacheLineLock], [CacheLineLockProofs] (all or nothing).
    - The bisect generator, [src/utils/utils_generator.c]: [Generator].
    - LRU eviction, [src/eviction/ocf_lru.c]: [Lru] has the list primitives
      with the hot prefix, [LruProofs] and [LruSeq] their meaning as operations
      on sequences (on the doubly linked lists of [Links]); [LruPart] the
      operations on partitions, initialisation and population; [LruPartProofs],
      [LruPopulate] and [LruRestore] prove the moves between lists, population
      and the rebuilding of the list heads after a restart.
    - The mapping, [src/metadata/metadata_collision.c], [metadata_core.c],
      the hash table of [metadata.c] and the lookup of
      [src/engine/engine_common.c]: [Collision]; [CollisionProofs] shows that
      the hash table with its collision lists refines a finite map.
    - The valid and dirty bits, [src/metadata/metadata_bit.h],
      [metadata_status.h]: [Status]; [StatusProofs] shows that the functions of
      every field width are operations on sets of blocks.
    - Requests, [src/ocf_request.c]: [Request], [RequestProofs] (the map
      entries tile the byte range; hashes of consecutive lines).
    - Cache-line state changes, [src/utils/utils_cache_line.c]: [CacheLine]
      composes mapping, bits, LRU lists, locks and core counters;
      [CacheLineProofs] has the invariant that ties them together and
      [CacheLineSteps] the theorems that every operation keeps it.
    - The locks of the metadata, [src/concurrency/ocf_metadata_concurrency.c]:
      [HashLock], [HashLockProofs] (the order in which a request visits its
      hash buckets, mutual exclusion, freedom from deadlock).
    - Lookup, [src/engine/engine_common.c]: [Engine]; [EngineProofs] (what a
      lookup reports), [EngineCheck] (checking a request again after it has
      waited); [PartMove] is [ocf_user_part_move] of
      [src/utils/utils_user_part.c].
    - Management: [AsyncLock], [AsyncLockProofs] are the asynchronous
      readers-writer lock of [src/utils/utils_async_lock.c], [Pipeline],
      [PipelineProofs] the pipelines of [src/utils/utils_pipeline.c];
      [IndexList], [IndexListProofs] the index-linked lists of
      [src/utils/utils_list.c], and [IoClass], [IoClassProofs] the I/O classes
      of [src/mngt/ocf_mngt_io_class.c], whose priority list is such a list.
    - The engines, [src/engine/], and the cleaner, [src/utils/utils_cleaner.c].
      [EngineIo], [EngineIoProofs]: how a request is split into I/Os on the
      cache volume.  [EngineBase] has the state of a request under way: the
      metadata, the volumes, the buffer, the events that are pending.
      [Cleaner] and [Engines] model the code as handlers of events; [Content]
      defines what a reader of a core is to get ([content]), [EngineSpec] what
      the engines assume and keep.  [CleanerProofs], [EngineRuns] (locks,
      waiting, mapping, the fallback to pass-through), [EngineReads] and
      [EngineWrites] prove every path of the read and of the write engines,
      with every I/O error; [EngineHistory] composes them: a client that
      submits reads and writes one after another sees an array of bytes.
      [EngineExamples] has two concrete runs that lose data.
    - Eviction, [src/ocf_space.c] and the iterators of
      [src/eviction/ocf_lru.c]: [Evict] has all definitions.  [EvictIter]: the
      lists an iterator visits; [EvictTake], [EvictNext]: the line that an
      iterator takes, with its locks; [EvictAssign]: a line becomes that of an
      entry of the request; [EvictLoop]: the loop over a request as a sequence of
      stages; [EvictSpace]: the choice of partitions; [EvictPinned]: what a
      request of a pinned class cannot get; [EvictClean]: dirty lines for the
      cleaner.  [EvictRemap] and [EvictEngine] put this behind the
      interface that the engines use, and [EvictProps] has the theorems: what a
      request gets, which line is evicted, what cleaning hands out and gives
      back, and the array of bytes again, now with the program's own eviction.
    - Promotion, [src/promotion/]: [Nhit] is the hash table of the policy nhit
      with its ring, collision lists and locks, [NhitProofs] its invariant and
      [NhitSpec] its refinement of a bounded list of counted core lines;
      [Promotion] has the policies and their dispatch, [PromotionProofs]
      the answers for requests, and [PromotionProps] the
      theorems: when a core line is promoted, and that policy, superblock and
      table stay in step.  The engines take the answer from their environment.
    - Red-black trees, [src/utils/utils_rbtree.c]: [RbTree] is the code on nodes
      with pointers, with the rings of equal nodes.  [RbShape] says which tree a
      store of nodes holds, what rotations do to it, the rules for colours and the
      bound on the depth; [RbInsert] and [RbRemove] are the repairs after insertion
      and removal; [RbIndex] and [RbClasses] show that insertion, removal, lookup
      and the test for an update in place refine a sorted list of classes of equal
      nodes; [RbProps] states this for whole histories.
    - Sequential streams, [src/ocf_seq_detect.c] and [src/ocf_seq_cutoff.c], a
      client of the trees: [SeqDetect]; [SeqTrack] (the order of streams, the
      longest stream of a ring, a detector refines a list of streams by age),
      [SeqProps] (histories of a detector, what the cutoff
      answers, and a promotion that hides a stream from later lookups).

    ** Bounds and fuel

    Cache-line numbers have 29 bits, so a cache has fewer than 2^29 lines; the
    counters, of 32 bits, cannot overflow below that, and the theorems prove it.
    Fuel occurs only in loops, and the theorems show that the fuel the
    definitions give is enough, or take it as a premise that bounds it from
    below: loops along linked lists of lines take at least the length of the
    list, the generator the size of its range, the lookup more than the number
    of entries of the request, the loops that form I/Os the number of entries,
    the iteration over hash buckets the number of buckets and one, lists of
    I/O classes 35 (34 classes and the head), a pipeline 65 (its table has at
    most 64 steps), the cleaner the number of items left.  The queue of the
    engines runs 12 turns for a read and 15 for a write, and the theorems prove
    that the request has been answered by then.  An iterator over the 32 lists of
    a partition makes at most 34 rounds, since every round but one empties a
    list; its walk along a list takes at most the number of lines.  A lookup in
    the table of nhit has a step for each slot of the ring and one more.  The
    loops of a red-black tree take a step for each node of the store, and a few
    more; the repair after a removal, which can turn at a red sibling, twice as
    many.

    ** Interfaces

    [Links.LinkNode] states what a node type owes to the theory of linked
    lists, and the LRU nodes, the collision lists and the slots of nhit are instances.
    [RbInsert.NodeOrder] and [RbClasses.ItemOrder] are what the owner of a
    red-black tree promises of its comparison; the order of streams is an instance.
    [CacheLine.CleaningPolicy] is the table of cleaning operations that the
    cache-line code calls; the no-operation policy is an instance.
    [IndexList.OcfLst] is the client of an index-linked list and
    [IndexListProofs.LstOrder] what its comparison owes to sorting; the
    priority list of the I/O classes is an instance.  [HashLock.RwLock] with
    [RwLockLaws] is a readers-writer lock; the lock words of the buckets and
    the semaphores are instances.  [Engines.SpaceManagement] with
    [EngineRuns.SpaceLaws] is what the engines need from space management:
    lines for the entries that miss, and the orders to clean; the theorems on the
    engines are proved against it, and [EvictEngine.evicting], the model of
    [ocf_space.c], satisfies it ([evicting_laws]).
    [EngineBase.world] is the environment of a request: the result of every
    I/O, where a failed write may have carried out any of its bytes; the result
    of every allocation, and whether a lock is granted at once, later or not at
    all.  The theorems hold for every world, but for what they say of the locks
    of a request's own lines.

    ** Not modelled

    Concurrency is modelled where the source's own state carries it (the locks
    with their waiters and the interleaving of their clients); elsewhere
    operations are atomic steps under the locks that their callers hold, and
    the engines serve one request at a time; what other requests hold when it
    comes to evict is an arbitrary input.  Not modelled are the write-only,
    fast, discard, flush, zero and direct engines, prefetch, the LFU policy,
    the ALRU and ACP cleaning policies, the handlers of the management pipelines
    (attach, load, flush, stop), the layout of the metadata on the device and
    metadata I/O, volumes, queues, statistics, memory allocation, and the
    environment layer.  The manifest lists these parts one by one. *)

From Stdlib Require Export ZArith Lia.
From stdpp Require Export base tactics option numbers gmap list.

#[export] Set Default Goal Selector "!".
Global Open Scope Z_scope.

(** ** Machine words

    C's unsigned integers are [Z] values kept in range by an explicit
    reduction after every operation that can leave the range. *)

Definition wrap (w x : Z) : Z := x mod 2 ^ w.
Abbreviation u8 := (wrap 8) (only parsing).
Abbreviation u16 := (wrap 16) (only parsing).
Abbreviation u32 := (wrap 32) (only parsing).
Abbreviation u64 := (wrap 64) (only parsing).

(** Conversion of a 32-bit pattern to [int]. *)
Definition s32 (x : Z) : Z :=
  let y := wrap 32 x in if bool_decide (y < 2 ^ 31) then y else y - 2 ^ 32.

Lemma s32_small x : - 2 ^ 31 <= x < 2 ^ 31 -> s32 x = x.
Proof.
  intros Hx. unfold s32, wrap. destruct (decide (0 <= x)).
  - rewrite Z.mod_small by lia. by rewrite bool_decide_eq_true_2 by lia.
  - rewrite <- (Z_mod_plus_full x 1), Z.mod_small by lia.
    rewrite bool_decide_eq_false_2 by lia. lia.
Qed.

Definition UINT32_MAX : Z := 2 ^ 32 - 1.
Definition UINT64_MAX : Z := 2 ^ 64 - 1.

Lemma wrap_small w x : 0 <= x < 2 ^ w -> wrap w x = x.
Proof. apply Z.mod_small. Qed.

Lemma wrap_range w x : 0 <= w -> 0 <= wrap w x < 2 ^ w.
Proof. intros Hw. apply Z.mod_pos_bound, Z.pow_pos_nonneg; lia. Qed.

Lemma wrap_wrap w x : wrap w (wrap w x) = wrap w x.
Proof. apply Zmod_mod. Qed.

Lemma wrap_add_l w x y : wrap w (wrap w x + y) = wrap w (x + y).
Proof. apply Zplus_mod_idemp_l. Qed.

(** ** Finite maps *)

Lemma map_size_pos `{Countable K} {V} (m : gmap K V) k x :
  m !! k = Some x -> (0 < size m)%nat.
Proof.
  intros Hk. enough (size m <> 0%nat) by lia.
  intros ->%map_size_empty_inv. by rewrite lookup_empty in Hk.
Qed.

(** ** Lists *)

Lemma filter_sublist_mono {A} (P : A -> Prop) `{forall x, Decision (P x)} (l k : list A) :
  l `sublist_of` k -> filter P l `sublist_of` filter P k.
Proof.
  induction 1 as [|x l k Hs IH|x l k Hs IH]; rewrite ?filter_cons; [constructor| |].
  - case_decide; [by constructor|done].
  - case_decide; [by constructor|done].
Qed.

Lemma list_eq_nil_filter {A} (P : A -> Prop) `{forall x, Decision (P x)} (l : list A) :
  (forall x, x ∈ l -> ~ P x) -> filter P l = [].
Proof.
  intros Hl. induction l as [|x l IH]; [done|]. rewrite filter_cons, decide_False.
  - apply IH. intros y Hy. apply Hl. by right.
  - apply Hl. by left.
Qed.

(** Distinct numbers below [n] are at most [n]. *)
Lemma lines_bound (l : list Z) n :
  0 <= n -> NoDup l -> (forall x, x ∈ l -> 0 <= x < n) -> Z.of_nat (length l) <= n.
Proof.
  intros Hn Hnd Hv.
  assert (Hs : l ⊆+ (Z.of_nat <$> seq 0 (Z.to_nat n))).
  { apply NoDup_submseteq; [done|]. intros x Hx. specialize (Hv x Hx).
    apply list_elem_of_fmap. exists (Z.to_nat x). split; [lia|]. apply elem_of_seq. lia. }
  apply submseteq_length in Hs. rewrite length_fmap, length_seq in Hs. lia.
Qed.

(** ** The effect monad

    A C function over a component state [S] is a state transformer that can
    also stop: [None] is a failed [ENV_BUG_ON], an [ENV_BUG], or an access
    outside an array, after which the C program has no defined behaviour. *)

Definition M (S A : Type) : Type := S -> option (A * S).

#[global] Instance M_ret {S} : MRet (M S) := fun A a s => Some (a, s).
#[global] Instance M_bind {S} : MBind (M S) := fun A B k m s =>
  match m s with Some (a, s') => k a s' | None => None end.

Section Monad.
Context {S : Type}.

Definition get : M S S := fun s => Some (s, s).
Definition gets {A} (f : S -> A) : M S A := fun s => Some (f s, s).
Definition modify (f : S -> S) : M S unit := fun s => Some (tt, f s).
Definition env_bug {A} : M S A := fun _ => None.
Definition bug_on (b : bool) : M S unit := fun s => if b then None else Some (tt, s).
(** Read of an array cell or of a map entry: outside the domain there is
    no defined result. *)
Definition load {A} (f : S -> option A) : M S A := fun s =>
  match f s with Some a => Some (a, s) | None => None end.
Definition when (b : bool) (m : M S unit) : M S unit := if b then m else mret tt.

(** [wp m Q s]: started in [s], [m] runs to its end without a bug and its
    result and final state satisfy [Q] (total correctness). *)
Definition wp {A} (m : M S A) (Q : A -> S -> Prop) (s : S) : Prop :=
  match m s with Some (a, s') => Q a s' | None => False end.

Lemma wp_ret {A} (a : A) Q s : Q a s -> wp (mret a) Q s.
Proof. done. Qed.

Lemma wp_bind {A B} (m : M S A) (k : A -> M S B) Q s :
  wp m (fun a s' => wp (k a) Q s') s -> wp (mbind k m) Q s.
Proof. unfold wp, mbind, M_bind. destruct (m s) as [[a s']|]; done. Qed.

Lemma wp_mono {A} (m : M S A) (P Q : A -> S -> Prop) s :
  wp m P s -> (forall a s', P a s' -> Q a s') -> wp m Q s.
Proof. unfold wp. destruct (m s) as [[a s']|]; auto. Qed.

Lemma wp_gets {A} (f : S -> A) Q s : Q (f s) s -> wp (gets f) Q s.
Proof. done. Qed.

Lemma wp_get Q s : Q s s -> wp get Q s.
Proof. done. Qed.

Lemma wp_modify f Q s : Q tt (f s) -> wp (modify f) Q s.
Proof. done. Qed.

Lemma wp_bug_on b Q s : b = false -> Q tt s -> wp (bug_on b) Q s.
Proof. by intros ->. Qed.

Lemma wp_load {A} (f : S -> option A) a Q s : f s = Some a -> Q a s -> wp (load f) Q s.
Proof. intros Hf HQ. unfold wp, load. by rewrite Hf. Qed.

Lemma wp_when b m Q s :
  (b = true -> wp m Q s) -> (b = false -> Q tt s) -> wp (when b m) Q s.
Proof. destruct b; cbn; auto. Qed.

Lemma wp_run {A} (m : M S A) Q s :
  wp m Q s <-> exists a s', m s = Some (a, s') /\ Q a s'.
Proof.
  unfold wp. destruct (m s) as [[a s']|].
  - split; [eauto | by intros (? & ? & [= <- <-] & ?)].
  - split; [done | by intros (? & ? & ? & ?)].
Qed.

(** [for] over a list of indices. *)
Fixpoint m_for {A} (l : list A) (body : A -> M S unit) : M S unit :=
  match l with
  | [] => mret tt
  | i :: l => _ ← body i; m_for l body
  end.

Lemma wp_for {A} (l : list A) body (I : list A -> S -> Prop) s :
  I [] s ->
  (forall pre i post s, l = pre ++ i :: post -> I pre s -> wp (body i) (fun _ => I (pre ++ [i])) s) ->
  wp (m_for l body) (fun _ => I l) s.
Proof.
  intros Hs Hb.
  enough (H : forall post pre s, l = pre ++ post -> I pre s -> wp (m_for post body) (fun _ => I l) s)
    by by apply (H l []).
  induction post as [|i post IH]; intros pre s' El HI; cbn.
  - rewrite app_nil_r in El. by subst.
  - apply wp_bind. eapply wp_mono; [by apply (Hb pre i post)|]. intros [] s'' HI'.
    apply (IH (pre ++ [i])); [by rewrite <- app_assoc|done].
Qed.

Lemma wp_and {A} (m : M S A) (P Q : A -> S -> Prop) s :
  wp m P s -> wp m Q s -> wp m (fun a s' => P a s' /\ Q a s') s.
Proof. unfold wp. destruct (m s) as [[a s']|]; auto. Qed.
End Monad.

(** One symbolic-execution step through a monadic program. *)
Ltac wp_step :=
  lazymatch goal with
  | |- wp (mbind _ _) _ _ => apply wp_bind
  | |- wp (mret _) _ _ => apply wp_ret
  | |- wp (gets _) _ _ => apply wp_gets; cbn beta
  | |- wp get _ _ => apply wp_get
  | |- wp (modify _) _ _ => apply wp_modify; cbn beta
  | |- wp (load _) _ _ => eapply wp_load; [eassumption|]
  | |- wp (bug_on _) _ _ => apply wp_bug_on
  | |- wp (let '(_, _) := ?p in _) _ _ => destruct p eqn:?
  end; cbn beta zeta.
Ltac wp_go := repeat wp_step.

(** Evaluation of a monadic program whose loads are known. *)
Ltac m_unfold :=
  unfold mbind, M_bind, mret, M_ret, load, gets, get, modify, bug_on, when, env_bug;
  cbn beta iota.

(** Closed decidable propositions. *)
Ltac by_compute := apply (bool_decide_eq_true_1 _); vm_compute; reflexivity.

(** ** Reachability *)

Section Reach.
Context {S : Type} (init : S -> Prop) (step : S -> S -> Prop).

Inductive reachable : S -> Prop :=
| reach_init s : init s -> reachable s
| reach_step s s' : reachable s -> step s s' -> reachable s'.

Lemma reachable_invariant (I : S -> Prop) :
  (forall s, init s -> I s) ->
  (forall s s', I s -> step s s' -> I s') ->
  forall s, reachable s -> I s.
Proof. intros Hi Hs s. induction 1; eauto. Qed.
End Reach.
