(* ===== verification/Alock.v ===== *)
(** * Cache-line locks: [src/utils/utils_alock.c]

    The asynchronous per-cache-line reader/writer lock: an 8-bit access word
    per entry, a hashed table of waiter lists, and requests that are resumed
    by a callback when the last of their entries has been locked.

    A request is addressed by a number; the callback [cmpl] is a number too
    (0 is NULL) and calling it appends the request to [resumed].  The outcome
    of [env_allocator_new] is an input of the model ([alloc]).  Every function
    below is one critical section of the C code (the spinlock of the bucket,
    or a single atomic operation); functions that consist of several critical
    sections are composed from their pieces, and the step relation of
    [AlockProofs] interleaves the pieces. *)

From S2P Require Import Prelude.

(** [OCF_READ] / [OCF_WRITE] of [inc/ocf_def.h]. *)
Inductive rw := OCF_READ | OCF_WRITE.
#[export] Instance rw_eq_dec : EqDecision rw.
Proof. solve_decision. Defined.

Definition OCF_CACHE_LINE_ACCESS_WR : Z := 255.
Definition OCF_CACHE_LINE_ACCESS_IDLE : Z := 0.
Definition OCF_CACHE_LINE_ACCESS_ONE_RD : Z := 1.

(** The lock results of [src/utils/utils_alock.h]. *)
Definition OCF_LOCK_ACQUIRED : Z := 0.
Definition OCF_LOCK_NOT_ACQUIRED : Z := 1.

(** [struct ocf_alock_waiter]. *)
Record waiter := Waiter {
  w_entry : Z;
  w_idx : Z;
  w_req : Z;
  w_cmpl : Z;
  w_rw : rw
}.
#[export] Instance waiter_eq_dec : EqDecision waiter.
Proof. solve_decision. Defined.

(** The fields of [struct ocf_request] the lock uses. *)
Record lreq := LReq {
  lock_remaining : Z;
  alock_status : Z;
  alock_rw : rw;
  is_deferred : bool
}.

Record alock := Alock {
  access : gmap Z Z;
  waiters_lsts : gmap Z (list waiter);
  waiting : Z;
  reqs : gmap Z lreq;
  alloc : list bool;
  resumed : list (Z * Z)
}.

Definition set_access f (s : alock) :=
  Alock (f (access s)) (waiters_lsts s) (waiting s) (reqs s) (alloc s) (resumed s).
Definition set_lsts f (s : alock) :=
  Alock (access s) (f (waiters_lsts s)) (waiting s) (reqs s) (alloc s) (resumed s).
Definition set_waiting f (s : alock) :=
  Alock (access s) (waiters_lsts s) (f (waiting s)) (reqs s) (alloc s) (resumed s).
Definition set_reqs f (s : alock) :=
  Alock (access s) (waiters_lsts s) (waiting s) (f (reqs s)) (alloc s) (resumed s).
Definition set_alloc f (s : alock) :=
  Alock (access s) (waiters_lsts s) (waiting s) (reqs s) (f (alloc s)) (resumed s).
Definition set_resumed f (s : alock) :=
  Alock (access s) (waiters_lsts s) (waiting s) (reqs s) (alloc s) (f (resumed s)).

Definition with_remaining f (r : lreq) :=
  LReq (f (lock_remaining r)) (alock_status r) (alock_rw r) (is_deferred r).
Definition with_status f (r : lreq) :=
  LReq (lock_remaining r) (f (alock_status r)) (alock_rw r) (is_deferred r).
Definition with_rw x (r : lreq) :=
  LReq (lock_remaining r) (alock_status r) x (is_deferred r).
Definition with_deferred b (r : lreq) :=
  LReq (lock_remaining r) (alock_status r) (alock_rw r) b.

Definition M := Prelude.M alock.

Definition load_req (req : Z) : M lreq := load (fun s => reqs s !! req).
Definition store_req (req : Z) (r : lreq) : M unit := modify (set_reqs (insert req r)).

(** ** Entry access words *)

Definition access_read (entry : Z) : M Z := load (fun s => access s !! entry).
Definition access_set (entry v : Z) : M unit := modify (set_access (insert entry v)).

(** [env_atomic8_cmpxchg]: the previous value is returned. *)
Definition access_cmpxchg (entry old new : Z) : M Z :=
  v ← access_read entry;
  _ ← when (bool_decide (v = old)) (access_set entry new);
  mret v.

(** [env_atomic8_add_unless]: the loop around the exchange ends at its first
    iteration when nobody else writes the word. *)
Definition access_add_unless (entry i u : Z) : M bool :=
  c ← access_read entry;
  if bool_decide (c = u) then mret false
  else _ ← access_set entry (u8 (c + i)); mret true.

Definition ocf_alock_mark_index_locked (req index : Z) (locked : bool) : M unit :=
  r ← load_req req;
  store_req req
    (with_status (fun b => if locked then Z.setbit b index else Z.clearbit b index) r).

Definition ocf_alock_is_index_locked (req index : Z) : M bool :=
  r ← load_req req; mret (Z.testbit (alock_status r) index).

Definition ocf_alock_trylock_entry_wr (entry : Z) : M bool :=
  prev ← access_cmpxchg entry OCF_CACHE_LINE_ACCESS_IDLE OCF_CACHE_LINE_ACCESS_WR;
  mret (bool_decide (prev = OCF_CACHE_LINE_ACCESS_IDLE)).

Definition ocf_alock_trylock_entry_rd_idle (entry : Z) : M bool :=
  prev ← access_cmpxchg entry OCF_CACHE_LINE_ACCESS_IDLE OCF_CACHE_LINE_ACCESS_ONE_RD;
  mret (bool_decide (prev = OCF_CACHE_LINE_ACCESS_IDLE)).

Definition ocf_alock_trylock_entry_rd (entry : Z) : M bool :=
  access_add_unless entry 1 OCF_CACHE_LINE_ACCESS_WR.

Definition ocf_alock_unlock_entry_wr (entry : Z) : M unit :=
  v ← access_read entry;
  _ ← bug_on (bool_decide (v ≠ OCF_CACHE_LINE_ACCESS_WR));
  access_set entry OCF_CACHE_LINE_ACCESS_IDLE.

Definition ocf_alock_unlock_entry_rd (entry : Z) : M unit :=
  v ← access_read entry;
  _ ← bug_on (bool_decide (v = 0));
  _ ← bug_on (bool_decide (v = OCF_CACHE_LINE_ACCESS_WR));
  access_set entry (u8 (v - 1)).

Definition ocf_alock_trylock_entry_wr2wr (entry : Z) : M bool :=
  v ← access_read entry;
  _ ← bug_on (bool_decide (v ≠ OCF_CACHE_LINE_ACCESS_WR));
  mret true.

Definition ocf_alock_trylock_entry_wr2rd (entry : Z) : M bool :=
  v ← access_read entry;
  _ ← bug_on (bool_decide (v ≠ OCF_CACHE_LINE_ACCESS_WR));
  _ ← access_set entry OCF_CACHE_LINE_ACCESS_ONE_RD;
  mret true.

Definition ocf_alock_trylock_entry_rd2wr (entry : Z) : M bool :=
  v ← access_read entry;
  _ ← bug_on (bool_decide (v = OCF_CACHE_LINE_ACCESS_IDLE));
  _ ← bug_on (bool_decide (v = OCF_CACHE_LINE_ACCESS_WR));
  v ← access_cmpxchg entry OCF_CACHE_LINE_ACCESS_ONE_RD OCF_CACHE_LINE_ACCESS_WR;
  mret (bool_decide (v = OCF_CACHE_LINE_ACCESS_ONE_RD)).

Definition ocf_alock_trylock_entry_rd2rd (entry : Z) : M bool :=
  v ← access_read entry;
  _ ← bug_on (bool_decide (v = OCF_CACHE_LINE_ACCESS_IDLE));
  _ ← bug_on (bool_decide (v = OCF_CACHE_LINE_ACCESS_WR));
  mret true.

(** [env_atomic_dec_return(&req->lock_remaining)]. *)
Definition lock_remaining_dec_return (req : Z) : M Z :=
  r ← load_req req;
  _ ← store_req req (with_remaining (fun n => n - 1) r);
  mret (lock_remaining r - 1).

Definition ocf_alock_entry_locked (req cmpl : Z) : M unit :=
  n ← lock_remaining_dec_return req;
  when (bool_decide (n = 0))
    (_ ← bug_on (bool_decide (cmpl = 0));
     _ ← modify (set_waiting (fun n => n - 1));
     modify (set_resumed (fun l => l ++ [(cmpl, req)]))).

(** The grant of one index of a request: mark it and count it. *)
Definition grant (req idx cmpl : Z) : M unit :=
  _ ← ocf_alock_mark_index_locked req idx true;
  ocf_alock_entry_locked req cmpl.

(** [env_allocator_new]: the next outcome of the allocator. *)
Definition allocator_new : M bool :=
  a ← gets alloc;
  match a with
  | [] => mret true
  | ok :: a' => _ ← modify (set_alloc (fun _ => a')); mret ok
  end.

Section Waitlists.
(** [_WAITERS_LIST_ENTRIES]: 16 MiB divided by the size of a list head with
    its spinlock, whose size the environment decides. *)
Variable ENTRIES : Z.

Definition WAITERS_LIST_ITEM (entry : Z) : Z := entry mod ENTRIES.

Definition bucket (s : alock) (entry : Z) : list waiter :=
  default [] (waiters_lsts s !! WAITERS_LIST_ITEM entry).

Definition store_bucket (entry : Z) (l : list waiter) : M unit :=
  modify (set_lsts (insert (WAITERS_LIST_ITEM entry) l)).

Definition ocf_alock_waitlist_is_empty_locked (entry : Z) : M bool :=
  l ← gets (fun s => bucket s entry);
  mret (negb (existsb (fun w => bool_decide (w_entry w = entry)) l)).

Definition ocf_alock_waitlist_add (entry : Z) (w : waiter) : M unit :=
  l ← gets (fun s => bucket s entry);
  store_bucket entry (l ++ [w]).

(** The lock-free attempt of [ocf_alock_lock_one_wr]. *)
Definition lock_one_wr_fast (entry cmpl req idx : Z) : M bool :=
  got ← ocf_alock_trylock_entry_wr entry;
  if (got : bool) then _ ← grant req idx cmpl; mret true else mret false.

(** The section of [ocf_alock_lock_one_wr] under the bucket's spinlock, with
    what follows its release: [false] in [waiting] grants the entry. *)
Definition lock_one_wr_slow (entry cmpl req idx : Z) : M unit :=
  got ← ocf_alock_trylock_entry_wr entry;
  if (got : bool) then grant req idx cmpl
  else ocf_alock_waitlist_add entry (Waiter entry idx req cmpl OCF_WRITE).

Definition ocf_alock_lock_one_wr (entry cmpl req idx : Z) : M bool :=
  _ ← bug_on (bool_decide (cmpl = 0));
  got ← lock_one_wr_fast entry cmpl req idx;
  if (got : bool) then mret true
  else
    ok ← allocator_new;
    if (ok : bool) then _ ← lock_one_wr_slow entry cmpl req idx; mret true
    else mret false.

Definition lock_one_rd_fast (entry cmpl req idx : Z) : M bool :=
  got ← ocf_alock_trylock_entry_rd_idle entry;
  if (got : bool) then _ ← grant req idx cmpl; mret true else mret false.

Definition lock_one_rd_slow (entry cmpl req idx : Z) : M unit :=
  empty ← ocf_alock_waitlist_is_empty_locked entry;
  got ← (if (empty : bool) then ocf_alock_trylock_entry_rd entry else mret false);
  if (got : bool) then grant req idx cmpl
  else ocf_alock_waitlist_add entry (Waiter entry idx req cmpl OCF_READ).

Definition ocf_alock_lock_one_rd (entry cmpl req idx : Z) : M bool :=
  _ ← bug_on (bool_decide (cmpl = 0));
  got ← lock_one_rd_fast entry cmpl req idx;
  if (got : bool) then mret true
  else
    ok ← allocator_new;
    if (ok : bool) then _ ← lock_one_rd_slow entry cmpl req idx; mret true
    else mret false.

(** The wake-up loop of both unlock paths over the bucket's list: [rd2]
    tells whether the lock given up is a read or a write lock, [exchanged]
    is the C flag (true until a waiter got the lock); the result is the
    final flag and what is left of the list. *)
Definition exchange_lock (held : rw) (exchanged : bool) (w : waiter) (entry : Z) : M bool :=
  if exchanged then
    match held, w_rw w with
    | OCF_READ, OCF_WRITE => ocf_alock_trylock_entry_rd2wr entry
    | OCF_READ, OCF_READ => ocf_alock_trylock_entry_rd2rd entry
    | OCF_WRITE, OCF_WRITE => ocf_alock_trylock_entry_wr2wr entry
    | OCF_WRITE, OCF_READ => ocf_alock_trylock_entry_wr2rd entry
    end
  else
    match w_rw w with
    | OCF_WRITE => ocf_alock_trylock_entry_wr entry
    | OCF_READ => ocf_alock_trylock_entry_rd entry
    end.

Fixpoint wake_waiters (held : rw) (entry : Z) (exchanged : bool) (l : list waiter)
    : M (bool * list waiter) :=
  match l with
  | [] => mret (exchanged, [])
  | w :: l' =>
    if bool_decide (entry ≠ w_entry w) then
      p ← wake_waiters held entry exchanged l';
      mret (p.1, w :: p.2)
    else
      locked ← exchange_lock held exchanged w entry;
      if (locked : bool) then
        _ ← grant (w_req w) (w_idx w) (w_cmpl w);
        wake_waiters held entry false l'
      else mret (exchanged, l)
  end.

Definition ocf_alock_unlock_one_rd_common (entry : Z) : M unit :=
  l ← gets (fun s => bucket s entry);
  p ← wake_waiters OCF_READ entry true l;
  _ ← store_bucket entry p.2;
  when p.1 (ocf_alock_unlock_entry_rd entry).

Definition ocf_alock_unlock_one_wr_common (entry : Z) : M unit :=
  l ← gets (fun s => bucket s entry);
  p ← wake_waiters OCF_WRITE entry true l;
  _ ← store_bucket entry p.2;
  when p.1 (ocf_alock_unlock_entry_wr entry).

Definition ocf_alock_trylock_one_rd (entry : Z) : M bool :=
  ocf_alock_trylock_entry_rd_idle entry.

Definition ocf_alock_unlock_one_rd (entry : Z) : M unit :=
  ocf_alock_unlock_one_rd_common entry.

Definition ocf_alock_unlock_one_wr (entry : Z) : M unit :=
  ocf_alock_unlock_one_wr_common entry.

(** Removal of the first waiter of the bucket that belongs to [req]. *)
Fixpoint remove_first_of (req : Z) (l : list waiter) : list waiter :=
  match l with
  | [] => []
  | w :: l' => if bool_decide (w_req w = req) then l' else w :: remove_first_of req l'
  end.

Definition ocf_alock_waitlist_remove_entry (req entry i : Z) (m : rw) : M unit :=
  locked ← ocf_alock_is_index_locked req i;
  if (locked : bool) then
    _ ← (match m with
         | OCF_READ => ocf_alock_unlock_one_rd_common entry
         | OCF_WRITE => ocf_alock_unlock_one_wr_common entry
         end);
    ocf_alock_mark_index_locked req i false
  else
    l ← gets (fun s => bucket s entry);
    store_bucket entry (remove_first_of req l).

Definition ocf_alock_waitlist_is_empty (num_entries entry : Z) : M bool :=
  _ ← bug_on (bool_decide (num_entries <= entry));
  ocf_alock_waitlist_is_empty_locked entry.

Definition ocf_cache_line_is_used (num_entries entry : Z) : M bool :=
  _ ← bug_on (bool_decide (num_entries <= entry));
  v ← access_read entry;
  if bool_decide (v ≠ 0) then mret true
  else e ← ocf_alock_waitlist_is_empty num_entries entry; mret (negb e).

Definition ocf_alock_waitlist_count : M Z := gets waiting.

(** [update_deferred_flag]. *)
Definition update_deferred_flag (req lock : Z) : M unit :=
  r ← load_req req;
  store_req req (with_deferred (bool_decide (lock = OCF_LOCK_NOT_ACQUIRED)) r).

(** [struct ocf_alock_lock_cbs]: what a client of the lock provides. *)
Record ocf_alock_lock_cbs := LockCbs {
  lock_entries_fast : Z -> rw -> M Z;
  lock_entries_slow : Z -> rw -> Z -> M Z;
  get_entries_count : Z -> M Z
}.

(** [ocf_alock_lock_rd] and [ocf_alock_lock_wr] are the same code but for
    the access mode. *)
Definition ocf_alock_lock (cbs : ocf_alock_lock_cbs) (m : rw) (req cmpl : Z) : M Z :=
  r ← load_req req;
  _ ← bug_on (bool_decide (lock_remaining r ≠ 0));
  _ ← store_req req (with_rw m r);
  lock ← lock_entries_fast cbs req m;
  lock' ←
    (if bool_decide (lock = OCF_LOCK_ACQUIRED) then mret lock
     else
       r ← load_req req;
       _ ← bug_on (bool_decide (lock_remaining r ≠ 0));
       _ ← bug_on (bool_decide (cmpl = 0));
       to_lock ← get_entries_count cbs req;
       _ ← modify (set_waiting (fun n => n + 1));
       r ← load_req req;
       _ ← store_req req (with_remaining (fun _ => to_lock + 1) r);
       status ← lock_entries_slow cbs req m cmpl;
       if bool_decide (status = 0) then
         n ← lock_remaining_dec_return req;
         if bool_decide (n = 0) then
           _ ← modify (set_waiting (fun n => n - 1)); mret OCF_LOCK_ACQUIRED
         else mret lock
       else
         r ← load_req req;
         _ ← store_req req (with_remaining (fun _ => 0) r);
         _ ← modify (set_waiting (fun n => n - 1));
         mret status);
  _ ← update_deferred_flag req lock';
  mret lock'.

Definition ocf_alock_lock_rd cbs req cmpl := ocf_alock_lock cbs OCF_READ req cmpl.
Definition ocf_alock_lock_wr cbs req cmpl := ocf_alock_lock cbs OCF_WRITE req cmpl.
End Waitlists.
