(* ===== verification/AlockProofs.v ===== *)
(** * Correctness of the cache-line locks

    The invariant of [Alock] with the set of held locks as ghost state, its
    preservation by every critical section, and the step relation that
    interleaves them. *)

From S2P Require Import Prelude Alock.

(** Ghost state: which (request, index) holds which entry in which mode. *)
Abbreviation held := (gmap (Z * Z) (Z * rw)).

Definition on_entry (e : Z) (H : held) : held := filter (fun kv => kv.2.1 = e) H.

(** What the access word says about the holders of its entry. *)
Definition access_ok (v : Z) (h : held) : Prop :=
  (v = OCF_CACHE_LINE_ACCESS_WR /\ exists k e, h = {[k := (e, OCF_WRITE)]}) \/
  (v = Z.of_nat (size h) /\ (size h < 255)%nat /\ map_Forall (fun _ x => x.2 = OCF_READ) h).

Definition bit (Q : gmap Z lreq) (k : Z * Z) : bool :=
  match Q !! k.1 with Some q => Z.testbit (alock_status q) k.2 | None => false end.

Definition wkey (w : waiter) : Z * Z := (w_req w, w_idx w).

Section Invariant.
Variable ENTRIES : Z.

Definition lst (L : gmap Z (list waiter)) (e : Z) : list waiter :=
  default [] (L !! WAITERS_LIST_ITEM ENTRIES e).

Definition on_list (L : gmap Z (list waiter)) (e : Z) : list waiter :=
  filter (fun w => w_entry w = e) (lst L e).

Definition waiter_ok (A : gmap Z Z) (Q : gmap Z lreq) (H : held) (b : Z) (w : waiter) : Prop :=
  WAITERS_LIST_ITEM ENTRIES (w_entry w) = b /\
  (exists v, A !! w_entry w = Some v /\ v <> OCF_CACHE_LINE_ACCESS_IDLE) /\
  is_Some (Q !! w_req w) /\ H !! wkey w = None /\ w_cmpl w <> 0 /\ 0 <= w_idx w.

(** The invariant over the access words [A], the waiter lists [L] and the
    requests [Q].  [X] holds the keys that were just unlocked and whose bit
    the owner has yet to clear. *)
Record Inv (A : gmap Z Z) (L : gmap Z (list waiter)) (Q : gmap Z lreq)
    (H : held) (X : gset (Z * Z)) : Prop := {
  inv_acc e v : A !! e = Some v -> access_ok v (on_entry e H);
  inv_dom k e m : H !! k = Some (e, m) -> is_Some (A !! e);
  inv_set k x : H !! k = Some x -> bit Q k = true;
  inv_stale k : bit Q k = true -> is_Some (H !! k) \/ k ∈ X;
  inv_wait b l w : L !! b = Some l -> w ∈ l -> waiter_ok A Q H b w;
  inv_nodup b l : L !! b = Some l -> NoDup (wkey <$> l);
  inv_cross b1 b2 l1 l2 w1 w2 : L !! b1 = Some l1 -> L !! b2 = Some l2 ->
    w1 ∈ l1 -> w2 ∈ l2 -> wkey w1 = wkey w2 -> b1 = b2;
  inv_room e : (size (on_entry e H) + length (on_list L e) <= 254)%nat
}.

Definition alock_inv (s : alock) (H : held) : Prop :=
  Inv (access s) (waiters_lsts s) (reqs s) H ∅.

(** *** The ghost map, entry by entry *)

Lemma on_entry_insert H k e m :
  on_entry e (<[k:=(e, m)]> H) = <[k:=(e, m)]> (on_entry e H).
Proof. apply map_filter_insert_True. done. Qed.

Lemma on_entry_insert_ne H k e e' m :
  e <> e' -> H !! k = None -> on_entry e' (<[k:=(e, m)]> H) = on_entry e' H.
Proof. intros He Hk. apply map_filter_insert_not'; cbn; naive_solver. Qed.

Lemma on_entry_delete H k e : on_entry e (delete k H) = delete k (on_entry e H).
Proof. apply map_filter_delete. Qed.

Lemma on_entry_delete_ne H k e e' m :
  e <> e' -> H !! k = Some (e, m) -> on_entry e' (delete k H) = on_entry e' H.
Proof.
  intros He Hk. apply map_filter_delete_not. intros y Hy.
  rewrite Hk in Hy. injection Hy as <-. done.
Qed.

Lemma on_entry_lookup H k e x : on_entry e H !! k = Some x <-> H !! k = Some x /\ x.1 = e.
Proof. apply map_lookup_filter_Some. Qed.

Lemma on_entry_None H k e : H !! k = None -> on_entry e H !! k = None.
Proof. intros Hk. apply map_lookup_filter_None. auto. Qed.

(** *** Access words *)

Lemma access_ok_range v h : access_ok v h -> 0 <= v <= 255.
Proof. unfold access_ok, OCF_CACHE_LINE_ACCESS_WR. lia. Qed.

Lemma access_ok_empty : access_ok OCF_CACHE_LINE_ACCESS_IDLE ∅.
Proof. right. rewrite map_size_empty. split; [done|]. split; [lia|]. apply map_Forall_empty. Qed.

Lemma access_ok_idle h : access_ok OCF_CACHE_LINE_ACCESS_IDLE h -> h = ∅.
Proof.
  intros [[? _]|[Hs _]]; [done|].
  apply map_size_empty_iff. unfold OCF_CACHE_LINE_ACCESS_IDLE in Hs. lia.
Qed.

Lemma access_ok_wr_new k e : access_ok OCF_CACHE_LINE_ACCESS_WR {[k := (e, OCF_WRITE)]}.
Proof. left. eauto. Qed.

Lemma access_ok_rd_new v h k e :
  access_ok v h -> v <> OCF_CACHE_LINE_ACCESS_WR -> (size h < 254)%nat -> h !! k = None ->
  access_ok (v + 1) (<[k:=(e, OCF_READ)]> h).
Proof.
  intros [[? _]|(-> & _ & Hall)] Hv Hs Hk; [done|]. right.
  rewrite map_size_insert_None by done.
  split; [lia|]. split; [lia|]. by apply map_Forall_insert_2.
Qed.

Lemma access_ok_wr_inv h k x :
  access_ok OCF_CACHE_LINE_ACCESS_WR h -> h !! k = Some x -> h = {[k := x]} /\ x.2 = OCF_WRITE.
Proof.
  intros [(_ & k' & e & ->)|(Hs & ? & _)] Hk.
  - apply lookup_singleton_Some in Hk as [-> <-]. done.
  - unfold OCF_CACHE_LINE_ACCESS_WR in Hs. lia.
Qed.

Lemma access_ok_mode v h k x :
  access_ok v h -> h !! k = Some x ->
  (x.2 = OCF_WRITE -> v = OCF_CACHE_LINE_ACCESS_WR) /\
  (x.2 = OCF_READ -> 0 < v < OCF_CACHE_LINE_ACCESS_WR).
Proof.
  unfold OCF_CACHE_LINE_ACCESS_WR.
  intros [(-> & k' & e & ->)|(-> & Hlt & Hall)] Hk.
  - by apply lookup_singleton_Some in Hk as [-> <-].
  - pose proof (Hall _ _ Hk) as ->. split; [done|].
    pose proof (map_size_pos h k x Hk). lia.
Qed.

Lemma access_ok_rd_drop v h k e :
  access_ok v h -> h !! k = Some (e, OCF_READ) -> access_ok (v - 1) (delete k h).
Proof.
  intros Hok Hk. pose proof (map_size_pos h k _ Hk).
  destruct (access_ok_mode _ _ _ _ Hok Hk) as [_ Hv]. specialize (Hv eq_refl).
  destruct Hok as [[-> _]|(-> & Hlt & Hall)]; [lia|]. right.
  rewrite map_size_delete_Some by eauto.
  split; [lia|]. split; [lia|]. by apply map_Forall_delete.
Qed.

Lemma access_ok_rd_swap v h k e k' :
  access_ok v h -> h !! k = Some (e, OCF_READ) -> h !! k' = None ->
  access_ok v (<[k':=(e, OCF_READ)]> (delete k h)).
Proof.
  intros Hok Hk Hk'. pose proof (map_size_pos h k _ Hk).
  pose proof (access_ok_rd_drop _ _ _ _ Hok Hk) as Hd.
  destruct (access_ok_mode _ _ _ _ Hok Hk) as [_ Hv]. specialize (Hv eq_refl).
  assert (Hs : (size h < 255)%nat) by (destruct Hok as [[-> _]|(_ & ? & _)]; lia).
  unfold OCF_CACHE_LINE_ACCESS_WR in *.
  pose proof (access_ok_rd_new (v - 1) (delete k h) k' e Hd) as Hn.
  replace (v - 1 + 1) with v in Hn by lia.
  apply Hn; [unfold OCF_CACHE_LINE_ACCESS_WR; lia| |by apply lookup_delete_None; auto].
  rewrite map_size_delete_Some by eauto. lia.
Qed.

Lemma access_ok_one h k e :
  access_ok OCF_CACHE_LINE_ACCESS_ONE_RD h -> h !! k = Some (e, OCF_READ) -> delete k h = ∅.
Proof.
  intros Hok Hk. destruct Hok as [[? _]|(E & _)]; [done|].
  apply map_size_empty_inv. rewrite map_size_delete_Some by eauto.
  unfold OCF_CACHE_LINE_ACCESS_ONE_RD in E. lia.
Qed.

(** *** Changes of one entry

    Everything the code does to an entry is an instance of the first lemma:
    a new access word [v'] that fits the new set of holders of [e]. *)
Lemma Inv_entry_update A L Q H X e v' Q' H' X' :
  Inv A L Q H X -> is_Some (A !! e) ->
  access_ok v' (on_entry e H') ->
  (v' <> OCF_CACHE_LINE_ACCESS_IDLE \/ on_list L e = []) ->
  (forall e', e <> e' -> on_entry e' H' = on_entry e' H) ->
  (forall r, is_Some (Q !! r) -> is_Some (Q' !! r)) ->
  (forall k x, H' !! k = Some x -> bit Q' k = true) ->
  (forall k, bit Q' k = true -> is_Some (H' !! k) \/ k ∈ X') ->
  (forall b l w, L !! b = Some l -> w ∈ l -> H' !! wkey w = None) ->
  (size (on_entry e H') + length (on_list L e) <= 254)%nat ->
  Inv (<[e:=v']> A) L Q' H' X'.
Proof.
  intros HI He Hok Hidle Hoff Hdom Hset Hstale Hw Hroom. destruct HI. split; auto.
  - intros e' v. destruct (decide (e = e')) as [<-|Hne].
    + rewrite lookup_insert_eq. by intros [= <-].
    + rewrite lookup_insert_ne, Hoff by done. auto.
  - intros k e' m Hk. destruct (decide (e = e')) as [<-|Hne].
    + rewrite lookup_insert_eq. eauto.
    + rewrite lookup_insert_ne by done. apply (inv_dom0 k e' m).
      assert (on_entry e' H' !! k = Some (e', m)) as E by (apply on_entry_lookup; auto).
      rewrite Hoff in E by done. by apply on_entry_lookup in E as [? _].
  - intros b l w Hl Hin. destruct (inv_wait0 b l w Hl Hin) as (Hb & (v & Hv & Hnz) & Hq & _ & ? & ?).
    split; [done|]. split; [|by eauto 10].
    destruct (decide (e = w_entry w)) as [->|Hne].
    + rewrite lookup_insert_eq. exists v'. split; [done|]. destruct Hidle as [?|Hnil]; [done|].
      assert (w ∈ on_list L (w_entry w)) as Hin'.
      { apply list_elem_of_filter. split; [done|]. unfold lst. rewrite Hb, Hl. done. }
      rewrite Hnil in Hin'. by apply elem_of_nil in Hin'.
    + rewrite lookup_insert_ne by done. eauto.
  - intros e'. destruct (decide (e = e')) as [<-|Hne]; [done|]. rewrite Hoff by done. auto.
Qed.

Definition not_waiting (L : gmap Z (list waiter)) (k : Z * Z) : Prop :=
  forall b l w, L !! b = Some l -> w ∈ l -> wkey w <> k.

Definition bits_set (Q Q' : gmap Z lreq) (k : Z * Z) : Prop :=
  (forall r, is_Some (Q !! r) -> is_Some (Q' !! r)) /\
  forall k', bit Q' k' = if decide (k' = k) then true else bit Q k'.

Lemma Inv_acquire A L Q H X e v' Q' k m :
  Inv A L Q H X -> is_Some (A !! e) -> H !! k = None -> not_waiting L k -> bits_set Q Q' k ->
  access_ok v' (<[k:=(e, m)]> (on_entry e H)) -> v' <> OCF_CACHE_LINE_ACCESS_IDLE ->
  (size (on_entry e H) + length (on_list L e) < 254)%nat ->
  Inv (<[e:=v']> A) L Q' (<[k:=(e, m)]> H) X.
Proof.
  intros HI He Hk Hnw [Hdom Hbits] Hok Hnz Hroom.
  eapply Inv_entry_update; try eassumption.
  - by rewrite on_entry_insert.
  - by left.
  - intros e' Hne. by apply on_entry_insert_ne.
  - intros k' x. rewrite Hbits. case_decide as E; [done|].
    rewrite lookup_insert_ne by done. apply (inv_set _ _ _ _ _ HI).
  - intros k'. rewrite Hbits. case_decide as E.
    + subst. rewrite lookup_insert_eq. eauto.
    + rewrite lookup_insert_ne by done. apply (inv_stale _ _ _ _ _ HI).
  - intros b l w Hl Hw. rewrite lookup_insert_ne by (symmetry; eapply Hnw; eauto).
    by destruct (inv_wait _ _ _ _ _ HI b l w Hl Hw) as (_ & _ & _ & ? & _).
  - rewrite on_entry_insert, map_size_insert_None by (by apply on_entry_None). lia.
Qed.

Lemma Inv_release A L Q H X e v' k m :
  Inv A L Q H X -> H !! k = Some (e, m) ->
  access_ok v' (delete k (on_entry e H)) ->
  (v' <> OCF_CACHE_LINE_ACCESS_IDLE \/ on_list L e = []) ->
  Inv (<[e:=v']> A) L Q (delete k H) ({[k]} ∪ X).
Proof.
  intros HI Hk Hok Hidle.
  assert (Hon : on_entry e H !! k = Some (e, m)) by (apply on_entry_lookup; auto).
  eapply Inv_entry_update; eauto using inv_dom.
  - by rewrite on_entry_delete.
  - intros e' Hne. by eapply on_entry_delete_ne.
  - intros k' x [_ Hx]%lookup_delete_Some. by apply (inv_set _ _ _ _ _ HI) in Hx.
  - intros k' Hb. destruct (decide (k = k')) as [->|Hne]; [set_solver|].
    rewrite lookup_delete_ne by done.
    destruct (inv_stale _ _ _ _ _ HI k' Hb); [auto|set_solver].
  - intros b l w Hl Hw. apply lookup_delete_None. right.
    by destruct (inv_wait _ _ _ _ _ HI b l w Hl Hw) as (_ & _ & _ & ? & _).
  - rewrite on_entry_delete, map_size_delete_Some by eauto.
    pose proof (inv_room _ _ _ _ _ HI e). lia.
Qed.

(** Hand-over: the lock of [k0] passes to [k] without the entry being idle
    in between. *)
Lemma Inv_exchange A L Q H X e v' Q' k0 m0 k m :
  Inv A L Q H X -> H !! k0 = Some (e, m0) -> H !! k = None -> not_waiting L k ->
  bits_set Q Q' k ->
  access_ok v' (<[k:=(e, m)]> (delete k0 (on_entry e H))) -> v' <> OCF_CACHE_LINE_ACCESS_IDLE ->
  Inv (<[e:=v']> A) L Q' (<[k:=(e, m)]> (delete k0 H)) ({[k0]} ∪ X).
Proof.
  intros HI Hk0 Hk Hnw [Hdom Hbits] Hok Hnz.
  assert (Hon : on_entry e H !! k0 = Some (e, m0)) by (apply on_entry_lookup; auto).
  assert (Hd : delete k0 H !! k = None) by (apply lookup_delete_None; auto).
  eapply Inv_entry_update; eauto using inv_dom.
  - by rewrite on_entry_insert, on_entry_delete.
  - intros e' Hne. rewrite on_entry_insert_ne by done. by eapply on_entry_delete_ne.
  - intros k' x. rewrite Hbits. case_decide as E; [done|].
    rewrite lookup_insert_ne by done. intros [_ Hx]%lookup_delete_Some.
    by apply (inv_set _ _ _ _ _ HI) in Hx.
  - intros k'. rewrite Hbits. case_decide as E.
    + subst. rewrite lookup_insert_eq. eauto.
    + rewrite lookup_insert_ne by done. intros Hb.
      destruct (decide (k0 = k')) as [->|Hne]; [set_solver|].
      rewrite lookup_delete_ne by done.
      destruct (inv_stale _ _ _ _ _ HI k' Hb); [auto|set_solver].
  - intros b l w Hl Hw. rewrite lookup_insert_ne by (symmetry; eapply Hnw; eauto).
    apply lookup_delete_None. right.
    by destruct (inv_wait _ _ _ _ _ HI b l w Hl Hw) as (_ & _ & _ & ? & _).
  - rewrite on_entry_insert, on_entry_delete, map_size_insert_None
      by (apply lookup_delete_None; auto using on_entry_None).
    rewrite map_size_delete_Some by eauto.
    pose proof (inv_room _ _ _ _ _ HI e). pose proof (map_size_pos _ _ _ Hon). lia.
Qed.

(** *** Changes of a waiter list *)

Lemma Inv_drop_waiters A L Q H X b l l' :
  Inv A L Q H X -> default [] (L !! b) = l -> l' `sublist_of` l -> Inv A (<[b:=l']> L) Q H X.
Proof.
  intros HI Hl Hsub.
  assert (Hold : forall b' l1, <[b:=l']> L !! b' = Some l1 ->
      exists l2, (L !! b' = Some l2 \/ l1 = []) /\ l1 `sublist_of` l2).
  { intros b' l1 Hl1. destruct (decide (b = b')) as [<-|Hne].
    - rewrite lookup_insert_eq in Hl1. injection Hl1 as <-. exists l.
      destruct (L !! b) as [l0|]; cbn in Hl; subst; [auto|].
      apply sublist_nil_r in Hsub as ->. split; [auto|constructor].
    - rewrite lookup_insert_ne in Hl1 by done. eauto. }
  assert (Hin : forall b' l1 w, <[b:=l']> L !! b' = Some l1 -> w ∈ l1 ->
      exists l2, L !! b' = Some l2 /\ w ∈ l2).
  { intros b' l1 w Hl1 Hw. destruct (Hold _ _ Hl1) as (l2 & [?| ->] & Hs); [|set_solver].
    exists l2. split; [done|]. by eapply elem_of_sublist. }
  destruct HI. split; auto.
  - intros b' l1 w Hl1 Hw. destruct (Hin _ _ _ Hl1 Hw) as (l2 & ? & ?). eauto.
  - intros b' l1 Hl1. destruct (Hold _ _ Hl1) as (l2 & [?| ->] & Hs); [|constructor].
    eapply sublist_NoDup; [|by apply fmap_sublist]. eauto.
  - intros b1 b2 l1 l2 w1 w2 H1 H2 Hw1 Hw2.
    destruct (Hin _ _ _ H1 Hw1) as (? & ? & ?), (Hin _ _ _ H2 Hw2) as (? & ? & ?). eauto.
  - intros e. specialize (inv_room0 e).
    enough (length (on_list (<[b:=l']> L) e) <= length (on_list L e))%nat by lia.
    unfold on_list, lst. destruct (decide (b = WAITERS_LIST_ITEM ENTRIES e)) as [->|Hne].
    + rewrite lookup_insert_eq. cbn. rewrite Hl. by apply sublist_length, filter_sublist_mono.
    + by rewrite lookup_insert_ne.
Qed.

Lemma Inv_add_waiter A L Q H X w :
  Inv A L Q H X ->
  waiter_ok A Q H (WAITERS_LIST_ITEM ENTRIES (w_entry w)) w -> not_waiting L (wkey w) ->
  (size (on_entry (w_entry w) H) + length (on_list L (w_entry w)) < 254)%nat ->
  Inv A (<[WAITERS_LIST_ITEM ENTRIES (w_entry w) := lst L (w_entry w) ++ [w]]> L) Q H X.
Proof.
  intros HI Hw Hnw Hroom. set (b := WAITERS_LIST_ITEM ENTRIES (w_entry w)) in *.
  assert (Hin : forall b' l1 w', <[b:=lst L (w_entry w) ++ [w]]> L !! b' = Some l1 -> w' ∈ l1 ->
      (b' = b /\ w' = w) \/ exists l2, L !! b' = Some l2 /\ w' ∈ l2).
  { intros b' l1 w'. destruct (decide (b = b')) as [<-|Hne].
    - rewrite lookup_insert_eq. intros [= <-] [Hw'|Hw']%elem_of_app; [|set_solver].
      right. unfold lst in Hw'. fold b in Hw'. destruct (L !! b); [eauto|set_solver].
    - rewrite lookup_insert_ne by done. eauto. }
  destruct HI. split; auto.
  - intros b' l1 w' Hl1 Hw'. destruct (Hin _ _ _ Hl1 Hw') as [[-> ->]|(? & ? & ?)]; eauto.
  - intros b' l1. destruct (decide (b = b')) as [<-|Hne].
    + rewrite lookup_insert_eq. intros [= <-]. unfold lst. fold b.
      rewrite fmap_app. apply NoDup_app. cbn. split; [|split; [|apply NoDup_singleton]].
      * destruct (L !! b) as [l|] eqn:E; [eauto|constructor].
      * intros k (w' & -> & Hw')%list_elem_of_fmap Hk. apply list_elem_of_singleton in Hk.
        destruct (L !! b) as [l|] eqn:E; [|set_solver]. by apply (Hnw b l w' E Hw').
    + rewrite lookup_insert_ne by done. eauto.
  - intros b1 b2 l1 l2 w1 w2 H1 H2 Hw1 Hw2 Hk.
    destruct (Hin _ _ _ H1 Hw1) as [[-> ->]|(? & ? & ?)],
      (Hin _ _ _ H2 Hw2) as [[-> ->]|(? & ? & ?)]; eauto.
    + exfalso. by eapply Hnw.
    + exfalso. by eapply Hnw.
  - intros e. specialize (inv_room0 e). unfold on_list, lst in *.
    destruct (decide (b = WAITERS_LIST_ITEM ENTRIES e)) as [E|Hne].
    + rewrite E, lookup_insert_eq. cbn. fold b. rewrite E, filter_app, length_app. cbn.
      case_decide as Ew; cbn; [subst e; lia|lia].
    + by rewrite lookup_insert_ne.
Qed.

Definition bits_clear (Q Q' : gmap Z lreq) (k : Z * Z) : Prop :=
  (forall r, is_Some (Q !! r) -> is_Some (Q' !! r)) /\
  forall k', bit Q' k' = if decide (k' = k) then false else bit Q k'.

Lemma Inv_clear A L Q H X Q' k :
  Inv A L Q H X -> H !! k = None -> bits_clear Q Q' k -> Inv A L Q' H (X ∖ {[k]}).
Proof.
  intros HI Hk [Hdom Hb]. destruct HI. split; auto.
  - intros k' x Hk'. rewrite Hb. case_decide; [naive_solver|eauto].
  - intros k'. rewrite Hb. case_decide; [done|]. intros Hs.
    destruct (inv_stale0 _ Hs); [auto|set_solver].
  - intros b l w Hl Hw. destruct (inv_wait0 _ _ _ Hl Hw) as (? & ? & ? & ? & ? & ?).
    unfold waiter_ok. eauto 10.
Qed.

(** A request whose words other than the bits change keeps the invariant. *)
Lemma Inv_same_bits A L Q H X Q' :
  Inv A L Q H X -> (forall r, is_Some (Q !! r) -> is_Some (Q' !! r)) ->
  (forall k, bit Q' k = bit Q k) -> Inv A L Q' H X.
Proof.
  intros HI Hdom Hb. destruct HI. split; auto.
  - intros k x Hk. rewrite Hb. eauto.
  - intros k. rewrite Hb. auto.
  - intros b l w Hl Hw. destruct (inv_wait0 _ _ _ Hl Hw) as (? & ? & ? & ? & ? & ?).
    unfold waiter_ok. eauto 10.
Qed.
End Invariant.

(** ** The code, one critical section at a time *)

(** The state after [grant]: the bit is set, the counter is decremented and,
    when it reaches zero, the request is resumed. *)
Definition granted_req (q : lreq) (i : Z) : lreq :=
  LReq (lock_remaining q - 1) (Z.setbit (alock_status q) i) (alock_rw q) (is_deferred q).

Definition granted (s : alock) (r i c : Z) (q : lreq) : alock :=
  let s1 := set_reqs (insert r (granted_req q i)) s in
  if bool_decide (lock_remaining q - 1 = 0)
  then set_resumed (fun l => l ++ [(c, r)]) (set_waiting (fun n => n - 1) s1) else s1.

Lemma set_reqs_twice r q1 q2 s :
  set_reqs (insert r q2) (set_reqs (insert r q1) s) = set_reqs (insert r q2) s.
Proof. unfold set_reqs. cbn. by rewrite insert_insert_eq. Qed.

Lemma grant_run s r i c q :
  reqs s !! r = Some q -> c <> 0 -> grant r i c s = Some (tt, granted s r i c q).
Proof.
  intros Hq Hc.
  unfold grant, ocf_alock_mark_index_locked, ocf_alock_entry_locked, lock_remaining_dec_return,
    load_req, store_req, granted, load, when, bug_on, modify, mbind, M_bind, mret, M_ret.
  rewrite Hq. cbn. rewrite lookup_insert_eq. cbn. unfold set_reqs. cbn.
  rewrite insert_insert_eq. case_bool_decide as E; cbn; [|done].
  by rewrite bool_decide_eq_false_2.
Qed.

Lemma granted_frame s r i c q :
  access (granted s r i c q) = access s /\ waiters_lsts (granted s r i c q) = waiters_lsts s /\
  reqs (granted s r i c q) = <[r:=granted_req q i]> (reqs s).
Proof. unfold granted. by case_bool_decide. Qed.

Lemma bits_set_granted Q r i q :
  Q !! r = Some q -> 0 <= i -> bits_set Q (<[r:=granted_req q i]> Q) (r, i).
Proof.
  intros Hq Hi. split.
  - intros r' Hr. rewrite lookup_insert. case_decide; [eauto|done].
  - intros [r' i']. unfold bit. cbn. rewrite lookup_insert. case_decide as E; subst.
    + rewrite Hq. cbn. case_decide as E'.
      * injection E' as ->. by rewrite Z.setbit_eq.
      * rewrite Z.setbit_neq; [done|done|congruence].
    + rewrite decide_False by congruence. done.
Qed.

(** *** The atomic operations on an access word *)

Lemma trylock_wr_run s e v :
  access s !! e = Some v ->
  ocf_alock_trylock_entry_wr e s =
    Some (bool_decide (v = OCF_CACHE_LINE_ACCESS_IDLE),
          if bool_decide (v = OCF_CACHE_LINE_ACCESS_IDLE)
          then set_access (insert e OCF_CACHE_LINE_ACCESS_WR) s else s).
Proof.
  intros Hv. unfold ocf_alock_trylock_entry_wr, access_cmpxchg, access_set, access_read.
  m_unfold. rewrite Hv. by repeat (case_bool_decide; try done; cbv [mret M_ret]).
Qed.

Lemma trylock_rd_idle_run s e v :
  access s !! e = Some v ->
  ocf_alock_trylock_entry_rd_idle e s =
    Some (bool_decide (v = OCF_CACHE_LINE_ACCESS_IDLE),
          if bool_decide (v = OCF_CACHE_LINE_ACCESS_IDLE)
          then set_access (insert e OCF_CACHE_LINE_ACCESS_ONE_RD) s else s).
Proof.
  intros Hv. unfold ocf_alock_trylock_entry_rd_idle, access_cmpxchg, access_set, access_read.
  m_unfold. rewrite Hv. by repeat (case_bool_decide; try done; cbv [mret M_ret]).
Qed.

Lemma trylock_rd_run s e v :
  access s !! e = Some v ->
  ocf_alock_trylock_entry_rd e s =
    Some (negb (bool_decide (v = OCF_CACHE_LINE_ACCESS_WR)),
          if bool_decide (v = OCF_CACHE_LINE_ACCESS_WR) then s
          else set_access (insert e (u8 (v + 1))) s).
Proof.
  intros Hv. unfold ocf_alock_trylock_entry_rd, access_add_unless, access_set, access_read.
  m_unfold. rewrite Hv. by repeat (case_bool_decide; try done; cbv [mret M_ret]).
Qed.

Lemma set_access_id s e v : access s !! e = Some v -> set_access (insert e v) s = s.
Proof. intros Hv. destruct s. unfold set_access. cbn in *. by rewrite insert_id. Qed.

(** The word and the answer of the first exchange of an unlock. *)
Definition exchange_word (held m : rw) (v : Z) : bool * Z :=
  match held, m with
  | OCF_READ, OCF_WRITE =>
      if bool_decide (v = OCF_CACHE_LINE_ACCESS_ONE_RD) then (true, OCF_CACHE_LINE_ACCESS_WR)
      else (false, v)
  | OCF_READ, OCF_READ => (true, v)
  | OCF_WRITE, OCF_WRITE => (true, v)
  | OCF_WRITE, OCF_READ => (true, OCF_CACHE_LINE_ACCESS_ONE_RD)
  end.

Definition held_word (held : rw) (v : Z) : Prop :=
  match held with
  | OCF_WRITE => v = OCF_CACHE_LINE_ACCESS_WR
  | OCF_READ => 0 < v < OCF_CACHE_LINE_ACCESS_WR
  end.

Lemma exchange_lock_run s held w e v :
  access s !! e = Some v -> held_word held v ->
  exchange_lock held true w e s =
    Some ((exchange_word held (w_rw w) v).1,
          set_access (insert e (exchange_word held (w_rw w) v).2) s).
Proof.
  intros Hv Hh. unfold held_word, OCF_CACHE_LINE_ACCESS_WR in Hh.
  destruct held, (w_rw w) eqn:Em; unfold exchange_lock; rewrite Em;
    unfold ocf_alock_trylock_entry_rd2wr, ocf_alock_trylock_entry_rd2rd,
      ocf_alock_trylock_entry_wr2wr, ocf_alock_trylock_entry_wr2rd, access_cmpxchg, access_read,
      access_set, exchange_word,
      OCF_CACHE_LINE_ACCESS_WR, OCF_CACHE_LINE_ACCESS_IDLE, OCF_CACHE_LINE_ACCESS_ONE_RD;
    m_unfold; rewrite Hv; repeat (case_bool_decide; try lia; cbv [mret M_ret]); rewrite ?Hv;
    repeat (case_bool_decide; try lia; cbv [mret M_ret]); cbn; rewrite ?set_access_id by done; done.
Qed.

(** *** The wake-up loop *)

(** The locks gained by the waiters [l]: those whose bit is set in [Q]. *)
Definition hand_out (Q : gmap Z lreq) (H : held) (l : list waiter) : held :=
  foldl (fun acc w => if bit Q (wkey w) then <[wkey w := (w_entry w, w_rw w)]> acc else acc) H l.

Lemma hand_out_cons Q H w l :
  hand_out Q H (w :: l) =
    hand_out Q (if bit Q (wkey w) then <[wkey w := (w_entry w, w_rw w)]> H else H) l.
Proof. done. Qed.

Lemma hand_out_none Q H l :
  (forall w, w ∈ l -> bit Q (wkey w) = false) -> hand_out Q H l = H.
Proof.
  revert H. induction l as [|w l IH]; intros H Hl; [done|]. cbn.
  rewrite Hl by left. apply IH. intros w' Hw'. apply Hl. by right.
Qed.

Section Wake.
Variable ENTRIES : Z.

Abbreviation INV s L H X := (Inv ENTRIES (access s) L (reqs s) H X).

(** Only bits of waiters of [l] appear, and nothing else of the lock moves. *)
Definition woke (s s' : alock) (l : list waiter) : Prop :=
  waiters_lsts s' = waiters_lsts s /\ alloc s' = alloc s /\
  (forall r, is_Some (reqs s !! r) <-> is_Some (reqs s' !! r)) /\
  (forall k, bit (reqs s) k = true -> bit (reqs s') k = true) /\
  (forall k, bit (reqs s') k = true -> bit (reqs s) k = true \/ k ∈ wkey <$> l).

Lemma woke_refl s l : woke s s l.
Proof. unfold woke. naive_solver. Qed.

Lemma woke_skip s s' w l : woke s s' l -> woke s s' (w :: l).
Proof.
  intros (? & ? & ? & ? & Hb). repeat split; try done; [naive_solver..|].
  intros k Hk. destruct (Hb k Hk); [auto|]. right. by right.
Qed.

Lemma woke_grant s s1 s' w q l e v :
  s1 = granted (set_access (insert e v) s) (w_req w) (w_idx w) (w_cmpl w) q ->
  reqs s !! w_req w = Some q -> 0 <= w_idx w ->
  woke s1 s' l -> woke s s' (w :: l).
Proof.
  intros -> Hq Hi (Hl & Ha & Hd & Hm & Hb).
  destruct (granted_frame (set_access (insert e v) s) (w_req w) (w_idx w) (w_cmpl w) q)
    as (_ & El & Er). rewrite Er in *. cbn [reqs set_access] in *.
  destruct (bits_set_granted (reqs s) (w_req w) (w_idx w) q Hq Hi) as [Hdom Hbits].
  split; [by rewrite Hl, El|]. split; [|split; [|split]].
  - rewrite Ha. unfold granted. by case_bool_decide.
  - intros r. rewrite <- Hd, lookup_insert. case_decide; subst; [|done].
    rewrite Hq. split; eauto.
  - intros k Hk. apply Hm. rewrite Hbits. by case_decide.
  - intros k Hk. destruct (Hb k Hk) as [Hk'|Hk']; [|right; by right].
    rewrite Hbits in Hk'. case_decide as E; [|auto]. right. rewrite E. by left.
Qed.

(** What the invariant gives for the head of the rest of the bucket. *)
Lemma Inv_bucket_head s L b H X pre w l :
  Inv ENTRIES (access s) (<[b := pre ++ w :: l]> L) (reqs s) H X ->
  waiter_ok ENTRIES (access s) (reqs s) H b w /\
  not_waiting (<[b := pre ++ l]> L) (wkey w) /\
  wkey w ∉ wkey <$> l /\
  INV s (<[b := pre ++ l]> L) H X /\
  (length (on_list ENTRIES (<[b := pre ++ l]> L) (w_entry w)) <
   length (on_list ENTRIES (<[b := pre ++ w :: l]> L) (w_entry w)))%nat.
Proof.
  intros HI.
  assert (Hl : <[b := pre ++ w :: l]> L !! b = Some (pre ++ w :: l)) by apply lookup_insert_eq.
  pose proof (inv_wait _ _ _ _ _ _ HI b _ w Hl ltac:(set_solver)) as Hw.
  pose proof (inv_nodup _ _ _ _ _ _ HI b _ Hl) as Hnd.
  rewrite fmap_app, fmap_cons in Hnd. apply NoDup_app in Hnd as (_ & Hnd1 & [Hnd2 _]%NoDup_cons).
  split; [done|]. split; [|split; [done|split]].
  - intros b' l1 w1 Hl1 Hw1 Hk. destruct (decide (b = b')) as [<-|Hne].
    + rewrite lookup_insert_eq in Hl1. injection Hl1 as <-.
      apply elem_of_app in Hw1 as [Hw1|Hw1].
      * apply (Hnd1 (wkey w1)); [by apply list_elem_of_fmap_2|]. rewrite Hk. by left.
      * apply Hnd2. rewrite <- Hk. by apply list_elem_of_fmap_2.
    + rewrite lookup_insert_ne in Hl1 by done.
      apply Hne. symmetry. eapply (inv_cross _ _ _ _ _ _ HI b' b l1 _ w1 w); try done.
      * by rewrite lookup_insert_ne.
      * set_solver.
  - rewrite <- (insert_insert_eq L b (pre ++ l) (pre ++ w :: l)).
    eapply Inv_drop_waiters; [exact HI|by rewrite lookup_insert_eq|].
    cbn. apply sublist_app; [done|]. by constructor.
  - unfold on_list, lst. destruct Hw as (-> & _). rewrite !lookup_insert_eq. cbn.
    rewrite !filter_app, filter_cons, !length_app. rewrite decide_True by done. cbn. lia.
Qed.

(** After the first hand-over the entry is held and the loop only adds
    readers to it, if anything. *)
Lemma wake_more heldm e b L l : forall pre s H X,
  b = WAITERS_LIST_ITEM ENTRIES e ->
  Inv ENTRIES (access s) (<[b := pre ++ l]> L) (reqs s) H X ->
  (exists v, access s !! e = Some v /\ v <> OCF_CACHE_LINE_ACCESS_IDLE) ->
  (forall k, k ∈ wkey <$> l -> k ∉ X) ->
  wp (wake_waiters heldm e false l) (fun p s' =>
    p.1 = false /\ woke s s' l /\
    Inv ENTRIES (access s') (<[b := pre ++ p.2]> L) (reqs s') (hand_out (reqs s') H l) X) s.
Proof.
  induction l as [|w l IH]; intros pre s H X Hb HI [v [Hv Hnz]] HX.
  { apply wp_ret. split; [done|]. split; [apply woke_refl|]. done. }
  destruct (Inv_bucket_head _ _ _ _ _ _ _ _ HI) as (Hw & Hnw & Hnk & HI' & Hlen).
  assert (Hnb : forall s', woke s s' l -> bit (reqs s') (wkey w) = false).
  { intros s' (_ & _ & _ & _ & Hbits). apply not_true_iff_false. intros Ht.
    destruct (Hbits _ Ht) as [Ht'|?]; [|done].
    destruct Hw as (_ & _ & _ & Hk & _). 
    destruct (inv_stale _ _ _ _ _ _ HI _ Ht') as [[x Hx]|Hx]; [congruence|].
    apply (HX (wkey w)); [by left|done]. }
  cbn [wake_waiters]. case_bool_decide as Hent.
  - apply wp_bind. rewrite cons_middle, app_assoc in HI.
    eapply wp_mono; [apply (IH (pre ++ [w]) s H X); try done; [by eauto|]|].
    { intros k Hk. apply HX. by right. }
    intros [ex l2] s' (Hex & Hwoke & HI2). apply wp_ret. cbn in *.
    split; [done|]. split; [by apply woke_skip|].
    rewrite Hnb by done. by rewrite <- app_assoc in HI2.
  - subst e.
    destruct Hw as (Hwb & _ & [q Hq] & Hk & Hc & Hi).
    pose proof (inv_acc _ _ _ _ _ _ HI _ _ Hv) as Hacc.
    pose proof (inv_room _ _ _ _ _ _ HI (w_entry w)) as Hroom.
    assert (Hstop : wp (mret (false, w :: l)) (fun p s' =>
        p.1 = false /\ woke s s' (w :: l) /\
        Inv ENTRIES (access s') (<[b:=pre ++ p.2]> L) (reqs s') (hand_out (reqs s') H (w :: l)) X) s).
    { apply wp_ret. split; [done|]. split; [apply woke_refl|]. cbn [snd].
      rewrite hand_out_none; [done|]. intros w' Hw'. apply not_true_iff_false. intros Ht.
      destruct (inv_wait _ _ _ _ _ _ HI b _ w' (lookup_insert_eq _ _ _) ltac:(set_solver))
        as (_ & _ & _ & Hk' & _).
      destruct (inv_stale _ _ _ _ _ _ HI _ Ht) as [[x Hx]|Hx]; [congruence|].
      apply (HX (wkey w')); [by apply list_elem_of_fmap_2|done]. }
    apply wp_bind. unfold exchange_lock. destruct (w_rw w) eqn:Em.
    + unfold wp at 1. rewrite (trylock_rd_run _ _ _ Hv). case_bool_decide as Ewr; [exact Hstop|].
      cbn [negb]. apply wp_bind. unfold wp at 1.
      erewrite grant_run by done. 
      assert (Hsz : (size (on_entry (w_entry w) H) < 254)%nat) by lia.
      assert (Hv1 : u8 (v + 1) = v + 1).
      { apply wrap_small. pose proof (access_ok_range _ _ Hacc).
        unfold OCF_CACHE_LINE_ACCESS_WR in Ewr. lia. }
      rewrite Hv1. clear Hv1.
      assert (HI2 : Inv ENTRIES (<[w_entry w := v + 1]> (access s)) (<[b:=pre ++ l]> L)
          (<[w_req w := granted_req q (w_idx w)]> (reqs s))
          (<[wkey w := (w_entry w, OCF_READ)]> H) X).
      { eapply Inv_acquire; try done; [by apply bits_set_granted| | |].
        - apply access_ok_rd_new; try done. by apply on_entry_None.
        - pose proof (access_ok_range _ _ Hacc). unfold OCF_CACHE_LINE_ACCESS_IDLE. lia.
        - lia. }
      destruct (granted_frame (set_access <[w_entry w:=v + 1]> s) (w_req w) (w_idx w) (w_cmpl w) q)
        as (Ea & El & Er). cbn [access reqs set_access] in Ea, Er.
      eapply wp_mono; [apply (IH pre _ (<[wkey w:=(w_entry w, OCF_READ)]> H) X)|].
      * done.
      * by rewrite Ea, Er.
      * rewrite Ea, lookup_insert_eq. eexists. split; [done|].
        pose proof (access_ok_range _ _ Hacc). unfold OCF_CACHE_LINE_ACCESS_IDLE. lia.
      * intros k Hk'. apply HX. by right.
      * intros [ex l2] s' (Hex & Hwoke & HI3). cbn in *. split; [done|].
        assert (Hbw : bit (reqs s') (wkey w) = true).
        { destruct Hwoke as (_ & _ & _ & Hm & _). apply Hm. rewrite Er.
          destruct (bits_set_granted (reqs s) (w_req w) (w_idx w) q Hq Hi) as [_ ->].
          by rewrite decide_True. }
        split; [by eapply woke_grant|]. by rewrite Hbw, Em.
    + unfold wp at 1. rewrite (trylock_wr_run _ _ _ Hv).
      rewrite bool_decide_eq_false_2 by done. exact Hstop.
Qed.

(** The first hand-over: either nothing happens, and then no waiter of the
    entry is left or other readers remain, or the lock of [k0] goes to the
    first waiter and the rest of the loop follows. *)
Lemma wake_first heldm e b L k0 l : forall pre s H X,
  b = WAITERS_LIST_ITEM ENTRIES e ->
  Inv ENTRIES (access s) (<[b := pre ++ l]> L) (reqs s) H X ->
  H !! k0 = Some (e, heldm) ->
  (forall k, k ∈ wkey <$> l -> k ∉ X) ->
  wp (wake_waiters heldm e true l) (fun p s' =>
    if p.1 : bool then
      s' = s /\ p.2 = l /\
      ((forall w, w ∈ l -> w_entry w <> e) \/
       (heldm = OCF_READ /\ exists v, access s !! e = Some v /\ 1 < v))
    else
      woke s s' l /\
      Inv ENTRIES (access s') (<[b := pre ++ p.2]> L) (reqs s')
        (hand_out (reqs s') (delete k0 H) l) ({[k0]} ∪ X)) s.
Proof.
  induction l as [|w l IH]; intros pre s H X Hb HI Hk0 HX.
  { apply wp_ret. cbn. split; [done|]. split; [done|]. left. set_solver. }
  destruct (Inv_bucket_head _ _ _ _ _ _ _ _ HI) as (Hw & Hnw & Hnk & HI' & Hlen).
  cbn [wake_waiters]. case_bool_decide as Hent.
  - assert (Hnb : forall s', woke s s' l -> bit (reqs s') (wkey w) = false).
    { intros s' (_ & _ & _ & _ & Hbits). apply not_true_iff_false. intros Ht.
      destruct (Hbits _ Ht) as [Ht'|?]; [|done].
      destruct Hw as (_ & _ & _ & Hk & _).
      destruct (inv_stale _ _ _ _ _ _ HI _ Ht') as [[x Hx]|Hx]; [congruence|].
      apply (HX (wkey w)); [by left|done]. }
    apply wp_bind. rewrite cons_middle, app_assoc in HI.
    eapply wp_mono; [apply (IH (pre ++ [w]) s H X); try done|].
    { intros k Hk. apply HX. by right. }
    intros [[] l2] s' HQ; apply wp_ret; cbn in *.
    + destruct HQ as (-> & -> & Hc). split; [done|]. split; [done|].
      destruct Hc as [Hc|?]; [left|by right]. intros w' [->|?]%elem_of_cons; auto.
    + destruct HQ as (Hwoke & HI2). split; [by apply woke_skip|].
      rewrite Hnb by done. by rewrite <- app_assoc in HI2.
  - subst e. destruct Hw as (Hwb & _ & [q Hq] & Hk & Hc & Hi).
    destruct (inv_dom _ _ _ _ _ _ HI _ _ _ Hk0) as [v Hv].
    pose proof (inv_acc _ _ _ _ _ _ HI _ _ Hv) as Hacc.
    assert (Hon : on_entry (w_entry w) H !! k0 = Some (w_entry w, heldm))
      by (apply on_entry_lookup; auto).
    pose proof (access_ok_mode _ _ _ _ Hacc Hon) as [Hmw Hmr].
    assert (Hheld : held_word heldm v) by (destruct heldm; cbn; auto).
    assert (Hkw : on_entry (w_entry w) H !! wkey w = None) by (by apply on_entry_None).
    apply wp_bind. unfold wp at 1. erewrite exchange_lock_run by done.
    destruct (exchange_word heldm (w_rw w) v) as [[] v'] eqn:Ex; cbn [fst snd].
    + assert (Hx : access_ok v' (<[wkey w := (w_entry w, w_rw w)]> (delete k0 (on_entry (w_entry w) H)))
                   /\ v' <> OCF_CACHE_LINE_ACCESS_IDLE).
      { destruct heldm, (w_rw w); cbn in Ex; try case_bool_decide; try done;
          injection Ex as <-; subst; try (specialize (Hmw eq_refl); subst).
        - split; [by apply access_ok_rd_swap|]. specialize (Hmr eq_refl).
          unfold OCF_CACHE_LINE_ACCESS_IDLE. lia.
        - erewrite access_ok_one by done. split; [apply access_ok_wr_new|done].
        - destruct (access_ok_wr_inv _ _ _ Hacc Hon) as [-> _]. rewrite delete_singleton_eq.
          split; [|done]. apply (access_ok_rd_new 0); [apply access_ok_empty|done|rewrite map_size_empty; lia|done].
        - destruct (access_ok_wr_inv _ _ _ Hacc Hon) as [-> _]. rewrite delete_singleton_eq.
          split; [apply access_ok_wr_new|done]. }
      destruct Hx as [Hok Hnz]. apply wp_bind. unfold wp at 1.
      erewrite grant_run by done.
      assert (HI2 : Inv ENTRIES (<[w_entry w := v']> (access s)) (<[b:=pre ++ l]> L)
          (<[w_req w := granted_req q (w_idx w)]> (reqs s))
          (<[wkey w := (w_entry w, w_rw w)]> (delete k0 H)) ({[k0]} ∪ X)).
      { eapply Inv_exchange; try done. by apply bits_set_granted. }
      destruct (granted_frame (set_access <[w_entry w:=v']> s) (w_req w) (w_idx w) (w_cmpl w) q)
        as (Ea & El & Er). cbn [access reqs set_access] in Ea, Er.
      eapply wp_mono; [eapply (wake_more _ _ b L l pre _ _ ({[k0]} ∪ X))|].
      * done.
      * rewrite Ea, Er. exact HI2.
      * rewrite Ea, lookup_insert_eq. eauto.
      * intros k Hk' [->%elem_of_singleton|Hx]%elem_of_union; [|by apply (HX k); [right|]].
        apply list_elem_of_fmap in Hk' as (w' & -> & Hw').
        destruct (inv_wait _ _ _ _ _ _ HI b _ w' (lookup_insert_eq _ _ _) ltac:(set_solver))
          as (_ & _ & _ & Hk' & _). congruence.
      * intros [ex l2] s' (Hex & Hwoke & HI3). cbn in *. subst ex.
        assert (Hbw : bit (reqs s') (wkey w) = true).
        { destruct Hwoke as (_ & _ & _ & Hm & _). apply Hm. rewrite Er.
          destruct (bits_set_granted (reqs s) (w_req w) (w_idx w) q Hq Hi) as [_ ->].
          by rewrite decide_True. }
        split; [by eapply woke_grant|]. by rewrite Hbw.
    + apply wp_ret. cbn.
      destruct heldm, (w_rw w); cbn in Ex; try case_bool_decide; try done.
      injection Ex as <-. rewrite set_access_id by done. split; [done|]. split; [done|].
      right. split; [done|]. exists v. split; [done|].
      cbn in Hheld. unfold OCF_CACHE_LINE_ACCESS_ONE_RD in *. lia.
Qed.

(** Both unlock paths: the lock of [k0] is given up or handed over. *)
Definition unlock_common (m : rw) (e : Z) : Alock.M unit :=
  match m with
  | OCF_READ => ocf_alock_unlock_one_rd_common ENTRIES e
  | OCF_WRITE => ocf_alock_unlock_one_wr_common ENTRIES e
  end.

Lemma unlock_entry_run m e s v :
  access s !! e = Some v -> held_word m v ->
  (match m with
   | OCF_READ => ocf_alock_unlock_entry_rd e
   | OCF_WRITE => ocf_alock_unlock_entry_wr e
   end) s =
  Some (tt, set_access (insert e (match m with OCF_READ => v - 1 | OCF_WRITE => 0 end)) s).
Proof.
  intros Hv Hh. unfold held_word, OCF_CACHE_LINE_ACCESS_WR in Hh.
  destruct m;
    unfold ocf_alock_unlock_entry_rd, ocf_alock_unlock_entry_wr, access_set, access_read,
      OCF_CACHE_LINE_ACCESS_WR; m_unfold; rewrite Hv;
    repeat (case_bool_decide; try lia; cbv [mret M_ret]).
  - rewrite wrap_small by lia. done.
  - done.
Qed.

Lemma unlock_common_wp m e k0 s H :
  alock_inv ENTRIES s H -> H !! k0 = Some (e, m) ->
  wp (unlock_common m e) (fun _ s' =>
    Inv ENTRIES (access s') (waiters_lsts s') (reqs s')
      (hand_out (reqs s') (delete k0 H) (bucket ENTRIES s e)) {[k0]} /\
    alloc s' = alloc s /\
    (forall r, is_Some (reqs s !! r) <-> is_Some (reqs s' !! r)) /\
    (forall k, bit (reqs s) k = true -> bit (reqs s') k = true)) s.
Proof.
  intros HI Hk0. set (b := WAITERS_LIST_ITEM ENTRIES e).
  assert (HIb : Inv ENTRIES (access s) (<[b:=[] ++ bucket ENTRIES s e]> (waiters_lsts s)) (reqs s) H ∅)
    by (by eapply Inv_drop_waiters).
  assert (Hnew : forall w, w ∈ bucket ENTRIES s e -> bit (reqs s) (wkey w) = false).
  { intros w Hw. apply not_true_iff_false. intros Ht.
    destruct (inv_wait _ _ _ _ _ _ HIb b _ w (lookup_insert_eq _ _ _) Hw) as (_ & _ & _ & Hk & _).
    destruct (inv_stale _ _ _ _ _ _ HIb _ Ht) as [[x Hx]|Hx]; [congruence|set_solver]. }
  assert (Hbody : wp (
      l ← gets (fun s => bucket ENTRIES s e);
      p ← wake_waiters m e true l;
      _ ← store_bucket ENTRIES e p.2;
      when p.1 (match m with
                | OCF_READ => ocf_alock_unlock_entry_rd e
                | OCF_WRITE => ocf_alock_unlock_entry_wr e
                end)) (fun _ s' =>
    Inv ENTRIES (access s') (waiters_lsts s') (reqs s')
      (hand_out (reqs s') (delete k0 H) (bucket ENTRIES s e)) {[k0]} /\
    alloc s' = alloc s /\
    (forall r, is_Some (reqs s !! r) <-> is_Some (reqs s' !! r)) /\
    (forall k, bit (reqs s) k = true -> bit (reqs s') k = true)) s).
  { apply wp_bind, wp_gets, wp_bind.
    eapply wp_mono; [by apply (wake_first m e b (waiters_lsts s) k0 _ [] s H ∅)|].
    intros [ex l2] s' HQ. apply wp_bind, wp_modify. cbn [fst snd] in *. destruct ex.
    - destruct HQ as (-> & -> & Hc). apply wp_when; [intros _|done].
      destruct (inv_dom _ _ _ _ _ _ HI _ _ _ Hk0) as [v Hv].
      pose proof (inv_acc _ _ _ _ _ _ HI _ _ Hv) as Hacc.
      assert (Hon : on_entry e H !! k0 = Some (e, m)) by (apply on_entry_lookup; auto).
      pose proof (access_ok_mode _ _ _ _ Hacc Hon) as [Hmw Hmr].
      unfold wp. erewrite unlock_entry_run; [|exact Hv|destruct m; cbn; auto].
      cbn [access waiters_lsts reqs alloc set_access set_lsts].
      split; [|done]. rewrite hand_out_none by done. rewrite <- (union_empty_r_L {[k0]}).
      eapply Inv_release; [exact HIb|done| |].
      + destruct m; [by eapply access_ok_rd_drop|].
        specialize (Hmw eq_refl). subst v.
        destruct (access_ok_wr_inv _ _ _ Hacc Hon) as [-> _]. rewrite delete_singleton_eq.
        apply access_ok_empty.
      + destruct Hc as [Hc|(-> & v' & Hv' & Hlt)].
        * right. unfold on_list, lst. fold b. rewrite lookup_insert_eq. cbn.
          apply list_eq_nil_filter. done.
        * left. rewrite Hv in Hv'. injection Hv' as <-. unfold OCF_CACHE_LINE_ACCESS_IDLE. lia.
    - destruct HQ as (Hwoke & HI2). rewrite union_empty_r_L in HI2.
      destruct Hwoke as (El & Ea & Hd & Hm & _). cbn.
      split; [|split; [done|split; done]]. by rewrite El. }
  by destruct m.
Qed.
End Wake.

(** ** Taking a lock *)

Section Lock.
Variable ENTRIES : Z.

(** What a client has to ensure before it asks for entry [e] on behalf of
    index [k.2] of request [k.1]: the pair neither holds nor awaits a lock,
    and fewer than 254 locks of [e] are held or awaited. *)
Definition lockable (s : alock) (H : held) (e : Z) (k : Z * Z) (c : Z) : Prop :=
  H !! k = None /\ not_waiting (waiters_lsts s) k /\ is_Some (reqs s !! k.1) /\ 0 <= k.2 /\
  c <> 0 /\ is_Some (access s !! e) /\
  (size (on_entry e H) + length (on_list ENTRIES (waiters_lsts s) e) < 254)%nat.

Definition gain (s' : alock) (H : held) (k : Z * Z) (e : Z) (m : rw) : held :=
  if bit (reqs s') k then <[k := (e, m)]> H else H.

Lemma lockable_bit s H e k c :
  alock_inv ENTRIES s H -> lockable s H e k c -> bit (reqs s) k = false.
Proof.
  intros HI (Hk & _). apply not_true_iff_false. intros Ht.
  destruct (inv_stale _ _ _ _ _ _ HI _ Ht) as [[? ?]|?]; [congruence|set_solver].
Qed.

(** Taking the lock: a new word that fits, then the grant. *)
Lemma take_wp s H e r i c v v' m :
  alock_inv ENTRIES s H -> lockable s H e (r, i) c -> access s !! e = Some v ->
  access_ok v' (<[(r, i) := (e, m)]> (on_entry e H)) -> v' <> OCF_CACHE_LINE_ACCESS_IDLE ->
  wp (grant r i c) (fun _ s' => alock_inv ENTRIES s' (gain s' H (r, i) e m))
     (set_access (insert e v') s).
Proof.
  intros HI Hlk Hv Hok Hnz. pose proof (lockable_bit _ _ _ _ _ HI Hlk) as Hb.
  destruct Hlk as (Hk & Hnw & [q Hq] & Hi & Hc & He & Hroom).
  unfold wp. erewrite grant_run by done.
  destruct (granted_frame (set_access <[e:=v']> s) r i c q) as (Ea & El & Er).
  cbn [access waiters_lsts reqs set_access fst] in *.
  destruct (bits_set_granted (reqs s) r i q Hq Hi) as [Hd Hbs].
  unfold gain, alock_inv. rewrite Er, Hbs, decide_True, Ea, El by done.
  eapply Inv_acquire; done.
Qed.

Definition lock_one_fast (m : rw) (e c r i : Z) : Alock.M bool :=
  match m with
  | OCF_READ => lock_one_rd_fast e c r i
  | OCF_WRITE => lock_one_wr_fast e c r i
  end.

Definition lock_one_slow (m : rw) (e c r i : Z) : Alock.M unit :=
  match m with
  | OCF_READ => lock_one_rd_slow ENTRIES e c r i
  | OCF_WRITE => lock_one_wr_slow ENTRIES e c r i
  end.

Lemma lock_one_fast_wp s H m e c r i :
  alock_inv ENTRIES s H -> lockable s H e (r, i) c ->
  wp (lock_one_fast m e c r i) (fun got s' =>
    alock_inv ENTRIES s' (gain s' H (r, i) e m) /\ (got = false -> s' = s)) s.
Proof.
  intros HI Hlk. pose proof (lockable_bit _ _ _ _ _ HI Hlk) as Hb.
  pose proof Hlk as (Hk & _ & _ & _ & _ & [v Hv] & Hroom).
  pose proof (inv_acc _ _ _ _ _ _ HI _ _ Hv) as Hacc.
  pose proof (on_entry_None H (r, i) e Hk) as Hon.
  assert (Hstop : alock_inv ENTRIES s (gain s H (r, i) e m)) by (unfold gain; by rewrite Hb).
  destruct m; cbn [lock_one_fast]; apply wp_bind; unfold wp at 1.
  - rewrite (trylock_rd_idle_run _ _ _ Hv). case_bool_decide as E; [subst v|by split].
    apply wp_bind. eapply wp_mono; [eapply (take_wp s H _ _ _ _ _ _ OCF_READ); try done|intros [] s' Hs'; apply wp_ret; by split].
    apply (access_ok_rd_new 0); try done. lia.
  - rewrite (trylock_wr_run _ _ _ Hv). case_bool_decide as E; [subst v|by split].
    apply wp_bind. eapply wp_mono; [eapply (take_wp s H _ _ _ _ _ _ OCF_WRITE); try done|intros [] s' Hs'; apply wp_ret; by split].
    rewrite (access_ok_idle _ Hacc). apply access_ok_wr_new.
Qed.

Lemma enqueue_wp s H m e c r i v :
  alock_inv ENTRIES s H -> lockable s H e (r, i) c ->
  access s !! e = Some v -> v <> OCF_CACHE_LINE_ACCESS_IDLE ->
  wp (ocf_alock_waitlist_add ENTRIES e (Waiter e i r c m)) (fun _ s' =>
    alock_inv ENTRIES s' (gain s' H (r, i) e m)) s.
Proof.
  intros HI Hlk Hv Hnz. pose proof (lockable_bit _ _ _ _ _ HI Hlk) as Hb.
  destruct Hlk as (Hk & Hnw & Hq & Hi & Hc & He & Hroom).
  apply wp_bind, wp_gets, wp_modify. unfold gain, alock_inv. cbn [reqs access waiters_lsts set_lsts].
  rewrite Hb.
  apply (Inv_add_waiter ENTRIES (access s) (waiters_lsts s) (reqs s) H ∅ (Waiter e i r c m)); try done.
  unfold waiter_ok. cbn. eauto 10.
Qed.

(** A waiter of [e] means that [e] is not idle. *)
Lemma waiting_not_idle s H e v :
  alock_inv ENTRIES s H -> access s !! e = Some v ->
  existsb (fun w => bool_decide (w_entry w = e)) (bucket ENTRIES s e) = true ->
  v <> OCF_CACHE_LINE_ACCESS_IDLE.
Proof.
  intros HI Hv (w & Hin & Hw)%existsb_exists. apply list_elem_of_In in Hin.
  apply bool_decide_eq_true in Hw. subst e. unfold bucket in Hin.
  destruct (waiters_lsts s !! _) as [l|] eqn:El; [|by apply elem_of_nil in Hin].
  destruct (inv_wait _ _ _ _ _ _ HI _ _ _ El Hin) as (_ & (v' & Hv' & ?) & _).
  rewrite Hv in Hv'. by injection Hv' as ->.
Qed.

Lemma lock_one_slow_wp s H m e c r i :
  alock_inv ENTRIES s H -> lockable s H e (r, i) c ->
  wp (lock_one_slow m e c r i) (fun _ s' => alock_inv ENTRIES s' (gain s' H (r, i) e m)) s.
Proof.
  intros HI Hlk. pose proof Hlk as (Hk & _ & _ & _ & _ & [v Hv] & Hroom).
  pose proof (inv_acc _ _ _ _ _ _ HI _ _ Hv) as Hacc.
  pose proof (on_entry_None H (r, i) e Hk) as Hon.
  destruct m; cbn [lock_one_slow].
  - apply wp_bind, wp_bind, wp_gets, wp_ret, wp_bind.
    destruct (existsb _ _) eqn:Ex; cbn [negb].
    { apply wp_ret. eapply enqueue_wp; try done. by eapply waiting_not_idle. }
    unfold wp at 1. rewrite (trylock_rd_run _ _ _ Hv). case_bool_decide as E; cbn [negb].
    { eapply enqueue_wp; try done. by subst v. }
    pose proof (access_ok_range _ _ Hacc).
    rewrite wrap_small by (unfold OCF_CACHE_LINE_ACCESS_WR in E; lia).
    eapply take_wp; try done.
    + apply access_ok_rd_new; try done. lia.
    + unfold OCF_CACHE_LINE_ACCESS_IDLE. lia.
  - apply wp_bind. unfold wp at 1. rewrite (trylock_wr_run _ _ _ Hv).
    case_bool_decide as E; [subst v|by eapply enqueue_wp].
    eapply take_wp; try done. rewrite (access_ok_idle _ Hacc). apply access_ok_wr_new.
Qed.

(** Giving a lock up, with the owner's bit cleared. *)
Definition unlock_one (m : rw) (e r i : Z) : Alock.M unit :=
  _ ← unlock_common ENTRIES m e; ocf_alock_mark_index_locked r i false.

Lemma bits_clear_mark Q r i q :
  Q !! r = Some q -> 0 <= i ->
  bits_clear Q (<[r := with_status (fun b => Z.clearbit b i) q]> Q) (r, i).
Proof.
  intros Hq Hi. split.
  - intros r' Hr. rewrite lookup_insert. case_decide; [eauto|done].
  - intros [r' i']. unfold bit. cbn. rewrite lookup_insert. case_decide as E; subst.
    + rewrite Hq. cbn. case_decide as E'.
      * injection E' as ->. by rewrite Z.clearbit_eq.
      * rewrite Z.clearbit_neq; [done|congruence].
    + by rewrite decide_False by congruence.
Qed.

Lemma hand_out_ext Q Q' H l :
  (forall w, w ∈ l -> bit Q (wkey w) = bit Q' (wkey w)) -> hand_out Q H l = hand_out Q' H l.
Proof.
  revert H. induction l as [|w l IH]; intros H Hl; [done|]. cbn.
  rewrite Hl by left. apply IH. intros w' Hw'. apply Hl. by right.
Qed.

Lemma hand_out_other Q H l k :
  k ∉ wkey <$> l -> hand_out Q H l !! k = H !! k.
Proof.
  revert H. induction l as [|w l IH]; intros H Hk; [done|]. rewrite hand_out_cons.
  rewrite fmap_cons, not_elem_of_cons in Hk. destruct Hk as [Hne Hk]. rewrite IH by done.
  destruct (bit Q (wkey w)); [by rewrite lookup_insert_ne|done].
Qed.

Lemma held_not_waiting s H k x e :
  alock_inv ENTRIES s H -> H !! k = Some x -> k ∉ wkey <$> bucket ENTRIES s e.
Proof.
  intros HI Hk (w & -> & Hw)%list_elem_of_fmap. unfold bucket in Hw.
  destruct (waiters_lsts s !! _) as [l|] eqn:El; [|by apply elem_of_nil in Hw].
  destruct (inv_wait _ _ _ _ _ _ HI _ _ _ El Hw) as (_ & _ & _ & Hn & _). congruence.
Qed.

Lemma unlock_one_wp s H m e r i :
  alock_inv ENTRIES s H -> H !! (r, i) = Some (e, m) ->
  wp (unlock_one m e r i) (fun _ s' =>
    alock_inv ENTRIES s' (hand_out (reqs s') (delete (r, i) H) (bucket ENTRIES s e))) s.
Proof.
  intros HI Hk. pose proof (held_not_waiting _ _ _ _ e HI Hk) as Hnw.
  assert (Hb : bit (reqs s) (r, i) = true) by (by eapply inv_set).
  apply wp_bind. eapply wp_mono; [by eapply unlock_common_wp|].
  intros [] s' (HI' & _ & Hd & Hm). specialize (Hm _ Hb).
  assert (exists q, reqs s' !! r = Some q /\ 0 <= i) as (q & Hq & Hi).
  { unfold bit in Hm. cbn in Hm. destruct (reqs s' !! r) as [q|]; [|done].
    exists q. split; [done|]. destruct (Z.neg_nonneg_cases i); [|done].
    by rewrite Z.testbit_neg_r in Hm. }
  apply wp_bind. eapply wp_load; [exact Hq|]. apply wp_modify.
  pose proof (bits_clear_mark _ _ _ _ Hq Hi) as Hbc. destruct Hbc as [Hbd Hbc].
  unfold alock_inv. cbn [access waiters_lsts reqs set_reqs].
  rewrite (hand_out_ext _ (reqs s')).
  2:{ intros w Hw. rewrite Hbc, decide_False; [done|]. intros E. apply Hnw.
      rewrite <- E. by apply list_elem_of_fmap_2. }
  rewrite <- (difference_diag_L {[(r, i)]} : _ = (∅ : gset (Z * Z))).
  eapply Inv_clear; [exact HI'| |by split].
  rewrite hand_out_other by done. apply lookup_delete_eq.
Qed.
End Lock.
