(* ===== verification/AlockSteps.v ===== *)
(** * Interleavings of the cache-line lock

    Any number of requests run the critical sections of [Alock] in any order.
    The step relation carries the ghost set of held locks; the theorems hold
    in every reachable state. *)

From S2P Require Import Prelude Alock AlockProofs.

Section Steps.
Variable ENTRIES : Z.

(** A state with the set of locks held in it. *)
Definition conf : Type := alock * held.

Inductive astep : conf -> conf -> Prop :=
| step_fast m e c r i s H got s' :
    lockable ENTRIES s H e (r, i) c ->
    lock_one_fast m e c r i s = Some (got, s') ->
    astep (s, H) (s', gain s' H (r, i) e m)
| step_slow m e c r i s H s' :
    lockable ENTRIES s H e (r, i) c ->
    lock_one_slow ENTRIES m e c r i s = Some (tt, s') ->
    astep (s, H) (s', gain s' H (r, i) e m)
| step_unlock m e r i s H s' :
    H !! (r, i) = Some (e, m) ->
    unlock_one ENTRIES m e r i s = Some (tt, s') ->
    astep (s, H) (s', hand_out (reqs s') (delete (r, i) H) (bucket ENTRIES s e))
| step_cancel m e r i s H s' :
    bit (reqs s) (r, i) = false ->
    ocf_alock_waitlist_remove_entry ENTRIES r e i m s = Some (tt, s') ->
    astep (s, H) (s', H)
| step_alloc s H ok s' :
    allocator_new s = Some (ok, s') -> astep (s, H) (s', H)
| step_owner r q q' s H :
    (** the owner of a request changes its counter, mode or deferred flag *)
    reqs s !! r = Some q -> alock_status q' = alock_status q ->
    astep (s, H) (set_reqs (insert r q') s, H).

Definition ainit (x : conf) : Prop :=
  x.2 = ∅ /\ map_Forall (fun _ v => v = OCF_CACHE_LINE_ACCESS_IDLE) (access x.1) /\
  waiters_lsts x.1 = ∅ /\ map_Forall (fun _ q => alock_status q = 0) (reqs x.1).

Definition areachable : conf -> Prop := reachable ainit astep.

Lemma ainit_inv x : ainit x -> alock_inv ENTRIES x.1 x.2.
Proof.
  destruct x as [s H]. intros (-> & Ha & Hl & Hq). cbn [fst snd] in *.
  unfold alock_inv. rewrite Hl. split; try set_solver.
  - intros e v Hv. rewrite (Ha _ _ Hv). apply access_ok_empty.
  - intros k Hb. exfalso. unfold bit in Hb. destruct (reqs s !! k.1) as [q|] eqn:E; [|done].
    rewrite (Hq _ _ E), Z.bits_0 in Hb. done.
  - intros e. unfold on_list, lst. rewrite lookup_empty. cbn. unfold on_entry.
    rewrite map_filter_empty, map_size_empty. lia.
Qed.

Lemma remove_first_of_sublist r l : remove_first_of r l `sublist_of` l.
Proof.
  induction l as [|w l IH]; cbn; [constructor|]. case_bool_decide; by constructor.
Qed.

Lemma cancel_run r e i m s s' :
  bit (reqs s) (r, i) = false ->
  ocf_alock_waitlist_remove_entry ENTRIES r e i m s = Some (tt, s') ->
  s' = set_lsts (insert (WAITERS_LIST_ITEM ENTRIES e)
                   (remove_first_of r (bucket ENTRIES s e))) s.
Proof.
  unfold bit, ocf_alock_waitlist_remove_entry, ocf_alock_is_index_locked, load_req, store_bucket.
  m_unfold. cbn [fst snd]. destruct (reqs s !! r) as [q|]; [|done].
  intros ->. by intros [= <-].
Qed.

Lemma astep_inv x y : alock_inv ENTRIES x.1 x.2 -> astep x y -> alock_inv ENTRIES y.1 y.2.
Proof.
  intros HI Hs. destruct Hs; cbn [fst snd] in *.
  - pose proof (lock_one_fast_wp _ _ _ m _ _ _ _ HI H0) as W. unfold wp in W.
    rewrite H1 in W. by destruct W.
  - pose proof (lock_one_slow_wp _ _ _ m _ _ _ _ HI H0) as W. unfold wp in W.
    by rewrite H1 in W.
  - pose proof (unlock_one_wp _ _ _ _ _ _ _ HI H0) as W. unfold wp in W.
    by rewrite H1 in W.
  - rewrite (cancel_run _ _ _ _ _ _ H0 H1).
    eapply Inv_drop_waiters; [exact HI|done|apply remove_first_of_sublist].
  - unfold allocator_new in H0. revert H0. m_unfold.
    destruct (alloc s); intros [= <- <-]; exact HI.
  - eapply Inv_same_bits; [exact HI| |].
    + intros r'. cbn. rewrite lookup_insert. case_decide; [eauto|done].
    + intros k. unfold bit. cbn. rewrite lookup_insert. case_decide; subst; [|done].
      by rewrite H0, H1.
Qed.

Lemma areachable_inv x : areachable x -> alock_inv ENTRIES x.1 x.2.
Proof.
  apply (reachable_invariant _ _ (fun x => alock_inv ENTRIES x.1 x.2)).
  - apply ainit_inv.
  - apply astep_inv.
Qed.

(** C8. Mutual exclusion.  In every state reachable by any interleaving of
    the lock's critical sections, two different (request, index) pairs hold
    the same cache line only if both hold it for reading; the held locks
    are exactly the pairs whose bit is set in their request. *)
Theorem alock_mutual_exclusion s H :
  areachable (s, H) ->
  (forall k, bit (reqs s) k = true <-> is_Some (H !! k)) /\
  (forall k1 k2 e m1 m2, k1 <> k2 -> H !! k1 = Some (e, m1) -> H !! k2 = Some (e, m2) ->
     m1 = OCF_READ /\ m2 = OCF_READ).
Proof.
  intros HI%areachable_inv. cbn [fst snd] in HI. split.
  - intros k. split.
    + intros Hb. destruct (inv_stale _ _ _ _ _ _ HI _ Hb); [done|set_solver].
    + intros [x Hx]. by eapply inv_set.
  - intros k1 k2 e m1 m2 Hne H1 H2.
    destruct (inv_dom _ _ _ _ _ _ HI _ _ _ H1) as [v Hv].
    pose proof (inv_acc _ _ _ _ _ _ HI _ _ Hv) as Hacc.
    assert (O1 : on_entry e H !! k1 = Some (e, m1)) by (apply on_entry_lookup; auto).
    assert (O2 : on_entry e H !! k2 = Some (e, m2)) by (apply on_entry_lookup; auto).
    destruct Hacc as [(_ & k & e' & E)|(_ & _ & Hall)].
    + rewrite E in O1, O2. apply lookup_singleton_Some in O1 as [-> _], O2 as [? _]. done.
    + split; [apply (Hall _ _ O1)|apply (Hall _ _ O2)].
Qed.

(** C9. No lost wake-up.  In every reachable state a waiter sits in the
    bucket of its cache line and that line is held by somebody, whose unlock
    will look at it; nobody waits for an idle line, for a line it already
    holds, or twice. *)
Theorem alock_no_lost_wakeup s H b l w :
  areachable (s, H) -> waiters_lsts s !! b = Some l -> w ∈ l ->
  WAITERS_LIST_ITEM ENTRIES (w_entry w) = b /\
  (exists k m, H !! k = Some (w_entry w, m)) /\
  H !! wkey w = None /\ NoDup (wkey <$> l).
Proof.
  intros HI%areachable_inv Hl Hw. cbn [fst snd] in HI.
  destruct (inv_wait _ _ _ _ _ _ HI _ _ _ Hl Hw) as (Hb & (v & Hv & Hnz) & _ & Hk & _).
  split; [done|]. split; [|split; [done|by eapply inv_nodup]].
  pose proof (inv_acc _ _ _ _ _ _ HI _ _ Hv) as Hacc.
  destruct (map_choose (on_entry (w_entry w) H)) as (k & [e m] & Hk').
  - intros E. rewrite E in Hacc. destruct Hacc as [(_ & k' & e' & E')|(E' & _)].
    + symmetry in E'. by apply map_non_empty_singleton in E'.
    + rewrite map_size_empty in E'. done.
  - apply on_entry_lookup in Hk' as [Hk' E]. cbn in E. subst. eauto.
Qed.

(** The access word.  In every reachable state the 8-bit word of a line
    is 255 exactly when one writer holds it, and otherwise it is the number
    of its readers, at most 254. *)
Theorem alock_access_word s H e v :
  areachable (s, H) -> access s !! e = Some v ->
  (v = OCF_CACHE_LINE_ACCESS_WR <-> exists k, on_entry e H = {[k := (e, OCF_WRITE)]}) /\
  (v <> OCF_CACHE_LINE_ACCESS_WR ->
     v = Z.of_nat (size (on_entry e H)) /\ 0 <= v <= 254 /\
     map_Forall (fun _ x => x = (e, OCF_READ)) (on_entry e H)).
Proof.
  intros HI%areachable_inv Hv. cbn [fst snd] in HI.
  pose proof (inv_acc _ _ _ _ _ _ HI _ _ Hv) as Hacc. split.
  - split.
    + intros ->. destruct Hacc as [(_ & k & e' & E)|(E & ? & _)].
      * exists k. rewrite E. f_equal. f_equal.
        assert (on_entry e H !! k = Some (e', OCF_WRITE)) as O by (by rewrite E, lookup_singleton_eq).
        apply on_entry_lookup in O as [_ ?]. done.
      * unfold OCF_CACHE_LINE_ACCESS_WR in E. lia.
    + intros [k E]. rewrite E in Hacc. destruct Hacc as [[-> _]|(_ & _ & Hall)]; [done|].
      specialize (Hall k _ (lookup_singleton_eq _ _)). done.
  - intros Hne. destruct Hacc as [[? _]|(-> & ? & Hall)]; [done|].
    split; [done|]. split; [lia|]. intros k [e' m] Hk.
    pose proof (Hall _ _ Hk). apply on_entry_lookup in Hk as [_ ?]. cbn in *. by subst.
Qed.

(** C10. No assertion fails.  In every reachable state a disciplined client
    can take the lock-free path, the slow path, and give up a lock it holds:
    each of these runs to its end, no [ENV_BUG_ON] of the lock fires. *)
Theorem alock_never_bugs s H :
  areachable (s, H) ->
  (forall m e c r i, lockable ENTRIES s H e (r, i) c ->
     is_Some (lock_one_fast m e c r i s) /\ is_Some (lock_one_slow ENTRIES m e c r i s)) /\
  (forall m e r i, H !! (r, i) = Some (e, m) -> is_Some (unlock_one ENTRIES m e r i s)).
Proof.
  intros HI%areachable_inv. cbn [fst snd] in HI. split.
  - intros m e c r i Hlk.
    pose proof (lock_one_fast_wp _ _ _ m _ _ _ _ HI Hlk) as (? & ? & -> & _)%wp_run.
    pose proof (lock_one_slow_wp _ _ _ m _ _ _ _ HI Hlk) as (? & ? & -> & _)%wp_run. eauto.
  - intros m e r i Hk.
    pose proof (unlock_one_wp _ _ _ _ _ _ _ HI Hk) as (? & ? & -> & _)%wp_run. eauto.
Qed.
End Steps.

(** ** A run with three requests on one line

    Request 1 writes line 3; request 2 (write) and request 3 (read) queue up
    behind it; the unlock of request 1 hands the line to request 2. *)



Definition run {A} (m : Alock.M A) (s : alock) : alock :=
  match m s with Some (_, s') => s' | None => s end.

Definition demo_req : lreq := LReq 1 0 OCF_WRITE false.
Definition demo0 : alock :=
  Alock {[3 := 0; 7 := 0]} ∅ 0 {[1 := demo_req; 2 := demo_req; 3 := demo_req]} [] [].
Definition demo1 := run (lock_one_fast OCF_WRITE 3 9 1 0) demo0.
Definition demo2 := run (lock_one_slow 4 OCF_WRITE 3 9 2 0) demo1.
Definition demo3 := run (lock_one_slow 4 OCF_READ 3 9 3 0) demo2.
Definition demo4 := run (unlock_one 4 OCF_WRITE 3 1 0) demo3.
Definition demoH1 : held := gain demo1 ∅ (1, 0) 3 OCF_WRITE.
Definition demoH2 : held := gain demo2 demoH1 (2, 0) 3 OCF_WRITE.
Definition demoH3 : held := gain demo3 demoH2 (3, 0) 3 OCF_READ.
Definition demoH4 : held := hand_out (reqs demo4) (delete (1, 0) demoH3) (bucket 4 demo3 3).

#[export] Instance not_waiting_dec L k : Decision (not_waiting L k).
Proof.
  refine (cast_if (decide (map_Forall (fun _ l => Forall (fun w => wkey w <> k) l) L))).
  - abstract (intros b l w Hl Hw; by eapply Forall_forall in Hw; [|by eapply m]).
  - abstract (intros Hnw; apply n; intros b l Hl; apply Forall_forall; intros w Hw; by eapply Hnw).
Defined.

#[export] Instance lockable_dec ENTRIES s H e k c : Decision (lockable ENTRIES s H e k c).
Proof. unfold lockable. apply _. Defined.

Lemma demo_reachable3 : areachable 4 (demo3, demoH3).
Proof.
  apply (reach_step _ _ (demo2, demoH2)); [apply (reach_step _ _ (demo1, demoH1));
    [apply (reach_step _ _ (demo0, ∅)); [apply reach_init|]|]|].
  - split; [done|]. split; [by_compute|]. split; [done|].
    by_compute.
  - eapply (step_fast _ OCF_WRITE 3 9 1 0 demo0 ∅ true); [by_compute|].
    vm_compute. reflexivity.
  - eapply (step_slow _ OCF_WRITE 3 9 2 0 demo1 demoH1); [by_compute|].
    vm_compute. reflexivity.
  - eapply (step_slow _ OCF_READ 3 9 3 0 demo2 demoH2); [by_compute|].
    vm_compute. reflexivity.
Qed.

Lemma demo_reachable4 : areachable 4 (demo4, demoH4).
Proof.
  apply (reach_step _ _ (demo3, demoH3)); [apply demo_reachable3|].
  eapply (step_unlock _ OCF_WRITE 3 1 0 demo3 demoH3); [done|]. vm_compute. reflexivity.
Qed.

(** The line went from request 1 to request 2; request 3 still waits. *)
Example demo4_holder : demoH4 !! (2, 0) = Some (3, OCF_WRITE) /\ demoH4 !! (1, 0) = None /\
  wkey <$> bucket 4 demo4 3 = [(3, 0)] /\ resumed demo4 = [(9, 1); (9, 2)].
Proof. vm_compute. done. Qed.

Lemma alock_mutual_exclusion_witness :
  areachable 4 (demo4, demoH4) /\
  (forall k, bit (reqs demo4) k = true <-> is_Some (demoH4 !! k)).
Proof.
  split; [exact demo_reachable4|].
  exact (proj1 (alock_mutual_exclusion 4 demo4 demoH4 demo_reachable4)).
Defined.

Lemma alock_no_lost_wakeup_witness :
  exists w, w ∈ bucket 4 demo4 3 /\ exists k m, demoH4 !! k = Some (w_entry w, m).
Proof.
  exists (Waiter 3 0 3 9 OCF_READ). split; [vm_compute; left|].
  apply (alock_no_lost_wakeup 4 demo4 demoH4 3 [Waiter 3 0 3 9 OCF_READ] _ demo_reachable4).
  - vm_compute. reflexivity.
  - left.
Defined.

Lemma alock_access_word_witness :
  exists k, on_entry 3 demoH4 = {[k := (3, OCF_WRITE)]}.
Proof.
  apply (alock_access_word 4 demo4 demoH4 3 255 demo_reachable4); [|done].
  vm_compute. reflexivity.
Defined.

Lemma alock_never_bugs_witness : is_Some (unlock_one 4 OCF_WRITE 3 2 0 demo4).
Proof.
  apply (alock_never_bugs 4 demo4 demoH4 demo_reachable4). vm_compute. reflexivity.
Defined.
