(* ===== verification/AlockFifo.v ===== *)
(** * Who gets the lock: order of the hand-over

    An abstract description of what an unlock does with the queue of its line
    ([handoff]) and the proof that the wake-up loop over the shared bucket
    implements it; and the two places where the lock departs from its
    contract. *)

From S2P Require Import Prelude Alock AlockProofs AlockSteps.

(** The readers at the front of a queue. *)
Fixpoint readers_prefix (ws : list waiter) : list waiter :=
  match ws with
  | [] => []
  | w :: ws' => match w_rw w with OCF_READ => w :: readers_prefix ws' | OCF_WRITE => [] end
  end.

(** The waiters that get the line when a lock of mode [m] is given up and the
    access word was [v]: a writer alone and only from the last holder, or all
    the readers at the front of the queue. *)
Definition handoff (m : rw) (v : Z) (ws : list waiter) : list waiter :=
  match ws with
  | [] => []
  | w :: ws' =>
    match w_rw w with
    | OCF_WRITE => if (exchange_word m OCF_WRITE v).1 then [w] else []
    | OCF_READ => w :: readers_prefix ws'
    end
  end.

Section Fifo.
Variable ENTRIES : Z.

Abbreviation of_entry e l := (filter (fun w => w_entry w = e) l).
Abbreviation off_entry e l := (filter (fun w => w_entry w <> e) l).

(** What the loop needs of the queued waiters: requests to resume. *)
Definition resumable (Q : gmap Z lreq) (w : waiter) : Prop :=
  is_Some (Q !! w_req w) /\ w_cmpl w <> 0 /\ 0 <= w_idx w.

(** The outcome of a wake-up: [g] left the queue of [e], in order, and
    exactly their bits appeared. *)
Definition handed (s : alock) (l : list waiter) (e : Z) (g : list waiter)
    (p : bool * list waiter) (s' : alock) : Prop :=
  of_entry e l = g ++ of_entry e p.2 /\ off_entry e p.2 = off_entry e l /\
  (forall k, bit (reqs s') k = bit (reqs s) k || bool_decide (k ∈ wkey <$> g)) /\
  waiters_lsts s' = waiters_lsts s.

Lemma handed_nil s l e b : handed s l e [] (b, l) s.
Proof. split; [done|]. split; [done|]. split; [|done]. intros k. by rewrite orb_false_r. Qed.

Lemma handed_skip s s' w l e g b l2 :
  e <> w_entry w -> handed s l e g (b, l2) s' -> handed s (w :: l) e g (b, w :: l2) s'.
Proof.
  intros Hne (H1 & H2 & H3 & H4). unfold handed. cbn [snd] in *. rewrite !filter_cons.
  rewrite (decide_False (P := w_entry w = e)) by congruence.
  rewrite (decide_True (P := w_entry w <> e)) by congruence.
  rewrite (decide_False (P := w_entry w = e)) by congruence.
  rewrite (decide_True (P := w_entry w <> e)) by congruence. by rewrite H2.
Qed.

Lemma handed_grant s s' w q l g b l2 v :
  reqs s !! w_req w = Some q -> 0 <= w_idx w ->
  handed (granted (set_access (insert (w_entry w) v) s) (w_req w) (w_idx w) (w_cmpl w) q)
    l (w_entry w) g (b, l2) s' ->
  handed s (w :: l) (w_entry w) (w :: g) (b, l2) s'.
Proof.
  intros Hq Hi (H1 & H2 & H3 & H4).
  destruct (granted_frame (set_access <[w_entry w:=v]> s) (w_req w) (w_idx w) (w_cmpl w) q)
    as (Ea & El & Er).
  unfold handed. cbn [snd] in *. rewrite !filter_cons.
  rewrite (decide_True (P := w_entry w = w_entry w)) by done.
  rewrite (decide_False (P := w_entry w <> w_entry w)) by naive_solver.
  rewrite H1, H2. split; [done|]. split; [done|]. split; [|by rewrite H4, El].
  intros k. rewrite H3, Er. cbn [reqs set_access].
  destruct (bits_set_granted (reqs s) (w_req w) (w_idx w) q Hq Hi) as [_ ->].
  fold (wkey w). rewrite fmap_cons. case_decide as Ek.
  - subst. rewrite orb_true_l. symmetry. apply orb_true_iff. right.
    apply bool_decide_eq_true. by left.
  - f_equal. apply bool_decide_ext. rewrite elem_of_cons. naive_solver.
Qed.

Lemma resumable_granted s e v r i c q w :
  resumable (reqs s) w -> resumable (reqs (granted (set_access (insert e v) s) r i c q)) w.
Proof.
  destruct (granted_frame (set_access <[e:=v]> s) r i c q) as (_ & _ & ->).
  intros (? & ? & ?). split; [|done]. cbn. rewrite lookup_insert. case_decide; eauto.
Qed.

Lemma wake_more_fifo m e l : forall s v,
  access s !! e = Some v -> 0 < v -> Forall (resumable (reqs s)) l ->
  (v = OCF_CACHE_LINE_ACCESS_WR \/ v + Z.of_nat (length l) < OCF_CACHE_LINE_ACCESS_WR) ->
  wp (wake_waiters m e false l)
     (handed s l e (if bool_decide (v = OCF_CACHE_LINE_ACCESS_WR) then []
                    else readers_prefix (of_entry e l))) s.
Proof.
  induction l as [|w l IH]; intros s v Hv Hpos HF Hroom.
  { apply wp_ret. case_bool_decide; apply handed_nil. }
  apply Forall_cons in HF as [([q Hq] & Hc & Hi) HF]. cbn [wake_waiters length] in *.
  case_bool_decide as Hne.
  - apply wp_bind. eapply wp_mono; [apply (IH s v); try done; lia|].
    intros [b l2] s' Hh. apply wp_ret. rewrite filter_cons, decide_False by congruence.
    by apply handed_skip.
  - subst e. rewrite filter_cons, decide_True by done. cbn [readers_prefix].
    apply wp_bind. unfold exchange_lock. destruct (w_rw w) eqn:Em; unfold wp at 1.
    + rewrite (trylock_rd_run _ _ _ Hv). case_bool_decide as Ew; cbn [negb];
        [apply wp_ret, handed_nil|].
      apply wp_bind. unfold wp at 1. erewrite grant_run by done.
      destruct Hroom as [?|Hroom]; [done|]. unfold OCF_CACHE_LINE_ACCESS_WR in *.
      rewrite wrap_small by lia.
      pose proof (IH (granted (set_access <[w_entry w:=v + 1]> s) (w_req w) (w_idx w) (w_cmpl w) q)
                    (v + 1)) as IH'.
      destruct (granted_frame (set_access <[w_entry w:=v + 1]> s) (w_req w) (w_idx w) (w_cmpl w) q)
        as (Ea & _ & _). rewrite Ea in IH'. cbn [access set_access] in IH'.
      rewrite lookup_insert_eq, bool_decide_eq_false_2 in IH' by lia.
      eapply wp_mono; [apply IH'; [done|lia| |lia]|].
      * eapply Forall_impl; [exact HF|]. intros w'. apply resumable_granted.
      * intros [b l2] s' Hh. by eapply handed_grant.
    + rewrite (trylock_wr_run _ _ _ Hv).
      rewrite bool_decide_eq_false_2 by (unfold OCF_CACHE_LINE_ACCESS_IDLE; lia).
      case_bool_decide; apply wp_ret, handed_nil.
Qed.

Lemma wake_first_fifo m e l : forall s v,
  access s !! e = Some v -> held_word m v -> Forall (resumable (reqs s)) l ->
  (m = OCF_READ -> v + Z.of_nat (length l) <= 254) -> (length l <= 253)%nat ->
  wp (wake_waiters m e true l) (handed s l e (handoff m v (of_entry e l))) s.
Proof.
  induction l as [|w l IH]; intros s v Hv Hh HF Hroom Hlen.
  { apply wp_ret. apply handed_nil. }
  apply Forall_cons in HF as [([q Hq] & Hc & Hi) HF]. cbn [wake_waiters length] in *.
  case_bool_decide as Hne.
  - apply wp_bind. eapply wp_mono; [apply (IH s v); try done; [|lia]; intros E; specialize (Hroom E); lia|].
    intros [b l2] s' Hd. apply wp_ret. rewrite filter_cons, decide_False by congruence.
    by apply handed_skip.
  - subst e. rewrite filter_cons, decide_True by done. cbn [handoff].
    apply wp_bind. unfold wp at 1. erewrite exchange_lock_run by done.
    destruct (exchange_word m (w_rw w) v) as [[] v'] eqn:Ex; cbn [fst snd].
    2:{ destruct (w_rw w) eqn:Em; [by destruct m; cbn in Ex; try case_bool_decide|].
        rewrite Ex. cbn [fst]. apply wp_ret.
        destruct m; cbn in Ex; [case_bool_decide|]; try done. injection Ex as <-.
        rewrite set_access_id by done. apply handed_nil. }
    apply wp_bind. unfold wp at 1. erewrite grant_run by done.
    assert (Hv' : 0 < v' /\ (w_rw w = OCF_WRITE /\ v' = OCF_CACHE_LINE_ACCESS_WR \/
             w_rw w = OCF_READ /\ v' <> OCF_CACHE_LINE_ACCESS_WR /\
             v' + Z.of_nat (length l) < OCF_CACHE_LINE_ACCESS_WR)).
    { unfold held_word, exchange_word, OCF_CACHE_LINE_ACCESS_WR, OCF_CACHE_LINE_ACCESS_ONE_RD in *.
      destruct m, (w_rw w); try case_bool_decide; try done; injection Ex as <-;
        try (specialize (Hroom eq_refl)); (split; [lia|]);
        first [left; split; [done|lia] | right; split; [done|]; lia]. }
    destruct Hv' as [Hpos Hcase].
    pose proof (wake_more_fifo m (w_entry w) l
      (granted (set_access <[w_entry w:=v']> s) (w_req w) (w_idx w) (w_cmpl w) q) v') as IH'.
    destruct (granted_frame (set_access <[w_entry w:=v']> s) (w_req w) (w_idx w) (w_cmpl w) q)
      as (Ea & _ & _). rewrite Ea in IH'. cbn [access set_access] in IH'.
    rewrite lookup_insert_eq in IH'.
    eapply wp_mono; [apply IH'; [done|lia| |lia]|].
    + eapply Forall_impl; [exact HF|]. intros w'. apply resumable_granted.
    + intros [b l2] s' Hd. destruct Hcase as [[Em ->]|(Em & Hne & _)]; rewrite Em in *.
      * rewrite Ex. cbn [fst]. rewrite bool_decide_eq_true_2 in Hd by done.
        by eapply handed_grant.
      * rewrite bool_decide_eq_false_2 in Hd by done. by eapply handed_grant.
Qed.

(** C11. Order of the hand-over.  Giving up a lock of line [e] takes exactly
    the waiters that [handoff] names from the front of the queue of [e]: the
    first one if it is a writer and no other reader is left, every reader up
    to the first writer otherwise.  The rest of the queue keeps its order,
    the queues of the other lines that share the bucket are untouched, and
    no other request's bit changes. *)
Theorem alock_handoff_order s H m e k v :
  alock_inv ENTRIES s H -> H !! k = Some (e, m) -> access s !! e = Some v ->
  (length (bucket ENTRIES s e) + Z.to_nat v <= 254)%nat \/
    (m = OCF_WRITE /\ (length (bucket ENTRIES s e) <= 253)%nat) ->
  exists s', unlock_common ENTRIES m e s = Some (tt, s') /\
    let g := handoff m v (of_entry e (bucket ENTRIES s e)) in
    of_entry e (bucket ENTRIES s e) = g ++ of_entry e (bucket ENTRIES s' e) /\
    off_entry e (bucket ENTRIES s' e) = off_entry e (bucket ENTRIES s e) /\
    forall k', bit (reqs s') k' = bit (reqs s) k' || bool_decide (k' ∈ wkey <$> g).
Proof.
  intros HI Hk Hv Hroom. set (b := bucket ENTRIES s e).
  pose proof (inv_acc _ _ _ _ _ _ HI _ _ Hv) as Hacc.
  assert (Hon : on_entry e H !! k = Some (e, m)) by (apply on_entry_lookup; auto).
  pose proof (access_ok_mode _ _ _ _ Hacc Hon) as [Hmw Hmr].
  assert (Hh : held_word m v) by (destruct m; cbn; auto).
  pose proof (access_ok_range _ _ Hacc) as Hrange.
  assert (HF : Forall (resumable (reqs s)) b).
  { apply Forall_forall. intros w Hw. unfold b, bucket in Hw.
    destruct (waiters_lsts s !! _) as [l|] eqn:El; [|by apply elem_of_nil in Hw].
    destruct (inv_wait _ _ _ _ _ _ HI _ _ _ El Hw) as (_ & _ & ? & _ & ? & ?). done. }
  pose proof (wake_first_fifo m e b s v Hv Hh HF) as W.
  assert (Hl : (m = OCF_READ -> v + Z.of_nat (length b) <= 254) /\ (length b <= 253)%nat).
  { fold b in Hroom. unfold held_word, OCF_CACHE_LINE_ACCESS_WR in Hh.
    destruct Hroom as [?|[-> ?]]; [|done]. destruct m; split; try done; lia. }
  specialize (W (proj1 Hl) (proj2 Hl)). apply wp_run in W as ([ex l2] & s1 & Hrun & Hd).
  destruct Hd as (H1 & H2 & H3 & H4). cbn [snd] in *.
  pose proof (unlock_common_wp _ _ _ _ _ _ HI Hk) as ([] & s' & Hu & _)%wp_run.
  exists s'. split; [done|].
  assert (Hfin : exists f, s' = set_access f (set_lsts (insert (WAITERS_LIST_ITEM ENTRIES e) l2) s1)).
  { destruct m; cbn [unlock_common] in Hu;
      unfold ocf_alock_unlock_one_rd_common, ocf_alock_unlock_one_wr_common, store_bucket in Hu;
      revert Hu; m_unfold; fold b; rewrite Hrun; destruct ex; cbn [fst snd];
      unfold ocf_alock_unlock_entry_rd, ocf_alock_unlock_entry_wr, access_read, access_set; m_unfold.
    all: try (destruct (access (set_lsts _ s1) !! e); [|done]).
    all: repeat (case_bool_decide; try done; cbv [mret M_ret]).
    all: intros [= <-]; (eexists; reflexivity) || (exists id; reflexivity). }
  destruct Hfin as [f ->].
  assert (Eb : bucket ENTRIES
      (set_access f (set_lsts <[WAITERS_LIST_ITEM ENTRIES e:=l2]> s1)) e = l2).
  { unfold bucket. cbn. by rewrite lookup_insert_eq. }
  rewrite Eb. split; [done|]. split; [done|]. exact H3.
Qed.
End Fifo.

(** ** Departures from the contract *)

(** C12. Reader saturation.  The read path counts up to the writer's value:
    with 254 readers the next [ocf_alock_trylock_entry_rd] succeeds and leaves
    the word that means "write locked", and giving any read lock up then fails
    an [ENV_BUG_ON]. *)
Theorem alock_reader_saturation s e :
  access s !! e = Some 254 ->
  ocf_alock_trylock_entry_rd e s = Some (true, set_access (insert e OCF_CACHE_LINE_ACCESS_WR) s) /\
  ocf_alock_unlock_entry_rd e (set_access (insert e OCF_CACHE_LINE_ACCESS_WR) s) = None.
Proof.
  intros Hv. split; [by rewrite (trylock_rd_run _ _ _ Hv)|].
  unfold ocf_alock_unlock_entry_rd, access_read. m_unfold. cbn [access set_access].
  by rewrite lookup_insert_eq.
Qed.

(** C13. Removal of a waiter looks at the request only.  When a request waits
    for two lines of one bucket, cancelling the wait for the later one removes
    the waiter of the earlier one, and the cancelled waiter stays queued: it
    will be granted to a request that no longer knows about it. *)
Theorem alock_waitlist_remove_wrong_entry ENTRIES s req w1 w2 l m :
  bucket ENTRIES s (w_entry w2) = w1 :: w2 :: l ->
  w_req w1 = req -> w_req w2 = req -> w_entry w1 <> w_entry w2 ->
  is_Some (reqs s !! req) -> bit (reqs s) (req, w_idx w2) = false ->
  exists s', ocf_alock_waitlist_remove_entry ENTRIES req (w_entry w2) (w_idx w2) m s = Some (tt, s') /\
    bucket ENTRIES s' (w_entry w2) = w2 :: l.
Proof.
  intros Hb H1 H2 Hne [q Hq] Hbit. unfold bit in Hbit. cbn [fst snd] in Hbit. rewrite Hq in Hbit.
  unfold ocf_alock_waitlist_remove_entry, ocf_alock_is_index_locked, load_req, store_bucket.
  m_unfold. rewrite Hq, Hbit. eexists. split; [done|].
  unfold bucket at 1. cbn. rewrite lookup_insert_eq. cbn.
  rewrite Hb. cbn. by rewrite bool_decide_eq_true_2.
Qed.

(** ** The theorems on concrete states *)

Lemma alock_handoff_order_witness :
  exists s', unlock_common 4 OCF_WRITE 3 demo3 = Some (tt, s') /\
    bucket 4 s' 3 = [Waiter 3 0 3 9 OCF_READ].
Proof.
  destruct (alock_handoff_order 4 demo3 demoH3 OCF_WRITE 3 (1, 0) 255
              (areachable_inv 4 _ demo_reachable3)) as (s' & Hrun & _).
  - vm_compute. reflexivity.
  - vm_compute. reflexivity.
  - right. split; [done|]. by_compute.
  - exists s'. split; [exact Hrun|]. vm_compute in Hrun. injection Hrun as <-. vm_compute. reflexivity.
Defined.

Lemma alock_reader_saturation_witness :
  let s := Alock {[3 := 254]} ∅ 0 ∅ [] [] in
  ocf_alock_trylock_entry_rd 3 s = Some (true, set_access (insert 3 255) s).
Proof. intros s. apply (alock_reader_saturation s 3). vm_compute. reflexivity. Defined.

(** Request 1 waits for lines 3 and 7, which share bucket 3 of 4: cancelling
    the wait for line 7 leaves exactly that waiter behind. *)
Lemma alock_waitlist_remove_wrong_entry_witness :
  let w1 := Waiter 3 0 1 9 OCF_WRITE in let w2 := Waiter 7 1 1 9 OCF_WRITE in
  let s := Alock {[3 := 255; 7 := 255]} {[3 := [w1; w2]]} 1 {[1 := demo_req]} [] [] in
  exists s', ocf_alock_waitlist_remove_entry 4 1 7 1 OCF_WRITE s = Some (tt, s') /\
    bucket 4 s' 7 = [w2].
Proof.
  intros w1 w2 s.
  apply (alock_waitlist_remove_wrong_entry 4 s 1 w1 w2 [] OCF_WRITE);
    try (vm_compute; reflexivity).
  - done.
  - vm_compute. eauto.
Defined.
