(* ===== verification/CacheLineLock.v ===== *)
(** * Locking the cache lines of a request:
      [src/concurrency/ocf_cache_line_concurrency.c]

    The client of the entry locks of [Alock] that locks every mapped cache
    line of a request: first without waiting, all or nothing, then line by
    line with waiting.  [req_map] is [req->map]: the lock code only reads it. *)

From S2P Require Import Prelude Alock AlockProofs.

(** [-OCF_ERR_NO_MEM] of [inc/ocf_err.h]. *)
Definition OCF_ERR_NO_MEM : Z := 1000005.

(** [src/engine/cache_engine.h]. *)
Definition LOOKUP_HIT : Z := 5.
Definition LOOKUP_MISS : Z := 6.
Definition LOOKUP_REMAPPED : Z := 8.
Definition LOOKUP_HIT_INVALID : Z := 9.

(** The two fields of [struct ocf_map_info] the lock uses. *)
Record map_info := MapInfo { status : Z; coll_idx : Z }.

Section CacheLineLock.
Variable ENTRIES : Z.
(** [req->map] of each request, [req->core_line_count] entries long. *)
Variable req_map : Z -> list map_info.

Definition core_line_count (req : Z) : nat := length (req_map req).

Definition load_map (req i : Z) : Alock.M map_info :=
  load (fun _ => if bool_decide (0 <= i) then req_map req !! Z.to_nat i else None).

Definition ocf_cl_lock_line_needs_lock (req index : Z) : Alock.M bool :=
  m ← load_map req index;
  mret (bool_decide (status m <> LOOKUP_MISS) && bool_decide (status m <> LOOKUP_REMAPPED)).

Definition ocf_cl_lock_line_is_acting (req index : Z) : Alock.M bool :=
  m ← load_map req index; mret (bool_decide (status m <> LOOKUP_MISS)).

Definition ocf_cl_lock_line_get_entry (req index : Z) : Alock.M Z :=
  m ← load_map req index; mret (coll_idx m).

(** The first loop of [ocf_cl_lock_line_fast]: the result and the value of
    [i] when the loop is left. *)
Fixpoint lock_fast_up (n : nat) (i req : Z) (m : rw) : Alock.M (Z * Z) :=
  match n with
  | O => mret (OCF_LOCK_ACQUIRED, i)
  | S n' =>
    needs ← ocf_cl_lock_line_needs_lock req i;
    if negb needs then lock_fast_up n' (i + 1) req m
    else
      entry ← ocf_cl_lock_line_get_entry req i;
      locked ← ocf_alock_is_index_locked req i;
      _ ← bug_on locked;
      got ← (match m with
             | OCF_WRITE => ocf_alock_trylock_entry_wr entry
             | OCF_READ => ocf_alock_trylock_entry_rd_idle entry
             end);
      if (got : bool) then
        _ ← ocf_alock_mark_index_locked req i true;
        lock_fast_up n' (i + 1) req m
      else mret (OCF_LOCK_NOT_ACQUIRED, i)
  end.

Definition unlock_one_line (m : rw) (entry : Z) : Alock.M unit :=
  match m with
  | OCF_WRITE => ocf_alock_unlock_one_wr ENTRIES entry
  | OCF_READ => ocf_alock_unlock_one_rd ENTRIES entry
  end.

(** The second loop: [for (; i >= 0; i--)], [n] is [i + 1]. *)
Fixpoint lock_fast_down (n : nat) (req : Z) (m : rw) : Alock.M unit :=
  match n with
  | O => mret tt
  | S n' =>
    let i := Z.of_nat n' in
    needs ← ocf_cl_lock_line_needs_lock req i;
    if negb needs then lock_fast_down n' req m
    else
      entry ← ocf_cl_lock_line_get_entry req i;
      locked ← ocf_alock_is_index_locked req i;
      _ ← when locked (_ ← unlock_one_line m entry; ocf_alock_mark_index_locked req i false);
      lock_fast_down n' req m
  end.

Definition ocf_cl_lock_line_fast (req : Z) (m : rw) : Alock.M Z :=
  p ← lock_fast_up (core_line_count req) 0 req m;
  let '(ret, i) := p in
  _ ← when (bool_decide (ret = OCF_LOCK_NOT_ACQUIRED))
        (lock_fast_down (Z.to_nat (i + 1)) req m);
  mret ret.

Fixpoint lock_slow_up (n : nat) (i req : Z) (m : rw) (cmpl : Z) : Alock.M (Z * Z) :=
  match n with
  | O => mret (0, i)
  | S n' =>
    needs ← ocf_cl_lock_line_needs_lock req i;
    if negb needs then
      _ ← lock_remaining_dec_return req;
      lock_slow_up n' (i + 1) req m cmpl
    else
      entry ← ocf_cl_lock_line_get_entry req i;
      locked ← ocf_alock_is_index_locked req i;
      _ ← bug_on locked;
      ok ← (match m with
            | OCF_WRITE => ocf_alock_lock_one_wr ENTRIES entry cmpl req i
            | OCF_READ => ocf_alock_lock_one_rd ENTRIES entry cmpl req i
            end);
      if (ok : bool) then lock_slow_up n' (i + 1) req m cmpl
      else mret (- OCF_ERR_NO_MEM, i)
  end.

Fixpoint lock_slow_down (n : nat) (req : Z) (m : rw) : Alock.M unit :=
  match n with
  | O => mret tt
  | S n' =>
    let i := Z.of_nat n' in
    needs ← ocf_cl_lock_line_needs_lock req i;
    if negb needs then lock_slow_down n' req m
    else
      entry ← ocf_cl_lock_line_get_entry req i;
      _ ← ocf_alock_waitlist_remove_entry ENTRIES req entry i m;
      lock_slow_down n' req m
  end.

Definition ocf_cl_lock_line_slow (req : Z) (m : rw) (cmpl : Z) : Alock.M Z :=
  p ← lock_slow_up (core_line_count req) 0 req m cmpl;
  let '(ret, i) := p in
  _ ← when (bool_decide (ret <> 0)) (lock_slow_down (Z.to_nat (i + 1)) req m);
  mret ret.

Definition ocf_cl_lock_get_entries_count (req : Z) : Alock.M Z :=
  mret (Z.of_nat (core_line_count req)).

Definition ocf_cline_conc_cbs : ocf_alock_lock_cbs := {|
  lock_entries_fast := ocf_cl_lock_line_fast;
  lock_entries_slow := ocf_cl_lock_line_slow;
  get_entries_count := ocf_cl_lock_get_entries_count
|}.

Definition ocf_cache_line_try_lock_rd (line : Z) : Alock.M bool :=
  ocf_alock_trylock_one_rd line.
Definition ocf_cache_line_unlock_rd (line : Z) : Alock.M unit :=
  ocf_alock_unlock_one_rd ENTRIES line.
Definition ocf_cache_line_try_lock_wr (line : Z) : Alock.M bool :=
  ocf_alock_trylock_entry_wr line.
Definition ocf_cache_line_unlock_wr (line : Z) : Alock.M unit :=
  ocf_alock_unlock_one_wr ENTRIES line.

Definition ocf_req_async_lock_rd (req cmpl : Z) : Alock.M Z :=
  ocf_alock_lock_rd ocf_cline_conc_cbs req cmpl.
Definition ocf_req_async_lock_wr (req cmpl : Z) : Alock.M Z :=
  ocf_alock_lock_wr ocf_cline_conc_cbs req cmpl.

(** The loop of [ocf_req_unlock_rd] and [ocf_req_unlock_wr]. *)
Fixpoint unlock_up (n : nat) (i req : Z) (m : rw) : Alock.M unit :=
  match n with
  | O => mret tt
  | S n' =>
    acting ← ocf_cl_lock_line_is_acting req i;
    if negb acting then unlock_up n' (i + 1) req m
    else
      locked ← ocf_alock_is_index_locked req i;
      if negb locked then unlock_up n' (i + 1) req m
      else
        entry ← ocf_cl_lock_line_get_entry req i;
        _ ← unlock_one_line m entry;
        _ ← ocf_alock_mark_index_locked req i false;
        unlock_up n' (i + 1) req m
  end.

Definition ocf_req_unlock_rd (req : Z) : Alock.M unit :=
  unlock_up (core_line_count req) 0 req OCF_READ.
Definition ocf_req_unlock_wr (req : Z) : Alock.M unit :=
  unlock_up (core_line_count req) 0 req OCF_WRITE.

Definition ocf_req_unlock (req : Z) : Alock.M unit :=
  r ← load_req req;
  if bool_decide (alock_rw r = OCF_WRITE) then ocf_req_unlock_wr req
  else ocf_req_unlock_rd req.

Definition ocf_cache_line_are_waiters (num_entries line : Z) : Alock.M bool :=
  e ← ocf_alock_waitlist_is_empty ENTRIES num_entries line; mret (negb e).

Definition ocf_cache_line_concurrency_suspended_no : Alock.M Z := ocf_alock_waitlist_count.
End CacheLineLock.
