(* ===== verification/CacheLineLockProofs.v ===== *)
(** * The fast path of a request's cache-line lock is all or nothing *)

From S2P Require Import Prelude Alock AlockProofs AlockSteps CacheLineLock.

Section Fast.
Variable ENTRIES : Z.
Variable req_map : Z -> list map_info.
Variable req : Z.
Variable m : rw.
Variable s0 : alock.

Definition needs (x : map_info) : bool :=
  bool_decide (status x <> LOOKUP_MISS) && bool_decide (status x <> LOOKUP_REMAPPED).

(** The word of a line that nobody else holds once it is taken in mode [m]. *)
Definition taken_word : Z :=
  match m with
  | OCF_READ => OCF_CACHE_LINE_ACCESS_ONE_RD
  | OCF_WRITE => OCF_CACHE_LINE_ACCESS_WR
  end.

(** The access words once the first [xs] of the map have been taken. *)
Definition words (xs : list map_info) : gmap Z Z :=
  foldl (fun A x => if needs x then <[coll_idx x := taken_word]> A else A) (access s0) xs.

(** The bits once [n] entries of the map have been taken. *)
Definition mine (xs : list map_info) (k : Z * Z) : bool :=
  bool_decide (k.1 = req) && bool_decide (0 <= k.2) &&
  match xs !! Z.to_nat k.2 with Some x => needs x | None => false end.

Lemma words_snoc xs x :
  words (xs ++ [x]) = if needs x then <[coll_idx x := taken_word]> (words xs) else words xs.
Proof. unfold words. by rewrite foldl_app. Qed.

Lemma mine_snoc xs x k :
  mine (xs ++ [x]) k = mine xs k || (bool_decide (k = (req, Z.of_nat (length xs))) && needs x).
Proof.
  unfold mine. destruct k as [r i]. cbn [fst snd].
  destruct (decide (r = req)) as [->|Hr].
  2:{ rewrite !(bool_decide_eq_false_2 (r = req)) by done.
      rewrite (bool_decide_eq_false_2 ((r, i) = _)) by congruence. reflexivity. }
  rewrite bool_decide_eq_true_2 by done. cbn.
  destruct (decide (0 <= i)) as [Hi|Hi].
  2:{ rewrite !(bool_decide_eq_false_2 (0 <= i)) by done.
      rewrite bool_decide_eq_false_2 by (intros [= ->]; lia). reflexivity. }
  rewrite !(bool_decide_eq_true_2 (0 <= i)) by done. cbn.
  destruct (decide (i = Z.of_nat (length xs))) as [->|Hne].
  - rewrite bool_decide_eq_true_2 by done. rewrite Nat2Z.id.
    rewrite list_lookup_middle by done. rewrite lookup_ge_None_2 by done. reflexivity.
  - rewrite bool_decide_eq_false_2 by congruence. cbn. rewrite orb_false_r.
    destruct (decide (Z.to_nat i < length xs)%nat).
    + by rewrite lookup_app_l.
    + rewrite !lookup_ge_None_2; rewrite ?length_app; cbn; try lia; reflexivity.
Qed.

(** The state reached after taking the lines of [xs]: nothing else moved. *)
Record taken (xs : list map_info) (s : alock) : Prop := {
  tk_access : access s = words xs;
  tk_bucket e : bucket ENTRIES s e = bucket ENTRIES s0 e;
  tk_bits k : bit (reqs s) k = bit (reqs s0) k || mine xs k;
  tk_req : is_Some (reqs s !! req);
  tk_idle pre x post : xs = pre ++ x :: post -> needs x = true ->
    words pre !! coll_idx x = Some OCF_CACHE_LINE_ACCESS_IDLE
}.

(** Hypotheses of the fast path. *)
Hypothesis Hreq : is_Some (reqs s0 !! req).
Hypothesis Hquiet : forall e, access s0 !! e = Some OCF_CACHE_LINE_ACCESS_IDLE ->
  filter (fun w => w_entry w = e) (bucket ENTRIES s0 e) = [].
Hypothesis Hlines : forall x, x ∈ req_map req -> needs x = true -> is_Some (access s0 !! coll_idx x).
Hypothesis Hclear : forall i, bit (reqs s0) (req, i) = false.

Lemma words_dom xs e : is_Some (access s0 !! e) -> is_Some (words xs !! e).
Proof.
  intros He. induction xs as [|x xs IH] using rev_ind; [done|]. rewrite words_snoc.
  destruct (needs x); [|done]. rewrite lookup_insert. case_decide; eauto.
Qed.

Lemma words_idle xs e :
  words xs !! e = Some OCF_CACHE_LINE_ACCESS_IDLE -> access s0 !! e = Some OCF_CACHE_LINE_ACCESS_IDLE.
Proof.
  induction xs as [|x xs IH] using rev_ind; [done|]. rewrite words_snoc.
  destruct (needs x); [|done]. rewrite lookup_insert. case_decide; [|done].
  unfold taken_word. by destruct m.
Qed.

Lemma taken_init : taken [] s0.
Proof.
  split; try done.
  - intros k. unfold mine. rewrite lookup_nil. by rewrite andb_false_r, orb_false_r.
  - intros pre x post E. by destruct pre.
Qed.

Lemma load_map_run i x s :
  req_map req !! i = Some x -> load_map req_map req (Z.of_nat i) s = Some (x, s).
Proof.
  intros Hx. unfold load_map, load. rewrite bool_decide_eq_true_2 by lia.
  by rewrite Nat2Z.id, Hx.
Qed.

Lemma needs_lock_run i x s :
  req_map req !! i = Some x ->
  ocf_cl_lock_line_needs_lock req_map req (Z.of_nat i) s = Some (needs x, s).
Proof.
  intros Hx. unfold ocf_cl_lock_line_needs_lock, mbind, M_bind. by rewrite (load_map_run i x).
Qed.

Lemma get_entry_run i x s :
  req_map req !! i = Some x ->
  ocf_cl_lock_line_get_entry req_map req (Z.of_nat i) s = Some (coll_idx x, s).
Proof.
  intros Hx. unfold ocf_cl_lock_line_get_entry, mbind, M_bind. by rewrite (load_map_run i x).
Qed.

Lemma is_locked_run i s :
  is_Some (reqs s !! req) ->
  ocf_alock_is_index_locked req i s = Some (bit (reqs s) (req, i), s).
Proof.
  intros [q Hq]. unfold ocf_alock_is_index_locked, load_req, bit. m_unfold. cbn [fst snd].
  by rewrite Hq.
Qed.

Lemma trylock_run e s v :
  access s !! e = Some v ->
  (match m with
   | OCF_WRITE => ocf_alock_trylock_entry_wr e
   | OCF_READ => ocf_alock_trylock_entry_rd_idle e
   end) s =
  Some (bool_decide (v = OCF_CACHE_LINE_ACCESS_IDLE),
        if bool_decide (v = OCF_CACHE_LINE_ACCESS_IDLE)
        then set_access (insert e taken_word) s else s).
Proof.
  intros Hv. unfold taken_word.
  destruct m; [by apply trylock_rd_idle_run|by apply trylock_wr_run].
Qed.

Definition marked (i : Z) (b : bool) (q : lreq) : lreq :=
  with_status (fun st => if b then Z.setbit st i else Z.clearbit st i) q.

Lemma mark_run i b s q :
  reqs s !! req = Some q ->
  ocf_alock_mark_index_locked req i b s =
    Some (tt, set_reqs (insert req (marked i b q)) s).
Proof. intros Hq. unfold ocf_alock_mark_index_locked, load_req, store_req. m_unfold. by rewrite Hq. Qed.

Lemma bit_mark Q q i b k :
  Q !! req = Some q -> 0 <= i ->
  bit (<[req := marked i b q]> Q) k =
    if bool_decide (k = (req, i)) then b else bit Q k.
Proof.
  intros Hq Hi. destruct k as [r j]. unfold bit. cbn [fst snd]. rewrite lookup_insert.
  case_decide as E; [subst r|by rewrite bool_decide_eq_false_2 by congruence].
  rewrite Hq. cbn. case_bool_decide as E.
  - injection E as ->. destruct b; [by rewrite Z.setbit_eq|by rewrite Z.clearbit_eq].
  - destruct b; [rewrite Z.setbit_neq|rewrite Z.clearbit_neq]; done || congruence.
Qed.

Lemma taken_next xs x s :
  taken xs s -> req_map req !! length xs = Some x -> needs x = true ->
  words xs !! coll_idx x = Some OCF_CACHE_LINE_ACCESS_IDLE ->
  wp (ocf_alock_mark_index_locked req (Z.of_nat (length xs)) true)
     (fun _ s' => taken (xs ++ [x]) s') (set_access (insert (coll_idx x) taken_word) s).
Proof.
  intros [Ha Hb Hbits [q Hq] Hidle] Hx Hn Hi. unfold wp.
  erewrite mark_run by exact Hq. split; cbn [access reqs set_reqs set_access].
  - by rewrite words_snoc, Hn, Ha.
  - intros e. apply Hb.
  - intros k. rewrite bit_mark by (done || lia). rewrite mine_snoc, Hn, andb_true_r, Hbits.
    case_bool_decide; [by rewrite !orb_true_r|by rewrite orb_false_r].
  - rewrite lookup_insert_eq. eauto.
  - intros pre y post E Hy.
    destruct (decide (post = [])) as [->|Hpost].
    + apply app_inj_tail in E as [<- <-]. done.
    + destruct post as [|z post _] using rev_ind; [done|].
      rewrite app_comm_cons, app_assoc in E. apply app_inj_tail in E as [-> <-].
      by eapply Hidle.
Qed.

Lemma taken_skip xs x s : taken xs s -> needs x = false -> taken (xs ++ [x]) s.
Proof.
  intros [Ha Hb Hbits Hq Hidle] Hn. split; auto.
  - by rewrite words_snoc, Hn.
  - intros k. by rewrite mine_snoc, Hn, andb_false_r, orb_false_r.
  - intros pre y post E Hy. destruct (decide (post = [])) as [->|Hpost].
    + apply app_inj_tail in E as [<- <-]. congruence.
    + destruct post as [|z post _] using rev_ind; [done|].
      rewrite app_comm_cons, app_assoc in E. apply app_inj_tail in E as [-> <-].
      by eapply Hidle.
Qed.

Lemma take_prefix_snoc xs x post :
  req_map req = xs ++ x :: post -> req_map req !! length xs = Some x.
Proof. intros ->. by apply list_lookup_middle. Qed.

Lemma fast_up_wp post : forall xs s,
  req_map req = xs ++ post -> taken xs s ->
  wp (lock_fast_up req_map (length post) (Z.of_nat (length xs)) req m) (fun p s' =>
    (p.1 = OCF_LOCK_ACQUIRED /\ taken (req_map req) s') \/
    (p.1 = OCF_LOCK_NOT_ACQUIRED /\ exists ys zs, req_map req = ys ++ zs /\ zs <> [] /\
       p.2 = Z.of_nat (length ys) /\ taken ys s')) s.
Proof.
  induction post as [|x post IH]; intros xs s Hmap Ht.
  { apply wp_ret. left. split; [done|]. by rewrite Hmap, app_nil_r. }
  pose proof (take_prefix_snoc _ _ _ Hmap) as Hx.
  assert (Hmap' : req_map req = (xs ++ [x]) ++ post) by (by rewrite <- app_assoc).
  assert (Hlen : Z.of_nat (length (xs ++ [x])) = Z.of_nat (length xs) + 1)
    by (rewrite length_app; cbn; lia).
  cbn [length lock_fast_up]. apply wp_bind. unfold wp at 1. rewrite (needs_lock_run _ x) by done.
  destruct (needs x) eqn:Hn; cbn [negb].
  2:{ rewrite <- Hlen. apply IH; [done|]. by apply taken_skip. }
  apply wp_bind. unfold wp at 1. rewrite (get_entry_run _ x) by done.
  apply wp_bind. unfold wp at 1. rewrite is_locked_run by apply (tk_req _ _ Ht).
  apply wp_bind, wp_bug_on.
  { rewrite (tk_bits _ _ Ht), Hclear. unfold mine. cbn [fst snd].
    by rewrite lookup_ge_None_2, andb_false_r by lia. }
  destruct (words_dom xs (coll_idx x)) as [v Hv].
  { apply Hlines; [|done]. rewrite Hmap. set_solver. }
  apply wp_bind. unfold wp at 1. erewrite trylock_run by (by rewrite (tk_access _ _ Ht)).
  case_bool_decide as Ei.
  - subst v. apply wp_bind. eapply wp_mono; [by apply taken_next|].
    intros [] s' Ht'. rewrite <- Hlen. by apply IH.
  - apply wp_ret. right. split; [done|]. exists xs, (x :: post). done.
Qed.

(** Giving back a line nobody waits for. *)
Lemma wake_none mm e ex l s :
  filter (fun w => w_entry w = e) l = [] -> wake_waiters mm e ex l s = Some ((ex, l), s).
Proof.
  induction l as [|w l IH]; intros Hl; [done|]. rewrite filter_cons in Hl.
  case_decide as E; [done|]. cbn. rewrite bool_decide_eq_true_2 by congruence.
  unfold mbind, M_bind. by rewrite IH.
Qed.

Lemma unlock_quiet_run e s :
  access s !! e = Some taken_word -> filter (fun w => w_entry w = e) (bucket ENTRIES s e) = [] ->
  unlock_one_line ENTRIES m e s =
    Some (tt, set_access (insert e OCF_CACHE_LINE_ACCESS_IDLE)
                (set_lsts (insert (WAITERS_LIST_ITEM ENTRIES e) (bucket ENTRIES s e)) s)).
Proof.
  intros Hv Hq. unfold unlock_one_line, ocf_alock_unlock_one_wr, ocf_alock_unlock_one_rd,
    ocf_alock_unlock_one_wr_common, ocf_alock_unlock_one_rd_common, store_bucket,
    ocf_alock_unlock_entry_wr, ocf_alock_unlock_entry_rd, access_read, access_set, taken_word in *.
  destruct m; m_unfold; rewrite wake_none by done; cbn [fst snd];
    m_unfold; cbn [access set_lsts]; rewrite Hv; cbn [access set_lsts]; done.
Qed.

(** Undoing the last line of [xs ++ [x]]. *)
Lemma taken_undo xs x s :
  taken (xs ++ [x]) s -> req_map req !! length xs = Some x -> needs x = true ->
  wp (_ ← unlock_one_line ENTRIES m (coll_idx x);
      ocf_alock_mark_index_locked req (Z.of_nat (length xs)) false)
     (fun _ s' => taken xs s') s.
Proof.
  intros [Ha Hb Hbits Hq Hidle] Hx Hn.
  assert (Hi : words xs !! coll_idx x = Some OCF_CACHE_LINE_ACCESS_IDLE)
    by (by eapply (Hidle xs x [])).
  apply wp_bind. unfold wp at 1. rewrite unlock_quiet_run; [|by rewrite Ha, words_snoc, Hn, lookup_insert_eq|].
  2:{ rewrite Hb. apply Hquiet. by eapply words_idle. }
  destruct Hq as [q Hq]. unfold wp. erewrite mark_run by exact Hq.
  split; cbn [access reqs set_reqs set_access set_lsts].
  - rewrite Ha, words_snoc, Hn, insert_insert_eq. by apply insert_id.
  - intros e. unfold bucket at 1. cbn. rewrite lookup_insert. case_decide as E; [|apply Hb].
    cbn. rewrite !Hb. unfold bucket. by rewrite E.
  - intros k. rewrite bit_mark by (done || lia). rewrite Hbits, mine_snoc, Hn, andb_true_r.
    case_bool_decide as E; [|by rewrite orb_false_r]. subst k. rewrite Hclear. cbn.
    unfold mine. cbn [fst snd]. by rewrite lookup_ge_None_2, andb_false_r by lia.
  - rewrite lookup_insert_eq. eauto.
  - intros pre y post E Hy. eapply (Hidle pre y (post ++ [x])); [|done]. rewrite E.
    by rewrite <- app_assoc.
Qed.

Lemma untake_skip xs x s : taken (xs ++ [x]) s -> needs x = false -> taken xs s.
Proof.
  intros [Ha Hb Hbits Hq Hidle] Hn. split; auto.
  - by rewrite Ha, words_snoc, Hn.
  - intros k. by rewrite Hbits, mine_snoc, Hn, andb_false_r, orb_false_r.
  - intros pre y post E Hy. eapply (Hidle pre y (post ++ [x])); [|done]. rewrite E.
    by rewrite <- app_assoc.
Qed.

Lemma fast_down_wp xs : forall s post,
  req_map req = xs ++ post -> taken xs s ->
  wp (lock_fast_down ENTRIES req_map (length xs) req m) (fun _ s' => taken [] s') s.
Proof.
  induction xs as [|x xs IH] using rev_ind; intros s post Hmap Ht; [by apply wp_ret|].
  rewrite <- app_assoc in Hmap. pose proof (take_prefix_snoc _ _ _ Hmap) as Hx.
  rewrite length_app, Nat.add_1_r. cbn [lock_fast_down].
  apply wp_bind. unfold wp at 1. rewrite (needs_lock_run _ x) by done.
  destruct (needs x) eqn:Hn; cbn [negb].
  2:{ eapply IH; [done|]. by eapply untake_skip. }
  apply wp_bind. unfold wp at 1. rewrite (get_entry_run _ x) by done.
  apply wp_bind. unfold wp at 1. rewrite is_locked_run by apply (tk_req _ _ Ht).
  assert (Hbit : bit (reqs s) (req, Z.of_nat (length xs)) = true).
  { rewrite (tk_bits _ _ Ht), mine_snoc, Hn, bool_decide_eq_true_2 by done.
    by rewrite !orb_true_r. }
  rewrite Hbit. apply wp_bind. cbn [when]. 
  eapply wp_mono; [by apply taken_undo|]. intros [] s' Ht'. by eapply IH.
Qed.

Lemma fast_wp :
  wp (ocf_cl_lock_line_fast ENTRIES req_map req m) (fun ret s' =>
    (ret = OCF_LOCK_ACQUIRED /\ taken (req_map req) s') \/
    (ret = OCF_LOCK_NOT_ACQUIRED /\ taken [] s')) s0.
Proof.
  apply wp_bind. eapply wp_mono; [apply (fast_up_wp (req_map req) [] s0 eq_refl taken_init)|].
  intros [ret i] s' HQ. cbn [fst snd] in HQ.
  destruct HQ as [[-> Ht]|(-> & ys & zs & Hmap & Hzs & -> & Ht)].
  - apply wp_bind. cbn [when bool_decide]. apply wp_ret, wp_ret. auto.
  - apply wp_bind, wp_when; [intros _|done].
    replace (Z.to_nat (Z.of_nat (length ys) + 1)) with (S (length ys)) by lia.
    destruct zs as [|x zs]; [done|]. pose proof (take_prefix_snoc _ _ _ Hmap) as Hx.
    cbn [lock_fast_down]. apply wp_bind. unfold wp at 1. rewrite (needs_lock_run _ x) by done.
    assert (Hdown : wp (lock_fast_down ENTRIES req_map (length ys) req m) (fun _ s'' => 
        wp (mret OCF_LOCK_NOT_ACQUIRED) (fun ret s' =>
          (ret = OCF_LOCK_ACQUIRED /\ taken (req_map req) s') \/
          (ret = OCF_LOCK_NOT_ACQUIRED /\ taken [] s')) s'') s').
    { eapply wp_mono; [by eapply fast_down_wp|]. intros [] s'' H''. apply wp_ret. auto. }
    destruct (needs x); cbn [negb]; [|exact Hdown].
    apply wp_bind. unfold wp at 1. rewrite (get_entry_run _ x) by done.
    apply wp_bind. unfold wp at 1. rewrite is_locked_run by apply (tk_req _ _ Ht).
    rewrite (tk_bits _ _ Ht), Hclear. unfold mine. cbn [fst snd].
    rewrite lookup_ge_None_2, andb_false_r by lia. cbn. exact Hdown.
Qed.
End Fast.

(** The fast path of a request lock is all or nothing.  Run on a
    consistent lock state for a request that holds nothing, it ends without a
    bug and either returns OCF_LOCK_ACQUIRED, and then every mapped line that
    needs a lock is taken by this request alone (its word is 1 for a read and
    255 for a write, its bit is set), or returns OCF_LOCK_NOT_ACQUIRED, and
    then every access word, every lock bit and every waiter queue is as
    before. *)
Theorem cl_lock_fast_all_or_nothing ENTRIES req_map req m s H :
  alock_inv ENTRIES s H ->
  is_Some (reqs s !! req) ->
  (forall x, x ∈ req_map req -> needs x = true -> is_Some (access s !! coll_idx x)) ->
  (forall i, bit (reqs s) (req, i) = false) ->
  exists ret s', ocf_cl_lock_line_fast ENTRIES req_map req m s = Some (ret, s') /\
    (forall e, bucket ENTRIES s' e = bucket ENTRIES s e) /\
    ((ret = OCF_LOCK_ACQUIRED /\
      forall i x, req_map req !! i = Some x -> needs x = true ->
        bit (reqs s') (req, Z.of_nat i) = true /\
        access s !! coll_idx x = Some OCF_CACHE_LINE_ACCESS_IDLE /\
        access s' !! coll_idx x = Some (taken_word m)) \/
     (ret = OCF_LOCK_NOT_ACQUIRED /\ access s' = access s /\
      forall k, bit (reqs s') k = bit (reqs s) k)).
Proof.
  intros HI Hreq Hlines Hclear.
  assert (Hquiet : forall e, access s !! e = Some OCF_CACHE_LINE_ACCESS_IDLE ->
      filter (fun w => w_entry w = e) (bucket ENTRIES s e) = []).
  { intros e He. apply list_eq_nil_filter. intros w Hw <-. unfold bucket in Hw.
    destruct (waiters_lsts s !! _) as [l|] eqn:El; [|by apply elem_of_nil in Hw].
    destruct (inv_wait _ _ _ _ _ _ HI _ _ _ El Hw) as (_ & (v & Hv & Hnz) & _). congruence. }
  pose proof (fast_wp ENTRIES req_map req m s Hreq Hquiet Hlines Hclear) as W.
  apply wp_run in W as (ret & s' & Hrun & W). exists ret, s'. split; [done|].
  destruct W as [[-> Ht]|[-> Ht]]; (split; [apply Ht|]).
  - left. split; [done|]. intros i x Hx Hn. split; [|split].
    + rewrite (tk_bits _ _ _ _ _ _ Ht). apply orb_true_iff. right. unfold mine. cbn [fst snd].
      rewrite !bool_decide_eq_true_2 by (done || lia). by rewrite Nat2Z.id, Hx.
    + apply list_elem_of_split_length in Hx as (pre & post & E & _).
      eapply words_idle. by eapply (tk_idle _ _ _ _ _ _ Ht).
    + rewrite (tk_access _ _ _ _ _ _ Ht).
      apply list_elem_of_split_length in Hx as (pre & post & E & _). rewrite E.
      assert (Hall : forall ys, (exists zs, req_map req = pre ++ x :: ys ++ zs) ->
          words m s (pre ++ x :: ys) !! coll_idx x = Some (taken_word m)).
      { intros ys. induction ys as [|y ys IH] using rev_ind; intros [zs Ez].
        - rewrite words_snoc, Hn. apply lookup_insert_eq.
        - rewrite app_comm_cons, app_assoc, words_snoc. rewrite <- app_assoc in Ez.
          specialize (IH (ex_intro _ _ Ez)). destruct (needs y) eqn:Hy; [|done].
          rewrite lookup_insert_ne; [done|]. intros Eq.
          pose proof (tk_idle _ _ _ _ _ _ Ht (pre ++ x :: ys) y zs) as Hidle.
          rewrite Ez, <- app_assoc in Hidle. specialize (Hidle eq_refl Hy).
          rewrite Eq in Hidle. rewrite IH in Hidle. unfold taken_word in Hidle. by destruct m. }
      apply Hall. exists []. by rewrite app_nil_r.
  - right. split; [done|]. split; [apply (tk_access _ _ _ _ _ _ Ht)|].
    intros k. rewrite (tk_bits _ _ _ _ _ _ Ht). unfold mine. rewrite lookup_nil.
    by rewrite andb_false_r, orb_false_r.
Qed.

(** Request 2 wants lines 7 and 3; line 3 is held by request 1, so line 7 is
    given back. *)
Definition demo_map (r : Z) : list map_info :=
  if bool_decide (r = 2) then [MapInfo LOOKUP_HIT 7; MapInfo LOOKUP_MISS 0; MapInfo LOOKUP_HIT 3]
  else [].

Lemma demo_reachable1 : areachable 4 (demo1, demoH1).
Proof.
  apply (reach_step _ _ (demo0, ∅)); [apply reach_init|].
  - split; [done|]. split; [by_compute|]. split; [done|]. by_compute.
  - eapply (step_fast _ OCF_WRITE 3 9 1 0 demo0 ∅ true); [by_compute|]. vm_compute. reflexivity.
Qed.

Lemma cl_lock_fast_all_or_nothing_witness :
  exists s', ocf_cl_lock_line_fast 4 demo_map 2 OCF_WRITE demo1 = Some (OCF_LOCK_NOT_ACQUIRED, s') /\
    access s' = access demo1.
Proof.
  destruct (cl_lock_fast_all_or_nothing 4 demo_map 2 OCF_WRITE demo1 demoH1) as (ret & s' & Hrun & _ & HQ).
  - exact (areachable_inv 4 _ demo_reachable1).
  - vm_compute. eauto.
  - intros x Hx Hn.
    change (demo_map 2) with [MapInfo LOOKUP_HIT 7; MapInfo LOOKUP_MISS 0; MapInfo LOOKUP_HIT 3] in Hx.
    rewrite !elem_of_cons in Hx. destruct Hx as [->|[->|[->|Hx]]];
      [by_compute|by vm_compute in Hn|by_compute|by apply elem_of_nil in Hx].
  - intros i. vm_compute. by destruct i.
  - assert (ret = OCF_LOCK_NOT_ACQUIRED) as -> by (vm_compute in Hrun; by injection Hrun as <- _).
    exists s'. split; [exact Hrun|]. by destruct HQ as [[? _]|(_ & ? & _)].
Defined.
