(* ===== verification/Generator.v ===== *)
(** * The bisect generator: [src/utils/utils_generator.c]

    [ocf_generator_bisect_next] enumerates the bit-reversed numbers below
    the limit.  [limit] consecutive calls return every value below the limit
    exactly once, from any starting position. *)

From S2P Require Import Prelude.
From stdpp Require Import list_numbers.
Open Scope Z_scope.

Definition bitreverse32 (x : Z) : Z :=
  let x := Z.lor (Z.shiftr (Z.land x 0xaaaaaaaa) 1) (Z.shiftl (Z.land x 0x55555555) 1) in
  let x := Z.lor (Z.shiftr (Z.land x 0xcccccccc) 2) (Z.shiftl (Z.land x 0x33333333) 2) in
  let x := Z.lor (Z.shiftr (Z.land x 0xf0f0f0f0) 4) (Z.shiftl (Z.land x 0x0f0f0f0f) 4) in
  let x := Z.lor (Z.shiftr (Z.land x 0xff00ff00) 8) (Z.shiftl (Z.land x 0x00ff00ff) 8) in
  Z.lor (Z.shiftr x 16) (u32 (Z.shiftl x 16)).

(** [__builtin_clz] of a non-zero 32-bit value (undefined for 0). *)
Definition builtin_clz (x : Z) : Z := 31 - Z.log2 x.

Record ocf_generator_bisect_state := Bisect { curr : Z; limit : Z }.

Definition maplen (lim : Z) : Z := Z.shiftl 1 (32 - builtin_clz (lim - 1)).

(** [None]: [limit] is 1, the C code evaluates [__builtin_clz(0)], which is
    undefined. *)
Definition ocf_generator_bisect_init (lim offset : Z) : option ocf_generator_bisect_state :=
  if bool_decide (u32 (lim - 1) = 0) then None
  else Some (Bisect (u32 (offset * maplen lim / lim)) lim).

(** The do-while loop, with fuel for its iterations. *)
Fixpoint ocf_generator_bisect_next (fuel : nat) (g : ocf_generator_bisect_state)
    : option (Z * ocf_generator_bisect_state) :=
  match fuel with
  | O => None
  | S fuel =>
    let clz := builtin_clz (limit g - 1) in
    let value := Z.shiftr (bitreverse32 (curr g)) clz in
    let g := Bisect (u32 (curr g + 1) mod maplen (limit g)) (limit g) in
    if bool_decide (value >= limit g) then ocf_generator_bisect_next fuel g
    else Some (value, g)
  end.

(** [n] calls. *)
Fixpoint bisect_calls (fuel n : nat) (g : ocf_generator_bisect_state) : option (list Z) :=
  match n with
  | O => Some []
  | S n =>
    match ocf_generator_bisect_next fuel g with
    | None => None
    | Some (v, g) => match bisect_calls fuel n g with None => None | Some l => Some (v :: l) end
    end
  end.

Example bisect_14 :
  (ocf_generator_bisect_init 14 0 ≫= bisect_calls 16 14) =
  Some [0; 8; 4; 12; 2; 10; 6; 1; 9; 5; 13; 3; 11; 7].
Proof. vm_compute. reflexivity. Qed.

(** ** Bit reversal *)

Definition bits32 : list Z := seqZ 0 32.

Lemma bits32_forall (P : Z -> Prop) `{forall i, Decision (P i)} i :
  bool_decide (Forall P bits32) = true -> 0 <= i < 32 -> P i.
Proof.
  intros Hb Hi. apply bool_decide_eq_true_1 in Hb. rewrite Forall_forall in Hb.
  apply Hb, elem_of_seqZ. lia.
Qed.

(** One exchange step moves bit [i] to position [i xor k]. *)
Definition exchange (k m m' x : Z) : Z :=
  Z.lor (Z.shiftr (Z.land x m) k) (Z.shiftl (Z.land x m') k).

Definition exchanges (k m m' i : Z) : Prop :=
  if Z.testbit m (i + k) then Z.lxor i k = i + k /\ Z.testbit m' (i - k) = false
  else Z.testbit m' (i - k) = true /\ Z.lxor i k = i - k.

#[local] Instance exchanges_dec k m m' i : Decision (exchanges k m m' i).
Proof. unfold exchanges. destruct (Z.testbit m (i + k)); apply _. Defined.

Lemma exchange_testbit k m m' x i :
  exchanges k m m' i -> 0 <= i -> 0 <= k ->
  Z.testbit (exchange k m m' x) i = Z.testbit x (Z.lxor i k).
Proof.
  unfold exchanges, exchange. intros He Hi Hk.
  rewrite Z.lor_spec, Z.shiftr_spec, Z.shiftl_spec, !Z.land_spec by done.
  destruct (Z.testbit m (i + k)).
  - destruct He as [-> ->]. by rewrite andb_true_r, andb_false_r, orb_false_r.
  - destruct He as [-> ->]. by rewrite andb_true_r, andb_false_r.
Qed.

Lemma exchange_high k m m' x i :
  0 <= k <= i -> 0 <= i -> Z.testbit m (i + k) = false -> Z.testbit m' (i - k) = false ->
  Z.testbit (exchange k m m' x) i = false.
Proof.
  intros Hk Hi Hm Hm'. unfold exchange.
  rewrite Z.lor_spec, Z.shiftr_spec, Z.shiftl_spec, !Z.land_spec, Hm, Hm' by done.
  by rewrite !andb_false_r.
Qed.

Lemma lxor_bits i k : 0 <= k < 32 -> 0 <= i < 32 -> 0 <= Z.lxor i k < 32.
Proof.
  intros Hk Hi.
  apply (bits32_forall (fun i => Forall (fun k => 0 <= Z.lxor i k < 32) bits32) i) in Hi;
    [|by vm_compute].
  rewrite Forall_forall in Hi. apply Hi, elem_of_seqZ. lia.
Qed.

Ltac exch :=
  intros j Hj; apply exchange_testbit; [|lia..]; revert Hj;
  apply (bits32_forall (exchanges _ _ _)); by vm_compute.

Lemma bitreverse32_testbit x i :
  0 <= i < 32 -> Z.testbit (bitreverse32 x) i = Z.testbit x (31 - i).
Proof.
  intros Hi. unfold bitreverse32. cbv zeta.
  fold (exchange 1 0xaaaaaaaa 0x55555555 x).
  set (x1 := exchange 1 _ _ x). fold (exchange 2 0xcccccccc 0x33333333 x1).
  set (x2 := exchange 2 _ _ x1). fold (exchange 4 0xf0f0f0f0 0x0f0f0f0f x2).
  set (x3 := exchange 4 _ _ x2). fold (exchange 8 0xff00ff00 0x00ff00ff x3).
  set (x4 := exchange 8 _ _ x3).
  assert (H1 : forall j, 0 <= j < 32 -> Z.testbit x1 j = Z.testbit x (Z.lxor j 1)) by exch.
  assert (H2 : forall j, 0 <= j < 32 -> Z.testbit x2 j = Z.testbit x1 (Z.lxor j 2)) by exch.
  assert (H3 : forall j, 0 <= j < 32 -> Z.testbit x3 j = Z.testbit x2 (Z.lxor j 4)) by exch.
  assert (H4 : forall j, 0 <= j < 32 -> Z.testbit x4 j = Z.testbit x3 (Z.lxor j 8)) by exch.
  assert (Hlow : forall j, 0 <= j < 32 ->
    Z.testbit x4 j = Z.testbit x (Z.lxor (Z.lxor (Z.lxor (Z.lxor j 8) 4) 2) 1)).
  { intros j Hj. rewrite H4, H3, H2, H1; [done|..]; by repeat apply lxor_bits. }
  rewrite Z.lor_spec, Z.shiftr_spec by lia. unfold wrap. rewrite Z.mod_pow2_bits_low by lia.
  rewrite Z.shiftl_spec by lia.
  destruct (decide (i < 16)) as [Hlt|Hge].
  - rewrite (Z.testbit_neg_r x4 (i - 16)), orb_false_r by lia. rewrite Hlow by lia. f_equal.
    revert Hi Hlt. apply (bits32_forall (fun i => i < 16 ->
      Z.lxor (Z.lxor (Z.lxor (Z.lxor (i + 16) 8) 4) 2) 1 = 31 - i)). by vm_compute.
  - rewrite (Hlow (i - 16)) by lia.
    replace (Z.testbit x4 (i + 16)) with false; [cbn|].
    + f_equal. revert Hi Hge. apply (bits32_forall (fun i => ~ i < 16 ->
        Z.lxor (Z.lxor (Z.lxor (Z.lxor (i - 16) 8) 4) 2) 1 = 31 - i)). by vm_compute.
    + unfold x4. symmetry.
      apply exchange_high; [lia|lia|apply Z.bits_above_log2; [lia|vm_compute Z.log2; lia]..].
Qed.

Lemma bitreverse32_high x i : 32 <= i -> Z.testbit (bitreverse32 x) i = false.
Proof.
  intros Hi. unfold bitreverse32. cbv zeta.
  match goal with |- context [Z.shiftr ?e 16] => match e with Z.lor (Z.shiftr (Z.land ?y _) 8) _ =>
    fold (exchange 8 0xff00ff00 0x00ff00ff y); generalize y end end.
  intros y. rewrite Z.lor_spec, Z.shiftr_spec by lia. unfold wrap.
  rewrite Z.mod_pow2_bits_high, orb_false_r by lia.
  apply exchange_high; [lia|lia|apply Z.bits_above_log2; [lia|vm_compute Z.log2; lia]..].
Qed.

(** ** The values as a function of the position *)

Section Values.
Context (lim : Z) (Hlim : 2 <= lim <= 2 ^ 31).

Let k := 32 - builtin_clz (lim - 1).

Lemma k_range : 1 <= k <= 31.
Proof.
  unfold k, builtin_clz. assert (0 <= Z.log2 (lim - 1)) by apply Z.log2_nonneg.
  assert (Z.log2 (lim - 1) < 31) by (apply Z.log2_lt_pow2; lia). lia.
Qed.

Lemma maplen_pow : maplen lim = 2 ^ k.
Proof. unfold maplen. fold k. pose proof k_range. by rewrite Z.shiftl_1_l. Qed.

Lemma limit_maplen : lim <= maplen lim.
Proof.
  rewrite maplen_pow. unfold k, builtin_clz.
  replace (32 - (31 - Z.log2 (lim - 1))) with (Z.succ (Z.log2 (lim - 1))) by lia.
  pose proof (Z.log2_spec (lim - 1)). lia.
Qed.

Definition rev_value (i : Z) : Z := Z.shiftr (bitreverse32 i) (builtin_clz (lim - 1)).

Lemma rev_value_testbit i j :
  0 <= j -> Z.testbit (rev_value i) j = (bool_decide (j < k) && Z.testbit i (k - 1 - j)).
Proof.
  intros Hj. pose proof k_range. unfold rev_value. rewrite Z.shiftr_spec by done.
  case_bool_decide; cbn [andb].
  - rewrite bitreverse32_testbit by (unfold k in *; lia). f_equal. unfold k. lia.
  - apply bitreverse32_high. unfold k in *. lia.
Qed.

Lemma rev_value_range i : 0 <= rev_value i < maplen lim.
Proof.
  pose proof k_range. rewrite maplen_pow.
  replace (rev_value i) with (rev_value i mod 2 ^ k); [apply Z.mod_pos_bound; lia|].
  apply Z.bits_inj'. intros j Hj. destruct (decide (j < k)).
  - by rewrite Z.mod_pow2_bits_low by lia.
  - rewrite Z.mod_pow2_bits_high by lia. rewrite rev_value_testbit by done.
    by rewrite bool_decide_eq_false_2.
Qed.

Lemma rev_value_inj i j :
  0 <= i < maplen lim -> 0 <= j < maplen lim -> rev_value i = rev_value j -> i = j.
Proof.
  pose proof k_range. rewrite maplen_pow. intros Hi Hj Heq.
  rewrite <- (Z.mod_small i (2 ^ k)), <- (Z.mod_small j (2 ^ k)) by done.
  apply Z.bits_inj'. intros b Hb. destruct (decide (b < k)).
  - rewrite !Z.mod_pow2_bits_low by lia.
    pose proof (rev_value_testbit i (k - 1 - b)) as H1.
    pose proof (rev_value_testbit j (k - 1 - b)) as H2.
    rewrite bool_decide_eq_true_2 in H1, H2 by lia. cbn [andb] in H1, H2.
    replace (k - 1 - (k - 1 - b)) with b in H1, H2 by lia.
    rewrite <- H1, <- H2 by lia. by rewrite Heq.
  - by rewrite !Z.mod_pow2_bits_high by lia.
Qed.

(** The [t]-th value computed from [curr = c], before filtering. *)
Definition value_at (c t : Z) : Z := rev_value ((c + t) mod maplen lim).

Lemma maplen_pos : 0 < maplen lim.
Proof. pose proof limit_maplen. lia. Qed.

Lemma value_at_inj c t t' :
  0 <= t < maplen lim -> 0 <= t' < maplen lim -> value_at c t = value_at c t' -> t = t'.
Proof.
  intros Ht Ht' Heq. pose proof maplen_pos as Hm.
  apply rev_value_inj in Heq; [|by apply Z.mod_pos_bound..].
  assert (Hd : ((c + t) - (c + t')) mod maplen lim = 0).
  { rewrite Zminus_mod, Heq, Z.sub_diag. by apply Z.mod_0_l; lia. }
  replace (c + t - (c + t')) with (t - t') in Hd by lia.
  apply Z.mod_divide in Hd as [q Hq]; [|lia].
  assert (q = 0) as -> by (generalize dependent (maplen lim); intros; nia). lia.
Qed.

(** The values below the limit among the first [T] positions from [c]. *)
Definition window (c : Z) (T : nat) : list Z :=
  filter (fun v => v < lim) (value_at c <$> seqZ 0 (Z.of_nat T)).

Lemma window_S c T :
  window c (S T) =
  (if decide (value_at c 0 < lim) then [value_at c 0] else []) ++ window (c + 1) T.
Proof.
  unfold window. rewrite seqZ_cons by lia. replace (Z.pred (Z.of_nat (S T))) with (Z.of_nat T) by lia.
  rewrite fmap_cons, filter_cons. change (Z.succ 0) with (0 + 1).
  assert (He : forall l : list Z, (value_at c ∘ Z.add 1) <$> l = value_at (c + 1) <$> l).
  { intros l. apply list_fmap_ext. intros _ t _. unfold value_at, compose. by rewrite Z.add_assoc. }
  rewrite (Z.add_comm 0 1), <- fmap_add_seqZ, <- list_fmap_compose, He. by case_decide.
Qed.

(** ** The calls *)

Definition at_curr (c : Z) : ocf_generator_bisect_state := Bisect c lim.

Lemma value_at_0 c : 0 <= c < maplen lim -> value_at c 0 = rev_value c.
Proof. intros Hc. unfold value_at. by rewrite Z.add_0_r, Z.mod_small. Qed.

Lemma value_at_wrap c t : value_at (c mod maplen lim) t = value_at c t.
Proof. unfold value_at. by rewrite Zplus_mod_idemp_l. Qed.

Lemma window_wrap c T : window (c mod maplen lim) T = window c T.
Proof.
  unfold window. f_equal. apply list_fmap_ext. intros _ t _. apply value_at_wrap.
Qed.

Lemma next_unfold fuel c :
  0 <= c < maplen lim ->
  ocf_generator_bisect_next (S fuel) (at_curr c) =
  let g := at_curr ((c + 1) mod maplen lim) in
  if decide (value_at c 0 < lim) then Some (value_at c 0, g)
  else ocf_generator_bisect_next fuel g.
Proof.
  intros Hc. rewrite value_at_0 by done. cbn -[maplen wrap bitreverse32].
  fold (rev_value c). rewrite wrap_small.
  - case_bool_decide; case_decide; done || lia.
  - rewrite maplen_pow in Hc. pose proof k_range.
    assert (2 ^ k <= 2 ^ 31) by (apply Z.pow_le_mono_r; lia). lia.
Qed.

Lemma next_fuel fuel g r :
  ocf_generator_bisect_next fuel g = Some r -> ocf_generator_bisect_next (S fuel) g = Some r.
Proof.
  revert g. induction fuel as [|fuel IH]; intros g; [done|].
  intros Hn. cbn [ocf_generator_bisect_next] in *. case_bool_decide; [|done].
  by apply IH in Hn.
Qed.

Lemma calls_fuel fuel n g l : bisect_calls fuel n g = Some l -> bisect_calls (S fuel) n g = Some l.
Proof.
  revert g l. induction n as [|n IH]; intros g l; [done|]. cbn [bisect_calls].
  destruct (ocf_generator_bisect_next fuel g) as [[v g']|] eqn:En; [|done].
  apply next_fuel in En. rewrite En.
  destruct (bisect_calls fuel n g') eqn:Ec; [|done]. by rewrite (IH _ _ Ec).
Qed.

Lemma calls_window T c n :
  0 <= c < maplen lim -> (n <= length (window c T))%nat ->
  bisect_calls T n (at_curr c) = Some (take n (window c T)).
Proof.
  revert c n. induction T as [|T IH]; intros c n Hc Hn.
  { change (window c 0) with (@nil Z) in *. cbn in Hn. destruct n; [done|lia]. }
  destruct n as [|n]; [done|].
  assert (Hc' : 0 <= (c + 1) mod maplen lim < maplen lim) by (apply Z.mod_pos_bound, maplen_pos).
  rewrite window_S in *. rewrite <- (window_wrap (c + 1)) in *.
  cbn [bisect_calls]. rewrite next_unfold by done. cbv zeta. destruct (decide (value_at c 0 < lim)).
  - cbn [app length take] in *. rewrite (calls_fuel _ _ _ _ (IH _ n Hc' ltac:(lia))). done.
  - cbn [app] in *. pose proof (IH _ (S n) Hc' Hn) as Hi. cbn [bisect_calls] in Hi.
    destruct (ocf_generator_bisect_next T _) as [[v g]|]; [|done].
    destruct (bisect_calls T n g) eqn:Eb; [|done]. by rewrite (calls_fuel _ _ _ _ Eb).
Qed.

Lemma window_perm c : window c (Z.to_nat (maplen lim)) ≡ₚ seqZ 0 lim.
Proof.
  pose proof maplen_pos as Hm. pose proof limit_maplen.
  unfold window. rewrite Z2Nat.id by lia.
  assert (Hp : value_at c <$> seqZ 0 (maplen lim) ≡ₚ seqZ 0 (maplen lim)).
  { apply submseteq_length_Permutation; [|by rewrite length_fmap].
    apply NoDup_submseteq.
    - apply NoDup_fmap_2_strong; [|apply NoDup_seqZ].
      intros t t' Ht Ht'. rewrite elem_of_seqZ in *. apply value_at_inj; lia.
    - intros v (t & -> & _)%list_elem_of_fmap. apply elem_of_seqZ.
      pose proof (rev_value_range ((c + t) mod maplen lim)). unfold value_at. lia. }
  rewrite Hp. apply NoDup_Permutation.
  - apply NoDup_filter, NoDup_seqZ.
  - apply NoDup_seqZ.
  - intros v. rewrite list_elem_of_filter, !elem_of_seqZ. lia.
Qed.
End Values.

(** C14. The bisect generator is a bijection: for every limit from 2 to 2^31
    and every starting offset below it, [limit] successive calls all
    return, and together they return each value below the limit exactly once. *)
Theorem bisect_enumerates lim offset :
  2 <= lim <= 2 ^ 31 -> 0 <= offset < lim ->
  exists l, (ocf_generator_bisect_init lim offset
               ≫= bisect_calls (Z.to_nat (maplen lim)) (Z.to_nat lim)) = Some l /\
            l ≡ₚ seqZ 0 lim.
Proof.
  intros Hlim Hoff. unfold ocf_generator_bisect_init.
  rewrite bool_decide_eq_false_2 by (rewrite wrap_small; lia). cbn [mbind option_bind].
  pose proof (window_perm lim Hlim) as Hp.
  set (c := u32 (offset * maplen lim / lim)).
  assert (Hc : 0 <= c < maplen lim).
  { pose proof (maplen_pos lim Hlim). unfold c.
    assert (0 <= offset * maplen lim / lim < maplen lim).
    { split; [apply Z.div_pos; nia|]. apply Z.div_lt_upper_bound; nia. }
    rewrite wrap_small; [done|]. rewrite maplen_pow in * by done.
    pose proof (k_range lim Hlim).
    assert (2 ^ (32 - builtin_clz (lim - 1)) <= 2 ^ 31) by (apply Z.pow_le_mono_r; lia). lia. }
  specialize (Hp c). eexists. split.
  - apply (calls_window lim Hlim _ c); [done|]. rewrite Hp, length_seqZ. done.
  - rewrite take_ge; [done|]. rewrite Hp, length_seqZ. done.
Qed.

Lemma bisect_enumerates_witness :
  exists l, (ocf_generator_bisect_init 14 5
               ≫= bisect_calls (Z.to_nat (maplen 14)) (Z.to_nat 14)) = Some l /\ l ≡ₚ seqZ 0 14.
Proof. apply (bisect_enumerates 14 5); lia. Defined.
