(* ===== verification/Links.v ===== *)
(** * Doubly linked lists threaded through a table of nodes

    Several components of OCF keep lists of cache lines whose [next] and
    [prev] fields live in a metadata table indexed by cache line.  [link] says
    that a sequence of indices is such a list; it is generic in the node
    type, whose accessors satisfy the laws of [LinkNode]. *)

From S2P Require Import Prelude.

(** ** First and last elements with a default *)

Definition hdd (n : Z) l : Z := default n (List.hd_error l).
Definition lastd (p : Z) l : Z := default p (last l).

Lemma lastd_snoc p l x : lastd p (l ++ [x]) = x.
Proof. unfold lastd. by rewrite last_snoc. Qed.

Lemma lastd_cons p x l : lastd p (x :: l) = lastd x l.
Proof. unfold lastd. rewrite last_cons. by destruct (last l). Qed.

Lemma lastd_app p l1 l2 : lastd p (l1 ++ l2) = lastd (lastd p l1) l2.
Proof. unfold lastd. rewrite last_app. by destruct (last l2). Qed.

Lemma hdd_app n l1 l2 : hdd n (l1 ++ l2) = hdd (hdd n l2) l1.
Proof. by destruct l1. Qed.

Lemma lastd_in p l : lastd p l = p \/ lastd p l ∈ l.
Proof.
  destruct l as [|x l _] using rev_ind; [by left|]. right. rewrite lastd_snoc. set_solver.
Qed.


(** ** Removing an element *)

Definition without (x : Z) (l : list Z) : list Z := filter (fun y => y <> x) l.

Lemma without_not_in x l : x ∉ l -> without x l = l.
Proof.
  intros Hx. unfold without. induction l as [|y l IH]; [done|].
  rewrite not_elem_of_cons in Hx. destruct Hx as [Hne Hx].
  rewrite filter_cons, decide_True by congruence. f_equal. auto.
Qed.

Lemma without_split x l1 l2 : NoDup (l1 ++ x :: l2) -> without x (l1 ++ x :: l2) = l1 ++ l2.
Proof.
  intros (H1 & H12 & [H2 _]%NoDup_cons)%NoDup_app. unfold without.
  rewrite filter_app, filter_cons, decide_False by naive_solver.
  f_equal; apply without_not_in; [|done]. intros Hx. apply (H12 x Hx). left.
Qed.

Lemma elem_of_without x y l : y ∈ without x l <-> y <> x /\ y ∈ l.
Proof. unfold without. by rewrite list_elem_of_filter. Qed.

Lemma without_app x l1 l2 : without x (l1 ++ l2) = without x l1 ++ without x l2.
Proof. apply filter_app. Qed.

Lemma length_without x l :
  NoDup l -> Z.of_nat (length (without x l)) = Z.of_nat (length l) - Z.b2z (bool_decide (x ∈ l)).
Proof.
  intros Hnd. case_bool_decide as Hx; cbn [Z.b2z].
  - apply list_elem_of_split in Hx as (l1 & l2 & ->). rewrite without_split by done.
    rewrite !length_app. cbn [length]. lia.
  - rewrite without_not_in by done. lia.
Qed.

Lemma nodup_pivot (x : Z) l1 l2 : NoDup (l1 ++ x :: l2) -> x ∉ l1 ++ l2.
Proof.
  intros (_ & Hn & [Hx _]%NoDup_cons)%NoDup_app [Hi|Hi]%elem_of_app; [|done].
  apply (Hn x Hi). left.
Qed.

Lemma nodup_split_unique (x : Z) l1 l2 k1 k2 :
  NoDup (l1 ++ x :: l2) -> l1 ++ x :: l2 = k1 ++ x :: k2 -> l1 = k1 /\ l2 = k2.
Proof.
  intros Hnd Heq. assert (Hnk : NoDup (k1 ++ x :: k2)) by (by rewrite <- Heq).
  apply NoDup_app in Hnd as (_ & Hn1 & _). apply NoDup_app in Hnk as (_ & Hk1 & _).
  destruct (not_elem_of_app_cons_inv_l x x l1 l2 k1 k2) as (-> & _ & ->); [| |done..].
  - intros Hx. apply (Hk1 x Hx). left.
  - intros Hx. apply (Hn1 x Hx). left.
Qed.


(** ** Nodes *)

(** [pv], [nx] read and [sp], [sn] write the two link fields of a node; [w]
    is the truncation to the width of the fields. *)
Class LinkNode {N : Type} (pv nx : N -> Z) (sp sn : Z -> N -> N) (w : Z -> Z) : Prop := {
  pv_sp q m : pv (sp q m) = w q;
  nx_sp q m : nx (sp q m) = nx m;
  nx_sn q m : nx (sn q m) = w q;
  pv_sn q m : pv (sn q m) = pv m
}.

Section Links.
Context {N : Type} {pv nx : N -> Z}.
Implicit Types (ms : gmap Z N) (l : list Z).

(** The nodes of [l], in order, are linked to each other; [p] precedes the
    first and [n] follows the last. *)
Fixpoint link ms (p : Z) l (n : Z) : Prop :=
  match l with
  | [] => True
  | x :: l' => (exists m, ms !! x = Some m /\ pv m = p /\ nx m = hdd n l') /\ link ms x l' n
  end.

Lemma link_app ms p l1 l2 n :
  link ms p (l1 ++ l2) n <-> link ms p l1 (hdd n l2) /\ link ms (lastd p l1) l2 n.
Proof.
  revert p. induction l1 as [|x l1 IH]; intros p; cbn [link app].
  - unfold lastd. cbn. tauto.
  - rewrite IH, lastd_cons, hdd_app. tauto.
Qed.

Lemma link_frame ms ms' p l n :
  (forall x, x ∈ l -> ms' !! x = ms !! x) -> link ms p l n -> link ms' p l n.
Proof.
  revert p. induction l as [|x l IH]; intros p Hf; cbn; [done|].
  intros [Hx Hl]. split; [rewrite Hf by left; done|].
  apply IH; [|done]. intros y Hy. apply Hf. by right.
Qed.

Lemma link_lookup ms p l1 x l2 n :
  link ms p (l1 ++ x :: l2) n ->
  exists m, ms !! x = Some m /\ pv m = lastd p l1 /\ nx m = hdd n l2.
Proof. by intros [_ [? _]]%link_app. Qed.

Lemma link_dom ms p l n x : link ms p l n -> x ∈ l -> is_Some (ms !! x).
Proof.
  intros Hl (l1 & l2 & ->)%list_elem_of_split.
  destruct (link_lookup _ _ _ _ _ _ Hl) as (m & ? & _). eauto.
Qed.

Lemma link_alter_out ms f y p l n :
  y ∉ l -> link ms p l n -> link (alter f y ms) p l n.
Proof.
  intros Hy. apply link_frame. intros x Hx. apply lookup_alter_ne. intros ->. done.
Qed.

Lemma link_set_other ms f y p l n :
  (forall m, pv (f m) = pv m /\ nx (f m) = nx m) -> link ms p l n -> link (alter f y ms) p l n.
Proof.
  intros Hf. revert p. induction l as [|x l IH]; intros p; cbn; [done|].
  intros [(m & Hm & Hp & Hn) Hl]. split; [|auto].
  destruct (decide (y = x)) as [->|Hne].
  - exists (f m). destruct (Hf m) as [-> ->]. by rewrite lookup_alter_eq, Hm.
  - exists m. by rewrite lookup_alter_ne.
Qed.

Context (sp sn : Z -> N -> N) (w : Z -> Z) `{!LinkNode pv nx sp sn w}.

Lemma link_set_prev ms p q x l n :
  x ∉ l -> link ms p (x :: l) n -> link (alter (sp q) x ms) (w q) (x :: l) n.
Proof.
  intros Hx [(m & Hm & Hp & Hn) Hl]. cbn. split.
  - exists (sp q m). destruct LinkNode0 as [E1 E2 _ _]. by rewrite lookup_alter_eq, Hm, E1, E2.
  - by apply link_alter_out.
Qed.

Lemma link_set_next ms p q l x n :
  x ∉ l -> link ms p (l ++ [x]) n -> link (alter (sn q) x ms) p (l ++ [x]) (w q).
Proof.
  intros Hx [Hl [(m & Hm & Hp & Hn) _]]%link_app. apply link_app. split.
  - apply link_alter_out; done.
  - cbn. split; [|done]. exists (sn q m). destruct LinkNode0 as [_ _ E3 E4]. by rewrite lookup_alter_eq, Hm, E3, E4.
Qed.

(** Taking [x] out: its neighbours are linked to each other. *)
Lemma link_remove ms p l1 x l2 n :
  NoDup (l1 ++ x :: l2) -> link ms p (l1 ++ x :: l2) n ->
  w (hdd n l2) = hdd n l2 -> w (lastd p l1) = lastd p l1 ->
  let ms1 := match last l1 with Some a => alter (sn (hdd n l2)) a ms | None => ms end in
  let ms2 := match l2 with b :: _ => alter (sp (lastd p l1)) b ms1 | [] => ms1 end in
  link ms2 p (l1 ++ l2) n.
Proof.
  intros Hnd Hlk Hfn Hfp ms1 ms2.
  apply NoDup_app in Hnd as (Hn1 & Hn12 & [Hx2 Hn2]%NoDup_cons).
  apply link_app in Hlk as [Hl1 [_ Hl2]].
  assert (H1 : link ms1 p l1 (hdd n l2)).
  { unfold ms1. destruct l1 as [|a l1 _] using rev_ind; [done|]. rewrite last_snoc.
    rewrite <- Hfn at 2. apply NoDup_app in Hn1 as (_ & Hn1 & _).
    eapply link_set_next; [|exact Hl1]. intros Ha. apply (Hn1 a Ha). by left. }
  assert (H2 : link ms1 x l2 n).
  { unfold ms1. destruct (last l1) as [a|] eqn:El; [|done]. apply link_alter_out; [|done].
    intros Ha. apply (Hn12 a); [by apply last_Some_elem_of|]. by right. }
  apply link_app. unfold ms2. destruct l2 as [|b l2]; [split; [done|constructor]|]. split.
  - apply link_alter_out; [|done]. intros Hb. apply (Hn12 b Hb). right. left.
  - apply NoDup_cons in Hn2 as [Hb _].
    pose proof (link_set_prev ms1 x (lastd p l1) b l2 n Hb H2) as H3. by rewrite Hfp in H3.
Qed.
End Links.

Arguments link {N} pv nx ms p l n.
