(* ===== verification/Lru.v ===== *)
(** * LRU lists with a hot prefix: [src/eviction/ocf_lru.c]

    A list threads the per-cache-line nodes of the metadata ([metas]) by
    cache-line numbers; [list] is the [struct ocf_lru_list] a function works
    on.  Pointers to nodes are re-read where the C code dereferences them, so
    two pointers to one node see each other's writes.  Cache-line fields are
    29 bits wide, counters 32 bits. *)

From S2P Require Import Prelude.

Definition OCF_CACHE_LINE_BITS : Z := 29.
(** [OCF_CACHE_LINE_INVALID], the largest value of the field. *)
Definition end_marker : Z := 2 ^ 29 - 1.
Definition OCF_LRU_HOT_RATIO : Z := 2.
Definition OCF_NUM_LRU_LISTS : Z := 32.
Definition OCF_LRU_CHUNK_SIZE : Z := 256.
Definition OCF_USER_IO_CLASS_MAX : Z := 34.
Definition PARTITION_FREELIST : Z := OCF_USER_IO_CLASS_MAX + 1.
Definition PARTITION_FREE_DETACHED : Z := OCF_USER_IO_CLASS_MAX + 2.

(** Assignment to a cache-line bit field. *)
Definition fld (x : Z) : Z := wrap OCF_CACHE_LINE_BITS x.

Record ocf_lru_meta := LruMeta { prev : Z; next : Z; hot : bool; partition_id : Z }.

Record ocf_lru_list := LruList {
  num_nodes : Z;
  head : Z;
  tail : Z;
  num_hot : Z;
  last_hot : Z;
  track_hot : bool
}.

#[export] Instance ocf_lru_meta_eq_dec : EqDecision ocf_lru_meta.
Proof. solve_decision. Defined.
#[export] Instance ocf_lru_list_eq_dec : EqDecision ocf_lru_list.
Proof. solve_decision. Defined.

Definition with_prev x m := LruMeta (fld x) (next m) (hot m) (partition_id m).
Definition with_next x m := LruMeta (prev m) (fld x) (hot m) (partition_id m).
Definition with_hot b m := LruMeta (prev m) (next m) b (partition_id m).
Definition with_partition p m := LruMeta (prev m) (next m) (hot m) p.

Definition with_num_nodes x l := LruList (u32 x) (head l) (tail l) (num_hot l) (last_hot l) (track_hot l).
Definition with_head x l := LruList (num_nodes l) (fld x) (tail l) (num_hot l) (last_hot l) (track_hot l).
Definition with_tail x l := LruList (num_nodes l) (head l) (fld x) (num_hot l) (last_hot l) (track_hot l).
Definition with_num_hot x l := LruList (num_nodes l) (head l) (tail l) (u32 x) (last_hot l) (track_hot l).
Definition with_last_hot x l := LruList (num_nodes l) (head l) (tail l) (num_hot l) (fld x) (track_hot l).

(** What the list functions see: the nodes and one list. *)
Record lru_view := LruView { metas : gmap Z ocf_lru_meta; list_of : ocf_lru_list }.

Definition M := Prelude.M lru_view.

Definition get_lru (cline : Z) : M ocf_lru_meta := load (fun s => metas s !! cline).
(** [ocf_metadata_get_lru(cache, cline)->field = ...] *)
Definition set_lru (cline : Z) (f : ocf_lru_meta -> ocf_lru_meta) : M unit :=
  node ← get_lru cline;
  modify (fun s => LruView (<[cline := f node]> (metas s)) (list_of s)).
Definition get_list : M ocf_lru_list := gets list_of.
Definition set_list (f : ocf_lru_list -> ocf_lru_list) : M unit :=
  modify (fun s => LruView (metas s) (f (list_of s))).

Definition balance_update_last_hot (change : Z) : M Z :=
  list ← get_list;
  let last_hot_old := last_hot list in
  last_hot_new ←
    (if bool_decide (change > 0) then
       _ ← bug_on (bool_decide (change <> 1));
       if bool_decide (last_hot list = end_marker) then mret (head list)
       else
         node ← get_lru (last_hot list);
         _ ← bug_on (bool_decide (next node = end_marker));
         mret (next node)
     else if bool_decide (change < 0) then
       _ ← bug_on (bool_decide (change <> -1));
       _ ← bug_on (bool_decide (last_hot list = end_marker));
       node ← get_lru (last_hot list);
       mret (prev node)
     else mret (last_hot list));
  _ ← set_list (with_last_hot last_hot_new);
  if bool_decide (change = 0) then mret end_marker
  else
    list ← get_list;
    mret (if bool_decide (change > 0) then last_hot list else last_hot_old).

Definition balance_lru_list : M unit :=
  list ← get_list;
  let target_hot_count := num_nodes list / OCF_LRU_HOT_RATIO in
  let change := s32 (target_hot_count - num_hot list) in
  if negb (track_hot list) then mret tt
  else
    _ ← set_list (with_num_hot target_hot_count);
    pivot ← balance_update_last_hot change;
    when (bool_decide (pivot <> end_marker))
      (set_lru pivot (with_hot (bool_decide (change >= 0)))).

Definition add_lru_head_nobalance (collision_index : Z) : M unit :=
  _ ← bug_on (bool_decide (collision_index = end_marker));
  _ ← set_lru collision_index (with_hot false);
  list ← get_list;
  if bool_decide (num_nodes list = 0) then
    _ ← set_list (with_head collision_index);
    _ ← set_list (with_tail collision_index);
    _ ← set_lru collision_index (with_next end_marker);
    _ ← set_lru collision_index (with_prev end_marker);
    set_list (with_num_nodes 1)
  else
    let curr_head_index := head list in
    _ ← bug_on (bool_decide (curr_head_index = end_marker));
    _ ← set_lru collision_index (with_next curr_head_index);
    _ ← set_lru collision_index (with_prev end_marker);
    _ ← set_lru curr_head_index (with_prev collision_index);
    _ ← when (track_hot list)
          (_ ← set_lru collision_index (with_hot true);
           curr_head ← get_lru curr_head_index;
           _ ← when (negb (hot curr_head)) (set_list (with_last_hot collision_index));
           set_list (fun l => with_num_hot (num_hot l + 1) l));
    _ ← set_list (with_head collision_index);
    set_list (fun l => with_num_nodes (num_nodes l + 1) l).

Definition add_lru_head (collision_index : Z) : M unit :=
  _ ← add_lru_head_nobalance collision_index;
  balance_lru_list.

Definition remove_update_ptrs (collision_index : Z) : M unit :=
  node ← get_lru collision_index;
  let next_lru_node := next node in
  let prev_lru_node := prev node in
  let is_head := bool_decide (prev node = end_marker) in
  let is_tail := bool_decide (next node = end_marker) in
  _ ← (if is_head && is_tail then
         _ ← set_list (with_head end_marker);
         set_list (with_tail end_marker)
       else if is_head then
         _ ← set_list (with_head next_lru_node);
         set_lru next_lru_node (with_prev end_marker)
       else if is_tail then
         _ ← set_list (with_tail prev_lru_node);
         set_lru prev_lru_node (with_next end_marker)
       else
         node ← get_lru collision_index;
         _ ← set_lru prev_lru_node (with_next (next node));
         node ← get_lru collision_index;
         set_lru next_lru_node (with_prev (prev node)));
  list ← get_list;
  when (bool_decide (last_hot list = collision_index))
    (set_list (with_last_hot prev_lru_node)).

Definition remove_lru_list_nobalance (collision_index : Z) : M unit :=
  _ ← bug_on (bool_decide (collision_index = end_marker));
  node ← get_lru collision_index;
  list ← get_list;
  let is_head := bool_decide (head list = collision_index) in
  let is_tail := bool_decide (tail list = collision_index) in
  _ ← bug_on (eqb is_head (bool_decide (prev node <> end_marker)));
  _ ← bug_on (eqb is_tail (bool_decide (next node <> end_marker)));
  _ ← remove_update_ptrs collision_index;
  _ ← set_list (fun l => with_num_nodes (num_nodes l - 1) l);
  node ← get_lru collision_index;
  _ ← when (hot node) (set_list (fun l => with_num_hot (num_hot l - 1) l));
  _ ← set_lru collision_index (with_next end_marker);
  _ ← set_lru collision_index (with_prev end_marker);
  set_lru collision_index (with_hot false).

Definition ocf_lru_remove_locked (cline : Z) : M unit :=
  _ ← remove_lru_list_nobalance cline;
  balance_lru_list.

Definition ocf_lru_set_hot (cline : Z) : M unit :=
  _ ← remove_lru_list_nobalance cline;
  _ ← add_lru_head_nobalance cline;
  balance_lru_list.

(** [_lru_init] *)
Definition lru_init_list (track : bool) : ocf_lru_list :=
  LruList 0 end_marker end_marker 0 end_marker track.
