(* ===== verification/LruProofs.v ===== *)
(** * The LRU lists implement a sequence with a hot prefix

    [rep]: the nodes and the list header represent the hot lines [hs]
    followed by the cold lines [cs].  Every list function of [Lru] is shown to
    compute the corresponding function on sequences, to keep the nodes of
    other lists, and to fail no assertion. *)

From S2P Require Import Prelude Links Lru.

#[export] Instance lru_link_node : LinkNode prev next with_prev with_next fld.
Proof. by split. Qed.

Abbreviation link := (Links.link prev next).
Abbreviation link_set_prev := (Links.link_set_prev with_prev with_next fld).
Abbreviation link_remove := (Links.link_remove with_prev with_next fld).

Definition hot_of (ms : gmap Z ocf_lru_meta) (x : Z) : option bool := hot <$> ms !! x.

Lemma link_set_hot (ms : gmap Z ocf_lru_meta) b y p l n :
  link ms p l n -> link (alter (with_hot b) y ms) p l n.
Proof. by apply link_set_other. Qed.

(** ** The representation *)

Definition valid_line (x : Z) : Prop := 0 <= x < end_marker.

Lemma fld_valid x : valid_line x -> fld x = x.
Proof. unfold valid_line, end_marker. intros Hx. apply wrap_small. unfold OCF_CACHE_LINE_BITS. lia. Qed.

Lemma fld_end : fld end_marker = end_marker.
Proof. reflexivity. Qed.

Lemma valid_not_end x : valid_line x -> x <> end_marker.
Proof. unfold valid_line. lia. Qed.

(** [L] and [ms] represent the hot lines [hs] followed by the cold [cs]. *)
Record rep (ms : gmap Z ocf_lru_meta) (L : ocf_lru_list) (hs cs : list Z) : Prop := {
  rep_nodup : NoDup (hs ++ cs);
  rep_valid x : x ∈ hs ++ cs -> valid_line x;
  rep_link : link ms end_marker (hs ++ cs) end_marker;
  rep_hot x : x ∈ hs -> hot_of ms x = Some true;
  rep_cold x : x ∈ cs -> hot_of ms x = Some false;
  rep_num : num_nodes L = Z.of_nat (length (hs ++ cs));
  rep_small : Z.of_nat (length (hs ++ cs)) < 2 ^ 31 - 1;
  rep_head : head L = hdd end_marker (hs ++ cs);
  rep_tail : tail L = lastd end_marker (hs ++ cs);
  rep_num_hot : num_hot L = Z.of_nat (length hs);
  rep_last_hot : last_hot L = lastd end_marker hs;
  rep_track : track_hot L = false -> hs = []
}.

(** Only nodes of [l] change, and never their partition. *)
Definition keeps (ms ms' : gmap Z ocf_lru_meta) (l : list Z) : Prop :=
  (forall y, y ∉ l -> ms' !! y = ms !! y) /\
  (forall y, partition_id <$> ms' !! y = partition_id <$> ms !! y).

Lemma keeps_refl ms l : keeps ms ms l.
Proof. done. Qed.

Lemma keeps_trans ms1 ms2 ms3 l : keeps ms1 ms2 l -> keeps ms2 ms3 l -> keeps ms1 ms3 l.
Proof. intros [H1 H2] [H3 H4]. split; intros y; [intros Hy; rewrite H3, H1|rewrite H4, H2]; done. Qed.

Lemma keeps_weaken ms ms' l l' : keeps ms ms' l -> (forall y, y ∈ l -> y ∈ l') -> keeps ms ms' l'.
Proof. intros [H1 H2] Hl. split; [|done]. intros y Hy. apply H1. auto. Qed.

Lemma keeps_alter ms f x l :
  x ∈ l -> (forall m, partition_id (f m) = partition_id m) -> keeps ms (alter f x ms) l.
Proof.
  intros Hx Hf. split; intros y.
  - intros Hy. apply lookup_alter_ne. intros ->. done.
  - rewrite lookup_alter. case_decide as E; [subst|done].
    destruct (ms !! y); cbn; [by rewrite Hf|done].
Qed.

Lemma hot_of_alter ms f x y :
  (forall m, hot (f m) = hot m) -> hot_of (alter f x ms) y = hot_of ms y.
Proof.
  intros Hf. unfold hot_of. rewrite lookup_alter. case_decide as E; [subst|done].
  destruct (ms !! y); cbn; [by rewrite Hf|done].
Qed.

Lemma hot_of_set ms b x y :
  is_Some (ms !! x) ->
  hot_of (alter (with_hot b) x ms) y = if decide (x = y) then Some b else hot_of ms y.
Proof.
  intros [m Hm]. unfold hot_of. rewrite lookup_alter. case_decide; [subst|done]. by rewrite Hm.
Qed.

Lemma lastd_valid hs cs x :
  (forall y, y ∈ hs ++ cs -> valid_line y) -> valid_line x \/ x = end_marker ->
  fld (lastd x hs) = lastd x hs.
Proof.
  intros Hv Hx. destruct (lastd_in x hs) as [->|Hin].
  - destruct Hx as [?| ->]; [by apply fld_valid|apply fld_end].
  - apply fld_valid, Hv. set_solver.
Qed.

Lemma hdd_valid l : (forall y, y ∈ l -> valid_line y) -> fld (hdd end_marker l) = hdd end_marker l.
Proof. intros Hv. destruct l as [|x l]; [apply fld_end|]. apply fld_valid, Hv. left. Qed.

(** ** Symbolic execution of the list code *)

Lemma wp_get_lru ms L x m (Q : ocf_lru_meta -> lru_view -> Prop) :
  ms !! x = Some m -> Q m (LruView ms L) -> wp (get_lru x) Q (LruView ms L).
Proof. intros Hm HQ. by apply (wp_load _ m). Qed.

Lemma wp_set_lru ms L x f (Q : unit -> lru_view -> Prop) :
  is_Some (ms !! x) -> Q tt (LruView (alter f x ms) L) -> wp (set_lru x f) Q (LruView ms L).
Proof.
  intros [m Hm] HQ. apply wp_bind. eapply wp_get_lru; [exact Hm|]. apply wp_modify. cbn.
  replace (<[x:=f m]> ms) with (alter f x ms); [done|].
  apply map_eq. intros y. rewrite lookup_alter, lookup_insert.
  case_decide; [subst; by rewrite Hm|done].
Qed.

Lemma wp_set_list ms L f (Q : unit -> lru_view -> Prop) :
  Q tt (LruView ms (f L)) -> wp (set_list f) Q (LruView ms L).
Proof. done. Qed.

Lemma wp_get_list ms L (Q : ocf_lru_list -> lru_view -> Prop) :
  Q L (LruView ms L) -> wp get_list Q (LruView ms L).
Proof. done. Qed.

(** One step of a list function; loads and stores of nodes leave the
    existence of the node as a side condition. *)
Ltac lru_step :=
  lazymatch goal with
  | |- wp (mbind _ _) _ _ => apply wp_bind
  | |- wp (mret _) _ _ => apply wp_ret
  | |- wp get_list _ _ => apply wp_get_list
  | |- wp (set_list _) _ _ => apply wp_set_list
  | |- wp (bug_on _) _ _ => apply wp_bug_on
  | |- wp (get_lru _) _ _ => eapply wp_get_lru
  | |- wp (set_lru _ _) _ _ => apply wp_set_lru
  end; cbn beta zeta.

Lemma is_Some_alter (ms : gmap Z ocf_lru_meta) f x y :
  is_Some (ms !! y) -> is_Some (alter f x ms !! y).
Proof. intros [m Hm]. rewrite lookup_alter. case_decide; [subst; rewrite Hm|]; eauto. Qed.

Create HintDb lru.
#[export] Hint Resolve is_Some_alter keeps_refl keeps_trans fld_valid valid_not_end : lru.

(** ** Adding at the head *)

Definition joins_hot (L : ocf_lru_list) (l : list Z) : bool :=
  track_hot L && negb (bool_decide (l = [])).

Lemma add_nobalance_wp ms L hs cs x :
  rep ms L hs cs -> x ∉ hs ++ cs -> valid_line x -> is_Some (ms !! x) ->
  Z.of_nat (length (hs ++ cs)) < 2 ^ 31 - 2 ->
  wp (add_lru_head_nobalance x) (fun _ s' =>
    rep (metas s') (list_of s')
      (if joins_hot L (hs ++ cs) then x :: hs else [])
      (if joins_hot L (hs ++ cs) then cs else x :: cs) /\
    keeps ms (metas s') (x :: hs ++ cs) /\ track_hot (list_of s') = track_hot L) (LruView ms L).
Proof.
  intros HR Hx Hv [m Hm] Hlen. pose proof HR as [].
  pose proof (valid_not_end x Hv) as Hne. pose proof (fld_valid x Hv) as Hfx.
  unfold add_lru_head_nobalance. lru_step. lru_step; [by apply bool_decide_eq_false_2|].
  lru_step. lru_step; [eauto|]. lru_step. lru_step.
  rewrite rep_num0. case_bool_decide as Hz.
  - assert (hs = [] /\ cs = []) as [-> ->].
    { destruct hs, cs; cbn in Hz; try lia. done. }
    unfold joins_hot. rewrite bool_decide_eq_true_2, andb_false_r by done.
    repeat (lru_step; [eauto with lru..|] || lru_step).
    split; [|split; [|done]].
    + split; cbn; try done.
      * apply NoDup_singleton.
      * by intros y ->%list_elem_of_singleton.
      * split; [|done]. rewrite !lookup_alter_eq, Hm. eexists. done.
      * set_solver.
      * intros y ->%list_elem_of_singleton. rewrite !hot_of_alter by done.
        rewrite hot_of_set by eauto. by rewrite decide_True.
    + repeat (eapply keeps_trans; [|apply keeps_alter; [left|done]]). apply keeps_refl.
  - destruct (hs ++ cs) as [|h l] eqn:El; [done|].
    assert (Hh : h <> x) by (intros ->; apply Hx; left).
    assert (Hvh : valid_line h) by (apply rep_valid0; left).
    assert (Hmh : is_Some (ms !! h)) by (eapply link_dom; [done|left]).
    assert (EL : head L = h) by (by rewrite rep_head0).
    rewrite EL.
    lru_step. lru_step; [by apply bool_decide_eq_false_2, valid_not_end|].
    repeat (lru_step; [eauto with lru..|]).
    set (ms1 := alter (with_prev x) h (alter (with_prev end_marker) x
                  (alter (with_next h) x (alter (with_hot false) x ms)))).
    assert (Hlink : link ms1 end_marker (x :: h :: l) end_marker).
    { split.
      - unfold ms1. rewrite lookup_alter_ne by done. rewrite !lookup_alter_eq, Hm.
        eexists. split; [done|]. cbn. split; [done|]. by apply fld_valid.
      - replace x with (fld x) at 1 by done. apply NoDup_cons in rep_nodup0 as [? ?].
        apply link_set_prev with (p := end_marker); [done|].
        repeat (apply link_alter_out; [done|]). done. }
    assert (Hkeep : keeps ms ms1 (x :: h :: l)).
    { unfold ms1. repeat (eapply keeps_trans; [|apply keeps_alter; [set_solver|done]]). apply keeps_refl. }
    assert (Hhot : forall y, y <> x -> hot_of ms1 y = hot_of ms y).
    { intros y Hy. unfold ms1. rewrite !hot_of_alter by done. rewrite hot_of_set by eauto.
      by rewrite decide_False. }
    assert (Hnd : NoDup (x :: h :: l)) by (by constructor).
    assert (Hval : forall y, y ∈ x :: h :: l -> valid_line y).
    { intros y [->|Hy]%elem_of_cons; auto. }
    assert (Hu : u32 (Z.of_nat (length (h :: l)) + 1) = Z.of_nat (length (x :: h :: l))).
    { rewrite wrap_small; cbn [length] in *; lia. }
    unfold joins_hot. rewrite bool_decide_eq_false_2, andb_true_r by done.
    destruct (track_hot L) eqn:Et; cbn [when negb].
    + do 3 (lru_step; [unfold ms1; eauto 10 with lru..|]).
      assert (exists mh, alter (with_hot true) x ms1 !! h = Some mh /\ Some (hot mh) = hot_of ms h)
        as (mh & Hmh' & Eh).
      { rewrite lookup_alter_ne by done. specialize (Hhot h Hh). unfold hot_of in *.
        destruct (ms1 !! h) as [mh|]; [eauto|]. destruct Hmh as [? Hmh]. by rewrite Hmh in Hhot. }
      lru_step; [exact Hmh'|].
      assert (Hrep : forall L', L' = with_num_nodes (num_nodes L + 1) (with_head x (with_num_hot (num_hot L + 1)
                        (if hot mh then L else with_last_hot x L))) ->
          rep (alter (with_hot true) x ms1) L' (x :: hs) cs).
      { intros L' ->.
        assert (El' : (x :: hs) ++ cs = x :: h :: l) by (cbn; by rewrite El).
        assert (Ehot : hot mh = negb (bool_decide (hs = []))).
        { destruct hs as [|h' hs]; cbn in El; [subst cs|injection El as -> _].
          - rewrite rep_cold0 in Eh by left. by injection Eh.
          - rewrite rep_hot0 in Eh by left. by injection Eh. }
        assert (Hlh : last_hot (if hot mh then L else with_last_hot x L) = lastd x hs).
        { rewrite Ehot. case_bool_decide as Ehs; cbn.
          - subst hs. done.
          - rewrite rep_last_hot0. destruct hs as [|h' hs]; [done|]. by rewrite !lastd_cons. }
        split; rewrite ?El'; try done.
        - by apply link_set_hot.
        - intros y Hy. rewrite hot_of_set by (unfold ms1; eauto 10 with lru).
          case_decide; [done|]. rewrite Hhot by congruence. apply rep_hot0. set_solver.
        - intros y Hy. assert (y <> x) by (intros ->; apply Hx; rewrite <- El; set_solver).
          rewrite hot_of_set by (unfold ms1; eauto 10 with lru).
          rewrite decide_False by congruence. rewrite Hhot by done. auto.
        - cbn. by rewrite rep_num0.
        - cbn [length] in *. lia.
        - rewrite !lastd_cons. rewrite lastd_cons in rep_tail0. by destruct (hot mh).
        - cbn. rewrite rep_num_hot0. cbn. rewrite wrap_small; [lia|].
          assert (length hs <= length (hs ++ cs))%nat by (rewrite length_app; lia).
          rewrite El in H. cbn [length] in *. lia.
        - cbn. rewrite Hlh. by rewrite lastd_cons.
        - cbn. destruct (hot mh); cbn; congruence. }
      lru_step. destruct (hot mh) eqn:Ehm; cbn [negb when].
      * repeat lru_step. cbn [metas list_of]. split; [by apply Hrep|]. split; [|done].
        eapply keeps_trans; [exact Hkeep|]. apply keeps_alter; [left|done].
      * repeat lru_step. cbn [metas list_of]. split; [by apply Hrep|]. split; [|done].
        eapply keeps_trans; [exact Hkeep|]. apply keeps_alter; [left|done].
    + assert (hs = []) as -> by (by apply (rep_track _ _ _ _ HR)). cbn in El. subst cs. repeat lru_step. cbn [metas list_of].
      split; [|done]. split; cbn [app]; try done.
      * set_solver.
      * intros y [->|Hy]%elem_of_cons; [|rewrite Hhot; [auto|by intros ->]].
        unfold ms1. rewrite !hot_of_alter by done. rewrite hot_of_set by eauto. by rewrite decide_True.
      * cbn. by rewrite rep_num0.
      * cbn [length] in *. lia.
Qed.

(** ** Removal *)

(** The pointer part of a removal. *)
Lemma remove_update_ptrs_wp ms L l1 x l2 :
  NoDup (l1 ++ x :: l2) -> (forall y, y ∈ l1 ++ x :: l2 -> valid_line y) ->
  link ms end_marker (l1 ++ x :: l2) end_marker ->
  head L = hdd end_marker (l1 ++ x :: l2) -> tail L = lastd end_marker (l1 ++ x :: l2) ->
  wp (remove_update_ptrs x) (fun _ s' =>
    link (metas s') end_marker (l1 ++ l2) end_marker /\
    (forall y, hot_of (metas s') y = hot_of ms y) /\
    keeps ms (metas s') (l1 ++ x :: l2) /\
    list_of s' = LruList (num_nodes L) (hdd end_marker (l1 ++ l2)) (lastd end_marker (l1 ++ l2))
      (num_hot L) (if bool_decide (last_hot L = x) then lastd end_marker l1 else last_hot L)
      (track_hot L))
    (LruView ms L).
Proof.
  intros Hnd Hval Hlk Hh Ht.
  destruct (link_lookup _ _ _ _ _ _ Hlk) as (m & Hm & Hp & Hn).
  assert (Hfp : fld (lastd end_marker l1) = lastd end_marker l1).
  { apply (lastd_valid l1 (x :: l2)); [done|by right]. }
  assert (Hfn : fld (hdd end_marker l2) = hdd end_marker l2).
  { apply hdd_valid. intros y Hy. apply Hval. set_solver. }
  pose proof (link_remove ms end_marker l1 x l2 end_marker Hnd Hlk Hfn Hfp) as Hrem.
  assert (Hend : forall y, y ∈ l1 ++ x :: l2 -> y <> end_marker) by eauto using valid_not_end.
  assert (Hdom : forall y, y ∈ l1 ++ x :: l2 -> is_Some (ms !! y)) by eauto using link_dom.
  assert (Hfin : forall ms' L', link ms' end_marker (l1 ++ l2) end_marker ->
      (forall y, hot_of ms' y = hot_of ms y) -> keeps ms ms' (l1 ++ x :: l2) ->
      num_nodes L' = num_nodes L -> num_hot L' = num_hot L -> track_hot L' = track_hot L ->
      last_hot L' = last_hot L ->
      head L' = hdd end_marker (l1 ++ l2) -> tail L' = lastd end_marker (l1 ++ l2) ->
      wp (list ← get_list; when (bool_decide (last_hot list = x))
           (set_list (with_last_hot (lastd end_marker l1)))) (fun _ s' =>
        link (metas s') end_marker (l1 ++ l2) end_marker /\
        (forall y, hot_of (metas s') y = hot_of ms y) /\
        keeps ms (metas s') (l1 ++ x :: l2) /\
        list_of s' = LruList (num_nodes L) (hdd end_marker (l1 ++ l2)) (lastd end_marker (l1 ++ l2))
          (num_hot L) (if bool_decide (last_hot L = x) then lastd end_marker l1 else last_hot L)
          (track_hot L)) (LruView ms' L')).
  { intros ms' [nn hd tl nh lh tr] H1 H2 H3. cbn. intros -> -> -> -> -> ->. do 2 lru_step. cbn [last_hot].
    apply wp_when; [rewrite bool_decide_eq_true|rewrite bool_decide_eq_false]; intros Elh.
    - lru_step. unfold with_last_hot. rewrite Hfp, bool_decide_eq_true_2 by done. done.
    - cbn. by rewrite bool_decide_eq_false_2. }
  unfold remove_update_ptrs. lru_step. lru_step; [exact Hm|]. rewrite Hp, Hn.
  destruct l1 as [|a l1 _] using rev_ind; destruct l2 as [|b l2].
  - rewrite (bool_decide_eq_true_2 (lastd _ _ = _)), (bool_decide_eq_true_2 (hdd _ _ = _)) by done.
    cbn [andb]. do 4 lru_step. by apply Hfin.
  - change (hdd end_marker (b :: l2)) with b in *.
    rewrite (bool_decide_eq_true_2 (lastd _ _ = _)) by done.
    rewrite (bool_decide_eq_false_2 (b = _)) by (apply Hend; set_solver).
    cbn [andb]. do 3 lru_step. lru_step; [apply Hdom; set_solver|].
    apply Hfin; try done.
    + intros y. by apply hot_of_alter.
    + apply keeps_alter; [set_solver|done].
  - rewrite lastd_snoc in *.
    rewrite (bool_decide_eq_false_2 (a = _)) by (apply Hend; set_solver).
    rewrite (bool_decide_eq_true_2 (hdd _ _ = _)) by done.
    cbn [andb]. do 3 lru_step. lru_step; [apply Hdom; set_solver|].
    rewrite last_snoc in Hrem. rewrite app_nil_r in *.
    apply Hfin; try done.
    + intros y. by apply hot_of_alter.
    + apply keeps_alter; [set_solver|done].
    + cbn [head with_tail]. rewrite Hh. destruct l1; done.
    + cbn [tail with_tail]. rewrite lastd_snoc. apply Hfp.
  - rewrite lastd_snoc in *. change (hdd end_marker (b :: l2)) with b in *.
    rewrite (bool_decide_eq_false_2 (a = _)), (bool_decide_eq_false_2 (b = _))
      by (apply Hend; set_solver).
    cbn [andb]. rewrite last_snoc in Hrem.
    assert (Hxa : x <> a /\ x <> b /\ a <> b).
    { rewrite <- app_assoc in Hnd. apply NoDup_app in Hnd as (_ & _ & Hnd).
      cbn in Hnd. rewrite !NoDup_cons, !not_elem_of_cons in Hnd. naive_solver. }
    destruct Hxa as (Hxa & Hxb & Hab).
    lru_step. lru_step. lru_step; [exact Hm|]. rewrite Hn.
    lru_step. lru_step; [apply Hdom; set_solver|].
    lru_step. lru_step; [by rewrite lookup_alter_ne|]. rewrite Hp.
    lru_step; [apply is_Some_alter, Hdom; set_solver|].
    apply Hfin; try done.
    + intros y. by rewrite !hot_of_alter.
    + eapply keeps_trans; apply keeps_alter; set_solver || done.
    + rewrite Hh. destruct l1; done.
    + rewrite Ht. by rewrite !lastd_app, !lastd_cons.
Qed.

Lemma head_flag l1 x l2 :
  (forall y, y ∈ l1 ++ x :: l2 -> valid_line y) -> NoDup (l1 ++ x :: l2) ->
  eqb (bool_decide (hdd end_marker (l1 ++ x :: l2) = x))
      (bool_decide (lastd end_marker l1 <> end_marker)) = false.
Proof.
  intros Hv (_ & Hn & _)%NoDup_app. destruct l1 as [|a l1].
  - by rewrite bool_decide_eq_true_2, bool_decide_eq_false_2 by naive_solver.
  - cbn. rewrite bool_decide_eq_false_2; [rewrite bool_decide_eq_true_2; [done|]|].
    + apply valid_not_end, Hv. rewrite lastd_cons.
      destruct (lastd_in a l1) as [->|?]; set_solver.
    + intros ->. apply (Hn x); left.
Qed.

Lemma tail_flag l1 x l2 :
  (forall y, y ∈ l1 ++ x :: l2 -> valid_line y) -> NoDup (l1 ++ x :: l2) ->
  eqb (bool_decide (lastd end_marker (l1 ++ x :: l2) = x))
      (bool_decide (hdd end_marker l2 <> end_marker)) = false.
Proof.
  intros Hv (_ & _ & [Hn _]%NoDup_cons)%NoDup_app. rewrite lastd_app, lastd_cons.
  destruct l2 as [|b l2].
  - by rewrite bool_decide_eq_true_2, bool_decide_eq_false_2 by naive_solver.
  - rewrite bool_decide_eq_false_2; [rewrite bool_decide_eq_true_2; [done|]|].
    + apply valid_not_end, Hv. set_solver.
    + rewrite lastd_cons. destruct (lastd_in b l2); set_solver.
Qed.

(** The last hot line after a removal is the predecessor of the removed one
    exactly when the removed one was the last hot line. *)
Lemma last_hot_without x hs cs l1 l2 :
  NoDup (hs ++ cs) -> hs ++ cs = l1 ++ x :: l2 -> x <> end_marker ->
  (if bool_decide (lastd end_marker hs = x) then lastd end_marker l1 else lastd end_marker hs) =
  lastd end_marker (without x hs).
Proof.
  intros Hnd Heq Hne. destruct (decide (x ∈ hs)) as [Hx|Hx].
  - apply list_elem_of_split in Hx as (a & b & ->).
    rewrite <- app_assoc in Heq, Hnd. cbn in Heq, Hnd.
    assert (Hl1 : a = l1) by (by destruct (nodup_split_unique _ _ _ _ _ Hnd Heq)). subst l1.
    assert (Hnd' : NoDup (a ++ x :: b)).
    { change (x :: b ++ cs) with ((x :: b) ++ cs) in Hnd. rewrite app_assoc in Hnd.
      by apply NoDup_app in Hnd as [? _]. }
    rewrite without_split by done. rewrite !lastd_app, lastd_cons.
    apply NoDup_app in Hnd' as (_ & _ & [Hxb _]%NoDup_cons).
    destruct b as [|y b _] using rev_ind; [by case_bool_decide|].
    rewrite !lastd_snoc. rewrite bool_decide_eq_false_2; [done|]. intros ->. set_solver.
  - rewrite without_not_in by done. rewrite bool_decide_eq_false_2; [done|]. intros Hl.
    destruct (lastd_in end_marker hs) as [He|He]; rewrite Hl in He; done.
Qed.

(** The node of a line outside every list. *)
Definition detached_node (p : Z) : ocf_lru_meta := LruMeta end_marker end_marker false p.

Definition detach_meta (x : Z) (ms : gmap Z ocf_lru_meta) : gmap Z ocf_lru_meta :=
  alter (with_hot false) x (alter (with_prev end_marker) x (alter (with_next end_marker) x ms)).

Lemma detach_meta_keeps x ms l : x ∈ l -> keeps ms (detach_meta x ms) l.
Proof.
  intros Hx. unfold detach_meta.
  repeat (eapply keeps_trans; [|apply keeps_alter; done]). apply keeps_refl.
Qed.

Lemma detach_meta_link x ms p l n : x ∉ l -> link ms p l n -> link (detach_meta x ms) p l n.
Proof. intros Hx Hl. unfold detach_meta. repeat (apply link_alter_out; [done|]). done. Qed.

Lemma detach_meta_ne x y ms : y <> x -> detach_meta x ms !! y = ms !! y.
Proof. intros Hy. unfold detach_meta. by rewrite !lookup_alter_ne by done. Qed.

Lemma detach_meta_eq x ms m :
  ms !! x = Some m -> detach_meta x ms !! x = Some (detached_node (partition_id m)).
Proof. intros Hm. unfold detach_meta. by rewrite !lookup_alter_eq, Hm. Qed.

Lemma rep_hot_of ms L hs cs x :
  rep ms L hs cs -> x ∈ hs ++ cs -> hot_of ms x = Some (bool_decide (x ∈ hs)).
Proof.
  intros [] Hx. case_bool_decide; [auto|]. apply rep_cold0. set_solver.
Qed.

(** A list without one of its lines, from the pointers of the others. *)
Lemma rep_without ms L hs cs l1 x l2 ms1 L' :
  rep ms L hs cs -> hs ++ cs = l1 ++ x :: l2 ->
  link ms1 end_marker (l1 ++ l2) end_marker ->
  (forall y, hot_of ms1 y = hot_of ms y) ->
  num_nodes L' = num_nodes L - 1 ->
  num_hot L' = num_hot L - Z.b2z (bool_decide (x ∈ hs)) ->
  head L' = hdd end_marker (l1 ++ l2) -> tail L' = lastd end_marker (l1 ++ l2) ->
  last_hot L' = (if bool_decide (last_hot L = x) then lastd end_marker l1 else last_hot L) ->
  track_hot L' = track_hot L ->
  rep (detach_meta x ms1) L' (without x hs) (without x cs).
Proof.
  intros [] El Hl Hho Hn Hnh Hh Ht Hlh Htr.
  assert (Hx : x ∉ l1 ++ l2) by (apply nodup_pivot; by rewrite <- El).
  assert (Hv : valid_line x).
  { apply rep_valid0. rewrite El. apply elem_of_app. right. left. }
  assert (El' : without x hs ++ without x cs = l1 ++ l2).
  { rewrite <- without_app, El. apply without_split. by rewrite <- El. }
  assert (Hnd' : NoDup (l1 ++ l2)).
  { rewrite <- El', <- without_app. by apply NoDup_filter. }
  assert (Hsub : forall y, y ∈ l1 ++ l2 -> y <> x /\ y ∈ hs ++ cs).
  { intros y. by rewrite <- El', <- without_app, elem_of_without. }
  assert (Hhot' : forall y, y <> x -> hot_of (detach_meta x ms1) y = hot_of ms y).
  { intros y Hy. rewrite <- Hho. unfold hot_of. by rewrite detach_meta_ne. }
  assert (Hlen : length (hs ++ cs) = S (length (l1 ++ l2))).
  { rewrite El, !length_app. cbn. lia. }
  split; rewrite ?El'; try done.
  - intros y Hy. apply rep_valid0. by apply Hsub.
  - by apply detach_meta_link.
  - intros y [Hy Hin]%elem_of_without. rewrite Hhot'; auto.
  - intros y [Hy Hin]%elem_of_without. rewrite Hhot'; auto.
  - rewrite Hn, rep_num0, Hlen. lia.
  - lia.
  - rewrite Hnh, rep_num_hot0, length_without; [done|]. by apply NoDup_app in rep_nodup0 as [? _].
  - rewrite Hlh, rep_last_hot0. by apply last_hot_without with cs l2, valid_not_end.
  - intros Htf. rewrite Htr in Htf. by rewrite (rep_track0 Htf).
Qed.

Lemma remove_nobalance_wp ms L hs cs x :
  rep ms L hs cs -> x ∈ hs ++ cs ->
  wp (remove_lru_list_nobalance x) (fun _ s' =>
    rep (metas s') (list_of s') (without x hs) (without x cs) /\
    keeps ms (metas s') (hs ++ cs) /\ track_hot (list_of s') = track_hot L /\
    exists p, metas s' !! x = Some (detached_node p)) (LruView ms L).
Proof.
  intros HR Hx. pose proof HR as []. pose proof (rep_hot_of _ _ _ _ _ HR Hx) as Hhx.
  assert (Hv : valid_line x) by auto. pose proof (valid_not_end x Hv) as Hne.
  pose proof Hx as (l1 & l2 & El)%list_elem_of_split.
  pose proof rep_link0 as Hlk. rewrite El in Hlk.
  destruct (link_lookup _ _ _ _ _ _ Hlk) as (m & Hm & Hp & Hn).
  assert (Hve : forall y, y ∈ l1 ++ x :: l2 -> valid_line y) by (by rewrite <- El).
  assert (Hnd : NoDup (l1 ++ x :: l2)) by (by rewrite <- El).
  unfold remove_lru_list_nobalance. lru_step.
  lru_step; [by apply bool_decide_eq_false_2|].
  lru_step. lru_step; [exact Hm|]. do 2 lru_step.
  lru_step. lru_step.
  { rewrite rep_head0, El, Hp. by apply head_flag. }
  lru_step. lru_step.
  { rewrite rep_tail0, El, Hn. by apply tail_flag. }
  lru_step. eapply wp_mono.
  { apply remove_update_ptrs_wp with (l1 := l1) (l2 := l2); rewrite <- ?El; done. }
  cbn beta. intros _ [ms1 L1] (Hl & Hho & Hk & HL). cbn [metas list_of] in *. subst L1.
  do 2 lru_step. lru_step.
  assert (Hm1 : exists m1, ms1 !! x = Some m1 /\ hot m1 = bool_decide (x ∈ hs)).
  { specialize (Hho x). unfold hot_of in *. rewrite Hhx in Hho.
    destruct (ms1 !! x) as [m1|]; [|done]. injection Hho. eauto. }
  destruct Hm1 as (m1 & Hm1 & Hh1).
  lru_step; [exact Hm1|]. lru_step.
  rewrite Hh1.
  assert (Hu : u32 (num_nodes L - 1) = num_nodes L - 1).
  { apply wrap_small. rewrite rep_num0, El, length_app in *. cbn [length] in *. lia. }
  assert (Hfin : forall L', num_nodes L' = num_nodes L - 1 ->
    num_hot L' = num_hot L - Z.b2z (bool_decide (x ∈ hs)) ->
    head L' = hdd end_marker (l1 ++ l2) -> tail L' = lastd end_marker (l1 ++ l2) ->
    last_hot L' = (if bool_decide (last_hot L = x) then lastd end_marker l1 else last_hot L) ->
    track_hot L' = track_hot L ->
    wp (_ ← set_lru x (with_next end_marker); _ ← set_lru x (with_prev end_marker);
        set_lru x (with_hot false)) (fun _ s' =>
      rep (metas s') (list_of s') (without x hs) (without x cs) /\
      keeps ms (metas s') (hs ++ cs) /\ track_hot (list_of s') = track_hot L /\
      exists p, metas s' !! x = Some (detached_node p)) (LruView ms1 L')).
  { intros L' H1 H2 H3 H4 H5 H6. lru_step. lru_step; [by eauto|].
    lru_step. lru_step; [by eauto with lru|]. lru_step; [by eauto with lru|].
    cbn [metas list_of]. split; [|split; [|split; [done|]]].
    - by apply (rep_without ms L hs cs l1 x l2 ms1 L').
    - rewrite <- El in Hk. eapply keeps_trans; [exact Hk|]. by apply detach_meta_keeps.
    - eexists. apply (detach_meta_eq x ms1 m1 Hm1). }
  case_bool_decide as Hin; cbn [when]; lru_step; apply Hfin; try done.
  - cbn. rewrite rep_num_hot0. rewrite wrap_small; [cbn; lia|].
    apply list_elem_of_split in Hin as (a & b & ->). rewrite !length_app in *. cbn [length] in *. lia.
  - cbn. lia.
Qed.

(** ** Balancing *)

(** Moving the boundary between hot and cold. *)
Lemma rep_boundary ms L hs cs hs' cs' x L' :
  rep ms L hs cs -> hs' ++ cs' = hs ++ cs -> x ∈ hs ++ cs ->
  (forall y, y <> x -> (y ∈ hs <-> y ∈ hs')) ->
  (track_hot L' = false -> hs' = []) ->
  L' = LruList (num_nodes L) (head L) (tail L) (Z.of_nat (length hs')) (lastd end_marker hs')
         (track_hot L') ->
  rep (alter (with_hot (bool_decide (x ∈ hs'))) x ms) L' hs' cs'.
Proof.
  intros HR El Hx Hside Htr EL. pose proof HR as [].
  assert (Hdx : is_Some (ms !! x)) by (by eapply link_dom).
  assert (Hd : forall y, y ∈ hs' -> y ∈ cs' -> False).
  { rewrite <- El in rep_nodup0. apply NoDup_app in rep_nodup0 as (_ & ? & _). auto. }
  assert (Ho : forall y, y ∈ hs ++ cs ->
    hot_of (alter (with_hot (bool_decide (x ∈ hs'))) x ms) y = Some (bool_decide (y ∈ hs'))).
  { intros y Hy. rewrite hot_of_set by done. case_decide as Exy; [by subst|].
    rewrite (rep_hot_of _ _ _ _ _ HR Hy). f_equal. apply bool_decide_ext.
    apply Hside. congruence. }
  rewrite EL. split; rewrite ?El; try done.
  - by apply link_set_hot.
  - intros y Hy. rewrite Ho; [by rewrite bool_decide_eq_true_2|].
    rewrite <- El. apply elem_of_app. by left.
  - intros y Hy. rewrite Ho; [rewrite bool_decide_eq_false_2; [done|]; eauto|].
    rewrite <- El. apply elem_of_app. by right.
Qed.

Lemma rep_last_fld ms L hs cs : rep ms L hs cs -> fld (last_hot L) = last_hot L.
Proof. intros []. rewrite rep_last_hot0. eapply lastd_valid; [done|by right]. Qed.

Definition balanced (l : list Z) : list Z := take (length l / 2) l.
Definition unbalanced (l : list Z) : list Z := drop (length l / 2) l.

Lemma balanced_app l : balanced l ++ unbalanced l = l.
Proof. apply take_drop. Qed.

Lemma balanced_unique hs cs :
  length hs = (length (hs ++ cs) / 2)%nat ->
  balanced (hs ++ cs) = hs /\ unbalanced (hs ++ cs) = cs.
Proof. intros Hl. unfold balanced, unbalanced. by rewrite <- Hl, take_app_length, drop_app_length. Qed.

Definition bal_hot (t : bool) l : list Z := if t then balanced l else [].
Definition bal_cold (t : bool) l : list Z := if t then unbalanced l else l.

Lemma balance_wp ms L hs cs :
  rep ms L hs cs ->
  (track_hot L = true ->
     (length hs <= length (hs ++ cs) / 2 + 1 /\ length (hs ++ cs) / 2 <= length hs + 1)%nat) ->
  wp balance_lru_list (fun _ s' =>
    rep (metas s') (list_of s') (bal_hot (track_hot L) (hs ++ cs)) (bal_cold (track_hot L) (hs ++ cs)) /\
    keeps ms (metas s') (hs ++ cs) /\ track_hot (list_of s') = track_hot L) (LruView ms L).
Proof.
  intros HR Hb. pose proof HR as [].
  remember (length (hs ++ cs)) as n eqn:En.
  assert (Ht : num_nodes L / OCF_LRU_HOT_RATIO = Z.of_nat (n / 2)%nat).
  { rewrite rep_num0. unfold OCF_LRU_HOT_RATIO. by rewrite Nat2Z.inj_div. }
  unfold balance_lru_list. do 2 lru_step. rewrite Ht.
  destruct (track_hot L) eqn:Et; cbn [negb].
  2: { lru_step. cbn [metas list_of]. rewrite (rep_track0 eq_refl) in *. cbn. auto using keeps_refl. }
  destruct (Hb eq_refl) as [Hb1 Hb2]. clear Hb.
  lru_step. lru_step. rewrite rep_num_hot0.
  rewrite s32_small by lia. cbn [bal_hot bal_cold].
  assert (Hn2 : (n / 2 <= n)%nat) by (apply Nat.Div0.div_le_upper_bound; lia).
  assert (Hu : u32 (Z.of_nat (n / 2)) = Z.of_nat (n / 2)) by (apply wrap_small; lia).
  assert (Hfin : forall hs' cs' x L', hs' ++ cs' = hs ++ cs -> x ∈ hs ++ cs ->
    length hs' = (n / 2)%nat -> (forall y, y <> x -> (y ∈ hs <-> y ∈ hs')) ->
    L' = LruList (num_nodes L) (head L) (tail L) (Z.of_nat (length hs')) (lastd end_marker hs')
         (track_hot L) ->
    let s' := LruView (alter (with_hot (bool_decide (x ∈ hs'))) x ms) L' in
    rep (metas s') (list_of s') (balanced (hs ++ cs)) (unbalanced (hs ++ cs)) /\
    keeps ms (metas s') (hs ++ cs) /\ track_hot (list_of s') = true).
  { intros hs' cs' x L' El Hx Hl Hs ->. destruct (balanced_unique hs' cs') as [H1 H2].
    { by rewrite El, <- En. }
    rewrite <- El, H1, H2. cbn [metas list_of track_hot]. split; [|split; [|done]].
    - eapply (rep_boundary ms L hs cs); rewrite ?Et; done.
    - apply keeps_alter; [by rewrite El|done]. }
  assert (Hfl : forall y, y ∈ hs ++ cs -> fld y = y) by auto using fld_valid.
  unfold balance_update_last_hot.
  do 3 lru_step. cbn [last_hot with_num_hot head]. rewrite rep_last_hot0.
  destruct (Z.lt_trichotomy (Z.of_nat (n / 2) - Z.of_nat (length hs)) 0) as [Hlt|[Hz|Hgt]].
  - (* one hot line becomes cold *)
    destruct hs as [|x hs _] using rev_ind; [cbn in Hlt; lia|]. rewrite lastd_snoc.
    rewrite length_app in *. cbn [length] in *.
    assert (Hx : x ∈ (hs ++ [x]) ++ cs) by set_solver.
    assert (Hlink := rep_link0). rewrite <- app_assoc in Hlink. cbn in Hlink.
    destruct (link_lookup _ _ _ _ _ _ Hlink) as (m & Hm & Hp & Hn).
    rewrite (bool_decide_eq_false_2 (_ > 0)), (bool_decide_eq_true_2 (_ < 0)),
      (bool_decide_eq_false_2 (_ = 0)), (bool_decide_eq_false_2 (_ >= 0)) by lia.
    do 2 lru_step. lru_step; [apply bool_decide_eq_false_2; lia|].
    lru_step. lru_step; [by apply bool_decide_eq_false_2, valid_not_end; auto|].
    lru_step. lru_step; [exact Hm|]. do 6 lru_step.
    rewrite (bool_decide_eq_true_2 (_ <> _)) by (apply valid_not_end; auto). cbn [when].
    lru_step; [eauto|].
    assert (Hxh : x ∉ hs).
    { intros Hxh. rewrite <- app_assoc in rep_nodup0. apply NoDup_app in rep_nodup0 as (_ & Hd & _).
      apply (Hd x Hxh). left. }
    specialize (Hfin hs (x :: cs) x). rewrite (bool_decide_eq_false_2 (x ∈ hs)) in Hfin by done.
    apply Hfin; [by rewrite <- app_assoc|done|lia| |].
    + intros y Hy. set_solver.
    + unfold with_last_hot, with_num_hot. cbn [num_nodes head tail num_hot last_hot track_hot]. rewrite Hp, Hu, (lastd_valid hs (x :: cs)); [|set_solver|by right].
      f_equal; lia.
  - (* nothing moves *)
    rewrite (bool_decide_eq_false_2 (_ > 0)), (bool_decide_eq_false_2 (_ < 0)),
      (bool_decide_eq_true_2 (_ = 0)) by lia.
    do 5 lru_step. rewrite (bool_decide_eq_false_2 (_ <> _)) by auto. cbn [when]. lru_step.
    cbn [metas list_of]. destruct (balanced_unique hs cs) as [-> ->]; [rewrite <- En; lia|].
    split; [|split; [apply keeps_refl|done]].
    replace (with_last_hot _ _) with L; [done|].
    symmetry.
    transitivity (LruList (num_nodes L) (head L) (tail L) (num_hot L) (last_hot L) (track_hot L));
      [|by destruct L].
    unfold with_last_hot, with_num_hot. cbn [num_nodes head tail num_hot last_hot track_hot].
    rewrite Hu, rep_num_hot0, rep_last_hot0, (lastd_valid hs cs) by (done || by right).
    f_equal; lia.
  - (* the first cold line becomes hot *)
    assert (Hc : exists c cs', cs = c :: cs') by (destruct cs; [rewrite app_nil_r in En; lia|eauto]).
    destruct Hc as (c & cs' & ->).
    assert (Hx : c ∈ hs ++ c :: cs') by set_solver.
    assert (Hne : c <> end_marker) by (apply valid_not_end; auto).
    rewrite (bool_decide_eq_true_2 (_ > 0)), (bool_decide_eq_false_2 (_ = 0)),
      (bool_decide_eq_true_2 (_ >= 0)) by lia.
    assert (Hpivot : forall s Q, s = LruView ms (with_num_hot (Z.of_nat (n / 2)) L) ->
      Q c s -> wp (if bool_decide (lastd end_marker hs = end_marker)
          then mret (head L)
          else node ← get_lru (lastd end_marker hs);
               _ ← bug_on (bool_decide (next node = end_marker)); mret (next node)) Q s).
    { intros s Q -> HQ. destruct hs as [|h hs _] using rev_ind.
      - rewrite (bool_decide_eq_true_2 (lastd _ _ = _)) by done. lru_step. by rewrite rep_head0.
      - rewrite lastd_snoc in *. rewrite <- app_assoc in rep_link0. cbn [app] in rep_link0.
        destruct (link_lookup _ _ _ _ _ _ rep_link0) as (m & Hm & _ & Hn).
        assert (Hvh : valid_line h) by (apply rep_valid0; set_solver).
        rewrite (bool_decide_eq_false_2 (h = _)) by (by apply valid_not_end).
        lru_step. lru_step; [exact Hm|]. rewrite Hn. lru_step.
        lru_step; [by apply bool_decide_eq_false_2|]. by lru_step. }
    do 2 lru_step. lru_step; [apply bool_decide_eq_false_2; lia|].
    apply Hpivot; [done|]. do 5 lru_step. cbn [last_hot with_last_hot]. rewrite Hfl by done.
    rewrite (bool_decide_eq_true_2 (_ <> _)) by done. cbn [when].
    lru_step; [eapply link_dom; done|].
    specialize (Hfin (hs ++ [c]) cs' c). rewrite (bool_decide_eq_true_2 (c ∈ _)) in Hfin by set_solver.
    apply Hfin; [by rewrite <- app_assoc|done|rewrite length_app; cbn [length]; lia| |].
    + intros y Hy. set_solver.
    + unfold with_last_hot, with_num_hot. cbn [num_nodes head tail num_hot last_hot track_hot]. rewrite Hu, Hfl, lastd_snoc by done.
      f_equal; rewrite length_app; cbn [length]; lia.
Qed.
