(* ===== verification/LruSeq.v ===== *)
(** * The list operations on sequences of cache lines

    A list in the state between two operations is described by one sequence,
    most recently used first: its first half is the hot part when the list
    tracks hotness.  [add_lru_head], [ocf_lru_remove_locked] and
    [ocf_lru_set_hot] cons, drop and move to front, and re-establish the
    split. *)

From S2P Require Import Prelude Links Lru LruProofs.

Definition lru_seq (ms : gmap Z ocf_lru_meta) (L : ocf_lru_list) (l : list Z) : Prop :=
  rep ms L (bal_hot (track_hot L) l) (bal_cold (track_hot L) l).

Lemma bal_app t l : bal_hot t l ++ bal_cold t l = l.
Proof. destruct t; [apply balanced_app|done]. Qed.

Lemma bal_hot_length t l : length (bal_hot t l) = if t then (length l / 2)%nat else 0%nat.
Proof.
  destruct t; [|done]. unfold bal_hot, balanced. rewrite length_take.
  pose proof (Nat.Div0.div_le_upper_bound (length l) 2 (length l)). lia.
Qed.

(** The split still fits after one line left either part. *)
Lemma without_length_half x t l :
  NoDup l -> x ∈ l ->
  (length (without x l) + 1 = length l /\
   length (without x (bal_hot t l)) <= length (bal_hot t l) /\
   length (bal_hot t l) <= length (without x (bal_hot t l)) + 1)%nat.
Proof.
  intros Hnd Hx. pose proof (length_without x l Hnd) as Hl.
  rewrite bool_decide_eq_true_2 in Hl by done. cbn [Z.b2z] in Hl.
  assert (Hnh : NoDup (bal_hot t l)).
  { rewrite <- (bal_app t l) in Hnd. by apply NoDup_app in Hnd as [? _]. }
  pose proof (length_without x _ Hnh). destruct (bool_decide _); cbn [Z.b2z] in *; lia.
Qed.

Lemma lru_seq_nodup ms L l : lru_seq ms L l -> NoDup l.
Proof. intros []. by rewrite bal_app in rep_nodup. Qed.

Lemma lru_seq_valid ms L l x : lru_seq ms L l -> x ∈ l -> valid_line x.
Proof. intros [] Hx. apply rep_valid. by rewrite bal_app. Qed.

Lemma lru_seq_small ms L l : lru_seq ms L l -> Z.of_nat (length l) < 2 ^ 31 - 1.
Proof. intros []. by rewrite bal_app in rep_small. Qed.

Lemma bal_without x t l :
  without x (bal_hot t l) ++ without x (bal_cold t l) = without x l.
Proof. by rewrite <- without_app, bal_app. Qed.

(** What an operation does to a list: [l] becomes [l'], only nodes of [l]
    and [x] change, and never their partition. *)
Definition list_post (ms : gmap Z ocf_lru_meta) (L : ocf_lru_list) (x : Z) (l l' : list Z)
    (s' : lru_view) : Prop :=
  lru_seq (metas s') (list_of s') l' /\ keeps ms (metas s') (x :: l) /\
  track_hot (list_of s') = track_hot L.

Lemma half_add n : ((n / 2 <= (n + 1) / 2) /\ ((n + 1) / 2 <= n / 2 + 1))%nat.
Proof. pose proof (Nat.div_mod_eq n 2). pose proof (Nat.div_mod_eq (n + 1) 2).
  pose proof (Nat.mod_upper_bound n 2). pose proof (Nat.mod_upper_bound (n + 1) 2). lia. Qed.

Lemma rebalance_wp ms0 L0 ms1 L1 hs cs x l l' :
  rep ms1 L1 hs cs -> keeps ms0 ms1 (x :: l) -> track_hot L1 = track_hot L0 ->
  hs ++ cs = l' -> (forall y, y ∈ l' -> y ∈ x :: l) ->
  (track_hot L1 = true ->
    (length hs <= length l' / 2 + 1 /\ length l' / 2 <= length hs + 1)%nat) ->
  wp balance_lru_list (fun _ => list_post ms0 L0 x l l') (LruView ms1 L1).
Proof.
  intros HR Hk Ht El Hsub Hlen. rewrite <- El in Hlen. eapply wp_mono; [by apply balance_wp|].
  intros _ s' (HR' & Hk' & Ht'). unfold list_post, lru_seq. rewrite Ht', <- El.
  split; [done|]. split; [|congruence].
  eapply keeps_trans; [exact Hk|]. eapply keeps_weaken; [exact Hk'|]. by rewrite El.
Qed.

(** [bind] when the first part establishes [P]. *)
Lemma wp_seq {A B} (m : Lru.M A) (k : A -> Lru.M B) (P : A -> lru_view -> Prop) Q s :
  wp m P s -> (forall a ms L, P a (LruView ms L) -> wp (k a) Q (LruView ms L)) ->
  wp (mbind k m) Q s.
Proof.
  intros Hm Hk. apply wp_bind. eapply wp_mono; [exact Hm|]. intros a [ms L]. apply Hk.
Qed.

Lemma add_lru_head_wp ms L l x :
  lru_seq ms L l -> x ∉ l -> valid_line x -> is_Some (ms !! x) ->
  Z.of_nat (length l) < 2 ^ 31 - 2 ->
  wp (add_lru_head x) (fun _ => list_post ms L x l (x :: l)) (LruView ms L).
Proof.
  intros HR Hx Hv Hd Hlen. pose proof (bal_app (track_hot L) l) as El.
  eapply wp_seq.
  { apply add_nobalance_wp; [exact HR|..]; rewrite ?El; done. }
  cbn beta. rewrite El. intros _ ms1 L1 (HR1 & Hk & Ht). cbn [metas list_of] in *.
  unfold joins_hot in HR1. pose proof (half_add (length l)).
  eapply rebalance_wp; [exact HR1|done|done| |done|]; rewrite ?Ht.
  - destruct (track_hot L); cbn [andb bal_hot bal_cold]; [|done].
    case_bool_decide as Hl; cbn [negb app]; [by rewrite Hl|]. by rewrite balanced_app.
  - intros ->. cbn [andb]. rewrite Nat.add_comm in H. change (length (x :: l)) with (1 + length l)%nat.
    case_bool_decide as Hl; cbn [negb].
    + subst l. cbn. lia.
    + cbn [length]. rewrite (bal_hot_length true). lia.
Qed.

Lemma ocf_lru_remove_wp ms L l x :
  lru_seq ms L l -> x ∈ l ->
  wp (ocf_lru_remove_locked x) (fun _ => list_post ms L x l (without x l)) (LruView ms L).
Proof.
  intros HR Hx. pose proof (bal_app (track_hot L) l) as El.
  eapply wp_seq.
  { apply remove_nobalance_wp; [exact HR|]; rewrite ?El; done. }
  cbn beta. rewrite El. intros _ ms1 L1 (HR1 & Hk & Ht & _). cbn [metas list_of] in *.
  eapply rebalance_wp; [exact HR1| |done| | |]; rewrite ?Ht.
  - eapply keeps_weaken; [exact Hk|]. by right.
  - apply bal_without.
  - intros y [_ Hy]%elem_of_without. by right.
  - intros E. pose proof (without_length_half x (track_hot L) l (lru_seq_nodup _ _ _ HR) Hx).
    rewrite E in *. pose proof (bal_hot_length true l). pose proof (half_add (length (without x l))).
    replace (length (without x l) + 1)%nat with (length l) in * by lia. lia.
Qed.

Lemma ocf_lru_set_hot_wp ms L l x :
  lru_seq ms L l -> x ∈ l ->
  wp (ocf_lru_set_hot x) (fun _ => list_post ms L x l (x :: without x l)) (LruView ms L).
Proof.
  intros HR Hx. pose proof (bal_app (track_hot L) l) as El.
  eapply wp_seq.
  { apply remove_nobalance_wp; [exact HR|]; rewrite ?El; done. }
  cbn beta. rewrite El. intros _ ms1 L1 (HR1 & Hk & Ht & p & Hp). cbn [metas list_of] in *.
  pose proof (lru_seq_nodup _ _ _ HR) as Hnd. pose proof (lru_seq_small _ _ _ HR).
  destruct (without_length_half x (track_hot L) l Hnd Hx) as (Hw & Hw1 & Hw2).
  eapply wp_seq.
  { apply add_nobalance_wp; [exact HR1|..]; rewrite ?bal_without.
    - by intros [? _]%elem_of_without.
    - by eapply lru_seq_valid.
    - rewrite Hp. eauto.
    - lia. }
  cbn beta. rewrite bal_without. intros _ ms2 L2 (HR2 & Hk2 & Ht2). cbn [metas list_of] in *.
  unfold joins_hot in HR2. rewrite Ht in HR2.
  eapply rebalance_wp; [exact HR2| |congruence| | |]; rewrite ?Ht2, ?Ht.
  - eapply keeps_trans; (eapply keeps_weaken; [eassumption|]).
    + intros y Hy. by right.
    + intros y [->|[_ Hy]%elem_of_without]%elem_of_cons; [left|by right].
  - destruct (track_hot L); cbn [andb].
    + case_bool_decide as E; cbn [negb app].
      * pose proof (bal_without x true l) as Eb. rewrite E in Eb.
        apply app_nil in Eb as [_ ->]. by rewrite E.
      * f_equal. apply (bal_without x true).
    + done.
  - intros y [->|[_ Hy]%elem_of_without]%elem_of_cons; [left|by right].
  - intros E. rewrite E in *. cbn [andb]. pose proof (bal_hot_length true l).
    replace (length (x :: without x l)) with (length l) by (cbn [length]; lia).
    case_bool_decide as Ew; cbn [negb length].
    + rewrite Ew in Hw. cbn in Hw. rewrite <- Hw. cbn. lia.
    + lia.
Qed.
