(* ===== verification/LruPart.v ===== *)
(** * LRU partitions: [src/eviction/ocf_lru.c]

    Every partition owns [OCF_NUM_LRU_LISTS] pairs of lists, a clean and a
    dirty one; cache lines are spread over the pairs by chunks of 256.  The
    state is what the LRU code reads and writes: the nodes of the cache lines,
    all lists, the occupancy counters, and the dirty bits it consults.  The
    per-list locks are taken around each operation and are not part of the
    state. *)

From S2P Require Import Prelude Links Lru Generator.

Definition OCF_LRU_STRIPE_SIZE : Z := OCF_NUM_LRU_LISTS * OCF_LRU_CHUNK_SIZE.

(** A [struct ocf_part] is named by the index of its object:
    [cache->user_parts[i].part] by [i], [cache->free] by [PARTITION_FREELIST]
    and [cache->free_detached] by [PARTITION_FREE_DETACHED].  This is its
    [id] field: both free partitions carry [PARTITION_FREELIST]. *)
Definition part_id (part : Z) : Z :=
  if bool_decide (part = PARTITION_FREE_DETACHED) then PARTITION_FREELIST else part.

(** [&part->eviction_runtime->lru[idx].clean] or [.dirty]. *)
Definition list_key : Type := Z * Z * bool.

Record lru_cache := LruCache {
  nodes : gmap Z ocf_lru_meta;
  lists : gmap list_key ocf_lru_list;
  curr_size : gmap Z Z;       (** [part->runtime->curr_size] *)
  evict_counter : gmap Z Z;
  dirty : gmap Z bool         (** [metadata_test_dirty] *)
}.

Definition PM := Prelude.M lru_cache.

(** Runs list code on one list. *)
Definition on_list {A} (key : list_key) (m : Lru.M A) : PM A := fun s =>
  match lists s !! key with
  | None => None
  | Some L =>
    match m (LruView (nodes s) L) with
    | None => None
    | Some (a, v) =>
      Some (a, LruCache (metas v) (<[key := list_of v]> (lists s)) (curr_size s) (evict_counter s)
                 (dirty s))
    end
  end.

Definition node_of (cline : Z) : PM ocf_lru_meta := load (fun s => nodes s !! cline).
Definition metadata_test_dirty (cline : Z) : PM bool := load (fun s => dirty s !! cline).

Definition ocf_metadata_get_partition_id (cline : Z) : PM Z :=
  node ← node_of cline; mret (partition_id node).
Definition set_node (cline : Z) (f : ocf_lru_meta -> ocf_lru_meta) : PM unit :=
  node ← node_of cline;
  modify (fun s => LruCache (<[cline := f node]> (nodes s)) (lists s) (curr_size s)
                     (evict_counter s) (dirty s)).
Definition ocf_metadata_set_partition_id (cline id : Z) : PM unit :=
  set_node cline (with_partition id).

(** [env_atomic_inc], [env_atomic_dec], [env_atomic_set] on [curr_size]. *)
Definition add_curr_size (part change : Z) : PM unit :=
  n ← load (fun s => curr_size s !! part);
  modify (fun s => LruCache (nodes s) (lists s) (<[part := s32 (n + change)]> (curr_size s))
                     (evict_counter s) (dirty s)).
Definition set_curr_size (part n : Z) : PM unit :=
  modify (fun s => LruCache (nodes s) (lists s) (<[part := n]> (curr_size s)) (evict_counter s) (dirty s)).
Definition set_evict_counter (part n : Z) : PM unit :=
  modify (fun s => LruCache (nodes s) (lists s) (curr_size s) (<[part := n]> (evict_counter s)) (dirty s)).

(** [OCF_LRU_GET_LIST_INDEX] *)
Definition lru_list_index (cline : Z) : Z := (cline / OCF_LRU_CHUNK_SIZE) mod OCF_NUM_LRU_LISTS.

(** [&cache->user_parts[id].part], an array of [OCF_USER_IO_CLASS_MAX + 1]. *)
Definition user_part (id : Z) : PM Z :=
  _ ← bug_on (bool_decide (id > OCF_USER_IO_CLASS_MAX)); mret id.

(** The list is returned as its key; a missing runtime is a bug. *)
Definition ocf_lru_get_list (part lru_idx : Z) (clean : bool) : PM list_key :=
  let clean := if bool_decide (part_id part = PARTITION_FREELIST) then true else clean in
  _ ← load (fun s => lists s !! (part, lru_idx, clean));
  mret (part, lru_idx, clean).

Definition lru_get_cline_list (cline : Z) : PM list_key :=
  id ← ocf_metadata_get_partition_id cline;
  _ ← bug_on (bool_decide (id > OCF_USER_IO_CLASS_MAX));
  part ← user_part id;
  d ← metadata_test_dirty cline;
  ocf_lru_get_list part (lru_list_index cline) (negb d).

Definition ocf_lru_add (cline : Z) : PM unit :=
  list ← lru_get_cline_list cline;
  on_list list (add_lru_head cline).

Definition ocf_lru_move (cline : Z) (src_list dst_list : list_key) : PM unit :=
  _ ← on_list src_list (ocf_lru_remove_locked cline);
  on_list dst_list (add_lru_head cline).

Definition ocf_lru_repart_locked (cline src_part dst_part : Z) : PM unit :=
  let lru_list := lru_list_index cline in
  d ← metadata_test_dirty cline;
  src_list ← ocf_lru_get_list src_part lru_list (negb d);
  dst_list ← ocf_lru_get_list dst_part lru_list (negb d);
  _ ← ocf_lru_move cline src_list dst_list;
  _ ← ocf_metadata_set_partition_id cline (part_id dst_part);
  _ ← add_curr_size src_part (-1);
  add_curr_size dst_part 1.

Definition ocf_lru_repart (cline src_part dst_part : Z) : PM unit :=
  ocf_lru_repart_locked cline src_part dst_part.

Definition ocf_lru_rm_cline (cline : Z) : PM unit :=
  id ← ocf_metadata_get_partition_id cline;
  part ← user_part id;
  ocf_lru_repart cline part PARTITION_FREELIST.

Definition ocf_lru_detach (cline part : Z) : PM unit :=
  ocf_lru_repart cline part PARTITION_FREE_DETACHED.

Definition ocf_lru_reattach (cline : Z) : PM unit :=
  ocf_lru_repart cline PARTITION_FREE_DETACHED PARTITION_FREELIST.

Definition ocf_lru_init_cline (cline : Z) : PM unit :=
  _ ← set_node cline (with_hot false);
  _ ← set_node cline (with_prev end_marker);
  set_node cline (with_next end_marker).

Definition ocf_lru_hot_cline (cline : Z) : PM unit :=
  let lru_list := lru_list_index cline in
  node ← node_of cline;
  if hot node then mret tt
  else
    part ← user_part (partition_id node);
    d ← metadata_test_dirty cline;
    list ← ocf_lru_get_list part lru_list (negb d);
    node ← node_of cline;
    L ← load (fun s => lists s !! list);
    _ ← bug_on (bool_decide (next node = end_marker) && bool_decide (tail L <> cline));
    _ ← bug_on (bool_decide (prev node = end_marker) && bool_decide (head L <> cline));
    on_list list (ocf_lru_set_hot cline).

Definition ocf_lru_clean_cline (part cline : Z) : PM unit :=
  let lru_list := lru_list_index cline in
  clean_list ← ocf_lru_get_list part lru_list true;
  dirty_list ← ocf_lru_get_list part lru_list false;
  _ ← on_list dirty_list (ocf_lru_remove_locked cline);
  on_list clean_list (add_lru_head cline).

Definition ocf_lru_dirty_cline (part cline : Z) : PM unit :=
  let lru_list := lru_list_index cline in
  clean_list ← ocf_lru_get_list part lru_list true;
  dirty_list ← ocf_lru_get_list part lru_list false;
  _ ← on_list clean_list (ocf_lru_remove_locked cline);
  on_list dirty_list (add_lru_head cline).

Definition ocf_lru_add_free (cline : Z) : PM unit :=
  list ← ocf_lru_get_list PARTITION_FREELIST (lru_list_index cline) true;
  on_list list (add_lru_head_nobalance cline).

(** ** Initialisation *)

Definition reset_list (key : list_key) (track : bool) : PM unit :=
  modify (fun s => LruCache (nodes s) (<[key := lru_init_list track]> (lists s)) (curr_size s)
                     (evict_counter s) (dirty s)).

Definition lru_lists_idx : list Z := Z.of_nat <$> seq 0 (Z.to_nat OCF_NUM_LRU_LISTS).

Definition ocf_lru_init (part : Z) : PM unit :=
  _ ← m_for lru_lists_idx (fun i =>
    clean_list ← ocf_lru_get_list part i true;
    dirty_list ← ocf_lru_get_list part i false;
    if bool_decide (part_id part = PARTITION_FREELIST) then reset_list clean_list false
    else
      _ ← reset_list clean_list true;
      reset_list dirty_list true);
  _ ← set_curr_size part 0;
  set_evict_counter part 0.

(** [env_vzalloc]: the lists exist and are all zero. *)
Definition zero_list : ocf_lru_list := LruList 0 0 0 0 0 false.
Definition alloc_lists (part : Z) : PM unit :=
  m_for lru_lists_idx (fun i =>
    modify (fun s => LruCache (nodes s)
      (<[(part, i, true) := zero_list]> (<[(part, i, false) := zero_list]> (lists s)))
      (curr_size s) (evict_counter s) (dirty s))).

Definition OCF_ERR_NO_MEM : Z := 1000005.

(** [mem]: whether the allocation succeeds. *)
Definition ocf_lru_init_part (mem : bool) (part : Z) : PM Z :=
  if mem then
    _ ← alloc_lists part;
    _ ← ocf_lru_init part;
    mret 0
  else mret (- OCF_ERR_NO_MEM).

Definition ocf_lru_deinit_part (part : Z) : PM unit :=
  m_for lru_lists_idx (fun i =>
    modify (fun s => LruCache (nodes s)
      (delete (part, i, true) (delete (part, i, false) (lists s)))
      (curr_size s) (evict_counter s) (dirty s))).

(** ** Populating the free list *)

Definition ocf_get_chunk_cline (lru_idx chunk_idx pos : Z) : Z :=
  let stripe := u32 (chunk_idx * OCF_NUM_LRU_LISTS + lru_idx) in
  u32 (stripe * OCF_LRU_CHUNK_SIZE + pos).

Section Populate.
Context (entries shard_id : Z).

Definition num_full_chunks : Z := entries / OCF_LRU_STRIPE_SIZE.
Definition partial_chunk_lines : Z :=
  let remainder := entries mod OCF_LRU_STRIPE_SIZE in
  if bool_decide (remainder > shard_id * OCF_LRU_CHUNK_SIZE) then
    let lines := remainder - shard_id * OCF_LRU_CHUNK_SIZE in
    if bool_decide (lines > OCF_LRU_CHUNK_SIZE) then OCF_LRU_CHUNK_SIZE else lines
  else 0.
Definition num_chunks : Z := num_full_chunks + (if bool_decide (partial_chunk_lines > 0) then 1 else 0).

Definition populate_line (list : list_key) (chunk_idx j : Z) : PM unit :=
  let cline := ocf_get_chunk_cline shard_id chunk_idx j in
  _ ← bug_on (bool_decide (cline >= entries));
  _ ← ocf_metadata_set_partition_id cline PARTITION_FREELIST;
  on_list list (add_lru_head_nobalance cline).

(** The outer loop: [n] chunks left, [g] the generator; [fuel] bounds the
    generator's own loop.  Returns the number of lines added. *)
Fixpoint populate_chunks (fuel n : nat) (g : ocf_generator_bisect_state) (list : list_key) (cnt : Z)
    : PM Z :=
  match n with
  | O => mret cnt
  | S n =>
    match ocf_generator_bisect_next fuel g with
    | None => env_bug
    | Some (chunk_idx, g) =>
      let chunk_lines :=
        if bool_decide (chunk_idx = num_full_chunks) then partial_chunk_lines else OCF_LRU_CHUNK_SIZE in
      _ ← m_for (Z.of_nat <$> seq 0 (Z.to_nat chunk_lines)) (populate_line list chunk_idx);
      populate_chunks fuel n g list (cnt + chunk_lines)
    end
  end.

(** One shard of [ocf_lru_populate]; the result is what it adds to
    [context->curr_size]. *)
Definition ocf_lru_populate_handle : PM Z :=
  if bool_decide (num_chunks = 0) then mret 0
  else
    match ocf_generator_bisect_init num_chunks 0 with
    | None => env_bug
    | Some g =>
      list ← ocf_lru_get_list PARTITION_FREELIST shard_id true;
      populate_chunks (Z.to_nat (maplen num_chunks)) (Z.to_nat num_chunks) g list 0
    end.
End Populate.

Fixpoint populate_shards (entries : Z) (shards : list Z) (cnt : Z) : PM Z :=
  match shards with
  | [] => mret cnt
  | i :: shards =>
    n ← ocf_lru_populate_handle entries i;
    populate_shards entries shards (s32 (cnt + n))
  end.

(** [ocf_lru_populate] with its shards run one after the other, and
    [ocf_lru_populate_finish]. *)
Definition ocf_lru_populate (entries : Z) : PM unit :=
  cnt ← populate_shards entries lru_lists_idx 0;
  set_curr_size PARTITION_FREELIST cnt.
