(* ===== verification/LruPartProofs.v ===== *)
(** * The lists of all partitions

    [lists_rep s σ]: every list of [s] represents the sequence [σ] gives it,
    and no line is on two lists.  The operations of [LruPart] are functions on
    [σ]. *)

From S2P Require Import Prelude Links Lru LruProofs LruSeq Generator LruPart.

Definition listing : Type := list_key -> list Z.

Definition upd (k : list_key) (l : list Z) (σ : listing) : listing :=
  fun k' => if decide (k' = k) then l else σ k'.

Lemma upd_eq k l σ : upd k l σ k = l.
Proof. unfold upd. by rewrite decide_True. Qed.

Lemma upd_ne k k' l σ : k' <> k -> upd k l σ k' = σ k'.
Proof. intros Hk. unfold upd. by rewrite decide_False. Qed.

Record lists_rep (s : lru_cache) (σ : listing) : Prop := {
  rep_list k L : lists s !! k = Some L -> lru_seq (nodes s) L (σ k);
  rep_disj k k' x : x ∈ σ k -> x ∈ σ k' -> k = k';
  rep_dom k : lists s !! k = None -> σ k = []
}.

(** What a list operation leaves alone. *)
Record same_rest (s s' : lru_cache) : Prop := {
  same_size : curr_size s' = curr_size s;
  same_dirty : dirty s' = dirty s;
  same_evict : evict_counter s' = evict_counter s;
  same_parts y : partition_id <$> nodes s' !! y = partition_id <$> nodes s !! y;
  same_lists k : track_hot <$> lists s' !! k = track_hot <$> lists s !! k
}.

Lemma same_rest_refl s : same_rest s s.
Proof. done. Qed.

Lemma same_rest_trans s1 s2 s3 : same_rest s1 s2 -> same_rest s2 s3 -> same_rest s1 s3.
Proof.
  intros [H1 H2 H3 H4 H5] [K1 K2 K3 K4 K5].
  split; intros; rewrite ?K1, ?K2, ?K3, ?K4, ?K5; auto.
Qed.

Lemma same_rest_list s s' k : same_rest s s' -> is_Some (lists s' !! k) <-> is_Some (lists s !! k).
Proof.
  intros Hs. pose proof (same_lists _ _ Hs k) as Hk.
  destruct (lists s' !! k), (lists s !! k); cbn in Hk; split; intros []; eauto; discriminate.
Qed.

Lemma same_rest_node s s' x : same_rest s s' -> is_Some (nodes s' !! x) <-> is_Some (nodes s !! x).
Proof.
  intros Hs. pose proof (same_parts _ _ Hs x) as Hk.
  destruct (nodes s' !! x), (nodes s !! x); cbn in Hk; split; intros []; eauto; discriminate.
Qed.

Lemma rep_frame ms ms' L hs cs :
  (forall y, y ∈ hs ++ cs -> ms' !! y = ms !! y) -> rep ms L hs cs -> rep ms' L hs cs.
Proof.
  intros Hf []. split; try done.
  - by eapply link_frame.
  - intros x Hx. unfold hot_of. rewrite Hf; [by apply rep_hot|set_solver].
  - intros x Hx. unfold hot_of. rewrite Hf; [by apply rep_cold|set_solver].
Qed.

Lemma lru_seq_frame ms ms' L l :
  (forall y, y ∈ l -> ms' !! y = ms !! y) -> lru_seq ms L l -> lru_seq ms' L l.
Proof. intros Hf. apply rep_frame. by rewrite bal_app. Qed.

Lemma lists_rep_node s σ k x : lists_rep s σ -> x ∈ σ k -> is_Some (nodes s !! x).
Proof.
  intros HR Hx. destruct (lists s !! k) as [L|] eqn:Ek.
  - pose proof (rep_list _ _ HR k L Ek) as []. eapply link_dom; [exact rep_link|]. by rewrite bal_app.
  - by rewrite (rep_dom _ _ HR k Ek) in Hx; apply not_elem_of_nil in Hx.
Qed.

Lemma lists_rep_is_Some s σ k x : lists_rep s σ -> x ∈ σ k -> is_Some (lists s !! k).
Proof.
  intros HR Hx. destruct (lists s !! k) as [L|] eqn:Ek; [eauto|].
  by rewrite (rep_dom _ _ HR k Ek) in Hx; apply not_elem_of_nil in Hx.
Qed.

(** List code run on list [k], touching [x], keeps all other lists. *)
Lemma on_list_wp (m : Lru.M unit) s σ k x l' (Q : unit -> lru_cache -> Prop) :
  lists_rep s σ -> is_Some (lists s !! k) ->
  (forall k', x ∈ σ k' -> k' = k) ->
  (forall y, y ∈ l' -> y ∈ x :: σ k) ->
  (forall L, lists s !! k = Some L -> lru_seq (nodes s) L (σ k) ->
    wp m (fun _ => list_post (nodes s) L x (σ k) l') (LruView (nodes s) L)) ->
  (forall s', lists_rep s' (upd k l' σ) -> same_rest s s' ->
    (forall y, y <> x -> y ∉ σ k -> nodes s' !! y = nodes s !! y) -> Q tt s') ->
  wp (on_list k m) Q s.
Proof.
  intros HR [L HL] Hx Hsub Hm HQ. unfold wp, on_list. rewrite HL.
  specialize (Hm L HL (rep_list _ _ HR k L HL)). unfold wp in Hm.
  destruct (m (LruView (nodes s) L)) as [[[] [ms' L']]|]; [|done].
  destruct Hm as (HR' & [Hk1 Hk2] & Ht). cbn [metas list_of] in *. apply HQ.
  - split; cbn [nodes lists].
    + intros k' L2 Hk'. destruct (decide (k' = k)) as [->|Hne].
      * rewrite lookup_insert_eq in Hk'. injection Hk' as <-. by rewrite upd_eq.
      * rewrite lookup_insert_ne in Hk' by done. rewrite upd_ne by done.
        apply (lru_seq_frame (nodes s)); [|by apply (rep_list _ _ HR)].
        intros y Hy. apply Hk1. intros [->|Hy']%elem_of_cons; [by apply Hne, Hx|].
        apply Hne. by apply (rep_disj _ _ HR k' k y).
    + intros k1 k2 y. unfold upd.
      assert (Hin : forall k', k' <> k -> y ∈ σ k' -> y ∉ l').
      { intros k' Hne Hy Hy'. apply Hsub in Hy' as [->|Hy']%elem_of_cons; [by apply Hne, Hx|].
        apply Hne. by apply (rep_disj _ _ HR k' k y). }
      do 2 case_decide; subst; intros H1 H2; try done.
      * by destruct (Hin k2).
      * by destruct (Hin k1).
      * by apply (rep_disj _ _ HR _ _ y).
    + intros k' Hk'. destruct (decide (k' = k)) as [->|Hne].
      * by rewrite lookup_insert_eq in Hk'.
      * rewrite lookup_insert_ne in Hk' by done. rewrite upd_ne by done. by apply (rep_dom _ _ HR).
  - split; cbn; try done. intros k'. destruct (decide (k' = k)) as [->|Hne].
    + rewrite lookup_insert_eq, HL. cbn. by rewrite Ht.
    + by rewrite lookup_insert_ne.
  - intros y Hy Hy'. cbn. apply Hk1. rewrite not_elem_of_cons. done.
Qed.

(** ** One list at a time *)

Lemma lru_seq_valid_all s σ k x : lists_rep s σ -> x ∈ σ k -> valid_line x.
Proof.
  intros HR Hx. destruct (lists_rep_is_Some _ _ _ _ HR Hx) as [L HL].
  eapply lru_seq_valid; [by apply (rep_list _ _ HR)|done].
Qed.

Lemma lru_seq_bound ms L l : lru_seq ms L l -> Z.of_nat (length l) < 2 ^ 29.
Proof.
  intros HR. assert (Z.of_nat (length l) <= end_marker); [|unfold end_marker in *; lia].
  apply lines_bound; [done|by eapply lru_seq_nodup|]. intros x Hx. by eapply lru_seq_valid.
Qed.

Definition other_nodes (s s' : lru_cache) (σ : listing) (k : list_key) (x : Z) : Prop :=
  forall y, y <> x -> y ∉ σ k -> nodes s' !! y = nodes s !! y.

Lemma add_on_wp s σ k x (Q : unit -> lru_cache -> Prop) :
  lists_rep s σ -> is_Some (lists s !! k) -> (forall k', x ∉ σ k') -> valid_line x ->
  is_Some (nodes s !! x) ->
  (forall s', lists_rep s' (upd k (x :: σ k) σ) -> same_rest s s' -> other_nodes s s' σ k x -> Q tt s') ->
  wp (on_list k (add_lru_head x)) Q s.
Proof.
  intros HR HL Hx Hv Hd HQ. eapply on_list_wp; [done|done| |done| |exact HQ].
  - intros k' Hk'. by destruct (Hx k').
  - intros L _ Hs. apply add_lru_head_wp; try done.
    pose proof (lru_seq_bound _ _ _ Hs). lia.
Qed.

Lemma remove_on_wp s σ k x (Q : unit -> lru_cache -> Prop) :
  lists_rep s σ -> x ∈ σ k ->
  (forall s', lists_rep s' (upd k (without x (σ k)) σ) -> same_rest s s' ->
     other_nodes s s' σ k x -> Q tt s') ->
  wp (on_list k (ocf_lru_remove_locked x)) Q s.
Proof.
  intros HR Hx HQ. eapply on_list_wp; [done|by eapply lists_rep_is_Some| | | |exact HQ].
  - intros k' Hk'. by apply (rep_disj _ _ HR _ _ x).
  - intros y [_ Hy]%elem_of_without. by right.
  - intros L _ Hs. by apply ocf_lru_remove_wp.
Qed.

Lemma set_hot_on_wp s σ k x (Q : unit -> lru_cache -> Prop) :
  lists_rep s σ -> x ∈ σ k ->
  (forall s', lists_rep s' (upd k (x :: without x (σ k)) σ) -> same_rest s s' ->
     other_nodes s s' σ k x -> Q tt s') ->
  wp (on_list k (ocf_lru_set_hot x)) Q s.
Proof.
  intros HR Hx HQ. eapply on_list_wp; [done|by eapply lists_rep_is_Some| | | |exact HQ].
  - intros k' Hk'. by apply (rep_disj _ _ HR _ _ x).
  - intros y [->|[_ Hy]%elem_of_without]%elem_of_cons; [left|by right].
  - intros L _ Hs. by apply ocf_lru_set_hot_wp.
Qed.

(** ** Moving between lists *)

Definition moved (x : Z) (ks kd : list_key) (σ : listing) : listing :=
  let σ1 := upd ks (without x (σ ks)) σ in upd kd (x :: σ1 kd) σ1.

Lemma without_upd_notin x ks σ s :
  lists_rep s σ -> x ∈ σ ks -> forall k, x ∉ upd ks (without x (σ ks)) σ k.
Proof.
  intros HR Hx k. unfold upd. case_decide as E.
  - rewrite elem_of_without. naive_solver.
  - intros Hk. apply E. by apply (rep_disj _ _ HR _ _ x).
Qed.

Lemma move_wp s σ ks kd x (Q : unit -> lru_cache -> Prop) :
  lists_rep s σ -> x ∈ σ ks -> is_Some (lists s !! kd) ->
  (forall s', lists_rep s' (moved x ks kd σ) -> same_rest s s' -> Q tt s') ->
  wp (ocf_lru_move x ks kd) Q s.
Proof.
  intros HR Hx Hd HQ. unfold ocf_lru_move. apply wp_bind. eapply remove_on_wp; [done|done|].
  intros s1 HR1 Hs1 _. eapply add_on_wp; [exact HR1| | | | |].
  - by rewrite (same_rest_list _ _ _ Hs1).
  - by eapply without_upd_notin.
  - by apply (lru_seq_valid_all s σ ks).
  - rewrite (same_rest_node _ _ _ Hs1). by apply (lists_rep_node s σ ks).
  - intros s2 HR2 Hs2 _. apply HQ; [exact HR2|]. by eapply same_rest_trans.
Qed.

(** ** Placement and occupancy *)

(** The list of partition [p] that line [x] with dirty bit [d] belongs to. *)
Definition line_key (x : Z) (d : bool) (p : Z) : list_key :=
  (p, lru_list_index x, if bool_decide (part_id p = PARTITION_FREELIST) then true else negb d).

Definition placed (s : lru_cache) (k : list_key) (x : Z) : Prop :=
  exists m d p, nodes s !! x = Some m /\ dirty s !! x = Some d /\
    partition_id m = part_id p /\ k = line_key x d p.

Definition pair_size (σ : listing) (p i : Z) : Z :=
  Z.of_nat (length (σ (p, i, true))) + Z.of_nat (length (σ (p, i, false))).
Definition sizes (σ : listing) (p : Z) (l : list Z) : Z :=
  foldr (fun i n => pair_size σ p i + n) 0 l.
(** The number of lines of a partition. *)
Definition part_size (σ : listing) (p : Z) : Z := sizes σ p lru_lists_idx.

Record part_inv (s : lru_cache) (σ : listing) : Prop := {
  pi_rep : lists_rep s σ;
  pi_placed k x : x ∈ σ k -> placed s k x;
  pi_size p n : curr_size s !! p = Some n -> n = part_size σ p
}.

Definition part_ready (s : lru_cache) (p : Z) : Prop :=
  (is_Some (curr_size s !! p) /\ is_Some (evict_counter s !! p)) /\
  forall i c, i ∈ lru_lists_idx -> is_Some (lists s !! (p, i, c)).

Lemma lru_list_index_in x : lru_list_index x ∈ lru_lists_idx.
Proof.
  unfold lru_list_index, lru_lists_idx, OCF_NUM_LRU_LISTS.
  pose proof (Z.mod_pos_bound (x / OCF_LRU_CHUNK_SIZE) 32 ltac:(lia)).
  apply list_elem_of_fmap. exists (Z.to_nat ((x / OCF_LRU_CHUNK_SIZE) mod 32)).
  split; [lia|]. apply elem_of_seq. lia.
Qed.

Lemma lru_lists_idx_nodup : NoDup lru_lists_idx.
Proof. apply NoDup_fmap_2; [apply _|apply NoDup_seq]. Qed.

Lemma sizes_upd_other σ p q i c l idx : p <> q -> sizes (upd (p, i, c) l σ) q idx = sizes σ q idx.
Proof.
  intros Hpq. induction idx as [|j idx IH]; [done|]. cbn [sizes foldr]. fold (sizes σ q idx).
  fold (sizes (upd (p, i, c) l σ) q idx). rewrite IH. unfold pair_size. rewrite !upd_ne by congruence. done.
Qed.

Lemma sizes_upd_notin σ p i c l idx : i ∉ idx -> sizes (upd (p, i, c) l σ) p idx = sizes σ p idx.
Proof.
  induction idx as [|j idx IH]; [done|]. rewrite not_elem_of_cons. intros [Hj Hi].
  cbn [sizes foldr]. fold (sizes σ p idx). fold (sizes (upd (p, i, c) l σ) p idx).
  rewrite IH by done. unfold pair_size. rewrite !upd_ne by congruence. done.
Qed.

Lemma sizes_upd σ p i c l idx :
  NoDup idx -> i ∈ idx ->
  sizes (upd (p, i, c) l σ) p idx =
  sizes σ p idx + Z.of_nat (length l) - Z.of_nat (length (σ (p, i, c))).
Proof.
  induction idx as [|j idx IH]; [by intros _ ?%not_elem_of_nil|].
  intros [Hj Hnd]%NoDup_cons Hi. cbn [sizes foldr]. fold (sizes σ p idx).
  fold (sizes (upd (p, i, c) l σ) p idx).
  apply elem_of_cons in Hi as [<-|Hi].
  - rewrite sizes_upd_notin by done. unfold pair_size.
    destruct c; rewrite upd_eq, upd_ne by congruence; lia.
  - rewrite IH by done. unfold pair_size. rewrite !upd_ne by (intros [= <- _]; done). lia.
Qed.

Lemma part_size_upd σ p i c l q :
  i ∈ lru_lists_idx ->
  part_size (upd (p, i, c) l σ) q =
  part_size σ q + (if decide (p = q) then Z.of_nat (length l) - Z.of_nat (length (σ (p, i, c))) else 0).
Proof.
  intros Hi. unfold part_size. case_decide as E; [subst|].
  - rewrite sizes_upd by (done || apply lru_lists_idx_nodup). lia.
  - rewrite sizes_upd_other by done. lia.
Qed.

(** *** The number of lines fits the counters *)

Lemma keys_nodup s σ (ks : list list_key) :
  lists_rep s σ -> NoDup ks -> NoDup (ks ≫= σ).
Proof.
  intros HR. induction ks as [|k ks IH]; intros Hnd; [constructor|].
  apply NoDup_cons in Hnd as [Hk Hnd]. cbn. apply NoDup_app. split; [|split; [|by apply IH]].
  - destruct (lists s !! k) as [L|] eqn:Ek.
    + by eapply lru_seq_nodup, (rep_list _ _ HR).
    + rewrite (rep_dom _ _ HR k Ek). constructor.
  - intros x Hx (k' & Hx' & Hk')%list_elem_of_bind. apply Hk.
    by rewrite (rep_disj _ _ HR k k' x).
Qed.

Definition part_keys (p : Z) (idx : list Z) : list list_key :=
  idx ≫= fun i => [(p, i, true); (p, i, false)].

Lemma part_keys_in p idx k : k ∈ part_keys p idx -> k.1.1 = p /\ k.1.2 ∈ idx.
Proof.
  intros (i & Hk & Hi)%list_elem_of_bind.
  apply elem_of_cons in Hk as [->|Hk]; [done|]. by apply list_elem_of_singleton in Hk as ->.
Qed.

Lemma part_keys_nodup p idx : NoDup idx -> NoDup (part_keys p idx).
Proof.
  induction idx as [|i idx IH]; [constructor|]. intros [Hi Hnd]%NoDup_cons.
  assert (Hout : forall c, (p, i, c) ∉ part_keys p idx).
  { intros c Hin. apply part_keys_in in Hin as [_ Hin]. done. }
  cbn. repeat constructor; [|by apply Hout|by apply IH].
  intros [[= ]|Hin]%elem_of_cons. by apply (Hout true).
Qed.

Lemma part_keys_length σ p idx : Z.of_nat (length (part_keys p idx ≫= σ)) = sizes σ p idx.
Proof.
  induction idx as [|i idx IH]; [done|]. cbn [sizes foldr]. fold (sizes σ p idx).
  rewrite <- IH. change (part_keys p (i :: idx) ≫= σ) with
    (σ (p, i, true) ++ σ (p, i, false) ++ (part_keys p idx ≫= σ)).
  rewrite !length_app. unfold pair_size. lia.
Qed.

Lemma part_size_bound s σ p : lists_rep s σ -> 0 <= part_size σ p < 2 ^ 29.
Proof.
  intros HR. unfold part_size. rewrite <- part_keys_length. split; [lia|].
  assert (Z.of_nat (length (part_keys p lru_lists_idx ≫= σ)) <= end_marker);
    [|unfold end_marker in *; lia].
  apply lines_bound; [done| |].
  - eapply keys_nodup; [done|]. apply part_keys_nodup, lru_lists_idx_nodup.
  - intros x (k & Hx & _)%list_elem_of_bind. by apply (lru_seq_valid_all s σ k).
Qed.

Lemma part_size_pos s σ p i c x :
  lists_rep s σ -> i ∈ lru_lists_idx -> x ∈ σ (p, i, c) -> 0 < part_size σ p.
Proof.
  intros HR Hi Hx. assert (Hin : x ∈ part_keys p lru_lists_idx ≫= σ).
  { apply list_elem_of_bind. exists (p, i, c). split; [done|]. apply list_elem_of_bind.
    exists i. split; [|done]. destruct c; set_solver. }
  unfold part_size. rewrite <- part_keys_length.
  destruct (part_keys p lru_lists_idx ≫= σ); [by apply not_elem_of_nil in Hin|cbn; lia].
Qed.

(** *** Steps of the partition code *)

Lemma wp_node_of s x m (Q : ocf_lru_meta -> lru_cache -> Prop) :
  nodes s !! x = Some m -> Q m s -> wp (node_of x) Q s.
Proof. intros. by eapply wp_load. Qed.

Lemma wp_test_dirty s x d (Q : bool -> lru_cache -> Prop) :
  dirty s !! x = Some d -> Q d s -> wp (metadata_test_dirty x) Q s.
Proof. intros. by eapply wp_load. Qed.

Lemma wp_get_list_line s x d p (Q : list_key -> lru_cache -> Prop) :
  is_Some (lists s !! line_key x d p) -> Q (line_key x d p) s ->
  wp (ocf_lru_get_list p (lru_list_index x) (negb d)) Q s.
Proof. intros [L HL] HQ. apply wp_bind. eapply wp_load; [exact HL|]. by apply wp_ret. Qed.

(** Writing the partition id of a line. *)
Definition relabel (x id : Z) (s : lru_cache) : lru_cache :=
  LruCache (alter (with_partition id) x (nodes s)) (lists s) (curr_size s) (evict_counter s) (dirty s).

Lemma wp_set_partition s x id (Q : unit -> lru_cache -> Prop) :
  is_Some (nodes s !! x) -> Q tt (relabel x id s) -> wp (ocf_metadata_set_partition_id x id) Q s.
Proof.
  intros [m Hm] HQ. apply wp_bind. eapply wp_node_of; [exact Hm|]. apply wp_modify.
  replace (<[x:=with_partition id m]> (nodes s)) with (alter (with_partition id) x (nodes s)); [done|].
  apply map_eq. intros y. rewrite lookup_alter, lookup_insert. case_decide; [subst; by rewrite Hm|done].
Qed.

Lemma relabel_link ms x id p l n : link ms p l n -> link (alter (with_partition id) x ms) p l n.
Proof.
  revert p. induction l as [|y l IH]; intros p; [done|]. intros [(m & Hm & H1 & H2) Hl].
  split; [|by apply IH]. rewrite lookup_alter. case_decide; [subst; rewrite Hm; cbn|]; eauto.
Qed.

Lemma relabel_rep s σ x id : lists_rep s σ -> lists_rep (relabel x id s) σ.
Proof.
  intros [H1 H2 H3]. split; try done. intros k L HL. destruct (H1 k L HL).
  cbn [nodes relabel].
  split; try done; [by apply relabel_link| |]; intros y Hy; rewrite hot_of_alter by done; auto.
Qed.

Lemma wp_add_curr_size s p n change (Q : unit -> lru_cache -> Prop) :
  curr_size s !! p = Some n ->
  Q tt (LruCache (nodes s) (lists s) (<[p := s32 (n + change)]> (curr_size s)) (evict_counter s) (dirty s)) ->
  wp (add_curr_size p change) Q s.
Proof. intros Hn HQ. apply wp_bind. eapply wp_load; [exact Hn|]. by apply wp_modify. Qed.

Lemma wp_shift_size s src dst (Q : unit -> lru_cache -> Prop) :
  (forall p n, curr_size s !! p = Some n -> 0 <= n < 2 ^ 29) ->
  is_Some (curr_size s !! src) -> is_Some (curr_size s !! dst) ->
  (forall s', nodes s' = nodes s -> lists s' = lists s -> dirty s' = dirty s ->
    (forall p n, curr_size s' !! p = Some n -> exists n0, curr_size s !! p = Some n0 /\
       n = n0 + (if decide (dst = p) then 1 else 0) - (if decide (src = p) then 1 else 0)) ->
    (forall p, is_Some (curr_size s !! p) -> is_Some (curr_size s' !! p)) -> evict_counter s' = evict_counter s ->
    Q tt s') ->
  wp (_ ← add_curr_size src (-1); add_curr_size dst 1) Q s.
Proof.
  intros Hb [a Ha] [b Hb'] HQ. apply wp_bind. eapply wp_add_curr_size; [exact Ha|].
  pose proof (Hb _ _ Ha). pose proof (Hb _ _ Hb').
  assert (Hd : exists n, <[src:=s32 (a + -1)]> (curr_size s) !! dst = Some n /\
    n = b - (if decide (src = dst) then 1 else 0)).
  { destruct (decide (src = dst)) as [->|Hne].
    - rewrite lookup_insert_eq. eexists. split; [done|]. rewrite s32_small by lia.
      rewrite Ha in Hb'. injection Hb' as ->. lia.
    - rewrite lookup_insert_ne by done. eexists. split; [done|]. lia. }
  destruct Hd as (n & Hn & En).
  eapply wp_add_curr_size; [exact Hn|]. apply HQ; try done;
    [|intros p Hp; cbn [curr_size]; rewrite !lookup_insert_is_Some'; auto].
  intros p v. cbn [curr_size]. intros Hv. destruct (decide (dst = p)) as [<-|Hne].
  - rewrite lookup_insert_eq in Hv. injection Hv as <-. exists b. split; [done|].
    destruct (decide (src = dst)); rewrite s32_small; lia.
  - rewrite lookup_insert_ne in Hv by done. destruct (decide (src = p)) as [<-|].
    + rewrite lookup_insert_eq in Hv. injection Hv as <-. exists a. split; [done|].
      rewrite s32_small; lia.
    + rewrite lookup_insert_ne in Hv by done. exists v. split; [done|]. lia.
Qed.

Lemma lists_rep_ext s s' σ : nodes s' = nodes s -> lists s' = lists s -> lists_rep s σ -> lists_rep s' σ.
Proof. intros En El [H1 H2 H3]. split; intros k; rewrite ?En, ?El; eauto. Qed.

Lemma line_key_inj x d d' p q : line_key x d p = line_key x d' q -> p = q.
Proof. by intros [= ->]. Qed.

Lemma moved_size s σ x p i c q j c' r :
  lists_rep s σ -> x ∈ σ (p, i, c) -> i ∈ lru_lists_idx -> j ∈ lru_lists_idx ->
  part_size (moved x (p, i, c) (q, j, c') σ) r =
  part_size σ r + (if decide (q = r) then 1 else 0) - (if decide (p = r) then 1 else 0).
Proof.
  intros HR Hx Hi Hj. unfold moved.
  assert (Hl : Z.of_nat (length (without x (σ (p, i, c)))) = Z.of_nat (length (σ (p, i, c))) - 1).
  { destruct (lists_rep_is_Some _ _ _ _ HR Hx) as [L HL].
    rewrite length_without by (by eapply lru_seq_nodup, (rep_list _ _ HR)).
    by rewrite bool_decide_eq_true_2. }
  rewrite !part_size_upd by done. rewrite Hl. cbn [length]. repeat case_decide; lia.
Qed.

Lemma moved_placed s s' σ x ks kd k y :
  lists_rep s σ -> x ∈ σ ks -> placed s' kd x ->
  (forall k y, x <> y -> y ∈ σ k -> placed s' k y) ->
  y ∈ moved x ks kd σ k -> placed s' k y.
Proof.
  intros HR Hx Hkd Hpl Hy.
  assert (Hold : forall k, y ∈ upd ks (without x (σ ks)) σ k -> placed s' k y).
  { intros k' Hk'. apply Hpl.
    - intros ->. by apply (without_upd_notin y ks σ s HR Hx k').
    - revert Hk'. unfold upd. case_decide; [|done]. subst. by intros [_ ?]%elem_of_without. }
  unfold moved, upd at 1 in Hy. case_decide as E; [|by apply Hold].
  apply elem_of_cons in Hy as [->|Hy]; subst; [done|by apply Hold].
Qed.

(** ** An example: all partitions, one line *)

Lemma lists_rep_empty s :
  (forall k L, lists s !! k = Some L -> exists t, L = lru_init_list t) ->
  lists_rep s (fun _ => []).
Proof.
  intros Hl. split; [|by intros k k' x ?%not_elem_of_nil|done].
  intros k L HL. destruct (Hl k L HL) as [t ->].
  assert (Hb : forall b, bal_hot b [] = [] /\ bal_cold b [] = []) by (by intros []).
  unfold lru_seq. destruct (Hb (track_hot (lru_init_list t))) as [-> ->].
  by split; intros; try constructor; try set_solver.
Qed.

Definition sample_lists : gmap list_key ocf_lru_list :=
  list_to_map (p ← (Z.of_nat <$> seq 0 34) ++ [PARTITION_FREELIST; PARTITION_FREE_DETACHED];
    i ← lru_lists_idx; c ← [true; false];
    [((p, i, c), lru_init_list (negb (bool_decide (part_id p = PARTITION_FREELIST))))]).

Lemma sample_lists_init k L :
  sample_lists !! k = Some L ->
  L = lru_init_list (negb (bool_decide (part_id k.1.1 = PARTITION_FREELIST))).
Proof.
  intros HL. apply elem_of_list_to_map_2 in HL.
  apply list_elem_of_bind in HL as (p & HL & _). apply list_elem_of_bind in HL as (i & HL & _).
  apply list_elem_of_bind in HL as (c & HL & _). apply list_elem_of_singleton in HL.
  by injection HL as -> ->.
Qed.

(** The partitions of the sample. *)
Definition sample_ids : list Z := (Z.of_nat <$> seq 0 34) ++ [PARTITION_FREELIST].
Definition sample_counters : gmap Z Z := list_to_map ((fun p => (p, 0)) <$> sample_ids).

(** Line 0, clean, about to be put on its list of partition [p]. *)
Definition sample_cache (p : Z) : lru_cache :=
  LruCache {[0 := LruMeta 0 0 false p]} sample_lists (<[p := 1]> sample_counters) sample_counters {[0 := false]}.

Lemma sample_ready p q s :
  p ∈ sample_ids -> q ∈ sample_ids ->
  same_rest (sample_cache q) s -> part_ready s p.
Proof.
  intros Hp Hq Hs. split.
  - rewrite (same_size _ _ Hs), (same_evict _ _ Hs).
    assert (Hf : Forall (fun p => is_Some (sample_counters !! p)) sample_ids) by by_compute.
    rewrite Forall_forall in Hf. specialize (Hf p Hp). split; [|exact Hf]. cbn [curr_size sample_cache].
    rewrite lookup_insert_is_Some'. by right.
  - intros i c Hi. rewrite (same_rest_list _ _ _ Hs). cbn [lists sample_cache].
    assert (Hf : Forall (fun p => Forall (fun i => Forall (fun c => is_Some (sample_lists !! (p, i, c)))
              [true; false]) lru_lists_idx) sample_ids) by by_compute.
    rewrite Forall_forall in Hf. specialize (Hf p Hp). rewrite Forall_forall in Hf.
    specialize (Hf i Hi). rewrite Forall_forall in Hf. apply Hf. destruct c; [left|right; left].
Qed.

Lemma sample_user p : 0 <= p < OCF_USER_IO_CLASS_MAX -> p ∈ sample_ids.
Proof.
  intros Hp. apply elem_of_app. left. apply list_elem_of_fmap. exists (Z.to_nat p). split; [lia|]. apply elem_of_seq.
  unfold OCF_USER_IO_CLASS_MAX in Hp. lia.
Qed.
Lemma sample_parts : 0 ∈ sample_ids /\ PARTITION_FREELIST ∈ sample_ids.
Proof. split; [by apply sample_user|]. apply elem_of_app. right. left. Qed.

Lemma sample_inv p :
  p ∈ sample_ids ->
  exists s σ, part_inv s σ /\ same_rest (sample_cache p) s /\ 0 ∈ σ (line_key 0 false p) /\
    (forall k x, x ∈ σ k -> x = 0) /\ is_Some (nodes s !! 0).
Proof.
  intros Hp.
  assert (Hpp : p = part_id p /\ line_key 0 false p = (p, 0, true)).
  { assert (Hf : Forall (fun p => p = part_id p /\ line_key 0 false p = (p, 0, true)) sample_ids).
    { unfold sample_ids. cbn [seq fmap list_fmap app]. repeat (constructor; [by split|]). constructor. }
    rewrite Forall_forall in Hf. by apply Hf. }
  destruct Hpp as [Hpp Hk].
  assert (Hw : wp (on_list (p, 0, true) (add_lru_head 0)) (fun _ s =>
    lists_rep s (upd (p, 0, true) [0] (fun _ => [])) /\ same_rest (sample_cache p) s) (sample_cache p)).
  { eapply add_on_wp with (σ := fun _ => []).
    - apply lists_rep_empty. intros k L HL%sample_lists_init. eauto.
    - apply (sample_ready p p); [done|done|done|]. apply (lru_list_index_in 0).
    - intros k. apply not_elem_of_nil.
    - unfold valid_line, end_marker. lia.
    - by eexists.
    - done. }
  rewrite wp_run in Hw. destruct Hw as ([] & s & _ & HR & Hs). exists s, (upd (p, 0, true) [0] (fun _ => [])).
  assert (Hn : exists m, nodes s !! 0 = Some m /\ partition_id m = p).
  { pose proof (same_parts _ _ Hs 0) as H0. destruct (nodes s !! 0) as [m|]; [|done].
    exists m. split; [done|]. by injection H0. }
  destruct Hn as (m & Hm & Hmp).
  split; [split|split; [done|split; [rewrite Hk, upd_eq; left|]]].
  - done.
  - intros k x. unfold upd. case_decide as E; [|by intros ?%not_elem_of_nil].
    subst k. intros ->%list_elem_of_singleton. exists m, false, p.
    rewrite (same_dirty _ _ Hs). split; [done|]. split; [done|]. split; [congruence|done].
  - intros q n. rewrite (same_size _ _ Hs). intros Hq. rewrite part_size_upd by apply (lru_list_index_in 0).
    change (part_size (fun _ => []) q) with 0. cbn [curr_size sample_cache] in Hq. case_decide as E; [subst q|].
    + rewrite lookup_insert_eq in Hq. injection Hq as <-. done.
    + rewrite lookup_insert_ne in Hq by done.
      apply elem_of_list_to_map_2, list_elem_of_fmap in Hq as (r & [= -> ->] & _). done.
  - split; [|by eexists]. intros k x. unfold upd. case_decide; [|by intros ?%not_elem_of_nil].
    by intros ?%list_elem_of_singleton.
Qed.

(** The effect of a move on everything but the lists. *)
Record relabelled (s s' : lru_cache) (x id : Z) : Prop := {
  rl_label : partition_id <$> nodes s' !! x = Some id;
  rl_others y : y <> x -> partition_id <$> nodes s' !! y = partition_id <$> nodes s !! y;
  rl_dirty : dirty s' = dirty s;
  rl_ready q : part_ready s q -> part_ready s' q
}.

Lemma repart_wp s σ x d src dst :
  part_inv s σ -> part_ready s src -> part_ready s dst ->
  dirty s !! x = Some d -> x ∈ σ (line_key x d src) ->
  wp (ocf_lru_repart x src dst) (fun _ s' =>
    part_inv s' (moved x (line_key x d src) (line_key x d dst) σ) /\
    relabelled s s' x (part_id dst)) s.
Proof.
  intros [HR Hpl Hsz] [[[ns Hns] _] Hls] [[[nd Hnd] _] Hld] Hd Hx.
  pose proof (lru_list_index_in x) as Hi.
  unfold ocf_lru_repart, ocf_lru_repart_locked. cbv zeta. apply wp_bind.
  eapply wp_test_dirty; [exact Hd|]. apply wp_bind.
  apply (wp_get_list_line s x d src); [by apply Hls|]. apply wp_bind.
  apply (wp_get_list_line s x d dst); [by apply Hld|]. apply wp_bind.
  eapply move_wp; [exact HR|exact Hx|by apply Hld|]. intros s1 HR1 Hs1.
  pose proof Hs1 as [Hsize Hdirty _ Hparts Hlists].
  destruct (lists_rep_node _ _ _ _ HR Hx) as [m Hm].
  apply wp_bind. apply wp_set_partition.
  { specialize (Hparts x). rewrite Hm in Hparts. destruct (nodes s1 !! x); [eauto|done]. }
  apply (wp_shift_size (relabel x (part_id dst) s1)); cbn [relabel curr_size]; rewrite ?Hsize; [|eauto..|].
  - intros p n. cbn. intros ->%Hsz. by eapply part_size_bound.
  - intros s2 En El Ed Hs2 Hrdy Ee. cbn in En, El, Ed, Ee.
    assert (Hlab : partition_id <$> nodes s2 !! x = Some (part_id dst)).
    { rewrite En, lookup_alter_eq. specialize (Hparts x). rewrite Hm in Hparts.
      by destruct (nodes s1 !! x). }
    assert (Hoth : forall y, y <> x -> partition_id <$> nodes s2 !! y = partition_id <$> nodes s !! y).
    { intros y Hy. rewrite En, lookup_alter_ne by done. apply Hparts. }
    split.
    2:{ split; [done|done|by rewrite Ed|]. intros q [[Hq Hqe] Hl].
        split; [split; [by apply Hrdy|by rewrite Ee, (same_evict _ _ Hs1)]|].
        intros i c Hi'. rewrite El. rewrite (same_rest_list _ _ _ Hs1). by apply Hl. }
    split.
    + apply (lists_rep_ext (relabel x (part_id dst) s1)); [done|done|]. by apply relabel_rep.
    + apply fmap_Some in Hlab as (m1 & Hm1 & Hp1).
      intros k y. apply (moved_placed s); [done|done|exists m1, d, dst; by rewrite Ed, Hdirty|].
      intros k' y' Hxy Hy'. destruct (Hpl k' y' Hy') as (my & dy & py & Hmy & Hdy & Hpy & Hk).
      specialize (Hoth y' (not_eq_sym Hxy)). rewrite Hmy in Hoth. apply fmap_Some in Hoth as (my' & Hmy' & Hpy').
      exists my', dy, py. rewrite Ed, Hdirty.
      split; [done|]. split; [done|]. split; [congruence|done].
    + intros p n Hn. destruct (Hs2 p n Hn) as (n0 & Hn0 & ->).
      unfold line_key in *. rewrite (moved_size s) by done. rewrite (Hsz p n0 Hn0). lia.
Qed.

(** C15. Moving a line between partitions ([ocf_lru_repart], the basis of
    removal, detaching and reattaching): for a line on its list of the
    source partition, the operation fails no assertion, takes the line out of
    that list, puts it at the head of the list of the destination with the
    same index and (unless the destination is a free partition) the same
    dirtiness, keeps all other sequences, labels the line with the
    destination's id, and keeps every occupancy counter equal to the number
    of lines of its partition. *)
Theorem lru_repart_moves s σ x d src dst :
  part_inv s σ -> part_ready s src -> part_ready s dst ->
  dirty s !! x = Some d -> x ∈ σ (line_key x d src) ->
  wp (ocf_lru_repart x src dst) (fun _ s' =>
    part_inv s' (moved x (line_key x d src) (line_key x d dst) σ) /\
    partition_id <$> nodes s' !! x = Some (part_id dst) /\ dirty s' = dirty s) s.
Proof.
  intros. eapply wp_mono; [by eapply repart_wp|]. intros [] s' [HI [Hl _ Hd _]]. done.
Qed.

Lemma lru_repart_moves_witness :
  exists s σ s', part_inv s σ /\ ocf_lru_repart 0 PARTITION_FREELIST 0 s = Some (tt, s') /\
    part_inv s' (moved 0 (line_key 0 false PARTITION_FREELIST) (line_key 0 false 0) σ).
Proof.
  pose proof sample_parts as [P0 PF].
  destruct (sample_inv PARTITION_FREELIST PF) as (s & σ & HI & Hs & H0 & _ & _).
  assert (Hw := lru_repart_moves s σ 0 false PARTITION_FREELIST 0 HI
    (sample_ready _ _ _ PF PF Hs) (sample_ready _ _ _ P0 PF Hs)
    ltac:(rewrite (same_dirty _ _ Hs); reflexivity) H0).
  rewrite wp_run in Hw. destruct Hw as ([] & s' & Hr & HI' & _). exists s, σ, s'. done.
Defined.

(** ** Promotion to the hot part *)

Lemma placed_same s s' k x : same_rest s s' -> placed s k x -> placed s' k x.
Proof.
  intros [_ Hd _ Hp _] (m & d & p & Hm & Hdx & Hpm & Hk). specialize (Hp x). rewrite Hm in Hp.
  destruct (nodes s' !! x) as [m'|] eqn:Em; [|done]. injection Hp as Hp.
  exists m', d, p. rewrite Hd. split; [done|]. split; [done|]. split; [congruence|done].
Qed.

(** Reordering one list. *)
Lemma part_inv_reorder s s' σ p i c l :
  part_inv s σ -> lists_rep s' (upd (p, i, c) l σ) -> same_rest s s' ->
  i ∈ lru_lists_idx -> length l = length (σ (p, i, c)) -> (forall y, y ∈ l -> y ∈ σ (p, i, c)) ->
  part_inv s' (upd (p, i, c) l σ).
Proof.
  intros [HR Hpl Hsz] HR' Hs Hi Hl Hsub. split; [done| |].
  - intros k y Hy. apply (placed_same s); [done|]. unfold upd in Hy. case_decide; [subst|]; auto.
  - intros q n Hn. rewrite (same_size _ _ Hs) in Hn. rewrite part_size_upd, (Hsz q n Hn) by done.
    case_decide; lia.
Qed.

Lemma list_ends ms L l x m :
  lru_seq ms L l -> x ∈ l -> ms !! x = Some m ->
  (next m = end_marker -> tail L = x) /\ (prev m = end_marker -> head L = x).
Proof.
  intros [] Hx Hm. rewrite bal_app in *.
  apply list_elem_of_split in Hx as (l1 & l2 & ->).
  destruct (link_lookup _ _ _ _ _ _ rep_link) as (m' & Hm' & Hp & Hn).
  assert (m' = m) as -> by congruence.
  assert (Hne : forall y, y ∈ l1 ++ x :: l2 -> y <> end_marker) by eauto using valid_not_end.
  split; intros He.
  - destruct l2 as [|y l2]; [by rewrite rep_tail, lastd_app|].
    exfalso. cbn in Hn. apply (Hne y); [set_solver|]. congruence.
  - destruct l1 as [|y l1 _] using rev_ind; [by rewrite rep_head|].
    exfalso. rewrite lastd_snoc in Hp. apply (Hne y); [set_solver|]. congruence.
Qed.

Lemma part_id_user p : p <= OCF_USER_IO_CLASS_MAX -> part_id p = p.
Proof.
  intros Hp. unfold part_id. rewrite bool_decide_eq_false_2; [done|].
  unfold PARTITION_FREE_DETACHED, OCF_USER_IO_CLASS_MAX in *. lia.
Qed.

Lemma length_to_front x l : NoDup l -> x ∈ l -> length (x :: without x l) = length l.
Proof.
  intros Hnd Hx. pose proof (length_without x l Hnd) as Hl.
  rewrite bool_decide_eq_true_2 in Hl by done. cbn in *. lia.
Qed.

Lemma hot_cline_wp s σ x d p m :
  part_inv s σ -> 0 <= p <= OCF_USER_IO_CLASS_MAX ->
  dirty s !! x = Some d -> nodes s !! x = Some m -> x ∈ σ (line_key x d p) ->
  wp (ocf_lru_hot_cline x) (fun _ s' => same_rest s s' /\
    part_inv s' (if hot m then σ
                 else upd (line_key x d p) (x :: without x (σ (line_key x d p))) σ) /\
    (forall y, y <> x -> y ∉ σ (line_key x d p) -> nodes s' !! y = nodes s !! y)) s.
Proof.
  intros HI Hp Hd Hm Hx. pose proof HI as [HR Hpl Hsz].
  pose proof (part_id_user p ltac:(lia)) as Hid.
  assert (Hpm : partition_id m = p).
  { destruct (Hpl _ _ Hx) as (m' & d' & p' & Hm' & _ & Hp' & Hk).
    assert (m' = m) as -> by congruence. apply line_key_inj in Hk as <-. by rewrite Hp', Hid. }
  destruct (lists_rep_is_Some _ _ _ _ HR Hx) as [L HL].
  pose proof (rep_list _ _ HR _ _ HL) as Hseq.
  destruct (list_ends _ _ _ _ _ Hseq Hx Hm) as [Ht Hh].
  unfold ocf_lru_hot_cline. cbv zeta. apply wp_bind. eapply wp_node_of; [exact Hm|].
  destruct (hot m); [apply wp_ret; split; [apply same_rest_refl|done]|].
  apply wp_bind. apply wp_bind. apply wp_bug_on.
  { apply bool_decide_eq_false_2. lia. }
  apply wp_ret. apply wp_bind. eapply wp_test_dirty; [exact Hd|].
  apply wp_bind. rewrite Hpm. apply wp_get_list_line; [eauto|].
  apply wp_bind. eapply wp_node_of; [exact Hm|]. apply wp_bind. eapply wp_load; [exact HL|].
  apply wp_bind. apply wp_bug_on.
  { repeat case_bool_decide; try done. by destruct H0; apply Ht. }
  apply wp_bind. apply wp_bug_on.
  { repeat case_bool_decide; try done. by destruct H0; apply Hh. }
  eapply set_hot_on_wp; [exact HR|exact Hx|]. intros s' HR' Hs' Ho. split; [done|]. split; [|exact Ho].
  eapply part_inv_reorder; try done.
  - apply lru_list_index_in.
  - by eapply length_to_front; [eapply lru_seq_nodup|].
  - intros y [->|[_ Hy]%elem_of_without]%elem_of_cons; done.
Qed.

(** Touching a line ([ocf_lru_hot_cline]): for a line on its list of a
    user partition, no assertion fails; a hot line is left where it is, a cold
    one moves to the front of its list, and nothing else changes. *)
Theorem lru_hot_cline_promotes s σ x d p m :
  part_inv s σ -> 0 <= p <= OCF_USER_IO_CLASS_MAX ->
  dirty s !! x = Some d -> nodes s !! x = Some m -> x ∈ σ (line_key x d p) ->
  wp (ocf_lru_hot_cline x) (fun _ s' =>
    part_inv s' (if hot m then σ
                 else upd (line_key x d p) (x :: without x (σ (line_key x d p))) σ) /\
    (forall y, y <> x -> y ∉ σ (line_key x d p) -> nodes s' !! y = nodes s !! y)) s.
Proof.
  intros. eapply wp_mono; [by eapply hot_cline_wp|]. by intros [] s' (_ & ?).
Qed.

Lemma lru_hot_cline_promotes_witness :
  exists s σ s', part_inv s σ /\ ocf_lru_hot_cline 0 s = Some (tt, s') /\ exists σ', part_inv s' σ'.
Proof.
  destruct (sample_inv 0 (proj1 sample_parts)) as (s & σ & HI & Hs & H0 & _ & m & Hm).
  assert (Hw := lru_hot_cline_promotes s σ 0 false 0 m HI ltac:(done)
    ltac:(rewrite (same_dirty _ _ Hs); reflexivity) Hm H0).
  rewrite wp_run in Hw. destruct Hw as ([] & s' & Hr & HI' & _). exists s, σ, s'. eauto.
Defined.

(** ** Changing the dirtiness of a line *)

Definition set_dirty (x : Z) (b : bool) (s : lru_cache) : lru_cache :=
  LruCache (nodes s) (lists s) (curr_size s) (evict_counter s) (<[x := b]> (dirty s)).

(** The operations do not look at the dirty bits: they work from any state
    [s1] that differs from [s] in them only. *)
Lemma dirtiness_wp s s1 σ x p (b : bool) :
  part_inv s σ -> part_ready s p -> 0 <= p <= OCF_USER_IO_CLASS_MAX ->
  dirty s !! x = Some b -> x ∈ σ (line_key x b p) ->
  nodes s1 = nodes s -> lists s1 = lists s -> curr_size s1 = curr_size s ->
  wp (if b then ocf_lru_clean_cline p x else ocf_lru_dirty_cline p x) (fun _ s' =>
    same_rest s1 s' /\
    forall s'', nodes s'' = nodes s' -> lists s'' = lists s' -> curr_size s'' = curr_size s' ->
      dirty s'' = <[x := negb b]> (dirty s) ->
      part_inv s'' (moved x (line_key x b p) (line_key x (negb b) p) σ)) s1.
Proof.
  intros [HR Hpl Hsz] [_ Hls] Hp Hd Hx En El Es. pose proof (lru_list_index_in x) as Hi.
  assert (Hkey : forall d, line_key x d p = (p, lru_list_index x, negb d)).
  { intros d. unfold line_key. rewrite part_id_user, bool_decide_eq_false_2; [done| |lia].
    unfold PARTITION_FREELIST. lia. }
  assert (Hget : forall c (Q : list_key -> lru_cache -> Prop), Q (p, lru_list_index x, c) s1 ->
    wp (ocf_lru_get_list p (lru_list_index x) c) Q s1).
  { intros c Q HQ. rewrite <- (negb_involutive c) in *. rewrite <- Hkey in HQ.
    apply wp_get_list_line; [|done]. rewrite Hkey, El. by apply Hls. }
  assert (Hmove : wp (ocf_lru_move x (line_key x b p) (line_key x (negb b) p)) (fun _ s' =>
    same_rest s1 s' /\
    forall s'', nodes s'' = nodes s' -> lists s'' = lists s' -> curr_size s'' = curr_size s' ->
      dirty s'' = <[x := negb b]> (dirty s) ->
      part_inv s'' (moved x (line_key x b p) (line_key x (negb b) p) σ)) s1).
  { eapply move_wp; [by apply (lists_rep_ext s)|done|rewrite Hkey, El; by apply Hls|].
    intros s' HR' Hs'. split; [done|]. intros s'' En' El' Es' Ed'. split.
    - by apply (lists_rep_ext s').
    - assert (Hn : forall y m, nodes s !! y = Some m ->
        exists m', nodes s'' !! y = Some m' /\ partition_id m' = partition_id m).
      { intros y m Hm. pose proof (same_parts _ _ Hs' y) as Hy. rewrite En, Hm in Hy.
        rewrite En'. apply fmap_Some in Hy as (m' & ? & ?). by exists m'. }
      intros k y. apply (moved_placed s); [done|done| |].
      + destruct (Hpl _ x Hx) as (m & d & q & (m' & Hm' & Hpm')%Hn & _ & Hpm & Hk).
        apply line_key_inj in Hk as <-. exists m', (negb b), p.
        rewrite Ed', lookup_insert_eq. split_and!; congruence.
      + intros k' y' Hne Hy'. destruct (Hpl k' y' Hy') as (m & d & q & (m' & Hm' & Hpm')%Hn & ? & Hpm & ?).
        exists m', d, q. rewrite Ed', lookup_insert_ne by done. split_and!; congruence.
    - intros q n. rewrite Es', (same_size _ _ Hs'), Es. intros Hn. rewrite !Hkey in *.
      rewrite (moved_size s) by done. rewrite (Hsz q n Hn). lia. }
  rewrite !Hkey in *.
  destruct b; cbn [negb] in *;
    unfold ocf_lru_clean_cline, ocf_lru_dirty_cline; cbv zeta;
    do 2 (apply wp_bind; apply Hget); exact Hmove.
Qed.

(** Cleaning and dirtying a line of a user partition
    ([ocf_lru_clean_cline], [ocf_lru_dirty_cline]): the line moves to the head
    of the other list of its pair, and once the caller has changed the dirty
    bit every line is again on the list its metadata says, with all
    occupancy counters right. *)
Theorem lru_dirtiness_moves s σ x p (b : bool) :
  part_inv s σ -> part_ready s p -> 0 <= p <= OCF_USER_IO_CLASS_MAX ->
  dirty s !! x = Some b -> x ∈ σ (line_key x b p) ->
  wp (if b then ocf_lru_clean_cline p x else ocf_lru_dirty_cline p x) (fun _ s' =>
    part_inv (set_dirty x (negb b) s') (moved x (line_key x b p) (line_key x (negb b) p) σ)) s.
Proof.
  intros HI Hr Hp Hd Hx. eapply wp_mono; [by apply (dirtiness_wp s s σ)|].
  intros [] s' [Hs' H]. apply H; try done. cbn. by rewrite (same_dirty _ _ Hs').
Qed.

Lemma lru_dirtiness_moves_witness :
  exists s σ s', part_inv s σ /\ ocf_lru_dirty_cline 0 0 s = Some (tt, s') /\
    exists σ', part_inv (set_dirty 0 true s') σ'.
Proof.
  pose proof sample_parts as [P0 _].
  destruct (sample_inv 0 P0) as (s & σ & HI & Hs & H0 & _ & _).
  assert (Hw := lru_dirtiness_moves s σ 0 0 false HI (sample_ready _ _ _ P0 P0 Hs) ltac:(done)
    ltac:(rewrite (same_dirty _ _ Hs); reflexivity) H0).
  rewrite wp_run in Hw. destruct Hw as ([] & s' & Hr & HI'). exists s, σ, s'. eauto.
Defined.
