(* ===== verification/LruPopulate.v ===== *)
(** * Populating the free lists

    After [ocf_lru_populate] every cache line of the device is on exactly one
    free list, the one of its chunk, and the free partition counts them all. *)

From S2P Require Import Prelude Links Lru LruProofs LruSeq Generator LruPart LruPartProofs.
From stdpp Require Import list_numbers.
Open Scope Z_scope.

(** ** The lines of a shard *)

Section Chunks.
Context (entries shard : Z) (Hent : 0 <= entries < 2 ^ 29) (Hshard : 0 <= shard < 32).

Definition chunk_lines (c : Z) : Z :=
  if bool_decide (c = num_full_chunks entries) then partial_chunk_lines entries shard
  else OCF_LRU_CHUNK_SIZE.

Definition chunk_line (c j : Z) : Z := (c * 32 + shard) * 256 + j.

Definition lines_of_chunk (c : Z) : list Z :=
  chunk_line c <$> (Z.of_nat <$> seq 0 (Z.to_nat (chunk_lines c))).

Lemma partial_range : 0 <= partial_chunk_lines entries shard <= 256.
Proof.
  unfold partial_chunk_lines, OCF_LRU_CHUNK_SIZE. repeat case_bool_decide; lia.
Qed.

Lemma lines_of_chunk_in c x :
  x ∈ lines_of_chunk c <-> exists j, x = chunk_line c j /\ 0 <= j < chunk_lines c.
Proof.
  unfold lines_of_chunk. rewrite list_elem_of_fmap. split.
  - intros (j & -> & (n & -> & Hn%elem_of_seq)%list_elem_of_fmap). exists (Z.of_nat n). split; [done|lia].
  - intros (j & -> & Hj). exists j. split; [done|]. apply list_elem_of_fmap.
    exists (Z.to_nat j). rewrite elem_of_seq. lia.
Qed.

Lemma chunk_line_spec x c j :
  0 <= j < 256 -> (x = chunk_line c j <->
    x mod 256 = j /\ (x / 256) mod 32 = shard /\ (x / 256) / 32 = c).
Proof.
  intros Hj. unfold chunk_line. split.
  - intros ->.
    assert (E : ((c * 32 + shard) * 256 + j) / 256 = c * 32 + shard).
    { rewrite Z.div_add_l, (Z.div_small j) by lia. lia. }
    rewrite E. rewrite (Z.add_comm _ j), Z_mod_plus_full, Z.mod_small by lia.
    rewrite Z.div_add_l, (Z.div_small shard) by lia.
    rewrite (Z.add_comm _ shard), Z_mod_plus_full, Z.mod_small by lia. lia.
  - intros (H1 & H2 & H3). pose proof (Z.div_mod x 256). pose proof (Z.div_mod (x / 256) 32). lia.
Qed.

(** The lines of all chunks are the lines of the shard. *)
Lemma shard_lines_in x :
  (exists c, 0 <= c < num_chunks entries shard /\ x ∈ lines_of_chunk c) <->
  0 <= x < entries /\ lru_list_index x = shard.
Proof.
  pose proof partial_range as Hp.
  assert (Hcl : forall c, 0 <= chunk_lines c <= 256).
  { intros c. unfold chunk_lines, OCF_LRU_CHUNK_SIZE. case_bool_decide; lia. }
  unfold lru_list_index, OCF_LRU_CHUNK_SIZE, OCF_NUM_LRU_LISTS. split.
  - intros (c & Hc & (j & Hx & Hj)%lines_of_chunk_in).
    assert (Hj' : 0 <= j < 256) by (specialize (Hcl c); lia).
    pose proof Hx as (H1 & H2 & H3)%chunk_line_spec; [|done]. split; [|done].
    revert Hj Hc. unfold chunk_lines, num_chunks, num_full_chunks, OCF_LRU_STRIPE_SIZE,
      OCF_LRU_CHUNK_SIZE, OCF_NUM_LRU_LISTS in *.
    unfold partial_chunk_lines, OCF_LRU_STRIPE_SIZE, OCF_LRU_CHUNK_SIZE, OCF_NUM_LRU_LISTS in *.
    change (32 * 256) with 8192 in *. unfold chunk_line in Hx.
    pose proof (Z.div_mod entries 8192). pose proof (Z.mod_pos_bound entries 8192).
    repeat case_bool_decide; lia.
  - intros [Hx Hi]. exists ((x / 256) / 32).
    pose proof (Z.div_mod x 256). pose proof (Z.mod_pos_bound x 256).
    pose proof (Z.div_mod (x / 256) 32).
    pose proof (Z.div_mod entries 8192). pose proof (Z.mod_pos_bound entries 8192).
    assert (0 <= x / 256) by (apply Z.div_pos; lia).
    assert (0 <= (x / 256) / 32) by (apply Z.div_pos; lia).
    assert (Hlines : x mod 256 < chunk_lines ((x / 256) / 32) /\
      (x / 256) / 32 < num_chunks entries shard).
    { unfold chunk_lines, num_chunks, num_full_chunks, partial_chunk_lines, OCF_LRU_STRIPE_SIZE,
        OCF_LRU_CHUNK_SIZE, OCF_NUM_LRU_LISTS in *. change (32 * 256) with 8192 in *.
      repeat case_bool_decide; lia. }
    split; [lia|]. apply lines_of_chunk_in. exists (x mod 256).
    split; [|lia]. apply chunk_line_spec; [lia|]. done.
Qed.

Lemma lines_of_chunk_nodup c : NoDup (lines_of_chunk c).
Proof.
  unfold lines_of_chunk. apply NoDup_fmap_2.
  - intros i j. unfold chunk_line. lia.
  - apply NoDup_fmap_2; [apply _|apply NoDup_seq].
Qed.

Lemma lines_of_chunk_disj c c' x : x ∈ lines_of_chunk c -> x ∈ lines_of_chunk c' -> c = c'.
Proof.
  pose proof partial_range.
  assert (Hcl : forall c, 0 <= chunk_lines c <= 256).
  { intros ?. unfold chunk_lines, OCF_LRU_CHUNK_SIZE. case_bool_decide; lia. }
  intros (j & Hx & Hj)%lines_of_chunk_in (j' & Hx' & Hj')%lines_of_chunk_in.
  pose proof (Hcl c). pose proof (Hcl c').
  apply chunk_line_spec in Hx as (_ & _ & <-); [|lia].
  by apply chunk_line_spec in Hx' as (_ & _ & <-); [|lia].
Qed.

Lemma chunks_nodup cs : NoDup cs -> NoDup (cs ≫= lines_of_chunk).
Proof.
  induction cs as [|c cs IH]; intros Hnd; [constructor|].
  apply NoDup_cons in Hnd as [Hc Hnd]. cbn. apply NoDup_app.
  split; [apply lines_of_chunk_nodup|]. split; [|by apply IH].
  intros x Hx (c' & Hx' & Hc')%list_elem_of_bind. apply Hc.
  by rewrite (lines_of_chunk_disj c c' x).
Qed.

Definition shard_lines : list Z := filter (fun x => lru_list_index x = shard) (seqZ 0 entries).

Lemma chunks_perm cs :
  cs ≡ₚ seqZ 0 (num_chunks entries shard) -> cs ≫= lines_of_chunk ≡ₚ shard_lines.
Proof.
  intros Hcs. apply NoDup_Permutation.
  - apply chunks_nodup. rewrite Hcs. apply NoDup_seqZ.
  - apply NoDup_filter, NoDup_seqZ.
  - intros x. unfold shard_lines. rewrite list_elem_of_filter, elem_of_seqZ, list_elem_of_bind.
    pose proof (shard_lines_in x) as Hs. split.
    + intros (c & Hx & Hc). rewrite Hcs, elem_of_seqZ in Hc.
      destruct (proj1 Hs) as [? ?]; [exists c; split; [lia|done]|]. split; [done|lia].
    + intros [Hi Hx]. destruct (proj2 Hs) as (c & Hc & Hin); [split; [lia|done]|].
      exists c. rewrite Hcs, elem_of_seqZ. split; [done|lia].
Qed.
End Chunks.

(** ** One line *)

(** [s'] is [s] after the lines [xs] were put on free lists. *)
Record populated (xs : list Z) (s s' : lru_cache) : Prop := {
  pop_size : curr_size s' = curr_size s;
  pop_dirty : dirty s' = dirty s;
  pop_track k : track_hot <$> lists s' !! k = track_hot <$> lists s !! k;
  pop_node y : is_Some (nodes s' !! y) <-> is_Some (nodes s !! y);
  pop_part y m : nodes s' !! y = Some m -> y ∈ xs -> partition_id m = PARTITION_FREELIST
}.

Lemma populated_refl s : populated [] s s.
Proof. split; try done. intros y m _ ?%not_elem_of_nil. done. Qed.

Definition free_key (shard : Z) : list_key := (PARTITION_FREELIST, shard, true).

Lemma add_nobalance_free_wp ms L l x :
  lru_seq ms L l -> track_hot L = false -> x ∉ l -> valid_line x -> is_Some (ms !! x) ->
  Z.of_nat (length l) < 2 ^ 31 - 2 ->
  wp (add_lru_head_nobalance x) (fun _ => list_post ms L x l (x :: l)) (LruView ms L).
Proof.
  intros HR Ht Hx Hv Hd Hlen. unfold lru_seq in HR. rewrite Ht in HR.
  eapply wp_mono; [by apply (add_nobalance_wp _ _ _ _ x HR)|].
  intros _ s' (HR' & Hk & Ht'). unfold joins_hot in HR'. rewrite Ht in *. cbn in HR', Hk.
  split; [|split; [done|congruence]]. unfold lru_seq. by rewrite Ht'.
Qed.

Lemma populate_line_wp entries shard s σ xs s0 c j L :
  lists_rep s σ -> populated xs s0 s ->
  lists s !! free_key shard = Some L -> track_hot L = false ->
  let x := chunk_line shard c j in
  ocf_get_chunk_cline shard c j = x -> 0 <= x < entries -> entries <= end_marker ->
  is_Some (nodes s !! x) -> (forall k, x ∉ σ k) ->
  wp (populate_line entries shard (free_key shard) c j) (fun _ s' =>
    lists_rep s' (upd (free_key shard) (x :: σ (free_key shard)) σ) /\ populated (xs ++ [x]) s0 s') s.
Proof.
  intros HR Hp HL Ht x Ex Hx Hent Hn Hout. unfold populate_line. rewrite Ex. cbv zeta.
  apply wp_bind. apply wp_bug_on; [apply bool_decide_eq_false_2; lia|].
  apply wp_bind. apply wp_set_partition; [done|].
  set (s1 := relabel x PARTITION_FREELIST s).
  eapply (on_list_wp _ s1 σ (free_key shard) x (x :: σ (free_key shard))).
  - by apply relabel_rep.
  - cbn. eauto.
  - intros k' Hk'. by destruct (Hout k').
  - done.
  - intros L1 HL1 Hseq. cbn in HL1. assert (L1 = L) as -> by congruence.
    pose proof (lru_seq_bound _ _ _ Hseq).
    apply add_nobalance_free_wp; try done; [by unfold valid_line; lia| |lia].
    cbn. destruct Hn as [m Hn]. rewrite lookup_alter_eq, Hn. eauto.
  - intros s' HR' Hs' Ho. split; [done|]. destruct Hp as [H1 H2 H3 H4 H5], Hs' as [K1 K2 _ K4 K5].
    cbn in K1, K2, K4, K5.
    assert (Hpart : forall y, partition_id <$> nodes s' !! y =
      if decide (x = y) then Some PARTITION_FREELIST else partition_id <$> nodes s !! y).
    { intros y. rewrite K4, lookup_alter. case_decide; [subst|done].
      destruct Hn as [m Hn]. by rewrite Hn. }
    split; rewrite ?K1, ?K2; try done.
    + intros k. by rewrite K5.
    + intros y. rewrite <- H4. specialize (Hpart y). case_decide as E.
      * subst y. destruct (nodes s' !! x); [|done]. split; intros _; [done|by eexists].
      * destruct (nodes s' !! y), (nodes s !! y); split; intros []; by eauto.
    + intros y m Hy [Hin|Hin%list_elem_of_singleton]%elem_of_app; specialize (Hpart y); rewrite Hy in Hpart.
      * case_decide; [by injection Hpart|]. cbn in Hpart.
        destruct (nodes s !! y) as [m'|] eqn:Em; [|done]. injection Hpart as ->. by eapply H5.
      * rewrite decide_True in Hpart by done. by injection Hpart.
Qed.

(** ** The loops *)

Section Loops.
Context (entries : Z) (s0 : lru_cache).
Context (Hent : 0 <= entries <= end_marker).
Context (Hnodes : forall x, 0 <= x < entries -> is_Some (nodes s0 !! x)).
Context (Hlists : forall i, i ∈ lru_lists_idx ->
           exists L, lists s0 !! free_key i = Some L /\ track_hot L = false).

(** After the lines [xs]. *)
Definition pop_inv (xs : list Z) (s : lru_cache) : Prop :=
  populated xs s0 s /\ exists σ, lists_rep s σ /\
    (forall i, i ∈ lru_lists_idx -> σ (free_key i) ≡ₚ filter (fun x => lru_list_index x = i) xs) /\
    (forall k, (forall i, i ∈ lru_lists_idx -> k <> free_key i) -> σ k = []).

Definition fresh (xs ys : list Z) (shard : Z) : Prop :=
  NoDup (xs ++ ys) /\ forall y, y ∈ ys -> 0 <= y < entries /\ lru_list_index y = shard.

Lemma free_key_dec k : {i | i ∈ lru_lists_idx /\ k = free_key i} + {forall i, i ∈ lru_lists_idx -> k <> free_key i}.
Proof.
  destruct k as [[p i] c].
  destruct (decide (p = PARTITION_FREELIST /\ c = true /\ i ∈ lru_lists_idx)) as [(-> & -> & Hi)|Hn].
  - left. by exists i.
  - right. intros j Hj [= -> -> ->]. by apply Hn.
Qed.

Lemma populate_line_inv xs s shard c j :
  pop_inv xs s -> 0 <= shard < 32 -> fresh xs [chunk_line shard c j] shard ->
  0 <= c -> 0 <= j < 256 ->
  wp (populate_line entries shard (free_key shard) c j)
    (fun _ => pop_inv (xs ++ [chunk_line shard c j])) s.
Proof.
  intros (Hp & σ & HR & Hfree & Hother) Hs [Hnd Hy] Hc Hj.
  destruct (Hy _ ltac:(left)) as [Hx Hi].
  assert (Hxs : chunk_line shard c j ∉ xs).
  { apply NoDup_app in Hnd as (_ & Hd & _). intros Hx'. apply (Hd _ Hx'). left. }
  assert (Hsi : shard ∈ lru_lists_idx) by (rewrite <- Hi; apply lru_list_index_in).
  destruct (Hlists shard Hsi) as (L0 & HL0 & Ht0).
  pose proof (pop_track _ _ _ Hp (free_key shard)) as Htr. rewrite HL0 in Htr.
  destruct (lists s !! free_key shard) as [L|] eqn:HL; [|done]. injection Htr as Htr.
  eapply wp_mono.
  { eapply (populate_line_wp entries shard s σ xs s0 c j L); try done; [congruence| |lia| |].
    - unfold ocf_get_chunk_cline, OCF_NUM_LRU_LISTS, OCF_LRU_CHUNK_SIZE.
      unfold chunk_line in *. unfold end_marker in *.
      rewrite (wrap_small 32 (c * 32 + shard)) by lia. rewrite wrap_small by lia. done.
    - by apply (pop_node _ _ _ Hp), Hnodes.
    - intros k Hk. destruct (free_key_dec k) as [(i & Hii & ->)|Hn].
      + rewrite (Hfree i Hii), list_elem_of_filter in Hk. by destruct Hk.
      + by rewrite (Hother k Hn) in Hk; apply not_elem_of_nil in Hk. }
  intros [] s' [HR' Hp']. split; [done|]. eexists. split; [exact HR'|]. split.
  - intros i Hii. rewrite filter_app. unfold upd. case_decide as E.
    + injection E as ->. rewrite filter_cons, decide_True by done. cbn [filter list_filter].
      rewrite (Hfree shard Hsi). by rewrite Permutation_app_comm.
    + rewrite filter_cons, decide_False; [cbn [filter list_filter]; rewrite app_nil_r; auto|].
      intros <-. by rewrite Hi in E.
  - intros k Hk. rewrite upd_ne by (by apply Hk). auto.
Qed.

Lemma populate_chunk_inv xs s shard c :
  pop_inv xs s -> 0 <= shard < 32 -> 0 <= c -> fresh xs (lines_of_chunk entries shard c) shard ->
  wp (m_for (Z.of_nat <$> seq 0 (Z.to_nat (chunk_lines entries shard c)))
        (populate_line entries shard (free_key shard) c))
    (fun _ => pop_inv (xs ++ lines_of_chunk entries shard c)) s.
Proof.
  intros HI Hs Hc [Hnd Hy]. unfold lines_of_chunk in *.
  apply (wp_for _ _ (fun js => pop_inv (xs ++ (chunk_line shard c <$> js)))).
  { by rewrite app_nil_r. }
  intros pre j post s' El HI'. rewrite fmap_app. rewrite app_assoc. cbn [fmap list_fmap].
  rewrite El in Hnd, Hy.
  assert (Hj : 0 <= j < chunk_lines entries shard c).
  { assert (Hin : j ∈ pre ++ j :: post) by (apply elem_of_app; right; left).
    rewrite <- El in Hin. apply list_elem_of_fmap in Hin as (n & -> & Hn%elem_of_seq). lia. }
  apply populate_line_inv; try done.
  - rewrite fmap_app, fmap_cons in Hnd, Hy. split.
    + rewrite app_assoc in Hnd. apply NoDup_app in Hnd as (H1 & H2 & H3%NoDup_cons).
      apply NoDup_app. split; [done|]. split; [|apply NoDup_singleton].
      intros z Hz ->%list_elem_of_singleton. apply (H2 _ Hz). left.
    + intros y ->%list_elem_of_singleton. apply Hy. apply elem_of_app. right. left.
  - pose proof (partial_range entries shard). unfold chunk_lines, OCF_LRU_CHUNK_SIZE in Hj.
    case_bool_decide; lia.
Qed.

Lemma populate_chunks_inv fuel n g cs xs s shard cnt :
  bisect_calls fuel n g = Some cs -> (forall c, c ∈ cs -> 0 <= c) ->
  pop_inv xs s -> 0 <= shard < 32 ->
  fresh xs (cs ≫= lines_of_chunk entries shard) shard ->
  wp (populate_chunks entries shard fuel n g (free_key shard) cnt) (fun r s' =>
    r = cnt + Z.of_nat (length (cs ≫= lines_of_chunk entries shard)) /\
    pop_inv (xs ++ (cs ≫= lines_of_chunk entries shard)) s') s.
Proof.
  revert g cs xs s cnt. induction n as [|n IH]; intros g cs xs s cnt Hg Hcs HI Hs Hf.
  { injection Hg as <-. cbn. apply wp_ret. rewrite app_nil_r. split; [lia|done]. }
  cbn [bisect_calls] in Hg. cbn [populate_chunks].
  destruct (ocf_generator_bisect_next fuel g) as [[c g']|] eqn:En; [|done].
  destruct (bisect_calls fuel n g') as [cs'|] eqn:Eb; [|done]. injection Hg as <-.
  change ((c :: cs') ≫= lines_of_chunk entries shard) with
    (lines_of_chunk entries shard c ++ (cs' ≫= lines_of_chunk entries shard)) in *.
  destruct Hf as [Hnd Hy].
  assert (Hf1 : fresh xs (lines_of_chunk entries shard c) shard).
  { split; [|intros y Hyc; apply Hy; apply elem_of_app; by left].
    rewrite app_assoc in Hnd. by apply NoDup_app in Hnd as [? _]. }
  apply wp_bind. eapply wp_mono.
  { apply populate_chunk_inv; try done. apply Hcs. left. }
  intros [] s1 HI1. eapply wp_mono.
  { apply (IH g' cs' (xs ++ lines_of_chunk entries shard c)); try done.
    - intros c' Hc'. apply Hcs. by right.
    - split; [by rewrite <- app_assoc|]. intros y Hyc. apply Hy. apply elem_of_app. by right. }
  cbn beta. intros r s2 [-> HI2]. rewrite app_assoc. split; [|done].
  rewrite length_app. unfold lines_of_chunk at 2. rewrite !length_fmap, length_seq.
  pose proof (partial_range entries shard).
  fold (chunk_lines entries shard c).
  assert (0 <= chunk_lines entries shard c).
  { unfold chunk_lines, OCF_LRU_CHUNK_SIZE. case_bool_decide; lia. }
  lia.
Qed.

Lemma populate_handle_inv xs s shard :
  pop_inv xs s -> shard ∈ lru_lists_idx -> num_chunks entries shard <> 1 ->
  (forall x, x ∈ xs -> lru_list_index x <> shard) -> NoDup xs ->
  wp (ocf_lru_populate_handle entries shard) (fun r s' =>
    r = Z.of_nat (length (shard_lines entries shard)) /\
    exists ys, ys ≡ₚ shard_lines entries shard /\ pop_inv (xs ++ ys) s') s.
Proof.
  intros HI Hsi H1 Hxs Hnd.
  assert (Hs : 0 <= shard < 32).
  { apply list_elem_of_fmap in Hsi as (i & -> & Hi%elem_of_seq). unfold OCF_NUM_LRU_LISTS in Hi. lia. }
  assert (Hent' : 0 <= entries < 2 ^ 29) by (unfold end_marker in *; lia).
  assert (Hn : 0 <= num_chunks entries shard <= 2 ^ 31).
  { unfold num_chunks, num_full_chunks, OCF_LRU_STRIPE_SIZE, OCF_NUM_LRU_LISTS, OCF_LRU_CHUNK_SIZE.
    change (32 * 256) with 8192.
    assert (0 <= entries / 8192 <= entries) by (split; [apply Z.div_pos|apply Z.div_le_upper_bound]; lia).
    case_bool_decide; lia. }
  assert (Hperm : forall cs, cs ≡ₚ seqZ 0 (num_chunks entries shard) ->
    cs ≫= lines_of_chunk entries shard ≡ₚ shard_lines entries shard).
  { intros cs. by apply chunks_perm. }
  unfold ocf_lru_populate_handle. case_bool_decide as E0.
  { apply wp_ret. specialize (Hperm []). rewrite E0 in Hperm. specialize (Hperm ltac:(done)).
    cbn in Hperm. rewrite <- Hperm. split; [done|]. exists []. split; [done|by rewrite app_nil_r]. }
  unfold ocf_generator_bisect_init. rewrite bool_decide_eq_false_2 by (rewrite wrap_small; lia).
  destruct (Hlists shard Hsi) as (L0 & HL0 & Ht0). destruct HI as [Hp HI].
  pose proof (pop_track _ _ _ Hp (free_key shard)) as Htr. rewrite HL0 in Htr.
  destruct (lists s !! free_key shard) as [L|] eqn:HL; [|done].
  apply wp_bind. apply wp_bind. eapply wp_load; [exact HL|]. apply wp_ret.
  set (m := num_chunks entries shard) in *.
  assert (Hm : 2 <= m <= 2 ^ 31) by lia. pose proof (limit_maplen m Hm).
  change (u32 (0 * maplen m / m)) with 0.
  pose proof (window_perm m Hm 0) as Hw. set (w := window m 0 (Z.to_nat (maplen m))) in *.
  assert (Hlen : length w = Z.to_nat m) by (rewrite Hw; apply length_seqZ).
  assert (Hc : bisect_calls (Z.to_nat (maplen m)) (Z.to_nat m) (Bisect 0 m) = Some w).
  { pose proof (calls_window m Hm (Z.to_nat (maplen m)) 0 (Z.to_nat m)) as Hcw.
    fold w in Hcw. rewrite take_ge in Hcw by lia. apply Hcw; [lia|lia]. }
  eapply wp_mono.
  { eapply populate_chunks_inv; [exact Hc| |by split|done|].
    - intros c. rewrite Hw, elem_of_seqZ. lia.
    - split.
      + rewrite (Hperm w Hw). apply NoDup_app. split; [done|].
        split; [|apply NoDup_filter, NoDup_seqZ]. intros x Hx [Hi _]%list_elem_of_filter.
        by apply (Hxs x).
      + intros y. rewrite (Hperm w Hw). unfold shard_lines.
        rewrite list_elem_of_filter, elem_of_seqZ. intros [? ?]. split; [lia|done]. }
  cbn beta. intros r s' [-> HI']. split; [by rewrite (Hperm w Hw)|].
  eexists. split; [exact (Hperm w Hw)|exact HI'].
Qed.
End Loops.

Lemma shard_lines_in_idx entries i x :
  x ∈ shard_lines entries i <-> 0 <= x < entries /\ lru_list_index x = i.
Proof. unfold shard_lines. rewrite list_elem_of_filter, elem_of_seqZ. split; intros []; split; lia || done. Qed.

Lemma populate_shards_inv entries s0 done_ shards xs s :
  0 <= entries <= end_marker ->
  (forall x, 0 <= x < entries -> is_Some (nodes s0 !! x)) ->
  (forall i, i ∈ lru_lists_idx -> exists L, lists s0 !! free_key i = Some L /\ track_hot L = false) ->
  (forall i, i ∈ lru_lists_idx -> num_chunks entries i <> 1) ->
  done_ ++ shards = lru_lists_idx -> NoDup xs ->
  (forall x, x ∈ xs <-> 0 <= x < entries /\ lru_list_index x ∈ done_) ->
  pop_inv s0 xs s ->
  wp (populate_shards entries shards (Z.of_nat (length xs))) (fun r s' =>
    r = entries /\ exists ys, ys ≡ₚ seqZ 0 entries /\ pop_inv s0 ys s') s.
Proof.
  intros Hent Hnodes Hlists H1. revert done_ xs s.
  induction shards as [|i shards IH]; intros done_ xs s El Hnd Hxs HI; cbn [populate_shards].
  - apply wp_ret. rewrite app_nil_r in El. subst done_.
    assert (Hp : xs ≡ₚ seqZ 0 entries).
    { apply NoDup_Permutation; [done|apply NoDup_seqZ|]. intros x. rewrite Hxs, elem_of_seqZ.
      pose proof (lru_list_index_in x). split; [lia|]. intros ?. split; [lia|done]. }
    split; [|by exists xs]. rewrite Hp, length_seqZ. lia.
  - assert (Hi : i ∈ lru_lists_idx) by (rewrite <- El; set_solver).
    pose proof lru_lists_idx_nodup as Hid. rewrite <- El in Hid.
    assert (Hout : i ∉ done_).
    { apply NoDup_app in Hid as (_ & Hd & _). intros Hin. apply (Hd _ Hin). left. }
    apply wp_bind. eapply wp_mono.
    { eapply (populate_handle_inv entries s0 Hent Hnodes Hlists xs); [done|done|by apply H1| |done].
      intros x [_ Hx]%Hxs Heq. by rewrite Heq in Hx. }
    cbn beta. intros r s1 (-> & ys & Hys & HI1).
    assert (Hnd' : NoDup (xs ++ ys)).
    { apply NoDup_app. split; [done|]. rewrite Hys. split; [|apply NoDup_filter, NoDup_seqZ].
      intros x Hx Hy. rewrite Hys, shard_lines_in_idx in Hy. apply Hxs in Hx as [_ Hx].
      destruct Hy as [_ Heq]. by rewrite Heq in Hx. }
    assert (Hin : forall x, x ∈ xs ++ ys <-> 0 <= x < entries /\ lru_list_index x ∈ done_ ++ [i]).
    { intros x. rewrite !elem_of_app, Hxs, list_elem_of_singleton, Hys, shard_lines_in_idx. tauto. }
    replace (s32 (Z.of_nat (length xs) + Z.of_nat (length (shard_lines entries i))))
      with (Z.of_nat (length (xs ++ ys))).
    + apply (IH (done_ ++ [i])); try done. by rewrite <- app_assoc.
    + rewrite length_app, Hys, Nat2Z.inj_add. rewrite s32_small; [done|].
      assert (Z.of_nat (length (xs ++ ys)) <= entries).
      { apply lines_bound; [lia|done|]. intros x [Hx _]%Hin. done. }
      rewrite length_app, Hys in *. unfold end_marker in *. lia.
Qed.

(** C16. Populating the free lists ([ocf_lru_populate], the shards run one
    after the other): from empty lists the operation completes without a
    failed assertion, every line of the device ends up on exactly one free
    list, the one of its chunk, no other list gets a line, all lines are
    labelled free, and the free partition's occupancy is the number of
    lines.  The case of a shard with exactly one chunk is excluded: there the
    C code evaluates [__builtin_clz(0)]. *)
Theorem lru_populate_all entries s :
  0 <= entries <= end_marker ->
  (forall x, 0 <= x < entries -> is_Some (nodes s !! x)) ->
  (forall k L, lists s !! k = Some L -> exists t, L = lru_init_list t) ->
  (forall i, i ∈ lru_lists_idx -> lists s !! free_key i = Some (lru_init_list false)) ->
  (forall i, i ∈ lru_lists_idx -> num_chunks entries i <> 1) ->
  wp (ocf_lru_populate entries) (fun _ s' =>
    (exists σ, lists_rep s' σ /\
       (forall i, i ∈ lru_lists_idx -> σ (free_key i) ≡ₚ shard_lines entries i) /\
       (forall k, (forall i, i ∈ lru_lists_idx -> k <> free_key i) -> σ k = [])) /\
    (forall x m, 0 <= x < entries -> nodes s' !! x = Some m -> partition_id m = PARTITION_FREELIST) /\
    curr_size s' !! PARTITION_FREELIST = Some entries) s.
Proof.
  intros Hent Hn Hl Hf H1. unfold ocf_lru_populate. apply wp_bind. eapply wp_mono.
  { apply (populate_shards_inv entries s [] lru_lists_idx [] s); try done.
    - intros i Hi. by eexists; split; [apply Hf|].
    - constructor.
    - intros x. split; [by intros ?%not_elem_of_nil|]. by intros [_ ?%not_elem_of_nil].
    - split; [apply populated_refl|]. exists (fun _ => []). by split; [apply lists_rep_empty|]. }
  cbn beta. intros r s' (-> & ys & Hys & Hp & σ & HR & Hfree & Hother). apply wp_modify. cbn.
  split; [|split; [|apply lookup_insert_eq]].
  - exists σ. split; [by apply (lists_rep_ext s')|]. split; [|done].
    intros i Hi. rewrite (Hfree i Hi), Hys. done.
  - intros x m Hx Hm. apply (pop_part _ _ _ Hp x m Hm). rewrite Hys. apply elem_of_seqZ. lia.
Qed.

(** A device of two stripes. *)
Definition blank_lists : gmap list_key ocf_lru_list :=
  list_to_map ((fun i => (free_key i, lru_init_list false)) <$> lru_lists_idx).
Definition blank_cache (entries : Z) : lru_cache :=
  LruCache (list_to_map ((fun x => (x, LruMeta 0 0 false 0)) <$> seqZ 0 entries)) blank_lists ∅ ∅ ∅.

Lemma lru_populate_all_witness :
  exists s s', s = blank_cache 16384 /\ ocf_lru_populate 16384 s = Some (tt, s') /\
    curr_size s' !! PARTITION_FREELIST = Some 16384.
Proof.
  assert (Hw : wp (ocf_lru_populate 16384) (fun _ s' =>
    curr_size s' !! PARTITION_FREELIST = Some 16384) (blank_cache 16384)).
  { eapply wp_mono; [apply (lru_populate_all 16384)|by intros _ s' (_ & _ & ?)].
    - unfold end_marker. lia.
    - intros x Hx. exists (LruMeta 0 0 false 0). apply elem_of_list_to_map.
      + rewrite <- list_fmap_compose. apply NoDup_fmap_2; [apply _|apply NoDup_seqZ].
      + apply list_elem_of_fmap. exists x. rewrite elem_of_seqZ. split; [done|lia].
    - intros k L HL. apply elem_of_list_to_map_2, list_elem_of_fmap in HL as (i & [= -> ->] & _).
      by exists false.
    - change (lists (blank_cache 16384)) with blank_lists.
      assert (Hf : Forall (fun i => blank_lists !! free_key i = Some (lru_init_list false))
        lru_lists_idx) by by_compute.
      by rewrite Forall_forall in Hf.
    - assert (Hf : Forall (fun i => num_chunks 16384 i <> 1) lru_lists_idx) by by_compute.
      by rewrite Forall_forall in Hf. }
  remember (blank_cache 16384) as s eqn:Es.
  destruct (proj1 (wp_run _ _ _) Hw) as ([] & s' & Hr & Hs). exists s, s'. split; [reflexivity|]. split; [exact Hr|exact Hs].
Defined.
