(* ===== verification/LruRestore.v ===== *)
(** * Restoring the lists after a clean shutdown

    The nodes of the lines are on the device, the list headers are not:
    [ocf_lru_restore_runtime] rebuilds every header and counter from the
    nodes, one line at a time.  For nodes written by a running cache the
    rebuilt headers are the ones that were lost. *)

From S2P Require Import Prelude Links Lru LruProofs LruSeq LruPart LruPartProofs.

Definition OCF_CORE_NUM : Z := 4096.
Definition OCF_ERR_INVAL : Z := 1000000.

(** What the mapping metadata says of a line. *)
Record line_info := LineInfo {
  core_id : Z;          (** [ocf_metadata_get_core_info] *)
  metadata_ok : bool;   (** [ocf_metadata_check] *)
  valid_any : bool      (** [metadata_test_valid_any] *)
}.

Definition update_list (key : list_key) (f : ocf_lru_list -> ocf_lru_list) : PM unit := fun s =>
  match lists s !! key with
  | None => None
  | Some L => Some (tt, LruCache (nodes s) (<[key := f L]> (lists s)) (curr_size s) (evict_counter s) (dirty s))
  end.

(** The part of [ocf_lru_restore_cline] after the list is known. *)
Definition restore_header (cline : Z) (node : ocf_lru_meta) (list : list_key) : PM Z :=
  prev_bad ← (if bool_decide (prev node <> end_marker) then
      prev_node ← node_of (prev node); mret (bool_decide (next prev_node <> cline))
    else mret false);
  next_bad ← (if bool_decide (next node <> end_marker) then
      next_node ← node_of (next node); mret (bool_decide (prev next_node <> cline))
    else mret false);
  if (prev_bad : bool) || (next_bad : bool) then mret (- OCF_ERR_INVAL)
  else
    _ ← update_list list (fun L => with_num_nodes (num_nodes L + 1) L);
    L ← load (fun s => lists s !! list);
    let is_head := bool_decide (prev node = end_marker) in
    if is_head && bool_decide (head L <> end_marker) then mret (- OCF_ERR_INVAL)
    else
      _ ← when is_head (update_list list (with_head cline));
      let is_tail := bool_decide (next node = end_marker) in
      if is_tail && bool_decide (tail L <> end_marker) then mret (- OCF_ERR_INVAL)
      else
        _ ← when is_tail (update_list list (with_tail cline));
        if track_hot L && hot node then
          _ ← update_list list (fun L => with_num_hot (num_hot L + 1) L);
          last ← (if is_tail then mret true
                  else next_node ← node_of (next node); mret (negb (hot next_node)));
          if (last : bool) then
            if bool_decide (last_hot L <> end_marker) then mret (- OCF_ERR_INVAL)
            else _ ← update_list list (with_last_hot cline); mret 0
          else mret 0
        else mret 0.

Section Restore.
Context (info : Z -> line_info).

Definition ocf_lru_restore_cline (cline : Z) : PM Z :=
  let core := core_id (info cline) in
  if negb (metadata_ok (info cline)) || bool_decide (core > OCF_CORE_NUM) then mret (- OCF_ERR_INVAL)
  else
    let valid := valid_any (info cline) in
    node ← node_of cline;
    where_ ← (if negb valid || bool_decide (core = OCF_CORE_NUM) then
        list ← ocf_lru_get_list PARTITION_FREELIST (lru_list_index cline) true;
        _ ← add_curr_size PARTITION_FREELIST 1;
        mret (if hot node then None else Some list)
      else
        part_id ← ocf_metadata_get_partition_id cline;
        if bool_decide (part_id > OCF_USER_IO_CLASS_MAX) then mret None
        else
          d ← metadata_test_dirty cline;
          list ← ocf_lru_get_list part_id (lru_list_index cline) (negb d);
          _ ← add_curr_size part_id 1;
          mret (Some list));
    match where_ with
    | None => mret (- OCF_ERR_INVAL)
    | Some list => restore_header cline node list
    end.

Fixpoint restore_clines (clines : list Z) : PM Z :=
  match clines with
  | [] => mret 0
  | cline :: clines =>
    ret ← ocf_lru_restore_cline cline;
    if bool_decide (ret <> 0) then mret ret else restore_clines clines
  end.

Definition ocf_lru_restore_runtime (entries : Z) : PM Z :=
  _ ← m_for (Z.of_nat <$> seq 0 (Z.to_nat OCF_USER_IO_CLASS_MAX)) ocf_lru_init;
  _ ← ocf_lru_init PARTITION_FREELIST;
  _ ← ocf_lru_init PARTITION_FREE_DETACHED;
  restore_clines (Z.of_nat <$> seq 0 (Z.to_nat entries)).
End Restore.

(** ** The header after the lines below [n] *)

Definition below (n : Z) (l : list Z) : list Z := filter (fun x => x < n) l.
Definition sel (n v : Z) : Z := if bool_decide (v < n) then v else end_marker.

Definition upto (n : Z) (l : list Z) (L : ocf_lru_list) : ocf_lru_list :=
  LruList (Z.of_nat (length (below n l))) (sel n (head L)) (sel n (tail L))
    (Z.of_nat (length (below n (bal_hot (track_hot L) l)))) (sel n (last_hot L)) (track_hot L).

Lemma sel_ne n v : v <> n -> sel (n + 1) v = sel n v.
Proof. intros Hv. unfold sel. repeat case_bool_decide; done || lia. Qed.

Lemma sel_new n : sel (n + 1) n = n.
Proof. unfold sel. by rewrite bool_decide_eq_true_2 by lia. Qed.

Lemma sel_old n : sel n n = end_marker.
Proof. unfold sel. by rewrite bool_decide_eq_false_2 by lia. Qed.

Lemma below_notin n l : n ∉ l -> below (n + 1) l = below n l.
Proof.
  unfold below. induction l as [|x l IH]; [done|]. rewrite not_elem_of_cons. intros [Hx Hl].
  rewrite !filter_cons, (IH Hl). repeat case_decide; done || lia.
Qed.

Lemma below_in n l : NoDup l -> n ∈ l -> length (below (n + 1) l) = S (length (below n l)).
Proof.
  intros Hnd (l1 & l2 & ->)%list_elem_of_split.
  pose proof (nodup_pivot _ _ _ Hnd) as Hn. rewrite not_elem_of_app in Hn. destruct Hn as [H1 H2].
  unfold below. rewrite !filter_app, !filter_cons.
  rewrite (decide_True (P := n < n + 1)), (decide_False (P := n < n)) by lia.
  fold (below (n + 1) l1) (below (n + 1) l2) (below n l1) (below n l2).
  rewrite !below_notin by done. rewrite !length_app. cbn. lia.
Qed.

Lemma below_all n l : (forall x, x ∈ l -> x < n) -> below n l = l.
Proof.
  unfold below. induction l as [|x l IH]; intros Hl; [done|].
  rewrite filter_cons, decide_True by (apply Hl; left). f_equal. apply IH. intros y Hy. apply Hl. by right.
Qed.

Lemma below_none n l : (forall x, x ∈ l -> n <= x) -> below n l = [].
Proof. intros Hl. apply list_eq_nil_filter. intros x Hx. specialize (Hl x Hx). lia. Qed.

Lemma upto_other ms n l L : lru_seq ms L l -> n <> end_marker -> n ∉ l -> upto (n + 1) l L = upto n l L.
Proof.
  intros [] He Hn. rewrite bal_app in *.
  assert (Hne : forall p hs, (forall y, y ∈ hs -> y ∈ l) -> p = end_marker -> lastd p hs <> n).
  { intros p hs Hsub -> <-. destruct (lastd_in end_marker hs) as [Hl|Hl]; [by rewrite Hl in He|].
    by apply Hn, Hsub. }
  unfold upto. rewrite !below_notin, !sel_ne; try done.
  - rewrite rep_last_hot. apply Hne; [|done]. intros y Hy. rewrite <- (bal_app (track_hot L)).
    apply elem_of_app. by left.
  - rewrite rep_tail. by apply Hne.
  - rewrite rep_head. destruct l; [done|]. cbn. intros ->. apply Hn. left.
  - intros Hin. apply Hn. rewrite <- (bal_app (track_hot L)). apply elem_of_app. by left.
Qed.

Lemma upto_full ms n l L :
  lru_seq ms L l -> n <= end_marker -> (forall x, x ∈ l -> x < n) -> upto n l L = L.
Proof.
  intros [] Hn Hl. rewrite bal_app in *.
  assert (Hsub : forall y, y ∈ bal_hot (track_hot L) l -> y ∈ l).
  { intros y Hy. rewrite <- (bal_app (track_hot L)). apply elem_of_app. by left. }
  assert (Hsel : forall v, v = end_marker \/ v ∈ l -> sel n v = v).
  { intros v [->|Hv]; unfold sel; case_bool_decide; try done. by specialize (Hl v Hv). }
  unfold upto. rewrite !below_all by auto. rewrite <- rep_num, <- rep_num_hot, !Hsel; [by destruct L|..].
  - rewrite rep_last_hot. destruct (lastd_in end_marker (bal_hot (track_hot L) l)); auto.
  - rewrite rep_tail. destruct (lastd_in end_marker l); auto.
  - rewrite rep_head. destruct l; [by left|]. right. left.
Qed.

Lemma upto_zero ms l L : lru_seq ms L l -> upto 0 l L = lru_init_list (track_hot L).
Proof.
  intros []. rewrite bal_app in *.
  assert (Hpos : forall x, x ∈ l -> 0 <= x) by (intros x Hx; by apply rep_valid).
  assert (Hsub : forall y, y ∈ bal_hot (track_hot L) l -> y ∈ l).
  { intros y Hy. rewrite <- (bal_app (track_hot L)). apply elem_of_app. by left. }
  assert (Hsel : forall v, v = end_marker \/ v ∈ l -> sel 0 v = end_marker).
  { intros v [->|Hv]; unfold sel; case_bool_decide; try done. specialize (Hpos v Hv). lia. }
  unfold upto, lru_init_list. rewrite !below_none by auto. rewrite !Hsel; [done|..].
  - rewrite rep_last_hot. destruct (lastd_in end_marker (bal_hot (track_hot L) l)); auto.
  - rewrite rep_tail. destruct (lastd_in end_marker l); auto.
  - rewrite rep_head. destruct l; [by left|]. right. left.
Qed.

(** ** A line and its list *)

Record line_in_list (ms : gmap Z ocf_lru_meta) (L : ocf_lru_list) (l : list Z) (x : Z)
    (m : ocf_lru_meta) : Prop := {
  lil_prev : if decide (head L = x) then prev m = end_marker
             else prev m <> end_marker /\ exists a, ms !! prev m = Some a /\ next a = x;
  lil_next : if decide (tail L = x) then next m = end_marker
             else next m <> end_marker /\ exists b, ms !! next m = Some b /\ prev b = x;
  lil_hot : hot m = bool_decide (x ∈ bal_hot (track_hot L) l);
  lil_last : last_hot L = x <->
    hot m = true /\ (next m = end_marker \/ exists b, ms !! next m = Some b /\ hot b = false)
}.

Lemma lastd_after x l1 l2 : NoDup (l1 ++ x :: l2) -> lastd end_marker (l1 ++ x :: l2) = x -> l2 = [].
Proof.
  intros Hnd Hl. destruct l2 as [|y l2 _] using rev_ind; [done|]. exfalso.
  rewrite lastd_app, lastd_cons, lastd_snoc in Hl. subst y.
  apply nodup_pivot in Hnd. apply Hnd. rewrite !elem_of_app. right. right. left.
Qed.

Lemma line_in_list_spec ms L l x m :
  lru_seq ms L l -> x ∈ l -> ms !! x = Some m -> line_in_list ms L l x m.
Proof.
  intros Hs Hx Hm. pose proof Hs as HR. destruct HR. rewrite bal_app in *.
  pose proof (rep_hot_of _ _ _ _ x Hs) as Hho. rewrite bal_app in Hho. specialize (Hho Hx).
  unfold hot_of in Hho. rewrite Hm in Hho. injection Hho as Hho.
  assert (Hne : forall y, y ∈ l -> y <> end_marker) by eauto using valid_not_end.
  pose proof Hx as (l1 & l2 & El)%list_elem_of_split. rewrite El in rep_link, rep_nodup.
  destruct (link_lookup _ _ _ _ _ _ rep_link) as (m' & Hm' & Hp & Hn).
  assert (m' = m) as -> by congruence.
  split; [| |done|].
  - rewrite rep_head, El. destruct l1 as [|a l1 _] using rev_ind.
    + by rewrite decide_True.
    + rewrite lastd_snoc in Hp. rewrite decide_False.
      * rewrite Hp. split; [apply Hne; rewrite El; set_solver|].
        rewrite <- app_assoc in rep_link. cbn in rep_link.
        destruct (link_lookup _ _ _ _ _ _ rep_link) as (ma & Hma & _ & Hna). eauto.
      * intros Hh. apply nodup_pivot in rep_nodup. apply rep_nodup.
        rewrite <- Hh. destruct l1; cbn; left.
  - rewrite rep_tail, El. destruct l2 as [|b l2].
    + by rewrite lastd_snoc, decide_True.
    + rewrite decide_False by (intros Ht; by apply lastd_after in Ht). cbn in Hn.
      rewrite Hn. split; [apply Hne; rewrite El; set_solver|].
      rewrite cons_middle, app_assoc in rep_link.
      destruct (link_lookup _ _ _ _ _ _ rep_link) as (mb & Hmb & Hpb & _).
      rewrite lastd_snoc in Hpb. eauto.
  - rewrite rep_last_hot, Hho, bool_decide_eq_true.
    pose proof (bal_app (track_hot L) l) as Ebal. rewrite <- El in rep_nodup.
    rewrite <- Ebal in rep_nodup. set (hs := bal_hot (track_hot L) l) in *.
    set (cs := bal_cold (track_hot L) l) in *. split.
    + intros Hl. assert (Hin : x ∈ hs).
      { destruct (lastd_in end_marker hs) as [He|He]; rewrite Hl in He; [by destruct (Hne x)|done]. }
      split; [done|]. pose proof Hin as (h1 & h2 & Eh)%list_elem_of_split.
      assert (h2 = []) as ->.
      { eapply lastd_after; [|rewrite <- Eh; exact Hl]. rewrite <- Eh. by apply NoDup_app in rep_nodup as [? _]. }
      rewrite Eh, <- app_assoc in Ebal. cbn in Ebal.
      assert (l2 = cs) as ->.
      { destruct (nodup_split_unique x h1 cs l1 l2) as [_ ->]; [|congruence|done].
        rewrite Ebal, <- Ebal. by rewrite Eh, <- app_assoc in rep_nodup. }
      rewrite Hn. destruct cs as [|c cs]; [by left|]. right. cbn.
      pose proof (rep_cold c ltac:(left)) as Hc. unfold hot_of in Hc.
      destruct (ms !! c) as [b|]; [|done]. injection Hc. eauto.
    + intros [Hin Hcase]. apply list_elem_of_split in Hin as (h1 & h2 & Eh). rewrite Eh.
      destruct h2 as [|h h2]; [by rewrite lastd_snoc|]. exfalso.
      assert (Hh : h ∈ hs) by (rewrite Eh; set_solver).
      assert (next m = h).
      { rewrite Eh, <- app_assoc in Ebal. cbn in Ebal.
        destruct (nodup_split_unique x h1 (h :: h2 ++ cs) l1 l2) as [_ <-]; [|congruence|by rewrite Hn].
        by rewrite Eh, <- app_assoc in rep_nodup. }
      destruct Hcase as [He|(b & Hb & Hhb)].
      * apply (Hne h); [|congruence]. rewrite <- Ebal. set_solver.
      * pose proof (rep_hot h Hh) as Hhh. unfold hot_of in Hhh. rewrite <- H, Hb in Hhh.
        injection Hhh. congruence.
Qed.

(** ** One line *)

Definition put (key : list_key) (L : ocf_lru_list) (s : lru_cache) : lru_cache :=
  LruCache (nodes s) (<[key := L]> (lists s)) (curr_size s) (evict_counter s) (dirty s).

Lemma put_put k L L' s : put k L (put k L' s) = put k L s.
Proof. unfold put. cbn. by rewrite insert_insert_eq. Qed.

Lemma wp_update_list k f s L (Q : unit -> lru_cache -> Prop) :
  lists s !! k = Some L -> Q tt (put k (f L) s) -> wp (update_list k f) Q s.
Proof. intros HL HQ. unfold wp, update_list. by rewrite HL. Qed.

Lemma wp_update_put k f s L (Q : unit -> lru_cache -> Prop) :
  Q tt (put k (f L) s) -> wp (update_list k f) Q (put k L s).
Proof.
  intros HQ. eapply wp_update_list; [apply lookup_insert_eq|]. by rewrite put_put.
Qed.

Lemma wp_when_put k f s L (b : bool) (Q : unit -> lru_cache -> Prop) :
  Q tt (put k (if b then f L else L) s) -> wp (when b (update_list k f)) Q (put k L s).
Proof. destruct b; cbn; [apply wp_update_put|done]. Qed.

Lemma restore_header_wp s k x m L l :
  lists s !! k = Some (upto x l L) -> nodes s !! x = Some m -> valid_line x ->
  lru_seq (nodes s) L l -> x ∈ l ->
  wp (restore_header x m k) (fun r s' => r = 0 /\ s' = put k (upto (x + 1) l L) s) s.
Proof.
  intros HL Hm Hv Hseq Hx. destruct (line_in_list_spec _ _ _ _ _ Hseq Hx Hm) as [Hp Hn Hh Hlast].
  pose proof (lru_seq_nodup _ _ _ Hseq) as Hnd. pose proof (lru_seq_bound _ _ _ Hseq) as Hbd.
  pose proof (fld_valid x Hv) as Hfx. pose proof (valid_not_end x Hv) as Hxe.
  assert (Hle : (length (below x l) <= length l)%nat) by apply length_filter.
  assert (Hle' : (length (below x (bal_hot (track_hot L) l)) <= length l)%nat).
  { unfold below. etransitivity; [apply length_filter|]. rewrite <- (bal_app (track_hot L) l) at 2.
    rewrite length_app. lia. }
  unfold restore_header. apply wp_bind. apply wp_mono with (P := fun (r : bool) s' => r = false /\ s' = s).
  { destruct (decide (head L = x)) as [_|_].
    - rewrite bool_decide_eq_false_2 by auto. by apply wp_ret.
    - destruct Hp as (Hpe & a & Ha & Hna). rewrite bool_decide_eq_true_2 by done. apply wp_bind.
      eapply wp_node_of; [exact Ha|]. apply wp_ret. by rewrite Hna, bool_decide_eq_false_2 by auto. }
  intros r s' [-> ->]. apply wp_bind. apply wp_mono with (P := fun (r : bool) s' => r = false /\ s' = s).
  { destruct (decide (tail L = x)) as [_|_].
    - rewrite bool_decide_eq_false_2 by auto. by apply wp_ret.
    - destruct Hn as (Hpe & a & Ha & Hna). rewrite bool_decide_eq_true_2 by done. apply wp_bind.
      eapply wp_node_of; [exact Ha|]. apply wp_ret. by rewrite Hna, bool_decide_eq_false_2 by auto. }
  intros r s' [-> ->]. cbn [orb].
  apply wp_bind. eapply wp_update_list; [exact HL|].
  apply wp_bind. eapply wp_load; [apply lookup_insert_eq|]. cbv zeta.
  cbn [head tail track_hot last_hot with_num_nodes upto].
  assert (Eh : bool_decide (prev m = end_marker) = bool_decide (head L = x)).
  { destruct (decide (head L = x)); [by rewrite !bool_decide_eq_true_2|].
    destruct Hp. by rewrite !bool_decide_eq_false_2. }
  assert (Et : bool_decide (next m = end_marker) = bool_decide (tail L = x)).
  { destruct (decide (tail L = x)); [by rewrite !bool_decide_eq_true_2|].
    destruct Hn. by rewrite !bool_decide_eq_false_2. }
  assert (Hsel : forall v, bool_decide (v = x) && bool_decide (sel x v <> end_marker) = false).
  { intros v. destruct (decide (v = x)) as [->|]; [|by rewrite bool_decide_eq_false_2].
    rewrite sel_old, (bool_decide_eq_false_2 (_ <> _)) by auto. apply andb_false_r. }
  assert (Hs : forall v, sel (x + 1) v = if bool_decide (v = x) then x else sel x v).
  { intros v. destruct (decide (v = x)) as [->|].
    - rewrite bool_decide_eq_true_2 by done. apply sel_new.
    - rewrite bool_decide_eq_false_2 by done. by apply sel_ne. }
  rewrite Eh, Et, !Hsel.
  apply wp_bind. apply wp_when_put. apply wp_bind. apply wp_when_put.
  set (L1 := LruList (Z.of_nat (length (below (x + 1) l))) (sel (x + 1) (head L)) (sel (x + 1) (tail L))
    (Z.of_nat (length (below x (bal_hot (track_hot L) l)))) (sel x (last_hot L)) (track_hot L)).
  match goal with |- wp _ _ (put k ?e s) => replace e with L1 end.
  2: { unfold L1. rewrite !Hs, below_in by done.
       destruct (bool_decide (tail L = x)), (bool_decide (head L = x));
         unfold with_tail, with_head, with_num_nodes, upto;
         cbn [num_nodes head tail num_hot last_hot track_hot]; rewrite ?Hfx, (wrap_small 32) by lia;
         f_equal; lia. }
  assert (Eth : track_hot L && hot m = hot m).
  { destruct (track_hot L); [done|]. rewrite Hh. symmetry. apply bool_decide_eq_false_2, not_elem_of_nil. }
  rewrite Eth. destruct (hot m) eqn:Ehm.
  - symmetry in Hh. apply bool_decide_eq_true_1 in Hh.
    assert (Hnh : NoDup (bal_hot (track_hot L) l)).
    { rewrite <- (bal_app (track_hot L) l) in Hnd. by apply NoDup_app in Hnd as [? _]. }
    assert (Hlen : length (below (x + 1) (bal_hot (track_hot L) l)) =
      S (length (below x (bal_hot (track_hot L) l)))) by (by apply below_in).
    apply wp_bind. apply wp_update_put. apply wp_bind.
    apply wp_mono with (P := fun (r : bool) s' => r = bool_decide (last_hot L = x) /\
      s' = put k (with_num_hot (num_hot L1 + 1) L1) s).
    { destruct (decide (tail L = x)) as [Htl|Htl]; [rewrite (bool_decide_eq_true_2 (tail L = x)) by done|
        rewrite (bool_decide_eq_false_2 (tail L = x)) by done].
      - apply wp_ret. split; [|done]. symmetry. apply bool_decide_eq_true_2. apply Hlast. auto.
      - destruct Hn as (Hne & b & Hb & _).
        apply wp_bind. eapply wp_node_of; [exact Hb|]. apply wp_ret. split; [|done].
        destruct (hot b) eqn:Ehb; cbn [negb]; symmetry.
        + apply bool_decide_eq_false_2. intros [_ [?|(b' & Hb' & ?)]]%Hlast; [done|congruence].
        + apply bool_decide_eq_true_2. apply Hlast. eauto. }
    intros r s' [-> ->]. cbn [last_hot upto].
    assert (Hfin : put k (if bool_decide (last_hot L = x)
                          then with_last_hot x (with_num_hot (num_hot L1 + 1) L1)
                          else with_num_hot (num_hot L1 + 1) L1) s = put k (upto (x + 1) l L) s).
    { f_equal. unfold upto. rewrite (Hs (last_hot L)), Hlen.
      destruct (bool_decide (last_hot L = x)); unfold with_last_hot, with_num_hot, L1;
        cbn [num_nodes head tail num_hot last_hot track_hot]; rewrite ?Hfx, (wrap_small 32) by lia;
        f_equal; lia. }
    specialize (Hsel (last_hot L)). destruct (bool_decide (last_hot L = x)).
    + cbn [andb] in Hsel. unfold L1 at 1. rewrite Hsel.
      apply wp_bind. apply wp_update_put. apply wp_ret. split; [done|exact Hfin].
    + apply wp_ret. split; [done|exact Hfin].
  - apply wp_ret. split; [done|]. f_equal. unfold upto, L1.
    assert (Hxn : x ∉ bal_hot (track_hot L) l) by (symmetry in Hh; by apply bool_decide_eq_false_1 in Hh).
    rewrite (below_notin _ _ Hxn), (sel_ne x (last_hot L)); [done|].
    intros [? _]%Hlast. done.
Qed.

(** ** Initialisation *)

Definition is_free (p : Z) : bool := bool_decide (part_id p = PARTITION_FREELIST).

(** The list headers [ocf_lru_init] resets, for the indices [idx]. *)
Definition inits (p : Z) (idx : list Z) (k : list_key) : Prop :=
  k.1.1 = p /\ k.1.2 ∈ idx /\ (is_free p = true -> k.2 = true).

#[local] Instance inits_dec p idx k : Decision (inits p idx k).
Proof. unfold inits. apply _. Defined.

Definition same_lines (s s' : lru_cache) : Prop := nodes s' = nodes s /\ dirty s' = dirty s.

Lemma reset_list_lookup k b s k' :
  lists (LruCache (nodes s) (<[k := lru_init_list b]> (lists s)) (curr_size s) (evict_counter s) (dirty s)) !! k' =
  if decide (k' = k) then Some (lru_init_list b) else lists s !! k'.
Proof. cbn. rewrite lookup_insert. repeat case_decide; congruence. Qed.

Lemma ocf_lru_init_wp p s :
  (forall i c, i ∈ lru_lists_idx -> is_Some (lists s !! (p, i, c))) ->
  wp (ocf_lru_init p) (fun _ s' => same_lines s s' /\ curr_size s' = <[p := 0]> (curr_size s) /\
    forall k, lists s' !! k = if decide (inits p lru_lists_idx k)
      then Some (lru_init_list (negb (is_free p))) else lists s !! k) s.
Proof.
  intros Hl. unfold ocf_lru_init. apply wp_bind. eapply wp_mono.
  { apply (wp_for _ _ (fun pre s' => same_lines s s' /\ curr_size s' = curr_size s /\
      forall k, lists s' !! k = if decide (inits p pre k)
        then Some (lru_init_list (negb (is_free p))) else lists s !! k)).
    { split; [done|]. split; [done|]. intros k. rewrite decide_False; [done|].
      by intros (_ & ?%not_elem_of_nil & _). }
    intros pre i post s' El (Hsl & Hcs & HI).
    assert (Hi : i ∈ lru_lists_idx) by (rewrite El; set_solver).
    assert (Hex : forall c, is_Some (lists s' !! (p, i, c))).
    { intros c. rewrite HI. case_decide; [eauto|by apply Hl]. }
    assert (Hget : forall c (Q : list_key -> lru_cache -> Prop),
      Q (p, i, if is_free p then true else c) s' -> wp (ocf_lru_get_list p i c) Q s').
    { intros c Q HQ. unfold ocf_lru_get_list. fold (is_free p).
      destruct (Hex (if is_free p then true else c)) as [L HL].
      apply wp_bind. eapply wp_load; [exact HL|]. by apply wp_ret. }
    apply wp_bind. apply Hget. apply wp_bind. apply Hget. fold (is_free p).
    assert (Hin : forall k, inits p (pre ++ [i]) k <->
      inits p pre k \/ k = (p, i, true) \/ (is_free p = false /\ k = (p, i, false))).
    { intros [[q j] c]. unfold inits. cbn. rewrite elem_of_app, list_elem_of_singleton.
      destruct (is_free p), c; naive_solver. }
    destruct (is_free p) eqn:Ef.
    - apply wp_modify. split; [done|]. split; [done|]. intros k. rewrite reset_list_lookup, HI.
      pose proof (Hin k). repeat case_decide; naive_solver.
    - apply wp_bind. apply wp_modify. apply wp_modify. split; [done|]. split; [done|]. intros k.
      cbn [nodes lists curr_size evict_counter dirty].
      pose proof (Hin k). rewrite !lookup_insert, HI. repeat case_decide; naive_solver. }
  intros [] s' (Hsl & Hcs & HI). apply wp_bind. apply wp_modify. apply wp_modify.
  split; [exact Hsl|]. split; [cbn; by rewrite Hcs|exact HI].
Qed.

Lemma init_all_wp (ps : list Z) s :
  (forall p i c, p ∈ ps -> i ∈ lru_lists_idx -> is_Some (lists s !! (p, i, c))) ->
  wp (m_for ps ocf_lru_init) (fun _ s' => same_lines s s' /\
    (forall p, p ∈ ps -> curr_size s' !! p = Some 0) /\
    (forall k, k.1.1 ∉ ps -> lists s' !! k = lists s !! k) /\
    (forall k, k.1.1 ∈ ps -> inits k.1.1 lru_lists_idx k ->
       lists s' !! k = Some (lru_init_list (negb (is_free k.1.1))))) s.
Proof.
  intros Hl. eapply wp_mono.
  { apply (wp_for _ _ (fun pre s' => same_lines s s' /\
      (forall p, p ∈ pre -> curr_size s' !! p = Some 0) /\
      (forall k, is_Some (lists s !! k) -> is_Some (lists s' !! k)) /\
      (forall k, k.1.1 ∉ pre -> lists s' !! k = lists s !! k) /\
      (forall k, k.1.1 ∈ pre -> inits k.1.1 lru_lists_idx k ->
         lists s' !! k = Some (lru_init_list (negb (is_free k.1.1)))))).
    { split; [done|]. split; [by intros p ?%not_elem_of_nil|]. split; [done|]. split; [done|].
      by intros k ?%not_elem_of_nil. }
    intros pre p post s' El ([Hn Hd] & Hc & Hs & Ho & Hi).
    assert (Hp : p ∈ ps) by (rewrite El; set_solver).
    eapply wp_mono; [apply ocf_lru_init_wp; intros i c Hii; apply Hs, Hl; done|].
    intros _ s2 ([Hn2 Hd2] & Hc2 & HI).
    split; [split; congruence|]. split.
    { intros q Hq. rewrite Hc2, lookup_insert. case_decide; [done|]. apply Hc.
      apply elem_of_app in Hq as [?|?%list_elem_of_singleton]; [done|congruence]. }
    split; [intros k Hk; rewrite HI; case_decide; eauto|].
    split; intros k; rewrite elem_of_app, list_elem_of_singleton, HI.
    - intros Hk. rewrite decide_False; [apply Ho; tauto|]. intros [? _]. tauto.
    - intros Hk Hik. case_decide as E; [by destruct E as [-> _]|].
      apply Hi; [|done]. destruct Hk as [?|Hk]; [done|]. by rewrite <- Hk in E. }
  cbn beta. intros [] s' (? & ? & _ & ? & ?). done.
Qed.

(** ** The whole device *)

Definition user_parts_idx : list Z := Z.of_nat <$> seq 0 (Z.to_nat OCF_USER_IO_CLASS_MAX).

Lemma user_parts_idx_in p : p ∈ user_parts_idx <-> 0 <= p < OCF_USER_IO_CLASS_MAX.
Proof.
  unfold user_parts_idx, OCF_USER_IO_CLASS_MAX. rewrite list_elem_of_fmap. split.
  - intros (n & -> & Hn%elem_of_seq). lia.
  - intros Hp. exists (Z.to_nat p). rewrite elem_of_seq. lia.
Qed.

(** Partitions and list headers that survive a restart. *)
Definition restored_part (p : Z) : Prop := p ∈ user_parts_idx \/ p = PARTITION_FREELIST.
Definition restored (k : list_key) : Prop :=
  restored_part k.1.1 /\ inits k.1.1 lru_lists_idx k.

Definition free_info (li : line_info) : bool :=
  negb (valid_any li) || bool_decide (core_id li = OCF_CORE_NUM).

Lemma restored_not_detached p : restored_part p -> p <> PARTITION_FREE_DETACHED.
Proof.
  unfold PARTITION_FREE_DETACHED, PARTITION_FREELIST. intros [Hp%user_parts_idx_in| ->]; [|done].
  unfold OCF_USER_IO_CLASS_MAX in *. lia.
Qed.

Lemma restored_line_key x d p : restored_part p -> restored (line_key x d p).
Proof.
  intros Hp. split; [done|]. split; [done|]. split; [apply lru_list_index_in|].
  unfold line_key, is_free. cbn. by intros ->.
Qed.

Lemma part_size_ext σ σ' p : (forall k, σ k = σ' k) -> part_size σ p = part_size σ' p.
Proof.
  intros He. unfold part_size. generalize lru_lists_idx. induction l as [|i l IH]; [done|].
  cbn [sizes foldr]. fold (sizes σ p l) (sizes σ' p l). unfold pair_size. by rewrite !He, IH.
Qed.

Lemma below_length n l : (length (below n l) <= length l)%nat.
Proof. apply length_filter. Qed.

Lemma sizes_mono σ σ' p l :
  (forall k, (length (σ k) <= length (σ' k))%nat) -> 0 <= sizes σ p l <= sizes σ' p l.
Proof.
  intros He. induction l as [|i l IH]; [done|]. cbn [sizes foldr].
  fold (sizes σ p l) (sizes σ' p l). unfold pair_size.
  pose proof (He (p, i, true)). pose proof (He (p, i, false)). lia.
Qed.

Section Roundtrip.
Context (info : Z -> line_info) (entries : Z) (s0 : lru_cache) (σ : listing).
Context (Hinv : part_inv s0 σ) (Hent : 0 <= entries <= end_marker).
Context (Hlines : forall x, 0 <= x < entries ->
  metadata_ok (info x) = true /\ core_id (info x) <= OCF_CORE_NUM /\
  exists p d, dirty s0 !! x = Some d /\ x ∈ σ (line_key x d p) /\
    if free_info (info x) then p = PARTITION_FREELIST else p ∈ user_parts_idx).
Context (Hlists : forall k, restored k ->
  exists L, lists s0 !! k = Some L /\ track_hot L = negb (is_free k.1.1)).

(** After the lines below [n]. *)
Record restoring (n : Z) (t : lru_cache) : Prop := {
  rs_lines : same_lines s0 t;
  rs_lists k L : restored k -> lists s0 !! k = Some L -> lists t !! k = Some (upto n (σ k) L);
  rs_size p : restored_part p -> curr_size t !! p = Some (part_size (fun k => below n (σ k)) p)
}.

Lemma below_size n p i c q :
  i ∈ lru_lists_idx -> n ∈ σ (p, i, c) ->
  part_size (fun k => below (n + 1) (σ k)) q =
  part_size (fun k => below n (σ k)) q + (if decide (p = q) then 1 else 0).
Proof.
  intros Hi Hn. pose proof (pi_rep _ _ Hinv) as HR.
  rewrite (part_size_ext _ (upd (p, i, c) (below (n + 1) (σ (p, i, c))) (fun k => below n (σ k)))).
  - rewrite part_size_upd by done. destruct (lists_rep_is_Some _ _ _ _ HR Hn) as [L HL].
    rewrite below_in by (done || by eapply lru_seq_nodup, (rep_list _ _ HR)).
    case_decide; lia.
  - intros k. unfold upd. case_decide as E; [by subst|]. apply below_notin.
    intros Hk. apply E. by apply (rep_disj _ _ HR _ _ n).
Qed.

Lemma size_small n p : 0 <= part_size (fun k => below n (σ k)) p < 2 ^ 29.
Proof.
  pose proof (part_size_bound _ _ p (pi_rep _ _ Hinv)).
  pose proof (sizes_mono (fun k => below n (σ k)) σ p lru_lists_idx (fun k => below_length n (σ k))).
  unfold part_size in *. lia.
Qed.

Lemma restore_line_finish n t p d m :
  restoring n t -> 0 <= n < entries -> restored_part p -> n ∈ σ (line_key n d p) ->
  nodes s0 !! n = Some m ->
  wp (_ ← add_curr_size p 1; restore_header n m (line_key n d p))
    (fun r t' => r = 0 /\ restoring (n + 1) t') t.
Proof.
  intros [[Hnd Hdt] Hls Hsz] Hn Hp Hk Hm. pose proof (pi_rep _ _ Hinv) as HR.
  destruct (Hlists _ (restored_line_key n d p Hp)) as (L & HL & Htr).
  pose proof (rep_list _ _ HR _ _ HL) as Hseq.
  apply wp_bind. eapply wp_add_curr_size; [by apply Hsz|]. eapply wp_mono.
  { eapply restore_header_wp; cbn.
    - apply Hls; [by apply restored_line_key|exact HL].
    - rewrite Hnd. exact Hm.
    - by apply (lru_seq_valid_all s0 σ (line_key n d p)).
    - rewrite Hnd. exact Hseq.
    - exact Hk. }
  intros r t' [-> ->]. split; [done|]. split; [by split|..].
  - intros k L' Hkr HL'. cbn. rewrite lookup_insert. case_decide as E.
    + subst k. by replace L' with L by congruence.
    + rewrite (Hls k L' Hkr HL'). f_equal. symmetry. eapply upto_other.
      * by apply (rep_list _ _ HR).
      * lia.
      * intros Hnk. apply E. by apply (rep_disj _ _ HR _ _ n).
  - intros q Hq. cbn. pose proof (size_small n p). unfold line_key in Hk.
    rewrite (below_size n p _ _ q (lru_list_index_in n) Hk).
    destruct (decide (p = q)) as [<-|E].
    + rewrite lookup_insert_eq, s32_small by lia. done.
    + rewrite lookup_insert_ne, (Hsz q Hq) by done. f_equal. lia.
Qed.

Lemma restore_cline_wp n t :
  restoring n t -> 0 <= n < entries ->
  wp (ocf_lru_restore_cline info n) (fun r t' => r = 0 /\ restoring (n + 1) t') t.
Proof.
  intros HI Hn. pose proof HI as [[Hnd Hdt] Hls Hsz]. pose proof (pi_rep _ _ Hinv) as HR.
  destruct (Hlines n Hn) as (Hok & Hcore & p & d & Hd & Hk & Hfree).
  assert (Hp : restored_part p) by (destruct (free_info (info n)); [by right|by left]).
  destruct (lists_rep_node _ _ _ _ HR Hk) as [m Hm].
  destruct (pi_placed _ _ Hinv _ _ Hk) as (m' & d' & p' & Hm' & _ & Hpm & Heq).
  assert (m' = m) as -> by congruence. apply line_key_inj in Heq as <-.
  destruct (Hlists _ (restored_line_key n d p Hp)) as (L & HL & Htr).
  pose proof (line_in_list_spec _ _ _ _ _ (rep_list _ _ HR _ _ HL) Hk Hm) as [_ _ Hhot _].
  pose proof (restore_line_finish n t p d m HI Hn Hp Hk Hm) as Hfin.
  unfold ocf_lru_restore_cline. rewrite Hok, (bool_decide_eq_false_2 (_ > _)) by lia. cbn [negb orb].
  apply wp_bind. eapply wp_node_of; [by rewrite Hnd|].
  fold (free_info (info n)). destruct (free_info (info n)).
  - subst p.
    assert (Hcold : hot m = false).
    { rewrite Hhot, Htr. cbn. apply bool_decide_eq_false_2, not_elem_of_nil. }
    do 2 apply wp_bind. replace true with (negb (negb true)) at 1 by done.
    apply (wp_get_list_line t n (negb true) PARTITION_FREELIST).
    { eexists. exact (Hls _ L (restored_line_key n d _ Hp) HL). }
    apply wp_bind. revert Hfin. unfold wp at 1. unfold mbind at 1, M_bind at 1.
    unfold wp at 1. destruct (add_curr_size PARTITION_FREELIST 1 t) as [[[] t1]|]; [|done].
    intros Hfin. rewrite Hcold. apply wp_ret. exact Hfin.
  - apply user_parts_idx_in in Hfree as Hpr.
    assert (Hid : partition_id m = p) by (rewrite Hpm, part_id_user; lia).
    do 2 apply wp_bind. unfold ocf_metadata_get_partition_id. apply wp_bind.
    eapply wp_node_of; [by rewrite Hnd|]. apply wp_ret. rewrite Hid.
    rewrite (bool_decide_eq_false_2 (_ > _)) by lia.
    apply wp_bind. eapply wp_test_dirty; [by rewrite Hdt|]. apply wp_bind.
    apply wp_get_list_line.
    { eexists. exact (Hls _ L (restored_line_key n d _ Hp) HL). }
    apply wp_bind. revert Hfin. unfold wp at 1. unfold mbind at 1, M_bind at 1.
    unfold wp at 1. destruct (add_curr_size p 1 t) as [[[] t1]|]; [|done].
    intros Hfin. apply wp_ret. exact Hfin.
Qed.

Lemma restore_clines_wp n k t :
  restoring (Z.of_nat n) t -> Z.of_nat (n + k) = entries ->
  wp (restore_clines info (Z.of_nat <$> seq n k)) (fun r t' => r = 0 /\ restoring entries t') t.
Proof.
  revert n t. induction k as [|k IH]; intros n t HI Hk.
  - apply wp_ret. split; [done|]. by rewrite <- Hk, Nat.add_0_r.
  - cbn [seq fmap list_fmap restore_clines]. apply wp_bind. eapply wp_mono.
    { apply restore_cline_wp; [exact HI|lia]. }
    intros r t' [-> HI']. cbn. apply IH; [|lia].
    by replace (Z.of_nat (S n)) with (Z.of_nat n + 1) by lia.
Qed.
End Roundtrip.

(** C17. Restart round trip ([ocf_lru_restore_runtime]): let a running cache
    have its lines on lists that agree with their metadata, none of them
    detached.  Whatever the list headers and counters are after a restart, as
    long as the nodes and the dirty bits were kept, restoring succeeds and
    rebuilds every header (length, head, tail, number of hot lines, last hot
    line) and every occupancy counter exactly. *)
Theorem lru_restore_roundtrip info entries s0 σ t :
  part_inv s0 σ -> 0 <= entries <= end_marker ->
  (forall k x, x ∈ σ k -> 0 <= x < entries) ->
  (forall x, 0 <= x < entries ->
    metadata_ok (info x) = true /\ core_id (info x) <= OCF_CORE_NUM /\
    exists p d, dirty s0 !! x = Some d /\ x ∈ σ (line_key x d p) /\
      if free_info (info x) then p = PARTITION_FREELIST else p ∈ user_parts_idx) ->
  (forall k, restored k -> exists L, lists s0 !! k = Some L /\ track_hot L = negb (is_free k.1.1)) ->
  nodes t = nodes s0 -> dirty t = dirty s0 ->
  (forall p i c, restored_part p \/ p = PARTITION_FREE_DETACHED -> i ∈ lru_lists_idx ->
     is_Some (lists t !! (p, i, c))) ->
  wp (ocf_lru_restore_runtime info entries) (fun r t' =>
    r = 0 /\ nodes t' = nodes s0 /\ dirty t' = dirty s0 /\
    (forall k, restored k -> lists t' !! k = lists s0 !! k) /\
    (forall p, restored_part p -> curr_size t' !! p = Some (part_size σ p))) t.
Proof.
  intros Hinv Hent Hin Hlines Hlists Hnd Hdt Hlt. pose proof (pi_rep _ _ Hinv) as HR.
  unfold ocf_lru_restore_runtime. apply wp_bind. eapply wp_mono.
  { apply init_all_wp. intros p i c Hp Hi. apply Hlt; [|done]. left. by left. }
  cbn beta. intros [] t1 ([Hn1 Hd1] & Hc1 & Ho1 & Hi1). apply wp_bind. eapply wp_mono.
  { apply ocf_lru_init_wp. intros i c Hi. rewrite Ho1; [apply Hlt; [left; by right|done]|].
    rewrite user_parts_idx_in. cbn.
    unfold PARTITION_FREE_DETACHED, PARTITION_FREELIST, OCF_USER_IO_CLASS_MAX. lia. }
  cbn beta. intros [] t2 ([Hn2 Hd2] & Hc2 & Hi2). apply wp_bind. eapply wp_mono.
  { apply ocf_lru_init_wp. intros i c Hi. rewrite Hi2. case_decide; [eauto|].
    rewrite Ho1; [apply Hlt; [by right|done]|]. rewrite user_parts_idx_in. cbn.
    unfold PARTITION_FREE_DETACHED, PARTITION_FREELIST, OCF_USER_IO_CLASS_MAX. lia. }
  cbn beta. intros [] t3 ([Hn3 Hd3] & Hc3 & Hi3).
  assert (Hrs : restoring s0 σ 0 t3).
  { split; [split; congruence| |].
    - intros k L Hk HL. destruct Hk as [Hk Hik].
      pose proof (restored_not_detached _ Hk) as Hnot.
      erewrite upto_zero by (by apply (rep_list _ _ HR)).
      destruct (Hlists k) as (L' & HL' & Htr); [done|]. assert (L' = L) as -> by congruence. rewrite Htr.
      rewrite Hi3, decide_False by (intros [? _]; done). rewrite Hi2. case_decide as E.
      + by destruct E as [-> _].
      + destruct Hk as [Hk|Hk]; [by apply Hi1|]. exfalso. apply E. by rewrite <- Hk.
    - intros p Hp. pose proof (restored_not_detached _ Hp).
      assert (Hz : part_size (fun k => below 0 (σ k)) p = 0).
      { rewrite (part_size_ext _ (fun _ => [])); [done|]. intros k. apply below_none.
        intros x Hx. by apply (Hin k x). }
      rewrite Hz, Hc3, lookup_insert_ne, Hc2, lookup_insert by congruence.
      case_decide; [done|]. destruct Hp; [by apply Hc1|congruence]. }
  eapply wp_mono.
  { apply (restore_clines_wp info entries s0 σ Hinv Hent Hlines Hlists 0 (Z.to_nat entries)); [done|lia]. }
  cbn beta. intros r t' [-> [[Hn4 Hd4] Hl4 Hc4]].
  split; [done|]. split; [done|]. split; [done|]. split.
  - intros k Hk. destruct (Hlists k Hk) as (L & HL & _). rewrite (Hl4 k L Hk HL), HL. f_equal.
    eapply upto_full; [by apply (rep_list _ _ HR)|lia|]. intros x Hx. by apply (Hin k x).
  - intros p Hp. rewrite (Hc4 p Hp). f_equal. apply part_size_ext. intros k. apply below_all.
    intros x Hx. by apply (Hin k x).
Qed.

Lemma sample_lists_all (k : list_key) :
  restored_part k.1.1 \/ k.1.1 = PARTITION_FREE_DETACHED -> k.1.2 ∈ lru_lists_idx ->
  sample_lists !! k = Some (lru_init_list (negb (is_free k.1.1))).
Proof.
  intros Hp Hi. assert (Hs : is_Some (sample_lists !! k)); [destruct k as [[p i] c]; cbn in Hp, Hi|].
  - assert (Hin : p ∈ user_parts_idx ++ [PARTITION_FREELIST; PARTITION_FREE_DETACHED]).
    { apply elem_of_app. destruct Hp as [[?| ->]| ->]; [by left|right; left|right; right; left]. }
    assert (Hf : Forall (fun p => Forall (fun i => Forall (fun c => is_Some (sample_lists !! (p, i, c)))
              [true; false]) lru_lists_idx) (user_parts_idx ++ [PARTITION_FREELIST; PARTITION_FREE_DETACHED]))
      by by_compute.
    rewrite Forall_forall in Hf. specialize (Hf p Hin). rewrite Forall_forall in Hf.
    specialize (Hf i Hi). rewrite Forall_forall in Hf. apply Hf. destruct c; [left|right; left].
  - destruct Hs as [L HL]. rewrite HL. by rewrite (sample_lists_init _ L HL).
Qed.

#[local] Opaque sample_lists.

Lemma lru_restore_roundtrip_witness :
  exists s t t', lists t !! (PARTITION_FREELIST, 0, true) = Some (lru_init_list false) /\
    ocf_lru_restore_runtime (fun _ => LineInfo OCF_CORE_NUM true false) 1 t = Some (0, t') /\
    lists t' !! (PARTITION_FREELIST, 0, true) = lists s !! (PARTITION_FREELIST, 0, true).
Proof.
  pose proof sample_parts as [_ PF].
  destruct (sample_inv PARTITION_FREELIST PF) as (s & σ & HI & Hs & H0 & Hz & m & Hm).
  set (t := LruCache (nodes s) sample_lists ∅ ∅ (dirty s)).
  assert (Hkey : restored (PARTITION_FREELIST, 0, true)).
  { split; [by right|]. split; [done|]. split; [apply (lru_list_index_in 0)|done]. }
  assert (Hw := lru_restore_roundtrip (fun _ => LineInfo OCF_CORE_NUM true false) 1 s σ t HI).
  rewrite wp_run in Hw. destruct Hw as (r & t' & Hr & -> & _ & _ & Hl & Hc).
  - unfold end_marker. lia.
  - intros k x Hx. rewrite (Hz k x Hx). lia.
  - intros x Hx. assert (x = 0) as -> by lia. split; [done|]. split; [done|].
    exists PARTITION_FREELIST, false. split; [by rewrite (same_dirty _ _ Hs)|]. split; [exact H0|reflexivity].
  - intros k [Hp (_ & Hi & _)]. pose proof (sample_lists_all k (or_introl Hp) Hi) as Hall.
    assert (Ht : track_hot <$> lists s !! k = Some (negb (is_free k.1.1))).
    { rewrite (same_lists _ _ Hs k). exact (f_equal (fmap track_hot) Hall). }
    destruct (lists s !! k) as [L|]; [|done]. exists L. split; [done|]. by injection Ht.
  - reflexivity.
  - reflexivity.
  - intros p i c Hp Hi. eexists. exact (sample_lists_all (p, i, c) Hp Hi).
  - exists s, t, t'. split; [|split; [exact Hr|by apply Hl]].
    exact (sample_lists_all (PARTITION_FREELIST, 0, true) (or_introl (or_intror eq_refl)) (lru_list_index_in 0)).
Defined.
