(* ===== verification/Collision.v ===== *)
(** * The mapping from core lines to cache lines

    [src/metadata/metadata_collision.c], [metadata_core.c], the hash table of
    [metadata.c], and the lookup of [src/engine/engine_common.c].  A hash
    table maps every bucket to the first cache line of a collision list; the
    lists are threaded through the cache lines, and the number of cache
    lines serves as the end marker. *)

From S2P Require Import Prelude Lru.

Definition OCF_CORE_ID_BITS : Z := 14.
Definition OCF_CORE_LINE_BITS : Z := 46.
Definition OCF_CORE_NUM : Z := 4096.

Record ocf_metadata_list_info := ListInfo { next_col : Z; prev_col : Z }.
(** The mapping part of [struct ocf_metadata_map]. *)
Record core_info := CoreInfo { core_id : Z; core_line : Z }.

#[export] Instance core_info_eq_dec : EqDecision core_info.
Proof. solve_decision. Defined.

#[export] Instance core_info_countable : Countable core_info :=
  inj_countable' (fun ci => (core_id ci, core_line ci)) (fun p => CoreInfo p.1 p.2)
    ltac:(by intros []).

Record map_state := MapState {
  collision_table_entries : Z;
  hash_table_entries : Z;
  hash_table : gmap Z Z;
  list_infos : gmap Z ocf_metadata_list_info;
  core_infos : gmap Z core_info
}.

Definition CM := Prelude.M map_state.

Definition put_info (line : Z) (i : ocf_metadata_list_info) (s : map_state) : map_state :=
  MapState (collision_table_entries s) (hash_table_entries s) (hash_table s)
    (<[line := i]> (list_infos s)) (core_infos s).

Definition ocf_metadata_list_info_set (next prev : Z) (_ : ocf_metadata_list_info) :=
  ListInfo (fld next) (fld prev).
Definition ocf_metadata_list_info_set_next (next : Z) (i : ocf_metadata_list_info) :=
  ListInfo (fld next) (prev_col i).
Definition ocf_metadata_list_info_set_prev (prev : Z) (i : ocf_metadata_list_info) :=
  ListInfo (next_col i) (fld prev).

Definition list_info (line : Z) : CM ocf_metadata_list_info := load (fun s => list_infos s !! line).

Definition ocf_metadata_set_collision_info (line next prev : Z) : CM unit :=
  info ← list_info line; modify (put_info line (ocf_metadata_list_info_set next prev info)).
Definition ocf_metadata_set_collision_next (line next : Z) : CM unit :=
  info ← list_info line; modify (put_info line (ocf_metadata_list_info_set_next next info)).
Definition ocf_metadata_set_collision_prev (line prev : Z) : CM unit :=
  info ← list_info line; modify (put_info line (ocf_metadata_list_info_set_prev prev info)).

(** The pair [(next, prev)]. *)
Definition ocf_metadata_get_collision_info (line : Z) : CM (Z * Z) :=
  info ← list_info line; mret (next_col info, prev_col info).
Definition ocf_metadata_get_collision_next (line : Z) : CM Z :=
  info ← ocf_metadata_get_collision_info line; mret info.1.
Definition ocf_metadata_get_collision_prev (line : Z) : CM Z :=
  info ← ocf_metadata_get_collision_info line; mret info.2.

Definition ocf_metadata_get_core_info (line : Z) : CM core_info := load (fun s => core_infos s !! line).
Definition ocf_metadata_get_core_id (line : Z) : CM Z :=
  collision ← ocf_metadata_get_core_info line; mret (core_id collision).
Definition ocf_metadata_set_core_info (line core core_line : Z) : CM unit :=
  _ ← ocf_metadata_get_core_info line;
  modify (fun s => MapState (collision_table_entries s) (hash_table_entries s) (hash_table s)
    (list_infos s)
    (<[line := CoreInfo (wrap OCF_CORE_ID_BITS core) (wrap OCF_CORE_LINE_BITS core_line)]> (core_infos s))).

Definition ocf_metadata_get_hash (index : Z) : CM Z := load (fun s => hash_table s !! index).
Definition ocf_metadata_set_hash (index line : Z) : CM unit :=
  _ ← ocf_metadata_get_hash index;
  s ← get;
  _ ← bug_on (bool_decide (line > collision_table_entries s));
  modify (fun s => MapState (collision_table_entries s) (hash_table_entries s)
    (<[index := fld line]> (hash_table s)) (list_infos s) (core_infos s)).

Definition ocf_metadata_hash_func (entries core_line_num core : Z) : Z :=
  u32 (u64 (core_line_num + u32 (core * (entries / 32))) mod entries).

Definition ocf_metadata_hash_next (entries hash : Z) : Z :=
  let hash := u32 (hash + 1) in
  if bool_decide (hash < entries) then hash else 0.

Definition ocf_metadata_add_to_collision (core core_line hash cache_line : Z) : CM unit :=
  prev_cache_line ← ocf_metadata_get_hash hash;
  s ← get;
  let line_entries := collision_table_entries s in
  let hash_entries := hash_table_entries s in
  _ ← bug_on (negb (bool_decide (hash < hash_entries)));
  _ ← bug_on (negb (bool_decide (cache_line < line_entries)));
  _ ← ocf_metadata_set_core_info cache_line core core_line;
  _ ← ocf_metadata_set_collision_info cache_line prev_cache_line line_entries;
  _ ← when (bool_decide (prev_cache_line <> line_entries))
        (ocf_metadata_set_collision_prev prev_cache_line cache_line);
  ocf_metadata_set_hash hash cache_line.

Definition ULLONG_MAX : Z := 2 ^ 64 - 1.

Definition ocf_metadata_remove_from_collision (line : Z) : CM unit :=
  s ← get;
  let line_entries := collision_table_entries s in
  let hash_entries := hash_table_entries s in
  _ ← bug_on (negb (bool_decide (line < line_entries)));
  info ← ocf_metadata_get_collision_info line;
  let next_line := info.1 in
  let prev_line := info.2 in
  _ ← when (bool_decide (prev_line <> line_entries))
        (ocf_metadata_set_collision_next prev_line next_line);
  _ ← when (bool_decide (next_line <> line_entries))
        (ocf_metadata_set_collision_prev next_line prev_line);
  ci ← ocf_metadata_get_core_info line;
  let hash_father := ocf_metadata_hash_func hash_entries (core_line ci) (core_id ci) in
  _ ← bug_on (negb (bool_decide (hash_father < hash_entries)));
  first ← ocf_metadata_get_hash hash_father;
  _ ← when (bool_decide (first = line)) (ocf_metadata_set_hash hash_father next_line);
  _ ← ocf_metadata_set_collision_info line line_entries line_entries;
  ocf_metadata_set_core_info line OCF_CORE_NUM ULLONG_MAX.

(** [ocf_metadata_remove_cache_line]; the partition id it reads is not used. *)
Definition ocf_metadata_remove_cache_line (line : Z) : CM unit :=
  ocf_metadata_remove_from_collision line.

(** ** Lookup *)

Inductive lookup_status :=
| LOOKUP_HIT
| LOOKUP_MISS
| LOOKUP_HIT_INVALID
| LOOKUP_REMAPPED.

#[export] Instance lookup_status_eq_dec : EqDecision lookup_status.
Proof. solve_decision. Defined.

(** The mapping fields of [struct ocf_map_info]. *)
Record ocf_map_info := MapInfo {
  mi_hash : Z;
  mi_coll_idx : Z;
  mi_core_line : Z;
  mi_core_id : Z;
  mi_status : lookup_status
}.

(** The walk along a collision list, with fuel for its steps. *)
Fixpoint lookup_walk (fuel : nat) (core cline line : Z) : CM (option Z) :=
  match fuel with
  | O => env_bug
  | S fuel =>
    s ← get;
    if bool_decide (line = collision_table_entries s) then mret None
    else
      curr ← ocf_metadata_get_core_info line;
      if bool_decide (core = core_id curr) && bool_decide (core_line curr = cline) then mret (Some line)
      else
        next ← ocf_metadata_get_collision_next line;
        lookup_walk fuel core cline next
  end.

Definition ocf_engine_lookup_map_entry (fuel : nat) (core cline : Z) : CM ocf_map_info :=
  s ← get;
  let hash := ocf_metadata_hash_func (hash_table_entries s) cline core in
  line ← ocf_metadata_get_hash hash;
  found ← lookup_walk fuel core cline line;
  mret (match found with
        | Some line => MapInfo hash line cline core LOOKUP_HIT
        | None => MapInfo hash (collision_table_entries s) cline core LOOKUP_MISS
        end).

Definition ocf_metadata_is_hit_no_lock (fuel : nat) (core cline : Z) : CM bool :=
  s ← get;
  line ← ocf_metadata_get_hash (ocf_metadata_hash_func (hash_table_entries s) cline core);
  found ← lookup_walk fuel core cline line;
  mret (match found with Some _ => true | None => false end).

(** [_ocf_engine_check_map_entry] *)
Definition check_map_entry (entry : ocf_map_info) (core : Z) : CM Z :=
  if decide (mi_status entry = LOOKUP_MISS) then mret 0
  else
    s ← get;
    _ ← bug_on (bool_decide (mi_coll_idx entry >= collision_table_entries s));
    ci ← ocf_metadata_get_core_info (mi_coll_idx entry);
    mret (if bool_decide (core = core_id ci) && bool_decide (core_line ci = mi_core_line entry) then 0 else -1).
