(* ===== verification/CollisionProofs.v ===== *)
(** * The mapping refines a finite map

    [mapping s m]: the collision lists of [s] are well formed and [m] is
    the finite map from (core, core line) to cache lines they hold.  Adding,
    removing and looking up are [insert], [delete] and [lookup] on [m]. *)

From S2P Require Import Prelude Links Lru Collision.

#[export] Instance list_info_link_node :
  LinkNode prev_col next_col ocf_metadata_list_info_set_prev ocf_metadata_list_info_set_next fld.
Proof. by split. Qed.

Abbreviation chain := (Links.link prev_col next_col).
Abbreviation chain_set_prev :=
  (Links.link_set_prev ocf_metadata_list_info_set_prev ocf_metadata_list_info_set_next fld).
Abbreviation chain_remove :=
  (Links.link_remove ocf_metadata_list_info_set_prev ocf_metadata_list_info_set_next fld).

Definition bucket_map : Type := Z -> list Z.
Definition bupd (h : Z) (l : list Z) (β : bucket_map) : bucket_map := fun h' => if decide (h' = h) then l else β h'.

Lemma bupd_eq h l β : bupd h l β h = l.
Proof. unfold bupd. by rewrite decide_True. Qed.
Lemma bupd_ne h h' l β : h' <> h -> bupd h l β h' = β h'.
Proof. intros. unfold bupd. by rewrite decide_False. Qed.

(** The bucket of a pair. *)
Definition bucket_of (s : map_state) (ci : core_info) : Z :=
  ocf_metadata_hash_func (hash_table_entries s) (core_line ci) (core_id ci).

Record wf_buckets (s : map_state) (β : bucket_map) : Prop := {
  wb_entries : 0 <= collision_table_entries s < 2 ^ 29;
  wb_hash : 0 < hash_table_entries s < 2 ^ 32;
  wb_head h : 0 <= h < hash_table_entries s ->
    hash_table s !! h = Some (hdd (collision_table_entries s) (β h));
  wb_out h : ~ 0 <= h < hash_table_entries s -> β h = [];
  wb_chain h : chain (list_infos s) (collision_table_entries s) (β h) (collision_table_entries s);
  wb_nodup h : NoDup (β h);
  wb_disj h h' x : x ∈ β h -> x ∈ β h' -> h = h';
  wb_line h x : x ∈ β h -> 0 <= x < collision_table_entries s;
  wb_bucket h x : x ∈ β h -> exists ci, core_infos s !! x = Some ci /\ bucket_of s ci = h;
  wb_total x : 0 <= x < collision_table_entries s -> is_Some (list_infos s !! x) /\ is_Some (core_infos s !! x)
}.

(** A line is mapped if some bucket holds it. *)
Definition mapped (β : bucket_map) (x : Z) : Prop := exists h, x ∈ β h.

Definition mapping (s : map_state) (β : bucket_map) (m : gmap core_info Z) : Prop :=
  wf_buckets s β /\
  forall ci x, m !! ci = Some x <-> mapped β x /\ core_infos s !! x = Some ci.

(** ** Steps *)

Definition with_infos (f : gmap Z ocf_metadata_list_info -> gmap Z ocf_metadata_list_info) (s : map_state) :=
  MapState (collision_table_entries s) (hash_table_entries s) (hash_table s) (f (list_infos s)) (core_infos s).

Lemma wp_alter_info (line : Z) f s (Q : unit -> map_state -> Prop) :
  is_Some (list_infos s !! line) -> Q tt (with_infos (alter f line) s) ->
  wp (info ← list_info line; modify (put_info line (f info))) Q s.
Proof.
  intros [i Hi] HQ. apply wp_bind. eapply wp_load; [exact Hi|]. apply wp_modify.
  unfold put_info. unfold with_infos in HQ.
  replace (<[line:=f i]> (list_infos s)) with (alter f line (list_infos s)); [done|].
  apply map_eq. intros y. rewrite lookup_alter, lookup_insert. case_decide; [subst; by rewrite Hi|done].
Qed.

Lemma wp_get_info line i s (Q : Z * Z -> map_state -> Prop) :
  list_infos s !! line = Some i -> Q (next_col i, prev_col i) s ->
  wp (ocf_metadata_get_collision_info line) Q s.
Proof. intros Hi HQ. apply wp_bind. eapply wp_load; [exact Hi|]. by apply wp_ret. Qed.

Lemma wp_get_next line i s (Q : Z -> map_state -> Prop) :
  list_infos s !! line = Some i -> Q (next_col i) s -> wp (ocf_metadata_get_collision_next line) Q s.
Proof. intros Hi HQ. apply wp_bind. eapply wp_get_info; [exact Hi|]. by apply wp_ret. Qed.

Lemma wp_set_core line core cl s (Q : unit -> map_state -> Prop) :
  is_Some (core_infos s !! line) ->
  Q tt (MapState (collision_table_entries s) (hash_table_entries s) (hash_table s) (list_infos s)
    (<[line := CoreInfo (wrap OCF_CORE_ID_BITS core) (wrap OCF_CORE_LINE_BITS cl)]> (core_infos s))) ->
  wp (ocf_metadata_set_core_info line core cl) Q s.
Proof. intros [ci Hci] HQ. apply wp_bind. eapply wp_load; [exact Hci|]. by apply wp_modify. Qed.

Lemma wp_set_hash h line s (Q : unit -> map_state -> Prop) :
  is_Some (hash_table s !! h) -> line <= collision_table_entries s ->
  Q tt (MapState (collision_table_entries s) (hash_table_entries s) (<[h := fld line]> (hash_table s))
    (list_infos s) (core_infos s)) ->
  wp (ocf_metadata_set_hash h line) Q s.
Proof.
  intros [x Hx] Hl HQ. apply wp_bind. eapply wp_load; [exact Hx|]. apply wp_bind. apply wp_get.
  apply wp_bind. apply wp_bug_on; [apply bool_decide_eq_false_2; lia|]. by apply wp_modify.
Qed.

Lemma hash_func_range e c l : 0 < e < 2 ^ 32 -> 0 <= ocf_metadata_hash_func e l c < e.
Proof.
  intros He. unfold ocf_metadata_hash_func.
  pose proof (Z.mod_pos_bound (u64 (l + u32 (c * (e / 32)))) e).
  rewrite wrap_small; lia.
Qed.

Lemma fld_line s β h x : wf_buckets s β -> x ∈ β h -> fld x = x.
Proof.
  intros Hw Hx. pose proof (wb_line _ _ Hw h x Hx). pose proof (wb_entries _ _ Hw).
  apply wrap_small. unfold OCF_CACHE_LINE_BITS. lia.
Qed.

Lemma fld_entries s β : wf_buckets s β -> fld (collision_table_entries s) = collision_table_entries s.
Proof. intros Hw. pose proof (wb_entries _ _ Hw). apply wrap_small. unfold OCF_CACHE_LINE_BITS. lia. Qed.

Lemma hdd_entry s β h l :
  wf_buckets s β -> (forall x, x ∈ l -> x ∈ β h) ->
  (hdd (collision_table_entries s) l = collision_table_entries s <-> l = []) /\
  fld (hdd (collision_table_entries s) l) = hdd (collision_table_entries s) l /\
  hdd (collision_table_entries s) l <= collision_table_entries s.
Proof.
  intros Hw Hl. destruct l as [|x l].
  - split; [done|]. split; [by eapply fld_entries|]. cbn. lia.
  - specialize (Hl x ltac:(left)). pose proof (wb_line _ _ Hw h x Hl). cbn.
    split; [split; [lia|done]|]. split; [by eapply fld_line|lia].
Qed.

Lemma lastd_entry s β h l :
  wf_buckets s β -> (forall x, x ∈ l -> x ∈ β h) ->
  (lastd (collision_table_entries s) l = collision_table_entries s <-> l = []) /\
  fld (lastd (collision_table_entries s) l) = lastd (collision_table_entries s) l.
Proof.
  intros Hw Hl. destruct l as [|x l _] using rev_ind.
  - split; [done|]. by eapply fld_entries.
  - rewrite lastd_snoc. specialize (Hl x ltac:(set_solver)). pose proof (wb_line _ _ Hw h x Hl).
    split; [split; [lia|by destruct l]|]. by eapply fld_line.
Qed.

Lemma chain_is_Some s β h x : wf_buckets s β -> x ∈ β h -> is_Some (list_infos s !! x).
Proof. intros Hw Hx. eapply link_dom; [by apply (wb_chain _ _ Hw h)|done]. Qed.

(** Changing one bucket. *)
Lemma wf_change s s' β h l :
  wf_buckets s β -> 0 <= h < hash_table_entries s ->
  collision_table_entries s' = collision_table_entries s ->
  hash_table_entries s' = hash_table_entries s ->
  hash_table s' !! h = Some (hdd (collision_table_entries s) l) ->
  (forall h', h' <> h -> hash_table s' !! h' = hash_table s !! h') ->
  chain (list_infos s') (collision_table_entries s) l (collision_table_entries s) ->
  (forall x h', h' <> h -> x ∈ β h' -> list_infos s' !! x = list_infos s !! x) ->
  NoDup l ->
  (forall x, x ∈ l -> (x ∈ β h \/ ~ mapped β x) /\ 0 <= x < collision_table_entries s /\
     exists ci, core_infos s' !! x = Some ci /\ bucket_of s ci = h) ->
  (forall x h', h' <> h -> x ∈ β h' -> core_infos s' !! x = core_infos s !! x) ->
  (forall x, is_Some (list_infos s !! x) -> is_Some (list_infos s' !! x)) ->
  (forall x, is_Some (core_infos s !! x) -> is_Some (core_infos s' !! x)) ->
  wf_buckets s' (bupd h l β).
Proof.
  intros Hw Hh Ee Eh Hhead Hheads Hch Hinfo Hnd Hl Hcore Hti Htc.
  assert (Hb : forall ci, bucket_of s' ci = bucket_of s ci) by (intros; unfold bucket_of; by rewrite Eh).
  split; rewrite ?Ee, ?Eh.
  - by apply (wb_entries _ _ Hw).
  - by apply (wb_hash _ _ Hw).
  - intros h' Hh'. unfold bupd. case_decide as E; [by subst|]. rewrite Hheads by done.
    by apply (wb_head _ _ Hw).
  - intros h' Hh'. rewrite bupd_ne by (by intros ->). by apply (wb_out _ _ Hw).
  - intros h'. unfold bupd. case_decide as E; [by subst|].
    eapply link_frame; [|by apply (wb_chain _ _ Hw)]. intros x Hx. by apply (Hinfo x h').
  - intros h'. unfold bupd. case_decide as E; [by subst|]. by apply (wb_nodup _ _ Hw).
  - intros h1 h2 x. unfold bupd.
    assert (Hno : forall h', h' <> h -> x ∈ l -> x ∈ β h' -> False).
    { intros h' Hne Hx Hx'. destruct (Hl x Hx) as ([Hin|Hm] & _).
      - apply Hne. by apply (wb_disj _ _ Hw _ _ x).
      - apply Hm. by exists h'. }
    do 2 case_decide; subst; intros H1 H2; try done; [by destruct (Hno h2)|by destruct (Hno h1)|].
    by apply (wb_disj _ _ Hw _ _ x).
  - intros h' x. unfold bupd. case_decide as E; [intros Hx; by apply Hl|]. apply (wb_line _ _ Hw).
  - intros h' x. unfold bupd. case_decide as E; intros Hx.
    + subst. destruct (Hl x Hx) as (_ & _ & ci & ? & ?). exists ci. by rewrite Hb.
    + destruct (wb_bucket _ _ Hw h' x Hx) as (ci & Hci & Hbk). exists ci.
      rewrite Hb, (Hcore x h') by done. done.
  - intros x Hx. destruct (wb_total _ _ Hw x Hx) as [? ?]. auto.
Qed.

Lemma mapping_bupd_in β h l x : mapped (bupd h l β) x <-> x ∈ l \/ exists h', h' <> h /\ x ∈ β h'.
Proof.
  unfold mapped. split.
  - intros [h' Hx]. unfold bupd in Hx. case_decide; [by left|]. right. eauto.
  - intros [Hx|(h' & Hne & Hx)]; [exists h; by rewrite bupd_eq|exists h'; by rewrite bupd_ne].
Qed.

(** ** Adding *)

Definition valid_key (ci : core_info) : Prop := 0 <= core_id ci < 2 ^ 14 /\ 0 <= core_line ci < 2 ^ 46.

Lemma add_front_wp s β m ci x :
  mapping s β m -> ~ mapped β x -> m !! ci = None -> valid_key ci -> 0 <= x < collision_table_entries s ->
  wp (ocf_metadata_add_to_collision (core_id ci) (core_line ci) (bucket_of s ci) x) (fun _ s' =>
    mapping s' (bupd (bucket_of s ci) (x :: β (bucket_of s ci)) β) (<[ci := x]> m) /\
    collision_table_entries s' = collision_table_entries s /\ hash_table_entries s' = hash_table_entries s /\
    core_infos s' = <[x := ci]> (core_infos s)) s.
Proof.
  intros [Hw Hm] Hx Hci [Hk1 Hk2] Hxr. destruct (wb_total _ _ Hw x Hxr) as [[i Hi] Hcx].
  set (h := bucket_of s ci). set (E := collision_table_entries s).
  assert (Hh : 0 <= h < hash_table_entries s) by (apply hash_func_range, (wb_hash _ _ Hw)).
  destruct (hdd_entry s β h (β h) Hw ltac:(done)) as (Hnil & Hfld & Hle). fold E in Hnil, Hfld, Hle.
  assert (Hwc : CoreInfo (wrap OCF_CORE_ID_BITS (core_id ci)) (wrap OCF_CORE_LINE_BITS (core_line ci)) = ci).
  { unfold OCF_CORE_ID_BITS, OCF_CORE_LINE_BITS. rewrite !wrap_small by done. by destruct ci. }
  assert (Hfx : fld x = x).
  { pose proof (wb_entries _ _ Hw). apply wrap_small. unfold OCF_CACHE_LINE_BITS. lia. }
  unfold ocf_metadata_add_to_collision. fold h.
  apply wp_bind. eapply wp_load; [by apply (wb_head _ _ Hw)|]. fold E.
  apply wp_bind. apply wp_get. cbv zeta. fold E.
  apply wp_bind. apply wp_bug_on; [by rewrite bool_decide_eq_true_2 by lia|].
  apply wp_bind. apply wp_bug_on; [by rewrite bool_decide_eq_true_2 by (unfold E; lia)|].
  apply wp_bind. apply wp_set_core; [done|]. rewrite Hwc.
  apply wp_bind. apply wp_alter_info; [cbn; eauto|].
  set (s1 := with_infos _ _). set (p := hdd E (β h)).
  (* the old head *)
  assert (Hold : forall (Q : unit -> map_state -> Prop),
    Q tt (with_infos (fun t => match β h with [] => t
                               | _ :: _ => alter (ocf_metadata_list_info_set_prev x) p t end) s1) ->
    wp (when (bool_decide (p <> E)) (ocf_metadata_set_collision_prev p x)) Q s1).
  { intros Q HQ. apply wp_when; intros Hp.
    - apply bool_decide_eq_true_1 in Hp. destruct (β h) as [|y l] eqn:El; [done|].
      apply wp_alter_info; [|exact HQ]. cbn.
      destruct (decide (x = y)) as [->|Hne]; [exfalso; apply Hx; exists h; rewrite El; left|].
      rewrite lookup_alter_ne by done. eapply (chain_is_Some s β h); [done|]. rewrite El. left.
    - apply bool_decide_eq_false_1 in Hp. destruct (β h) as [|y l] eqn:El; [exact HQ|].
      exfalso. apply Hp. intros He%Hnil. congruence. }
  apply wp_bind. apply Hold. apply wp_set_hash.
  { cbn. rewrite (wb_head _ _ Hw h Hh). eauto. }
  { cbn. unfold E in *. lia. }
  cbn [with_infos s1 collision_table_entries hash_table_entries hash_table list_infos core_infos].
  rewrite Hfx. set (s' := MapState _ _ _ _ _).
  assert (Hin : forall y h', y ∈ β h' -> y <> x) by (intros y h' Hy ->; apply Hx; by exists h').
  assert (Hxl : x ∉ β h) by (intros Hy; by apply (Hin x h)).
  assert (Hinfo : list_infos s' = match β h with [] => alter (ocf_metadata_list_info_set p E) x (list_infos s)
    | y :: _ => alter (ocf_metadata_list_info_set_prev x) y (alter (ocf_metadata_list_info_set p E) x (list_infos s)) end).
  { unfold s', p. cbn. by destruct (β h). }
  assert (Hw' : wf_buckets s' (bupd h (x :: β h) β)).
  { apply (wf_change s); try done.
    - cbn. by rewrite lookup_insert_eq.
    - intros h' Hne. cbn. by rewrite lookup_insert_ne.
    - fold E. cbn [Links.link]. rewrite Hinfo. pose proof (wb_chain _ _ Hw h) as Hc. fold E in Hc.
      split.
      + exists (ListInfo (fld p) (fld E)). split; [|split; [exact (fld_entries s β Hw)|exact Hfld]].
        destruct (β h) as [|y l] eqn:El; [by rewrite lookup_alter_eq, Hi|].
        rewrite lookup_alter_ne by (by apply (Hin y h); rewrite El; left).
        by rewrite lookup_alter_eq, Hi.
      + destruct (β h) as [|y l] eqn:El; [done|].
        assert (Hyl : y ∉ l) by (pose proof (wb_nodup _ _ Hw h) as Hn; rewrite El in Hn; by apply NoDup_cons in Hn as [? _]).
        pose proof (chain_set_prev (alter (ocf_metadata_list_info_set p E) x (list_infos s)) E x y l E Hyl) as H1.
        rewrite Hfx in H1. apply H1. by apply link_alter_out.
    - intros y h' Hne Hy. rewrite Hinfo. destruct (β h) as [|z l] eqn:El.
      + by rewrite lookup_alter_ne by (symmetry; by apply (Hin y h')).
      + assert (z <> y). { intros ->. apply Hne. apply (wb_disj _ _ Hw _ _ y); [done|]. rewrite El. left. }
        rewrite lookup_alter_ne by done. by rewrite lookup_alter_ne by (symmetry; by apply (Hin y h')).
    - apply NoDup_cons. split; [done|]. by apply (wb_nodup _ _ Hw).
    - intros y [->|Hy]%elem_of_cons.
      + split; [by right|]. split; [done|]. exists ci. cbn. by rewrite lookup_insert_eq.
      + split; [by left|]. split; [by apply (wb_line _ _ Hw h)|].
        destruct (wb_bucket _ _ Hw h y Hy) as (cy & Hcy & Hby). exists cy. cbn.
        by rewrite lookup_insert_ne by (symmetry; by apply (Hin y h)).
    - intros y h' Hne Hy. cbn. by rewrite lookup_insert_ne by (symmetry; by apply (Hin y h')).
    - intros y Hy. rewrite Hinfo. destruct (β h); rewrite !lookup_alter_is_Some; done.
    - intros y Hy. cbn. rewrite lookup_insert_is_Some'. by right. }
  split; [split; [exact Hw'|]|done].
  intros cj y. cbn [core_infos s']. rewrite mapping_bupd_in.
  assert (Hmx : forall z, mapped β z -> z <> x) by (intros z [h' Hz]; by apply (Hin z h')).
  destruct (decide (ci = cj)) as [<-|Hne].
  - rewrite lookup_insert_eq. split.
    + intros [= <-]. split; [left; left|by rewrite lookup_insert_eq].
    + intros [Hy Hcy]. destruct (decide (x = y)) as [->|Hxy]; [done|]. exfalso.
      rewrite lookup_insert_ne in Hcy by done.
      assert (mapped β y). { destruct Hy as [[Hy|Hy]%elem_of_cons|(h' & _ & Hy)]; [done|by exists h|by exists h']. }
      assert (m !! ci = Some y) by (by apply Hm). congruence.
  - rewrite lookup_insert_ne, Hm by done. split.
    + intros [[h' Hy] Hcy]. split.
      * destruct (decide (h' = h)) as [->|]; [left; by right|right; eauto].
      * by rewrite lookup_insert_ne by (symmetry; by apply (Hin y h')).
    + intros [Hy Hcy]. destruct (decide (x = y)) as [->|Hxy].
      * rewrite lookup_insert_eq in Hcy. congruence.
      * rewrite lookup_insert_ne in Hcy by done. split; [|done].
        destruct Hy as [[Hy|Hy]%elem_of_cons|(h' & _ & Hy)]; [done|by exists h|by exists h'].
Qed.

Lemma add_wp s β m ci x :
  mapping s β m -> ~ mapped β x -> m !! ci = None -> valid_key ci -> 0 <= x < collision_table_entries s ->
  wp (ocf_metadata_add_to_collision (core_id ci) (core_line ci) (bucket_of s ci) x) (fun _ s' =>
    exists β', mapping s' β' (<[ci := x]> m) /\ (forall y, y <> x -> mapped β' y <-> mapped β y) /\
      collision_table_entries s' = collision_table_entries s /\ hash_table_entries s' = hash_table_entries s /\
      core_infos s' = <[x := ci]> (core_infos s)) s.
Proof.
  intros HM Hx Hci Hk Hxr. eapply wp_mono; [by apply add_front_wp|]. intros [] s' [HM' HR]. eexists. split; [exact HM'|].
  split; [|done]. intros y Hne. rewrite mapping_bupd_in, elem_of_cons. set (h := bucket_of s ci). split.
  - intros [[?|Hy]|(h' & _ & Hy)]; [done|by exists h|by exists h'].
  - intros [h' Hy]. destruct (decide (h' = h)) as [->|]; [left; by right|right; eauto].
Qed.

(** C18. Mapping a core line ([ocf_metadata_add_to_collision] with the bucket
    of the core line): for a cache line and a core line that are both not
    mapped, no assertion fails, the cache line becomes the first of the list of
    that bucket, before the lines that were in it, the lists of all other
    buckets are as before, and the new mapping is the old one with the pair
    added. *)
Theorem collision_add_inserts s β m ci x :
  mapping s β m -> ~ mapped β x -> m !! ci = None -> valid_key ci ->
  0 <= x < collision_table_entries s ->
  wp (ocf_metadata_add_to_collision (core_id ci) (core_line ci) (bucket_of s ci) x) (fun _ s' =>
    exists β', mapping s' β' (<[ci := x]> m) /\ β' (bucket_of s ci) = x :: β (bucket_of s ci) /\
      forall h, h <> bucket_of s ci -> β' h = β h) s.
Proof.
  intros HM Hx Hci Hk Hxr. eapply wp_mono; [by apply (add_front_wp s β m)|]. intros [] s' [HM' _]. eexists. split; [exact HM'|].
  split; [apply bupd_eq|]. intros h Hh. by apply bupd_ne.
Qed.

(** ** Removing *)

(** The two pointer updates of a removal, as [chain_remove] states them. *)
Definition unlink (l1 l2 : list Z) (E : Z) (ms : gmap Z ocf_metadata_list_info) :=
  let ms1 := match last l1 with
             | Some a => alter (ocf_metadata_list_info_set_next (hdd E l2)) a ms
             | None => ms
             end in
  match l2 with
  | b :: _ => alter (ocf_metadata_list_info_set_prev (lastd E l1)) b ms1
  | [] => ms1
  end.

Lemma unlink_out l1 l2 E ms y : y ∉ l1 ++ l2 -> unlink l1 l2 E ms !! y = ms !! y.
Proof.
  rewrite not_elem_of_app. intros [H1 H2]. unfold unlink.
  assert (E1 : (match last l1 with Some a => alter (ocf_metadata_list_info_set_next (hdd E l2)) a ms
                              | None => ms end) !! y = ms !! y).
  { destruct (last l1) as [a|] eqn:El; [|done]. apply lookup_alter_ne.
    intros ->. by apply H1, last_Some_elem_of. }
  destruct l2 as [|b l2]; [done|]. rewrite lookup_alter_ne; [done|]. intros ->. apply H2. left.
Qed.

Lemma unlink_total l1 l2 E ms y : is_Some (unlink l1 l2 E ms !! y) <-> is_Some (ms !! y).
Proof. unfold unlink. destruct (last l1), l2; by rewrite ?lookup_alter_is_Some. Qed.

Lemma unlink_wp s β h l1 x l2 (Q : unit -> map_state -> Prop) :
  wf_buckets s β -> β h = l1 ++ x :: l2 ->
  let E := collision_table_entries s in
  Q tt (with_infos (unlink l1 l2 E) s) ->
  wp (when (bool_decide (lastd E l1 <> E)) (ocf_metadata_set_collision_next (lastd E l1) (hdd E l2)))
    (fun _ => wp (when (bool_decide (hdd E l2 <> E))
                   (ocf_metadata_set_collision_prev (hdd E l2) (lastd E l1))) Q) s.
Proof.
  intros Hw El E HQ.
  destruct (lastd_entry s β h l1 Hw) as [Hl _]; [intros y Hy; rewrite El; set_solver|].
  destruct (hdd_entry s β h l2 Hw) as (Hh & _); [intros y Hy; rewrite El; set_solver|].
  fold E in Hl, Hh. unfold unlink in HQ.
  assert (Hstep2 : forall s', (forall y, is_Some (list_infos s !! y) -> is_Some (list_infos s' !! y)) ->
    Q tt (with_infos (fun ms => match l2 with
      | b :: _ => alter (ocf_metadata_list_info_set_prev (lastd E l1)) b ms | [] => ms end) s') ->
    wp (when (bool_decide (hdd E l2 <> E)) (ocf_metadata_set_collision_prev (hdd E l2) (lastd E l1))) Q s').
  { intros s' Hs' HQ'. apply wp_when; intros Hb.
    - apply bool_decide_eq_true_1 in Hb. destruct l2 as [|b l2]; [done|].
      apply wp_alter_info; [|exact HQ']. apply Hs'. eapply (chain_is_Some s β h); [done|].
      rewrite El. set_solver.
    - apply bool_decide_eq_false_1 in Hb. destruct l2 as [|b l2].
      + by destruct s'.
      + exfalso. apply Hb. by intros ?%Hh. }
  apply wp_when; intros Ha.
  - apply bool_decide_eq_true_1 in Ha. destruct l1 as [|a l1 _] using rev_ind; [done|].
    rewrite last_snoc in HQ. rewrite lastd_snoc in *.
    assert (Hsa : is_Some (list_infos s !! a)).
    { eapply (chain_is_Some s β h); [done|]. rewrite El. set_solver. }
    apply wp_alter_info; [done|]. apply Hstep2; [|exact HQ].
    intros y [i Hi]. cbn. rewrite lookup_alter. destruct (decide (a = y)) as [->|]; rewrite Hi; by eexists.
  - apply bool_decide_eq_false_1 in Ha. destruct l1 as [|a l1 _] using rev_ind; [by apply Hstep2|].
    exfalso. apply Ha. intros He%Hl. by destruct l1.
Qed.

(** What a removal does to the rest of the state. *)
Definition removed_core (s s' : map_state) (x : Z) : Prop :=
  collision_table_entries s' = collision_table_entries s /\
  core_infos s' = <[x := CoreInfo OCF_CORE_NUM (wrap OCF_CORE_LINE_BITS ULLONG_MAX)]> (core_infos s) /\
  hash_table_entries s' = hash_table_entries s.

Lemma remove_wp s β m ci x :
  mapping s β m -> m !! ci = Some x ->
  wp (ocf_metadata_remove_from_collision x) (fun _ s' =>
    exists β', mapping s' β' (delete ci m) /\ ~ mapped β' x /\
      (forall y, y <> x -> mapped β' y <-> mapped β y) /\ removed_core s s' x) s.
Proof.
  intros [Hw Hm] Hx. apply Hm in Hx as [[h Hx] Hci].
  destruct (wb_bucket _ _ Hw h x Hx) as (ci' & Hci' & Hb). assert (ci' = ci) as -> by congruence.
  pose proof (wb_line _ _ Hw h x Hx) as Hxr. set (E := collision_table_entries s) in *.
  assert (Hh : 0 <= h < hash_table_entries s) by (subst h; apply hash_func_range, (wb_hash _ _ Hw)).
  pose proof Hx as (l1 & l2 & El)%list_elem_of_split.
  pose proof (wb_chain _ _ Hw h) as Hc. fold E in Hc. rewrite El in Hc.
  pose proof (wb_nodup _ _ Hw h) as Hnd. rewrite El in Hnd.
  destruct (link_lookup _ _ _ _ _ _ Hc) as (i & Hi & Hip & Hin).
  destruct (lastd_entry s β h l1 Hw) as [_ Hf1]; [intros y Hy; rewrite El; set_solver|].
  destruct (hdd_entry s β h l2 Hw) as (_ & Hf2 & Hle2); [intros y Hy; rewrite El; set_solver|].
  fold E in Hf1, Hf2, Hle2.
  pose proof (chain_remove (list_infos s) E l1 x l2 E Hnd Hc Hf2 Hf1) as Hrem.
  change (chain (unlink l1 l2 E (list_infos s)) E (l1 ++ l2) E) in Hrem.
  unfold ocf_metadata_remove_from_collision. apply wp_bind. apply wp_get. cbv zeta. fold E.
  apply wp_bind. apply wp_bug_on; [by rewrite bool_decide_eq_true_2 by lia|].
  apply wp_bind. eapply wp_get_info; [exact Hi|]. cbn [fst snd]. rewrite Hip, Hin.
  apply wp_bind. eapply wp_mono.
  { apply (unlink_wp s β h l1 x l2 (fun _ s' => s' = with_infos (unlink l1 l2 E) s)); done. }
  intros [] s1 H1. apply wp_bind. eapply wp_mono; [exact H1|]. clear s1 H1. intros [] s1 ->.
  apply wp_bind. eapply wp_load; [exact Hci|].
  change (hash_table_entries s) with (hash_table_entries s). fold (bucket_of s ci). rewrite Hb.
  apply wp_bind. apply wp_bug_on; [by rewrite bool_decide_eq_true_2 by lia|].
  apply wp_bind. eapply wp_load; [by apply (wb_head _ _ Hw)|]. fold E. rewrite El.
  (* the hash entry *)
  set (s2 := with_infos (unlink l1 l2 E) s).
  apply wp_bind. apply wp_mono with (P := fun _ s' => list_infos s' = list_infos s2 /\
    core_infos s' = core_infos s2 /\ collision_table_entries s' = E /\
    hash_table_entries s' = hash_table_entries s /\
    hash_table s' !! h = Some (hdd E (l1 ++ l2)) /\
    forall h', h' <> h -> hash_table s' !! h' = hash_table s !! h').
  { apply wp_when; intros Hf.
    - apply bool_decide_eq_true_1 in Hf. destruct l1 as [|a l1].
      + apply wp_set_hash; cbn; [rewrite (wb_head _ _ Hw h Hh); eauto|done|].
        repeat split; try done; [by rewrite lookup_insert_eq, Hf2|].
        intros h' Hne. by rewrite lookup_insert_ne.
      + exfalso. cbn in Hf. subst a. apply nodup_pivot in Hnd. apply Hnd. left.
    - apply bool_decide_eq_false_1 in Hf. destruct l1 as [|a l1]; [done|].
      repeat split; try done. cbn. by rewrite (wb_head _ _ Hw h Hh), El. }
  intros _ s3 (Hi3 & Hc3 & He3 & Hh3 & Hhead & Hheads).
  assert (Hix : list_infos s3 !! x = Some i).
  { rewrite Hi3. cbn. by rewrite unlink_out by (by apply nodup_pivot). }
  apply wp_bind. apply wp_alter_info; [eauto|]. apply wp_set_core; [cbn; rewrite Hc3; by eexists|].
  exists (bupd h (l1 ++ l2) β). cbn [with_infos list_infos core_infos collision_table_entries
    hash_table_entries hash_table].
  pose proof (nodup_pivot _ _ _ Hnd) as Hxl.
  assert (Hsub : forall y, y ∈ l1 ++ l2 -> y ∈ β h) by (intros y Hy; rewrite El; set_solver).
  assert (Hother : forall y h', h' <> h -> y ∈ β h' -> y <> x /\ y ∉ l1 ++ l2).
  { intros y h' Hne Hy. split; [intros ->; apply Hne; by apply (wb_disj _ _ Hw _ _ x)|].
    intros Hy'%Hsub. apply Hne. by apply (wb_disj _ _ Hw _ _ y). }
  set (s4 := MapState _ _ _ _ _).
  assert (Hw' : wf_buckets s4 (bupd h (l1 ++ l2) β)).
  { apply (wf_change s); try done; unfold s4; cbn.
    - rewrite Hi3. by apply link_alter_out.
    - intros y h' Hne Hy. destruct (Hother y h' Hne Hy). rewrite lookup_alter_ne by done.
      rewrite Hi3. by apply unlink_out.
    - apply NoDup_app in Hnd as (? & ? & [? ?]%NoDup_cons). apply NoDup_app. set_solver.
    - intros y Hy. split; [left; auto|]. split; [by apply (wb_line _ _ Hw h), Hsub|].
      destruct (wb_bucket _ _ Hw h y (Hsub y Hy)) as (cy & Hcy & Hby). exists cy.
      rewrite lookup_insert_ne by (intros ->; done). by rewrite Hc3.
    - intros y h' Hne Hy. destruct (Hother y h' Hne Hy). rewrite lookup_insert_ne by done. by rewrite Hc3.
    - intros y Hy. rewrite lookup_alter_is_Some, Hi3. by apply unlink_total.
    - intros y Hy. rewrite lookup_insert_is_Some', Hc3. by right. }
  assert (Hmx : ~ mapped (bupd h (l1 ++ l2) β) x).
  { rewrite mapping_bupd_in. intros [Hy|(h' & Hne & Hy)]; [done|].
    by destruct (Hother x h' Hne Hy). }
  assert (Hiff : forall y, y <> x -> mapped (bupd h (l1 ++ l2) β) y <-> mapped β y).
  { intros y Hy. rewrite mapping_bupd_in. split.
    - intros [Hin'|(h' & _ & Hin')]; [exists h; auto|by exists h'].
    - intros [h' Hin']. destruct (decide (h' = h)) as [->|]; [left|right; eauto].
      rewrite El in Hin'. set_solver. }
  split; [|split; [done|split; [exact Hiff|]]].
  2:{ split; [done|]. unfold s4. cbn. by rewrite Hc3. }
  split; [exact Hw'|]. intros cj y. unfold s4. cbn.
  destruct (decide (y = x)) as [->|Hyx].
  - split; [|by intros [? _]]. intros Hd. apply lookup_delete_Some in Hd as [Hne Hd].
    apply Hm in Hd as [_ Hd]. congruence.
  - rewrite Hiff, lookup_insert_ne, Hc3 by done. cbn.
    destruct (decide (ci = cj)) as [<-|Hne].
    + rewrite lookup_delete_eq. split; [done|]. intros Hy. apply Hm in Hy.
      assert (m !! ci = Some x) by (apply Hm; split; [by exists h|done]). congruence.
    + rewrite lookup_delete_ne by done. apply Hm.
Qed.

(** C19. Unmapping a cache line ([ocf_metadata_remove_from_collision]): for a
    mapped line no assertion fails, its core line is unmapped, and every other
    mapping is kept. *)
Theorem collision_remove_deletes s β m ci x :
  mapping s β m -> m !! ci = Some x ->
  wp (ocf_metadata_remove_from_collision x) (fun _ s' =>
    exists β', mapping s' β' (delete ci m) /\ ~ mapped β' x) s.
Proof.
  intros HM Hx. eapply wp_mono; [by eapply remove_wp|]. intros [] s' (β' & ? & ? & _). by exists β'.
Qed.

(** ** Lookup *)

Lemma lookup_walk_wp s β h core cline l1 l2 fuel :
  wf_buckets s β -> β h = l1 ++ l2 -> (length l2 < fuel)%nat ->
  wp (lookup_walk fuel core cline (hdd (collision_table_entries s) l2)) (fun r s' =>
    s' = s /\ match r with
              | Some x => x ∈ l2 /\ core_infos s !! x = Some (CoreInfo core cline)
              | None => forall x, x ∈ l2 -> core_infos s !! x <> Some (CoreInfo core cline)
              end) s.
Proof.
  intros Hw. set (E := collision_table_entries s). revert l1 fuel.
  induction l2 as [|x l2 IH]; intros l1 fuel El Hf; (destruct fuel as [|fuel]; [cbn in Hf; lia|]);
    cbn [lookup_walk hdd List.hd_error default]; apply wp_bind; apply wp_get.
  - rewrite bool_decide_eq_true_2 by done. apply wp_ret. split; [done|]. by intros x ?%not_elem_of_nil.
  - assert (Hx : x ∈ β h) by (rewrite El; set_solver). pose proof (wb_line _ _ Hw h x Hx).
    change (id x) with x. rewrite bool_decide_eq_false_2 by lia.
    destruct (wb_bucket _ _ Hw h x Hx) as (ci & Hci & _).
    apply wp_bind. eapply wp_load; [exact Hci|].
    assert (Hcmp : bool_decide (core = core_id ci) && bool_decide (core_line ci = cline) =
      bool_decide (ci = CoreInfo core cline)).
    { destruct ci as [a b]. cbn. destruct (decide (core = a)) as [<-|Ha].
      - rewrite bool_decide_eq_true_2 by done. cbn. apply bool_decide_ext. split; [by intros ->|by intros [= ->]].
      - rewrite bool_decide_eq_false_2 by done. cbn. symmetry. apply bool_decide_eq_false_2. congruence. }
    rewrite Hcmp. destruct (decide (ci = CoreInfo core cline)) as [->|Hne].
    + rewrite bool_decide_eq_true_2 by done. apply wp_ret. split; [done|]. split; [left|done].
    + rewrite bool_decide_eq_false_2 by done.
      pose proof (wb_chain _ _ Hw h) as Hc. fold E in Hc. rewrite El in Hc.
      destruct (link_lookup _ _ _ _ _ _ Hc) as (i & Hi & _ & Hin).
      apply wp_bind. eapply wp_get_next; [exact Hi|]. rewrite Hin. eapply wp_mono.
      { apply (IH (l1 ++ [x])); [by rewrite <- app_assoc|cbn in Hf; lia]. }
      intros [y|] s' [-> Hr]; (split; [done|]).
      * destruct Hr. split; [by right|done].
      * intros y [->|Hy]%elem_of_cons; [congruence|by apply Hr].
Qed.

Lemma lookup_entry_wp s β m ci fuel :
  mapping s β m -> collision_table_entries s < Z.of_nat fuel ->
  wp (ocf_engine_lookup_map_entry fuel (core_id ci) (core_line ci)) (fun e s' =>
    s' = s /\
    e = MapInfo (bucket_of s ci) (default (collision_table_entries s) (m !! ci))
          (core_line ci) (core_id ci)
          (match m !! ci with Some _ => LOOKUP_HIT | None => LOOKUP_MISS end)) s.
Proof.
  intros [Hw Hm] Hfuel. set (h := bucket_of s ci).
  assert (Hh : 0 <= h < hash_table_entries s) by (apply hash_func_range, (wb_hash _ _ Hw)).
  assert (Hlen : (length (β h) < fuel)%nat).
  { enough (Z.of_nat (length (β h)) <= collision_table_entries s) by lia.
    pose proof (wb_entries _ _ Hw). apply lines_bound; [lia|by apply (wb_nodup _ _ Hw)|].
    intros x. apply (wb_line _ _ Hw). }
  unfold ocf_engine_lookup_map_entry. apply wp_bind. apply wp_get. cbv zeta. fold (bucket_of s ci). fold h.
  apply wp_bind. eapply wp_load; [by apply (wb_head _ _ Hw)|]. apply wp_bind. eapply wp_mono.
  { by apply (lookup_walk_wp s β h (core_id ci) (core_line ci) [] (β h)). }
  assert (Hci : CoreInfo (core_id ci) (core_line ci) = ci) by (by destruct ci). rewrite Hci.
  intros [x|] s' [-> Hr]; apply wp_ret; (split; [done|]).
  - destruct Hr as [Hx Hcx]. assert (Hmx : m !! ci = Some x) by (apply Hm; split; [by exists h|done]).
    by rewrite Hmx.
  - destruct (m !! ci) as [x|] eqn:Emx; [|done]. exfalso.
    apply Hm in Emx as [[h' Hx] Hcx]. destruct (wb_bucket _ _ Hw h' x Hx) as (ci' & Hci' & Hb).
    assert (ci' = ci) as -> by congruence. subst h'. by apply (Hr x Hx).
Qed.

(** C20. Looking a core line up ([ocf_engine_lookup_map_entry]): the walk ends
    after at most as many steps as there are cache lines, changes nothing, and
    reports a hit with the cache line exactly when the core line is mapped, a
    miss otherwise. *)
Theorem collision_lookup_finds s β m ci fuel :
  mapping s β m -> collision_table_entries s < Z.of_nat fuel ->
  wp (ocf_engine_lookup_map_entry fuel (core_id ci) (core_line ci)) (fun e s' =>
    s' = s /\
    e = MapInfo (bucket_of s ci) (default (collision_table_entries s) (m !! ci))
          (core_line ci) (core_id ci)
          (match m !! ci with Some _ => LOOKUP_HIT | None => LOOKUP_MISS end)) s.
Proof. apply lookup_entry_wp. Qed.

(** ** Example: three lines, two buckets *)

Definition empty_map_state : map_state :=
  MapState 3 2 {[0 := 3; 1 := 3]}
    {[0 := ListInfo 3 3; 1 := ListInfo 3 3; 2 := ListInfo 3 3]}
    {[0 := CoreInfo 0 0; 1 := CoreInfo 0 0; 2 := CoreInfo 0 0]}.

Lemma empty_mapping : mapping empty_map_state (fun _ => []) ∅.
Proof.
  split.
  - split; cbn; try done; try (by intros ? ? ?%not_elem_of_nil); try (by intros ? ? ? ?%not_elem_of_nil).
    + intros h Hh. assert (h = 0 \/ h = 1) as [->| ->] by lia; reflexivity.
    + intros _. constructor.
    + intros x Hx. assert (x = 0 \/ x = 1 \/ x = 2) as [->|[->| ->]] by lia; split; by eexists.
  - intros ci x. rewrite lookup_empty. split; [done|]. by intros [[h ?%not_elem_of_nil] _].
Qed.

Lemma collision_add_inserts_witness :
  exists s' β', ocf_metadata_add_to_collision 0 5 1 2 empty_map_state = Some (tt, s') /\
    mapping s' β' {[CoreInfo 0 5 := 2]} /\ β' 1 = [2] /\ β' 0 = [].
Proof.
  assert (Hw := collision_add_inserts empty_map_state (fun _ => []) ∅ (CoreInfo 0 5) 2 empty_mapping
    ltac:(by intros [h ?%not_elem_of_nil]) ltac:(done) ltac:(by split) ltac:(by cbn)).
  rewrite wp_run in Hw. destruct Hw as ([] & s' & Hr & β' & Hm & Hf & Ho). exists s', β'. split; [exact Hr|]. split; [exact Hm|]. split; [exact Hf|].
  by apply (Ho 0).
Defined.

Definition one_map_state : map_state :=
  MapState 3 2 {[0 := 3; 1 := 2]}
    {[0 := ListInfo 3 3; 1 := ListInfo 3 3; 2 := ListInfo 3 3]}
    {[0 := CoreInfo 0 0; 1 := CoreInfo 0 0; 2 := CoreInfo 0 5]}.

Lemma one_mapping : mapping one_map_state (bupd 1 [2] (fun _ => [])) {[CoreInfo 0 5 := 2]}.
Proof.
  assert (Hin : forall h x, x ∈ bupd 1 [2] (fun _ => []) h <-> h = 1 /\ x = 2).
  { intros h x. unfold bupd. case_decide; [rewrite list_elem_of_singleton; naive_solver|].
    split; [by intros ?%not_elem_of_nil|naive_solver]. }
  split; [split|].
  - done.
  - done.
  - cbn. intros h Hh. assert (h = 0 \/ h = 1) as [->| ->] by lia; reflexivity.
  - cbn. intros h Hh. apply bupd_ne. lia.
  - intros h. unfold bupd. case_decide; [|done]. cbn. split; [|done]. by eexists.
  - intros h. unfold bupd. case_decide; [apply NoDup_singleton|constructor].
  - intros h h' x [-> _]%Hin [-> _]%Hin. done.
  - intros h x [-> ->]%Hin. cbn. lia.
  - intros h x [-> ->]%Hin. by exists (CoreInfo 0 5).
  - cbn. intros x Hx. assert (x = 0 \/ x = 1 \/ x = 2) as [->|[->| ->]] by lia; split; by eexists.
  - intros ci x. unfold mapped. setoid_rewrite Hin. rewrite lookup_singleton_Some. split.
    + intros [<- <-]. split; [by exists 1|done].
    + intros [(h & _ & ->) Hc]. vm_compute in Hc. by injection Hc as <-.
Qed.

Lemma collision_remove_deletes_witness :
  exists s' β', ocf_metadata_remove_from_collision 2 one_map_state = Some (tt, s') /\
    mapping s' β' (delete (CoreInfo 0 5) {[CoreInfo 0 5 := 2]}).
Proof.
  assert (Hw := collision_remove_deletes _ _ _ (CoreInfo 0 5) 2 one_mapping ltac:(by apply lookup_singleton_eq)).
  rewrite wp_run in Hw. destruct Hw as ([] & s' & Hr & β' & Hm & _). by exists s', β'.
Defined.

Lemma collision_lookup_finds_witness :
  ocf_engine_lookup_map_entry 4 0 5 one_map_state =
    Some (MapInfo 1 2 5 0 LOOKUP_HIT, one_map_state).
Proof.
  assert (Hw := collision_lookup_finds _ _ _ (CoreInfo 0 5) 4 one_mapping ltac:(by cbn)).
  rewrite wp_run in Hw. destruct Hw as (e & s' & Hr & -> & ->).
  rewrite lookup_singleton_eq in Hr. exact Hr.
Defined.
