(* ===== verification/Status.v ===== *)
(** * Valid and dirty bits: [src/metadata/metadata_bit.h], [metadata_status.h]

    Every cache line has one valid and one dirty bit per block.  The C code
    instantiates its bit functions by macro for each field width and selects
    the instance by the cache line size in [metadata.c]; here the width is an
    argument.  The 4 KiB-block build has one-bit fields for 4 KiB lines. *)

From S2P Require Import Prelude.

(** The [type] of the macros; [Bit] is the variant without a type. *)
Inductive field_type := Bit | U8 | U16 | U32 | U64 | U128.

Definition type_bits (t : field_type) : Z :=
  match t with Bit => 1 | U8 => 8 | U16 => 16 | U32 => 32 | U64 => 64 | U128 => 128 end.

Inductive cache_line_size := size_4 | size_8 | size_16 | size_32 | size_64.

(** The dispatch on the line size, for 4 KiB and 512 B blocks. *)
Definition field_type_of (block_4k : bool) (line_size : cache_line_size) : field_type :=
  if block_4k then
    match line_size with
    | size_4 => Bit
    | size_8 | size_16 | size_32 => U8
    | size_64 => U16
    end
  else
    match line_size with
    | size_4 => U8
    | size_8 => U16
    | size_16 => U32
    | size_32 => U64
    | size_64 => U128
    end.

Definition KiB : Z := 1024.
Definition line_bytes (line_size : cache_line_size) : Z :=
  match line_size with
  | size_4 => 4 * KiB | size_8 => 8 * KiB | size_16 => 16 * KiB | size_32 => 32 * KiB | size_64 => 64 * KiB
  end.
Definition block_size (block_4k : bool) : Z := if block_4k then 4096 else 512.
Definition ocf_line_blocks (block_4k : bool) (line_size : cache_line_size) : Z :=
  line_bytes line_size / block_size block_4k.
Definition ocf_line_end_block (block_4k : bool) (line_size : cache_line_size) : Z :=
  ocf_line_blocks block_4k line_size - 1.

Record map_status := MapStatus { valid : Z; dirty : Z }.

#[export] Instance map_status_eq_dec : EqDecision map_status.
Proof. solve_decision. Defined.

Abbreviation status_table := (gmap Z map_status).
Definition SM := Prelude.M status_table.

(** The [what] of the macros. *)
Inductive status_field := Valid | Dirty.
Definition get_field (what : status_field) (st : map_status) : Z :=
  match what with Valid => valid st | Dirty => dirty st end.
Definition put_field (what : status_field) (x : Z) (st : map_status) : map_status :=
  match what with Valid => MapStatus x (dirty st) | Dirty => MapStatus (valid st) x end.

(** [_get_mask] (64 bits) and [_get_mask_u128], truncated to the field. *)
Definition get_mask (t : field_type) (start stop : Z) : SM Z :=
  let n := match t with U128 => 128 | _ => 64 end in
  _ ← bug_on (bool_decide (start >= n));
  _ ← bug_on (bool_decide (stop >= n));
  _ ← bug_on (bool_decide (stop < start));
  let mask := 2 ^ n - 1 in
  let mask := Z.shiftr mask (start + (n - 1 - stop)) in
  let mask := wrap n (Z.shiftl mask start) in
  mret (wrap (type_bits t) mask).

Definition status (line : Z) : SM map_status := load (fun s => s !! line).
Definition set_status (line : Z) (f : map_status -> map_status) : SM unit :=
  st ← status line; modify (<[line := f st]>).

(** ** The variant without a type *)

Definition _ocf_metadata_test_no_type (what : status_field) (line start stop : Z) (all : bool) : SM bool :=
  _ ← bug_on (bool_decide (start <> stop));
  st ← status line;
  mret (bool_decide (get_field what st <> 0)).

Definition _ocf_metadata_test_out_no_type (what : status_field) (line start stop : Z) : SM bool :=
  mret false.

Definition _ocf_metadata_clear_no_type (what : status_field) (line start stop : Z) : SM bool :=
  _ ← bug_on (bool_decide (start <> stop));
  _ ← set_status line (put_field what 0);
  mret false.

Definition _ocf_metadata_set_no_type (what : status_field) (line start stop : Z) : SM bool :=
  _ ← bug_on (bool_decide (start <> stop));
  st ← status line;
  _ ← set_status line (put_field what 1);
  mret (bool_decide (get_field what st <> 0)).

Definition _ocf_metadata_test_and_set_no_type (what : status_field) (line start stop : Z) (all : bool) : SM bool :=
  _ ← bug_on (bool_decide (start <> stop));
  st ← status line;
  _ ← set_status line (put_field what 1);
  mret (bool_decide (get_field what st <> 0)).

Definition _ocf_metadata_test_and_clear_no_type (what : status_field) (line start stop : Z) (all : bool) : SM bool :=
  _ ← bug_on (bool_decide (start <> stop));
  st ← status line;
  _ ← set_status line (put_field what 0);
  mret (bool_decide (get_field what st <> 0)).

Definition _ocf_metadata_clear_valid_if_clean_no_type (line start stop : Z) : SM bool :=
  _ ← bug_on (bool_decide (start <> stop));
  _ ← set_status line (fun st => put_field Valid (if bool_decide (dirty st = 0) then 0 else valid st) st);
  st ← status line;
  mret (bool_decide (valid st <> 0)).

Definition _ocf_metadata_clear_dirty_if_invalid_no_type (line start stop : Z) : SM unit :=
  _ ← bug_on (bool_decide (start <> stop));
  set_status line (fun st => put_field Dirty (if bool_decide (valid st = 0) then 0 else dirty st) st).

(** ** The variants by field width *)

Section BitFuncs.
Context (t : field_type).

(** [what & mask] compared with the mask or with zero. *)
Definition test_bits (mask x : Z) (all : bool) : bool :=
  if all then bool_decide (mask = Z.land x mask) else bool_decide (Z.land x mask <> 0).

Definition _ocf_metadata_test (what : status_field) (line start stop : Z) (all : bool) : SM bool :=
  match t with
  | Bit => _ocf_metadata_test_no_type what line start stop all
  | _ =>
    mask ← get_mask t start stop;
    st ← status line;
    mret (test_bits mask (get_field what st) all)
  end.

Definition _ocf_metadata_test_out (what : status_field) (line start stop : Z) : SM bool :=
  match t with
  | Bit => _ocf_metadata_test_out_no_type what line start stop
  | _ =>
    mask ← get_mask t start stop;
    st ← status line;
    mret (bool_decide (Z.ldiff (get_field what st) mask <> 0))
  end.

(** The result: are there bits left? *)
Definition _ocf_metadata_clear (what : status_field) (line start stop : Z) : SM bool :=
  match t with
  | Bit => _ocf_metadata_clear_no_type what line start stop
  | _ =>
    mask ← get_mask t start stop;
    _ ← set_status line (fun st => put_field what (Z.ldiff (get_field what st) mask) st);
    st ← status line;
    mret (bool_decide (get_field what st <> 0))
  end.

(** The result: was any bit set before? *)
Definition _ocf_metadata_set (what : status_field) (line start stop : Z) : SM bool :=
  match t with
  | Bit => _ocf_metadata_set_no_type what line start stop
  | _ =>
    mask ← get_mask t start stop;
    st ← status line;
    _ ← set_status line (fun st => put_field what (Z.lor (get_field what st) mask) st);
    mret (bool_decide (get_field what st <> 0))
  end.

Definition _ocf_metadata_test_and_set (what : status_field) (line start stop : Z) (all : bool) : SM bool :=
  match t with
  | Bit => _ocf_metadata_test_and_set_no_type what line start stop all
  | _ =>
    mask ← get_mask t start stop;
    st ← status line;
    _ ← set_status line (fun st => put_field what (Z.lor (get_field what st) mask) st);
    mret (test_bits mask (get_field what st) all)
  end.

Definition _ocf_metadata_test_and_clear (what : status_field) (line start stop : Z) (all : bool) : SM bool :=
  match t with
  | Bit => _ocf_metadata_test_and_clear_no_type what line start stop all
  | _ =>
    mask ← get_mask t start stop;
    st ← status line;
    _ ← set_status line (fun st => put_field what (Z.ldiff (get_field what st) mask) st);
    mret (test_bits mask (get_field what st) all)
  end.

(** [(mask & keep) | ~mask], the bits that survive. *)
Definition survive (mask keep : Z) : Z := Z.lor (Z.land mask keep) (Z.lnot mask).

Definition _ocf_metadata_clear_valid_if_clean (line start stop : Z) : SM bool :=
  match t with
  | Bit => _ocf_metadata_clear_valid_if_clean_no_type line start stop
  | _ =>
    mask ← get_mask t start stop;
    _ ← set_status line (fun st => put_field Valid (Z.land (valid st) (survive mask (dirty st))) st);
    st ← status line;
    mret (bool_decide (valid st <> 0))
  end.

Definition _ocf_metadata_clear_dirty_if_invalid (line start stop : Z) : SM unit :=
  match t with
  | Bit => _ocf_metadata_clear_dirty_if_invalid_no_type line start stop
  | _ =>
    mask ← get_mask t start stop;
    set_status line (fun st => put_field Dirty (Z.land (dirty st) (survive mask (valid st))) st)
  end.

Definition _ocf_metadata_check (line : Z) : SM bool :=
  st ← status line;
  mret (bool_decide (Z.ldiff (dirty st) (valid st) = 0)).
End BitFuncs.

(** ** The public functions: dispatch on the line size *)

Section Public.
Context (block_4k : bool) (line_size : cache_line_size).

Definition field : field_type := field_type_of block_4k line_size.
Definition end_block : Z := ocf_line_end_block block_4k line_size.

Definition ocf_metadata_test_dirty := _ocf_metadata_test field Dirty.
Definition ocf_metadata_test_valid := _ocf_metadata_test field Valid.
Definition ocf_metadata_test_out_dirty := _ocf_metadata_test_out field Dirty.
Definition ocf_metadata_test_out_valid := _ocf_metadata_test_out field Valid.
Definition ocf_metadata_clear_dirty := _ocf_metadata_clear field Dirty.
Definition ocf_metadata_clear_valid := _ocf_metadata_clear field Valid.
Definition ocf_metadata_set_dirty := _ocf_metadata_set field Dirty.
Definition ocf_metadata_set_valid := _ocf_metadata_set field Valid.
Definition ocf_metadata_test_and_set_dirty := _ocf_metadata_test_and_set field Dirty.
Definition ocf_metadata_test_and_set_valid := _ocf_metadata_test_and_set field Valid.
Definition ocf_metadata_test_and_clear_dirty := _ocf_metadata_test_and_clear field Dirty.
Definition ocf_metadata_test_and_clear_valid := _ocf_metadata_test_and_clear field Valid.
Definition ocf_metadata_clear_valid_if_clean := _ocf_metadata_clear_valid_if_clean field.
Definition ocf_metadata_clear_dirty_if_invalid := _ocf_metadata_clear_dirty_if_invalid field.
Definition ocf_metadata_check := _ocf_metadata_check.

Definition metadata_init_status_bits (line : Z) : SM unit :=
  _ ← ocf_metadata_clear_dirty line 0 end_block;
  _ ← ocf_metadata_clear_valid line 0 end_block;
  mret tt.

Definition metadata_test_dirty_all (line : Z) := ocf_metadata_test_dirty line 0 end_block true.
Definition metadata_test_dirty (line : Z) := ocf_metadata_test_dirty line 0 end_block false.
Definition metadata_set_dirty (line : Z) := ocf_metadata_set_dirty line 0 end_block.
Definition metadata_clear_dirty (line : Z) := ocf_metadata_clear_dirty line 0 end_block.
Definition metadata_test_and_clear_dirty (line : Z) := ocf_metadata_test_and_clear_dirty line 0 end_block false.
Definition metadata_test_and_set_dirty (line : Z) := ocf_metadata_test_and_set_dirty line 0 end_block false.

Definition metadata_test_dirty_sec (line start stop : Z) := ocf_metadata_test_dirty line start stop false.
Definition metadata_test_dirty_all_sec (line start stop : Z) := ocf_metadata_test_dirty line start stop true.
Definition metadata_test_dirty_one (line pos : Z) := metadata_test_dirty_sec line pos pos.
Definition metadata_test_dirty_out_sec (line start stop : Z) := ocf_metadata_test_out_dirty line start stop.
Definition metadata_set_dirty_sec (line start stop : Z) := ocf_metadata_set_dirty line start stop.
Definition metadata_clear_dirty_sec (line start stop : Z) := ocf_metadata_clear_dirty line start stop.

Definition metadata_set_dirty_sec_one (line pos : Z) := ocf_metadata_set_dirty line pos pos.
Definition metadata_clear_dirty_sec_one (line pos : Z) := ocf_metadata_clear_dirty line pos pos.
Definition metadata_test_and_clear_dirty_sec (line start stop : Z) :=
  ocf_metadata_test_and_clear_dirty line start stop false.

(** The pair [(sec_changed, *line_is_clean)]. *)
Definition metadata_clear_dirty_sec_changed (line start stop : Z) : SM (bool * bool) :=
  sec_changed ← ocf_metadata_test_dirty line start stop false;
  dirty_left ← ocf_metadata_clear_dirty line start stop;
  mret (sec_changed, negb dirty_left).

(** The pair [(sec_changed, *line_was_dirty)]. *)
Definition metadata_set_dirty_sec_changed (line start stop : Z) : SM (bool * bool) :=
  all_dirty ← ocf_metadata_test_dirty line start stop true;
  line_was_dirty ← ocf_metadata_set_dirty line start stop;
  mret (negb all_dirty, line_was_dirty).

Definition metadata_test_valid_any (line : Z) := ocf_metadata_test_valid line 0 end_block false.
Definition metadata_test_valid (line : Z) := ocf_metadata_test_valid line 0 end_block true.
Definition metadata_set_valid (line : Z) := ocf_metadata_set_valid line 0 end_block.
Definition metadata_clear_valid (line : Z) := ocf_metadata_clear_valid line 0 end_block.
Definition metadata_clear_valid_if_clean (line : Z) := ocf_metadata_clear_valid_if_clean line 0 end_block.
Definition metadata_test_and_clear_valid (line : Z) := ocf_metadata_test_and_clear_valid line 0 end_block true.
Definition metadata_test_and_set_valid (line : Z) := ocf_metadata_test_and_set_valid line 0 end_block true.
Definition metadata_clear_dirty_if_invalid (line : Z) := ocf_metadata_clear_dirty_if_invalid line 0 end_block.
Definition metadata_test_valid_sec (line start stop : Z) := ocf_metadata_test_valid line start stop true.
Definition metadata_test_valid_any_out_sec (line start stop : Z) := ocf_metadata_test_out_valid line start stop.
Definition metadata_test_valid_one (line pos : Z) := metadata_test_valid_sec line pos pos.

Definition metadata_clear_valid_sec (line start stop : Z) := ocf_metadata_clear_valid line start stop.
Definition metadata_clear_valid_sec_one (line pos : Z) := ocf_metadata_clear_valid line pos pos.
Definition metadata_set_valid_sec_one (line pos : Z) := ocf_metadata_set_valid line pos pos.

Definition metadata_set_valid_sec_changed (line start stop : Z) : SM bool :=
  was ← ocf_metadata_set_valid line start stop; mret (negb was).

(** The pair [(line_was_valid && !line_remains_valid, line_remains_valid)]. *)
Definition metadata_clear_valid_sec_changed (line start stop : Z) : SM (bool * bool) :=
  line_was_valid ← ocf_metadata_test_valid line 0 end_block false;
  line_remains_valid ← ocf_metadata_clear_valid line start stop;
  mret (line_was_valid && negb line_remains_valid, line_remains_valid).
End Public.
