(* ===== verification/StatusProofs.v ===== *)
(** * The status functions act on ranges of blocks

    For every field width and every non-empty range of blocks inside the
    field, the tests, updates and combined functions of [Status] are the
    obvious operations on sets of blocks. *)

From S2P Require Import Prelude Status.

Definition word (t : field_type) (x : Z) : Prop := 0 <= x < 2 ^ type_bits t.
Definition in_range (start stop i : Z) : bool := bool_decide (start <= i <= stop).
Definition range_ok (t : field_type) (start stop : Z) : Prop := 0 <= start <= stop /\ stop < type_bits t.

Lemma type_bits_pos t : 1 <= type_bits t <= 128.
Proof. destruct t; cbn; lia. Qed.

Lemma testbit_high t x i : word t x -> type_bits t <= i -> Z.testbit x i = false.
Proof.
  intros [H0 Hx] Hi. pose proof (type_bits_pos t).
  rewrite <- (Z.mod_small x (2 ^ type_bits t)) by done. by apply Z.mod_pow2_bits_high; lia.
Qed.

(** A word is determined by its low bits, and is bounded by having no high ones. *)
Lemma word_of_bits t x : 0 <= x -> (forall i, type_bits t <= i -> Z.testbit x i = false) -> word t x.
Proof.
  intros H0 Hh. split; [done|]. pose proof (type_bits_pos t).
  replace x with (x mod 2 ^ type_bits t); [apply Z.mod_pos_bound; lia|].
  apply Z.bits_inj'. intros i Hi. destruct (decide (i < type_bits t)).
  - by rewrite Z.mod_pow2_bits_low by lia.
  - rewrite Z.mod_pow2_bits_high, Hh by lia. done.
Qed.

Lemma nonzero_bits x : 0 <= x -> bool_decide (x <> 0) = true <-> exists i, 0 <= i /\ Z.testbit x i = true.
Proof.
  intros Hx. rewrite bool_decide_eq_true. split.
  - intros Hne. exists (Z.log2 x). split; [apply Z.log2_nonneg|]. apply Z.bit_log2. lia.
  - intros (i & _ & Hi) ->. by rewrite Z.bits_0 in Hi.
Qed.

(** ** Masks *)

Definition is_mask (t : field_type) (start stop mask : Z) : Prop :=
  word t mask /\ forall i, 0 <= i -> Z.testbit mask i = in_range start stop i.

Lemma mask_bits n start stop i :
  0 <= start <= stop -> stop < n -> 0 <= i ->
  Z.testbit (Z.shiftl (Z.shiftr (2 ^ n - 1) (start + (n - 1 - stop))) start mod 2 ^ n) i = in_range start stop i.
Proof.
  intros H1 H2 Hi. unfold in_range.
  replace (2 ^ n - 1) with (Z.ones n) by (rewrite Z.ones_equiv; lia).
  destruct (decide (i < n)).
  - rewrite Z.mod_pow2_bits_low, Z.shiftl_spec by lia. destruct (decide (start <= i)).
    + rewrite Z.shiftr_spec by lia. destruct (decide (i <= stop)).
      * rewrite Z.ones_spec_low by lia. by rewrite bool_decide_eq_true_2 by lia.
      * rewrite Z.ones_spec_high by lia. by rewrite bool_decide_eq_false_2 by lia.
    + rewrite Z.testbit_neg_r by lia. by rewrite bool_decide_eq_false_2 by lia.
  - rewrite Z.mod_pow2_bits_high by lia. by rewrite bool_decide_eq_false_2 by lia.
Qed.

Lemma wp_get_mask t start stop s (Q : Z -> status_table -> Prop) :
  range_ok t start stop -> (forall mask, is_mask t start stop mask -> Q mask s) ->
  wp (get_mask t start stop) Q s.
Proof.
  intros [H1 H2] HQ. unfold get_mask. set (n := match t with U128 => 128 | _ => 64 end).
  assert (Hn : type_bits t <= n <= 128) by (unfold n; destruct t; cbn; lia).
  apply wp_bind, wp_bug_on; [apply bool_decide_eq_false_2; lia|].
  apply wp_bind, wp_bug_on; [apply bool_decide_eq_false_2; lia|].
  apply wp_bind, wp_bug_on; [apply bool_decide_eq_false_2; lia|].
  apply wp_ret, HQ. pose proof (type_bits_pos t). split.
  - apply wrap_range. lia.
  - intros i Hi. unfold wrap. destruct (decide (i < type_bits t)).
    + rewrite Z.mod_pow2_bits_low by lia. apply mask_bits; lia.
    + rewrite Z.mod_pow2_bits_high by lia. unfold in_range. by rewrite bool_decide_eq_false_2 by lia.
Qed.

(** ** Sets of blocks *)

Definition any_in (start stop x : Z) : Prop := exists i, start <= i <= stop /\ Z.testbit x i = true.
Definition all_in (start stop x : Z) : Prop := forall i, start <= i <= stop -> Z.testbit x i = true.
Definition any_out (start stop x : Z) : Prop := exists i, 0 <= i /\ ~ start <= i <= stop /\ Z.testbit x i = true.

Lemma test_bits_spec t start stop mask x all :
  range_ok t start stop -> is_mask t start stop mask -> word t x ->
  test_bits mask x all = true <-> if all then all_in start stop x else any_in start stop x.
Proof.
  intros [H1 H2] [Hw Hm] Hx. unfold test_bits. destruct all.
  - rewrite bool_decide_eq_true. split.
    + intros He i Hi. assert (Hb : Z.testbit mask i = true).
      { rewrite Hm by lia. by apply bool_decide_eq_true_2. }
      rewrite He, Z.land_spec in Hb. by apply andb_true_iff in Hb as [? _].
    + intros Ha. apply Z.bits_inj'. intros i Hi. rewrite Z.land_spec, Hm by done.
      unfold in_range. destruct (decide (start <= i <= stop)).
      * rewrite bool_decide_eq_true_2 by done. by rewrite Ha.
      * rewrite bool_decide_eq_false_2 by done. by rewrite andb_false_r.
  - rewrite nonzero_bits by (apply Z.land_nonneg; left; apply Hx). split.
    + intros (i & Hi & Hb). rewrite Z.land_spec, Hm in Hb by done.
      apply andb_true_iff in Hb as [Hb Hr%bool_decide_eq_true_1]. by exists i.
    + intros (i & Hi & Hb). exists i. split; [lia|]. rewrite Z.land_spec, Hm, Hb by lia.
      by apply bool_decide_eq_true_2.
Qed.

Lemma ldiff_word t x m : word t x -> word t (Z.ldiff x m).
Proof.
  intros Hx. apply word_of_bits.
  - apply Z.ldiff_nonneg. left. apply Hx.
  - intros i Hi. rewrite Z.ldiff_spec, (testbit_high t x) by done. done.
Qed.

Lemma lor_word t x y : word t x -> word t y -> word t (Z.lor x y).
Proof.
  intros Hx Hy. apply word_of_bits.
  - apply Z.lor_nonneg. split; [apply Hx|apply Hy].
  - intros i Hi. by rewrite Z.lor_spec, (testbit_high t x), (testbit_high t y).
Qed.

(** [x'] is [x] with the blocks of the range added, or removed. *)
Definition added (start stop x x' : Z) : Prop :=
  forall i, 0 <= i -> Z.testbit x' i = Z.testbit x i || in_range start stop i.
Definition removed (start stop x x' : Z) : Prop :=
  forall i, 0 <= i -> Z.testbit x' i = Z.testbit x i && negb (in_range start stop i).

Lemma lor_added t start stop mask x : is_mask t start stop mask -> added start stop x (Z.lor x mask).
Proof. intros [_ Hm] i Hi. by rewrite Z.lor_spec, Hm. Qed.

Lemma ldiff_removed t start stop mask x : is_mask t start stop mask -> removed start stop x (Z.ldiff x mask).
Proof. intros [_ Hm] i Hi. by rewrite Z.ldiff_spec, Hm. Qed.

(** The one-bit field. *)
Lemma bit_word x : word Bit x -> x = 0 \/ x = 1.
Proof. intros [? ?]. cbn in *. lia. Qed.

Lemma bit_range start stop : range_ok Bit start stop -> start = 0 /\ stop = 0.
Proof. intros [? ?]. cbn in *. lia. Qed.

Lemma testbit_1 i : 0 <= i -> Z.testbit 1 i = bool_decide (i = 0).
Proof.
  intros Hi. case_bool_decide; [by subst|]. change 1 with (2 ^ 0). by apply Z.pow2_bits_false.
Qed.

Lemma bit_nonzero x start stop : word Bit x -> range_ok Bit start stop ->
  bool_decide (x <> 0) = true <-> all_in start stop x /\ any_in start stop x.
Proof.
  intros [->| ->]%bit_word [-> ->]%bit_range; split; try done.
  - by intros [Ha _]; specialize (Ha 0 ltac:(lia)).
  - intros _. split; [intros i Hi; by replace i with 0 by lia|exists 0; split; [lia|done]].
Qed.

Lemma bit_all_any x start stop : word Bit x -> range_ok Bit start stop ->
  all_in start stop x <-> any_in start stop x.
Proof.
  intros Hx [-> ->]%bit_range. split.
  - intros Ha. exists 0. split; [lia|]. apply Ha. lia.
  - intros (i & Hi & Hb) j Hj. by replace j with i by lia.
Qed.

(** ** Operations *)

Definition some_bit (x : Z) : Prop := exists i, 0 <= i /\ Z.testbit x i = true.
Definition status_ok (t : field_type) (st : map_status) : Prop := word t (valid st) /\ word t (dirty st).

Lemma word_field t what st : status_ok t st -> word t (get_field what st).
Proof. by destruct what; intros [??]. Qed.

Lemma get_put_field what x st : get_field what (put_field what x st) = x.
Proof. by destruct what. Qed.

Lemma wp_set_status line f s st (Q : unit -> status_table -> Prop) :
  s !! line = Some st -> Q tt (<[line := f st]> s) -> wp (set_status line f) Q s.
Proof. intros Hs HQ. unfold set_status, status. wp_go. done. Qed.

(** The word operation a field function performs, and its meaning. *)
Definition performs (t : field_type) (line start stop : Z) (what : status_field)
    (change : Z -> Z -> Z -> Z -> Prop) (result : Z -> Z -> bool -> Prop) (m : SM bool) : Prop :=
  forall s st, s !! line = Some st -> status_ok t st -> range_ok t start stop ->
  wp m (fun r s' => exists x', let x := get_field what st in
    s' = <[line := put_field what x' st]> s /\ word t x' /\ change start stop x x' /\ result x x' r) s.

Lemma bit_added x start stop : range_ok Bit start stop -> added start stop x 1 \/ ~ word Bit x.
Proof.
  intros [-> ->]%bit_range. destruct (decide (x = 0 \/ x = 1)) as [[->| ->]|Hn].
  - left. intros i Hi. rewrite testbit_1, Z.bits_0 by done. unfold in_range. cbn.
    apply bool_decide_ext. lia.
  - left. intros i Hi. rewrite !testbit_1 by done. unfold in_range. do 2 case_bool_decide; try done. lia.
  - right. by intros ?%bit_word.
Qed.

Lemma bit_removed x start stop : range_ok Bit start stop -> word Bit x -> removed start stop x 0.
Proof.
  intros [-> ->]%bit_range Hx i Hi. rewrite Z.bits_0. unfold in_range.
  destruct (decide (0 <= i <= 0)).
  - rewrite bool_decide_eq_true_2 by done. by rewrite andb_false_r.
  - rewrite (testbit_high Bit x i) by (done || (cbn; lia)). done.
Qed.

Lemma some_bit_nonzero t x : word t x -> bool_decide (x <> 0) = true <-> some_bit x.
Proof. intros [Hx _]. by apply nonzero_bits. Qed.

Lemma bit_some_all x start stop : word Bit x -> range_ok Bit start stop ->
  some_bit x <-> (if true then all_in start stop x else False).
Proof.
  intros Hx Hr. rewrite <- (some_bit_nonzero Bit) by done. rewrite (bit_nonzero x start stop) by done.
  rewrite (bit_all_any x start stop) by done. tauto.
Qed.

Lemma bit_test x start stop all : word Bit x -> range_ok Bit start stop ->
  bool_decide (x <> 0) = true <-> if all : bool then all_in start stop x else any_in start stop x.
Proof.
  intros Hx Hr. rewrite (bit_nonzero x start stop) by done.
  pose proof (bit_all_any x start stop Hx Hr). destruct all; tauto.
Qed.

(** The results of the four updates. *)
Definition was_some (x x' : Z) (r : bool) : Prop := r = true <-> some_bit x.
Definition left_some (x x' : Z) (r : bool) : Prop := r = true <-> some_bit x'.
Definition was_in (start stop : Z) (all : bool) (x x' : Z) (r : bool) : Prop :=
  r = true <-> if all then all_in start stop x else any_in start stop x.

(** Opening moves of the one-bit variant, and of the masked ones. *)
Ltac status_bit Hr :=
  apply wp_bind, wp_bug_on;
    [apply (bool_decide_eq_false_2 (_ <> _)); apply bit_range in Hr; lia|].
Ltac status_mask mask Hm Hr := apply wp_bind, (wp_get_mask _ _ _ _ _ Hr); intros mask Hm; cbv beta.
Ltac status_exec Hs :=
  unfold status; repeat first
    [ apply wp_set_status with (1 := Hs) | apply wp_bind
    | apply wp_load with (1 := Hs) | apply wp_load with (1 := lookup_insert_eq _ _ _) | apply wp_ret ];
  cbv beta zeta; rewrite ?get_put_field; cbn [put_field get_field valid dirty].

Lemma set_performs t what line start stop :
  performs t line start stop what added was_some (_ocf_metadata_set t what line start stop).
Proof.
  intros s st Hs Hst Hr. pose proof (word_field t what st Hst) as Hx. destruct t.
  1: status_bit Hr; status_exec Hs; exists 1; split_and!; try done;
       [by destruct (bit_added (get_field what st) _ _ Hr)|by apply (some_bit_nonzero Bit)].
  all: status_mask msk Hm Hr; status_exec Hs; eexists; split_and!; [done|..].
  all: first [by apply lor_word; [|apply Hm] | by eapply lor_added | by eapply some_bit_nonzero].
Qed.

Lemma test_and_set_performs t what line start stop all :
  performs t line start stop what added (was_in start stop all) (_ocf_metadata_test_and_set t what line start stop all).
Proof.
  intros s st Hs Hst Hr. pose proof (word_field t what st Hst) as Hx. destruct t.
  1: status_bit Hr; status_exec Hs; exists 1; split_and!; try done;
       [by destruct (bit_added (get_field what st) _ _ Hr)|by apply bit_test].
  all: status_mask msk Hm Hr; status_exec Hs; eexists; split_and!; [done|..].
  all: first [by apply lor_word; [|apply Hm] | by eapply lor_added | by eapply test_bits_spec].
Qed.

Lemma clear_performs t what line start stop :
  performs t line start stop what removed left_some (_ocf_metadata_clear t what line start stop).
Proof.
  intros s st Hs Hst Hr. pose proof (word_field t what st Hst) as Hx. destruct t.
  1: status_bit Hr; status_exec Hs; exists 0; split_and!; try done;
       [by apply bit_removed|split; [done|intros (i & _ & Hi); by rewrite Z.bits_0 in Hi]].
  all: status_mask msk Hm Hr; status_exec Hs; eexists; split_and!; [done|..].
  all: first [by apply ldiff_word | by eapply ldiff_removed | by eapply some_bit_nonzero, ldiff_word].
Qed.

Lemma test_and_clear_performs t what line start stop all :
  performs t line start stop what removed (was_in start stop all) (_ocf_metadata_test_and_clear t what line start stop all).
Proof.
  intros s st Hs Hst Hr. pose proof (word_field t what st Hst) as Hx. destruct t.
  1: status_bit Hr; status_exec Hs; exists 0; split_and!; try done;
       [by apply bit_removed|by apply bit_test].
  all: status_mask msk Hm Hr; status_exec Hs; eexists; split_and!; [done|..].
  all: first [by apply ldiff_word | by eapply ldiff_removed | by eapply test_bits_spec].
Qed.

Lemma test_exact t what line start stop all s st :
  s !! line = Some st -> status_ok t st -> range_ok t start stop ->
  wp (_ocf_metadata_test t what line start stop all) (fun r s' => s' = s /\
    (r = true <-> if all then all_in start stop (get_field what st) else any_in start stop (get_field what st))) s.
Proof.
  intros Hs Hst Hr. pose proof (word_field t what st Hst) as Hx. destruct t.
  1: status_bit Hr; status_exec Hs; split; [done|by apply bit_test].
  all: status_mask msk Hm Hr; status_exec Hs; split; [done|by eapply test_bits_spec].
Qed.

Lemma test_out_exact t what line start stop s st :
  s !! line = Some st -> status_ok t st -> range_ok t start stop ->
  wp (_ocf_metadata_test_out t what line start stop) (fun r s' => s' = s /\
    (r = true <-> any_out start stop (get_field what st))) s.
Proof.
  intros Hs Hst Hr. pose proof (word_field t what st Hst) as Hx. destruct t.
  1: apply wp_ret; split; [done|]; split; [done|]; intros (i & Hi & Ho & Hb);
     apply bit_range in Hr as [-> ->]; rewrite (testbit_high Bit) in Hb by (done || (cbn; lia)); done.
  all: status_mask msk Hm Hr; status_exec Hs; split; [done|].
  all: rewrite nonzero_bits by (apply Z.ldiff_nonneg; left; apply Hx); apply exist_proper; intros i.
  all: split; [intros [Hi Hb]|intros (Hi & Ho & Hb)].
  all: first
    [ rewrite (ldiff_removed _ _ _ _ _ Hm) in Hb by done; apply andb_true_iff in Hb as [Hb Hn%negb_true_iff];
      apply bool_decide_eq_false_1 in Hn; done
    | split; [done|]; rewrite (ldiff_removed _ _ _ _ _ Hm) by done; rewrite Hb;
      unfold in_range; by rewrite bool_decide_eq_false_2 ].
Qed.

(** ** Valid against dirty *)

(** Blocks of the range survive in [x'] only where [keep] has them. *)
Definition kept (start stop keep x x' : Z) : Prop :=
  forall i, 0 <= i -> Z.testbit x' i = Z.testbit x i && (negb (in_range start stop i) || Z.testbit keep i).
Definition dirty_within_valid (st : map_status) : Prop :=
  forall i, 0 <= i -> Z.testbit (dirty st) i = true -> Z.testbit (valid st) i = true.

Lemma survive_kept t start stop msk keep x :
  is_mask t start stop msk -> word t x -> kept start stop keep x (Z.land x (survive msk keep)).
Proof.
  intros [_ Hm] _ i Hi. unfold survive. rewrite Z.land_spec, Z.lor_spec, Z.land_spec, Z.lnot_spec, Hm by done.
  by destruct (in_range start stop i), (Z.testbit x i), (Z.testbit keep i).
Qed.

Lemma land_word t x m : word t x -> word t (Z.land x m).
Proof.
  intros Hx. apply word_of_bits.
  - apply Z.land_nonneg. left. apply Hx.
  - intros i Hi. rewrite Z.land_spec, (testbit_high t x) by done. done.
Qed.

Lemma bit_kept start stop keep x : range_ok Bit start stop -> word Bit x -> word Bit keep ->
  kept start stop keep x (if bool_decide (keep = 0) then 0 else x).
Proof.
  intros [-> ->]%bit_range Hx Hk i Hi. destruct (decide (1 <= i)) as [Hi1|Hi1].
  - rewrite (testbit_high Bit x i) by done. case_bool_decide; [by rewrite Z.bits_0|].
    by rewrite (testbit_high Bit x i).
  - replace i with 0 by lia. apply bit_word in Hk as [->| ->]; cbn.
    + by rewrite andb_false_r.
    + by rewrite andb_true_r.
Qed.

Lemma check_exact line s st t :
  s !! line = Some st -> status_ok t st ->
  wp (_ocf_metadata_check line) (fun r s' => s' = s /\ (r = true <-> dirty_within_valid st)) s.
Proof.
  intros Hs [Hv Hd]. unfold _ocf_metadata_check. status_exec Hs. split; [done|].
  rewrite bool_decide_eq_true. split.
  - intros He i Hi Hb. assert (Hz := f_equal (fun z => Z.testbit z i) He). cbn in Hz.
    rewrite Z.ldiff_spec, Hb, Z.bits_0 in Hz. by destruct (Z.testbit (valid st) i).
  - intros Hw. apply Z.bits_inj'. intros i Hi. rewrite Z.ldiff_spec, Z.bits_0.
    specialize (Hw i Hi). destruct (Z.testbit (dirty st) i); [by rewrite Hw|done].
Qed.

Lemma clear_valid_if_clean_exact t line start stop s st :
  s !! line = Some st -> status_ok t st -> range_ok t start stop ->
  wp (_ocf_metadata_clear_valid_if_clean t line start stop) (fun r s' => exists v',
    s' = <[line := MapStatus v' (dirty st)]> s /\ word t v' /\ kept start stop (dirty st) (valid st) v' /\
    (r = true <-> some_bit v')) s.
Proof.
  intros Hs [Hv Hd] Hr. destruct t.
  1: status_bit Hr; status_exec Hs; exists (if bool_decide (dirty st = 0) then 0 else valid st);
       (assert (word Bit (if bool_decide (dirty st = 0) then 0 else valid st)) by by case_bool_decide);
       split_and!; [done|done|by apply bit_kept|by apply (some_bit_nonzero Bit)].
  all: status_mask msk Hm Hr; status_exec Hs; eexists; split_and!; [done|..].
  all: first [by apply land_word | by eapply survive_kept | by eapply some_bit_nonzero, land_word].
Qed.

Lemma clear_dirty_if_invalid_exact t line start stop s st :
  s !! line = Some st -> status_ok t st -> range_ok t start stop ->
  wp (_ocf_metadata_clear_dirty_if_invalid t line start stop) (fun _ s' => exists d',
    s' = <[line := MapStatus (valid st) d']> s /\ word t d' /\ kept start stop (valid st) (dirty st) d') s.
Proof.
  intros Hs [Hv Hd] Hr. destruct t.
  1: status_bit Hr; status_exec Hs; exists (if bool_decide (valid st = 0) then 0 else dirty st);
       split_and!; [done|by case_bool_decide|by apply bit_kept].
  all: status_mask msk Hm Hr; status_exec Hs; eexists; split_and!; [done|..].
  all: first [by apply land_word | by eapply survive_kept].
Qed.

(** ** Properties *)

(** Testing the valid or dirty bits of a range of blocks answers exactly
    whether all, or any, of the blocks of the range are set, and testing
    outside the range whether any other block is; the table is unchanged. *)
Theorem status_tests t what line start stop (all : bool) (s : status_table) st :
  s !! line = Some st -> status_ok t st -> range_ok t start stop ->
  let x := get_field what st in
  wp (_ocf_metadata_test t what line start stop all) (fun r s' => s' = s /\
    (r = true <-> if all then all_in start stop x else any_in start stop x)) s /\
  wp (_ocf_metadata_test_out t what line start stop) (fun r s' => s' = s /\ (r = true <-> any_out start stop x)) s.
Proof. intros Hs Hst Hr x. split; [by apply test_exact|by apply test_out_exact]. Qed.

(** C21. The four updates add the blocks of the range to the valid or dirty
    set of the line, or remove them, and touch nothing else.  The results: set
    tells whether any block was set before, clear whether any is left,
    test-and-set and test-and-clear whether all or any of the range were set. *)
Theorem status_updates t what line start stop (all : bool) (s : status_table) st :
  s !! line = Some st -> status_ok t st -> range_ok t start stop ->
  let x := get_field what st in
  let becomes (change : Z -> Z -> Z -> Z -> Prop) (result : Z -> bool -> Prop) (r : bool) (s' : status_table) :=
    exists x', s' = <[line := put_field what x' st]> s /\ word t x' /\ change start stop x x' /\ result x' r in
  let tested (r : bool) := r = true <-> if all then all_in start stop x else any_in start stop x in
  wp (_ocf_metadata_set t what line start stop) (becomes added (fun (_ : Z) (r : bool) => r = true <-> some_bit x)) s /\
  wp (_ocf_metadata_clear t what line start stop) (becomes removed (fun (x1 : Z) (r : bool) => r = true <-> some_bit x1)) s /\
  wp (_ocf_metadata_test_and_set t what line start stop all) (becomes added (fun (_ : Z) => tested)) s /\
  wp (_ocf_metadata_test_and_clear t what line start stop all) (becomes removed (fun (_ : Z) => tested)) s.
Proof.
  intros Hs Hst Hr. split_and!;
    [by apply set_performs|by apply clear_performs|by apply test_and_set_performs|by apply test_and_clear_performs].
Qed.

(** Clearing the valid bits of clean blocks removes from the range
    exactly the blocks that are not dirty, and clearing the dirty bits of
    invalid blocks exactly those that are not valid; the first keeps every
    dirty block valid if that was so, the second establishes it when it runs
    over the whole field; the check function decides whether it is so. *)
Theorem status_dirty_valid t line start stop (s : status_table) st :
  s !! line = Some st -> status_ok t st -> range_ok t start stop ->
  wp (_ocf_metadata_check line) (fun r s' => s' = s /\ (r = true <-> dirty_within_valid st)) s /\
  wp (_ocf_metadata_clear_valid_if_clean t line start stop) (fun r s' => exists v',
    s' = <[line := MapStatus v' (dirty st)]> s /\ kept start stop (dirty st) (valid st) v' /\
    (r = true <-> some_bit v') /\
    (dirty_within_valid st -> dirty_within_valid (MapStatus v' (dirty st)))) s /\
  wp (_ocf_metadata_clear_dirty_if_invalid t line start stop) (fun _ s' => exists d',
    s' = <[line := MapStatus (valid st) d']> s /\ kept start stop (valid st) (dirty st) d' /\
    (start = 0 -> stop = type_bits t - 1 -> dirty_within_valid (MapStatus (valid st) d'))) s.
Proof.
  intros Hs Hst Hr. split_and!.
  - by eapply check_exact.
  - eapply wp_mono; [by apply clear_valid_if_clean_exact|].
    intros r s' (v' & ? & ? & Hk & ?). exists v'. split_and!; try done.
    intros Hd i Hi Hb. cbn in *. rewrite Hk, Hd, Hb by done. by rewrite orb_true_r.
  - eapply wp_mono; [by apply clear_dirty_if_invalid_exact|].
    intros [] s' (d' & ? & Hw & Hk). exists d'. split_and!; try done.
    intros -> -> i Hi Hb. cbn in *. rewrite Hk in Hb by done.
    apply andb_true_iff in Hb as [Hb Hv]. unfold in_range in Hv.
    rewrite bool_decide_eq_true_2 in Hv; [done|].
    split; [done|]. destruct (decide (type_bits t <= i)); [|lia].
    rewrite (testbit_high t (dirty st)) in Hb by (done || apply Hst). done.
Qed.

Lemma negb_iff (b : bool) P : (b = true <-> P) -> (negb b = true <-> ~ P).
Proof. intros [H1 H2]. destruct b; cbn; split; try done; [tauto|]. intros _ HP. by specialize (H2 HP). Qed.

Lemma end_block_ok block_4k line_size : range_ok (field block_4k line_size) 0 (end_block block_4k line_size).
Proof. by destruct block_4k, line_size; unfold range_ok; cbn; vm_compute. Qed.

(** The functions that report a change: adding valid blocks tells whether
    the line had none before; removing valid blocks tells whether the line
    became invalid and whether it remains valid; removing dirty blocks tells
    whether any of them was dirty and whether the line is clean now; adding
    dirty blocks tells whether any of them was clean and whether the line was
    dirty before. *)
Theorem status_reports block_4k line_size line start stop (s : status_table) st :
  let t := field block_4k line_size in
  s !! line = Some st -> status_ok t st -> range_ok t start stop ->
  let line_valid := any_in 0 (end_block block_4k line_size) (valid st) in
  wp (metadata_set_valid_sec_changed block_4k line_size line start stop) (fun changed s' => exists v',
    s' = <[line := MapStatus v' (dirty st)]> s /\ added start stop (valid st) v' /\
    (changed = true <-> ~ some_bit (valid st))) s /\
  wp (metadata_clear_valid_sec_changed block_4k line_size line start stop) (fun '(changed, remains) s' => exists v',
    s' = <[line := MapStatus v' (dirty st)]> s /\ removed start stop (valid st) v' /\
    (remains = true <-> some_bit v') /\ (changed = true <-> line_valid /\ ~ some_bit v')) s /\
  wp (metadata_clear_dirty_sec_changed block_4k line_size line start stop) (fun '(changed, clean) s' => exists d',
    s' = <[line := MapStatus (valid st) d']> s /\ removed start stop (dirty st) d' /\
    (changed = true <-> any_in start stop (dirty st)) /\ (clean = true <-> ~ some_bit d')) s /\
  wp (metadata_set_dirty_sec_changed block_4k line_size line start stop) (fun '(changed, was) s' => exists d',
    s' = <[line := MapStatus (valid st) d']> s /\ added start stop (dirty st) d' /\
    (changed = true <-> ~ all_in start stop (dirty st)) /\ (was = true <-> some_bit (dirty st))) s.
Proof.
  intros t Hs Hst Hr lv. split_and!; apply wp_bind.
  - eapply wp_mono; [by apply set_performs|]. intros r s' (v' & ? & _ & ? & ?).
    apply wp_ret. exists v'. split_and!; try done. by apply negb_iff.
  - eapply wp_mono; [apply test_exact; [done..|apply end_block_ok]|]. intros w s' [-> Hw].
    apply wp_bind. eapply wp_mono; [by apply clear_performs|]. intros r s' (v' & ? & _ & ? & Hc).
    apply wp_ret. exists v'. split_and!; try done.
    rewrite andb_true_iff, (negb_iff _ _ Hc). by rewrite Hw.
  - eapply wp_mono; [by apply test_exact|]. intros w s' [-> Hw].
    apply wp_bind. eapply wp_mono; [by apply clear_performs|]. intros r s' (v' & ? & _ & ? & Hc).
    apply wp_ret. exists v'. split_and!; try done. by apply negb_iff.
  - eapply wp_mono; [by apply test_exact|]. intros w s' [-> Hw].
    apply wp_bind. eapply wp_mono; [by apply set_performs|]. intros r s' (v' & ? & _ & ? & Hc).
    apply wp_ret. exists v'. split_and!; try done. by apply negb_iff.
Qed.

(** ** Witnesses: block 1 of a 4 KiB line is valid and dirty, block 2 only valid *)

Definition sample_status : map_status := MapStatus 6 2.
Definition sample_table : status_table := {[ 5 := sample_status ]}.

Lemma sample_ok t : t <> Bit -> status_ok t sample_status.
Proof. by destruct t. Qed.

Lemma status_tests_witness :
  fst <$> _ocf_metadata_test U8 Dirty 5 1 2 true sample_table = Some false /\
  wp (_ocf_metadata_test U8 Dirty 5 1 2 false) (fun r s' => s' = sample_table /\ (r = true <-> any_in 1 2 2)) sample_table.
Proof.
  split; [reflexivity|].
  apply (status_tests U8 Dirty 5 1 2 false sample_table sample_status); [done|by apply sample_ok|done].
Defined.

Lemma status_updates_witness :
  wp (_ocf_metadata_set U8 Dirty 5 2 3) (fun r s' => exists d', s' = <[5 := MapStatus 6 d']> sample_table /\
    word U8 d' /\ added 2 3 2 d' /\ (r = true <-> some_bit 2)) sample_table.
Proof.
  apply (status_updates U8 Dirty 5 2 3 false sample_table sample_status); [done|by apply sample_ok|done].
Defined.

Lemma status_dirty_valid_witness :
  wp (_ocf_metadata_check 5) (fun r s' => s' = sample_table /\ (r = true <-> dirty_within_valid sample_status)) sample_table.
Proof.
  apply (status_dirty_valid U8 5 0 7 sample_table sample_status); [done|by apply sample_ok|done].
Defined.

Lemma status_reports_witness :
  wp (metadata_set_valid_sec_changed false size_4 5 0 3) (fun changed s' => exists v',
    s' = <[5 := MapStatus v' 2]> sample_table /\ added 0 3 6 v' /\ (changed = true <-> ~ some_bit 6)) sample_table.
Proof.
  apply (status_reports false size_4 5 0 3 sample_table sample_status); [done|by apply sample_ok|done].
Defined.
