(* ===== verification/Request.v ===== *)
(** * Requests: [src/ocf_request.h], [src/ocf_request.c]

    The part of [struct ocf_request] that the mapping code works on: the byte
    range, the core lines it spans, one map entry per core line and the
    counters of the last traversal.  Addresses are 64-bit, lengths 32-bit. *)

From S2P Require Import Prelude Collision Status.

#[export] Instance ocf_map_info_eq_dec : EqDecision ocf_map_info.
Proof. solve_decision. Defined.

(** [struct ocf_map_info]: the mapping fields are [Collision.ocf_map_info]. *)
Record map_entry := MapEntry {
  me_info : ocf_map_info;
  me_invalid : bool;
  me_re_part : bool;
  me_flush : bool;
  me_start_flush : Z;
  me_stop_flush : Z
}.
#[export] Instance map_entry_eq_dec : EqDecision map_entry.
Proof. solve_decision. Defined.

(** Abbreviations for the fields behind [me_info]. *)
Definition me_status (e : map_entry) : lookup_status := mi_status (me_info e).
Definition me_coll_idx (e : map_entry) : Z := mi_coll_idx (me_info e).

Definition with_info (i : ocf_map_info) (e : map_entry) : map_entry :=
  MapEntry i (me_invalid e) (me_re_part e) (me_flush e) (me_start_flush e) (me_stop_flush e).
Definition with_status (st : lookup_status) (e : map_entry) : map_entry :=
  let i := me_info e in with_info (MapInfo (mi_hash i) (mi_coll_idx i) (mi_core_line i) (mi_core_id i) st) e.
Definition with_hash (h : Z) (e : map_entry) : map_entry :=
  let i := me_info e in with_info (MapInfo h (mi_coll_idx i) (mi_core_line i) (mi_core_id i) (mi_status i)) e.
Definition with_coll_idx (x : Z) (e : map_entry) : map_entry :=
  let i := me_info e in with_info (MapInfo (mi_hash i) x (mi_core_line i) (mi_core_id i) (mi_status i)) e.
Definition with_invalid (b : bool) (e : map_entry) : map_entry :=
  MapEntry (me_info e) b (me_re_part e) (me_flush e) (me_start_flush e) (me_stop_flush e).
Definition with_re_part (b : bool) (e : map_entry) : map_entry :=
  MapEntry (me_info e) (me_invalid e) b (me_flush e) (me_start_flush e) (me_stop_flush e).
Definition with_flush (e : map_entry) : map_entry :=
  MapEntry (me_info e) (me_invalid e) (me_re_part e) true (me_start_flush e) (me_stop_flush e).
Definition with_flush_range (start stop : Z) (e : map_entry) : map_entry :=
  MapEntry (me_info e) (me_invalid e) (me_re_part e) true (wrap 8 start) (wrap 8 stop).

(** [struct ocf_req_info]; the error flags of the I/O path are not here. *)
Record ocf_req_info := ReqInfo {
  hit_no : Z;
  invalid_no : Z;
  re_part_no : Z;
  seq_no : Z;
  insert_no : Z;
  dirty_all : Z;
  dirty_any : Z;
  flush_metadata : bool;
  mapping_error : bool;
  cleaning_required : bool
}.
#[export] Instance ocf_req_info_eq_dec : EqDecision ocf_req_info.
Proof. solve_decision. Defined.

Record ocf_request := Request {
  req_core : Z;              (** [ocf_core_get_id(req->core)] *)
  req_part : Z;              (** [req->part_id] *)
  addr : Z;
  bytes : Z;
  core_line_first : Z;
  core_line_last : Z;
  core_line_count : Z;
  req_map : list map_entry;
  info : ocf_req_info
}.

Definition with_map (m : list map_entry) (r : ocf_request) : ocf_request :=
  Request (req_core r) (req_part r) (addr r) (bytes r) (core_line_first r) (core_line_last r)
    (core_line_count r) m (info r).
Definition with_req_info (i : ocf_req_info) (r : ocf_request) : ocf_request :=
  Request (req_core r) (req_part r) (addr r) (bytes r) (core_line_first r) (core_line_last r)
    (core_line_count r) (req_map r) i.

Definition zero_info : ocf_req_info := ReqInfo 0 0 0 0 0 0 0 false false false.
Definition zero_entry : map_entry := MapEntry (MapInfo 0 0 0 0 LOOKUP_MISS) false false false 0 0.

Definition ocf_req_clear_info (r : ocf_request) : ocf_request := with_req_info zero_info r.

(** ** The core lines of a byte range *)

Section Request.
Context (block_4k : bool) (line_size : cache_line_size).

Definition OCF_BLOCK_SHIFT : Z := if block_4k then 12 else 9.
Definition BYTES_TO_BLOCKS_ROUND_DOWN (x : Z) : Z := Z.shiftr x OCF_BLOCK_SHIFT.
Definition line_blocks : Z := ocf_line_blocks block_4k line_size.

Definition ocf_bytes_2_lines (n : Z) : Z := n / line_bytes line_size.
Definition ocf_bytes_round_lines (n : Z) : Z := u64 (u64 (n + line_bytes line_size) - 1) / line_bytes line_size.
Definition ocf_bytes_2_lines_round_up (n : Z) : Z := u64 (u64 (n + line_bytes line_size) - 1) / line_bytes line_size.
Definition ocf_lines_2_bytes (lines : Z) : Z := u64 (lines * line_bytes line_size).

(** The geometry that [ocf_req_new] computes for [addr] and [bytes]. *)
Definition ocf_req_lines (addr bytes : Z) : Z * Z * Z :=
  if bool_decide (bytes <> 0) then
    let first := ocf_bytes_2_lines addr in
    let last := ocf_bytes_2_lines (u64 (u64 (addr + bytes) - 1)) in
    (first, last, u32 (u64 (last - first + 1)))
  else (ocf_bytes_2_lines addr, ocf_bytes_2_lines addr, 1).

Definition ocf_req_new (core part addr bytes : Z) (m : list map_entry) : ocf_request :=
  let '(first, last, count) := ocf_req_lines addr bytes in
  Request core part addr bytes first last count m zero_info.

Definition ocf_map_line_start_block (r : ocf_request) (line : Z) : Z :=
  if bool_decide (line = 0) then wrap 8 (BYTES_TO_BLOCKS_ROUND_DOWN (addr r) mod line_blocks) else 0.

Definition ocf_map_line_end_block (r : ocf_request) (line : Z) : Z :=
  if bool_decide (line = u32 (core_line_count r - 1))
  then wrap 8 (BYTES_TO_BLOCKS_ROUND_DOWN (u64 (u64 (addr r + bytes r) - 1)) mod line_blocks)
  else wrap 8 (ocf_line_end_block block_4k line_size).
End Request.

(** ** Hashes of the core lines *)

(** The loop of [ocf_req_hash] over the remaining entries. *)
Fixpoint hash_entries (entries hash : Z) (m : list map_entry) : list map_entry :=
  match m with
  | [] => []
  | e :: m =>
    let hash := ocf_metadata_hash_next entries hash in
    with_hash hash e :: hash_entries entries hash m
  end.

Definition ocf_req_hash (entries : Z) (r : ocf_request) : ocf_request :=
  match req_map r with
  | [] => r
  | e :: m =>
    let hash := ocf_metadata_hash_func entries (core_line_first r) (req_core r) in
    with_map (with_hash hash e :: hash_entries entries hash m) r
  end.
