(* ===== verification/RequestProofs.v ===== *)
(** * The geometry of requests

    The map entries of a request stand for consecutive core lines: the block
    ranges of the entries tile the byte range, and the running hash is the
    hash of every line. *)

From S2P Require Import Prelude Collision CollisionProofs Status StatusProofs Request.

(** ** Hashes *)

Lemma hash_next_step entries core l :
  0 < entries < 2 ^ 32 -> 0 <= l -> l + 1 + 2 ^ 32 <= 2 ^ 64 ->
  ocf_metadata_hash_next entries (ocf_metadata_hash_func entries l core) =
  ocf_metadata_hash_func entries (l + 1) core.
Proof.
  intros He Hl Hw. unfold ocf_metadata_hash_next, ocf_metadata_hash_func.
  set (o := u32 (core * (entries / 32))).
  assert (Ho : 0 <= o < 2 ^ 32) by (by apply wrap_range).
  rewrite !(wrap_small 64) by lia.
  pose proof (Z.mod_pos_bound (l + o) entries ltac:(lia)).
  pose proof (Z.mod_pos_bound (l + 1 + o) entries ltac:(lia)).
  rewrite (wrap_small 32 ((l + o) mod entries)) by lia. rewrite !(wrap_small 32) by lia.
  replace (l + 1 + o) with (l + o + 1) by lia.
  pose proof (Zplus_mod_idemp_l (l + o) 1 entries) as Hm. rewrite <- Hm.
  destruct (decide ((l + o) mod entries + 1 < entries)) as [Hlt|Hge].
  - rewrite bool_decide_eq_true_2 by done. by rewrite (Z.mod_small ((l + o) mod entries + 1)) by lia.
  - rewrite bool_decide_eq_false_2 by done.
    replace ((l + o) mod entries + 1) with entries by lia. by rewrite Z_mod_same_full.
Qed.

(** Entry [e] is [e0] with the hash of core line [l]. *)
Definition hashed (entries core l : Z) (e0 e : map_entry) : Prop :=
  e = with_hash (ocf_metadata_hash_func entries l core) e0.

Lemma hash_entries_spec entries core m l i :
  0 < entries < 2 ^ 32 -> 0 <= l -> l + 1 + Z.of_nat (length m) + 2 ^ 32 <= 2 ^ 64 ->
  forall e, hash_entries entries (ocf_metadata_hash_func entries l core) m !! i = Some e ->
  exists e0, m !! i = Some e0 /\ hashed entries core (l + 1 + Z.of_nat i) e0 e.
Proof.
  intros He. revert l i. induction m as [|e0 m IH]; intros l i Hl Hw e; [done|].
  cbn [hash_entries]. rewrite hash_next_step by (done || cbn [length] in Hw; lia).
  destruct i as [|i]; cbn [lookup list_lookup].
  - intros [= <-]. exists e0. split; [done|]. unfold hashed. do 2 f_equal. lia.
  - intros Hi. apply IH in Hi as (e1 & ? & Hh); [|lia|cbn [length] in Hw; lia].
    exists e1. split; [done|]. unfold hashed in *. rewrite Hh. do 2 f_equal. lia.
Qed.

(** Hashing a request: every entry gets the bucket of its own core line, and
    nothing else changes. *)
Lemma ocf_req_hash_entries entries r :
  0 < entries < 2 ^ 32 -> 0 <= core_line_first r ->
  core_line_first r + Z.of_nat (length (req_map r)) + 2 ^ 32 <= 2 ^ 64 ->
  with_map (req_map r) (ocf_req_hash entries r) = r /\
  length (req_map (ocf_req_hash entries r)) = length (req_map r) /\
  forall i e0, req_map r !! i = Some e0 ->
  req_map (ocf_req_hash entries r) !! i =
    Some (with_hash (ocf_metadata_hash_func entries (core_line_first r + Z.of_nat i) (req_core r)) e0).
Proof.
  intros He Hf Hw. unfold ocf_req_hash. destruct r as [core part a b f l c m inf]. cbn in *.
  destruct m as [|e m]; [done|].
  assert (Hlen : forall m h, length (hash_entries entries h m) = length m)
    by (induction m0 as [|x m0 IH]; intros h; cbn; [done|by rewrite IH]).
  cbn. split; [done|]. split; [by rewrite Hlen|].
  intros [|i] e0 Hi; cbn in *.
  - injection Hi as <-. do 3 f_equal. lia.
  - destruct (lookup_lt_is_Some_2 (hash_entries entries (ocf_metadata_hash_func entries f core) m) i) as [x Hx].
    { rewrite Hlen. by eapply lookup_lt_Some. }
    etransitivity; [exact Hx|]. destruct (hash_entries_spec entries core m f i He Hf ltac:(lia) x Hx) as (e1 & H1 & ->).
    assert (Some e1 = Some e0) as [= ->] by (rewrite <- H1; exact Hi). do 3 f_equal. lia.
Qed.

(** ** Blocks *)

Lemma line_bytes_blocks block_4k line_size :
  line_bytes line_size = ocf_line_blocks block_4k line_size * 2 ^ OCF_BLOCK_SHIFT block_4k.
Proof. by destruct block_4k, line_size. Qed.

Lemma line_blocks_bounds block_4k line_size : 1 <= ocf_line_blocks block_4k line_size <= 128.
Proof. by destruct block_4k, line_size. Qed.

Section Geometry.
Context (block_4k : bool) (line_size : cache_line_size).
Abbreviation n := (ocf_line_blocks block_4k line_size).
Abbreviation blk := (BYTES_TO_BLOCKS_ROUND_DOWN block_4k).
Abbreviation start := (ocf_map_line_start_block block_4k line_size).
Abbreviation stop := (ocf_map_line_end_block block_4k line_size).

(** The line of a byte is the line of its block. *)
Lemma bytes_2_lines_block x : ocf_bytes_2_lines line_size x = blk x / n.
Proof.
  unfold ocf_bytes_2_lines, BYTES_TO_BLOCKS_ROUND_DOWN. rewrite (line_bytes_blocks block_4k).
  rewrite Z.shiftr_div_pow2 by (by destruct block_4k).
  rewrite Z.mul_comm, <- Z.div_div; [done| |]; by destruct block_4k, line_size.
Qed.

Lemma blk_mono x y : x <= y -> blk x <= blk y.
Proof.
  intros. unfold BYTES_TO_BLOCKS_ROUND_DOWN. rewrite !Z.shiftr_div_pow2 by (by destruct block_4k).
  apply Z.div_le_mono; [by destruct block_4k|done].
Qed.

Definition good_range (addr bytes : Z) : Prop := 0 <= addr /\ 0 < bytes < 2 ^ 32 /\ addr + bytes < 2 ^ 64.

(** The geometry of a request in terms of its first and last block. *)
Lemma req_geometry core part a b m :
  good_range a b ->
  let r := ocf_req_new line_size core part a b m in
  0 <= blk a <= blk (a + b - 1) /\
  core_line_first r = blk a / n /\ core_line_last r = blk (a + b - 1) / n /\
  core_line_count r = core_line_last r - core_line_first r + 1 /\
  0 < core_line_count r < 2 ^ 32 /\ addr r = a /\ u64 (u64 (addr r + bytes r) - 1) = a + b - 1.
Proof.
  intros (Ha & Hb & Hab). unfold ocf_req_new, ocf_req_lines.
  rewrite (bool_decide_eq_true_2 (b <> 0)) by lia. cbn [core_line_count core_line_first core_line_last addr bytes].
  rewrite !(wrap_small 64 (a + b)), !(wrap_small 64 (a + b - 1)) by lia.
  assert (H0 : 0 <= blk a).
  { unfold BYTES_TO_BLOCKS_ROUND_DOWN. by apply Z.shiftr_nonneg. }
  pose proof (blk_mono a (a + b - 1) ltac:(lia)) as Hm.
  assert (Hc : 0 <= ocf_bytes_2_lines line_size (a + b - 1) - ocf_bytes_2_lines line_size a < 2 ^ 32 - 1).
  { unfold ocf_bytes_2_lines. assert (HL : 4096 <= line_bytes line_size) by (by destruct line_size).
    pose proof (Z.div_mod a (line_bytes line_size) ltac:(lia)).
    pose proof (Z.mod_pos_bound a (line_bytes line_size) ltac:(lia)).
    pose proof (Z.div_mod (a + b - 1) (line_bytes line_size) ltac:(lia)).
    pose proof (Z.mod_pos_bound (a + b - 1) (line_bytes line_size) ltac:(lia)). nia. }
  rewrite (wrap_small 64) by lia. rewrite wrap_small by lia. rewrite <- !bytes_2_lines_block.
  split_and!; try done; lia.
Qed.

Lemma start_block r i : 0 <= blk (addr r) ->
  start r i = if decide (i = 0) then blk (addr r) mod n else 0.
Proof.
  intros Ha. unfold ocf_map_line_start_block. pose proof (line_blocks_bounds block_4k line_size).
  case_decide; [rewrite bool_decide_eq_true_2 by done|by rewrite bool_decide_eq_false_2 by done].
  pose proof (Z.mod_pos_bound (blk (addr r)) n ltac:(lia)). apply wrap_small. unfold line_blocks. lia.
Qed.

Lemma stop_block r i : 0 < core_line_count r < 2 ^ 32 ->
  stop r i = if decide (i = core_line_count r - 1)
             then blk (u64 (u64 (addr r + bytes r) - 1)) mod n else n - 1.
Proof.
  intros Hc. unfold ocf_map_line_end_block. pose proof (line_blocks_bounds block_4k line_size).
  rewrite (wrap_small 32) by lia.
  case_decide; [rewrite bool_decide_eq_true_2 by done|rewrite bool_decide_eq_false_2 by done].
  - match goal with |- wrap 8 (?x mod _) = _ => pose proof (Z.mod_pos_bound x n ltac:(lia)) end.
    apply wrap_small. unfold line_blocks. lia.
  - apply wrap_small. unfold ocf_line_end_block. lia.
Qed.

(** Blocks [A..B] cut at multiples of [k]. *)
Lemma tiles k A B x :
  0 < k -> 0 <= A <= B ->
  A <= x <= B <-> exists i, 0 <= i < B / k - A / k + 1 /\
    (if decide (i = 0) then A mod k else 0) <= x - (A / k + i) * k <=
    (if decide (i = B / k - A / k + 1 - 1) then B mod k else k - 1).
Proof.
  intros Hk HAB.
  pose proof (Z.div_mod A k ltac:(lia)) as EA. pose proof (Z.mod_pos_bound A k Hk).
  pose proof (Z.div_mod B k ltac:(lia)) as EB. pose proof (Z.mod_pos_bound B k Hk).
  pose proof (Z.div_mod x k ltac:(lia)) as Ex. pose proof (Z.mod_pos_bound x k Hk).
  set (qa := A / k) in *. set (qb := B / k) in *. set (qx := x / k) in *.
  set (ra := A mod k) in *. set (rb := B mod k) in *. set (rx := x mod k) in *. split.
  - intros Hx. exists (qx - qa). assert (qa <= qx <= qb) by nia. split; [lia|].
    replace (x - (qa + (qx - qa)) * k) with rx by nia. repeat case_decide; nia.
  - intros (i & Hi & Hx). repeat case_decide; nia.
Qed.
End Geometry.

(** The blocks of an entry lie within a line, in order. *)
Lemma entry_blocks block_4k line_size core part a b m i :
  good_range a b ->
  let r := ocf_req_new line_size core part a b m in
  0 <= i < core_line_count r ->
  0 <= ocf_map_line_start_block block_4k line_size r i <= ocf_map_line_end_block block_4k line_size r i /\
  ocf_map_line_end_block block_4k line_size r i < ocf_line_blocks block_4k line_size.
Proof.
  intros Hg r Hi.
  destruct (req_geometry block_4k line_size core part a b m Hg) as (HAB & Ef & El & Ec & Hc & Ea & Eb).
  fold r in Ef, El, Ec, Hc, Ea, Eb. pose proof (line_blocks_bounds block_4k line_size) as Hn.
  set (blocks := ocf_line_blocks block_4k line_size) in *.
  set (A := BYTES_TO_BLOCKS_ROUND_DOWN block_4k a) in *.
  set (B := BYTES_TO_BLOCKS_ROUND_DOWN block_4k (a + b - 1)) in *.
  rewrite start_block by (by rewrite Ea; apply HAB). rewrite stop_block by done. rewrite Eb, Ea.
  fold A B blocks. rewrite Ef, El in Ec. rewrite Ec in Hi, Hc |- *.
  pose proof (Z.mod_pos_bound A blocks ltac:(lia)). pose proof (Z.mod_pos_bound B blocks ltac:(lia)).
  repeat case_decide; try lia. subst i.
  assert (Eq : A / blocks = B / blocks) by lia.
  pose proof (Z.mod_eq A blocks ltac:(lia)) as HA. pose proof (Z.mod_eq B blocks ltac:(lia)) as HB.
  rewrite Eq in HA. lia.
Qed.

(** The blocks of the bytes of a request are those of its entries. *)
Lemma blocks_tile block_4k line_size core part a b m :
  good_range a b ->
  let r := ocf_req_new line_size core part a b m in
  let start := ocf_map_line_start_block block_4k line_size r in
  let stop := ocf_map_line_end_block block_4k line_size r in
  let blocks := ocf_line_blocks block_4k line_size in
  forall x, BYTES_TO_BLOCKS_ROUND_DOWN block_4k a <= x <= BYTES_TO_BLOCKS_ROUND_DOWN block_4k (a + b - 1) <->
    exists i, 0 <= i < core_line_count r /\ start i <= x - (core_line_first r + i) * blocks <= stop i.
Proof.
  intros Hg r start stop blocks.
  destruct (req_geometry block_4k line_size core part a b m Hg) as (HAB & Ef & El & Ec & Hc & Ea & Eb).
  fold r in Ef, El, Ec, Hc, Ea, Eb. pose proof (line_blocks_bounds block_4k line_size) as Hn. fold blocks in Hn, Ef, El.
  set (A := BYTES_TO_BLOCKS_ROUND_DOWN block_4k a) in *.
  set (B := BYTES_TO_BLOCKS_ROUND_DOWN block_4k (a + b - 1)) in *.
  assert (Hs : forall i, start i = if decide (i = 0) then A mod blocks else 0).
  { intros i. unfold start. rewrite start_block by (by rewrite Ea; apply HAB). by rewrite Ea. }
  assert (Ht : forall i, stop i = if decide (i = core_line_count r - 1) then B mod blocks else blocks - 1).
  { intros i. unfold stop. rewrite stop_block by done. by rewrite Eb. }
  rewrite Ef, El in Ec. rewrite Ec in Ht. intros x. rewrite Ec. rewrite (tiles blocks A B x) by lia. rewrite Ef.
  apply exist_proper. intros i. by rewrite Hs, Ht.
Qed.

(** The map entries of a new request tile its byte range: the block range
    of every entry is a range of blocks of a cache line, and the blocks of all
    entries, placed at their core lines, are exactly the blocks the bytes of
    the request touch. *)
Theorem req_blocks_tile block_4k line_size core part a b m :
  good_range a b ->
  let r := ocf_req_new line_size core part a b m in
  let start := ocf_map_line_start_block block_4k line_size r in
  let stop := ocf_map_line_end_block block_4k line_size r in
  let blocks := ocf_line_blocks block_4k line_size in
  (forall i, 0 <= i < core_line_count r -> 0 <= start i <= stop i /\ stop i < blocks) /\
  (forall x, BYTES_TO_BLOCKS_ROUND_DOWN block_4k a <= x <= BYTES_TO_BLOCKS_ROUND_DOWN block_4k (a + b - 1) <->
    exists i, 0 <= i < core_line_count r /\ start i <= x - (core_line_first r + i) * blocks <= stop i).
Proof. intros Hg r start stop blocks. split; [intros i; by apply entry_blocks|by apply blocks_tile]. Qed.

(** ** Witnesses *)

Definition sample_request : ocf_request :=
  ocf_req_new size_4 3 0 5120 10240 [zero_entry; zero_entry; zero_entry].


Lemma req_blocks_tile_witness :
  10 <= 29 <= 29 <-> exists i, 0 <= i < 3 /\
    ocf_map_line_start_block false size_4 sample_request i <= 29 - (1 + i) * 8 <=
    ocf_map_line_end_block false size_4 sample_request i.
Proof.
  destruct (req_blocks_tile false size_4 3 0 5120 10240 [zero_entry; zero_entry; zero_entry]) as [_ H];
    [unfold good_range; lia|]. exact (H 29).
Defined.
