(* ===== verification/CacheLine.v ===== *)
(** * Cache-line state changes: [src/utils/utils_cache_line.c], [.h]

    The operations that make cache lines valid, dirty, clean, invalid or
    unavailable.  They act on the status bits, the mapping, the LRU lists and
    the counters of the cores together, so the state is the product of the
    component states.  The dispatchers of [ocf_eviction.c] are taken for the
    LRU policy; the cleaning policy is an interface, as [cleaning_ops.h] makes
    it one.  The collision page locks taken around the operations are not part
    of the state. *)

From S2P Require Import Prelude Alock AlockProofs CacheLineLock Links Lru Generator LruPart Collision Status Request.

(** The operations of [struct cleaning_policy_ops] on single cache lines.  A
    policy sees the status bits. *)
Class CleaningPolicy (C : Type) := {
  init_cache_block : status_table -> Z -> C -> C;
  purge_cache_block : status_table -> Z -> C -> C;
  set_hot_cache_line : status_table -> Z -> C -> C
}.

(** [ocf_cleaning_nop] registers none of them. *)
#[export] Instance cleaning_nop : CleaningPolicy unit :=
  {| init_cache_block _ _ c := c; purge_cache_block _ _ c := c; set_hot_cache_line _ _ c := c |}.

(** [core->runtime_meta->part_counters[i]] and [core->runtime_meta]. *)
Record part_counter := PartCounter { pc_cached_clines : Z; pc_dirty_clines : Z }.
Record core_runtime := CoreRuntime {
  cached_clines : Z;
  dirty_clines : Z;
  dirty_since : Z;
  part_counters : gmap Z part_counter
}.

(** How the raw container of the collision segment is kept. *)
Inductive raw_type := raw_ram | raw_dynamic | raw_volatile | raw_atomic.
Inductive flush_state := FLUSH_CLEAN | FLUSH_DIRTY | FLUSH_INVALID.

Record cache {C : Type} := Cache {
  statuses : status_table;
  mapping_of : map_state;
  lru : lru_cache;
  cores : gmap Z core_runtime;
  locks : alock;
  cleaner : C;
  cleaner_refcnt : bool;     (** does [env_refcnt_inc(&cache->cleaner.refcnt)] succeed? *)
  request : ocf_request
}.
Arguments cache : clear implicits.
Arguments Cache {C}.

Section Setters.
Context {C : Type}.
Definition with_statuses s (c : cache C) : cache C :=
  Cache s (mapping_of c) (lru c) (cores c) (locks c) (cleaner c) (cleaner_refcnt c) (request c).
Definition with_mapping s (c : cache C) : cache C :=
  Cache (statuses c) s (lru c) (cores c) (locks c) (cleaner c) (cleaner_refcnt c) (request c).
Definition with_lru s (c : cache C) : cache C :=
  Cache (statuses c) (mapping_of c) s (cores c) (locks c) (cleaner c) (cleaner_refcnt c) (request c).
Definition with_cores s (c : cache C) : cache C :=
  Cache (statuses c) (mapping_of c) (lru c) s (locks c) (cleaner c) (cleaner_refcnt c) (request c).
Definition with_locks s (c : cache C) : cache C :=
  Cache (statuses c) (mapping_of c) (lru c) (cores c) s (cleaner c) (cleaner_refcnt c) (request c).
Definition with_cleaner s (c : cache C) : cache C :=
  Cache (statuses c) (mapping_of c) (lru c) (cores c) (locks c) s (cleaner_refcnt c) (request c).
Definition with_request s (c : cache C) : cache C :=
  Cache (statuses c) (mapping_of c) (lru c) (cores c) (locks c) (cleaner c) (cleaner_refcnt c) s.
End Setters.

Section CacheLine.
Context {C : Type} `{!CleaningPolicy C}.
Context (block_4k : bool) (line_size : cache_line_size) (raw : raw_type).
(** The size of the lock table and of the waiter hash. *)
Context (num_entries ENTRIES : Z).

Definition LM := Prelude.M (cache C).

(** ** Access to the components *)

Definition on_status {A} (m : SM A) : LM A := fun c =>
  match m (statuses c) with Some (a, s) => Some (a, with_statuses s c) | None => None end.

Definition on_map {A} (m : CM A) : LM A := fun c =>
  match m (mapping_of c) with Some (a, s) => Some (a, with_mapping s c) | None => None end.

(** [metadata_test_dirty], as a function of the status word. *)
Definition line_dirty (st : map_status) : bool :=
  test_bits (2 ^ ocf_line_blocks block_4k line_size - 1) (dirty st) false.

(** The LRU code reads the dirty bits of the status table, and writes none. *)
Definition lru_of (c : cache C) : lru_cache :=
  LruCache (nodes (lru c)) (lists (lru c)) (curr_size (lru c)) (evict_counter (lru c)) (line_dirty <$> statuses c).
Definition put_lru (s : lru_cache) (c : cache C) : cache C :=
  with_lru (LruCache (nodes s) (lists s) (curr_size s) (evict_counter s) (LruPart.dirty (lru c))) c.

Definition on_lru {A} (m : PM A) : LM A := fun c =>
  match m (lru_of c) with Some (a, s) => Some (a, put_lru s c) | None => None end.

Definition on_lock {A} (m : Alock.M A) : LM A := fun c =>
  match m (locks c) with Some (a, s) => Some (a, with_locks s c) | None => None end.

Definition set_request (f : ocf_request -> ocf_request) : LM unit :=
  modify (fun c => with_request (f (request c)) c).

Definition map_entry_of (i : Z) : LM map_entry :=
  load (fun c => if bool_decide (0 <= i) then req_map (request c) !! Z.to_nat i else None).
Definition set_entry (i : Z) (f : map_entry -> map_entry) : LM unit :=
  _ ← map_entry_of i; set_request (fun r => with_map (alter f (Z.to_nat i) (req_map r)) r).

Definition core_of (core : Z) : LM core_runtime := load (fun c => cores c !! core).
Definition set_core (core : Z) (f : core_runtime -> core_runtime) : LM unit :=
  r ← core_of core; modify (fun c => with_cores (<[core := f r]> (cores c)) c).

(** [env_atomic_inc] and [env_atomic_dec] on the counters. *)
Definition add_cached (n core : Z) : LM unit := set_core core (fun r =>
  CoreRuntime (s32 (cached_clines r + n)) (dirty_clines r) (dirty_since r) (part_counters r)).
Definition add_dirty (n core : Z) : LM unit := set_core core (fun r =>
  CoreRuntime (cached_clines r) (s32 (dirty_clines r + n)) (dirty_since r) (part_counters r)).
Definition set_dirty_since (t core : Z) : LM unit := set_core core (fun r =>
  CoreRuntime (cached_clines r) (dirty_clines r) t (part_counters r)).
Definition set_part_counter (core part : Z) (f : part_counter -> part_counter) : LM unit :=
  r ← core_of core;
  p ← load (fun _ => part_counters r !! part);
  set_core core (fun r =>
    CoreRuntime (cached_clines r) (dirty_clines r) (dirty_since r) (<[part := f p]> (part_counters r))).
Definition add_part_cached (n core part : Z) : LM unit :=
  set_part_counter core part (fun p => PartCounter (s32 (pc_cached_clines p + n)) (pc_dirty_clines p)).
Definition add_part_dirty (n core part : Z) : LM unit :=
  set_part_counter core part (fun p => PartCounter (pc_cached_clines p) (s32 (pc_dirty_clines p + n))).

(** ** The cleaning policy dispatchers *)

Definition cleaning_op (op : status_table -> Z -> C -> C) (line : Z) : LM unit :=
  modify (fun c => if cleaner_refcnt c then with_cleaner (op (statuses c) line (cleaner c)) c else c).
Definition ocf_cleaning_init_cache_block := cleaning_op init_cache_block.
Definition ocf_cleaning_purge_cache_block := cleaning_op purge_cache_block.
Definition ocf_cleaning_set_hot_cache_line := cleaning_op set_hot_cache_line.
Definition ocf_purge_cleaning_policy (line : Z) : LM unit := ocf_cleaning_purge_cache_block line.

(** ** The eviction dispatchers, for [ocf_eviction_lru] *)

Definition ocf_eviction_rm_cline (cline : Z) : LM unit := on_lru (ocf_lru_rm_cline cline).
Definition ocf_eviction_clean_cline (part cline : Z) : LM unit := on_lru (ocf_lru_clean_cline part cline).
Definition ocf_eviction_dirty_cline (part cline : Z) : LM unit := on_lru (ocf_lru_dirty_cline part cline).
Definition ocf_eviction_hot_cline (cline : Z) : LM unit := on_lru (ocf_lru_hot_cline cline).
Definition ocf_eviction_detach (part cline : Z) : LM unit := on_lru (ocf_lru_detach cline part).
Definition ocf_eviction_reattach (cline : Z) : LM unit := on_lru (ocf_lru_reattach cline).

(** ** Flush marks *)

Definition mark_flush (f : map_entry -> map_entry) (idx : Z) : LM unit :=
  _ ← set_entry idx f;
  set_request (fun r => let i := info r in with_req_info (ReqInfo (hit_no i) (invalid_no i) (re_part_no i)
    (seq_no i) (insert_no i) (dirty_all i) (dirty_any i) true (mapping_error i) (cleaning_required i)) r).

Definition raw_ram_flush_mark (idx : Z) (to_state : flush_state) (start stop : Z) : LM unit :=
  match to_state with
  | FLUSH_DIRTY | FLUSH_CLEAN => mark_flush with_flush idx
  | FLUSH_INVALID => mret tt
  end.
Definition raw_dynamic_flush_mark (idx : Z) (to_state : flush_state) (start stop : Z) : LM unit := env_bug.
Definition raw_volatile_flush_mark (idx : Z) (to_state : flush_state) (start stop : Z) : LM unit := mret tt.
Definition raw_atomic_flush_mark (idx : Z) (to_state : flush_state) (start stop : Z) : LM unit :=
  match to_state with
  | FLUSH_INVALID => mark_flush (with_flush_range start stop) idx
  | _ => mret tt
  end.
Definition ocf_metadata_flush_mark (idx : Z) (to_state : flush_state) (start stop : Z) : LM unit :=
  match raw with
  | raw_ram => raw_ram_flush_mark idx to_state start stop
  | raw_dynamic => raw_dynamic_flush_mark idx to_state start stop
  | raw_volatile => raw_volatile_flush_mark idx to_state start stop
  | raw_atomic => raw_atomic_flush_mark idx to_state start stop
  end.

(** ** State changes of one line *)

(** The pair [(core id, partition id)]. *)
Definition ocf_metadata_get_core_and_part_id (line : Z) : LM (Z * Z) :=
  collision ← on_map (ocf_metadata_get_core_info line);
  part_id ← on_lru (ocf_metadata_get_partition_id line);
  mret (core_id collision, part_id).

Definition cl_set_invalid (start_bit end_bit line core_id part_id : Z) : LM unit :=
  _ ← bug_on (bool_decide (core_id >= OCF_CORE_NUM));
  changed ← on_status (metadata_clear_valid_sec_changed block_4k line_size line start_bit end_bit);
  let '(line_became_invalid, line_remains_valid) := changed : bool * bool in
  if line_remains_valid then bug_on line_became_invalid
  else
    _ ← when line_became_invalid (
          _ ← add_cached (-1) core_id;
          add_part_cached (-1) core_id part_id);
    waiters ← on_lock (ocf_cache_line_are_waiters ENTRIES num_entries line);
    if (waiters : bool) then mret tt
    else
      _ ← ocf_eviction_rm_cline line;
      on_map (ocf_metadata_remove_cache_line line).

Definition detach_cache_line (start_bit end_bit line core_id part_id : Z) : LM unit :=
  _ ← bug_on (bool_decide (part_id = PARTITION_FREELIST) && bool_decide (core_id <> OCF_CORE_NUM));
  _ ← bug_on (bool_decide (part_id <> PARTITION_FREELIST) && bool_decide (core_id = OCF_CORE_NUM));
  let part := part_id in
  _ ← when (bool_decide (core_id <> OCF_CORE_NUM)) (
        changed ← on_status (metadata_clear_valid_sec_changed block_4k line_size line start_bit end_bit);
        let '(line_became_invalid, is_valid) := changed : bool * bool in
        _ ← when line_became_invalid (
              _ ← add_cached (-1) core_id;
              add_part_cached (-1) core_id part_id);
        waiters ← on_lock (ocf_cache_line_are_waiters ENTRIES num_entries line);
        _ ← bug_on waiters;
        when (negb is_valid) (on_map (ocf_metadata_remove_cache_line line)));
  ocf_eviction_detach part line.

Definition set_cache_line_invalid (start_bit end_bit map_idx : Z) : LM unit :=
  e ← map_entry_of map_idx;
  let line := me_coll_idx e in
  part_id ← on_lru (ocf_metadata_get_partition_id line);
  core_id ← gets (fun c => req_core (request c));
  _ ← cl_set_invalid start_bit end_bit line core_id part_id;
  ocf_metadata_flush_mark map_idx FLUSH_INVALID start_bit end_bit.

Definition set_cache_line_available (line : Z) : LM unit := ocf_eviction_reattach line.

Definition set_cache_line_unavailable (start_bit end_bit line : Z) : LM unit :=
  ids ← ocf_metadata_get_core_and_part_id line;
  detach_cache_line start_bit end_bit line ids.1 ids.2.

Definition set_cache_line_invalid_no_flush (start_bit end_bit line : Z) : LM unit :=
  ids ← ocf_metadata_get_core_and_part_id line;
  cl_set_invalid start_bit end_bit line ids.1 ids.2.

Definition set_cache_line_valid (start_bit end_bit map_idx : Z) : LM unit :=
  e ← map_entry_of map_idx;
  let line := me_coll_idx e in
  part_id ← on_lru (ocf_metadata_get_partition_id line);
  changed ← on_status (metadata_set_valid_sec_changed block_4k line_size line start_bit end_bit);
  core ← gets (fun c => req_core (request c));
  when changed (
    _ ← add_cached 1 core;
    add_part_cached 1 core part_id).

Definition set_cache_line_clean (start_bit end_bit map_idx : Z) : LM unit :=
  e ← map_entry_of map_idx;
  let line := me_coll_idx e in
  part_id ← on_lru (ocf_metadata_get_partition_id line);
  _ ← bug_on (bool_decide (part_id > OCF_USER_IO_CLASS_MAX));
  let part := part_id in
  core ← gets (fun c => req_core (request c));
  changed ← on_status (metadata_clear_dirty_sec_changed block_4k line_size line start_bit end_bit);
  let '(sec_changed, line_is_clean) := changed : bool * bool in
  when sec_changed (
    _ ← ocf_metadata_flush_mark map_idx FLUSH_CLEAN start_bit end_bit;
    when line_is_clean (
      _ ← add_dirty (-1) core;
      r ← core_of core;
      _ ← when (bool_decide (dirty_clines r = 0)) (set_dirty_since 0 core);
      _ ← add_part_dirty (-1) core part_id;
      _ ← ocf_eviction_clean_cline part line;
      ocf_purge_cleaning_policy line)).

(** [now] is the time the environment reports. *)
Definition set_cache_line_dirty (now start_bit end_bit map_idx : Z) : LM unit :=
  e ← map_entry_of map_idx;
  let line := me_coll_idx e in
  part_id ← on_lru (ocf_metadata_get_partition_id line);
  _ ← bug_on (bool_decide (part_id > OCF_USER_IO_CLASS_MAX));
  let part := part_id in
  core ← gets (fun c => req_core (request c));
  changed ← on_status (metadata_set_dirty_sec_changed block_4k line_size line start_bit end_bit);
  let '(sec_changed, line_was_dirty) := changed : bool * bool in
  _ ← when sec_changed (
        _ ← ocf_metadata_flush_mark map_idx FLUSH_DIRTY start_bit end_bit;
        when (negb line_was_dirty) (
          r ← core_of core;
          _ ← when (bool_decide (dirty_since r = 0)) (set_dirty_since now core);
          _ ← add_dirty 1 core;
          _ ← add_part_dirty 1 core part_id;
          ocf_eviction_dirty_cline part line));
  ocf_cleaning_set_hot_cache_line line.

(** ** All lines of a request *)

Definition start_block (line : Z) : LM Z :=
  gets (fun c => ocf_map_line_start_block block_4k line_size (request c) line).
Definition end_block_of (line : Z) : LM Z :=
  gets (fun c => ocf_map_line_end_block block_4k line_size (request c) line).

Definition ocf_purge_cache_line_sec (start stop map_idx : Z) : LM unit :=
  _ ← set_cache_line_clean start stop map_idx;
  set_cache_line_invalid start stop map_idx.

(** [for (map_idx = 0; map_idx < count; map_idx++)] *)
Definition for_each_line (body : Z -> LM unit) : LM unit :=
  n ← gets (fun c => core_line_count (request c));
  m_for (Z.of_nat <$> seq 0 (Z.to_nat n)) body.

Definition ocf_purge_map_info : LM unit := for_each_line (fun map_idx =>
  e ← map_entry_of map_idx;
  if decide (me_status e = LOOKUP_MISS) then mret tt
  else
    start_bit ← start_block map_idx;
    end_bit ← end_block_of map_idx;
    ocf_purge_cache_line_sec start_bit end_bit map_idx).

Definition ocf_set_valid_map_info : LM unit := for_each_line (fun map_idx =>
  e ← map_entry_of map_idx;
  _ ← bug_on (bool_decide (me_status e = LOOKUP_MISS));
  start_bit ← start_block map_idx;
  end_bit ← end_block_of map_idx;
  set_cache_line_valid start_bit end_bit map_idx).

Definition ocf_set_dirty_map_info (now : Z) : LM unit := for_each_line (fun map_idx =>
  start_bit ← start_block map_idx;
  end_bit ← end_block_of map_idx;
  set_cache_line_dirty now start_bit end_bit map_idx).

Definition ocf_set_clean_map_info : LM unit := for_each_line (fun map_idx =>
  start_bit ← start_block map_idx;
  end_bit ← end_block_of map_idx;
  set_cache_line_clean start_bit end_bit map_idx).

(** ** Ranges of lines: [src/metadata/metadata_misc.c] *)

Definition ocf_metadata_sparse_cache_line (line : Z) : LM unit :=
  _ ← set_cache_line_invalid_no_flush 0 (ocf_line_end_block block_4k line_size) line;
  _ ← on_status (metadata_clear_dirty block_4k line_size line);
  mret tt.

Definition OCF_ERR_INVAL : Z := 1000000.

(** The lines [first .. last - 1]. *)
Definition cline_range (first last : Z) : list Z := (Z.add first ∘ Z.of_nat) <$> seq 0 (Z.to_nat (last - first)).

Definition ocf_metadata_detach_cline_range (first last : Z) : LM Z :=
  s ← gets mapping_of;
  if bool_decide (first > last) then mret (- OCF_ERR_INVAL)
  else if bool_decide (last > collision_table_entries s) then mret (- OCF_ERR_INVAL)
  else
    _ ← m_for (cline_range first last) (fun cline =>
          used ← on_lock (ocf_cache_line_is_used ENTRIES num_entries cline);
          _ ← bug_on used;
          _ ← set_cache_line_unavailable 0 (ocf_line_end_block block_4k line_size) cline;
          _ ← on_status (metadata_clear_dirty block_4k line_size cline);
          mret tt);
    mret 0.

Definition ocf_metadata_restore_cline_range (first last : Z) : LM Z :=
  s ← gets mapping_of;
  if bool_decide (first > last) then mret (- OCF_ERR_INVAL)
  else if bool_decide (last > collision_table_entries s) then mret (- OCF_ERR_INVAL)
  else
    _ ← m_for (cline_range first last) set_cache_line_available;
    mret 0.
End CacheLine.
