(* ===== verification/CacheLineProofs.v ===== *)
(** * Cache-line state changes keep the metadata consistent

    [cache_inv]: the mapping, the LRU lists, the status bits and the counters
    agree.  A line has valid or dirty blocks only if it is mapped, it is in a
    user partition exactly if it is mapped, and the counters of every core and
    of every partition of a core are the numbers of its valid and dirty
    lines. *)

From S2P Require Import Prelude Alock AlockProofs CacheLineLock Links Lru LruProofs Generator LruPart LruPartProofs.
From S2P Require Import Collision CollisionProofs Status StatusProofs Request CacheLine.

(** ** Counting lines *)

Definition count (P : Z -> map_status -> bool) (m : status_table) : Z :=
  Z.of_nat (size (filter (fun kv : Z * map_status => P kv.1 kv.2 = true) m)).

Lemma count_insert_new P m x st : m !! x = None -> count P (<[x := st]> m) = count P m + Z.b2z (P x st).
Proof.
  intros Hx. unfold count. destruct (P x st) eqn:E; cbn [Z.b2z].
  - rewrite map_filter_insert_True by done. rewrite map_size_insert_None; [lia|].
    apply map_lookup_filter_None. by left.
  - rewrite map_filter_insert_False by (cbn; congruence). rewrite delete_id by done. lia.
Qed.

Lemma count_ext P P' m : (forall y s, m !! y = Some s -> P y s = P' y s) -> count P m = count P' m.
Proof.
  intros H. unfold count. do 2 f_equal. apply map_filter_ext. intros y s Hy. cbn. by rewrite H.
Qed.

(** Changing one line, and what is counted only there. *)
Lemma count_step P P' m x st st' :
  m !! x = Some st -> (forall y s, y <> x -> P y s = P' y s) ->
  count P' (<[x := st']> m) = count P m - Z.b2z (P x st) + Z.b2z (P' x st').
Proof.
  intros Hx HP. pose proof (lookup_delete_eq m x) as Hd.
  rewrite <- insert_delete_eq. rewrite count_insert_new by done.
  rewrite <- (insert_delete_id m x st Hx) at 2. rewrite count_insert_new by done.
  rewrite (count_ext P' P (delete x m)); [lia|].
  intros y s Hy. symmetry. apply HP. intros ->. congruence.
Qed.

Lemma count_same P P' m x st st' :
  m !! x = Some st -> (forall y s, y <> x -> P y s = P' y s) -> P x st = P' x st' ->
  count P' (<[x := st']> m) = count P m.
Proof. intros Hx HP He. rewrite (count_step P P' m x st) by done. rewrite He. lia. Qed.

Lemma count_bounds P m n : (forall x, is_Some (m !! x) -> 0 <= x < n) -> 0 <= n -> 0 <= count P m <= n.
Proof.
  intros Hb Hn. unfold count. split; [lia|].
  set (f := filter _ m). rewrite <- (length_map_to_list f), <- (length_fmap fst).
  apply lines_bound; [done|apply NoDup_fst_map_to_list|].
  intros x ([y s] & -> & Hy)%list_elem_of_fmap. apply elem_of_map_to_list in Hy.
  apply Hb. apply map_lookup_filter_Some in Hy as [Hy _]. cbn. eauto.
Qed.

(** Does the field of [st] have a block set? *)
Definition nonzero (what : status_field) (st : map_status) : bool := bool_decide (get_field what st <> 0).
Definition counted (what : status_field) (own : Z -> bool) (x : Z) (st : map_status) : bool :=
  own x && nonzero what st.
Definition change (what : status_field) (st st' : map_status) : Z :=
  Z.b2z (nonzero what st') - Z.b2z (nonzero what st).

Lemma counted_step what own m x st st' :
  m !! x = Some st ->
  count (counted what own) (<[x := st']> m) =
  count (counted what own) m + (if own x then change what st st' else 0).
Proof.
  intros Hx. rewrite (count_step (counted what own) (counted what own) m x st) by done.
  unfold counted, change. destruct (own x); cbn; lia.
Qed.

Lemma counted_ext what own own' m :
  (forall x, own x = own' x) -> count (counted what own) m = count (counted what own') m.
Proof. intros H. apply count_ext. intros y s _. unfold counted. by rewrite H. Qed.

(** ** Words below a number of bits *)

Lemma below_of_bits n x : 0 <= n -> 0 <= x -> (forall i, n <= i -> Z.testbit x i = false) -> x < 2 ^ n.
Proof.
  intros Hn Hx Hi.
  replace x with (x mod 2 ^ n); [apply Z.mod_pos_bound; lia|].
  apply Z.bits_inj'. intros i H0. destruct (decide (i < n)).
  - by rewrite Z.mod_pow2_bits_low by lia.
  - rewrite Z.mod_pow2_bits_high by lia. by rewrite Hi by lia.
Qed.

Lemma bits_of_below n x i : 0 <= n -> 0 <= x < 2 ^ n -> n <= i -> Z.testbit x i = false.
Proof.
  intros Hn Hx Hi. rewrite <- (Z.mod_small x (2 ^ n)) by done. by apply Z.mod_pow2_bits_high; lia.
Qed.

Lemma added_below n start stop x x' :
  0 <= n -> 0 <= x < 2 ^ n -> stop < n -> 0 <= x' -> added start stop x x' -> x' < 2 ^ n.
Proof.
  intros Hn Hx Hs Hx' Ha. apply below_of_bits; [done|done|]. intros i Hi.
  rewrite Ha by lia. rewrite (bits_of_below n) by done. apply bool_decide_eq_false_2. lia.
Qed.

Lemma removed_below n start stop x x' :
  0 <= n -> 0 <= x < 2 ^ n -> 0 <= x' -> removed start stop x x' -> x' < 2 ^ n.
Proof.
  intros Hn Hx Hx' Ha. apply below_of_bits; [done|done|]. intros i Hi.
  rewrite Ha by lia. by rewrite (bits_of_below n).
Qed.

Lemma some_bit_iff x : 0 <= x -> some_bit x <-> x <> 0.
Proof.
  intros Hx. unfold some_bit. rewrite <- nonzero_bits by done. by rewrite bool_decide_eq_true.
Qed.

Lemma added_nonzero start stop x x' : 0 <= start <= stop -> added start stop x x' -> x' <> 0.
Proof.
  intros Hr Ha ->. specialize (Ha start ltac:(lia)). rewrite Z.bits_0 in Ha. unfold in_range in Ha.
  rewrite bool_decide_eq_true_2 in Ha by lia. by rewrite orb_true_r in Ha.
Qed.

Section CacheLineProofs.
Context {C : Type} `{!CleaningPolicy C}.
Context (block_4k : bool) (line_size : cache_line_size) (raw : raw_type).
Context (num_entries ENTRIES : Z).
Abbreviation blocks := (ocf_line_blocks block_4k line_size).
Abbreviation lru_of := (lru_of block_4k line_size).
Abbreviation line_dirty := (line_dirty block_4k line_size).

(** *** The invariant *)

Definition bits_ok (st : map_status) : Prop := 0 <= valid st < 2 ^ blocks /\ 0 <= dirty st < 2 ^ blocks.

Definition of_core (s : map_state) (core x : Z) : bool :=
  match core_infos s !! x with Some ci => bool_decide (core_id ci = core) | None => false end.
Definition of_part (l : lru_cache) (part x : Z) : bool :=
  match nodes l !! x with Some n => bool_decide (partition_id n = part) | None => false end.

Definition counts (c : cache C) (core : Z) (r : core_runtime) : Prop :=
  let own := of_core (mapping_of c) core in
  cached_clines r = count (counted Valid own) (statuses c) /\
  dirty_clines r = count (counted Dirty own) (statuses c) /\
  forall part p, part_counters r !! part = Some p ->
    let own' x := own x && of_part (lru c) part x in
    pc_cached_clines p = count (counted Valid own') (statuses c) /\
    pc_dirty_clines p = count (counted Dirty own') (statuses c).

(** A mapped line is in a user partition, on the list that its dirtiness says. *)
Record line_home (c : cache C) (σ : listing) (x : Z) (st : map_status) (n : ocf_lru_meta) : Prop := {
  lh_status : statuses c !! x = Some st;
  lh_node : nodes (lru c) !! x = Some n;
  lh_user : 0 <= partition_id n < OCF_USER_IO_CLASS_MAX;
  lh_listed : x ∈ σ (line_key x (line_dirty st) (partition_id n));
  lh_ready : part_ready (lru_of c) (partition_id n)
}.

(** A core has a counter for every partition. *)
Definition core_ready (cs : gmap Z core_runtime) (core : Z) : Prop := 0 <= core < OCF_CORE_NUM /\
  exists r, cs !! core = Some r /\ forall p, 0 <= p < OCF_USER_IO_CLASS_MAX -> is_Some (part_counters r !! p).

Record cache_inv (c : cache C) (β : bucket_map) (m : gmap core_info Z) (σ : listing) : Prop := {
  ci_map : mapping (mapping_of c) β m;
  ci_entries : num_entries = collision_table_entries (mapping_of c);
  ci_lru : part_inv (lru_of c) σ;
  ci_free : part_ready (lru_of c) PARTITION_FREELIST;
  ci_line x : is_Some (statuses c !! x) -> 0 <= x < num_entries;
  ci_total x : 0 <= x < num_entries -> is_Some (statuses c !! x) /\ is_Some (nodes (lru c) !! x);
  ci_bits x st : statuses c !! x = Some st -> bits_ok st /\ dirty_within_valid st;
  ci_idle x st : statuses c !! x = Some st -> ~ mapped β x -> st = MapStatus 0 0;
  ci_label x n : nodes (lru c) !! x = Some n -> mapped β x <-> partition_id n <> PARTITION_FREELIST;
  ci_home x : mapped β x -> exists st n, line_home c σ x st n;
  ci_owner ci x : m !! ci = Some x -> core_ready (cores c) (core_id ci);
  ci_counts core r : cores c !! core = Some r -> counts c core r
}.

Lemma ci_entries_bound c β m σ : cache_inv c β m σ -> 0 <= num_entries < 2 ^ 29.
Proof. intros HI. rewrite (ci_entries _ _ _ _ HI). apply (wb_entries _ _ (proj1 (ci_map _ _ _ _ HI))). Qed.

(** The counters of a core that owns [x], after a change of the status of [x]. *)
Definition bumped (r : core_runtime) (since : Z) (part : Z) (p : part_counter) (st st' : map_status) : core_runtime :=
  CoreRuntime (cached_clines r + change Valid st st') (dirty_clines r + change Dirty st st') since
    (<[part := PartCounter (pc_cached_clines p + change Valid st st') (pc_dirty_clines p + change Dirty st st')]>
       (part_counters r)).

Lemma counts_bumped c c' core r since x st st' n p :
  counts c core r -> statuses c !! x = Some st -> statuses c' = <[x := st']> (statuses c) ->
  (forall core y, of_core (mapping_of c') core y = of_core (mapping_of c) core y) ->
  (forall part y, of_part (lru c') part y = of_part (lru c) part y) ->
  nodes (lru c) !! x = Some n -> part_counters r !! partition_id n = Some p ->
  of_core (mapping_of c) core x = true ->
  counts c' core (bumped r since (partition_id n) p st st').
Proof.
  intros (Hc & Hd & Hp) Hx Hs Ho Hpt Hn Hpn Hox. unfold counts. rewrite Hs.
  assert (Hown : forall what own own', (forall y, own' y = own y) ->
    count (counted what own') (<[x := st']> (statuses c)) =
    count (counted what own) (statuses c) + (if own x then change what st st' else 0)).
  { intros what own own' He. rewrite (counted_ext what own' own) by done. by apply counted_step. }
  cbn [bumped cached_clines dirty_clines part_counters].
  rewrite !(Hown _ _ _ (Ho core)), Hox, Hc, Hd. split; [done|]. split; [done|].
  intros part q Hq. assert (He : forall y, of_core (mapping_of c') core y && of_part (lru c') part y =
    of_core (mapping_of c) core y && of_part (lru c) part y) by (intros y; by rewrite Ho, Hpt).
  rewrite !(Hown _ _ _ He), Hox. cbn [andb]. unfold of_part at 2 4. rewrite Hn.
  destruct (decide (partition_id n = part)) as [<-|Hne].
  - rewrite lookup_insert_eq in Hq. injection Hq as <-. rewrite bool_decide_eq_true_2 by done.
    destruct (Hp _ _ Hpn) as [-> ->]. done.
  - rewrite lookup_insert_ne in Hq by done. rewrite bool_decide_eq_false_2 by done.
    destruct (Hp _ _ Hq) as [-> ->]. lia.
Qed.

Lemma counts_other c c' core r x st st' :
  counts c core r -> statuses c !! x = Some st -> statuses c' = <[x := st']> (statuses c) ->
  (forall core y, of_core (mapping_of c') core y = of_core (mapping_of c) core y) ->
  (forall part y, of_part (lru c') part y = of_part (lru c) part y) ->
  of_core (mapping_of c) core x = false ->
  counts c' core r.
Proof.
  intros (Hc & Hd & Hp) Hx Hs Ho Hpt Hox. unfold counts. rewrite Hs.
  assert (Hown : forall what own own', (forall y, own' y = own y) -> own x = false ->
    count (counted what own') (<[x := st']> (statuses c)) = count (counted what own) (statuses c)).
  { intros what own own' He Hf. rewrite (counted_ext what own' own) by done.
    rewrite (counted_step what own _ x st) by done. rewrite Hf. lia. }
  rewrite !(Hown _ _ _ (Ho core)) by done. split; [done|]. split; [done|].
  intros part q Hq. destruct (Hp _ _ Hq) as [-> ->].
  split; symmetry; apply Hown; intros; rewrite ?Ho, ?Hpt, ?Hox; done.
Qed.
(** *** Changing the status of one mapped line *)

Lemma of_part_ext (c c' : cache C) part y :
  partition_id <$> nodes (lru c') !! y = partition_id <$> nodes (lru c) !! y ->
  of_part (lru c') part y = of_part (lru c) part y.
Proof.
  unfold of_part. destruct (nodes (lru c') !! y), (nodes (lru c) !! y); cbn; [|done..].
  by intros [= ->].
Qed.

Lemma label_ext (ms ms' : gmap Z ocf_lru_meta) y n' :
  partition_id <$> ms' !! y = partition_id <$> ms !! y -> ms' !! y = Some n' ->
  exists n, ms !! y = Some n /\ partition_id n = partition_id n'.
Proof. intros He Hn. rewrite Hn in He. symmetry in He. by apply fmap_Some in He as (n & ? & ?); exists n. Qed.

Lemma label_some (ms ms' : gmap Z ocf_lru_meta) y :
  partition_id <$> ms' !! y = partition_id <$> ms !! y -> is_Some (ms !! y) -> is_Some (ms' !! y).
Proof. intros He [n Hn]. rewrite Hn in He. apply fmap_Some in He as (n' & ? & _). by exists n'. Qed.

Lemma relabelled_some l l' x id y : relabelled l l' x id -> is_Some (nodes l !! y) -> is_Some (nodes l' !! y).
Proof.
  intros [Hx Ho _ _]. destruct (decide (y = x)) as [->|Hne]; [|by apply label_some, Ho].
  intros _. apply fmap_Some in Hx as (n & Hn & _). by exists n.
Qed.

Lemma mapped_owner c β m σ ci x :
  cache_inv c β m σ -> m !! ci = Some x ->
  mapped β x /\ forall core, of_core (mapping_of c) core x = bool_decide (core_id ci = core).
Proof.
  intros HI Hx. apply (proj2 (ci_map _ _ _ _ HI)) in Hx as [Hm Hci]. split; [done|].
  intros core. unfold of_core. by rewrite Hci.
Qed.

Lemma inv_change c c' β m σ σ' x ci st st' n r since p :
  cache_inv c β m σ -> m !! ci = Some x ->
  statuses c !! x = Some st -> nodes (lru c) !! x = Some n ->
  cores c !! core_id ci = Some r -> part_counters r !! partition_id n = Some p ->
  statuses c' = <[x := st']> (statuses c) ->
  mapping_of c' = mapping_of c ->
  (forall y, partition_id <$> nodes (lru c') !! y = partition_id <$> nodes (lru c) !! y) ->
  (forall q, part_ready (lru_of c) q -> part_ready (lru_of c') q) ->
  part_inv (lru_of c') σ' ->
  (forall k y, y <> x -> y ∈ σ k -> y ∈ σ' k) ->
  x ∈ σ' (line_key x (line_dirty st') (partition_id n)) ->
  cores c' = <[core_id ci := bumped r since (partition_id n) p st st']> (cores c) ->
  bits_ok st' -> dirty_within_valid st' ->
  cache_inv c' β m σ'.
Proof.
  intros HI Hx Hst Hn Hr Hp Es Em Hl Hrdy HL' Hσ Hxσ Ec Hb Hdv.
  destruct (mapped_owner _ _ _ _ _ _ HI Hx) as [Hmx Hown].
  assert (Hof : forall core y, of_core (mapping_of c') core y = of_core (mapping_of c) core y) by (by rewrite Em).
  assert (Hpt : forall part y, of_part (lru c') part y = of_part (lru c) part y)
    by (intros; by apply of_part_ext).
  split; rewrite ?Em.
  - apply (ci_map _ _ _ _ HI).
  - apply (ci_entries _ _ _ _ HI).
  - done.
  - apply Hrdy, (ci_free _ _ _ _ HI).
  - intros y Hy. apply (ci_line _ _ _ _ HI). rewrite Es, lookup_insert_is_Some' in Hy.
    destruct Hy as [<-|]; [by eexists|done].
  - intros y Hy. destruct (ci_total _ _ _ _ HI y Hy) as [H1 H2]. rewrite Es, lookup_insert_is_Some'. split; [by right|].
    eapply label_some; [apply Hl|exact H2].
  - intros y s. rewrite Es, lookup_insert. case_decide; [by intros [= <-]|apply (ci_bits _ _ _ _ HI)].
  - intros y s. rewrite Es, lookup_insert. case_decide; [by subst|apply (ci_idle _ _ _ _ HI)].
  - intros y n' Hn'. destruct (label_ext _ _ _ _ (Hl y) Hn') as (n0 & Hn0 & <-).
    by apply (ci_label _ _ _ _ HI).
  - intros y Hy. destruct (ci_home _ _ _ _ HI y Hy) as (s & n0 & [H1 H2 H3 H4 H5]).
    pose proof (Hl y) as Hly. rewrite H2 in Hly. apply fmap_Some in Hly as (n1 & Hn1 & En).
    destruct (decide (y = x)) as [->|Hne].
    + exists st', n1. assert (n0 = n) as -> by congruence.
      split; rewrite <- ?En; try done; [by rewrite Es, lookup_insert_eq|by apply Hrdy].
    + exists s, n1. split; rewrite <- ?En; auto. by rewrite Es, lookup_insert_ne.
  - intros ci' y Hy. destruct (ci_owner _ _ _ _ HI ci' y Hy) as (? & r' & Hr' & Hps).
    split; [done|]. rewrite Ec. destruct (decide (core_id ci = core_id ci')) as [He|Hne]; [rewrite <- He in *|].
    + rewrite lookup_insert_eq. eexists. split; [done|]. intros q Hq. cbn.
      rewrite lookup_insert_is_Some'. right. rewrite Hr in Hr'. injection Hr' as ->. by apply Hps.
    + rewrite lookup_insert_ne by done. by exists r'.
  - intros core r'. rewrite Ec. destruct (decide (core_id ci = core)) as [<-|Hne].
    + rewrite lookup_insert_eq. intros [= <-].
      eapply counts_bumped; try done; [by apply (ci_counts _ _ _ _ HI)|].
      rewrite Hown. by apply bool_decide_eq_true_2.
    + rewrite lookup_insert_ne by done. intros Hr'.
      eapply counts_other; try done; [by apply (ci_counts _ _ _ _ HI)|].
      rewrite Hown. by apply bool_decide_eq_false_2.
Qed.
(** *** Steps *)

Lemma wp_on_status {A} (m : SM A) (Q : A -> cache C -> Prop) c :
  wp m (fun a s => Q a (with_statuses s c)) (statuses c) -> wp (on_status m) Q c.
Proof. unfold wp, on_status. by destruct (m (statuses c)) as [[a s]|]. Qed.

Lemma wp_on_map {A} (m : CM A) (Q : A -> cache C -> Prop) c :
  wp m (fun a s => Q a (with_mapping s c)) (mapping_of c) -> wp (on_map m) Q c.
Proof. unfold wp, on_map. by destruct (m (mapping_of c)) as [[a s]|]. Qed.

Lemma wp_on_lru {A} (m : PM A) (Q : A -> cache C -> Prop) c :
  wp m (fun a s => Q a (put_lru s c)) (lru_of c) -> wp (on_lru block_4k line_size m) Q c.
Proof. unfold wp, on_lru. by destruct (m (lru_of c)) as [[a s]|]. Qed.

Lemma put_lru_same (c : cache C) : put_lru (lru_of c) c = c.
Proof. by destruct c as [? ? [] ? ? ? ? ?]. Qed.

Lemma wp_partition c x n (Q : Z -> cache C -> Prop) :
  nodes (lru c) !! x = Some n -> Q (partition_id n) c ->
  wp (on_lru block_4k line_size (ocf_metadata_get_partition_id x)) Q c.
Proof.
  intros Hn HQ. apply wp_on_lru, wp_bind. eapply wp_node_of; [exact Hn|].
  apply wp_ret. by rewrite put_lru_same.
Qed.

Lemma wp_entry c i e (Q : map_entry -> cache C -> Prop) :
  0 <= i -> req_map (request c) !! Z.to_nat i = Some e -> Q e c -> wp (map_entry_of i) Q c.
Proof. intros Hi He HQ. eapply wp_load; [|exact HQ]. by rewrite bool_decide_eq_true_2. Qed.

Definition set_counters (core : Z) (r : core_runtime) (c : cache C) : cache C :=
  with_cores (<[core := r]> (cores c)) c.

Lemma wp_set_counters (f : core_runtime -> core_runtime) core r c (Q : unit -> cache C -> Prop) :
  cores c !! core = Some r -> Q tt (set_counters core (f r) c) -> wp (set_core core f) Q c.
Proof. intros Hr HQ. apply wp_bind. eapply wp_load; [exact Hr|]. by apply wp_modify. Qed.

Lemma wp_set_part (f : part_counter -> part_counter) core part r p c (Q : unit -> cache C -> Prop) :
  cores c !! core = Some r -> part_counters r !! part = Some p ->
  Q tt (set_counters core (CoreRuntime (cached_clines r) (dirty_clines r) (dirty_since r)
          (<[part := f p]> (part_counters r))) c) ->
  wp (set_part_counter core part f) Q c.
Proof.
  intros Hr Hp HQ. apply wp_bind. eapply wp_load; [exact Hr|]. apply wp_bind.
  eapply wp_load; [exact Hp|]. by eapply wp_set_counters.
Qed.

Lemma set_counters_twice core r r' (c : cache C) : set_counters core r (set_counters core r' c) = set_counters core r c.
Proof. unfold set_counters, with_cores. cbn. by rewrite insert_insert_eq. Qed.

Lemma set_counters_lookup core r (c : cache C) : cores (set_counters core r c) !! core = Some r.
Proof. cbn. by rewrite lookup_insert_eq. Qed.

Lemma set_counters_same core r (c : cache C) : cores c !! core = Some r -> set_counters core r c = c.
Proof. intros Hr. unfold set_counters, with_cores. rewrite (insert_id (cores c)) by done. by destruct c. Qed.

(** Both counters of the valid lines. *)
Lemma wp_add_cached d core part r p c (Q : unit -> cache C -> Prop) :
  cores c !! core = Some r -> part_counters r !! part = Some p ->
  Q tt (set_counters core (CoreRuntime (s32 (cached_clines r + d)) (dirty_clines r) (dirty_since r)
          (<[part := PartCounter (s32 (pc_cached_clines p + d)) (pc_dirty_clines p)]> (part_counters r))) c) ->
  wp (_ ← add_cached d core; add_part_cached d core part) Q c.
Proof.
  intros Hr Hp HQ. apply wp_bind. eapply wp_set_counters; [exact Hr|].
  eapply wp_set_part; [apply set_counters_lookup|exact Hp|]. by rewrite set_counters_twice.
Qed.
(** What is known of a mapped line, its core and its counters. *)
Record line_facts (c : cache C) (σ : listing) (core x : Z) (st : map_status) (n : ocf_lru_meta)
    (r : core_runtime) (p : part_counter) : Prop := {
  lf_home : line_home c σ x st n;
  lf_core : cores c !! core = Some r;
  lf_part : part_counters r !! partition_id n = Some p;
  lf_bits : bits_ok st;
  lf_dirty : dirty_within_valid st;
  lf_small : Forall (fun z => 0 <= z < 2 ^ 29)
    [cached_clines r; dirty_clines r; pc_cached_clines p; pc_dirty_clines p]
}.

Lemma count_small P c β m σ : cache_inv c β m σ -> 0 <= count P (statuses c) < 2 ^ 29.
Proof.
  intros HI. pose proof (ci_entries_bound _ _ _ _ HI).
  pose proof (count_bounds P (statuses c) num_entries (ci_line _ _ _ _ HI)). lia.
Qed.

Lemma facts c β m σ ci x :
  cache_inv c β m σ -> m !! ci = Some x -> exists st n r p, line_facts c σ (core_id ci) x st n r p.
Proof.
  intros HI Hx. destruct (mapped_owner _ _ _ _ _ _ HI Hx) as [Hm _].
  destruct (ci_home _ _ _ _ HI x Hm) as (st & n & Hh).
  destruct (ci_owner _ _ _ _ HI ci x Hx) as (_ & r & Hr & Hps).
  destruct (Hps (partition_id n) (lh_user _ _ _ _ _ Hh)) as [p Hp].
  destruct (ci_bits _ _ _ _ HI x st (lh_status _ _ _ _ _ Hh)) as [Hb Hd].
  destruct (ci_counts _ _ _ _ HI _ _ Hr) as (H1 & H2 & Hpc). destruct (Hpc _ _ Hp) as [H3 H4].
  exists st, n, r, p. split; try done. rewrite H1, H2, H3, H4.
  repeat (constructor; [by eapply count_small|]). constructor.
Qed.

Lemma blocks_field : 0 <= blocks <= type_bits (field block_4k line_size).
Proof. by destruct block_4k, line_size. Qed.

Lemma bits_status st : bits_ok st -> status_ok (field block_4k line_size) st.
Proof.
  intros [[H1 H2] [H3 H4]]. pose proof blocks_field as Hb.
  pose proof (Z.pow_le_mono_r 2 blocks (type_bits (field block_4k line_size)) ltac:(lia) ltac:(lia)).
  split; split; lia.
Qed.

(** A range of blocks of a cache line. *)
Definition block_range (start stop : Z) : Prop := 0 <= start <= stop /\ stop < blocks.

Lemma block_range_ok start stop : block_range start stop -> range_ok (field block_4k line_size) start stop.
Proof. intros [? ?]. pose proof blocks_field. split; lia. Qed.

(** Entry [i] of the request stands for cache line [x], which holds [ci]. *)
Definition entry_line (c : cache C) (m : gmap core_info Z) (i x : Z) (ci : core_info) : Prop :=
  0 <= i /\ m !! ci = Some x /\ core_id ci = req_core (request c) /\
  exists e, req_map (request c) !! Z.to_nat i = Some e /\ me_coll_idx e = x.

(** The counters of a core stay there. *)
Definition cores_kept (cs cs' : gmap Z core_runtime) : Prop := forall core, core_ready cs core -> core_ready cs' core.

Lemma cores_kept_set cs core r r' : cs !! core = Some r ->
  (forall p, is_Some (part_counters r !! p) -> is_Some (part_counters r' !! p)) -> cores_kept cs (<[core := r']> cs).
Proof.
  intros Hr Hp k (Hk & r0 & Hr0 & Hps). split; [done|]. destruct (decide (core = k)) as [<-|Hne].
  - exists r'. rewrite lookup_insert_eq. split; [done|]. intros p Hpr. apply Hp. rewrite Hr in Hr0. injection Hr0 as ->. by apply Hps.
  - exists r0. by rewrite lookup_insert_ne.
Qed.

(** The lists of a partition and the counters of a core stay there. *)
Definition ready_kept (c c' : cache C) : Prop :=
  (forall q, part_ready (lru_of c) q -> part_ready (lru_of c') q) /\ cores_kept (cores c) (cores c').

Lemma ready_kept_lru (c c' : cache C) :
  lists (lru c') = lists (lru c) -> curr_size (lru c') = curr_size (lru c) -> evict_counter (lru c') = evict_counter (lru c) ->
  cores_kept (cores c) (cores c') -> ready_kept c c'.
Proof. intros E1 E2 E3 Hc. split; [|done]. intros q [H1 H2]. split; cbn in *; by rewrite ?E1, ?E2, ?E3. Qed.

Lemma ready_kept_refl (c : cache C) : ready_kept c c.
Proof. split; by intros q. Qed.

Lemma ready_kept_trans (c1 c2 c3 : cache C) : ready_kept c1 c2 -> ready_kept c2 c3 -> ready_kept c1 c3.
Proof. intros [H1 K1] [H2 K2]. split; [intros q Hq; by apply H2, H1|intros q Hq; by apply K2, K1]. Qed.

(** The counters of [c] after [set_counters] with the counters of [bumped]. *)
Ltac kept_cores := first [exact (fun _ H => H)
  | eapply cores_kept_set; [eassumption|cbn; intros; rewrite ?lookup_insert_is_Some'; auto]].

(** *** Making blocks valid *)

Lemma bumped_same r part p st st' :
  part_counters r !! part = Some p -> change Valid st st' = 0 -> change Dirty st st' = 0 ->
  bumped r (dirty_since r) part p st st' = r.
Proof.
  intros Hp Hv Hd. unfold bumped. rewrite Hv, Hd, !Z.add_0_r. destruct r as [a b t ps], p as [pa pb].
  cbn in *. by rewrite insert_id.
Qed.

Lemma lru_of_same (c c' : cache C) :
  lru c' = lru c -> (line_dirty <$> statuses c') = (line_dirty <$> statuses c) -> lru_of c' = lru_of c.
Proof. intros E1 E2. unfold CacheLine.lru_of. by rewrite E1, E2. Qed.

Lemma set_valid_wp c β m σ i x ci start stop st :
  cache_inv c β m σ -> entry_line c m i x ci -> block_range start stop ->
  statuses c !! x = Some st ->
  wp (set_cache_line_valid block_4k line_size start stop i) (fun _ c' =>
    cache_inv c' β m σ /\ request c' = request c /\ mapping_of c' = mapping_of c /\ lru c' = lru c /\
    locks c' = locks c /\ cores_kept (cores c) (cores c') /\
    exists v', statuses c' = <[x := MapStatus v' (dirty st)]> (statuses c) /\ added start stop (valid st) v') c.
Proof.
  intros HI (Hi & Hx & Hcore & e & He & Ee) Hr Hst.
  destruct (facts _ _ _ _ _ _ HI Hx) as (st0 & n & r & p & [[Hs0 Hn Hu Hl Hrdy] Hcr Hp Hb Hdv Hsm]).
  assert (st0 = st) as -> by congruence. rewrite !Forall_cons in Hsm. destruct Hsm as (Hs1 & _ & Hs3 & _).
  unfold set_cache_line_valid. apply wp_bind. eapply wp_entry; [done|exact He|]. rewrite Ee.
  apply wp_bind. eapply wp_partition; [exact Hn|].
  apply wp_bind, wp_on_status, wp_bind.
  eapply wp_mono; [apply set_performs; [exact Hst|by apply bits_status|by apply block_range_ok]|].
  intros was s' (v' & -> & Hw & Hadd & Hwas). apply wp_ret. cbn [get_field put_field] in *.
  apply wp_bind, wp_gets. cbn [request with_statuses]. rewrite <- Hcore.
  assert (Hv' : v' <> 0) by (eapply added_nonzero; [apply Hr|exact Hadd]).
  assert (Hv'n : v' < 2 ^ blocks).
  { apply (added_below _ start stop (valid st)); [apply blocks_field|apply Hb|apply Hr|apply Hw|exact Hadd]. }
  set (st' := MapStatus v' (dirty st)).
  assert (Hch : change Dirty st st' = 0) by (unfold change, nonzero; cbn; lia).
  assert (Hchv : change Valid st st' = if was then 0 else 1).
  { unfold change, nonzero. cbn. rewrite (bool_decide_eq_true_2 (v' <> 0)) by done.
    unfold was_some in Hwas. rewrite some_bit_iff in Hwas by apply Hb.
    destruct was; [rewrite bool_decide_eq_true_2; [done|tauto]|rewrite bool_decide_eq_false_2; [done|]].
    intros H. by apply Hwas in H. }
  assert (Hpost : forall r', r' = bumped r (dirty_since r) (partition_id n) p st st' ->
    let c' := set_counters (core_id ci) r' (with_statuses (<[x := st']> (statuses c)) c) in
    cache_inv c' β m σ /\ request c' = request c /\ mapping_of c' = mapping_of c /\ lru c' = lru c /\
    locks c' = locks c /\ cores_kept (cores c) (cores c') /\
    exists v', statuses c' = <[x := MapStatus v' (dirty st)]> (statuses c) /\ added start stop (valid st) v').
  { intros r' -> c'. split; [|split_and!; [done..|kept_cores|by exists v']].
    assert (El : lru_of c' = lru_of c).
    { apply lru_of_same; [done|]. cbn. rewrite fmap_insert. apply insert_id. by rewrite lookup_fmap, Hst. }
    eapply (inv_change c c'); try done;
      [rewrite El; apply (ci_lru _ _ _ _ HI)|split; [split; [apply Hw|done]|apply Hb]|].
    intros j Hj Hd. cbn. rewrite Hadd by done. by rewrite (Hdv j Hj Hd). }
  apply wp_when; intros Hc.
  - eapply wp_add_cached; [exact Hcr|exact Hp|]. apply Hpost. unfold bumped.
    destruct was; [done|]. rewrite Hch, Hchv, !Z.add_0_r. by rewrite !s32_small by lia.
  - destruct was; [|done]. specialize (Hpost r). cbv zeta in Hpost.
    rewrite set_counters_same in Hpost by exact Hcr. apply Hpost. symmetry. by apply bumped_same.
Qed.
(** *** Moving a line between the clean and the dirty list *)

Lemma line_dirty_bits st : bits_ok st -> line_dirty st = nonzero Dirty st.
Proof.
  intros [_ Hd]. unfold CacheLine.line_dirty, test_bits, nonzero.
  replace (2 ^ blocks - 1) with (Z.ones blocks) by (rewrite Z.ones_equiv; lia).
  rewrite Z.land_ones by apply blocks_field. cbn. by rewrite Z.mod_small.
Qed.

Lemma moved_head x ks kd σ : x ∈ moved x ks kd σ kd.
Proof. unfold moved. rewrite upd_eq. left. Qed.

Lemma moved_other x ks kd σ k y : y <> x -> y ∈ σ k -> y ∈ moved x ks kd σ k.
Proof.
  intros Hne Hy. assert (H1 : y ∈ upd ks (without x (σ ks)) σ k).
  { unfold upd. case_decide; [subst; by apply elem_of_without|done]. }
  unfold moved. unfold upd at 1. case_decide; [subst; by right|done].
Qed.

Lemma ready_same_rest s s' q : same_rest s s' -> part_ready s q -> part_ready s' q.
Proof.
  intros Hs [Hq Hl]. split; [by rewrite (same_size _ _ Hs), (same_evict _ _ Hs)|].
  intros i b Hi. rewrite (same_rest_list _ _ _ Hs). by apply Hl.
Qed.

Lemma wp_dirtiness c c1 β m σ x ci st st' n r since p b (Q : unit -> cache C -> Prop) :
  cache_inv c β m σ -> m !! ci = Some x -> line_facts c σ (core_id ci) x st n r p ->
  line_dirty st = b -> line_dirty st' = negb b -> bits_ok st' -> dirty_within_valid st' ->
  statuses c1 = <[x := st']> (statuses c) -> mapping_of c1 = mapping_of c -> lru c1 = lru c ->
  cores c1 = <[core_id ci := bumped r since (partition_id n) p st st']> (cores c) ->
  (forall s' σ', cache_inv (put_lru s' c1) β m σ' -> ready_kept c (put_lru s' c1) -> Q tt (put_lru s' c1)) ->
  wp (on_lru block_4k line_size
        (if b then ocf_lru_clean_cline (partition_id n) x else ocf_lru_dirty_cline (partition_id n) x)) Q c1.
Proof.
  intros HI Hx [[Hs Hn Hu Hl Hrdy] Hcr Hp Hb Hdv _] Eb Eb' Hb' Hdv' Es Em El Ec HQ.
  apply wp_on_lru. eapply wp_mono.
  { apply (dirtiness_wp (lru_of c) (lru_of c1) σ); cbn; rewrite ?El; try done.
    - apply (ci_lru _ _ _ _ HI).
    - lia.
    - by rewrite lookup_fmap, Hs, <- Eb.
    - by rewrite <- Eb. }
  intros [] s' [Hsame Hinv]. cbn in Hinv.
  assert (Hkept : ready_kept c (put_lru s' c1)).
  { split; [|cbn; rewrite Ec; kept_cores].
    intros q [H1 H2]. apply (ready_same_rest (lru_of c1) s' q Hsame). split; cbn; by rewrite El. }
  apply (HQ s' (moved x (line_key x b (partition_id n)) (line_key x (negb b) (partition_id n)) σ)); [|done].
  assert (Elab : forall y, partition_id <$> nodes s' !! y = partition_id <$> nodes (lru c) !! y).
  { intros y. rewrite (same_parts _ _ Hsame). cbn. by rewrite El. }
  eapply (inv_change c (put_lru s' c1)); try done.
  - apply Hkept.
  - apply Hinv; try done. cbn. by rewrite Es, fmap_insert, Eb'.
  - intros k y Hne Hy. by apply moved_other.
  - rewrite Eb'. apply moved_head.
Qed.

(** *** Flush marks *)

(** The request up to its flush marks. *)
Record marked (e e' : map_entry) : Prop := {
  mk_info : me_info e' = me_info e;
  mk_invalid : me_invalid e' = me_invalid e;
  mk_flush : me_flush e = true -> me_flush e' = true
}.
#[global] Instance marked_pre : PreOrder marked.
Proof. split; [by intros e|]. intros e1 e2 e3 [A1 A2 A3] [B1 B2 B3]. split; [congruence..|auto]. Qed.

Definition same_request (q q' : ocf_request) : Prop :=
  with_map [] (with_req_info zero_info q') = with_map [] (with_req_info zero_info q) /\
  Forall2 marked (req_map q) (req_map q').

Lemma same_request_refl q : same_request q q.
Proof. split; [done|]. by apply reflexivity. Qed.

Lemma same_request_trans q1 q2 q3 : same_request q1 q2 -> same_request q2 q3 -> same_request q1 q3.
Proof. intros [H1 H2] [H3 H4]. split; [congruence|]. by etrans. Qed.

Lemma same_request_entry q q' i e : same_request q q' -> req_map q !! i = Some e ->
  exists e', req_map q' !! i = Some e' /\ marked e e'.
Proof. intros [_ H] He. exact (Forall2_lookup_l _ _ _ _ _ H He). Qed.

Lemma alter_marked (f : map_entry -> map_entry) (k : nat) (l : list map_entry) :
  (forall e, marked e (f e)) -> Forall2 marked l (alter f k l).
Proof.
  intros Hf. apply Forall2_same_length_lookup_2; [by rewrite length_alter|].
  intros j e e' He He'. destruct (decide (j = k)) as [->|Hne].
  - rewrite list_lookup_alter_eq, He in He'. injection He' as <-. apply Hf.
  - rewrite list_lookup_alter_ne in He' by done. assert (e' = e) as -> by congruence. done.
Qed.

Lemma entry_line_same c c' m i x ci :
  same_request (request c) (request c') -> entry_line c m i x ci -> entry_line c' m i x ci.
Proof.
  intros [H1 H2] (Hi & Hx & Hc & e & He & Ee).
  assert (E : req_core (request c') = req_core (request c)) by (by injection H1).
  split; [done|]. split; [done|]. split; [congruence|].
  destruct (same_request_entry _ _ _ _ (conj H1 H2) He) as (e' & He' & [Ei _ _]). exists e'. split; [done|].
  unfold me_coll_idx in *. congruence.
Qed.

Lemma mark_flush_wp f i e (Q : unit -> cache C -> Prop) c :
  (forall e, marked e (f e)) -> 0 <= i -> req_map (request c) !! Z.to_nat i = Some e ->
  (forall q, same_request (request c) q -> Q tt (with_request q c)) -> wp (mark_flush f i) Q c.
Proof.
  intros Hf Hi He HQ. apply wp_bind, wp_bind. eapply wp_entry; [done|exact He|].
  apply wp_modify, wp_modify. apply HQ. split; [done|]. cbn. by apply alter_marked.
Qed.

Lemma flush_mark_wp i e to start stop (Q : unit -> cache C -> Prop) c :
  raw <> raw_dynamic -> 0 <= i -> req_map (request c) !! Z.to_nat i = Some e ->
  (forall q, same_request (request c) q -> Q tt (with_request q c)) ->
  wp (ocf_metadata_flush_mark raw i to start stop) Q c.
Proof.
  intros Hraw Hi He HQ.
  assert (Hret : wp (mret tt) Q c).
  { apply wp_ret. specialize (HQ (request c) (same_request_refl _)). by destruct c. }
  unfold ocf_metadata_flush_mark. destruct raw; [|done|done|].
  - destruct to; try done; by eapply mark_flush_wp.
  - destruct to; try done; by eapply mark_flush_wp.
Qed.
(** *** Cleaning and dirtying blocks *)

Lemma removed_none start stop x x' :
  0 <= x -> 0 <= x' -> removed start stop x x' -> ~ any_in start stop x -> 0 <= start -> x' = x.
Proof.
  intros Hx Hx' Hr Hn H0. apply Z.bits_inj'. intros i Hi. rewrite Hr by done.
  unfold in_range. case_bool_decide as Hin; [|by rewrite andb_true_r].
  rewrite andb_false_r. destruct (Z.testbit x i) eqn:E; [|done]. exfalso. apply Hn. by exists i.
Qed.

Lemma any_in_some start stop x : 0 <= start -> any_in start stop x -> some_bit x.
Proof. intros H0 (i & Hi & Hb). exists i. split; [lia|done]. Qed.

(** What an operation on the blocks of line [x] leaves alone. *)
Record only_line (c c' : cache C) (x : Z) (st' : map_status) : Prop := {
  ol_status : statuses c' = <[x := st']> (statuses c);
  ol_map : mapping_of c' = mapping_of c;
  ol_locks : locks c' = locks c;
  ol_request : same_request (request c) (request c');
  ol_ready : ready_kept c c'
}.

(** An operation that leaves the lists alone. *)
Ltac only_line := split; [reflexivity|reflexivity|reflexivity|done|first [apply ready_kept_lru; [reflexivity|reflexivity|reflexivity|kept_cores]|match goal with H : ready_kept _ _ |- _ => exact H end]].

Lemma cleaning_op_wp op x (Q : unit -> cache C -> Prop) c :
  (forall cl, Q tt (with_cleaner cl c)) -> wp (cleaning_op op x) Q c.
Proof.
  intros HQ. apply wp_modify. destruct (cleaner_refcnt c); [apply HQ|].
  specialize (HQ (cleaner c)). by destruct c.
Qed.

Lemma inv_cleaner c β m σ cl : cache_inv c β m σ -> cache_inv (with_cleaner cl c) β m σ.
Proof.
  intros HI. pose proof HI as []. split; try done.
  intros x Hx. destruct (ci_home _ _ _ _ HI x Hx) as (st & n & []). by exists st, n.
Qed.

Lemma inv_request c β m σ q : cache_inv c β m σ -> cache_inv (with_request q c) β m σ.
Proof.
  intros HI. pose proof HI as []. split; try done.
  intros x Hx. destruct (ci_home _ _ _ _ HI x Hx) as (st & n & []). by exists st, n.
Qed.
(** A change of the blocks that keeps a dirty line dirty and a clean one clean. *)
Lemma inv_same_counts c β m σ x ci st st' n r p :
  cache_inv c β m σ -> m !! ci = Some x -> line_facts c σ (core_id ci) x st n r p ->
  bits_ok st' -> dirty_within_valid st' ->
  nonzero Valid st' = nonzero Valid st -> nonzero Dirty st' = nonzero Dirty st ->
  cache_inv (with_statuses (<[x := st']> (statuses c)) c) β m σ.
Proof.
  intros HI Hx [[Hs Hn Hu Hl Hrdy] Hcr Hp Hb Hdv _] Hb' Hdv' Ev Ed.
  assert (El : line_dirty st' = line_dirty st) by (by rewrite !line_dirty_bits).
  assert (E : lru_of (with_statuses (<[x := st']> (statuses c)) c) = lru_of c).
  { apply lru_of_same; [done|]. cbn. rewrite fmap_insert, El. apply insert_id. by rewrite lookup_fmap, Hs. }
  eapply (inv_change c _ β m σ σ x ci st st' n r (dirty_since r) p); try done.
  - by rewrite E; apply (ci_lru _ _ _ _ HI).
  - by rewrite El.
  - cbn. rewrite bumped_same; [by rewrite insert_id|done|..]; unfold change; rewrite ?Ev, ?Ed; lia.
Qed.

Lemma wp_set_since b t core r (Q : unit -> cache C -> Prop) c :
  cores c !! core = Some r ->
  (forall since, Q tt (set_counters core (CoreRuntime (cached_clines r) (dirty_clines r) since (part_counters r)) c)) ->
  wp (when b (set_dirty_since t core)) Q c.
Proof.
  intros Hr HQ. apply wp_when; intros _; [by eapply wp_set_counters|].
  specialize (HQ (dirty_since r)). destruct r. by rewrite set_counters_same in HQ.
Qed.

Lemma clean_blocks_ok start stop st d' :
  bits_ok st -> dirty_within_valid st -> 0 <= d' -> removed start stop (dirty st) d' ->
  bits_ok (MapStatus (valid st) d') /\ dirty_within_valid (MapStatus (valid st) d').
Proof.
  intros [Hv Hd] Hdv H0 Hr. split; [split; [done|split; [done|]]|].
  - by eapply (removed_below blocks start stop (dirty st)); [apply blocks_field|..].
  - intros i Hi Hb. cbn in *. rewrite Hr in Hb by done. apply andb_true_iff in Hb as [Hb _]. by apply Hdv.
Qed.

Lemma set_clean_wp c β m σ i x ci start stop st :
  raw <> raw_dynamic -> cache_inv c β m σ -> entry_line c m i x ci -> block_range start stop ->
  statuses c !! x = Some st ->
  wp (set_cache_line_clean block_4k line_size raw start stop i) (fun _ c' => exists σ' d',
    cache_inv c' β m σ' /\ only_line c c' x (MapStatus (valid st) d') /\ removed start stop (dirty st) d') c.
Proof.
  intros Hraw HI (Hi & Hx & Hcore & e & He & Ee) Hr Hst.
  destruct (facts _ _ _ _ _ _ HI Hx) as (st0 & n & r & p & HF).
  pose proof HF as [[Hs0 Hn Hu Hl Hrdy] Hcr Hp Hb Hdv Hsm].
  assert (st0 = st) as -> by congruence. rewrite !Forall_cons in Hsm. destruct Hsm as (_ & Hs2 & _ & Hs4 & _).
  unfold set_cache_line_clean. apply wp_bind. eapply wp_entry; [done|exact He|]. rewrite Ee.
  apply wp_bind. eapply wp_partition; [exact Hn|]. apply wp_bind, wp_bug_on; [apply bool_decide_eq_false_2; lia|].
  apply wp_bind, wp_gets. apply wp_bind, wp_on_status, wp_bind. rewrite <- Hcore.
  eapply wp_mono; [apply test_exact; [exact Hst|by apply bits_status|by apply block_range_ok]|].
  intros changed s' [-> Hch]. apply wp_bind.
  eapply wp_mono; [apply clear_performs; [exact Hst|by apply bits_status|by apply block_range_ok]|].
  intros left s' (d' & -> & Hw & Hrem & Hleft). apply wp_ret. cbn [get_field put_field] in *.
  destruct (clean_blocks_ok start stop st d' Hb Hdv ltac:(apply Hw) Hrem) as [Hb' Hdv'].
  set (st' := MapStatus (valid st) d') in *. set (c1 := with_statuses _ c).
  unfold left_some in Hleft. rewrite some_bit_iff in Hleft by apply Hw.
  assert (Hstay : nonzero Dirty st' = nonzero Dirty st -> cache_inv c1 β m σ).
  { intros Ed. eapply inv_same_counts; done. }
  apply wp_when; intros Hc.
  2:{ exists σ, d'. assert (d' = dirty st) as Ed.
      { eapply removed_none; [apply Hb|apply Hw|exact Hrem| |apply Hr]. intros Ha%Hch. congruence. }
      split; [|split; [only_line|done]]. apply Hstay. unfold nonzero. cbn. by rewrite Ed. }
  assert (Hd0 : dirty st <> 0).
  { rewrite <- some_bit_iff by apply Hb. eapply any_in_some; [apply Hr|by apply Hch]. }
  apply wp_bind. eapply flush_mark_wp; [done|done|exact He|]. intros q Hq.
  apply wp_when; intros Hcl.
  2:{ exists σ, d'. split; [|split; [only_line|done]]. apply inv_request, Hstay. destruct left; [|done].
      unfold nonzero. cbn. rewrite !bool_decide_eq_true_2; [done|done|by apply Hleft]. }
  assert (d' = 0) as Ed. { destruct left; [done|]. destruct (decide (d' = 0)); [done|]. exfalso. by apply Hleft in n0. }
  assert (Hcv : change Valid st st' = 0) by (unfold change, nonzero; cbn; lia).
  assert (Hcd : change Dirty st st' = -1).
  { unfold change, nonzero. cbn. rewrite Ed, (bool_decide_eq_true_2 (dirty st <> 0)) by done. done. }
  apply wp_bind. eapply wp_set_counters; [exact Hcr|]. apply wp_bind. eapply wp_load; [apply set_counters_lookup|].
  apply wp_bind. eapply wp_set_since; [apply set_counters_lookup|]. intros since. rewrite set_counters_twice.
  apply wp_bind. eapply wp_set_part; [apply set_counters_lookup|exact Hp|]. rewrite set_counters_twice.
  apply wp_bind. eapply (wp_dirtiness c _ β m σ x ci st st' n r since p true); try done.
  - rewrite line_dirty_bits by done. by apply bool_decide_eq_true_2.
  - rewrite line_dirty_bits by done. unfold nonzero. cbn. by rewrite Ed.
  - cbn. unfold bumped. rewrite Hcv, Hcd, !Z.add_0_r. by rewrite !s32_small by lia.
  - intros s' σ' HI' Hk. apply cleaning_op_wp. intros cl. exists σ', d'. split; [by apply inv_cleaner|split; [only_line|done]].
Qed.
Lemma added_all start stop x x' : added start stop x x' -> all_in start stop x -> 0 <= x -> 0 <= x' -> x' = x.
Proof.
  intros Ha Hall Hx Hx'. apply Z.bits_inj'. intros i Hi. rewrite Ha by done.
  unfold in_range. case_bool_decide as Hin; [|by rewrite orb_false_r]. by rewrite Hall.
Qed.

Lemma dirty_blocks_ok start stop st d' :
  bits_ok st -> dirty_within_valid st -> block_range start stop -> all_in start stop (valid st) ->
  0 <= d' -> added start stop (dirty st) d' ->
  bits_ok (MapStatus (valid st) d') /\ dirty_within_valid (MapStatus (valid st) d').
Proof.
  intros [Hv Hd] Hdv Hr Hall H0 Ha. split; [split; [done|split; [done|]]|].
  - by eapply (added_below blocks start stop (dirty st)); [apply blocks_field|done|apply Hr|..].
  - intros i Hi Hb. cbn in *. rewrite Ha in Hb by done. apply orb_true_iff in Hb as [Hb|Hb].
    + by apply Hdv.
    + apply Hall. by apply bool_decide_eq_true_1 in Hb.
Qed.

Lemma set_dirty_wp now c β m σ i x ci start stop st :
  raw <> raw_dynamic -> cache_inv c β m σ -> entry_line c m i x ci -> block_range start stop ->
  statuses c !! x = Some st -> all_in start stop (valid st) ->
  wp (set_cache_line_dirty block_4k line_size raw now start stop i) (fun _ c' => exists σ' d',
    cache_inv c' β m σ' /\ only_line c c' x (MapStatus (valid st) d') /\ added start stop (dirty st) d') c.
Proof.
  intros Hraw HI (Hi & Hx & Hcore & e & He & Ee) Hr Hst Hall.
  destruct (facts _ _ _ _ _ _ HI Hx) as (st0 & n & r & p & HF).
  pose proof HF as [[Hs0 Hn Hu Hl Hrdy] Hcr Hp Hb Hdv Hsm].
  assert (st0 = st) as -> by congruence. rewrite !Forall_cons in Hsm. destruct Hsm as (_ & Hs2 & _ & Hs4 & _).
  unfold set_cache_line_dirty. apply wp_bind. eapply wp_entry; [done|exact He|]. rewrite Ee.
  apply wp_bind. eapply wp_partition; [exact Hn|]. apply wp_bind, wp_bug_on; [apply bool_decide_eq_false_2; lia|].
  apply wp_bind, wp_gets. apply wp_bind, wp_on_status, wp_bind. rewrite <- Hcore.
  eapply wp_mono; [apply test_exact; [exact Hst|by apply bits_status|by apply block_range_ok]|].
  intros alld s' [-> Hch]. apply wp_bind.
  eapply wp_mono; [apply set_performs; [exact Hst|by apply bits_status|by apply block_range_ok]|].
  intros was s' (d' & -> & Hw & Hadd & Hwas). apply wp_ret. cbn [get_field put_field] in *.
  destruct (dirty_blocks_ok start stop st d' Hb Hdv Hr Hall ltac:(apply Hw) Hadd) as [Hb' Hdv'].
  set (st' := MapStatus (valid st) d') in *. set (c1 := with_statuses _ c).
  unfold was_some in Hwas. rewrite some_bit_iff in Hwas by apply Hb.
  assert (Hd' : d' <> 0) by (eapply added_nonzero; [apply Hr|exact Hadd]).
  assert (Hstay : nonzero Dirty st' = nonzero Dirty st -> cache_inv c1 β m σ).
  { intros Ed. eapply inv_same_counts; done. }
  apply wp_bind. apply wp_when; intros Hc.
  2:{ apply cleaning_op_wp. intros cl. exists σ, d'. split; [apply inv_cleaner|split; [only_line|done]]. apply Hstay.
      destruct alld; [|done]. assert (d' = dirty st) as Ed.
      { eapply added_all; [exact Hadd|by apply Hch|apply Hb|apply Hw]. } unfold nonzero. cbn. by rewrite Ed. }
  apply wp_bind. eapply flush_mark_wp; [done|done|exact He|]. intros q Hq.
  apply wp_when; intros Hcl.
  2:{ apply cleaning_op_wp. intros cl. exists σ, d'. split; [apply inv_cleaner, inv_request, Hstay|split; [only_line|done]].
      destruct was; [|done]. unfold nonzero. cbn. rewrite !bool_decide_eq_true_2; [done|by apply Hwas|done]. }
  assert (Hd0 : dirty st = 0).
  { destruct was; [done|]. destruct (decide (dirty st = 0)); [done|]. exfalso. by apply Hwas in n0. }
  assert (Hcv : change Valid st st' = 0) by (unfold change, nonzero; cbn; lia).
  assert (Hcd : change Dirty st st' = 1).
  { unfold change, nonzero. cbn. rewrite Hd0, (bool_decide_eq_true_2 (d' <> 0)) by done. done. }
  apply wp_bind. eapply wp_load; [exact Hcr|].
  apply wp_bind. eapply wp_set_since; [exact Hcr|]. intros since.
  apply wp_bind. eapply wp_set_counters; [apply set_counters_lookup|]. rewrite set_counters_twice.
  apply wp_bind. eapply wp_set_part; [apply set_counters_lookup|exact Hp|]. rewrite set_counters_twice.
  eapply (wp_dirtiness c _ β m σ x ci st st' n r since p false); try done.
  - rewrite line_dirty_bits by done. unfold nonzero. cbn. by rewrite Hd0.
  - rewrite line_dirty_bits by done. by apply bool_decide_eq_true_2.
  - cbn. unfold bumped. rewrite Hcv, Hcd, !Z.add_0_r. by rewrite !s32_small by lia.
  - intros s' σ' HI' Hk. apply cleaning_op_wp. intros cl. exists σ', d'. split; [by apply inv_cleaner|split; [only_line|done]].
Qed.
(** *** Invalidating blocks *)

(** Does a request wait for the lock of the line? *)
Definition waits (c : cache C) (x : Z) : bool :=
  existsb (fun w => bool_decide (w_entry w = x)) (bucket ENTRIES (locks c) x).

Lemma wp_waiters x (Q : bool -> cache C -> Prop) c :
  x < num_entries -> Q (waits c x) c -> wp (on_lock (ocf_cache_line_are_waiters ENTRIES num_entries x)) Q c.
Proof.
  intros Hx HQ. unfold wp, on_lock, ocf_cache_line_are_waiters, ocf_alock_waitlist_is_empty. m_unfold.
  rewrite bool_decide_eq_false_2 by lia. unfold ocf_alock_waitlist_is_empty_locked. m_unfold.
  rewrite negb_involutive. by destruct c.
Qed.

Lemma count_nil own own' (s : status_table) x what :
  s !! x = Some (MapStatus 0 0) -> (forall y, y <> x -> own' y = own y) ->
  count (counted what own') s = count (counted what own) s.
Proof.
  intros Hx Hown. apply count_ext. intros y st Hy. unfold counted.
  destruct (decide (y = x)) as [->|Hne]; [|by rewrite Hown].
  assert (st = MapStatus 0 0) as -> by congruence. by destruct what; rewrite !andb_false_r.
Qed.

(** The line of [ci] has moved to the free list and its mapping is gone. *)
Lemma inv_remove c l' s' β β' m σ ci x n kd :
  cache_inv c β m σ -> m !! ci = Some x -> statuses c !! x = Some (MapStatus 0 0) ->
  nodes (lru c) !! x = Some n ->
  relabelled (lru_of c) l' x PARTITION_FREELIST ->
  part_inv l' (moved x (line_key x false (partition_id n)) kd σ) ->
  mapping s' β' (delete ci m) -> ~ mapped β' x -> (forall y, y <> x -> mapped β' y <-> mapped β y) ->
  removed_core (mapping_of c) s' x ->
  cache_inv (with_mapping s' (put_lru l' c)) β' (delete ci m) (moved x (line_key x false (partition_id n)) kd σ).
Proof.
  intros HI Hx Hst Hn [Hlab Hoth Hdirty Hready] HL Hmap Hmx Hmy (Een & Eci & _).
  set (c' := with_mapping _ _).
  assert (El : lru_of c' = l').
  { unfold CacheLine.lru_of. cbn. cbn in Hdirty. rewrite <- Hdirty. by destruct l'. }
  assert (Hcore : forall core y, y <> x -> of_core s' core y = of_core (mapping_of c) core y).
  { intros core y Hne. unfold of_core. by rewrite Eci, lookup_insert_ne. }
  assert (Hpart : forall part y, y <> x -> of_part (lru c') part y = of_part (lru c) part y).
  { intros part y Hne. specialize (Hoth y Hne). unfold of_part. cbn in *.
    destruct (nodes l' !! y), (nodes (lru c) !! y); try done. by injection Hoth as ->. }
  split; rewrite ?El; try done.
  - cbn. by rewrite Een; apply (ci_entries _ _ _ _ HI).
  - apply Hready, (ci_free _ _ _ _ HI).
  - apply (ci_line _ _ _ _ HI).
  - intros y Hy. destruct (ci_total _ _ _ _ HI y Hy) as [H1 H2]. split; [exact H1|].
    eapply (relabelled_some (lru_of c) l'); [by split|exact H2].
  - apply (ci_bits _ _ _ _ HI).
  - intros y st Hy Hm. destruct (decide (y = x)) as [->|Hne]; [cbn in Hy; congruence|].
    apply (ci_idle _ _ _ _ HI y st Hy). by rewrite <- Hmy.
  - intros y n' Hn'. cbn in Hn'. destruct (decide (y = x)) as [->|Hne].
    + rewrite Hn' in Hlab. injection Hlab as Hlab. split; [done|]. intros H. by destruct H.
    + rewrite Hmy by done. destruct (label_ext _ _ _ _ (Hoth y Hne) Hn') as (n0 & Hn0 & <-).
      by apply (ci_label _ _ _ _ HI).
  - intros y Hy. assert (Hne : y <> x) by (by intros ->).
    apply Hmy in Hy; [|done]. destruct (ci_home _ _ _ _ HI y Hy) as (st & n0 & [H1 H2 H3 H4 H5]).
    pose proof (Hoth y Hne) as Hly. cbn in Hly. rewrite H2 in Hly. apply fmap_Some in Hly as (n1 & Hn1 & En).
    exists st, n1. split; rewrite <- ?En, ?El; try done; [by apply moved_other|by apply Hready].
  - intros ci' y [_ Hy]%lookup_delete_Some. by apply (ci_owner _ _ _ _ HI ci' y).
  - intros core r Hr. destruct (ci_counts _ _ _ _ HI core r Hr) as (H1 & H2 & H3).
    split; [|split].
    + rewrite H1. symmetry. apply (count_nil _ _ _ x); [done|]. by apply Hcore.
    + rewrite H2. symmetry. apply (count_nil _ _ _ x); [done|]. by apply Hcore.
    + intros part p Hp. destruct (H3 part p Hp) as [-> ->].
      split; symmetry; apply (count_nil _ _ _ x); try done; intros y Hy; cbn; by rewrite Hcore, Hpart.
Qed.
(** The free list of a line. *)
Definition free_key (x : Z) : list_key := line_key x false PARTITION_FREELIST.

(** What becomes of a line whose valid blocks are now [v']: it keeps its
    mapping while a block is valid or somebody waits for it, and is free
    otherwise. *)
Definition dropped_or_kept (c c' : cache C) β m σ (ci : core_info) (x v' : Z) : Prop :=
  if decide (v' <> 0 \/ waits c x = true)
  then cache_inv c' β m σ /\ mapping_of c' = mapping_of c
  else exists β' σ', cache_inv c' β' (delete ci m) σ' /\ x ∈ σ' (free_key x).

Lemma free_line_wp c β m σ ci x n (Q : unit -> cache C -> Prop) :
  cache_inv c β m σ -> m !! ci = Some x -> line_home c σ x (MapStatus 0 0) n ->
  (forall l' s' β' σ', cache_inv (with_mapping s' (put_lru l' c)) β' (delete ci m) σ' -> x ∈ σ' (free_key x) ->
     ready_kept c (with_mapping s' (put_lru l' c)) -> Q tt (with_mapping s' (put_lru l' c))) ->
  wp (_ ← ocf_eviction_rm_cline block_4k line_size x; on_map (ocf_metadata_remove_cache_line x)) Q c.
Proof.
  intros HI Hx [Hst Hn Hu Hl Hrdy] HQ. apply wp_bind, wp_on_lru.
  unfold ocf_lru_rm_cline. apply wp_bind, wp_bind. eapply wp_node_of; [exact Hn|]. apply wp_ret.
  apply wp_bind. unfold user_part. apply wp_bind, wp_bug_on; [apply bool_decide_eq_false_2; lia|]. apply wp_ret.
  assert (Hd : line_dirty (MapStatus 0 0) = false).
  { rewrite line_dirty_bits; [done|]. split; cbn; split; try lia; apply Z.pow_pos_nonneg; try lia; apply blocks_field. }
  rewrite Hd in Hl.
  eapply wp_mono.
  { apply (repart_wp (lru_of c) σ x false (partition_id n) PARTITION_FREELIST); try done.
    - apply (ci_lru _ _ _ _ HI).
    - apply (ci_free _ _ _ _ HI).
    - change (LruPart.dirty (lru_of c)) with (line_dirty <$> statuses c).
      rewrite lookup_fmap, Hst. exact (f_equal Some Hd). }
  intros [] l' [HL Hrel]. apply wp_on_map. eapply wp_mono; [apply (remove_wp _ β m ci); [apply (ci_map _ _ _ _ HI)|done]|].
  intros [] s' (β' & Hm & Hnm & Hym & Hrm). eapply HQ; [eapply inv_remove; try done|apply moved_head|].
  split; [|exact (fun _ H => H)]. intros q Hq. destruct (rl_ready _ _ _ _ Hrel q Hq). by split.
Qed.

Lemma cl_set_invalid_wp c β m σ ci x st n start stop :
  cache_inv c β m σ -> m !! ci = Some x -> statuses c !! x = Some st -> nodes (lru c) !! x = Some n ->
  block_range start stop -> ~ any_in start stop (dirty st) ->
  wp (cl_set_invalid block_4k line_size num_entries ENTRIES start stop x (core_id ci) (partition_id n)) (fun _ c' =>
    exists v', statuses c' = <[x := MapStatus v' (dirty st)]> (statuses c) /\ removed start stop (valid st) v' /\
      locks c' = locks c /\ request c' = request c /\ ready_kept c c' /\ dropped_or_kept c c' β m σ ci x v') c.
Proof.
  intros HI Hx Hst Hn0 Hr Hnd.
  destruct (facts _ _ _ _ _ _ HI Hx) as (st0 & n1 & r & p & HF).
  pose proof HF as [[Hs0 Hn Hu Hl Hrdy] Hcr Hp Hb Hdv Hsm].
  assert (st0 = st) as -> by congruence. assert (n1 = n) as -> by congruence.
  rewrite !Forall_cons in Hsm. destruct Hsm as (Hs1 & _ & Hs3 & _).
  destruct (ci_owner _ _ _ _ HI ci x Hx) as (Hcn & _).
  unfold cl_set_invalid. apply wp_bind, wp_bug_on; [apply bool_decide_eq_false_2; lia|].
  apply wp_bind, wp_on_status, wp_bind.
  eapply wp_mono; [apply test_exact; [exact Hst|by apply bits_status|apply end_block_ok]|].
  intros was s' [-> Hwas]. apply wp_bind.
  eapply wp_mono; [apply clear_performs; [exact Hst|by apply bits_status|by apply block_range_ok]|].
  intros left s' (v' & -> & Hw & Hrem & Hleft). apply wp_ret. cbn [get_field put_field] in *.
  unfold left_some in Hleft. rewrite some_bit_iff in Hleft by apply Hw.
  set (st' := MapStatus v' (dirty st)). set (c1 := with_statuses _ c).
  assert (Hv' : v' < 2 ^ blocks).
  { apply (removed_below _ start stop (valid st)); [apply blocks_field|apply Hb|apply Hw|exact Hrem]. }
  assert (Hb' : bits_ok st') by (split; [split; [apply Hw|done]|apply Hb]).
  assert (Hdv' : dirty_within_valid st').
  { intros j Hj Hd. cbn. rewrite Hrem, (Hdv j Hj Hd) by done. unfold in_range.
    rewrite bool_decide_eq_false_2; [done|]. intros Hin. apply Hnd. by exists j. }
  assert (Hwas' : was = nonzero Valid st).
  { apply eq_true_iff_eq. rewrite Hwas. unfold nonzero. rewrite bool_decide_eq_true. cbn.
    rewrite <- some_bit_iff by apply Hb. split; [by apply any_in_some|].
    intros (j & Hj & Hjb). exists j. split; [|done]. split; [done|].
    unfold end_block, ocf_line_end_block. destruct (decide (blocks <= j)); [|lia].
    rewrite (bits_of_below blocks) in Hjb by (done || apply blocks_field || apply Hb). done. }
  assert (Hcd : change Dirty st st' = 0) by (unfold change, nonzero; cbn; lia).
  assert (Hpost : forall r', r' = bumped r (dirty_since r) (partition_id n) p st st' ->
    cache_inv (set_counters (core_id ci) r' c1) β m σ).
  { intros r' ->. assert (El : lru_of (set_counters (core_id ci) (bumped r (dirty_since r) (partition_id n) p st st') c1) = lru_of c).
    { apply lru_of_same; [done|]. cbn. rewrite fmap_insert. apply insert_id. by rewrite lookup_fmap, Hst. }
    eapply (inv_change c); try done. rewrite El. apply (ci_lru _ _ _ _ HI). }
  destruct left eqn:Hlf.
  { apply wp_bug_on; [by rewrite andb_false_r|].
    assert (Hne : v' <> 0) by (by apply Hleft).
    exists v'. split_and!; try done; [apply ready_kept_lru; [done|done|done|kept_cores]|]. unfold dropped_or_kept. rewrite decide_True by (by left).
    split; [|done]. specialize (Hpost r). rewrite set_counters_same in Hpost by done. apply Hpost.
    symmetry. apply bumped_same; [done| |done]. unfold change, nonzero. cbn.
    rewrite !bool_decide_eq_true_2; [done| |done]. intros Hz. apply Hne. apply Z.bits_inj'. intros j Hj.
    rewrite Hrem by done. by rewrite Hz, Z.bits_0. }
  assert (v' = 0) as Ev. { destruct (decide (v' = 0)); [done|]. exfalso. by apply Hleft in n0. }
  assert (Hcv : change Valid st st' = - Z.b2z was).
  { rewrite Hwas'. unfold change. replace (nonzero Valid st') with false; [cbn; lia|].
    unfold nonzero. cbn. by rewrite Ev. }
  (* the counters *)
  apply wp_bind. rewrite andb_true_r.
  apply (wp_mono _ (fun _ c2 => exists r', c2 = set_counters (core_id ci) r' c1 /\ cache_inv c2 β m σ /\ cores_kept (cores c) (cores c2))).
  { apply wp_when; intros Hwt.
    - eapply wp_add_cached; [exact Hcr|exact Hp|]. eexists. split; [done|]. split; [|kept_cores]. apply Hpost.
      unfold bumped. rewrite Hcd, Hcv, Hwt, !Z.add_0_r. cbn [Z.b2z Z.opp]. by rewrite !s32_small by lia.
    - exists r. rewrite set_counters_same by done. split; [done|]. split; [|kept_cores].
      specialize (Hpost r). rewrite set_counters_same in Hpost by done. apply Hpost.
      symmetry. apply bumped_same; [done| |done]. rewrite Hcv, Hwt. done. }
  intros [] c2 (r' & -> & HI2 & Hck). apply wp_bind, wp_waiters.
  { apply (ci_line _ _ _ _ HI). eauto. }
  change (waits (set_counters (core_id ci) r' c1) x) with (waits c x).
  destruct (waits c x) eqn:Ewt.
  { apply wp_ret. exists v'. split_and!; try done.
    unfold dropped_or_kept. by rewrite decide_True by (by right). }
  assert (Hd0 : dirty st = 0).
  { destruct (decide (dirty st = 0)) as [|Hne]; [done|]. exfalso.
    apply some_bit_iff in Hne as (j & Hj & Hjb); [|apply Hb]. specialize (Hdv' j Hj Hjb). cbn in Hdv'.
    by rewrite Ev, Z.bits_0 in Hdv'. }
  assert (Est : st' = MapStatus 0 0) by (unfold st'; by rewrite Ev, Hd0).
  eapply (free_line_wp _ β m σ ci x n); [exact HI2|done| |].
  - rewrite <- Est. split; try done. cbn. by rewrite lookup_insert_eq.
  - intros l' s' β' σ' HI' Hfree Hk. exists v'.
    split_and!; try done; [by apply (ready_kept_trans _ (set_counters (core_id ci) r' c1)); [apply ready_kept_lru|]|].
    unfold dropped_or_kept. rewrite decide_False by (intros [?|?]; [done|congruence]). by exists β', σ'.
Qed.
End CacheLineProofs.
