(* ===== verification/CacheLineSteps.v ===== *)
(** * The operations on cache lines keep the cache consistent

    One theorem per operation of [CacheLine], from the lemmas of
    [CacheLineProofs]: under [cache_inv] no assertion fails, the invariant
    holds again, and the blocks of the line change as the operation says. *)

From S2P Require Import Prelude Alock AlockProofs CacheLineLock Links Lru LruProofs Generator LruPart LruPartProofs.
From S2P Require Import Collision CollisionProofs Status StatusProofs Request CacheLine CacheLineProofs.

Section CacheLineSteps.
Context {C : Type} `{!CleaningPolicy C}.
Context (block_4k : bool) (line_size : cache_line_size) (raw : raw_type).
Context (num_entries ENTRIES : Z).
Abbreviation inv := (cache_inv (C:=C) block_4k line_size num_entries).
Abbreviation only_line := (only_line (C:=C) block_4k line_size).
Abbreviation ready_kept := (ready_kept (C:=C) block_4k line_size).

(** Making blocks of a mapped line valid ([set_cache_line_valid]) adds
    exactly these blocks and keeps mapping, lists, status bits and the
    counters of cached lines consistent: the line is counted when it gets its
    first valid block. *)
Theorem cacheline_set_valid c β m σ i x ci start stop st :
  inv c β m σ -> entry_line c m i x ci -> block_range block_4k line_size start stop -> statuses c !! x = Some st ->
  wp (set_cache_line_valid block_4k line_size start stop i) (fun _ c' =>
    inv c' β m σ /\ request c' = request c /\
    exists v', statuses c' = <[x := MapStatus v' (dirty st)]> (statuses c) /\ added start stop (valid st) v') c.
Proof.
  intros HI He Hr Hst. eapply wp_mono; [by eapply set_valid_wp|].
  intros [] c' (? & ? & _ & _ & _ & _ & ?). done.
Qed.

(** C23. Making valid blocks dirty ([set_cache_line_dirty]) adds exactly these
    blocks to the dirty ones, moves a line that was clean to the dirty list of
    its partition, and keeps everything consistent, the counters of dirty
    lines included. *)
Theorem cacheline_set_dirty now c β m σ i x ci start stop st :
  raw <> raw_dynamic -> inv c β m σ -> entry_line c m i x ci -> block_range block_4k line_size start stop ->
  statuses c !! x = Some st -> all_in start stop (valid st) ->
  wp (set_cache_line_dirty block_4k line_size raw now start stop i) (fun _ c' => exists σ' d',
    inv c' β m σ' /\ only_line c c' x (MapStatus (valid st) d') /\ added start stop (dirty st) d') c.
Proof. intros. by eapply set_dirty_wp. Qed.

(** Cleaning blocks ([set_cache_line_clean]) removes exactly these blocks
    from the dirty ones, moves a line that becomes clean to the clean list of
    its partition, and keeps everything consistent. *)
Theorem cacheline_set_clean c β m σ i x ci start stop st :
  raw <> raw_dynamic -> inv c β m σ -> entry_line c m i x ci -> block_range block_4k line_size start stop ->
  statuses c !! x = Some st ->
  wp (set_cache_line_clean block_4k line_size raw start stop i) (fun _ c' => exists σ' d',
    inv c' β m σ' /\ only_line c c' x (MapStatus (valid st) d') /\ removed start stop (dirty st) d') c.
Proof. intros. by eapply set_clean_wp. Qed.

(** What all operations leave as it is. *)
Definition frame (c c' : cache C) : Prop :=
  locks c' = locks c /\ same_request (request c) (request c') /\ ready_kept c c'.

Lemma frame_refl c : frame c c.
Proof. split; [done|]. split; [apply same_request_refl|apply ready_kept_refl]. Qed.

Lemma frame_trans c1 c2 c3 : frame c1 c2 -> frame c2 c3 -> frame c1 c3.
Proof.
  intros (L1 & Q1 & R1) (L2 & Q2 & R2).
  split; [congruence|]. split; [by eapply same_request_trans|by eapply ready_kept_trans].
Qed.

Lemma set_invalid_wp c β m σ i x ci start stop st :
  raw <> raw_dynamic -> inv c β m σ -> entry_line c m i x ci -> block_range block_4k line_size start stop ->
  statuses c !! x = Some st -> ~ any_in start stop (dirty st) ->
  wp (set_cache_line_invalid block_4k line_size raw num_entries ENTRIES start stop i) (fun _ c' => exists v',
    statuses c' = <[x := MapStatus v' (dirty st)]> (statuses c) /\ removed start stop (valid st) v' /\
    frame c c' /\ dropped_or_kept block_4k line_size num_entries ENTRIES c c' β m σ ci x v') c.
Proof.
  intros Hraw HI (Hi & Hx & Hcore & e & He & Ee) Hr Hst Hnd.
  destruct (facts _ _ _ _ _ _ _ _ _ HI Hx) as (st0 & n & r & p & HF).
  pose proof (lh_node _ _ _ _ _ _ _ (lf_home _ _ _ _ _ _ _ _ _ _ HF)) as Hn.
  apply wp_bind. eapply wp_entry; [done|exact He|]. rewrite Ee.
  apply wp_bind. eapply wp_partition; [exact Hn|]. apply wp_bind, wp_gets. rewrite <- Hcore.
  apply wp_bind. eapply wp_mono; [by eapply (cl_set_invalid_wp block_4k line_size num_entries ENTRIES)|].
  intros [] c' (v' & Es & Hrem & El & Eq & Hrdy & Hd).
  eapply flush_mark_wp; [done|done|by rewrite Eq|]. intros q Hq. exists v'. split; [done|]. split; [done|].
  split; [split; [done|split; [by rewrite <- Eq|exact Hrdy]]|].
  unfold dropped_or_kept in *. case_decide as Hk.
  - destruct Hd as [Hd1 Hd2]. split; [by apply inv_request|done].
  - destruct Hd as (β' & σ' & Hd & Hf). exists β', σ'. split; [by apply inv_request|done].
Qed.

(** C24. Invalidating clean blocks ([set_cache_line_invalid]) removes exactly
    these blocks from the valid ones; when no valid block is left the line
    leaves the counters, and unless a request waits for its lock, its mapping
    and its list as well: its core line is unmapped and the line is free. *)
Theorem cacheline_set_invalid c β m σ i x ci start stop st :
  raw <> raw_dynamic -> inv c β m σ -> entry_line c m i x ci -> block_range block_4k line_size start stop ->
  statuses c !! x = Some st -> ~ any_in start stop (dirty st) ->
  wp (set_cache_line_invalid block_4k line_size raw num_entries ENTRIES start stop i) (fun _ c' => exists v',
    statuses c' = <[x := MapStatus v' (dirty st)]> (statuses c) /\ removed start stop (valid st) v' /\
    dropped_or_kept block_4k line_size num_entries ENTRIES c c' β m σ ci x v') c.
Proof.
  intros. eapply wp_mono; [by eapply set_invalid_wp|]. intros [] c' (v' & ? & ? & _ & ?). by exists v'.
Qed.

Lemma purge_wp c β m σ i x ci start stop st :
  raw <> raw_dynamic -> inv c β m σ -> entry_line c m i x ci -> block_range block_4k line_size start stop ->
  statuses c !! x = Some st ->
  wp (ocf_purge_cache_line_sec block_4k line_size raw num_entries ENTRIES start stop i) (fun _ c' => exists σ1 v' d',
    statuses c' = <[x := MapStatus v' d']> (statuses c) /\
    removed start stop (valid st) v' /\ removed start stop (dirty st) d' /\
    frame c c' /\ dropped_or_kept block_4k line_size num_entries ENTRIES c c' β m σ1 ci x v') c.
Proof.
  intros Hraw HI He Hr Hst. apply wp_bind. eapply wp_mono; [by eapply set_clean_wp|].
  intros [] c1 (σ1 & d' & HI1 & [Es Em El Eq Hrdy] & Hrem).
  eapply wp_mono.
  { eapply (set_invalid_wp c1 β m σ1 i x ci start stop (MapStatus (valid st) d')); try done.
    - by eapply entry_line_same.
    - by rewrite Es, lookup_insert_eq.
    - intros (j & Hj & Hb). cbn in Hb. rewrite Hrem in Hb by (destruct Hr; lia). unfold in_range in Hb.
      rewrite bool_decide_eq_true_2 in Hb by done. by rewrite andb_false_r in Hb. }
  intros [] c' (v' & Es' & Hv' & Hf & Hd). exists σ1, v', d'. cbn in Es', Hv'.
  split; [by rewrite Es', Es, insert_insert_eq|]. split; [done|]. split; [done|].
  split; [by apply (frame_trans c c1)|]. unfold dropped_or_kept, waits in *. by rewrite El, Em in Hd.
Qed.

(** Purging blocks ([_ocf_purge_cache_line_sec]) makes them clean and
    invalid whatever they were; if the line has no valid block left and nobody
    waits for it, its core line is unmapped and the line is free. *)
Theorem cacheline_purge c β m σ i x ci start stop st :
  raw <> raw_dynamic -> inv c β m σ -> entry_line c m i x ci -> block_range block_4k line_size start stop ->
  statuses c !! x = Some st ->
  wp (ocf_purge_cache_line_sec block_4k line_size raw num_entries ENTRIES start stop i) (fun _ c' => exists σ1 v' d',
    statuses c' = <[x := MapStatus v' d']> (statuses c) /\
    removed start stop (valid st) v' /\ removed start stop (dirty st) d' /\
    dropped_or_kept block_4k line_size num_entries ENTRIES c c' β m σ1 ci x v') c.
Proof.
  intros. eapply wp_mono; [by eapply purge_wp|].
  intros [] c' (σ1 & v' & d' & ? & ? & ? & _ & ?). by exists σ1, v', d'.
Qed.
End CacheLineSteps.

(** ** A cache of one line, mapped to core line 0 of core 0, with four valid blocks *)

Definition line_map_state : map_state :=
  MapState 1 1 {[0 := 0]} {[0 := ListInfo 1 1]} {[0 := CoreInfo 0 0]}.

Lemma line_mapping : mapping line_map_state (bupd 0 [0] (fun _ => [])) {[CoreInfo 0 0 := 0]}.
Proof.
  assert (Hin : forall h x, x ∈ bupd 0 [0] (fun _ => []) h <-> h = 0 /\ x = 0).
  { intros h x. unfold bupd. case_decide; [rewrite list_elem_of_singleton; naive_solver|].
    split; [by intros ?%not_elem_of_nil|naive_solver]. }
  split; [split|].
  - done.
  - done.
  - cbn. intros h Hh. assert (h = 0) as -> by lia. reflexivity.
  - cbn. intros h Hh. apply bupd_ne. lia.
  - intros h. unfold bupd. case_decide; [|done]. cbn. split; [|done]. by eexists.
  - intros h. unfold bupd. case_decide; [apply NoDup_singleton|constructor].
  - intros h h' x [-> _]%Hin [-> _]%Hin. done.
  - intros h x [-> ->]%Hin. cbn. lia.
  - intros h x [-> ->]%Hin. by exists (CoreInfo 0 0).
  - cbn. intros x Hx. assert (x = 0) as -> by lia. split; by eexists.
  - intros ci x. unfold mapped. setoid_rewrite Hin. rewrite lookup_singleton_Some. split.
    + intros [<- <-]. split; [by exists 0|done].
    + intros [(h & _ & ->) Hc]. vm_compute in Hc. by injection Hc as <-.
Qed.

Definition line_counters : gmap Z part_counter :=
  list_to_map ((fun p : nat => (Z.of_nat p, PartCounter (if bool_decide (p = 0%nat) then 1 else 0) 0)) <$> seq 0 34).

Definition line_request : ocf_request :=
  Request 0 0 0 4096 0 0 1 [MapEntry (MapInfo 0 0 0 0 LOOKUP_HIT) false false false 0 0] zero_info.

Definition line_cache (l : lru_cache) : cache unit :=
  Cache {[0 := MapStatus 15 0]} line_map_state l {[0 := CoreRuntime 1 0 0 line_counters]}
    (Alock ∅ ∅ 0 ∅ [] []) tt true line_request.

Lemma count_single P st : count P {[0 := st]} = Z.b2z (P 0 st).
Proof.
  change ({[0 := st]} : status_table) with (<[0 := st]> ∅ : status_table).
  rewrite count_insert_new by done. unfold count. by rewrite map_filter_empty, map_size_empty.
Qed.

Lemma line_cache_ready : exists l σ,
  cache_inv false size_4 1 (line_cache l) (bupd 0 [0] (fun _ => [])) {[CoreInfo 0 0 := 0]} σ /\
  forall p, 0 <= p < OCF_USER_IO_CLASS_MAX -> part_ready (lru_of false size_4 (line_cache l)) p.
Proof.
  pose proof sample_parts as [P0 PF]. destruct (sample_inv 0 P0) as (l & σ & HI & Hs & H0 & Hall & [n Hn]).
  assert (Hpn : partition_id n = 0).
  { pose proof (same_parts _ _ Hs 0) as Hp. rewrite Hn in Hp. by injection Hp. }
  exists l, σ. set (c := line_cache l).
  assert (El : CacheLine.lru_of false size_4 c = l).
  { unfold CacheLine.lru_of. pose proof (same_dirty _ _ Hs) as Hd. cbn in Hd.
    assert (Ed : CacheLine.line_dirty false size_4 <$> statuses c = {[0 := false]}) by (apply map_fmap_singleton).
    rewrite Ed. destruct l as [a b d e f]. cbn in *. by rewrite Hd. }
  assert (Hst : forall y s, statuses c !! y = Some s -> y = 0 /\ s = MapStatus 15 0)
    by (intros y s Hy; cbn in Hy; by apply lookup_singleton_Some in Hy as [<- <-]).
  split; [|intros p Hp; rewrite El; apply (sample_ready p 0); [by apply sample_user|exact P0|exact Hs]].
  assert (Hmap0 : mapped (bupd 0 [0] (fun _ => [])) 0) by (exists 0; rewrite bupd_eq; left).
  split; rewrite ?El; try done.
  - apply line_mapping.
  - exact (sample_ready _ _ _ PF P0 Hs).
  - intros x [s [-> _]%Hst]. lia.
  - intros x Hx. assert (x = 0) as -> by lia. split; [by eexists|by exists n].
  - intros x s [_ ->]%Hst. split; [done|]. intros i Hi. cbn. by rewrite Z.bits_0.
  - intros x s [-> _]%Hst Hm. by destruct Hm.
  - intros x n' Hx. cbn in Hx. pose proof (same_parts _ _ Hs x) as Hp. rewrite Hx in Hp.
    cbn in Hp. destruct (decide (x = 0)) as [->|Hne].
    + split; [|done]. intros _. assert (n' = n) as -> by congruence. by rewrite Hpn.
    + by rewrite lookup_singleton_ne in Hp by done.
  - intros x [h Hx]. unfold bupd in Hx. case_decide; [|by apply not_elem_of_nil in Hx].
    apply list_elem_of_singleton in Hx as ->. exists (MapStatus 15 0), n.
    split; rewrite ?Hpn, ?El; [done|exact Hn|done|exact H0|exact (sample_ready _ _ _ P0 P0 Hs)].
  - intros ci x [<- <-]%lookup_singleton_Some. split; [done|].
    exists (CoreRuntime 1 0 0 line_counters). split; [done|]. intros p Hp. cbn [part_counters].
    assert (Hf : Forall (fun q => is_Some (line_counters !! Z.of_nat q)) (seq 0 34)) by by_compute.
    rewrite Forall_forall in Hf. unfold OCF_USER_IO_CLASS_MAX in Hp.
    specialize (Hf (Z.to_nat p)). rewrite Z2Nat.id in Hf by lia. apply Hf, elem_of_seq. lia.
  - intros core r Hr. cbn in Hr. apply lookup_singleton_Some in Hr as [<- <-]. unfold counts. cbn [statuses c line_cache].
    rewrite !count_single. split; [done|]. split; [done|]. intros part p Hp.
    change (line_counters !! part = Some p) in Hp.
    apply elem_of_list_to_map_2, list_elem_of_fmap in Hp as (q & [= -> ->] & _).
    cbv zeta. rewrite !count_single. unfold counted, of_part. cbn [lru c line_cache]. rewrite Hn, Hpn.
    change (of_core (mapping_of c) 0 0) with true. cbn [andb].
    destruct q; [done|]. by rewrite !bool_decide_eq_false_2 by lia.
Qed.

Lemma line_cache_inv : exists l σ,
  cache_inv false size_4 1 (line_cache l) (bupd 0 [0] (fun _ => [])) {[CoreInfo 0 0 := 0]} σ.
Proof. destruct line_cache_ready as (l & σ & HI & _). by exists l, σ. Qed.

Lemma line_entry l : entry_line (line_cache l) {[CoreInfo 0 0 := 0]} 0 0 (CoreInfo 0 0).
Proof. split; [done|]. split; [done|]. split; [done|]. by eexists. Qed.

(** ** Witnesses *)

Lemma cacheline_set_valid_witness : exists l σ c',
  set_cache_line_valid false size_4 2 5 0 (line_cache l) = Some (tt, c') /\
  cache_inv false size_4 1 c' (bupd 0 [0] (fun _ => [])) {[CoreInfo 0 0 := 0]} σ.
Proof.
  destruct line_cache_inv as (l & σ & HI). exists l, σ.
  assert (Hw := cacheline_set_valid false size_4 1 (line_cache l) _ _ σ 0 0 (CoreInfo 0 0) 2 5 (MapStatus 15 0)
    HI (line_entry l) ltac:(done) ltac:(done)).
  rewrite wp_run in Hw. destruct Hw as ([] & c' & Hr & HI' & _). by exists c'.
Defined.

Lemma cacheline_set_dirty_witness : exists l σ c' σ',
  set_cache_line_dirty false size_4 raw_ram 77 0 3 0 (line_cache l) = Some (tt, c') /\
  cache_inv false size_4 1 (line_cache l) (bupd 0 [0] (fun _ => [])) {[CoreInfo 0 0 := 0]} σ /\
  cache_inv false size_4 1 c' (bupd 0 [0] (fun _ => [])) {[CoreInfo 0 0 := 0]} σ'.
Proof.
  destruct line_cache_inv as (l & σ & HI). exists l, σ.
  assert (Hall : all_in 0 3 15).
  { intros i Hi. assert (i = 0 \/ i = 1 \/ i = 2 \/ i = 3) as [->|[->|[->| ->]]] by lia; done. }
  assert (Hw := cacheline_set_dirty false size_4 raw_ram 1 77 (line_cache l) _ _ σ 0 0 (CoreInfo 0 0) 0 3 (MapStatus 15 0)
    ltac:(done) HI (line_entry l) ltac:(done) ltac:(done) Hall).
  rewrite wp_run in Hw. destruct Hw as ([] & c' & Hr & σ' & d' & HI' & _). by exists c', σ'.
Defined.

Lemma cacheline_set_clean_witness : exists l σ c' σ',
  set_cache_line_clean false size_4 raw_ram 0 3 0 (line_cache l) = Some (tt, c') /\
  cache_inv false size_4 1 (line_cache l) (bupd 0 [0] (fun _ => [])) {[CoreInfo 0 0 := 0]} σ /\
  cache_inv false size_4 1 c' (bupd 0 [0] (fun _ => [])) {[CoreInfo 0 0 := 0]} σ'.
Proof.
  destruct line_cache_inv as (l & σ & HI). exists l, σ.
  assert (Hw := cacheline_set_clean false size_4 raw_ram 1 (line_cache l) _ _ σ 0 0 (CoreInfo 0 0) 0 3 (MapStatus 15 0)
    ltac:(done) HI (line_entry l) ltac:(done) ltac:(done)).
  rewrite wp_run in Hw. destruct Hw as ([] & c' & Hr & σ' & d' & HI' & _). by exists c', σ'.
Defined.

Lemma cacheline_set_invalid_witness : exists l c' v',
  set_cache_line_invalid false size_4 raw_ram 1 1 0 1 0 (line_cache l) = Some (tt, c') /\ removed 0 1 15 v'.
Proof.
  destruct line_cache_inv as (l & σ & HI). exists l.
  assert (Hw := cacheline_set_invalid false size_4 raw_ram 1 1 (line_cache l) _ _ σ 0 0 (CoreInfo 0 0) 0 1 (MapStatus 15 0)
    ltac:(done) HI (line_entry l) ltac:(done) ltac:(done) ltac:(intros (j & _ & Hb); cbn in Hb; by rewrite Z.bits_0 in Hb)).
  rewrite wp_run in Hw. destruct Hw as ([] & c' & Hr & v' & _ & Hrem & _). by exists c', v'.
Defined.

(** Purging all blocks frees the line. *)
Lemma cacheline_purge_witness : exists l c' β' σ',
  ocf_purge_cache_line_sec false size_4 raw_ram 1 1 0 7 0 (line_cache l) = Some (tt, c') /\
  cache_inv false size_4 1 c' β' (delete (CoreInfo 0 0) {[CoreInfo 0 0 := 0]}) σ' /\ 0 ∈ σ' (free_key 0).
Proof.
  destruct line_cache_inv as (l & σ & HI). exists l.
  assert (Hw := cacheline_purge false size_4 raw_ram 1 1 (line_cache l) _ _ σ 0 0 (CoreInfo 0 0) 0 7 (MapStatus 15 0)
    ltac:(done) HI (line_entry l) ltac:(done) ltac:(done)).
  rewrite wp_run in Hw. destruct Hw as ([] & c' & Hr & σ1 & v' & d' & Es & Hv & _ & Hd).
  assert (v' = 0) as ->.
  { apply Z.bits_inj'. intros i Hi. rewrite Hv, Z.bits_0 by done. cbn [valid]. unfold in_range.
    destruct (decide (0 <= i <= 7)) as [Hin|Hin].
    - rewrite (bool_decide_eq_true_2 (0 <= i <= 7)) by done. by rewrite andb_false_r.
    - by rewrite (bits_of_below 8 15 i) by lia. }
  unfold dropped_or_kept in Hd. rewrite decide_False in Hd by (intros [?|?]; done).
  destruct Hd as (β' & σ' & HI' & Hf). by exists c', β', σ'.
Defined.
