(* ===== verification/AsyncLock.v ===== *)
(** * The asynchronous lock, [utils/utils_async_lock.c]

    A readers-writer lock for management operations: a waiter that cannot be
    granted is queued and its completion is called when it gets the lock.  The
    functions run under [waiters_lock], so each is one atomic step on
    [ocf_async_lock]; the completions it calls are appended to [cmpls], in the
    order of the calls.  [step] is the transition system of clients that
    lock, try, wait and unlock in any order. *)

From S2P Require Import Prelude.

Module AsyncLock.

(** ** Data *)

(** [-OCF_ERR_NO_LOCK] of [inc/ocf_err.h]. *)
Definition OCF_ERR_NO_LOCK : Z := 1000006.

(** [wid] stands for the address of the waiter.  A waiter that gets the lock at
    once has no [write_lock] in the source; here it has the kind it asked for. *)
Record ocf_async_lock_waiter := Waiter { wid : Z; write_lock : bool }.

(** [cmpls] is the log of the calls [waiter->cmpl(waiter, status)]. *)
Record ocf_async_lock := AsyncLockState {
  waiters : list ocf_async_lock_waiter;
  rd : Z;
  wr : Z;
  cmpls : list (ocf_async_lock_waiter * Z) }.

#[global] Instance waiter_eq_dec : EqDecision ocf_async_lock_waiter.
Proof. solve_decision. Defined.

Definition with_waiters ws (s : ocf_async_lock) := AsyncLockState ws (rd s) (wr s) (cmpls s).
Definition with_rd r (s : ocf_async_lock) := AsyncLockState (waiters s) r (wr s) (cmpls s).
Definition with_wr w (s : ocf_async_lock) := AsyncLockState (waiters s) (rd s) w (cmpls s).
Definition with_cmpl c (s : ocf_async_lock) := AsyncLockState (waiters s) (rd s) (wr s) (cmpls s ++ [c]).

Notation LM := (M ocf_async_lock).

Definition ocf_async_lock_init : ocf_async_lock := AsyncLockState [] 0 0 [].

(** ** Granting waiters *)

(** [list_for_each_entry_safe] over the queue [todo]; [out] is the local list
    that collects the granted waiters.  [list_move_tail] takes the entry off
    the queue: the entries before it have been moved already. *)
Fixpoint collect_loop (todo out : list ocf_async_lock_waiter) : LM (list ocf_async_lock_waiter) :=
  match todo with
  | [] => mret out
  | iter :: temp =>
      if negb (write_lock iter) then
        _ ← modify (with_waiters temp);
        _ ← modify (fun s => with_rd (u32 (rd s + 1)) s);
        collect_loop temp (out ++ [iter])
      else
        r ← gets rd;
        if bool_decide (r = 0) then
          _ ← modify (with_waiters temp);
          _ ← modify (with_wr 1);
          mret (out ++ [iter])
        else mret out
  end.

Definition _ocf_async_lock_collect_waiters : LM (list ocf_async_lock_waiter) :=
  ws ← gets waiters; collect_loop ws [].

Definition call_cmpl (status : Z) (iter : ocf_async_lock_waiter) : LM unit :=
  modify (with_cmpl (iter, status)).

Definition _ocf_async_lock_run_waiters (ws : list ocf_async_lock_waiter) (status : Z) : LM unit :=
  m_for ws (call_cmpl status).

(** ** The operations *)

Definition ocf_async_lock_deinit : LM unit :=
  ws ← gets waiters;
  _ ← modify (with_waiters []);
  _ocf_async_lock_run_waiters ws (- OCF_ERR_NO_LOCK).

Definition _ocf_async_trylock : LM Z :=
  w ← gets wr; r ← gets rd;
  if bool_decide (w <> 0) || bool_decide (r <> 0) then mret (- OCF_ERR_NO_LOCK)
  else _ ← modify (with_wr 1); mret 0.

(** [ocf_async_lock(waiter)]. *)
Definition ocf_async_lock_lock (waiter : Z) : LM unit :=
  result ← _ocf_async_trylock;
  if bool_decide (result = 0) then call_cmpl 0 (Waiter waiter true)
  else modify (fun s => with_waiters (waiters s ++ [Waiter waiter true]) s).

Definition ocf_async_trylock : LM Z := _ocf_async_trylock.

Definition ocf_async_unlock : LM unit :=
  r ← gets rd; _ ← bug_on (bool_decide (r <> 0));
  w ← gets wr; _ ← bug_on (bool_decide (w = 0));
  _ ← modify (with_wr 0);
  ws ← _ocf_async_lock_collect_waiters;
  _ocf_async_lock_run_waiters ws 0.

Definition _ocf_async_read_trylock : LM Z :=
  w ← gets wr; ws ← gets waiters;
  if bool_decide (w <> 0) || negb (bool_decide (ws = [])) then mret (- OCF_ERR_NO_LOCK)
  else _ ← modify (fun s => with_rd (u32 (rd s + 1)) s); mret 0.

Definition ocf_async_read_lock (waiter : Z) : LM unit :=
  result ← _ocf_async_read_trylock;
  if bool_decide (result = 0) then call_cmpl 0 (Waiter waiter false)
  else modify (fun s => with_waiters (waiters s ++ [Waiter waiter false]) s).

Definition ocf_async_read_trylock : LM Z := _ocf_async_read_trylock.

Definition ocf_async_read_unlock : LM unit :=
  r ← gets rd; _ ← bug_on (bool_decide (r = 0));
  w ← gets wr; _ ← bug_on (bool_decide (w <> 0));
  _ ← modify (with_rd (u32 (r - 1)));
  if bool_decide (u32 (r - 1) <> 0) then mret tt
  else
    ws ← _ocf_async_lock_collect_waiters;
    _ocf_async_lock_run_waiters ws 0.

Definition ocf_async_is_locked : LM bool :=
  r ← gets rd; w ← gets wr; mret (bool_decide (r <> 0) || bool_decide (w <> 0)).

(** ** Clients

    [held] lists the holders: the waiters whose completion was called with
    status 0 and the callers whose trylock succeeded, until they unlock.  A
    caller is named by its waiter. *)

Record system := System { lock : ocf_async_lock; held : list ocf_async_lock_waiter }.

Inductive call :=
| C_lock (w : Z) | C_read_lock (w : Z)
| C_trylock (w : Z) | C_read_trylock (w : Z)
| C_unlock (w : Z) | C_read_unlock (w : Z).

(** The waiters whose completions ran between [l] and [l']. *)
Definition completed (l l' : ocf_async_lock) : list ocf_async_lock_waiter :=
  fst <$> drop (length (cmpls l)) (cmpls l').

(** [h] became a holder when the call returned [result = 0]. *)
Definition acquired (result : Z) (h : ocf_async_lock_waiter) : list ocf_async_lock_waiter :=
  if bool_decide (result = 0) then [h] else [].

Definition drop_holder (h : ocf_async_lock_waiter) (hs : list ocf_async_lock_waiter) :=
  filter (fun h' => h' <> h) hs.

Definition exec (c : call) (s : system) : option system :=
  let run {A} (m : LM A) (hs : list ocf_async_lock_waiter) (k : A -> list ocf_async_lock_waiter) :=
    match m (lock s) with
    | Some (a, l') => Some (System l' (hs ++ k a ++ completed (lock s) l'))
    | None => None
    end in
  let none := fun _ : unit => [] in
  match c with
  | C_lock w => run (ocf_async_lock_lock w) (held s) none
  | C_read_lock w => run (ocf_async_read_lock w) (held s) none
  | C_trylock w => run ocf_async_trylock (held s) (fun e => acquired e (Waiter w true))
  | C_read_trylock w => run ocf_async_read_trylock (held s) (fun e => acquired e (Waiter w false))
  | C_unlock w => run ocf_async_unlock (drop_holder (Waiter w true) (held s)) none
  | C_read_unlock w => run ocf_async_read_unlock (drop_holder (Waiter w false) (held s)) none
  end.

Definition is_unlock (c : call) : bool :=
  match c with C_unlock _ | C_read_unlock _ => true | _ => false end.

(** The rules clients keep: a new caller is not waiting and holds nothing, only
    a holder unlocks, and there are fewer than 2^32 callers at a time. *)
Definition valid (c : call) (s : system) : Prop :=
  match c with
  | C_lock w | C_read_lock w | C_trylock w | C_read_trylock w =>
      w ∉ (wid <$> held s) /\ w ∉ (wid <$> waiters (lock s)) /\
      Z.of_nat (length (held s) + length (waiters (lock s))) + 1 < 2 ^ 32
  | C_unlock w => Waiter w true ∈ held s
  | C_read_unlock w => Waiter w false ∈ held s
  end.

Definition step (s s' : system) : Prop := exists c, valid c s /\ exec c s = Some s'.

Definition start (s : system) : Prop := s = System ocf_async_lock_init [].

(** A run of several calls. *)
Inductive runs : system -> list call -> system -> Prop :=
| runs_nil s : runs s [] s
| runs_cons s c s' cs s'' : valid c s -> exec c s = Some s' -> runs s' cs s'' -> runs s (c :: cs) s''.

End AsyncLock.
