(* ===== verification/AsyncLockProofs.v ===== *)
(** * Exclusion and progress of the asynchronous lock

    The invariant [inv] ties the counters of the lock to its holders; [advance]
    says how a call moves waiters to holders.  The two theorems are safety
    (readers and writers exclude each other, no call fails an assertion) and
    liveness (a waiter is granted after a bounded number of unlocks, whatever
    else happens). *)

From S2P Require Import Prelude.
From S2P Require Import AsyncLock.

Module AsyncLockProofs.
Import AsyncLock.

Definition reader (h : ocf_async_lock_waiter) : Prop := write_lock h = false.

(** The counters describe the holders. *)
Definition owned (l : ocf_async_lock) (hs : list ocf_async_lock_waiter) : Prop :=
  (wr l = 0 /\ rd l = Z.of_nat (length hs) /\ Forall reader hs) \/
  (wr l = 1 /\ rd l = 0 /\ exists w, hs = [Waiter w true]).

Record inv (s : system) : Prop := Inv {
  inv_owned : owned (lock s) (held s);
  inv_busy : held s = [] -> waiters (lock s) = [];
  inv_ids : NoDup (wid <$> held s ++ waiters (lock s));
  inv_few : Z.of_nat (length (held s ++ waiters (lock s))) < 2 ^ 32 }.

(** ** The functions *)

Lemma run_waiters_wp ws status l :
  wp (_ocf_async_lock_run_waiters ws status)
     (fun _ l' => l' = AsyncLockState (waiters l) (rd l) (wr l) (cmpls l ++ ((., status) <$> ws))) l.
Proof.
  unfold _ocf_async_lock_run_waiters.
  eapply wp_mono; [apply (wp_for ws (call_cmpl status)
    (fun pre l' => l' = AsyncLockState (waiters l) (rd l) (wr l) (cmpls l ++ ((., status) <$> pre))))|done].
  - destruct l; cbn. by rewrite app_nil_r.
  - intros pre w post l' _ ->. apply wp_modify. unfold with_cmpl. cbn.
    by rewrite fmap_app, <- app_assoc.
Qed.

Lemma collect_loop_wp todo : forall out l,
  waiters l = todo -> wr l = 0 -> rd l = Z.of_nat (length out) -> Forall reader out ->
  Z.of_nat (length (out ++ todo)) < 2 ^ 32 ->
  wp (collect_loop todo out) (fun ws l' => out ++ todo = ws ++ waiters l' /\ cmpls l' = cmpls l /\
    owned l' ws /\ (ws = [] -> waiters l' = [])) l.
Proof.
  induction todo as [|iter todo IH]; intros out l Hw Hwr Hrd Hout Hn; cbn [collect_loop].
  - apply wp_ret. rewrite Hw. split_and!; [done|done|by left|done].
  - rewrite length_app in Hn. cbn in Hn. destruct (write_lock iter) eqn:Hk; cbn.
    + apply wp_bind, wp_gets. rewrite Hrd. destruct out as [|o out]; cbn.
      * rewrite bool_decide_eq_true_2 by done. wp_go. cbn. destruct iter as [w k]. cbn in Hk. subst k.
        split_and!; [done|done|right; cbn; split_and!; [done|exact Hrd|eauto]|done].
      * rewrite bool_decide_eq_false_2 by done. apply wp_ret. rewrite Hw. split_and!; [done|done|by left|done].
    + wp_go. eapply wp_mono.
      * apply (IH (out ++ [iter])); cbn.
        -- done.
        -- done.
        -- rewrite length_app. cbn. rewrite wrap_small; lia.
        -- apply Forall_app. split; [done|by constructor].
        -- rewrite <- app_assoc, length_app. cbn. lia.
      * cbn. intros ws l' (Heq & Hrest). by rewrite <- app_assoc in Heq.
Qed.

(** The hand-over at the end of both unlock functions. *)
Lemma handover_wp l :
  wr l = 0 -> rd l = 0 -> Z.of_nat (length (waiters l)) < 2 ^ 32 ->
  wp (ws ← _ocf_async_lock_collect_waiters; _ocf_async_lock_run_waiters ws 0)
     (fun _ l' => exists ws, waiters l = ws ++ waiters l' /\ cmpls l' = cmpls l ++ ((., 0) <$> ws) /\
        owned l' ws /\ (ws = [] -> waiters l' = [])) l.
Proof.
  intros Hwr Hrd Hn. unfold _ocf_async_lock_collect_waiters. wp_go.
  eapply wp_mono; [apply (collect_loop_wp (waiters l) [] l); done|].
  cbn. intros ws l1 (Heq & Hc & Ho & Hb). eapply wp_mono; [apply run_waiters_wp|].
  intros [] l' ->. exists ws. cbn. rewrite Hc. split_and!; [done|done| |done].
  destruct Ho as [Ho|Ho]; [by left|by right].
Qed.

(** ** Calls *)

(** What a call does to the queue: an unlock takes [ws] off its front, and those
    become holders in place of the caller; any other call appends. *)
Definition advance (c : call) (s s' : system) : Prop :=
  if is_unlock c then
    exists ws, waiters (lock s) = ws ++ waiters (lock s') /\
      cmpls (lock s') = cmpls (lock s) ++ ((., 0) <$> ws) /\
      S (length (held s')) = (length (held s) + length ws)%nat
  else
    exists new now, waiters (lock s') = waiters (lock s) ++ new /\
      cmpls (lock s') = cmpls (lock s) ++ now /\
      (waiters (lock s) <> [] -> held s' = held s).

Lemma completed_app l l' ws :
  cmpls l' = cmpls l ++ ((., 0) <$> ws) -> completed l l' = ws.
Proof.
  intros H. unfold completed. rewrite H, drop_app_length, <- list_fmap_compose.
  rewrite (list_fmap_ext _ id); [apply list_fmap_id|done].
Qed.

Lemma completed_same l l' : cmpls l' = cmpls l -> completed l l' = [].
Proof. intros H. unfold completed. by rewrite H, drop_all. Qed.

Lemma held_nonempty s : inv s -> waiters (lock s) <> [] -> held s <> [].
Proof. intros Hi Hw Hh. by apply Hw, (inv_busy s Hi). Qed.

Lemma owned_free l hs : owned l hs -> (wr l = 0 /\ rd l = 0) <-> hs = [].
Proof.
  intros [(Hw & Hr & _)|(Hw & Hr & w & ->)]; split.
  - intros [_ H0]. rewrite Hr in H0. by destruct hs.
  - intros ->. cbn in Hr. lia.
  - lia.
  - done.
Qed.

(** A caller joins: as a holder or at the end of the queue. *)
Lemma inv_join s l' h (now : bool) :
  inv s -> wid h ∉ (wid <$> held s) -> wid h ∉ (wid <$> waiters (lock s)) ->
  Z.of_nat (length (held s) + length (waiters (lock s))) + 1 < 2 ^ 32 ->
  waiters l' = waiters (lock s) ++ (if now then [] else [h]) ->
  owned l' (held s ++ (if now then [h] else [])) ->
  (now = false -> held s <> []) ->
  inv (System l' (held s ++ (if now then [h] else []))).
Proof.
  intros Hi Hh Hw Hn Hq Ho Hb.
  assert (Hp : held s ++ (if now then [h] else []) ++ waiters l' ≡ₚ h :: held s ++ waiters (lock s)).
  { rewrite Hq. destruct now; cbn.
    - rewrite app_nil_r. by rewrite Permutation_middle.
    - rewrite app_assoc. by rewrite <- Permutation_cons_append. }
  constructor; cbn [lock held]; rewrite <- ?app_assoc.
  - done.
  - destruct now; [by destruct (held s)|]. rewrite app_nil_r. intros H. by apply Hb in H.
  - rewrite Hp. cbn. apply NoDup_cons. split; [|apply (inv_ids s Hi)].
    rewrite fmap_app, elem_of_app. tauto.
  - rewrite Hp. cbn. rewrite length_app. lia.
Qed.

(** The outcome of a caller: granted now, queued, or turned away. *)
Lemma join_step c s l' h (now queue : bool) :
  is_unlock c = false -> inv s -> wid h ∉ (wid <$> held s) -> wid h ∉ (wid <$> waiters (lock s)) ->
  Z.of_nat (length (held s) + length (waiters (lock s))) + 1 < 2 ^ 32 ->
  waiters l' = waiters (lock s) ++ (if now then [] else if queue then [h] else []) ->
  owned l' (held s ++ (if now then [h] else [])) ->
  (exists now, cmpls l' = cmpls (lock s) ++ now) ->
  (now = true -> waiters (lock s) = []) -> (now = false -> queue = true -> held s <> []) ->
  let s' := System l' (held s ++ (if now then [h] else [])) in inv s' /\ advance c s s'.
Proof.
  intros Hc Hi Hh Hw Hn Hq Ho [new Hl] Hempty Hb s'. split.
  - destruct now; [by apply (inv_join s l' h true)|]. destruct queue.
    + apply (inv_join s l' h false); auto.
    + subst s'. rewrite app_nil_r in *. destruct Hi. by constructor; cbn; rewrite ?Hq.
  - unfold advance. rewrite Hc. exists (if now then [] else if queue then [h] else []), new.
    split_and!; [done|done|]. intros Hne. destruct now.
    + exfalso. apply Hne. auto.
    + cbn. apply app_nil_r.
Qed.

Definition free (l : ocf_async_lock) : bool := bool_decide (wr l = 0) && bool_decide (rd l = 0).
Definition read_free (l : ocf_async_lock) : bool :=
  bool_decide (wr l = 0) && bool_decide (waiters l = []).

Lemma async_trylock_run l :
  _ocf_async_trylock l = Some (if free l then (0, with_wr 1 l) else (- OCF_ERR_NO_LOCK, l)).
Proof.
  unfold _ocf_async_trylock, free. m_unfold.
  destruct (decide (wr l = 0)), (decide (rd l = 0)); by repeat case_bool_decide.
Qed.

Lemma read_trylock_run l :
  _ocf_async_read_trylock l =
  Some (if read_free l then (0, with_rd (u32 (rd l + 1)) l) else (- OCF_ERR_NO_LOCK, l)).
Proof.
  unfold _ocf_async_read_trylock, read_free. m_unfold.
  destruct (decide (wr l = 0)), (decide (waiters l = [])); by repeat case_bool_decide.
Qed.

Lemma free_held s : inv s -> if free (lock s) then held s = [] else held s <> [].
Proof.
  intros Hi. pose proof (owned_free _ _ (inv_owned s Hi)) as Hf. unfold free.
  repeat case_bool_decide; cbn; rewrite <- Hf; tauto.
Qed.

(** A reader that gets in joins readers only. *)
Lemma read_free_owned s h now :
  inv s -> Z.of_nat (length (held s) + length (waiters (lock s))) + 1 < 2 ^ 32 ->
  read_free (lock s) = true -> reader h ->
  owned (AsyncLockState (waiters (lock s)) (u32 (rd (lock s) + 1)) (wr (lock s)) now) (held s ++ [h]).
Proof.
  intros Hi Hn Hf Hh. unfold read_free in Hf. apply andb_true_iff in Hf as [Hf _].
  apply bool_decide_eq_true_1 in Hf.
  destruct (inv_owned s Hi) as [(Hw & Hr & Ha)|(Hw & _)]; [|lia].
  left. cbn. rewrite Hr, length_app, wrap_small by lia. cbn.
  split_and!; [done|lia|]. apply Forall_app. split; [done|by constructor].
Qed.

Lemma read_busy_held s : inv s -> read_free (lock s) = false -> held s <> [].
Proof.
  intros Hi Hf Hh. unfold read_free in Hf.
  pose proof (proj2 (owned_free _ _ (inv_owned s Hi)) Hh) as [Hw _].
  rewrite (inv_busy s Hi Hh), Hw in Hf. done.
Qed.

Lemma lock_step s w :
  inv s -> valid (C_lock w) s ->
  exists s', exec (C_lock w) s = Some s' /\ inv s' /\ advance (C_lock w) s s'.
Proof.
  intros Hi (Hh & Hw & Hn). pose proof (free_held s Hi) as Hf.
  cbn -[completed]. unfold ocf_async_lock_lock. m_unfold. rewrite async_trylock_run.
  destruct (free (lock s)) eqn:E; cbn -[completed].
  - eexists. split; [done|]. erewrite (completed_app _ _ [Waiter w true]) by done.
    apply (join_step (C_lock w) s _ (Waiter w true) true true); cbn; try done.
    + by rewrite app_nil_r.
    + rewrite Hf. right. cbn. apply andb_true_iff in E as [_ E%bool_decide_eq_true_1]. eauto.
    + eauto.
    + intros _. by apply (inv_busy s Hi).
  - eexists. split; [done|]. rewrite completed_same by done.
    apply (join_step (C_lock w) s _ (Waiter w true) false true); cbn; try done.
    + rewrite app_nil_r. apply (inv_owned s Hi).
    + exists []. by rewrite app_nil_r.
Qed.

Lemma read_lock_step s w :
  inv s -> valid (C_read_lock w) s ->
  exists s', exec (C_read_lock w) s = Some s' /\ inv s' /\ advance (C_read_lock w) s s'.
Proof.
  intros Hi (Hh & Hw & Hn).
  cbn -[completed]. unfold ocf_async_read_lock. m_unfold. rewrite read_trylock_run.
  destruct (read_free (lock s)) eqn:E; cbn -[completed].
  - pose proof E as [_ E'%bool_decide_eq_true_1]%andb_true_iff.
    eexists. split; [done|]. erewrite (completed_app _ _ [Waiter w false]) by done.
    apply (join_step (C_read_lock w) s _ (Waiter w false) true true); cbn; try done.
    + by rewrite app_nil_r.
    + by apply read_free_owned.
    + eauto.
  - eexists. split; [done|]. rewrite completed_same by done.
    apply (join_step (C_read_lock w) s _ (Waiter w false) false true); cbn; try done.
    + rewrite app_nil_r. apply (inv_owned s Hi).
    + exists []. by rewrite app_nil_r.
    + intros _ _. by apply read_busy_held.
Qed.

Lemma trylock_step s w :
  inv s -> valid (C_trylock w) s ->
  exists s', exec (C_trylock w) s = Some s' /\ inv s' /\ advance (C_trylock w) s s'.
Proof.
  intros Hi (Hh & Hw & Hn). pose proof (free_held s Hi) as Hf.
  cbn -[completed]. unfold ocf_async_trylock. rewrite async_trylock_run.
  destruct (free (lock s)) eqn:E; cbn -[completed];
    (eexists; split; [done|]; rewrite completed_same by done).
  - apply (join_step (C_trylock w) s _ (Waiter w true) true false); cbn; try done.
    + by rewrite app_nil_r.
    + rewrite Hf. right. cbn. apply andb_true_iff in E as [_ E%bool_decide_eq_true_1]. eauto.
    + exists []. by rewrite app_nil_r.
    + intros _. by apply (inv_busy s Hi).
  - apply (join_step (C_trylock w) s _ (Waiter w true) false false); cbn; try done.
    + by rewrite app_nil_r.
    + rewrite app_nil_r. apply (inv_owned s Hi).
    + exists []. by rewrite app_nil_r.
Qed.

Lemma read_trylock_step s w :
  inv s -> valid (C_read_trylock w) s ->
  exists s', exec (C_read_trylock w) s = Some s' /\ inv s' /\ advance (C_read_trylock w) s s'.
Proof.
  intros Hi (Hh & Hw & Hn).
  cbn -[completed]. unfold ocf_async_read_trylock. rewrite read_trylock_run.
  destruct (read_free (lock s)) eqn:E; cbn -[completed];
    (eexists; split; [done|]; rewrite completed_same by done).
  - pose proof E as [_ E'%bool_decide_eq_true_1]%andb_true_iff.
    apply (join_step (C_read_trylock w) s _ (Waiter w false) true false); cbn; try done.
    + by rewrite app_nil_r.
    + by apply read_free_owned.
    + exists []. by rewrite app_nil_r.
  - apply (join_step (C_read_trylock w) s _ (Waiter w false) false false); cbn; try done.
    + by rewrite app_nil_r.
    + rewrite app_nil_r. apply (inv_owned s Hi).
    + exists []. by rewrite app_nil_r.
Qed.

Lemma drop_holder_absent h hs : h ∉ hs -> drop_holder h hs = hs.
Proof.
  unfold drop_holder. induction hs as [|x hs IH]; intros Hh; [done|].
  apply not_elem_of_cons in Hh as [Hx Hh].
  rewrite filter_cons_True by congruence. by rewrite IH.
Qed.

(** The caller of an unlock is one holder. *)
Lemma drop_holder_perm s h :
  inv s -> h ∈ held s -> held s ≡ₚ h :: drop_holder h (held s).
Proof.
  intros Hi Hh.
  assert (Hnd : NoDup (held s)).
  { pose proof (inv_ids s Hi) as H. rewrite fmap_app in H.
    apply NoDup_app in H as [H _]. by apply NoDup_fmap_1 in H. }
  apply list_elem_of_split in Hh as (l1 & l2 & E). rewrite E in *.
  apply NoDup_app in Hnd as (Hl1 & Hx & Hnd). apply NoDup_cons in Hnd as [Hh2 _].
  unfold drop_holder. rewrite filter_app, filter_cons_False by (by intros []).
  fold (drop_holder h l1) (drop_holder h l2). rewrite !drop_holder_absent; [|done|].
  - by rewrite Permutation_middle.
  - intros Hl. apply (Hx h Hl). by left.
Qed.

(** After the hand-over. *)
Lemma unlock_step c s h l' ws :
  is_unlock c = true -> inv s -> h ∈ held s ->
  waiters (lock s) = ws ++ waiters l' -> cmpls l' = cmpls (lock s) ++ ((., 0) <$> ws) ->
  owned l' (drop_holder h (held s) ++ ws) ->
  (drop_holder h (held s) ++ ws = [] -> waiters l' = []) ->
  let s' := System l' (drop_holder h (held s) ++ ws) in inv s' /\ advance c s s'.
Proof.
  intros Hc Hi Hh Hq Hl Ho Hb s'. pose proof (drop_holder_perm s h Hi Hh) as Hp.
  split.
  - assert (Ha : held s ++ waiters (lock s) ≡ₚ h :: held s' ++ waiters (lock s')).
    { rewrite Hp, Hq. cbn. by rewrite app_assoc. }
    constructor; [done|done| |].
    + pose proof (inv_ids s Hi) as H. rewrite Ha in H. cbn in H. by apply NoDup_cons in H as [_ H].
    + pose proof (inv_few s Hi) as H. rewrite Ha in H. cbn [length] in H. lia.
  - unfold advance. rewrite Hc. exists ws. split_and!; [done|done|]. cbn.
    rewrite (Permutation_length Hp), length_app. done.
Qed.

Lemma sole_writer s w :
  inv s -> Waiter w true ∈ held s -> wr (lock s) = 1 /\ rd (lock s) = 0 /\ held s = [Waiter w true].
Proof.
  intros Hi Hh. destruct (inv_owned s Hi) as [(Hw & Hr & Ha)|(Hw & Hr & w' & E)].
  - rewrite Forall_forall in Ha. by apply Ha in Hh.
  - rewrite E in *. apply list_elem_of_singleton in Hh as [= <-]. done.
Qed.

Lemma all_readers s w :
  inv s -> Waiter w false ∈ held s ->
  wr (lock s) = 0 /\ rd (lock s) = Z.of_nat (length (held s)) /\ Forall reader (held s).
Proof.
  intros Hi Hh. destruct (inv_owned s Hi) as [|(Hw & Hr & w' & E)]; [done|].
  rewrite E in Hh. by apply list_elem_of_singleton in Hh as [=].
Qed.

Lemma unlock_call s w :
  inv s -> valid (C_unlock w) s ->
  exists s', exec (C_unlock w) s = Some s' /\ inv s' /\ advance (C_unlock w) s s'.
Proof.
  intros Hi Hh. cbn in Hh. destruct (sole_writer s w Hi Hh) as (Hw & Hr & E).
  assert (Hrun : wp ocf_async_unlock (fun _ l' => exists ws, waiters (lock s) = ws ++ waiters l' /\
      cmpls l' = cmpls (lock s) ++ ((., 0) <$> ws) /\ owned l' ws /\ (ws = [] -> waiters l' = [])) (lock s)).
  { unfold ocf_async_unlock. do 4 wp_step; [by rewrite Hr|]. do 4 wp_step; [by rewrite Hw|].
    do 2 wp_step. apply (handover_wp (with_wr 0 (lock s))); [done|done|]. cbn.
    pose proof (inv_few s Hi) as Hf. rewrite length_app in Hf. lia. }
  apply wp_run in Hrun as ([] & l' & Hrun & ws & Hq & Hc & Ho & Hb).
  cbn -[completed advance]. rewrite Hrun. eexists. split; [done|]. cbn -[completed advance].
  rewrite (completed_app _ _ ws) by done.
  apply (unlock_step (C_unlock w)); try done; rewrite E; unfold drop_holder; by rewrite filter_cons_False by (by intros []).
Qed.

Lemma drop_holder_readers s w :
  inv s -> Waiter w false ∈ held s ->
  Forall reader (drop_holder (Waiter w false) (held s)) /\
  rd (lock s) = Z.of_nat (length (drop_holder (Waiter w false) (held s))) + 1.
Proof.
  intros Hi Hh. destruct (all_readers s w Hi Hh) as (_ & Hr & Ha).
  pose proof (drop_holder_perm s _ Hi Hh) as Hp. split.
  - rewrite Hp in Ha. by apply Forall_cons in Ha as [_ Ha].
  - rewrite Hr, (Permutation_length Hp). cbn [length]. lia.
Qed.

Lemma read_unlock_call s w :
  inv s -> valid (C_read_unlock w) s ->
  exists s', exec (C_read_unlock w) s = Some s' /\ inv s' /\ advance (C_read_unlock w) s s'.
Proof.
  intros Hi Hh. cbn in Hh. destruct (all_readers s w Hi Hh) as (Hw & _ & _).
  destruct (drop_holder_readers s w Hi Hh) as [Ha Hr].
  pose proof (inv_few s Hi) as Hf. rewrite length_app in Hf.
  set (hs := drop_holder (Waiter w false) (held s)) in *.
  assert (Hr' : u32 (rd (lock s) - 1) = Z.of_nat (length hs)).
  { pose proof (Permutation_length (drop_holder_perm s _ Hi Hh)) as Hl. cbn [length] in Hl.
    fold hs in Hl. rewrite Hr, wrap_small; lia. }
  assert (Hrun : wp ocf_async_read_unlock (fun _ l' => exists ws, waiters (lock s) = ws ++ waiters l' /\
      cmpls l' = cmpls (lock s) ++ ((., 0) <$> ws) /\ owned l' (hs ++ ws) /\
      (hs ++ ws = [] -> waiters l' = [])) (lock s)).
  { unfold ocf_async_read_unlock.
    do 4 wp_step; [apply bool_decide_eq_false_2; lia|]. do 4 wp_step; [by rewrite Hw|].
    do 2 wp_step. rewrite Hr'. case_bool_decide as Hz.
    - apply wp_ret. exists []. rewrite !app_nil_r. split_and!; [done|done|by left|].
      by destruct hs.
    - destruct hs as [|h hs]; [|cbn in Hz; lia].
      apply (handover_wp (with_rd 0 (lock s))); [done|done|]. cbn. lia. }
  apply wp_run in Hrun as ([] & l' & Hrun & ws & Hq & Hc & Ho & Hb).
  cbn -[completed advance]. rewrite Hrun. eexists. split; [done|]. cbn -[completed advance].
  rewrite (completed_app _ _ ws) by done. by apply (unlock_step (C_read_unlock w)).
Qed.

(** Every valid call runs, keeps the invariant and advances the queue. *)
Lemma exec_step s c :
  inv s -> valid c s -> exists s', exec c s = Some s' /\ inv s' /\ advance c s s'.
Proof.
  destruct c; eauto using lock_step, read_lock_step, trylock_step, read_trylock_step,
    unlock_call, read_unlock_call.
Qed.

Lemma start_inv s : start s -> inv s.
Proof.
  intros ->. constructor; cbn; [left; by split_and!|done|constructor|done].
Qed.

Lemma reachable_inv s : reachable start step s -> inv s.
Proof.
  apply reachable_invariant; [apply start_inv|].
  intros s1 s2 Hi (c & Hv & He). destruct (exec_step s1 c Hi Hv) as (s' & He' & Hi' & _). congruence.
Qed.

(** ** Progress *)

Lemma advance_log c s s' x :
  advance c s s' -> x ∈ cmpls (lock s) -> x ∈ cmpls (lock s').
Proof.
  unfold advance. destruct (is_unlock c).
  - intros (ws & _ & -> & _). rewrite elem_of_app. auto.
  - intros (new & now & _ & -> & _). rewrite elem_of_app. auto.
Qed.

Lemma runs_log s cs s' x :
  runs s cs s' -> inv s -> x ∈ cmpls (lock s) -> x ∈ cmpls (lock s').
Proof.
  induction 1 as [|s c s1 cs s2 Hv He Hr IH]; intros Hi Hx; [done|].
  destruct (exec_step s c Hi Hv) as (s1' & He' & Hi' & Ha).
  rewrite He in He'. injection He' as <-. eauto using advance_log.
Qed.

Definition unlocks (cs : list call) : nat := length (filter (fun c => is_unlock c = true) cs).

Lemma unlocks_cons c cs : unlocks (c :: cs) = ((if is_unlock c then 1 else 0) + unlocks cs)%nat.
Proof.
  unfold unlocks. rewrite filter_cons. destruct (is_unlock c) eqn:E; by case_decide.
Qed.

(** A waiter at place [i] needs as many unlocks as there are holders and waiters
    before it. *)
Lemma granted_in_turn s cs s' i w :
  runs s cs s' -> inv s -> waiters (lock s) !! i = Some w ->
  (length (held s) + i <= unlocks cs)%nat -> (w, 0) ∈ cmpls (lock s').
Proof.
  intros Hr. revert i. induction Hr as [s|s c s1 cs s2 Hv He Hr IH]; intros i Hi Hw Hn.
  - unfold unlocks in Hn. cbn in Hn. destruct (held s) eqn:Hh; [|cbn in Hn; lia].
    by rewrite (inv_busy s Hi Hh) in Hw.
  - destruct (exec_step s c Hi Hv) as (s1' & He' & Hi' & Ha).
    rewrite He in He'. injection He' as <-.
    rewrite unlocks_cons in Hn. unfold advance in Ha. destruct (is_unlock c) eqn:Hc.
    + destruct Ha as (ws & Hq & Hl & Hh). rewrite Hq in Hw.
      destruct (decide (i < length ws)%nat) as [Hlt|Hge].
      * rewrite lookup_app_l in Hw by done. eapply runs_log; [done|done|].
        rewrite Hl. apply elem_of_app. right. apply list_elem_of_fmap.
        exists w. split; [done|]. by apply list_elem_of_lookup_2 in Hw.
      * rewrite lookup_app_r in Hw by lia. apply (IH (i - length ws)%nat); [done|done|lia].
    + destruct Ha as (new & now & Hq & _ & Hh). apply (IH i); [done| |].
      * rewrite Hq. by apply lookup_app_l_Some.
      * rewrite Hh; [done|]. intros Hnil. by rewrite Hnil in Hw.
Qed.

(** ** The theorems *)

(** C25. for clients that lock, try, wait and unlock in any order, readers and
    a writer never hold the lock together and at most one writer does; the
    counters say who holds it, so that [ocf_async_is_locked] is exact; a waiter
    only waits while somebody holds the lock; and no call fails an assertion. *)
Theorem async_lock_excludes s :
  reachable start step s ->
  (forall w, Waiter w true ∈ held s -> held s = [Waiter w true]) /\
  ocf_async_is_locked (lock s) = Some (negb (bool_decide (held s = [])), lock s) /\
  (waiters (lock s) <> [] -> held s <> []) /\
  (forall c, valid c s -> exists s', exec c s = Some s').
Proof.
  intros Hr. pose proof (reachable_inv s Hr) as Hi. split_and!.
  - intros w Hw. by apply sole_writer.
  - pose proof (owned_free _ _ (inv_owned s Hi)) as Hf. unfold ocf_async_is_locked. m_unfold.
    do 3 f_equal. destruct (decide (held s = [])) as [E|E].
    + rewrite (bool_decide_eq_true_2 _ E). apply Hf in E as [-> ->]. done.
    + rewrite (bool_decide_eq_false_2 _ E), <- Hf in *. repeat case_bool_decide; cbn; tauto.
  - by apply held_nonempty.
  - intros c Hv. destruct (exec_step s c Hi Hv) as (s' & He & _). eauto.
Qed.

(** C26. no waiter starves.  A waiter at place [i] of the queue has got the lock
    after as many unlocks as there are holders and waiters before it, whatever
    calls clients make in between. *)
Theorem async_lock_progress s cs s' i w :
  reachable start step s -> runs s cs s' -> waiters (lock s) !! i = Some w ->
  (length (held s) + i <= unlocks cs)%nat -> (w, 0) ∈ cmpls (lock s').
Proof. eauto using granted_in_turn, reachable_inv. Qed.

(** ** Samples *)

#[global] Instance valid_dec c s : Decision (valid c s).
Proof. destruct c; cbn; apply _. Defined.

Lemma runs_reachable s cs s' : reachable start step s -> runs s cs s' -> reachable start step s'.
Proof.
  intros Hs Hr. induction Hr as [|s c s1 cs s2 Hv He Hr IH]; [done|].
  apply IH. eapply reach_step; [done|]. by exists c.
Qed.

Ltac run_calls := repeat first [apply runs_nil | eapply runs_cons; [by_compute|reflexivity|]].

(** A writer holds the lock; a reader and another writer wait. *)
Definition crowded : system :=
  System (AsyncLockState [Waiter 2 false; Waiter 3 true] 0 1 [(Waiter 1 true, 0)]) [Waiter 1 true].

Lemma crowded_reachable : reachable start step crowded.
Proof.
  apply (runs_reachable (System ocf_async_lock_init []) [C_lock 1; C_read_lock 2; C_lock 3]).
  - by apply reach_init.
  - run_calls.
Qed.

Lemma async_lock_excludes_witness :
  (forall w, Waiter w true ∈ held crowded -> held crowded = [Waiter w true]) /\
  ocf_async_is_locked (lock crowded) = Some (negb (bool_decide (held crowded = [])), lock crowded) /\
  (waiters (lock crowded) <> [] -> held crowded <> []) /\
  (forall c, valid c crowded -> exists s', exec c crowded = Some s').
Proof. apply (async_lock_excludes crowded). apply crowded_reachable. Defined.

Definition after_calls : system :=
  System (AsyncLockState [Waiter 4 false] 0 1
    [(Waiter 1 true, 0); (Waiter 2 false, 0); (Waiter 3 true, 0)]) [Waiter 3 true].

Lemma async_lock_progress_witness : (Waiter 3 true, 0) ∈ cmpls (lock after_calls).
Proof.
  apply (async_lock_progress crowded [C_unlock 1; C_read_lock 4; C_read_unlock 2] after_calls 1).
  - apply crowded_reachable.
  - run_calls.
  - reflexivity.
  - by_compute.
Defined.

End AsyncLockProofs.
