(* ===== verification/Pipeline.v ===== *)
(** * Management pipelines, [utils/utils_pipeline.c]

    A pipeline runs the handlers of a table of steps, one after another; each
    handler ends by calling [ocf_pipeline_next], [ocf_pipeline_rollback] or
    [ocf_pipeline_finish], at once or later, which puts the request of the
    pipeline back on its queue.  The handlers and predicates are the client's:
    here they are functions of the client's private state.  [turn] is one event
    (the queue runs the request, or a pending call arrives), [drive] a run. *)

From S2P Require Import Prelude.

Module Pipeline.

(** ** Data *)

(** [struct ocf_pipeline_arg]. *)
Inductive ocf_pipeline_arg :=
| ocf_pipeline_arg_none
| ocf_pipeline_arg_int (i : Z)
| ocf_pipeline_arg_ptr (p : Z)
| ocf_pipeline_arg_terminator.

(** [struct ocf_pipeline_step]; handlers and predicates are named by numbers. *)
Inductive ocf_pipeline_step :=
| ocf_pipeline_step_single (hndl : Z) (arg : ocf_pipeline_arg)
| ocf_pipeline_step_foreach (hndl : Z) (args : list ocf_pipeline_arg)
| ocf_pipeline_step_conditional (hndl pred : Z) (arg : ocf_pipeline_arg)
| ocf_pipeline_step_terminator.

Record ocf_pipeline_properties := Properties {
  steps : list ocf_pipeline_step;
  rollback_steps : list ocf_pipeline_step }.

(** The call that ends a handler, and whether it is made before the handler
    returns. *)
Inductive verdict := Next | Rollback (error : Z) | Finish (error : Z).

Record client (P : Type) := Client {
  hndl : Z -> ocf_pipeline_arg -> P -> verdict * bool * P;
  pred : Z -> ocf_pipeline_arg -> P -> bool }.
Arguments Client {P}.
Arguments hndl {P}.
Arguments pred {P}.

(** [pipeline->step]: an index into one of the two tables. *)
Inductive step_ptr := In_steps (i : nat) | In_rollback (i : nat).

(** [pipeline->arg]: [NULL], a cell of the arguments of a foreach step, or the
    result of incrementing [NULL]. *)
Inductive arg_ptr := Arg_null | Arg_at (args : list ocf_pipeline_arg) (k : nat) | Arg_bad.

(** What can be observed: handler calls and the completion. *)
Inductive event := Ev_hndl (h : Z) (a : ocf_pipeline_arg) | Ev_finish (error : Z).

(** [queued] counts the entries of the request in its queue, [pending] is the
    call that a handler that has returned still has to make. *)
Record ocf_pipeline (P : Type) := PipelineState {
  step : step_ptr;
  arg : arg_ptr;
  rollback : bool;
  finish : bool;
  error : Z;
  priv : P;
  queued : nat;
  pending : option verdict;
  log : list event }.
Arguments PipelineState {P}.
Arguments step {P}.
Arguments arg {P}.
Arguments rollback {P}.
Arguments finish {P}.
Arguments error {P}.
Arguments priv {P}.
Arguments queued {P}.
Arguments pending {P}.
Arguments log {P}.

Section Run.
Context {P : Type} (properties : ocf_pipeline_properties) (c : client P).
Notation PM := (M (ocf_pipeline P)).


Definition with_step st (s : ocf_pipeline P) :=
  PipelineState st (arg s) (rollback s) (finish s) (error s) (priv s) (queued s) (pending s) (log s).
Definition with_arg a (s : ocf_pipeline P) :=
  PipelineState (step s) a (rollback s) (finish s) (error s) (priv s) (queued s) (pending s) (log s).
Definition with_rollback e (s : ocf_pipeline P) :=
  PipelineState (step s) (arg s) true (finish s) e (priv s) (queued s) (pending s) (log s).
Definition with_finish (s : ocf_pipeline P) :=
  PipelineState (step s) (arg s) (rollback s) true (error s) (priv s) (queued s) (pending s) (log s).
Definition with_error e (s : ocf_pipeline P) :=
  PipelineState (step s) (arg s) (rollback s) (finish s) e (priv s) (queued s) (pending s) (log s).
Definition with_priv (p : P) (s : ocf_pipeline P) :=
  PipelineState (step s) (arg s) (rollback s) (finish s) (error s) p (queued s) (pending s) (log s).
Definition with_queued n (s : ocf_pipeline P) :=
  PipelineState (step s) (arg s) (rollback s) (finish s) (error s) (priv s) n (pending s) (log s).
Definition with_pending v (s : ocf_pipeline P) :=
  PipelineState (step s) (arg s) (rollback s) (finish s) (error s) (priv s) (queued s) v (log s).
Definition with_event e (s : ocf_pipeline P) :=
  PipelineState (step s) (arg s) (rollback s) (finish s) (error s) (priv s) (queued s) (pending s) (log s ++ [e]).

(** ** The calls that end a handler *)

Definition push_req : PM unit := modify (fun s => with_queued (S (queued s)) s).

Definition ocf_pipeline_next : PM unit := push_req.

Definition ocf_pipeline_rollback (e : Z) : PM unit :=
  _ ← modify (with_rollback e);
  _ ← modify (with_step (In_rollback 0));
  _ ← modify (with_arg Arg_null);
  push_req.

Definition ocf_pipeline_finish (e : Z) : PM unit :=
  _ ← modify with_finish;
  rb ← gets rollback;
  _ ← when (negb rb) (modify (with_error e));
  push_req.

Definition conclude (v : verdict) : PM unit :=
  match v with
  | Next => ocf_pipeline_next
  | Rollback e => ocf_pipeline_rollback e
  | Finish e => ocf_pipeline_finish e
  end.

(** ** Running a step *)

Definition call_hndl (h : Z) (a : ocf_pipeline_arg) : PM unit :=
  p ← gets priv;
  _ ← modify (with_event (Ev_hndl h a));
  let '(v, sync, p') := hndl c h a p in
  _ ← modify (with_priv p');
  if (sync : bool) then conclude v else modify (with_pending (Some v)).

Definition load_step (st : step_ptr) : option ocf_pipeline_step :=
  match st with In_steps i => steps properties !! i | In_rollback i => rollback_steps properties !! i end.

(** [pipeline->step++]. *)
Definition step_inc (st : step_ptr) : step_ptr :=
  match st with In_steps i => In_steps (S i) | In_rollback i => In_rollback (S i) end.

(** [*pipeline->arg] and [pipeline->arg++]. *)
Definition load_arg (a : arg_ptr) : option ocf_pipeline_arg :=
  match a with Arg_at args k => args !! k | _ => None end.
Definition arg_inc (a : arg_ptr) : arg_ptr :=
  match a with Arg_at args k => Arg_at args (S k) | _ => Arg_bad end.
Definition arg_is_null (a : arg_ptr) : bool := match a with Arg_null => true | _ => false end.
Definition is_terminator (a : ocf_pipeline_arg) : bool :=
  match a with ocf_pipeline_arg_terminator => true | _ => false end.

Definition call_finish : PM unit := e ← gets error; modify (with_event (Ev_finish e)).

(** The loop of [_ocf_pipeline_run_step]; every round that continues moves to
    the next step, and a table has 64. *)
Fixpoint run_loop (fuel : nat) : PM unit :=
  match fuel with
  | O => env_bug
  | S fuel =>
      st ← load (fun s => load_step (step s));
      match st with
      | ocf_pipeline_step_single h a =>
          _ ← modify (fun s => with_step (step_inc (step s)) s);
          call_hndl h a
      | ocf_pipeline_step_conditional h pr a =>
          _ ← modify (fun s => with_step (step_inc (step s)) s);
          p ← gets priv;
          if pred c pr a p then call_hndl h a else run_loop fuel
      | ocf_pipeline_step_foreach h args =>
          a0 ← gets arg;
          _ ← when (arg_is_null a0) (modify (with_arg (Arg_at args 0)));
          a ← load (fun s => load_arg (arg s));
          if is_terminator a then
            _ ← modify (with_arg Arg_null);
            _ ← modify (fun s => with_step (step_inc (step s)) s);
            run_loop fuel
          else
            _ ← call_hndl h a;
            modify (fun s => with_arg (arg_inc (arg s)) s)
      | ocf_pipeline_step_terminator => call_finish
      end
  end.

Definition TABLE_SIZE : nat := 64.

Definition _ocf_pipeline_run_step : PM unit :=
  f ← gets finish;
  if (f : bool) then call_finish else run_loop (S TABLE_SIZE).

(** [ocf_pipeline_create], when memory is available. *)
Definition ocf_pipeline_create (p : P) : ocf_pipeline P :=
  PipelineState (In_steps 0) Arg_null false false 0 p 0 None [].

(** ** Events *)

(** The queue takes the request and runs its handler, or the call of a handler
    that has returned arrives.  In a state with neither the pipeline rests. *)
Definition turn : PM unit :=
  v ← gets pending;
  match v with
  | Some v => _ ← modify (with_pending None); conclude v
  | None =>
      n ← gets queued;
      match n with
      | O => mret tt
      | S n => _ ← modify (with_queued n); _ocf_pipeline_run_step
      end
  end.

Fixpoint drive (n : nat) : PM unit :=
  match n with
  | O => mret tt
  | S n => _ ← turn; drive n
  end.

(** ** What a pipeline is to do

    The handlers in order, up to the first that does not call
    [ocf_pipeline_next]. *)

Inductive outcome := Done | Rolled (error : Z) | Finished (error : Z).

Definition outcome_of (v : verdict) : outcome :=
  match v with Next => Done | Rollback e => Rolled e | Finish e => Finished e end.

Fixpoint spec_args (h : Z) (args : list ocf_pipeline_arg) (p : P) : list event * P * outcome :=
  match args with
  | [] | ocf_pipeline_arg_terminator :: _ => ([], p, Done)
  | a :: args =>
      let '(v, _, p') := hndl c h a p in
      match v with
      | Next => let '(ev, p'', o) := spec_args h args p' in (Ev_hndl h a :: ev, p'', o)
      | _ => ([Ev_hndl h a], p', outcome_of v)
      end
  end.

Fixpoint spec_steps (l : list ocf_pipeline_step) (p : P) : list event * P * outcome :=
  match l with
  | [] | ocf_pipeline_step_terminator :: _ => ([], p, Done)
  | ocf_pipeline_step_foreach h args :: l =>
      let '(ev, p', o) := spec_args h args p in
      match o with
      | Done => let '(ev', p'', o') := spec_steps l p' in (ev ++ ev', p'', o')
      | _ => (ev, p', o)
      end
  | ocf_pipeline_step_single h a :: l =>
      let '(v, _, p') := hndl c h a p in
      match v with
      | Next => let '(ev, p'', o) := spec_steps l p' in (Ev_hndl h a :: ev, p'', o)
      | _ => ([Ev_hndl h a], p', outcome_of v)
      end
  | ocf_pipeline_step_conditional h pr a :: l =>
      if pred c pr a p then
        let '(v, _, p') := hndl c h a p in
        match v with
        | Next => let '(ev, p'', o) := spec_steps l p' in (Ev_hndl h a :: ev, p'', o)
        | _ => ([Ev_hndl h a], p', outcome_of v)
        end
      else spec_steps l p
  end.

(** The whole pipeline: a roll-back runs the other table and keeps its error. *)
Definition spec (p : P) : list event :=
  let '(ev, p', o) := spec_steps (steps properties) p in
  match o with
  | Done => ev ++ [Ev_finish 0]
  | Finished e => ev ++ [Ev_finish e]
  | Rolled e =>
      let '(ev', _, _) := spec_steps (rollback_steps properties) p' in ev ++ ev' ++ [Ev_finish e]
  end.

(** A table is well formed: it fits its array and ends in a terminator, and so
    do the arguments of its foreach steps. *)
Definition step_ok (st : ocf_pipeline_step) : Prop :=
  match st with
  | ocf_pipeline_step_foreach _ args => ocf_pipeline_arg_terminator ∈ args
  | _ => True
  end.
Definition table_ok (l : list ocf_pipeline_step) : Prop :=
  (length l <= TABLE_SIZE)%nat /\ ocf_pipeline_step_terminator ∈ l /\ Forall step_ok l.
Definition is_foreach (st : ocf_pipeline_step) : bool :=
  match st with ocf_pipeline_step_foreach _ _ => true | _ => false end.

End Run.
End Pipeline.
