(* ===== verification/PipelineProofs.v ===== *)
(** * A pipeline does what its tables say

    [drive_steps] follows a run along a table; [pipeline_runs] is the theorem
    for whole pipelines. *)

From S2P Require Import Prelude.
From S2P Require Import Pipeline.

Module PipelineProofs.
Import Pipeline.

Section Proofs.
Context {P : Type} (properties : ocf_pipeline_properties) (c : client P).
Abbreviation PM := (M (ocf_pipeline P)).
Abbreviation loop := (run_loop properties c).
Abbreviation drive := (drive properties c).

(** ** Runs *)

Definition exec (m : PM unit) (s s' : ocf_pipeline P) : Prop := m s = Some (tt, s').

Lemma exec_bind m (k : unit -> PM unit) s s1 s2 :
  exec m s s1 -> exec (k tt) s1 s2 -> exec (mbind k m) s s2.
Proof. unfold exec, mbind, M_bind. by intros ->. Qed.

Lemma drive_add n m s s1 s2 : exec (drive n) s s1 -> exec (drive m) s1 s2 -> exec (drive (n + m)) s s2.
Proof.
  revert s. induction n as [|n IH]; intros s.
  - cbn. unfold exec at 1. cbn. by intros [= ->].
  - cbn. unfold exec at 1, mbind, M_bind. destruct (turn properties c s) as [[[] s0]|] eqn:E; [|done].
    intros H1 H2. eapply exec_bind; [exact E|]. by apply IH.
Qed.

Definition resting (s : ocf_pipeline P) : Prop := queued s = O /\ pending s = None.

Lemma drive_rest n s : resting s -> exec (drive n) s s.
Proof.
  intros [Hq Hp]. induction n as [|n IH]; [done|]. cbn. eapply exec_bind; [|done].
  unfold exec, turn. m_unfold. by rewrite Hp, Hq.
Qed.

(** A state whose request is in the queue ([q = 1]) or was just taken. *)
Abbreviation PS t a rb f e p q l := (PipelineState t a rb f e p q None l).

Lemma drive_queued n t a rb e p l s1 s2 :
  exec (loop (S TABLE_SIZE)) (PS t a rb false e p 0%nat l) s1 -> exec (drive n) s1 s2 ->
  exec (drive (S n)) (PS t a rb false e p 1%nat l) s2.
Proof.
  intros H1 H2. cbn [Pipeline.drive]. eapply exec_bind; [|exact H2].
  unfold exec, turn, _ocf_pipeline_run_step. m_unfold. exact H1.
Qed.

Lemma drive_finished t a rb e p l :
  exec (drive 1) (PS t a rb true e p 1%nat l) (PS t a rb true e p 0%nat (l ++ [Ev_finish e])).
Proof. done. Qed.

(** ** Calling a handler *)

(** The state after a handler and the call that ends it; [f] is what the caller
    does to [pipeline->arg] after the handler. *)
Definition concluded (v : verdict) (sync : bool) (f : arg_ptr -> arg_ptr) t a rb e (p : P) l :=
  match v with
  | Next => PS t (f a) rb false e p 1%nat l
  | Rollback g => PS (In_rollback 0) (if sync then f Arg_null else Arg_null) true false g p 1%nat l
  | Finish g => PS t (f a) rb true (if rb then e else g) p 1%nat l
  end.

Lemma call_concludes h x f t a rb e p l v (sync : bool) p' :
  hndl c h x p = (v, sync, p') ->
  exists s1, exec (_ ← call_hndl c h x; modify (fun s => with_arg (f (arg s)) s)) (PS t a rb false e p 0%nat l) s1 /\
    exec (drive (if sync then 0 else 1)) s1 (concluded v sync f t a rb e p' (l ++ [Ev_hndl h x])).
Proof.
  intros Hh. unfold exec, call_hndl. m_unfold. cbn [priv]. rewrite Hh.
  destruct sync, v, rb; eexists; split; reflexivity.
Qed.

(** The calls without [pipeline->arg++]. *)
Lemma call_concludes_id h x t a rb e p l v (sync : bool) p' :
  hndl c h x p = (v, sync, p') ->
  exists s1, exec (call_hndl c h x) (PS t a rb false e p 0%nat l) s1 /\
    exec (drive (if sync then 0 else 1)) s1 (concluded v sync id t a rb e p' (l ++ [Ev_hndl h x])).
Proof.
  intros Hh. unfold exec, call_hndl. m_unfold. cbn [priv]. rewrite Hh.
  destruct sync, v, rb; eexists; split; reflexivity.
Qed.

(** ** The outcome of a table *)

Definition ends (rb : bool) (e : Z) l (r : list event * P * outcome) (s : ocf_pipeline P) : Prop :=
  let '(ev, p', o) := r in
  match o with
  | Done => exists t a, s = PS t a rb false e p' 0%nat (l ++ ev ++ [Ev_finish e])
  | Finished g => exists t a, s = PS t a rb true (if rb then e else g) p' 0%nat
                                   (l ++ ev ++ [Ev_finish (if rb then e else g)])
  | Rolled g => exists a, s = PS (In_rollback 0) a true false g p' 1%nat (l ++ ev)
  end.

(** From the start of a loop, a bounded number of turns leads to the outcome. *)
Definition leads fuel s rb e l (r : list event * P * outcome) : Prop :=
  exists n s1 s2, (n <= 2 * length r.1.1)%nat /\ exec (loop fuel) s s1 /\ exec (drive n) s1 s2 /\ ends rb e l r s2.

Lemma ends_cons rb e l ev1 ev p' o s :
  ends rb e (l ++ ev1) (ev, p', o) s -> ends rb e l (ev1 ++ ev, p', o) s.
Proof. destruct o; cbn; by rewrite <- ?app_assoc. Qed.

(** After a handler: its verdict ends the table, or the rest of it follows. *)
Lemma after_call s1 h x (sync : bool) v (f : arg_ptr -> arg_ptr) t a rb e p' l (r : list event * P * outcome) :
  exec (drive (if sync then 0 else 1)) s1 (concluded v sync f t a rb e p' (l ++ [Ev_hndl h x])) ->
  (v = Next -> leads (S TABLE_SIZE) (PS t (f a) rb false e p' 0%nat (l ++ [Ev_hndl h x])) rb e (l ++ [Ev_hndl h x]) r) ->
  let r' := match v with
            | Next => (Ev_hndl h x :: r.1.1, r.1.2, r.2)
            | _ => ([Ev_hndl h x], p', outcome_of v)
            end in
  exists n s2, (n <= 2 * length r'.1.1)%nat /\ exec (drive n) s1 s2 /\ ends rb e l r' s2.
Proof.
  intros H1 Hnext. destruct v as [|g|g]; cbn [concluded] in H1; cbn zeta.
  - destruct (Hnext eq_refl) as (n & s2 & s3 & Hn & H2 & H3 & He). destruct r as [[ev p''] o].
    exists ((if sync then 0 else 1) + S n)%nat, s3. cbn [length fst snd] in *. split_and!.
    + destruct sync; lia.
    + eapply drive_add; [exact H1|]. eapply drive_queued; [exact H2|exact H3].
    + by apply (ends_cons rb e l [_]).
  - eexists (if sync then 0 else 1)%nat, _. split_and!; [destruct sync; cbn; lia|exact H1|].
    cbn. eauto.
  - eexists ((if sync then 0 else 1) + 1)%nat, _. split_and!.
    + destruct sync; cbn; lia.
    + eapply drive_add; [exact H1|apply drive_finished].
    + cbn. rewrite <- app_assoc. eauto.
Qed.

(** ** Along a table *)

Definition table (tb : bool) : list ocf_pipeline_step :=
  if tb then rollback_steps properties else steps properties.
Definition ptr (tb : bool) (i : nat) : step_ptr := if tb then In_rollback i else In_steps i.

Lemma load_ptr tb i st l : drop i (table tb) = st :: l -> load_step properties (ptr tb i) = Some st.
Proof.
  intros H. assert (Hl : table tb !! i = Some st).
  { pose proof (lookup_drop (table tb) i 0) as Hd. rewrite H, Nat.add_0_r in Hd. by rewrite <- Hd. }
  by destruct tb.
Qed.

Lemma drop_next {A} (i : nat) (l : list A) x k : drop i l = x :: k -> drop (S i) l = k.
Proof. intros H. replace (S i) with (i + 1)%nat by lia. by rewrite <- drop_drop, H. Qed.

Lemma step_inc_ptr tb i : step_inc (ptr tb i) = ptr tb (S i).
Proof. by destruct tb. Qed.

Definition arg_ok (a : arg_ptr) (l : list ocf_pipeline_step) : Prop :=
  a = Arg_null \/ Forall (fun st => is_foreach st = false) l.

Lemma arg_ok_tail a st l : arg_ok a (st :: l) -> arg_ok a l.
Proof. intros [->|H]; [by left|]. right. by apply Forall_cons in H as [_ H]. Qed.

(** What holds at each place of a table for the steps [l] that are left: from
    there, every long enough loop leads to the outcome of [l]. *)
Definition walks tb l : Prop := forall i a p log rb e fuel,
  drop i (table tb) = l -> (length l <= fuel)%nat -> arg_ok a l ->
  leads (S fuel) (PS (ptr tb i) a rb false e p 0%nat log) rb e log (spec_steps c l p).

(** One round of the loop at each kind of step. *)
Lemma loop_at fuel tb i st l a rb e p log :
  drop i (table tb) = st :: l ->
  loop (S fuel) (PS (ptr tb i) a rb false e p 0%nat log) =
  match st with
  | ocf_pipeline_step_single h x =>
      call_hndl c h x (PS (ptr tb (S i)) a rb false e p 0%nat log)
  | ocf_pipeline_step_conditional h pr x =>
      (if pred c pr x p then call_hndl c h x else loop fuel) (PS (ptr tb (S i)) a rb false e p 0%nat log)
  | ocf_pipeline_step_foreach h args =>
      let a' := if arg_is_null a then Arg_at args 0 else a in
      match load_arg a' with
      | Some x =>
          if is_terminator x then loop fuel (PS (ptr tb (S i)) Arg_null rb false e p 0%nat log)
          else (_ ← call_hndl c h x; modify (fun s => with_arg (arg_inc (arg s)) s))
                 (PS (ptr tb i) a' rb false e p 0%nat log)
      | None => None
      end
  | ocf_pipeline_step_terminator => call_finish (PS (ptr tb i) a rb false e p 0%nat log)
  end.
Proof.
  intros H. cbn [run_loop]. m_unfold. cbn [step]. rewrite (load_ptr tb i st l H).
  destruct st as [h x|h args|h pr x|]; unfold with_step; cbn; rewrite ?step_inc_ptr; try done.
  destruct (arg_is_null a); cbn; [destruct (args !! 0%nat) as [x|]|destruct (load_arg a) as [x|]]; try done;
      destruct (is_terminator x); cbn; by rewrite ?step_inc_ptr.
Qed.

(** A foreach step from its [k]-th argument on. *)
Lemma walk_args tb h args l i : walks tb l -> drop i (table tb) = ocf_pipeline_step_foreach h args :: l ->
  forall rest k a p log rb e fuel,
    drop k args = rest -> ocf_pipeline_arg_terminator ∈ rest ->
    a = Arg_at args k \/ (a = Arg_null /\ k = O) -> (S (length l) <= fuel)%nat -> (S (length l) <= TABLE_SIZE)%nat ->
    leads (S fuel) (PS (ptr tb i) a rb false e p 0%nat log) rb e log
      (spec_steps c (ocf_pipeline_step_foreach h rest :: l) p).
Proof.
  intros Hl Hi rest. induction rest as [|x rest IH]; intros k a p log rb e fuel Hk Ht Ha Hf Htab.
  { by apply not_elem_of_nil in Ht. }
  assert (Ha' : (if arg_is_null a then Arg_at args 0 else a) = Arg_at args k).
  { by destruct Ha as [->|[-> ->]]. }
  assert (Hx : args !! k = Some x).
  { pose proof (lookup_drop args k 0) as Hd. rewrite Hk, Nat.add_0_r in Hd. by rewrite <- Hd. }
  destruct (is_terminator x) eqn:Hterm.
  - destruct x; try done. cbn [spec_steps spec_args].
    destruct (Hl (S i) Arg_null p log rb e (Nat.pred fuel)) as (n & s1 & s2 & Hn & H1 & H2 & He).
    + by eapply drop_next.
    + lia.
    + by left.
    + replace (S (Nat.pred fuel)) with fuel in H1 by lia.
      destruct (spec_steps c l p) as [[ev p'] o]. exists n, s1, s2. split_and!; try done.
      unfold exec. rewrite (loop_at _ _ _ _ l) by done. cbn zeta iota. rewrite Ha'. cbn [load_arg].
      rewrite Hx. exact H1.
  - assert (Hs : spec_steps c (ocf_pipeline_step_foreach h (x :: rest) :: l) p =
        let '(v, _, p') := hndl c h x p in
        let r := spec_steps c (ocf_pipeline_step_foreach h rest :: l) p' in
        match v with
        | Next => (Ev_hndl h x :: r.1.1, r.1.2, r.2)
        | _ => ([Ev_hndl h x], p', outcome_of v)
        end).
    { cbn [spec_steps spec_args]. destruct (hndl c h x p) as [[v sync] p'].
      destruct x; try done; destruct v; try done;
        destruct (spec_args c h rest p') as [[ev p2] o]; destruct o; try done;
        by destruct (spec_steps c l p2) as [[ev' p3] o']. }
    rewrite Hs. destruct (hndl c h x p) as [[v sync] p'] eqn:Hv.
    destruct (call_concludes h x arg_inc (ptr tb i) (Arg_at args k) rb e p log v sync p' Hv)
      as (s1 & H1 & H2).
    destruct (after_call s1 h x sync v arg_inc _ _ rb e p' log
      (spec_steps c (ocf_pipeline_step_foreach h rest :: l) p') H2) as (n & s2 & Hn & H3 & He).
    { intros _. cbn [arg_inc]. apply (IH (S k)); [by eapply drop_next| |by left|lia|done].
      apply elem_of_cons in Ht as [<-|Ht]; done. }
    exists n, s1, s2. split_and!; try done.
    unfold exec. rewrite (loop_at _ _ _ _ l) by done. cbn zeta iota. rewrite Ha'. cbn [load_arg].
    rewrite Hx, Hterm. exact H1.
Qed.

(** A single step, or a conditional one whose predicate holds. *)
Lemma walk_call tb h x l i a p log rb e fuel :
  walks tb l -> drop (S i) (table tb) = l -> (length l <= TABLE_SIZE)%nat -> arg_ok a l ->
  loop (S fuel) (PS (ptr tb i) a rb false e p 0%nat log) =
    call_hndl c h x (PS (ptr tb (S i)) a rb false e p 0%nat log) ->
  leads (S fuel) (PS (ptr tb i) a rb false e p 0%nat log) rb e log
    (spec_steps c (ocf_pipeline_step_single h x :: l) p).
Proof.
  intros Hl Hi Hlen Ha Hloop. cbn [spec_steps].
  destruct (hndl c h x p) as [[v sync] p'] eqn:Hv.
  destruct (call_concludes_id h x (ptr tb (S i)) a rb e p log v sync p' Hv) as (s1 & H1 & H2).
  destruct (after_call s1 h x sync v id _ _ rb e p' log (spec_steps c l p') H2) as (n & s2 & Hn & H3 & He).
  { intros _. by apply Hl. }
  exists n, s1, s2. unfold exec in H1. rewrite <- Hloop in H1.
  destruct v; [destruct (spec_steps c l p') as [[ev p''] o]| |]; done.
Qed.

Lemma walk_steps tb l :
  ocf_pipeline_step_terminator ∈ l -> Forall step_ok l -> (length l <= TABLE_SIZE)%nat -> walks tb l.
Proof.
  induction l as [|st l IH]; intros Ht Hok Hlen; [by apply not_elem_of_nil in Ht|].
  intros i a p log rb e fuel Hi Hf Ha. apply Forall_cons in Hok as [Hst Hok]. cbn [length] in *.
  assert (Hl : st <> ocf_pipeline_step_terminator -> walks tb l).
  { intros Hne. apply IH; [|done|lia]. apply elem_of_cons in Ht as [<-|Ht]; done. }
  pose proof (drop_next _ _ _ _ Hi) as Hi'. pose proof (arg_ok_tail _ _ _ Ha) as Ha'.
  destruct st as [h x|h args|h pr x|].
  - apply walk_call; [by apply Hl|done|lia|done|]. by rewrite (loop_at _ _ _ _ _ _ _ _ _ _ Hi).
  - apply (walk_args tb h args l i) with (k := O); [by apply Hl|done|done|done| | |].
    + destruct Ha as [->|Ha]; [by right|]. by apply Forall_cons in Ha as [Ha _].
    + lia.
    + lia.
  - pose proof (loop_at fuel tb i _ l a rb e p log Hi) as Hloop. cbn zeta iota in Hloop.
    destruct (pred c pr x p) eqn:Hp.
    + pose proof (walk_call tb h x l i a p log rb e fuel) as Hw. cbn [spec_steps] in *. rewrite Hp.
      apply Hw; [by apply Hl|done|lia|done|done].
    + cbn [spec_steps]. rewrite Hp. destruct fuel as [|fuel]; [lia|].
      destruct (Hl ltac:(done) (S i) a p log rb e fuel) as (n & s1 & s2 & Hn & H1 & H2 & He);
        [done|lia|done|].
      exists n, s1, s2. split_and!; try done. unfold exec. by rewrite Hloop.
  - exists O, (PS (ptr tb i) a rb false e p 0%nat (log ++ [Ev_finish e])), 
      (PS (ptr tb i) a rb false e p 0%nat (log ++ [Ev_finish e])). cbn [spec_steps]. split_and!.
    + cbn. lia.
    + unfold exec. by rewrite (loop_at _ _ _ _ _ _ _ _ _ _ Hi).
    + done.
    + cbn. eauto.
Qed.

(** ** Whole pipelines *)

Lemma drive_spec p :
  table_ok (steps properties) -> table_ok (rollback_steps properties) ->
  Forall (fun st => is_foreach st = false) (rollback_steps properties) ->
  (forall p ev p' e, spec_steps c (rollback_steps properties) p <> (ev, p', Rolled e)) ->
  exists n s', (n <= 2 * length (spec properties c p))%nat /\
    exec (drive n) (with_queued 1 (ocf_pipeline_create p)) s' /\ resting s' /\ log s' = spec properties c p.
Proof.
  intros (Hlen & Ht & Hok) (Hlen' & Ht' & Hok') Hfe Hrb. unfold spec.
  destruct (walk_steps false _ Ht Hok Hlen 0%nat Arg_null p [] false 0 TABLE_SIZE)
    as (n & s1 & s2 & Hn & H1 & H2 & He); [done|done|by left|].
  pose proof (drive_queued n (In_steps 0%nat) Arg_null false 0 p [] s1 s2 H1 H2) as H3.
  destruct (spec_steps c (table false) p) as [[ev p'] o] eqn:Hs. cbn [table] in Hs, Hn, He.
  rewrite Hs in *. unfold ends in He. cbn [fst] in Hn. destruct o as [|e|e].
  - destruct He as (t & a & ->). exists (S n). eexists. split_and!; [rewrite length_app; cbn; lia|exact H3|done|done].
  - destruct He as (a & ->).
    destruct (walk_steps true _ Ht' Hok' Hlen' 0%nat a p' ev true e TABLE_SIZE)
      as (n' & s3 & s4 & Hn' & H4 & H5 & He); [done|done|by right|].
    cbn [app] in H3.
    pose proof (drive_queued n' (In_rollback 0%nat) a true e p' ev s3 s4 H4 H5) as H6.
    pose proof (drive_add _ _ _ _ _ H3 H6) as H7.
    destruct (spec_steps c (table true) p') as [[ev' p''] o] eqn:Hs'. cbn [table] in Hs', Hn', He.
    rewrite Hs' in *. unfold ends in He. cbn [fst] in Hn'. destruct o as [|e'|e']; [|by apply Hrb in Hs'|];
      destruct He as (t & a' & ->); (exists (S n + S n')%nat; eexists;
        split_and!; [rewrite !length_app; cbn; lia|exact H7|done|done]).
  - destruct He as (t & a & ->). exists (S n). eexists. split_and!; [rewrite length_app; cbn; lia|exact H3|done|done].
Qed.

End Proofs.

(** C27. a pipeline, started by [ocf_pipeline_next], calls exactly the handlers
    its tables prescribe, in their order and with their arguments, whether they
    end at once or later: up to the first that does not continue, then, after
    [ocf_pipeline_rollback], the roll-back table; and then calls [finish] once,
    with the error of the handler that ended it, where the error of a roll-back
    is kept.  It rests after at most twice as many turns as there are calls.
    The roll-back table has no foreach step and does not roll back itself. *)
Theorem pipeline_runs {P} (properties : ocf_pipeline_properties) (c : client P) (p : P) :
  table_ok (steps properties) -> table_ok (rollback_steps properties) ->
  Forall (fun st => is_foreach st = false) (rollback_steps properties) ->
  (forall p ev p' e, spec_steps c (rollback_steps properties) p <> (ev, p', Rolled e)) ->
  exists s', queued s' = O /\ pending s' = None /\ log s' = spec properties c p /\
    forall n, (2 * length (spec properties c p) <= n)%nat ->
      (_ ← ocf_pipeline_next; drive properties c n) (ocf_pipeline_create p) = Some (tt, s').
Proof.
  intros H1 H2 H3 H4. destruct (drive_spec properties c p H1 H2 H3 H4) as (n & s' & Hn & Hd & Hr & Hl).
  exists s'. destruct Hr as [Hq Hp]. split_and!; try done. intros m Hm.
  replace m with (n + (m - n))%nat by lia.
  apply (exec_bind _ _ _ (with_queued 1 (ocf_pipeline_create p))); [done|].
  eapply drive_add; [exact Hd|]. by apply drive_rest.
Qed.

(** A pipeline whose foreach step fails at once on its second argument, and
    whose roll-back has a conditional step that is skipped. *)
Definition sample_steps : ocf_pipeline_properties := Properties
  [ocf_pipeline_step_single 1 ocf_pipeline_arg_none;
   ocf_pipeline_step_foreach 2 [ocf_pipeline_arg_int 10; ocf_pipeline_arg_int 11; ocf_pipeline_arg_terminator];
   ocf_pipeline_step_terminator]
  [ocf_pipeline_step_conditional 3 0 ocf_pipeline_arg_none;
   ocf_pipeline_step_single 4 ocf_pipeline_arg_none; ocf_pipeline_step_terminator].

Definition sample_client : client unit := Client
  (fun h a p => match h, a with
                | 2, ocf_pipeline_arg_int 11 => (Rollback 5, true, p)
                | 4, _ => (Finish 7, false, p)
                | _, _ => (Next, false, p)
                end)
  (fun h pr p => false).

Lemma pipeline_runs_witness :
  exists s', queued s' = O /\ pending s' = None /\ log s' = spec sample_steps sample_client tt /\
    forall n, (2 * length (spec sample_steps sample_client tt) <= n)%nat ->
      (_ ← ocf_pipeline_next; drive sample_steps sample_client n) (ocf_pipeline_create tt) = Some (tt, s').
Proof.
  apply (pipeline_runs sample_steps sample_client tt).
  - split; [cbn; unfold TABLE_SIZE; lia|]. split; [by right; right; left|]. repeat constructor.
  - split; [cbn; unfold TABLE_SIZE; lia|]. split; [by right; right; left|]. repeat constructor.
  - repeat constructor.
  - intros [] ev [] e [=].
Defined.

(** The log of the sample. *)
Example sample_log : spec sample_steps sample_client tt =
  [Ev_hndl 1 ocf_pipeline_arg_none; Ev_hndl 2 (ocf_pipeline_arg_int 10);
   Ev_hndl 2 (ocf_pipeline_arg_int 11); Ev_hndl 4 ocf_pipeline_arg_none; Ev_finish 5].
Proof. reflexivity. Qed.

(** Why the roll-back table may have no foreach step: a foreach handler that
    rolls back before it returns leaves [pipeline->arg] one past [NULL], and a
    foreach step of the roll-back table reads through it. *)
Lemma foreach_rollback_bug h x args h' args' l l' g :
  is_terminator x = false ->
  drive (Properties (ocf_pipeline_step_foreach h (x :: args) :: l) (ocf_pipeline_step_foreach h' args' :: l'))
    (Client (fun _ _ (p : unit) => (Rollback g, true, p)) (fun _ _ _ => true)) 2
    (with_queued 1 (ocf_pipeline_create tt)) = None.
Proof. intros Hx. destruct x; done. Qed.

End PipelineProofs.
