(* ===== verification/Engine.v ===== *)
(** * Looking up a request: [src/engine/engine_common.c], [.h]

    The traversal of a request by the engines: every core line is looked up in
    the mapping, its entry of the request's map says what was found, and the
    counters of [req->info] sum that up; the engines decide by the counters.
    The functions act on the state of [CacheLine]. *)

From S2P Require Import Prelude Alock CacheLineLock Lru LruPart Collision Status Request CacheLine.

(** ** The counters of [req->info] *)

Definition inc_hit_no (i : ocf_req_info) : ocf_req_info :=
  ReqInfo (u32 (hit_no i + 1)) (invalid_no i) (re_part_no i) (seq_no i) (insert_no i) (dirty_all i) (dirty_any i)
    (flush_metadata i) (mapping_error i) (cleaning_required i).
Definition inc_invalid_no (i : ocf_req_info) : ocf_req_info :=
  ReqInfo (hit_no i) (u32 (invalid_no i + 1)) (re_part_no i) (seq_no i) (insert_no i) (dirty_all i) (dirty_any i)
    (flush_metadata i) (mapping_error i) (cleaning_required i).
Definition inc_re_part_no (i : ocf_req_info) : ocf_req_info :=
  ReqInfo (hit_no i) (invalid_no i) (u32 (re_part_no i + 1)) (seq_no i) (insert_no i) (dirty_all i) (dirty_any i)
    (flush_metadata i) (mapping_error i) (cleaning_required i).
Definition inc_seq_no (i : ocf_req_info) : ocf_req_info :=
  ReqInfo (hit_no i) (invalid_no i) (re_part_no i) (u32 (seq_no i + 1)) (insert_no i) (dirty_all i) (dirty_any i)
    (flush_metadata i) (mapping_error i) (cleaning_required i).
Definition inc_insert_no (i : ocf_req_info) : ocf_req_info :=
  ReqInfo (hit_no i) (invalid_no i) (re_part_no i) (seq_no i) (u32 (insert_no i + 1)) (dirty_all i) (dirty_any i)
    (flush_metadata i) (mapping_error i) (cleaning_required i).
Definition inc_dirty_all (i : ocf_req_info) : ocf_req_info :=
  ReqInfo (hit_no i) (invalid_no i) (re_part_no i) (seq_no i) (insert_no i) (u32 (dirty_all i + 1)) (dirty_any i)
    (flush_metadata i) (mapping_error i) (cleaning_required i).
Definition inc_dirty_any (i : ocf_req_info) : ocf_req_info :=
  ReqInfo (hit_no i) (invalid_no i) (re_part_no i) (seq_no i) (insert_no i) (dirty_all i) (u32 (dirty_any i + 1))
    (flush_metadata i) (mapping_error i) (cleaning_required i).

(** ** The predicates of [engine_common.h] *)

Definition ocf_engine_is_hit (r : ocf_request) : bool := bool_decide (hit_no (info r) = core_line_count r).
Definition ocf_engine_needs_repart (r : ocf_request) : bool := bool_decide (re_part_no (info r) > 0).
Definition ocf_engine_mapped_count (r : ocf_request) : Z := u32 (hit_no (info r) + invalid_no (info r)).
Definition ocf_engine_is_mapped (r : ocf_request) : bool :=
  bool_decide (ocf_engine_mapped_count r = core_line_count r).
Definition ocf_engine_is_dirty_all (r : ocf_request) : bool := bool_decide (dirty_all (info r) = core_line_count r).
Definition ocf_engine_unmapped_count (r : ocf_request) : Z :=
  u32 (core_line_count r - u32 (hit_no (info r) + invalid_no (info r) + insert_no (info r))).
Definition ocf_engine_repart_count (r : ocf_request) : Z := re_part_no (info r).
Definition ocf_engine_is_sequential (r : ocf_request) : bool :=
  bool_decide (u32 (hit_no (info r) + insert_no (info r)) = core_line_count r) &&
  bool_decide (seq_no (info r) = u32 (core_line_count r - 1)).
Definition ocf_engine_io_count (r : ocf_request) : Z :=
  if ocf_engine_is_sequential r then 1 else core_line_count r.

Section Engine.
Context {C : Type} `{!CleaningPolicy C}.
Context (block_4k : bool) (line_size : cache_line_size).
Context (num_entries ENTRIES : Z).
(** The name of the request in the lock table, and the fuel of the walks along
    collision lists. *)
Context (self : Z) (fuel : nat).
Abbreviation LM := (LM (C:=C)).

Definition bump_info (f : ocf_req_info -> ocf_req_info) : LM unit :=
  set_request (fun r => with_req_info (f (info r)) r).

(** ** The entries of the map *)

(** Are the cache lines of entries [entry] and [entry + 1] neighbours? *)
Definition ocf_engine_clines_phys_cont (entry : Z) : LM bool :=
  entry1 ← map_entry_of entry;
  entry2 ← map_entry_of (entry + 1);
  if bool_decide (me_status entry1 = LOOKUP_MISS) || bool_decide (me_status entry2 = LOOKUP_MISS) then mret false
  else
    let phys1 := me_coll_idx entry1 in
    let phys2 := me_coll_idx entry2 in
    mret (bool_decide (phys1 < phys2) && bool_decide (u32 (phys1 + 1) = phys2)).

Definition ocf_engine_patch_req_info (idx : Z) : LM unit :=
  entry ← map_entry_of idx;
  _ ← bug_on (negb (bool_decide (me_status entry = LOOKUP_REMAPPED)));
  _ ← bump_info inc_insert_no;
  _ ← (if bool_decide (idx > 0) then
         cont ← ocf_engine_clines_phys_cont (idx - 1); when cont (bump_info inc_seq_no)
       else mret tt);
  count ← gets (fun c => core_line_count (request c));
  if bool_decide (idx + 1 < count) then
    cont ← ocf_engine_clines_phys_cont idx; when cont (bump_info inc_seq_no)
  else mret tt.

(** The counting of a hit: valid blocks, dirty blocks. *)
Definition update_hit_info (idx : Z) : LM unit :=
  entry ← map_entry_of idx;
  start_block ← start_block block_4k line_size idx;
  end_block ← end_block_of block_4k line_size idx;
  valid ← on_status (metadata_test_valid_sec block_4k line_size (me_coll_idx entry) start_block end_block);
  _ ← (if (valid : bool) then bump_info inc_hit_no
       else
         _ ← bump_info inc_invalid_no;
         set_entry idx (with_status LOOKUP_HIT_INVALID));
  dirty ← on_status (metadata_test_dirty block_4k line_size (me_coll_idx entry));
  when dirty (
    _ ← bump_info inc_dirty_any;
    all ← on_status (metadata_test_dirty_all_sec block_4k line_size (me_coll_idx entry) start_block end_block);
    when all (bump_info inc_dirty_all)).

(** The assertion on the status holds by the type of the status. *)
Definition ocf_engine_update_req_info (idx : Z) : LM unit :=
  entry ← map_entry_of idx;
  _ ← when (bool_decide (me_status entry = LOOKUP_HIT)) (update_hit_info idx);
  entry ← map_entry_of idx;
  _ ← when (negb (bool_decide (me_status entry = LOOKUP_MISS))) (
        part_id ← gets (fun c => req_part (request c));
        label ← on_lru (C:=C) block_4k line_size (ocf_metadata_get_partition_id (me_coll_idx entry));
        when (negb (bool_decide (part_id = label))) (
          _ ← set_entry idx (with_re_part true);
          bump_info inc_re_part_no));
  _ ← when (bool_decide (me_status entry = LOOKUP_REMAPPED)) (bump_info inc_insert_no);
  if bool_decide (idx > 0) then
    cont ← ocf_engine_clines_phys_cont (idx - 1); when cont (bump_info inc_seq_no)
  else mret tt.

Definition ocf_engine_set_hot : LM unit :=
  i ← gets (fun c => info (request c));
  if bool_decide (hit_no i = 0) && bool_decide (invalid_no i = 0) then mret tt
  else for_each_line (fun i =>
    entry ← map_entry_of i;
    when (bool_decide (me_status entry = LOOKUP_HIT) || bool_decide (me_status entry = LOOKUP_HIT_INVALID))
      (ocf_eviction_hot_cline block_4k line_size (me_coll_idx entry))).

(** ** Tests of one entry *)

Definition ocf_engine_map_all_sec_dirty (line : Z) : LM bool :=
  start ← start_block block_4k line_size line;
  stop ← end_block_of block_4k line_size line;
  entry ← map_entry_of line;
  if negb (bool_decide (me_status entry = LOOKUP_HIT)) then mret false
  else on_status (metadata_test_dirty_all_sec block_4k line_size (me_coll_idx entry) start stop).

Definition ocf_engine_map_all_sec_clean (line : Z) : LM bool :=
  start ← start_block block_4k line_size line;
  stop ← end_block_of block_4k line_size line;
  entry ← map_entry_of line;
  if negb (bool_decide (me_status entry = LOOKUP_HIT)) then mret false
  else
    valid ← on_status (metadata_test_valid_sec block_4k line_size (me_coll_idx entry) start stop);
    if negb valid then mret false
    else
      dirty ← on_status (metadata_test_dirty_sec block_4k line_size (me_coll_idx entry) start stop);
      mret (negb dirty).

Definition ocf_engine_map_all_sec_valid (line : Z) : LM bool :=
  start ← start_block block_4k line_size line;
  stop ← end_block_of block_4k line_size line;
  entry ← map_entry_of line;
  if negb (bool_decide (me_status entry = LOOKUP_HIT)) then mret false
  else on_status (metadata_test_valid_sec block_4k line_size (me_coll_idx entry) start stop).

(** The line to clean for [item], or an error. *)
Definition _ocf_engine_clean_getter (item : Z) : LM (option Z) :=
  count ← gets (fun c => core_line_count (request c));
  if bool_decide (item >= count) then mret None
  else
    entry ← map_entry_of item;
    if negb (bool_decide (me_status entry = LOOKUP_HIT)) && negb (bool_decide (me_status entry = LOOKUP_HIT_INVALID))
    then mret None
    else
      dirty ← on_status (metadata_test_dirty block_4k line_size (me_coll_idx entry));
      mret (if (dirty : bool) then Some (me_coll_idx entry) else None).

(** ** The loops over the core lines *)

(** [for (i = 0, core_line = first; core_line <= last; core_line++, i++)]. *)
Definition for_core_lines (body : Z -> Z -> LM unit) : LM unit :=
  r ← gets request;
  m_for (Z.of_nat <$> seq 0 (Z.to_nat (core_line_last r - core_line_first r + 1)))
    (fun i => body i (core_line_first r + i)).

Definition lookup_line (i core_line : Z) : LM unit :=
  core_id ← gets (fun c => req_core (request c));
  found ← on_map (ocf_engine_lookup_map_entry fuel core_id core_line);
  _ ← set_entry i (with_info found);
  _ ← set_entry i (with_re_part false);
  if bool_decide (mi_status found = LOOKUP_HIT) then ocf_engine_update_req_info i else mret tt.

Definition ocf_engine_lookup : LM unit :=
  _ ← set_request ocf_req_clear_info;
  for_core_lines lookup_line.

Definition ocf_engine_traverse : LM unit := _ ← ocf_engine_lookup; ocf_engine_set_hot.

(** The body of the loop of [ocf_engine_check]; the result is whether the entry
    is good. *)
Definition check_line (i : Z) : LM bool :=
  core_id ← gets (fun c => req_core (request c));
  _ ← set_entry i (with_re_part false);
  entry ← map_entry_of i;
  if bool_decide (me_status entry = LOOKUP_MISS) then mret true
  else
    res ← on_map (check_map_entry (me_info entry) core_id);
    if bool_decide (res <> 0) then _ ← set_entry i (with_invalid true); mret false
    else
      _ ← set_entry i (with_invalid false);
      _ ← ocf_engine_update_req_info i;
      mret true.

Fixpoint check_lines (l : list Z) (result : Z) : LM Z :=
  match l with
  | [] => mret result
  | i :: l => ok ← check_line i; check_lines l (if (ok : bool) then result else -1)
  end.

Definition ocf_engine_check : LM Z :=
  _ ← set_request ocf_req_clear_info;
  r ← gets request;
  check_lines (Z.of_nat <$> seq 0 (Z.to_nat (core_line_last r - core_line_first r + 1))) 0.

(** ** Mapping a core line *)

Definition ocf_map_cache_line (idx cache_line : Z) : LM unit :=
  r ← gets request;
  entry ← map_entry_of idx;
  _ ← on_map (ocf_metadata_add_to_collision (req_core r) (core_line_first r + idx) (mi_hash (me_info entry)) cache_line);
  _ ← ocf_cleaning_init_cache_block cache_line;
  set_entry idx (with_coll_idx cache_line).
End Engine.
