(* ===== verification/EngineProofs.v ===== *)
(** * What a lookup reports

    [view] is the entry that the mapping, the status bits and the partition
    labels prescribe for a core line, [sums] the counters that the entries
    prescribe; the lookup computes exactly these. *)

From S2P Require Import Prelude Alock AlockProofs CacheLineLock Links Lru LruProofs Generator LruPart LruPartProofs.
From S2P Require Import Collision CollisionProofs Status StatusProofs Request RequestProofs.
From S2P Require Import CacheLine CacheLineProofs CacheLineSteps Engine.

Lemma all_in_list start stop x :
  all_in start stop x <-> Forall (fun i => Z.testbit x i = true) (seqZ start (stop - start + 1)).
Proof.
  unfold all_in. rewrite Forall_forall. setoid_rewrite elem_of_seqZ.
  split; intros H i Hi; apply H; lia.
Qed.

#[export] Instance all_in_dec start stop x : Decision (all_in start stop x).
Proof.
  destruct (decide (Forall (fun i => Z.testbit x i = true) (seqZ start (stop - start + 1)))) as [H|H];
    [left|right]; by rewrite all_in_list.
Defined.

(** ** Counting entries *)

(** The number of entries that satisfy [P], which sees their places. *)
Definition icount (P : nat -> map_entry -> bool) (es : list map_entry) : Z :=
  Z.of_nat (length (filter (fun b => b = true) (imap P es))).

Lemma icount_snoc P es e : icount P (es ++ [e]) = icount P es + Z.b2z (P (length es) e).
Proof.
  unfold icount. rewrite imap_app, filter_app, length_app.
  rewrite imap_cons, Nat.add_0_r, imap_nil, filter_cons, filter_nil.
  destruct (P (length es) e); case_decide; cbn; try done; lia.
Qed.

Lemma icount_ext P Q es :
  (forall i e, es !! i = Some e -> P i e = Q i e) -> icount P es = icount Q es.
Proof. intros H. unfold icount. do 2 f_equal. by rewrite (imap_ext P Q). Qed.

Lemma icount_bounds P es : 0 <= icount P es <= Z.of_nat (length es).
Proof.
  unfold icount. pose proof (length_filter (fun b => b = true) (imap P es)) as H.
  rewrite length_imap in H. lia.
Qed.

(** All entries are counted exactly if all satisfy [P]. *)
Lemma icount_all P es :
  icount P es = Z.of_nat (length es) <-> (forall i e, es !! i = Some e -> P i e = true).
Proof.
  induction es as [|e es IH] using rev_ind; [split; [intros _ i e Hi; by rewrite lookup_nil in Hi|done]|].
  rewrite icount_snoc, length_app. cbn [length]. pose proof (icount_bounds P es).
  split.
  - intros Hc i e' Hi. apply lookup_snoc_Some in Hi as [[Hlt Hi]|[-> <-]].
    + apply IH; [|done]. destruct (P (length es) e); cbn in Hc; lia.
    + destruct (P (length es) e); [done|]. cbn in Hc. lia.
  - intros Ha. rewrite (Ha (length es) e) by (by rewrite list_lookup_middle).
    cbn. rewrite (proj2 IH); [lia|]. intros i e' Hi. apply Ha. by apply lookup_app_l_Some.
Qed.

Section EngineProofs.
Context {C : Type} `{!CleaningPolicy C}.
Context (block_4k : bool) (line_size : cache_line_size).
Context (num_entries ENTRIES : Z) (fuel : nat).
Abbreviation LM := (LM (C:=C)).
Abbreviation inv := (cache_inv (C:=C) block_4k line_size num_entries).
Abbreviation start := (ocf_map_line_start_block block_4k line_size).
Abbreviation stop := (ocf_map_line_end_block block_4k line_size).

(** ** What an entry is to say *)

(** The request of a traversal: the geometry of its byte range, a map of one
    entry per core line, and a core. *)
Record request_ok (r : ocf_request) : Prop := {
  ro_range : good_range (addr r) (bytes r);
  ro_lines : (core_line_first r, core_line_last r, core_line_count r) = ocf_req_lines line_size (addr r) (bytes r);
  ro_map : Z.of_nat (length (req_map r)) = core_line_count r }.

Definition view (c : cache C) (m : gmap core_info Z) (r : ocf_request) (i : nat) (e0 : map_entry) : map_entry :=
  let ci := CoreInfo (req_core r) (core_line_first r + Z.of_nat i) in
  let s := mapping_of c in
  match m !! ci with
  | None => with_re_part false (with_info (MapInfo (bucket_of s ci) (collision_table_entries s)
              (core_line ci) (core_id ci) LOOKUP_MISS) e0)
  | Some x =>
      let st := default (MapStatus 0 0) (statuses c !! x) in
      let status := if decide (all_in (start r (Z.of_nat i)) (stop r (Z.of_nat i)) (valid st)) then LOOKUP_HIT else LOOKUP_HIT_INVALID in
      with_re_part (negb (bool_decide (Some (req_part r) = partition_id <$> nodes (lru c) !! x)))
        (with_info (MapInfo (bucket_of s ci) x (core_line ci) (core_id ci) status) e0)
  end.

Definition is_hit (e : map_entry) : bool := bool_decide (me_status e = LOOKUP_HIT).
Definition is_hit_invalid (e : map_entry) : bool := bool_decide (me_status e = LOOKUP_HIT_INVALID).
Definition is_found (e : map_entry) : bool := negb (bool_decide (me_status e = LOOKUP_MISS)).
Definition line_status (c : cache C) (e : map_entry) : map_status :=
  default (MapStatus 0 0) (statuses c !! me_coll_idx e).

(** Entry [i] continues the cache line of the entry before it. *)
Definition continues (es : list map_entry) (i : nat) (e : map_entry) : bool :=
  match i with
  | O => false
  | S k => match es !! k with
           | Some e' => is_found e' && is_found e && bool_decide (me_coll_idx e' + 1 = me_coll_idx e)
           | None => false
           end
  end.

Definition sums (c : cache C) (r : ocf_request) (es : list map_entry) : ocf_req_info :=
  ReqInfo (icount (fun _ => is_hit) es) (icount (fun _ => is_hit_invalid) es)
    (icount (fun _ => me_re_part) es) (icount (continues es) es) 0
    (icount (fun i e => is_found e && bool_decide (dirty (line_status c e) <> 0) &&
       bool_decide (all_in (start r (Z.of_nat i)) (stop r (Z.of_nat i)) (dirty (line_status c e)))) es)
    (icount (fun _ e => is_found e && bool_decide (dirty (line_status c e) <> 0)) es)
    false false false.

(** ** Steps of a traversal

    A traversal only changes the map and the counters of the request. *)

Definition visit (c : cache C) (r : ocf_request) (es : list map_entry) (I : ocf_req_info) : cache C :=
  with_request (with_req_info I (with_map es r)) c.

Lemma wp_visit_entry c r pre e post I (Q : map_entry -> cache C -> Prop) :
  Q e (visit c r (pre ++ e :: post) I) ->
  wp (map_entry_of (Z.of_nat (length pre))) Q (visit c r (pre ++ e :: post) I).
Proof.
  intros HQ. eapply wp_entry; [lia| |exact HQ]. cbn. by rewrite Nat2Z.id, list_lookup_middle.
Qed.

Lemma wp_visit_set c r pre e post I (f : map_entry -> map_entry) (Q : unit -> cache C -> Prop) :
  Q tt (visit c r (pre ++ f e :: post) I) ->
  wp (set_entry (Z.of_nat (length pre)) f) Q (visit c r (pre ++ e :: post) I).
Proof.
  intros HQ. apply wp_bind, wp_visit_entry. apply wp_modify. cbn.
  replace (alter f (Z.to_nat (Z.of_nat (length pre))) (pre ++ e :: post)) with (pre ++ f e :: post); [exact HQ|].
  rewrite Nat2Z.id, alter_app_r_alt by lia. by rewrite Nat.sub_diag.
Qed.

Lemma wp_visit_bump c r es I f (Q : unit -> cache C -> Prop) :
  Q tt (visit c r es (f I)) -> wp (bump_info f) Q (visit c r es I).
Proof. intros HQ. by apply wp_modify. Qed.

Lemma bool_of_iff (b : bool) P `{!Decision P} : (b = true <-> P) -> b = bool_decide P.
Proof. intros H. destruct b; symmetry; [apply bool_decide_eq_true_2|apply bool_decide_eq_false_2]; naive_solver. Qed.

Lemma wp_visit_all c r es I x st what lo hi (Q : bool -> cache C -> Prop) :
  statuses c !! x = Some st -> bits_ok block_4k line_size st -> block_range block_4k line_size lo hi ->
  Q (bool_decide (all_in lo hi (get_field what st))) (visit c r es I) ->
  wp (on_status (_ocf_metadata_test (field block_4k line_size) what x lo hi true)) Q (visit c r es I).
Proof.
  intros Hst Hb Hr HQ. apply wp_on_status. eapply wp_mono.
  { apply (test_exact _ what x lo hi true _ st); [exact Hst|by apply bits_status|by apply block_range_ok]. }
  intros b s' [-> Hiff]. by rewrite (bool_of_iff _ _ Hiff).
Qed.

Lemma whole_line st : bits_ok block_4k line_size st ->
  any_in 0 (ocf_line_end_block block_4k line_size) (dirty st) <-> dirty st <> 0.
Proof.
  intros [_ Hd]. rewrite <- some_bit_iff by lia. split.
  - intros (i & Hi & Ht). exists i. split; [lia|done].
  - intros (i & Hi & Ht). exists i. split; [|done].
    destruct (decide (ocf_line_blocks block_4k line_size <= i)) as [Hge|]; [|unfold ocf_line_end_block; lia].
    pose proof (blocks_field block_4k line_size).
    rewrite (bits_of_below (ocf_line_blocks block_4k line_size)) in Ht; [done|lia|done|done].
Qed.

Lemma wp_visit_dirty c r es I x st (Q : bool -> cache C -> Prop) :
  statuses c !! x = Some st -> bits_ok block_4k line_size st ->
  Q (bool_decide (dirty st <> 0)) (visit c r es I) ->
  wp (on_status (metadata_test_dirty block_4k line_size x)) Q (visit c r es I).
Proof.
  intros Hst Hb HQ. apply wp_on_status. eapply wp_mono.
  { apply (test_exact (field block_4k line_size) Dirty x 0 (ocf_line_end_block block_4k line_size) false _ st);
      [exact Hst|by apply bits_status|apply block_range_ok].
    pose proof (line_blocks_bounds block_4k line_size). unfold block_range, ocf_line_end_block. lia. }
  intros b s' [-> Hiff]. cbn in Hiff. rewrite whole_line in Hiff by done.
  by rewrite (bool_of_iff _ _ Hiff).
Qed.

(** *** Neighbours *)

Definition line_in_range (e : map_entry) : Prop := is_found e = true -> 0 <= me_coll_idx e < 2 ^ 29.

Lemma wp_phys_cont c r pre ep e post I (Q : bool -> cache C -> Prop) :
  line_in_range ep ->
  Q (is_found ep && is_found e && bool_decide (me_coll_idx ep + 1 = me_coll_idx e))
    (visit c r (pre ++ ep :: e :: post) I) ->
  wp (ocf_engine_clines_phys_cont (Z.of_nat (length pre))) Q (visit c r (pre ++ ep :: e :: post) I).
Proof.
  intros Hr HQ. apply wp_bind, wp_visit_entry. apply wp_bind.
  replace (Z.of_nat (length pre) + 1) with (Z.of_nat (length (pre ++ [ep]))) by (rewrite length_app; cbn; lia).
  replace (pre ++ ep :: e :: post) with ((pre ++ [ep]) ++ e :: post) in * by (by rewrite <- app_assoc).
  apply wp_visit_entry. unfold line_in_range, is_found in *.
  destruct (decide (me_status ep = LOOKUP_MISS)) as [Hp|Hp];
    [rewrite (bool_decide_eq_true_2 _ Hp) in *; exact HQ|rewrite (bool_decide_eq_false_2 _ Hp) in *].
  destruct (decide (me_status e = LOOKUP_MISS)) as [He|He];
    [rewrite (bool_decide_eq_true_2 _ He) in *; exact HQ|rewrite (bool_decide_eq_false_2 _ He) in *].
  apply wp_ret. specialize (Hr eq_refl). rewrite wrap_small by lia.
  replace (bool_decide (me_coll_idx ep < me_coll_idx e) && bool_decide (me_coll_idx ep + 1 = me_coll_idx e))
    with (bool_decide (me_coll_idx ep + 1 = me_coll_idx e)); [exact HQ|].
  repeat case_bool_decide; cbn; try done; lia.
Qed.

(** The counting of a neighbour at the end of [ocf_engine_update_req_info]. *)
Lemma wp_seq_step c r pre e post I (Q : unit -> cache C -> Prop) :
  Forall line_in_range pre ->
  Q tt (visit c r (pre ++ e :: post)
         (if continues (pre ++ [e]) (length pre) e then inc_seq_no I else I)) ->
  wp (if bool_decide (Z.of_nat (length pre) > 0) then
        cont ← ocf_engine_clines_phys_cont (Z.of_nat (length pre) - 1); when cont (bump_info inc_seq_no)
      else mret tt) Q (visit c r (pre ++ e :: post) I).
Proof.
  intros Hr HQ. destruct pre as [|ep pre _] using rev_ind; [exact HQ|].
  apply Forall_app in Hr as [_ Hr]. apply Forall_cons in Hr as [Hr _].
  rewrite length_app, Nat.add_1_r in *. cbn [length] in *.
  rewrite bool_decide_eq_true_2 by lia. apply wp_bind.
  replace (Z.of_nat (S (length pre)) - 1) with (Z.of_nat (length pre)) by lia.
  replace ((pre ++ [ep]) ++ e :: post) with (pre ++ ep :: e :: post) in * by (by rewrite <- app_assoc).
  apply wp_phys_cont; [done|]. cbn [continues] in HQ.
  rewrite <- app_assoc in HQ. cbn [app] in HQ. rewrite list_lookup_middle in HQ by done.
  destruct (is_found ep && _ && _); [by apply wp_visit_bump|exact HQ].
Qed.

(** *** A hit *)

Definition hit_info (hit some_dirty all_dirty : bool) (I : ocf_req_info) : ocf_req_info :=
  let I := if hit then inc_hit_no I else inc_invalid_no I in
  if some_dirty then
    let I := inc_dirty_any I in if all_dirty then inc_dirty_all I else I
  else I.

Lemma wp_hit_step c r pre e post I st (Q : unit -> cache C -> Prop) :
  let i := Z.of_nat (length pre) in
  let hit := bool_decide (all_in (start r i) (stop r i) (valid st)) in
  statuses c !! me_coll_idx e = Some st -> bits_ok block_4k line_size st ->
  block_range block_4k line_size (start r i) (stop r i) ->
  Q tt (visit c r (pre ++ (if hit then e else with_status LOOKUP_HIT_INVALID e) :: post)
         (hit_info hit (bool_decide (dirty st <> 0))
            (bool_decide (all_in (start r i) (stop r i) (dirty st))) I)) ->
  wp (update_hit_info block_4k line_size i) Q (visit c r (pre ++ e :: post) I).
Proof.
  intros i hit Hst Hb Hr HQ. apply wp_bind, wp_visit_entry.
  apply wp_bind, wp_gets. apply wp_bind, wp_gets. apply wp_bind.
  eapply (wp_visit_all c r _ _ _ st Valid); [exact Hst|done|exact Hr|]. cbn [get_field].
  change (bool_decide (all_in _ _ (valid st))) with hit. apply wp_bind.
  assert (Hrest : forall e' I', Q tt (visit c r (pre ++ e' :: post)
      (if bool_decide (dirty st <> 0) then
         let I := inc_dirty_any I' in
         if bool_decide (all_in (start r i) (stop r i) (dirty st)) then inc_dirty_all I else I
       else I')) ->
    wp (dirty ← on_status (metadata_test_dirty block_4k line_size (me_coll_idx e));
        when dirty (
          _ ← bump_info inc_dirty_any;
          all ← on_status (metadata_test_dirty_all_sec block_4k line_size (me_coll_idx e) (start r i) (stop r i));
          when all (bump_info inc_dirty_all))) Q (visit c r (pre ++ e' :: post) I')).
  { intros e' I' HQ'. apply wp_bind. eapply wp_visit_dirty; [exact Hst|done|].
    destruct (bool_decide (dirty st <> 0)); [|exact HQ'].
    apply wp_bind, wp_visit_bump. apply wp_bind.
    eapply (wp_visit_all c r _ _ _ st Dirty); [exact Hst|done|exact Hr|]. cbn [get_field].
    destruct (bool_decide (all_in (start r i) (stop r i) (dirty st))); [by apply wp_visit_bump|exact HQ']. }
  destruct hit.
  - apply wp_visit_bump. by apply Hrest.
  - apply wp_bind, wp_visit_bump. apply wp_visit_set. by apply Hrest.
Qed.

(** *** [ocf_engine_update_req_info] on a hit *)

Lemma wp_update_hit c r pre e post I st n (Q : unit -> cache C -> Prop) :
  let i := Z.of_nat (length pre) in
  let hit := bool_decide (all_in (start r i) (stop r i) (valid st)) in
  let moves := negb (bool_decide (req_part r = partition_id n)) in
  let e' := with_re_part moves (if hit then e else with_status LOOKUP_HIT_INVALID e) in
  me_status e = LOOKUP_HIT -> me_re_part e = false ->
  statuses c !! me_coll_idx e = Some st -> bits_ok block_4k line_size st -> nodes (lru c) !! me_coll_idx e = Some n ->
  block_range block_4k line_size (start r i) (stop r i) -> Forall line_in_range pre ->
  let I1 := hit_info hit (bool_decide (dirty st <> 0))
              (bool_decide (all_in (start r i) (stop r i) (dirty st))) I in
  let I2 := if moves then inc_re_part_no I1 else I1 in
  Q tt (visit c r (pre ++ e' :: post) (if continues (pre ++ [e']) (length pre) e' then inc_seq_no I2 else I2)) ->
  wp (ocf_engine_update_req_info block_4k line_size i) Q (visit c r (pre ++ e :: post) I).
Proof.
  intros i hit moves e' He Hre Hst Hb Hn Hr Hpre I1 I2 HQ. apply wp_bind, wp_visit_entry.
  apply wp_bind. rewrite (bool_decide_eq_true_2 _ He).
  apply (wp_hit_step c r pre e post I st); [done|done|exact Hr|]. fold i hit I1.
  set (e1 := if hit then e else with_status LOOKUP_HIT_INVALID e).
  assert (H1 : me_status e1 <> LOOKUP_MISS /\ me_status e1 <> LOOKUP_REMAPPED /\
    me_coll_idx e1 = me_coll_idx e /\ me_re_part e1 = false).
  { subst e1. destruct hit; [by rewrite He|]. done. }
  destruct H1 as (Hm & Hrm & Hc & Hrp).
  apply wp_bind, wp_visit_entry. rewrite (bool_decide_eq_false_2 _ Hm). cbn [negb].
  apply wp_bind. apply wp_bind, wp_gets. apply wp_bind. rewrite Hc.
  eapply wp_partition; [exact Hn|]. change (req_part (request (visit c r _ _))) with (req_part r). fold moves.
  assert (Hend : Q tt (visit c r (pre ++ e' :: post) (if continues (pre ++ [e']) (length pre) e' then inc_seq_no I2 else I2)) ->
    wp (if moves then _ ← set_entry i (with_re_part true); bump_info inc_re_part_no else mret tt)
      (fun _ s => wp (if bool_decide (i > 0) then
        cont ← ocf_engine_clines_phys_cont (i - 1); when cont (bump_info inc_seq_no) else mret tt) Q s)
      (visit c r (pre ++ e1 :: post) I1)).
  { intros HQ'. subst e' I2. fold e1 in HQ' |- *. destruct moves.
    - apply wp_bind, wp_visit_set, wp_visit_bump. by apply wp_seq_step.
    - assert (Ee : with_re_part false e1 = e1) by (destruct e1; cbn in Hrp; by subst).
      rewrite Ee in HQ'. apply wp_ret. by apply wp_seq_step. }
  eapply wp_mono; [by apply Hend|]. intros [] s' Hs. apply wp_bind.
  rewrite (bool_decide_eq_false_2 _ Hrm). exact Hs.
Qed.

(** ** The counters of one entry more *)

Lemma continues_prefix pre e i e' : pre !! i = Some e' -> continues (pre ++ [e]) i e' = continues pre i e'.
Proof.
  intros Hi. destruct i as [|k]; [done|]. cbn. apply lookup_lt_Some in Hi. by rewrite lookup_app_l by lia.
Qed.

Definition counted_once (hit moves some_dirty all_dirty cont : bool) (I : ocf_req_info) : ocf_req_info :=
  let I1 := hit_info hit some_dirty all_dirty I in
  let I2 := if moves then inc_re_part_no I1 else I1 in
  if cont then inc_seq_no I2 else I2.

Lemma sums_snoc c r pre e :
  sums c r (pre ++ [e]) =
  let I := sums c r pre in
  let st := line_status c e in
  let i := Z.of_nat (length pre) in
  let b (x : bool) := Z.b2z x in
  ReqInfo (hit_no I + b (is_hit e)) (invalid_no I + b (is_hit_invalid e)) (re_part_no I + b (me_re_part e))
    (seq_no I + b (continues (pre ++ [e]) (length pre) e)) 0
    (dirty_all I + b (is_found e && bool_decide (dirty st <> 0) && bool_decide (all_in (start r i) (stop r i) (dirty st))))
    (dirty_any I + b (is_found e && bool_decide (dirty st <> 0))) false false false.
Proof.
  unfold sums. rewrite !icount_snoc. cbn [hit_no invalid_no re_part_no seq_no dirty_all dirty_any].
  rewrite (icount_ext (continues (pre ++ [e])) (continues pre)); [done|].
  intros i e' Hi. by apply continues_prefix.
Qed.

Lemma sums_bounds c r es :
  let n := Z.of_nat (length es) in let I := sums c r es in
  0 <= hit_no I <= n /\ 0 <= invalid_no I <= n /\ 0 <= re_part_no I <= n /\ 0 <= seq_no I <= n /\
  0 <= dirty_all I <= n /\ 0 <= dirty_any I <= n.
Proof. cbn. split_and!; apply icount_bounds. Qed.

(** The increments as additions, below the width of the counters. *)
Lemma counted_once_add hit moves sd ad cont I :
  Forall (fun x => 0 <= x < 2 ^ 32 - 1) [hit_no I; invalid_no I; re_part_no I; seq_no I; dirty_all I; dirty_any I] ->
  counted_once hit moves sd ad cont I =
  ReqInfo (hit_no I + Z.b2z hit) (invalid_no I + Z.b2z (negb hit)) (re_part_no I + Z.b2z moves)
    (seq_no I + Z.b2z cont) (insert_no I) (dirty_all I + Z.b2z (sd && ad)) (dirty_any I + Z.b2z sd)
    (flush_metadata I) (mapping_error I) (cleaning_required I).
Proof.
  destruct I as [h v rp sq ins da dn f1 f2 f3]. cbn [hit_no invalid_no re_part_no seq_no dirty_all dirty_any].
  rewrite !Forall_cons. intros (H1 & H2 & H3 & H4 & H5 & H6 & _).
  assert (Hw : forall x b, 0 <= x < 2 ^ 32 - 1 -> (if (b : bool) then u32 (x + 1) else x) = x + Z.b2z b).
  { intros x [] Hx; cbn; [by rewrite wrap_small by lia|lia]. }
  rewrite <- !Hw by done. unfold counted_once, hit_info. destruct hit, sd, ad, moves, cont; done.
Qed.

Lemma sums_hit c r pre e st (hit : bool) :
  Z.of_nat (length pre) + 1 < 2 ^ 32 -> statuses c !! me_coll_idx e = Some st ->
  me_status e = (if hit then LOOKUP_HIT else LOOKUP_HIT_INVALID) ->
  let i := Z.of_nat (length pre) in
  counted_once hit (me_re_part e) (bool_decide (dirty st <> 0))
    (bool_decide (all_in (start r i) (stop r i) (dirty st))) (continues (pre ++ [e]) (length pre) e) (sums c r pre) =
  sums c r (pre ++ [e]).
Proof.
  intros Hlen Hst He i. rewrite sums_snoc. cbn zeta. pose proof (sums_bounds c r pre) as Hb. cbn zeta in Hb.
  replace (line_status c e) with st by (unfold line_status; by rewrite Hst). fold i.
  replace (is_hit e) with hit by (unfold is_hit; rewrite He; by destruct hit).
  replace (is_hit_invalid e) with (negb hit) by (unfold is_hit_invalid; rewrite He; by destruct hit).
  replace (is_found e) with true by (unfold is_found; rewrite He; by destruct hit).
  apply counted_once_add. rewrite !Forall_cons. split_and!; try lia. constructor.
Qed.

Lemma sums_miss c r pre e :
  me_status e = LOOKUP_MISS -> me_re_part e = false -> sums c r (pre ++ [e]) = sums c r pre.
Proof.
  intros He Hr. rewrite sums_snoc. cbn zeta.
  replace (is_hit e) with false by (unfold is_hit; by rewrite He).
  replace (is_hit_invalid e) with false by (unfold is_hit_invalid; by rewrite He).
  assert (Hf : is_found e = false) by (unfold is_found; by rewrite He). rewrite Hf, Hr.
  replace (continues (pre ++ [e]) (length pre) e) with false.
  - cbn [andb Z.b2z]. rewrite !Z.add_0_r. done.
  - destruct (length pre); cbn; [done|]. destruct (_ !! _); [|done]. by rewrite Hf, andb_false_r.
Qed.

(** ** One core line *)

Lemma view_in_range c β m σ r i e : inv c β m σ -> line_in_range (view c m r i e).
Proof.
  intros HI. unfold line_in_range, view. cbv zeta. destruct (m !! _) as [x|] eqn:Hm; [|done]. intros _. cbn.
  destruct (mapped_owner _ _ _ _ _ _ _ _ _ HI Hm) as [Hmap _].
  destruct (ci_home _ _ _ _ _ _ _ HI x Hmap) as (st & n & Hh).
  pose proof (ci_line _ _ _ _ _ _ _ HI x) as Hl. rewrite (lh_status _ _ _ _ _ _ _ Hh) in Hl.
  pose proof (ci_entries_bound _ _ _ _ _ _ _ HI). specialize (Hl ltac:(by eexists)). lia.
Qed.

Lemma lookup_line_wp c β m σ r pre e0 post :
  inv c β m σ -> num_entries < Z.of_nat fuel ->
  let i := length pre in
  let e := view c m r i e0 in
  block_range block_4k line_size (start r (Z.of_nat i)) (stop r (Z.of_nat i)) ->
  Forall line_in_range pre -> Z.of_nat i + 1 < 2 ^ 32 ->
  wp (lookup_line block_4k line_size fuel (Z.of_nat i) (core_line_first r + Z.of_nat i))
    (fun _ s => s = visit c r (pre ++ e :: post) (sums c r (pre ++ [e])))
    (visit c r (pre ++ e0 :: post) (sums c r pre)).
Proof.
  intros HI Hfuel i e Hr Hpre Hi. set (ci := CoreInfo (req_core r) (core_line_first r + Z.of_nat i)).
  apply wp_bind, wp_gets. change (req_core (request (visit c r _ _))) with (core_id ci).
  change (core_line_first r + Z.of_nat i) with (core_line ci). apply wp_bind, wp_on_map.
  pose proof (ci_entries _ _ _ _ _ _ _ HI) as HE.
  eapply wp_mono; [apply (lookup_entry_wp (mapping_of c) β m ci fuel (ci_map _ _ _ _ _ _ _ HI)); lia|].
  intros found s [-> ->].
  change (with_mapping (mapping_of c) (visit c r (pre ++ e0 :: post) (sums c r pre)))
    with (visit c r (pre ++ e0 :: post) (sums c r pre)).
  apply wp_bind, wp_visit_set. apply wp_bind, wp_visit_set.
  subst e. unfold view. cbv zeta. fold ci. fold i.
  destruct (m !! ci) as [x|] eqn:Hm; cbn [default mi_status].
  - destruct (facts _ _ _ _ _ _ _ _ _ HI Hm) as (st & n & rt & p & HF).
    pose proof (lf_home _ _ _ _ _ _ _ _ _ _ HF) as Hh.
    pose proof (lh_node _ _ _ _ _ _ _ Hh) as Hn. pose proof (lh_status _ _ _ _ _ _ _ Hh) as Hst.
    rewrite bool_decide_eq_true_2 by done. eapply (wp_update_hit c r pre _ post _ st n); try done.
    { exact (lf_bits _ _ _ _ _ _ _ _ _ _ HF). }
    rewrite Hst. cbn [default]. change (id st) with st. rewrite Hn. cbn [fmap option_fmap option_map].
    set (hit := bool_decide (all_in (start r (Z.of_nat i)) (stop r (Z.of_nat i)) (valid st))).
    fold i. fold hit.
    replace (bool_decide (Some (req_part r) = Some (partition_id n))) with (bool_decide (req_part r = partition_id n))
      by (apply bool_decide_ext; split; congruence).
    set (moves := negb (bool_decide (req_part r = partition_id n))).
    set (e := with_re_part moves (with_info (MapInfo (bucket_of (mapping_of c) ci) x (core_line ci) (core_id ci)
      (if decide (all_in (start r (Z.of_nat i)) (stop r (Z.of_nat i)) (valid st)) then LOOKUP_HIT
       else LOOKUP_HIT_INVALID)) e0)).
    match goal with |- visit _ _ (_ ++ ?e' :: _) _ = _ => replace e' with e end.
    + rewrite <- (sums_hit c r pre e st hit Hi Hst); [done|].
      subst e hit. cbn. destruct (decide _) as [Ha|Ha];
        [by rewrite (bool_decide_eq_true_2 _ Ha)|by rewrite (bool_decide_eq_false_2 _ Ha)].
    + subst e hit. destruct (decide _) as [Ha|Ha];
        [by rewrite (bool_decide_eq_true_2 _ Ha)|by rewrite (bool_decide_eq_false_2 _ Ha)].
  - rewrite bool_decide_eq_false_2 by done. apply wp_ret. by rewrite sums_miss.
Qed.

(** ** The whole request *)

Lemma request_ok_lines r :
  request_ok r ->
  core_line_count r = core_line_last r - core_line_first r + 1 /\ 0 < core_line_count r < 2 ^ 32 /\
  forall i, 0 <= i < core_line_count r -> block_range block_4k line_size (start r i) (stop r i).
Proof.
  intros [Hg Hl _]. set (r' := ocf_req_new line_size (req_core r) (req_part r) (addr r) (bytes r) (req_map r)).
  assert (E : with_req_info (info r) r' = r).
  { subst r'. unfold ocf_req_new. rewrite <- Hl. by destruct r. }
  pose proof (req_geometry block_4k line_size (req_core r) (req_part r) (addr r) (bytes r) (req_map r) Hg) as H.
  cbv zeta in H. fold r' in H. destruct H as (_ & _ & _ & Hc & Hn & _).
  rewrite <- E. split; [exact Hc|]. split; [exact Hn|]. intros i Hi.
  exact (entry_blocks block_4k line_size (req_core r) (req_part r) (addr r) (bytes r) (req_map r) i Hg Hi).
Qed.

Lemma lookup_loop c β m σ r post : forall pre,
  inv c β m σ -> num_entries < Z.of_nat fuel ->
  (forall i, (length pre <= i < length pre + length post)%nat ->
     block_range block_4k line_size (start r (Z.of_nat i)) (stop r (Z.of_nat i))) ->
  Forall line_in_range pre -> Z.of_nat (length pre + length post) < 2 ^ 32 ->
  wp (m_for (Z.of_nat <$> seq (length pre) (length post))
        (fun i => lookup_line block_4k line_size fuel i (core_line_first r + i)))
    (fun _ s => let es := pre ++ imap (fun j => view c m r (length pre + j)) post in
                s = visit c r es (sums c r es))
    (visit c r (pre ++ post) (sums c r pre)).
Proof.
  induction post as [|e0 post IH]; intros pre HI Hfuel Hr Hpre Hlen; cbn [length seq fmap list_fmap m_for].
  - apply wp_ret. by rewrite imap_nil, app_nil_r.
  - cbn [length] in *. apply wp_bind. eapply wp_mono.
    { eapply lookup_line_wp; [done|done|apply Hr; lia|done|lia]. }
    intros [] s ->. set (e := view c m r (length pre) e0).
    specialize (IH (pre ++ [e]) HI Hfuel). rewrite length_app, Nat.add_1_r in IH. cbn [length] in IH.
    rewrite <- !app_assoc in IH. eapply wp_mono.
    + apply IH; [intros i Hi; apply Hr; lia| |lia].
      apply Forall_app. split; [done|]. constructor; [by eapply view_in_range|constructor].
    + intros [] s ->. cbv zeta. rewrite imap_cons, Nat.add_0_r. cbn [app]. fold e.
      rewrite (imap_ext (fun j => view c m r (S (length pre) + j)) ((fun j => view c m r (length pre + j)) ∘ S)); [done|].
      intros i x _. cbn. by rewrite Nat.add_succ_r.
Qed.

Lemma engine_lookup_wp c β m σ :
  inv c β m σ -> request_ok (request c) -> num_entries < Z.of_nat fuel ->
  let r := request c in
  let es := imap (view c m r) (req_map r) in
  wp (ocf_engine_lookup block_4k line_size fuel) (fun _ c' => c' = visit c r es (sums c r es)) c.
Proof.
  intros HI Hok Hfuel r es. destruct (request_ok_lines r Hok) as (Hc & Hn & Hr).
  pose proof (ro_map r Hok) as Hm.
  apply wp_bind, wp_modify. apply wp_bind, wp_gets.
  change (core_line_last (request (with_request (ocf_req_clear_info (request c)) c)))
    with (core_line_last r).
  change (core_line_first (request (with_request (ocf_req_clear_info (request c)) c)))
    with (core_line_first r).
  replace (Z.to_nat (core_line_last r - core_line_first r + 1)) with (length (req_map r)) by lia.
  replace (with_request (ocf_req_clear_info (request c)) c) with (visit c r ([] ++ req_map r) (sums c r []))
    by (subst r; by destruct c as [? ? ? ? ? ? ? []]).
  eapply wp_mono.
  - apply (lookup_loop c β m σ r (req_map r) []); [done|done| |constructor|cbn; lia].
    cbn. intros i Hi. apply Hr. lia.
  - intros [] s ->. reflexivity.
Qed.

(** ** What the counters mean *)

Lemma view_status c m r i e : me_status (view c m r i e) <> LOOKUP_REMAPPED.
Proof. unfold view. cbv zeta. destruct (m !! _); [|done]. cbn. by destruct (decide _). Qed.

Lemma view_found c m r i e :
  is_found (view c m r i e) = bool_decide (is_Some (m !! CoreInfo (req_core r) (core_line_first r + Z.of_nat i))).
Proof.
  unfold view. cbv zeta. destruct (m !! _) as [x|]; [|by rewrite bool_decide_eq_false_2 by (by intros [])].
  rewrite (bool_decide_eq_true_2 (is_Some (Some x))) by eauto. unfold is_found. cbn. by destruct (decide (all_in _ _ _)).
Qed.

Lemma mapped_total c r es :
  (forall i e, es !! i = Some e -> me_status e <> LOOKUP_REMAPPED) ->
  hit_no (sums c r es) + invalid_no (sums c r es) = icount (fun _ => is_found) es.
Proof.
  cbn. induction es as [|e es IH] using rev_ind; intros Hs; [done|]. rewrite !icount_snoc.
  assert (He : me_status e <> LOOKUP_REMAPPED) by (apply (Hs (length es)); by rewrite list_lookup_middle).
  assert (IH' := IH (fun i e' Hi => Hs i e' (lookup_app_l_Some es [e] i e' Hi))).
  unfold is_found, is_hit, is_hit_invalid in *. repeat case_bool_decide; destruct (me_status e); cbn; try done; lia.
Qed.

Lemma icount_zero P es : icount P es > 0 <-> exists i e, es !! i = Some e /\ P i e = true.
Proof.
  induction es as [|e es IH] using rev_ind.
  - split; [done|]. intros (i & e & Hi & _). by rewrite lookup_nil in Hi.
  - rewrite icount_snoc. pose proof (icount_bounds P es). destruct (P (length es) e) eqn:HP; cbn.
    + split; [|lia]. intros _. exists (length es), e. split; [by rewrite list_lookup_middle|done].
    + rewrite Z.add_0_r, IH. split.
      * intros (i & e' & Hi & Hp). exists i, e'. split; [by apply lookup_app_l_Some|done].
      * intros (i & e' & [[_ Hi]|[-> <-]]%lookup_snoc_Some & Hp); [eauto|congruence].
Qed.

Lemma sums_meaning c m r es0 :
  Z.of_nat (length es0) = core_line_count r -> core_line_count r < 2 ^ 32 ->
  let es := imap (view c m r) es0 in
  let r' := with_req_info (sums c r es) (with_map es r) in
  (ocf_engine_is_hit r' = true <-> forall i e, es !! i = Some e -> me_status e = LOOKUP_HIT) /\
  (ocf_engine_is_mapped r' = true <->
     forall i, 0 <= i < core_line_count r -> is_Some (m !! CoreInfo (req_core r) (core_line_first r + i))) /\
  ocf_engine_mapped_count r' + ocf_engine_unmapped_count r' = core_line_count r /\
  (ocf_engine_needs_repart r' = true <-> exists i e, es !! i = Some e /\ me_re_part e = true).
Proof.
  intros Hlen Hn es r'. assert (Hes : length es = length es0) by apply length_imap.
  assert (Hlk : forall i e, es !! i = Some e -> exists e0, es0 !! i = Some e0 /\ e = view c m r i e0).
  { intros i e Hi. apply list_lookup_imap_Some in Hi as (e0 & He0 & ->). eauto. }
  assert (Htot : hit_no (sums c r es) + invalid_no (sums c r es) = icount (fun _ => is_found) es).
  { apply mapped_total. intros i e Hi. destruct (Hlk i e Hi) as (e0 & _ & ->). apply view_status. }
  pose proof (icount_bounds (fun _ => is_found) es) as Hb. rewrite Hes, Hlen in Hb.
  unfold ocf_engine_is_hit, ocf_engine_is_mapped, ocf_engine_mapped_count, ocf_engine_unmapped_count,
    ocf_engine_needs_repart. subst r'. cbn [info with_req_info core_line_count with_map insert_no].
  change (insert_no (sums c r es)) with 0. rewrite Z.add_0_r, Htot, (wrap_small 32 (icount _ _)) by lia.
  rewrite !bool_decide_eq_true. split_and!.
  - cbn [hit_no sums]. rewrite <- Hlen, <- Hes. rewrite icount_all. unfold is_hit.
    setoid_rewrite bool_decide_eq_true. done.
  - rewrite <- Hlen, <- Hes. rewrite icount_all. split.
    + intros Ha i Hi. destruct (lookup_lt_is_Some_2 es (Z.to_nat i)) as [e He]; [lia|].
      specialize (Ha _ _ He). destruct (Hlk _ _ He) as (e0 & _ & ->). rewrite view_found in Ha.
      apply bool_decide_eq_true_1 in Ha. by rewrite Z2Nat.id in Ha by lia.
    + intros Ha i e He. destruct (Hlk _ _ He) as (e0 & _ & ->). rewrite view_found.
      apply bool_decide_eq_true_2, Ha. apply lookup_lt_Some in He. lia.
  - rewrite wrap_small by lia. lia.
  - apply (icount_zero (fun _ => me_re_part)).
Qed.

(** A request is sequential when it hits consecutive cache lines. *)
Lemma icount_cons P e es : icount P (e :: es) = Z.b2z (P O e) + icount (fun i => P (S i)) es.
Proof.
  unfold icount. rewrite imap_cons, filter_cons. unfold compose.
  destruct (P O e); case_decide; cbn; try done; lia.
Qed.

Lemma continues_chain es :
  (forall i e, es !! i = Some e -> is_found e = true) ->
  (forall i e, es !! S i = Some e -> continues es (S i) e = true) <->
  (exists x, forall i e, es !! i = Some e -> me_coll_idx e = x + Z.of_nat i).
Proof.
  intros Hf. split.
  - intros Hc. exists (default 0 (me_coll_idx <$> es !! O)). intros i. induction i as [|i IH]; intros e He.
    + rewrite He. cbn. lia.
    + destruct (lookup_lt_is_Some_2 es i) as [e' He']; [apply lookup_lt_Some in He; lia|].
      specialize (IH _ He'). specialize (Hc i e He). cbn in Hc. rewrite He' in Hc.
      apply andb_true_iff in Hc as [_ Hc%bool_decide_eq_true_1]. lia.
  - intros [x Hx] i e He. cbn.
    destruct (lookup_lt_is_Some_2 es i) as [e' He']; [apply lookup_lt_Some in He; lia|].
    rewrite He', (Hf _ _ He), (Hf _ _ He'). cbn. apply bool_decide_eq_true_2.
    rewrite (Hx _ _ He), (Hx _ _ He'). lia.
Qed.

Lemma sums_sequential c m r es0 :
  Z.of_nat (length es0) = core_line_count r -> 0 < core_line_count r < 2 ^ 32 ->
  let es := imap (view c m r) es0 in
  let r' := with_req_info (sums c r es) (with_map es r) in
  ocf_engine_is_sequential r' = true <->
  (forall i e, es !! i = Some e -> me_status e = LOOKUP_HIT) /\
  exists x, forall i e, es !! i = Some e -> me_coll_idx e = x + Z.of_nat i.
Proof.
  intros Hlen Hn es r'. assert (Hes : length es = length es0) by apply length_imap.
  unfold ocf_engine_is_sequential. subst r'. cbn [info with_req_info core_line_count with_map].
  change (insert_no (sums c r es)) with 0. rewrite Z.add_0_r.
  pose proof (sums_bounds c r es) as Hb. cbv zeta in Hb. rewrite Hes, Hlen in Hb.
  destruct (decide (core_line_count r = 2 ^ 32)); [lia|].
  rewrite andb_true_iff, !bool_decide_eq_true, !wrap_small by lia.
  cbn [hit_no seq_no sums]. rewrite <- Hlen, <- Hes. rewrite icount_all.
  assert (Hall : (forall i e, es !! i = Some e -> is_hit e = true) <->
    (forall i e, es !! i = Some e -> me_status e = LOOKUP_HIT))
    by (unfold is_hit; by setoid_rewrite bool_decide_eq_true).
  rewrite Hall.
  assert (Hseq : (forall i e, es !! i = Some e -> me_status e = LOOKUP_HIT) ->
    icount (continues es) es = Z.of_nat (length es) - 1 <->
    exists x, forall i e, es !! i = Some e -> me_coll_idx e = x + Z.of_nat i).
  { intros Hhit. rewrite <- continues_chain by (intros i e He; unfold is_found; by rewrite (Hhit i e He)).
    destruct es as [|e0 es'] eqn:E; [cbn in Hes; lia|]. rewrite icount_cons. cbn [continues Z.b2z length].
    rewrite <- (icount_all (fun i => continues (e0 :: es') (S i)) es'). lia. }
  naive_solver.
Qed.

(** ** Touching the lines found *)

(** The lists change, the rest of the cache does not. *)
Definition relisted (c : cache C) β m (c' : cache C) : Prop :=
  exists s' σ', c' = put_lru s' c /\ inv c' β m σ' /\ ready_kept block_4k line_size c c' /\
    forall y, partition_id <$> nodes (lru c') !! y = partition_id <$> nodes (lru c) !! y.

Lemma eviction_hot_wp c β m σ ci x :
  inv c β m σ -> m !! ci = Some x ->
  wp (ocf_eviction_hot_cline block_4k line_size x) (fun _ => relisted c β m) c.
Proof.
  intros HI Hx. destruct (facts _ _ _ _ _ _ _ _ _ HI Hx) as (st & n & rt & p & HF).
  pose proof HF as [[Hs Hn Hu Hl Hrdy] Hcr Hp Hb Hdv _]. apply wp_on_lru.
  set (key := line_key x (line_dirty block_4k line_size st) (partition_id n)) in *.
  eapply wp_mono.
  { apply (hot_cline_wp (lru_of block_4k line_size c) σ x (line_dirty block_4k line_size st) (partition_id n) n).
    - apply (ci_lru _ _ _ _ _ _ _ HI).
    - lia.
    - cbn. by rewrite lookup_fmap, Hs.
    - exact Hn.
    - exact Hl. }
  intros [] s' (Hsame & Hinv & _). fold key in Hinv.
  set (σ' := if hot n then σ else upd key (x :: without x (σ key)) σ) in *.
  assert (E : lru_of block_4k line_size (put_lru s' c) = s').
  { pose proof (same_dirty _ _ Hsame) as Hd. cbn in Hd. unfold CacheLine.lru_of. cbn.
    rewrite <- Hd. by destruct s'. }
  assert (Hk : ready_kept block_4k line_size c (put_lru s' c)).
  { split; [|exact (fun _ H => H)]. intros q Hq. rewrite E. by apply (ready_same_rest _ _ q Hsame). }
  exists s', σ'. split; [done|]. split; [|split; [done|exact (same_parts _ _ Hsame)]].
  assert (Hmem : forall k y, y ∈ σ k -> y ∈ σ' k).
  { intros k y Hy. subst σ'. destruct (hot n); [done|]. unfold upd. case_decide; [subst k|done].
    destruct (decide (y = x)) as [->|Hne]; [by left|]. right. by apply elem_of_without. }
  eapply (inv_change _ _ _ c (put_lru s' c) β m σ σ' x ci st st n rt (dirty_since rt) p); try done.
  - cbn. by rewrite insert_id.
  - intros y. apply (same_parts _ _ Hsame).
  - apply Hk.
  - by rewrite E.
  - intros k y _. apply Hmem.
  - by apply Hmem.
  - cbn. unfold bumped, change. rewrite !Z.sub_diag, !Z.add_0_r.
    replace (PartCounter _ _) with p by (by destruct p). rewrite (insert_id (part_counters rt)) by done.
    rewrite insert_id; [done|]. by destruct rt.
Qed.

Lemma relisted_again c β m c' c'' :
  relisted c β m c' -> relisted c' β m c'' -> relisted c β m c''.
Proof.
  intros (s & σ & -> & _ & Hk & Hp) (s' & σ' & -> & HI & Hk' & Hp'). exists s', σ'. split; [done|]. split; [exact HI|].
  split; [by eapply ready_kept_trans|]. intros y. by rewrite Hp'.
Qed.

Lemma set_hot_wp c β m σ :
  inv c β m σ -> Z.of_nat (length (req_map (request c))) = core_line_count (request c) ->
  (forall i e, req_map (request c) !! i = Some e -> is_found e = true -> exists ci, m !! ci = Some (me_coll_idx e)) ->
  wp (ocf_engine_set_hot block_4k line_size) (fun _ => relisted c β m) c.
Proof.
  intros HI Hlen Hfound.
  assert (H0 : relisted c β m c).
  { exists (lru_of block_4k line_size c), σ. rewrite put_lru_same. split; [done|]. split; [done|]. split; [apply ready_kept_refl|done]. }
  apply wp_bind, wp_gets. destruct (_ && _); [by apply wp_ret|].
  apply wp_bind, wp_gets. rewrite <- Hlen, Nat2Z.id.
  apply (wp_for _ _ (fun _ => relisted c β m)); [done|].
  intros pre i post s El (s1 & σ1 & -> & HI1 & Hk1 & Hp1).
  assert (Hi : exists k, i = Z.of_nat k /\ (k < length (req_map (request c)))%nat).
  { assert (Hin : i ∈ Z.of_nat <$> seq 0 (length (req_map (request c)))) by (rewrite El; set_solver).
    apply list_elem_of_fmap in Hin as (k & -> & Hk). apply elem_of_seq in Hk. exists k. lia. }
  destruct Hi as (k & -> & Hk). apply lookup_lt_is_Some_2 in Hk as [e He].
  apply wp_bind. eapply wp_entry; [lia|rewrite Nat2Z.id; exact He|].
  apply wp_when.
  - intros Hst. destruct (Hfound k e He) as [ci Hci].
    { unfold is_found. by destruct (me_status e). }
    eapply wp_mono; [by eapply eviction_hot_wp|]. intros [] c' Hc'.
    eapply relisted_again; [|exact Hc']. by exists s1, σ1.
  - intros _. by exists s1, σ1.
Qed.

Lemma view_line c m r i e :
  is_found (view c m r i e) = true -> exists ci, m !! ci = Some (me_coll_idx (view c m r i e)).
Proof. unfold view. cbv zeta. destruct (m !! _) as [x|] eqn:Hm; [|done]. intros _. cbn. eauto. Qed.

End EngineProofs.

(** C28. Looking a request up ([ocf_engine_lookup]) changes nothing but the
    request, whose entries say exactly what the mapping, the status bits and the
    partition labels prescribe ([view]: hit, hit with blocks missing, or miss,
    the cache line, the bucket, and whether the line is in another partition),
    and whose counters are those of the entries ([sums]): hits, hits with blocks
    missing, lines to move to another partition, entries that continue the cache
    line before them, no insertions, lines that are dirty and lines all of whose
    requested blocks are dirty; the three flags are down.
    The predicates the engines decide by mean what they say: a request is hit
    when all its lines are found with their blocks valid, mapped when all its
    core lines are mapped, sequential when it hits consecutive cache lines, and
    mapped and unmapped lines add up. *)
Theorem engine_lookup_reports {C} `{!CleaningPolicy C} block_4k line_size num_entries fuel
    (c : cache C) β m σ :
  cache_inv block_4k line_size num_entries c β m σ -> request_ok line_size (request c) ->
  num_entries < Z.of_nat fuel ->
  wp (ocf_engine_lookup block_4k line_size fuel) (fun _ c' =>
    let r := request c in
    let r' := request c' in
    c' = with_request r' c /\
    req_map r' = imap (view block_4k line_size c m r) (req_map r) /\
    info r' = ReqInfo (icount (fun _ => is_hit) (req_map r')) (icount (fun _ => is_hit_invalid) (req_map r'))
      (icount (fun _ => me_re_part) (req_map r')) (icount (continues (req_map r')) (req_map r')) 0
      (icount (fun i e => is_found e && bool_decide (dirty (line_status c e) <> 0) &&
         bool_decide (all_in (ocf_map_line_start_block block_4k line_size r (Z.of_nat i)) (ocf_map_line_end_block block_4k line_size r (Z.of_nat i)) (dirty (line_status c e)))) (req_map r'))
      (icount (fun _ e => is_found e && bool_decide (dirty (line_status c e) <> 0)) (req_map r')) false false false /\
    (ocf_engine_is_hit r' = true <-> forall i e, req_map r' !! i = Some e -> me_status e = LOOKUP_HIT) /\
    (ocf_engine_is_mapped r' = true <->
       forall i, 0 <= i < core_line_count r -> is_Some (m !! CoreInfo (req_core r) (core_line_first r + i))) /\
    (ocf_engine_is_sequential r' = true <->
       (forall i e, req_map r' !! i = Some e -> me_status e = LOOKUP_HIT) /\
       exists x, forall i e, req_map r' !! i = Some e -> me_coll_idx e = x + Z.of_nat i) /\
    ocf_engine_mapped_count r' + ocf_engine_unmapped_count r' = core_line_count r /\
    (ocf_engine_needs_repart r' = true <-> exists i e, req_map r' !! i = Some e /\ me_re_part e = true)) c.
Proof.
  intros HI Hok Hfuel. destruct (request_ok_lines block_4k _ _ Hok) as (_ & Hn & _).
  pose proof (ro_map _ _ Hok) as Hm.
  eapply wp_mono; [by eapply engine_lookup_wp|]. intros [] c' ->. cbv zeta.
  destruct (sums_meaning block_4k line_size c m (request c) (req_map (request c)) Hm ltac:(lia))
    as (H1 & H2 & H3 & H4).
  pose proof (sums_sequential block_4k line_size c m (request c) (req_map (request c)) Hm Hn) as H5.
  done.
Qed.

(** Traversing a request ([ocf_engine_traverse]) looks it up and touches
    the lines it found: the eviction lists are reordered within the invariant,
    and the rest of the cache and the result of the lookup stay as they are. *)
Theorem engine_traverse_touches {C} `{!CleaningPolicy C} block_4k line_size num_entries fuel
    (c : cache C) β m σ :
  cache_inv block_4k line_size num_entries c β m σ -> request_ok line_size (request c) ->
  num_entries < Z.of_nat fuel ->
  wp (ocf_engine_traverse block_4k line_size fuel) (fun _ c' => exists s' σ',
    let es := imap (view block_4k line_size c m (request c)) (req_map (request c)) in
    c' = put_lru s' (visit c (request c) es (sums block_4k line_size c (request c) es)) /\
    cache_inv block_4k line_size num_entries c' β m σ') c.
Proof.
  intros HI Hok Hfuel. apply wp_bind. eapply wp_mono; [by eapply engine_lookup_wp|]. intros [] c1 ->.
  set (es := imap _ _). eapply wp_mono.
  - apply (set_hot_wp block_4k line_size num_entries _ β m σ); [by apply inv_request| |].
    + cbn. subst es. rewrite length_imap. apply (ro_map _ _ Hok).
    + intros i e. cbn. intros (e0 & _ & ->)%list_lookup_imap_Some. by apply view_line.
  - intros [] c' (s' & σ' & -> & HI' & _). by exists s', σ'.
Qed.

(** ** Witnesses *)

Lemma line_request_ok : request_ok size_4 line_request.
Proof. by split; [unfold good_range; cbn; lia| |]. Qed.

(** The line of the sample cache has only four of the eight blocks. *)
Lemma engine_lookup_reports_witness : exists (c c' : cache unit),
  ocf_engine_lookup false size_4 2 c = Some (tt, c') /\ ocf_engine_is_hit (request c') = false /\
  ocf_engine_is_mapped (request c') = true.
Proof.
  destruct line_cache_inv as (l & σ & HI). exists (line_cache l).
  assert (Hw := engine_lookup_reports false size_4 1 2 (line_cache l) _ _ σ HI line_request_ok ltac:(lia)).
  rewrite wp_run in Hw. destruct Hw as ([] & c' & Hr & Hc). exists c'. split; [done|].
  destruct Hc as (_ & Hm & _ & Hhit & Hmap & _). split.
  - apply not_true_is_false. intros Ht. pose proof (proj1 Hhit Ht 0%nat) as Hs.
    rewrite Hm in Hs. cbn [imap req_map request line_cache line_request] in Hs. by specialize (Hs _ eq_refl).
  - apply Hmap. intros i Hi. assert (i = 0) as -> by (cbn in Hi; lia). by exists 0.
Defined.

Lemma engine_traverse_touches_witness : exists (c c' : cache unit) s',
  ocf_engine_traverse false size_4 2 c = Some (tt, c') /\ lru c' = lru (put_lru s' c).
Proof.
  destruct line_cache_inv as (l & σ & HI). exists (line_cache l).
  assert (Hw := engine_traverse_touches false size_4 1 2 (line_cache l) _ _ σ HI line_request_ok ltac:(lia)).
  rewrite wp_run in Hw. destruct Hw as ([] & c' & Hr & s' & σ' & -> & _). by eexists _, s'.
Defined.
