(* ===== verification/EngineCheck.v ===== *)
(** * Checking a request after it has waited: [ocf_engine_check]

    A request that had to wait for its cache lines is checked before it goes
    on.  When nothing has happened to the lines, every entry keeps what it says
    of the mapping, the partition flags are computed again, and the counters
    are those of [recount]: an entry that was found with blocks missing is in
    none of them. *)

From S2P Require Import Prelude Alock AlockProofs CacheLineLock Links Lru LruProofs Generator LruPart LruPartProofs.
From S2P Require Import Collision CollisionProofs Status StatusProofs Request RequestProofs.
From S2P Require Import CacheLine CacheLineProofs CacheLineSteps Engine EngineProofs.

Section EngineCheck.
Context {C : Type} `{!CleaningPolicy C}.
Context (block_4k : bool) (line_size : cache_line_size) (num_entries : Z).
Abbreviation LM := (LM (C:=C)).
Abbreviation inv := (cache_inv (C:=C) block_4k line_size num_entries).
Abbreviation start := (ocf_map_line_start_block block_4k line_size).
Abbreviation stop := (ocf_map_line_end_block block_4k line_size).
Abbreviation request_ok := (request_ok line_size).

Definition is_new (e : map_entry) : bool := bool_decide (me_status e = LOOKUP_REMAPPED).

(** The line of an entry is in another partition than the request's. *)
Definition moves (c : cache C) (r : ocf_request) (e : map_entry) : bool :=
  negb (bool_decide (Some (req_part r) = partition_id <$> nodes (lru c) !! me_coll_idx e)).

Definition rechecked (c : cache C) (r : ocf_request) (e : map_entry) : map_entry :=
  if decide (me_status e = LOOKUP_MISS) then with_re_part false e
  else with_re_part (moves c r e) (with_invalid false e).

Definition recount (c : cache C) (r : ocf_request) (es : list map_entry) : ocf_req_info :=
  let dirty_hit e := is_hit e && bool_decide (dirty (line_status c e) <> 0) in
  ReqInfo (icount (fun _ => is_hit) es) 0 (icount (fun _ => me_re_part) es) (icount (continues es) es)
    (icount (fun _ => is_new) es)
    (icount (fun i e => dirty_hit e &&
       bool_decide (all_in (start r (Z.of_nat i)) (stop r (Z.of_nat i)) (dirty (line_status c e)))) es)
    (icount (fun _ => dirty_hit) es) false false false.

Lemma recount_snoc c r pre e :
  recount c r (pre ++ [e]) =
  let I := recount c r pre in
  let st := line_status c e in
  let i := Z.of_nat (length pre) in
  let b (x : bool) := Z.b2z x in
  ReqInfo (hit_no I + b (is_hit e)) 0 (re_part_no I + b (me_re_part e))
    (seq_no I + b (continues (pre ++ [e]) (length pre) e)) (insert_no I + b (is_new e))
    (dirty_all I + b (is_hit e && bool_decide (dirty st <> 0) && bool_decide (all_in (start r i) (stop r i) (dirty st))))
    (dirty_any I + b (is_hit e && bool_decide (dirty st <> 0))) false false false.
Proof.
  unfold recount. rewrite !icount_snoc. cbn [hit_no re_part_no seq_no insert_no dirty_all dirty_any].
  rewrite (icount_ext (continues (pre ++ [e])) (continues pre)); [done|].
  intros i e' Hi. by apply continues_prefix.
Qed.

Lemma recount_bounds c r es :
  let n := Z.of_nat (length es) in let I := recount c r es in
  0 <= hit_no I <= n /\ 0 <= re_part_no I <= n /\ 0 <= seq_no I <= n /\ 0 <= insert_no I <= n /\
  0 <= dirty_all I <= n /\ 0 <= dirty_any I <= n.
Proof. cbn. split_and!; apply icount_bounds. Qed.

(** The counters of an entry that is not a hit. *)
Definition counted_other (new moved cont : bool) (I : ocf_req_info) : ocf_req_info :=
  let I1 := if moved then inc_re_part_no I else I in
  let I2 := if new then inc_insert_no I1 else I1 in
  if cont then inc_seq_no I2 else I2.

Lemma counted_other_add new moved cont I :
  Forall (fun x => 0 <= x < 2 ^ 32 - 1) [re_part_no I; seq_no I; insert_no I] ->
  counted_other new moved cont I =
  ReqInfo (hit_no I) (invalid_no I) (re_part_no I + Z.b2z moved) (seq_no I + Z.b2z cont) (insert_no I + Z.b2z new)
    (dirty_all I) (dirty_any I) (flush_metadata I) (mapping_error I) (cleaning_required I).
Proof.
  destruct I as [h v rp sq ins da dn f1 f2 f3]. cbn [re_part_no seq_no insert_no].
  rewrite !Forall_cons. intros (H1 & H2 & H3 & _).
  assert (Hw : forall x b, 0 <= x < 2 ^ 32 - 1 -> (if (b : bool) then u32 (x + 1) else x) = x + Z.b2z b).
  { intros x [] Hx; cbn; [by rewrite wrap_small by lia|lia]. }
  rewrite <- !Hw by done. unfold counted_other. destruct new, moved, cont; done.
Qed.

(** *** [ocf_engine_update_req_info] on an entry that is not a hit *)
Lemma wp_update_other c r pre e post I n (Q : unit -> cache C -> Prop) :
  let i := Z.of_nat (length pre) in
  let moved := negb (bool_decide (req_part r = partition_id n)) in
  let e' := with_re_part moved e in
  me_status e <> LOOKUP_HIT -> me_status e <> LOOKUP_MISS -> me_re_part e = false ->
  nodes (lru c) !! me_coll_idx e = Some n -> Forall line_in_range pre ->
  Q tt (visit c r (pre ++ e' :: post)
    (counted_other (is_new e) moved (continues (pre ++ [e']) (length pre) e') I)) ->
  wp (ocf_engine_update_req_info block_4k line_size i) Q (visit c r (pre ++ e :: post) I).
Proof.
  intros i moved e' He Hm Hre Hn Hpre HQ. apply wp_bind, wp_visit_entry.
  apply wp_bind. rewrite (bool_decide_eq_false_2 _ He). apply wp_ret.
  apply wp_bind, wp_visit_entry. rewrite (bool_decide_eq_false_2 _ Hm). cbn [negb].
  apply wp_bind. apply wp_bind, wp_gets. apply wp_bind. eapply wp_partition; [exact Hn|].
  change (req_part (request (visit c r _ _))) with (req_part r). fold moved.
  set (I1 := if moved then inc_re_part_no I else I).
  assert (Hend : wp (_ ← when (bool_decide (me_status e = LOOKUP_REMAPPED)) (bump_info inc_insert_no);
      if bool_decide (i > 0) then
        cont ← ocf_engine_clines_phys_cont (i - 1); when cont (bump_info inc_seq_no) else mret tt) Q
      (visit c r (pre ++ e' :: post) I1)).
  { apply wp_bind. change (bool_decide (me_status e = LOOKUP_REMAPPED)) with (is_new e).
    unfold counted_other in HQ. fold I1 in HQ. destruct (is_new e).
    - apply wp_visit_bump. by apply wp_seq_step.
    - apply wp_ret. by apply wp_seq_step. }
  subst e' I1. destruct moved; cbn [negb].
  - apply wp_bind, wp_visit_set, wp_visit_bump. exact Hend.
  - assert (Ee : with_re_part false e = e) by (destruct e; cbn in Hre; by subst).
    rewrite Ee in Hend. apply wp_ret. exact Hend.
Qed.

(** ** One entry *)

(** The entry says truly which core line its cache line holds; a hit has all
    blocks of its range. *)
Record entry_true (c : cache C) (m : gmap core_info Z) (r : ocf_request) (i : nat) (e : map_entry) : Prop := {
  et_line : m !! CoreInfo (req_core r) (core_line_first r + Z.of_nat i) = Some (me_coll_idx e);
  et_core : mi_core_line (me_info e) = core_line_first r + Z.of_nat i;
  et_hit st : me_status e = LOOKUP_HIT -> statuses c !! me_coll_idx e = Some st ->
    all_in (start r (Z.of_nat i)) (stop r (Z.of_nat i)) (valid st)
}.

Lemma true_in_range c β m σ r i e : inv c β m σ ->
  (me_status e <> LOOKUP_MISS -> entry_true c m r i e) -> line_in_range e.
Proof.
  intros HI Ht Hf. unfold is_found in Hf. apply negb_true_iff, bool_decide_eq_false_1 in Hf.
  destruct (Ht Hf) as [Hl _ _]. destruct (facts _ _ _ _ _ _ _ _ _ HI Hl) as (st & n & rt & p & HF).
  pose proof (lh_status _ _ _ _ _ _ _ (lf_home _ _ _ _ _ _ _ _ _ _ HF)) as Hs.
  pose proof (ci_line _ _ _ _ _ _ _ HI (me_coll_idx e) ltac:(by eexists)).
  pose proof (ci_entries_bound _ _ _ _ _ _ _ HI). lia.
Qed.

Lemma check_line_wp c β m σ r pre e0 post :
  inv c β m σ ->
  let i := length pre in
  let e := rechecked c r e0 in
  (me_status e0 <> LOOKUP_MISS -> entry_true c m r i e0) ->
  block_range block_4k line_size (start r (Z.of_nat i)) (stop r (Z.of_nat i)) ->
  Forall line_in_range pre -> Z.of_nat i + 1 < 2 ^ 32 ->
  wp (check_line block_4k line_size (Z.of_nat i))
    (fun ok s => ok = true /\ s = visit c r (pre ++ e :: post) (recount c r (pre ++ [e])))
    (visit c r (pre ++ e0 :: post) (recount c r pre)).
Proof.
  intros HI i e Ht Hr Hpre Hi. apply wp_bind, wp_gets. apply wp_bind, wp_visit_set. apply wp_bind, wp_visit_entry.
  change (me_status (with_re_part false e0)) with (me_status e0).
  subst e. unfold rechecked. destruct (decide (me_status e0 = LOOKUP_MISS)) as [Hm|Hm].
  - rewrite (bool_decide_eq_true_2 _ Hm). apply wp_ret. split; [done|].
    rewrite recount_snoc. cbv zeta. cbn [me_re_part with_re_part].
    assert (Hs : is_hit (with_re_part false e0) = false /\ is_new (with_re_part false e0) = false /\ is_found (with_re_part false e0) = false).
    { unfold is_hit, is_new, is_found. change (me_status (with_re_part false e0)) with (me_status e0). by rewrite Hm. }
    destruct Hs as (-> & -> & Hf).
    replace (continues _ _ _) with false.
    + cbn [andb Z.b2z]. rewrite !Z.add_0_r. done.
    + destruct (length pre); cbn; [done|]. destruct (_ !! _); [|done]. by rewrite Hf, andb_false_r.
  - rewrite (bool_decide_eq_false_2 _ Hm). destruct (Ht Hm) as [Hl Hcl Hhit].
    destruct (facts _ _ _ _ _ _ _ _ _ HI Hl) as (st & n & rt & p & HF).
    pose proof (lf_home _ _ _ _ _ _ _ _ _ _ HF) as Hh.
    pose proof (lh_node _ _ _ _ _ _ _ Hh) as Hn. pose proof (lh_status _ _ _ _ _ _ _ Hh) as Hst.
    pose proof (ci_line _ _ _ _ _ _ _ HI (me_coll_idx e0) ltac:(by eexists)) as Hx.
    rewrite (ci_entries _ _ _ _ _ _ _ HI) in Hx.
    destruct (proj1 (proj2 (ci_map _ _ _ _ _ _ _ HI) _ _) Hl) as [_ Hcore].
    apply wp_bind, wp_on_map. unfold check_map_entry. change (me_info (with_re_part false e0)) with (me_info e0).
    rewrite decide_False by exact Hm. apply wp_bind, wp_get. apply wp_bind, wp_bug_on.
    { apply bool_decide_eq_false_2. change (mi_coll_idx (me_info e0)) with (me_coll_idx e0). 
      change (mapping_of (visit c r _ _)) with (mapping_of c). lia. }
    apply wp_bind. eapply wp_load; [exact Hcore|]. apply wp_ret.
    cbn [core_id core_line request visit with_request with_req_info with_map req_core].
    rewrite (bool_decide_eq_true_2 (req_core r = req_core r)), (bool_decide_eq_true_2 (_ = mi_core_line (me_info e0))) by done.
    cbn [andb].
    rewrite bool_decide_eq_false_2 by lia.
    change (with_mapping (mapping_of _) ?s) with s. apply wp_bind, wp_visit_set. apply wp_bind.
    set (e1 := with_invalid false (with_re_part false e0)).
    assert (E1 : with_re_part (moves c r e0) (with_invalid false e0) = with_re_part (negb (bool_decide (req_part r = partition_id n))) e1).
    { unfold moves. rewrite Hn. cbn. subst e1. replace (bool_decide (Some (req_part r) = Some (partition_id n)))
        with (bool_decide (req_part r = partition_id n)) by (apply bool_decide_ext; split; congruence). done. }
    rewrite E1. clear E1.
    pose proof (recount_bounds c r pre) as Hb. cbv zeta in Hb.
    set (mv := negb (bool_decide (req_part r = partition_id n))).
    assert (Hls : line_status c (with_re_part mv e1) = st) by (unfold line_status; change (me_coll_idx _) with (me_coll_idx e0); by rewrite Hst).
    destruct (decide (me_status e0 = LOOKUP_HIT)) as [Hh0|Hh0].
    + eapply (wp_update_hit block_4k line_size c r pre e1 post _ st n); try done.
      { exact (lf_bits _ _ _ _ _ _ _ _ _ _ HF). }
      rewrite (bool_decide_eq_true_2 (all_in _ _ (valid st))) by (by apply Hhit). fold mv.
      apply wp_ret. split; [done|]. f_equal. rewrite recount_snoc. cbv zeta. rewrite Hls.
      change (me_re_part (with_re_part mv e1)) with mv.
      replace (is_hit (with_re_part mv e1)) with true by (symmetry; by apply bool_decide_eq_true_2).
      replace (is_new (with_re_part mv e1)) with false by (symmetry; apply bool_decide_eq_false_2; change (me_status e0 <> LOOKUP_REMAPPED); by rewrite Hh0).
      cbn [andb]. etrans; [apply (counted_once_add true mv _ _ _ (recount c r pre))|].
      { rewrite !Forall_cons. split_and!; first [lia|cbn; lia|by constructor]. }
      cbn [negb Z.b2z]. f_equal; cbn; lia.
    + eapply (wp_update_other c r pre e1 post _ n); try done. fold mv.
      apply wp_ret. split; [done|]. f_equal. rewrite recount_snoc. cbv zeta. rewrite Hls.
      change (me_re_part (with_re_part mv e1)) with mv.
      replace (is_hit (with_re_part mv e1)) with false by (symmetry; by apply bool_decide_eq_false_2).
      cbn [andb]. etrans; [apply (counted_other_add _ mv _ (recount c r pre))|].
      { rewrite !Forall_cons. split_and!; first [lia|by constructor]. }
      cbn [Z.b2z]. rewrite !Z.add_0_r. done.
Qed.

(** ** The whole request *)

Lemma check_loop c β m σ r post : forall pre res,
  inv c β m σ ->
  (forall j e, post !! j = Some e -> me_status e <> LOOKUP_MISS -> entry_true c m r (length pre + j) e) ->
  (forall i, (length pre <= i < length pre + length post)%nat ->
     block_range block_4k line_size (start r (Z.of_nat i)) (stop r (Z.of_nat i))) ->
  Forall line_in_range pre -> Z.of_nat (length pre + length post) < 2 ^ 32 ->
  wp (check_lines block_4k line_size (Z.of_nat <$> seq (length pre) (length post)) res)
    (fun res' s => let es := pre ++ (rechecked c r <$> post) in res' = res /\ s = visit c r es (recount c r es))
    (visit c r (pre ++ post) (recount c r pre)).
Proof.
  induction post as [|e0 post IH]; intros pre res HI Ht Hr Hpre Hlen; cbn [length seq fmap list_fmap check_lines].
  - apply wp_ret. by rewrite app_nil_r.
  - cbn [length] in *. apply wp_bind.
    assert (Ht0 : me_status e0 <> LOOKUP_MISS -> entry_true c m r (length pre) e0).
    { intros Hs. specialize (Ht 0%nat e0 eq_refl Hs). by rewrite Nat.add_0_r in Ht. }
    eapply wp_mono; [eapply check_line_wp; [done|exact Ht0|apply Hr; lia|done|lia]|].
    intros ok s [-> ->]. set (e := rechecked c r e0).
    specialize (IH (pre ++ [e]) res HI). rewrite length_app, Nat.add_1_r in IH. cbn [length] in IH.
    rewrite <- !app_assoc in IH. apply IH; [|intros i Hi; apply Hr; lia| |lia].
    + intros j e' Hj Hs. replace (S (length pre) + j)%nat with (length pre + S j)%nat by lia. by apply Ht.
    + apply Forall_app. split; [done|]. constructor; [|constructor].
      assert (Hl : line_in_range e0) by (by eapply true_in_range).
      unfold line_in_range, is_found in *. subst e. unfold rechecked. by destruct (decide _).
Qed.

Lemma engine_check_wp c β m σ :
  inv c β m σ -> request_ok (request c) ->
  (forall i e, req_map (request c) !! i = Some e -> me_status e <> LOOKUP_MISS -> entry_true c m (request c) i e) ->
  let r := request c in
  let es := rechecked c r <$> req_map r in
  wp (ocf_engine_check block_4k line_size) (fun res c' => res = 0 /\ c' = visit c r es (recount c r es)) c.
Proof.
  intros HI Hok Ht r es. destruct (request_ok_lines block_4k _ r Hok) as (Hc & Hn & Hr).
  pose proof (ro_map _ r Hok) as Hm.
  apply wp_bind, wp_modify. apply wp_bind, wp_gets.
  change (core_line_last (request (with_request (ocf_req_clear_info (request c)) c))) with (core_line_last r).
  change (core_line_first (request (with_request (ocf_req_clear_info (request c)) c))) with (core_line_first r).
  replace (Z.to_nat (core_line_last r - core_line_first r + 1)) with (length (req_map r)) by lia.
  replace (with_request (ocf_req_clear_info (request c)) c) with (visit c r ([] ++ req_map r) (recount c r []))
    by (subst r; by destruct c as [? ? ? ? ? ? ? []]).
  eapply wp_mono.
  - apply (check_loop c β m σ r (req_map r) [] 0); [done| | |constructor|cbn; lia].
    + intros j e Hj Hs. by apply Ht.
    + cbn. intros i Hi. apply Hr. lia.
  - intros res s [-> ->]. by split.
Qed.
End EngineCheck.
