(* ===== verification/PartMove.v ===== *)
(** * Moving the lines of a request to its partition: [ocf_user_part_move]

    [src/utils/utils_user_part.c]: after a lookup the lines of a request that
    are in another partition than the request's are moved to it, with the
    counters of the core and the cleaning policy following. *)

From S2P Require Import Prelude Alock AlockProofs CacheLineLock Links Lru LruProofs Generator LruPart LruPartProofs.
From S2P Require Import Collision CollisionProofs Status StatusProofs Request RequestProofs.
From S2P Require Import CacheLine CacheLineProofs CacheLineSteps Engine EngineProofs.

Section PartMove.
Context {C : Type} `{!CleaningPolicy C}.
Context (block_4k : bool) (line_size : cache_line_size).
Abbreviation LM := (LM (C:=C)).

(** [ocf_eviction_repart], for the LRU policy. *)
Definition ocf_eviction_repart (line src_part dst_part : Z) : LM unit :=
  on_lru block_4k line_size (ocf_lru_repart line src_part dst_part).

(** The line of one entry, from partition [id_old] to [id_new]. *)
Definition move_line (line id_old id_new : Z) : LM unit :=
  dirty ← on_status (metadata_test_dirty block_4k line_size line);
  _ ← when dirty (ocf_cleaning_purge_cache_block line);
  _ ← ocf_eviction_repart line id_old id_new;
  core ← gets (fun c => req_core (request c));
  dirty ← on_status (metadata_test_dirty block_4k line_size line);
  _ ← when dirty (
        _ ← ocf_cleaning_set_hot_cache_line line;
        _ ← add_part_dirty 1 core id_new;
        add_part_dirty (-1) core id_old);
  _ ← add_part_cached 1 core id_new;
  add_part_cached (-1) core id_old.

Definition move_entry (i : Z) : LM unit :=
  entry ← map_entry_of i;
  if negb (me_re_part entry) then mret tt
  else
    let line := me_coll_idx entry in
    id_old ← on_lru (C:=C) block_4k line_size (ocf_metadata_get_partition_id line);
    id_new ← gets (fun c => req_part (request c));
    _ ← bug_on (bool_decide (id_old >= OCF_USER_IO_CLASS_MAX) || bool_decide (id_new >= OCF_USER_IO_CLASS_MAX));
    _ ← bug_on (bool_decide (me_status entry = LOOKUP_MISS));
    if bool_decide (id_old = id_new) then mret tt else move_line line id_old id_new.

Definition ocf_user_part_move : LM unit := for_each_line (C:=C) move_entry.

(** ** Proofs *)

Context (num_entries : Z).
Abbreviation inv := (cache_inv (C:=C) block_4k line_size num_entries).

(** A dirty test in the middle of an operation. *)
Lemma wp_test_line c x st (Q : bool -> cache C -> Prop) :
  statuses c !! x = Some st -> bits_ok block_4k line_size st ->
  Q (bool_decide (dirty st <> 0)) c -> wp (on_status (metadata_test_dirty block_4k line_size x)) Q c.
Proof.
  intros Hst Hb HQ. set (r := request c).
  assert (E : c = visit c r (req_map r) (info r)) by (subst r; by destruct c as [? ? ? ? ? ? ? []]).
  rewrite E in HQ |- *. by eapply wp_visit_dirty.
Qed.

(** What moving a line does to the counters of its partitions. *)
Definition shifted (r : core_runtime) (old new : Z) (po pn : part_counter) (st : map_status) : core_runtime :=
  let d := Z.b2z (nonzero Dirty st) in
  CoreRuntime (cached_clines r) (dirty_clines r) (dirty_since r)
    (<[old := PartCounter (pc_cached_clines po - 1) (pc_dirty_clines po - d)]>
      (<[new := PartCounter (pc_cached_clines pn + 1) (pc_dirty_clines pn + d)]> (part_counters r))).

(** Only the label of [x] differs, and it was [old]. *)
Record label_moved (c c' : cache C) (x old new : Z) (st : map_status) : Prop := {
  lm_status : statuses c !! x = Some st;
  lm_same : statuses c' = statuses c;
  lm_map : mapping_of c' = mapping_of c;
  lm_old : partition_id <$> nodes (lru c) !! x = Some old;
  lm_new : partition_id <$> nodes (lru c') !! x = Some new;
  lm_others y : y <> x -> partition_id <$> nodes (lru c') !! y = partition_id <$> nodes (lru c) !! y }.

Lemma label_part l x q part : partition_id <$> nodes l !! x = Some q -> of_part l part x = bool_decide (part = q).
Proof.
  unfold of_part. destruct (nodes l !! x) as [n|]; [|done]. intros [= <-]. by apply bool_decide_ext.
Qed.

Lemma count_moved c c' core x old new st what part :
  label_moved c c' x old new st ->
  count (counted what (fun y => of_core (mapping_of c) core y && of_part (lru c') part y)) (statuses c) =
  count (counted what (fun y => of_core (mapping_of c) core y && of_part (lru c) part y)) (statuses c)
    + (if of_core (mapping_of c) core x
       then Z.b2z (nonzero what st) * (Z.b2z (bool_decide (part = new)) - Z.b2z (bool_decide (part = old)))
       else 0).
Proof.
  intros [Hst Es Em Hold Hnew Hoth]. rewrite <- (insert_id (statuses c) x st) at 1 by done.
  rewrite (count_step (counted what (fun y => of_core (mapping_of c) core y && of_part (lru c) part y)) _ _ x st st)
    by (try done; intros y s Hy; unfold counted; by rewrite (of_part_ext c c' part y (Hoth y Hy))).
  unfold counted. rewrite (label_part _ _ _ _ Hold), (label_part _ _ _ _ Hnew).
  destruct (of_core _ _ _); cbn [andb]; [|cbn; lia].
  destruct (bool_decide (part = old)), (bool_decide (part = new)), (nonzero what st); cbn; lia.
Qed.

Lemma counts_moved_owner c c' core r x st old new po pn :
  counts c core r -> label_moved c c' x old new st -> of_core (mapping_of c) core x = true ->
  old <> new -> part_counters r !! old = Some po -> part_counters r !! new = Some pn -> valid st <> 0 ->
  counts c' core (shifted r old new po pn st).
Proof.
  intros (Hc & Hd & Hp) HL Hown Hne Hpo Hpn Hv.
  assert (Hval : nonzero Valid st = true) by by apply bool_decide_eq_true_2.
  pose proof (fun what part => count_moved c c' core x old new st what part HL) as Hcnt. rewrite Hown in Hcnt.
  unfold counts. rewrite (lm_same _ _ _ _ _ _ HL), (lm_map _ _ _ _ _ _ HL). split; [done|]. split; [done|].
  intros part p Hpart. cbv zeta. rewrite !Hcnt, Hval. cbn [shifted part_counters] in Hpart.
  destruct (decide (old = part)) as [<-|Ho].
  - rewrite lookup_insert_eq in Hpart. injection Hpart as <-. destruct (Hp _ _ Hpo) as [<- <-].
    rewrite (bool_decide_eq_false_2 (old = new)), (bool_decide_eq_true_2 (old = old)) by done. cbn. lia.
  - rewrite lookup_insert_ne in Hpart by done. destruct (decide (new = part)) as [<-|Hn].
    + rewrite lookup_insert_eq in Hpart. injection Hpart as <-. destruct (Hp _ _ Hpn) as [<- <-].
      rewrite (bool_decide_eq_false_2 (new = old)), (bool_decide_eq_true_2 (new = new)) by done. cbn. lia.
    + rewrite lookup_insert_ne in Hpart by done. destruct (Hp _ _ Hpart) as [<- <-].
      rewrite !bool_decide_eq_false_2 by done. cbn. lia.
Qed.

Lemma counts_moved_other c c' core r x st old new :
  counts c core r -> label_moved c c' x old new st -> of_core (mapping_of c) core x = false -> counts c' core r.
Proof.
  intros (Hc & Hd & Hp) HL Hown. unfold counts. rewrite (lm_same _ _ _ _ _ _ HL), (lm_map _ _ _ _ _ _ HL).
  split; [done|]. split; [done|]. intros part p Hpart. cbv zeta.
  rewrite !(count_moved c c' core x old new st _ part HL), Hown. destruct (Hp _ _ Hpart) as [<- <-]. lia.
Qed.

Lemma inv_relabel c c' β m σ ci x st n rt old new po pn d :
  inv c β m σ -> m !! ci = Some x -> line_facts block_4k line_size c σ (core_id ci) x st n rt po ->
  partition_id n = old -> old <> new -> 0 <= new < OCF_USER_IO_CLASS_MAX ->
  part_ready (lru_of block_4k line_size c) new ->
  part_counters rt !! new = Some pn -> valid st <> 0 -> line_dirty block_4k line_size st = d ->
  statuses c' = statuses c -> mapping_of c' = mapping_of c ->
  relabelled (lru_of block_4k line_size c) (lru_of block_4k line_size c') x new ->
  part_inv (lru_of block_4k line_size c') (moved x (line_key x d old) (line_key x d new) σ) ->
  cores c' = <[core_id ci := shifted rt old new po pn st]> (cores c) ->
  inv c' β m (moved x (line_key x d old) (line_key x d new) σ).
Proof.
  intros HI Hx HF Hold Hne Hnew Hrdy Hpn Hv Hd Es Em [Hlab Hoth Hdirty Hready] HL Ec.
  pose proof HF as [[Hst Hn Hu Hl Hr0] Hcr Hpo _ _ _]. subst old.
  destruct (mapped_owner _ _ _ _ _ _ _ _ _ HI Hx) as [Hmx Hown].
  assert (Hlab' : partition_id <$> nodes (lru c') !! x = Some new) by exact Hlab.
  assert (Hoth' : forall y, y <> x -> partition_id <$> nodes (lru c') !! y = partition_id <$> nodes (lru c) !! y)
    by exact Hoth.
  assert (HL' : label_moved c c' x (partition_id n) new st) by (split; try done; by rewrite Hn).
  split; rewrite ?Em, ?Es.
  - apply (ci_map _ _ _ _ _ _ _ HI).
  - apply (ci_entries _ _ _ _ _ _ _ HI).
  - done.
  - apply Hready, (ci_free _ _ _ _ _ _ _ HI).
  - apply (ci_line _ _ _ _ _ _ _ HI).
  - intros y Hy. destruct (ci_total _ _ _ _ _ _ _ HI y Hy) as [H1 H2]. split; [exact H1|].
    exact (relabelled_some (lru_of block_4k line_size c) (lru_of block_4k line_size c') x new y ltac:(by split) H2).
  - apply (ci_bits _ _ _ _ _ _ _ HI).
  - apply (ci_idle _ _ _ _ _ _ _ HI).
  - intros y n' Hn'. destruct (decide (y = x)) as [->|Hyx].
    + rewrite Hn' in Hlab'. injection Hlab' as ->. split; [|done].
      intros _. unfold PARTITION_FREELIST, OCF_USER_IO_CLASS_MAX in *. lia.
    + destruct (label_ext _ _ _ _ (Hoth' y Hyx) Hn') as (n0 & Hn0 & <-).
      by apply (ci_label _ _ _ _ _ _ _ HI).
  - intros y Hy. destruct (ci_home _ _ _ _ _ _ _ HI y Hy) as (s & n0 & [H1 H2 H3 H4 H5]).
    destruct (decide (y = x)) as [->|Hyx].
    + apply fmap_Some in Hlab' as (n1 & Hn1 & En). exists st, n1.
      split; rewrite <- ?En; try done; [by rewrite Es|rewrite Hd; apply moved_head|by apply Hready].
    + pose proof (Hoth' y Hyx) as Hly. rewrite H2 in Hly. apply fmap_Some in Hly as (n1 & Hn1 & En).
      exists s, n1. split; rewrite <- ?En; try done; [by rewrite Es|by apply moved_other|by apply Hready].
  - intros ci' y Hy. destruct (ci_owner _ _ _ _ _ _ _ HI ci' y Hy) as (? & r' & Hr' & Hps).
    split; [done|]. rewrite Ec. destruct (decide (core_id ci = core_id ci')) as [He|Hce]; [rewrite <- He in *|].
    + rewrite lookup_insert_eq. eexists. split; [done|]. intros q Hq. cbn.
      rewrite !lookup_insert_is_Some'. right; right. rewrite Hcr in Hr'. injection Hr' as ->. by apply Hps.
    + rewrite lookup_insert_ne by done. by exists r'.
  - intros core r'. rewrite Ec. destruct (decide (core_id ci = core)) as [<-|Hce].
    + rewrite lookup_insert_eq. intros [= <-].
      eapply counts_moved_owner; try done; [by apply (ci_counts _ _ _ _ _ _ _ HI)|].
      rewrite Hown. by apply bool_decide_eq_true_2.
    + rewrite lookup_insert_ne by done. intros Hr'.
      eapply counts_moved_other; try done; [by apply (ci_counts _ _ _ _ _ _ _ HI)|].
      rewrite Hown. by apply bool_decide_eq_false_2.
Qed.

(** ** The operation *)

Lemma wp_add_part (c : cache C) core r part p a b (f : part_counter -> part_counter) (Q : unit -> cache C -> Prop) ps :
  cores c !! core = Some r -> part_counters r = ps -> ps !! part = Some p -> f p = PartCounter a b ->
  Q tt (set_counters core (CoreRuntime (cached_clines r) (dirty_clines r) (dirty_since r)
          (<[part := PartCounter a b]> ps)) c) ->
  wp (set_part_counter core part f) Q c.
Proof. intros Hr <- Hp <- HQ. by eapply wp_set_part. Qed.

Definition part_small (p : part_counter) : Prop := 0 <= pc_cached_clines p < 2 ^ 29 /\ 0 <= pc_dirty_clines p < 2 ^ 29.

Lemma shift_counters_wp c core x r st old new po pn (Q : unit -> cache C -> Prop) :
  cores c !! core = Some r -> part_counters r !! old = Some po -> part_counters r !! new = Some pn ->
  part_small po -> part_small pn -> old <> new ->
  statuses c !! x = Some st -> bits_ok block_4k line_size st ->
  (forall cl, Q tt (set_counters core (shifted r old new po pn st) (with_cleaner cl c))) ->
  wp (dirty ← on_status (metadata_test_dirty block_4k line_size x);
      _ ← when dirty (
            _ ← ocf_cleaning_set_hot_cache_line x;
            _ ← add_part_dirty 1 core new;
            add_part_dirty (-1) core old);
      _ ← add_part_cached 1 core new;
      add_part_cached (-1) core old) Q c.
Proof.
  intros Hr Ho Hn [Ho1 Ho2] [Hn1 Hn2] Hne Hst Hb HQ. apply wp_bind. eapply wp_test_line; [exact Hst|done|].
  change (bool_decide (dirty st <> 0)) with (nonzero Dirty st). apply wp_bind.
  assert (Hcached : forall c2 r2 d, cores c2 !! core = Some r2 ->
    cached_clines r2 = cached_clines r -> dirty_clines r2 = dirty_clines r -> dirty_since r2 = dirty_since r ->
    d = Z.b2z (nonzero Dirty st) ->
    part_counters r2 !! new = Some (PartCounter (pc_cached_clines pn) (pc_dirty_clines pn + d)) ->
    part_counters r2 !! old = Some (PartCounter (pc_cached_clines po) (pc_dirty_clines po - d)) ->
    (forall q, q <> old -> q <> new -> part_counters r2 !! q = part_counters r !! q) ->
    Q tt (set_counters core (shifted r old new po pn st) c2) ->
    wp (_ ← add_part_cached 1 core new; add_part_cached (-1) core old) Q c2).
  { intros c2 r2 d Hr2 E1 E2 E3 -> Hn' Ho' Hoth HQ2. apply wp_bind.
    eapply wp_add_part; [exact Hr2|done|exact Hn'|cbn; by rewrite s32_small by lia|].
    eapply wp_add_part; [apply set_counters_lookup|done|cbn; rewrite lookup_insert_ne by done; exact Ho'
      |cbn; by rewrite s32_small by lia|].
    rewrite set_counters_twice. cbn [cached_clines dirty_clines dirty_since]. rewrite E1, E2, E3.
    match goal with |- Q tt (set_counters _ (CoreRuntime _ _ _ ?ps) _) =>
      replace ps with (part_counters (shifted r old new po pn st)) end; [exact HQ2|].
    apply map_eq. intros q. cbn. destruct (decide (q = old)) as [->|Hq]; [by rewrite !lookup_insert_eq|].
    rewrite !(lookup_insert_ne _ old) by done. destruct (decide (q = new)) as [->|Hq']; [by rewrite !lookup_insert_eq|].
    rewrite !lookup_insert_ne by done. symmetry. by apply Hoth. }
  destruct (nonzero Dirty st) eqn:Hd; cbn [when].
  - apply wp_bind, cleaning_op_wp. intros cl. apply wp_bind.
    eapply wp_add_part; [exact Hr|done|exact Hn|cbn; by rewrite s32_small by lia|].
    eapply wp_add_part; [apply set_counters_lookup|done|cbn; rewrite lookup_insert_ne by done; exact Ho
      |cbn; by rewrite s32_small by lia|].
    rewrite set_counters_twice.
    eapply (Hcached _ _ 1); [apply set_counters_lookup|done|done|done|done|..]; cbn [part_counters].
    + rewrite lookup_insert_ne by done. by rewrite lookup_insert_eq.
    + by rewrite lookup_insert_eq.
    + intros q H1 H2. by rewrite !lookup_insert_ne by done.
    + rewrite set_counters_twice. apply HQ.
  - eapply (Hcached c r 0); try done.
    + rewrite Z.add_0_r. by destruct pn.
    + rewrite Z.sub_0_r. by destruct po.
    + specialize (HQ (cleaner c)). by destruct c.
Qed.

(** What a move keeps: it only touches lists, labels, counters and the cleaner. *)
Definition same_data (c c' : cache C) : Prop :=
  statuses c' = statuses c /\ mapping_of c' = mapping_of c /\ request c' = request c /\ locks c' = locks c /\
  ready_kept block_4k line_size c c'.

(** The effect of moving line [x], counted or not. *)
Record line_moved (c c' : cache C) (σ : listing) (x core : Z) (d : bool) (old new : Z) (r : core_runtime)
    (po pn : part_counter) (st : map_status) : Prop := {
  mv_data : same_data c c';
  mv_lists : part_inv (lru_of block_4k line_size c') (moved x (line_key x d old) (line_key x d new) σ);
  mv_labels : relabelled (lru_of block_4k line_size c) (lru_of block_4k line_size c') x new;
  mv_cores : cores c' = <[core := shifted r old new po pn st]> (cores c) }.

Lemma move_line_run c β m σ ci x st n r po pn new :
  inv c β m σ -> m !! ci = Some x -> core_id ci = req_core (request c) ->
  line_facts block_4k line_size c σ (core_id ci) x st n r po ->
  0 <= new < OCF_USER_IO_CLASS_MAX -> part_ready (lru_of block_4k line_size c) new ->
  part_counters r !! new = Some pn -> partition_id n <> new ->
  wp (move_line x (partition_id n) new) (fun _ c' =>
    line_moved c c' σ x (core_id ci) (line_dirty block_4k line_size st) (partition_id n) new r po pn st) c.
Proof.
  intros HI Hx Hcore HF Hnew Hrdy Hpn Hne. pose proof HF as [[Hst Hn Hu Hl Hr0] Hcr Hpo Hb Hdv Hsm].
  set (old := partition_id n) in *. set (d := line_dirty block_4k line_size st) in *.
  assert (Hpsmall : forall q p, part_counters r !! q = Some p -> part_small p).
  { intros q p Hq. destruct (ci_counts _ _ _ _ _ _ _ HI _ _ Hcr) as (_ & _ & Hc).
    destruct (Hc q p Hq) as [E1 E2]. unfold part_small. rewrite E1, E2. split; by eapply count_small. }
  apply wp_bind. eapply wp_test_line; [exact Hst|done|]. apply wp_bind.
  assert (Hafter : forall cl, wp (_ ← ocf_eviction_repart x old new;
      core ← gets (fun c => req_core (request c));
      dirty ← on_status (metadata_test_dirty block_4k line_size x);
      _ ← when dirty (_ ← ocf_cleaning_set_hot_cache_line x; _ ← add_part_dirty 1 core new; add_part_dirty (-1) core old);
      _ ← add_part_cached 1 core new; add_part_cached (-1) core old)
    (fun _ c' => line_moved c c' σ x (core_id ci) d old new r po pn st) (with_cleaner cl c)).
  { intros cl. apply wp_bind, wp_on_lru. change (lru_of block_4k line_size (with_cleaner cl c)) with (lru_of block_4k line_size c).
    eapply wp_mono.
    { apply (repart_wp (lru_of block_4k line_size c) σ x d old new); [apply (ci_lru _ _ _ _ _ _ _ HI)|done|done| |done].
      cbn. by rewrite lookup_fmap, Hst. }
    intros [] s' [HL Hrel]. rewrite part_id_user in Hrel by lia. apply wp_bind, wp_gets. cbn [request with_cleaner put_lru with_lru].
    rewrite <- Hcore. eapply shift_counters_wp; try done; [by eapply Hpsmall..|]. intros cl'.
    set (c' := set_counters _ _ _).
    assert (E : lru_of block_4k line_size c' = s').
    { pose proof (rl_dirty _ _ _ _ Hrel) as Hd. cbn in Hd. unfold CacheLine.lru_of. cbn. rewrite <- Hd. by destruct s'. }
    split; rewrite ?E; try done. do 4 (split; [done|]). split; [rewrite E; apply (rl_ready _ _ _ _ Hrel)|].
    eapply cores_kept_set; [exact Hcr|]. intros q Hq. cbn. rewrite !lookup_insert_is_Some'. auto. }
  destruct (bool_decide _); cbn [when].
  - apply cleaning_op_wp. exact Hafter.
  - specialize (Hafter (cleaner c)). apply wp_ret. by destruct c.
Qed.

(** A line with a valid block is counted, and the invariant follows it. *)
Lemma move_line_wp c β m σ ci x st n new :
  inv c β m σ -> m !! ci = Some x -> core_id ci = req_core (request c) ->
  statuses c !! x = Some st -> valid st <> 0 -> nodes (lru c) !! x = Some n -> partition_id n <> new ->
  0 <= new < OCF_USER_IO_CLASS_MAX -> part_ready (lru_of block_4k line_size c) new ->
  wp (move_line x (partition_id n) new) (fun _ c' => same_data c c' /\ exists σ', inv c' β m σ' /\
    partition_id <$> nodes (lru c') !! x = Some new /\
    forall y, y <> x -> partition_id <$> nodes (lru c') !! y = partition_id <$> nodes (lru c) !! y) c.
Proof.
  intros HI Hx Hcore Hst Hv Hn Hne Hnew Hrdy.
  destruct (facts _ _ _ _ _ _ _ _ _ HI Hx) as (st0 & n0 & r & po & HF).
  assert (st0 = st) as -> by (pose proof (lh_status _ _ _ _ _ _ _ (lf_home _ _ _ _ _ _ _ _ _ _ HF)); congruence).
  assert (n0 = n) as -> by (pose proof (lh_node _ _ _ _ _ _ _ (lf_home _ _ _ _ _ _ _ _ _ _ HF)); congruence).
  destruct (ci_owner _ _ _ _ _ _ _ HI ci x Hx) as (_ & r1 & Hr1 & Hps).
  assert (r1 = r) as -> by (pose proof (lf_core _ _ _ _ _ _ _ _ _ _ HF); congruence).
  destruct (Hps new Hnew) as [pn Hpn].
  eapply wp_mono; [by eapply move_line_run|]. intros [] c' [Hd HL Hrel Ec]. split; [done|].
  destruct Hd as (Es & Em & _). eexists. split; [|split; [apply (rl_label _ _ _ _ Hrel)|apply (rl_others _ _ _ _ Hrel)]].
  by eapply (inv_relabel c c' β m σ ci x st n r _ new po pn).
Qed.

(** A line without valid blocks is counted nowhere, but the counters move all
    the same: afterwards those of its core are wrong. *)
Lemma move_line_uncounted c β m σ ci x st n r po pn new :
  inv c β m σ -> m !! ci = Some x -> core_id ci = req_core (request c) ->
  line_facts block_4k line_size c σ (core_id ci) x st n r po -> valid st = 0 ->
  0 <= new < OCF_USER_IO_CLASS_MAX -> part_ready (lru_of block_4k line_size c) new ->
  part_counters r !! new = Some pn -> partition_id n <> new ->
  wp (move_line x (partition_id n) new) (fun _ c' => exists r',
    cores c' !! core_id ci = Some r' /\ ~ counts c' (core_id ci) r') c.
Proof.
  intros HI Hx Hcore HF Hv Hnew Hrdy Hpn Hne.
  pose proof HF as [[Hst Hn Hu Hl Hr0] Hcr Hpo Hb Hdv Hsm].
  eapply wp_mono; [by eapply move_line_run|]. intros [] c' [(Es & Em & _) HL Hrel Ec].
  exists (shifted r (partition_id n) new po pn st). split; [by rewrite Ec, lookup_insert_eq|].
  intros (_ & _ & Hp). destruct (Hp new (PartCounter (pc_cached_clines pn + 1)
    (pc_dirty_clines pn + Z.b2z (nonzero Dirty st)))) as [Hc _].
  { cbn. by rewrite lookup_insert_ne, lookup_insert_eq. }
  destruct (ci_counts _ _ _ _ _ _ _ HI _ _ Hcr) as (_ & _ & Hp0). destruct (Hp0 new pn Hpn) as [Hc0 _].
  cbv zeta in Hc, Hc0. cbn [pc_cached_clines] in Hc. rewrite Es, Em in Hc.
  rewrite (count_moved c c' (core_id ci) x (partition_id n) new st) in Hc.
  - rewrite <- Hc0 in Hc. replace (nonzero Valid st) with false in Hc.
    + destruct (of_core _ _ _); cbn [Z.b2z] in Hc; lia.
    + symmetry. apply bool_decide_eq_false_2. cbn. rewrite Hv. by intros [].
  - split; try done; [by rewrite Hn|apply (rl_label _ _ _ _ Hrel)|apply (rl_others _ _ _ _ Hrel)].
Qed.

(** ** The request *)

(** An entry that is to be moved stands for a mapped line of the request's core
    with a valid block. *)
Definition movable (c : cache C) (m : gmap core_info Z) (e : map_entry) : Prop :=
  me_re_part e = true -> me_status e <> LOOKUP_MISS /\
  exists ci st, m !! ci = Some (me_coll_idx e) /\ core_id ci = req_core (request c) /\
    statuses c !! me_coll_idx e = Some st /\ valid st <> 0.

Definition lines_to_move (es : list map_entry) : list Z :=
  me_coll_idx <$> filter (fun e => me_re_part e = true) es.

(** The lines [xs] are labelled [new], the others as in [c]. *)
Definition labels_after (c c' : cache C) (xs : list Z) (new : Z) : Prop := forall y,
  partition_id <$> nodes (lru c') !! y =
  if decide (y ∈ xs) then Some new else partition_id <$> nodes (lru c) !! y.

Definition after_moves (c : cache C) β m (es : list map_entry) (c' : cache C) : Prop :=
  same_data c c' /\ (exists σ', inv c' β m σ') /\ labels_after c c' (lines_to_move es) (req_part (request c)).

Lemma same_data_refl c : same_data c c.
Proof. do 4 (split; [done|]). apply ready_kept_refl. Qed.

Lemma same_data_trans c1 c2 c3 : same_data c1 c2 -> same_data c2 c3 -> same_data c1 c3.
Proof.
  intros (A1 & A2 & A3 & A4 & A5) (B1 & B2 & B3 & B4 & B5).
  split_and!; [by rewrite B1|by rewrite B2|by rewrite B3|by rewrite B4|by eapply ready_kept_trans].
Qed.

Lemma lines_to_move_snoc es e :
  lines_to_move (es ++ [e]) = lines_to_move es ++ (if me_re_part e then [me_coll_idx e] else []).
Proof.
  unfold lines_to_move. rewrite filter_app, filter_cons, filter_nil, fmap_app.
  destruct (me_re_part e); by case_decide.
Qed.

Lemma move_entry_wp c c1 β m pre e post :
  req_map (request c) = pre ++ e :: post -> movable c m e ->
  0 <= req_part (request c) < OCF_USER_IO_CLASS_MAX ->
  part_ready (lru_of block_4k line_size c) (req_part (request c)) ->
  after_moves c β m pre c1 ->
  wp (move_entry (Z.of_nat (length pre))) (fun _ => after_moves c β m (pre ++ [e])) c1.
Proof.
  intros Ereq Hmov Hnew Hrdy (Hsame & (σ & HI) & Hlab). set (new := req_part (request c)) in *.
  pose proof Hsame as (Es & Em & Eq & El & Hready).
  apply wp_bind. eapply wp_entry; [lia|rewrite Nat2Z.id, Eq, Ereq; by rewrite list_lookup_middle|].
  unfold after_moves. rewrite lines_to_move_snoc. destruct (me_re_part e) eqn:Hre; cbn [negb].
  2:{ apply wp_ret. rewrite app_nil_r. split; [done|]. split; [by exists σ|done]. }
  destruct (Hmov Hre) as (Hst & ci & st & Hx & Hcore & Hs & Hv). set (x := me_coll_idx e) in *.
  destruct (facts _ _ _ _ _ _ _ _ _ HI Hx) as (st0 & n & r & p & HF).
  pose proof HF as [[Hst0 Hn Hu Hl Hr0] Hcr Hp Hb Hdv Hsm].
  assert (st0 = st) as -> by (rewrite Es in Hst0; congruence).
  apply wp_bind. eapply wp_partition; [exact Hn|]. apply wp_bind, wp_gets. rewrite Eq. fold new.
  apply wp_bind, wp_bug_on; [rewrite !bool_decide_eq_false_2 by lia; done|].
  apply wp_bind, wp_bug_on; [by apply bool_decide_eq_false_2|].
  case_bool_decide as Hid.
  - apply wp_ret. split; [done|]. split; [by exists σ|]. intros y. rewrite (Hlab y).
    destruct (decide (y ∈ lines_to_move pre)); [by rewrite decide_True by (apply elem_of_app; by left)|].
    destruct (decide (y = x)) as [->|Hne].
    + rewrite decide_True by (apply elem_of_app; right; left).
      pose proof (Hlab x) as Hlx. rewrite decide_False in Hlx by done. rewrite <- Hlx, Hn. cbn. by rewrite Hid.
    + rewrite decide_False; [done|]. rewrite elem_of_app, list_elem_of_singleton. naive_solver.
  - eapply wp_mono.
    { eapply (move_line_wp c1 β m σ ci x st n new); try done; [by rewrite Eq|by apply Hready]. }
    intros [] c2 (Hsame2 & σ2 & HI2 & Hlx & Hly). split; [by eapply same_data_trans|].
    split; [by exists σ2|]. intros y. destruct (decide (y = x)) as [->|Hne].
    + rewrite Hlx, decide_True; [done|]. apply elem_of_app. right. left.
    + rewrite (Hly y Hne), (Hlab y). apply decide_ext. rewrite elem_of_app, list_elem_of_singleton. naive_solver.
Qed.

End PartMove.

Lemma user_part_move_wp {C} `{!CleaningPolicy C} block_4k line_size num_entries (c : cache C) β m σ :
  cache_inv block_4k line_size num_entries c β m σ ->
  Z.of_nat (length (req_map (request c))) = core_line_count (request c) ->
  0 <= req_part (request c) < OCF_USER_IO_CLASS_MAX ->
  part_ready (lru_of block_4k line_size c) (req_part (request c)) ->
  (forall i e, req_map (request c) !! i = Some e -> movable c m e) ->
  wp (ocf_user_part_move block_4k line_size) (fun _ c' =>
    same_data block_4k line_size c c' /\
    (exists σ', cache_inv block_4k line_size num_entries c' β m σ') /\
    labels_after c c' (lines_to_move (req_map (request c))) (req_part (request c))) c.
Proof.
  intros HI Hlen Hnew Hrdy Hmov. apply wp_bind, wp_gets. rewrite <- Hlen, Nat2Z.id.
  set (es := req_map (request c)) in *.
  eapply wp_mono.
  - apply (wp_for _ _ (fun l => after_moves block_4k line_size num_entries c β m (take (length l) es))).
    + split; [apply same_data_refl|]. split; [by exists σ|]. intros y. by rewrite decide_False by apply not_elem_of_nil.
    + intros pre i post s El Hs.
      assert (Hi : i = Z.of_nat (length pre) /\ (length pre < length es)%nat).
      { assert (Hlk : (Z.of_nat <$> seq 0 (length es)) !! length pre = Some i) by (rewrite El; by rewrite list_lookup_middle).
        rewrite list_lookup_fmap in Hlk. apply fmap_Some in Hlk as (k & Hk & ->).
        apply lookup_seq in Hk as [-> Hk]. split; [done|lia]. }
      destruct Hi as [-> Hi]. destruct (lookup_lt_is_Some_2 es _ Hi) as [e He].
      rewrite length_app, Nat.add_1_r. rewrite (take_S_r _ _ _ He).
      assert (Hl : length (take (length pre) es) = length pre) by (rewrite length_take; lia).
      rewrite <- Hl at 1. eapply (move_entry_wp _ _ _ _ _ _ _ (take (length pre) es) e (drop (S (length pre)) es)); try done.
      * symmetry. by apply take_drop_middle.
      * by eapply Hmov.
  - intros [] c' Hc'. rewrite length_fmap, length_seq, firstn_all in Hc'. exact Hc'.
Qed.

(** C29. Moving a request's lines to its partition ([ocf_user_part_move]): when
    the entries marked by the lookup stand for mapped lines with a valid block,
    no assertion fails, exactly these lines get the label of the request's
    partition and move to its lists, clean and dirty ones apart, the counters of
    cached and dirty lines of both partitions follow, and nothing else changes. *)
Theorem user_part_move_labels {C} `{!CleaningPolicy C} block_4k line_size num_entries (c : cache C) β m σ :
  cache_inv block_4k line_size num_entries c β m σ ->
  Z.of_nat (length (req_map (request c))) = core_line_count (request c) ->
  0 <= req_part (request c) < OCF_USER_IO_CLASS_MAX ->
  part_ready (lru_of block_4k line_size c) (req_part (request c)) ->
  (forall i e, req_map (request c) !! i = Some e -> movable c m e) ->
  wp (ocf_user_part_move block_4k line_size) (fun _ c' =>
    same_data block_4k line_size c c' /\
    (exists σ', cache_inv block_4k line_size num_entries c' β m σ') /\
    labels_after c c' (lines_to_move (req_map (request c))) (req_part (request c))) c.
Proof. apply user_part_move_wp. Qed.

(** ** The sample cache: its line moves from partition 0 to partition 1 *)

Definition move_request : ocf_request :=
  Request 0 1 0 4096 0 0 1 [MapEntry (MapInfo 0 0 0 0 LOOKUP_HIT_INVALID) false true false 0 0] zero_info.

Lemma user_part_move_labels_witness : exists (c c' : cache unit),
  ocf_user_part_move false size_4 c = Some (tt, c') /\ partition_id <$> nodes (lru c') !! 0 = Some 1.
Proof.
  destruct line_cache_ready as (l & σ & HI & H1). set (c := with_request move_request (line_cache l)).
  assert (Hw := user_part_move_labels false size_4 1 c _ _ σ (inv_request _ _ _ _ _ _ _ move_request HI)
    eq_refl ltac:(cbn; unfold OCF_USER_IO_CLASS_MAX; lia) (H1 1 ltac:(done))). 
  rewrite wp_run in Hw. destruct Hw as ([] & c' & Hr & _ & _ & Hl).
  - intros i e He. destruct i as [|i]; [|by destruct i]. injection He as <-. intros _. split; [done|].
    exists (CoreInfo 0 0), (MapStatus 15 0). done.
  - exists c, c'. split; [done|]. by rewrite (Hl 0).
Defined.
