(* ===== verification/IndexList.v ===== *)
(** * Index-linked lists with a head entry: [src/utils/utils_list.c], [utils_list.h]

    The entries of a list live in a table of the client and are named by their
    index; the entry at index [invalid] is the head, which closes the list into
    a ring.  An entry that is on no list holds [OCF_LST_ENTRY_OUT] in both
    fields.  The client supplies the table and the comparison, which may change
    the client's state. *)

From S2P Require Import Prelude Links.

Record ocf_lst_entry := LstEntry { le_next : Z; le_prev : Z }.

Definition le_with_next (v : Z) (e : ocf_lst_entry) : ocf_lst_entry := LstEntry v (le_prev e).
Definition le_with_prev (v : Z) (e : ocf_lst_entry) : ocf_lst_entry := LstEntry (le_next e) v.

#[export] Instance lst_link_node :
  LinkNode le_prev le_next le_with_prev le_with_next (fun v => v).
Proof. by split. Qed.

(** [struct ocf_lst] with its two callbacks: the getter, which finds an entry
    in the client's table, and the comparison. *)
Class OcfLst (St : Type) := {
  lst_entries : St -> gmap Z ocf_lst_entry;
  lst_with_entries : gmap Z ocf_lst_entry -> St -> St;
  lst_invalid : Z;
  lst_cmp : option (Z -> Z -> M St Z)
}.

Section IndexList.
Context {St : Type} `{!OcfLst St}.
Abbreviation LM := (M St).

Definition OCF_LST_ENTRY_OUT : Z := lst_invalid + 1.

(** [lst->getter]: an index without entry is a bug. *)
Definition getter (idx : Z) : LM ocf_lst_entry := load (fun s => lst_entries s !! idx).
Definition next_of (idx : Z) : LM Z := e ← getter idx; mret (le_next e).
Definition prev_of (idx : Z) : LM Z := e ← getter idx; mret (le_prev e).

Definition on_entry (f : ocf_lst_entry -> ocf_lst_entry) (idx : Z) : LM unit :=
  modify (fun s => lst_with_entries (alter f idx (lst_entries s)) s).
Definition set_next (idx v : Z) : LM unit := on_entry (le_with_next v) idx.
Definition set_prev (idx v : Z) : LM unit := on_entry (le_with_prev v) idx.

Definition ocf_lst_init_entry (idx : Z) : LM unit :=
  _ ← set_prev idx OCF_LST_ENTRY_OUT; set_next idx OCF_LST_ENTRY_OUT.

(** One field out and the other not is a bug. *)
Definition ocf_lst_is_entry (idx : Z) : LM bool :=
  e ← getter idx;
  if bool_decide (le_next e = OCF_LST_ENTRY_OUT) && bool_decide (le_prev e = OCF_LST_ENTRY_OUT)
  then mret false
  else if bool_decide (le_next e < OCF_LST_ENTRY_OUT) && bool_decide (le_prev e < OCF_LST_ENTRY_OUT)
  then mret true
  else env_bug.

(** [OCF_LST_DBG_ON] only writes to the log, but it evaluates its condition. *)
Definition OCF_LST_DBG_ON (idx : Z) : LM unit := _ ← ocf_lst_is_entry idx; mret tt.

Definition ocf_lst_init : LM unit :=
  _ ← getter lst_invalid;
  _ ← set_next lst_invalid lst_invalid;
  _ ← set_prev lst_invalid lst_invalid;
  m_for (Z.of_nat <$> seq 0 (Z.to_nat lst_invalid)) (fun idx =>
    _ ← getter idx; ocf_lst_init_entry idx).

Definition ocf_lst_add_after (at_ idx : Z) : LM unit :=
  next ← next_of at_;
  _ ← getter next;
  _ ← getter idx;
  _ ← OCF_LST_DBG_ON idx;
  _ ← OCF_LST_DBG_ON at_;
  _ ← OCF_LST_DBG_ON next;
  n ← next_of at_;
  _ ← set_next idx n;
  _ ← set_prev idx at_;
  _ ← set_next at_ idx;
  set_prev next idx.

Definition ocf_lst_add_before (at_ idx : Z) : LM unit :=
  prev ← prev_of at_;
  _ ← getter prev;
  _ ← getter idx;
  _ ← OCF_LST_DBG_ON idx;
  _ ← OCF_LST_DBG_ON at_;
  _ ← OCF_LST_DBG_ON prev;
  _ ← set_next idx at_;
  p ← prev_of at_;
  _ ← set_prev idx p;
  _ ← set_prev at_ idx;
  set_next prev idx.

Definition ocf_lst_add (idx : Z) : LM unit :=
  _ ← getter idx;
  next ← next_of lst_invalid;
  _ ← getter next;
  _ ← OCF_LST_DBG_ON idx;
  _ ← OCF_LST_DBG_ON next;
  n ← next_of lst_invalid;
  _ ← set_next idx n;
  _ ← set_prev next idx;
  _ ← set_next lst_invalid idx;
  set_prev idx lst_invalid.

Definition ocf_lst_add_tail (idx : Z) : LM unit :=
  _ ← getter idx;
  prev ← prev_of lst_invalid;
  _ ← getter prev;
  _ ← OCF_LST_DBG_ON idx;
  _ ← OCF_LST_DBG_ON prev;
  _ ← set_next idx lst_invalid;
  p ← prev_of lst_invalid;
  _ ← set_prev idx p;
  _ ← set_next prev idx;
  set_prev lst_invalid idx.

Definition ocf_lst_del (idx : Z) : LM unit :=
  next ← next_of idx;
  prev ← prev_of idx;
  _ ← getter next;
  _ ← getter prev;
  _ ← OCF_LST_DBG_ON idx;
  _ ← OCF_LST_DBG_ON next;
  _ ← OCF_LST_DBG_ON prev;
  n ← next_of idx;
  _ ← set_next prev n;
  p ← prev_of idx;
  _ ← set_prev next p;
  ocf_lst_init_entry idx.

Definition ocf_lst_head : LM Z := next_of lst_invalid.
Definition ocf_lst_tail : LM Z := prev_of lst_invalid.

Definition ocf_lst_empty : LM bool :=
  n ← next_of lst_invalid; mret (bool_decide (n = lst_invalid)).

(** [for_each_lst]: the body gets the index and an accumulator, and breaks out
    of the loop with [inl]. *)
Fixpoint for_each_lst {A} (fuel : nat) (body : Z -> A -> LM (A + A)) (id : Z) (acc : A) : LM A :=
  match fuel with
  | O => env_bug
  | S fuel =>
    _ ← getter id;
    if bool_decide (id = lst_invalid) then mret acc
    else
      r ← body id acc;
      match r with
      | inl acc => mret acc
      | inr acc => id' ← next_of id; for_each_lst fuel body id' acc
      end
  end.

(** The first entry that the new one goes before; [lst_invalid] without one. *)
Definition find_pos (fuel : nat) (cmp : Z -> Z -> LM Z) (iter : Z) : LM Z :=
  first ← next_of lst_invalid;
  for_each_lst fuel (fun pos _ =>
    v ← cmp pos iter;
    mret (if bool_decide (v > 0) then inl pos else inr lst_invalid)) first lst_invalid.

Definition sort_place (fuel : nat) (cmp : Z -> Z -> LM Z) (iter : Z) : LM unit :=
  _ ← ocf_lst_init_entry iter;
  empty ← ocf_lst_empty;
  if (empty : bool) then ocf_lst_add iter
  else
    pos ← find_pos fuel cmp iter;
    if bool_decide (lst_invalid = pos) then ocf_lst_add_tail iter
    else ocf_lst_add_before pos iter.

Fixpoint sort_loop (search fuel : nat) (cmp : Z -> Z -> LM Z) (iter next : Z) : LM unit :=
  match fuel with
  | O => env_bug
  | S fuel =>
    if bool_decide (iter = lst_invalid) then mret tt
    else
      _ ← sort_place search cmp iter;
      next' ← next_of next;
      sort_loop search fuel cmp next next'
  end.

Definition ocf_lst_sort (fuel : nat) : LM unit :=
  match lst_cmp with
  | None => mret tt
  | Some cmp =>
    empty ← ocf_lst_empty;
    if (empty : bool) then mret tt
    else
      iter ← next_of lst_invalid;
      next ← next_of iter;
      _ ← getter next;
      _ ← set_next lst_invalid lst_invalid;
      _ ← set_prev lst_invalid lst_invalid;
      sort_loop fuel fuel cmp iter next
  end.
End IndexList.
