(* ===== verification/IndexListProofs.v ===== *)
(** * Index-linked lists: their meaning as sequences, and sorting

    The list in a table is a ring through the head entry; [listed] says which
    sequence of indices it holds.  Every operation is the expected operation on
    that sequence, and [ocf_lst_sort] sorts it by the client's order, whatever
    the comparison does to the client's state within [LstOrder]. *)

From stdpp Require Import sorting.
From S2P Require Import Prelude Links IndexList.
Open Scope Z_scope.

Abbreviation link_set_prev := (Links.link_set_prev le_with_prev le_with_next (fun v => v)).
Abbreviation link_set_next := (Links.link_set_next le_with_prev le_with_next (fun v => v)).

(** What a client of the lists owes to them: its table is a field of its state,
    and its comparison decides a strict total order on the entries that are
    [lst_ok], which neither the list operations nor the comparison change.
    [lst_touched] is what a comparison leaves behind at both of its entries. *)
Class LstOrder (St : Type) `{!OcfLst St} := {
  lst_entries_with es (s : St) : lst_entries (lst_with_entries es s) = es;
  lst_frame : St -> St -> Prop;
  #[global] lst_frame_preorder :: PreOrder lst_frame;
  lst_frame_entries es s : lst_frame s (lst_with_entries es s);
  lst_ok : St -> Z -> Prop;
  lst_ok_frame s s' x : lst_frame s s' -> lst_ok s x -> lst_ok s' x;
  lst_before : St -> Z -> Z -> Prop;
  lst_before_trans s : Transitive (lst_before s);
  lst_before_total s x y : x <> y -> lst_before s x y \/ lst_before s y x;
  lst_before_irrefl s x : ~ lst_before s x x;
  lst_before_frame s s' x y : lst_frame s s' -> lst_before s' x y <-> lst_before s x y;
  lst_touched : St -> Z -> Prop;
  lst_touched_frame s s' x : lst_frame s s' -> lst_touched s x -> lst_touched s' x;
  lst_cmp_spec cmp s x y : lst_cmp = Some cmp -> x <> y -> lst_ok s x -> lst_ok s y ->
    wp (cmp x y) (fun v s' => lst_entries s' = lst_entries s /\ lst_frame s s' /\
      (v > 0 <-> lst_before s y x) /\ lst_touched s' x /\ lst_touched s' y) s
}.

Lemma alter_swap (es : gmap Z ocf_lst_entry) f g a b :
  (forall e, f (g e) = g (f e)) -> alter f a (alter g b es) = alter g b (alter f a es).
Proof.
  intros Hc. destruct (decide (a = b)) as [->|Hne].
  - apply map_eq. intros i. rewrite !lookup_alter. repeat case_decide; try done.
    subst i. destruct (es !! b); cbn; by rewrite ?Hc.
  - apply map_eq. intros i. rewrite !lookup_alter. repeat case_decide; congruence.
Qed.

Section IndexListProofs.
Context {St : Type} `{!OcfLst St, !LstOrder St}.
Abbreviation n := lst_invalid.
Implicit Types (s : St) (l : list Z) (es : gmap Z ocf_lst_entry).

(** ** The ring *)

Definition ring es l : Prop := link le_prev le_next es n (l ++ [n]) (hdd n l).

Record listed s l : Prop := {
  ls_nodup : NoDup l;
  ls_range x : x ∈ l -> 0 <= x < n;
  ls_ring : ring (lst_entries s) l
}.

Definition out_entry : ocf_lst_entry := LstEntry OCF_LST_ENTRY_OUT OCF_LST_ENTRY_OUT.
Definition apart s x : Prop := lst_entries s !! x = Some out_entry.

(** The table holds the list [l] and nothing else. *)
Definition lst_holds s l : Prop :=
  listed s l /\ forall x, 0 <= x < n -> x ∉ l -> apart s x.

Lemma lst_holds_same s s' l : lst_entries s' = lst_entries s -> lst_holds s l -> lst_holds s' l.
Proof.
  intros E [[Hnd Hr H] Ho]. split; [split; [done|done|by rewrite E]|]. intros x Hx Hl. unfold apart. rewrite E. by apply Ho.
Qed.

Lemma hdd_in d l : hdd d l = d \/ hdd d l ∈ l.
Proof. destruct l; [by left|right; left]. Qed.

Lemma range_ends l : (forall x, x ∈ l -> 0 <= x < n) -> hdd n l <= n /\ lastd n l <= n.
Proof.
  intros H. split.
  - destruct (hdd_in n l) as [->|?%H]; lia.
  - destruct (lastd_in n l) as [->|?%H]; lia.
Qed.

(** The entries around a place of the list. *)
Lemma ring_gap es l1 l2 : ring es (l1 ++ l2) -> exists ea eb,
  es !! lastd n l1 = Some ea /\ le_next ea = hdd n l2 /\
  es !! hdd n l2 = Some eb /\ le_prev eb = lastd n l1.
Proof.
  unfold ring. intros H.
  assert (Ha : exists ea, es !! lastd n l1 = Some ea /\ le_next ea = hdd n l2).
  { destruct l1 as [|a l1 _] using rev_ind; [|rewrite lastd_snoc].
    - destruct (link_lookup _ _ _ _ [] _ H) as (e & He & _ & Hn). by exists e.
    - rewrite <- !app_assoc in H. cbn [app] in H.
      destruct (link_lookup _ _ _ _ _ _ H) as (e & He & _ & Hn). exists e. split; [done|].
      rewrite Hn. by destruct l2. }
  destruct Ha as (ea & Ha1 & Ha2).
  rewrite <- app_assoc in H. destruct l2 as [|b l2].
  - destruct (link_lookup _ _ _ _ _ _ H) as (eb & ? & ? & _). eauto 10.
  - destruct (link_lookup _ _ _ _ _ _ H) as (eb & ? & ? & _). eauto 10.
Qed.

Lemma ring_lookup es l x : ring es l -> (forall y, y ∈ l -> 0 <= y < n) -> x ∈ n :: l ->
  exists e, es !! x = Some e /\ le_next e <= n /\ le_prev e <= n.
Proof.
  intros H Hr [->|Hx]%elem_of_cons.
  - destruct (link_lookup _ _ _ _ [] _ H) as (e & He & Hp & Hn). destruct (range_ends l Hr). exists e.
    split; [done|]. rewrite Hp, Hn. done.
  - apply list_elem_of_split in Hx as (l1 & l2 & ->).
    destruct (range_ends l1) as [_ ?]; [intros y ?; apply Hr, elem_of_app; by left|].
    destruct (range_ends l2) as [? _]; [intros y ?; apply Hr, elem_of_app; right; by right|].
    unfold ring in H. rewrite <- app_assoc in H.
    destruct (link_lookup _ _ _ _ (l2 ++ [n]) _ H) as (e & He & Hp & Hn). exists e.
    split; [done|]. rewrite Hp, Hn. destruct l2; cbn in *; auto with lia.
Qed.

(** [x] linked in between its neighbours [a] and [b]. *)
Definition linked_in es (a x b : Z) : gmap Z ocf_lst_entry :=
  alter (le_with_next x) a (alter (le_with_prev x) b (alter (le_with_prev a) x (alter (le_with_next b) x es))).

Lemma ring_insert es l1 x l2 :
  NoDup (l1 ++ l2) -> (forall y, y ∈ l1 ++ l2 -> 0 <= y < n) -> x ∉ n :: l1 ++ l2 ->
  is_Some (es !! x) -> ring es (l1 ++ l2) ->
  ring (linked_in es (lastd n l1) x (hdd n l2)) (l1 ++ x :: l2).
Proof.
  intros Hnd Hr [Hxn Hx]%not_elem_of_cons [e He] H. unfold linked_in.
  set (es1 := alter _ x (alter _ x es)).
  assert (H1 : ring es1 (l1 ++ l2)).
  { apply link_alter_out, link_alter_out; [..|exact H]; rewrite elem_of_app, list_elem_of_singleton; naive_solver. }
  assert (E1 : es1 !! x = Some (LstEntry (hdd n l2) (lastd n l1))).
  { unfold es1. by rewrite !lookup_alter_eq, He. }
  clearbody es1. clear H He e.
  assert (Hnl : n ∉ l1 ++ l2) by (intros ?%Hr; lia).
  apply not_elem_of_app in Hx as [Hx1 Hx2]. apply not_elem_of_app in Hnl as [Hn1 Hn2].
  apply NoDup_app in Hnd as (Hd1 & H12 & Hd2).
  unfold ring in *. rewrite <- !app_assoc in *.
  apply link_app in H1 as [Hl1 Hl2]. set (a := lastd n l1) in *. set (b := hdd n l2) in *.
  assert (Hb : exists r, l2 ++ [n] = b :: r /\ b ∉ r).
  { destruct l2 as [|b' l2]; [exists []; split; [done|apply not_elem_of_nil]|]. exists (l2 ++ [n]). split; [done|].
    apply NoDup_cons in Hd2 as [Hd2 _]. rewrite elem_of_app, list_elem_of_singleton. intros [?|H]; [done|].
    apply Hn2. rewrite <- H. apply list_elem_of_here. }
  destruct Hb as (r & Er & Hbr). rewrite Er in *.
  assert (Hbl1 : b ∉ l1).
  { intros Hb. destruct (hdd_in n l2) as [E|E]; unfold b in *; [rewrite E in Hb; done|by apply (H12 _ Hb)]. }
  assert (Hbx : b <> x).
  { intros <-. destruct (hdd_in n l2) as [E|E]; unfold b in *; [congruence|done]. }
  set (es2 := alter (le_with_prev x) b es1).
  apply (link_set_prev _ _ x) in Hl2; [|done]. cbn beta in Hl2. fold es2 in Hl2.
  assert (Hl1' : link le_prev le_next es2 n l1 b).
  { apply link_alter_out; [done|]. cbn [hdd List.hd_error] in Hl1. exact Hl1. }
  assert (E2 : es2 !! x = Some (LstEntry b a)) by (unfold es2; by rewrite lookup_alter_ne).
  clearbody es2. clear Hl1 E1 es1.
  unfold a in *. destruct l1 as [|a' l1 _] using rev_ind.
  - change (lastd n []) with n in *. cbn [app link]. split.
    + exists (LstEntry b n). rewrite lookup_alter_ne by congruence. split; [done|]. split; [done|].
      unfold b. by destruct l2.
    + rewrite <- Er in Hl2. apply (link_set_next _ _ x) in Hl2; [exact Hl2|done].
  - rewrite lastd_snoc in *.
    assert (Ha' : a' ∈ l1 ++ [a']) by (rewrite elem_of_app; right; left).
    assert (Ha2 : a' ∉ b :: r).
    { rewrite <- Er, elem_of_app, list_elem_of_singleton. intros [E|E]; [by apply (H12 a')|by subst]. }
    apply link_app. split.
    + cbn [hdd List.hd_error app]. eapply (link_set_next _ _ x); [|exact Hl1'].
      apply NoDup_app in Hd1 as (_ & Hd1 & _). intros E. apply (Hd1 a' E). left.
    + rewrite lastd_snoc. cbn [app link]. split.
      * exists (LstEntry b a'). rewrite lookup_alter_ne by (intros ->; done). split; [done|]. split; [done|].
        unfold b. by destruct l2.
      * rewrite Er. apply link_alter_out; [done|]. replace (hdd n ((l1 ++ [a']) ++ x :: l2)) with (hdd n ((l1 ++ [a']) ++ l2)) by (by destruct l1).
        exact Hl2.
Qed.

Lemma ring_remove es l1 x l2 :
  NoDup (l1 ++ x :: l2) -> (forall y, y ∈ l1 ++ x :: l2 -> 0 <= y < n) -> ring es (l1 ++ x :: l2) ->
  ring (alter (le_with_prev (lastd n l1)) (hdd n l2) (alter (le_with_next (hdd n l2)) (lastd n l1) es)) (l1 ++ l2).
Proof.
  intros Hnd Hr H.
  assert (Hn : n ∉ l1 ++ x :: l2) by (intros ?%Hr; lia).
  assert (Hnd' : NoDup (l1 ++ x :: l2 ++ [n])).
  { change (x :: l2 ++ [n]) with ((x :: l2) ++ [n]). rewrite app_assoc. apply NoDup_app. split; [done|].
    split; [intros y Hy; rewrite list_elem_of_singleton; by intros ->|apply NoDup_singleton]. }
  unfold ring in H. rewrite <- app_assoc in H. cbn [app] in H.
  pose proof (Links.link_remove le_with_prev le_with_next (fun v => v) _ _ _ _ _ _ Hnd' H eq_refl eq_refl) as R.
  cbv zeta in R. unfold ring. rewrite <- app_assoc.
  assert (Eb : hdd (hdd n (l1 ++ x :: l2)) (l2 ++ [n]) = hdd n l2) by (by destruct l2).
  rewrite Eb in R. clear Eb.
  assert (E2 : exists r, l2 ++ [n] = hdd n l2 :: r) by (destruct l2; eexists; reflexivity).
  destruct E2 as [r Er]. rewrite Er in *.
  destruct l1 as [|a l1 _] using rev_ind.
  - cbn [last app hdd List.hd_error] in *. change (lastd n []) with n in *.
    rewrite alter_swap by done. rewrite <- Er in *. apply (link_set_next _ _ (hdd n l2)) in R; [exact R|].
    intros ?. apply Hn. by right.
  - rewrite last_snoc in R. rewrite lastd_snoc in *.
    replace (hdd n ((l1 ++ [a]) ++ l2)) with (hdd n ((l1 ++ [a]) ++ x :: l2)) by (by destruct l1).
    exact R.
Qed.

(** ** One operation *)

Lemma wp_lst_entry s i e (Q : ocf_lst_entry -> St -> Prop) :
  lst_entries s !! i = Some e -> Q e s -> wp (getter i) Q s.
Proof. intros He HQ. by eapply wp_load. Qed.

Lemma wp_next s i e (Q : Z -> St -> Prop) :
  lst_entries s !! i = Some e -> Q (le_next e) s -> wp (next_of i) Q s.
Proof. intros He HQ. apply wp_bind. by eapply wp_lst_entry. Qed.

Lemma wp_prev s i e (Q : Z -> St -> Prop) :
  lst_entries s !! i = Some e -> Q (le_prev e) s -> wp (prev_of i) Q s.
Proof. intros He HQ. apply wp_bind. by eapply wp_lst_entry. Qed.

Lemma wp_on_entry s f i (Q : unit -> St -> Prop) :
  (forall s', lst_entries s' = alter f i (lst_entries s) -> lst_frame s s' -> Q tt s') -> wp (on_entry f i) Q s.
Proof. intros HQ. apply wp_modify, HQ; [apply lst_entries_with|apply lst_frame_entries]. Qed.

Lemma wp_dbg_out s i (Q : unit -> St -> Prop) :
  apart s i -> Q tt s -> wp (OCF_LST_DBG_ON i) Q s.
Proof.
  intros He HQ. apply wp_bind, wp_bind. eapply wp_lst_entry; [exact He|]. cbn [out_entry le_next le_prev].
  rewrite !bool_decide_eq_true_2 by done. by apply wp_ret, wp_ret.
Qed.

Lemma wp_dbg_in s i e (Q : unit -> St -> Prop) :
  lst_entries s !! i = Some e -> le_next e <= n -> le_prev e <= n -> Q tt s -> wp (OCF_LST_DBG_ON i) Q s.
Proof.
  intros He H1 H2 HQ. unfold OCF_LST_DBG_ON, ocf_lst_is_entry, OCF_LST_ENTRY_OUT.
  apply wp_bind, wp_bind. eapply wp_lst_entry; [exact He|].
  rewrite bool_decide_eq_false_2 by lia. cbn [andb].
  rewrite !bool_decide_eq_true_2 by lia. by apply wp_ret, wp_ret.
Qed.

(** The place between [a] and [b] is free for the entry [x]. *)
Record gap s (a x b : Z) : Prop := {
  gp_x : apart s x;
  gp_xa : x <> a;
  gp_xb : x <> b;
  gp_a : exists e, lst_entries s !! a = Some e /\ le_next e = b /\ le_prev e <= n /\ b <= n;
  gp_b : exists e, lst_entries s !! b = Some e /\ le_prev e = a /\ le_next e <= n /\ a <= n
}.

Lemma listed_gap s l1 x l2 :
  listed s (l1 ++ l2) -> apart s x -> x ∉ n :: l1 ++ l2 -> gap s (lastd n l1) x (hdd n l2).
Proof.
  intros [Hnd Hr H] Hx [Hxn Hxl]%not_elem_of_cons.
  destruct (ring_gap _ _ _ H) as (ea & eb & Ha & Hab & Hb & Hba).
  assert (Hia : lastd n l1 ∈ n :: l1 ++ l2).
  { destruct (lastd_in n l1) as [->|?]; [left|right; apply elem_of_app; by left]. }
  assert (Hib : hdd n l2 ∈ n :: l1 ++ l2).
  { destruct (hdd_in n l2) as [->|?]; [left|right; apply elem_of_app; by right]. }
  assert (Hle : forall y, y ∈ n :: l1 ++ l2 -> y <= n /\ y <> x).
  { intros y [->|Hy]%elem_of_cons; [by split|]. split; [apply Hr in Hy; lia|by intros ->]. }
  destruct (Hle _ Hia) as [? ?], (Hle _ Hib) as [? ?].
  destruct (ring_lookup _ _ _ H Hr Hia) as (ea' & Ha' & ? & ?).
  destruct (ring_lookup _ _ _ H Hr Hib) as (eb' & Hb' & ? & ?).
  simplify_map_eq. split; try done; eauto 10.
Qed.

(** What insertion between [a] and [b] leaves. *)
Definition inserted s (a x b : Z) (s' : St) : Prop :=
  lst_entries s' = linked_in (lst_entries s) a x b /\ lst_frame s s'.

(** Symbolic execution of the list code: reads of known entries, checks and
    writes, whose equations and frames accumulate. *)
Ltac lst_read H := eapply wp_next + eapply wp_prev + eapply wp_lst_entry; [exact H|].
Ltac lst_write E F := apply wp_on_entry; intros ? E F.
Ltac lst_dbg_in H := eapply wp_dbg_in; [exact H|lia..|].
Ltac frames := repeat (etrans; [eassumption|]); reflexivity.

Lemma add_before_run s a x b :
  gap s a x b -> wp (ocf_lst_add_before b x) (fun _ => inserted s a x b) s.
Proof.
  intros [Hx Hxa Hxb (ea & Ha & Hab & Hpa & ?) (eb & Hb & Hba & Hnb & ?)]. unfold ocf_lst_add_before.
  apply wp_bind. lst_read Hb. rewrite Hba. apply wp_bind. lst_read Ha. apply wp_bind. lst_read Hx.
  apply wp_bind, wp_dbg_out; [done|]. apply wp_bind. lst_dbg_in Hb. apply wp_bind. lst_dbg_in Ha.
  apply wp_bind. lst_write E1 F1. apply wp_bind. eapply wp_prev.
  { rewrite E1, lookup_alter_ne; [exact Hb|done]. }
  rewrite Hba. apply wp_bind. lst_write E2 F2. apply wp_bind. lst_write E3 F3. lst_write E4 F4.
  split; [|frames]. unfold linked_in. congruence.
Qed.

Lemma add_after_run s a x b :
  gap s a x b -> wp (ocf_lst_add_after a x) (fun _ => inserted s a x b) s.
Proof.
  intros [Hx Hxa Hxb (ea & Ha & Hab & Hpa & ?) (eb & Hb & Hba & Hnb & ?)]. unfold ocf_lst_add_after.
  apply wp_bind. lst_read Ha. rewrite Hab. apply wp_bind. lst_read Hb. apply wp_bind. lst_read Hx.
  apply wp_bind, wp_dbg_out; [done|]. apply wp_bind. lst_dbg_in Ha. apply wp_bind. lst_dbg_in Hb.
  apply wp_bind. lst_read Ha. rewrite Hab.
  apply wp_bind. lst_write E1 F1. apply wp_bind. lst_write E2 F2. apply wp_bind. lst_write E3 F3. lst_write E4 F4.
  split; [|frames]. unfold linked_in. rewrite alter_swap by done. congruence.
Qed.

Lemma add_run s x b : gap s n x b -> wp (ocf_lst_add x) (fun _ => inserted s n x b) s.
Proof.
  intros [Hx Hxa Hxb (ea & Ha & Hab & Hpa & ?) (eb & Hb & Hba & Hnb & ?)]. unfold ocf_lst_add.
  apply wp_bind. lst_read Hx. apply wp_bind. lst_read Ha. rewrite Hab. apply wp_bind. lst_read Hb.
  apply wp_bind, wp_dbg_out; [done|]. apply wp_bind. lst_dbg_in Hb.
  apply wp_bind. lst_read Ha. rewrite Hab.
  apply wp_bind. lst_write E1 F1. apply wp_bind. lst_write E2 F2. apply wp_bind. lst_write E3 F3. lst_write E4 F4.
  split; [|frames]. unfold linked_in. rewrite E4, E3, E2, E1.
  assert (Hne : forall (es : gmap Z ocf_lst_entry) f g i, x <> i -> alter f x (alter g i es) = alter g i (alter f x es)).
  { intros es f g i Hi. apply map_eq. intros j. rewrite !lookup_alter. repeat case_decide; congruence. }
  by rewrite (Hne _ _ _ n), (Hne _ _ _ b).
Qed.

Lemma add_tail_run s a x : gap s a x n -> wp (ocf_lst_add_tail x) (fun _ => inserted s a x n) s.
Proof.
  intros [Hx Hxa Hxb (ea & Ha & Hab & Hpa & ?) (eb & Hb & Hba & Hnb & ?)]. unfold ocf_lst_add_tail.
  apply wp_bind. lst_read Hx. apply wp_bind. lst_read Hb. rewrite Hba. apply wp_bind. lst_read Ha.
  apply wp_bind, wp_dbg_out; [done|]. apply wp_bind. lst_dbg_in Ha.
  apply wp_bind. lst_write E1 F1. apply wp_bind. eapply wp_prev.
  { rewrite E1, lookup_alter_ne; [exact Hb|done]. }
  rewrite Hba. apply wp_bind. lst_write E2 F2. apply wp_bind. lst_write E3 F3. lst_write E4 F4.
  split; [|frames]. unfold linked_in. rewrite alter_swap by done. congruence.
Qed.

(** The list after an insertion. *)
Lemma inserted_listed s l1 x l2 s' :
  listed s (l1 ++ l2) -> apart s x -> 0 <= x < n -> x ∉ l1 ++ l2 ->
  inserted s (lastd n l1) x (hdd n l2) s' ->
  listed s' (l1 ++ x :: l2) /\ lst_frame s s' /\
  forall y, y ∉ n :: l1 ++ x :: l2 -> lst_entries s' !! y = lst_entries s !! y.
Proof.
  intros [Hnd Hr H] Hx Hxr Hxl [Es Hf]. split; [|split; [done|]].
  - split.
    + rewrite <- Permutation_middle. by apply NoDup_cons.
    + intros y Hy. apply elem_of_app in Hy as [Hy|[->|Hy]%elem_of_cons]; [|done|];
        apply Hr, elem_of_app; tauto.
    + rewrite Es. apply ring_insert; try done.
      rewrite elem_of_cons. intros [?|?]; [lia|done].
  - intros y Hy. rewrite Es. unfold linked_in.
    assert (Hyx : y <> x /\ y <> lastd n l1 /\ y <> hdd n l2).
    { destruct (lastd_in n l1), (hdd_in n l2); split_and!; intros ->; apply Hy;
        rewrite ?elem_of_cons, ?elem_of_app, ?elem_of_cons; tauto. }
    destruct Hyx as (? & ? & ?). by rewrite !lookup_alter_ne.
Qed.

Lemma insert_wp (m : M St unit) s l1 x l2 :
  (gap s (lastd n l1) x (hdd n l2) -> wp m (fun _ => inserted s (lastd n l1) x (hdd n l2)) s) ->
  listed s (l1 ++ l2) -> apart s x -> 0 <= x < n -> x ∉ l1 ++ l2 ->
  wp m (fun _ s' => listed s' (l1 ++ x :: l2) /\ lst_frame s s' /\
    forall y, y ∉ n :: l1 ++ x :: l2 -> lst_entries s' !! y = lst_entries s !! y) s.
Proof.
  intros Hm HL Hx Hr Hl. eapply wp_mono.
  - apply Hm, listed_gap; try done. rewrite elem_of_cons. intros [?|?]; [lia|done].
  - intros [] s' Hs'. by eapply inserted_listed.
Qed.

Lemma init_entry_wp s x :
  is_Some (lst_entries s !! x) -> wp (ocf_lst_init_entry x) (fun _ s' =>
    apart s' x /\ lst_frame s s' /\ forall y, y <> x -> lst_entries s' !! y = lst_entries s !! y) s.
Proof.
  intros [e He]. apply wp_bind. lst_write E1 F1. lst_write E2 F2. split; [|split; [frames|]].
  - unfold apart. rewrite E2, lookup_alter_eq, E1, lookup_alter_eq, He. done.
  - intros y Hy. rewrite E2, lookup_alter_ne, E1, lookup_alter_ne by done. done.
Qed.

Lemma del_wp s l1 x l2 :
  listed s (l1 ++ x :: l2) -> wp (ocf_lst_del x) (fun _ s' =>
    listed s' (l1 ++ l2) /\ lst_frame s s' /\ apart s' x /\
    forall y, y ∉ n :: l1 ++ x :: l2 -> lst_entries s' !! y = lst_entries s !! y) s.
Proof.
  intros [Hnd Hr H]. set (a := lastd n l1). set (b := hdd n l2).
  assert (Hin : forall y, y ∈ n :: l1 ++ l2 -> y ∈ n :: l1 ++ x :: l2 /\ y <> x).
  { intros y Hy. split.
    - rewrite elem_of_cons, elem_of_app in *. rewrite elem_of_cons. tauto.
    - intros ->. apply elem_of_cons in Hy as [->|Hy]; [|by apply nodup_pivot in Hnd].
      enough (0 <= n < n) by lia. apply Hr, elem_of_app. right. left. }
  assert (Ha : a ∈ n :: l1 ++ l2) by (unfold a; destruct (lastd_in n l1) as [->|?]; [left|right; apply elem_of_app; by left]).
  assert (Hb : b ∈ n :: l1 ++ l2) by (unfold b; destruct (hdd_in n l2) as [->|?]; [left|right; apply elem_of_app; by right]).
  apply Hin in Ha as [Ha Hax], Hb as [Hb Hbx].
  destruct (ring_lookup _ _ _ H Hr Ha) as (ea & Ea & ? & ?), (ring_lookup _ _ _ H Hr Hb) as (eb & Eb & ? & ?).
  assert (Hx : exists e, lst_entries s !! x = Some e /\ le_prev e = a /\ le_next e = b).
  { unfold ring in H. rewrite <- app_assoc in H. destruct (link_lookup _ _ _ _ (l2 ++ [n]) _ H) as (e & ? & ? & Hn).
    exists e. split; [done|]. split; [done|]. rewrite Hn. by destruct l2. }
  destruct Hx as (e & Ex & Hpa & Hnb).
  assert (a <= n /\ b <= n) as [? ?].
  { destruct (range_ends l1) as [_ ?]; [intros y ?; apply Hr, elem_of_app; by left|].
    destruct (range_ends l2) as [? _]; [intros y ?; apply Hr, elem_of_app; right; by right|]. done. }
  unfold ocf_lst_del. apply wp_bind. lst_read Ex. rewrite Hnb. apply wp_bind. lst_read Ex. rewrite Hpa.
  apply wp_bind. lst_read Eb. apply wp_bind. lst_read Ea.
  apply wp_bind. lst_dbg_in Ex. apply wp_bind. lst_dbg_in Eb. apply wp_bind. lst_dbg_in Ea.
  apply wp_bind. lst_read Ex. rewrite Hnb. apply wp_bind. lst_write E1 F1.
  assert (Ex1 : lst_entries s' !! x = Some e) by (by rewrite E1, lookup_alter_ne).
  apply wp_bind. lst_read Ex1. rewrite Hpa. apply wp_bind. lst_write E2 F2.
  eapply wp_mono; [apply init_entry_wp; rewrite E2, lookup_alter_ne by done; by eexists|].
  intros [] s3 (Hout & F3 & E3). rewrite E1 in E2.
  assert (Hring := ring_remove _ _ _ _ Hnd Hr H). fold a b in Hring. rewrite <- E2 in Hring.
  assert (Hx : x ∉ n :: l1 ++ l2) by (intros Hx; by apply Hin in Hx as [_ ?]).
  apply not_elem_of_cons in Hx as [Hxn Hx].
  split; [split|split; [frames|split; [done|]]].
  - rewrite <- Permutation_middle in Hnd. by apply NoDup_cons in Hnd as [_ ?].
  - intros y Hy. apply Hr. rewrite elem_of_app in *. rewrite elem_of_cons. tauto.
  - eapply link_frame; [|exact Hring]. intros y Hy. apply E3. intros ->.
    apply elem_of_app in Hy as [?|?%list_elem_of_singleton]; done.
  - intros y Hy. assert (y <> x /\ y <> a /\ y <> b) as (? & ? & ?).
    { split_and!; intros ->; try done. apply Hy, elem_of_cons. right. apply elem_of_app. right. left. }
    rewrite E3, E2, !lookup_alter_ne; done.
Qed.

Definition table_total s : Prop := forall x, 0 <= x <= n -> is_Some (lst_entries s !! x).

Lemma init_wp s : 0 <= n -> table_total s -> wp ocf_lst_init (fun _ s' => lst_holds s' [] /\ lst_frame s s') s.
Proof.
  intros Hn Ht. unfold ocf_lst_init. destruct (Ht n) as [e He]; [lia|].
  apply wp_bind. lst_read He. apply wp_bind. lst_write E1 F1. apply wp_bind. lst_write E2 F2.
  eapply wp_mono; [apply (wp_for _ _ (fun done s2 =>
    lst_frame s s2 /\ lst_entries s2 !! n = Some (LstEntry n n) /\ table_total s2 /\
    forall x, x ∈ done -> apart s2 x))|].
  - split; [frames|]. rewrite E2, lookup_alter_eq, E1, lookup_alter_eq, He. split; [done|].
    split; [|intros x []%not_elem_of_nil]. intros x Hx. rewrite E2, E1, !lookup_alter_is_Some. by apply Ht.
  - intros pre i post s2 El (F & Hh & Ht2 & Hd).
    assert (Hi : 0 <= i < n).
    { assert (Hin : i ∈ Z.of_nat <$> seq 0 (Z.to_nat n)) by (rewrite El, elem_of_app; right; left).
      apply list_elem_of_fmap in Hin as (k & -> & Hk%elem_of_seq). lia. }
    destruct (Ht2 i) as [ei Hei]; [lia|]. apply wp_bind. lst_read Hei.
    eapply wp_mono; [by apply init_entry_wp|]. intros [] s3 (Ho & F3 & E3). split; [frames|].
    rewrite E3 by lia. split; [done|]. split.
    + intros x Hx. destruct (decide (x = i)) as [->|Hne]; [by rewrite Ho|]. rewrite E3 by done. by apply Ht2.
    + intros x [Hx| ->%list_elem_of_singleton]%elem_of_app; [|done].
      destruct (decide (x = i)) as [->|Hne]; [done|]. unfold apart. rewrite E3 by done. by apply Hd.
  - intros [] s2 (F & Hh & _ & Hd). split; [|done]. split.
    + split; [constructor|intros x []%not_elem_of_nil|]. cbn. split; [|done]. by exists (LstEntry n n).
    + intros x Hx _. apply Hd, list_elem_of_fmap. exists (Z.to_nat x). split; [lia|]. apply elem_of_seq. lia.
Qed.

(** ** Walking the list *)

Lemma wp_for_each {A} es l (body : Z -> A -> M St (A + A)) (I : list Z -> A -> St -> Prop)
    (Q : A -> St -> Prop) s fuel acc :
  ring es l -> (forall x, x ∈ l -> 0 <= x < n) -> (length l < fuel)%nat ->
  lst_entries s = es -> I [] acc s ->
  (forall pre x post a s1, l = pre ++ x :: post -> lst_entries s1 = es -> I pre a s1 ->
    wp (body x a) (fun r s2 => lst_entries s2 = es /\
      match r with inl a' => Q a' s2 | inr a' => I (pre ++ [x]) a' s2 end) s1) ->
  (forall a s1, lst_entries s1 = es -> I l a s1 -> Q a s1) ->
  wp (for_each_lst fuel body (hdd n l) acc) Q s.
Proof.
  intros H Hr Hfuel Es Hs Hb HQ.
  enough (G : forall post pre fuel a s1, l = pre ++ post -> (length post < fuel)%nat ->
    lst_entries s1 = es -> I pre a s1 -> wp (for_each_lst fuel body (hdd n post) a) Q s1)
    by by apply (G l []).
  clear s Hfuel Es Hs fuel acc. induction post as [|x post IH]; intros pre [|fuel] a s1 El Hf Es HI;
    [lia| |cbn in Hf; lia|]; cbn [for_each_lst].
  - destruct (ring_lookup es l n H Hr) as (e & He & _); [left|]. apply wp_bind.
    eapply wp_lst_entry; [by rewrite Es|]. cbn [hdd List.hd_error default]. rewrite bool_decide_eq_true_2 by done.
    apply wp_ret, HQ; [done|]. by rewrite app_nil_r in El; subst.
  - assert (Hx : x ∈ l) by (rewrite El, elem_of_app; right; left).
    destruct (ring_lookup es l x H Hr) as (e & He & _); [by right|]. apply wp_bind. cbn [hdd List.hd_error default from_option id].
    eapply wp_lst_entry; [by rewrite Es|]. rewrite bool_decide_eq_false_2 by (apply Hr in Hx; lia).
    apply wp_bind. eapply wp_mono; [by apply (Hb pre x post)|]. intros r s2 [Es2 Hr2].
    destruct r as [a'|a']; [by apply wp_ret|].
    pose proof H as H'. rewrite El in H'. unfold ring in H'. rewrite <- app_assoc in H'.
    destruct (link_lookup _ _ _ _ (post ++ [n]) _ H') as (e' & He' & _ & Hn).
    apply wp_bind. eapply wp_next; [by rewrite Es2|]. rewrite Hn.
    replace (hdd _ (post ++ [n])) with (hdd n post) by (by destruct post).
    apply (IH (pre ++ [x])); [by rewrite <- app_assoc|cbn in Hf; lia|done|done].
Qed.

(** ** Sorting *)

Lemma hdd_nil l : (forall x, x ∈ l -> 0 <= x < n) -> hdd n l = n -> l = [].
Proof. destruct l as [|x l]; [done|]. cbn. intros Hr ->. specialize (Hr n ltac:(left)). lia. Qed.

(** The result of the search: a place before which no entry follows [x], and
    after which [x] precedes the first entry. *)
Record place s x (d d1 d2 : list Z) : Prop := {
  pc_split : d = d1 ++ d2;
  pc_before y : y ∈ d1 -> lst_before s y x;
  pc_after : d2 = [] \/ lst_before s x (hdd n d2)
}.

Definition marked s x d : Prop := d <> [] -> lst_touched s x /\ lst_touched s (hdd n d).

Lemma find_pos_wp cmp s d x fuel :
  lst_cmp = Some cmp -> listed s d -> (forall y, y ∈ x :: d -> lst_ok s y) -> x ∉ d -> (length d < fuel)%nat ->
  wp (find_pos fuel cmp x) (fun pos s' => lst_entries s' = lst_entries s /\ lst_frame s s' /\
    marked s' x d /\ exists d1 d2, place s x d d1 d2 /\ pos = hdd n d2) s.
Proof.
  intros Hcmp [Hnd Hr H] Hok Hx Hfuel. unfold find_pos.
  destruct (link_lookup _ _ _ _ [] _ H) as (h & Hh & _ & Hn). cbn [hdd List.hd_error default from_option] in Hn.
  apply wp_bind. eapply wp_next; [exact Hh|]. rewrite Hn. unfold id.
  eapply (wp_for_each (lst_entries s) d _ (fun pre a s1 => a = n /\ lst_frame s s1 /\
    (forall y, y ∈ pre -> lst_before s y x) /\ (pre <> [] -> marked s1 x d))); try done.
  - split; [done|]. split; [reflexivity|]. split; [intros y []%not_elem_of_nil|done].
  - intros pre y post a s1 El Es (-> & F & Hb & Hm).
    assert (Hy : y ∈ d) by (rewrite El, elem_of_app; right; left).
    apply wp_bind. eapply wp_mono.
    { apply (lst_cmp_spec cmp s1 y x Hcmp); [by intros ->|..]; eapply lst_ok_frame; try exact F; apply Hok; [by right|left]. }
    cbn beta. intros v s2 (Es2 & F2 & Hv & Ty & Tx). apply wp_ret. split; [congruence|].
    rewrite (lst_before_frame s s1) in Hv by done.
    assert (Hm2 : marked s2 x d).
    { intros Hd. split; [done|]. destruct pre as [|z pre]; [by rewrite El|].
      eapply lst_touched_frame; [done|]. by apply Hm. }
    clear Hm.
    case_bool_decide as Hvp.
    + split; [congruence|]. split; [by etrans|]. split; [done|]. exists pre, (y :: post). split; [split|done]; [done..|].
      right. tauto.
    + split; [done|]. split; [by etrans|]. split; [|done]. intros z [Hz| ->%list_elem_of_singleton]%elem_of_app; [by apply Hb|].
      destruct (lst_before_total s y x) as [?|?]; [by intros ->|done|tauto].
  - intros a s1 Es (-> & F & Hb & Hm). split; [done|]. split; [done|]. split.
    + intros Hd. by apply Hm.
    + exists d, []. split; [split|done]; [by rewrite app_nil_r|done|by left].
Qed.
Lemma place_sorted s x d d1 d2 :
  StronglySorted (lst_before s) d -> place s x d d1 d2 -> StronglySorted (lst_before s) (d1 ++ x :: d2).
Proof.
  intros Hs [-> Hb Ha]. apply StronglySorted_app in Hs as (H12 & Hs1 & Hs2).
  assert (Hx2 : forall y, y ∈ d2 -> lst_before s x y).
  { destruct Ha as [->|Ha]; [intros y []%not_elem_of_nil|]. destruct d2 as [|z d2]; [intros y []%not_elem_of_nil|].
    apply StronglySorted_cons in Hs2 as [Hz _]. rewrite Forall_forall in Hz.
    intros y [->|Hy]%elem_of_cons; [done|]. eapply lst_before_trans; [exact Ha|by apply Hz]. }
  apply StronglySorted_app. split; [|split; [done|]].
  - intros y z Hy [->|Hz]%elem_of_cons; [by apply Hb|by apply H12].
  - apply StronglySorted_cons. split; [|done]. by apply Forall_forall.
Qed.

(** What placing the entry [x] into the sorted list [d] does. *)
Definition placed s x d (s' : St) : Prop :=
  lst_frame s s' /\ marked s' x d /\
  (exists d1 d2, place s x d d1 d2 /\ listed s' (d1 ++ x :: d2)) /\
  forall y, y ∉ n :: x :: d -> lst_entries s' !! y = lst_entries s !! y.

Lemma perm_mid_not (y x : Z) d1 d2 : y ∉ n :: x :: d1 ++ d2 -> y ∉ n :: d1 ++ x :: d2.
Proof. by rewrite <- Permutation_middle. Qed.

Lemma marked_frame s s' x d : lst_frame s s' -> marked s x d -> marked s' x d.
Proof. intros F Hm Hd. destruct (Hm Hd). split; by eapply lst_touched_frame. Qed.

Lemma sort_place_wp cmp s d x fuel :
  lst_cmp = Some cmp -> listed s d -> (forall y, y ∈ x :: d -> lst_ok s y) -> x ∉ d -> 0 <= x < n ->
  is_Some (lst_entries s !! x) -> (length d < fuel)%nat ->
  wp (sort_place fuel cmp x) (fun _ => placed s x d) s.
Proof.
  intros Hcmp HL Hok Hx Hxr He Hfuel. unfold sort_place. apply wp_bind.
  eapply wp_mono; [by apply init_entry_wp|]. intros [] s1 (Hout & F1 & E1).
  assert (HL1 : listed s1 d).
  { destruct HL as [Hnd Hr H]. split; [done|done|]. eapply link_frame; [|exact H]. intros y Hy. apply E1. intros ->.
    apply elem_of_app in Hy as [?| ?%list_elem_of_singleton]; [done|lia]. }
  clear HL. pose proof HL1 as [Hnd Hr H].
  destruct (link_lookup _ _ _ _ [] _ H) as (h & Hh & _ & Hn). cbn in Hn.
  apply wp_bind, wp_bind. eapply wp_next; [exact Hh|]. rewrite Hn. apply wp_ret.
  assert (Hfinal : forall s2 s3 d1 d2, lst_entries s2 = lst_entries s1 -> lst_frame s1 s2 -> marked s2 x d ->
    place s1 x d d1 d2 ->
    (listed s3 (d1 ++ x :: d2) /\ lst_frame s2 s3 /\
      forall y, y ∉ n :: d1 ++ x :: d2 -> lst_entries s3 !! y = lst_entries s2 !! y) -> placed s x d s3).
  { intros s2 s3 d1 d2 Es2 F2 Hm [Ed Hb Ha] (HL3 & F3 & E3). split; [frames|]. split; [by eapply marked_frame|]. split.
    - exists d1, d2. split; [|done]. split; [done| |].
      + intros y Hy. apply (lst_before_frame s s1); auto.
      + destruct Ha as [?|Ha]; [by left|right]. by apply (lst_before_frame s s1).
    - intros y Hy. rewrite E3 by (apply perm_mid_not; by rewrite <- Ed). rewrite Es2. apply E1. intros ->. apply Hy.
      right. left. }
  case_bool_decide as Hemp.
  - assert (d = []) as -> by (by apply hdd_nil).
    eapply wp_mono; [apply (insert_wp _ s1 [] x [] (add_run s1 x n)); try done; apply not_elem_of_nil|].
    intros [] s3 Hs3. apply (Hfinal s1 s3 [] []); try done; [split; [done|intros y []%not_elem_of_nil|by left]].
  - apply wp_bind. eapply wp_mono.
    { apply (find_pos_wp cmp s1 d x fuel); try done. intros y Hy. eapply lst_ok_frame; [exact F1|by apply Hok]. }
    cbn beta. intros pos s2 (Es2 & F2 & Hm & d1 & d2 & Hpl & ->). pose proof Hpl as [-> _ _].
    assert (HL2 : listed s2 (d1 ++ d2)) by (split; [done|done|by rewrite Es2]).
    assert (Hout2 : apart s2 x) by (unfold apart; by rewrite Es2).
    case_bool_decide as Hpos.
    + assert (d2 = []) as -> by (apply hdd_nil; [intros y Hy; apply Hr, elem_of_app; by right|done]).
      eapply wp_mono; [apply (insert_wp _ s2 d1 x [] (add_tail_run s2 (lastd n d1) x)); try done|].
      intros [] s3 Hs3. by eapply Hfinal.
    + eapply wp_mono; [apply (insert_wp _ s2 d1 x d2 (add_before_run s2 (lastd n d1) x (hdd n d2))); try done|].
      intros [] s3 Hs3. by eapply Hfinal.
Qed.

(** The entries of [r], still to be placed, lead from one to the next. *)
Fixpoint chained es (r : list Z) : Prop :=
  match r with
  | [] => True
  | x :: r' => (exists e, es !! x = Some e /\ le_next e = hdd n r') /\ chained es r'
  end.

Lemma chained_frame es es' r : (forall x, x ∈ r -> es' !! x = es !! x) -> chained es r -> chained es' r.
Proof.
  induction r as [|x r IH]; cbn; [done|]. intros Hf [Hx Hr]. split; [by rewrite Hf by left|].
  apply IH; [|done]. intros y Hy. apply Hf. by right.
Qed.

Lemma ring_chained es l : ring es l -> chained es l.
Proof.
  unfold ring. generalize (hdd n l). generalize n at 1. induction l as [|x l IH]; intros p h; cbn; [done|].
  intros [(e & He & _ & Hn) Hl]. split; [|by eapply IH]. exists e. split; [done|]. rewrite Hn. by destruct l.
Qed.

(** The list [l] has been sorted. *)
Record sorted_from s l d s' : Prop := {
  sf_perm : d ≡ₚ l;
  sf_listed : listed s' d;
  sf_sorted : StronglySorted (lst_before s) d;
  sf_frame : lst_frame s s';
  sf_touched y : (2 <= length d)%nat -> y ∈ d -> lst_touched s' y
}.

Lemma placed_touched s s' x d d1 d2 y :
  marked s' x d -> d = d1 ++ d2 -> lst_frame s s' ->
  ((2 <= length d)%nat -> forall z, z ∈ d -> lst_touched s z) ->
  (2 <= length (d1 ++ x :: d2))%nat -> y ∈ d1 ++ x :: d2 -> lst_touched s' y.
Proof.
  intros Hm -> F Ht Hlen Hy. rewrite <- Permutation_middle in Hlen, Hy.
  destruct (d1 ++ d2) as [|z [|z' r]] eqn:E; cbn in Hlen; [lia|..].
  - destruct (Hm ltac:(done)) as [Tx Tz]. apply elem_of_cons in Hy as [->|Hy]; [done|].
    apply list_elem_of_singleton in Hy as ->. done.
  - apply elem_of_cons in Hy as [->|Hy]; [by apply Hm|]. eapply lst_touched_frame; [done|]. apply Ht; [cbn; lia|done].
Qed.

Lemma sort_loop_wp cmp search s0 r : lst_cmp = Some cmp -> forall fuel d s nx,
  match r with [] => True | _ :: r' => nx = hdd n r' end ->
  NoDup (d ++ r) -> (forall x, x ∈ d ++ r -> 0 <= x < n /\ lst_ok s0 x) -> (length (d ++ r) <= search)%nat ->
  (length r < fuel)%nat -> sorted_from s0 d d s -> chained (lst_entries s) r ->
  wp (sort_loop search fuel cmp (hdd n r) nx) (fun _ s' =>
    exists d', sorted_from s0 (d ++ r) d' s' /\
    forall y, y ∉ n :: d ++ r -> lst_entries s' !! y = lst_entries s !! y) s.
Proof.
  intros Hcmp. induction r as [|x r IH]; intros [|fuel] d s nx Hnx Hnd Hok Hs Hf Hsf Hch; try (cbn in Hf; lia); cbn [sort_loop].
  - cbn [hdd List.hd_error default from_option id]. rewrite bool_decide_eq_true_2 by done. apply wp_ret. exists d. by rewrite app_nil_r.
  - destruct Hsf as [_ HL Hsort F Ht]. destruct Hch as [(e & He & Hen) Hch].
    change (hdd n (x :: r)) with x.
    assert (Hx : 0 <= x < n /\ lst_ok s0 x) by (apply Hok, elem_of_app; right; left).
    rewrite bool_decide_eq_false_2 by lia.
    assert (Hnd' := Hnd). rewrite <- Permutation_middle in Hnd'. apply NoDup_cons in Hnd' as [Hxd Hnd'].
    apply wp_bind. eapply wp_mono.
    { apply (sort_place_wp cmp s d x search); try done.
      - intros y Hy. eapply lst_ok_frame; [exact F|]. apply Hok. rewrite elem_of_app.
        apply elem_of_cons in Hy as [->|?]; [right; left|by left].
      - intros ?. apply Hxd, elem_of_app. by left.
      - lia.
      - rewrite length_app in Hs. cbn in Hs. lia. }
    intros [] s1 (F1 & Hm & (d1 & d2 & Hpl & HL1) & E1). pose proof Hpl as [Ed _ _].
    assert (Hperm : d1 ++ x :: d2 ≡ₚ x :: d) by (by rewrite Ed, Permutation_middle).
    assert (Hch1 : chained (lst_entries s1) r).
    { eapply chained_frame; [|exact Hch]. intros y Hy. apply E1. rewrite !elem_of_cons. intros [->|[->|?]].
      - enough (0 <= n < n) by lia. apply Hok, elem_of_app. right. by right.
      - apply Hxd, elem_of_app. by right.
      - apply NoDup_app in Hnd' as (_ & Hd & _). by apply (Hd y). }
    assert (Hall : forall y, y ∈ (d1 ++ x :: d2) ++ r <-> y ∈ d ++ x :: r).
    { intros y. rewrite Hperm, <- Permutation_middle. done. }
    assert (Hnext : exists e, lst_entries s1 !! hdd n r = Some e /\
        le_next e = match r with [] => le_next e | _ :: r' => hdd n r' end).
    { destruct r as [|y r]; [|exact (proj1 Hch1)]. destruct HL1 as [_ Hr1 H1].
      destruct (ring_lookup _ _ n H1 Hr1) as (h & Hh & _); [left|]. by exists h. }
    destruct Hnext as (e1 & He1 & Hn1). subst nx. apply wp_bind. eapply wp_next; [exact He1|].
    assert (Hsf1 : sorted_from s0 (d1 ++ x :: d2) (d1 ++ x :: d2) s1).
    { split; [done|done| |frames|].
      - apply (place_sorted s0 x d); [done|]. destruct Hpl as [? Hb Ha]. split; [done| |].
        + intros y Hy. apply (lst_before_frame s0 s); auto.
        + destruct Ha as [?|Ha]; [by left|right]. by apply (lst_before_frame s0 s).
      - intros y. eapply (placed_touched s s1 x d); [exact Hm|exact Ed|exact F1|]. intros Hl z Hz. by apply Ht. }
    eapply wp_mono.
    { apply (IH fuel (d1 ++ x :: d2) s1); try done.
      - by destruct r.
      - rewrite Hperm. cbn [app]. by rewrite Permutation_middle.
      - intros y Hy. by apply Hok, Hall.
      - rewrite length_app in *. rewrite Hperm. cbn in *. lia.
      - cbn in Hf. lia. }
    intros [] s2 (d' & [Hp HL2 Hso F2 Ht2] & E2). exists d'. split.
    + split; try done. rewrite Hp, Hperm. cbn [app]. by rewrite Permutation_middle.
    + intros y Hy. rewrite E2, E1; [done| |]; intros Hin; apply Hy.
      * rewrite !elem_of_cons in *. rewrite elem_of_app, elem_of_cons. tauto.
      * rewrite elem_of_cons in *. by rewrite <- Hall.
Qed.

Lemma sort_wp cmp s l fuel :
  lst_cmp = Some cmp -> lst_holds s l -> (forall x, x ∈ l -> lst_ok s x) -> (length l < fuel)%nat ->
  wp (ocf_lst_sort fuel) (fun _ s' => exists d, sorted_from s l d s' /\ lst_holds s' d) s.
Proof.
  intros Hcmp [HL Ho] Hok Hfuel. pose proof HL as [Hnd Hr H].
  destruct (link_lookup _ _ _ _ [] _ H) as (h & Hh & _ & Hn). cbn in Hn.
  unfold ocf_lst_sort. rewrite Hcmp. apply wp_bind, wp_bind. eapply wp_next; [exact Hh|]. apply wp_ret. rewrite Hn.
  case_bool_decide as Hemp.
  { assert (l = []) as -> by (by apply hdd_nil). apply wp_ret. exists []. split; [|by split].
    split; [done|done|constructor|done|]. intros y _ []%not_elem_of_nil. }
  assert (Hl : exists x r, l = x :: r) by (destruct l; [done|eauto]). destruct Hl as (x & r & ->).
  apply wp_bind. eapply wp_next; [exact Hh|]. rewrite Hn. change (hdd n (x :: r)) with x.
  assert (Hch := ring_chained _ _ H). destruct (Hch) as [(e & He & Hen) _].
  apply wp_bind. eapply wp_next; [exact He|]. rewrite Hen.
  assert (Hnx : hdd n r ∈ n :: x :: r) by (destruct (hdd_in n r) as [->|?]; [left|right; by right]).
  destruct (ring_lookup _ _ _ H Hr Hnx) as (e2 & He2 & _). apply wp_bind. eapply wp_lst_entry; [exact He2|].
  apply wp_bind. lst_write E1 F1. apply wp_bind. lst_write E2 F2.
  assert (Hy : forall y, y <> n -> lst_entries s'0 !! y = lst_entries s !! y).
  { intros y Hy. by rewrite E2, lookup_alter_ne, E1, lookup_alter_ne. }
  assert (F : lst_frame s s'0) by frames.
  eapply wp_mono.
  { apply (sort_loop_wp cmp fuel s (x :: r) Hcmp fuel [] s'0); try done.
    - intros y Hin. split; [by apply Hr|by apply Hok].
    - cbn [app]. lia.
    - split; try done; [|constructor|intros y ? []%not_elem_of_nil].
      split; [constructor|intros y []%not_elem_of_nil|]. cbn. split; [|done]. exists (LstEntry n n).
      by rewrite E2, lookup_alter_eq, E1, lookup_alter_eq, Hh.
    - eapply chained_frame; [|exact Hch]. intros y Hin. apply Hy. intros ->. apply Hr in Hin. lia. }
  intros [] s2 (d & Hd & Ho2). exists d. split; [done|]. destruct Hd as [Hp HL2 _ _ _]. split; [done|].
  intros y Hyr Hyd. unfold apart. rewrite Ho2, Hy.
  - apply Ho; [done|]. by rewrite <- Hp.
  - lia.
  - rewrite elem_of_cons. intros [->|?]; [lia|]. apply Hyd. by rewrite Hp.
Qed.

(** ** The operations as operations on sequences *)

Inductive lst_op : Set :=
| LstAdd (x : Z)
| LstAddTail (x : Z)
| LstAddBefore (at_ x : Z)
| LstAddAfter (at_ x : Z)
| LstDel (x : Z).

Definition run_op (o : lst_op) : M St unit :=
  match o with
  | LstAdd x => ocf_lst_add x
  | LstAddTail x => ocf_lst_add_tail x
  | LstAddBefore at_ x => ocf_lst_add_before at_ x
  | LstAddAfter at_ x => ocf_lst_add_after at_ x
  | LstDel x => ocf_lst_del x
  end.

Fixpoint insert_before (at_ x : Z) (l : list Z) : list Z :=
  match l with
  | [] => []
  | y :: l => if decide (y = at_) then x :: y :: l else y :: insert_before at_ x l
  end.

Fixpoint insert_after (at_ x : Z) (l : list Z) : list Z :=
  match l with
  | [] => []
  | y :: l => if decide (y = at_) then y :: x :: l else y :: insert_after at_ x l
  end.

Definition seq_op (o : lst_op) (l : list Z) : list Z :=
  match o with
  | LstAdd x => x :: l
  | LstAddTail x => l ++ [x]
  | LstAddBefore at_ x => insert_before at_ x l
  | LstAddAfter at_ x => insert_after at_ x l
  | LstDel x => without x l
  end.

(** An entry is added when it is off the list, next to one that is on it, and
    deleted when it is on the list. *)
Definition op_allowed (o : lst_op) (l : list Z) : Prop :=
  match o with
  | LstAdd x | LstAddTail x => 0 <= x < n /\ x ∉ l
  | LstAddBefore at_ x | LstAddAfter at_ x => 0 <= x < n /\ x ∉ l /\ at_ ∈ l
  | LstDel x => x ∈ l
  end.

Lemma insert_before_split at_ x l1 l2 :
  at_ ∉ l1 -> insert_before at_ x (l1 ++ at_ :: l2) = l1 ++ x :: at_ :: l2.
Proof.
  induction l1 as [|y l1 IH]; cbn; intros Hn; [by rewrite decide_True|].
  apply not_elem_of_cons in Hn as [? ?]. by rewrite decide_False, IH by congruence.
Qed.

Lemma insert_after_split at_ x l1 l2 :
  at_ ∉ l1 -> insert_after at_ x (l1 ++ at_ :: l2) = (l1 ++ [at_]) ++ x :: l2.
Proof.
  induction l1 as [|y l1 IH]; cbn; intros Hn; [by rewrite decide_True|].
  apply not_elem_of_cons in Hn as [? ?]. by rewrite decide_False, IH by congruence.
Qed.

Lemma insert_holds (m : M St unit) s l1 x l2 l :
  (gap s (lastd n l1) x (hdd n l2) -> wp m (fun _ => inserted s (lastd n l1) x (hdd n l2)) s) ->
  lst_holds s (l1 ++ l2) -> 0 <= x < n -> x ∉ l1 ++ l2 -> l = l1 ++ x :: l2 ->
  wp m (fun _ s' => lst_holds s' l /\ lst_frame s s') s.
Proof.
  intros Hm [HL Ho] Hr Hx ->. eapply wp_mono; [by eapply insert_wp; eauto|].
  intros [] s' (HL' & F & E). split; [|done]. split; [done|]. intros y Hyr Hy. unfold apart.
  rewrite E by (rewrite elem_of_cons; intros [->|?]; [lia|done]). apply Ho; [done|].
  rewrite elem_of_app, elem_of_cons in Hy. rewrite elem_of_app. tauto.
Qed.

Lemma nodup_head_split (x : Z) l1 l2 : NoDup (l1 ++ x :: l2) -> x ∉ l1.
Proof. intros H%nodup_pivot Hx. apply H, elem_of_app. by left. Qed.

Lemma run_op_wp s l o :
  lst_holds s l -> op_allowed o l ->
  wp (run_op o) (fun _ s' => lst_holds s' (seq_op o l) /\ lst_frame s s') s.
Proof.
  intros HL Ho. destruct o as [x|x|a x|a x|x]; cbn [run_op seq_op op_allowed] in *.
  - destruct Ho. by apply (insert_holds _ s [] x l); [apply add_run|..].
  - destruct Ho. apply (insert_holds _ s l x []); rewrite ?app_nil_r; try done. apply add_tail_run.
  - destruct Ho as (? & ? & (l1 & l2 & ->)%list_elem_of_split).
    apply (insert_holds _ s l1 x (a :: l2)); try done; [apply add_before_run|].
    apply insert_before_split. destruct HL as [[Hnd _ _] _]. by apply nodup_head_split in Hnd.
  - destruct Ho as (? & ? & (l1 & l2 & ->)%list_elem_of_split).
    assert (E : l1 ++ a :: l2 = (l1 ++ [a]) ++ l2) by (by rewrite <- app_assoc).
    apply (insert_holds _ s (l1 ++ [a]) x l2); rewrite <- ?E; try done.
    + rewrite lastd_snoc. apply add_after_run.
    + apply insert_after_split. destruct HL as [[Hnd _ _] _]. by apply nodup_head_split in Hnd.
  - apply list_elem_of_split in Ho as (l1 & l2 & ->). destruct HL as [HL Ho].
    pose proof HL as [Hnd Hr _]. rewrite without_split by done.
    eapply wp_mono; [by apply del_wp|]. intros [] s' (HL' & F & Hx & E). split; [|done]. split; [done|].
    intros y Hyr Hy. destruct (decide (y = x)) as [->|Hne]; [done|]. unfold apart.
    assert (Hyn : y ∉ l1 ++ x :: l2) by (rewrite elem_of_app, elem_of_cons in *; tauto).
    rewrite E by (rewrite elem_of_cons; intros [->|?]; [lia|done]). by apply Ho.
Qed.

Lemma ends_wp s l (HL : lst_holds s l) :
  wp ocf_lst_head (fun r s' => r = hdd n l /\ s' = s) s /\
  wp ocf_lst_tail (fun r s' => r = lastd n l /\ s' = s) s /\
  wp ocf_lst_empty (fun r s' => r = bool_decide (l = []) /\ s' = s) s.
Proof.
  destruct HL as [[Hnd Hr H] _]. destruct (link_lookup _ _ _ _ [] _ H) as (h & Hh & Hp & Hn). cbn in Hn.
  split_and!.
  - by eapply wp_next.
  - by eapply wp_prev.
  - apply wp_bind. eapply wp_next; [exact Hh|]. apply wp_ret. split; [|done]. rewrite Hn. apply bool_decide_ext.
    split; [by apply hdd_nil|by intros ->].
Qed.
End IndexListProofs.

(** C30. The operations of [utils_list.h] implement a sequence: on a table that
    holds the list [l] and nothing else, every operation whose entry is off the
    list (to add it) or on it (to delete it) runs without a failed check, ends
    in a table that holds exactly the resulting sequence, and reading the head,
    the tail and emptiness gives those of the sequence; initialisation of any
    table with an entry per index makes it the empty list. *)
Theorem lst_ops_refine {St} `{!OcfLst St, !LstOrder St} (s0 s : St) (l : list Z) (o : lst_op) :
  0 <= lst_invalid -> table_total s0 -> lst_holds s l -> op_allowed o l ->
  wp ocf_lst_init (fun _ s' => lst_holds s' [] /\ lst_frame s0 s') s0 /\
  wp (run_op o) (fun _ s' => lst_frame s s' /\ lst_holds s' (seq_op o l) /\
    wp ocf_lst_head (fun r s'' => r = hdd lst_invalid (seq_op o l) /\ s'' = s') s' /\
    wp ocf_lst_tail (fun r s'' => r = lastd lst_invalid (seq_op o l) /\ s'' = s') s' /\
    wp ocf_lst_empty (fun r s'' => r = bool_decide (seq_op o l = []) /\ s'' = s') s') s.
Proof.
  intros Hn Ht HL Ho. split; [by apply init_wp|]. eapply wp_mono; [by apply run_op_wp|].
  intros [] s' [HL' F]. split; [done|]. split; [done|]. by apply ends_wp.
Qed.
