(* ===== verification/IoClass.v ===== *)
(** * I/O classes: [src/mngt/ocf_mngt_io_class.c], [src/utils/utils_user_part.c/.h], [src/ocf_io_class.c]

    Every I/O class is a user partition of the cache.  Its configuration lives
    in a metadata segment ([part_config]) that the array [cache->user_parts]
    points into; the entries of the priority list are in the array itself.
    The two are kept apart here because the code copies the array. *)

From Stdlib Require Import String Ascii.
From S2P Require Import Prelude Links IndexList Lru.
Open Scope Z_scope.

(** ** Strings of the environment ([env/posix/ocf_env_default.h])

    A C string is the sequence of the characters before its NUL. *)

Definition OCF_IO_CLASS_NAME_MAX : nat := 1024%nat.

Definition env_strnlen (s : string) (smax : nat) : nat := Nat.min (String.length s) smax.
Definition env_strncpy (dmax : nat) (src : string) (slen : nat) : string :=
  substring 0 (Nat.min (dmax - 1) slen) src.
(** Only whether the result is zero matters to the callers. *)
Definition env_strncmp (s1 : string) (slen1 : nat) (s2 : string) (slen2 : nat) : bool :=
  negb (String.eqb (substring 0 (Nat.min slen1 slen2) s1) (substring 0 (Nat.min slen1 slen2) s2)).

(** ** Data *)

Definition OCF_IO_CLASS_UNCLASSIFIED : Z := 0.
Definition OCF_IO_CLASS_PREFETCH : Z := 33.
Definition OCF_IO_CLASS_UNCLASSIFIED_NAME : string := "unclassified".
Definition OCF_IO_CLASS_PREFETCH_NAME : string := "prefetch".
Definition OCF_IO_CLASS_PRIO_PINNED : Z := -1.
Definition OCF_IO_CLASS_PRIO_HIGHEST : Z := 0.
Definition OCF_IO_CLASS_PRIO_LOWEST : Z := 255.
Definition PARTITION_SIZE_MIN : Z := 0.
Definition PARTITION_SIZE_MAX : Z := 100.
Definition SHRT_MAX : Z := 32767.
Definition SHRT_MIN : Z := -32768.

Definition ocf_cache_mode_max : Z := 6.
Definition ocf_cache_mode_none : Z := -1.

Definition OCF_ERR_INVAL : Z := 1000000.
Definition OCF_ERR_NO_MEM : Z := 1000005.
Definition OCF_ERR_IO_CLASS_NOT_EXIST : Z := 1000032.
Definition OCF_ERR_CACHE_STANDBY : Z := 1000049.

(** [struct ocf_user_part_config]. *)
Record ocf_user_part_config := UserPartConfig {
  uc_name : string;
  uc_min_size : Z;
  uc_max_size : Z;
  uc_valid : bool;
  uc_added : bool;
  uc_eviction : bool;
  uc_priority : Z;
  uc_cache_mode : Z
}.

Definition uc_with_name v c := UserPartConfig v (uc_min_size c) (uc_max_size c) (uc_valid c) (uc_added c) (uc_eviction c) (uc_priority c) (uc_cache_mode c).
Definition uc_with_min_size v c := UserPartConfig (uc_name c) v (uc_max_size c) (uc_valid c) (uc_added c) (uc_eviction c) (uc_priority c) (uc_cache_mode c).
Definition uc_with_max_size v c := UserPartConfig (uc_name c) (uc_min_size c) v (uc_valid c) (uc_added c) (uc_eviction c) (uc_priority c) (uc_cache_mode c).
Definition uc_with_valid v c := UserPartConfig (uc_name c) (uc_min_size c) (uc_max_size c) v (uc_added c) (uc_eviction c) (uc_priority c) (uc_cache_mode c).
Definition uc_with_added v c := UserPartConfig (uc_name c) (uc_min_size c) (uc_max_size c) (uc_valid c) v (uc_eviction c) (uc_priority c) (uc_cache_mode c).
Definition uc_with_eviction v c := UserPartConfig (uc_name c) (uc_min_size c) (uc_max_size c) (uc_valid c) (uc_added c) v (uc_priority c) (uc_cache_mode c).
Definition uc_with_priority v c := UserPartConfig (uc_name c) (uc_min_size c) (uc_max_size c) (uc_valid c) (uc_added c) (uc_eviction c) v (uc_cache_mode c).
Definition uc_with_cache_mode v c := UserPartConfig (uc_name c) (uc_min_size c) (uc_max_size c) (uc_valid c) (uc_added c) (uc_eviction c) (uc_priority c) v.

(** The array [cache->user_parts]: for every partition the pointer to its
    configuration, its list entry and its id. *)
Record user_part_table := UserPartTable {
  up_config : gmap Z Z;
  up_lst_valid : gmap Z ocf_lst_entry;
  up_id : gmap Z Z
}.

(** The parts of a cache that the code of this file reads or writes:
    [curr_size] is [part.runtime->curr_size], [attached] is [cache->device != NULL]. *)
Record parts := Parts {
  user_parts : user_part_table;
  part_config : gmap Z ocf_user_part_config;
  curr_size : gmap Z Z;
  valid_parts_no : Z;
  attached : bool;
  standby : bool;
  line_count : Z;
  cleaning_policy_type : Z
}.

Definition with_user_parts v s := Parts v (part_config s) (curr_size s) (valid_parts_no s) (attached s) (standby s) (line_count s) (cleaning_policy_type s).
Definition with_part_config v s := Parts (user_parts s) v (curr_size s) (valid_parts_no s) (attached s) (standby s) (line_count s) (cleaning_policy_type s).
Definition with_valid_parts_no v s := Parts (user_parts s) (part_config s) (curr_size s) v (attached s) (standby s) (line_count s) (cleaning_policy_type s).

Abbreviation PM := (Prelude.M parts).

(** Through the pointer [cache->user_parts[id].config]. *)
Definition config_of (id : Z) : PM ocf_user_part_config :=
  p ← load (fun s => up_config (user_parts s) !! id); load (fun s => part_config s !! p).
Definition set_config (id : Z) (f : ocf_user_part_config -> ocf_user_part_config) : PM unit :=
  p ← load (fun s => up_config (user_parts s) !! id);
  _ ← load (fun s => part_config s !! p);
  modify (fun s => with_part_config (alter f p (part_config s)) s).

(** ** The priority list *)

(** [ocf_cache_is_device_attached(cache) ? env_atomic_read(curr_size) : 0] *)
Definition attached_size (id : Z) : PM Z :=
  a ← gets attached;
  if (a : bool) then load (fun s => curr_size s !! id) else mret 0.

(** The value of an invalid partition is that of its content. *)
Definition cmp_value (id size : Z) : PM Z :=
  c ← config_of id;
  if uc_valid c then mret (uc_priority c)
  else if negb (bool_decide (size = 0)) then
    _ ← set_config id (uc_with_eviction true); mret SHRT_MAX
  else
    _ ← set_config id (uc_with_eviction false); mret SHRT_MIN.

Definition cmp_eviction (id : Z) : PM unit :=
  c ← config_of id;
  set_config id (uc_with_eviction (negb (bool_decide (uc_priority c = OCF_IO_CLASS_PRIO_PINNED)))).

Definition ocf_user_part_lst_cmp_valid (e1 e2 : Z) : PM Z :=
  p1_size ← attached_size e1;
  p2_size ← attached_size e2;
  _ ← cmp_eviction e1;
  _ ← cmp_eviction e2;
  v1 ← cmp_value e1 p1_size;
  v2 ← cmp_value e2 p2_size;
  mret (if bool_decide (v1 = v2) then e2 - e1 else v2 - v1).

#[export] Instance user_part_list : OcfLst parts := {
  lst_entries s := up_lst_valid (user_parts s);
  lst_with_entries es s :=
    with_user_parts (UserPartTable (up_config (user_parts s)) es (up_id (user_parts s))) s;
  lst_invalid := OCF_USER_IO_CLASS_MAX;
  lst_cmp := Some ocf_user_part_lst_cmp_valid
}.

(** A list of at most 34 entries and its head. *)
Definition parts_fuel : nat := 35.

Definition ocf_user_part_sort : PM unit := ocf_lst_sort parts_fuel.

Definition for_each_user_part {A} (body : Z -> A -> PM (A + A)) (acc : A) : PM A :=
  first ← next_of OCF_USER_IO_CLASS_MAX; for_each_lst parts_fuel body first acc.

Definition ocf_user_part_init : PM unit :=
  _ ← ocf_lst_init;
  m_for (Z.of_nat <$> seq 0 (Z.to_nat (OCF_USER_IO_CLASS_MAX + 1))) (fun i =>
    modify (fun s => let t := user_parts s in
      with_user_parts (UserPartTable (up_config t) (up_lst_valid t) (<[i := i]> (up_id t))) s)).

(** ** Properties of a partition *)

Definition ocf_user_part_is_valid (id : Z) : PM bool := c ← config_of id; mret (uc_valid c).
Definition ocf_user_part_is_added (id : Z) : PM bool := c ← config_of id; mret (uc_added c).
Definition ocf_user_part_is_enabled (id : Z) : PM bool :=
  c ← config_of id; mret (negb (bool_decide (uc_max_size c = 0))).

Definition ocf_user_part_set_prio (id prio : Z) : PM unit :=
  c ← config_of id;
  when (negb (bool_decide (uc_priority c = prio))) (set_config id (uc_with_priority prio)).

Definition ocf_user_part_get_prio (part_id : Z) : PM Z :=
  if bool_decide (part_id < OCF_USER_IO_CLASS_MAX)
  then c ← config_of part_id; mret (uc_priority c)
  else mret OCF_IO_CLASS_PRIO_LOWEST.

Definition ocf_user_part_get_cache_mode (part_id : Z) : PM Z :=
  if bool_decide (part_id < OCF_USER_IO_CLASS_MAX)
  then c ← config_of part_id; mret (uc_cache_mode c)
  else mret ocf_cache_mode_none.

Definition ocf_user_part_class2id (cls : Z) : PM Z :=
  if bool_decide (cls < OCF_USER_IO_CLASS_MAX)
  then c ← config_of cls; mret (if uc_valid c then cls else OCF_IO_CLASS_UNCLASSIFIED)
  else mret OCF_IO_CLASS_UNCLASSIFIED.

Definition ocf_user_part_set_valid (id : Z) (valid : bool) : PM unit :=
  c ← config_of id;
  if xorb valid (uc_valid c) then
    if valid then
      _ ← set_config id (uc_with_valid true);
      modify (fun s => with_valid_parts_no (u32 (valid_parts_no s + 1)) s)
    else
      _ ← set_config id (uc_with_valid false);
      _ ← modify (fun s => with_valid_parts_no (u32 (valid_parts_no s - 1)) s);
      _ ← set_config id (uc_with_priority OCF_IO_CLASS_PRIO_LOWEST);
      _ ← set_config id (uc_with_min_size 0);
      _ ← set_config id (uc_with_max_size PARTITION_SIZE_MAX);
      set_config id (uc_with_name (env_strncpy OCF_IO_CLASS_NAME_MAX "Inactive" 9))
  else mret tt.

Definition ocf_part_get_occupancy (id : Z) : PM Z :=
  n ← load (fun s => curr_size s !! id); mret (u32 n).

Definition ocf_user_part_get_min_size (id : Z) : PM Z :=
  c ← config_of id; n ← gets line_count;
  mret (u32 (u64 (uc_min_size c * n) / 100)).

Definition ocf_user_part_get_max_size (id : Z) : PM Z :=
  c ← config_of id; n ← gets line_count;
  mret (u32 (u64 (u64 (uc_max_size c * n) + 100 - 1) / 100)).

Definition ocf_user_part_overflow_size (id : Z) : PM Z :=
  part_occupancy ← ocf_part_get_occupancy id;
  part_occupancy_limit ← ocf_user_part_get_max_size id;
  mret (if bool_decide (part_occupancy > part_occupancy_limit)
        then u32 (part_occupancy - part_occupancy_limit) else 0).

(** [repart] and [unmapped] are the counts of the request. *)
Definition ocf_user_part_has_space (part_id repart unmapped : Z) : PM bool :=
  part_occupancy_limit ← ocf_user_part_get_max_size part_id;
  part_occupancy ← ocf_part_get_occupancy part_id;
  mret (bool_decide (u64 (part_occupancy + u32 (repart + unmapped)) <= part_occupancy_limit)).

Definition ocf_user_part_is_prio_valid (prio : Z) : bool :=
  (bool_decide (OCF_IO_CLASS_PRIO_HIGHEST <= prio) && bool_decide (prio <= OCF_IO_CLASS_PRIO_LOWEST))
  || bool_decide (prio = OCF_IO_CLASS_PRIO_PINNED).

Definition name_char_valid (c : ascii) : bool :=
  let n := Z.of_N (N_of_ascii c) in
  negb (bool_decide (n < 32) || bool_decide (126 < n))
  && negb (bool_decide (n = 44) || bool_decide (n = 34)).

Fixpoint name_valid_from (name : string) (length : nat) : bool :=
  match name with
  | EmptyString => true
  | String c name =>
    name_char_valid c &&
    (if bool_decide (OCF_IO_CLASS_NAME_MAX <= S length)%nat then false
     else name_valid_from name (S length))
  end.

Definition ocf_user_part_is_name_valid (name : string) : bool := name_valid_from name 0.

(** ** Management *)

(** [struct ocf_mngt_io_class_config]; a name of [None] is the null pointer. *)
Record ocf_mngt_io_class_config := IoClassConfig {
  cfg_class_id : Z;
  cfg_max_size : Z;
  cfg_name : option string;
  cfg_cache_mode : Z;
  cfg_prio : Z
}.

Definition _ocf_mngt_count_user_parts_min_size : PM Z :=
  for_each_user_part (fun id count =>
    v ← ocf_user_part_is_valid id;
    if (v : bool) then c ← config_of id; mret (inr (u64 (count + uc_min_size c)))
    else mret (inr count)) 0.

(** Whether the list already has the partition. *)
Definition part_listed (part_id : Z) : PM bool :=
  for_each_user_part (fun id acc => mret (if bool_decide (id = part_id) then inl true else inr acc)) false.

(** The fields of a partition that is being added. *)
Definition add_partition_fields (part_id : Z) (name : string) (min_size max_size priority : Z) (valid : bool) : PM unit :=
  _ ← set_config part_id (uc_with_name (env_strncpy OCF_IO_CLASS_NAME_MAX name OCF_IO_CLASS_NAME_MAX));
  _ ← set_config part_id (uc_with_min_size min_size);
  _ ← set_config part_id (uc_with_max_size max_size);
  _ ← set_config part_id (uc_with_priority priority);
  _ ← set_config part_id (uc_with_cache_mode ocf_cache_mode_max);
  ocf_user_part_set_valid part_id valid.

Definition ocf_mngt_add_partition_to_cache (part_id : Z) (name : option string)
    (min_size max_size priority : Z) (valid : bool) : PM Z :=
  match name with
  | None => mret (- OCF_ERR_INVAL)
  | Some name =>
    if bool_decide (part_id >= OCF_USER_IO_CLASS_MAX) then mret (- OCF_ERR_INVAL) else
    v ← ocf_user_part_is_valid part_id;
    if (v : bool) then mret (- OCF_ERR_INVAL) else
    if bool_decide (min_size > max_size) then mret (- OCF_ERR_INVAL) else
    if bool_decide (max_size > PARTITION_SIZE_MAX) then mret (- OCF_ERR_INVAL) else
    if bool_decide (OCF_IO_CLASS_NAME_MAX <= env_strnlen name OCF_IO_CLASS_NAME_MAX)%nat
    then mret (- OCF_ERR_INVAL) else
    exists_ ← part_listed part_id;
    if (exists_ : bool) then mret (- OCF_ERR_INVAL) else
    _ ← add_partition_fields part_id name min_size max_size priority valid;
    _ ← ocf_lst_add part_id;
    _ ← ocf_user_part_sort;
    _ ← set_config part_id (uc_with_added true);
    mret 0
  end.

(** [__init_partitions] of [src/mngt/ocf_mngt_cache.c]: a failure is a bug. *)
Definition add_or_bug (part_id : Z) (name : string) (valid : bool) : PM unit :=
  r ← ocf_mngt_add_partition_to_cache part_id (Some name) 0 PARTITION_SIZE_MAX OCF_IO_CLASS_PRIO_LOWEST valid;
  bug_on (negb (bool_decide (r = 0))).

Definition __init_partitions : PM unit :=
  _ ← add_or_bug OCF_IO_CLASS_UNCLASSIFIED OCF_IO_CLASS_UNCLASSIFIED_NAME true;
  _ ← add_or_bug OCF_IO_CLASS_PREFETCH OCF_IO_CLASS_PREFETCH_NAME true;
  m_for (Z.of_nat <$> seq 0 (Z.to_nat OCF_USER_IO_CLASS_MAX)) (fun i_part =>
    if bool_decide (i_part = OCF_IO_CLASS_UNCLASSIFIED) || bool_decide (i_part = OCF_IO_CLASS_PREFETCH)
    then mret tt
    else add_or_bug i_part "Inactive" false).

Definition _ocf_mngt_set_partition_size (part_id min max : Z) : PM Z :=
  if bool_decide (min > max) then mret (- OCF_ERR_INVAL) else
  count ← _ocf_mngt_count_user_parts_min_size;
  if bool_decide (u64 (count + min) > PARTITION_SIZE_MAX) then mret (- OCF_ERR_INVAL) else
  let max := if bool_decide (max > PARTITION_SIZE_MAX) then PARTITION_SIZE_MAX else max in
  _ ← set_config part_id (uc_with_min_size min);
  _ ← set_config part_id (uc_with_max_size max);
  mret 0.

(** [prio] and [cache_mode] are set last, in both branches. *)
Definition set_prio_and_mode (part_id prio cache_mode : Z) : PM unit :=
  _ ← ocf_user_part_set_prio part_id prio;
  set_config part_id (uc_with_cache_mode cache_mode).

Definition _ocf_mngt_io_class_configure (cfg : ocf_mngt_io_class_config) (name : string) : PM Z :=
  let part_id := u16 (cfg_class_id cfg) in
  let min := 0 in
  let max := cfg_max_size cfg in
  a ← gets attached;
  _ ← bug_on (negb a);
  added ← ocf_user_part_is_added part_id;
  if negb added then mret (- OCF_ERR_INVAL) else
  match name with
  | EmptyString => mret (- OCF_ERR_INVAL)
  | String _ _ =>
    dest_part ← config_of part_id;
    if bool_decide (part_id = OCF_IO_CLASS_UNCLASSIFIED) || bool_decide (part_id = OCF_IO_CLASS_PREFETCH) then
      if env_strncmp name OCF_IO_CLASS_NAME_MAX (uc_name dest_part) OCF_IO_CLASS_NAME_MAX
      then mret (- OCF_ERR_INVAL)
      else
        r ← _ocf_mngt_set_partition_size part_id min max;
        if negb (bool_decide (r = 0)) then mret (- OCF_ERR_INVAL)
        else _ ← set_prio_and_mode part_id (cfg_prio cfg) (cfg_cache_mode cfg); mret 0
    else
      _ ← set_config part_id (uc_with_name (env_strncpy OCF_IO_CLASS_NAME_MAX name OCF_IO_CLASS_NAME_MAX));
      r ← _ocf_mngt_set_partition_size part_id min max;
      if negb (bool_decide (r = 0)) then mret (- OCF_ERR_INVAL)
      else
        v ← ocf_user_part_is_valid part_id;
        _ ← (if (v : bool) then mret tt else ocf_user_part_set_valid part_id true);
        _ ← set_prio_and_mode part_id (cfg_prio cfg) (cfg_cache_mode cfg);
        mret 0
  end.

Definition _ocf_mngt_io_class_remove (cfg : ocf_mngt_io_class_config) : PM unit :=
  let part_id := u16 (cfg_class_id cfg) in
  a ← gets attached;
  _ ← bug_on (negb a);
  if bool_decide (part_id = OCF_IO_CLASS_UNCLASSIFIED) then mret tt
  else
    v ← ocf_user_part_is_valid part_id;
    if negb v then mret tt else ocf_user_part_set_valid part_id false.

Definition _ocf_mngt_io_class_edit (cfg : ocf_mngt_io_class_config) : PM Z :=
  match cfg_name cfg with
  | Some name => _ocf_mngt_io_class_configure cfg name
  | None => _ ← _ocf_mngt_io_class_remove cfg; mret 0
  end.

Definition _ocf_mngt_io_class_validate_cfg (cfg : ocf_mngt_io_class_config) : Z :=
  if bool_decide (cfg_class_id cfg >= OCF_USER_IO_CLASS_MAX) then - OCF_ERR_INVAL else
  match cfg_name cfg with
  | None => 0
  | Some name =>
    if bool_decide (cfg_cache_mode cfg < ocf_cache_mode_none) || bool_decide (cfg_cache_mode cfg > ocf_cache_mode_max)
    then - OCF_ERR_INVAL else
    if negb (ocf_user_part_is_name_valid name) then - OCF_ERR_INVAL else
    if negb (ocf_user_part_is_prio_valid (cfg_prio cfg)) then - OCF_ERR_INVAL else
    if bool_decide (cfg_max_size cfg < PARTITION_SIZE_MIN) || bool_decide (cfg_max_size cfg > PARTITION_SIZE_MAX)
    then - OCF_ERR_INVAL else 0
  end.

(** The first of the configurations that is not valid decides. *)
Fixpoint validate_all (cfgs : list ocf_mngt_io_class_config) : Z :=
  match cfgs with
  | [] => 0
  | cfg :: cfgs =>
    let r := _ocf_mngt_io_class_validate_cfg cfg in
    if bool_decide (r = 0) then validate_all cfgs else r
  end.

(** The loop over the classes, up to the first one that fails. *)
Fixpoint edit_all (cfgs : list ocf_mngt_io_class_config) : PM Z :=
  match cfgs with
  | [] => mret 0
  | cfg :: cfgs =>
    r ← _ocf_mngt_io_class_edit cfg;
    if bool_decide (r = 0) then edit_all cfgs else mret r
  end.

(** [mem] is whether [env_malloc] succeeds.  [old_config] is a copy of the array
    [cache->user_parts]: pointers to configurations, not configurations. *)
Definition ocf_mngt_cache_io_classes_configure (mem : bool) (cfg : list ocf_mngt_io_class_config) : PM Z :=
  st ← gets standby;
  if (st : bool) then mret (- OCF_ERR_CACHE_STANDBY) else
  let r := validate_all cfg in
  if negb (bool_decide (r = 0)) then mret r else
  if negb mem then mret (- OCF_ERR_NO_MEM) else
  old_config ← gets user_parts;
  result ← edit_all cfg;
  _ ← when (bool_decide (result = 0)) ocf_user_part_sort;
  _ ← when (negb (bool_decide (result = 0))) (modify (with_user_parts old_config));
  mret result.

(** ** Queries *)

Record ocf_io_class_info := IoClassInfo {
  inf_name : string;
  inf_cache_mode : Z;
  inf_priority : Z;
  inf_curr_size : Z;
  inf_min_size : Z;
  inf_max_size : Z;
  inf_cleaning_policy_type : Z
}.

(** An error code, or the description of the class; [info] is whether the
    caller passed a place for it. *)
Definition ocf_cache_io_class_get_info (io_class : Z) (info : bool) : PM (Z + ocf_io_class_info) :=
  st ← gets standby;
  if (st : bool) then mret (inl (- OCF_ERR_CACHE_STANDBY)) else
  if negb info then mret (inl (- OCF_ERR_INVAL)) else
  if bool_decide (io_class >= OCF_USER_IO_CLASS_MAX) then mret (inl (- OCF_ERR_INVAL)) else
  let part_id := u16 io_class in
  v ← ocf_user_part_is_valid part_id;
  if negb v then mret (inl (- OCF_ERR_IO_CLASS_NOT_EXIST)) else
  c ← config_of part_id;
  size ← attached_size part_id;
  clean ← gets cleaning_policy_type;
  mret (inr (IoClassInfo (env_strncpy (OCF_IO_CLASS_NAME_MAX - 1) (uc_name c) OCF_IO_CLASS_NAME_MAX)
    (uc_cache_mode c) (uc_priority c) (u32 size) (uc_min_size c) (uc_max_size c) clean)).

(** [visitor] is the caller's callback. *)
Definition ocf_io_class_visit (visitor : option (Z -> PM Z)) : PM Z :=
  st ← gets standby;
  if (st : bool) then mret (- OCF_ERR_CACHE_STANDBY) else
  match visitor with
  | None => mret (- OCF_ERR_INVAL)
  | Some visitor =>
    for_each_user_part (fun part_id _ =>
      v ← ocf_user_part_is_valid part_id;
      if negb v then mret (inr 0)
      else
        result ← visitor part_id;
        mret (if negb (bool_decide (result = 0)) then inl result else inr result)) 0
  end.
