(* ===== verification/IoClassProofs.v ===== *)
(** * I/O classes: the order of the priority list, and configuration

    The comparison of the priority list decides a strict total order; sorting
    establishes it and brings the eviction flags up to date.  Configuration
    keeps the classes well formed; its error path does not undo what it did. *)

From Stdlib Require Import String Ascii.
From stdpp Require Import sorting.
From S2P Require Import Prelude Links Lru IndexList IndexListProofs IoClass.
Open Scope Z_scope.

(** ** The order of the priority list *)

(** The size that the comparison sees. *)
Definition size_of (s : parts) (x : Z) : Z := if attached s then default 0 (curr_size s !! x) else 0.

Definition value_of (s : parts) (x : Z) (c : ocf_user_part_config) : Z :=
  if uc_valid c then uc_priority c else if bool_decide (size_of s x = 0) then SHRT_MIN else SHRT_MAX.

(** Whether lines may be evicted from the partition. *)
Definition evictable (s : parts) (x : Z) (c : ocf_user_part_config) : bool :=
  if uc_valid c then negb (bool_decide (uc_priority c = OCF_IO_CLASS_PRIO_PINNED))
  else negb (bool_decide (size_of s x = 0)).

Definition key_of (s : parts) (x : Z) : Z := default 0 (value_of s x <$> part_config s !! x).

Definition user_part_before (s : parts) (x y : Z) : Prop :=
  key_of s x > key_of s y \/ (key_of s x = key_of s y /\ x > y).

(** A partition whose pointer is the one that initialisation set. *)
Definition user_part_ok (s : parts) (x : Z) : Prop :=
  up_config (user_parts s) !! x = Some x /\ is_Some (part_config s !! x) /\ is_Some (curr_size s !! x).

Definition flag_updated (s : parts) (x : Z) (c c' : ocf_user_part_config) : Prop :=
  c' = uc_with_eviction (uc_eviction c') c /\
  (uc_eviction c' = uc_eviction c \/ uc_eviction c' = evictable s x c).

(** Nothing changed but list entries, and eviction flags to their right value. *)
Record user_part_frame (s s' : parts) : Prop := {
  uf_pointers : up_config (user_parts s') = up_config (user_parts s);
  uf_ids : up_id (user_parts s') = up_id (user_parts s);
  uf_sizes : curr_size s' = curr_size s;
  uf_count : valid_parts_no s' = valid_parts_no s;
  uf_attached : attached s' = attached s;
  uf_standby : standby s' = standby s;
  uf_lines : line_count s' = line_count s;
  uf_policy : cleaning_policy_type s' = cleaning_policy_type s;
  uf_config x : option_Forall2 (flag_updated s x) (part_config s !! x) (part_config s' !! x)
}.

Lemma flag_updated_refl s x c : flag_updated s x c c.
Proof. split; [by destruct c|by left]. Qed.

Lemma size_of_frame s s' x : user_part_frame s s' -> size_of s' x = size_of s x.
Proof. intros [_ _ Hs _ Ha _ _ _ _]. unfold size_of. by rewrite Hs, Ha. Qed.

Lemma evictable_frame s s' x c c' :
  user_part_frame s s' -> flag_updated s x c c' -> evictable s' x c' = evictable s x c.
Proof. intros F [-> _]. unfold evictable. by rewrite (size_of_frame s s'). Qed.

Lemma value_frame s s' x c c' :
  user_part_frame s s' -> flag_updated s x c c' -> value_of s' x c' = value_of s x c.
Proof. intros F [-> _]. unfold value_of. by rewrite (size_of_frame s s'). Qed.

#[export] Instance user_part_frame_preorder : PreOrder user_part_frame.
Proof.
  split.
  - intros s. split; try done. intros x. destruct (part_config s !! x); constructor. apply flag_updated_refl.
  - intros s1 s2 s3 F G. pose proof F as [A1 A2 A3 A4 A5 A6 A7 A8 A9]. pose proof G as [B1 B2 B3 B4 B5 B6 B7 B8 B9].
    split; try congruence. intros x. specialize (A9 x). specialize (B9 x).
    destruct A9 as [c1 c2 Hc|]; inversion B9 as [c2' c3 Hd|]; subst; constructor.
    assert (E := evictable_frame s1 s2 x c1 c2 F Hc).
    destruct Hc as [Hc Hc'], Hd as [Hd Hd']. split.
    + rewrite Hd, Hc. done.
    + rewrite E in Hd'. destruct Hd' as [Hd'|Hd'], Hc' as [Hc'|Hc']; rewrite Hd'; auto.
Qed.

Lemma key_frame s s' x : user_part_frame s s' -> key_of s' x = key_of s x.
Proof.
  intros F. pose proof F as [_ _ _ _ _ _ _ _ Hc]. specialize (Hc x). unfold key_of.
  destruct Hc as [c c' Hf|]; [|done]. cbn. by apply value_frame.
Qed.

(** ** The comparison *)

Lemma wp_config s x c (Q : ocf_user_part_config -> parts -> Prop) :
  up_config (user_parts s) !! x = Some x -> part_config s !! x = Some c -> Q c s -> wp (config_of x) Q s.
Proof. intros Hp Hc HQ. apply wp_bind. eapply wp_load; [exact Hp|]. by eapply wp_load. Qed.

Lemma wp_set_config s x f (Q : unit -> parts -> Prop) :
  up_config (user_parts s) !! x = Some x -> is_Some (part_config s !! x) ->
  Q tt (with_part_config (alter f x (part_config s)) s) -> wp (set_config x f) Q s.
Proof.
  intros Hp [c Hc] HQ. apply wp_bind. eapply wp_load; [exact Hp|]. apply wp_bind. eapply wp_load; [exact Hc|].
  by apply wp_modify.
Qed.

Lemma wp_attached_size s x (Q : Z -> parts -> Prop) :
  is_Some (curr_size s !! x) -> Q (size_of s x) s -> wp (attached_size x) Q s.
Proof.
  intros [v Hv] HQ. unfold size_of in HQ. apply wp_bind, wp_gets. destruct (attached s); [|by apply wp_ret].
  rewrite Hv in HQ. by eapply wp_load.
Qed.

(** The configurations after the flags of [x] were set. *)
Definition flagged (s : parts) (x : Z) (m : gmap Z ocf_user_part_config) : gmap Z ocf_user_part_config :=
  alter (fun c => uc_with_eviction (evictable s x c) c) x m.

Definition flag_by_priority (c : ocf_user_part_config) : ocf_user_part_config :=
  uc_with_eviction (negb (bool_decide (uc_priority c = OCF_IO_CLASS_PRIO_PINNED))) c.
Definition flag_by_size (size : Z) (c : ocf_user_part_config) : ocf_user_part_config :=
  if uc_valid c then c else uc_with_eviction (negb (bool_decide (size = 0))) c.

Lemma flags_compose s x c : flag_by_size (size_of s x) (flag_by_priority c) = uc_with_eviction (evictable s x c) c.
Proof. unfold flag_by_size, evictable. cbn. by destruct (uc_valid c). Qed.

Lemma with_same_config s m : m = part_config s -> with_part_config m s = s.
Proof. intros ->. by destruct s. Qed.

Lemma cmp_value_run s x c size (Q : Z -> parts -> Prop) :
  up_config (user_parts s) !! x = Some x -> part_config s !! x = Some c ->
  Q (if uc_valid c then uc_priority c else if bool_decide (size = 0) then SHRT_MIN else SHRT_MAX)
    (with_part_config (alter (flag_by_size size) x (part_config s)) s) -> wp (cmp_value x size) Q s.
Proof.
  intros Hp Hc HQ. apply wp_bind. eapply wp_config; [done..|].
  assert (E : forall f, f c = flag_by_size size c -> alter (flag_by_size size) x (part_config s) = alter f x (part_config s)).
  { intros f Hf. apply map_eq. intros i. rewrite !lookup_alter. destruct (decide (x = i)) as [<-|]; [|done]. rewrite Hc. cbn. f_equal. symmetry. exact Hf. }
  destruct (uc_valid c) eqn:Hv.
  - apply wp_ret. rewrite with_same_config in HQ; [done|].
    rewrite (E (fun c => c)) by (unfold flag_by_size; by rewrite Hv).
    apply map_eq. intros i. rewrite lookup_alter. destruct (decide (x = i)) as [<-|]; [|done]. by rewrite Hc.
  - case_bool_decide as Hs; cbn [negb]; apply wp_bind, wp_set_config; try done; apply wp_ret.
    + rewrite (E (uc_with_eviction false)) in HQ; try done.
      unfold flag_by_size. by rewrite Hv, bool_decide_eq_true_2.
    + rewrite (E (uc_with_eviction true)) in HQ; try done.
      unfold flag_by_size. by rewrite Hv, bool_decide_eq_false_2.
Qed.

Lemma alter_pairs {A} (g h k l e1 e2 : A -> A) (x y : Z) (m : gmap Z A) cx cy :
  x <> y -> m !! x = Some cx -> m !! y = Some cy -> h (g cx) = e1 cx -> l (k cy) = e2 cy ->
  alter l y (alter h x (alter k y (alter g x m))) = alter e2 y (alter e1 x m).
Proof.
  intros Hne Hx Hy H1 H2. apply map_eq. intros i. rewrite !lookup_alter.
  destruct (decide (y = i)) as [<-|]; [|destruct (decide (x = i)) as [<-|]].
  - repeat case_decide; try congruence. rewrite Hy. cbn. by rewrite H2.
  - repeat case_decide; try congruence. rewrite Hx. cbn. by rewrite H1.
  - done.
Qed.

Lemma cmp_run s x y cx cy :
  x <> y -> user_part_ok s x -> user_part_ok s y -> part_config s !! x = Some cx -> part_config s !! y = Some cy ->
  wp (ocf_user_part_lst_cmp_valid x y) (fun v s' =>
    v = (if bool_decide (value_of s x cx = value_of s y cy) then y - x else value_of s y cy - value_of s x cx) /\
    s' = with_part_config (flagged s y (flagged s x (part_config s))) s) s.
Proof.
  intros Hne (Px & Hx & Sx) (Py & Hy & Sy) Ex Ey. unfold ocf_user_part_lst_cmp_valid.
  apply wp_bind, wp_attached_size; [done|]. apply wp_bind, wp_attached_size; [done|].
  apply wp_bind, wp_bind. eapply wp_config; [done..|]. apply wp_set_config; [done..|]. cbn beta.
  apply wp_bind, wp_bind. eapply wp_config; [done|by cbn; rewrite lookup_alter_ne|].
  apply wp_set_config; [done|cbn; by rewrite lookup_alter_ne|]. cbn beta.
  apply wp_bind. eapply cmp_value_run; [done|cbn; by rewrite lookup_alter_ne, lookup_alter_eq, Ex|].
  apply wp_bind. eapply cmp_value_run; [done|cbn; by rewrite lookup_alter_ne, lookup_alter_eq, lookup_alter_ne, Ey|].
  apply wp_ret. split; [done|]. unfold with_part_config. cbn. f_equal. unfold flagged.
  eapply (alter_pairs _ (flag_by_size (size_of s x)) _ (flag_by_size (size_of s y))); [done..| |];
    apply flags_compose.
Qed.

Lemma flagged_frame s x y : user_part_frame s (with_part_config (flagged s y (flagged s x (part_config s))) s).
Proof.
  split; try done. intros i. cbn.
  assert (H : forall c, flag_updated s i c (uc_with_eviction (evictable s i c) c)) by (split; [done|by right]).
  unfold flagged. destruct (decide (y = i)) as [->|Hy]; [rewrite lookup_alter_eq|rewrite lookup_alter_ne by done];
    (destruct (decide (x = i)) as [->|Hx]; [rewrite lookup_alter_eq|rewrite lookup_alter_ne by done]);
    destruct (part_config s !! i) as [c|]; cbn; constructor; first [apply flag_updated_refl|exact (H c)].
Qed.

Lemma flagged_touched s x y c :
  part_config s !! x = Some c ->
  exists c', flagged s y (flagged s x (part_config s)) !! x = Some c' /\ uc_eviction c' = evictable s x c'.
Proof.
  intros Hc. unfold flagged. rewrite lookup_alter. case_decide as Hy; [subst y|]; rewrite lookup_alter_eq, Hc; by eexists.
Qed.

Lemma key_some s x c : part_config s !! x = Some c -> key_of s x = value_of s x c.
Proof. intros Hc. unfold key_of. by rewrite Hc. Qed.

Lemma user_part_ok_frame s s' x : user_part_frame s s' -> user_part_ok s x -> user_part_ok s' x.
Proof.
  intros [Hp _ Hs _ _ _ _ _ Hc] (P & [c E] & S). specialize (Hc x). rewrite E in Hc. inversion Hc; subst.
  split; [congruence|]. split; [by eexists|]. by rewrite Hs.
Qed.

Lemma before_frame s s' x y : user_part_frame s s' -> user_part_before s' x y <-> user_part_before s x y.
Proof. intros F. unfold user_part_before. by rewrite !(key_frame s s'). Qed.

#[export] Program Instance user_part_order : LstOrder parts := {
  lst_frame := user_part_frame;
  lst_ok := user_part_ok;
  lst_before := user_part_before;
  lst_touched s x := exists c, part_config s !! x = Some c /\ uc_eviction c = evictable s x c
}.
Next Obligation. done. Qed.
Next Obligation.
  intros es s. split; try done. intros x. cbn. destruct (part_config s !! x); constructor. apply flag_updated_refl.
Qed.
Next Obligation. apply user_part_ok_frame. Qed.
Next Obligation. intros s x y z. unfold user_part_before. lia. Qed.
Next Obligation. intros s x y Hne. unfold user_part_before. lia. Qed.
Next Obligation. intros s x. unfold user_part_before. lia. Qed.
Next Obligation. apply before_frame. Qed.
Next Obligation.
  intros s s' x F (c & Hc & He). pose proof F as [_ _ _ _ _ _ _ _ Hx]. specialize (Hx x). rewrite Hc in Hx.
  inversion Hx as [c1 c' Hf|]; subst. exists c'. split; [done|]. rewrite (evictable_frame s s' x c c') by done.
  destruct Hf as [_ [->| ->]]; done.
Qed.
Next Obligation.
  intros cmp s x y [= <-] Hne Hx Hy. pose proof Hx as (_ & [cx Ex] & _). pose proof Hy as (_ & [cy Ey] & _).
  eapply wp_mono; [by eapply (cmp_run s x y cx cy)|]. cbn beta. intros v s' [-> ->].
  split; [done|]. split; [apply flagged_frame|]. split; [|split].
  - unfold user_part_before. rewrite (key_some s y cy), (key_some s x cx) by done. case_bool_decide; lia.
  - destruct (flagged_touched s x y cx Ex) as (c' & Hc' & He). exists c'. done.
  - exists (uc_with_eviction (evictable s y cy) cy). unfold flagged. cbn.
    rewrite lookup_alter_eq, lookup_alter_ne, Ey by done. done.
Qed.

(** ** Sorting the partitions *)

(** The priority list of the cache is [l]. *)
Definition part_list (s : parts) (l : list Z) : Prop :=
  lst_holds s l /\ forall x, x ∈ l -> user_part_ok s x.

Lemma part_list_length s l : part_list s l -> (length l < parts_fuel)%nat.
Proof.
  intros [[[Hnd Hr _] _] _]. assert (H := lines_bound l 34 ltac:(lia) Hnd Hr). unfold parts_fuel. lia.
Qed.

Lemma part_list_frame s s' l : part_list s l -> user_part_frame s s' -> lst_holds s' l -> part_list s' l.
Proof. intros [_ Hok] F HL. split; [done|]. intros x Hx. eapply user_part_ok_frame; [done|by apply Hok]. Qed.

Lemma flags_now s x : lst_touched s x -> exists c, part_config s !! x = Some c /\ uc_eviction c = evictable s x c.
Proof. done. Qed.

Lemma strongly_sorted_ext (R R' : Z -> Z -> Prop) l :
  (forall x y, R x y -> R' x y) -> StronglySorted R l -> StronglySorted R' l.
Proof.
  intros H. induction 1 as [|x l Hl IH Hx]; [constructor|]. apply StronglySorted_cons. split; [|done].
  eapply Forall_impl; [exact Hx|]. auto.
Qed.

Lemma user_part_sort_wp s l :
  part_list s l -> wp ocf_user_part_sort (fun _ s' => exists d, d ≡ₚ l /\ part_list s' d /\
    StronglySorted (user_part_before s') d /\ user_part_frame s s' /\
    ((2 <= length d)%nat -> forall x, x ∈ d -> exists c, part_config s' !! x = Some c /\ uc_eviction c = evictable s' x c)) s.
Proof.
  intros HL. pose proof HL as [Hh Hok]. eapply wp_mono.
  { apply (sort_wp ocf_user_part_lst_cmp_valid s l parts_fuel); [done|exact Hh|exact Hok|by eapply part_list_length]. }
  cbn beta. intros [] s' (d & [Hp _ Hs F Ht] & Hd). exists d. split; [done|]. split; [|split; [|split; [done|]]].
  - split; [done|]. intros x Hx. eapply user_part_ok_frame; [done|]. apply Hok. by rewrite <- Hp.
  - eapply strongly_sorted_ext; [|exact Hs]. intros x y. by apply (before_frame s s').
  - intros Hlen x Hx. by apply flags_now, Ht.
Qed.

(** ** Well-formed classes *)

Definition all_classes : list Z := Z.of_nat <$> seq 0 34.

Record config_ok (c : ocf_user_part_config) : Prop := {
  cf_name : (String.length (uc_name c) < OCF_IO_CLASS_NAME_MAX)%nat;
  cf_min : uc_min_size c = 0;
  cf_max : 0 <= uc_max_size c <= PARTITION_SIZE_MAX;
  cf_prio : ocf_user_part_is_prio_valid (uc_priority c) = true;
  cf_mode : ocf_cache_mode_none <= uc_cache_mode c <= ocf_cache_mode_max
}.

Definition valid_in (m : gmap Z ocf_user_part_config) (x : Z) : bool :=
  match m !! x with Some c => uc_valid c | None => false end.

Definition count_valid (m : gmap Z ocf_user_part_config) : Z :=
  Z.of_nat (length (filter (fun x => valid_in m x = true) all_classes)).

Record parts_ok (s : parts) (l : list Z) : Prop := {
  po_list : lst_holds s l;
  po_pointers x : 0 <= x < 34 -> user_part_ok s x;
  po_config x c : 0 <= x < 34 -> part_config s !! x = Some c -> config_ok c;
  po_count : valid_parts_no s = count_valid (part_config s);
  po_default : valid_in (part_config s) OCF_IO_CLASS_UNCLASSIFIED = true
}.

Lemma elem_of_classes x : x ∈ all_classes <-> 0 <= x < 34.
Proof.
  unfold all_classes. rewrite list_elem_of_fmap. split.
  - intros (k & -> & Hk%elem_of_seq). lia.
  - intros Hx. exists (Z.to_nat x). split; [lia|]. apply elem_of_seq. lia.
Qed.

Lemma filter_ext_in {A} (P Q : A -> Prop) `{forall x, Decision (P x), forall x, Decision (Q x)} (l : list A) :
  (forall x, x ∈ l -> P x <-> Q x) -> filter P l = filter Q l.
Proof.
  intros HPQ. induction l as [|x l IH]; [done|]. rewrite !filter_cons, IH by (intros; apply HPQ; by right).
  destruct (decide (P x)) as [p|p], (decide (Q x)) as [q|q]; try done; exfalso; [apply q|apply p]; apply (HPQ x); auto; left.
Qed.

(** Changing the configuration of one class. *)
Lemma count_valid_alter m x c f :
  0 <= x < 34 -> m !! x = Some c ->
  count_valid (alter f x m) = count_valid m - Z.b2z (uc_valid c) + Z.b2z (uc_valid (f c)).
Proof.
  intros Hx Hc. unfold count_valid.
  destruct (list_elem_of_split _ _ (proj2 (elem_of_classes x) Hx)) as (l1 & l2 & El).
  assert (Hnd : NoDup all_classes) by (apply NoDup_fmap_2; [intros ? ? ?; lia|apply NoDup_seq]).
  rewrite El in *. rewrite !filter_app, !filter_cons, !length_app.
  assert (Hn := nodup_pivot _ _ _ Hnd).
  rewrite (filter_ext_in (fun y => valid_in (alter f x m) y = true) (fun y => valid_in m y = true) l1),
    (filter_ext_in (fun y => valid_in (alter f x m) y = true) (fun y => valid_in m y = true) l2).
  - assert (E1 : valid_in (alter f x m) x = uc_valid (f c)) by (unfold valid_in; by rewrite lookup_alter_eq, Hc).
    assert (E2 : valid_in m x = uc_valid c) by (unfold valid_in; by rewrite Hc).
    rewrite E1, E2. destruct (uc_valid c), (uc_valid (f c)); repeat case_decide; try done; cbn [length Z.b2z]; lia.
  - intros y Hy. unfold valid_in. rewrite lookup_alter_ne; [done|]. intros ->. apply Hn, elem_of_app. by right.
  - intros y Hy. unfold valid_in. rewrite lookup_alter_ne; [done|]. intros ->. apply Hn, elem_of_app. by left.
Qed.

Lemma count_valid_bounds m : 0 <= count_valid m <= 34.
Proof.
  unfold count_valid. assert (H := length_filter (fun x => valid_in m x = true) all_classes).
  unfold all_classes in H at 2. rewrite length_fmap, length_seq in H. lia.
Qed.

(** ** Names *)

Lemma substring_full (s : string) n : (String.length s <= n)%nat -> substring 0 n s = s.
Proof.
  revert n. induction s as [|a s IH]; intros [|n] H; cbn in *; try done; [lia|]. by rewrite IH by lia.
Qed.

Lemma name_valid_length name k :
  name_valid_from name k = true -> name = EmptyString \/ (String.length name + k < OCF_IO_CLASS_NAME_MAX)%nat.
Proof.
  revert k. induction name as [|a name IH]; intros k; cbn [name_valid_from String.length]; [by left|].
  intros [_ H]%andb_true_iff. right. destruct (decide (OCF_IO_CLASS_NAME_MAX <= S k)%nat) as [Hk|Hk].
  { by rewrite bool_decide_eq_true_2 in H. }
  rewrite bool_decide_eq_false_2 in H by done. destruct (IH _ H) as [->|?]; cbn; lia.
Qed.

Lemma valid_name_length name :
  ocf_user_part_is_name_valid name = true -> (String.length name < OCF_IO_CLASS_NAME_MAX)%nat.
Proof. intros [->|?]%name_valid_length; [cbn; unfold OCF_IO_CLASS_NAME_MAX; lia|lia]. Qed.

Lemma strncpy_name name :
  (String.length name < OCF_IO_CLASS_NAME_MAX)%nat ->
  env_strncpy OCF_IO_CLASS_NAME_MAX name OCF_IO_CLASS_NAME_MAX = name.
Proof. intros H. apply substring_full. lia. Qed.

(** ** The effect of configuring one class *)

(** What a removed class holds. *)
Definition removed_config (c : ocf_user_part_config) : ocf_user_part_config :=
  UserPartConfig "Inactive" 0 PARTITION_SIZE_MAX false (uc_added c) (uc_eviction c) OCF_IO_CLASS_PRIO_LOWEST (uc_cache_mode c).

Definition default_class (id : Z) : bool :=
  bool_decide (id = OCF_IO_CLASS_UNCLASSIFIED) || bool_decide (id = OCF_IO_CLASS_PREFETCH).

(** The result of editing a class with the configuration [c], and its new one. *)
Definition edit_spec (cfg : ocf_mngt_io_class_config) (c : ocf_user_part_config) : Z * ocf_user_part_config :=
  match cfg_name cfg with
  | None =>
    (0, if bool_decide (cfg_class_id cfg = OCF_IO_CLASS_UNCLASSIFIED) then c
        else if uc_valid c then removed_config c else c)
  | Some name =>
    if negb (uc_added c) || bool_decide (name = EmptyString) then (- OCF_ERR_INVAL, c)
    else if default_class (cfg_class_id cfg) then
      if bool_decide (name = uc_name c)
      then (0, UserPartConfig (uc_name c) 0 (cfg_max_size cfg) (uc_valid c) (uc_added c) (uc_eviction c) (cfg_prio cfg) (cfg_cache_mode cfg))
      else (- OCF_ERR_INVAL, c)
    else (0, UserPartConfig name 0 (cfg_max_size cfg) true (uc_added c) (uc_eviction c) (cfg_prio cfg) (cfg_cache_mode cfg))
  end.

(** The state in which [c'] has replaced the configuration [c] of class [id]. *)
Definition reconfigured (s : parts) (id : Z) (c c' : ocf_user_part_config) : parts :=
  with_valid_parts_no (valid_parts_no s - Z.b2z (uc_valid c) + Z.b2z (uc_valid c'))
    (with_part_config (<[id := c']> (part_config s)) s).

(** A request for a class that passed validation. *)
Record cfg_valid (cfg : ocf_mngt_io_class_config) : Prop := {
  cv_id : 0 <= cfg_class_id cfg < 34;
  cv_rest name : cfg_name cfg = Some name ->
    (String.length name < OCF_IO_CLASS_NAME_MAX)%nat /\
    ocf_cache_mode_none <= cfg_cache_mode cfg <= ocf_cache_mode_max /\
    ocf_user_part_is_prio_valid (cfg_prio cfg) = true /\ 0 <= cfg_max_size cfg <= PARTITION_SIZE_MAX
}.

Lemma validate_cfg_valid cfg : 0 <= cfg_class_id cfg -> _ocf_mngt_io_class_validate_cfg cfg = 0 -> cfg_valid cfg.
Proof.
  intros Hid. unfold _ocf_mngt_io_class_validate_cfg. case_bool_decide as H1; [done|]. intros H.
  split; [unfold OCF_USER_IO_CLASS_MAX in H1; lia|]. intros name Hname. rewrite Hname in H. revert H.
  repeat case_bool_decide; cbn [orb]; try done;
    destruct (ocf_user_part_is_name_valid name) eqn:Hn; try done;
    destruct (ocf_user_part_is_prio_valid (cfg_prio cfg)) eqn:Hp; try done.
  intros _. unfold PARTITION_SIZE_MIN in *. split; [by apply valid_name_length|]. split; [lia|]. split; [done|lia].
Qed.

Lemma reconfigured_ok s l id c c' :
  parts_ok s l -> 0 <= id < 34 -> part_config s !! id = Some c -> config_ok c' ->
  (id = OCF_IO_CLASS_UNCLASSIFIED -> uc_valid c' = true) ->
  parts_ok (reconfigured s id c c') l.
Proof.
  intros [HL Hp Hc Hn Hd] Hid Ec Hc' Hv.
  assert (E : <[id:=c']> (part_config s) = alter (fun _ => c') id (part_config s)).
  { apply map_eq. intros i. destruct (decide (id = i)) as [->|?].
    - by rewrite lookup_insert_eq, lookup_alter_eq, Ec.
    - by rewrite lookup_insert_ne, lookup_alter_ne. }
  split; try done.
  - by apply (lst_holds_same s).
  - intros x Hx. destruct (Hp x Hx) as (? & ? & ?). split; [done|]. split; [|done]. cbn.
    destruct (decide (id = x)) as [->|?]; [rewrite lookup_insert_eq; by eexists|by rewrite lookup_insert_ne].
  - intros x c0 Hx. cbn. destruct (decide (id = x)) as [->|?].
    + rewrite lookup_insert_eq. by intros [= <-].
    + rewrite lookup_insert_ne by done. by apply Hc.
  - cbn. rewrite Hn, E, (count_valid_alter _ id c) by done. lia.
  - cbn. unfold valid_in. destruct (decide (id = OCF_IO_CLASS_UNCLASSIFIED)) as [->|?].
    + rewrite lookup_insert_eq. by apply Hv.
    + by rewrite lookup_insert_ne.
Qed.

Lemma edit_spec_ok cfg c : cfg_valid cfg -> config_ok c -> config_ok (snd (edit_spec cfg c)).
Proof.
  intros [_ Hv] Hc. unfold edit_spec. destruct (cfg_name cfg) as [name|].
  - destruct (Hv name eq_refl) as (? & ? & ? & ?). destruct Hc as [Hn Hm Hx Hp Ho].
    repeat case_match; cbn; by split.
  - repeat case_match; cbn; try done. destruct Hc as [Hn Hm Hx Hp Ho]. split; cbn; try done.
    unfold OCF_IO_CLASS_NAME_MAX. lia.
Qed.

(** *** The code computes [edit_spec] *)

(** What the loop over the partitions relies on: no class reserves a minimum. *)
Definition no_minimum (s : parts) : Prop := forall x, 0 <= x < 34 ->
  up_config (user_parts s) !! x = Some x /\ exists c, part_config s !! x = Some c /\ uc_min_size c = 0.

Lemma wp_user_parts {A} s l (body : Z -> A -> PM (A + A)) (I : list Z -> A -> Prop) (Q : A -> parts -> Prop) acc :
  lst_holds s l -> I [] acc ->
  (forall pre x post a, l = pre ++ x :: post -> I pre a ->
    wp (body x a) (fun r s' => s' = s /\ match r with inl a' => Q a' s | inr a' => I (pre ++ [x]) a' end) s) ->
  (forall a, I l a -> Q a s) -> wp (for_each_user_part body acc) Q s.
Proof.
  intros [[Hnd Hr H] _] HI Hb HQ. unfold for_each_user_part.
  assert (Hlen := lines_bound l 34 ltac:(lia) Hnd Hr).
  destruct (link_lookup _ _ _ _ [] _ H) as (h & Hh & _ & Hn). cbn in Hn.
  apply wp_bind. eapply (wp_next s OCF_USER_IO_CLASS_MAX h); [exact Hh|]. rewrite Hn.
  change (hdd OCF_USER_IO_CLASS_MAX l) with (hdd lst_invalid l).
  eapply (wp_for_each (lst_entries s) l body (fun pre a s' => s' = s /\ I pre a)); try done.
  - unfold parts_fuel. lia.
  - intros pre x post a s1 El _ [-> Ha]. eapply wp_mono; [by eapply Hb|]. cbn beta. intros r s2 [-> Hr2].
    split; [done|]. by destruct r.
  - intros a s1 _ [-> Ha]. by apply HQ.
Qed.

Lemma count_min_wp s l (Q : Z -> parts -> Prop) :
  lst_holds s l -> no_minimum s -> Q 0 s -> wp _ocf_mngt_count_user_parts_min_size Q s.
Proof.
  intros HL Hm HQ. pose proof HL as [[_ Hr _] _]. apply (wp_user_parts s l _ (fun _ a => a = 0)); [done|done| |by intros a ->].
  intros pre x post a El ->. destruct (Hm x) as (Hp & c & Hc & Hc0); [apply Hr; rewrite El, elem_of_app; right; left|].
  apply wp_bind, wp_bind. eapply wp_config; [done..|]. apply wp_ret. destruct (uc_valid c).
  - apply wp_bind. eapply wp_config; [done..|]. apply wp_ret. by rewrite Hc0.
  - by apply wp_ret.
Qed.

Lemma set_size_wp s l id max (Q : Z -> parts -> Prop) :
  lst_holds s l -> no_minimum s -> 0 <= id < 34 -> 0 <= max <= PARTITION_SIZE_MAX ->
  Q 0 (with_part_config (alter (uc_with_max_size max) id (alter (uc_with_min_size 0) id (part_config s))) s) ->
  wp (_ocf_mngt_set_partition_size id 0 max) Q s.
Proof.
  intros HL Hm Hid Hmax HQ. unfold _ocf_mngt_set_partition_size. unfold PARTITION_SIZE_MAX in *.
  rewrite bool_decide_eq_false_2 by lia. apply wp_bind. eapply count_min_wp; [done..|]. cbn beta.
  rewrite bool_decide_eq_false_2 by done. rewrite bool_decide_eq_false_2 by lia. cbn zeta.
  destruct (Hm id Hid) as (Hp & c & Hc & _).
  apply wp_bind, wp_set_config; [done|by eexists|].
  apply wp_bind, wp_set_config; [done|cbn; rewrite lookup_alter_eq, Hc; by eexists|]. by apply wp_ret.
Qed.

Lemma with_config_twice m m' s : with_part_config m (with_part_config m' s) = with_part_config m s.
Proof. done. Qed.

Lemma set_prio_mode_wp s id c prio mode (Q : unit -> parts -> Prop) :
  up_config (user_parts s) !! id = Some id -> part_config s !! id = Some c ->
  Q tt (with_part_config (<[id := uc_with_cache_mode mode (uc_with_priority prio c)]> (part_config s)) s) ->
  wp (set_prio_and_mode id prio mode) Q s.
Proof.
  intros Hp Hc HQ. apply wp_bind, wp_bind. eapply wp_config; [done..|].
  assert (E : alter (uc_with_cache_mode mode) id (<[id := uc_with_priority prio c]> (part_config s)) =
    <[id := uc_with_cache_mode mode (uc_with_priority prio c)]> (part_config s)).
  { apply map_eq. intros i. destruct (decide (id = i)) as [->|?].
    - by rewrite lookup_alter_eq, !lookup_insert_eq.
    - by rewrite lookup_alter_ne, !lookup_insert_ne. }
  assert (E2 : alter (uc_with_priority prio) id (part_config s) = <[id := uc_with_priority prio c]> (part_config s)).
  { apply map_eq. intros i. destruct (decide (id = i)) as [->|?].
    - by rewrite lookup_alter_eq, lookup_insert_eq, Hc.
    - by rewrite lookup_alter_ne, lookup_insert_ne. }
  apply wp_when.
  - intros _. apply wp_set_config; [done|by eexists|]. cbn beta.
    apply wp_set_config; [done|cbn; rewrite lookup_alter_eq, Hc; by eexists|].
    cbn [part_config with_part_config]. rewrite with_config_twice, E2, E. exact HQ.
  - intros Hb. apply negb_false_iff, bool_decide_eq_true_1 in Hb.
    apply wp_set_config; [done|by eexists|]. rewrite <- E in HQ. rewrite insert_id in HQ; [done|].
    rewrite Hc. f_equal. rewrite <- Hb. by destruct c.
Qed.

Lemma part_set_valid_wp s id c (valid : bool) (Q : unit -> parts -> Prop) :
  up_config (user_parts s) !! id = Some id -> part_config s !! id = Some c ->
  valid <> uc_valid c -> 0 <= valid_parts_no s - Z.b2z (uc_valid c) + Z.b2z valid < 2 ^ 32 ->
  Q tt (reconfigured s id c (if valid then uc_with_valid true c else removed_config c)) ->
  wp (ocf_user_part_set_valid id valid) Q s.
Proof.
  intros Hp Hc Hne Hb HQ. unfold ocf_user_part_set_valid. apply wp_bind. eapply wp_config; [done..|].
  destruct valid, (uc_valid c) eqn:Hv; try done; cbn [xorb].
  - apply wp_bind, wp_set_config; [done|by eexists|]. apply wp_modify. cbn beta.
    assert (E : with_valid_parts_no (u32 (valid_parts_no s + 1)) (with_part_config (alter (uc_with_valid true) id (part_config s)) s)
      = reconfigured s id c (uc_with_valid true c)); [|by rewrite <- E in HQ].
    unfold reconfigured. rewrite Hv. cbn [Z.b2z uc_with_valid uc_valid] in *. rewrite wrap_small by lia.
    unfold with_valid_parts_no, with_part_config. cbn. f_equal; [|lia].
    apply map_eq. intros i. destruct (decide (id = i)) as [->|?].
    + by rewrite lookup_alter_eq, lookup_insert_eq, Hc.
    + by rewrite lookup_alter_ne, lookup_insert_ne.
  - apply wp_bind, wp_set_config; [done|by eexists|]. apply wp_bind, wp_modify. cbn beta.
    do 3 (apply wp_bind, wp_set_config; [done|cbn; rewrite ?lookup_alter_eq, Hc; by eexists|]; cbn beta).
    apply wp_set_config; [done|cbn; rewrite ?lookup_alter_eq, Hc; by eexists|]. cbn beta.
    match goal with |- Q tt ?st => assert (E : st = reconfigured s id c (removed_config c)) end; [|by rewrite E].
    unfold reconfigured. rewrite Hv. cbn [Z.b2z removed_config uc_valid] in *.
    unfold with_valid_parts_no, with_part_config. cbn [part_config valid_parts_no user_parts curr_size attached standby line_count cleaning_policy_type].
    f_equal; [|rewrite wrap_small by lia; lia].
    apply map_eq. intros i. destruct (decide (id = i)) as [->|?].
    + rewrite !lookup_alter_eq, lookup_insert_eq, Hc. done.
    + by rewrite !lookup_alter_ne, lookup_insert_ne.
Qed.

Lemma parts_no_minimum s l : parts_ok s l -> no_minimum s.
Proof.
  intros [_ Hp Hc _ _] x Hx. destruct (Hp x Hx) as (? & [c Ec] & _). split; [done|]. exists c. split; [done|].
  by apply (cf_min _ (Hc x c Hx Ec)).
Qed.

Lemma parts_count_bounds s l id c :
  parts_ok s l -> 0 <= id < 34 -> part_config s !! id = Some c ->
  0 <= valid_parts_no s - Z.b2z (uc_valid c) /\ valid_parts_no s - Z.b2z (uc_valid c) + 1 <= 34.
Proof.
  intros [_ _ _ Hn _] Hid Hc. rewrite Hn.
  assert (H1 := count_valid_alter _ id c (uc_with_valid false) Hid Hc).
  assert (H2 := count_valid_alter _ id c (uc_with_valid true) Hid Hc). cbn [uc_with_valid uc_valid Z.b2z] in *.
  assert (B1 := count_valid_bounds (alter (uc_with_valid false) id (part_config s))).
  assert (B2 := count_valid_bounds (alter (uc_with_valid true) id (part_config s))). lia.
Qed.

Lemma reconfigured_same s id c : part_config s !! id = Some c -> reconfigured s id c c = s.
Proof.
  intros Hc. unfold reconfigured. rewrite insert_id by done.
  replace (valid_parts_no s - Z.b2z (uc_valid c) + Z.b2z (uc_valid c)) with (valid_parts_no s) by lia. by destruct s.
Qed.

Lemma class_remove_wp s l cfg c (Q : unit -> parts -> Prop) :
  parts_ok s l -> attached s = true -> cfg_valid cfg -> cfg_name cfg = None -> part_config s !! cfg_class_id cfg = Some c ->
  Q tt (reconfigured s (cfg_class_id cfg) c (snd (edit_spec cfg c))) -> wp (_ocf_mngt_io_class_remove cfg) Q s.
Proof.
  intros Hok Ha [Hid _] Hname Hc HQ. pose proof Hok as [_ Hp _ _ _]. destruct (Hp _ Hid) as (Hpt & _).
  assert (B := parts_count_bounds s l _ c Hok Hid Hc).
  unfold _ocf_mngt_io_class_remove. rewrite wrap_small by lia. cbn zeta. unfold edit_spec in HQ. rewrite Hname in HQ. cbn [snd] in HQ.
  apply wp_bind, wp_gets, wp_bind, wp_bug_on; [by rewrite Ha|].
  case_bool_decide as Hd.
  { apply wp_ret. by rewrite reconfigured_same in HQ. }
  apply wp_bind, wp_bind. eapply wp_config; [done..|]. apply wp_ret. destruct (uc_valid c) eqn:Hv; cbn [negb].
  - eapply part_set_valid_wp; [done..|by rewrite Hv| |exact HQ]. rewrite Hv in *. cbn [Z.b2z] in *. lia.
  - apply wp_ret. by rewrite reconfigured_same in HQ.
Qed.

Lemma strncmp_name (s1 s2 : string) :
  (String.length s1 < OCF_IO_CLASS_NAME_MAX)%nat -> (String.length s2 < OCF_IO_CLASS_NAME_MAX)%nat ->
  env_strncmp s1 OCF_IO_CLASS_NAME_MAX s2 OCF_IO_CLASS_NAME_MAX = negb (bool_decide (s1 = s2)).
Proof.
  intros H1 H2. unfold env_strncmp. rewrite Nat.min_id, !substring_full by lia. f_equal.
  destruct (String.eqb_spec s1 s2); by case_bool_decide.
Qed.

Lemma configure_wp s l cfg name c (Q : Z -> parts -> Prop) :
  parts_ok s l -> attached s = true -> cfg_valid cfg -> cfg_name cfg = Some name -> part_config s !! cfg_class_id cfg = Some c ->
  Q (fst (edit_spec cfg c)) (reconfigured s (cfg_class_id cfg) c (snd (edit_spec cfg c))) ->
  wp (_ocf_mngt_io_class_configure cfg name) Q s.
Proof.
  intros Hok Ha [Hid Hrest] Hname Hc HQ. pose proof Hok as [HL Hp Hcf _ _]. destruct (Hp _ Hid) as (Hpt & _).
  destruct (Hrest name Hname) as (Hlen & _ & _ & Hmax). assert (Hm := parts_no_minimum s l Hok).
  assert (B := parts_count_bounds s l _ c Hok Hid Hc).
  unfold _ocf_mngt_io_class_configure. rewrite wrap_small by lia. cbn zeta. set (id := cfg_class_id cfg) in *.
  unfold edit_spec in HQ. rewrite Hname in HQ. fold id in HQ.
  apply wp_bind, wp_gets, wp_bind, wp_bug_on; [by rewrite Ha|].
  apply wp_bind, wp_bind. eapply wp_config; [done..|]. apply wp_ret.
  destruct (uc_added c) eqn:Hadd; cbn [negb orb] in HQ |- *; [|apply wp_ret; cbn in HQ; by rewrite reconfigured_same in HQ].
  destruct name as [|ch rest] eqn:En.
  { apply wp_ret. cbn in HQ. by rewrite reconfigured_same in HQ. }
  rewrite <- En in *. rewrite bool_decide_eq_false_2 in HQ by (rewrite En; done).
  apply wp_bind. eapply wp_config; [done..|]. fold (default_class id). destruct (default_class id) eqn:Hd.
  - rewrite strncmp_name by (try done; apply (cf_name _ (Hcf _ _ Hid Hc))).
    case_bool_decide as Heq; cbn [negb]; [|apply wp_ret; cbn in HQ; by rewrite reconfigured_same in HQ].
    apply wp_bind. eapply set_size_wp; [done..|]. rewrite bool_decide_eq_true_2 by done. cbn [negb].
    apply wp_bind. eapply set_prio_mode_wp; [done|cbn; rewrite !lookup_alter_eq, Hc; done|]. apply wp_ret.
    match goal with |- Q _ ?st => match type of HQ with Q _ ?st' => assert (E : st = st') end end; [|by rewrite E].
    cbn [fst snd]. unfold reconfigured, with_valid_parts_no, with_part_config. cbn. f_equal; [|lia].
    apply map_eq. intros i. destruct (decide (id = i)) as [<-|?].
    + rewrite !lookup_insert_eq. by rewrite <- Hadd.
    + by rewrite !lookup_insert_ne, !lookup_alter_ne.
  - apply wp_bind, wp_set_config; [done|by eexists|]. rewrite strncpy_name by done.
    set (s1 := with_part_config (alter (uc_with_name name) id (part_config s)) s).
    assert (E1 : part_config s1 !! id = Some (uc_with_name name c)) by (cbn; by rewrite lookup_alter_eq, Hc).
    apply wp_bind. eapply (set_size_wp s1 l); [by apply (lst_holds_same s)| |done|done|].
    { intros x Hx. destruct (Hm x Hx) as (Hpx & cx & Hcx & Hmx). split; [done|]. destruct (decide (id = x)) as [<-|Hne].
      - eexists. split; [exact E1|]. cbn. congruence.
      - exists cx. cbn. by rewrite lookup_alter_ne. }
    rewrite bool_decide_eq_true_2 by done. cbn [negb].
    set (c2 := uc_with_max_size (cfg_max_size cfg) (uc_with_min_size 0 (uc_with_name name c))).
    match goal with |- wp _ _ ?st => set (s2 := st) end.
    assert (E2 : part_config s2 !! id = Some c2) by (cbn; by rewrite !lookup_alter_eq, Hc).
    assert (Es2 : s2 = with_part_config (<[id := c2]> (part_config s)) s).
    { unfold s2, s1, with_part_config. cbn. f_equal. apply map_eq. intros i. destruct (decide (id = i)) as [<-|?].
      - by rewrite !lookup_alter_eq, lookup_insert_eq, Hc.
      - by rewrite !lookup_alter_ne, lookup_insert_ne. }
    clearbody s1. assert (Hp2 : up_config (user_parts s2) !! id = Some id) by (by rewrite Es2).
    clearbody s2. apply wp_bind, wp_bind. eapply wp_config; [done..|]. apply wp_ret. change (uc_valid c2) with (uc_valid c).
    assert (Hfin : forall s3, s3 = reconfigured s id c (uc_with_valid true c2) ->
      wp (_ ← set_prio_and_mode id (cfg_prio cfg) (cfg_cache_mode cfg); mret 0) Q s3).
    { intros s3 ->. apply wp_bind. eapply set_prio_mode_wp; [done|cbn; by rewrite lookup_insert_eq|]. apply wp_ret.
      match goal with |- Q _ ?st => match type of HQ with Q _ ?st' => assert (E : st = st') end end; [|by rewrite E].
      cbn [fst snd]. unfold reconfigured, with_valid_parts_no, with_part_config. cbn. f_equal.
      rewrite insert_insert_eq. by rewrite <- Hadd. }
    destruct (uc_valid c) eqn:Hv.
    + apply wp_bind, wp_ret, Hfin. rewrite Es2. unfold reconfigured, with_valid_parts_no, with_part_config. cbn.
      rewrite Hv. f_equal; [|cbn [Z.b2z]; lia]. f_equal. unfold uc_with_valid. by rewrite <- Hv.
    + apply wp_bind. eapply part_set_valid_wp; [done..|cbn; by rewrite Hv| |].
      * rewrite Es2. cbn [uc_valid c2 uc_with_max_size uc_with_min_size uc_with_name valid_parts_no with_part_config]. cbn [Z.b2z] in *. change (uc_valid c2) with (uc_valid c). rewrite Hv. cbn [Z.b2z]. lia.
      * apply Hfin. rewrite Es2. unfold reconfigured, with_valid_parts_no, with_part_config. cbn. f_equal.
        by rewrite insert_insert_eq.
Qed.

Lemma edit_wp s l cfg c (Q : Z -> parts -> Prop) :
  parts_ok s l -> attached s = true -> cfg_valid cfg -> part_config s !! cfg_class_id cfg = Some c ->
  Q (fst (edit_spec cfg c)) (reconfigured s (cfg_class_id cfg) c (snd (edit_spec cfg c))) ->
  wp (_ocf_mngt_io_class_edit cfg) Q s.
Proof.
  intros Hok Ha Hv Hc HQ. unfold _ocf_mngt_io_class_edit. destruct (cfg_name cfg) as [name|] eqn:Hname.
  - by eapply configure_wp.
  - apply wp_bind. eapply class_remove_wp; [done..|]. apply wp_ret. unfold edit_spec in HQ at 1. by rewrite Hname in HQ.
Qed.

Lemma edited_ok s l cfg c :
  parts_ok s l -> cfg_valid cfg -> part_config s !! cfg_class_id cfg = Some c ->
  parts_ok (reconfigured s (cfg_class_id cfg) c (snd (edit_spec cfg c))) l.
Proof.
  intros Hok Hv Hc. pose proof Hok as [_ _ Hcf _ Hd]. destruct (Hv) as [Hid _].
  apply reconfigured_ok; [done..|apply edit_spec_ok; [done|by eapply Hcf]|].
  intros Hun. unfold valid_in in Hd. rewrite Hun in Hc. rewrite Hc in Hd. unfold edit_spec, default_class. rewrite Hun.
  repeat case_match; cbn; done.
Qed.

(** ** Configuring all classes *)

(** The configuration of class [id] after the edits that concern it. *)
Definition final_config (cfgs : list ocf_mngt_io_class_config) (id : Z) (c : ocf_user_part_config) : ocf_user_part_config :=
  foldl (fun c cfg => if bool_decide (cfg_class_id cfg = id) then snd (edit_spec cfg c) else c) c cfgs.

(** What edits leave alone, and what they cannot change. *)
Record edited (s s' : parts) : Prop := {
  ed_array : user_parts s' = user_parts s;
  ed_attached : attached s' = attached s;
  ed_sizes : curr_size s' = curr_size s;
  ed_standby : standby s' = standby s;
  ed_prefetch : valid_in (part_config s) OCF_IO_CLASS_PREFETCH = false -> valid_in (part_config s') OCF_IO_CLASS_PREFETCH = false
}.

Lemma edit_spec_prefetch cfg c :
  cfg_class_id cfg = OCF_IO_CLASS_PREFETCH -> uc_valid c = false -> uc_valid (snd (edit_spec cfg c)) = false.
Proof.
  intros Hid Hv. unfold edit_spec, default_class. rewrite Hid. repeat case_match; cbn; try done; congruence.
Qed.

Lemma edited_one s cfg c :
  part_config s !! cfg_class_id cfg = Some c -> edited s (reconfigured s (cfg_class_id cfg) c (snd (edit_spec cfg c))).
Proof.
  intros Hc. split; try done. unfold valid_in. cbn. intros Hp.
  destruct (decide (cfg_class_id cfg = OCF_IO_CLASS_PREFETCH)) as [E|Hne].
  - rewrite E, lookup_insert_eq. rewrite <- E, Hc in Hp. by apply edit_spec_prefetch.
  - by rewrite lookup_insert_ne.
Qed.

Lemma edited_trans s1 s2 s3 : edited s1 s2 -> edited s2 s3 -> edited s1 s3.
Proof. intros [? ? ? ? ?] [? ? ? ? ?]. split; [congruence..|auto]. Qed.

Lemma edit_all_wp cfgs s l :
  parts_ok s l -> attached s = true -> Forall cfg_valid cfgs ->
  wp (edit_all cfgs) (fun r s' => parts_ok s' l /\ edited s s' /\ (r = 0 \/ r = - OCF_ERR_INVAL) /\
    (r = 0 -> forall id c, part_config s !! id = Some c -> part_config s' !! id = Some (final_config cfgs id c))) s.
Proof.
  revert s. induction cfgs as [|cfg cfgs IH]; intros s Hok Ha Hv; cbn [edit_all].
  - apply wp_ret. split; [done|]. split; [by split|]. split; [by left|done].
  - apply Forall_cons in Hv as [Hv Hvs]. pose proof Hok as [_ Hp _ _ _].
    destruct (Hp _ (cv_id _ Hv)) as (_ & [c Hc] & _).
    apply wp_bind. eapply edit_wp; [done..|]. cbn beta.
    assert (Hr : fst (edit_spec cfg c) = 0 \/ fst (edit_spec cfg c) = - OCF_ERR_INVAL).
    { unfold edit_spec. repeat case_match; cbn; auto. }
    assert (Hok1 := edited_ok s l cfg c Hok Hv Hc). assert (Hed := edited_one s cfg c Hc).
    case_bool_decide as H0; [|apply wp_ret; by split_and!].
    eapply wp_mono; [by apply IH|]. cbn beta. intros r s' (Hok' & Hed' & Hr' & Hf).
    split; [done|]. split; [by eapply edited_trans|]. split; [done|]. intros Hr0 id c0 Hc0. unfold final_config. cbn [foldl].
    apply Hf; [done|]. cbn. case_bool_decide as Hid.
    + subst id. rewrite lookup_insert_eq. congruence.
    + by rewrite lookup_insert_ne.
Qed.

Lemma validate_all_valid cfgs :
  (forall cfg, cfg ∈ cfgs -> 0 <= cfg_class_id cfg) -> validate_all cfgs = 0 -> Forall cfg_valid cfgs.
Proof.
  induction cfgs as [|cfg cfgs IH]; intros Hid; cbn; [constructor|]. case_bool_decide as H; [|done].
  intros Hv. constructor; [apply validate_cfg_valid; [apply Hid; left|done]|]. apply IH; [|done]. intros c Hc. apply Hid. by right.
Qed.

Lemma validate_all_result cfgs : validate_all cfgs = 0 \/ validate_all cfgs = - OCF_ERR_INVAL.
Proof.
  induction cfgs as [|cfg cfgs IH]; cbn; [by left|]. case_bool_decide as H; [done|]. revert H.
  unfold _ocf_mngt_io_class_validate_cfg. repeat case_match; auto.
Qed.

Lemma frame_ok s s' l d : parts_ok s l -> user_part_frame s s' -> lst_holds s' d -> parts_ok s' d.
Proof.
  intros [_ Hp Hc Hn Hd] F Hh. pose proof F as [_ _ _ Fn Fa _ _ _ Fc].
  assert (Hv : forall x, valid_in (part_config s') x = valid_in (part_config s) x).
  { intros x. unfold valid_in. specialize (Fc x). destruct Fc as [c c' [-> _]|]; done. }
  split; try done.
  - intros x Hx. eapply user_part_ok_frame; [done|by apply Hp].
  - intros x c' Hx Hc'. specialize (Fc x). rewrite Hc' in Fc. inversion Fc as [c c0 [E _]|]; subst.
    destruct (Hc x c Hx) as [? ? ? ? ?]; [done|]. rewrite E. by split.
  - rewrite Fn, Hn. unfold count_valid. f_equal. f_equal. apply filter_ext_in. intros x _. by rewrite Hv.
  - by rewrite Hv.
Qed.

(** The configurations of [s'] are those of [s1] up to the eviction flags. *)
Definition same_up_to_flags (m : gmap Z ocf_user_part_config) (s' : parts) : Prop := forall x c,
  m !! x = Some c -> exists c', part_config s' !! x = Some c' /\ c' = uc_with_eviction (uc_eviction c') c.

Lemma configure_all_wp mem cfgs s l :
  parts_ok s l -> attached s = true \/ standby s = true -> (forall cfg, cfg ∈ cfgs -> 0 <= cfg_class_id cfg) ->
  wp (ocf_mngt_cache_io_classes_configure mem cfgs) (fun r s' =>
    (exists d, d ≡ₚ l /\ parts_ok s' d /\ (r = 0 -> StronglySorted (user_part_before s') d)) /\
    (valid_in (part_config s) OCF_IO_CLASS_PREFETCH = false -> valid_in (part_config s') OCF_IO_CLASS_PREFETCH = false) /\
    (r = 0 \/ r = - OCF_ERR_INVAL \/ r = - OCF_ERR_NO_MEM \/ r = - OCF_ERR_CACHE_STANDBY) /\
    (r = 0 -> forall id c, part_config s !! id = Some c -> exists c', part_config s' !! id = Some c' /\
      c' = uc_with_eviction (uc_eviction c') (final_config cfgs id c))) s.
Proof.
  intros Hok Hatt Hids. unfold ocf_mngt_cache_io_classes_configure.
  assert (Hsame : forall r, r <> 0 -> r = - OCF_ERR_INVAL \/ r = - OCF_ERR_NO_MEM \/ r = - OCF_ERR_CACHE_STANDBY ->
    wp (mret (M := Prelude.M parts) r) (fun r s' =>
      (exists d, d ≡ₚ l /\ parts_ok s' d /\ (r = 0 -> StronglySorted (user_part_before s') d)) /\
      (valid_in (part_config s) OCF_IO_CLASS_PREFETCH = false -> valid_in (part_config s') OCF_IO_CLASS_PREFETCH = false) /\
      (r = 0 \/ r = - OCF_ERR_INVAL \/ r = - OCF_ERR_NO_MEM \/ r = - OCF_ERR_CACHE_STANDBY) /\
      (r = 0 -> forall id c, part_config s !! id = Some c -> exists c', part_config s' !! id = Some c' /\
        c' = uc_with_eviction (uc_eviction c') (final_config cfgs id c))) s).
  { intros r Hr Hrs. apply wp_ret. split; [by exists l|]. split; [done|]. split; [by right|done]. }
  apply wp_bind, wp_gets. destruct (standby s); [apply Hsame; auto; done|]. destruct Hatt as [Hatt|]; [|done].
  destruct (validate_all_result cfgs) as [Hv|Hv]; rewrite Hv; [|rewrite bool_decide_eq_false_2 by done; apply Hsame; auto; done].
  rewrite bool_decide_eq_true_2 by done. cbn [negb]. destruct mem; cbn [negb]; [|apply Hsame; auto; done].
  clear Hsame. assert (Hvs := validate_all_valid cfgs Hids Hv).
  apply wp_bind, wp_gets, wp_bind. eapply wp_mono; [by apply edit_all_wp|]. cbn beta.
  intros r s1 (Hok1 & [Ha _ _ _ Hpf] & Hr & Hf). apply wp_bind, wp_when; intros Hb.
  - apply bool_decide_eq_true_1 in Hb as ->. eapply wp_mono.
    { apply (user_part_sort_wp s1 l). split; [apply (po_list _ _ Hok1)|]. intros x Hx. apply (po_pointers _ _ Hok1).
      pose proof (po_list _ _ Hok1) as [[_ Hrg _] _]. by apply Hrg. }
    cbn beta. intros [] s2 (d & Hd & [Hh _] & Hs & F & _). cbn [bool_decide negb].
    apply wp_bind, wp_when; [done|]. intros _. apply wp_ret. split.
    { exists d. split; [done|]. split; [by eapply frame_ok|done]. }
    pose proof F as [_ _ _ _ _ _ _ _ Fc]. split; [|split; [by left|]].
    + intros Hp. specialize (Hpf Hp). unfold valid_in in *. specialize (Fc OCF_IO_CLASS_PREFETCH).
      destruct Fc as [c c' [-> _]|]; done.
    + intros _ id c Hc. specialize (Hf eq_refl id c Hc). specialize (Fc id). rewrite Hf in Fc.
      inversion Fc as [c0 c' [E _]|]; subst. by exists c'.
  - rewrite Hb. cbn [negb]. apply wp_bind, wp_when; [|done]. intros _. apply wp_modify, wp_ret.
    apply bool_decide_eq_false_1 in Hb. rewrite <- Ha.
    replace (with_user_parts (user_parts s1) s1) with s1 by (by destruct s1).
    split; [exists l; by split_and!|]. split; [done|]. split; [tauto|done].
Qed.

(** ** Initialisation *)

(** The partitions [l] have been added; the others are not valid. *)
Record parts_adding (s : parts) (l : list Z) : Prop := {
  pa_list : lst_holds s l;
  pa_pointers x : 0 <= x < 34 -> user_part_ok s x;
  pa_config x c : x ∈ l -> part_config s !! x = Some c -> config_ok c;
  pa_others x : 0 <= x < 34 -> x ∉ l -> valid_in (part_config s) x = false;
  pa_count : valid_parts_no s = count_valid (part_config s)
}.

Definition added_config (name : string) (valid : bool) (c : ocf_user_part_config) : ocf_user_part_config :=
  UserPartConfig name 0 PARTITION_SIZE_MAX valid true (uc_eviction c) OCF_IO_CLASS_PRIO_LOWEST ocf_cache_mode_max.

Lemma part_listed_wp s l id (Q : bool -> parts -> Prop) :
  lst_holds s l -> id ∉ l -> Q false s -> wp (part_listed id) Q s.
Proof.
  intros HL Hid HQ. apply (wp_user_parts s l _ (fun _ a => a = false)); [done|done| |by intros a ->].
  intros pre x post a El ->. apply wp_ret. rewrite bool_decide_eq_false_2; [done|]. intros ->. apply Hid.
  rewrite El, elem_of_app. right. left.
Qed.

Lemma set_configs s id c f : part_config s !! id = Some c ->
  with_part_config (alter f id (part_config s)) s = with_part_config (<[id := f c]> (part_config s)) s.
Proof.
  intros Hc. f_equal. apply map_eq. intros i. destruct (decide (id = i)) as [<-|?].
  - by rewrite lookup_alter_eq, lookup_insert_eq, Hc.
  - by rewrite lookup_alter_ne, lookup_insert_ne.
Qed.

(** Writing the configuration of a partition whose configuration is known. *)
Lemma wp_set_known s m id c f (Q : unit -> parts -> Prop) :
  up_config (user_parts s) !! id = Some id ->
  Q tt (with_part_config (<[id := f c]> m) s) ->
  wp (set_config id f) Q (with_part_config (<[id := c]> m) s).
Proof.
  intros Hp HQ. apply wp_set_config; [done|cbn; rewrite lookup_insert_eq; by eexists|].
  rewrite (set_configs _ _ c) by (cbn; by rewrite lookup_insert_eq). cbn [part_config with_part_config].
  by rewrite insert_insert_eq, with_config_twice.
Qed.

(** The fields of a new partition, before it is listed. *)
Lemma add_fields_wp s l id c name (valid : bool) (Q : unit -> parts -> Prop) :
  parts_adding s l -> 0 <= id < 34 -> id ∉ l -> (String.length name < OCF_IO_CLASS_NAME_MAX)%nat ->
  part_config s !! id = Some c ->
  Q tt (reconfigured s id c (uc_with_added (uc_added c) (added_config name valid c))) ->
  wp (add_partition_fields id name 0 PARTITION_SIZE_MAX OCF_IO_CLASS_PRIO_LOWEST valid) Q s.
Proof.
  intros [HL Hp Hcf Ho Hn] Hid Hl Hname Hc HQ. destruct (Hp id Hid) as (Hpt & _).
  unfold add_partition_fields. rewrite strncpy_name by done.
  assert (Hv : uc_valid c = false) by (specialize (Ho id Hid Hl); unfold valid_in in Ho; by rewrite Hc in Ho).
  assert (Hcount : 0 <= valid_parts_no s <= 34) by (rewrite Hn; apply count_valid_bounds).
  apply wp_bind, wp_set_config; [done|by eexists|]. rewrite (set_configs _ _ c) by done.
  do 4 (apply wp_bind, wp_set_known; [done|]).
  match goal with |- wp _ _ (with_part_config (<[_ := ?c']> _) _) => set (c5 := c') end.
  assert (Ev : uc_valid c5 = false) by done.
  destruct valid.
  - eapply part_set_valid_wp; [done|cbn; by rewrite lookup_insert_eq|by rewrite Ev|rewrite Ev; cbn; lia|].
    match goal with |- Q _ ?st => match type of HQ with Q _ ?st' => assert (E : st = st') end end; [|by rewrite E].
    unfold reconfigured, with_valid_parts_no, with_part_config. cbn. rewrite Hv. f_equal. by rewrite insert_insert_eq.
  - unfold ocf_user_part_set_valid. apply wp_bind. eapply wp_config; [done|cbn; by rewrite lookup_insert_eq|].
    rewrite Ev. cbn [xorb]. apply wp_ret.
    match goal with |- Q _ ?st => match type of HQ with Q _ ?st' => assert (E : st = st') end end; [|by rewrite E].
    unfold reconfigured, with_valid_parts_no, with_part_config. cbn. rewrite Hv. f_equal; [|cbn; lia].
    f_equal. transitivity (uc_with_valid (uc_valid c) c5); [done|]. by rewrite Hv.
Qed.

Lemma adding_put s l id c c' :
  parts_adding s l -> 0 <= id < 34 -> id ∉ l -> part_config s !! id = Some c ->
  let s1 := reconfigured s id c c' in
  lst_holds s1 l /\ (forall x, 0 <= x < 34 -> user_part_ok s1 x) /\
  (forall x c, x ∈ l -> part_config s1 !! x = Some c -> config_ok c) /\
  (forall x, 0 <= x < 34 -> x ∉ id :: l -> valid_in (part_config s1) x = false) /\
  valid_parts_no s1 = count_valid (part_config s1) /\ part_config s1 !! id = Some c'.
Proof.
  intros [HL Hp Hcf Ho Hn] Hid Hl Hc s1. unfold s1.
  split_and!.
  - by apply (lst_holds_same s).
  - intros x Hx. destruct (Hp x Hx) as (? & ? & ?). split; [done|]. split; [|done]. cbn.
    destruct (decide (id = x)) as [->|?]; [rewrite lookup_insert_eq; by eexists|by rewrite lookup_insert_ne].
  - intros x c0 Hx. cbn. rewrite lookup_insert_ne by (intros ->; done). by apply Hcf.
  - intros x Hx Hxl. apply not_elem_of_cons in Hxl as [? ?]. unfold valid_in. cbn. rewrite lookup_insert_ne by congruence.
    by apply Ho.
  - cbn. rewrite Hn. assert (E := set_configs s id c (fun _ => c') Hc). injection E as E.
    rewrite <- E, (count_valid_alter _ id c) by done. done.
  - cbn. by rewrite lookup_insert_eq.
Qed.

Lemma add_partition_wp s l id name (valid : bool) :
  parts_adding s l -> 0 <= id < 34 -> id ∉ l -> (String.length name < OCF_IO_CLASS_NAME_MAX)%nat ->
  wp (ocf_mngt_add_partition_to_cache id (Some name) 0 PARTITION_SIZE_MAX OCF_IO_CLASS_PRIO_LOWEST valid)
    (fun r s' => r = 0 /\ (exists d, d ≡ₚ id :: l /\ parts_adding s' d) /\
      (forall x, x <> id -> valid_in (part_config s') x = valid_in (part_config s) x) /\
      valid_in (part_config s') id = valid /\ attached s' = attached s /\ standby s' = standby s) s.
Proof.
  intros Hok Hid Hl Hname. pose proof Hok as [HL Hp Hcf Ho Hn]. destruct (Hp id Hid) as (Hpt & [c Hc] & _).
  assert (Hv : uc_valid c = false) by (specialize (Ho id Hid Hl); unfold valid_in in Ho; by rewrite Hc in Ho).
  unfold ocf_mngt_add_partition_to_cache. rewrite bool_decide_eq_false_2 by (unfold OCF_USER_IO_CLASS_MAX; lia).
  apply wp_bind, wp_bind. eapply wp_config; [done..|]. apply wp_ret. rewrite Hv.
  rewrite !bool_decide_eq_false_2 by done.
  rewrite bool_decide_eq_false_2 by (unfold env_strnlen; lia).
  apply wp_bind. eapply part_listed_wp; [done..|]. cbn beta iota.
  set (c1 := uc_with_added (uc_added c) (added_config name valid c)).
  apply wp_bind. eapply add_fields_wp; [done..|]. fold c1. set (s1 := reconfigured s id c c1).
  destruct (adding_put s l id c c1 Hok Hid Hl Hc) as (HL1 & Hp1 & Hc1 & Ho1 & Hn1 & Hid1). fold s1 in HL1, Hp1, Hc1, Ho1, Hn1, Hid1.
  apply wp_bind. eapply wp_mono.
  { apply (insert_holds _ s1 [] id l (id :: l)); [apply add_run|done..]. }
  cbn beta. intros [] s2 [HL2 F2]. apply wp_bind. eapply wp_mono.
  { apply (user_part_sort_wp s2 (id :: l)). split; [done|]. intros x Hx.
    eapply user_part_ok_frame; [done|]. apply Hp1. destruct HL2 as [[_ Hr _] _]. by apply Hr. }
  cbn beta. intros [] s3 (d & Hd & [HL3 _] & _ & F3 & _).
  assert (F : user_part_frame s1 s3) by (etrans; [exact F2|done]). clear F2 F3 HL2 s2.
  destruct (user_part_ok_frame s1 s3 id F (Hp1 id Hid)) as (Hpt3 & [c3 Hc3] & _).
  assert (Hv3 : forall x, valid_in (part_config s3) x = valid_in (part_config s1) x).
  { intros x. unfold valid_in. destruct (uf_config _ _ F x) as [? ? [-> _]|]; done. }
  assert (E3 : c3 = uc_with_eviction (uc_eviction c3) c1).
  { assert (Hx := uf_config _ _ F id). rewrite Hid1, Hc3 in Hx. by inversion Hx as [? ? [? _]|]. }
  apply wp_bind, wp_set_config; [done|by eexists|]. rewrite (set_configs _ _ c3) by done. apply wp_ret.
  set (s4 := with_part_config (<[id := uc_with_added true c3]> (part_config s3)) s3).
  assert (Hv4 : forall x, valid_in (part_config s4) x = valid_in (part_config s1) x).
  { intros x. rewrite <- Hv3. unfold valid_in. cbn. destruct (decide (id = x)) as [<-|?].
    - by rewrite lookup_insert_eq, Hc3.
    - by rewrite lookup_insert_ne. }
  assert (Hother : forall x, x <> id -> valid_in (part_config s1) x = valid_in (part_config s) x).
  { intros x Hx. unfold valid_in. cbn. by rewrite lookup_insert_ne. }
  split; [done|]. split; [exists d; split; [done|]|split; [intros x Hx; by rewrite Hv4, Hother|split]].
  - split.
    + by apply (lst_holds_same s3).
    + intros x Hx. destruct (user_part_ok_frame s1 s3 x F (Hp1 x Hx)) as (? & ? & ?). split; [done|]. split; [|done]. cbn.
      destruct (decide (id = x)) as [<-|?]; [rewrite lookup_insert_eq; by eexists|by rewrite lookup_insert_ne].
    + intros x c4 Hx. cbn. destruct (decide (id = x)) as [<-|Hne].
      * rewrite lookup_insert_eq. intros [= <-]. rewrite E3. split; cbn; try done; lia.
      * rewrite lookup_insert_ne by done. intros Hc4. assert (Hf := uf_config _ _ F x). rewrite Hc4 in Hf.
        inversion Hf as [c0 ? [E _] Hc0|]; subst. rewrite Hd in Hx. apply elem_of_cons in Hx as [->|Hx]; [done|].
        destruct (Hc1 x c0 Hx) as [? ? ? ? ?]; [done|]. rewrite E. by split.
    + intros x Hx Hxd. rewrite Hv4. apply Ho1; [done|]. by rewrite <- Hd.
    + cbn. rewrite (uf_count _ _ F), Hn1. unfold count_valid. f_equal. f_equal. apply filter_ext_in. intros x _.
      by rewrite <- Hv4.
  - rewrite Hv4. unfold valid_in. by rewrite Hid1.
  - cbn. rewrite (uf_attached _ _ F), (uf_standby _ _ F). done.
Qed.

(** The metadata of a cache that is being started. *)
Record blank (s : parts) : Prop := {
  bl_table : forall x, 0 <= x <= 34 -> is_Some (lst_entries s !! x);
  bl_pointers x : 0 <= x < 34 -> user_part_ok s x;
  bl_count : valid_parts_no s = 0;
  bl_valid x : valid_in (part_config s) x = false
}.

Lemma count_none m : (forall x, valid_in m x = false) -> count_valid m = 0.
Proof.
  intros Hm. unfold count_valid. rewrite list_eq_nil_filter; [done|]. intros x _. by rewrite Hm.
Qed.

Lemma user_part_init_wp s : blank s -> wp ocf_user_part_init (fun _ s' => parts_adding s' [] /\
  (forall x, valid_in (part_config s') x = false)) s.
Proof.
  intros [Ht Hp Hn Hv]. unfold ocf_user_part_init. apply wp_bind. eapply wp_mono.
  { apply init_wp; [done|]. exact Ht. }
  cbn beta. intros [] s1 [HL F].
  assert (Hv1 : forall x, valid_in (part_config s1) x = false).
  { intros x. specialize (Hv x). unfold valid_in in *. destruct (uf_config _ _ F x) as [? ? [-> _]|]; done. }
  eapply wp_mono; [apply (wp_for _ _ (fun _ s2 => part_config s2 = part_config s1 /\ valid_parts_no s2 = 0 /\
    curr_size s2 = curr_size s1 /\ up_config (user_parts s2) = up_config (user_parts s1) /\
    lst_entries s2 = lst_entries s1))|].
  - split; [done|]. split; [|done]. by rewrite (uf_count _ _ F).
  - intros pre i post s2 _ (? & ? & ? & ? & ?). by apply wp_modify.
  - cbn beta. intros [] s2 (Ec & En & Es & Eu & El). rewrite Ec. split; [|done]. split.
    + by apply (lst_holds_same s1).
    + intros x Hx. destruct (user_part_ok_frame s s1 x F (Hp x Hx)) as (? & ? & ?).
      split; [by rewrite Eu|]. split; [by rewrite Ec|by rewrite Es].
    + intros x c []%not_elem_of_nil.
    + intros x _ _. by rewrite Ec.
    + by rewrite En, Ec, count_none.
Qed.

Lemma add_or_bug_wp s l id name (valid : bool) (v : Z -> bool) :
  parts_adding s l -> (forall x, valid_in (part_config s) x = v x) -> 0 <= id < 34 -> id ∉ l ->
  (String.length name < OCF_IO_CLASS_NAME_MAX)%nat ->
  wp (add_or_bug id name valid) (fun _ s' => (exists d, d ≡ₚ id :: l /\ parts_adding s' d) /\
    forall x, valid_in (part_config s') x = if decide (x = id) then valid else v x) s.
Proof.
  intros Hok Hv Hid Hl Hn. apply wp_bind. eapply wp_mono; [by apply (add_partition_wp s l)|].
  cbn beta. intros r s' (-> & Hd & Hother & Hval & _). apply wp_bug_on; [done|]. split; [done|].
  intros x. case_decide as Hx; [by subst|]. by rewrite Hother.
Qed.

Lemma init_partitions_wp s :
  parts_adding s [] -> (forall x, valid_in (part_config s) x = false) ->
  wp __init_partitions (fun _ s' => exists l, l ≡ₚ all_classes /\ parts_ok s' l) s.
Proof.
  intros Hok Hv. unfold __init_partitions.
  apply wp_bind. eapply wp_mono.
  { apply (add_or_bug_wp s [] OCF_IO_CLASS_UNCLASSIFIED _ true (fun _ => false)); try done; [apply not_elem_of_nil|cbn; unfold OCF_IO_CLASS_NAME_MAX; lia]. }
  cbn beta. intros [] s1 [(d1 & Hd1 & Hok1) Hv1].
  apply wp_bind. eapply wp_mono.
  { apply (add_or_bug_wp s1 d1 OCF_IO_CLASS_PREFETCH _ true _ Hok1 Hv1); [done| |cbn; unfold OCF_IO_CLASS_NAME_MAX; lia].
    rewrite Hd1. by intros ?%list_elem_of_singleton. }
  cbn beta. intros [] s2 [(d2 & Hd2 & Hok2) Hv2]. rewrite Hd1 in Hd2.
  set (ordinary := fun x => x <> OCF_IO_CLASS_UNCLASSIFIED /\ x <> OCF_IO_CLASS_PREFETCH).
  eapply wp_mono; [apply (wp_for _ _ (fun done s3 => exists d, d ≡ₚ filter ordinary done ++ [33; 0] /\
    parts_adding s3 d /\ valid_in (part_config s3) 0 = true))|].
  - exists d2. split; [done|]. split; [done|]. by rewrite Hv2.
  - intros pre i post s3 El (d & Hd & Hok3 & Hv3).
    change (Z.of_nat <$> seq 0 (Z.to_nat OCF_USER_IO_CLASS_MAX)) with all_classes in El.
    assert (Hi : i ∈ all_classes) by (rewrite El, elem_of_app; right; left). apply elem_of_classes in Hi.
    rewrite filter_app, filter_cons, filter_nil.
    case_bool_decide as H0; [|case_bool_decide as H33]; cbn [orb].
    + apply wp_ret. exists d. rewrite decide_False by (intros []; done). by rewrite app_nil_r.
    + apply wp_ret. exists d. rewrite decide_False by (intros []; done). by rewrite app_nil_r.
    + rewrite decide_True by done. eapply wp_mono.
      { apply (add_or_bug_wp s3 d i _ false (valid_in (part_config s3))); try done; [|cbn; unfold OCF_IO_CLASS_NAME_MAX; lia].
        rewrite Hd, elem_of_app, list_elem_of_filter. unfold OCF_IO_CLASS_UNCLASSIFIED, OCF_IO_CLASS_PREFETCH in *.
        rewrite !elem_of_cons. intros [[_ Hin]|[?|[?|[]%not_elem_of_nil]]]; [|done..].
        assert (Hnd : NoDup all_classes) by (apply NoDup_fmap_2; [intros ? ? ?; lia|apply NoDup_seq]).
        rewrite El in Hnd. by apply nodup_head_split in Hnd. }
      cbn beta. intros [] s4 [(d4 & Hd4 & Hok4) Hv4]. exists d4. split; [|split; [done|]].
      * rewrite Hd4, Hd, <- app_assoc. apply Permutation_middle.
      * rewrite Hv4. by rewrite decide_False by (intros E; apply H0; by rewrite <- E).
  - cbn beta. intros [] s3 (d & Hd & [HL Hp Hc Ho Hn] & Hv0). exists d.
    change (Z.of_nat <$> seq 0 (Z.to_nat OCF_USER_IO_CLASS_MAX)) with all_classes in Hd.
    assert (Hall : d ≡ₚ all_classes).
    { rewrite Hd. apply NoDup_Permutation.
      - apply (bool_decide_eq_true_1 _). vm_compute. reflexivity.
      - apply (bool_decide_eq_true_1 _). vm_compute. reflexivity.
      - intros x. rewrite elem_of_app, list_elem_of_filter, !elem_of_cons, !elem_of_classes. unfold ordinary, OCF_IO_CLASS_UNCLASSIFIED, OCF_IO_CLASS_PREFETCH.
        split.
        + intros [[_ ?]|[->|[->|[]%not_elem_of_nil]]]; lia.
        + intros Hx. destruct (decide (x = 0)) as [->|]; [tauto|]. destruct (decide (x = 33)) as [->|]; tauto. }
    split; [done|]. split; try done. intros x c Hx. apply Hc. rewrite Hall. by apply elem_of_classes.
Qed.

(** ** Configuration over the life of a cache *)

Definition classes_init (s : parts) : Prop :=
  exists s0, blank s0 /\ (_ ← ocf_user_part_init; __init_partitions) s0 = Some (tt, s).

(** A management call, or a change of the rest of the cache: the sizes of the
    partitions, attaching and detaching, entering and leaving standby. *)
Inductive classes_step (s : parts) : parts -> Prop :=
| step_configure mem cfgs r s' :
    cfgs <> [] -> (forall cfg, cfg ∈ cfgs -> 0 <= cfg_class_id cfg) ->
    ocf_mngt_cache_io_classes_configure mem cfgs s = Some (r, s') -> classes_step s s'
| step_rest s' :
    user_parts s' = user_parts s -> part_config s' = part_config s -> valid_parts_no s' = valid_parts_no s ->
    (forall x, is_Some (curr_size s !! x) -> is_Some (curr_size s' !! x)) -> classes_step s s'.

Definition well_formed (s : parts) : Prop := exists l, l ≡ₚ all_classes /\ parts_ok s l.

Lemma classes_init_ok s : classes_init s -> well_formed s.
Proof.
  intros (s0 & Hb & Hrun).
  assert (Hw : wp (_ ← ocf_user_part_init; __init_partitions) (fun _ => well_formed) s0).
  { apply wp_bind. eapply wp_mono; [by apply user_part_init_wp|]. intros [] s1 [H1 H2]. by apply init_partitions_wp. }
  unfold wp in Hw. by rewrite Hrun in Hw.
Qed.

(** Configuring a cache without device: after an error the state is as before;
    without one the call is a bug, not an error. *)
Lemma configure_detached mem cfgs s :
  standby s = false -> attached s = false -> cfgs <> [] ->
  ocf_mngt_cache_io_classes_configure mem cfgs s =
    if bool_decide (validate_all cfgs = 0) then if mem then None else Some (- OCF_ERR_NO_MEM, s) else Some (validate_all cfgs, s).
Proof.
  intros Hs Ha Hne. unfold ocf_mngt_cache_io_classes_configure. m_unfold. rewrite Hs. case_bool_decide; cbn [negb]; [|done].
  destruct mem; cbn [negb]; [|done]. destruct cfgs as [|cfg cfgs]; [done|].
  cbn [edit_all]. unfold _ocf_mngt_io_class_edit, _ocf_mngt_io_class_configure, _ocf_mngt_io_class_remove.
  m_unfold. destruct (cfg_name cfg); by rewrite Ha.
Qed.

Lemma usable_cases s : (attached s = true \/ standby s = true) \/ (standby s = false /\ attached s = false).
Proof. destruct (attached s), (standby s); tauto. Qed.

Lemma classes_step_ok s s' : well_formed s -> classes_step s s' -> well_formed s'.
Proof.
  intros (l & Hl & Hok) [mem cfgs r s1 Hne Hids Hrun|s1 Eu Ec En Hs].
  - destruct (usable_cases s) as [Ha|[H1 H2]].
    2: { rewrite configure_detached in Hrun by done. case_bool_decide; [destruct mem; [done|]|]; injection Hrun as _ <-; by exists l. }
    assert (Hw := configure_all_wp mem cfgs s l Hok Ha Hids). unfold wp in Hw. rewrite Hrun in Hw.
    destruct Hw as ((d & Hd & Hok' & _) & _). exists d. split; [by rewrite Hd|done].
  - exists l. split; [done|]. destruct Hok as [HL Hp Hc Hn Hd]. split.
    + apply (lst_holds_same s); [|done]. cbn. by rewrite Eu.
    + intros x Hx. destruct (Hp x Hx) as (? & ? & ?). split; [by rewrite Eu|]. split; [by rewrite Ec|by apply Hs].
    + rewrite Ec. exact Hc.
    + by rewrite En, Ec.
    + by rewrite Ec.
Qed.

(** A class without a valid configuration that is the prefetch class stays so,
    whatever is configured: its name must match the one it was removed under,
    and then its valid flag is not set. *)
Lemma prefetch_stays_removed mem cfgs s l :
  parts_ok s l -> attached s = true \/ standby s = true -> (forall cfg, cfg ∈ cfgs -> 0 <= cfg_class_id cfg) ->
  valid_in (part_config s) OCF_IO_CLASS_PREFETCH = false ->
  wp (ocf_mngt_cache_io_classes_configure mem cfgs) (fun _ s' =>
    valid_in (part_config s') OCF_IO_CLASS_PREFETCH = false) s.
Proof.
  intros Hok Ha Hids Hp. eapply wp_mono; [by eapply configure_all_wp|]. cbn beta. intros r s' (_ & H & _). by apply H.
Qed.

(** ** Main theorems *)

(** C31. [ocf_user_part_sort]: on a cache whose priority list holds the
    partitions [l], sorting ends without a failed check, the list then holds the
    same partitions by decreasing value and, within a value, by decreasing id
    (an invalid partition counts as the first to evict while it has lines, as
    the last when empty); the eviction flag of every partition is up to date if
    there are at least two; nothing else of the cache changes. *)
Theorem user_part_sort_sorts s l :
  part_list s l -> wp ocf_user_part_sort (fun _ s' => exists d, d ≡ₚ l /\ part_list s' d /\
    StronglySorted (user_part_before s') d /\ user_part_frame s s' /\
    ((2 <= length d)%nat -> forall x, x ∈ d -> exists c, part_config s' !! x = Some c /\
      uc_eviction c = evictable s' x c)) s.
Proof. apply user_part_sort_wp. Qed.

(** C32. I/O classes stay well formed over the life of a cache: after
    initialisation and any sequence of configuration calls that return and
    changes of sizes and of the cache's state, the priority list holds all 34
    classes, every class has a name that fits, no minimal size, a maximal size
    of at most 100 percent and a priority and cache mode in their range, the
    counter of valid classes is their number, and the default class is valid.
    In such a state a configuration call returns exactly when the cache is
    attached or standby, the configuration is not valid or the memory for a
    copy is missing: a valid configuration of a detached cache is a bug. *)
Theorem io_classes_wellformed s :
  reachable classes_init classes_step s ->
  well_formed s /\ forall mem cfgs, cfgs <> [] -> (forall cfg, cfg ∈ cfgs -> 0 <= cfg_class_id cfg) ->
    (exists r s', ocf_mngt_cache_io_classes_configure mem cfgs s = Some (r, s')) <->
    attached s = true \/ standby s = true \/ validate_all cfgs <> 0 \/ mem = false.
Proof.
  intros Hr. assert (Hw : well_formed s).
  { by eapply (reachable_invariant classes_init classes_step well_formed classes_init_ok classes_step_ok). }
  split; [done|]. intros mem cfgs Hne Hids. destruct Hw as (l & _ & Hok). destruct (usable_cases s) as [Ha|[H1 H2]].
  - split; [tauto|]. intros _. assert (H := configure_all_wp mem cfgs s l Hok Ha Hids). apply wp_run in H as (r & s' & H & _). eauto.
  - rewrite configure_detached, H1, H2 by done. case_bool_decide as Hv.
    + destruct mem; [|naive_solver]. split; [by intros (r & s' & ?)|]. naive_solver.
    + naive_solver.
Qed.

(** Configuring the I/O classes ([ocf_mngt_cache_io_classes_configure]): the
    call returns 0 or one of three errors; when it returns 0, every class has
    the configuration that the edits for it determine, one after the other (with
    its eviction flag recomputed), and the priority list is in order. *)
Theorem io_classes_configure_sets mem cfgs s l :
  parts_ok s l -> attached s = true \/ standby s = true -> (forall cfg, cfg ∈ cfgs -> 0 <= cfg_class_id cfg) ->
  wp (ocf_mngt_cache_io_classes_configure mem cfgs) (fun r s' =>
    (r = 0 \/ r = - OCF_ERR_INVAL \/ r = - OCF_ERR_NO_MEM \/ r = - OCF_ERR_CACHE_STANDBY) /\
    (r = 0 ->
      (exists d, d ≡ₚ l /\ part_list s' d /\ StronglySorted (user_part_before s') d) /\
      forall id c, part_config s !! id = Some c -> exists c', part_config s' !! id = Some c' /\
        c' = uc_with_eviction (uc_eviction c') (final_config cfgs id c))) s.
Proof.
  intros Hok Ha Hids. eapply wp_mono; [by apply (configure_all_wp mem cfgs s l)|]. cbn beta.
  intros r s' ((d & Hd & Hok' & Hs) & _ & Hr & Hf). split; [done|]. intros H0. split; [|by apply Hf].
  exists d. split; [done|]. split; [|by apply Hs]. destruct Hok' as [HL Hp _ _ _]. split; [done|].
  intros x Hx. apply Hp. destruct HL as [[_ Hr' _] _]. by apply Hr'.
Qed.

(** The error path of the configuration does not undo it: when the first
    class gets a valid new configuration and the second one has the empty name,
    which passes validation and fails later, the call returns [-OCF_ERR_INVAL]
    and the first class keeps its new configuration.  (The saved copy is one of
    [cache->user_parts], which holds pointers to the configurations.) *)
Theorem io_classes_failure_keeps s l a b rest name c :
  parts_ok s l -> attached s = true -> standby s = false ->
  (forall cfg, cfg ∈ a :: b :: rest -> 0 <= cfg_class_id cfg) -> validate_all (a :: b :: rest) = 0 ->
  cfg_name a = Some name -> name <> EmptyString -> cfg_name b = Some EmptyString ->
  default_class (cfg_class_id a) = false -> part_config s !! cfg_class_id a = Some c -> uc_added c = true ->
  wp (ocf_mngt_cache_io_classes_configure true (a :: b :: rest)) (fun r s' =>
    r = - OCF_ERR_INVAL /\ part_config s' !! cfg_class_id a =
      Some (UserPartConfig name 0 (cfg_max_size a) true true (uc_eviction c) (cfg_prio a) (cfg_cache_mode a))) s.
Proof.
  intros Hok Ha Hs Hids Hv Hna Hne Hnb Hd Hc Hadd. assert (Hvs := validate_all_valid _ Hids Hv).
  apply Forall_cons in Hvs as [Va Hvs]. apply Forall_cons in Hvs as [Vb _].
  unfold ocf_mngt_cache_io_classes_configure. apply wp_bind, wp_gets. rewrite Hs, Hv.
  rewrite bool_decide_eq_true_2 by done. cbn [negb]. apply wp_bind, wp_gets, wp_bind. cbn [edit_all].
  assert (Es : edit_spec a c = (0, UserPartConfig name 0 (cfg_max_size a) true (uc_added c) (uc_eviction c) (cfg_prio a) (cfg_cache_mode a))).
  { unfold edit_spec. rewrite Hna, Hadd, Hd. by rewrite bool_decide_eq_false_2. }
  assert (Hok1 := edited_ok s l a c Hok Va Hc).
  apply wp_bind. eapply edit_wp; [done..|]. rewrite Es in *. cbn [fst snd] in *. rewrite bool_decide_eq_true_2 by done.
  match type of Hok1 with parts_ok ?st _ => set (s1 := st) in * end.
  destruct (po_pointers _ _ Hok1 _ (cv_id _ Vb)) as (_ & [cb Hcb] & _).
  assert (Eb : edit_spec b cb = (- OCF_ERR_INVAL, cb)).
  { unfold edit_spec. rewrite Hnb. by rewrite (bool_decide_eq_true_2 (EmptyString = EmptyString)), orb_true_r. }
  apply wp_bind. eapply (edit_wp s1 l); [done..|]. rewrite Eb. cbn [fst snd]. rewrite bool_decide_eq_false_2 by done. apply wp_ret.
  apply wp_bind, wp_when; [done|]. intros _. apply wp_bind, wp_when; [|done]. intros _. apply wp_modify, wp_ret.
  split; [done|]. rewrite reconfigured_same by done. cbn. rewrite lookup_insert_eq. by rewrite Hadd.
Qed.

(** ** A cache that has just been started *)

Definition class_ids : list Z := Z.of_nat <$> seq 0 35.
Definition table_of {A} (a : Z -> A) : gmap Z A := list_to_map ((fun i => (i, a i)) <$> class_ids).
Definition blank_cache : parts :=
  Parts (UserPartTable (table_of (fun i => i)) (table_of (fun _ => LstEntry 0 0)) ∅)
    (table_of (fun _ => UserPartConfig EmptyString 0 0 false false false 0 0)) (table_of (fun _ => 0)) 0 true false 1000 0.
Definition started_cache : parts :=
  match (_ ← ocf_user_part_init; __init_partitions) blank_cache with Some (_, s) => s | None => blank_cache end.

Lemma class_id_cases (P : Z -> Prop) n : Forall P (Z.of_nat <$> seq 0 n) -> forall x, 0 <= x < Z.of_nat n -> P x.
Proof.
  intros H x Hx. rewrite Forall_forall in H. apply H, list_elem_of_fmap. exists (Z.to_nat x). split; [lia|].
  apply elem_of_seq. lia.
Qed.

Lemma blank_cache_ok : blank blank_cache.
Proof.
  split.
  - intros x Hx. apply (class_id_cases (fun x => is_Some (lst_entries blank_cache !! x)) 35); [by_compute|lia].
  - intros x Hx. apply (class_id_cases (user_part_ok blank_cache) 34); [|done].
    apply (bool_decide_eq_true_1 (Forall (fun x => up_config (user_parts blank_cache) !! x = Some x /\
      is_Some (part_config blank_cache !! x) /\ is_Some (curr_size blank_cache !! x)) _)). vm_compute. reflexivity.
  - done.
  - intros x. unfold valid_in. destruct (part_config blank_cache !! x) as [c|] eqn:Hc; [|done].
    apply elem_of_list_to_map_2, list_elem_of_fmap in Hc as (i & [= -> ->] & _). done.
Qed.

Lemma started_cache_init : classes_init started_cache.
Proof. exists blank_cache. split; [apply blank_cache_ok|]. vm_compute. reflexivity. Qed.

Lemma started_reachable : reachable classes_init classes_step started_cache.
Proof. apply reach_init, started_cache_init. Qed.

Lemma started_list : exists l, l ≡ₚ all_classes /\ parts_ok started_cache l.
Proof. apply classes_init_ok, started_cache_init. Qed.

Lemma started_flags : attached started_cache = true /\ standby started_cache = false.
Proof. vm_compute. done. Qed.

Definition class_db : ocf_mngt_io_class_config := IoClassConfig 5 40 (Some "db"%string) 1 3.
Definition class_unnamed : ocf_mngt_io_class_config := IoClassConfig 6 40 (Some EmptyString) 1 3.

Lemma sample_ids : forall cfg, cfg ∈ [class_db; class_unnamed] -> 0 <= cfg_class_id cfg.
Proof. intros cfg [->|[->|[]%not_elem_of_nil]%elem_of_cons]%elem_of_cons; done. Qed.

Lemma lst_ops_refine_witness : exists l s',
  l ≡ₚ all_classes /\ ocf_lst_del 5 started_cache = Some (tt, s') /\ lst_holds s' (without 5 l).
Proof.
  destruct started_list as (l & Hl & Hok). exists l.
  assert (H5 : op_allowed (LstDel 5) l) by (cbn; rewrite Hl; apply elem_of_classes; lia).
  assert (Hn : 0 <= lst_invalid (St := parts)) by done.
  destruct (lst_ops_refine blank_cache started_cache l (LstDel 5) Hn (bl_table _ blank_cache_ok) (po_list _ _ Hok) H5) as [_ Hw].
  rewrite wp_run in Hw. destruct Hw as ([] & s' & Hr & _ & HL & _).
  exists s'. split; [exact Hl|]. split; [exact Hr|exact HL].
Defined.

Lemma user_part_sort_sorts_witness : exists s' c,
  ocf_user_part_sort started_cache = Some (tt, s') /\ part_config s' !! 0 = Some c /\ uc_eviction c = evictable s' 0 c.
Proof.
  destruct started_list as (l & Hl & Hok).
  assert (HL : part_list started_cache l).
  { split; [apply (po_list _ _ Hok)|]. intros x Hx. apply (po_pointers _ _ Hok). by rewrite Hl, elem_of_classes in Hx. }
  assert (Hw := user_part_sort_sorts _ _ HL). rewrite wp_run in Hw.
  destruct Hw as ([] & s' & Hr & d & Hd & _ & _ & _ & Ht). rewrite Hl in Hd.
  destruct (Ht ltac:(rewrite Hd; vm_compute; lia) 0) as (c & Hc & He); [rewrite Hd; apply elem_of_classes; lia|].
  exists s', c. split; [exact Hr|]. split; [exact Hc|exact He].
Defined.

(** The cache after a configuration of class 5. *)
Definition configured_cache : parts :=
  match ocf_mngt_cache_io_classes_configure true [class_db] started_cache with Some (_, s) => s | None => started_cache end.

Lemma configured_reachable : reachable classes_init classes_step configured_cache.
Proof.
  unfold configured_cache. destruct (ocf_mngt_cache_io_classes_configure true [class_db] started_cache) as [[r s]|] eqn:E; [|apply started_reachable].
  eapply reach_step; [apply started_reachable|]. apply (step_configure _ true [class_db] r); [discriminate| |exact E].
  intros cfg H. apply sample_ids. apply list_elem_of_singleton in H as ->. left.
Qed.

Lemma io_classes_wellformed_witness : (uc_max_size <$> part_config configured_cache !! 5) = Some 40 /\ well_formed configured_cache /\
  exists r s', ocf_mngt_cache_io_classes_configure true [class_db; class_unnamed] configured_cache = Some (r, s').
Proof.
  destruct (io_classes_wellformed configured_cache configured_reachable) as [Hw Hc].
  split; [vm_compute; reflexivity|]. split; [exact Hw|].
  apply (Hc true [class_db; class_unnamed] ltac:(discriminate) sample_ids). left. vm_compute. reflexivity.
Defined.

Lemma io_classes_configure_sets_witness : exists s',
  ocf_mngt_cache_io_classes_configure true [class_db] started_cache = Some (0, s') /\
  uc_max_size <$> part_config s' !! 5 = Some 40.
Proof.
  destruct started_list as (l & Hl & Hok).
  assert (Hw := io_classes_configure_sets true [class_db] started_cache l Hok (or_introl (proj1 started_flags))
    (fun cfg H => sample_ids cfg (ltac:(apply list_elem_of_singleton in H as ->; left)))).
  rewrite wp_run in Hw. destruct Hw as (r & s' & Hr & _ & Hf).
  assert (H0 : fst <$> ocf_mngt_cache_io_classes_configure true [class_db] started_cache = Some 0) by (vm_compute; reflexivity).
  rewrite Hr in H0. injection H0 as ->. exists s'. split; [exact Hr|].
  destruct (Hf eq_refl) as [_ Hc]. assert (H5 : is_Some (part_config started_cache !! 5)) by by_compute.
  destruct H5 as [c5 H5]. destruct (Hc 5 c5 H5) as (c' & Hc' & E). rewrite Hc', E. cbn. f_equal.
  assert (Ha : uc_added <$> part_config started_cache !! 5 = Some true) by (vm_compute; reflexivity).
  rewrite H5 in Ha. injection Ha as Ha. unfold final_config. cbn. by rewrite Ha.
Defined.

Lemma io_classes_failure_keeps_witness : exists s',
  ocf_mngt_cache_io_classes_configure true [class_db; class_unnamed] started_cache = Some (- OCF_ERR_INVAL, s') /\
  uc_max_size <$> part_config s' !! 5 = Some 40.
Proof.
  destruct started_list as (l & Hl & Hok).
  assert (H5 : match part_config started_cache !! 5 with Some c => uc_added c = true | None => False end) by (vm_compute; reflexivity).
  destruct (part_config started_cache !! 5) as [c5|] eqn:E5; [|contradiction].
  assert (Hw := io_classes_failure_keeps started_cache l class_db class_unnamed [] _ c5 Hok (proj1 started_flags) (proj2 started_flags)
    sample_ids eq_refl eq_refl ltac:(discriminate) eq_refl eq_refl E5 H5).
  rewrite wp_run in Hw. destruct Hw as (r & s' & Hr & -> & Hc). exists s'. split; [exact Hr|].
  change (cfg_class_id class_db) with 5 in Hc. rewrite Hc. reflexivity.
Defined.
