(* ===== verification/HashLock.v ===== *)
(** * Hash bucket locks: [concurrency/ocf_metadata_concurrency.c], [.h]

    The mapping is protected by a readers-writer lock in every hash bucket,
    under a global lock that is split over [OCF_NUM_GLOBAL_META_LOCKS]
    semaphores, and by a semaphore per page of the collision table.  This file
    has the iteration over the buckets of a request, the lock word of a
    bucket, the semaphores, the operations of the file as programs over lock
    actions, and the interleavings of clients that run such programs. *)

From stdpp Require Import functions.
From S2P Require Import Prelude Collision Status Request.
Open Scope Z_scope.

Module HashLock.

Inductive access := OCF_METADATA_RD | OCF_METADATA_WR.
#[global] Instance access_eq_dec : EqDecision access.
Proof. solve_decision. Defined.

(** ** The buckets of a request *)

(** What the iteration reads of a request: [req->map\[0\].hash], the hash of the
    last entry, [req->core_line_count] and [_NUM_HASH_ENTRIES]. *)
Record hash_span := HashSpan {
  hs_first : Z; hs_last : Z; hs_count : Z; _NUM_HASH_ENTRIES : Z }.

(** [None]: an access outside [req->map]. *)
Definition req_span (entries : Z) (r : ocf_request) : option hash_span :=
  first ← req_map r !! 0%nat;
  last ← req_map r !! Z.to_nat (u32 (core_line_count r - 1));
  Some (HashSpan (mi_hash (me_info first)) (mi_hash (me_info last)) (core_line_count r) entries).

Section Span.
Context (sp : hash_span).

Definition _IS_MONOTONIC : bool :=
  bool_decide (u32 (hs_first sp + hs_count sp) <= _NUM_HASH_ENTRIES sp).
Definition _MIN_HASH : Z := if _IS_MONOTONIC then hs_first sp else 0.
Definition _MAX_HASH : Z := if _IS_MONOTONIC then hs_last sp else u32 (_NUM_HASH_ENTRIES sp - 1).
Definition _HASH_COUNT : Z := Z.min (hs_count sp) (_NUM_HASH_ENTRIES sp).
Definition _HAS_GAP : bool := bool_decide (u32 (_MAX_HASH - _MIN_HASH + 1) > _HASH_COUNT).
Definition _GAP_VAL : Z := u32 (u32 (_MAX_HASH - _MIN_HASH + 1) - _HASH_COUNT).
Definition _GAP_START : Z := hs_last sp.
Definition _HASH_NEXT (hash : Z) : Z :=
  u32 (hash + 1 + (if _HAS_GAP && bool_decide (hash = _GAP_START) then _GAP_VAL else 0)).

(** The values of [hash] in the iterations of the loop; [None]: out of fuel. *)
Fixpoint hash_asc_from (fuel : nat) (hash : Z) : option (list Z) :=
  match fuel with
  | O => None
  | S fuel =>
      if bool_decide (hash <= _MAX_HASH)
      then rest ← hash_asc_from fuel (_HASH_NEXT hash); Some (hash :: rest)
      else Some []
  end.
Definition for_each_req_hash_asc : option (list Z) :=
  hash_asc_from (S (Z.to_nat (_NUM_HASH_ENTRIES sp))) _MIN_HASH.

Definition ocf_req_hash_in_range (core_id core_line : Z) : bool :=
  let hash := ocf_metadata_hash_func (_NUM_HASH_ENTRIES sp) core_line core_id in
  if negb _HAS_GAP then bool_decide (hash >= _MIN_HASH) && bool_decide (hash <= _MAX_HASH)
  else bool_decide (hash >= _MIN_HASH) && bool_decide (hash <= _GAP_START)
       || bool_decide (hash > u32 (_GAP_START + _GAP_VAL)) && bool_decide (hash <= _MAX_HASH).
End Span.

(** ** The lock word of a bucket *)

Record ocf_hash_entry := HashEntry {
  he_line : Z;    (** 29 bits: the head of the bucket's list *)
  he_rd : Z;      (** 2 bits *)
  he_wr : bool    (** 1 bit *) }.
#[global] Instance hash_entry_eq_dec : EqDecision ocf_hash_entry.
Proof. solve_decision. Defined.

(** [entry->raw]. *)
Definition hash_raw (e : ocf_hash_entry) : Z :=
  he_line e + 2 ^ 29 * he_rd e + 2 ^ 31 * Z.b2z (he_wr e).

(** One iteration of [hash_lock_lock] up to the exchange: the new value of the
    word, or [None] where it goes to [next]. *)
Definition hash_lock_new (rw : access) (curline : ocf_hash_entry) : option ocf_hash_entry :=
  if he_wr curline then None
  else match rw with
       | OCF_METADATA_RD =>
           let rd := wrap 2 (he_rd curline + 1) in
           if bool_decide (rd = 0) then None else Some (HashEntry (he_line curline) rd (he_wr curline))
       | OCF_METADATA_WR =>
           if bool_decide (he_rd curline <> 0) then None
           else Some (HashEntry (he_line curline) (he_rd curline) true)
       end.

(** The loop of [hash_lock_lock] against other threads: [obs] has, for each
    iteration, the word that is read and the word that the exchange finds.
    The result is the return value and the word that was written, if any;
    [None]: [obs] ended in the loop. *)
Fixpoint hash_lock_lock (try : bool) (rw : access) (obs : list (ocf_hash_entry * ocf_hash_entry)) :
    option (Z * option ocf_hash_entry) :=
  match obs with
  | [] => None
  | (curline, found) :: obs =>
      match hash_lock_new rw curline with
      | Some newline =>
          if bool_decide (hash_raw found = hash_raw curline) then Some (0, Some newline)
          else if try then Some (1, None) else hash_lock_lock try rw obs
      | None => if try then Some (1, None) else hash_lock_lock try rw obs
      end
  end.

(** One iteration of [hash_lock_unlock]; the [bool] says whether the new value
    is stored with [env_atomic_set]. *)
Definition hash_unlock_new (curline : ocf_hash_entry) : ocf_hash_entry * bool :=
  if he_wr curline then (HashEntry (he_line curline) (he_rd curline) false, true)
  else (HashEntry (he_line curline) (wrap 2 (he_rd curline - 1)) (he_wr curline), false).

Fixpoint hash_lock_unlock (obs : list (ocf_hash_entry * ocf_hash_entry)) : option ocf_hash_entry :=
  match obs with
  | [] => None
  | (curline, found) :: obs =>
      let (newline, set) := hash_unlock_new curline in
      if set || bool_decide (hash_raw found = hash_raw curline) then Some newline
      else hash_lock_unlock obs
  end.

(** ** Readers-writer locks *)

(** The atomic effect of a successful acquisition and of a release. *)
Class RwLock (L : Type) := {
  rw_free : L;
  rw_acquire : access -> L -> option L;
  rw_release : access -> L -> L }.

#[global] Instance hash_entry_lock : RwLock ocf_hash_entry := {|
  rw_free := HashEntry 0 0 false;
  rw_acquire := hash_lock_new;
  rw_release _ e := fst (hash_unlock_new e) |}.

(** [env_rwsem]: any number of readers or one writer. *)
Record env_rwsem := RwSem { sem_readers : nat; sem_writer : bool }.

#[global] Instance rwsem_lock : RwLock env_rwsem := {|
  rw_free := RwSem 0 false;
  rw_acquire rw s :=
    if sem_writer s then None
    else match rw with
         | OCF_METADATA_RD => Some (RwSem (S (sem_readers s)) false)
         | OCF_METADATA_WR => if decide (sem_readers s = 0%nat) then Some (RwSem 0 true) else None
         end;
  rw_release rw s :=
    match rw with
    | OCF_METADATA_RD => RwSem (pred (sem_readers s)) (sem_writer s)
    | OCF_METADATA_WR => RwSem (sem_readers s) false
    end |}.

(** ** Programs over lock actions *)

(** The locks of [struct ocf_metadata_lock] and of the hash table. *)
Inductive resource := Global (lock_idx : Z) | Bucket (hash : Z) | Page (page : Z).
#[global] Instance resource_eq_dec : EqDecision resource.
Proof. solve_decision. Defined.

(** [B_Bug] is a failed [ENV_BUG_ON]. *)
Inductive prog (A : Type) :=
| B_Ret (a : A)
| B_Bug
| B_Down (r : resource) (rw : access) (k : prog A)
| B_Try (r : resource) (rw : access) (k : bool -> prog A)
| B_Up (r : resource) (rw : access) (k : prog A).
Arguments B_Ret {A} a.
Arguments B_Bug {A}.
Arguments B_Down {A} r rw k.
Arguments B_Try {A} r rw k.
Arguments B_Up {A} r rw k.

#[global] Instance prog_ret : MRet prog := @B_Ret.
#[global] Instance prog_bind : MBind prog := fun A B k =>
  fix bind p := match p with
  | B_Ret a => k a
  | B_Bug => B_Bug
  | B_Down r rw p => B_Down r rw (bind p)
  | B_Try r rw f => B_Try r rw (fun b => bind (f b))
  | B_Up r rw p => B_Up r rw (bind p)
  end.

Definition down (r : resource) (rw : access) : prog unit := B_Down r rw (B_Ret tt).
Definition up (r : resource) (rw : access) : prog unit := B_Up r rw (B_Ret tt).
(** 0 when the lock was taken. *)
Definition try_down (r : resource) (rw : access) : prog Z :=
  B_Try r rw (fun ok => B_Ret (if ok then 0 else 1)).
Definition b_bug_on (b : bool) : prog unit := if b then B_Bug else B_Ret tt.
Fixpoint b_for {A} (l : list A) (body : A -> prog unit) : prog unit :=
  match l with
  | [] => mret tt
  | i :: l => _ ← body i; b_for l body
  end.

(** *** The global lock *)

Definition OCF_NUM_GLOBAL_META_LOCKS : Z := 4.
Definition global_locks : list Z := seqZ 0 OCF_NUM_GLOBAL_META_LOCKS.

Definition ocf_metadata_start_exclusive_access : prog unit :=
  b_for global_locks (fun i => down (Global i) OCF_METADATA_WR).

(** The loop of [ocf_metadata_try_start_exclusive_access] over the locks [todo];
    [got] are the locks taken so far, the last one first: [while (i--)]. *)
Fixpoint try_exclusive (todo got : list Z) : prog Z :=
  match todo with
  | [] => mret 0
  | i :: todo =>
      error ← try_down (Global i) OCF_METADATA_WR;
      if bool_decide (error <> 0)
      then _ ← b_for got (fun i => up (Global i) OCF_METADATA_WR); mret error
      else try_exclusive todo (i :: got)
  end.
Definition ocf_metadata_try_start_exclusive_access : prog Z := try_exclusive global_locks [].

Definition ocf_metadata_end_exclusive_access : prog unit :=
  b_for (reverse global_locks) (fun i => up (Global i) OCF_METADATA_WR).

Definition ocf_metadata_start_shared_access (lock_idx : Z) : prog unit :=
  down (Global lock_idx) OCF_METADATA_RD.
Definition ocf_metadata_try_start_shared_access (lock_idx : Z) : prog Z :=
  try_down (Global lock_idx) OCF_METADATA_RD.
Definition ocf_metadata_end_shared_access (lock_idx : Z) : prog unit :=
  up (Global lock_idx) OCF_METADATA_RD.

(** [q->lock_idx++ % OCF_NUM_GLOBAL_META_LOCKS]: the index, and the counter
    afterwards. *)
Definition ocf_metadata_concurrency_next_idx (lock_idx : Z) : Z * Z :=
  (lock_idx mod OCF_NUM_GLOBAL_META_LOCKS, u32 (lock_idx + 1)).

(** *** Buckets *)

Section Buckets.
Context (num_hash_entries : Z).

Definition ocf_hb_id_naked_lock (hash : Z) (rw : access) : prog unit :=
  _ ← b_bug_on (bool_decide (hash >= num_hash_entries)); down (Bucket hash) rw.
Definition ocf_hb_id_naked_unlock (hash : Z) (rw : access) : prog unit :=
  _ ← b_bug_on (bool_decide (hash >= num_hash_entries)); up (Bucket hash) rw.
Definition ocf_hb_id_naked_trylock (hash : Z) (rw : access) : prog Z :=
  _ ← b_bug_on (bool_decide (hash >= num_hash_entries)); try_down (Bucket hash) rw.

Definition line_hash (core_id core_line : Z) : Z :=
  ocf_metadata_hash_func num_hash_entries core_line core_id.

Definition ocf_hb_cline_naked_trylock_wr (core_id core_line : Z) : prog bool :=
  error ← ocf_hb_id_naked_trylock (line_hash core_id core_line) OCF_METADATA_WR;
  mret (bool_decide (error = 0)).
Definition ocf_hb_cline_naked_trylock_rd (core_id core_line : Z) : prog bool :=
  error ← ocf_hb_id_naked_trylock (line_hash core_id core_line) OCF_METADATA_RD;
  mret (bool_decide (error = 0)).
Definition ocf_hb_cline_naked_unlock_rd (core_id core_line : Z) : prog unit :=
  ocf_hb_id_naked_unlock (line_hash core_id core_line) OCF_METADATA_RD.
Definition ocf_hb_cline_naked_unlock_wr (core_id core_line : Z) : prog unit :=
  ocf_hb_id_naked_unlock (line_hash core_id core_line) OCF_METADATA_WR.

Definition ocf_hb_id_naked_lock_rd (hash : Z) : prog unit := ocf_hb_id_naked_lock hash OCF_METADATA_RD.
Definition ocf_hb_id_naked_unlock_rd (hash : Z) : prog unit := ocf_hb_id_naked_unlock hash OCF_METADATA_RD.
Definition ocf_hb_id_naked_lock_wr (hash : Z) : prog unit := ocf_hb_id_naked_lock hash OCF_METADATA_WR.
Definition ocf_hb_id_naked_unlock_wr (hash : Z) : prog unit := ocf_hb_id_naked_unlock hash OCF_METADATA_WR.

Definition ocf_hb_id_prot_lock_common (lock_idx hash : Z) (rw : access) : prog unit :=
  _ ← ocf_metadata_start_shared_access lock_idx; ocf_hb_id_naked_lock hash rw.
Definition ocf_hb_id_prot_unlock_common (lock_idx hash : Z) (rw : access) : prog unit :=
  _ ← ocf_hb_id_naked_unlock hash rw; ocf_metadata_end_shared_access lock_idx.

Definition ocf_hb_cline_prot_lock_wr (lock_idx core_id core_line : Z) : prog unit :=
  ocf_hb_id_prot_lock_common lock_idx (line_hash core_id core_line) OCF_METADATA_WR.
Definition ocf_hb_cline_prot_unlock_wr (lock_idx core_id core_line : Z) : prog unit :=
  ocf_hb_id_prot_unlock_common lock_idx (line_hash core_id core_line) OCF_METADATA_WR.
Definition ocf_hb_cline_prot_lock_rd (lock_idx core_id core_line : Z) : prog unit :=
  ocf_hb_id_prot_lock_common lock_idx (line_hash core_id core_line) OCF_METADATA_RD.
Definition ocf_hb_cline_prot_unlock_rd (lock_idx core_id core_line : Z) : prog unit :=
  ocf_hb_id_prot_unlock_common lock_idx (line_hash core_id core_line) OCF_METADATA_RD.
Definition ocf_hb_id_prot_lock_wr (lock_idx hash : Z) : prog unit :=
  ocf_hb_id_prot_lock_common lock_idx hash OCF_METADATA_WR.
Definition ocf_hb_id_prot_unlock_wr (lock_idx hash : Z) : prog unit :=
  ocf_hb_id_prot_unlock_common lock_idx hash OCF_METADATA_WR.
End Buckets.

(** *** Requests *)

Section Requests.
Context (lock_idx : Z) (sp : hash_span).

(** The body of [for_each_req_hash_asc]; running out of fuel is a bug. *)
Definition each_req_hash (body : Z -> prog unit) : prog unit :=
  match for_each_req_hash_asc sp with Some hashes => b_for hashes body | None => B_Bug end.

Definition lock_hash (rw : access) (hash : Z) : prog unit :=
  ocf_hb_id_naked_lock (_NUM_HASH_ENTRIES sp) hash rw.
Definition unlock_hash (rw : access) (hash : Z) : prog unit :=
  ocf_hb_id_naked_unlock (_NUM_HASH_ENTRIES sp) hash rw.

Definition ocf_hb_req_prot_lock_rd : prog unit :=
  _ ← ocf_metadata_start_shared_access lock_idx; each_req_hash (lock_hash OCF_METADATA_RD).
Definition ocf_hb_req_prot_unlock_rd : prog unit :=
  _ ← each_req_hash (unlock_hash OCF_METADATA_RD); ocf_metadata_end_shared_access lock_idx.
Definition ocf_hb_req_prot_lock_wr : prog unit :=
  _ ← ocf_metadata_start_shared_access lock_idx; each_req_hash (lock_hash OCF_METADATA_WR).
Definition ocf_hb_req_prot_lock_upgrade : prog unit :=
  _ ← each_req_hash (unlock_hash OCF_METADATA_RD); each_req_hash (lock_hash OCF_METADATA_WR).
Definition ocf_hb_req_prot_unlock_wr : prog unit :=
  _ ← each_req_hash (unlock_hash OCF_METADATA_WR); ocf_metadata_end_shared_access lock_idx.
End Requests.

(** *** Pages of the collision table *)

Section Pages.
(** Whether [metadata_lock->collision_pages] was allocated. *)
Context (collision_pages : bool).

Definition ocf_collision_start_shared_access (page : Z) : prog unit :=
  if collision_pages then down (Page page) OCF_METADATA_RD else mret tt.
Definition ocf_collision_end_shared_access (page : Z) : prog unit :=
  if collision_pages then up (Page page) OCF_METADATA_RD else mret tt.
Definition ocf_collision_start_exclusive_access (page : Z) : prog unit :=
  if collision_pages then down (Page page) OCF_METADATA_WR else mret tt.
Definition ocf_collision_end_exclusive_access (page : Z) : prog unit :=
  if collision_pages then up (Page page) OCF_METADATA_WR else mret tt.
End Pages.

(** ** Clients *)

(** What the users of these locks do with them, a program per kind of use; the
    work under the locks has no lock action, except as shown. *)
Inductive session :=
| S_req_read (lock_idx : Z) (sp : hash_span)
| S_req_upgrade (lock_idx : Z) (sp : hash_span)
(** With the core lines of the cache lines that are tried for eviction. *)
| S_req_write (lock_idx : Z) (sp : hash_span) (victims : list (Z * Z))
| S_cline_read (lock_idx entries core_id core_line : Z)
| S_cline_write (lock_idx entries core_id core_line page : Z) (collision_pages : bool)
| S_id_write (lock_idx entries hash : Z)
(** [alru.c], [acp.c]: the buckets of a shard one after the other. *)
| S_shard_read (lock_idx entries : Z) (hashes : list Z)
| S_exclusive
| S_try_exclusive
| S_shared (lock_idx : Z)
| S_try_shared (lock_idx : Z)
| S_page_write (page : Z) (collision_pages : bool).

(** [_lru_trylock_hash] and [_lru_unlock_hash] of [eviction/ocf_lru.c] for an
    iterator whose [hash_locked] tests the request with the buckets [hash_locked]. *)
Section Eviction.
Context (entries : Z) (hash_locked : option hash_span).

Definition in_locked_range (core_id core_line : Z) : bool :=
  match hash_locked with Some sp => ocf_req_hash_in_range sp core_id core_line | None => false end.
Definition _lru_trylock_hash (core_id core_line : Z) : prog bool :=
  if in_locked_range core_id core_line then mret true
  else ocf_hb_cline_naked_trylock_wr entries core_id core_line.
Definition _lru_unlock_hash (core_id core_line : Z) : prog unit :=
  if in_locked_range core_id core_line then mret tt
  else ocf_hb_cline_naked_unlock_wr entries core_id core_line.

Definition try_victim (victim : Z * Z) : prog unit :=
  locked ← _lru_trylock_hash (fst victim) (snd victim);
  if (locked : bool) then _lru_unlock_hash (fst victim) (snd victim) else mret tt.
End Eviction.

Definition session_prog (c : session) : prog unit :=
  match c with
  | S_req_read idx sp => _ ← ocf_hb_req_prot_lock_rd idx sp; ocf_hb_req_prot_unlock_rd idx sp
  | S_req_upgrade idx sp =>
      _ ← ocf_hb_req_prot_lock_rd idx sp; _ ← ocf_hb_req_prot_lock_upgrade sp;
      ocf_hb_req_prot_unlock_wr idx sp
  | S_req_write idx sp victims =>
      _ ← ocf_hb_req_prot_lock_wr idx sp; _ ← b_for victims (try_victim (_NUM_HASH_ENTRIES sp) (Some sp));
      ocf_hb_req_prot_unlock_wr idx sp
  | S_cline_read idx entries core line =>
      _ ← ocf_hb_cline_prot_lock_rd entries idx core line; ocf_hb_cline_prot_unlock_rd entries idx core line
  | S_cline_write idx entries core line page pages =>
      _ ← ocf_hb_cline_prot_lock_wr entries idx core line;
      _ ← ocf_collision_start_shared_access pages page;
      _ ← ocf_collision_end_shared_access pages page;
      ocf_hb_cline_prot_unlock_wr entries idx core line
  | S_id_write idx entries hash =>
      _ ← ocf_hb_id_prot_lock_wr entries idx hash; ocf_hb_id_prot_unlock_wr entries idx hash
  | S_shard_read idx entries hashes =>
      _ ← ocf_metadata_start_shared_access idx;
      _ ← b_for hashes (fun hash =>
            _ ← ocf_hb_id_naked_lock_rd entries hash; ocf_hb_id_naked_unlock_rd entries hash);
      ocf_metadata_end_shared_access idx
  | S_exclusive => _ ← ocf_metadata_start_exclusive_access; ocf_metadata_end_exclusive_access
  | S_try_exclusive =>
      error ← ocf_metadata_try_start_exclusive_access;
      if bool_decide (error = 0) then ocf_metadata_end_exclusive_access else mret tt
  | S_shared idx => _ ← ocf_metadata_start_shared_access idx; ocf_metadata_end_shared_access idx
  | S_try_shared idx =>
      error ← ocf_metadata_try_start_shared_access idx;
      if bool_decide (error = 0) then ocf_metadata_end_shared_access idx else mret tt
  | S_page_write page pages =>
      _ ← ocf_collision_start_exclusive_access pages page; ocf_collision_end_exclusive_access pages page
  end.

(** ** Interleavings *)

Record locks := Locks {
  hash_table : Z -> ocf_hash_entry;
  global : Z -> env_rwsem;
  pages : Z -> env_rwsem }.

Definition acquire (r : resource) (rw : access) (s : locks) : option locks :=
  match r with
  | Global i => l ← rw_acquire rw (global s i); Some (Locks (hash_table s) (<[i := l]> (global s)) (pages s))
  | Bucket h => e ← rw_acquire rw (hash_table s h); Some (Locks (<[h := e]> (hash_table s)) (global s) (pages s))
  | Page p => l ← rw_acquire rw (pages s p); Some (Locks (hash_table s) (global s) (<[p := l]> (pages s)))
  end.

Definition release (r : resource) (rw : access) (s : locks) : locks :=
  match r with
  | Global i => Locks (hash_table s) (<[i := rw_release rw (global s i)]> (global s)) (pages s)
  | Bucket h => Locks (<[h := rw_release rw (hash_table s h)]> (hash_table s)) (global s) (pages s)
  | Page p => Locks (hash_table s) (global s) (<[p := rw_release rw (pages s p)]> (pages s))
  end.

Definition hold := (resource * access)%type.
(** [holds] is not in the source: the locks the client took and did not release. *)
Record client := Client { todo : prog unit; holds : list hold }.
Record system := System { the_locks : locks; clients : list client }.

(** A list without the first [x]. *)
Fixpoint remove1 `{EqDecision A} (x : A) (l : list A) : list A :=
  match l with
  | [] => []
  | y :: l => if decide (x = y) then l else y :: remove1 x l
  end.

(** A lock action of one client; a [try] may also fail when the exchange of
    [hash_lock_lock] loses against another client. *)
Inductive client_step (s : locks) : client -> client -> locks -> Prop :=
| step_down r rw k hs s' :
    acquire r rw s = Some s' -> client_step s (Client (B_Down r rw k) hs) (Client k ((r, rw) :: hs)) s'
| step_try_ok r rw k hs s' :
    acquire r rw s = Some s' -> client_step s (Client (B_Try r rw k) hs) (Client (k true) ((r, rw) :: hs)) s'
| step_try_fail r rw k hs :
    client_step s (Client (B_Try r rw k) hs) (Client (k false) hs) s
| step_up r rw k hs :
    client_step s (Client (B_Up r rw k) hs) (Client k (remove1 (r, rw) hs)) (release r rw s).

Inductive step : system -> system -> Prop :=
| client_steps s cs i c c' s' :
    cs !! i = Some c -> client_step s c c' s' -> step (System s cs) (System s' (<[i := c']> cs)).

Definition free_locks : locks := Locks (fun _ => rw_free) (fun _ => rw_free) (fun _ => rw_free).

(** Every client has its list of sessions before it. *)
Definition start (work : list (list session)) : system :=
  System free_locks ((fun l => Client (b_for l session_prog) []) <$> work).

Definition finished (s : system) : Prop :=
  Forall (fun c => todo c = B_Ret tt /\ holds c = []) (clients s).

(** The lock actions of a program, along its longest run. *)
Fixpoint actions {A} (p : prog A) : nat :=
  match p with
  | B_Ret _ | B_Bug => 0
  | B_Down _ _ k | B_Up _ _ k => S (actions k)
  | B_Try _ _ f => S (Nat.max (actions (f true)) (actions (f false)))
  end.
Definition actions_left (s : system) : nat := sum_list_with (fun c => actions (todo c)) (clients s).

End HashLock.
