(* ===== verification/HashLockProofs.v ===== *)
(** * Hash bucket locks: the iteration over a request and freedom from deadlock

    The iteration visits the buckets of a request in ascending order, each
    once, for every way the hashes wrap around the table.  With that order
    the clients of [HashLock] exclude each other and never block each other
    for ever.  The lock words and the semaphores meet the laws of [RwLock];
    [spec] is a Hoare triple for programs over lock actions. *)

From stdpp Require Import functions sorting.
From S2P Require Import Prelude Collision CollisionProofs Status Request RequestProofs HashLock.
Import HashLock.
Open Scope Z_scope.

Module HashLockProofs.

(** ** Ascending runs *)

Lemma seqZ_cons' a n : 0 < n -> seqZ a n = a :: seqZ (a + 1) (n - 1).
Proof. intros Hn. rewrite seqZ_cons by done. by replace (Z.succ a) with (a + 1) by lia; replace (Z.pred n) with (n - 1) by lia. Qed.

Lemma seqZ_ascends a n : StronglySorted Z.lt (seqZ a n).
Proof.
  destruct (decide (0 <= n)) as [Hn|Hn]; [|rewrite seqZ_nil by lia; constructor].
  revert a. pattern n. apply natlike_ind; [| |done]; clear n Hn.
  - intros a. rewrite seqZ_nil by lia. constructor.
  - intros n Hn IH a. rewrite seqZ_cons' by lia. replace (Z.succ n - 1) with n by lia. constructor; [done|].
    apply Forall_forall. intros x Hx%elem_of_seqZ. lia.
Qed.

Lemma ascends_app (l k : list Z) :
  StronglySorted Z.lt l -> StronglySorted Z.lt k -> (forall x y, x ∈ l -> y ∈ k -> x < y) ->
  StronglySorted Z.lt (l ++ k).
Proof.
  induction 1 as [|x l Hl IH Hx]; intros Hk Hlk; cbn; [done|]. constructor.
  - apply IH; [done|]. intros. apply Hlk; [by right|done].
  - apply Forall_app. split; [done|]. apply Forall_forall. intros y Hy. apply Hlk; [by left|done].
Qed.

Lemma ascends_nodup (l : list Z) : StronglySorted Z.lt l -> NoDup l.
Proof.
  induction 1 as [|x l Hl IH Hx]; constructor; [|done].
  intros Hin. rewrite Forall_forall in Hx. specialize (Hx _ Hin). lia.
Qed.

Lemma ascends_le (l : list Z) : StronglySorted Z.lt l -> StronglySorted Z.le l.
Proof.
  induction 1 as [|x l Hl IH Hx]; constructor; [done|].
  eapply Forall_impl; [exact Hx|]. cbn. lia.
Qed.

(** An ascending list is its elements, sorted. *)
Lemma ascends_unique (l k : list Z) :
  StronglySorted Z.lt l -> (forall x, x ∈ l <-> x ∈ k) -> l = merge_sort Z.le (remove_dups k).
Proof.
  intros Hl Hk. apply (StronglySorted_unique Z.le).
  - by apply ascends_le.
  - apply StronglySorted_merge_sort; apply _.
  - rewrite merge_sort_Permutation. apply NoDup_Permutation; [by apply ascends_nodup|apply NoDup_remove_dups|].
    intros x. by rewrite elem_of_remove_dups.
Qed.

(** ** The iteration *)

(** The hashes of [count] consecutive core lines in a table of [_NUM_HASH_ENTRIES]. *)
Definition span_ok (sp : hash_span) : Prop :=
  let n := _NUM_HASH_ENTRIES sp in
  0 < n < 2 ^ 32 /\ 0 <= hs_first sp < n /\ 1 <= hs_count sp /\
  hs_first sp + hs_count sp < 2 ^ 32 /\ hs_last sp = (hs_first sp + hs_count sp - 1) mod n.

Definition in_span (sp : hash_span) (h : Z) : Prop :=
  exists i, 0 <= i < hs_count sp /\ h = (hs_first sp + i) mod _NUM_HASH_ENTRIES sp.

Section Iteration.
Context (sp : hash_span) (Hok : span_ok sp).
Abbreviation N := (_NUM_HASH_ENTRIES sp).
Abbreviation h0 := (hs_first sp).
Abbreviation count := (hs_count sp).

(** The three shapes of a span: in order, the whole table, or with a gap. *)
Inductive span_shape : list Z -> Prop :=
| shape_straight :
    h0 + count <= N -> _MIN_HASH sp = h0 -> _MAX_HASH sp = h0 + count - 1 -> _HAS_GAP sp = false ->
    span_shape (seqZ h0 count)
| shape_full :
    N < h0 + count -> N <= count -> _MIN_HASH sp = 0 -> _MAX_HASH sp = N - 1 -> _HAS_GAP sp = false ->
    span_shape (seqZ 0 N)
| shape_gap :
    N < h0 + count -> count < N -> _MIN_HASH sp = 0 -> _MAX_HASH sp = N - 1 -> _HAS_GAP sp = true ->
    _GAP_VAL sp = N - count -> _GAP_START sp = h0 + count - 1 - N ->
    span_shape (seqZ 0 (h0 + count - N) ++ seqZ h0 (N - h0)).

Lemma span_has_shape : exists l, span_shape l.
Proof.
  destruct Hok as (Hn & Hh & Hc & Hw & Hl).
  assert (Hmono : _IS_MONOTONIC sp = bool_decide (h0 + count <= N))
    by (unfold _IS_MONOTONIC; by rewrite (wrap_small 32) by lia).
  destruct (decide (h0 + count <= N)) as [Hle|Hgt].
  - rewrite bool_decide_eq_true_2 in Hmono by done.
    assert (Hmax : _MAX_HASH sp = h0 + count - 1)
      by (unfold _MAX_HASH; rewrite Hmono, Hl; apply Z.mod_small; lia).
    assert (Hmin : _MIN_HASH sp = h0) by (unfold _MIN_HASH; by rewrite Hmono).
    eexists. apply shape_straight; [done..|]. unfold _HAS_GAP, _HASH_COUNT. rewrite Hmax, Hmin.
    rewrite (wrap_small 32) by lia. apply bool_decide_eq_false_2. lia.
  - rewrite bool_decide_eq_false_2 in Hmono by done.
    assert (Hmax : _MAX_HASH sp = N - 1) by (unfold _MAX_HASH; rewrite Hmono; apply wrap_small; lia).
    assert (Hmin : _MIN_HASH sp = 0) by (unfold _MIN_HASH; by rewrite Hmono).
    assert (Hspan : u32 (_MAX_HASH sp - _MIN_HASH sp + 1) = N)
      by (rewrite Hmax, Hmin, (wrap_small 32) by lia; lia).
    destruct (decide (N <= count)) as [Hfull|Hgap]; eexists.
    + apply shape_full; [lia|done..|]. unfold _HAS_GAP, _HASH_COUNT. rewrite Hspan. apply bool_decide_eq_false_2. lia.
    + apply shape_gap; [lia|lia|done|done|..].
      * unfold _HAS_GAP, _HASH_COUNT. rewrite Hspan. apply bool_decide_eq_true_2. lia.
      * unfold _GAP_VAL, _HASH_COUNT. rewrite Hspan. rewrite (wrap_small 32) by lia. lia.
      * unfold _GAP_START. rewrite Hl. symmetry. apply (Z.mod_unique _ _ 1); lia.
Qed.

(** The loop runs through values that follow each other. *)
Lemma asc_run fuel h m :
  h <= m <= _MAX_HASH sp + 1 -> (forall x, h <= x < m -> _HASH_NEXT sp x = x + 1) ->
  hash_asc_from sp (Z.to_nat (m - h) + fuel) h =
  (rest ← hash_asc_from sp fuel m; Some (seqZ h (m - h) ++ rest)).
Proof.
  intros Hm Hnext. remember (Z.to_nat (m - h)) as k eqn:Ek. revert h Hm Hnext Ek.
  induction k as [|k IH]; intros h Hm Hnext Ek.
  - assert (m = h) as -> by lia. rewrite seqZ_nil by lia. cbn. by destruct (hash_asc_from sp fuel h).
  - cbn [Nat.add hash_asc_from]. rewrite bool_decide_eq_true_2 by lia. rewrite Hnext by lia.
    rewrite (IH (h + 1)) by (lia || (intros; apply Hnext; lia)).
    rewrite (seqZ_cons' h) by lia. replace (m - h - 1) with (m - (h + 1)) by lia.
    by destruct (hash_asc_from sp fuel m).
Qed.

Lemma asc_end fuel : hash_asc_from sp (S fuel) (_MAX_HASH sp + 1) = Some [].
Proof. cbn. by rewrite bool_decide_eq_false_2 by lia. Qed.

Lemma asc_to_end fuel h :
  h <= _MAX_HASH sp + 1 -> (forall x, h <= x <= _MAX_HASH sp -> _HASH_NEXT sp x = x + 1) ->
  (Z.to_nat (_MAX_HASH sp + 1 - h) < fuel)%nat ->
  hash_asc_from sp fuel h = Some (seqZ h (_MAX_HASH sp + 1 - h)).
Proof.
  intros Hh Hnext Hf.
  replace fuel with (Z.to_nat (_MAX_HASH sp + 1 - h) + S (fuel - 1 - Z.to_nat (_MAX_HASH sp + 1 - h)))%nat by lia.
  rewrite asc_run by (lia || (intros; apply Hnext; lia)). rewrite asc_end. cbn. by rewrite app_nil_r.
Qed.

Lemma next_nogap x : _HAS_GAP sp = false -> 0 <= x < N -> _HASH_NEXT sp x = x + 1.
Proof.
  intros Hg Hx. destruct Hok as (Hn & _). unfold _HASH_NEXT. rewrite Hg. cbn [andb].
  rewrite Z.add_0_r. apply wrap_small. lia.
Qed.

Lemma for_each_shape l : span_shape l -> for_each_req_hash_asc sp = Some l.
Proof.
  pose proof Hok as (Hn & Hh & Hc & Hw & Hl). unfold for_each_req_hash_asc. intros [Hs Hmin Hmax Hg|Hs Hf Hmin Hmax Hg|Hs Hf Hmin Hmax Hg Hv Hst].
  - rewrite Hmin, asc_to_end by (lia || (intros; apply next_nogap; [done|lia])). do 2 f_equal. lia.
  - rewrite Hmin, asc_to_end by (lia || (intros; apply next_nogap; [done|lia])). do 2 f_equal. lia.
  - set (last := h0 + count - 1 - N) in *.
    assert (Hstep : forall x, 0 <= x < N -> x <> last -> _HASH_NEXT sp x = x + 1).
    { intros x Hx Hne. unfold _HASH_NEXT. rewrite Hst, bool_decide_eq_false_2, andb_false_r by done.
      rewrite Z.add_0_r. apply wrap_small. lia. }
    assert (Hjump : _HASH_NEXT sp last = h0).
    { unfold _HASH_NEXT. rewrite Hst, Hg, Hv, bool_decide_eq_true_2 by done. cbn [andb].
      rewrite (wrap_small 32) by (unfold last; lia). unfold last. lia. }
    rewrite Hmin.
    replace (S (Z.to_nat N)) with (Z.to_nat (last - 0) + S (Z.to_nat (N - last)))%nat by (unfold last; lia).
    rewrite asc_run by (unfold last; lia || (intros; apply Hstep; unfold last in *; lia)).
    cbn [hash_asc_from]. rewrite bool_decide_eq_true_2 by (unfold last; lia). rewrite Hjump.
    rewrite asc_to_end by (unfold last; lia || (intros; apply Hstep; unfold last in *; lia)). cbn. f_equal.
    replace (h0 + count - N) with (last - 0 + 1) by (unfold last; lia).
    rewrite seqZ_app by (unfold last; lia). rewrite <- app_assoc. cbn. do 2 f_equal.
    rewrite (seqZ_cons' _ 1), (seqZ_nil _ (1 - 1)) by lia. cbn [app]. f_equal; [lia|]. f_equal. lia.
Qed.

Lemma shape_ascends l : span_shape l -> StronglySorted Z.lt l.
Proof.
  intros [?|?|Hs Hf ?]; [apply seqZ_ascends..|]. apply ascends_app; [apply seqZ_ascends..|].
  intros x y Hx%elem_of_seqZ Hy%elem_of_seqZ. lia.
Qed.

Lemma span_mod x : h0 <= x < h0 + count -> x mod N = if bool_decide (x < N) then x else (x - N) mod N.
Proof.
  destruct Hok as (Hn & Hh & _). intros Hx. case_bool_decide; [apply Z.mod_small; lia|].
  replace x with (x - N + 1 * N) at 1 by lia. by rewrite Z_mod_plus_full.
Qed.

Lemma shape_elem l h : span_shape l -> h ∈ l <-> in_span sp h.
Proof.
  pose proof Hok as (Hn & Hh & Hc & Hw & Hl). unfold in_span.
  intros [Hs _ _ _|Hs Hf _ _ _|Hs Hf _ _ _ _ _]; rewrite ?elem_of_app, !elem_of_seqZ; split.
  - intros Hx. exists (h - h0). split; [lia|]. rewrite Z.mod_small by lia. lia.
  - intros (i & Hi & ->). rewrite Z.mod_small by lia. lia.
  - intros Hx. destruct (decide (h0 <= h)); [exists (h - h0)|exists (h + N - h0)]; (split; [lia|]).
    + rewrite Z.mod_small by lia. lia.
    + replace (h0 + (h + N - h0)) with (h + 1 * N) by lia. rewrite Z_mod_plus_full, Z.mod_small by lia. lia.
  - intros (i & Hi & ->). pose proof (Z.mod_pos_bound (h0 + i) N). lia.
  - intros [Hx|Hx]; [exists (h + N - h0)|exists (h - h0)]; (split; [lia|]).
    + replace (h0 + (h + N - h0)) with (h + 1 * N) by lia. rewrite Z_mod_plus_full, Z.mod_small by lia. lia.
    + rewrite Z.mod_small by lia. lia.
  - intros (i & Hi & ->). rewrite span_mod by lia. case_bool_decide; [lia|]. rewrite Z.mod_small by lia. lia.
Qed.

Lemma in_range_shape l core core_line :
  span_shape l ->
  ocf_req_hash_in_range sp core core_line = true <-> ocf_metadata_hash_func N core_line core ∈ l.
Proof.
  pose proof Hok as (Hn & Hh & Hc & Hw & Hl). unfold ocf_req_hash_in_range.
  intros [Hs Hmin Hmax Hg|Hs Hf Hmin Hmax Hg|Hs Hf Hmin Hmax Hg Hv Hst]; rewrite Hg, Hmin, Hmax; cbn [negb].
  - rewrite andb_true_iff, !bool_decide_eq_true, elem_of_seqZ. lia.
  - rewrite andb_true_iff, !bool_decide_eq_true, elem_of_seqZ. lia.
  - rewrite Hst, Hv. rewrite (wrap_small 32) by lia.
    rewrite orb_true_iff, !andb_true_iff, !bool_decide_eq_true, elem_of_app, !elem_of_seqZ. lia.
Qed.

(** The iteration ends and lists exactly the hashes of the span, in order;
    the range test decides the membership in it. *)
Lemma span_iterates :
  exists l, for_each_req_hash_asc sp = Some l /\ StronglySorted Z.lt l /\
    (forall h, h ∈ l <-> in_span sp h) /\
    forall core core_line,
      ocf_req_hash_in_range sp core core_line = true <-> ocf_metadata_hash_func N core_line core ∈ l.
Proof.
  destruct span_has_shape as (l & Hl). exists l. split_and!.
  - by apply for_each_shape.
  - by apply shape_ascends.
  - intros h. by apply shape_elem.
  - intros. by apply in_range_shape.
Qed.
End Iteration.

Lemma in_span_bound sp h : span_ok sp -> in_span sp h -> 0 <= h < _NUM_HASH_ENTRIES sp.
Proof. intros (Hn & _) (i & _ & ->). apply Z.mod_pos_bound. lia. Qed.

(** ** Requests *)

Lemma hash_func_add entries l core i :
  0 < entries < 2 ^ 32 -> 0 <= l -> 0 <= i -> l + i + 2 ^ 32 <= 2 ^ 64 ->
  ocf_metadata_hash_func entries (l + i) core = (ocf_metadata_hash_func entries l core + i) mod entries.
Proof.
  intros He Hl Hi Hw. unfold ocf_metadata_hash_func.
  set (o := u32 (core * (entries / 32))). assert (0 <= o < 2 ^ 32) by (by apply wrap_range).
  pose proof (Z.mod_pos_bound (l + o) entries ltac:(lia)).
  pose proof (Z.mod_pos_bound (l + i + o) entries ltac:(lia)).
  rewrite !(wrap_small 64) by lia. rewrite !(wrap_small 32) by lia.
  rewrite Zplus_mod_idemp_l. f_equal. lia.
Qed.

Definition entry_hashes (m : list map_entry) : list Z := (fun e => mi_hash (me_info e)) <$> m.

(** A request that has been hashed has a span. *)
Lemma hashed_request_span entries r :
  0 < entries < 2 ^ 32 -> 0 <= core_line_first r ->
  core_line_first r + core_line_count r + 2 ^ 32 <= 2 ^ 64 ->
  entries + core_line_count r <= 2 ^ 32 -> 1 <= core_line_count r ->
  core_line_count r = Z.of_nat (length (req_map r)) ->
  exists sp, req_span entries (ocf_req_hash entries r) = Some sp /\ span_ok sp /\ _NUM_HASH_ENTRIES sp = entries /\
    forall h, in_span sp h <-> h ∈ entry_hashes (req_map (ocf_req_hash entries r)).
Proof.
  intros He Hf Hw Hn Hc Hlen.
  destruct (ocf_req_hash_entries entries r He Hf ltac:(lia)) as (Hr & Hl & Hent).
  set (r' := ocf_req_hash entries r) in *.
  assert (Hcount : core_line_count r' = core_line_count r) by exact (f_equal core_line_count Hr).
  set (h := fun i => ocf_metadata_hash_func entries (core_line_first r + Z.of_nat i) (req_core r)).
  assert (Hat : forall i, (i < length (req_map r))%nat -> exists e, req_map r' !! i = Some e /\ mi_hash (me_info e) = h i).
  { intros i [e0 He0]%lookup_lt_is_Some_2. eexists. split; [by apply Hent|done]. }
  destruct (Hat 0%nat ltac:(lia)) as (e1 & H1 & Hh1).
  destruct (Hat (length (req_map r) - 1)%nat ltac:(lia)) as (e2 & H2 & Hh2).
  eexists. split; [|split; [|split]].
  - unfold req_span. rewrite H1. cbn. rewrite Hcount, (wrap_small 32) by lia.
    replace (Z.to_nat (core_line_count r - 1)) with (length (req_map r) - 1)%nat by lia. rewrite H2. cbn. done.
  - unfold span_ok. cbn. rewrite Hh1, Hh2. pose proof (hash_func_range entries (req_core r) (core_line_first r + 0) He).
    unfold h. change (Z.of_nat 0) with 0. rewrite Z.add_0_r in *. split_and!; try lia.
    rewrite hash_func_add by lia. f_equal. lia.
  - done.
  - intros x. unfold in_span, entry_hashes. cbn. rewrite list_elem_of_fmap, Hh1. unfold h. cbn.
    rewrite Z.add_0_r. split.
    + intros (i & Hi & ->). destruct (Hat (Z.to_nat i) ltac:(lia)) as (e & Hie & Hhe). exists e.
      split; [|by eapply list_elem_of_lookup_2]. rewrite Hhe. unfold h. rewrite Z2Nat.id by lia.
      by rewrite hash_func_add by lia.
    + intros (e & -> & [i Hi]%list_elem_of_lookup_1). assert (i < length (req_map r))%nat
        by (rewrite <- Hl; by eapply lookup_lt_Some).
      destruct (Hat i ltac:(lia)) as (e' & Hie & Hhe). rewrite Hi in Hie. injection Hie as <-.
      exists (Z.of_nat i). split; [lia|]. rewrite Hhe. unfold h. by rewrite hash_func_add by lia.
Qed.

(** C22. The buckets of a request ([ocf_req_hash], [for_each_req_hash_asc],
    [ocf_req_hash_in_range]): stepping the first hash along the entries gives
    every entry the bucket of its own core line and changes nothing else; the
    iteration, which only looks at the first and the last hash, ends and
    visits exactly the buckets of the entries, each once, in ascending order:
    it is the sorted list of the distinct hashes.  The range test says for
    every core line whether its bucket is one of them. *)
Theorem req_hash_ascends entries r :
  0 < entries < 2 ^ 32 -> 0 <= core_line_first r ->
  core_line_first r + core_line_count r + 2 ^ 32 <= 2 ^ 64 ->
  entries + core_line_count r <= 2 ^ 32 -> 1 <= core_line_count r ->
  core_line_count r = Z.of_nat (length (req_map r)) ->
  let r' := ocf_req_hash entries r in
  with_map (req_map r) r' = r /\
  (forall i e, req_map r !! i = Some e ->
     req_map r' !! i =
       Some (with_hash (ocf_metadata_hash_func entries (core_line_first r + Z.of_nat i) (req_core r)) e)) /\
  exists sp, req_span entries r' = Some sp /\
    for_each_req_hash_asc sp = Some (merge_sort Z.le (remove_dups (entry_hashes (req_map r')))) /\
    forall core core_line,
      ocf_req_hash_in_range sp core core_line =
      bool_decide (ocf_metadata_hash_func entries core_line core ∈ entry_hashes (req_map r')).
Proof.
  intros He Hf Hw Hn Hc Hlen r'.
  destruct (ocf_req_hash_entries entries r He Hf ltac:(lia)) as (Hr & _ & Hent).
  split; [done|]. split; [done|].
  destruct (hashed_request_span entries r He Hf Hw Hn Hc Hlen) as (sp & Hsp & Hok & HN & Hin).
  destruct (span_iterates sp Hok) as (l & Hl & Hs & Hel & Hrange).
  exists sp. split; [done|]. split.
  - rewrite Hl. f_equal. apply ascends_unique; [done|]. intros x. by rewrite Hel, Hin.
  - intros core core_line. apply eq_true_iff_eq. rewrite Hrange, bool_decide_eq_true, Hel, Hin. by rewrite HN.
Qed.

(** ** The laws of the locks *)

(** [rw_view l] is the number of readers and of writers of [l]. *)
Class RwLockLaws (L : Type) `{RwLock L} := {
  rw_ok : L -> Prop;
  rw_view : L -> nat * nat;
  rw_free_law : rw_ok rw_free /\ rw_view rw_free = (0%nat, 0%nat);
  rw_writers_law l : rw_ok l -> snd (rw_view l) = 0%nat \/ rw_view l = (0%nat, 1%nat);
  rw_read_law l l' : rw_ok l -> rw_acquire OCF_METADATA_RD l = Some l' ->
    rw_ok l' /\ exists n, rw_view l = (n, 0%nat) /\ rw_view l' = (S n, 0%nat);
  rw_write_law l l' : rw_ok l -> rw_acquire OCF_METADATA_WR l = Some l' ->
    rw_ok l' /\ rw_view l = (0%nat, 0%nat) /\ rw_view l' = (0%nat, 1%nat);
  rw_grant_law rw l : rw_ok l -> rw_view l = (0%nat, 0%nat) -> is_Some (rw_acquire rw l);
  rw_unread_law l n : rw_ok l -> rw_view l = (S n, 0%nat) ->
    rw_ok (rw_release OCF_METADATA_RD l) /\ rw_view (rw_release OCF_METADATA_RD l) = (n, 0%nat);
  rw_unwrite_law l : rw_ok l -> rw_view l = (0%nat, 1%nat) ->
    rw_ok (rw_release OCF_METADATA_WR l) /\ rw_view (rw_release OCF_METADATA_WR l) = (0%nat, 0%nat) }.

(** The lock bits of a bucket: at most three readers, or a writer. *)
Definition entry_ok (e : ocf_hash_entry) : Prop :=
  0 <= he_line e < 2 ^ 29 /\ 0 <= he_rd e < 4 /\ (he_wr e = true -> he_rd e = 0).

Lemma wrap2_cases x : 0 <= x < 4 -> wrap 2 (x + 1) = if bool_decide (x = 3) then 0 else x + 1.
Proof. intros Hx. case_bool_decide; [by subst|]. apply wrap_small. lia. Qed.

#[global] Program Instance hash_entry_laws : RwLockLaws ocf_hash_entry := {|
  rw_ok := entry_ok;
  rw_view e := (Z.to_nat (he_rd e), Nat.b2n (he_wr e)) |}.
Next Obligation. unfold entry_ok. cbn. split; [|done]. split_and!; lia || done. Qed.
Next Obligation. intros [line rd []] (_ & Hrd & Hw); cbn in *; [right; by rewrite Hw|by left]. Qed.
Next Obligation.
  intros [line rd wr] l' (Hl & Hrd & Hw) Ha. cbn in *. unfold hash_lock_new in Ha. cbn in Ha.
  destruct wr; [done|]. rewrite wrap2_cases in Ha by done. case_bool_decide as E3; [done|].
  case_bool_decide; [lia|]. injection Ha as <-. unfold entry_ok. cbn. split; [split_and!; lia || done|].
  exists (Z.to_nat rd). split; [done|]. f_equal. lia.
Qed.
Next Obligation.
  intros [line rd wr] l' (Hl & Hrd & Hw) Ha. cbn in *. unfold hash_lock_new in Ha. cbn in Ha.
  destruct wr; [done|]. case_bool_decide as E0; [done|]. injection Ha as <-. unfold entry_ok. cbn.
  assert (rd = 0) as -> by lia. split; [split_and!; lia || done|done].
Qed.
Next Obligation.
  intros rw [line rd wr] (Hl & Hrd & Hw) Hv. cbn in *. injection Hv as Hr ?. destruct wr; [done|].
  assert (rd = 0) as -> by lia. destruct rw; cbn; eauto.
Qed.
Next Obligation.
  intros [line rd wr] n (Hl & Hrd & Hw) Hv. cbn in *. injection Hv as Hr ?. destruct wr; [done|].
  unfold entry_ok, hash_unlock_new. cbn. rewrite wrap_small by lia. split; [split_and!; lia || done|]. f_equal. lia.
Qed.
Next Obligation.
  intros [line rd wr] (Hl & Hrd & Hw) Hv. cbn in *. injection Hv as Hr ?. destruct wr; [|done].
  unfold entry_ok, hash_unlock_new. cbn. split; [split_and!; lia || done|]. by rewrite Hr.
Qed.

#[global] Program Instance rwsem_laws : RwLockLaws env_rwsem := {|
  rw_ok s := sem_writer s = true -> sem_readers s = 0%nat;
  rw_view s := (sem_readers s, Nat.b2n (sem_writer s)) |}.
Next Obligation. done. Qed.
Next Obligation. intros [n []] Hs; cbn in *; [right; by rewrite Hs|by left]. Qed.
Next Obligation. intros [n []] l' Hs Ha; cbn in *; [done|]. injection Ha as <-. cbn. split; [done|eauto]. Qed.
Next Obligation.
  intros [n []] l' Hs Ha; cbn in *; [done|]. case_decide; [|done]. injection Ha as <-. by subst.
Qed.
Next Obligation. intros rw [n []] Hs Hv; cbn in *; [done|]. injection Hv as ->. destruct rw; cbn; eauto. Qed.
Next Obligation. intros [m []] n Hs Hv; cbn in *; [done|]. by injection Hv as ->. Qed.
Next Obligation. intros [m []] Hs Hv; cbn in *; [|done]. by injection Hv as ->. Qed.

(** The word of a bucket is determined by its fields: the exchange compares them. *)
Lemma hash_raw_inj e e' : entry_ok e -> entry_ok e' -> hash_raw e = hash_raw e' -> e = e'.
Proof.
  destruct e as [l r w], e' as [l' r' w']. unfold entry_ok, hash_raw. cbn. intros (? & ? & _) (? & ? & _) Hr.
  destruct w, w'; cbn in Hr; (assert (l = l' /\ r = r') as [-> ->] by lia; done) || lia.
Qed.

(** What the loop of [hash_lock_lock] writes is one atomic acquisition. *)
Lemma hash_lock_atomic try rw obs newline :
  Forall (fun o => entry_ok (fst o) /\ entry_ok (snd o)) obs ->
  hash_lock_lock try rw obs = Some (0, Some newline) ->
  exists seen found, (seen, found) ∈ obs /\ rw_acquire rw found = Some newline.
Proof.
  induction 1 as [|[seen found] obs [Hs Hf] _ IH]; cbn; [done|]. intros H.
  assert (Hrest : hash_lock_lock try rw obs = Some (0, Some newline) ->
    exists s f, (s, f) ∈ (seen, found) :: obs /\ rw_acquire rw f = Some newline).
  { intros (s & f & ? & ?)%IH. exists s, f. by split; [right|]. }
  destruct (hash_lock_new rw seen) as [new|] eqn:E.
  - case_bool_decide as Hraw; [|destruct try; [done|auto]]. injection H as ->.
    apply hash_raw_inj in Hraw as ->; [|done..]. exists seen, seen. by split; [left|].
  - destruct try; [done|auto].
Qed.

(** Likewise for [hash_lock_unlock], if nobody else writes a write-locked word. *)
Lemma hash_unlock_atomic rw obs newline :
  Forall (fun o => entry_ok (fst o) /\ entry_ok (snd o) /\ (he_wr (fst o) = true -> snd o = fst o)) obs ->
  hash_lock_unlock obs = Some newline ->
  exists seen found, (seen, found) ∈ obs /\ rw_release rw found = newline.
Proof.
  induction 1 as [|[seen found] obs (Hs & Hf & Hw) _ IH]; cbn; [done|]. intros H.
  destruct (hash_unlock_new seen) as [new set] eqn:E. destruct (set || _) eqn:Es.
  - injection H as ->. exists seen, found. split; [by left|].
    assert (found = seen) as ->; [|cbn; by rewrite E].
    apply orb_true_iff in Es as [->|Hraw%bool_decide_eq_true]; [|symmetry in Hraw; by apply hash_raw_inj in Hraw].
    apply Hw. cbn. unfold hash_unlock_new in E. by destruct (he_wr seen).
  - destruct IH as (s & f & ? & ?); [done|]. exists s, f. by split; [right|].
Qed.

(** *** The locks of the cache *)

Definition lock_view (r : resource) (s : locks) : nat * nat :=
  match r with
  | Global i => rw_view (global s i) | Bucket h => rw_view (hash_table s h) | Page p => rw_view (pages s p)
  end.
Definition lock_ok (r : resource) (s : locks) : Prop :=
  match r with
  | Global i => rw_ok (global s i) | Bucket h => rw_ok (hash_table s h) | Page p => rw_ok (pages s p)
  end.
Definition locks_ok (s : locks) : Prop := forall r, lock_ok r s.

(** [s'] differs from [s] in the lock [r] only. *)
Definition only_lock (r : resource) (s s' : locks) : Prop :=
  forall r', r' <> r -> lock_view r' s' = lock_view r' s /\ (lock_ok r' s -> lock_ok r' s').

Ltac per_lock r := destruct r; cbn -[rw_view rw_ok rw_acquire rw_release] in *.
Ltac other_locks := intros [] Hne; cbn -[rw_view rw_ok]; rewrite ?fn_lookup_insert_ne by congruence; auto.

Lemma acquire_inv r rw s s' :
  acquire r rw s = Some s' -> locks_ok s ->
  locks_ok s' /\ only_lock r s s' /\
  match rw with
  | OCF_METADATA_RD => exists n, lock_view r s = (n, 0%nat) /\ lock_view r s' = (S n, 0%nat)
  | OCF_METADATA_WR => lock_view r s = (0%nat, 0%nat) /\ lock_view r s' = (0%nat, 1%nat)
  end.
Proof.
  intros Ha Hok. pose proof (Hok r) as Hr.
  assert (H : only_lock r s s' /\ lock_ok r s' /\
    match rw with
    | OCF_METADATA_RD => exists n, lock_view r s = (n, 0%nat) /\ lock_view r s' = (S n, 0%nat)
    | OCF_METADATA_WR => lock_view r s = (0%nat, 0%nat) /\ lock_view r s' = (0%nat, 1%nat)
    end).
  { per_lock r; destruct (rw_acquire rw _) as [l|] eqn:E in Ha; [|done| |done| |done]; injection Ha as <-;
      (split; [by other_locks|]); cbn -[rw_view rw_ok]; rewrite fn_lookup_insert;
      (destruct rw; [by apply rw_read_law in E|by apply rw_write_law in E]). }
  destruct H as (Ho & Hk & Hv). split; [|done]. intros r'.
  destruct (decide (r' = r)) as [->|]; [done|]. by apply Ho.
Qed.

Lemma acquire_free r rw s : locks_ok s -> lock_view r s = (0%nat, 0%nat) -> is_Some (acquire r rw s).
Proof.
  intros Hok Hv. pose proof (Hok r) as Hr.
  per_lock r; destruct (rw_grant_law rw _ Hr Hv) as [l ->]; eauto.
Qed.

Lemma release_inv r rw s n :
  locks_ok s ->
  lock_view r s = match rw with OCF_METADATA_RD => (S n, 0%nat) | OCF_METADATA_WR => (0%nat, 1%nat) end ->
  locks_ok (release r rw s) /\ only_lock r s (release r rw s) /\
  lock_view r (release r rw s) = match rw with OCF_METADATA_RD => (n, 0%nat) | OCF_METADATA_WR => (0%nat, 0%nat) end.
Proof.
  intros Hok Hv. pose proof (Hok r) as Hr.
  assert (H : only_lock r s (release r rw s) /\ lock_ok r (release r rw s) /\
    lock_view r (release r rw s) = match rw with OCF_METADATA_RD => (n, 0%nat) | OCF_METADATA_WR => (0%nat, 0%nat) end).
  { per_lock r; (split; [by other_locks|]); rewrite fn_lookup_insert;
      (destruct rw; [by apply rw_unread_law|by apply rw_unwrite_law]). }
  destruct H as (Ho & Hk & Hv'). split; [|done]. intros r'.
  destruct (decide (r' = r)) as [->|]; [done|]. by apply Ho.
Qed.

Lemma free_locks_ok : locks_ok free_locks /\ forall r, lock_view r free_locks = (0%nat, 0%nat).
Proof. split; intros []; by apply rw_free_law. Qed.

(** ** The order of the locks *)

(** Global locks before buckets before pages, and by number. *)
Definition resource_lt (a b : resource) : Prop :=
  match a, b with
  | Global i, Global j => i < j
  | Global _, _ => True
  | Bucket h, Bucket h' => h < h'
  | Bucket _, Page _ => True
  | Page p, Page q => p < q
  | _, _ => False
  end.

#[global] Instance resource_lt_dec a b : Decision (resource_lt a b).
Proof. destruct a, b; cbn; apply _. Defined.

Lemma resource_lt_trans a b c : resource_lt a b -> resource_lt b c -> resource_lt a c.
Proof. destruct a, b, c; cbn; lia || done. Qed.
Lemma resource_lt_irrefl a : ~ resource_lt a a.
Proof. destruct a; cbn; lia. Qed.

Lemma resource_max (l : list resource) r :
  r ∈ l -> exists m, m ∈ l /\ forall x, x ∈ l -> ~ resource_lt m x.
Proof.
  revert r. induction l as [|a l IH]; intros r Hr; [by apply not_elem_of_nil in Hr|].
  destruct l as [|b l].
  - exists a. split; [by left|]. intros x ->%list_elem_of_singleton. apply resource_lt_irrefl.
  - destruct (IH b ltac:(by left)) as (m & Hm & Hmax).
    destruct (decide (resource_lt m a)) as [Hlt|Hge].
    + exists a. split; [by left|]. intros x [->|Hx]%elem_of_cons; [apply resource_lt_irrefl|].
      intros Hax. apply (Hmax x Hx). by eapply resource_lt_trans.
    + exists m. split; [by right|]. intros x [->|Hx]%elem_of_cons; [done|by apply Hmax].
Qed.

(** ** Holds *)

Lemma remove1_perm `{EqDecision A} (x : A) l : x ∈ l -> l ≡ₚ x :: remove1 x l.
Proof.
  induction l as [|y l IH]; intros Hx; [by apply not_elem_of_nil in Hx|]. cbn.
  case_decide as E; [by subst|]. apply elem_of_cons in Hx as [->|Hx]; [done|].
  rewrite (IH Hx) at 1. constructor.
Qed.

(** How often [x] is held. *)
Definition times (x : hold) (hs : list hold) : nat := length (filter (x =.) hs).
Definition held (x : hold) (cs : list client) : nat := sum_list_with (fun c => times x (holds c)) cs.

Lemma times_cons x y hs : times x (y :: hs) = ((if decide (x = y) then 1 else 0) + times x hs)%nat.
Proof. unfold times. rewrite filter_cons. by case_decide. Qed.

Lemma times_perm x hs hs' : hs ≡ₚ hs' -> times x hs = times x hs'.
Proof. intros Hp. unfold times. by rewrite Hp. Qed.

Lemma times_elem x hs : x ∈ hs <-> (0 < times x hs)%nat.
Proof.
  unfold times. split.
  - intros Hx. destruct (filter (x =.) hs) eqn:E; cbn; [|lia].
    assert (Hin : x ∈ filter (x =.) hs) by (by apply list_elem_of_filter). rewrite E in Hin. by apply not_elem_of_nil in Hin.
  - destruct (filter (x =.) hs) as [|y l] eqn:E; cbn; [lia|]. intros _.
    assert (Hin : y ∈ filter (x =.) hs) by (rewrite E; by left). by apply list_elem_of_filter in Hin as [-> ?].
Qed.

Lemma times_remove1 x y hs : y ∈ hs -> times x hs = ((if decide (x = y) then 1 else 0) + times x (remove1 y hs))%nat.
Proof. intros Hy. by rewrite (times_perm _ _ _ (remove1_perm y hs Hy)), times_cons. Qed.

Lemma sum_list_with_insert {A} (f : A -> nat) (l : list A) i x y :
  l !! i = Some x -> (sum_list_with f (<[i := y]> l) + f x = sum_list_with f l + f y)%nat.
Proof.
  revert i. induction l as [|z l IH]; intros [|i] Hi; [done|done| |].
  - injection Hi as ->. cbn. lia.
  - change (<[S i := y]> (z :: l)) with (z :: <[i := y]> l). specialize (IH i Hi). cbn [sum_list_with]. lia.
Qed.

Lemma sum_list_with_le {A} (f : A -> nat) (l : list A) i x :
  l !! i = Some x -> (f x <= sum_list_with f l)%nat.
Proof.
  revert i. induction l as [|z l IH]; intros [|i] Hi; cbn in *; [done|done| |].
  - injection Hi as ->. lia.
  - specialize (IH i Hi). lia.
Qed.

Lemma sum_list_with_two {A} (f : A -> nat) (l : list A) i j x y :
  i <> j -> l !! i = Some x -> l !! j = Some y -> (f x + f y <= sum_list_with f l)%nat.
Proof.
  revert i j. induction l as [|z l IH]; intros [|i] [|j] Hne Hi Hj; cbn in *; try done.
  - injection Hi as ->. pose proof (sum_list_with_le f l j y Hj). lia.
  - injection Hj as ->. pose proof (sum_list_with_le f l i x Hi). lia.
  - specialize (IH i j ltac:(congruence) Hi Hj). lia.
Qed.

Lemma sum_list_with_pos {A} (f : A -> nat) (l : list A) :
  (0 < sum_list_with f l)%nat -> exists i x, l !! i = Some x /\ (0 < f x)%nat.
Proof.
  induction l as [|z l IH]; cbn; [lia|]. intros Hs. destruct (decide (f z = 0%nat)).
  - destruct IH as (i & x & ? & ?); [lia|]. by exists (S i), x.
  - exists 0%nat, z. split; [done|lia].
Qed.

(** ** Lock discipline *)

(** [dwp p Q hs]: run by a client that holds [hs], [p] blocks only for locks
    above all it holds, releases only what it holds, fails no assertion, and
    ends with [Q] whatever its trylocks return. *)
Fixpoint dwp {A} (p : prog A) (Q : A -> list hold -> Prop) (hs : list hold) : Prop :=
  match p with
  | B_Ret a => Q a hs
  | B_Bug => False
  | B_Down r rw k => Forall (fun h => resource_lt (fst h) r) hs /\ dwp k Q ((r, rw) :: hs)
  | B_Try r rw f => dwp (f true) Q ((r, rw) :: hs) /\ dwp (f false) Q hs
  | B_Up r rw k => (r, rw) ∈ hs /\ dwp k Q (remove1 (r, rw) hs)
  end.

Lemma dwp_mono {A} (p : prog A) (P Q : A -> list hold -> Prop) hs :
  dwp p P hs -> (forall a hs, P a hs -> Q a hs) -> dwp p Q hs.
Proof. intros Hp HPQ. revert hs Hp. induction p; cbn; intros hs Hp; naive_solver. Qed.

Lemma dwp_bind {A B} (p : prog A) (k : A -> prog B) Q hs :
  dwp p (fun a => dwp (k a) Q) hs -> dwp (mbind k p) Q hs.
Proof. revert hs. induction p; cbn; intros hs Hp; naive_solver. Qed.

(** A triple; what is held does not depend on the order. *)
Definition spec {A} (H : list hold) (p : prog A) (H' : A -> list hold) : Prop :=
  forall hs, hs ≡ₚ H -> dwp p (fun a hs' => hs' ≡ₚ H' a) hs.

Section Rules.
Implicit Types H : list hold.

Lemma spec_ret {A} (a : A) (H' : A -> list hold) : spec (H' a) (mret a) H'.
Proof. by intros hs Hs. Qed.

Lemma spec_bind {A B} H (p : prog A) (G : A -> list hold) (k : A -> prog B) (H' : B -> list hold) :
  spec H p G -> (forall a, spec (G a) (k a) H') -> spec H (mbind k p) H'.
Proof. intros Hp Hk hs Hs. apply dwp_bind. eapply dwp_mono; [by apply Hp|]. intros a hs' Ha. by apply Hk. Qed.

Lemma spec_equiv {A} H H0 (p : prog A) (H' : A -> list hold) : H ≡ₚ H0 -> spec H0 p H' -> spec H p H'.
Proof. intros He Hp hs Hs. apply Hp. by rewrite Hs. Qed.

Lemma spec_post {A} H (p : prog A) (H' H0 : A -> list hold) : spec H p H' -> (forall a, H' a ≡ₚ H0 a) -> spec H p H0.
Proof. intros Hp He hs Hs. eapply dwp_mono; [by apply Hp|]. intros a hs' Ha. by rewrite <- He. Qed.

Lemma spec_down H r rw :
  Forall (fun h => resource_lt (fst h) r) H -> spec H (down r rw) (fun _ => (r, rw) :: H).
Proof. intros Hr hs Hs. cbn. split; by rewrite Hs. Qed.

Lemma spec_up H r rw : spec ((r, rw) :: H) (up r rw) (fun _ => H).
Proof.
  intros hs Hs. cbn. assert (Hin : (r, rw) ∈ hs) by (rewrite Hs; by left). split; [done|].
  apply (Permutation_cons_inv (a := (r, rw))). by rewrite <- Hs, <- remove1_perm.
Qed.

Lemma spec_try H r rw :
  spec H (try_down r rw) (fun error => if bool_decide (error = 0) then (r, rw) :: H else H).
Proof. intros hs Hs. cbn. split; by rewrite Hs. Qed.

Lemma spec_bug_on b H : b = false -> spec H (b_bug_on b) (fun _ => H).
Proof. intros ->. apply (spec_ret tt (fun _ => H)). Qed.

(** Loops that take or release one lock per iteration, and loops that keep [H]. *)
Lemma spec_for_keep {X} (l : list X) body H :
  Forall (fun x => spec H (body x) (fun _ => H)) l -> spec H (b_for l body) (fun _ => H).
Proof.
  induction 1 as [|x l Hx _ IH]; cbn; [apply (spec_ret tt (fun _ => H))|].
  eapply spec_bind; [exact Hx|]. by intros [].
Qed.

Lemma spec_for_down (f : Z -> resource) rw (l : list Z) body H :
  (forall x y, x < y -> resource_lt (f x) (f y)) -> StronglySorted Z.lt l ->
  Forall (fun x => Forall (fun h => resource_lt (fst h) (f x)) H) l ->
  Forall (fun x => forall H, Forall (fun h => resource_lt (fst h) (f x)) H ->
                   spec H (body x) (fun _ => (f x, rw) :: H)) l ->
  spec H (b_for l body) (fun _ => ((fun x => (f x, rw)) <$> l) ++ H).
Proof.
  intros Hf Hl. revert H. induction Hl as [|x l Hl IH Hx]; intros H Habove Hbody; cbn.
  - apply (spec_ret tt (fun _ => H)).
  - apply Forall_cons in Habove as [Ha Habove]. apply Forall_cons in Hbody as [Hb Hbody].
    eapply spec_bind; [by apply Hb|]. intros [].
    eapply spec_post; [apply (IH ((f x, rw) :: H))|]; [|done|].
    + apply Forall_forall. intros y Hy. rewrite Forall_forall in Habove, Hx. constructor; [by apply Hf, Hx|by apply Habove].
    + intros []. by rewrite <- Permutation_middle.
Qed.

Lemma spec_for_up (f : Z -> resource) rw (l : list Z) body H :
  Forall (fun x => forall H, spec ((f x, rw) :: H) (body x) (fun _ => H)) l ->
  spec (((fun x => (f x, rw)) <$> l) ++ H) (b_for l body) (fun _ => H).
Proof.
  induction 1 as [|x l Hx _ IH]; cbn; [apply (spec_ret tt (fun _ => H))|].
  eapply spec_bind; [apply Hx|]. intros []. exact IH.
Qed.
End Rules.
(** ** The operations keep the discipline *)

Definition holding (f : Z -> resource) (rw : access) (l : list Z) : list hold := (fun x => (f x, rw)) <$> l.

Lemma spec_shared idx : spec [] (ocf_metadata_start_shared_access idx) (fun _ => holding Global OCF_METADATA_RD [idx]).
Proof. by apply spec_down. Qed.

Lemma spec_end_shared H idx :
  spec (holding Global OCF_METADATA_RD [idx] ++ H) (ocf_metadata_end_shared_access idx) (fun _ => H).
Proof. apply spec_up. Qed.

Lemma spec_exclusive :
  spec [] ocf_metadata_start_exclusive_access (fun _ => holding Global OCF_METADATA_WR global_locks).
Proof.
  eapply spec_post; [apply (spec_for_down Global OCF_METADATA_WR global_locks _ []); [done|apply seqZ_ascends|by apply Forall_true|]|].
  - apply Forall_true. intros i H Hi. by apply spec_down.
  - intros []. by rewrite app_nil_r.
Qed.

Lemma spec_end_exclusive :
  spec (holding Global OCF_METADATA_WR global_locks) ocf_metadata_end_exclusive_access (fun _ => []).
Proof.
  eapply spec_equiv; [|apply (spec_for_up Global OCF_METADATA_WR (reverse global_locks) _ [])].
  - unfold holding. by rewrite app_nil_r, fmap_reverse, reverse_Permutation.
  - apply Forall_true. intros i H. apply spec_up.
Qed.

Lemma spec_try_exclusive_loop locked got :
  spec (holding Global OCF_METADATA_WR got) (try_exclusive locked got)
    (fun error => if bool_decide (error = 0) then holding Global OCF_METADATA_WR (locked ++ got) else []).
Proof.
  revert got. induction locked as [|i locked IH]; intros got; cbn [try_exclusive].
  - by intros hs Hs.
  - eapply spec_bind; [apply spec_try|]. intros error. cbn beta. case_bool_decide as Herr.
    + rewrite bool_decide_eq_false_2 by (intros Hne; exact (Hne Herr)).
      eapply spec_post; [apply (IH (i :: got))|]. intros e. cbn beta.
      destruct (bool_decide (e = 0)); [|done].
      unfold holding. by rewrite <- Permutation_middle.
    + rewrite bool_decide_eq_true_2 by done. eapply spec_bind.
      * eapply spec_equiv; [|apply (spec_for_up Global OCF_METADATA_WR got _ [])]; [by rewrite app_nil_r|].
        apply Forall_true. intros j H. apply spec_up.
      * intros [] hs Hs. cbn. by rewrite bool_decide_eq_false_2.
Qed.

Section Buckets.
Context (entries : Z) (Hent : 0 < entries < 2 ^ 32).

Lemma in_table h : h < entries -> bool_decide (h >= entries) = false.
Proof. intros Hh. apply bool_decide_eq_false_2. lia. Qed.

Lemma line_hash_bound core core_line : line_hash entries core core_line < entries.
Proof. by apply hash_func_range. Qed.

Lemma spec_bucket_lock H h rw :
  h < entries -> Forall (fun x => resource_lt (fst x) (Bucket h)) H ->
  spec H (ocf_hb_id_naked_lock entries h rw) (fun _ => (Bucket h, rw) :: H).
Proof. intros Hh HH. eapply spec_bind; [by apply spec_bug_on, in_table|]. intros []. by apply spec_down. Qed.

Lemma spec_bucket_unlock H h rw :
  h < entries -> spec ((Bucket h, rw) :: H) (ocf_hb_id_naked_unlock entries h rw) (fun _ => H).
Proof. intros Hh. eapply spec_bind; [by apply spec_bug_on, in_table|]. intros []. apply spec_up. Qed.

Lemma spec_bucket_try H h rw :
  h < entries ->
  spec H (ocf_hb_id_naked_trylock entries h rw)
    (fun error => if bool_decide (error = 0) then (Bucket h, rw) :: H else H).
Proof. intros Hh. eapply spec_bind; [by apply spec_bug_on, in_table|]. intros []. apply spec_try. Qed.

Lemma spec_prot_lock idx h rw :
  h < entries ->
  spec [] (ocf_hb_id_prot_lock_common entries idx h rw) (fun _ => [(Bucket h, rw); (Global idx, OCF_METADATA_RD)]).
Proof. intros Hh. eapply spec_bind; [apply spec_shared|]. intros []. apply spec_bucket_lock; [done|]. by repeat constructor. Qed.

Lemma spec_prot_unlock idx h rw :
  h < entries ->
  spec [(Bucket h, rw); (Global idx, OCF_METADATA_RD)] (ocf_hb_id_prot_unlock_common entries idx h rw) (fun _ => []).
Proof. intros Hh. eapply spec_bind; [by apply spec_bucket_unlock|]. intros []. apply spec_end_shared. Qed.

(** A victim is released if and only if it was locked here. *)
Lemma spec_try_victim H locked victim : spec H (try_victim entries locked victim) (fun _ => H).
Proof.
  destruct victim as [core core_line]. unfold try_victim, _lru_trylock_hash, _lru_unlock_hash. cbn [fst snd].
  destruct (in_locked_range locked core core_line); [apply (spec_ret tt (fun _ => H))|].
  pose proof (line_hash_bound core core_line) as Hh.
  eapply (spec_bind _ _ (fun ok : bool => if ok then (Bucket (line_hash entries core core_line), OCF_METADATA_WR) :: H else H)).
  - eapply spec_bind; [by apply spec_bucket_try|]. intros error.
    by intros hs Hs.
  - intros []; [by apply spec_bucket_unlock|apply (spec_ret tt (fun _ => H))].
Qed.

(** The buckets of a shard, one at a time. *)
Lemma spec_shard idx hashes :
  Forall (fun h => h < entries) hashes ->
  spec (holding Global OCF_METADATA_RD [idx])
    (b_for hashes (fun hash => _ ← ocf_hb_id_naked_lock_rd entries hash; ocf_hb_id_naked_unlock_rd entries hash))
    (fun _ => holding Global OCF_METADATA_RD [idx]).
Proof.
  intros Hall. apply spec_for_keep. eapply Forall_impl; [exact Hall|]. intros h Hh.
  eapply spec_bind; [apply spec_bucket_lock; [done|by repeat constructor]|]. intros []. by apply spec_bucket_unlock.
Qed.
End Buckets.

Section RequestSpecs.
Context (idx : Z) (sp : hash_span) (Hok : span_ok sp).
Definition hashes : list Z := default [] (for_each_req_hash_asc sp).
Definition shared : list hold := holding Global OCF_METADATA_RD [idx].

Lemma hashes_of_span :
  for_each_req_hash_asc sp = Some hashes /\ StronglySorted Z.lt hashes /\
  Forall (fun h => h < _NUM_HASH_ENTRIES sp) hashes.
Proof.
  unfold hashes. destruct (span_iterates sp Hok) as (l & -> & Hs & Hl & _). cbn. split; [done|]. split; [done|].
  apply Forall_forall. intros h Hh%Hl. by apply in_span_bound.
Qed.

Lemma spec_lock_all rw : spec shared (each_req_hash sp (lock_hash sp rw)) (fun _ => holding Bucket rw hashes ++ shared).
Proof.
  destruct hashes_of_span as (Hl & Hs & Hb). unfold each_req_hash. rewrite Hl.
  apply (spec_for_down Bucket); [done|done|apply Forall_true; by repeat constructor|].
  eapply Forall_impl; [exact Hb|]. intros h Hh H HH. by apply spec_bucket_lock.
Qed.

Lemma spec_unlock_all rw : spec (holding Bucket rw hashes ++ shared) (each_req_hash sp (unlock_hash sp rw)) (fun _ => shared).
Proof.
  destruct hashes_of_span as (Hl & Hs & Hb). unfold each_req_hash. rewrite Hl.
  apply (spec_for_up Bucket). eapply Forall_impl; [exact Hb|]. intros h Hh H. by apply spec_bucket_unlock.
Qed.

Lemma spec_req_lock rw :
  spec [] (_ ← ocf_metadata_start_shared_access idx; each_req_hash sp (lock_hash sp rw))
    (fun _ => holding Bucket rw hashes ++ shared).
Proof. eapply spec_bind; [apply spec_shared|]. intros []. apply spec_lock_all. Qed.

Lemma spec_req_unlock rw :
  spec (holding Bucket rw hashes ++ shared)
    (_ ← each_req_hash sp (unlock_hash sp rw); ocf_metadata_end_shared_access idx) (fun _ => []).
Proof. eapply spec_bind; [apply spec_unlock_all|]. intros []. apply spec_end_shared. Qed.

(** The upgrade gives up the read locks before it takes the write locks. *)
Lemma spec_upgrade :
  spec (holding Bucket OCF_METADATA_RD hashes ++ shared) (ocf_hb_req_prot_lock_upgrade sp)
    (fun _ => holding Bucket OCF_METADATA_WR hashes ++ shared).
Proof. eapply spec_bind; [apply spec_unlock_all|]. intros []. apply spec_lock_all. Qed.
End RequestSpecs.

Definition session_ok (c : session) : Prop :=
  match c with
  | S_req_read _ sp | S_req_upgrade _ sp | S_req_write _ sp _ => span_ok sp
  | S_cline_read _ entries _ _ | S_cline_write _ entries _ _ _ _ => 0 < entries < 2 ^ 32
  | S_id_write _ entries hash => hash < entries
  | S_shard_read _ entries hashes => Forall (fun h => h < entries) hashes
  | S_exclusive | S_try_exclusive | S_shared _ | S_try_shared _ | S_page_write _ _ => True
  end.

Lemma session_disciplined c : session_ok c -> spec [] (session_prog c) (fun _ => []).
Proof.
  destruct c; cbn [session_ok session_prog]; intros Hok.
  - eapply spec_bind; [by apply spec_req_lock|]. intros []. by apply spec_req_unlock.
  - eapply spec_bind; [by apply spec_req_lock|]. intros [].
    eapply spec_bind; [by apply spec_upgrade|]. intros []. by apply spec_req_unlock.
  - eapply spec_bind; [by apply spec_req_lock|]. intros [].
    eapply spec_bind; [apply spec_for_keep, Forall_true; intros v; apply spec_try_victim, Hok|].
    intros []. by apply spec_req_unlock.
  - pose proof (line_hash_bound entries Hok core_id core_line).
    eapply spec_bind; [by apply spec_prot_lock|]. intros []. by apply spec_prot_unlock.
  - pose proof (line_hash_bound entries Hok core_id core_line).
    eapply spec_bind; [by apply spec_prot_lock|]. intros [].
    destruct collision_pages; cbn [ocf_collision_start_shared_access ocf_collision_end_shared_access].
    + eapply spec_bind; [apply spec_down; by repeat constructor|]. intros [].
      eapply spec_bind; [apply spec_up|]. intros []. by apply spec_prot_unlock.
    + by apply spec_prot_unlock.
  - eapply spec_bind; [by apply spec_prot_lock|]. intros []. by apply spec_prot_unlock.
  - eapply spec_bind; [apply spec_shared|]. intros [].
    eapply spec_bind; [by apply spec_shard|]. intros []. apply spec_end_shared.
  - eapply spec_bind; [apply spec_exclusive|]. intros []. apply spec_end_exclusive.
  - eapply spec_bind; [apply (spec_try_exclusive_loop global_locks [])|]. intros error. cbn beta. case_bool_decide.
    + rewrite app_nil_r. apply spec_end_exclusive.
    + apply (spec_ret tt (fun _ => [])).
  - eapply spec_bind; [apply spec_shared|]. intros []. apply spec_end_shared.
  - eapply spec_bind; [apply spec_try|]. intros error. cbn beta. case_bool_decide.
    + apply spec_up.
    + apply (spec_ret tt (fun _ => [])).
  - destruct collision_pages; cbn [ocf_collision_start_exclusive_access ocf_collision_end_exclusive_access].
    + eapply spec_bind; [by apply spec_down|]. intros []. apply spec_up.
    + apply (spec_ret tt (fun _ => [])).
Qed.

Lemma sessions_disciplined l : Forall session_ok l -> spec [] (b_for l session_prog) (fun _ => []).
Proof. intros Hl. apply spec_for_keep. eapply Forall_impl; [exact Hl|]. intros c. apply session_disciplined. Qed.

(** ** Interleavings *)

(** Every lock has the readers and writers that hold it, and every client
    keeps the discipline to its end. *)
Record system_ok (s : system) : Prop := {
  so_locks : locks_ok (the_locks s);
  so_view r : lock_view r (the_locks s) =
    (held (r, OCF_METADATA_RD) (clients s), held (r, OCF_METADATA_WR) (clients s));
  so_clients : Forall (fun c => dwp (todo c) (fun _ hs => hs ≡ₚ []) (holds c)) (clients s) }.

Lemma held_insert x cs i c c' :
  cs !! i = Some c -> (held x (<[i := c']> cs) + times x (holds c) = held x cs + times x (holds c'))%nat.
Proof. intros Hi. unfold held. exact (sum_list_with_insert _ cs i c c' Hi). Qed.

Lemma held_le x cs i c : cs !! i = Some c -> (times x (holds c) <= held x cs)%nat.
Proof. intros Hi. exact (sum_list_with_le (fun c => times x (holds c)) cs i c Hi). Qed.

(** [(readers, writers)] of [r] among the holds. *)
Definition counts (f : hold -> nat) (r : resource) : nat * nat := (f (r, OCF_METADATA_RD), f (r, OCF_METADATA_WR)).
Definition bump (rw : access) (v : nat * nat) : nat * nat :=
  match rw with OCF_METADATA_RD => (S (fst v), snd v) | OCF_METADATA_WR => (fst v, S (snd v)) end.

(** A client takes a lock ([s] to [s'], [c] to [c']) or gives it back ([s'] to
    [s], [c'] to [c]): only the count of that lock changes. *)
Lemma counts_bump cs i c c' r rw hs :
  cs !! i = Some c -> (forall x, times x (holds c') = times x ((r, rw) :: hs)) -> (forall x, times x (holds c) = times x hs) ->
  counts (fun x => held x (<[i := c']> cs)) r = bump rw (counts (fun x => held x cs) r) /\
  forall r', r' <> r -> counts (fun x => held x (<[i := c']> cs)) r' = counts (fun x => held x cs) r'.
Proof.
  intros Hi Hc' Hc.
  assert (H : forall x, held x (<[i := c']> cs) = ((if decide (x = (r, rw)) then 1 else 0) + held x cs)%nat).
  { intros x. pose proof (held_insert x cs i c c' Hi) as Hx. rewrite Hc', Hc, times_cons in Hx. lia. }
  split; [|intros r' Hne]; unfold counts; rewrite !H; [destruct rw|]; repeat case_decide; try congruence; done.
Qed.

Lemma acquire_counts r rw s s' cs i c c' :
  system_ok (System s cs) -> cs !! i = Some c -> acquire r rw s = Some s' ->
  (forall x, times x (holds c') = times x ((r, rw) :: holds c)) ->
  locks_ok s' /\ forall r', lock_view r' s' = counts (fun x => held x (<[i := c']> cs)) r'.
Proof.
  intros [Hok Hview _] Hi Ha Hc'. apply acquire_inv in Ha as (Hok' & Ho & Hv); [|done]. split; [done|].
  destruct (counts_bump cs i c c' r rw (holds c) Hi Hc' ltac:(done)) as (Hr & Hother). intros r'.
  destruct (decide (r' = r)) as [->|Hne].
  - rewrite Hr. unfold counts. specialize (Hview r). cbn [the_locks clients] in Hview. rewrite Hview in Hv.
    destruct rw; [destruct Hv as (n & Hn & ->)|destruct Hv as (Hn & ->)]; injection Hn as Hn1 Hn2;
      cbn [bump fst snd]; f_equal; lia.
  - destruct (Ho r' Hne) as [-> _]. by rewrite Hother, Hview by done.
Qed.

Lemma release_counts r rw s cs i c c' :
  system_ok (System s cs) -> cs !! i = Some c -> (forall x, times x (holds c) = times x ((r, rw) :: holds c')) ->
  locks_ok (release r rw s) /\
  forall r', lock_view r' (release r rw s) = counts (fun x => held x (<[i := c']> cs)) r'.
Proof.
  intros [Hok Hview _] Hi Hc. cbn [the_locks clients] in *.
  assert (Hi' : <[i := c']> cs !! i = Some c') by (apply list_lookup_insert_eq; by eapply lookup_lt_Some).
  destruct (counts_bump (<[i := c']> cs) i c' c r rw (holds c') Hi' Hc ltac:(done)) as (Hr & Hother).
  rewrite list_insert_insert_eq, (list_insert_id cs i c) in Hr, Hother by done.
  assert (Hw : snd (lock_view r s) = 0%nat \/ lock_view r s = (0%nat, 1%nat))
    by (specialize (Hok r); destruct r; by apply rw_writers_law).
  change (forall r, lock_view r s = counts (fun x => held x cs) r) in Hview.
  rewrite Hview, Hr in Hw. destruct (counts (fun x => held x (<[i := c']> cs)) r) as [nr nw] eqn:Ec.
  assert (Hcase : match rw with OCF_METADATA_RD => nw = 0%nat | OCF_METADATA_WR => nr = 0%nat /\ nw = 0%nat end)
    by (destruct rw, Hw as [Hw|Hw]; cbn in Hw; try injection Hw as ? ?; lia).
  destruct (release_inv r rw s nr Hok) as (Hok' & Ho & Hv).
  { rewrite Hview, Hr. destruct rw; cbn; [by subst|by destruct Hcase as [-> ->]]. }
  split; [done|]. intros r'. destruct (decide (r' = r)) as [->|Hne].
  - rewrite Hv, Ec. destruct rw; [by subst|by destruct Hcase as [-> ->]].
  - destruct (Ho r' Hne) as [-> _]. by rewrite Hview, <- Hother by done.
Qed.

(** A lock that is taken or released changes its own count only. *)
Lemma client_step_view s cs i c c' s' :
  system_ok (System s cs) -> cs !! i = Some c -> client_step s c c' s' ->
  (locks_ok s' /\ forall r, lock_view r s' = counts (fun x => held x (<[i := c']> cs)) r) /\
  dwp (todo c') (fun _ hs => hs ≡ₚ []) (holds c').
Proof.
  intros Hs Hi Hstep.
  assert (Hc : dwp (todo c) (fun _ hs => hs ≡ₚ []) (holds c)).
  { pose proof (so_clients _ Hs) as Hcs. cbn in Hcs. rewrite Forall_forall in Hcs. eapply Hcs, list_elem_of_lookup_2, Hi. }
  destruct Hstep as [r rw k hs s' Ha|r rw k hs s' Ha|r rw k hs|r rw k hs]; cbn in Hc.
  - split; [by eapply acquire_counts|by destruct Hc].
  - split; [by eapply acquire_counts|by destruct Hc].
  - split; [|by destruct Hc]. split; [apply Hs|]. intros r'. rewrite (so_view _ Hs r' : lock_view r' s = _). unfold counts.
    pose proof (fun x => held_insert x cs i _ (Client (k false) hs) Hi) as Hx. cbn [holds clients] in *.
    f_equal; [specialize (Hx (r', OCF_METADATA_RD))|specialize (Hx (r', OCF_METADATA_WR))]; lia.
  - destruct Hc as [Hin Hc]. split; [|done]. eapply release_counts; [done..|]. intros x. cbn [holds].
    by rewrite (times_remove1 _ _ _ Hin), times_cons.
Qed.

Lemma step_ok s s' : system_ok s -> step s s' -> system_ok s'.
Proof.
  intros Hs Hstep. destruct Hstep as [t cs i c c' t' Hi Hstep].
  destruct (client_step_view _ _ _ _ _ _ Hs Hi Hstep) as ((Hl & Hv) & Hc).
  constructor; cbn; [done..|]. apply Forall_insert; [apply Hs|done].
Qed.

Lemma step_actions s s' : step s s' -> (actions_left s' < actions_left s)%nat.
Proof.
  intros [t cs i c c' t' Hi Hstep]. unfold actions_left. cbn.
  pose proof (sum_list_with_insert (fun c => actions (todo c)) cs i c c' Hi) as Hsum.
  assert (actions (todo c') < actions (todo c))%nat by (destruct Hstep; cbn; lia). cbn in Hsum. lia.
Qed.

(** The lock that a client asks for with a blocking call. *)
Definition wanted (c : client) : list resource := match todo c with B_Down r _ _ => [r] | _ => [] end.
Definition never_blocks (c : client) : bool := match todo c with B_Try _ _ _ | B_Up _ _ _ => true | _ => false end.

Lemma never_blocks_step c s : never_blocks c = true -> exists c' s', client_step s c c' s'.
Proof. destruct c as [[] hs]; try done; intros _; eexists _, _; [apply step_try_fail|apply step_up]. Qed.

(** A client that keeps the discipline is at its end, does not block, or asks
    for a lock above all it holds. *)
Lemma client_cases c :
  dwp (todo c) (fun _ hs => hs ≡ₚ []) (holds c) -> never_blocks c = false ->
  (todo c = B_Ret tt /\ holds c = []) \/
  exists r rw k, todo c = B_Down r rw k /\ Forall (fun h => resource_lt (fst h) r) (holds c).
Proof.
  destruct c as [p hs]. destruct p as [[]| |r rw k|r rw f|r rw k]; cbn; intros Hc Hn; try done.
  - left. by apply Permutation_nil_r in Hc as ->.
  - right. destruct Hc. eauto.
Qed.

Lemma wanted_elem r cs : r ∈ mjoin (wanted <$> cs) <-> exists c rw k, c ∈ cs /\ todo c = B_Down r rw k.
Proof.
  rewrite list_elem_of_join. split.
  - intros (l & Hr & (c & -> & Hc)%list_elem_of_fmap). unfold wanted in Hr.
    destruct (todo c) as [| |r' rw k| |] eqn:E; try by apply not_elem_of_nil in Hr.
    apply list_elem_of_singleton in Hr as ->. eauto.
  - intros (c & rw & k & Hc & E). exists (wanted c). split; [unfold wanted; rewrite E; by left|].
    by apply list_elem_of_fmap_2.
Qed.

(** A lock that is not granted has a holder. *)
Lemma blocked_holder l cs r rw :
  system_ok (System l cs) -> acquire r rw l = None -> exists c rw', c ∈ cs /\ (r, rw') ∈ holds c.
Proof.
  intros Hs Ha. assert (Hv : lock_view r l <> (0%nat, 0%nat)).
  { intros Hv. destruct (acquire_free r rw l (so_locks _ Hs) Hv) as [? E]. by rewrite Ha in E. }
  pose proof (so_view _ Hs r) as Hc. cbn [the_locks clients] in Hc. rewrite Hc in Hv.
  assert (Hpos : exists rw', (0 < held (r, rw') cs)%nat).
  { destruct (decide (held (r, OCF_METADATA_RD) cs = 0%nat)) as [E|E]; [|exists OCF_METADATA_RD; lia].
    exists OCF_METADATA_WR. rewrite E in Hv. destruct (held (r, OCF_METADATA_WR) cs); [done|lia]. }
  destruct Hpos as (rw' & (j & c & Hj & Ht)%sum_list_with_pos). exists c, rw'. split; [by eapply list_elem_of_lookup_2|].
  by apply times_elem.
Qed.

(** Among clients that all want a lock, one that wants a greatest one gets it. *)
Lemma system_moves s : system_ok s -> finished s \/ exists s', step s s'.
Proof.
  destruct s as [l cs]. intros Hs. pose proof (so_clients _ Hs) as Hcs. cbn [clients] in Hcs.
  assert (Hmove : forall c c' s', c ∈ cs -> client_step l c c' s' -> exists s', step (System l cs) s').
  { intros c c' s' [i Hi]%list_elem_of_lookup_1 Hc. eexists. by eapply client_steps. }
  destruct (decide (Exists (fun c => never_blocks c = true) cs)) as [(c & Hc & Hn)%Exists_exists|Hnone].
  { right. destruct (never_blocks_step c l Hn) as (c' & s' & ?). by eapply Hmove. }
  apply not_Exists_Forall in Hnone; [|apply _].
  assert (Hcase : forall c, c ∈ cs -> (todo c = B_Ret tt /\ holds c = []) \/
    exists r rw k, todo c = B_Down r rw k /\ Forall (fun h => resource_lt (fst h) r) (holds c)).
  { intros c Hc. rewrite Forall_forall in Hcs, Hnone. apply client_cases; [by apply Hcs|].
    apply not_true_iff_false. by apply Hnone. }
  destruct (mjoin (wanted <$> cs)) as [|r0 rs] eqn:Ewant.
  - left. apply Forall_forall. intros c Hc. destruct (Hcase c Hc) as [?|(r & rw & k & E & _)]; [done|].
    assert (Hin : r ∈ mjoin (wanted <$> cs)) by (apply wanted_elem; eauto). rewrite Ewant in Hin. by apply not_elem_of_nil in Hin.
  - right. destruct (resource_max (mjoin (wanted <$> cs)) r0) as (m & (c & rw & k & Hc & E)%wanted_elem & Hmax).
    { rewrite Ewant. by left. }
    destruct (acquire m rw l) as [l'|] eqn:Ea.
    + destruct c as [p hs]. cbn in E. subst p. eapply Hmove; [done|]. by apply step_down.
    + destruct (blocked_holder l cs m rw Hs Ea) as (c2 & rw' & Hc2 & Hin).
      destruct (Hcase c2 Hc2) as [[_ Hnil]|(r & rw2 & k2 & E2 & Habove)].
      * rewrite Hnil in Hin. by apply not_elem_of_nil in Hin.
      * rewrite Forall_forall in Habove. specialize (Habove _ Hin). cbn in Habove.
        destruct (Hmax r); [|done]. apply wanted_elem. eauto.
Qed.

(** A write-locked lock has no other holder. *)
Lemma system_excludes s i j ci cj r rw :
  system_ok s -> i <> j -> clients s !! i = Some ci -> clients s !! j = Some cj ->
  (r, OCF_METADATA_WR) ∈ holds ci -> (r, rw) ∉ holds cj.
Proof.
  intros Hs Hne Hi Hj Hwi%times_elem Hin%times_elem.
  assert (Hw : snd (lock_view r (the_locks s)) = 0%nat \/ lock_view r (the_locks s) = (0%nat, 1%nat))
    by (pose proof (so_locks _ Hs r); destruct r; by apply rw_writers_law).
  rewrite (so_view _ Hs r) in Hw. cbn [snd] in Hw.
  pose proof (sum_list_with_le (fun c => times (r, OCF_METADATA_WR) (holds c)) _ _ _ Hi) as H1. cbn in H1.
  fold (held (r, OCF_METADATA_WR) (clients s)) in H1.
  destruct Hw as [Hw|[= Hr Hw]]; [lia|]. destruct rw.
  - pose proof (held_le (r, OCF_METADATA_RD) _ _ _ Hj). lia.
  - pose proof (sum_list_with_two (fun c => times (r, OCF_METADATA_WR) (holds c)) _ i j _ _ Hne Hi Hj) as H2. cbn in H2.
    fold (held (r, OCF_METADATA_WR) (clients s)) in H2. lia.
Qed.

Lemma start_ok work : Forall (Forall session_ok) work -> system_ok (start work).
Proof.
  intros Hw. destruct free_locks_ok as (Hok & Hv). unfold start. constructor; cbn [the_locks clients]; [done|..].
  - assert (Hheld : forall x, held x ((fun l => Client (b_for l session_prog) []) <$> work) = 0%nat)
      by (intros x; clear; induction work as [|l work IH]; cbn; done).
    intros r. by rewrite Hv, !Hheld.
  - apply Forall_fmap. eapply Forall_impl; [exact Hw|]. intros l Hl. cbn. by apply sessions_disciplined.
Qed.

Lemma nsteps_ok work n s :
  Forall (Forall session_ok) work -> nsteps step n (start work) s ->
  system_ok s /\ (n + actions_left s <= actions_left (start work))%nat.
Proof.
  intros Hw Hn. pose proof (start_ok work Hw) as Hs. revert Hs. remember (start work) as s0 eqn:E. clear E.
  induction Hn as [s0|n s0 s1 s2 H01 _ IH]; intros Hs; [by split; [|lia]|].
  pose proof (step_actions _ _ H01). destruct IH as [? ?]; [by eapply step_ok|]. split; [done|lia].
Qed.

Lemma finished_free s : system_ok s -> finished s -> forall r, lock_view r (the_locks s) = (0%nat, 0%nat).
Proof.
  intros Hs Hf r. rewrite (so_view _ Hs r).
  assert (H : forall x, held x (clients s) = 0%nat); [|by rewrite !H].
  intros x. unfold finished in Hf. induction Hf as [|c cs [_ Hc] _ IH]; [done|].
  unfold held in *. cbn. by rewrite Hc, IH.
Qed.

(** C33. The locks of the metadata ([ocf_metadata_concurrency.c]): clients that
    lock and unlock requests (for reading, for writing with eviction of other
    lines, or upgrading), single lines, buckets and pages and the whole
    metadata, in any number and order and under every interleaving of their
    lock actions, never deadlock: as long as a client is not at its end some
    client can act, no client acts more often than its programs have actions,
    and at the end all locks are free.  Nobody else holds a lock that is held
    for writing, and no assertion fails. *)
Theorem hash_locks_progress work n s :
  Forall (Forall session_ok) work -> nsteps step n (start work) s ->
  (n + actions_left s <= actions_left (start work))%nat /\
  (forall i j ci cj r rw, i <> j -> clients s !! i = Some ci -> clients s !! j = Some cj ->
     (r, OCF_METADATA_WR) ∈ holds ci -> (r, rw) ∉ holds cj) /\
  ((finished s /\ forall r, lock_view r (the_locks s) = (0%nat, 0%nat)) \/ exists s', step s s').
Proof.
  intros Hw Hn. destruct (nsteps_ok work n s Hw Hn) as [Hs Hlen]. split; [done|]. split.
  - intros i j ci cj r rw. by apply system_excludes.
  - destruct (system_moves s Hs) as [Hf|Hstep]; [left|by right]. split; [done|]. by apply finished_free.
Qed.

(** ** Witnesses *)

(** Core lines 3 to 5 in a table of 5 buckets. *)
Definition wrapping_request : ocf_request :=
  ocf_req_new size_4 0 0 12288 12288 [zero_entry; zero_entry; zero_entry].

Lemma req_hash_ascends_witness :
  exists sp, req_span 5 (ocf_req_hash 5 wrapping_request) = Some sp /\
    for_each_req_hash_asc sp = Some [0; 3; 4].
Proof.
  destruct (req_hash_ascends 5 wrapping_request) as (_ & _ & sp & Hsp & Hit & _); [by vm_compute..|].
  exists sp. split; [exact Hsp|]. rewrite Hit. vm_compute. reflexivity.
Defined.

Definition sample_work : list (list session) :=
  [[S_req_write 0 (HashSpan 3 0 3 5) [(0, 7)]; S_exclusive]; [S_req_upgrade 1 (HashSpan 4 0 2 5)]].

Lemma sample_work_ok : Forall (Forall session_ok) sample_work.
Proof. repeat constructor; cbn; try lia; reflexivity. Qed.

Lemma sample_step : exists s, nsteps step 1 (start sample_work) s.
Proof.
  eexists. eapply nsteps_once, client_steps with (i := 1%nat); [reflexivity|].
  apply (step_down free_locks (Global 1) OCF_METADATA_RD). reflexivity.
Qed.

Lemma hash_locks_progress_witness :
  exists s, nsteps step 1 (start sample_work) s /\
    ((finished s /\ forall r, lock_view r (the_locks s) = (0%nat, 0%nat)) \/ exists s', step s s').
Proof.
  destruct sample_step as [s Hs]. exists s. split; [exact Hs|].
  exact (proj2 (proj2 (hash_locks_progress sample_work 1 s sample_work_ok Hs))).
Defined.

End HashLockProofs.
