(* ===== verification/EngineIo.v ===== *)
(** * I/O of a request on the cache volume: [engine/engine_io.c], [engine_bf.c]

    The engines read and write the bytes of a request on the cache volume
    where the cache lines of its map are.  Lines that follow each other on the
    volume are joined to one I/O.  This file has the functions that split a
    request into I/Os; an I/O is the triple of volume address, length and
    offset in the buffer that is passed to [ocf_req_forward_cache_io]. *)

From S2P Require Import Prelude Collision Status Request Engine.

Module EngineIo.

Record io := Io { io_addr : Z; io_bytes : Z; io_offset : Z }.
#[global] Instance io_eq_dec : EqDecision io.
Proof. solve_decision. Defined.

Section EngineIo.
Context (line_size : cache_line_size).
(** [cache->device->metadata_offset] and [req->offset]. *)
Context (metadata_offset data_offset : Z).
Abbreviation ocf_line_size := (line_bytes line_size).

(** [addr = coll_idx; addr *= line_size; addr += metadata_offset]. *)
Definition cline_addr (e : map_entry) : Z := u64 (u64 (me_coll_idx e * ocf_line_size) + metadata_offset).

Definition ocf_engine_forward_cache_io (r : ocf_request) (offset size : Z) : option io :=
  let seek := addr r mod ocf_line_size in
  let first_cl := u32 (ocf_bytes_2_lines line_size (u64 (offset + seek))) in
  e ← req_map r !! Z.to_nat first_cl;
  Some (Io (u64 (u64 (metadata_offset + u64 (me_coll_idx e * ocf_line_size)) + u64 (offset + seek) mod ocf_line_size))
           size (u64 (data_offset + offset))).

(** The branch for requests on consecutive lines. *)
Definition sequential_io (r : ocf_request) : option io :=
  e ← req_map r !! 0%nat;
  Some (Io (u64 (u64 (metadata_offset + u64 (me_coll_idx e * ocf_line_size)) + addr r mod ocf_line_size))
           (bytes r) data_offset).

(** The inner loop: [bytes] grows while the next entry's line follows on the
    volume.  [rest] has the entries behind the current one; the result is
    [bytes], [addr_next] and the entries that are left ([addr_next] is not
    used when none is). *)
Fixpoint extend (addr bytes : Z) (rest : list map_entry) : Z * Z * list map_entry :=
  match rest with
  | [] => (bytes, 0, [])
  | e :: rest' =>
      let addr_next := cline_addr e in
      if negb (bool_decide (addr_next = u64 (addr + bytes))) then (bytes, addr_next, rest)
      else extend addr (u64 (bytes + ocf_line_size)) rest'
  end.

(** Address and length of the I/O that starts at an entry: [first] is [i == 0]. *)
Definition io_start (r : ocf_request) (first : bool) (addr_next : Z) (e : map_entry) : Z * Z :=
  let addr := if bool_decide (addr_next <> 0) then addr_next else cline_addr e in
  if first then
    let seek := Request.addr r mod ocf_line_size in
    (u64 (addr + seek), u64 (ocf_line_size - seek))
  else (addr, ocf_line_size).

(** The loop over the map; [es] are the entries from [i] on.  [None]: the
    assertion on [bytes] failed. *)
Fixpoint cache_ios (fuel : nat) (r : ocf_request) (first : bool) (addr_next total_bytes : Z)
    (es : list map_entry) : option (list io * Z) :=
  match es, fuel with
  | [], _ => Some ([], total_bytes)
  | _, O => None
  | e :: rest, S fuel =>
      let '(addr, bytes) := io_start r first addr_next e in
      let '(bytes, addr_next, rest) := extend addr bytes rest in
      let skip := u64 (ocf_line_size - u64 (Request.addr r + Request.bytes r) mod ocf_line_size) mod ocf_line_size in
      let bytes := if bool_decide (rest = []) then u64 (bytes - skip) else bytes in
      let bytes := Z.min bytes (u64 (Request.bytes r - total_bytes)) in
      if bool_decide (bytes = 0) then None
      else
        done ← cache_ios fuel r false addr_next (u64 (total_bytes + bytes)) rest;
        Some (Io addr bytes (u64 (data_offset + total_bytes)) :: fst done, snd done)
  end.

Definition ocf_engine_forward_cache_io_req (r : ocf_request) : option (list io) :=
  if ocf_engine_is_sequential r then i ← sequential_io r; Some [i]
  else
    done ← cache_ios (length (req_map r)) r true 0 0 (req_map r);
    if bool_decide (snd done <> bytes r) then None else Some (fst done).

(** The loop of [_ocf_backfill_do]: lines that were hit are not written, unless
    they follow one that is. *)
Fixpoint backfill_ios (fuel : nat) (r : ocf_request) (first : bool) (addr_next total_bytes : Z)
    (es : list map_entry) : option (list io) :=
  match es, fuel with
  | [], _ => Some []
  | _, O => None
  | e :: rest, S fuel =>
      let '(addr, bytes) := io_start r first addr_next e in
      if bool_decide (me_status e = LOOKUP_HIT)
      then backfill_ios fuel r false 0 (u64 (total_bytes + bytes)) rest
      else
        let '(bytes, addr_next, rest) := extend addr bytes rest in
        let skip := u64 (ocf_line_size - u64 (Request.addr r + Request.bytes r) mod ocf_line_size) mod ocf_line_size in
        let bytes := if bool_decide (rest = []) then u64 (bytes - skip) else bytes in
        let bytes := Z.min bytes (u64 (Request.bytes r - total_bytes)) in
        done ← backfill_ios fuel r false addr_next (u64 (total_bytes + bytes)) rest;
        Some (Io addr bytes (u64 (data_offset + total_bytes)) :: done)
  end.

Definition backfill_io (r : ocf_request) : option (list io) :=
  if ocf_engine_is_sequential r then i ← sequential_io r; Some [i]
  else backfill_ios (length (req_map r)) r true 0 0 (req_map r).

(** [ocf_engine_forward_core_io_req]: the core volume has the request's range. *)
Definition core_io (r : ocf_request) : io := Io (addr r) (bytes r) data_offset.
End EngineIo.

(** ** What an I/O does

    [dev] is the content of a volume, [buf] that of the data buffer. *)
Section Effect.
Context {V : Type}.

Definition write_io (buf : Z -> V) (dev : Z -> V) (i : io) : Z -> V := fun a =>
  if bool_decide (io_addr i <= a < io_addr i + io_bytes i) then buf (io_offset i + (a - io_addr i)) else dev a.
Definition write_ios (buf dev : Z -> V) (ios : list io) : Z -> V := foldl (write_io buf) dev ios.

Definition read_io (dev : Z -> V) (buf : Z -> V) (i : io) : Z -> V := fun o =>
  if bool_decide (io_offset i <= o < io_offset i + io_bytes i) then dev (io_addr i + (o - io_offset i)) else buf o.
Definition read_ios (dev buf : Z -> V) (ios : list io) : Z -> V := foldl (read_io dev) buf ios.
End Effect.

End EngineIo.
