(* ===== verification/EngineIoProofs.v ===== *)
(** * I/O of a request on the cache volume: where every byte goes

    Byte [k] of a request belongs at [req_target k] on the cache volume: in the
    cache line of its entry, at its offset in the core line.  The I/Os that a
    request is split into cover the bytes in order, each once, and each at its
    target; the backfill covers at least the bytes of the entries that were not
    hit. *)

From S2P Require Import Prelude Collision Status Request RequestProofs Engine EngineIo.
Import EngineIo.

Module EngineIoProofs.

Section Split.
Context (line_size : cache_line_size) (metadata_offset data_offset : Z) (num_entries : Z).
Context (r : ocf_request).
Abbreviation L := (line_bytes line_size).
Abbreviation B := (bytes r).
Abbreviation seek := (addr r mod L).
Abbreviation count := (length (req_map r)).
Abbreviation cline_addr := (cline_addr line_size metadata_offset).

(** The byte of the cache volume for byte [k] of the request. *)
Definition req_target (k : Z) : Z :=
  cline_addr (default zero_entry (req_map r !! Z.to_nat ((seek + k) / L))) + (seek + k) mod L.

(** The bytes from [a] on, [n] of them, with their places on the volume and in
    the buffer. *)
Definition pairs (a n : Z) : list (Z * Z) := (fun k => (req_target k, data_offset + k)) <$> seqZ a n.
Definition io_map (i : io) : list (Z * Z) :=
  (fun t => (io_addr i + t, io_offset i + t)) <$> seqZ 0 (io_bytes i).

(** A request with one entry per core line, on lines of the volume. *)
Record splittable : Prop := {
  sp_range : good_range (addr r) B;
  sp_count : Z.of_nat count = (addr r + B - 1) / L - addr r / L + 1;
  sp_lines : Forall (fun e => 0 <= me_coll_idx e < num_entries) (req_map r);
  sp_volume : 0 <= metadata_offset /\ metadata_offset + (num_entries + 1) * L < 2 ^ 64;
  sp_data : 0 <= data_offset /\ data_offset + B < 2 ^ 64 }.
Context (Hsp : splittable).

Lemma line_bytes_bounds : 4096 <= L <= 65536.
Proof. by destruct line_size. Qed.

Lemma seek_bounds : 0 <= seek < L.
Proof. apply Z.mod_pos_bound. pose proof line_bytes_bounds. lia. Qed.

(** The last line ends [skip] bytes behind the request. *)
Lemma count_span : seek + B <= Z.of_nat count * L < seek + B + L /\ (1 <= count)%nat /\ Z.of_nat count * L < 2 ^ 33.
Proof.
  pose proof line_bytes_bounds as HL. destruct (sp_range Hsp) as (Ha & Hb & Hab).
  pose proof (sp_count Hsp) as Hc.
  assert (E : (addr r + B - 1) / L = addr r / L + (seek + B - 1) / L).
  { rewrite (Z.div_mod (addr r) L) at 1 by lia.
    replace (L * (addr r / L) + seek + B - 1) with (seek + B - 1 + addr r / L * L) by lia.
    rewrite Z.div_add by lia. lia. }
  pose proof (Z.div_mod (seek + B - 1) L ltac:(lia)) as Hdm.
  pose proof (Z.mod_pos_bound (seek + B - 1) L ltac:(lia)) as Hm. pose proof seek_bounds.
  assert (H0 : 0 <= (seek + B - 1) / L) by (apply Z.div_pos; lia).
  rewrite E in Hc. nia.
Qed.

Lemma skip_value :
  u64 (L - u64 (addr r + B) mod L) mod L = Z.of_nat count * L - (seek + B).
Proof.
  pose proof line_bytes_bounds as HL. destruct (sp_range Hsp) as (Ha & Hb & Hab). destruct count_span as [Hc _].
  rewrite (wrap_small 64 (addr r + B)) by lia.
  pose proof (Z.mod_pos_bound (addr r + B) L ltac:(lia)) as Hm. rewrite wrap_small by lia.
  assert (Em : (addr r + B) mod L = (seek + B) mod L) by (symmetry; apply Zplus_mod_idemp_l).
  rewrite Em in *. destruct (decide (seek + B = Z.of_nat count * L)) as [E|E].
  - rewrite E, Z_mod_mult, Z.sub_0_r, Z_mod_same_full. lia.
  - assert (Er : (seek + B) mod L = seek + B - (Z.of_nat count - 1) * L).
    { symmetry. apply (Z.mod_unique _ _ (Z.of_nat count - 1)); lia. }
    rewrite Er, Z.mod_small by lia. lia.
Qed.

(** How many bytes the entries before [i] have. *)
Definition pos (i : nat) : Z :=
  if decide (i = 0%nat) then 0 else Z.min B (Z.of_nat i * L - seek).

Lemma pos_inner i : (0 < i < count)%nat -> pos i = Z.of_nat i * L - seek /\ 0 < pos i < B.
Proof.
  intros Hi. pose proof line_bytes_bounds. pose proof seek_bounds. destruct count_span as (Hc & _).
  unfold pos. rewrite decide_False by lia. nia.
Qed.
Lemma pos_all : pos count = B.
Proof.
  pose proof line_bytes_bounds. destruct count_span as (Hc & Hn & _). unfold pos. rewrite decide_False by lia. lia.
Qed.

Lemma cline_addr_value e :
  0 <= me_coll_idx e < num_entries -> cline_addr e = metadata_offset + me_coll_idx e * L /\
  0 <= cline_addr e <= metadata_offset + (num_entries - 1) * L.
Proof.
  intros He. pose proof line_bytes_bounds. destruct (sp_volume Hsp).
  assert (0 <= me_coll_idx e * L <= (num_entries - 1) * L) by nia.
  unfold EngineIo.cline_addr. rewrite (wrap_small 64 (_ * _)), wrap_small by lia. lia.
Qed.

Lemma entry_addr i e : req_map r !! i = Some e ->
  0 <= cline_addr e <= metadata_offset + (num_entries - 1) * L.
Proof. intros He. apply cline_addr_value. by apply (Forall_lookup_1 _ _ _ _ (sp_lines Hsp) He). Qed.

(** The run of entries whose lines follow each other. *)
Lemma extend_spec rest addr bytes i :
  rest = drop i (req_map r) -> 0 <= addr -> 0 <= bytes ->
  addr + bytes <= metadata_offset + num_entries * L -> bytes + Z.of_nat (length rest) * L < 2 ^ 64 ->
  exists n addr_next,
    extend line_size metadata_offset addr bytes rest = (bytes + Z.of_nat n * L, addr_next, drop (i + n) (req_map r)) /\
    (forall j e, (j < n)%nat -> req_map r !! (i + j)%nat = Some e -> cline_addr e = addr + bytes + Z.of_nat j * L) /\
    (i + n <= Nat.max i count)%nat /\
    forall e, req_map r !! (i + n)%nat = Some e -> addr_next = cline_addr e.
Proof.
  intros Hrest Ha. revert bytes i Hrest. pose proof line_bytes_bounds as HL.
  induction rest as [|e rest IH]; intros bytes i Hrest Hb Hend Hsum; cbn [extend].
  - exists 0%nat, 0. rewrite Nat.add_0_r, Z.add_0_r, <- Hrest. split_and!; [done|lia|lia|].
    intros e He. symmetry in Hrest. apply (f_equal length) in Hrest. rewrite length_drop in Hrest. cbn in Hrest.
    apply lookup_lt_Some in He. lia.
  - assert (Hi : req_map r !! i = Some e) by (by rewrite <- (Nat.add_0_r i), <- lookup_drop, <- Hrest).
    pose proof (lookup_lt_Some _ _ _ Hi) as Hlt. pose proof (entry_addr i e Hi). pose proof (sp_volume Hsp) as [Hm0 Hm].
    rewrite (wrap_small 64 (addr + bytes)) by nia. case_bool_decide as Heq; cbn [negb].
    + cbn [length] in Hsum. rewrite (wrap_small 64) by nia.
      destruct (IH (bytes + L) (S i)) as (n & an & -> & Hrun & Hn & Hnext); [|lia|nia|nia|].
      { rewrite (drop_S _ _ _ Hi) in Hrest. by injection Hrest. }
      exists (S n), an. split_and!.
      * rewrite Nat.add_succ_r. do 2 f_equal. lia.
      * intros [|j] e' Hj He'; [rewrite Nat.add_0_r in He'; assert (e' = e) as -> by congruence; lia|].
        rewrite Nat.add_succ_r in He'. rewrite (Hrun j e') by (lia || done). lia.
      * lia.
      * intros e' He'. apply Hnext. by rewrite Nat.add_succ_r in He'.
    + exists 0%nat, (cline_addr e). rewrite Nat.add_0_r, Z.add_0_r, Hrest. split_and!; [done|lia|lia|]. congruence.
Qed.

(** Bytes in lines that follow each other are in one piece on the volume. *)
Lemma run_pairs i e n s p len :
  req_map r !! i = Some e -> 0 <= s < L -> p + seek = Z.of_nat i * L + s -> s + len <= Z.of_nat (S n) * L ->
  (forall j e', (j < n)%nat -> req_map r !! (S i + j)%nat = Some e' -> cline_addr e' = cline_addr e + L + Z.of_nat j * L) ->
  (i + S n <= count)%nat ->
  io_map (Io (cline_addr e + s) len (data_offset + p)) = pairs p len.
Proof.
  intros Hi Hs Hp Hlen Hrun Hn. pose proof line_bytes_bounds as HL.
  unfold io_map, pairs. cbn [io_addr io_bytes io_offset].
  replace (seqZ p len) with (Z.add p <$> seqZ 0 len) by (rewrite fmap_add_seqZ; f_equal; lia).
  rewrite <- list_fmap_compose. apply list_fmap_ext. intros k t Ht. apply lookup_seqZ in Ht as [-> Ht].
  rewrite Z.add_0_l. cbn. f_equal; [|lia]. set (t := Z.of_nat k) in *.
  unfold req_target. replace (seek + (p + t)) with (s + t + Z.of_nat i * L) by lia.
  rewrite Z.div_add, Z_mod_plus_full by lia.
  pose proof (Z.div_mod (s + t) L ltac:(lia)) as Hdm. pose proof (Z.mod_pos_bound (s + t) L ltac:(lia)).
  assert (Hq : 0 <= (s + t) / L <= Z.of_nat n) by (split; [apply Z.div_pos; lia|]; apply Z.lt_succ_r, Z.div_lt_upper_bound; nia).
  set (q := (s + t) / L) in *. set (w := (s + t) mod L) in *.
  destruct (decide (q = 0)) as [Eq|Eq].
  - rewrite Eq, Z.add_0_l, Nat2Z.id, Hi. cbn [default from_option id]. nia.
  - replace (Z.to_nat (q + Z.of_nat i)) with (S i + (Z.to_nat q - 1))%nat by lia.
    destruct (lookup_lt_is_Some_2 (req_map r) (S i + (Z.to_nat q - 1)) ltac:(lia)) as [e' He'].
    rewrite He'. cbn [default from_option id]. rewrite (Hrun (Z.to_nat q - 1)%nat e' ltac:(lia) He').
    replace (Z.of_nat (Z.to_nat q - 1)) with (q - 1) by lia. nia.
Qed.

(** One I/O: from the entry [i] on over [n + 1] lines. *)
Definition addr_next_ok (i : nat) (addr_next : Z) : Prop :=
  addr_next = 0 \/ forall e, req_map r !! i = Some e -> addr_next = cline_addr e.

Definition one_io (i : nat) (addr_next : Z) (e : map_entry) : Z * Z * Z * list map_entry :=
  let '(addr, bytes) := io_start line_size metadata_offset r (bool_decide (i = 0%nat)) addr_next e in
  let '(bytes, addr_next, rest) := extend line_size metadata_offset addr bytes (drop (S i) (req_map r)) in
  let skip := u64 (L - u64 (Request.addr r + Request.bytes r) mod L) mod L in
  let bytes := if bool_decide (rest = []) then u64 (bytes - skip) else bytes in
  (addr, Z.min bytes (u64 (B - pos i)), addr_next, rest).

Lemma pos_step i n : (i + S n <= count)%nat ->
  pos (i + S n) = Z.min B (Z.of_nat (i + S n) * L - seek) /\ 0 <= pos i < pos (i + S n) /\ pos (i + S n) <= B.
Proof.
  intros Hi. pose proof line_bytes_bounds as HL. pose proof seek_bounds. destruct count_span as (Hc & _).
  destruct (sp_range Hsp) as (_ & HB & _).
  assert (E : pos (i + S n) = Z.min B (Z.of_nat (i + S n) * L - seek)) by (unfold pos; by rewrite decide_False by lia).
  split; [exact E|]. rewrite E.
  assert (Hk : Z.of_nat i * L + L <= Z.of_nat (i + S n) * L) by nia.
  destruct (decide (i = 0%nat)) as [->|Hne].
  - unfold pos. rewrite decide_True by done. lia.
  - destruct (pos_inner i ltac:(lia)) as [Hp Hp']. lia.
Qed.

(** The first I/O starts [seek] bytes into its line. *)
Definition lead (i : nat) : Z := if decide (i = 0%nat) then seek else 0.

Lemma lead_spec i : (i < count)%nat -> 0 <= lead i < L /\ pos i + seek = Z.of_nat i * L + lead i.
Proof.
  intros Hi. pose proof seek_bounds. unfold lead. case_decide as E.
  - subst. unfold pos. rewrite decide_True by done. lia.
  - destruct (pos_inner i ltac:(lia)). lia.
Qed.

Lemma start_spec i e addr_next :
  req_map r !! i = Some e -> addr_next_ok i addr_next ->
  io_start line_size metadata_offset r (bool_decide (i = 0%nat)) addr_next e = (cline_addr e + lead i, L - lead i).
Proof.
  intros Hi Hnext. pose proof line_bytes_bounds as HL. pose proof seek_bounds as Hseek.
  pose proof (entry_addr i e Hi) as He. pose proof (sp_volume Hsp) as [Hm0 Hm].
  unfold io_start. assert (Ha : (if bool_decide (addr_next <> 0) then addr_next else cline_addr e) = cline_addr e).
  { case_bool_decide as E; [|done]. destruct Hnext as [?|Hn]; [done|]. by apply Hn. }
  rewrite Ha. unfold lead. destruct (decide (i = 0%nat)) as [E0|E0].
  - rewrite bool_decide_eq_true_2 by done. rewrite !wrap_small by lia. done.
  - rewrite bool_decide_eq_false_2 by done. f_equal; lia.
Qed.

Lemma one_io_spec i e addr_next :
  req_map r !! i = Some e -> addr_next_ok i addr_next ->
  exists n addr bytes next,
    one_io i addr_next e = (addr, bytes, next, drop (i + S n) (req_map r)) /\
    (i + S n <= count)%nat /\ bytes = pos (i + S n) - pos i /\ addr_next_ok (i + S n) next /\
    io_map (Io addr bytes (data_offset + pos i)) = pairs (pos i) bytes.
Proof.
  intros Hi Hnext. pose proof line_bytes_bounds as HL. pose proof seek_bounds as Hseek.
  destruct count_span as (Hc & _ & Hcl). pose proof (lookup_lt_Some _ _ _ Hi) as Hlt.
  pose proof (entry_addr i e Hi) as He. pose proof (sp_volume Hsp) as [Hm0 Hm].
  destruct (sp_range Hsp) as (_ & HB & _).
  destruct (lead_spec i Hlt) as [Hs Hpos]. pose proof (start_spec i e addr_next Hi Hnext) as Hstart. set (s := lead i) in *.
  unfold one_io. rewrite Hstart.
  destruct (extend_spec (drop (S i) (req_map r)) (cline_addr e + s) (L - s) (S i)) as (n & an & Hext & Hrun & Hn & Hafter);
    [done|lia|lia|lia|rewrite length_drop; nia|].
  rewrite Hext, skip_value. clear Hext Hstart.
  destruct (pos_step i n ltac:(lia)) as (Hp & Hpi & Hpb).
  assert (Hbytes : Z.min (if bool_decide (drop (S i + n) (req_map r) = [])
      then u64 (L - s + Z.of_nat n * L - (Z.of_nat count * L - (seek + B))) else L - s + Z.of_nat n * L)
      (u64 (B - pos i)) = pos (i + S n) - pos i).
  { rewrite (wrap_small 64 (B - pos i)) by lia. case_bool_decide as Hlast.
    - apply (f_equal length) in Hlast. rewrite length_drop in Hlast. cbn in Hlast.
      assert (Hc' : (i + S n)%nat = count) by lia. rewrite Hc', pos_all.
      assert (Z.of_nat count * L = Z.of_nat i * L + L + Z.of_nat n * L) by (rewrite <- Hc'; lia).
      rewrite wrap_small by lia. lia.
    - assert (Hne : (i + S n)%nat <> count) by (intros E; apply Hlast, drop_ge; lia).
      destruct (pos_inner (i + S n) ltac:(lia)) as [Hpn _]. lia. }
  rewrite Hbytes. exists n, (cline_addr e + s), (pos (i + S n) - pos i), an.
  split; [by rewrite Nat.add_succ_r, Nat.add_succ_l|]. split; [lia|]. split; [done|]. split.
  { right. intros e' He'. apply Hafter. by rewrite Nat.add_succ_l, <- Nat.add_succ_r. }
  assert (Hsplit : Z.of_nat (i + S n) * L = Z.of_nat i * L + Z.of_nat (S n) * L) by (rewrite Nat2Z.inj_add; apply Z.mul_add_distr_r).
  apply (run_pairs i e n); [done|done|done|lia| |lia].
  intros j e' Hj He'. rewrite (Hrun j e') by done. lia.
Qed.

Lemma pairs_app p a b : 0 <= a -> 0 <= b -> pairs p a ++ pairs (p + a) b = pairs p (a + b).
Proof. intros Ha Hb. unfold pairs. rewrite <- fmap_app. by rewrite <- seqZ_app by lia. Qed.

Abbreviation cache_ios := (cache_ios line_size metadata_offset data_offset).
Abbreviation backfill_ios := (backfill_ios line_size metadata_offset data_offset).

Lemma io_maps_cons i ios : mjoin (io_map <$> (i :: ios)) = io_map i ++ mjoin (io_map <$> ios).
Proof. done. Qed.

(** One turn of the loops, in terms of [one_io]. *)
Lemma cache_ios_step fuel i addr_next e rest :
  drop i (req_map r) = e :: rest ->
  cache_ios (S fuel) r (bool_decide (i = 0%nat)) addr_next (pos i) (drop i (req_map r)) =
  (let '(addr, bytes, next, rest) := one_io i addr_next e in
   if bool_decide (bytes = 0) then None
   else done ← cache_ios fuel r false next (u64 (pos i + bytes)) rest;
        Some (Io addr bytes (u64 (data_offset + pos i)) :: fst done, snd done)).
Proof.
  intros Hd. assert (Hrest : rest = drop (S i) (req_map r)).
  { assert (Hi : req_map r !! i = Some e) by (by rewrite <- (Nat.add_0_r i), <- lookup_drop, Hd).
    rewrite (drop_S _ _ _ Hi) in Hd. by injection Hd. }
  rewrite Hd. unfold one_io. rewrite <- Hrest. cbn [EngineIo.cache_ios].
  destruct (io_start _ _ _ _ _ _) as [a b]. by destruct (extend _ _ _ _ _) as [[b' n'] rest'].
Qed.

Lemma backfill_step fuel i addr_next e rest :
  drop i (req_map r) = e :: rest -> me_status e <> LOOKUP_HIT ->
  backfill_ios (S fuel) r (bool_decide (i = 0%nat)) addr_next (pos i) (drop i (req_map r)) =
  (let '(addr, bytes, next, rest) := one_io i addr_next e in
   done ← backfill_ios fuel r false next (u64 (pos i + bytes)) rest;
   Some (Io addr bytes (u64 (data_offset + pos i)) :: done)).
Proof.
  intros Hd Hs. assert (Hrest : rest = drop (S i) (req_map r)).
  { assert (Hi : req_map r !! i = Some e) by (by rewrite <- (Nat.add_0_r i), <- lookup_drop, Hd).
    rewrite (drop_S _ _ _ Hi) in Hd. by injection Hd. }
  rewrite Hd. unfold one_io. rewrite <- Hrest. cbn [EngineIo.backfill_ios].
  destruct (io_start _ _ _ _ _ _) as [a b]. rewrite bool_decide_eq_false_2 by done.
  by destruct (extend _ _ _ _ _) as [[b' n'] rest'].
Qed.

Lemma io_offset_small i : (i <= count)%nat -> u64 (data_offset + pos i) = data_offset + pos i.
Proof.
  intros Hi. destruct (sp_data Hsp) as [Hd0 Hd]. destruct (sp_range Hsp) as (_ & HB & _). apply wrap_small.
  unfold pos. case_decide; [lia|]. destruct count_span as (Hc & _). pose proof seek_bounds. pose proof line_bytes_bounds.
  assert (L <= Z.of_nat i * L) by nia. lia.
Qed.

Lemma cache_ios_spec fuel : forall i addr_next,
  (length (drop i (req_map r)) <= fuel)%nat -> (i <= count)%nat -> addr_next_ok i addr_next ->
  exists ios, cache_ios fuel r (bool_decide (i = 0%nat)) addr_next (pos i) (drop i (req_map r)) = Some (ios, B) /\
    mjoin (io_map <$> ios) = pairs (pos i) (B - pos i).
Proof.
  induction fuel as [|fuel IH]; intros i addr_next Hf Hi Hnext.
  - destruct (drop i (req_map r)) as [|e rest] eqn:Hd; [|cbn in Hf; lia].
    apply (f_equal length) in Hd. rewrite length_drop in Hd. cbn in Hd. assert (i = count) as -> by lia.
    exists []. rewrite pos_all. split; [done|]. unfold pairs. by rewrite seqZ_nil by lia.
  - destruct (drop i (req_map r)) as [|e rest] eqn:Hd.
    { apply (f_equal length) in Hd. rewrite length_drop in Hd. cbn in Hd. assert (i = count) as -> by lia.
      exists []. rewrite pos_all. split; [done|]. unfold pairs. by rewrite seqZ_nil by lia. }
    rewrite <- Hd in *. rewrite (cache_ios_step _ _ _ _ _ Hd).
    assert (He : req_map r !! i = Some e) by (by rewrite <- (Nat.add_0_r i), <- lookup_drop, Hd).
    destruct (one_io_spec i e addr_next He Hnext) as (n & a & b & next & -> & Hn & Hb & Hnext' & Hmap).
    destruct (pos_step i n Hn) as (_ & Hp & HpB). destruct (sp_range Hsp) as (_ & HB & _).
    rewrite (bool_decide_eq_false_2 (b = 0)) by lia. rewrite (wrap_small 64 (pos i + b)) by lia.
    replace (pos i + b) with (pos (i + S n)) by lia.
    destruct (IH (i + S n)%nat next) as (ios & Hios & Hjoin); [|done|done|].
    { rewrite !length_drop in *. lia. }
    rewrite bool_decide_eq_false_2 in Hios by lia. rewrite Hios. eexists. split; [done|].
    cbn [fst]. rewrite io_maps_cons, io_offset_small by lia. rewrite Hmap, Hjoin. replace (pos (i + S n)) with (pos i + b) by lia.
    rewrite pairs_app by lia. f_equal. lia.
Qed.

(** The backfill covers every byte of an entry that was not hit, and writes
    every byte it covers at its target. *)
Lemma pairs_elem p n a o : (a, o) ∈ pairs p n <-> exists k, p <= k < p + n /\ a = req_target k /\ o = data_offset + k.
Proof.
  unfold pairs. rewrite list_elem_of_fmap. split.
  - intros (k & [= -> ->] & Hk%elem_of_seqZ). by exists k.
  - intros (k & Hk & -> & ->). exists k. split; [done|]. by apply elem_of_seqZ.
Qed.

Definition entry_of (k : Z) : nat := Z.to_nat ((seek + k) / L).

Lemma entry_of_pos i k : (i < count)%nat -> 0 <= k < B -> entry_of k = i -> pos i <= k < pos (S i).
Proof.
  intros Hi Hk <-. pose proof line_bytes_bounds. pose proof seek_bounds. destruct count_span as (Hc & _).
  assert (Hq : 0 <= (seek + k) / L) by (apply Z.div_pos; lia).
  pose proof (Z.div_mod (seek + k) L ltac:(lia)) as Hdm. pose proof (Z.mod_pos_bound (seek + k) L ltac:(lia)).
  unfold pos. unfold entry_of in *. split.
  - case_decide; [lia|]. rewrite Z2Nat.id by lia. lia.
  - rewrite decide_False by lia. rewrite Nat2Z.inj_succ, Z2Nat.id by lia. nia.
Qed.

Lemma pos_mono i j : (i <= j <= count)%nat -> pos i <= pos j.
Proof.
  intros [Hij Hj]. destruct (decide (i = j)) as [->|Hne]; [lia|].
  replace j with (i + S (j - i - 1))%nat by lia. destruct (pos_step i (j - i - 1)) as (_ & ? & _); lia.
Qed.

Lemma entry_of_ge i k : (i <= count)%nat -> pos i <= k < B -> (entry_of k < count)%nat -> (i <= entry_of k)%nat.
Proof.
  intros Hi Hk He. destruct (decide (entry_of k < i)%nat) as [Hlt|]; [|lia].
  assert (H0 : 0 <= pos i) by (unfold pos; case_decide; [lia|]; destruct (lead_spec 0); [lia|];
    pose proof line_bytes_bounds; pose proof seek_bounds; destruct (sp_range Hsp) as (_ & HB & _); nia).
  destruct (entry_of_pos (entry_of k) k He ltac:(lia) eq_refl) as [_ Hb].
  pose proof (pos_mono (S (entry_of k)) i ltac:(lia)). lia.
Qed.

Definition covers (i : nat) (ios : list io) : Prop :=
  (forall a o, (a, o) ∈ mjoin (io_map <$> ios) -> (a, o) ∈ pairs (pos i) (B - pos i)) /\
  forall k e, pos i <= k < B -> req_map r !! entry_of k = Some e -> me_status e <> LOOKUP_HIT ->
    (req_target k, data_offset + k) ∈ mjoin (io_map <$> ios).

Lemma covers_end : covers count [].
Proof.
  split; [intros a o Hin; by apply not_elem_of_nil in Hin|]. intros k e Hk. rewrite pos_all in Hk. lia.
Qed.

Lemma backfill_spec fuel : forall i addr_next total,
  (length (drop i (req_map r)) <= fuel)%nat -> (i <= count)%nat -> addr_next_ok i addr_next ->
  ((i < count)%nat -> total = pos i) ->
  exists ios, backfill_ios fuel r (bool_decide (i = 0%nat)) addr_next total (drop i (req_map r)) = Some ios /\ covers i ios.
Proof.
  induction fuel as [|fuel IH]; intros i addr_next total Hf Hi Hnext Htotal.
  - destruct (drop i (req_map r)) as [|e rest] eqn:Hd; [|cbn in Hf; lia].
    apply (f_equal length) in Hd. rewrite length_drop in Hd. cbn in Hd. assert (i = count) as -> by lia.
    exists []. split; [done|apply covers_end].
  - destruct (drop i (req_map r)) as [|e rest] eqn:Hd.
    { apply (f_equal length) in Hd. rewrite length_drop in Hd. cbn in Hd. assert (i = count) as -> by lia.
      exists []. split; [done|apply covers_end]. }
    rewrite <- Hd in *.
    assert (He : req_map r !! i = Some e) by (by rewrite <- (Nat.add_0_r i), <- lookup_drop, Hd).
    pose proof (lookup_lt_Some _ _ _ He) as Hlt. rewrite (Htotal Hlt). clear Htotal.
    destruct (decide (me_status e = LOOKUP_HIT)) as [Hhit|Hmiss].
    + rewrite Hd. cbn [EngineIo.backfill_ios]. rewrite (start_spec i e) by done.
      rewrite bool_decide_eq_true_2 by done. destruct (lead_spec i Hlt) as [Hl Hp].
      pose proof line_bytes_bounds as HL. pose proof seek_bounds as Hseek. destruct count_span as (_ & _ & Hcl).
      assert (Hrest : rest = drop (S i) (req_map r)) by (rewrite (drop_S _ _ _ He) in Hd; by injection Hd).
      destruct (IH (S i) 0 (u64 (pos i + (L - lead i)))) as (ios & Hios & Hin & Hall); [|lia|by left| |].
      { rewrite !length_drop in *. lia. }
      { intros HS. destruct (pos_inner (S i) ltac:(lia)) as [E E']. rewrite wrap_small by nia. lia. }
      rewrite Hrest. rewrite bool_decide_eq_false_2 in Hios by lia. exists ios. split; [done|].
      destruct (pos_step i 0 ltac:(lia)) as (_ & Hps & HpB). rewrite Nat.add_1_r in Hps, HpB. split.
      * intros a o (k & Hk & -> & ->)%Hin%pairs_elem. apply pairs_elem. exists k. split; done || lia.
      * intros k e' Hk He' Hs. apply (Hall k e'); [|done..].
        assert (Hge : (i <= entry_of k)%nat) by (apply entry_of_ge; [lia|done|by eapply lookup_lt_Some]).
        assert (entry_of k <> i) by (intros Ei; rewrite Ei in He'; congruence).
        destruct (entry_of_pos (entry_of k) k) as [Hlo _]; [by eapply lookup_lt_Some|lia|done|].
        pose proof (pos_mono (S i) (entry_of k)). apply lookup_lt_Some in He'. lia.
    + rewrite (backfill_step _ _ _ _ _ Hd Hmiss).
      destruct (one_io_spec i e addr_next He Hnext) as (n & a & b & next & -> & Hn & Hb & Hnext' & Hmap).
      destruct (pos_step i n Hn) as (_ & Hp & HpB). destruct (sp_range Hsp) as (_ & HB & _).
      rewrite (wrap_small 64 (pos i + b)) by lia.
      destruct (IH (i + S n)%nat next (pos i + b)) as (ios & Hios & Hin & Hall); [|done|done|lia|].
      { rewrite !length_drop in *. lia. }
      rewrite bool_decide_eq_false_2 in Hios by lia. rewrite Hios. eexists. split; [done|].
      rewrite io_offset_small by lia. split; [intros a' o'|intros k e' Hk He' Hs]; rewrite io_maps_cons, elem_of_app, Hmap.
      * intros [Hx|Hx]; [|apply Hin in Hx]; apply pairs_elem in Hx as (k & Hk & -> & ->); apply pairs_elem; exists k; split; done || lia.
      * destruct (decide (k < pos i + b)) as [Hl|Hg]; [left; apply pairs_elem; exists k; split; done || lia|].
        right. eapply Hall; [lia|done..].
Qed.

(** ** Both functions *)

(** The branch for consecutive lines. *)
Lemma sequential_spec x :
  (forall i e, req_map r !! i = Some e -> me_coll_idx e = x + Z.of_nat i) ->
  exists i, sequential_io line_size metadata_offset data_offset r = Some i /\ mjoin (io_map <$> [i]) = pairs 0 B.
Proof.
  intros Hx. destruct count_span as (Hc & Hn & _). pose proof line_bytes_bounds as HL. pose proof seek_bounds as Hs.
  destruct (lookup_lt_is_Some_2 (req_map r) 0 ltac:(lia)) as [e He].
  pose proof (Forall_lookup_1 _ _ _ _ (sp_lines Hsp) He) as Hl. cbn in Hl.
  destruct (cline_addr_value e Hl) as [Ea Hb]. pose proof (sp_volume Hsp) as [Hm0 Hm].
  unfold sequential_io. rewrite He. cbn. eexists. split; [done|]. rewrite app_nil_r.
  assert (0 <= me_coll_idx e * L <= (num_entries - 1) * L) by nia.
  rewrite (wrap_small 64 (me_coll_idx e * L)) by lia. rewrite (wrap_small 64 (metadata_offset + _)) by lia.
  rewrite wrap_small by lia. replace (metadata_offset + me_coll_idx e * L + seek) with (cline_addr e + seek) by lia.
  rewrite <- (Z.add_0_r data_offset) at 1.
  apply (run_pairs 0 e (count - 1)); [done|lia|lia|replace (S (count - 1)) with count by lia; lia| |lia].
  intros j e' Hj He'. pose proof (Forall_lookup_1 _ _ _ _ (sp_lines Hsp) He') as Hl'. cbn in Hl'.
  destruct (cline_addr_value e' Hl') as [-> _]. rewrite Ea, (Hx _ _ He'), (Hx _ _ He). lia.
Qed.

Lemma forward_pairs :
  (ocf_engine_is_sequential r = true ->
     exists x, forall i e, req_map r !! i = Some e -> me_coll_idx e = x + Z.of_nat i) ->
  exists ios, ocf_engine_forward_cache_io_req line_size metadata_offset data_offset r = Some ios /\
    mjoin (io_map <$> ios) = pairs 0 B.
Proof.
  intros Hseq. unfold ocf_engine_forward_cache_io_req. destruct (ocf_engine_is_sequential r).
  - destruct (Hseq eq_refl) as [x Hx]. destruct (sequential_spec x Hx) as (i & -> & Hm). by exists [i].
  - destruct (cache_ios_spec count 0 0) as (ios & Hios & Hm); [by rewrite length_drop; lia|lia|by left|].
    rewrite drop_0 in Hios. rewrite bool_decide_eq_true_2 in Hios by done.
    change (pos 0) with 0 in *. rewrite Hios. cbn. rewrite bool_decide_eq_false_2 by (intros E; by apply E).
    exists ios. split; [done|]. by rewrite Z.sub_0_r in Hm.
Qed.

Lemma backfill_pairs :
  (ocf_engine_is_sequential r = true ->
     exists x, forall i e, req_map r !! i = Some e -> me_coll_idx e = x + Z.of_nat i) ->
  exists ios, backfill_io line_size metadata_offset data_offset r = Some ios /\ covers 0 ios.
Proof.
  intros Hseq. unfold backfill_io. destruct (ocf_engine_is_sequential r).
  - destruct (Hseq eq_refl) as [x Hx]. destruct (sequential_spec x Hx) as (i & -> & Hm). exists [i]. split; [done|].
    unfold covers. rewrite Hm. change (pos 0) with 0. rewrite Z.sub_0_r. split; [done|].
    intros k e Hk _ _. apply pairs_elem. exists k. split; [lia|done].
  - destruct (backfill_spec count 0 0 0) as (ios & Hios & Hc); [by rewrite length_drop; lia|lia|by left|done|].
    rewrite drop_0 in Hios. rewrite bool_decide_eq_true_2 in Hios by done. by exists ios.
Qed.

(** Different bytes of a request have different places. *)
Lemma target_inj k k' :
  NoDup (me_coll_idx <$> req_map r) -> 0 <= k < B -> 0 <= k' < B -> req_target k = req_target k' -> k = k'.
Proof.
  intros Hnd Hk Hk' E. pose proof line_bytes_bounds as HL. pose proof seek_bounds as Hs. destruct count_span as (Hc & _).
  assert (Hent : forall k, 0 <= k < B -> exists e, req_map r !! entry_of k = Some e /\
    req_target k = metadata_offset + me_coll_idx e * L + (seek + k) mod L /\ Z.of_nat (entry_of k) = (seek + k) / L).
  { intros k0 H0. assert (Hq : 0 <= (seek + k0) / L) by (apply Z.div_pos; lia).
    assert (Hlt : (entry_of k0 < count)%nat).
    { unfold entry_of. apply Nat2Z.inj_lt. rewrite Z2Nat.id by lia. apply Z.div_lt_upper_bound; lia. }
    destruct (lookup_lt_is_Some_2 _ _ Hlt) as [e He]. exists e. split; [done|].
    unfold req_target. fold (entry_of k0). rewrite He. cbn [default from_option id].
    destruct (cline_addr_value e) as [-> _]; [exact (Forall_lookup_1 _ _ _ _ (sp_lines Hsp) He)|].
    split; [done|]. unfold entry_of. lia. }
  destruct (Hent k Hk) as (e & He & Ek & Eq). destruct (Hent k' Hk') as (e' & He' & Ek' & Eq').
  rewrite Ek, Ek' in E. clear Ek Ek' Hent.
  pose proof (Z.mod_pos_bound (seek + k) L ltac:(lia)). pose proof (Z.mod_pos_bound (seek + k') L ltac:(lia)).
  assert (Hidx : me_coll_idx e = me_coll_idx e') by nia.
  assert (Hsame : entry_of k = entry_of k').
  { apply (NoDup_lookup (me_coll_idx <$> req_map r) _ _ (me_coll_idx e)); [done|..]; rewrite list_lookup_fmap;
      [by rewrite He|by rewrite He', Hidx]. }
  pose proof (Z.div_mod (seek + k) L ltac:(lia)). pose proof (Z.div_mod (seek + k') L ltac:(lia)).
  rewrite Hsame, Eq' in Eq. rewrite Hidx in E. lia.
Qed.
End Split.

(** ** What the I/Os do *)

Section Effect.
Context {V : Type}.
Implicit Types dev buf : Z -> V.

Lemma io_map_elem i a o : (a, o) ∈ io_map i <-> io_addr i <= a < io_addr i + io_bytes i /\ o = io_offset i + (a - io_addr i).
Proof.
  unfold io_map. rewrite list_elem_of_fmap. split.
  - intros (t & [= -> ->] & Ht%elem_of_seqZ). lia.
  - intros [Ha ->]. exists (a - io_addr i). split; [f_equal; lia|]. apply elem_of_seqZ. lia.
Qed.

(** The value at [a] after the writes, if [o] is the only byte that goes there. *)
Lemma write_ios_at buf dev ios a o :
  (forall o', (a, o') ∈ mjoin (io_map <$> ios) -> o' = o) ->
  write_ios buf dev ios a = if decide ((a, o) ∈ mjoin (io_map <$> ios)) then buf o else dev a.
Proof.
  revert dev. induction ios as [|i ios IH]; intros dev Hu.
  - rewrite decide_False; [done|]. apply not_elem_of_nil.
  - change (write_ios buf dev (i :: ios)) with (write_ios buf (write_io buf dev i) ios).
    rewrite io_maps_cons in *. setoid_rewrite elem_of_app in Hu. rewrite IH by (intros; apply Hu; by right).
    destruct (decide ((a, o) ∈ mjoin (io_map <$> ios))) as [Hin|Hout].
    + rewrite decide_True; [done|]. apply elem_of_app. by right.
    + unfold write_io. case_bool_decide as Hr.
      * assert (Hi : (a, io_offset i + (a - io_addr i)) ∈ io_map i) by (by apply io_map_elem).
        pose proof (Hu _ (or_introl Hi)) as Eo. rewrite Eo in Hi |- *. rewrite decide_True; [done|]. apply elem_of_app. by left.
      * rewrite decide_False; [done|]. rewrite elem_of_app, io_map_elem. intros [[? _]|?]; done.
Qed.

(** Reading is writing into the buffer. *)
Definition flip_io (i : io) : io := Io (io_offset i) (io_bytes i) (io_addr i).

Lemma read_is_write dev buf ios : read_ios dev buf ios = write_ios dev buf (flip_io <$> ios).
Proof. revert buf. induction ios as [|i ios IH]; intros buf; [done|]. cbn. apply IH. Qed.

Lemma flip_elem ios a o : (o, a) ∈ mjoin (io_map <$> (flip_io <$> ios)) <-> (a, o) ∈ mjoin (io_map <$> ios).
Proof.
  induction ios as [|i ios IH]; [by rewrite !elem_of_nil|]. rewrite fmap_cons, !io_maps_cons, !elem_of_app, IH, !io_map_elem.
  unfold flip_io. cbn. split; (intros [?|?]; [left; lia|by right]).
Qed.
End Effect.

(** ** The engines' transfers *)

Section Transfers.
Context (line_size : cache_line_size) (metadata_offset data_offset num_entries : Z) (r : ocf_request).
Context (Hsp : splittable line_size metadata_offset data_offset num_entries r).
Context (Hnd : NoDup (me_coll_idx <$> req_map r)).
Context (Hseq : ocf_engine_is_sequential r = true ->
  exists x, forall i e, req_map r !! i = Some e -> me_coll_idx e = x + Z.of_nat i).
Context {V : Type}.
Implicit Types dev buf : Z -> V.
Abbreviation B := (bytes r).
Abbreviation target := (req_target line_size metadata_offset r).

Lemma all_pairs a o : (a, o) ∈ pairs line_size metadata_offset data_offset r 0 B <->
  exists k, 0 <= k < B /\ a = target k /\ o = data_offset + k.
Proof. apply pairs_elem. Qed.

Lemma forward_write : exists ios,
  ocf_engine_forward_cache_io_req line_size metadata_offset data_offset r = Some ios /\
  (forall buf dev,
    (forall k, 0 <= k < B -> write_ios buf dev ios (target k) = buf (data_offset + k)) /\
    (forall a, (forall k, 0 <= k < B -> a <> target k) -> write_ios buf dev ios a = dev a)) /\
  (forall buf dev,
    (forall k, 0 <= k < B -> read_ios dev buf ios (data_offset + k) = dev (target k)) /\
    (forall o, ~ (data_offset <= o < data_offset + B) -> read_ios dev buf ios o = buf o)).
Proof.
  destruct (forward_pairs _ _ _ _ _ Hsp Hseq) as (ios & Hios & Hm). exists ios. split; [done|]. split; intros buf dev; split.
  - intros k Hk. rewrite (write_ios_at buf dev ios (target k) (data_offset + k)); rewrite Hm.
    + rewrite decide_True; [done|]. apply all_pairs. eauto.
    + intros o' (k' & Hk' & Et & ->)%all_pairs. f_equal. symmetry. by eapply target_inj.
  - intros a Ha. rewrite (write_ios_at buf dev ios a 0); rewrite Hm.
    + rewrite decide_False; [done|]. intros (k & Hk & Et & _)%all_pairs. by eapply Ha.
    + intros o' (k & Hk & Et & _)%all_pairs. by destruct (Ha k Hk).
  - intros k Hk. rewrite read_is_write, (write_ios_at dev buf _ (data_offset + k) (target k)).
    + rewrite decide_True; [done|]. rewrite flip_elem, Hm. apply all_pairs. eauto.
    + intros a'. rewrite flip_elem, Hm. intros (k' & Hk' & -> & Eo)%all_pairs. f_equal. lia.
  - intros o Ho. rewrite read_is_write, (write_ios_at dev buf _ o 0).
    + rewrite decide_False; [done|]. rewrite flip_elem, Hm. intros (k & Hk & _ & Eo)%all_pairs. lia.
    + intros a'. rewrite flip_elem, Hm. intros (k & Hk & _ & Eo)%all_pairs. lia.
Qed.

Lemma backfill_write : exists ios, backfill_io line_size metadata_offset data_offset r = Some ios /\
  forall buf dev,
    (forall k e, 0 <= k < B -> req_map r !! entry_of line_size r k = Some e -> me_status e <> LOOKUP_HIT ->
       write_ios buf dev ios (target k) = buf (data_offset + k)) /\
    (forall k, 0 <= k < B -> write_ios buf dev ios (target k) = dev (target k) \/
       write_ios buf dev ios (target k) = buf (data_offset + k)) /\
    (forall a, (forall k, 0 <= k < B -> a <> target k) -> write_ios buf dev ios a = dev a).
Proof.
  destruct (backfill_pairs _ _ _ _ _ Hsp Hseq) as (ios & Hios & Hin & Hall). exists ios. split; [done|].
  change (pos line_size r 0) with 0 in *. rewrite Z.sub_0_r in *. intros buf dev.
  assert (Hat : forall k, 0 <= k < B -> write_ios buf dev ios (target k) =
    if decide ((target k, data_offset + k) ∈ mjoin (io_map <$> ios)) then buf (data_offset + k) else dev (target k)).
  { intros k Hk. apply write_ios_at. intros o' (k' & Hk' & Et & ->)%Hin%all_pairs. f_equal. symmetry. by eapply target_inj. }
  split_and!.
  - intros k e Hk He Hs. rewrite Hat by done. rewrite decide_True; [done|]. eapply Hall; [lia|done..].
  - intros k Hk. rewrite Hat by done. case_decide; auto.
  - intros a Ha. rewrite (write_ios_at buf dev ios a 0).
    + rewrite decide_False; [done|]. intros (k & Hk & Et & _)%Hin%all_pairs. by eapply Ha.
    + intros o' (k & Hk & Et & _)%Hin%all_pairs. by destruct (Ha k Hk).
Qed.
End Transfers.

(** C34. Where the bytes of a request go ([ocf_engine_forward_cache_io_req],
    [_ocf_backfill_do]).  For a request with an entry per core line on different
    cache lines of the volume, whose entries are consecutive lines when its
    counters say so, the assertions hold and the I/Os cover the request: a write
    puts every byte at its offset in the cache line of its core line and changes
    no other byte of the volume, a read fetches every byte from there into its
    place in the buffer; a backfill writes at least every byte of the entries
    that were not hit, and no byte to a place that is not its own. *)
Theorem request_io_placed {V} line_size metadata_offset data_offset num_entries r :
  splittable line_size metadata_offset data_offset num_entries r ->
  NoDup (me_coll_idx <$> req_map r) ->
  (ocf_engine_is_sequential r = true ->
     exists x, forall i e, req_map r !! i = Some e -> me_coll_idx e = x + Z.of_nat i) ->
  let target := req_target line_size metadata_offset r in
  let in_request k := 0 <= k < bytes r in
  let off_request a := forall k, in_request k -> a <> target k in
  (exists ios, ocf_engine_forward_cache_io_req line_size metadata_offset data_offset r = Some ios /\
    (forall (buf dev : Z -> V),
      (forall k, in_request k -> write_ios buf dev ios (target k) = buf (data_offset + k)) /\
      (forall a, off_request a -> write_ios buf dev ios a = dev a)) /\
    (forall (buf dev : Z -> V),
      (forall k, in_request k -> read_ios dev buf ios (data_offset + k) = dev (target k)) /\
      (forall o, ~ (data_offset <= o < data_offset + bytes r) -> read_ios dev buf ios o = buf o))) /\
  (exists ios, backfill_io line_size metadata_offset data_offset r = Some ios /\
    forall (buf dev : Z -> V),
      (forall k e, in_request k -> req_map r !! entry_of line_size r k = Some e -> me_status e <> LOOKUP_HIT ->
         write_ios buf dev ios (target k) = buf (data_offset + k)) /\
      (forall k, in_request k -> write_ios buf dev ios (target k) = dev (target k) \/
         write_ios buf dev ios (target k) = buf (data_offset + k)) /\
      (forall a, off_request a -> write_ios buf dev ios a = dev a)).
Proof.
  intros Hsp Hnd Hseq. split; [by eapply forward_write|by eapply backfill_write].
Qed.

(** A request over three core lines whose second and third line are neighbours
    on the volume; the second one was hit. *)
Definition sample_map : list map_entry :=
  (fun '(x, st) => MapEntry (MapInfo 0 x 0 0 st) false false false 0 0) <$>
    [(7, LOOKUP_REMAPPED); (3, LOOKUP_HIT); (4, LOOKUP_REMAPPED)].
Definition sample_request : ocf_request := ocf_req_new size_4 0 0 6144 8192 sample_map.

Lemma request_io_placed_witness :
  ocf_engine_forward_cache_io_req size_4 1048576 0 sample_request =
    Some [Io 1079296 2048 0; Io 1060864 6144 2048] /\
  exists ios, backfill_io size_4 1048576 0 sample_request = Some ios /\
    write_ios (fun o => o + 1) (fun _ => 0) ios 1064960 = 6145.
Proof.
  split; [vm_compute; reflexivity|].
  assert (Hsp : splittable size_4 1048576 0 16 sample_request).
  { split; [split_and!; vm_compute; congruence|vm_compute; reflexivity| |vm_compute; split; congruence|vm_compute; split; congruence].
    cbn. repeat constructor; cbn; lia. }
  destruct (request_io_placed (V:=Z) size_4 1048576 0 16 sample_request Hsp) as (_ & ios & Hios & Hw);
    [cbn; apply (bool_decide_unpack _); vm_compute; exact I|intros E; discriminate E|].
  exists ios. split; [exact Hios|].
  destruct (Hw (fun o => o + 1) (fun _ => 0)) as (Hput & _).
  specialize (Hput 6144 (MapEntry (MapInfo 0 4 0 0 LOOKUP_REMAPPED) false false false 0 0)).
  change 1064960 with (req_target size_4 1048576 sample_request 6144).
  rewrite Hput; [reflexivity|vm_compute; split; congruence|vm_compute; reflexivity|cbn; congruence].
Defined.
End EngineIoProofs.
