(* ===== verification/EngineBase.v ===== *)
(** * The state of a request under way, and what surrounds it

    A request that an engine serves acts on the metadata ([CacheLine]), on the
    cache volume, on the volumes of the cores and on its own buffer.  What the
    model does not compute comes from a [world]: results of I/O, of allocations
    and of waiting for cache lines, the order in which the queue serves
    callbacks.  Callbacks are names that the event loop of [Engines]
    interprets. *)

From S2P Require Import Prelude Alock CacheLineLock Lru LruPart Collision Status Request CacheLine Engine EngineIo.
Import EngineIo.

Inductive direction := OCF_READ | OCF_WRITE.
#[export] Instance direction_eq_dec : EqDecision direction.
Proof. solve_decision. Defined.

(** [req->engine_handler]: the functions of type [ocf_req_cb]. *)
Inductive handler :=
| ocf_read_generic_h | read_generic_do_h | ocf_read_pt_h | ocf_read_pt_do_h
| ocf_write_wt_h | write_wt_do_h | write_wt_do_flush_metadata_h
| ocf_write_wb_h | write_wb_do_h | write_wb_do_flush_metadata_h
| ocf_write_wi_h | write_wi_core_write_h | write_wi_update_and_flush_metadata_h | write_wi_next_pass_h
| ocf_write_wa_h | backfill_do_h | backfill_update_metadata_h | invalidate_do_h | engine_refresh_h.
#[export] Instance handler_eq_dec : EqDecision handler.
Proof. solve_decision. Defined.

(** The functions of type [ocf_req_end_t] that end an I/O of the request. *)
Inductive completion :=
| read_hit_complete | read_miss_complete | read_pt_complete | backfill_complete
| write_wt_cache_complete | write_wt_core_complete | write_wt_flush_complete
| write_wb_complete | write_wb_flush_complete
| write_wi_core_complete | write_wi_flush_complete
| invalidate_complete | engine_clean_end.

Inductive resume := ocf_engine_on_resume_cb | write_wi_on_resume_cb.

Inductive event :=
| Run                                   (** the request is popped from its queue *)
| Call (h : handler)                    (** a tail call *)
| Ended (c : completion) (error : Z)    (** an I/O has ended *)
| Granted (r : resume).                 (** the lock that the request waits for *)

Inductive lock_answer := LockNow | LockLater | LockFails (error : Z).

(** [V] is the type of a byte. *)
Record world {V : Type} := World {
  io_error : nat -> Z;
  junk : nat -> Z -> V;
  carried : nat -> Z -> bool;
  lock_answers : nat -> lock_answer;
  allocated : nat -> bool;
  decision : nat -> bool;
  ticks : nat -> Z
}.
Arguments world : clear implicits.
Arguments World {V}.

(** The configuration of the cache. *)
Record config := Config {
  block_4k : bool;
  line_size : cache_line_size;
  raw : raw_type;
  num_entries : Z;
  waiter_hash : Z;
  walk_fuel : nat;
  metadata_offset : Z;
  metadata_volatile : bool;
  max_queue_size : Z;
  queue_unblock_size : Z;
  fallback_pt_error_threshold : Z;
  valid_core : Z -> bool        (** [valid_core_bitmap] *)
}.

Record volumes {V : Type} := Volumes {
  cache_dev : Z -> V;
  core_dev : Z -> Z -> V;        (** core, byte address *)
  data : Z -> V;                 (** [req->data] *)
  cp_data : option (Z -> V)
}.
Arguments volumes : clear implicits.
Arguments Volumes {V}.

(** The fields of [struct ocf_request] that control its way through the
    engines; [locked] has the entries whose bit in [req->alock_status] is set,
    with the mode of the lock. *)
Record progress := Progress {
  ref_count : Z;
  engine_handler : handler;
  priv : option handler;
  alock_rw : direction;
  locked : gmap Z direction;
  req_remaining : Z;
  req_error : Z;
  cache_error : bool;
  core_error : bool;
  force_pt : bool;
  wi_second_pass : bool;
  part_evict : bool
}.

(** What a cleaning order shares between its requests: [master_remaining],
    [error] of the master, and the calls of the completion function. *)
Record clean_master := Master { master_remaining : Z; master_error : Z; master_calls : list Z }.

Record engine {C V : Type} := Engine {
  meta : cache C;
  vols : volumes V;
  prog : progress;
  master : clean_master;
  pending_read_misses : Z;
  pending_blocked : bool;
  fallback_pt_errors : Z;
  cache_running : bool;
  clock : nat;
  events : list event;
  completions : list (Z * (Z -> V))   (** error and buffer of the calls of [req->complete] *)
}.
Arguments engine : clear implicits.
Arguments Engine {C V}.

Section Setters.
Context {C V : Type}.
Definition with_meta x (s : engine C V) : engine C V :=
  Engine x (vols s) (prog s) (master s) (pending_read_misses s) (pending_blocked s) (fallback_pt_errors s)
    (cache_running s) (clock s) (events s) (completions s).
Definition with_vols x (s : engine C V) : engine C V :=
  Engine (meta s) x (prog s) (master s) (pending_read_misses s) (pending_blocked s) (fallback_pt_errors s)
    (cache_running s) (clock s) (events s) (completions s).
Definition with_prog x (s : engine C V) : engine C V :=
  Engine (meta s) (vols s) x (master s) (pending_read_misses s) (pending_blocked s) (fallback_pt_errors s)
    (cache_running s) (clock s) (events s) (completions s).
Definition with_master x (s : engine C V) : engine C V :=
  Engine (meta s) (vols s) (prog s) x (pending_read_misses s) (pending_blocked s) (fallback_pt_errors s)
    (cache_running s) (clock s) (events s) (completions s).
Definition with_pending n b (s : engine C V) : engine C V :=
  Engine (meta s) (vols s) (prog s) (master s) n b (fallback_pt_errors s)
    (cache_running s) (clock s) (events s) (completions s).
Definition with_fallback x (s : engine C V) : engine C V :=
  Engine (meta s) (vols s) (prog s) (master s) (pending_read_misses s) (pending_blocked s) x
    (cache_running s) (clock s) (events s) (completions s).
Definition with_running x (s : engine C V) : engine C V :=
  Engine (meta s) (vols s) (prog s) (master s) (pending_read_misses s) (pending_blocked s) (fallback_pt_errors s)
    x (clock s) (events s) (completions s).
Definition with_clock x (s : engine C V) : engine C V :=
  Engine (meta s) (vols s) (prog s) (master s) (pending_read_misses s) (pending_blocked s) (fallback_pt_errors s)
    (cache_running s) x (events s) (completions s).
Definition with_events x (s : engine C V) : engine C V :=
  Engine (meta s) (vols s) (prog s) (master s) (pending_read_misses s) (pending_blocked s) (fallback_pt_errors s)
    (cache_running s) (clock s) x (completions s).
Definition with_completions x (s : engine C V) : engine C V :=
  Engine (meta s) (vols s) (prog s) (master s) (pending_read_misses s) (pending_blocked s) (fallback_pt_errors s)
    (cache_running s) (clock s) (events s) x.
End Setters.

(** Setters of [progress] and [volumes]. *)
Definition set_refs x (p : progress) : progress :=
  Progress x (engine_handler p) (priv p) (alock_rw p) (locked p) (req_remaining p) (req_error p) (cache_error p)
    (core_error p) (force_pt p) (wi_second_pass p) (part_evict p).
Definition set_handlers h q (p : progress) : progress :=
  Progress (ref_count p) h q (alock_rw p) (locked p) (req_remaining p) (req_error p) (cache_error p)
    (core_error p) (force_pt p) (wi_second_pass p) (part_evict p).
Definition set_lock rw l (p : progress) : progress :=
  Progress (ref_count p) (engine_handler p) (priv p) rw l (req_remaining p) (req_error p) (cache_error p)
    (core_error p) (force_pt p) (wi_second_pass p) (part_evict p).
Definition set_remaining x (p : progress) : progress :=
  Progress (ref_count p) (engine_handler p) (priv p) (alock_rw p) (locked p) x (req_error p) (cache_error p)
    (core_error p) (force_pt p) (wi_second_pass p) (part_evict p).
Definition set_errors e ca co (p : progress) : progress :=
  Progress (ref_count p) (engine_handler p) (priv p) (alock_rw p) (locked p) (req_remaining p) e ca co
    (force_pt p) (wi_second_pass p) (part_evict p).
Definition set_flags f w e (p : progress) : progress :=
  Progress (ref_count p) (engine_handler p) (priv p) (alock_rw p) (locked p) (req_remaining p) (req_error p)
    (cache_error p) (core_error p) f w e.

Definition put_cache {V} x (v : volumes V) : volumes V := Volumes x (core_dev v) (data v) (cp_data v).
Definition put_core {V} x (v : volumes V) : volumes V := Volumes (cache_dev v) x (data v) (cp_data v).
Definition put_data {V} x (v : volumes V) : volumes V := Volumes (cache_dev v) (core_dev v) x (cp_data v).
Definition put_copy {V} x (v : volumes V) : volumes V := Volumes (cache_dev v) (core_dev v) (data v) x.

(** The content of the volumes with that of core [core] replaced. *)
Definition upd_core {V} (core : Z) (f : Z -> V) (d : Z -> Z -> V) : Z -> Z -> V :=
  fun c => if decide (c = core) then f else d c.

Section EngineBase.
Context {C V : Type} (w : world V) (g : config).
(** The direction of the request and [req->offset]. *)
Context (req_rw : direction) (data_offset : Z).
Abbreviation EM := (Prelude.M (engine C V)).
Abbreviation L := (line_bytes (line_size g)).

Definition on_meta {A} (m : LM (C:=C) A) : EM A := fun s =>
  match m (meta s) with Some (a, c) => Some (a, with_meta c s) | None => None end.
Definition the_request {A} (f : ocf_request -> A) : EM A := gets (fun s => f (request (meta s))).
Definition progress_of {A} (f : progress -> A) : EM A := gets (fun s => f (prog s)).
Definition set_progress (f : progress -> progress) : EM unit := modify (fun s => with_prog (f (prog s)) s).
Definition set_vols (f : volumes V -> volumes V) : EM unit := modify (fun s => with_vols (f (vols s)) s).

(** A question to the world. *)
Definition ask {A} (f : nat -> A) : EM A := fun s => Some (f (clock s), with_clock (S (clock s)) s).

(** ** References, the queue, the completion of the request *)

Definition ocf_req_get : EM unit := set_progress (fun p => set_refs (ref_count p + 1) p).
(** Nothing may happen to a request that has been freed. *)
Definition ocf_req_put : EM unit :=
  refs ← progress_of ref_count;
  _ ← bug_on (bool_decide (refs <= 0));
  set_progress (set_refs (refs - 1)).

(** An event is served before or after the ones that wait. *)
Definition post (e : event) : EM unit :=
  first ← ask (decision w);
  modify (fun s => with_events (if (first : bool) then e :: events s else events s ++ [e]) s).
Definition call (h : handler) : EM unit := modify (fun s => with_events (Call h :: events s) s).

Definition ocf_queue_push_req : EM unit := post Run.
Definition ocf_queue_push_req_cb (h : handler) : EM unit :=
  _ ← set_progress (fun p => set_handlers h (priv p) p);
  ocf_queue_push_req.

(** [req->complete]. *)
Definition req_complete (error : Z) : EM unit :=
  modify (fun s => with_completions (completions s ++ [(error, data (vols s))]) s).

(** [ocf_engine_error]: the cache stops. *)
Definition ocf_engine_error : EM unit := modify (with_running false).

Definition inc_fallback_pt_error_counter : EM unit :=
  n ← gets fallback_pt_errors;
  _ ← bug_on (bool_decide (n < 0));
  if bool_decide (fallback_pt_error_threshold g = 0) then mret tt
  else modify (with_fallback (s32 (n + 1))).

(** ** Locks of the cache lines of the request

    [utils_alock.c] and [ocf_cache_line_concurrency.c] are modelled in [Alock]
    and [CacheLineLock]; here is what the engines see of them: which entries
    are locked, and whether a lock is granted now, later or not at all. *)

Definition needs_lock (e : map_entry) : bool :=
  match me_status e with LOOKUP_MISS | LOOKUP_REMAPPED => false | _ => true end.
Definition is_acting (e : map_entry) : bool :=
  match me_status e with LOOKUP_MISS => false | _ => true end.
(** The indices of the entries with [f]. *)
Definition entries_with (f : map_entry -> bool) (r : ocf_request) : list Z :=
  Z.of_nat ∘ fst <$> filter (fun ie => f ie.2 = true) (imap pair (req_map r)).
Definition lock_all (rw : direction) (idxs : list Z) (l : gmap Z direction) : gmap Z direction :=
  foldr (fun i => <[i := rw]>) l idxs.

Definition ocf_req_async_lock (rw : direction) (cmpl : resume) : EM Z :=
  _ ← set_progress (fun p => set_lock rw (locked p) p);
  idxs ← the_request (entries_with needs_lock);
  held ← progress_of locked;
  _ ← bug_on (existsb (fun i => bool_decide (is_Some (held !! i))) idxs);
  answer ← ask (lock_answers w);
  match answer with
  | LockNow => _ ← set_progress (set_lock rw (lock_all rw idxs held)); mret OCF_LOCK_ACQUIRED
  | LockLater =>
      _ ← set_progress (set_lock rw (lock_all rw idxs held));
      _ ← post (Granted cmpl);
      mret OCF_LOCK_NOT_ACQUIRED
  | LockFails error => _ ← bug_on (bool_decide (0 <= error)); mret error
  end.
Definition ocf_req_async_lock_rd := ocf_req_async_lock OCF_READ.
Definition ocf_req_async_lock_wr := ocf_req_async_lock OCF_WRITE.

(** Giving up a read lock as a write lock, or the other way round, is a bug. *)
Definition unlock_index (rw : direction) (i : Z) : EM unit :=
  held ← progress_of locked;
  match held !! i with
  | None => mret tt
  | Some rw' =>
      _ ← bug_on (negb (bool_decide (rw' = rw)));
      set_progress (fun p => set_lock (alock_rw p) (delete i held) p)
  end.
Definition ocf_req_unlock_rw (rw : direction) : EM unit :=
  idxs ← the_request (entries_with is_acting);
  m_for idxs (unlock_index rw).
Definition ocf_req_unlock_rd := ocf_req_unlock_rw OCF_READ.
Definition ocf_req_unlock_wr := ocf_req_unlock_rw OCF_WRITE.
Definition ocf_req_unlock : EM unit := rw ← progress_of alock_rw; ocf_req_unlock_rw rw.

(** ** I/O

    A write that fails may have been carried out for any of its bytes, a read
    that fails leaves anything in its range of the buffer. *)

(** The content of a volume after write [n]. *)
Definition outcome (n : nat) (new old : Z -> V) : Z -> V := fun a =>
  if bool_decide (io_error w n = 0) || carried w n a then new a else old a.

Definition forward_cache (rw : direction) (ios : list io) (c : completion) : EM unit :=
  n ← ask id;
  let error := io_error w n in
  _ ← set_vols (fun v => match rw with
        | OCF_READ => put_data (read_ios (if bool_decide (error = 0) then cache_dev v else junk w n) (data v) ios) v
        | OCF_WRITE => put_cache (outcome n (write_ios (data v) (cache_dev v) ios) (cache_dev v)) v
        end);
  post (Ended c error).

Definition forward_core (rw : direction) (core : Z) (i : io) (c : completion) : EM unit :=
  n ← ask id;
  let error := io_error w n in
  _ ← set_vols (fun v => match rw with
        | OCF_READ => put_data (read_io (if bool_decide (error = 0) then core_dev v core else junk w n) (data v) i) v
        | OCF_WRITE => put_core (upd_core core (outcome n (write_io (data v) (core_dev v core) i) (core_dev v core)) (core_dev v)) v
        end);
  post (Ended c error).

Definition forward_cache_io_req (rw : direction) (c : completion) : EM unit :=
  r ← the_request id;
  ios ← load (fun _ => ocf_engine_forward_cache_io_req (line_size g) (metadata_offset g) data_offset r);
  forward_cache rw ios c.

Definition forward_core_io_req (c : completion) : EM unit :=
  r ← the_request id;
  forward_core req_rw (req_core r) (core_io data_offset r) c.

(** [ocf_metadata_flush_do_asynch]: writes the metadata of the marked entries. *)
Definition ocf_metadata_flush_do_asynch (c : completion) : EM unit :=
  error ← ask (io_error w);
  post (Ended c error).

(** ** Clearing the request *)

(** The entries get a status that is none of the lookup's; every use of the map
    begins with a lookup. *)
Definition ocf_req_clear : EM unit :=
  _ ← on_meta (set_request (fun r => with_map (replicate (length (req_map r)) zero_entry) (ocf_req_clear_info r)));
  set_progress (set_remaining 0).

Definition set_info (f : ocf_req_info -> ocf_req_info) : EM unit :=
  on_meta (set_request (fun r => with_req_info (f (info r)) r)).
Definition ocf_req_set_mapping_error : EM unit := set_info (fun i =>
  ReqInfo (hit_no i) (invalid_no i) (re_part_no i) (seq_no i) (insert_no i) (dirty_all i) (dirty_any i)
    (flush_metadata i) true (cleaning_required i)).
Definition ocf_req_set_cleaning_required : EM unit := set_info (fun i =>
  ReqInfo (hit_no i) (invalid_no i) (re_part_no i) (seq_no i) (insert_no i) (dirty_all i) (dirty_any i)
    (flush_metadata i) (mapping_error i) true).
(** The end of a cleaning: [dirty_any] and [dirty_all] are zero. *)
Definition clear_dirty_info : EM unit := set_info (fun i =>
  ReqInfo (hit_no i) (invalid_no i) (re_part_no i) (seq_no i) (insert_no i) 0 0
    (flush_metadata i) (mapping_error i) (cleaning_required i)).
End EngineBase.
