(* ===== verification/Cleaner.v ===== *)
(** * The cleaner: [src/utils/utils_cleaner.c]

    A cleaning order reads dirty lines from the cache volume, writes their dirty
    blocks to the core, flushes the core and marks the lines clean.  It is split
    into requests, the master and its slaves, that share a counter and an error.
    Here the requests of an order run one after the other; every callback of a
    request is a function of the chain that it continues.  Locks of hash
    buckets, statistics and deallocation are not part of the state. *)

From S2P Require Import Prelude Alock CacheLineLock Lru LruPart Collision Status Request CacheLine Engine EngineIo EngineBase.
Import EngineIo.

Definition OCF_ERR_IO : Z := 1000033.
Definition OCF_CORE_ID_INVALID : Z := OCF_CORE_NUM.

Definition _ocf_cleaner_get_req_max_count (count : Z) (low_mem : bool) : Z :=
  if low_mem || bool_decide (count <= 4096) then if bool_decide (count < 128) then count else 128
  else 1024.

Inductive cleaner_req_type := cleaner_master | cleaner_slave.

Section Cleaner.
Context {C V : Type} `{!CleaningPolicy C} (w : world V) (g : config).
Abbreviation EM := (Prelude.M (engine C V)).
Abbreviation LM := (LM (C:=C)).
Abbreviation L := (line_bytes (line_size g)).
Abbreviation blocks := (ocf_line_blocks (block_4k g) (line_size g)).
Abbreviation end_block := (ocf_line_end_block (block_4k g) (line_size g)).
Abbreviation shift := (OCF_BLOCK_SHIFT (block_4k g)).

(** Operations on the map of a cleaning request. *)
Definition on_request {A} (r : ocf_request) (m : LM A) : EM (A * ocf_request) := fun s =>
  match m (with_request r (meta s)) with
  | Some (a, c) => Some ((a, request c), with_meta (with_request (request (meta s)) c) s)
  | None => None
  end.

(** ** The master *)

Definition set_master_error (error : Z) : EM unit := modify (fun s =>
  with_master (Master (master_remaining (master s)) error (master_calls (master s))) s).

Definition _ocf_cleaner_set_error : EM unit :=
  modify (fun s => with_master (Master (master_remaining (master s)) (- OCF_ERR_IO) (master_calls (master s))) s).

Definition _ocf_cleaner_complete_req : EM unit :=
  m ← gets master;
  let n := master_remaining m - 1 in
  modify (with_master (Master n (master_error m)
    (if bool_decide (n = 0) then master_calls m ++ [master_error m] else master_calls m))).

Definition ocf_metadata_error : EM unit := modify (with_running false).

(** The unlocking of the lines of the request is not part of the state. *)
Definition _ocf_cleaner_finish_req : EM unit := _ocf_cleaner_complete_req.

(** ** Writing the metadata *)

Definition _ocf_cleaner_flush_cache_end (error : Z) : EM unit :=
  _ ← when (bool_decide (error <> 0)) ocf_metadata_error;
  _ocf_cleaner_finish_req.

Definition _ocf_cleaner_fire_flush_cache : EM unit :=
  error ← ask (io_error w); _ocf_cleaner_flush_cache_end error.

(** [req->error = error]: the error of the master is the one that the order
    completes with, the error of a slave is read by nobody. *)
Definition set_req_error (kind : cleaner_req_type) (error : Z) : EM unit :=
  match kind with cleaner_master => set_master_error error | cleaner_slave => mret tt end.

Definition _ocf_cleaner_metadata_io_end (kind : cleaner_req_type) (error : Z) : EM unit :=
  if bool_decide (error <> 0) then _ ← ocf_metadata_error; _ ← set_req_error kind error; _ocf_cleaner_finish_req
  else _ocf_cleaner_fire_flush_cache.

Definition set_part_id (part : Z) : LM unit := set_request (fun r =>
  Request (req_core r) part (addr r) (bytes r) (core_line_first r) (core_line_last r) (core_line_count r)
    (req_map r) (info r)).

Definition update_line (i : Z) : LM unit :=
  e ← map_entry_of i;
  if negb (me_flush e) then mret tt
  else if me_invalid e then mret tt
  else
    let cache_line := me_coll_idx e in
    dirty ← on_status (metadata_test_dirty (block_4k g) (line_size g) cache_line);
    when dirty (
      ids ← ocf_metadata_get_core_and_part_id (block_4k g) (line_size g) cache_line;
      _ ← set_part_id ids.2;
      set_cache_line_clean (block_4k g) (line_size g) (raw g) 0 end_block i).

Definition _ocf_cleaner_update_metadata (kind : cleaner_req_type) (r : ocf_request) : EM unit :=
  _ ← on_request r (for_each_line update_line);
  if metadata_volatile g then _ocf_cleaner_finish_req
  else error ← ask (io_error w); _ocf_cleaner_metadata_io_end kind error.

(** ** Writing to the core *)

(** After an error no line of the request is marked clean. *)
Definition invalidate_entries (r : ocf_request) : ocf_request :=
  with_map ((fun e => if me_flush e then with_invalid true e else e) <$> req_map r) r.

Definition ended (error : Z) (r : ocf_request) : EM ocf_request :=
  if bool_decide (error <> 0) then _ ← _ocf_cleaner_set_error; mret (invalidate_entries r) else mret r.

Definition _ocf_cleaner_flush_core_end (kind : cleaner_req_type) (error : Z) (r : ocf_request) : EM unit :=
  r ← ended error r; _ocf_cleaner_update_metadata kind r.

Definition _ocf_cleaner_fire_flush_core (kind : cleaner_req_type) (r : ocf_request) : EM unit :=
  error ← ask (io_error w); _ocf_cleaner_flush_core_end kind error r.

Definition _ocf_cleaner_core_io_end (kind : cleaner_req_type) (error : Z) (r : ocf_request) : EM unit :=
  r ← ended error r; _ocf_cleaner_fire_flush_core kind r.

Definition _ocf_cleaner_block_is_dirty (line block : Z) : LM bool :=
  dirty ← on_status (metadata_test_dirty_one (block_4k g) (line_size g) line block);
  valid ← on_status (metadata_test_valid_one (block_4k g) (line_size g) line block);
  _ ← bug_on (negb valid && dirty);
  mret (if (valid : bool) then dirty else false).

Definition BLOCKS_TO_BYTES (n : Z) : Z := u64 (Z.shiftl n shift).

(** The I/O for blocks [start .. stop - 1] of the line of an entry. *)
Definition _ocf_cleaner_core_io_for_dirty_range (e : map_entry) (start stop : Z) : io :=
  Io (u64 (u64 (L * mi_core_line (me_info e)) + BLOCKS_TO_BYTES start))
     (BLOCKS_TO_BYTES (u64 (stop - start)))
     (u64 (u64 (L * mi_hash (me_info e)) + BLOCKS_TO_BYTES start)).

(** The loop over the blocks; [dirty_start] is the start of the range that is
    being counted. *)
Fixpoint dirty_ranges (e : map_entry) (bs : list Z) (dirty_start : option Z) : LM (list io) :=
  match bs with
  | [] => mret (match dirty_start with
                | Some start => [_ocf_cleaner_core_io_for_dirty_range e start blocks]
                | None => [] end)
  | i :: bs =>
      d ← _ocf_cleaner_block_is_dirty (me_coll_idx e) i;
      if negb d then
        ios ← dirty_ranges e bs None;
        mret (match dirty_start with
              | Some start => _ocf_cleaner_core_io_for_dirty_range e start i :: ios
              | None => ios end)
      else dirty_ranges e bs (Some (default i dirty_start))
  end.

Definition _ocf_cleaner_core_submit_io (e : map_entry) : LM (list io) :=
  valid ← on_status (metadata_test_valid (block_4k g) (line_size g) (me_coll_idx e));
  dirty ← on_status (metadata_test_dirty (block_4k g) (line_size g) (me_coll_idx e));
  if (valid : bool) && dirty then mret [_ocf_cleaner_core_io_for_dirty_range e 0 blocks]
  else dirty_ranges e (Z.of_nat <$> seq 0 (Z.to_nat blocks)) None.

Fixpoint core_ios (es : list map_entry) : LM (list io) :=
  match es with
  | [] => mret []
  | e :: es =>
      ios ← (if me_invalid e then mret [] else if negb (me_flush e) then mret [] else _ocf_cleaner_core_submit_io e);
      rest ← core_ios es;
      mret (ios ++ rest)
  end.

(** [buf] is the buffer of the request, filled from the cache volume. *)
Definition _ocf_cleaner_fire_core (kind : cleaner_req_type) (r : ocf_request) (buf : Z -> V) : EM unit :=
  ios ← on_meta (core_ios (req_map r));
  n ← ask id;
  _ ← set_vols (fun v => let old := core_dev v (req_core r) in
        put_core (upd_core (req_core r) (outcome w n (write_ios buf old ios) old) (core_dev v)) v);
  _ocf_cleaner_core_io_end kind (io_error w n) r.

(** ** Reading the cache *)

Definition _ocf_cleaner_cache_io_end (kind : cleaner_req_type) (error : Z) (r : ocf_request) (buf : Z -> V) : EM unit :=
  r ← ended error r; _ocf_cleaner_fire_core kind r buf.

Definition read_line (e : map_entry) : io :=
  Io (u64 (u64 (me_coll_idx e * L) + metadata_offset g)) L (u64 (L * mi_hash (me_info e))).

(** The buffer holds anything when it has been allocated. *)
Definition _ocf_cleaner_fire_cache (kind : cleaner_req_type) (r : ocf_request) : EM unit :=
  fresh ← ask (junk w);
  n ← ask id;
  v ← gets vols;
  let error := io_error w n in
  let src := if bool_decide (error = 0) then cache_dev v else junk w n in
  let ios := read_line <$> filter (fun e => me_flush e = true) (req_map r) in
  _ocf_cleaner_cache_io_end kind error r (read_ios src fresh ios).

(** Is there still something to do for entry [i]? *)
Definition check_line_mapping (i : Z) : LM bool :=
  e ← map_entry_of i;
  ci ← on_map (ocf_metadata_get_core_info (me_coll_idx e));
  if negb (bool_decide (core_id ci = mi_core_id (me_info e))) then mret false
  else if negb (bool_decide (core_line ci = mi_core_line (me_info e))) then mret false
  else
    dirty ← on_status (metadata_test_dirty (block_4k g) (line_size g) (me_coll_idx e));
    if negb dirty then mret false
    else _ ← set_entry i with_flush; mret true.

Fixpoint check_map_lines (l : list Z) (nothing_to_submit : bool) : LM bool :=
  match l with
  | [] => mret nothing_to_submit
  | i :: l => found ← check_line_mapping i; check_map_lines l (nothing_to_submit && negb found)
  end.

Definition _ocf_cleaner_check_map (kind : cleaner_req_type) (r : ocf_request) : EM unit :=
  res ← on_request r (check_map_lines (Z.of_nat <$> seq 0 (Z.to_nat (core_line_count r))) true);
  if (res.1 : bool) then _ocf_cleaner_finish_req else _ocf_cleaner_fire_cache kind res.2.

(** The lines are locked when the order asks for it; a request that has to wait
    goes on with [_ocf_cleaner_check_map]. *)
Definition _ocf_cleaner_cache_line_lock (lock_cacheline : bool) : EM Z :=
  if negb lock_cacheline then mret OCF_LOCK_ACQUIRED
  else
    answer ← ask (lock_answers w);
    match answer with
    | LockNow => mret OCF_LOCK_ACQUIRED
    | LockLater => mret OCF_LOCK_NOT_ACQUIRED
    | LockFails error => _ ← bug_on (bool_decide (0 <= error)); mret error
    end.

Definition _ocf_cleaner_do_fire (kind : cleaner_req_type) (lock_cacheline : bool) (r : ocf_request) : EM Z :=
  result ← _ocf_cleaner_cache_line_lock lock_cacheline;
  if bool_decide (result >= 0) then
    _ ← modify (fun s => let m := master s in with_master (Master (master_remaining m + 1) (master_error m) (master_calls m)) s);
    _ ← _ocf_cleaner_check_map kind r;
    mret 0
  else mret result.

(** ** The order *)

Definition _ocf_cleaner_fire_error (error : Z) : EM unit := set_master_error error.

(** Allocation of a request of at most [count] lines, with a second attempt for
    fewer lines. *)
Definition _ocf_cleaner_alloc_req (count : Z) : EM (option Z) :=
  ok ← ask (allocated w);
  if (ok : bool) then mret (Some count)
  else
    let count := _ocf_cleaner_get_req_max_count count true in
    ok ← ask (allocated w);
    mret (if (ok : bool) then Some count else None).

(** [attribs->getter]: the line for item [curr], if there is one. *)
Context (getter : Z -> LM (option Z)).

(** The loop of [ocf_cleaner_populate_req]; [es] are the entries made so far,
    [fuel] bounds the items that are left. *)
Fixpoint populate (fuel : nat) (count curr map_max : Z) (last_core_id : Z) (es : list map_entry) :
    EM (Z * Z * list map_entry) :=
  match fuel with
  | O => mret (curr, last_core_id, es)
  | S fuel =>
      let map_curr := Z.of_nat (length es) in
      if negb (bool_decide (map_curr < map_max) && bool_decide (curr < count)) then mret (curr, last_core_id, es)
      else
        line ← on_meta (getter curr);
        match line with
        | None => populate fuel count (curr + 1) map_max last_core_id es
        | Some cache_line =>
            ci ← on_meta (on_map (ocf_metadata_get_core_info cache_line));
            let last := if bool_decide (last_core_id = OCF_CORE_ID_INVALID) then core_id ci else last_core_id in
            if negb (bool_decide (core_id ci = last)) then mret (curr, last, es)
            else
              let e := MapEntry (MapInfo map_curr cache_line (core_line ci) (core_id ci) LOOKUP_HIT) false false false 0 0 in
              populate fuel count (curr + 1) map_max last (es ++ [e])
        end
  end.

Definition ocf_cleaner_populate_req (count curr map_max : Z) : EM (Z * ocf_request) :=
  res ← populate (Z.to_nat (count - curr)) count curr map_max OCF_CORE_ID_INVALID [];
  let '(curr, core, es) := res in
  mret (curr, Request core 0 0 L 0 0 (Z.of_nat (length es)) es zero_info).

(** The loop over the slaves. *)
Fixpoint fire_slaves (fuel : nat) (lock_cacheline : bool) (count curr max : Z) : EM unit :=
  match fuel with
  | O => mret tt
  | S fuel =>
      if negb (bool_decide (curr < count)) then mret tt
      else
        let max := Z.min max (u32 (count - curr)) in
        alloc ← _ocf_cleaner_alloc_req max;
        match alloc with
        | None => set_master_error (- OCF_ERR_NO_MEM)
        | Some map_max =>
            res ← ocf_cleaner_populate_req count curr map_max;
            if bool_decide (core_line_count res.2 = 0) then mret tt
            else
              err ← _ocf_cleaner_do_fire cleaner_slave lock_cacheline res.2;
              if bool_decide (err <> 0) then _ocf_cleaner_fire_error err
              else fire_slaves fuel lock_cacheline count res.1 max
        end
  end.

(** The result: the errors the completion function is called with. *)
Definition ocf_cleaner_fire (lock_cacheline : bool) (count : Z) : EM (list Z) :=
  let max := _ocf_cleaner_get_req_max_count count false in
  alloc ← _ocf_cleaner_alloc_req max;
  match alloc with
  | None => mret [- OCF_ERR_NO_MEM]
  | Some map_max =>
      _ ← modify (with_master (Master 1 0 []));
      res ← ocf_cleaner_populate_req count 0 map_max;
      _ ← (if bool_decide (core_line_count res.2 = 0) then mret tt
           else
             err ← _ocf_cleaner_do_fire cleaner_master lock_cacheline res.2;
             if bool_decide (err <> 0) then _ocf_cleaner_fire_error err
             else fire_slaves (Z.to_nat count) lock_cacheline count res.1 max);
      _ ← _ocf_cleaner_complete_req;
      gets (fun s => master_calls (master s))
  end.
End Cleaner.

(** ** Orders for given lines *)

Section FlushData.
Context {C V : Type} `{!CleaningPolicy C} (w : world V) (g : config).

(** [flush[item].cache_line]; an order asks for the items [0 .. count - 1]. *)
Definition _ocf_cleaner_do_flush_data_getter (flush : list Z) (item : Z) : LM (C:=C) (option Z) :=
  mret (cache_line ← flush !! Z.to_nat item; if bool_decide (cache_line < num_entries g) then Some cache_line else None).

Definition ocf_cleaner_do_flush_data_async (lock_cacheline : bool) (flush : list Z) : Prelude.M (engine C V) (list Z) :=
  ocf_cleaner_fire w g (_ocf_cleaner_do_flush_data_getter flush) lock_cacheline (Z.of_nat (length flush)).
End FlushData.
