(* ===== verification/Engines.v ===== *)
(** * The engines: [src/engine/]

    Reading ([engine_rd.c], [engine_pt.c], [engine_bf.c]), writing
    ([engine_wt.c], [engine_wb.c], [engine_wi.c], [engine_wa.c]) and
    invalidation ([engine_inv.c]), with what they share in [engine_common.c].
    A function of the source is a function of [EngineBase]'s monad; functions
    that a queue, an I/O or a lock calls back are named by [handler],
    [completion] and [resume], and [step] calls them.  Mutually recursive calls
    between engines, all of them tail calls, are events as well.  Locks of hash
    buckets ([HashLock]) and statistics are not part of the state. *)

From S2P Require Import Prelude Alock CacheLineLock Lru LruPart Collision Status Request CacheLine Engine PartMove EngineIo EngineBase Cleaner AsyncLock.
Import EngineIo.

(** What the engines use of eviction: [ocf_space.c] over the eviction policy.
    The argument [nat] stands for the state of other requests. *)
Class SpaceManagement (C : Type) := {
  (** [ocf_space_managment_remap_do]: maps the lines of the request that are not
      mapped, evicting from its own partition only or from any. *)
  space_managment_remap_do : nat -> bool -> LM (C:=C) lookup_status;
  (** The valid partitions, as [for_each_user_part] visits them. *)
  valid_user_parts : nat -> cache C -> list Z;
  (** [ocf_eviction_clean]: the cleaning order of a partition, that is up to 128
      of its dirty lines. *)
  eviction_clean_lines : nat -> Z -> cache C -> list Z
}.

Section Engines.
Context {C V : Type} `{!CleaningPolicy C} `{!SpaceManagement C} (w : world V) (g : config).
Context (req_rw : direction) (seq_cutoff : bool) (data_offset : Z).
Abbreviation EM := (Prelude.M (engine C V)).

Abbreviation end_block := (ocf_line_end_block (block_4k g) (line_size g)).
Abbreviation ocf_engine_lookup := (ocf_engine_lookup (C:=C) (block_4k g) (line_size g) (walk_fuel g)).
Abbreviation ocf_engine_traverse := (ocf_engine_traverse (C:=C) (block_4k g) (line_size g) (walk_fuel g)).
Abbreviation ocf_engine_check := (ocf_engine_check (C:=C) (block_4k g) (line_size g)).
Abbreviation ocf_engine_set_hot := (ocf_engine_set_hot (C:=C) (block_4k g) (line_size g)).
Abbreviation ocf_user_part_move := (ocf_user_part_move (C:=C) (block_4k g) (line_size g)).
Abbreviation ocf_purge_map_info :=
  (ocf_purge_map_info (C:=C) (block_4k g) (line_size g) (raw g) (num_entries g) (waiter_hash g)).
Abbreviation ocf_set_valid_map_info := (ocf_set_valid_map_info (C:=C) (block_4k g) (line_size g)).
Abbreviation ocf_set_dirty_map_info := (ocf_set_dirty_map_info (C:=C) (block_4k g) (line_size g) (raw g)).
Abbreviation ocf_set_clean_map_info := (ocf_set_clean_map_info (C:=C) (block_4k g) (line_size g) (raw g)).
Abbreviation forward_cache_io_req := (forward_cache_io_req (C:=C) w g data_offset).
Abbreviation forward_core_io_req := (forward_core_io_req (C:=C) w req_rw data_offset).
Abbreviation ocf_metadata_flush_do_asynch := (ocf_metadata_flush_do_asynch (C:=C) w).
Abbreviation ocf_queue_push_req_cb := (ocf_queue_push_req_cb (C:=C) w).
Abbreviation ocf_queue_push_req := (ocf_queue_push_req (C:=C) w).
Abbreviation inc_fallback_pt_error_counter := (inc_fallback_pt_error_counter (C:=C) (V:=V) g).

Definition rehash : EM unit := on_meta (
  entries ← gets (fun c => hash_table_entries (mapping_of c)); set_request (ocf_req_hash entries)).
Definition ocf_engine_is_miss (r : ocf_request) : bool := negb (ocf_engine_is_hit r).

(** ** [engine_common.c] *)

(** The lines that the policy has taken for the request are locked for it. *)
Definition ocf_space_managment_remap_do : EM lookup_status :=
  n ← ask id;
  own ← progress_of part_evict;
  status ← on_meta (space_managment_remap_do n own);
  idxs ← the_request (entries_with (fun e => bool_decide (me_status e = LOOKUP_REMAPPED)));
  _ ← when (negb (bool_decide (idxs = [])))
        (set_progress (fun p => set_lock OCF_WRITE (lock_all OCF_WRITE idxs (locked p)) p));
  mret status.

Definition ocf_engine_map_hndl_error : EM unit :=
  n ← the_request core_line_count;
  m_for (Z.of_nat <$> seq 0 (Z.to_nat n)) (fun i =>
    entry ← on_meta (map_entry_of i);
    if bool_decide (me_status entry = LOOKUP_REMAPPED) then
      _ ← on_meta (set_entry i (with_status LOOKUP_MISS));
      _ ← on_meta (set_cache_line_invalid_no_flush (block_4k g) (line_size g) (num_entries g) (waiter_hash g)
            0 end_block (me_coll_idx entry));
      unlock_index OCF_WRITE i
    else mret tt).

Definition ocf_engine_remap : EM unit :=
  status ← ocf_space_managment_remap_do;
  if bool_decide (status = LOOKUP_MISS) then
    _ ← ocf_req_set_mapping_error;
    _ ← ocf_req_set_cleaning_required;
    _ ← ocf_engine_map_hndl_error;
    ocf_req_unlock
  else mret tt.

Definition lock_clines : EM Z :=
  r ← the_request id;
  let lock_type := if bool_decide (req_rw = OCF_READ) && ocf_engine_is_hit r then OCF_READ else OCF_WRITE in
  if bool_decide (lock_type = OCF_WRITE) then ocf_req_async_lock_wr w ocf_engine_on_resume_cb
  else ocf_req_async_lock_rd w ocf_engine_on_resume_cb.

(** The answer of [ocf_user_part_has_space] is the world's; what
    [ocf_promotion_req_purge] changes is not part of the state. *)
Definition ocf_prepare_clines_miss : EM unit :=
  part_has_space ← ask (decision w);
  _ ← set_progress (fun p => set_flags (force_pt p) (wi_second_pass p) (negb part_has_space) p);
  ocf_engine_remap.

(** Cleaning of dirty lines of a partition in the background; nobody looks at
    its errors. *)
Definition ocf_eviction_clean (part : Z) : EM unit :=
  n ← ask id;
  c ← gets meta;
  let lines := eviction_clean_lines n part c in
  if bool_decide (lines = []) then mret tt
  else _ ← ocf_cleaner_do_flush_data_async w g false lines; mret tt.

(** The end of [ocf_engine_prepare_clines]: an order for every valid partition. *)
Definition clean_user_parts : EM unit :=
  n ← ask id;
  c ← gets meta;
  m_for (valid_user_parts n c) ocf_eviction_clean.

Definition ocf_engine_prepare_clines : EM Z :=
  enabled ← ask (decision w);
  if negb enabled then _ ← ocf_req_set_mapping_error; mret (- AsyncLock.OCF_ERR_NO_LOCK)
  else
    _ ← rehash;
    _ ← on_meta ocf_engine_lookup;
    mapped ← the_request ocf_engine_is_mapped;
    if (mapped : bool) then
      lock ← lock_clines;
      _ ← (if bool_decide (lock < 0) then ocf_req_set_mapping_error else on_meta ocf_engine_set_hot);
      mret lock
    else
      promote ← ask (decision w);
      if negb promote then _ ← ocf_req_set_mapping_error; mret (- AsyncLock.OCF_ERR_NO_LOCK)
      else
        _ ← on_meta ocf_engine_lookup;
        mapped ← the_request ocf_engine_is_mapped;
        if (mapped : bool) then
          lock ← lock_clines;
          _ ← on_meta ocf_engine_set_hot;
          mret lock
        else
          _ ← ocf_prepare_clines_miss;
          error ← the_request (fun r => mapping_error (info r));
          lock ← (if (error : bool) then mret (- AsyncLock.OCF_ERR_NO_LOCK)
                  else
                    lock ← lock_clines;
                    _ ← when (bool_decide (lock < 0)) ocf_req_set_mapping_error;
                    mret lock);
          error ← the_request (fun r => mapping_error (info r));
          _ ← when (negb error) (on_meta ocf_engine_set_hot);
          cleaning ← the_request (fun r => cleaning_required (info r));
          _ ← when cleaning clean_user_parts;
          mret lock.

Definition ocf_engine_clean : EM unit :=
  count ← the_request core_line_count;
  calls ← ocf_cleaner_fire w g (_ocf_engine_clean_getter (block_4k g) (line_size g)) false count;
  m_for calls (fun error => post w (Ended engine_clean_end error)).

Definition _ocf_engine_clean_end (error : Z) : EM unit :=
  if bool_decide (error <> 0) then
    _ ← set_progress (fun p => set_errors (Z.lor (req_error p) error) (cache_error p) (core_error p) p);
    _ ← ocf_req_unlock;
    _ ← req_complete error;
    ocf_req_put
  else
    _ ← clear_dirty_info;
    ocf_queue_push_req.

Definition _ocf_engine_refresh : EM unit :=
  result ← on_meta ocf_engine_check;
  if bool_decide (result = 0) then
    h ← progress_of priv;
    match h with
    | None => env_bug
    | Some h => _ ← set_progress (set_handlers h None); call h
    end
  else
    _ ← set_progress (fun p => set_errors (- OCF_ERR_INVAL) (cache_error p) (core_error p) p);
    _ ← req_complete (- OCF_ERR_INVAL);
    _ ← ocf_req_unlock;
    ocf_req_put.

Definition ocf_engine_on_resume : EM unit :=
  q ← progress_of priv;
  _ ← bug_on (bool_decide (is_Some q));
  h ← progress_of engine_handler;
  _ ← set_progress (set_handlers h (Some h));
  ocf_queue_push_req_cb engine_refresh_h.

(** ** [engine_inv.c] *)

Definition _ocf_invalidate_req (error : Z) : EM unit :=
  _ ← when (bool_decide (error <> 0)) ocf_engine_error;
  _ ← ocf_req_unlock_wr;
  ocf_req_put.

Definition _ocf_invalidate_do : EM unit :=
  _ ← on_meta ocf_purge_map_info;
  atomic ← ask (decision w);
  flush ← the_request (fun r => flush_metadata (info r));
  if (atomic : bool) && flush then ocf_metadata_flush_do_asynch invalidate_complete
  else _ocf_invalidate_req 0.

Definition ocf_engine_invalidate : EM unit := ocf_queue_push_req_cb invalidate_do_h.

(** ** [engine_bf.c] *)

Definition backfill_queue_dec_unblock : EM unit :=
  n ← gets pending_read_misses;
  _ ← modify (fun s => with_pending (s32 (n - 1)) (pending_blocked s) s);
  blocked ← gets pending_blocked;
  if negb blocked then mret tt
  else when (bool_decide (u32 (s32 (n - 1)) < queue_unblock_size g)) (modify (with_pending (s32 (n - 1)) false)).

Definition backfill_queue_inc_block : EM unit :=
  n ← gets pending_read_misses;
  _ ← modify (fun s => with_pending (s32 (n + 1)) (pending_blocked s) s);
  when (bool_decide (u32 (s32 (n + 1)) >= max_queue_size g)) (modify (with_pending (s32 (n + 1)) true)).

Definition _ocf_backfill_update_metadata : EM unit :=
  _ ← on_meta ocf_set_valid_map_info;
  _ ← ocf_req_unlock;
  ocf_req_put.

Definition _ocf_backfill_complete (error : Z) : EM unit :=
  _ ← when (bool_decide (error <> 0)) inc_fallback_pt_error_counter;
  _ ← backfill_queue_dec_unblock;
  _ ← set_vols (put_copy None);
  if bool_decide (error <> 0) then ocf_engine_invalidate
  else ocf_queue_push_req_cb backfill_update_metadata_h.

Definition _ocf_backfill_do : EM unit :=
  copy ← gets (fun s => cp_data (vols s));
  match copy with
  | None => _ocf_backfill_complete (- OCF_ERR_NO_MEM)
  | Some copy =>
      _ ← set_vols (put_data copy);
      r ← the_request id;
      ios ← load (fun _ => backfill_io (line_size g) (metadata_offset g) data_offset r);
      forward_cache w OCF_WRITE ios backfill_complete
  end.

Definition ocf_engine_backfill : EM unit :=
  _ ← backfill_queue_inc_block;
  ocf_queue_push_req_cb backfill_do_h.

(** ** [engine_pt.c] *)

Definition _ocf_read_pt_complete (error : Z) : EM unit :=
  _ ← req_complete error;
  _ ← ocf_req_unlock;
  ocf_req_put.

Definition ocf_read_pt_do : EM unit :=
  _ ← ocf_req_get;
  r ← the_request id;
  if bool_decide (dirty_any (info r) <> 0) then
    _ ← ocf_engine_clean;
    ocf_req_put
  else
    _ ← when (ocf_engine_needs_repart r) (on_meta ocf_user_part_move);
    _ ← forward_core_io_req read_pt_complete;
    ocf_req_put.

Definition ocf_read_pt : EM unit :=
  _ ← ocf_req_get;
  _ ← set_progress (fun p => set_handlers ocf_read_pt_do_h (priv p) p);
  _ ← rehash;
  _ ← on_meta ocf_engine_traverse;
  r ← the_request id;
  force ← progress_of force_pt;
  let use_cache := seq_cutoff && ocf_engine_is_dirty_all r && negb force in
  _ ← (if use_cache then _ ← ocf_req_clear; call ocf_read_generic_h
       else
         lock ← (if bool_decide (ocf_engine_mapped_count r <> 0) then ocf_req_async_lock_rd w ocf_engine_on_resume_cb
                 else mret OCF_LOCK_ACQUIRED);
         if bool_decide (0 <= lock) then
           if bool_decide (lock = OCF_LOCK_ACQUIRED) then ocf_read_pt_do else mret tt
         else
           _ ← req_complete lock;
           ocf_req_put);
  ocf_req_put.

Definition ocf_queue_push_req_pt : EM unit := ocf_queue_push_req_cb ocf_read_pt_do_h.

(** ** [engine_rd.c] *)

Definition _ocf_read_generic_hit_complete (error : Z) : EM unit :=
  if bool_decide (error <> 0) then
    _ ← inc_fallback_pt_error_counter;
    ocf_queue_push_req_pt
  else
    _ ← ocf_req_unlock;
    _ ← req_complete error;
    ocf_req_put.

Definition _ocf_read_generic_miss_complete (error : Z) : EM unit :=
  if bool_decide (error <> 0) then
    _ ← req_complete error;
    _ ← set_vols (put_copy None);
    ocf_engine_invalidate
  else
    (* [ctx_data_cpy] copies [req->bytes] bytes from position 0 *)
    n ← the_request bytes;
    _ ← set_vols (fun v => match cp_data v with
          | Some copy => put_copy (Some (fun o => if bool_decide (0 <= o < n) then data v o else copy o)) v
          | None => v
          end);
    _ ← req_complete error;
    ocf_engine_backfill.

Definition ocf_read_generic_submit_hit : EM unit := forward_cache_io_req OCF_READ read_hit_complete.

Definition _ocf_read_generic_submit_miss : EM unit :=
  fresh ← ask (junk w);
  ok ← ask (allocated w);
  _ ← (if (ok : bool) then
         _ ← set_vols (put_copy (Some fresh));
         locked ← ask (allocated w);
         when (negb locked) (set_vols (put_copy None))
       else set_vols (put_copy None));
  forward_core_io_req read_miss_complete.

Definition _ocf_read_generic_do : EM unit :=
  r ← the_request id;
  rw ← progress_of alock_rw;
  if ocf_engine_is_miss r && bool_decide (rw = OCF_READ) then ocf_read_pt_do
  else
    _ ← ocf_req_get;
    if ocf_engine_is_miss r && bool_decide (dirty_any (info r) <> 0) then
      _ ← ocf_engine_clean;
      ocf_req_put
    else
      _ ← when (ocf_engine_needs_repart r) (on_meta ocf_user_part_move);
      _ ← (if ocf_engine_is_hit r then ocf_read_generic_submit_hit else _ocf_read_generic_submit_miss);
      ocf_req_put.

(** The branches after [ocf_engine_prepare_clines] are the same for the engines
    that map lines: run the handler, wait, complete with the error of the lock,
    or serve the request without inserting lines. *)
Definition prepared (lock : Z) (run without : EM unit) : EM unit :=
  error ← the_request (fun r => mapping_error (info r));
  _ ← (if negb error then
         if bool_decide (lock >= 0) then
           if negb (bool_decide (lock = OCF_LOCK_ACQUIRED)) then mret tt else run
         else
           _ ← req_complete lock;
           ocf_req_put
       else
         _ ← ocf_req_clear;
         without);
  ocf_req_put.

Definition set_force_pt : EM unit := set_progress (fun p => set_flags true (wi_second_pass p) (part_evict p) p).

Definition ocf_read_generic : EM unit :=
  blocked ← gets pending_blocked;
  if (blocked : bool) then _ ← set_force_pt; call ocf_read_pt_h
  else
    _ ← ocf_req_get;
    _ ← set_progress (fun p => set_handlers read_generic_do_h (priv p) p);
    lock ← ocf_engine_prepare_clines;
    prepared lock _ocf_read_generic_do (_ ← set_force_pt; call ocf_read_pt_h).

(** ** [engine_wi.c] *)

(** A first pass may be followed by [ocf_write_wi] as a second pass. *)
Definition _ocf_write_wi_next_pass : EM unit :=
  _ ← ocf_req_unlock_wr;
  second ← progress_of wi_second_pass;
  if (second : bool) then
    _ ← req_complete 0;
    ocf_req_put
  else
    _ ← set_progress (fun p => set_flags (force_pt p) true (part_evict p) p);
    call ocf_write_wi_h.

Definition _ocf_write_wi_io_flush_metadata (error : Z) : EM unit :=
  _ ← when (bool_decide (error <> 0)) ocf_engine_error;
  second ← progress_of wi_second_pass;
  r ← the_request id;
  if bool_decide (error = 0) && negb second && ocf_engine_is_miss r then ocf_queue_push_req_cb write_wi_next_pass_h
  else
    _ ← ocf_req_unlock_wr;
    _ ← req_complete error;
    ocf_req_put.

Definition ocf_write_wi_update_and_flush_metadata : EM unit :=
  r ← the_request id;
  if bool_decide (ocf_engine_mapped_count r = 0) then _ocf_write_wi_next_pass
  else
    _ ← on_meta ocf_purge_map_info;
    flush ← the_request (fun r => flush_metadata (info r));
    if (flush : bool) then ocf_metadata_flush_do_asynch write_wi_flush_complete
    else _ocf_write_wi_io_flush_metadata 0.

Definition _ocf_write_wi_core_complete (error : Z) : EM unit :=
  if bool_decide (error <> 0) then
    _ ← ocf_req_unlock_wr;
    _ ← req_complete error;
    ocf_req_put
  else ocf_queue_push_req_cb write_wi_update_and_flush_metadata_h.

Definition _ocf_write_wi_core_write : EM unit :=
  _ ← ocf_req_get;
  r ← the_request id;
  if bool_decide (dirty_any (info r) <> 0) then
    _ ← ocf_engine_clean;
    ocf_req_put
  else
    _ ← forward_core_io_req write_wi_core_complete;
    ocf_req_put.

Definition _ocf_write_wi_on_resume : EM unit := ocf_queue_push_req.

Definition ocf_write_wi : EM unit :=
  _ ← ocf_req_get;
  second ← progress_of wi_second_pass;
  let h := if (second : bool) then write_wi_update_and_flush_metadata_h else write_wi_core_write_h in
  _ ← set_progress (fun p => set_handlers h (priv p) p);
  _ ← rehash;
  _ ← on_meta ocf_engine_traverse;
  r ← the_request id;
  lock ← (if bool_decide (ocf_engine_mapped_count r <> 0) then ocf_req_async_lock_wr w write_wi_on_resume_cb
          else mret OCF_LOCK_ACQUIRED);
  _ ← (if bool_decide (lock >= 0) then
         if bool_decide (lock = OCF_LOCK_ACQUIRED) then
           if (second : bool) then ocf_write_wi_update_and_flush_metadata else _ocf_write_wi_core_write
         else mret tt
       else
         _ ← req_complete lock;
         ocf_req_put);
  ocf_req_put.

(** ** [engine_wt.c] *)

Definition _ocf_write_wt_update_bits : EM unit :=
  r ← the_request id;
  let miss := ocf_engine_is_miss r in
  let dirty := bool_decide (dirty_any (info r) <> 0) in
  let repart := ocf_engine_needs_repart r in
  if negb miss && negb dirty && negb repart then mret tt
  else
    _ ← when miss (on_meta ocf_set_valid_map_info);
    _ ← when dirty (on_meta ocf_set_clean_map_info);
    when repart (on_meta ocf_user_part_move).

Definition _ocf_write_wt_do_flush_metadata_compl (error : Z) : EM unit :=
  _ ← when (bool_decide (error <> 0)) ocf_engine_error;
  _ ← ocf_req_unlock_wr;
  _ ← req_complete error;
  ocf_req_put.

Definition ocf_write_wt_do_flush_metadata : EM unit :=
  _ ← _ocf_write_wt_update_bits;
  flush ← the_request (fun r => flush_metadata (info r));
  if (flush : bool) then ocf_metadata_flush_do_asynch write_wt_flush_complete
  else _ocf_write_wt_do_flush_metadata_compl 0.

Definition _ocf_write_wt_req_complete : EM unit :=
  n ← progress_of req_remaining;
  _ ← set_progress (set_remaining (n - 1));
  if bool_decide (n - 1 <> 0) then mret tt
  else
    p ← progress_of id;
    if cache_error p || core_error p then
      _ ← req_complete (req_error p);
      ocf_engine_invalidate
    else
      r ← the_request id;
      if bool_decide (dirty_any (info r) <> 0) then ocf_queue_push_req_cb write_wt_do_flush_metadata_h
      else
        _ ← ocf_req_unlock_wr;
        _ ← req_complete 0;
        ocf_req_put.

Definition _ocf_write_wt_cache_complete (error : Z) : EM unit :=
  _ ← when (bool_decide (error <> 0)) (
        _ ← set_progress (fun p => set_errors (req_error p) true (core_error p) p);
        inc_fallback_pt_error_counter);
  _ocf_write_wt_req_complete.

Definition _ocf_write_wt_core_complete (error : Z) : EM unit :=
  _ ← when (bool_decide (error <> 0)) (set_progress (fun p => set_errors error (cache_error p) true p));
  _ocf_write_wt_req_complete.

Definition _ocf_write_wt_submit : EM unit :=
  _ ← set_progress (set_remaining 2);
  _ ← forward_cache_io_req OCF_WRITE write_wt_cache_complete;
  forward_core_io_req write_wt_core_complete.

Definition _ocf_write_wt_do : EM unit :=
  _ ← ocf_req_get;
  r ← the_request id;
  _ ← when (bool_decide (dirty_any (info r) = 0)) (
        _ ← _ocf_write_wt_update_bits;
        r ← the_request id;
        bug_on (flush_metadata (info r)));
  _ ← _ocf_write_wt_submit;
  ocf_req_put.

Definition ocf_write_wt : EM unit :=
  _ ← ocf_req_get;
  _ ← set_progress (fun p => set_handlers write_wt_do_h (priv p) p);
  lock ← ocf_engine_prepare_clines;
  prepared lock _ocf_write_wt_do (call ocf_write_wi_h).

(** ** [engine_wb.c] *)

(** [ocf_req_set_cleaning_hot]: [utils_request.c]. *)
Definition ocf_req_set_cleaning_hot : LM (C:=C) unit := for_each_line (fun i =>
  e ← map_entry_of i; ocf_cleaning_set_hot_cache_line (me_coll_idx e)).

Definition _ocf_write_wb_update_bits : EM unit :=
  r ← the_request id;
  let miss := ocf_engine_is_miss r in
  let clean_any := negb (ocf_engine_is_dirty_all r) in
  if negb miss && negb clean_any then on_meta ocf_req_set_cleaning_hot
  else
    _ ← when miss (on_meta ocf_set_valid_map_info);
    _ ← when clean_any (now ← ask (ticks w); on_meta (ocf_set_dirty_map_info now));
    on_meta ocf_req_set_cleaning_hot.

Definition _ocf_write_wb_io_flush_metadata (error : Z) : EM unit :=
  _ ← when (bool_decide (error <> 0)) ocf_engine_error;
  _ ← ocf_req_unlock_wr;
  _ ← req_complete error;
  ocf_req_put.

Definition ocf_write_wb_do_flush_metadata : EM unit :=
  _ ← _ocf_write_wb_update_bits;
  flush ← the_request (fun r => flush_metadata (info r));
  if (flush : bool) then ocf_metadata_flush_do_asynch write_wb_flush_complete
  else _ocf_write_wb_io_flush_metadata 0.

Definition _ocf_write_wb_complete (error : Z) : EM unit :=
  if bool_decide (error <> 0) then
    _ ← ocf_engine_error;
    _ ← req_complete error;
    ocf_engine_invalidate
  else ocf_queue_push_req_cb write_wb_do_flush_metadata_h.

Definition _ocf_write_wb_submit : EM unit :=
  r ← the_request id;
  _ ← when (ocf_engine_needs_repart r) (on_meta ocf_user_part_move);
  forward_cache_io_req OCF_WRITE write_wb_complete.

Definition ocf_write_wb_do : EM unit :=
  _ ← ocf_req_get;
  _ ← _ocf_write_wb_submit;
  ocf_req_put.

Definition ocf_write_wb : EM unit :=
  _ ← ocf_req_get;
  _ ← set_progress (fun p => set_handlers write_wb_do_h (priv p) p);
  lock ← ocf_engine_prepare_clines;
  prepared lock ocf_write_wb_do (call ocf_write_wi_h).

(** ** [engine_wa.c] *)

Definition ocf_write_wa : EM unit :=
  _ ← ocf_req_get;
  _ ← rehash;
  _ ← on_meta ocf_engine_traverse;
  r ← the_request id;
  _ ← ocf_req_clear;
  _ ← (if ocf_engine_is_hit r then call ocf_write_wt_h else call ocf_write_wi_h);
  ocf_req_put.

(** ** The event loop *)

Definition run_handler (h : handler) : EM unit :=
  match h with
  | ocf_read_generic_h => ocf_read_generic
  | read_generic_do_h => _ocf_read_generic_do
  | ocf_read_pt_h => ocf_read_pt
  | ocf_read_pt_do_h => ocf_read_pt_do
  | ocf_write_wt_h => ocf_write_wt
  | write_wt_do_h => _ocf_write_wt_do
  | write_wt_do_flush_metadata_h => ocf_write_wt_do_flush_metadata
  | ocf_write_wb_h => ocf_write_wb
  | write_wb_do_h => ocf_write_wb_do
  | write_wb_do_flush_metadata_h => ocf_write_wb_do_flush_metadata
  | ocf_write_wi_h => ocf_write_wi
  | write_wi_core_write_h => _ocf_write_wi_core_write
  | write_wi_update_and_flush_metadata_h => ocf_write_wi_update_and_flush_metadata
  | write_wi_next_pass_h => _ocf_write_wi_next_pass
  | ocf_write_wa_h => ocf_write_wa
  | backfill_do_h => _ocf_backfill_do
  | backfill_update_metadata_h => _ocf_backfill_update_metadata
  | invalidate_do_h => _ocf_invalidate_do
  | engine_refresh_h => _ocf_engine_refresh
  end.

Definition run_completion (c : completion) (error : Z) : EM unit :=
  match c with
  | read_hit_complete => _ocf_read_generic_hit_complete error
  | read_miss_complete => _ocf_read_generic_miss_complete error
  | read_pt_complete => _ocf_read_pt_complete error
  | backfill_complete => _ocf_backfill_complete error
  | write_wt_cache_complete => _ocf_write_wt_cache_complete error
  | write_wt_core_complete => _ocf_write_wt_core_complete error
  | write_wt_flush_complete => _ocf_write_wt_do_flush_metadata_compl error
  | write_wb_complete => _ocf_write_wb_complete error
  | write_wb_flush_complete => _ocf_write_wb_io_flush_metadata error
  | write_wi_core_complete => _ocf_write_wi_core_complete error
  | write_wi_flush_complete => _ocf_write_wi_io_flush_metadata error
  | invalidate_complete => _ocf_invalidate_req error
  | engine_clean_end => _ocf_engine_clean_end error
  end.

Definition run_event (e : event) : EM unit :=
  match e with
  | Run => h ← progress_of engine_handler; run_handler h
  | Call h => run_handler h
  | Ended c error => run_completion c error
  | Granted ocf_engine_on_resume_cb => ocf_engine_on_resume
  | Granted write_wi_on_resume_cb => _ocf_write_wi_on_resume
  end.

(** One turn of [ocf_queue_run]; nothing happens when no event waits. *)
Definition step : EM unit :=
  es ← gets events;
  match es with
  | [] => mret tt
  | e :: es => _ ← modify (with_events es); run_event e
  end.

Fixpoint ocf_queue_run (fuel : nat) : EM unit :=
  match fuel with
  | O => mret tt
  | S fuel => _ ← step; ocf_queue_run fuel
  end.
End Engines.
