(* ===== verification/Content.v ===== *)
(** * What a cache holds of the cores

    A byte of a core is in the cache when its core line is mapped and its block
    is valid; [place] says where, and whether it is dirty.  [content] is what a
    reader of the core is to get, [coherent] says that clean bytes are on the
    core as well.  The state changes of the lines of a request are changes of
    [place] on the bytes of the request. *)

From S2P Require Import Prelude Alock AlockProofs CacheLineLock Links Lru LruProofs Generator LruPart LruPartProofs.
From S2P Require Import Collision CollisionProofs Status StatusProofs Request RequestProofs.
From S2P Require Import CacheLine CacheLineProofs CacheLineSteps Engine EngineProofs PartMove EngineIo EngineIoProofs EngineBase.

Section Content.
Context {C : Type} `{!CleaningPolicy C} (g : config).
Abbreviation L := (line_bytes (line_size g)).
Abbreviation BS := (2 ^ OCF_BLOCK_SHIFT (block_4k g)).
Abbreviation blocks := (ocf_line_blocks (block_4k g) (line_size g)).
Abbreviation inv := (cache_inv (C:=C) (block_4k g) (line_size g) (num_entries g)).
Abbreviation start := (ocf_map_line_start_block (block_4k g) (line_size g)).
Abbreviation stop := (ocf_map_line_end_block (block_4k g) (line_size g)).
Abbreviation ready_kept := (ready_kept (C:=C) (block_4k g) (line_size g)).
Abbreviation frame := (frame (C:=C) (block_4k g) (line_size g)).
Abbreviation only_line := (only_line (C:=C) (block_4k g) (line_size g)).
Abbreviation request_ok := (request_ok (line_size g)).
Implicit Types (c : cache C) (m : gmap core_info Z) (r : ocf_request).

(** ** Bytes, blocks and lines *)

(** The block of byte [a] in its line. *)
Definition block_of (a : Z) : Z := (a mod L) / BS.
(** The byte of the cache volume for byte [a] of a core, in cache line [x]. *)
Definition byte_addr (x a : Z) : Z := metadata_offset g + x * L + a mod L.
Definition byte_line (core a : Z) : core_info := CoreInfo core (a / L).

(** The byte of a line with status [st]: where it is, and is it dirty? *)
Definition in_line (st : map_status) (x a : Z) : option (Z * bool) :=
  if Z.testbit (valid st) (block_of a) then Some (byte_addr x a, Z.testbit (dirty st) (block_of a)) else None.

Definition place c m (core a : Z) : option (Z * bool) :=
  x ← m !! byte_line core a; st ← statuses c !! x; in_line st x a.

Lemma L_bounds : 4096 <= L <= 65536 /\ L = blocks * BS /\ 0 < BS /\ 1 <= blocks <= 128.
Proof. destruct (line_size g), (block_4k g); vm_compute; split_and!; congruence. Qed.

Lemma block_of_bounds a : 0 <= block_of a < blocks.
Proof.
  destruct L_bounds as (HL & E & HB & Hn). unfold block_of.
  pose proof (Z.mod_pos_bound a L ltac:(lia)). split; [apply Z.div_pos; lia|].
  apply Z.div_lt_upper_bound; lia.
Qed.

(** ** The bytes of a request *)

Definition in_req r (core a : Z) : Prop := core = req_core r /\ addr r <= a < addr r + bytes r.
#[global] Instance in_req_dec r core a : Decision (in_req r core a).
Proof. solve_decision. Defined.

Definition aligned r : Prop := (BS | addr r) /\ (BS | bytes r).

(** The entry of a byte. *)
Definition entry_index r (a : Z) : Z := a / L - core_line_first r.

Lemma blk_split a : BYTES_TO_BLOCKS_ROUND_DOWN (block_4k g) a = a / L * blocks + block_of a.
Proof.
  destruct L_bounds as (HL & E & HB & Hn). unfold BYTES_TO_BLOCKS_ROUND_DOWN, block_of.
  rewrite Z.shiftr_div_pow2 by (by destruct (block_4k g)).
  rewrite (Z.div_mod a L) at 1 by lia. rewrite E at 1.
  replace (blocks * BS * (a / L) + a mod L) with (a mod L + a / L * blocks * BS) by lia.
  rewrite Z.div_add by lia. lia.
Qed.

Lemma request_new r : request_ok r ->
  start r = start (ocf_req_new (line_size g) (req_core r) (req_part r) (addr r) (bytes r) (req_map r)) /\
  stop r = stop (ocf_req_new (line_size g) (req_core r) (req_part r) (addr r) (bytes r) (req_map r)) /\
  core_line_first r = core_line_first (ocf_req_new (line_size g) (req_core r) (req_part r) (addr r) (bytes r) (req_map r)) /\
  core_line_count r = core_line_count (ocf_req_new (line_size g) (req_core r) (req_part r) (addr r) (bytes r) (req_map r)).
Proof.
  intros [Hg Hl _]. set (r' := ocf_req_new _ _ _ _ _ _).
  assert (E : with_req_info (info r) r' = r).
  { subst r'. unfold ocf_req_new. rewrite <- Hl. by destruct r. }
  split_and!; by rewrite <- E at 1.
Qed.

Lemma in_req_blocks r core a :
  request_ok r -> aligned r -> 0 <= a ->
  in_req r core a <-> core = req_core r /\
    0 <= entry_index r a < core_line_count r /\
    start r (entry_index r a) <= block_of a <= stop r (entry_index r a).
Proof.
  intros Hok [[qa Ha] [qb Hb]] H0. destruct L_bounds as (HL & E & HB & Hn).
  destruct (ro_range _ _ Hok) as (Hr1 & Hr2 & Hr3).
  destruct (request_new r Hok) as (Es & Et & Ef & Ec).
  pose proof (blocks_tile (block_4k g) (line_size g) (req_core r) (req_part r) (addr r) (bytes r) (req_map r)
    (ro_range _ _ Hok)) as Ht.
  cbv zeta in Ht. rewrite <- Es, <- Et, <- Ef, <- Ec in Ht.
  specialize (Ht (BYTES_TO_BLOCKS_ROUND_DOWN (block_4k g) a)).
  assert (Hblk : forall x, BYTES_TO_BLOCKS_ROUND_DOWN (block_4k g) x = x / BS).
  { intros x. unfold BYTES_TO_BLOCKS_ROUND_DOWN. by rewrite Z.shiftr_div_pow2 by (by destruct (block_4k g)). }
  assert (Hin : addr r <= a < addr r + bytes r <->
    BYTES_TO_BLOCKS_ROUND_DOWN (block_4k g) (addr r) <= BYTES_TO_BLOCKS_ROUND_DOWN (block_4k g) a <=
    BYTES_TO_BLOCKS_ROUND_DOWN (block_4k g) (addr r + bytes r - 1)).
  { assert (Hle : forall k x, k * BS <= x <-> k <= x / BS).
    { intros k x. split; intros H; [by apply Z.div_le_lower_bound; lia|].
      pose proof (Z.mul_div_le x BS HB). nia. }
    rewrite !Hblk, Ha. rewrite Z.div_mul by lia. pose proof (Hle qa a) as H1. pose proof (Hle (qa + qb) a) as H2.
    replace ((qa * BS + bytes r - 1) / BS) with (qa + qb - 1).
    - rewrite Hb. lia.
    - rewrite Hb. replace (qa * BS + qb * BS - 1) with (BS - 1 + (qa + qb - 1) * BS) by lia.
      rewrite Z.div_add, (Z.div_small (BS - 1)) by lia. lia. }
  unfold in_req. rewrite Hin, Ht. apply and_iff_compat_l. rewrite blk_split. unfold entry_index.
  pose proof (block_of_bounds a) as Hbl. split.
  - intros (i & Hi & Hs). destruct (request_ok_lines (block_4k g) _ _ Hok) as (_ & _ & Hrange).
    destruct (Hrange i Hi) as [? ?].
    assert (Ei : a / L = core_line_first r + i) by nia. rewrite Ei in *.
    replace (core_line_first r + i - core_line_first r) with i by lia. split; [done|]. lia.
  - intros [Hi Hs]. exists (a / L - core_line_first r). split; [done|]. nia.
Qed.

(** Every block of an entry's range has a byte of the request. *)
Lemma block_byte r i j : request_ok r -> aligned r -> 0 <= i < core_line_count r -> start r i <= j <= stop r i ->
  exists a, 0 <= a /\ in_req r (req_core r) a /\ entry_index r a = i /\ block_of a = j /\ a / L = core_line_first r + i.
Proof.
  intros Hok Hal Hi Hj. destruct L_bounds as (HL & E & HB & Hn).
  destruct (request_ok_lines (block_4k g) _ _ Hok) as (_ & _ & Hr). destruct (Hr i Hi) as [Hr1 Hr2].
  assert (Hf0 : 0 <= core_line_first r).
  { destruct (request_new _ Hok) as (_ & _ & -> & _).
    destruct (req_geometry (block_4k g) (line_size g) (req_core r) (req_part r) _ _
      (req_map r) (ro_range _ _ Hok)) as (HA & -> & _). apply Z.div_pos; lia. }
  set (a := (core_line_first r + i) * L + j * BS).
  assert (HjB : 0 <= j * BS < L) by nia.
  assert (Hm1 : a mod L = j * BS) by (subst a; rewrite Z.add_comm, Z.mod_add, Z.mod_small; lia).
  assert (Hd1 : a / L = core_line_first r + i) by (subst a; rewrite Z.add_comm, Z.div_add, Z.div_small; lia).
  assert (Hbl : block_of a = j) by (unfold block_of; rewrite Hm1; by rewrite Z.div_mul by lia).
  assert (H0a : 0 <= a) by (subst a; nia).
  assert (Hei : entry_index r a = i) by (unfold entry_index; rewrite Hd1; lia).
  exists a. split; [done|]. split; [|by rewrite Hei, Hbl, Hd1].
  apply in_req_blocks; [done..|]. by rewrite Hei, Hbl.
Qed.

(** ** Changing one line *)

Lemma inv_inj c β m σ ci ci' x : inv c β m σ -> m !! ci = Some x -> m !! ci' = Some x -> ci = ci'.
Proof.
  intros HI H1 H2. apply (proj2 (ci_map _ _ _ _ _ _ _ HI)) in H1 as [_ H1].
  apply (proj2 (ci_map _ _ _ _ _ _ _ HI)) in H2 as [_ H2]. congruence.
Qed.

Lemma place_one c c' β m σ ci x st' core a :
  inv c β m σ -> m !! ci = Some x -> statuses c' = <[x := st']> (statuses c) ->
  place c' m core a = if decide (byte_line core a = ci) then in_line st' x a else place c m core a.
Proof.
  intros HI Hx Es. unfold place. rewrite Es. case_decide as E.
  - rewrite E, Hx. cbn. by rewrite lookup_insert_eq.
  - destruct (m !! byte_line core a) as [y|] eqn:Hy; [|done]. cbn.
    rewrite lookup_insert_ne; [done|]. intros <-. apply E. by eapply inv_inj.
Qed.

(** Dropping a line without valid blocks. *)
Lemma place_drop c m ci x core a : m !! ci = Some x -> (forall st, statuses c !! x = Some st -> valid st = 0) ->
  place c (delete ci m) core a = place c m core a.
Proof.
  intros Hx Hv. unfold place. destruct (decide (byte_line core a = ci)) as [->|Hne].
  - rewrite lookup_delete_eq, Hx. cbn. destruct (statuses c !! x) as [st|] eqn:Es; [|done]. cbn.
    unfold in_line. by rewrite (Hv _ eq_refl), Z.bits_0.
  - by rewrite lookup_delete_ne.
Qed.

(** ** The range updates of a request *)

Definition entry_info c (i : nat) : option ocf_map_info := me_info <$> req_map (request c) !! i.

Lemma same_request_fields r r' : same_request r r' ->
  req_core r' = req_core r /\ req_part r' = req_part r /\ addr r' = addr r /\ bytes r' = bytes r /\
  core_line_first r' = core_line_first r /\ core_line_last r' = core_line_last r /\ core_line_count r' = core_line_count r /\
  length (req_map r') = length (req_map r).
Proof.
  intros [H1 H2]. destruct r, r'. injection H1 as -> -> -> -> -> -> ->. split_and!; try done.
  cbn in *. symmetry. exact (Forall2_length _ _ _ H2).
Qed.

Lemma same_request_blocks r r' i : same_request r r' -> start r' i = start r i /\ stop r' i = stop r i.
Proof.
  intros H. destruct (same_request_fields _ _ H) as (_ & _ & Ea & Eb & _ & _ & Ec & _).
  unfold ocf_map_line_start_block, ocf_map_line_end_block. by rewrite Ea, Eb, Ec.
Qed.

(** Entry [i] stands for the core line of its place, in cache line [me_coll_idx e]. *)
Definition entry_maps m r (i : Z) (e : map_entry) : Prop :=
  m !! CoreInfo (req_core r) (core_line_first r + i) = Some (me_coll_idx e).

(** All entries are mapped. *)
Definition all_mapped c m : Prop :=
  forall i e, req_map (request c) !! i = Some e -> me_status e <> LOOKUP_MISS /\ entry_maps m (request c) (Z.of_nat i) e.

Lemma all_mapped_same c c' m : same_request (request c) (request c') -> all_mapped c m -> all_mapped c' m.
Proof.
  intros Hs Ha i e' He'. destruct (same_request_fields _ _ Hs) as (Ec & _ & _ & _ & Ef & _ & _ & El).
  destruct (lookup_lt_is_Some_2 (req_map (request c)) i) as [e He]; [rewrite <- El; by eapply lookup_lt_Some|].
  destruct (same_request_entry _ _ _ _ Hs He) as (e2 & He2 & [Ei _ _]). assert (e2 = e') as -> by congruence.
  destruct (Ha i e He) as [H1 H2]. unfold entry_maps, me_status, me_coll_idx in *. by rewrite Ei, Ec, Ef.
Qed.

Definition entry_at (i : Z) r (core a : Z) : Prop := in_req r core a /\ entry_index r a = i.

Lemma wp_start_block c i (Q : Z -> cache C -> Prop) :
  Q (start (request c) i) c -> wp (start_block (block_4k g) (line_size g) i) Q c.
Proof. done. Qed.
Lemma wp_end_block c i (Q : Z -> cache C -> Prop) :
  Q (stop (request c) i) c -> wp (end_block_of (block_4k g) (line_size g) i) Q c.
Proof. done. Qed.

Lemma for_each_line_wp (body : Z -> LM (C:=C) unit) (I : nat -> cache C -> Prop) n c :
  core_line_count (request c) = Z.of_nat n -> I 0%nat c ->
  (forall k c1, (k < n)%nat -> I k c1 -> wp (body (Z.of_nat k)) (fun _ => I (S k)) c1) ->
  wp (for_each_line body) (fun _ => I n) c.
Proof.
  intros Hn H0 Hb. apply wp_bind, wp_gets. rewrite Hn, Nat2Z.id. eapply wp_mono.
  - apply (wp_for _ _ (fun l => I (length l))); [done|]. intros pre i post s El Hs.
    assert (Hi : i = Z.of_nat (length pre) /\ (length pre < n)%nat).
    { assert (Hlk : (Z.of_nat <$> seq 0 n) !! length pre = Some i) by (rewrite El; by rewrite list_lookup_middle).
      rewrite list_lookup_fmap in Hlk. apply fmap_Some in Hlk as (k & Hk & ->).
      apply lookup_seq in Hk as [-> Hk]. done. }
    destruct Hi as [-> Hi]. rewrite length_app, Nat.add_1_r. by apply Hb.
  - intros [] s. cbn. by rewrite length_fmap, length_seq.
Qed.

Section RangeUpdate.
Context (c : cache C) (β : bucket_map) (m : gmap core_info Z) (T : Z -> option (Z * bool) -> option (Z * bool)).
Abbreviation r := (request c).
Context (body : Z -> LM (C:=C) unit).
(** What else the body keeps. *)
Context (K : cache C -> cache C -> Prop) (Kr : Reflexive K) (Kt : Transitive K).
(** The body changes the blocks of its entry by [T]. *)
Context (Hbody : forall (i : nat) e c1 σ1 st,
  req_map r !! i = Some e -> entry_maps m r (Z.of_nat i) e ->
  inv c1 β m σ1 -> frame c c1 -> mapping_of c1 = mapping_of c ->
  statuses c1 !! me_coll_idx e = Some st -> statuses c !! me_coll_idx e = Some st ->
  wp (body (Z.of_nat i)) (fun _ c2 => exists σ2 st', inv c2 β m σ2 /\ only_line c1 c2 (me_coll_idx e) st' /\ K c1 c2 /\
    forall a, in_line st' (me_coll_idx e) a =
      if decide (start r (Z.of_nat i) <= block_of a <= stop r (Z.of_nat i))
      then T (byte_addr (me_coll_idx e) a) (in_line st (me_coll_idx e) a) else in_line st (me_coll_idx e) a) c1).

(** The byte of the cache volume for a byte of a mapped line. *)
Definition pos core a : Z := byte_addr (default 0 (m !! byte_line core a)) a.

Definition updated_to (k : nat) c1 : Prop :=
  (exists σ1, inv c1 β m σ1) /\ (frame c c1 /\ K c c1) /\ mapping_of c1 = mapping_of c /\
  (forall core a, 0 <= a -> place c1 m core a =
     if decide (in_req r core a /\ entry_index r a < Z.of_nat k) then T (pos core a) (place c m core a)
     else place c m core a) /\
  (forall (j : nat) e, (k <= j)%nat -> req_map r !! j = Some e ->
     statuses c1 !! me_coll_idx e = statuses c !! me_coll_idx e).

Lemma range_step (k : nat) c1 :
  request_ok r -> aligned r -> all_mapped c m -> (k < length (req_map r))%nat ->
  updated_to k c1 -> wp (body (Z.of_nat k)) (fun _ => updated_to (S k)) c1.
Proof.
  intros Hok Hal Hall Hk ((σ1 & HI) & [Hf HK] & Em & Hpl & Hrest).
  destruct (lookup_lt_is_Some_2 _ _ Hk) as [e He]. destruct (Hall k e He) as [Hst Hmap].
  destruct (ci_home _ _ _ _ _ _ _ HI (me_coll_idx e)) as (st & n & Hhome).
  { apply (proj2 (ci_map _ _ _ _ _ _ _ HI) (CoreInfo (req_core r) (core_line_first r + Z.of_nat k))) in Hmap as [? _]. done. }
  pose proof (lh_status _ _ _ _ _ _ _ Hhome) as Hs1. pose proof Hs1 as Hs. rewrite (Hrest k e) in Hs by done.
  eapply wp_mono; [by eapply Hbody|]. intros [] c2 (σ2 & st' & HI2 & [Es Em2 El Eq Hrdy] & HK2 & Hline).
  split; [by exists σ2|]. split; [split; [eapply frame_trans; [exact Hf|done]|by transitivity c1]|]. split; [congruence|].
  set (ci := CoreInfo (req_core r) (core_line_first r + Z.of_nat k)) in *.
  assert (Hci : m !! ci = Some (me_coll_idx e)) by exact Hmap.
  assert (Hinj : forall j e', req_map r !! j = Some e' -> me_coll_idx e' = me_coll_idx e -> j = k).
  { intros j e' He' Ee. destruct (Hall j e' He') as [_ Hj]. unfold entry_maps in Hj. rewrite Ee in Hj.
    pose proof (inv_inj _ _ _ _ _ _ _ HI Hj Hmap) as E. injection E as E. lia. }
  split.
  - intros core a Ha. rewrite (place_one c1 c2 β m σ1 ci _ st' core a HI Hmap Es). specialize (Hpl core a Ha).
    destruct (decide (byte_line core a = ci)) as [Eci|Eci].
    + unfold byte_line, ci in Eci. injection Eci as -> Ea. assert (Ei : entry_index r a = Z.of_nat k) by (unfold entry_index; lia).
      assert (Epl : place c1 m (req_core r) a = in_line st (me_coll_idx e) a).
      { unfold place, byte_line. rewrite Ea. fold ci. rewrite Hci. cbn. by rewrite Hs1. }
      rewrite decide_False in Hpl by lia. rewrite Hline, <- Epl, Hpl.
      assert (Epos : pos (req_core r) a = byte_addr (me_coll_idx e) a).
      { unfold pos, byte_line. rewrite Ea. fold ci. by rewrite Hci. }
      rewrite Epos. apply decide_ext. rewrite in_req_blocks by done. rewrite Ei.
      pose proof (ro_map _ _ Hok). naive_solver lia.
    + rewrite Hpl. apply decide_ext. split; [naive_solver lia|]. intros [Hin Hlt]. split; [done|].
      destruct (decide (entry_index r a = Z.of_nat k)) as [Ei|]; [|lia]. exfalso. apply Eci.
      destruct Hin as [-> _]. unfold byte_line, ci. f_equal. unfold entry_index in Ei. lia.
  - intros j e' Hj He'. rewrite Es, lookup_insert_ne; [apply (Hrest j e'); [lia|done]|].
    intros E. assert (j = k) by (by apply (Hinj j e')). lia.
Qed.

Lemma range_update_wp σ :
  inv c β m σ -> request_ok r -> aligned r -> all_mapped c m ->
  wp (for_each_line body) (fun _ c' => exists σ', inv c' β m σ' /\ frame c c' /\ K c c' /\ mapping_of c' = mapping_of c /\
    forall core a, 0 <= a -> place c' m core a =
      if decide (in_req r core a) then T (pos core a) (place c m core a) else place c m core a) c.
Proof.
  intros HI Hok Hal Hall. pose proof (ro_map _ _ Hok) as Hlen.
  eapply wp_mono.
  - apply (for_each_line_wp body updated_to (length (req_map r)) c); [done| |].
    + split; [by exists σ|]. split; [split; [apply frame_refl|done]|]. split; [done|]. split; [|done].
      intros core a Ha. rewrite decide_False; [done|]. rewrite in_req_blocks by done. lia.
    + intros k c1 Hk Hu. by apply range_step.
  - intros [] c' ((σ' & HI') & [Hf HK] & Em & Hpl & _). exists σ'. do 4 (split; [done|]).
    intros core a Ha. rewrite Hpl by done. apply decide_ext. rewrite in_req_blocks by done.
    rewrite Hlen. naive_solver lia.
Qed.
End RangeUpdate.

(** *** Valid, dirty and clean *)

Definition make_valid (p : Z) (o : option (Z * bool)) : option (Z * bool) := Some (default (p, false) o).
Definition make_dirty (p : Z) (o : option (Z * bool)) : option (Z * bool) := (fun q => (q.1, true)) <$> o.
Definition make_clean (p : Z) (o : option (Z * bool)) : option (Z * bool) := (fun q => (q.1, false)) <$> o.

Lemma decide_in_range lo hi j {A} (x y : A) : (if decide (lo <= j <= hi) then x else y) = if in_range lo hi j then x else y.
Proof. unfold in_range. case_decide; [by rewrite bool_decide_eq_true_2|by rewrite bool_decide_eq_false_2]. Qed.

Lemma in_line_valid st x lo hi v' a :
  dirty_within_valid st -> added lo hi (valid st) v' ->
  in_line (MapStatus v' (dirty st)) x a =
    if decide (lo <= block_of a <= hi) then make_valid (byte_addr x a) (in_line st x a) else in_line st x a.
Proof.
  intros Hdv Ha. pose proof (block_of_bounds a) as Hb. specialize (Hdv (block_of a) ltac:(lia)).
  rewrite decide_in_range. unfold in_line, make_valid. cbn. rewrite (Ha (block_of a)) by lia.
  destruct (in_range _ _ _); [|by rewrite orb_false_r]. rewrite orb_true_r.
  destruct (Z.testbit (valid st) _) eqn:Ev; [done|]. cbn.
  destruct (Z.testbit (dirty st) _); [|done]. by specialize (Hdv eq_refl).
Qed.

Lemma in_line_dirty st x lo hi d' a :
  added lo hi (dirty st) d' ->
  in_line (MapStatus (valid st) d') x a =
    if decide (lo <= block_of a <= hi) then make_dirty (byte_addr x a) (in_line st x a) else in_line st x a.
Proof.
  intros Ha. pose proof (block_of_bounds a) as Hb. rewrite decide_in_range. unfold in_line, make_dirty. cbn.
  rewrite (Ha (block_of a)) by lia. destruct (in_range _ _ _); [|by rewrite orb_false_r].
  rewrite orb_true_r. by destruct (Z.testbit (valid st) _).
Qed.

Lemma in_line_clean st x lo hi d' a :
  removed lo hi (dirty st) d' ->
  in_line (MapStatus (valid st) d') x a =
    if decide (lo <= block_of a <= hi) then make_clean (byte_addr x a) (in_line st x a) else in_line st x a.
Proof.
  intros Ha. pose proof (block_of_bounds a) as Hb. rewrite decide_in_range. unfold in_line, make_clean. cbn.
  rewrite (Ha (block_of a)) by lia. destruct (in_range _ _ _); [|by rewrite andb_true_r].
  rewrite andb_false_r. by destruct (Z.testbit (valid st) _).
Qed.

Definition same_cache c β m c' (P : Z -> Z -> option (Z * bool)) : Prop :=
  (exists σ', inv c' β m σ') /\ frame c c' /\ mapping_of c' = mapping_of c /\
  forall core a, 0 <= a -> place c' m core a = P core a.

(** The bytes of the request changed by [T]. *)
Definition in_request c m (T : Z -> option (Z * bool) -> option (Z * bool)) core a : option (Z * bool) :=
  if decide (in_req (request c) core a) then T (pos m core a) (place c m core a) else place c m core a.

Lemma entry_line_in c c1 m (i : nat) e :
  frame c c1 -> req_map (request c) !! i = Some e -> entry_maps m (request c) (Z.of_nat i) e ->
  entry_line c1 m (Z.of_nat i) (me_coll_idx e) (CoreInfo (req_core (request c)) (core_line_first (request c) + Z.of_nat i)).
Proof.
  intros (_ & Hs & _) He Hm. split; [lia|]. split; [done|].
  destruct (same_request_fields _ _ Hs) as (Ec & _). split; [done|].
  destruct (same_request_entry _ _ _ _ Hs He) as (e' & He' & [Ei _ _]). exists e'. rewrite Nat2Z.id.
  split; [done|]. unfold me_coll_idx. by rewrite Ei.
Qed.

Lemma entry_range c (i : nat) e : request_ok (request c) -> req_map (request c) !! i = Some e ->
  block_range (block_4k g) (line_size g) (start (request c) (Z.of_nat i)) (stop (request c) (Z.of_nat i)).
Proof.
  intros Hok He. destruct (request_ok_lines (block_4k g) _ _ Hok) as (_ & _ & Hr). apply Hr.
  pose proof (ro_map _ _ Hok). apply lookup_lt_Some in He. lia.
Qed.

Lemma set_valid_all_wp c β m σ :
  inv c β m σ -> request_ok (request c) -> aligned (request c) -> all_mapped c m ->
  wp (ocf_set_valid_map_info (block_4k g) (line_size g)) (fun _ c' =>
    same_cache c β m c' (in_request c m make_valid) /\ request c' = request c) c.
Proof.
  intros HI Hok Hal Hall.
  eapply wp_mono; [eapply (range_update_wp c β m make_valid _ (fun c1 c2 => request c2 = request c1)); try done|].
  { intros c1 c2 c3 E1 E2. by rewrite E2. }
  2:{ intros [] c' (σ' & ? & ? & ? & ? & Hp). split; [|done]. split; [by exists σ'|]. split_and!; try done. }
  intros i e c1 σ1 st He Hm HI1 Hf Em Hs1 _. pose proof Hf as (_ & Hsr & _).
  destruct (same_request_entry _ _ _ _ Hsr He) as (e1 & He1 & [Ei _ _]).
  apply wp_bind. eapply wp_entry; [lia|by rewrite Nat2Z.id|].
  apply wp_bind, wp_bug_on. { apply bool_decide_eq_false_2. unfold me_status. rewrite Ei. by apply (Hall i e He). }
  apply wp_bind, wp_start_block, wp_bind, wp_end_block.
  destruct (same_request_blocks _ _ (Z.of_nat i) Hsr) as [-> ->].
  eapply wp_mono; [eapply (set_valid_wp _ _ _ c1 β m σ1); try done; [by eapply entry_line_in|by eapply entry_range]|].
  intros [] c2 (HI2 & Eq & Em2 & El2 & Elk & Eco & v' & Es & Ha).
  exists σ1, (MapStatus v' (dirty st)). split; [done|]. split.
  - split; [done|done|done|by rewrite Eq|by apply ready_kept_lru; rewrite ?El2].
  - split; [done|]. intros a. apply in_line_valid; [|done]. by apply (ci_bits _ _ _ _ _ _ _ HI1 _ _ Hs1).
Qed.

Lemma set_clean_all_wp c β m σ :
  raw g <> raw_dynamic -> inv c β m σ -> request_ok (request c) -> aligned (request c) -> all_mapped c m ->
  wp (ocf_set_clean_map_info (block_4k g) (line_size g) (raw g)) (fun _ c' =>
    same_cache c β m c' (in_request c m make_clean)) c.
Proof.
  intros Hraw HI Hok Hal Hall. eapply wp_mono; [eapply (range_update_wp c β m make_clean _ (fun _ _ => True)); try done|].
  2:{ intros [] c' (σ' & ? & ? & _ & ? & Hp). split; [by exists σ'|]. split_and!; try done. }
  intros i e c1 σ1 st He Hm HI1 Hf Em Hs1 _. pose proof Hf as (_ & Hsr & _).
  apply wp_bind, wp_start_block, wp_bind, wp_end_block.
  destruct (same_request_blocks _ _ (Z.of_nat i) Hsr) as [-> ->].
  eapply wp_mono; [eapply (set_clean_wp _ _ (raw g) _ c1 β m σ1); try done; [by eapply entry_line_in|by eapply entry_range]|].
  intros [] c2 (σ2 & d' & HI2 & Hol & Hr). exists σ2, (MapStatus (valid st) d').
  split; [done|]. split; [done|]. split; [done|]. intros a. by apply in_line_clean.
Qed.

(** The bytes that become dirty have to be valid. *)
Lemma set_dirty_all_wp now c β m σ :
  raw g <> raw_dynamic -> inv c β m σ -> request_ok (request c) -> aligned (request c) -> all_mapped c m ->
  (forall core a, 0 <= a -> in_req (request c) core a -> is_Some (place c m core a)) ->
  wp (ocf_set_dirty_map_info (block_4k g) (line_size g) (raw g) now) (fun _ c' =>
    same_cache c β m c' (in_request c m make_dirty)) c.
Proof.
  intros Hraw HI Hok Hal Hall Hval. eapply wp_mono; [eapply (range_update_wp c β m make_dirty _ (fun _ _ => True)); try done|].
  2:{ intros [] c' (σ' & ? & ? & _ & ? & Hp). split; [by exists σ'|]. split_and!; try done. }
  intros i e c1 σ1 st He Hm HI1 Hf Em Hs1 Hs. pose proof Hf as (_ & Hsr & _).
  apply wp_bind, wp_start_block, wp_bind, wp_end_block.
  destruct (same_request_blocks _ _ (Z.of_nat i) Hsr) as [-> ->].
  pose proof (entry_range c i e Hok He) as Hrange.
  eapply wp_mono; [eapply (set_dirty_wp _ _ (raw g) _ now c1 β m σ1); try done; [by eapply entry_line_in|]|].
  - intros j Hj. pose proof (lookup_lt_Some _ _ _ He) as Hlt. pose proof (ro_map _ _ Hok) as Hlen.
    destruct (block_byte (request c) (Z.of_nat i) j Hok Hal ltac:(lia) Hj) as (a & H0a & Hin & _ & Hbl & Hd1).
    destruct (Hval (req_core (request c)) a H0a Hin) as [q Hq].
    unfold place, byte_line in Hq. rewrite Hd1 in Hq. unfold entry_maps in Hm. rewrite Hm in Hq. cbn in Hq.
    rewrite Hs in Hq. cbn in Hq. unfold in_line in Hq. rewrite Hbl in Hq. by destruct (Z.testbit (valid st) j).
  - intros [] c2 (σ2 & d' & HI2 & Hol & Hr). exists σ2, (MapStatus (valid st) d').
    split; [done|]. split; [done|]. split; [done|]. intros a. by apply in_line_dirty.
Qed.

(** *** Purging *)

(** Every mapped line of [P] has a valid block. *)
Definition live c m (P : core_info -> Prop) : Prop :=
  forall ci x st, m !! ci = Some x -> P ci -> statuses c !! x = Some st -> valid st <> 0.
Definition req_line r (ci : core_info) : Prop :=
  core_id ci = req_core r /\ 0 <= core_line ci - core_line_first r < core_line_count r.

Definition no_waiters c : Prop := forall x, waits (waiter_hash g) c x = false.

Lemma frame_waiters c c' : frame c c' -> no_waiters c -> no_waiters c'.
Proof. intros (El & _) Hw x. unfold waits. rewrite El. apply Hw. Qed.

(** The entries say which core lines are mapped. *)
Definition entries_map c m : Prop := forall (i : nat) e, req_map (request c) !! i = Some e ->
  if decide (me_status e = LOOKUP_MISS)
  then m !! CoreInfo (req_core (request c)) (core_line_first (request c) + Z.of_nat i) = None
  else entry_maps m (request c) (Z.of_nat i) e.

Lemma entries_map_found c m (i : nat) e : entries_map c m -> req_map (request c) !! i = Some e ->
  me_status e <> LOOKUP_MISS -> entry_maps m (request c) (Z.of_nat i) e.
Proof. intros H He Hs. specialize (H i e He). by rewrite decide_False in H. Qed.

Lemma in_line_purged st x lo hi v' d' a :
  removed lo hi (valid st) v' -> removed lo hi (dirty st) d' ->
  in_line (MapStatus v' d') x a = if decide (lo <= block_of a <= hi) then None else in_line st x a.
Proof.
  intros Hv Hd. pose proof (block_of_bounds a) as Hb. rewrite decide_in_range. unfold in_line. cbn.
  rewrite (Hv (block_of a)), (Hd (block_of a)) by lia. destruct (in_range _ _ _); [by rewrite andb_false_r|].
  by rewrite !andb_true_r.
Qed.

Definition purged_to c m (k : nat) c1 : Prop := exists β1 m1 σ1,
  inv c1 β1 m1 σ1 /\ frame c c1 /\ m1 ⊆ m /\
  (forall core a, 0 <= a -> place c1 m1 core a =
     if decide (in_req (request c) core a /\ entry_index (request c) a < Z.of_nat k) then None else place c m core a) /\
  (forall ci x, m !! ci = Some x ->
     (req_line (request c) ci -> Z.of_nat k <= core_line ci - core_line_first (request c)) ->
     m1 !! ci = Some x /\ statuses c1 !! x = statuses c !! x) /\
  live c1 m1 (fun ci => req_line (request c) ci /\ core_line ci - core_line_first (request c) < Z.of_nat k).

Lemma purge_step c m (k : nat) c1 :
  raw g <> raw_dynamic -> request_ok (request c) -> aligned (request c) -> no_waiters c -> entries_map c m ->
  (k < length (req_map (request c)))%nat -> purged_to c m k c1 ->
  wp (e ← map_entry_of (Z.of_nat k);
      if decide (me_status e = LOOKUP_MISS) then mret tt
      else
        start_bit ← start_block (block_4k g) (line_size g) (Z.of_nat k);
        end_bit ← end_block_of (block_4k g) (line_size g) (Z.of_nat k);
        ocf_purge_cache_line_sec (block_4k g) (line_size g) (raw g) (num_entries g) (waiter_hash g) start_bit end_bit
          (Z.of_nat k)) (fun _ => purged_to c m (S k)) c1.
Proof.
  intros Hraw Hok Hal Hnw Hem Hk (β1 & m1 & σ1 & HI & Hf & Hsub & Hpl & Hrest & Hlive).
  destruct (lookup_lt_is_Some_2 _ _ Hk) as [e He]. pose proof Hf as (_ & Hsr & _).
  destruct (same_request_entry _ _ _ _ Hsr He) as (e1 & He1 & [Ei _ _]).
  set (ci := CoreInfo (req_core (request c)) (core_line_first (request c) + Z.of_nat k)).
  pose proof (ro_map _ _ Hok) as Hlen.
  assert (Hrl : forall ci', req_line (request c) ci' -> core_line ci' - core_line_first (request c) = Z.of_nat k -> ci' = ci).
  { intros [i l] [H1 H2] H3. cbn in *. unfold ci. f_equal; [done|lia]. }
  assert (Hnext : forall core a, 0 <= a -> byte_line core a <> ci ->
    (in_req (request c) core a /\ entry_index (request c) a < Z.of_nat k) <-> (in_req (request c) core a /\ entry_index (request c) a < Z.of_nat (S k))).
  { intros core a Ha Hne. split; [naive_solver lia|]. intros [Hin Hlt]. split; [done|].
    destruct (decide (entry_index (request c) a = Z.of_nat k)) as [Eix|]; [|lia]. exfalso. apply Hne.
    destruct Hin as [-> _]. unfold byte_line, ci. f_equal. unfold entry_index in Eix. lia. }
  apply wp_bind. eapply wp_entry; [lia|by rewrite Nat2Z.id|].
  assert (Est : me_status e1 = me_status e) by (unfold me_status; by rewrite Ei).
  specialize (Hem k e He). rewrite Est. fold ci in Hem. case_decide as Hst.
  - apply wp_ret. exists β1, m1, σ1. split; [done|]. split; [done|]. split; [done|]. split; [|split].
    + intros core a Ha. rewrite Hpl by done. destruct (decide (byte_line core a = ci)) as [E|E].
      * assert (Hn : place c m core a = None) by (unfold place; by rewrite E, Hem).
        rewrite Hn. by repeat case_decide.
      * apply decide_ext. by apply Hnext.
    + intros ci' x Hx Hr. apply Hrest; [done|]. intros Hl. specialize (Hr Hl). lia.
    + intros ci' x st Hx [Hl Hlt]. apply (Hlive ci' x st Hx). split; [done|]. destruct (decide (core_line ci' - core_line_first (request c) = Z.of_nat k)) as [Ek|]; [|lia].
      rewrite (Hrl _ Hl Ek) in Hx. apply (lookup_weaken _ _ _ _ Hx) in Hsub. congruence.
  - apply wp_bind, wp_start_block, wp_bind, wp_end_block.
    destruct (same_request_blocks _ _ (Z.of_nat k) Hsr) as [-> ->].
    unfold entry_maps in Hem. fold ci in Hem. set (x := me_coll_idx e) in *.
    destruct (Hrest ci x Hem) as [Hx1 Hs1]; [cbn; lia|].
    destruct (ci_home _ _ _ _ _ _ _ HI x) as (st & n & Hhome).
    { apply (proj2 (ci_map _ _ _ _ _ _ _ HI) ci) in Hx1 as [? _]. done. }
    pose proof (lh_status _ _ _ _ _ _ _ Hhome) as Hst1.
    eapply wp_mono.
    { eapply (purge_wp _ _ (raw g) _ _ c1 β1 m1 σ1 _ x ci); try done.
      - eapply (entry_line_in c c1 m1 k e); done.
      - by eapply entry_range. }
    intros [] c2 (σ2 & v' & d' & Es & Hv & Hd & Hf2 & Hdrop).
    assert (Hw : waits (waiter_hash g) c1 x = false) by (by apply (frame_waiters c c1 Hf Hnw)).
    assert (Hp2 : forall core a, 0 <= a -> place c2 m1 core a =
      if decide (in_req (request c) core a /\ entry_index (request c) a < Z.of_nat (S k)) then None else place c m core a).
    { intros core a Ha. rewrite (place_one c1 c2 β1 m1 σ1 ci x _ core a HI Hx1 Es).
      destruct (decide (byte_line core a = ci)) as [E|E]; [|rewrite Hpl by done; apply decide_ext; by apply Hnext].
      rewrite (in_line_purged st x _ _ v' d' a Hv Hd).
      assert (Epl : in_line st x a = place c m core a).
      { unfold place. rewrite E, Hem. cbn. by rewrite <- Hs1, Hst1. }
      rewrite Epl. unfold byte_line, ci in E. injection E as -> Ea.
      assert (Eix : entry_index (request c) a = Z.of_nat k) by (unfold entry_index; lia).
      apply decide_ext. rewrite in_req_blocks by done. rewrite Eix. naive_solver lia. }
    assert (Hoth : forall ci' y, m !! ci' = Some y -> ci' <> ci ->
      (req_line (request c) ci' -> Z.of_nat (S k) <= core_line ci' - core_line_first (request c)) ->
      m1 !! ci' = Some y /\ statuses c2 !! y = statuses c !! y).
    { intros ci' y Hy Hne Hr. destruct (Hrest ci' y Hy) as [Hy1 Hsy]; [intros Hl; specialize (Hr Hl); lia|].
      split; [done|]. rewrite Es, lookup_insert_ne; [done|]. intros <-. apply Hne. by eapply inv_inj. }
    assert (Hlive2 : forall ci' y st', m1 !! ci' = Some y -> ci' <> ci -> req_line (request c) ci' ->
      core_line ci' - core_line_first (request c) < Z.of_nat (S k) -> statuses c2 !! y = Some st' -> valid st' <> 0).
    { intros ci' y st' Hy Hne Hl Hlt. rewrite Es, lookup_insert_ne; [|intros <-; apply Hne; by eapply inv_inj].
      apply (Hlive ci' y st' Hy). split; [done|].
      destruct (decide (core_line ci' - core_line_first (request c) = Z.of_nat k)) as [Ek|]; [|lia]. by destruct (Hne (Hrl _ Hl Ek)). }
    assert (Hlt_ci : core_line ci - core_line_first (request c) < Z.of_nat (S k)) by (cbn; lia).
    unfold dropped_or_kept in Hdrop. case_decide as Hkeep.
    + destruct Hdrop as [HI2 Em2]. destruct Hkeep as [Hv0|?]; [|congruence].
      exists β1, m1, σ2. split; [done|]. split; [by eapply frame_trans|]. split; [done|]. split; [done|]. split.
      * intros ci' y Hy Hr. apply Hoth; [done| |done]. intros ->. assert (req_line (request c) ci) as Hl by (split; cbn; [done|lia]).
        specialize (Hr Hl). cbn in Hr. lia.
      * intros ci' y st' Hy [Hl Hlt] Hs'.
        destruct (decide (ci' = ci)) as [->|Hne]; [|by eapply Hlive2].
        assert (y = x) as -> by congruence. rewrite Es, lookup_insert_eq in Hs'. by injection Hs' as <-.
    + destruct Hdrop as (β' & σ' & HI2 & _).
      assert (Hv0 : v' = 0) by (destruct (decide (v' = 0)); [done|exfalso; apply Hkeep; by left]).
      exists β', (delete ci m1), σ'. split; [done|]. split; [by eapply frame_trans|].
      split; [etrans; [apply delete_subseteq|done]|]. split; [|split].
      * intros core a Ha. rewrite (place_drop c2 m1 ci x); [by apply Hp2|done|].
        intros s. rewrite Es, lookup_insert_eq. by intros [= <-].
      * intros ci' y Hy Hr. assert (ci' <> ci).
        { intros ->. assert (req_line (request c) ci) as Hl by (split; cbn; [done|lia]). specialize (Hr Hl). cbn in Hr. lia. }
        rewrite lookup_delete_ne by done. by apply Hoth.
      * intros ci' y st' [Hne Hy]%lookup_delete_Some [Hl Hlt] Hs'. by eapply Hlive2.
Qed.

Definition purged c m c' : Prop := exists β' m' σ',
  inv c' β' m' σ' /\ frame c c' /\ m' ⊆ m /\
  (forall core a, 0 <= a -> place c' m' core a = if decide (in_req (request c) core a) then None else place c m core a) /\
  (live c m (fun ci => ~ req_line (request c) ci) -> live c' m' (fun _ => True)).

Lemma purge_all_wp c β m σ :
  raw g <> raw_dynamic -> inv c β m σ -> request_ok (request c) -> aligned (request c) -> no_waiters c -> entries_map c m ->
  wp (ocf_purge_map_info (block_4k g) (line_size g) (raw g) (num_entries g) (waiter_hash g)) (fun _ => purged c m) c.
Proof.
  intros Hraw HI Hok Hal Hnw Hem. pose proof (ro_map _ _ Hok) as Hlen. eapply wp_mono.
  - apply (for_each_line_wp _ (purged_to c m) (length (req_map (request c)))); [done| |].
    + exists β, m, σ. split; [done|]. split; [apply frame_refl|]. split; [done|]. split; [|split].
      * intros core a Ha. rewrite decide_False; [done|]. rewrite in_req_blocks by done. lia.
      * done.
      * intros ci x st _ [[_ H1] H2]. lia.
    + intros k c1 Hk Hp. by eapply purge_step.
  - intros [] c' (β1 & m1 & σ1 & HI1 & Hf & Hsub & Hpl & Hrest & Hlive). exists β1, m1, σ1.
    split; [done|]. split; [done|]. split; [done|]. split.
    + intros core a Ha. rewrite Hpl by done. apply decide_ext. rewrite in_req_blocks by done. naive_solver lia.
    + intros Hl ci x st Hx _ Hs.
      destruct (decide (core_id ci = req_core (request c) /\
        0 <= core_line ci - core_line_first (request c) < core_line_count (request c))) as [Hr|Hr].
      * apply (Hlive ci x st Hx); [|done]. split; [exact Hr|]. destruct Hr as [_ Hr]. lia.
      * pose proof (lookup_weaken _ _ _ _ Hx Hsub) as Hxm.
        destruct (Hrest ci x Hxm) as [_ Es]; [intros Hrl; by destruct Hr|].
        apply (Hl ci x st Hxm Hr). by rewrite <- Es.
Qed.

(** ** Operations that leave the bytes alone *)

Lemma place_same c c' m core a : statuses c' = statuses c -> place c' m core a = place c m core a.
Proof. intros E. unfold place. by rewrite E. Qed.

Lemma live_same c c' m P : statuses c' = statuses c -> live c m P -> live c' m P.
Proof. intros E H ci x st. rewrite E. apply H. Qed.
End Content.
