(* ===== verification/EngineSpec.v ===== *)
(** * What the engines are to keep: the bytes that a reader gets

    [content] is the byte that a reader of a core is to get; [coherent] says
    that a byte in the cache that is not dirty is on the core as well.  I/O on
    the lines of a request reads and writes the bytes of the request.  [looked]
    is what the engines may assume of the entries and the counters of a request
    between its lookup and its end. *)

From S2P Require Import Prelude Alock AlockProofs CacheLineLock Links Lru LruProofs Generator LruPart LruPartProofs.
From S2P Require Import Collision CollisionProofs Status StatusProofs Request RequestProofs.
From S2P Require Import CacheLine CacheLineProofs CacheLineSteps Engine EngineProofs EngineCheck PartMove EngineIo EngineIoProofs EngineBase Content.
Import EngineIo EngineIoProofs.

Section EngineSpec.
Context {C V : Type} `{!CleaningPolicy C} (g : config) (data_offset : Z).
Abbreviation L := (line_bytes (line_size g)).
Abbreviation inv := (cache_inv (C:=C) (block_4k g) (line_size g) (num_entries g)).
Abbreviation request_ok := (request_ok (line_size g)).
Abbreviation place := (place (C:=C) g).
Abbreviation pos := (Content.pos g).
Abbreviation byte_line := (byte_line g).
Abbreviation aligned := (aligned g).
Abbreviation start := (ocf_map_line_start_block (block_4k g) (line_size g)).
Abbreviation stop := (ocf_map_line_end_block (block_4k g) (line_size g)).
Implicit Types (c : cache C) (v : volumes V) (m : gmap core_info Z) (r : ocf_request).

(** ** Content and coherence *)

Definition content c v m (core a : Z) : V :=
  match place c m core a with
  | Some (p, _) => cache_dev v p
  | None => core_dev v core a
  end.

Definition coherent c v m (core a : Z) : Prop :=
  forall p, place c m core a = Some (p, false) -> cache_dev v p = core_dev v core a.

Lemma place_pos c m core a p d :
  place c m core a = Some (p, d) -> p = pos m core a /\ is_Some (m !! byte_line core a).
Proof.
  unfold Content.place, Content.pos. destruct (m !! byte_line core a) as [x|]; [|done]. cbn.
  destruct (statuses c !! x) as [st|]; [|done]. cbn. unfold in_line.
  destruct (Z.testbit _ _); [|done]. intros [= <- _]. by split; [|eexists].
Qed.

Lemma L_pos : 0 < L.
Proof. pose proof (L_bounds g). lia. Qed.

Lemma pos_inj c β m σ core a core' a' :
  inv c β m σ -> is_Some (m !! byte_line core a) -> is_Some (m !! byte_line core' a') ->
  pos m core a = pos m core' a' -> core = core' /\ a = a'.
Proof.
  intros HI [x Hx] [x' Hx']. unfold Content.pos, byte_addr. rewrite Hx, Hx'. cbn. intros E.
  pose proof L_pos as HL. pose proof (Z.mod_pos_bound a L HL). pose proof (Z.mod_pos_bound a' L HL).
  assert (x = x') as <- by nia.
  pose proof (inv_inj g c β m σ _ _ x HI Hx Hx') as Eb. injection Eb as -> Ed. split; [done|].
  rewrite (Z.div_mod a L), (Z.div_mod a' L) by lia. lia.
Qed.

(** Two states with the same places, and the same values there, agree. *)
Lemma content_ext c c' v v' m m' core a :
  place c' m' core a = place c m core a ->
  (forall p d, place c m core a = Some (p, d) -> cache_dev v' p = cache_dev v p) ->
  core_dev v' core a = core_dev v core a ->
  content c' v' m' core a = content c v m core a /\ (coherent c v m core a -> coherent c' v' m' core a).
Proof.
  intros Ep Hc Hd. unfold content, coherent. rewrite Ep, Hd.
  destruct (place c m core a) as [[p d]|] eqn:E; [|done]. rewrite (Hc p d eq_refl). split; [done|].
  intros H q [= <- ->]. rewrite (Hc p false eq_refl). by apply H.
Qed.

(** A byte that is not dirty may leave the cache. *)
Lemma content_drop c c' v m m' core a :
  (place c' m' core a = place c m core a \/
   place c' m' core a = None /\ forall p, place c m core a <> Some (p, true)) ->
  coherent c v m core a -> content c' v m' core a = content c v m core a /\ coherent c' v m' core a.
Proof.
  unfold content, coherent. intros [->|[-> Hnd]] Hco; [done|]. split; [|done].
  destruct (place c m core a) as [[p []]|] eqn:E; [by destruct (Hnd p)| |done]. symmetry. by apply Hco.
Qed.

(** ** Requests and the configuration *)

(** The fields of a request that never change. *)
Definition geometry r : ocf_request := with_map [] (with_req_info zero_info r).

Record config_ok : Prop := {
  cf_volume : 0 <= metadata_offset g /\ metadata_offset g + (num_entries g + 1) * L < 2 ^ 64;
  cf_raw : raw g <> raw_dynamic;
  cf_fuel : num_entries g < Z.of_nat (walk_fuel g)
}.
Context (Hg : config_ok).

(** The bytes of a request are in a buffer of 64-bit positions. *)
Definition data_ok r : Prop := 0 <= data_offset /\ data_offset + bytes r < 2 ^ 64.

Lemma mapped_line c β m σ ci x : inv c β m σ -> m !! ci = Some x ->
  0 <= x < num_entries g /\ exists st, statuses c !! x = Some st.
Proof.
  intros HI Hx. destruct (facts _ _ _ _ _ _ _ _ _ HI Hx) as (st & n & rt & p & HF).
  pose proof (lh_status _ _ _ _ _ _ _ (lf_home _ _ _ _ _ _ _ _ _ _ HF)) as Hs.
  split; [|by eexists]. apply (ci_line _ _ _ _ _ _ _ HI). by eexists.
Qed.

Lemma request_span r : request_ok r ->
  0 <= addr r /\ 0 < bytes r /\ addr r + bytes r < 2 ^ 64 /\
  core_line_first r = addr r / L /\ core_line_count r = (addr r + bytes r - 1) / L - addr r / L + 1.
Proof.
  intros Hok. destruct (ro_range _ _ Hok) as (H1 & H2 & H3).
  destruct (request_new g r Hok) as (_ & _ & Ef & Ec).
  destruct (req_geometry (block_4k g) (line_size g) (req_core r) (req_part r) _ _ (req_map r) (ro_range _ _ Hok))
    as (HA & EF & EL & EC & _). rewrite Ef, Ec, EC, EF, EL.
  rewrite <- !(bytes_2_lines_block (block_4k g) (line_size g)). unfold ocf_bytes_2_lines. split_and!; try done; lia.
Qed.

(** ** The I/O of a request, byte by byte *)

Abbreviation split c := (splittable (line_size g) (metadata_offset g) data_offset (num_entries g) (request c)).

Lemma splittable_of c β m σ :
  inv c β m σ -> request_ok (request c) -> all_mapped c m -> data_ok (request c) -> split c.
Proof.
  intros HI Hok Hall Hd. destruct (request_span _ Hok) as (_ & _ & _ & _ & Hn). split.
  - apply (ro_range _ _ Hok).
  - by rewrite (ro_map _ _ Hok).
  - apply Forall_lookup. intros i e He. destruct (Hall i e He) as [_ Hm]. by eapply mapped_line.
  - exact (cf_volume Hg).
  - exact Hd.
Qed.

Lemma distinct_lines c β m σ :
  inv c β m σ -> all_mapped c m -> NoDup (me_coll_idx <$> req_map (request c)).
Proof.
  intros HI Hall. apply NoDup_alt. intros i j x Hi Hj. rewrite list_lookup_fmap in Hi, Hj.
  apply fmap_Some in Hi as (e & He & ->). apply fmap_Some in Hj as (e' & He' & Ex).
  destruct (Hall i e He) as [_ Hm]. destruct (Hall j e' He') as [_ Hm']. unfold entry_maps in *. rewrite <- Ex in Hm'.
  pose proof (inv_inj g _ _ _ _ _ _ _ HI Hm Hm') as E. injection E as E. lia.
Qed.

(** The entry of byte [k] of a request. *)
Lemma byte_entry r k : request_ok r -> 0 <= k < bytes r ->
  0 <= entry_index g r (addr r + k) < core_line_count r /\
  entry_index g r (addr r + k) = (addr r mod L + k) / L /\ (addr r mod L + k) mod L = (addr r + k) mod L.
Proof.
  intros Hok Hk. destruct (request_span r Hok) as (H0 & HB & H64 & Ef & En). pose proof L_pos as HL.
  unfold entry_index. rewrite Ef, En.
  assert (E : (addr r + k) / L = addr r / L + (addr r mod L + k) / L).
  { rewrite (Z.div_mod (addr r) L) at 1 by lia.
    replace (L * (addr r / L) + addr r mod L + k) with (addr r mod L + k + addr r / L * L) by lia.
    rewrite Z.div_add by lia. lia. }
  assert (Em : (addr r mod L + k) mod L = (addr r + k) mod L) by (by rewrite Zplus_mod_idemp_l).
  pose proof (Z.div_le_mono (addr r) (addr r + k) L HL ltac:(lia)).
  pose proof (Z.div_le_mono (addr r + k) (addr r + bytes r - 1) L HL ltac:(lia)). split_and!; [lia..|done].
Qed.

Lemma target_pos c β m σ k :
  inv c β m σ -> request_ok (request c) -> all_mapped c m -> data_ok (request c) -> 0 <= k < bytes (request c) ->
  req_target (line_size g) (metadata_offset g) (request c) k = pos m (req_core (request c)) (addr (request c) + k).
Proof.
  intros HI Hok Hall Hd Hk. pose proof (splittable_of _ _ _ _ HI Hok Hall Hd) as Hsp.
  destruct (byte_entry _ k Hok Hk) as (Hi & Ei & Em). unfold req_target. rewrite <- Ei.
  set (i := entry_index g (request c) (addr (request c) + k)) in *.
  destruct (lookup_lt_is_Some_2 (req_map (request c)) (Z.to_nat i)) as [e He]; [pose proof (ro_map _ _ Hok); lia|].
  rewrite He. cbn [default]. destruct (Hall _ _ He) as [_ Hm]. unfold entry_maps in Hm. rewrite Z2Nat.id in Hm by lia.
  unfold Content.pos. unfold Content.byte_line. replace ((addr (request c) + k) / L) with (core_line_first (request c) + i)
    by (subst i; unfold entry_index; lia). rewrite Hm. cbn [default id]. unfold byte_addr.
  destruct (cline_addr_value _ _ _ _ _ Hsp e) as [-> _]; [exact (Forall_lookup_1 _ _ _ _ (sp_lines _ _ _ _ _ Hsp) He)|].
  lia.
Qed.

(** The range of a request in the buffer. *)
Definition buf_pos r (a : Z) : Z := data_offset + (a - addr r).

Lemma in_req_target c β m σ core a :
  inv c β m σ -> request_ok (request c) -> all_mapped c m -> data_ok (request c) ->
  in_req (request c) core a ->
  0 <= a - addr (request c) < bytes (request c) /\
  req_target (line_size g) (metadata_offset g) (request c) (a - addr (request c)) = pos m core a.
Proof.
  intros HI Hok Hall Hd [-> Ha]. split; [lia|]. erewrite target_pos by (try done; lia). f_equal. lia.
Qed.

Lemma off_req_target c β m σ core a :
  inv c β m σ -> request_ok (request c) -> all_mapped c m -> data_ok (request c) ->
  is_Some (m !! byte_line core a) -> ~ in_req (request c) core a ->
  forall k, 0 <= k < bytes (request c) -> pos m core a <> req_target (line_size g) (metadata_offset g) (request c) k.
Proof.
  intros HI Hok Hall Hd Hm Hout k Hk E. erewrite target_pos in E by done.
  assert (Hin : is_Some (m !! byte_line (req_core (request c)) (addr (request c) + k))).
  { destruct (byte_entry _ k Hok Hk) as (Hi & _ & _).
    set (i := entry_index g (request c) (addr (request c) + k)) in *.
    destruct (lookup_lt_is_Some_2 (req_map (request c)) (Z.to_nat i)) as [e He]; [pose proof (ro_map _ _ Hok); lia|].
    destruct (Hall _ _ He) as [_ Hme]. exists (me_coll_idx e). unfold entry_maps in Hme. rewrite Z2Nat.id in Hme by lia.
    rewrite <- Hme. unfold Content.byte_line. do 2 f_equal. subst i. unfold entry_index. lia. }
  destruct (pos_inj _ _ _ _ _ _ _ _ HI Hm Hin E) as [-> ->]. apply Hout. split; [done|lia].
Qed.

Definition sequential r : Prop := ocf_engine_is_sequential r = true ->
  exists x, forall i e, req_map r !! i = Some e -> me_coll_idx e = x + Z.of_nat i.

(** What writing and reading the lines of a request does to its bytes and to
    others. *)
Definition written c m (dev dev' buf : Z -> V) : Prop := forall core a, is_Some (m !! byte_line core a) ->
  dev' (pos m core a) = if decide (in_req (request c) core a) then buf (buf_pos (request c) a) else dev (pos m core a).
Definition fetched c m (dev buf buf' : Z -> V) : Prop := forall a, in_req (request c) (req_core (request c)) a ->
  buf' (buf_pos (request c) a) = dev (pos m (req_core (request c)) a).
(** A backfill may leave out bytes of lines that were hit. *)
Definition backfilled c m (dev dev' buf : Z -> V) : Prop := forall core a, is_Some (m !! byte_line core a) ->
  let p := pos m core a in
  if decide (in_req (request c) core a) then
    (dev' p = dev p \/ dev' p = buf (buf_pos (request c) a)) /\
    (forall e, req_map (request c) !! Z.to_nat (entry_index g (request c) a) = Some e -> me_status e <> LOOKUP_HIT ->
       dev' p = buf (buf_pos (request c) a))
  else dev' p = dev p.

Lemma forward_bytes c β m σ :
  inv c β m σ -> request_ok (request c) -> all_mapped c m -> data_ok (request c) -> sequential (request c) ->
  exists ios, ocf_engine_forward_cache_io_req (line_size g) (metadata_offset g) data_offset (request c) = Some ios /\
    (forall buf dev, written c m dev (write_ios (V:=V) buf dev ios) buf) /\
    (forall buf dev, fetched c m dev buf (read_ios (V:=V) dev buf ios)).
Proof.
  intros HI Hok Hall Hd Hseq. pose proof (splittable_of _ _ _ _ HI Hok Hall Hd) as Hsp.
  destruct (forward_write _ _ _ _ _ Hsp (distinct_lines _ _ _ _ HI Hall) Hseq (V:=V)) as (ios & Hios & Hw & Hr).
  exists ios. split; [done|]. split.
  - intros buf dev core a Hm. destruct (Hw buf dev) as [H1 H2]. case_decide as Hin.
    + destruct (in_req_target _ _ _ _ _ _ HI Hok Hall Hd Hin) as [Hk <-]. by rewrite H1.
    + apply H2. by eapply off_req_target.
  - intros buf dev a Hin. destruct (Hr buf dev) as [H1 _].
    destruct (in_req_target _ _ _ _ _ _ HI Hok Hall Hd Hin) as [Hk <-]. by rewrite <- H1.
Qed.

Lemma backfill_bytes c β m σ :
  inv c β m σ -> request_ok (request c) -> all_mapped c m -> data_ok (request c) -> sequential (request c) ->
  exists ios, backfill_io (line_size g) (metadata_offset g) data_offset (request c) = Some ios /\
    forall buf dev, backfilled c m dev (write_ios (V:=V) buf dev ios) buf.
Proof.
  intros HI Hok Hall Hd Hseq. pose proof (splittable_of _ _ _ _ HI Hok Hall Hd) as Hsp.
  destruct (backfill_write _ _ _ _ _ Hsp (distinct_lines _ _ _ _ HI Hall) Hseq (V:=V)) as (ios & Hios & Hw).
  exists ios. split; [done|]. intros buf dev core a Hm. cbv zeta. destruct (Hw buf dev) as (H1 & H2 & H3).
  case_decide as Hin; [|apply H3; by eapply off_req_target].
  destruct (in_req_target _ _ _ _ _ _ HI Hok Hall Hd Hin) as [Hk <-]. split; [by apply H2|].
  intros e He Hs. unfold buf_pos. eapply H1; [done| |exact Hs]. rewrite <- He. unfold entry_of. do 2 f_equal.
  destruct (byte_entry _ _ Hok Hk) as (_ & <- & _). f_equal. lia.
Qed.

(** ** What a lookup establishes *)

(** [rd]: the request reads.  Only reading relies on clean bytes being known. *)
Context (rd : Prop).

Record looked c m : Prop := {
  lk_map : entries_map c m;
  lk_ids i e : req_map (request c) !! i = Some e -> me_status e <> LOOKUP_MISS ->
    mi_core_id (me_info e) = req_core (request c) /\
    mi_core_line (me_info e) = core_line_first (request c) + Z.of_nat i;
  lk_valid i e st : req_map (request c) !! i = Some e -> me_status e = LOOKUP_HIT ->
    statuses c !! me_coll_idx e = Some st ->
    all_in (start (request c) (Z.of_nat i)) (stop (request c) (Z.of_nat i)) (valid st);
  lk_hit : ocf_engine_is_hit (request c) = true ->
    forall i e, req_map (request c) !! i = Some e -> me_status e = LOOKUP_HIT;
  lk_clean : rd -> dirty_any (info (request c)) = 0 ->
    forall core a p, in_req (request c) core a -> place c m core a <> Some (p, true);
  lk_dirty : ocf_engine_is_dirty_all (request c) = true ->
    forall core a, in_req (request c) core a -> exists p, place c m core a = Some (p, true);
  lk_move i e : req_map (request c) !! i = Some e -> movable c m e;
  lk_seq : sequential (request c);
  lk_flush : flush_metadata (info (request c)) = false;
  lk_fresh i e st : req_map (request c) !! i = Some e -> is_new e = true ->
    statuses c !! me_coll_idx e = Some st -> valid st = 0 /\ dirty st = 0
}.

(** What a check after a wait needs besides: lines that were found have a valid
    block, new lines are in the partition of the request, and lines that were
    found with blocks missing have no dirty byte in the range. *)
Record recheckable c m : Prop := {
  rc_live i e st : req_map (request c) !! i = Some e -> is_found e = true -> is_new e = false ->
    statuses c !! me_coll_idx e = Some st -> valid st <> 0;
  rc_new i e : req_map (request c) !! i = Some e -> is_new e = true ->
    partition_id <$> nodes (lru c) !! me_coll_idx e = Some (req_part (request c));
  rc_tidy core a e p : rd -> in_req (request c) core a ->
    req_map (request c) !! Z.to_nat (entry_index g (request c) a) = Some e -> me_status e <> LOOKUP_HIT ->
    place c m core a <> Some (p, true)
}.

Lemma looked_same c c' m : statuses c' = statuses c -> request c' = request c -> looked c m -> looked c' m.
Proof.
  intros Es Er []. assert (Ep : forall core a, place c' m core a = place c m core a) by (intros; by apply place_same).
  split; rewrite ?Er, ?Es; try done.
  - unfold entries_map. by rewrite Er.
  - intros. rewrite Ep. auto.
  - intros. rewrite Ep. auto.
  - unfold movable. rewrite Er, Es. done.
Qed.

Lemma recheckable_same c c' m : statuses c' = statuses c -> request c' = request c ->
  (forall y, partition_id <$> nodes (lru c') !! y = partition_id <$> nodes (lru c) !! y) ->
  recheckable c m -> recheckable c' m.
Proof.
  intros Es Er Ep []. split; rewrite ?Er, ?Es; try done.
  - intros. rewrite Ep. eauto.
  - intros. rewrite (place_same g c c') by done. eauto.
Qed.

(** A byte of a request whose line has a byte in the range that is not cached is
    not dirty. *)
Definition partly_clean c m : Prop := forall core a a' p,
  in_req (request c) core a -> in_req (request c) core a' -> a' / L = a / L ->
  place c m core a' = None -> place c m core a <> Some (p, true).

(** The entry and the status bits of a byte of a request. *)
Lemma byte_in_entry r core a : request_ok r -> aligned r -> in_req r core a ->
  let i := Z.to_nat (entry_index g r a) in
  core = req_core r /\ 0 <= a /\ is_Some (req_map r !! i) /\ Z.of_nat i = entry_index g r a /\
  byte_line core a = CoreInfo (req_core r) (core_line_first r + Z.of_nat i) /\
  start r (Z.of_nat i) <= block_of g a <= stop r (Z.of_nat i).
Proof.
  intros Hok Hal Hin i. pose proof Hin as [-> Ha]. destruct (request_span r Hok) as (H0 & _).
  destruct (proj1 (in_req_blocks g r _ a Hok Hal ltac:(lia)) Hin) as (_ & Hi & Hb).
  assert (Ei : Z.of_nat i = entry_index g r a) by (subst i; lia). rewrite Ei.
  split; [done|]. split; [lia|]. split; [apply lookup_lt_is_Some_2; pose proof (ro_map _ _ Hok); lia|].
  split; [done|]. split; [|done]. unfold Content.byte_line, entry_index. f_equal. lia.
Qed.

Lemma place_mapped c m core a x st : m !! byte_line core a = Some x -> statuses c !! x = Some st ->
  place c m core a = in_line g st x a.
Proof. intros Hx Hs. unfold Content.place. rewrite Hx. cbn. by rewrite Hs. Qed.

Section Lookup.
Context (c : cache C) (β : bucket_map) (m : gmap core_info Z) (σ : listing).
Context (HI : inv c β m σ) (Hok : request_ok (request c)) (Hal : aligned (request c)).
Abbreviation r := (request c).
Abbreviation es := (imap (view (block_4k g) (line_size g) c m r) (req_map r)).
Abbreviation found := (visit c r es (sums (block_4k g) (line_size g) c r es)).

Lemma es_lookup i e : es !! i = Some e -> exists e0, req_map r !! i = Some e0 /\ e = view (block_4k g) (line_size g) c m r i e0.
Proof. intros (e0 & He0 & ->)%list_lookup_imap_Some. eauto. Qed.

(** What the entry of a byte says of it. *)
Lemma byte_view core a e : in_req r core a -> es !! Z.to_nat (entry_index g r a) = Some e ->
  match m !! byte_line core a with
  | None => me_status e = LOOKUP_MISS
  | Some x => me_status e <> LOOKUP_MISS /\ me_coll_idx e = x /\ exists st,
      statuses c !! x = Some st /\ dirty_within_valid st /\
      (me_status e = LOOKUP_HIT -> Z.testbit (valid st) (block_of g a) = true) /\
      place c m core a = in_line g st x a
  end.
Proof.
  intros Hin He. destruct (byte_in_entry r core a Hok Hal Hin) as (-> & H0 & _ & Ei & Eb & Hbl).
  set (i := Z.to_nat (entry_index g r a)) in *. apply es_lookup in He as (e0 & _ & ->).
  unfold view. cbv zeta. rewrite Eb. destruct (m !! _) as [x|] eqn:Hx; [|done].
  destruct (mapped_line c β m σ _ _ HI Hx) as (_ & st & Hs). rewrite Hs. cbn [default].
  split; [by cbn; destruct (decide _)|]. split; [done|]. exists st. split; [done|].
  split; [by apply (ci_bits _ _ _ _ _ _ _ HI _ _ Hs)|]. split; [|by apply place_mapped; [rewrite Eb|]].
  cbn. destruct (decide _) as [Ha|]; [|done]. intros _. apply Ha. exact Hbl.
Qed.

Lemma icount_none (P : nat -> map_entry -> bool) l i e : icount P l = 0 -> l !! i = Some e -> P i e = false.
Proof.
  intros Hc He. destruct (P i e) eqn:E; [|done]. exfalso.
  assert (icount P l > 0); [|lia]. apply icount_zero. eauto.
Qed.

Lemma lookup_looked : live c m (req_line r) ->
  looked found m /\
  (ocf_engine_mapped_count (request found) = 0 -> forall i e, es !! i = Some e -> me_status e = LOOKUP_MISS) /\
  (ocf_engine_is_mapped (request found) = true -> all_mapped found m) /\
  ((rd -> partly_clean c m) -> recheckable found m) /\
  (forall i e, es !! i = Some e -> me_status e <> LOOKUP_REMAPPED).
Proof.
  intros Hlive. pose proof (ro_map _ _ Hok) as Hlen. destruct (request_ok_lines (block_4k g) _ _ Hok) as (_ & Hn & _).
  destruct (sums_meaning (block_4k g) (line_size g) c m r (req_map r) Hlen ltac:(lia)) as (Hhit & Hmap & Hcnt & _).
  pose proof (sums_sequential (block_4k g) (line_size g) c m r (req_map r) Hlen Hn) as Hseq. cbv zeta in Hseq.
  assert (Hes : length es = length (req_map r)) by apply length_imap.
  assert (Hent : entries_map found m).
  { intros i e He. change (es !! i = Some e) in He. apply es_lookup in He as (e0 & _ & ->). unfold view. cbv zeta. cbn [request visit with_request with_req_info with_map req_core core_line_first].
    destruct (m !! _) as [x|] eqn:Hx; [|by rewrite decide_True]. rewrite decide_False; [|by cbn; destruct (decide _)].
    unfold entry_maps. cbn. exact Hx. }
  assert (Hbyte : forall core a, in_req r core a -> exists e, es !! Z.to_nat (entry_index g r a) = Some e).
  { intros core a Hin. destruct (byte_in_entry r core a Hok Hal Hin) as (_ & _ & [e0 He0] & _).
    eexists. rewrite list_lookup_imap, He0. done. }
  split; [split|split; [|split; [|split]]].
  - exact Hent.
  - intros i e He Hs. change (es !! i = Some e) in He. apply es_lookup in He as (e0 & _ & ->). unfold view in *. cbv zeta in *.
    cbn [request visit with_request with_req_info with_map req_core core_line_first]. by destruct (m !! _).
  - intros i e st He Hs Hst. change (es !! i = Some e) in He. apply es_lookup in He as (e0 & _ & ->). unfold view in *. cbv zeta in *.
    change (statuses found) with (statuses c) in Hst. change (request found) with (with_req_info (sums (block_4k g) (line_size g) c r es) (with_map es r)) in *.
    cbn [with_req_info with_map req_core core_line_first] in *.
    destruct (m !! _) as [x|]; [|done]. cbn in Hs, Hst. rewrite Hst in Hs. cbn in Hs. by destruct (decide _).
  - exact (proj1 Hhit).
  - intros _ Hd core a p Hin. change (in_req r core a) in Hin. destruct (Hbyte core a Hin) as [e He].
    pose proof (byte_view _ _ _ Hin He) as Hv. change (place found m) with (place c m).
    destruct (m !! byte_line core a) as [x|] eqn:Hx; [|unfold Content.place; by rewrite Hx].
    destruct Hv as (Hs & Ex & st & Hst & _ & _ & ->).
    pose proof (icount_none _ _ _ _ Hd He) as Hnd. cbn beta in Hnd.
    unfold is_found, line_status in Hnd. rewrite (bool_decide_eq_false_2 _ Hs), Ex in Hnd.
    rewrite Hst in Hnd. cbn in Hnd. apply bool_decide_eq_false_1, dec_stable in Hnd.
    unfold in_line. rewrite Hnd, Z.bits_0. destruct (Z.testbit _ _); congruence.
  - intros Hd core a Hin. change (in_req r core a) in Hin. destruct (Hbyte core a Hin) as [e He].
    pose proof (byte_view _ _ _ Hin He) as Hv. change (place found m) with (place c m).
    unfold ocf_engine_is_dirty_all in Hd. apply bool_decide_eq_true_1 in Hd. cbn [info request visit with_request with_req_info dirty_all sums core_line_count with_map] in Hd.
    rewrite <- Hlen, <- Hes in Hd. rewrite icount_all in Hd. specialize (Hd _ _ He).
    apply andb_true_iff in Hd as [[Hf _]%andb_true_iff Ha%bool_decide_eq_true_1].
    destruct (m !! byte_line core a) as [x|] eqn:Hx; [|unfold is_found in Hf; by rewrite Hv in Hf].
    destruct Hv as (_ & Ex & st & Hst & Hdv & _ & ->). unfold line_status in Ha. rewrite Ex in Ha. rewrite Hst in Ha. cbn in Ha.
    destruct (byte_in_entry r core a Hok Hal Hin) as (_ & _ & _ & Ei & _ & Hbl). rewrite Ei in *.
    specialize (Ha _ Hbl). unfold in_line. rewrite (Hdv _ (proj1 (block_of_bounds g a)) Ha), Ha. by eexists.
  - intros i e He Hre. change (es !! i = Some e) in He. pose proof (Hent i e He) as Hm.
    pose proof (lookup_lt_Some _ _ _ He) as Hlt. rewrite Hes in Hlt. apply es_lookup in He as (e0 & _ & ->).
    pose proof (mapped_line c β m σ) as Hl. unfold view in *. cbv zeta in *. unfold entry_maps in *.
    cbn [request visit with_request with_req_info with_map req_core core_line_first] in *.
    destruct (m !! _) as [x|] eqn:Hx; [|done]. split; [by cbn; destruct (decide _)|]. cbn.
    destruct (Hl _ _ HI Hx) as (_ & st & Hs). eexists _, st. split; [exact Hx|]. split; [done|]. split; [exact Hs|].
    eapply Hlive; [exact Hx| |exact Hs].
    split; [done|]. cbn. lia.
  - intros Hs. by apply Hseq.
  - done.
  - intros i e st He Hnew. exfalso. change (es !! i = Some e) in He. apply es_lookup in He as (e0 & _ & ->).
    apply bool_decide_eq_true_1 in Hnew. by eapply view_status.
  - intros H0 i e He. assert (Hf : icount (fun _ => is_found) es = 0).
    { rewrite <- (mapped_total (block_4k g) (line_size g) c r es).
      - unfold ocf_engine_mapped_count in H0. rewrite wrap_small in H0; [exact H0|].
        cbn [info request visit with_request with_req_info]. rewrite (mapped_total (block_4k g) (line_size g) c r es).
        + pose proof (icount_bounds (fun _ => is_found) es). rewrite Hes, Hlen in *. lia.
        + intros j e' He'. apply es_lookup in He' as (? & _ & ->). apply view_status.
      - intros j e' He'. apply es_lookup in He' as (? & _ & ->). apply view_status. }
    pose proof (icount_none _ _ _ _ Hf He) as Hn0. unfold is_found in Hn0.
    by apply negb_false_iff, bool_decide_eq_true_1 in Hn0.
  - intros Hm i e He. pose proof (lookup_lt_Some _ _ _ He) as Hlt.
    change (req_map (request found)) with es in Hlt, He. rewrite Hes in Hlt.
    destruct (proj1 Hmap Hm (Z.of_nat i)) as [x Hx]; [lia|].
    assert (Hst : me_status e <> LOOKUP_MISS).
    { intros Hs. pose proof (Hent i e He) as H'. rewrite decide_True in H' by done.
      change (m !! CoreInfo (req_core r) (core_line_first r + Z.of_nat i) = None) in H'. congruence. }
    split; [done|]. by apply (entries_map_found found m).
  - intros Hpc. split.
    + intros i e st He Hf _ Hst. change (es !! i = Some e) in He. change (statuses found) with (statuses c) in Hst.
      pose proof (lookup_lt_Some _ _ _ He) as Hlt. rewrite Hes in Hlt. pose proof (Hent i e He) as Hm.
      unfold is_found in Hf. apply negb_true_iff, bool_decide_eq_false_1 in Hf. rewrite decide_False in Hm by done.
      eapply Hlive; [exact Hm| |exact Hst]. split; [done|]. cbn. lia.
    + intros i e He Hnew. exfalso. change (es !! i = Some e) in He. apply es_lookup in He as (e0 & _ & ->).
      apply bool_decide_eq_true_1 in Hnew. by eapply view_status.
    + intros core a e p Hrd Hin He Hs. specialize (Hpc Hrd). change (in_req r core a) in Hin. change (place found m) with (place c m).
      change (es !! Z.to_nat (entry_index g r a) = Some e) in He.
      pose proof (byte_view _ _ _ Hin He) as Hv. destruct (m !! byte_line core a) as [x|] eqn:Hx;
        [|unfold Content.place; by rewrite Hx]. destruct Hv as (Hs1 & Ex & st & Hst & _ & _ & Epl).
      destruct (byte_in_entry r core a Hok Hal Hin) as (-> & H0 & _ & Ei & Eb & Hbl).
      set (i := Z.to_nat (entry_index g r a)) in *.
      assert (Hna : ~ all_in (start r (Z.of_nat i)) (stop r (Z.of_nat i)) (valid st)).
      { pose proof He as He'. apply es_lookup in He' as (e0 & _ & ->). unfold view in Hs. cbv zeta in Hs.
        rewrite <- Eb, Hx, Hst in Hs. cbn in Hs. by destruct (decide _). }
      rewrite all_in_list in Hna. apply not_Forall_Exists, Exists_exists in Hna as (j & Hj & Hjv); [|apply _].
      apply elem_of_seqZ in Hj.
      destruct (block_byte g r (Z.of_nat i) j Hok Hal) as (a' & _ & Hin' & _ & Hbl' & Hd').
      { pose proof (lookup_lt_Some _ _ _ He) as Hlt. rewrite Hes in Hlt. lia. } { lia. }
      assert (Ed : a' / L = a / L) by (unfold Content.byte_line in Eb; injection Eb as ->; exact Hd').
      apply (Hpc _ a a' p Hin Hin' Ed). unfold Content.place, Content.byte_line. rewrite Ed.
      unfold Content.byte_line in Hx. rewrite Hx. cbn. rewrite Hst. cbn. unfold in_line. rewrite Hbl'.
      cbn in Hjv. by apply not_true_is_false in Hjv as ->.
  - intros i e He. apply es_lookup in He as (e0 & _ & ->). apply view_status.
Qed.
End Lookup.

(** ** What a check establishes again *)

Lemma icount_or (P Q : nat -> map_entry -> bool) l : (forall i e, l !! i = Some e -> P i e && Q i e = false) ->
  icount P l + icount Q l = icount (fun i e => P i e || Q i e) l.
Proof.
  induction l as [|e l IH] using rev_ind; intros H; [done|]. rewrite !icount_snoc.
  rewrite <- IH by (intros i e' Hi; apply H; by apply lookup_app_l_Some).
  specialize (H (length l) e). rewrite list_lookup_middle in H by done. specialize (H eq_refl).
  destruct (P _ e), (Q _ e); cbn in *; try done; lia.
Qed.

(** Enough neighbours make all entries neighbours. *)
Lemma chain_sequential es : (1 <= length es)%nat -> (forall i e, es !! i = Some e -> is_found e = true) ->
  icount (continues es) es = Z.of_nat (length es) - 1 ->
  exists x, forall i e, es !! i = Some e -> me_coll_idx e = x + Z.of_nat i.
Proof.
  intros Hl Hf Hc. apply continues_chain; [done|]. destruct es as [|e0 es]; [cbn in Hl; lia|].
  rewrite icount_cons in Hc. cbn [continues Z.b2z length] in Hc.
  intros i e He. apply (proj1 (icount_all (fun i => continues (e0 :: es) (S i)) es)); [lia|done].
Qed.

Section Check.
Context (c : cache C) (β : bucket_map) (m : gmap core_info Z) (σ : listing).
Context (HI : inv c β m σ) (Hok : request_ok (request c)) (Hal : aligned (request c)).
Context (Hlk : looked c m) (Hrc : recheckable c m).
Abbreviation r := (request c).
Abbreviation es := (rechecked c r <$> req_map r).
Abbreviation checked := (visit c r es (recount (block_4k g) (line_size g) c r es)).

Lemma rechecked_info e : me_info (rechecked c r e) = me_info e.
Proof. unfold rechecked. by destruct (decide _). Qed.

Lemma checked_entry i e : es !! i = Some e -> exists e0, req_map r !! i = Some e0 /\ e = rechecked c r e0 /\
  me_status e = me_status e0 /\ me_coll_idx e = me_coll_idx e0.
Proof.
  intros He. rewrite list_lookup_fmap in He. apply fmap_Some in He as (e0 & He0 & ->). exists e0.
  unfold me_status, me_coll_idx. by rewrite rechecked_info.
Qed.

Lemma recheck_moves i e : es !! i = Some e -> movable checked m e.
Proof.
  intros He Hre. apply checked_entry in He as (e0 & He0 & -> & Es & Ex). rewrite Es.
  unfold rechecked in Hre. destruct (decide (me_status e0 = LOOKUP_MISS)) as [|Hs]; [done|]. cbn in Hre.
  split; [done|]. pose proof (entries_map_found c m i e0 (lk_map _ _ Hlk) He0 Hs) as Hm.
  destruct (mapped_line _ _ _ _ _ _ HI Hm) as (_ & st & Hst). eexists _, st. rewrite Ex. split; [exact Hm|]. split; [done|].
  split; [exact Hst|]. apply (rc_live _ _ Hrc i e0 st He0); [|apply not_true_is_false|exact Hst].
  - unfold is_found. by rewrite bool_decide_eq_false_2.
  - intros Hnew. unfold moves in Hre. rewrite (rc_new _ _ Hrc i e0 He0 Hnew) in Hre. by rewrite bool_decide_eq_true_2 in Hre.
Qed.

Lemma recount_sequential : sequential (request checked).
Proof.
  pose proof (ro_map _ _ Hok) as Hlen. destruct (request_ok_lines (block_4k g) _ _ Hok) as (_ & Hn & _).
  assert (Hes : length es = length (req_map r)) by apply length_fmap.
  intros Hs. change (req_map (request checked)) with es. unfold ocf_engine_is_sequential in Hs.
  apply andb_true_iff in Hs as [H1%bool_decide_eq_true_1 H2%bool_decide_eq_true_1].
  change (info (request checked)) with (recount (block_4k g) (line_size g) c r es) in H1, H2.
  change (core_line_count (request checked)) with (core_line_count r) in H1, H2. cbn [hit_no insert_no seq_no recount] in H1, H2.
  rewrite (icount_or (fun _ => is_hit) (fun _ => is_new)) in H1.
  2:{ intros i e _. unfold is_hit, is_new. destruct (me_status e); repeat case_bool_decide; done. }
  pose proof (icount_bounds (fun _ e => is_hit e || is_new e) es) as Hb.
  rewrite !wrap_small in H1, H2 by lia. apply chain_sequential; [lia| |lia].
  rewrite <- Hlen, <- Hes in H1. rewrite icount_all in H1. intros i e He. specialize (H1 i e He).
  unfold is_hit, is_new, is_found in *. destruct (me_status e); repeat case_bool_decide; done.
Qed.

Lemma check_looked : looked checked m.
Proof.
  pose proof (ro_map _ _ Hok) as Hlen.
  assert (Hes : length es = length (req_map r)) by apply length_fmap.
  assert (Hbyte : forall core a, in_req r core a -> exists e0, req_map r !! Z.to_nat (entry_index g r a) = Some e0 /\
    es !! Z.to_nat (entry_index g r a) = Some (rechecked c r e0)).
  { intros core a Hin. destruct (byte_in_entry r core a Hok Hal Hin) as (_ & _ & [e0 He0] & _). exists e0.
    by rewrite list_lookup_fmap, He0. }
  assert (Hst : forall e0, me_status (rechecked c r e0) = me_status e0 /\ me_coll_idx (rechecked c r e0) = me_coll_idx e0)
    by (intros e0; unfold me_status, me_coll_idx; by rewrite rechecked_info).
  split.
  - intros i e He. change (es !! i = Some e) in He. apply checked_entry in He as (e0 & He0 & _ & Es & Ex).
    pose proof (lk_map _ _ Hlk i e0 He0) as Hm. unfold entry_maps. rewrite Es, Ex. exact Hm.
  - intros i e He Hs. change (es !! i = Some e) in He. apply checked_entry in He as (e0 & He0 & -> & Es & Ex).
    rewrite rechecked_info. apply (lk_ids _ _ Hlk i e0 He0). by rewrite <- Es.
  - intros i e st He Hs. change (es !! i = Some e) in He. apply checked_entry in He as (e0 & He0 & _ & Es & Ex).
    rewrite Ex. apply (lk_valid _ _ Hlk i e0 st He0). by rewrite <- Es.
  - intros Hh i e He. unfold ocf_engine_is_hit in Hh. apply bool_decide_eq_true_1 in Hh.
    change (icount (fun _ => is_hit) es = core_line_count r) in Hh. rewrite <- Hlen, <- Hes in Hh.
    rewrite icount_all in Hh. specialize (Hh i e He). by apply bool_decide_eq_true_1 in Hh.
  - intros Hrd Hd core a p Hin. change (in_req r core a) in Hin. change (place checked m) with (place c m).
    destruct (Hbyte core a Hin) as (e0 & He0 & He). destruct (Hst e0) as [Es Ex].
    destruct (decide (me_status e0 = LOOKUP_HIT)) as [Hh|Hh]; [|by eapply (rc_tidy _ _ Hrc)].
    destruct (byte_in_entry r core a Hok Hal Hin) as (-> & _ & _ & _ & Eb & _).
    pose proof (entries_map_found c m _ e0 (lk_map _ _ Hlk) He0 ltac:(by rewrite Hh)) as Hm.
    destruct (mapped_line _ _ _ _ _ _ HI Hm) as (_ & st & Hs).
    rewrite (place_mapped c m _ a (me_coll_idx e0) st); [|by rewrite Eb|done].
    pose proof (icount_none _ _ _ _ Hd He) as Hnd. cbn beta in Hnd.
    unfold is_hit, line_status in Hnd. rewrite Es, Ex, (bool_decide_eq_true_2 _ Hh) in Hnd.
    rewrite Hs in Hnd. cbn in Hnd. apply bool_decide_eq_false_1, dec_stable in Hnd.
    unfold in_line. rewrite Hnd, Z.bits_0. destruct (Z.testbit _ _); congruence.
  - intros Hd core a Hin. change (in_req r core a) in Hin. change (place checked m) with (place c m).
    unfold ocf_engine_is_dirty_all in Hd. apply bool_decide_eq_true_1 in Hd.
    change (dirty_all (recount (block_4k g) (line_size g) c r es) = core_line_count r) in Hd. cbn [dirty_all recount] in Hd.
    rewrite <- Hlen, <- Hes in Hd. rewrite icount_all in Hd.
    destruct (Hbyte core a Hin) as (e0 & He0 & He). destruct (Hst e0) as [Es Ex]. specialize (Hd _ _ He). cbv beta in Hd.
    apply andb_true_iff in Hd as [[Hh _]%andb_true_iff Ha%bool_decide_eq_true_1].
    unfold is_hit in Hh. rewrite Es in Hh. apply bool_decide_eq_true_1 in Hh.
    destruct (byte_in_entry r core a Hok Hal Hin) as (-> & _ & _ & Ei & Eb & Hbl). rewrite Ei in *.
    pose proof (entries_map_found c m _ e0 (lk_map _ _ Hlk) He0 ltac:(by rewrite Hh)) as Hm. rewrite Ei in Hm.
    destruct (mapped_line _ _ _ _ _ _ HI Hm) as (_ & st & Hs).
    rewrite (place_mapped c m _ a (me_coll_idx e0) st); [|by rewrite Eb|done].
    unfold line_status in Ha. rewrite Ex, Hs in Ha. cbn in Ha. specialize (Ha _ Hbl).
    destruct (ci_bits _ _ _ _ _ _ _ HI _ _ Hs) as [_ Hdv].
    unfold in_line. rewrite (Hdv _ (proj1 (block_of_bounds g a)) Ha), Ha. by eexists.
  - exact recheck_moves.
  - exact recount_sequential.
  - done.
  - intros i e st He Hnew. change (es !! i = Some e) in He. apply checked_entry in He as (e0 & He0 & _ & Es & Ex).
    rewrite Ex. apply (lk_fresh _ _ Hlk i e0 st He0). unfold is_new in *. by rewrite <- Es.
Qed.

Lemma check_wp : wp (ocf_engine_check (block_4k g) (line_size g)) (fun res c' =>
  res = 0 /\ (exists q, c' = with_request q c /\ geometry q = geometry r) /\ looked c' m /\
  me_info <$> req_map (request c') = me_info <$> req_map r) c.
Proof.
  eapply wp_mono.
  - apply (engine_check_wp (block_4k g) (line_size g) (num_entries g) c β m σ HI Hok).
    intros i e He Hs. split.
    + apply (entries_map_found c m i e (lk_map _ _ Hlk) He Hs).
    + by apply (lk_ids _ _ Hlk i e He Hs).
    + intros st Hh. by apply (lk_valid _ _ Hlk i e st He Hh).
  - intros res c' [-> ->]. assert (Ei : me_info <$> es = me_info <$> req_map r).
    { rewrite <- list_fmap_compose. apply list_fmap_ext. intros i e _. apply rechecked_info. }
    split; [done|]. split; [|split; [apply check_looked|done]]. eexists. split; [done|].
    by destruct (request c).
Qed.
End Check.

(** ** Steps of the engines *)

Lemma wp_on_meta {A} (mm : LM (C:=C) A) (Q : A -> engine C V -> Prop) s :
  wp mm (fun a c => Q a (with_meta c s)) (meta s) -> wp (on_meta mm) Q s.
Proof. unfold wp, on_meta. by destruct (mm _) as [[a c]|]. Qed.
End EngineSpec.
