(* ===== verification/EngineExamples.v ===== *)
(** * Two runs of the engines that lose data

    A cache of one line, which is mapped and has its first four blocks valid,
    and one core.  Concrete runs of the queue show two faults of reading: after
    a wait a partly valid line no longer counts as dirty, and the copy for a
    backfill ignores the offset of the buffer. *)

From S2P Require Import Prelude Alock CacheLineLock Lru LruPart LruPartProofs Collision Status Request CacheLine CacheLineSteps Engine EngineIo EngineBase Cleaner Engines Content EngineSpec.
Import EngineIo.

Module EngineExamples.
(** No line can be mapped in this cache, nor does a run need it. *)
#[local] Instance no_space : SpaceManagement unit :=
  {| space_managment_remap_do := fun _ _ c => Some (LOOKUP_MISS, c); valid_user_parts := fun _ _ => []; eviction_clean_lines := fun _ _ _ => [] |}.

(** A world without errors; [answer] is its answer to a request for a lock. *)
Definition quiet (answer : lock_answer) : world Z :=
  World (fun _ => 0) (fun _ _ => 777) (fun _ _ => false) (fun _ => answer) (fun _ => true) (fun _ => true) (fun _ => 5).
Definition one_line : config := Config false size_4 raw_ram 1 1 2 1000 false 10 5 0 (fun core => bool_decide (core = 0)).
Definition one_mapped : gmap core_info Z := {[CoreInfo 0 0 := 0]}.

Definition lru_of_line : lru_cache :=
  match on_list (0, 0, true) (add_lru_head 0) (sample_cache 0) with Some (_, s) => s | None => sample_cache 0 end.

(** A request for bytes [a .. a + n - 1] of core 0 that waits in the queue. *)
Definition submit (h : handler) (a n : Z) (buf : Z -> Z) (c : cache unit) (v : volumes Z) : EngineBase.engine unit Z :=
  Engine (with_request (ocf_req_new size_4 0 0 a n [zero_entry]) c) (Volumes (cache_dev v) (core_dev v) buf None)
    (Progress 2 h None OCF_READ ∅ 0 0 false false false false false) (Master 0 0 []) 0 false 0 true 0%nat [Run] [].

Definition served (answer : lock_answer) (rw : direction) (offset : Z) (s : EngineBase.engine unit Z) :
    EngineBase.engine unit Z :=
  match ocf_queue_run (quiet answer) one_line rw false offset 20 s with Some (_, s) => s | None => s end.

(** What a run shows: events left, errors of the completions, bytes of the
    buffer and what a reader of the core is to get for bytes 0, 512 and 4095. *)
Definition shown (offset : Z) (s : EngineBase.engine unit Z) : list event * list Z * list Z * list Z :=
  let bytes := [0; 512; 4095] in
  (events s, (completions s).*1, (fun a => data (vols s) (offset + a)) <$> bytes,
   content one_line (meta s) (vols s) one_mapped 0 <$> bytes).

(** Byte [a] of the core has value [a], and so has its copy in the cache. *)
Definition fresh : EngineBase.engine unit Z :=
  submit ocf_write_wb_h 0 512 (fun o => 9000 + o) (line_cache lru_of_line)
    (Volumes (fun p => p - 1000) (fun _ a => a) (fun _ => 0) None).
(** 512 bytes written in write-back mode. *)
Definition after_write : EngineBase.engine unit Z := served LockNow OCF_WRITE 0 fresh.
Definition reading : EngineBase.engine unit Z :=
  submit ocf_read_generic_h 0 4096 (fun _ => 0) (meta after_write) (vols after_write).

(** After a write of block 0 a read of the whole line, which is partly valid,
    gets the written data when it is granted its lock at once.  When it has to
    wait, it completes without an error with the old data of the core, and the
    backfill replaces the written data by it. *)
Example engine_deferred_read_loses_write :
  shown 0 after_write = ([], [0], [9000; 9512; 13095], [9000; 512; 4095]) /\
  shown 0 (served LockNow OCF_READ 0 reading) = ([], [0], [9000; 512; 4095], [9000; 512; 4095]) /\
  shown 0 (served LockLater OCF_READ 0 reading) = ([], [0], [0; 512; 4095], [0; 512; 4095]).
Proof. split_and!; vm_compute; reflexivity. Qed.

(** A read miss of 4096 bytes into a buffer that starts at [offset]. *)
Definition missing : EngineBase.engine unit Z :=
  submit ocf_read_generic_h 0 4096 (fun _ => 0) (line_cache lru_of_line)
    (Volumes (fun p => p - 1000) (fun _ a => a) (fun _ => 0) None).

(** A read miss answers the right bytes at every offset of its buffer.  The
    backfill takes its bytes from the copy at the same offset, but the copy was
    filled from position 0 on: at offset 512 the last 512 bytes that it leaves
    in the cache are what the copy held when it was allocated. *)
Example engine_backfill_ignores_offset :
  shown 0 (served LockNow OCF_READ 0 missing) = ([], [0], [0; 512; 4095], [0; 512; 4095]) /\
  shown 512 (served LockNow OCF_READ 512 missing) = ([], [0], [0; 512; 777], [0; 512; 777]).
Proof. split_and!; vm_compute; reflexivity. Qed.
End EngineExamples.
