(* ===== verification/CleanerProofs.v ===== *)
(** * Cleaning keeps every byte

    A cleaning order writes bytes of the cache to the core and marks lines
    clean.  [cleaned] says what that may change: no content, no coherence, and
    only dirty bits from dirty to clean.  [ocf_cleaner_fire_wp]: an order calls
    its completion function once, and when the error is zero every item has
    been cleaned. *)

From S2P Require Import Prelude Alock AlockProofs CacheLineLock Links Lru LruProofs Generator LruPart LruPartProofs.
From S2P Require Import Collision CollisionProofs Status StatusProofs Request RequestProofs.
From S2P Require Import CacheLine CacheLineProofs CacheLineSteps Engine EngineProofs EngineCheck PartMove EngineIo EngineIoProofs EngineBase Cleaner Content EngineSpec.
Import EngineIo EngineIoProofs.

Section CleanerProofs.
Context {C V : Type} `{!CleaningPolicy C} (w : world V) (g : config) (Hg : config_ok g).
Abbreviation EM := (Prelude.M (engine C V)).
Abbreviation L := (line_bytes (line_size g)).
Abbreviation BS := (2 ^ OCF_BLOCK_SHIFT (block_4k g)).
Abbreviation blocks := (ocf_line_blocks (block_4k g) (line_size g)).
Abbreviation inv := (cache_inv (C:=C) (block_4k g) (line_size g) (num_entries g)).
Abbreviation place := (place (C:=C) g).
Abbreviation pos := (Content.pos g).
Abbreviation byte_line := (byte_line g).
Abbreviation bits_ok := (bits_ok (block_4k g) (line_size g)).
Implicit Types (c : cache C) (v : volumes V) (m : gmap core_info Z) (r : ocf_request).

(** ** Writes whose places may repeat *)

Lemma write_ios_cases (buf dev : Z -> V) ios a :
  (exists o, (a, o) ∈ mjoin (io_map <$> ios) /\ write_ios buf dev ios a = buf o) \/
  (forall o, (a, o) ∉ mjoin (io_map <$> ios)) /\ write_ios buf dev ios a = dev a.
Proof.
  revert dev. induction ios as [|i ios IH]; intros dev; [right; split; [intros o; apply not_elem_of_nil|done]|].
  change (write_ios buf dev (i :: ios)) with (write_ios buf (write_io buf dev i) ios). setoid_rewrite io_maps_cons.
  destruct (IH (write_io buf dev i)) as [(o & Ho & ->)|[Hno ->]].
  - left. exists o. split; [|done]. apply elem_of_app. by right.
  - unfold write_io. case_bool_decide as Hr.
    + left. eexists. split; [|done]. apply elem_of_app. left. by apply io_map_elem.
    + right. split; [|done]. intros o. rewrite elem_of_app, io_map_elem. intros [[? _]|Hin]; [done|by destruct (Hno o)].
Qed.

(** ** The I/O of one line *)

Lemma wp_test_all c x st what lo hi (Q : bool -> cache C -> Prop) :
  statuses c !! x = Some st -> bits_ok st -> block_range (block_4k g) (line_size g) lo hi ->
  Q (bool_decide (all_in lo hi (get_field what st))) c ->
  wp (on_status (_ocf_metadata_test (field (block_4k g) (line_size g)) what x lo hi true)) Q c.
Proof.
  intros Hst Hb Hr HQ. assert (E : c = visit c (request c) (req_map (request c)) (info (request c)))
    by (by destruct c as [? ? ? ? ? ? ? []]).
  rewrite E in HQ |- *. by eapply wp_visit_all.
Qed.

Lemma wp_test_any c x st what lo hi (Q : bool -> cache C -> Prop) :
  statuses c !! x = Some st -> bits_ok st -> block_range (block_4k g) (line_size g) lo hi ->
  (forall b : bool, (b = true <-> any_in lo hi (get_field what st)) -> Q b c) ->
  wp (on_status (_ocf_metadata_test (field (block_4k g) (line_size g)) what x lo hi false)) Q c.
Proof.
  intros Hst Hb Hr HQ. apply wp_on_status. eapply wp_mono.
  { apply (test_exact _ what x lo hi false _ st); [exact Hst|by apply bits_status|by apply block_range_ok]. }
  intros b s' [-> Hiff]. specialize (HQ b Hiff). by destruct c.
Qed.

Lemma all_in_one j x : all_in j j x <-> Z.testbit x j = true.
Proof. split; [intros H; apply H; lia|]. intros H i Hi. by assert (i = j) as -> by lia. Qed.
Lemma any_in_one j x : any_in j j x <-> Z.testbit x j = true.
Proof. split; [|intros H; exists j; split; [lia|done]]. intros (i & Hi & H). by assert (i = j) as <- by lia. Qed.

Lemma block_dirty_wp c x st j (Q : bool -> cache C -> Prop) :
  statuses c !! x = Some st -> bits_ok st -> dirty_within_valid st -> 0 <= j < blocks ->
  Q (Z.testbit (dirty st) j) c -> wp (_ocf_cleaner_block_is_dirty g x j) Q c.
Proof.
  intros Hst Hb Hdv Hj HQ. assert (Hr : block_range (block_4k g) (line_size g) j j) by (unfold block_range; lia).
  apply wp_bind. eapply wp_test_any; [exact Hst|done|done|]. intros d Hd. apply wp_bind.
  eapply wp_test_all; [exact Hst|done|done|]. cbn [get_field] in *. rewrite any_in_one in Hd.
  assert (Ed : d = Z.testbit (dirty st) j) by (destruct d, (Z.testbit (dirty st) j); naive_solver). rewrite Ed.
  assert (Ev : bool_decide (all_in j j (valid st)) = Z.testbit (valid st) j).
  { destruct (Z.testbit (valid st) j) eqn:E; [apply bool_decide_eq_true_2|apply bool_decide_eq_false_2];
      rewrite all_in_one; congruence. }
  rewrite Ev. specialize (Hdv j (proj1 Hj)). apply wp_bind, wp_bug_on.
  - destruct (Z.testbit (dirty st) j); [by rewrite Hdv|by rewrite andb_false_r].
  - apply wp_ret. destruct (Z.testbit (valid st) j); [exact HQ|].
    destruct (Z.testbit (dirty st) j); [by specialize (Hdv eq_refl)|exact HQ].
Qed.

(** An entry whose line and place in the buffer fit the address space. *)
Record entry_fits (e : map_entry) : Prop := {
  ef_line : 0 <= mi_core_line (me_info e) /\ (mi_core_line (me_info e) + 1) * L <= 2 ^ 64;
  ef_hash : 0 <= mi_hash (me_info e) < 1024
}.
(** Byte [a] of the core and its byte in the buffer. *)
Definition line_byte (e : map_entry) (a o : Z) : Prop :=
  a / L = mi_core_line (me_info e) /\ o = mi_hash (me_info e) * L + a mod L.

Abbreviation blk_io := (_ocf_cleaner_core_io_for_dirty_range g).

Lemma blocks_bytes n : 0 <= n <= blocks -> BLOCKS_TO_BYTES g n = n * BS /\ 0 <= n * BS <= L.
Proof.
  intros Hn. destruct (L_bounds g) as (HL & E & HB & Hbl). unfold BLOCKS_TO_BYTES.
  rewrite Z.shiftl_mul_pow2 by (by destruct (block_4k g)). assert (n * BS <= blocks * BS) by nia.
  rewrite wrap_small by nia. split; [done|]. nia.
Qed.

Lemma blk_io_elem e s t a o : entry_fits e -> 0 <= s <= t -> t <= blocks ->
  (a, o) ∈ io_map (blk_io e s t) <-> line_byte e a o /\ s <= block_of g a < t.
Proof.
  intros [[H0 H1] Hh] Hst Ht. destruct (L_bounds g) as (HL & E & HB & Hbl).
  destruct (blocks_bytes s ltac:(lia)) as [Es Bs]. destruct (blocks_bytes (t - s) ltac:(lia)) as [Et Bt].
  destruct (blocks_bytes t ltac:(lia)) as [_ Bt'].
  set (l := mi_core_line (me_info e)) in *. set (h := mi_hash (me_info e)) in *.
  assert (0 <= l * L /\ 0 <= h * L <= 1024 * 65536) by nia.
  rewrite io_map_elem. unfold _ocf_cleaner_core_io_for_dirty_range. cbn [io_addr io_bytes io_offset].
  fold l h. rewrite (wrap_small 64 (t - s)) by lia. rewrite Es, Et.
  rewrite (wrap_small 64 (L * l)) by lia. rewrite (wrap_small 64 (L * h)) by lia.
  rewrite (wrap_small 64 (L * h + s * BS)) by lia.
  assert (Hblk : forall a, l * L <= a < (l + 1) * L -> block_of g a = (a - l * L) / BS /\ a mod L = a - l * L /\ a / L = l).
  { intros a0 Ha0. unfold block_of. assert (Ed : a0 / L = l) by (symmetry; apply Z.div_unique with (a0 - l * L); lia).
    assert (Em : a0 mod L = a0 - l * L) by (rewrite Z.mod_eq by lia; rewrite Ed; lia). by rewrite Em, Ed. }
  assert (Hrange : forall n x, n * BS <= x <-> n <= x / BS).
  { intros n x. split; intros H'; [by apply Z.div_le_lower_bound; lia|]. pose proof (Z.mul_div_le x BS HB). nia. }
  destruct (decide (s = t)) as [->|Hne].
  { replace (t - t) with 0 by lia. split; [intros [? _]; lia|intros [_ ?]; lia]. }
  assert (s * BS < blocks * BS) by nia.
  rewrite (wrap_small 64 (L * l + s * BS)) by lia. unfold line_byte. fold l h. split.
  - intros [Ha ->]. assert (Ha' : l * L <= a < (l + 1) * L) by nia. destruct (Hblk a Ha') as (-> & -> & ->).
    split; [split; [done|lia]|]. pose proof (proj1 (Hrange s (a - l * L)) ltac:(lia)).
    assert (~ t <= (a - l * L) / BS) by (rewrite <- Hrange; nia). lia.
  - intros [[Ed ->] Hb]. assert (Ha' : l * L <= a < (l + 1) * L).
    { pose proof (Z.div_mod a L ltac:(lia)). pose proof (Z.mod_pos_bound a L ltac:(lia)). nia. }
    destruct (Hblk a Ha') as (Eb & Em & _). rewrite Eb in Hb. rewrite Em.
    pose proof (proj2 (Hrange s (a - l * L)) ltac:(lia)). assert (~ t * BS <= a - l * L) by (rewrite Hrange; lia). nia.
Qed.

Section OneLine.
Context (c : cache C) (e : map_entry) (st : map_status) (Hfit : entry_fits e).
Context (Hst : statuses c !! me_coll_idx e = Some st) (Hb : bits_ok st) (Hdv : dirty_within_valid st).

Definition ranged (k : Z) (ds : option Z) (a : Z) : Prop :=
  (exists s, ds = Some s /\ s <= block_of g a < k) \/ (k <= block_of g a /\ Z.testbit (dirty st) (block_of g a) = true).

Lemma dirty_ranges_wp n : forall k ds, Z.of_nat (k + n) = blocks ->
  (forall s, ds = Some s -> 0 <= s <= Z.of_nat k) ->
  wp (dirty_ranges g e (Z.of_nat <$> seq k n) ds) (fun ios c' => c' = c /\
    forall a o, (a, o) ∈ mjoin (io_map <$> ios) <-> line_byte e a o /\ ranged (Z.of_nat k) ds a) c.
Proof.
  induction n as [|n IH]; intros k ds Hk Hds.
  - cbn [seq fmap list_fmap dirty_ranges]. apply wp_ret. split; [done|]. intros a o. pose proof (block_of_bounds g a) as Hba.
    replace (Z.of_nat k) with blocks by lia. unfold ranged. destruct ds as [s|].
    + specialize (Hds s eq_refl). rewrite io_maps_cons. cbn [fmap list_fmap mjoin list_join]. rewrite app_nil_r, blk_io_elem by (done || lia).
      split; [intros [? ?]; split; [done|left; eauto]|]. intros [? [(s' & [= <-] & ?)|[? _]]]; [done|lia].
    + split; [intros H; by apply not_elem_of_nil in H|]. intros [_ [(s' & ? & _)|[? _]]]; [done|lia].
  - cbn [seq fmap list_fmap dirty_ranges]. apply wp_bind. eapply block_dirty_wp; [done..|lia|].
    assert (Hk' : Z.of_nat (S k + n) = blocks) by lia.
    destruct (Z.testbit (dirty st) (Z.of_nat k)) eqn:Ed; cbn [negb].
    + eapply wp_mono; [apply (IH (S k) (Some (default (Z.of_nat k) ds)) Hk')|].
      { intros s [= <-]. destruct ds as [s|]; cbn; [specialize (Hds s eq_refl)|]; lia. }
      intros ios c' [-> Hios]. split; [done|]. intros a o. rewrite Hios. apply and_iff_compat_l.
      unfold ranged. split.
      * intros [(s & [= <-] & Hs)|[Hge Hd]]; [|right; split; [lia|done]].
        destruct (decide (block_of g a = Z.of_nat k)) as [->|]; [right; split; [lia|done]|].
        destruct ds as [s|]; cbn in Hs; [left; exists s; split; [done|lia]|lia].
      * intros [(s & -> & Hs)|[Hge Hd]]; [left; exists s; split; [done|cbn; lia]|].
        destruct (decide (block_of g a = Z.of_nat k)) as [E|]; [|right; split; [lia|done]].
        left. eexists. split; [done|]. destruct ds as [s|]; cbn; [specialize (Hds s eq_refl)|]; lia.
    + apply wp_bind. eapply wp_mono; [by apply (IH (S k) None Hk')|].
      intros ios c' [-> Hios]. apply wp_ret. split; [done|]. intros a o.
      assert (Hrest : ranged (Z.of_nat (S k)) None a <-> Z.of_nat k <= block_of g a /\ Z.testbit (dirty st) (block_of g a) = true).
      { unfold ranged. split; [intros [(s & ? & _)|[? ?]]; [done|split; [lia|done]]|]. intros [Hge Hd]. right.
        destruct (decide (block_of g a = Z.of_nat k)) as [E|]; [rewrite E in Hd; congruence|split; [lia|done]]. }
      specialize (Hios a o). rewrite Hrest in Hios. destruct ds as [s|].
      * specialize (Hds s eq_refl). rewrite io_maps_cons, elem_of_app, Hios, blk_io_elem by (done || lia).
        unfold ranged. split; [intros [[? ?]|[? ?]]; (split; [done|]); [left; eauto|by right]|].
        intros [? [(s' & [= <-] & ?)|?]]; [by left|by right].
      * rewrite Hios. unfold ranged. apply and_iff_compat_l. split; [by right|]. by intros [(s & ? & _)|?].
Qed.

Lemma submit_io_wp : wp (_ocf_cleaner_core_submit_io g e) (fun ios c' => c' = c /\
  (forall a o, (a, o) ∈ mjoin (io_map <$> ios) -> line_byte e a o /\ Z.testbit (valid st) (block_of g a) = true) /\
  (forall a o, line_byte e a o -> Z.testbit (dirty st) (block_of g a) = true -> (a, o) ∈ mjoin (io_map <$> ios))) c.
Proof.
  destruct (L_bounds g) as (HL & E & HB & Hbl).
  assert (Hr : block_range (block_4k g) (line_size g) 0 (ocf_line_end_block (block_4k g) (line_size g)))
    by (unfold block_range, ocf_line_end_block; lia).
  apply wp_bind. eapply wp_test_all; [exact Hst|done|done|]. cbn [get_field].
  apply wp_bind. eapply wp_test_any; [exact Hst|done|done|]. intros d _.
  destruct (bool_decide _) eqn:Ev; [destruct d|]; cbn [andb].
  - apply bool_decide_eq_true_1 in Ev. apply wp_ret. split; [done|]. split; intros a o;
      rewrite io_maps_cons; cbn [fmap list_fmap mjoin list_join]; rewrite app_nil_r, blk_io_elem by (done || lia).
    + intros [H1 H2]. split; [done|]. apply Ev. unfold Status.end_block, ocf_line_end_block. lia.
    + intros H1 _. split; [done|]. apply block_of_bounds.
  - eapply wp_mono; [apply (dirty_ranges_wp (Z.to_nat blocks) 0 None); [lia|done]|].
    intros ios c' [-> Hios]. split; [done|]. split; intros a o; rewrite Hios; unfold ranged.
    + intros [? [(s & ? & _)|[_ Hd]]]; [done|]. split; [done|]. apply Hdv; [apply block_of_bounds|done].
    + intros H1 Hd. split; [done|]. right. pose proof (block_of_bounds g a). split; [lia|done].
  - eapply wp_mono; [apply (dirty_ranges_wp (Z.to_nat blocks) 0 None); [lia|done]|].
    intros ios c' [-> Hios]. split; [done|]. split; intros a o; rewrite Hios; unfold ranged.
    + intros [? [(s & ? & _)|[_ Hd]]]; [done|]. split; [done|]. apply Hdv; [apply block_of_bounds|done].
    + intros H1 Hd. split; [done|]. right. pose proof (block_of_bounds g a). split; [lia|done].
Qed.
End OneLine.

(** ** What cleaning keeps *)

Record cleaned β m c v c' v' : Prop := {
  cn_inv : exists σ', inv c' β m σ';
  cn_frame : locks c' = locks c /\ ready_kept (block_4k g) (line_size g) c c' /\ request c' = request c /\
    mapping_of c' = mapping_of c;
  cn_vols : cache_dev v' = cache_dev v /\ data v' = data v /\ cp_data v' = cp_data v;
  cn_lines x st : statuses c !! x = Some st ->
    exists d, statuses c' !! x = Some (MapStatus (valid st) d) /\ (d = dirty st \/ d = 0);
  cn_core core a : core_dev v' core a = core_dev v core a \/
    exists p d, place c m core a = Some (p, d) /\ core_dev v' core a = cache_dev v p;
  cn_clean core a p : place c m core a = Some (p, true) -> place c' m core a = Some (p, false) ->
    core_dev v' core a = cache_dev v p
}.

Lemma cleaned_place β m c v c' v' σ core a : inv c β m σ -> cleaned β m c v c' v' ->
  place c' m core a = place c m core a \/
  exists p, place c m core a = Some (p, true) /\ place c' m core a = Some (p, false).
Proof.
  intros HI Hc. unfold Content.place. destruct (m !! byte_line core a) as [x|] eqn:Hx; [cbn|by left].
  destruct (mapped_line g _ _ _ _ _ _ HI Hx) as (_ & st & Hs). rewrite Hs.
  destruct (cn_lines _ _ _ _ _ _ Hc x st Hs) as (d & -> & Hd). cbn. unfold in_line. cbn.
  destruct (Z.testbit (valid st) _); [|by left].
  destruct Hd as [->| ->]; [by left|]. rewrite Z.bits_0. destruct (Z.testbit (dirty st) _); [right; eauto|by left].
Qed.

Lemma cleaned_refl β m c v σ : inv c β m σ -> cleaned β m c v c v.
Proof.
  intros HI. split; try done; [by exists σ|split_and!; try done; by apply ready_kept_refl| |by left|].
  - intros x st Hs. exists (dirty st). split; [by destruct st|by left].
  - intros core a p H1 H2. congruence.
Qed.

Lemma cleaned_trans β m c v c1 v1 c2 v2 σ : inv c β m σ ->
  cleaned β m c v c1 v1 -> cleaned β m c1 v1 c2 v2 -> cleaned β m c v c2 v2.
Proof.
  intros HI H1 H2. pose proof (cn_inv _ _ _ _ _ _ H1) as [σ1 HI1].
  destruct (cn_frame _ _ _ _ _ _ H1) as (A1 & A2 & A3 & A4), (cn_frame _ _ _ _ _ _ H2) as (B1 & B2 & B3 & B4).
  destruct (cn_vols _ _ _ _ _ _ H1) as (V1 & V2 & V3), (cn_vols _ _ _ _ _ _ H2) as (W1 & W2 & W3). split.
  - apply (cn_inv _ _ _ _ _ _ H2).
  - split_and!; [congruence|by eapply ready_kept_trans|congruence..].
  - split_and!; congruence.
  - intros x st Hs. destruct (cn_lines _ _ _ _ _ _ H1 x st Hs) as (d & Hs1 & Hd).
    destruct (cn_lines _ _ _ _ _ _ H2 x _ Hs1) as (d' & Hs2 & Hd'). exists d'. split; [done|]. cbn in Hd'.
    destruct Hd' as [->| ->]; [done|by right].
  - intros core a. destruct (cn_core _ _ _ _ _ _ H2 core a) as [E2|(p & d & Hp & E2)].
    + rewrite E2. apply (cn_core _ _ _ _ _ _ H1).
    + right. destruct (cleaned_place _ _ _ _ _ _ _ core a HI H1) as [Ep|(q & Hq & Ep)].
      * exists p, d. rewrite <- Ep. split; [done|]. by rewrite E2, V1.
      * exists q, true. split; [done|]. rewrite E2, V1. congruence.
  - intros core a p Hp Hp2. destruct (cleaned_place _ _ _ _ _ _ _ core a HI H1) as [Ep|(q & Hq & Ep)].
    + rewrite (cn_clean _ _ _ _ _ _ H2 core a p); [by rewrite V1|by rewrite Ep|done].
    + assert (q = p) as -> by congruence. pose proof (cn_clean _ _ _ _ _ _ H1 core a p Hq Ep) as E1.
      destruct (cn_core _ _ _ _ _ _ H2 core a) as [->|(p' & d & Hp' & ->)]; [done|]. rewrite V1. congruence.
Qed.

(** Cleaning changes no byte that a reader gets. *)
Lemma cleaned_content β m c v c' v' σ core a : inv c β m σ -> cleaned β m c v c' v' -> coherent g c v m core a ->
  content g c' v' m core a = content g c v m core a /\ coherent g c' v' m core a.
Proof.
  intros HI Hc Hco. destruct (cn_vols _ _ _ _ _ _ Hc) as (V1 & _ & _). unfold content, coherent in *. rewrite V1.
  destruct (cleaned_place _ _ _ _ _ _ _ core a HI Hc) as [Ep|(p & Hp & Ep)].
  - rewrite Ep. destruct (cn_core _ _ _ _ _ _ Hc core a) as [->|(p & d & Hp & ->)]; [done|]. rewrite Hp in *.
    split; [done|]. by intros q [= <- _].
  - rewrite Ep, Hp. split; [done|]. intros q [= <-]. symmetry. by apply (cn_clean _ _ _ _ _ _ Hc core a p).
Qed.

(** ** Marking lines clean *)

Definition same_entries (r q : ocf_request) : Prop :=
  req_core q = req_core r /\ core_line_count q = core_line_count r /\ Forall2 marked (req_map r) (req_map q).

(** The entries of a cleaning request, made for cache [c]. *)
Record clean_entry m r (i : nat) (e : map_entry) : Prop := {
  ce_line : m !! CoreInfo (req_core r) (mi_core_line (me_info e)) = Some (me_coll_idx e);
  ce_core : mi_core_id (me_info e) = req_core r;
  ce_hash : mi_hash (me_info e) = Z.of_nat i;
  ce_fits : entry_fits e
}.
Definition clean_request m r : Prop :=
  core_line_count r = Z.of_nat (length (req_map r)) /\
  forall i e, req_map r !! i = Some e -> clean_entry m r i e.

(** An entry whose line has been written to the core. *)
Definition to_mark (e : map_entry) : bool := me_flush e && negb (me_invalid e).

Definition marked_to c β m r (k : nat) c1 : Prop :=
  (exists σ1, inv c1 β m σ1) /\ same_entries r (request c1) /\ locks c1 = locks c /\
  ready_kept (block_4k g) (line_size g) c c1 /\ mapping_of c1 = mapping_of c /\
  (forall x st, statuses c !! x = Some st -> exists d, statuses c1 !! x = Some (MapStatus (valid st) d) /\
     (d = dirty st \/ d = 0 /\ exists i e, req_map r !! i = Some e /\ to_mark e = true /\ me_coll_idx e = x)) /\
  (forall i e, (i < k)%nat -> req_map r !! i = Some e -> to_mark e = true -> dirty (line_status c1 e) = 0).

Lemma entry_known c β m σ r i e : inv c β m σ -> clean_entry m r i e ->
  exists st, statuses c !! me_coll_idx e = Some st /\ line_status c e = st /\ bits_ok st /\ dirty_within_valid st.
Proof.
  intros HI He. destruct (mapped_line g _ _ _ _ _ _ HI (ce_line _ _ _ _ He)) as (_ & st & Hs). exists st.
  split; [done|]. split; [unfold line_status; by rewrite Hs|]. apply (ci_bits _ _ _ _ _ _ _ HI _ _ Hs).
Qed.

Lemma wp_part_id c x n core (Q : Z * Z -> cache C -> Prop) :
  nodes (lru c) !! x = Some n -> core_infos (mapping_of c) !! x = Some core ->
  Q (core_id core, partition_id n) c -> wp (ocf_metadata_get_core_and_part_id (block_4k g) (line_size g) x) Q c.
Proof.
  intros Hn Hc HQ. apply wp_bind, wp_on_map. eapply wp_load; [exact Hc|].
  replace (with_mapping (mapping_of c) c) with c by (by destruct c).
  apply wp_bind. eapply wp_partition; [exact Hn|]. by apply wp_ret.
Qed.

Lemma removed_all st d : bits_ok st -> 0 <= d ->
  removed 0 (ocf_line_end_block (block_4k g) (line_size g)) (dirty st) d -> d = 0.
Proof.
  intros [_ Hd] H0 Hr. apply Z.bits_inj'. intros j Hj. rewrite Z.bits_0, Hr by done.
  unfold in_range. case_bool_decide as Hin; [by rewrite andb_false_r|]. rewrite andb_true_r.
  pose proof (line_blocks_bounds (block_4k g) (line_size g)).
  apply (bits_of_below blocks); [lia|done|unfold ocf_line_end_block in Hin; lia].
Qed.

Section Marking.
Context (c : cache C) (β : bucket_map) (m : gmap core_info Z) (σ : listing) (r : ocf_request).
Context (HI : inv c β m σ) (Hr : clean_request m r).
(** Entries that are not flushed have clean lines. *)
Context (Hflag : forall i e, req_map r !! i = Some e -> me_flush e = false -> dirty (line_status c e) = 0).

Lemma keep_marked (k : nat) e c1 : req_map r !! k = Some e ->
  (to_mark e = true -> dirty (line_status c1 e) = 0) -> marked_to c β m r k c1 -> marked_to c β m r (S k) c1.
Proof.
  intros He Hd (H1 & H2 & H3 & H4 & H5 & H6 & H7). do 6 (split; [done|]). intros i e' Hi He' Hm.
  destruct (decide (i = k)) as [->|]; [|by apply (H7 i); [lia|..]]. assert (e' = e) as -> by congruence. by apply Hd.
Qed.

Lemma mark_line_wp (k : nat) e c1 st :
  req_map r !! k = Some e -> to_mark e = true -> marked_to c β m r k c1 ->
  statuses c1 !! me_coll_idx e = Some st ->
  wp (ids ← ocf_metadata_get_core_and_part_id (block_4k g) (line_size g) (me_coll_idx e);
      _ ← set_part_id ids.2;
      set_cache_line_clean (block_4k g) (line_size g) (raw g) 0 (ocf_line_end_block (block_4k g) (line_size g)) (Z.of_nat k))
    (fun _ => marked_to c β m r (S k)) c1.
Proof.
  intros He Hm ((σ1 & HI1) & (Eq1 & Eq2 & Eq3) & Hlk & Hrdy & Emap & Hst & Hdone) Hs.
  destruct Hr as [_ Hes]. pose proof (Hes k e He) as Hce. pose proof (ce_line _ _ _ _ Hce) as Hx.
  set (x := me_coll_idx e) in *. destruct (facts _ _ _ _ _ _ _ _ _ HI1 Hx) as (st1 & n & rt & p & HF).
  pose proof HF as [[Hst1 Hn Hu Hl Hr1] Hcr Hp Hb Hdv _]. assert (st1 = st) as -> by congruence.
  destruct (proj1 (proj2 (ci_map _ _ _ _ _ _ _ HI1) _ _) Hx) as [_ Hcore].
  apply wp_bind. eapply wp_part_id; [exact Hn|exact Hcore|]. apply wp_bind, wp_modify.
  set (c2 := with_request _ c1).
  destruct (Forall2_lookup_l _ _ _ _ _ Eq3 He) as (e1 & He1 & [Ei _ _]).
  eapply wp_mono.
  { eapply (set_clean_wp (block_4k g) (line_size g) (raw g) (num_entries g) c2 β m σ1 (Z.of_nat k) x _ 0 _ st); [apply (cf_raw _ Hg)|by apply inv_request| | |exact Hst1].
    - split; [lia|]. split; [exact Hx|]. split; [cbn; by rewrite Eq1|]. exists e1. rewrite Nat2Z.id.
      split; [done|]. unfold x, me_coll_idx. by rewrite Ei.
    - pose proof (line_blocks_bounds (block_4k g) (line_size g)). unfold block_range, ocf_line_end_block. lia. }
  intros [] c3 (σ3 & d & HI3 & [Es Em El Eq Hk] & Hrem).
  assert (Hd0 : d = 0).
  { apply (removed_all st); [done| |exact Hrem]. destruct (ci_bits _ _ _ _ _ _ _ HI3 x (MapStatus (valid st) d)) as [[_ [? _]] _]; [|done].
    by rewrite Es, lookup_insert_eq. }
  subst d. split; [by exists σ3|]. split.
  { destruct Eq as [G1 G2]. assert (Gc : req_core (request c3) = req_core (request c1)) by (by injection G1).
    assert (Gn : core_line_count (request c3) = core_line_count (request c1)) by (by injection G1).
    split; [congruence|]. split; [congruence|]. etrans; [exact Eq3|exact G2]. }
  split; [by rewrite El|]. split; [by eapply ready_kept_trans|]. split; [by rewrite Em|]. split.
  - intros y st' Hy. rewrite Es. destruct (decide (y = x)) as [->|Hne].
    + rewrite lookup_insert_eq. destruct (Hst x st' Hy) as (d & Hd & _). rewrite Hst1 in Hd. injection Hd as ->.
      exists 0. split; [done|]. right. split; [done|]. by exists k, e.
    + rewrite lookup_insert_ne by done. by apply Hst.
  - intros i e' Hi He' Hm'. unfold line_status. rewrite Es. destruct (decide (me_coll_idx e' = x)) as [->|Hne].
    + by rewrite lookup_insert_eq.
    + rewrite lookup_insert_ne by done. apply (Hdone i e'); [|done..].
      destruct (decide (i = k)) as [->|]; [exfalso; apply Hne; unfold x; congruence|lia].
Qed.

Lemma update_line_wp (k : nat) c1 : (k < length (req_map r))%nat ->
  marked_to c β m r k c1 -> wp (update_line g (Z.of_nat k)) (fun _ => marked_to c β m r (S k)) c1.
Proof.
  intros Hk Hmk. pose proof Hmk as ((σ1 & HI1) & (Eq1 & Eq2 & Eq3) & _ & _ & _ & Hst & _).
  destruct (lookup_lt_is_Some_2 _ _ Hk) as [e He]. pose proof (proj2 Hr k e He) as Hce.
  destruct (Forall2_lookup_l _ _ _ _ _ Eq3 He) as (e1 & He1 & [Ei Einv Efl]).
  apply wp_bind. eapply wp_entry; [lia|by rewrite Nat2Z.id|].
  destruct (me_flush e1) eqn:Hf1; cbn [negb].
  2:{ apply wp_ret. eapply keep_marked; [done| |done]. unfold to_mark. destruct (me_flush e); [by specialize (Efl eq_refl)|done]. }
  destruct (me_invalid e1) eqn:Hi1.
  { apply wp_ret. eapply keep_marked; [done| |done]. unfold to_mark. by rewrite <- Einv, andb_false_r. }
  assert (Ex : me_coll_idx e1 = me_coll_idx e) by (unfold me_coll_idx; by rewrite Ei). rewrite Ex.
  destruct (entry_known c β m σ r k e HI Hce) as (st0 & Hs0 & El0 & _).
  destruct (entry_known c1 β m σ1 r k e HI1 Hce) as (st & Hs & El & Hb & _).
  apply wp_bind. eapply wp_test_line; [exact Hs|done|]. case_bool_decide as Hd.
  - apply (mark_line_wp k e c1 st); try done. unfold to_mark. rewrite <- Einv, andb_true_r.
    destruct (me_flush e) eqn:Hf; [done|]. exfalso. apply Hd. specialize (Hflag k e He Hf). rewrite El0 in Hflag.
    destruct (Hst _ _ Hs0) as (d & Hs' & Hd'). rewrite Hs in Hs'. injection Hs' as ->. cbn.
    destruct Hd' as [->|[-> _]]; [done|done].
  - apply wp_ret. eapply keep_marked; [done| |done]. intros _. rewrite El. destruct (decide (dirty st = 0)); [done|by destruct Hd].
Qed.
End Marking.

(** ** Looking for what is left to do *)

Definition flag c (e : map_entry) : map_entry := if decide (dirty (line_status c e) = 0) then e else with_flush e.

Lemma check_mapping_wp c β m σ r pre e post I :
  inv c β m σ -> clean_entry m r (length pre) e ->
  wp (check_line_mapping g (Z.of_nat (length pre)))
    (fun found c' => c' = visit c r (pre ++ flag c e :: post) I /\ (found = false -> dirty (line_status c e) = 0))
    (visit c r (pre ++ e :: post) I).
Proof.
  intros HI He. destruct (entry_known c β m σ r _ e HI He) as (st & Hs & El & Hb & _).
  destruct (proj1 (proj2 (ci_map _ _ _ _ _ _ _ HI) _ _) (ce_line _ _ _ _ He)) as [_ Hcore].
  apply wp_bind, wp_visit_entry. apply wp_bind, wp_on_map. eapply wp_load; [exact Hcore|].
  cbn [core_id core_line]. rewrite (ce_core _ _ _ _ He), (bool_decide_eq_true_2 (req_core r = req_core r)) by done.
  rewrite (bool_decide_eq_true_2 (mi_core_line (me_info e) = _)) by done. cbn [negb].
  change (with_mapping (mapping_of _) ?s) with s. apply wp_bind. eapply wp_visit_dirty; [exact Hs|done|].
  unfold flag. rewrite El. case_bool_decide as Hd; cbn [negb].
  - apply wp_bind, wp_visit_set, wp_ret. by rewrite decide_False.
  - apply wp_ret. destruct (decide (dirty st = 0)) as [Hd0|Hd0]; [|by destruct Hd]. done.
Qed.

Lemma check_map_loop c β m σ r I post : forall pre b,
  inv c β m σ -> (forall j e, post !! j = Some e -> clean_entry m r (length pre + j) e) ->
  wp (check_map_lines g (Z.of_nat <$> seq (length pre) (length post)) b)
    (fun res c' => c' = visit c r (pre ++ (flag c <$> post)) I /\
       (res = true -> b = true /\ forall e, e ∈ post -> dirty (line_status c e) = 0))
    (visit c r (pre ++ post) I).
Proof.
  induction post as [|e post IH]; intros pre b HI Hes; cbn [length seq fmap list_fmap check_map_lines].
  - apply wp_ret. rewrite app_nil_r. split; [done|]. intros ->. split; [done|]. intros e He. by apply not_elem_of_nil in He.
  - apply wp_bind. eapply wp_mono.
    { eapply check_mapping_wp; [done|]. specialize (Hes 0%nat e eq_refl). by rewrite Nat.add_0_r in Hes. }
    intros found s [-> Hfound]. specialize (IH (pre ++ [flag c e]) (b && negb found) HI).
    rewrite length_app, Nat.add_1_r in IH. rewrite <- !app_assoc in IH. cbn [app] in IH. eapply wp_mono.
    + apply IH. intros j e' Hj. replace (S (length pre) + j)%nat with (length pre + S j)%nat by lia. by apply Hes.
    + intros res s [-> Hres]. split; [done|]. intros Ht. destruct (Hres Ht) as [Hb Hrest].
      apply andb_true_iff in Hb as [-> Hf]. split; [done|]. apply negb_true_iff in Hf.
      intros e' [->|He']%elem_of_cons; [by apply Hfound|by apply Hrest].
Qed.

(** ** The I/O of a request *)

Lemma core_ios_wp c β m σ r es : inv c β m σ ->
  (forall e, e ∈ es -> exists i, clean_entry m r i e) ->
  wp (core_ios g es) (fun ios c' => c' = c /\
    (forall a o, (a, o) ∈ mjoin (io_map <$> ios) -> exists e, e ∈ es /\ to_mark e = true /\ line_byte e a o /\
       Z.testbit (valid (line_status c e)) (block_of g a) = true) /\
    (forall e a o, e ∈ es -> to_mark e = true -> line_byte e a o ->
       Z.testbit (dirty (line_status c e)) (block_of g a) = true -> (a, o) ∈ mjoin (io_map <$> ios))) c.
Proof.
  intros HI. induction es as [|e es IH]; intros Hes; cbn [core_ios].
  - apply wp_ret. split; [done|]. split; [intros a o H; by apply not_elem_of_nil in H|intros e a o H; by apply not_elem_of_nil in H].
  - destruct (Hes e ltac:(by left)) as [i Hce].
    destruct (entry_known c β m σ r i e HI Hce) as (st & Hs & El & Hb & Hdv).
    assert (Hone : wp (if me_invalid e then mret [] else if negb (me_flush e) then mret [] else _ocf_cleaner_core_submit_io g e)
      (fun ios c' => c' = c /\
        (forall a o, (a, o) ∈ mjoin (io_map <$> ios) -> to_mark e = true /\ line_byte e a o /\ Z.testbit (valid st) (block_of g a) = true) /\
        (forall a o, to_mark e = true -> line_byte e a o -> Z.testbit (dirty st) (block_of g a) = true -> (a, o) ∈ mjoin (io_map <$> ios))) c).
    { unfold to_mark. destruct (me_invalid e) eqn:Hi; [|destruct (me_flush e) eqn:Hf]; cbn [negb andb].
      - apply wp_ret. split; [done|]. rewrite andb_false_r. split; [intros a o H; by apply not_elem_of_nil in H|done].
      - eapply wp_mono; [by apply (submit_io_wp c e st (ce_fits _ _ _ _ Hce))|].
        intros ios c' (-> & H1 & H2). split; [done|]. split; [intros a o H; split; [done|by apply H1]|intros a o _; apply H2].
      - apply wp_ret. split; [done|]. split; [intros a o H; by apply not_elem_of_nil in H|done]. }
    apply wp_bind. eapply wp_mono; [exact Hone|]. intros ios c' (-> & A1 & A2).
    apply wp_bind. eapply wp_mono; [apply IH; intros e' He'; apply Hes; by right|].
    intros ios' c' (-> & B1 & B2). apply wp_ret. split; [done|]. rewrite fmap_app, join_app.
    setoid_rewrite elem_of_app. split.
    + intros a o [H|H].
      * exists e. destruct (A1 a o H) as (? & ? & ?). rewrite El. split; [by left|done].
      * destruct (B1 a o H) as (e' & ? & ?). exists e'. split; [by right|done].
    + intros e' a o [->|He']%elem_of_cons Hm Hl Hd; [left; apply A2; [done..|by rewrite El in Hd]|right; by eapply B2].
Qed.

Lemma read_lines_at (dev buf : Z -> V) m r e a o i σ β c : inv c β m σ ->
  (forall i e, req_map r !! i = Some e -> clean_entry m r i e) -> req_map r !! i = Some e -> me_flush e = true ->
  line_byte e a o ->
  read_ios dev buf (read_line g <$> filter (fun e => me_flush e = true) (req_map r)) o = dev (byte_addr g (me_coll_idx e) a).
Proof.
  intros HI Hes He Hf [Hl Ho]. destruct (L_bounds g) as (HL & _). destruct (cf_volume _ Hg) as [Hm0 Hm1].
  pose proof (Z.mod_pos_bound a L ltac:(lia)) as Ha.
  assert (Hio : forall j e', req_map r !! j = Some e' ->
    read_line g e' = Io (me_coll_idx e' * L + metadata_offset g) L (Z.of_nat j * L) /\ Z.of_nat j < 1024).
  { intros j e' He'. pose proof (Hes j e' He') as Hce. destruct (mapped_line g _ _ _ _ _ _ HI (ce_line _ _ _ _ Hce)) as [Hx _].
    destruct (ce_fits _ _ _ _ Hce) as [_ Hh]. rewrite (ce_hash _ _ _ _ Hce) in Hh. unfold read_line.
    rewrite (ce_hash _ _ _ _ Hce). assert (0 <= me_coll_idx e' * L <= num_entries g * L) by nia.
    rewrite (wrap_small 64 (me_coll_idx e' * L)) by lia. rewrite !wrap_small by nia. split; [f_equal; lia|lia]. }
  pose proof (ce_hash _ _ _ _ (Hes i e He)) as Hh. rewrite Hh in Ho.
  assert (Hu : forall p, (o, p) ∈ mjoin (io_map <$> (flip_io <$> (read_line g <$> filter (fun e => me_flush e = true) (req_map r)))) <->
    p = byte_addr g (me_coll_idx e) a).
  { intros p. rewrite flip_elem. rewrite list_elem_of_join. split.
    - intros (l & Hp & Hin). apply list_elem_of_fmap in Hin as (io' & -> & Hin).
      apply list_elem_of_fmap in Hin as (e' & -> & [_ Hin]%list_elem_of_filter).
      apply list_elem_of_lookup in Hin as (j & Hj). destruct (Hio j e' Hj) as [Erl Hj']. rewrite Erl in Hp.
      apply io_map_elem in Hp as [Hp Eo]. cbn in Hp, Eo. assert (j = i) as ->.
      { assert (Z.of_nat j = Z.of_nat i) by nia. lia. }
      assert (e' = e) as -> by congruence. unfold byte_addr. lia.
    - intros ->. exists (io_map (read_line g e)). destruct (Hio i e He) as [Er _]. split.
      + rewrite Er. apply io_map_elem. cbn. unfold byte_addr. lia.
      + apply list_elem_of_fmap. eexists. split; [done|]. apply list_elem_of_fmap. exists e. split; [done|].
        apply list_elem_of_filter. split; [done|]. by apply list_elem_of_lookup_2 with i. }
  rewrite read_is_write, (write_ios_at dev buf _ o (byte_addr g (me_coll_idx e) a)).
  - rewrite decide_True; [done|]. by apply Hu.
  - intros p. apply Hu.
Qed.

(** ** A cleaning request *)

Definition same_control (s s' : engine C V) : Prop :=
  prog s' = prog s /\ pending_read_misses s' = pending_read_misses s /\ pending_blocked s' = pending_blocked s /\
  fallback_pt_errors s' = fallback_pt_errors s /\ events s' = events s /\ completions s' = completions s.

Lemma same_control_refl s : same_control s s.
Proof. done. Qed.
Lemma same_control_trans s1 s2 s3 : same_control s1 s2 -> same_control s2 s3 -> same_control s1 s3.
Proof. unfold same_control. intros (-> & -> & -> & -> & -> & ->) (-> & -> & -> & -> & -> & ->). done. Qed.

(** A request of an order has ended; [P] holds unless an error has been noted. *)
Record request_done β m (P : cache C -> Prop) (s s' : engine C V) : Prop := {
  rd_cleaned : cleaned β m (meta s) (vols s) (meta s') (vols s');
  rd_control : same_control s s';
  rd_remaining : master_remaining (master s') = master_remaining (master s) - 1;
  rd_calls : master_calls (master s') = master_calls (master s);
  rd_error : master_error (master s') = 0 -> master_error (master s) = 0 /\ P (meta s')
}.

(** What comes before a request that ends well. *)
Lemma request_after β m P s s1 s' σ : inv (meta s) β m σ ->
  cleaned β m (meta s) (vols s) (meta s1) (vols s1) -> same_control s s1 ->
  master_remaining (master s1) = master_remaining (master s) -> master_calls (master s1) = master_calls (master s) ->
  (master_error (master s1) = 0 -> master_error (master s) = 0) ->
  request_done β m P s1 s' -> request_done β m P s s'.
Proof.
  intros HI Hc Hs Hr Hk He [A1 A2 A3 A4 A5]. split; [by eapply cleaned_trans|by eapply same_control_trans|congruence..|].
  intros H0. destruct (A5 H0). auto.
Qed.

Definition all_marked r (c : cache C) : Prop := forall e, e ∈ req_map r -> to_mark e = true -> dirty (line_status c e) = 0.

Section Request.
Context (β : bucket_map) (m : gmap core_info Z) (kind : cleaner_req_type).

Lemma finish_wp σ s (P : cache C -> Prop) :
  inv (meta s) β m σ -> master_remaining (master s) <> 1 -> P (meta s) ->
  wp _ocf_cleaner_finish_req (fun _ => request_done β m P s) s.
Proof.
  intros HI Hr HP. apply wp_bind, wp_gets. apply wp_modify. split; try done.
  - by eapply cleaned_refl.
  - cbn. by rewrite bool_decide_eq_false_2 by lia.
Qed.

(** [cache_running] and [clock] play no part in it. *)
Definition aside (s s1 : engine C V) : Prop := exists b t, s1 = with_clock t (with_running b s).

Lemma aside_refl s : aside s s.
Proof. exists (cache_running s), (clock s). by destruct s. Qed.
Lemma request_aside P s s1 s' : aside s s1 -> request_done β m P s1 s' -> request_done β m P s s'.
Proof. intros (b & t & ->) [A1 A2 A3 A4 A5]. by split. Qed.

Lemma finish_aside σ s s1 (P : cache C -> Prop) : aside s s1 ->
  inv (meta s) β m σ -> master_remaining (master s) <> 1 -> P (meta s) ->
  wp _ocf_cleaner_finish_req (fun _ => request_done β m P s) s1.
Proof.
  intros Ha HI Hr HP. eapply wp_mono; [apply (finish_wp σ s1 P)|].
  - by destruct Ha as (b & t & ->).
  - by destruct Ha as (b & t & ->).
  - by destruct Ha as (b & t & ->).
  - intros [] s'. by apply request_aside.
Qed.

(** An error of a request: it ends the order when the request is the master. *)
Lemma set_req_error_wp error s (Q : unit -> engine C V -> Prop) :
  Q tt s -> Q tt (with_master (Master (master_remaining (master s)) error (master_calls (master s))) s) ->
  wp (set_req_error kind error) Q s.
Proof. destruct kind; intros H1 H2; [by apply wp_modify|by apply wp_ret]. Qed.

(** With an error in the master, whatever is claimed of a request holds. *)
Lemma request_failed e P P' s s' : e <> 0 ->
  request_done β m P' (with_master (Master (master_remaining (master s)) e (master_calls (master s))) s) s' ->
  request_done β m P s s'.
Proof.
  intros He [A1 A2 A3 A4 A5]. split; try done. intros H0. destruct (A5 H0) as [Hbad _]. done.
Qed.

Lemma metadata_written_wp σ s (P : cache C -> Prop) :
  inv (meta s) β m σ -> master_remaining (master s) <> 1 -> P (meta s) ->
  wp (if metadata_volatile g then _ocf_cleaner_finish_req
      else error ← ask (io_error w); _ocf_cleaner_metadata_io_end w kind error) (fun _ => request_done β m P s) s.
Proof.
  intros HI Hr HP. destruct (metadata_volatile g); [by eapply finish_wp|]. apply wp_bind.
  change (wp (_ocf_cleaner_metadata_io_end w kind (io_error w (clock s))) (fun _ => request_done β m P s) (with_clock (S (clock s)) s)).
  unfold _ocf_cleaner_metadata_io_end. case_bool_decide as He.
  - assert (Ha : aside s (with_running false (with_clock (S (clock s)) s))) by (exists false, (S (clock s)); by destruct s).
    apply wp_bind, wp_modify, wp_bind, set_req_error_wp; [by eapply finish_aside|].
    eapply wp_mono; [by eapply (finish_wp σ)|]. intros [] s' Hs'. eapply request_aside; [exact Ha|]. by eapply request_failed.
  - apply wp_bind.
    change (wp (_ocf_cleaner_flush_cache_end (io_error w (S (clock s)))) (fun _ => request_done β m P s) (with_clock (S (S (clock s))) s)).
    apply wp_bind. apply wp_when; intros _.
    + apply wp_modify. eapply finish_aside; [|done..]. exists false, (S (S (clock s))). by destruct s.
    + eapply finish_aside; [|done..]. exists (cache_running s), (S (S (clock s))). by destruct s.
Qed.

Lemma wp_on_request {A} r (mm : LM (C:=C) A) (Q : A * ocf_request -> engine C V -> Prop) s :
  wp mm (fun a c => Q (a, request c) (with_meta (with_request (request (meta s)) c) s)) (with_request r (meta s)) ->
  wp (on_request r mm) Q s.
Proof. unfold wp, on_request. by destruct (mm _) as [[a c]|]. Qed.

(** The dirty bytes of the lines to mark are on the core. *)
Definition on_core r (c : cache C) v : Prop := forall e a p, e ∈ req_map r -> to_mark e = true ->
  a / L = mi_core_line (me_info e) -> place c m (req_core r) a = Some (p, true) ->
  core_dev v (req_core r) a = cache_dev v p.

Definition flagged r (c : cache C) : Prop :=
  forall i e, req_map r !! i = Some e -> me_flush e = false -> dirty (line_status c e) = 0.

Lemma marked_cleaned σ c v r c1 :
  inv c β m σ -> clean_request m r -> on_core r c v -> marked_to c β m r (length (req_map r)) c1 ->
  cleaned β m c v (with_request (request c) c1) v /\ all_marked r (with_request (request c) c1).
Proof.
  intros HI [Hn Hes] Hon ((σ1 & HI1) & _ & Hl & Hk & Em & Hst & Hdone). split; [split|].
  - exists σ1. by apply inv_request.
  - done.
  - done.
  - intros x st Hs. destruct (Hst x st Hs) as (d & Hd & Hd'). exists d. split; [done|]. naive_solver.
  - intros core a. by left.
  - intros core a p. unfold Content.place. destruct (m !! byte_line core a) as [x|] eqn:Hx; [cbn|done].
    destruct (mapped_line g _ _ _ _ _ _ HI Hx) as (_ & st & Hs). rewrite Hs. cbn.
    destruct (Hst x st Hs) as (d & Hs1 & Hd). rewrite Hs1. cbn. intros Hp Hp'.
    destruct Hd as [->|[-> (i & e & He & Hm & Ex)]]; [destruct st as [bv bd]; cbn in *; congruence|].
    pose proof (ce_line _ _ _ _ (Hes i e He)) as Hx'. rewrite Ex in Hx'.
    pose proof (inv_inj g _ _ _ _ _ _ _ HI Hx Hx') as Eb. injection Eb as -> Ed.
    apply (Hon e a p); [by eapply list_elem_of_lookup_2|done|exact Ed|].
    unfold Content.place. rewrite Hx. cbn. by rewrite Hs.
  - intros e He Hm. apply list_elem_of_lookup in He as (i & He). apply (Hdone i e); [by eapply lookup_lt_Some|done..].
Qed.

Lemma update_metadata_wp σ s r :
  inv (meta s) β m σ -> master_remaining (master s) <> 1 -> clean_request m r ->
  flagged r (meta s) -> on_core r (meta s) (vols s) ->
  wp (_ocf_cleaner_update_metadata w g kind r) (fun _ => request_done β m (all_marked r) s) s.
Proof.
  intros HI Hrem Hr Hfl Hon. set (c := meta s) in *.
  apply wp_bind, wp_on_request. eapply wp_mono.
  - apply (for_each_line_wp _ (marked_to c β m r) (length (req_map r))); [by apply Hr| |].
    + split; [exists σ; by apply inv_request|]. split; [split_and!; [done..|by apply reflexivity]|].
      split; [done|]. split; [split; exact (fun _ H => H)|]. split; [done|]. split; [|intros; lia].
      intros x st Hs. exists (dirty st). split; [by destruct st|by left].
    + intros k c1 Hk Hmk. by eapply update_line_wp.
  - intros [] c1 Hmk. destruct (marked_cleaned σ c (vols s) r c1 HI Hr Hon Hmk) as [Hcl Hall].
    set (s1 := with_meta (with_request (request c) c1) s).
    destruct (cn_inv _ _ _ _ _ _ Hcl) as [σ1 HI1].
    eapply wp_mono; [by apply (metadata_written_wp σ1 s1 (all_marked r))|].
    intros [] s'. by eapply request_after.
Qed.

(** *** After an error no line is marked *)

Definition note_error s : engine C V :=
  with_master (Master (master_remaining (master s)) (- OCF_ERR_IO) (master_calls (master s))) s.

Lemma wp_ended error r s (Q : ocf_request -> engine C V -> Prop) :
  (error = 0 -> Q r s) -> Q (invalidate_entries r) (note_error s) -> wp (ended error r) Q s.
Proof.
  intros H0 H1. unfold ended. case_bool_decide as He; [apply wp_bind, wp_modify, wp_ret; exact H1|].
  apply wp_ret, H0. destruct (decide (error = 0)); [done|by destruct He].
Qed.

Lemma request_noted P P' s s' : request_done β m P' (note_error s) s' -> request_done β m P s s'.
Proof. by apply request_failed. Qed.

Lemma invalidated_mark r e : e ∈ req_map (invalidate_entries r) -> to_mark e = false.
Proof.
  intros (e0 & -> & _)%list_elem_of_fmap. unfold to_mark. destruct (me_flush e0) eqn:E; cbn; [by rewrite E|by rewrite E].
Qed.
Lemma invalidated_request r : clean_request m r -> clean_request m (invalidate_entries r).
Proof.
  intros [Hn Hes]. split; [cbn; by rewrite length_fmap|]. intros i e He. cbn in He. rewrite list_lookup_fmap in He.
  apply fmap_Some in He as (e0 & He0 & ->). destruct (Hes i e0 He0) as [A1 A2 A3 [A4 A5]].
  by destruct (me_flush e0); split.
Qed.
Lemma invalidated_flagged r (c : cache C) : flagged r c -> flagged (invalidate_entries r) c.
Proof.
  intros Hf i e He. cbn in He. rewrite list_lookup_fmap in He. apply fmap_Some in He as (e0 & He0 & ->).
  specialize (Hf i e0 He0). destruct (me_flush e0) eqn:E; cbn; [congruence|auto].
Qed.
Lemma invalidated_on_core r (c : cache C) v : on_core (invalidate_entries r) c v.
Proof. intros e a p He Hm. by rewrite (invalidated_mark _ _ He) in Hm. Qed.

Lemma flush_core_wp σ s r :
  inv (meta s) β m σ -> master_remaining (master s) <> 1 -> clean_request m r ->
  flagged r (meta s) -> on_core r (meta s) (vols s) ->
  wp (_ocf_cleaner_fire_flush_core w g kind r) (fun _ => request_done β m (all_marked r) s) s.
Proof.
  intros HI Hrem Hr Hfl Hon. apply wp_bind.
  change (wp (_ocf_cleaner_flush_core_end w g kind (io_error w (clock s)) r) (fun _ => request_done β m (all_marked r) s) (with_clock (S (clock s)) s)).
  set (s1 := with_clock _ s). apply wp_bind, wp_ended.
  - intros _. eapply wp_mono; [by apply (update_metadata_wp σ s1 r)|]. intros [] s'. apply request_aside.
    exists (cache_running s), (S (clock s)). by destruct s.
  - eapply wp_mono; [apply (update_metadata_wp σ (note_error s1) (invalidate_entries r)); try done|].
    + by apply invalidated_request.
    + by apply invalidated_flagged.
    + apply invalidated_on_core.
    + intros [] s' Hs'. eapply request_aside; [|by eapply request_noted].
      exists (cache_running s), (S (clock s)). by destruct s.
Qed.

Lemma core_io_end_wp σ s r error :
  inv (meta s) β m σ -> master_remaining (master s) <> 1 -> clean_request m r ->
  flagged r (meta s) -> (error = 0 -> on_core r (meta s) (vols s)) ->
  wp (_ocf_cleaner_core_io_end w g kind error r) (fun _ => request_done β m (all_marked r) s) s.
Proof.
  intros HI Hrem Hr Hfl Hon. apply wp_bind, wp_ended.
  - intros He. apply (flush_core_wp σ s r); auto.
  - eapply wp_mono; [apply (flush_core_wp σ (note_error s) (invalidate_entries r)); try done|].
    + by apply invalidated_request.
    + by apply invalidated_flagged.
    + apply invalidated_on_core.
    + intros [] s'. apply request_noted.
Qed.

(** The buffer has the bytes of the lines to mark. *)
Definition buffered r v (buf : Z -> V) : Prop := forall e a o, e ∈ req_map r -> to_mark e = true ->
  line_byte e a o -> buf o = cache_dev v (byte_addr g (me_coll_idx e) a).

(** A byte of a line of the request. *)
Lemma line_place σ c r i e a : inv c β m σ -> clean_entry m r i e -> a / L = mi_core_line (me_info e) ->
  place c m (req_core r) a = in_line g (line_status c e) (me_coll_idx e) a.
Proof.
  intros HI He Hl. destruct (entry_known c β m σ r i e HI He) as (st & Hs & -> & _).
  apply place_mapped; [|done]. unfold Content.byte_line. rewrite Hl. apply (ce_line _ _ _ _ He).
Qed.

(** The volumes after write [n] of [ios] to the core. *)
Definition core_written r v (n : nat) (buf : Z -> V) (ios : list io) : volumes V :=
  let old := core_dev v (req_core r) in
  put_core (upd_core (req_core r) (outcome w n (write_ios buf old ios) old) (core_dev v)) v.

(** [ios] has the dirty bytes of the lines to mark, and bytes in the cache. *)
Definition dirty_bytes r (c : cache C) (ios : list io) : Prop :=
  (forall a o, (a, o) ∈ mjoin (io_map <$> ios) -> exists e, e ∈ req_map r /\ to_mark e = true /\ line_byte e a o /\
     Z.testbit (valid (line_status c e)) (block_of g a) = true) /\
  (forall e a o, e ∈ req_map r -> to_mark e = true -> line_byte e a o ->
     Z.testbit (dirty (line_status c e)) (block_of g a) = true -> (a, o) ∈ mjoin (io_map <$> ios)).

Lemma written_cleaned σ c v r n buf ios : inv c β m σ -> clean_request m r -> buffered r v buf -> dirty_bytes r c ios ->
  cleaned β m c v c (core_written r v n buf ios).
Proof.
  intros HI [_ Hes] Hbuf [Hin _]. split; try done.
  - by exists σ.
  - split_and!; try done. split; exact (fun _ H => H).
  - intros x st Hs. exists (dirty st). split; [by destruct st|by left].
  - intros core a. cbn [core_dev core_written put_core]. unfold upd_core. case_decide as Hc; [subst core|by left].
    unfold outcome. destruct (_ || _); [|by left].
    destruct (write_ios_cases buf (core_dev v (req_core r)) ios a) as [(o & Ho & ->)|[_ ->]]; [right|by left].
    destruct (Hin a o Ho) as (e & He & Hm & Hl & Hv). pose proof He as (i & Hi)%list_elem_of_lookup.
    eexists _, _. split; [|by apply (Hbuf e)].
    rewrite (line_place σ c r i e a HI (Hes i e Hi) (proj1 Hl)). unfold in_line. by rewrite Hv.
  - intros core a p H1 H2. congruence.
Qed.

Lemma written_on_core σ c v r n buf ios : inv c β m σ -> clean_request m r -> buffered r v buf -> dirty_bytes r c ios ->
  io_error w n = 0 -> on_core r c (core_written r v n buf ios).
Proof.
  intros HI [_ Hes] Hbuf [Hin Hall] Herr e a p He Hm Hl Hp. pose proof He as (i & Hi)%list_elem_of_lookup.
  cbn [core_dev cache_dev core_written put_core]. unfold upd_core. rewrite decide_True by done.
  unfold outcome. rewrite bool_decide_eq_true_2 by done. cbn [orb].
  rewrite (line_place σ c r i e a HI (Hes i e Hi) Hl) in Hp. unfold in_line in Hp.
  destruct (Z.testbit (valid _) _); [|done]. injection Hp as Hp Hd. rewrite <- Hp.
  destruct (write_ios_cases buf (core_dev v (req_core r)) ios a) as [(o & Ho & ->)|[Hno _]].
  - destruct (Hin a o Ho) as (e' & He' & Hm' & Hl' & _). rewrite (Hbuf e' a o He' Hm' Hl').
    pose proof He' as (j & Hj)%list_elem_of_lookup. pose proof (ce_line _ _ _ _ (Hes i e Hi)) as H1.
    pose proof (ce_line _ _ _ _ (Hes j e' Hj)) as H2. destruct Hl' as [Hl' _]. rewrite <- Hl' in H2. rewrite <- Hl in H1.
    congruence.
  - exfalso. eapply Hno. by apply (Hall e a (mi_hash (me_info e) * L + a mod L)).
Qed.

Lemma fire_core_wp σ s r buf :
  inv (meta s) β m σ -> master_remaining (master s) <> 1 -> clean_request m r ->
  flagged r (meta s) -> buffered r (vols s) buf ->
  wp (_ocf_cleaner_fire_core w g kind r buf) (fun _ => request_done β m (all_marked r) s) s.
Proof.
  intros HI Hrem Hr Hfl Hbuf. pose proof Hr as [Hn Hes]. set (c := meta s) in *. apply wp_bind, wp_on_meta. fold c.
  eapply wp_mono.
  { apply (core_ios_wp c β m σ r); [done|]. intros e (i & He)%list_elem_of_lookup. eauto. }
  intros ios c' (-> & Hios). replace (with_meta c s) with s by (by destruct s).
  set (s1 := with_vols (core_written r (vols s) (clock s) buf ios) (with_clock (S (clock s)) s)).
  change (wp (_ocf_cleaner_core_io_end w g kind (io_error w (clock s)) r) (fun _ => request_done β m (all_marked r) s) s1).
  eapply wp_mono; [apply (core_io_end_wp σ s1 r); try done|].
  - intros Herr. by eapply written_on_core.
  - intros [] s'. eapply request_after; try done. by eapply written_cleaned.
Qed.

Lemma cache_io_end_wp σ s r error buf :
  inv (meta s) β m σ -> master_remaining (master s) <> 1 -> clean_request m r ->
  flagged r (meta s) -> (error = 0 -> buffered r (vols s) buf) ->
  wp (_ocf_cleaner_cache_io_end w g kind error r buf) (fun _ => request_done β m (all_marked r) s) s.
Proof.
  intros HI Hrem Hr Hfl Hbuf. apply wp_bind, wp_ended.
  - intros He. apply (fire_core_wp σ s r buf); auto.
  - eapply wp_mono; [apply (fire_core_wp σ (note_error s) (invalidate_entries r) buf); try done|].
    + by apply invalidated_request.
    + by apply invalidated_flagged.
    + intros e a o He Hm. by rewrite (invalidated_mark _ _ He) in Hm.
    + intros [] s'. apply request_noted.
Qed.

Lemma fire_cache_wp σ s r :
  inv (meta s) β m σ -> master_remaining (master s) <> 1 -> clean_request m r -> flagged r (meta s) ->
  wp (_ocf_cleaner_fire_cache w g kind r) (fun _ => request_done β m (all_marked r) s) s.
Proof.
  intros HI Hrem Hr Hfl.
  set (s1 := with_clock (S (S (clock s))) s).
  set (src := if bool_decide (io_error w (S (clock s)) = 0) then cache_dev (vols s) else junk w (S (clock s))).
  set (buf := read_ios src (junk w (clock s)) (read_line g <$> filter (fun e => me_flush e = true) (req_map r))).
  change (wp (_ocf_cleaner_cache_io_end w g kind (io_error w (S (clock s))) r buf) (fun _ => request_done β m (all_marked r) s) s1).
  eapply wp_mono; [apply (cache_io_end_wp σ s1 r); try done|].
  - intros Herr e a o He Hm Hl. subst buf src. rewrite bool_decide_eq_true_2 by done.
    apply list_elem_of_lookup in He as (i & Hi). eapply read_lines_at; [done|exact (proj2 Hr)|exact Hi| |done].
    unfold to_mark in Hm. by apply andb_true_iff in Hm as [? _].
  - intros [] s'. apply request_aside. exists (cache_running s), (S (S (clock s))). by destruct s.
Qed.

(** ** The check of the map and the request as a whole *)

(** The lines of the entries are clean. *)
Definition lines_clean (es : list map_entry) (c : cache C) : Prop := forall e, e ∈ es -> dirty (line_status c e) = 0.

Lemma cleaned_zero c v c' v' (e : map_entry) st : cleaned β m c v c' v' -> statuses c !! me_coll_idx e = Some st ->
  dirty (line_status c e) = 0 -> dirty (line_status c' e) = 0.
Proof.
  intros Hc Hs H0. unfold line_status in *. rewrite Hs in H0. cbn in H0.
  destruct (cn_lines _ _ _ _ _ _ Hc _ _ Hs) as (d & -> & [->| ->]); [exact H0|done].
Qed.

Lemma flag_info c e : me_info (flag c e) = me_info e.
Proof. unfold flag. by destruct (decide _). Qed.

Lemma check_map_wp σ s r :
  inv (meta s) β m σ -> master_remaining (master s) <> 1 -> clean_request m r ->
  (forall e, e ∈ req_map r -> me_flush e = false /\ me_invalid e = false) ->
  wp (_ocf_cleaner_check_map w g kind r) (fun _ => request_done β m (lines_clean (req_map r)) s) s.
Proof.
  intros HI Hrem [Hn Hes] Hnew. set (c := meta s) in *. apply wp_bind, wp_on_request.
  assert (E : with_request r c = visit c r ([] ++ req_map r) (info r)) by (by destruct r). fold c. rewrite E, Hn, Nat2Z.id.
  eapply wp_mono; [apply (check_map_loop c β m σ r (info r) (req_map r) [] true); [done|intros j e Hj; by apply Hes]|].
  intros res c' [-> Hres]. cbn [fst snd app].
  change (with_request (request c) (visit c r (flag c <$> req_map r) (info r))) with (with_request (request c) c).
  assert (Es : with_meta (with_request (request c) c) s = s) by (subst c; by destruct s as [[] ? ? ? ? ? ? ? ? ? ?]).
  change (request (visit c r (flag c <$> req_map r) (info r))) with (with_req_info (info r) (with_map (flag c <$> req_map r) r)).
  set (r' := with_req_info _ _). rewrite Es.
  assert (Hr' : clean_request m r').
  { split; [cbn; by rewrite length_fmap|]. intros i e He. cbn in He. rewrite list_lookup_fmap in He.
    apply fmap_Some in He as (e0 & He0 & ->). destruct (Hes i e0 He0) as [A1 A2 A3 [A4 A5]].
    assert (Ex : me_coll_idx (flag c e0) = me_coll_idx e0) by (unfold me_coll_idx; by rewrite flag_info).
    split; rewrite ?Ex, ?flag_info; try done. by split; rewrite flag_info. }
  destruct res.
  - destruct (Hres eq_refl) as [_ H0]. eapply finish_wp; [exact HI|done|exact H0].
  - eapply wp_mono; [apply (fire_cache_wp σ s r'); try done|].
    + intros i e He Hf. cbn in He. rewrite list_lookup_fmap in He. apply fmap_Some in He as (e0 & He0 & ->).
      fold c. unfold flag in *. by destruct (decide (dirty (line_status c e0) = 0)).
    + intros [] s' [A1 A2 A3 A4 A5]. split; try done. intros H0. destruct (A5 H0) as [HA HB]. split; [done|].
      intros e (i & Hi)%list_elem_of_lookup.
      destruct (entry_known c β m σ r i e HI (Hes i e Hi)) as (st & Hs & _).
      destruct (decide (dirty (line_status c e) = 0)) as [Hd|Hd]; [by eapply cleaned_zero|].
      assert (Hfl : flag c e ∈ req_map r').
      { apply list_elem_of_lookup_2 with i. cbn. by rewrite list_lookup_fmap, Hi. }
      specialize (HB _ Hfl). unfold line_status, me_coll_idx in *. rewrite flag_info in HB. apply HB.
      destruct (Hnew e ltac:(by eapply list_elem_of_lookup_2)) as [_ Hi0]. unfold to_mark, flag, line_status, me_coll_idx in *.
      rewrite decide_False by done. cbn. by rewrite Hi0.
Qed.
End Request.

(** ** The order *)

(** What an order needs of the state between its requests. *)
Record order_step β m (s s' : engine C V) : Prop := {
  os_cleaned : cleaned β m (meta s) (vols s) (meta s') (vols s');
  os_control : same_control s s';
  os_remaining : master_remaining (master s') = master_remaining (master s);
  os_calls : master_calls (master s') = master_calls (master s);
  os_error : master_error (master s') = 0 -> master_error (master s) = 0
}.

Lemma order_step_refl β m s σ : inv (meta s) β m σ -> order_step β m s s.
Proof. intros HI. split; try done. by eapply cleaned_refl. Qed.

Lemma order_step_trans β m s1 s2 s3 σ : inv (meta s1) β m σ ->
  order_step β m s1 s2 -> order_step β m s2 s3 -> order_step β m s1 s3.
Proof.
  intros HI [A1 A2 A3 A4 A5] [B1 B2 B3 B4 B5].
  split; [by eapply cleaned_trans|by eapply same_control_trans|congruence..|auto].
Qed.

Lemma get_req_max_count_bounds n b : 1 <= n -> 1 <= _ocf_cleaner_get_req_max_count n b <= 1024.
Proof. intros Hn. unfold _ocf_cleaner_get_req_max_count. destruct (_ || _); [|lia]. case_bool_decide; lia. Qed.

Section Order.
Context (β : bucket_map) (m : gmap core_info Z) (c0 : cache C) (v0 : volumes V) (σ0 : listing) (HI0 : inv c0 β m σ0).
Definition lines_fit m : Prop := forall ci x, m !! ci = Some x -> 0 <= core_line ci /\ (core_line ci + 1) * L <= 2 ^ 64.
Context (Hfit : lines_fit m).
Context (getter : Z -> LM (C:=C) (option Z)).
(** [P i c]: there is nothing to clean for item [i]. *)
Context (P : Z -> cache C -> Prop).
Context (Hget : forall i c1 v1, cleaned β m c0 v0 c1 v1 -> 0 <= i -> wp (getter i) (fun o c' => c' = c1 /\
  match o with
  | None => P i c1
  | Some x => (exists ci, m !! ci = Some x) /\ forall c2, (forall st, statuses c2 !! x = Some st -> dirty st = 0) -> P i c2
  end) c1).
Context (Hkeep : forall i c1 c2 v1 v2, cleaned β m c0 v0 c1 v1 -> cleaned β m c1 v1 c2 v2 -> P i c1 -> P i c2).

(** The entries [es] made from the items [from .. curr - 1]. *)
Record gathered c1 (from curr last : Z) (es : list map_entry) : Prop := {
  ga_entry i e : es !! i = Some e ->
    m !! CoreInfo last (mi_core_line (me_info e)) = Some (me_coll_idx e) /\ mi_core_id (me_info e) = last /\
    mi_hash (me_info e) = Z.of_nat i /\ me_flush e = false /\ me_invalid e = false;
  ga_last : es = [] <-> last = OCF_CORE_ID_INVALID;
  ga_curr : from + Z.of_nat (length es) <= curr;
  ga_items i : from <= i < curr -> P i c1 \/
    exists e, e ∈ es /\ forall c2, (forall st, statuses c2 !! me_coll_idx e = Some st -> dirty st = 0) -> P i c2
}.

Lemma gathered_start c1 from : gathered c1 from from OCF_CORE_ID_INVALID [].
Proof. split; [intros i e He; by rewrite lookup_nil in He|done|cbn; lia|lia]. Qed.

Lemma gathered_none c1 from curr last es : gathered c1 from curr last es -> P curr c1 -> gathered c1 from (curr + 1) last es.
Proof.
  intros [A1 A2 A3 A4] HP. split; [done|done|lia|]. intros i Hi.
  destruct (decide (i = curr)) as [->|]; [by left|]. apply A4. lia.
Qed.

Lemma gathered_some c1 from curr last es x ci :
  gathered c1 from curr last es -> m !! ci = Some x -> core_id ci <> OCF_CORE_ID_INVALID ->
  (last = OCF_CORE_ID_INVALID \/ last = core_id ci) ->
  (forall c2, (forall st, statuses c2 !! x = Some st -> dirty st = 0) -> P curr c2) ->
  gathered c1 from (curr + 1) (core_id ci)
    (es ++ [MapEntry (MapInfo (Z.of_nat (length es)) x (core_line ci) (core_id ci) LOOKUP_HIT) false false false 0 0]).
Proof.
  intros [A1 A2 A3 A4] Hx Hc Hlast HP. set (e := MapEntry _ _ _ _ _ _). split.
  - intros i e' [[Hlt He]|[-> <-]]%lookup_snoc_Some.
    + destruct Hlast as [Hl|<-]; [|by apply A1]. apply A2 in Hl as ->. by rewrite lookup_nil in He.
    + destruct ci. done.
  - split; [intros ?%(f_equal length); rewrite length_app in *; cbn in *; lia|done].
  - rewrite length_app. cbn. lia.
  - intros i Hi. destruct (decide (i = curr)) as [->|].
    + right. exists e. split; [apply elem_of_app; right; by left|exact HP].
    + destruct (A4 i ltac:(lia)) as [?|(e' & He' & HP')]; [by left|]. right. exists e'. split; [apply elem_of_app; by left|done].
Qed.

Lemma populate_wp fuel : forall s from curr last es count map_max,
  cleaned β m c0 v0 (meta s) (vols s) -> 0 <= from <= curr -> count - curr <= Z.of_nat fuel -> 1 <= map_max \/ count <= curr ->
  curr <= Z.max from count -> Z.of_nat (length es) <= Z.max 0 map_max -> gathered (meta s) from curr last es ->
  wp (populate getter fuel count curr map_max last es) (fun '(curr', last', es') s' => s' = s /\
    curr <= curr' <= Z.max from count /\ Z.of_nat (length es') <= Z.max 0 map_max /\ gathered (meta s) from curr' last' es' /\
    (es' = [] -> count <= curr')) s.
Proof.
  induction fuel as [|fuel IH]; intros s from curr last es count map_max Hcl Hc Hf Hmm Hmax Hlen Hga; cbn [populate].
  - apply wp_ret. split_and!; try done; try lia.
  - destruct (bool_decide (Z.of_nat (length es) < map_max) && bool_decide (curr < count)) eqn:Hgo; cbn [negb].
    2:{ apply wp_ret. split_and!; try done; try lia. intros ->. cbn in Hgo.
        apply andb_false_iff in Hgo as [H%bool_decide_eq_false_1|H%bool_decide_eq_false_1]; lia. }
    apply andb_true_iff in Hgo as [H1%bool_decide_eq_true_1 H2%bool_decide_eq_true_1].
    apply wp_bind, wp_on_meta. eapply wp_mono; [apply (Hget curr _ _ Hcl); lia|]. intros o c' [-> Ho].
    replace (with_meta (meta s) s) with s by (by destruct s). destruct o as [x|].
    + destruct Ho as [[ci Hx] HP]. destruct (cn_inv _ _ _ _ _ _ Hcl) as [σ1 HI1].
      destruct (proj1 (proj2 (ci_map _ _ _ _ _ _ _ HI1) _ _) Hx) as [_ Hcore].
      destruct (ci_owner _ _ _ _ _ _ _ HI1 _ _ Hx) as [Hid _].
      assert (Hne : core_id ci <> OCF_CORE_ID_INVALID) by (unfold OCF_CORE_ID_INVALID; lia).
      apply wp_bind, wp_on_meta, wp_on_map. eapply wp_load; [exact Hcore|].
      replace (with_mapping (mapping_of (meta s)) (meta s)) with (meta s) by (by destruct (meta s)).
      replace (with_meta (meta s) s) with s by (by destruct s). cbv zeta.
      destruct (decide (last = OCF_CORE_ID_INVALID \/ last = core_id ci)) as [Hl|Hl].
      * replace (if bool_decide (last = OCF_CORE_ID_INVALID) then core_id ci else last) with (core_id ci)
          by (case_bool_decide; [done|by destruct Hl as [?| ->]]).
        rewrite bool_decide_eq_true_2 by done. cbn [negb].
        eapply wp_mono; [eapply (IH s from (curr + 1)); try done; try lia; [rewrite length_app; cbn; lia|by eapply gathered_some]|].
        intros [[curr' last'] es'] s' (-> & ? & ? & ? & ?). split_and!; try done; lia.
      * rewrite (bool_decide_eq_false_2 (last = OCF_CORE_ID_INVALID)) by (intros ?; apply Hl; by left).
        rewrite bool_decide_eq_false_2 by (intros ?; apply Hl; by right). cbn [negb]. apply wp_ret.
        split_and!; try done; try lia. intros Hes. exfalso. apply Hl. left. by apply (ga_last _ _ _ _ _ Hga).
    + eapply wp_mono; [eapply (IH s from (curr + 1)); try done; try lia; by eapply gathered_none|].
      intros [[curr' last'] es'] s' (-> & ? & ? & ? & ?). split_and!; try done; lia.
Qed.

Definition lock_errors : Prop := forall n e, lock_answers w n = LockFails e -> e < 0.
Context (Hlock : lock_errors).

Lemma cleaner_lock_wp b s (Q : Z -> engine C V -> Prop) :
  (forall n e, e < 0 -> Q e (with_clock n s)) ->
  (forall n e, 0 <= e -> Q e (with_clock n s)) -> wp (_ocf_cleaner_cache_line_lock w b) Q s.
Proof.
  intros Hbad Hgood. assert (Es : with_clock (clock s) s = s) by (by destruct s). destruct b; cbn.
  - apply wp_bind.
    change (wp (match lock_answers w (clock s) with
      | LockNow => mret OCF_LOCK_ACQUIRED | LockLater => mret OCF_LOCK_NOT_ACQUIRED
      | LockFails error => _ ← bug_on (bool_decide (0 <= error)); mret error end) Q (with_clock (S (clock s)) s)).
    destruct (lock_answers w (clock s)) as [| |e] eqn:E; [by apply wp_ret, Hgood|by apply wp_ret, Hgood|].
    pose proof (Hlock _ _ E). apply wp_bind, wp_bug_on; [apply bool_decide_eq_false_2; lia|]. by apply wp_ret, Hbad.
  - apply wp_ret. rewrite <- Es. by apply Hgood.
Qed.

Definition order_request (last : Z) (es : list map_entry) : ocf_request :=
  Request last 0 0 L 0 0 (Z.of_nat (length es)) es zero_info.

Lemma gathered_request c1 from curr last es : gathered c1 from curr last es -> Z.of_nat (length es) <= 1024 ->
  clean_request m (order_request last es).
Proof.
  intros Hga Hlen. split; [done|]. intros i e He. destruct (ga_entry _ _ _ _ _ Hga i e He) as (A1 & A2 & A3 & _).
  apply lookup_lt_Some in He. cbn in He. destruct (Hfit _ _ A1) as [B1 B2]. split; try done. split; [done|lia].
Qed.

(** What is clean after the request is clean for its items. *)
Lemma items_clean c1 v1 c2 v2 from curr last es i :
  cleaned β m c0 v0 c1 v1 -> cleaned β m c1 v1 c2 v2 -> gathered c1 from curr last es -> lines_clean es c2 ->
  from <= i < curr -> P i c2.
Proof.
  intros H1 H2 Hga Hcl Hi. destruct (ga_items _ _ _ _ _ Hga i Hi) as [HP|(e & He & HP)]; [by eapply Hkeep|].
  apply HP. intros st Hs. specialize (Hcl e He). unfold line_status in Hcl. by rewrite Hs in Hcl.
Qed.

Lemma do_fire_wp kind b s from curr last es :
  cleaned β m c0 v0 (meta s) (vols s) -> master_remaining (master s) >= 1 ->
  gathered (meta s) from curr last es -> Z.of_nat (length es) <= 1024 ->
  wp (_ocf_cleaner_do_fire w g kind b (order_request last es)) (fun err s' => order_step β m s s' /\
    (err = 0 -> master_error (master s') = 0 -> forall i, from <= i < curr -> P i (meta s'))) s.
Proof.
  intros Hcl Hrem Hga Hlen. destruct (cn_inv _ _ _ _ _ _ Hcl) as [σ1 HI1].
  assert (Haside : forall n, order_step β m s (with_clock n s)) by (intros n; split; try done; by eapply cleaned_refl).
  apply wp_bind, cleaner_lock_wp; intros n e He.
  { rewrite bool_decide_eq_false_2 by lia. apply wp_ret. split; [done|lia]. }
  rewrite bool_decide_eq_true_2 by lia. apply wp_bind, wp_modify. set (s1 := with_master _ _).
  apply wp_bind. eapply wp_mono; [apply (check_map_wp β m kind σ1 s1 (order_request last es)); try done|].
  - cbn. lia.
  - by eapply gathered_request.
  - intros e' (i & Hi)%list_elem_of_lookup. by destruct (ga_entry _ _ _ _ _ Hga i e' Hi) as (_ & _ & _ & ? & ?).
  - intros [] s' [A1 A2 A3 A4 A5]. apply wp_ret. cbn in A3. split.
    + split; try done; [lia|]. intros H0. by apply A5.
    + intros _ H0 i Hi. destruct (A5 H0) as [_ Hc]. by eapply (items_clean (meta s) (vols s)).
Qed.

(** An item that needs no cleaning does not come to need it. *)
Lemma items_kept s s' i : cleaned β m c0 v0 (meta s) (vols s) -> order_step β m s s' -> P i (meta s) -> P i (meta s').
Proof. intros Hcl [A1 _ _ _ _]. by eapply Hkeep. Qed.

Lemma order_reached s s' : cleaned β m c0 v0 (meta s) (vols s) -> order_step β m s s' -> cleaned β m c0 v0 (meta s') (vols s').
Proof. intros Hcl [A1 _ _ _ _]. by eapply cleaned_trans. Qed.

Lemma alloc_wp n s (Q : option Z -> engine C V -> Prop) : 0 <= n ->
  (forall t, Q None (with_clock t s)) -> (forall t k, 0 <= k <= n -> (1 <= n -> 1 <= k) -> Q (Some k) (with_clock t s)) ->
  wp (_ocf_cleaner_alloc_req w n) Q s.
Proof.
  intros Hn Hnone Hsome. unfold _ocf_cleaner_alloc_req. apply wp_bind.
  change (wp (if allocated w (clock s) then mret (Some n) else
    (ok ← ask (allocated w); mret (if (ok : bool) then Some (_ocf_cleaner_get_req_max_count n true) else None))) Q (with_clock (S (clock s)) s)).
  destruct (allocated w (clock s)); [apply wp_ret, Hsome; lia|].
  apply wp_bind. change (wp (mret (if allocated w (S (clock s)) then Some (_ocf_cleaner_get_req_max_count n true) else None)) Q
    (with_clock (S (S (clock s))) s)).
  destruct (allocated w _); apply wp_ret; [|apply Hnone]. apply Hsome; unfold _ocf_cleaner_get_req_max_count; cbn [orb]; case_bool_decide; lia.
Qed.

(** The end of an order: without an error nothing is left for its items. *)
Definition all_items count (s' : engine C V) : Prop :=
  master_error (master s') = 0 -> forall i, 0 <= i < count -> P i (meta s').

Lemma stop_wp s e count σ : inv (meta s) β m σ -> e <> 0 ->
  wp (set_master_error e) (fun _ s' => order_step β m s s' /\ all_items count s') s.
Proof. intros HI He. apply wp_modify. split; [split; try done; by eapply cleaned_refl|intros H0; by destruct He]. Qed.

Lemma populate_req_wp s count curr map_max (Q : Z * ocf_request -> engine C V -> Prop) :
  cleaned β m c0 v0 (meta s) (vols s) -> 0 <= curr -> 1 <= map_max \/ count <= curr ->
  (forall curr' last es, curr <= curr' <= Z.max curr count -> Z.of_nat (length es) <= Z.max 0 map_max ->
     gathered (meta s) curr curr' last es -> (es = [] -> count <= curr') -> Q (curr', order_request last es) s) ->
  wp (ocf_cleaner_populate_req g getter count curr map_max) Q s.
Proof.
  intros Hcl Hc Hmm HQ. apply wp_bind. eapply wp_mono.
  { apply (populate_wp (Z.to_nat (count - curr)) s curr curr OCF_CORE_ID_INVALID []); try done; try lia; [cbn; lia|apply gathered_start]. }
  intros [[curr' last] es] s' (-> & H1 & H2 & H3 & H4). apply wp_ret. by apply HQ.
Qed.

(** The items of a request that ends well. *)
Lemma items_so_far s s' curr curr' : cleaned β m c0 v0 (meta s) (vols s) -> order_step β m s s' ->
  (master_error (master s) = 0 -> forall i, 0 <= i < curr -> P i (meta s)) ->
  (master_error (master s') = 0 -> forall i, curr <= i < curr' -> P i (meta s')) ->
  all_items curr' s'.
Proof.
  intros Hcl Hs H1 H2 H0 i Hi. destruct (decide (i < curr)) as [Hlt|Hge]; [|apply H2; [done|lia]].
  eapply items_kept; [done|done|]. apply H1; [by apply (os_error _ _ _ _ Hs)|lia].
Qed.

Lemma fire_slaves_wp b count : count < 2 ^ 32 -> forall fuel s curr max,
  cleaned β m c0 v0 (meta s) (vols s) -> master_remaining (master s) >= 1 -> 0 <= curr -> count - curr <= Z.of_nat fuel ->
  1 <= max <= 1024 -> all_items curr s ->
  wp (fire_slaves w g getter fuel b count curr max) (fun _ s' => order_step β m s s' /\ all_items count s') s.
Proof.
  intros Hcount. induction fuel as [|fuel IH]; intros s curr max Hcl Hrem Hc Hf Hmax Hall; cbn [fire_slaves].
  all: destruct (cn_inv _ _ _ _ _ _ Hcl) as [σ1 HI1].
  { apply wp_ret. split; [by eapply order_step_refl|]. intros H0 i Hi. apply Hall; [done|lia]. }
  case_bool_decide as Hlt; cbn [negb].
  2:{ apply wp_ret. split; [by eapply order_step_refl|]. intros H0 i Hi. apply Hall; [done|lia]. }
  rewrite (wrap_small 32) by lia. set (max' := Z.min max (count - curr)). assert (1 <= max' <= 1024) by lia.
  assert (Hmove : forall t s', order_step β m (with_clock t s) s' -> order_step β m s s') by (intros t s' []; by split).
  apply wp_bind, alloc_wp; [lia| |].
  { intros t. eapply wp_mono; [by eapply (stop_wp (with_clock t s) _ count)|]. intros [] s' [H1 H2]. split; [by eapply Hmove|done]. }
  intros t k Hk Hk'. apply wp_bind, populate_req_wp; [exact Hcl|done|left; lia|].
  intros curr' last es Hcurr Hlen Hga Hend. cbn [snd order_request core_line_count].
  case_bool_decide as Hes.
  { apply wp_ret. split; [apply (Hmove t); by eapply order_step_refl|]. destruct es; [|done]. specialize (Hend eq_refl).
    intros H0 i Hi. destruct (decide (i < curr)) as [Hl|Hl]; [apply Hall; [done|lia]|].
    destruct (ga_items _ _ _ _ _ Hga i ltac:(lia)) as [?|(e & He & _)]; [done|by apply not_elem_of_nil in He]. }
  apply wp_bind. eapply wp_mono; [eapply (do_fire_wp cleaner_slave b (with_clock t s)); [exact Hcl|done|exact Hga|lia]|].
  intros err s1 [Hs1 Hdone].
  assert (Hcl1 : cleaned β m c0 v0 (meta s1) (vols s1)) by (by eapply (order_reached (with_clock t s))).
  destruct (cn_inv _ _ _ _ _ _ Hcl1) as [σ2 HI2]. case_bool_decide as Herr.
  - eapply wp_mono; [by eapply (stop_wp s1 err count)|]. intros [] s' [H1 H2]. split; [|done].
    apply (Hmove t). by eapply order_step_trans.
  - assert (err = 0) as -> by lia. cbn [fst].
    assert (Hnext : curr < curr').
    { pose proof (ga_curr _ _ _ _ _ Hga). destruct es; [done|cbn in *; lia]. }
    eapply wp_mono; [apply (IH s1 curr' max'); try done; try lia|].
    + by rewrite (os_remaining _ _ _ _ Hs1).
    + by apply (items_so_far (with_clock t s) s1 curr curr'); auto.
    + intros [] s' [H1 H2]. split; [|done]. apply (Hmove t). by eapply order_step_trans.
Qed.

(** An order: its completion is called once; without an error nothing is left
    to clean. *)
Lemma ocf_cleaner_fire_wp b count s : meta s = c0 -> vols s = v0 -> 0 <= count < 2 ^ 32 ->
  wp (ocf_cleaner_fire w g getter b count) (fun calls s' =>
    cleaned β m c0 v0 (meta s') (vols s') /\ same_control s s' /\
    exists e, calls = [e] /\ (e = 0 -> forall i, 0 <= i < count -> P i (meta s'))) s.
Proof.
  intros Ec Ev Hcount. assert (Hcl : cleaned β m c0 v0 (meta s) (vols s)) by (rewrite Ec, Ev; by eapply cleaned_refl).
  assert (Hmax : 0 <= _ocf_cleaner_get_req_max_count count false <= 1024 /\ (1 <= count -> 1 <= _ocf_cleaner_get_req_max_count count false)).
  { unfold _ocf_cleaner_get_req_max_count. cbn [orb]. repeat case_bool_decide; lia. }
  apply wp_bind, alloc_wp; [lia| |].
  { intros t. apply wp_ret. split; [exact Hcl|]. split; [done|]. by eexists. }
  intros t k Hk Hk'. apply wp_bind, wp_modify. set (s1 := with_master _ _).
  apply wp_bind, (populate_req_wp s1); [exact Hcl|done|lia|].
  intros curr last es Hcurr Hlen Hga Hend. cbn [fst snd order_request core_line_count].
  assert (H1 : wp (if bool_decide (Z.of_nat (length es) = 0) then mret tt else
      err ← _ocf_cleaner_do_fire w g cleaner_master b (order_request last es);
      if bool_decide (err <> 0) then _ocf_cleaner_fire_error err
      else fire_slaves w g getter (Z.to_nat count) b count curr (_ocf_cleaner_get_req_max_count count false))
    (fun _ s' => order_step β m s1 s' /\ all_items count s') s1).
  { case_bool_decide as Hes.
    - apply wp_ret. split; [by eapply (order_step_refl _ _ s1); cbn; rewrite Ec|]. destruct es; [|done]. specialize (Hend eq_refl).
      intros _ i Hi. destruct (ga_items _ _ _ _ _ Hga i ltac:(lia)) as [?|(e & He & _)]; [done|by apply not_elem_of_nil in He].
    - apply wp_bind. eapply wp_mono; [eapply (do_fire_wp cleaner_master b s1); [exact Hcl|done|exact Hga|lia]|].
      intros err s2 [Hs2 Hdone]. assert (Hcl2 : cleaned β m c0 v0 (meta s2) (vols s2)) by (by eapply (order_reached s1)).
      destruct (cn_inv _ _ _ _ _ _ Hcl2) as [σ2 HI2]. case_bool_decide as Herr.
      + eapply wp_mono; [by eapply (stop_wp s2 err count)|]. intros [] s' [A1 A2]. split; [|done].
        eapply (order_step_trans β m s1); [cbn; by rewrite Ec|done|done].
      + assert (err = 0) as -> by lia.
        eapply wp_mono; [apply (fire_slaves_wp b count); try done; try lia|].
        * by rewrite (os_remaining _ _ _ _ Hs2).
        * apply (items_so_far s1 s2 0 curr); try done; [|auto]. intros _ i Hi. lia.
        * intros [] s' [A1 A2]. split; [|done]. eapply (order_step_trans β m s1); [cbn; by rewrite Ec|done|done]. }
  apply wp_bind. eapply wp_mono; [exact H1|]. intros [] s2 [Hs2 Hall].
  apply wp_bind, wp_bind, wp_gets. apply wp_modify, wp_gets.
  pose proof (order_reached s1 s2 Hcl Hs2) as Hcl2. split; [exact Hcl2|]. split.
  { destruct (os_control _ _ _ _ Hs2) as (B1 & B2 & B3 & B4 & B5 & B6). by split_and!. }
  exists (master_error (master s2)). cbn. rewrite (os_remaining _ _ _ _ Hs2), (os_calls _ _ _ _ Hs2). split; [done|].
  exact Hall.
Qed.
End Order.

(** ** Orders for given lines *)

Definition line_clean c x : Prop := forall st, statuses c !! x = Some st -> dirty st = 0.

Lemma cleaned_line_clean β m c v c' v' σ x : inv c β m σ -> cleaned β m c v c' v' -> (exists ci, m !! ci = Some x) ->
  line_clean c x -> line_clean c' x.
Proof.
  intros HI Hc [ci Hx] Hz st' Hs'. destruct (mapped_line g _ _ _ _ _ _ HI Hx) as (_ & st & Hs).
  destruct (cn_lines _ _ _ _ _ _ Hc x st Hs) as (d & E & Hd). rewrite E in Hs'. injection Hs' as <-. cbn.
  destruct Hd as [->|]; [by apply Hz|done].
Qed.

Lemma clean_lines_wp β m σ b s (lines : list Z) :
  lock_errors -> inv (meta s) β m σ -> lines_fit m -> Z.of_nat (length lines) < 2 ^ 32 ->
  (forall x, x ∈ lines -> exists ci, m !! ci = Some x) ->
  wp (ocf_cleaner_do_flush_data_async w g b lines) (fun calls s' =>
    cleaned β m (meta s) (vols s) (meta s') (vols s') /\ same_control s s' /\
    exists e, calls = [e] /\ (e = 0 -> forall x, x ∈ lines -> line_clean (meta s') x)) s.
Proof.
  intros Hl HI Hfit Hlen Hm. unfold ocf_cleaner_do_flush_data_async. eapply wp_mono.
  - eapply (ocf_cleaner_fire_wp β m (meta s) (vols s) σ HI Hfit _
      (fun i c => forall x, lines !! Z.to_nat i = Some x -> line_clean c x)); [| |done|done|done|lia].
    + intros i c1 v1 _ _. apply wp_ret. split; [done|]. destruct (lines !! Z.to_nat i) as [x|] eqn:Hx; [cbn|done].
      destruct (Hm x) as [ci Hci]; [by apply list_elem_of_lookup_2 with (Z.to_nat i)|].
      destruct (mapped_line g _ _ _ _ _ _ HI Hci) as (Hlt & _). rewrite bool_decide_eq_true_2 by lia.
      split; [by exists ci|]. by intros c2 Hc y [= <-].
    + intros i c1 c2 v1 v2 H1 H2 Hc x Hx. destruct (cn_inv _ _ _ _ _ _ H1) as [σ1 HI1].
      eapply cleaned_line_clean; [exact HI1|exact H2| |by apply Hc].
      by apply Hm, list_elem_of_lookup_2 with (Z.to_nat i).
  - intros calls s' (H1 & H2 & e & -> & H3). split; [done|]. split; [done|]. exists e. split; [done|].
    intros H0 x [k Hk]%list_elem_of_lookup. pose proof (lookup_lt_Some _ _ _ Hk).
    apply (H3 H0 (Z.of_nat k) ltac:(lia)). by rewrite Nat2Z.id.
Qed.

(** C5. An order to clean the lines [lines] calls its completion function exactly
    once, also when an allocation, a lock or an I/O fails.  Whatever happens,
    no reader of a core gets another byte than before, and bytes that are not
    dirty are still on their core.  When the completion reports no error, every
    line of the order is clean.  (A failed flush of the cache volume and a failed
    write of the metadata of a slave are not reported; both stop the cache.) *)
Theorem cleaner_keeps_bytes β m σ b s (lines : list Z) :
  lock_errors -> inv (meta s) β m σ -> lines_fit m -> Z.of_nat (length lines) < 2 ^ 32 ->
  (forall x, x ∈ lines -> exists ci, m !! ci = Some x) ->
  wp (ocf_cleaner_do_flush_data_async w g b lines) (fun calls s' =>
    (exists σ', inv (meta s') β m σ') /\
    (forall core a, coherent g (meta s) (vols s) m core a ->
       content g (meta s') (vols s') m core a = content g (meta s) (vols s) m core a /\
       coherent g (meta s') (vols s') m core a) /\
    exists e, calls = [e] /\ (e = 0 -> forall x, x ∈ lines -> line_clean (meta s') x)) s.
Proof.
  intros Hl HI Hfit Hlen Hm. eapply wp_mono; [by eapply clean_lines_wp|]. intros calls s' (H1 & _ & H2).
  split; [apply (cn_inv _ _ _ _ _ _ H1)|]. split; [|done]. intros core a. by eapply cleaned_content.
Qed.
End CleanerProofs.

(** ** A witness *)

(** One line, dirty in its first four blocks, on a cache volume whose byte
    [1000 + a] is the cached byte [a]. *)
Definition one_line_config : config := Config false size_4 raw_ram 1 1 2 1000 false 10 5 0 (fun core => bool_decide (core = 0)).
Definition faultless : world Z :=
  World (fun _ => 0) (fun _ _ => 777) (fun _ _ => false) (fun _ => LockNow) (fun _ => true) (fun _ => true) (fun _ => 5).
Definition idle_engine (c : cache unit) : engine unit Z :=
  Engine c (Volumes (fun p => p - 1000) (fun _ _ => -1) (fun _ => 0) None)
    (Progress 1 ocf_write_wb_h None OCF_READ ∅ 0 0 false false false false false) (Master 0 0 []) 0 false 0 true 0%nat [] [].

Lemma one_line_config_ok : config_ok one_line_config.
Proof. split; [by vm_compute; split; congruence|done|done]. Qed.

Abbreviation one_line_inv := (cache_inv (C:=unit) false size_4 1).
Abbreviation one_mapped := ({[CoreInfo 0 0 := 0]} : gmap core_info Z).

Lemma dirty_line_ready : exists c σ st, one_line_inv c (bupd 0 [0] (fun _ => [])) one_mapped σ /\
  statuses c !! 0 = Some st /\ dirty st <> 0.
Proof.
  destruct line_cache_inv as (l & σ & HI).
  assert (Hall : all_in 0 3 15).
  { intros i Hi. assert (i = 0 \/ i = 1 \/ i = 2 \/ i = 3) as [->|[->|[->| ->]]] by lia; done. }
  assert (Hw := set_dirty_wp false size_4 raw_ram 1 77 (line_cache l) _ _ σ 0 0 (CoreInfo 0 0) 0 3 (MapStatus 15 0)
    ltac:(done) HI (line_entry l) ltac:(done) ltac:(done) Hall).
  rewrite wp_run in Hw. destruct Hw as ([] & c' & _ & σ' & d' & HI' & Hol & Hd).
  exists c', σ', (MapStatus 15 d'). split; [exact HI'|]. split; [by rewrite (ol_status _ _ _ _ _ _ Hol), lookup_insert_eq|].
  cbn [dirty]. intros ->. by specialize (Hd 0 ltac:(lia)).
Qed.

Lemma one_line_fits : lines_fit one_line_config one_mapped.
Proof. intros ci x [<- _]%lookup_singleton_Some. vm_compute. by split. Qed.

Lemma cleaner_keeps_bytes_witness : exists c s' e,
  line_clean c 0 = (forall st, statuses c !! 0 = Some st -> dirty st = 0) /\ ~ line_clean c 0 /\
  ocf_cleaner_do_flush_data_async faultless one_line_config true [0] (idle_engine c) = Some ([e], s') /\
  (e = 0 -> line_clean (meta s') 0).
Proof.
  destruct dirty_line_ready as (c & σ & st & HI & Hst & Hd).
  assert (Hw := cleaner_keeps_bytes faultless one_line_config one_line_config_ok (bupd 0 [0] (fun _ => [])) one_mapped σ
    true (idle_engine c) [0] ltac:(discriminate) HI one_line_fits ltac:(reflexivity)).
  rewrite wp_run in Hw. destruct Hw as (calls & s' & Hr & _ & _ & e & -> & He).
  - intros x ->%list_elem_of_singleton. by exists (CoreInfo 0 0).
  - exists c, s', e. split; [reflexivity|]. split; [intros Hc; by apply Hd, Hc|]. split; [exact Hr|].
    intros H0. apply (He H0 0). by left.
Defined.
