(* ===== verification/EngineRuns.v ===== *)
(** * Runs of the engines

    [finishes]: a request is served within a number of turns of its queue, and
    ends as a predicate says.  The lemmas of this file are about the parts that
    the engines share: locks, waiting and checking again, cleaning, mapping and
    invalidating.  Each takes the handler from a state to the end of the request
    or to the next event, so that the lemmas of the engines compose backwards. *)

From S2P Require Import Prelude Alock AlockProofs CacheLineLock Links Lru LruProofs Generator LruPart LruPartProofs.
From S2P Require Import Collision CollisionProofs Status StatusProofs Request RequestProofs CacheLine CacheLineProofs CacheLineSteps.
From S2P Require Import Engine EngineProofs EngineCheck PartMove EngineIo EngineIoProofs EngineBase Cleaner Engines AsyncLock Content EngineSpec CleanerProofs.
Import EngineIo.

Section Steps.
Context {C V : Type} `{!CleaningPolicy C} (g : config).
Abbreviation inv := (cache_inv (C:=C) (block_4k g) (line_size g) (num_entries g)).
Implicit Types (c : cache C) (v : volumes V) (m : gmap core_info Z) (r : ocf_request) (p : progress).

(** ** What no operation of a request changes *)

Record next c c' : Prop := {
  nx_geometry : geometry (request c') = geometry (request c);
  nx_length : length (req_map (request c')) = length (req_map (request c));
  nx_locks : locks c' = locks c;
  nx_ready : ready_kept (block_4k g) (line_size g) c c'
}.
#[global] Instance next_pre : PreOrder next.
Proof.
  split; [intros c; split; try done; apply ready_kept_refl|]. intros c1 c2 c3 [A1 A2 A3 A4] [B1 B2 B3 B4].
  split; [congruence..|by eapply ready_kept_trans].
Qed.

Lemma next_frame c c' : frame (block_4k g) (line_size g) c c' -> next c c'.
Proof. intros (H1 & [H2 H3] & H4). split; [exact H2|symmetry; by eapply Forall2_length|done|done]. Qed.

Lemma next_request c q : geometry q = geometry (request c) -> length (req_map q) = length (req_map (request c)) ->
  next c (with_request q c).
Proof. intros H1 H2. split; [done|done|done|split; exact (fun _ H => H)]. Qed.

(** A request at work: a well-formed cache, a request with its map, and nobody
    else who waits for the lines. *)
Record steady c (β : bucket_map) m (σ : listing) (data_offset : Z) : Prop := {
  sd_inv : inv c β m σ;
  sd_ok : request_ok (line_size g) (request c);
  sd_aligned : aligned g (request c);
  sd_free : no_waiters g c;
  sd_part : 0 <= req_part (request c) < OCF_USER_IO_CLASS_MAX;
  sd_ready q : 0 <= q < OCF_USER_IO_CLASS_MAX -> part_ready (lru_of (block_4k g) (line_size g) c) q;
  sd_data : data_ok data_offset (request c);
  sd_fit : lines_fit g m;
  sd_cores core : valid_core g core = true -> core_ready (cores c) core;
  sd_core : valid_core g (req_core (request c)) = true;
  sd_key : core_line_last (request c) < 2 ^ OCF_CORE_LINE_BITS
}.

Lemma geometry_fields q r : geometry q = geometry r ->
  req_core q = req_core r /\ req_part q = req_part r /\ addr q = addr r /\ bytes q = bytes r /\
  core_line_first q = core_line_first r /\ core_line_last q = core_line_last r /\ core_line_count q = core_line_count r.
Proof. intros E. by injection E. Qed.

Lemma steady_next c c' β m σ β' m' σ' d : steady c β m σ d -> inv c' β' m' σ' -> next c c' -> lines_fit g m' ->
  steady c' β' m' σ' d.
Proof.
  intros [H1 [Ha Hb Hc] H3 H4 H5 H6 H7 H8 H9 H10 H11] HI [N1 N2 N3 N4] Hf.
  destruct (geometry_fields _ _ N1) as (E1 & E2 & E3 & E4 & E5 & E6 & E7). split; try done.
  - split; [by rewrite E3, E4|by rewrite E3, E4, E5, E6, E7|by rewrite N2, E7].
  - unfold aligned in *. by rewrite E3, E4.
  - intros x. unfold waits. rewrite N3. apply H4.
  - by rewrite E2.
  - intros p Hp. by apply N4, H6.
  - unfold data_ok in *. by rewrite E4.
  - intros core Hv. by apply (proj2 N4), H9.
  - by rewrite E1.
  - by rewrite E6.
Qed.

Lemma in_req_next c c' core a : next c c' -> in_req (request c') core a <-> in_req (request c) core a.
Proof. intros [N _ _ _]. destruct (geometry_fields _ _ N) as (E1 & _ & E3 & E4 & _). unfold in_req. by rewrite E1, E3, E4. Qed.

(** ** Lines with valid blocks *)

(** A line has a valid block when one of its bytes is in the cache. *)
Lemma live_byte c β m σ ci x st : inv c β m σ -> lines_fit g m -> m !! ci = Some x -> statuses c !! x = Some st ->
  valid st <> 0 <-> exists a, 0 <= a /\ a / line_bytes (line_size g) = core_line ci /\ is_Some (place g c m (core_id ci) a).
Proof.
  intros HI Hfit Hx Hst. destruct (L_bounds g) as (HL & E & HB & Hbl). set (L := line_bytes (line_size g)) in *.
  destruct (ci_bits _ _ _ _ _ _ _ HI _ _ Hst) as [Hb _]. destruct (Hfit ci x Hx) as [H0 _].
  assert (Hpl : forall a, a / L = core_line ci -> place g c m (core_id ci) a = in_line g st x a).
  { intros a Ha. apply place_mapped; [|done]. unfold byte_line. fold L. rewrite Ha. by destruct ci. }
  split.
  - intros Hv. apply some_bit_iff in Hv as (j & Hj & Hjb); [|apply Hb].
    assert (Hjl : j < ocf_line_blocks (block_4k g) (line_size g)).
    { destruct (decide (j < ocf_line_blocks (block_4k g) (line_size g))) as [|Hge]; [done|]. exfalso.
      assert (Z.testbit (valid st) j = false); [|congruence]. apply (bits_of_below (ocf_line_blocks (block_4k g) (line_size g))); [lia|apply Hb|lia]. }
    set (BS := 2 ^ OCF_BLOCK_SHIFT (block_4k g)) in *. set (a := core_line ci * L + j * BS). assert (HjB : 0 <= j * BS < L) by nia.
    assert (Hd : a / L = core_line ci) by (subst a; rewrite Z.add_comm, Z.div_add, Z.div_small; lia).
    assert (Hm : a mod L = j * BS) by (subst a; rewrite Z.add_comm, Z.mod_add, Z.mod_small; lia).
    exists a. split; [subst a; nia|]. split; [done|]. rewrite (Hpl a Hd). unfold in_line, block_of. fold L BS. rewrite Hm, Z.div_mul by lia.
    by rewrite Hjb.
  - intros (a & _ & Hd & [y Hy]) Hv. rewrite (Hpl a Hd) in Hy. unfold in_line in Hy. by rewrite Hv, Z.bits_0 in Hy.
Qed.

(** ** What the engines expect of space management *)

(** The entries and the counters of the request are those of a lookup. *)
Record seen c m : Prop := {
  se_entries : exists es, req_map (request c) = imap (view (block_4k g) (line_size g) c m (request c)) es;
  se_info : info (request c) = sums (block_4k g) (line_size g) c (request c) (req_map (request c))
}.

Lemma seen_old c m i e : seen c m -> req_map (request c) !! i = Some e -> me_status e <> LOOKUP_REMAPPED.
Proof.
  intros [[es Es] _] He. rewrite Es, list_lookup_imap in He. apply fmap_Some in He as (e0 & _ & ->).
  unfold view, me_status. destruct (m !! _); [|done]. cbn. by destruct (decide _).
Qed.

(** The lines of a request are mapped, or not; what is evicted is neither dirty
    nor of the request. *)
Record remapped rd c m (status : lookup_status) c' (β' : bucket_map) m' (σ' : listing) : Prop := {
  rm_inv : inv c' β' m' σ';
  rm_next : next c c';
  rm_lines ci : is_Some (m' !! ci) -> is_Some (m !! ci) \/ req_line (request c) ci;
  rm_place core a : 0 <= a -> place g c' m' core a = place g c m core a \/
    ~ in_req (request c) core a /\ place g c' m' core a = None /\ forall x, place g c m core a <> Some (x, true);
  rm_looked : looked g rd c' m';
  rm_found i e st : req_map (request c') !! i = Some e -> is_found e = true -> is_new e = false ->
    statuses c' !! me_coll_idx e = Some st -> valid st <> 0;
  rm_check : recheckable g rd c m -> recheckable g rd c' m';
  rm_others : live c m (fun ci => ~ req_line (request c) ci) -> live c' m' (fun ci => ~ req_line (request c) ci);
  rm_flags : mapping_error (info (request c')) = mapping_error (info (request c)) /\
    cleaning_required (info (request c')) = cleaning_required (info (request c));
  rm_mapped : status <> LOOKUP_MISS -> all_mapped c' m'
}.

Class SpaceLaws `{!SpaceManagement C} : Prop := {
  remap_law rd k own c β m σ d : steady c β m σ d -> looked g rd c m -> seen c m -> live c m (fun _ => True) ->
    wp (space_managment_remap_do k own) (fun status c' => exists β' m' σ', remapped rd c m status c' β' m' σ') c;
  eviction_law n k part c0 c β m σ d : part ∈ valid_user_parts n c0 -> steady c β m σ d ->
    Z.of_nat (length (eviction_clean_lines k part c)) < 2 ^ 32 /\
    forall x, x ∈ eviction_clean_lines k part c -> exists ci, m !! ci = Some x
}.

(** ** Locks *)

(** The lines locked for the request, all in one mode. *)
Definition holds p r : Prop := forall i d, locked p !! i = Some d -> d = alock_rw p /\
  0 <= i /\ exists e, req_map r !! Z.to_nat i = Some e /\ is_acting e = true.

Lemma entries_with_elem f r i : i ∈ entries_with f r <->
  0 <= i /\ exists e, req_map r !! Z.to_nat i = Some e /\ f e = true.
Proof.
  unfold entries_with. rewrite list_elem_of_fmap. split.
  - intros ([k e] & -> & [Hf Hin]%list_elem_of_filter). apply list_elem_of_lookup in Hin as (j & Hj).
    apply list_lookup_imap_Some in Hj as (e' & He' & [= -> ->]). cbn in *. rewrite Nat2Z.id. split; [lia|eauto].
  - intros [H0 (e & He & Hf)]. exists (Z.to_nat i, e). split; [cbn; lia|]. apply list_elem_of_filter. split; [done|].
    apply list_elem_of_lookup_2 with (Z.to_nat i). by rewrite list_lookup_imap, He.
Qed.

Lemma lock_all_lookup rw idxs l i : lock_all rw idxs l !! i = if decide (i ∈ idxs) then Some rw else l !! i.
Proof.
  unfold lock_all. induction idxs as [|j idxs IH]; cbn; [by rewrite decide_False by apply not_elem_of_nil|].
  destruct (decide (i = j)) as [->|Hne]; [by rewrite lookup_insert_eq, decide_True by left|].
  rewrite lookup_insert_ne, IH by done. apply decide_ext. rewrite elem_of_cons. naive_solver.
Qed.

Abbreviation E := (engine C V).

Lemma unlock_loop rw idxs (Q : unit -> E -> Prop) : forall s,
  (forall i d, locked (prog s) !! i = Some d -> d = rw) ->
  (forall l, (forall i, l !! i = if decide (i ∈ idxs) then None else locked (prog s) !! i) ->
     Q tt (with_prog (set_lock (alock_rw (prog s)) l (prog s)) s)) ->
  wp (m_for idxs (unlock_index rw)) Q s.
Proof.
  induction idxs as [|i idxs IH]; intros s Hrw HQ; cbn [m_for].
  - apply wp_ret. specialize (HQ (locked (prog s))). destruct s as [? ? [] ? ? ? ? ? ? ? ?]. apply HQ. intros i.
    by rewrite decide_False by apply not_elem_of_nil.
  - apply wp_bind, wp_bind, wp_gets. destruct (locked (prog s) !! i) as [d|] eqn:Hi.
    + rewrite (Hrw i d Hi). apply wp_bind, wp_bug_on; [by rewrite bool_decide_eq_true_2|]. apply wp_modify.
      apply IH; cbn [prog with_prog locked set_lock].
      * intros j d' Hj. apply lookup_delete_Some in Hj as [_ Hj]. by eapply Hrw.
      * intros l Hl. apply HQ. intros j. rewrite Hl. destruct (decide (j = i)) as [->|Hne].
        -- rewrite (decide_True (P:=i ∈ i :: idxs)) by left. rewrite lookup_delete_eq. by case_decide.
        -- rewrite lookup_delete_ne by done. apply decide_ext. rewrite elem_of_cons. naive_solver.
    + apply wp_ret. apply IH; [done|]. intros l Hl. apply HQ. intros j. rewrite Hl.
      destruct (decide (j = i)) as [->|Hne]; [rewrite (decide_True (P:=i ∈ i :: idxs)) by left; by case_decide|].
      apply decide_ext. rewrite elem_of_cons. naive_solver.
Qed.

Lemma unlock_wp s (Q : unit -> E -> Prop) :
  holds (prog s) (request (meta s)) -> Q tt (with_prog (set_lock (alock_rw (prog s)) ∅ (prog s)) s) ->
  wp (ocf_req_unlock_rw (alock_rw (prog s))) Q s.
Proof.
  intros Hh HQ. apply wp_bind, wp_gets. apply unlock_loop.
  - intros i d Hi. by apply Hh in Hi as [-> _].
  - intros l Hl. assert (l = ∅) as ->; [|done]. apply map_empty. intros i. rewrite Hl. case_decide as Hin; [done|].
    destruct (locked (prog s) !! i) as [d|] eqn:Hi; [|done]. exfalso. apply Hin. apply entries_with_elem.
    by apply Hh in Hi as (_ & ? & ?).
Qed.

Lemma unlock_any_wp s (Q : unit -> E -> Prop) :
  holds (prog s) (request (meta s)) -> Q tt (with_prog (set_lock (alock_rw (prog s)) ∅ (prog s)) s) ->
  wp ocf_req_unlock Q s.
Proof. intros Hh HQ. apply wp_bind, wp_gets. by apply unlock_wp. Qed.
End Steps.

Section Runs.
Context {C V : Type} `{!CleaningPolicy C} (w : world V) (g : config) (Hg : config_ok g).
Context `{!SpaceManagement C} `{!SpaceLaws g}.
Context (req_rw : direction) (seq_cutoff : bool) (data_offset : Z).
Abbreviation E := (engine C V).
Abbreviation inv := (cache_inv (C:=C) (block_4k g) (line_size g) (num_entries g)).
Abbreviation run_event := (run_event (C:=C) (V:=V) w g req_rw seq_cutoff data_offset).
Abbreviation place := (place (C:=C) g).
Abbreviation everything := (fun _ : core_info => True).
Implicit Types (c : cache C) (v : volumes V) (m : gmap core_info Z) (r : ocf_request) (p : progress) (s : E).

(** ** Turns of the queue *)

Definition finishes (k : nat) (Q : E -> Prop) s : Prop :=
  wp (ocf_queue_run w g req_rw seq_cutoff data_offset k) (fun _ s' => events s' = [] /\ Q s') s.

Lemma finishes_end k Q s : events s = [] -> Q s -> finishes k Q s.
Proof.
  intros He HQ. unfold finishes. induction k as [|k IH]; cbn [ocf_queue_run]; [by apply wp_ret|].
  apply wp_bind. unfold step. apply wp_bind, wp_gets. rewrite He. by apply wp_ret.
Qed.

Lemma finishes_event k Q e es s : events s = e :: es ->
  wp (run_event e) (fun _ => finishes k Q) (with_events es s) -> finishes (S k) Q s.
Proof.
  intros He Hw. unfold finishes. cbn [ocf_queue_run]. apply wp_bind. unfold step. apply wp_bind, wp_gets. rewrite He.
  apply wp_bind, wp_modify. exact Hw.
Qed.

Lemma finishes_more k k' Q s : (k <= k')%nat -> finishes k Q s -> finishes k' Q s.
Proof.
  intros Hk. revert k' Hk s. induction k as [|k IH]; intros k' Hk s Hf.
  - destruct Hf as [He HQ]. by apply finishes_end.
  - destruct k' as [|k']; [lia|]. unfold finishes in *. cbn [ocf_queue_run] in *.
    destruct (step w g req_rw seq_cutoff data_offset s) as [[[] s1]|] eqn:Es; unfold wp, mbind, M_bind in *; rewrite Es in *; [|done].
    apply (IH k' ltac:(lia) s1). exact Hf.
Qed.

Lemma wp_more {A} (mm : Prelude.M E A) k k' Q s : (k <= k')%nat ->
  wp mm (fun _ => finishes k Q) s -> wp mm (fun _ => finishes k' Q) s.
Proof. intros Hk Hw. eapply wp_mono; [exact Hw|]. intros a s'. by apply finishes_more. Qed.

(** ** Steps *)

Definition refs (n : Z) s : E := with_prog (set_refs n (prog s)) s.
Definition pend (e : event) s : E := with_events [e] (with_clock (S (clock s)) s).
Definition answer (e : Z) s : E := with_completions (completions s ++ [(e, data (vols s))]) s.
Definition handled_by h q s : E := with_prog (set_handlers h q (prog s)) s.
Definition unlocked s : E := with_prog (set_lock (alock_rw (prog s)) ∅ (prog s)) s.

Lemma wp_ask {A} (q : nat -> A) (Q : A -> E -> Prop) s : Q (q (clock s)) (with_clock (S (clock s)) s) -> wp (ask q) Q s.
Proof. done. Qed.
Lemma wp_req_get (Q : unit -> E -> Prop) s : Q tt (refs (ref_count (prog s) + 1) s) -> wp ocf_req_get Q s.
Proof. done. Qed.
Lemma wp_req_put (Q : unit -> E -> Prop) s : 0 < ref_count (prog s) -> Q tt (refs (ref_count (prog s) - 1) s) -> wp ocf_req_put Q s.
Proof.
  intros H HQ. apply wp_bind, wp_gets, wp_bind, wp_bug_on; [apply bool_decide_eq_false_2; lia|]. by apply wp_modify.
Qed.
Lemma wp_post e (Q : unit -> E -> Prop) s : events s = [] -> Q tt (pend e s) -> wp (post w e) Q s.
Proof.
  intros He HQ. unfold wp, post, mbind, M_bind, ask, modify, pend in *. cbn. rewrite He. by destruct (decision w (clock s)).
Qed.
Lemma wp_push_cb h (Q : unit -> E -> Prop) s : events s = [] -> Q tt (pend Run (handled_by h (priv (prog s)) s)) ->
  wp (ocf_queue_push_req_cb w h) Q s.
Proof. intros He HQ. apply wp_bind, wp_modify. by apply wp_post. Qed.
Lemma wp_answer e (Q : unit -> E -> Prop) s : Q tt (answer e s) -> wp (req_complete e) Q s.
Proof. done. Qed.

Lemma finishes_run k Q h s : events s = [Run] -> engine_handler (prog s) = h ->
  wp (run_handler w g req_rw seq_cutoff data_offset h) (fun _ => finishes k Q) (with_events [] s) -> finishes (S k) Q s.
Proof. intros He Hh Hw. eapply finishes_event; [exact He|]. apply wp_bind, wp_gets. cbn [prog with_events]. by rewrite Hh. Qed.
Lemma finishes_call k Q h s : events s = [Call h] ->
  wp (run_handler w g req_rw seq_cutoff data_offset h) (fun _ => finishes k Q) (with_events [] s) -> finishes (S k) Q s.
Proof. intros He Hw. by eapply finishes_event. Qed.
Lemma finishes_ended k Q (cb : completion) e s : events s = [Ended cb e] ->
  wp (run_completion w g cb e) (fun _ => finishes k Q) (with_events [] s) -> finishes (S k) Q s.
Proof. intros He Hw. by eapply finishes_event. Qed.

(** ** What is known of a request at work *)

(** [r0]: the request; [rd]: it reads, so that its own bytes are kept as well;
    [f]: the bytes of the cores as their readers are to get them; [R]: what is to
    hold in the end of the metadata, the volumes, the mapping and the answers;
    [n]: the references that are left then. *)
Context (r0 : ocf_request) (rd : Prop) (f : Z -> Z -> V).
Context (R : cache C -> volumes V -> gmap core_info Z -> list (Z * (Z -> V)) -> Prop) (n : Z).

Definition kept c v m : Prop := forall core a, 0 <= a -> rd \/ ~ in_req r0 core a ->
  content g c v m core a = f core a /\ coherent g c v m core a.

(** Bytes that are not dirty may leave the cache. *)
Lemma kept_drop c c' v m m' : (forall core a, 0 <= a -> place c' m' core a = place c m core a \/
    place c' m' core a = None /\ forall x, place c m core a <> Some (x, true)) -> kept c v m -> kept c' v m'.
Proof. intros Hpl Hk core a Ha Hp. destruct (Hk core a Ha Hp) as [<- Hco]. apply content_drop; [by apply Hpl|done]. Qed.

Record serving c v (β : bucket_map) m (σ : listing) : Prop := {
  sv_steady : steady g c β m σ data_offset;
  sv_kept : kept c v m;
  sv_request : geometry (request c) = geometry r0;
  sv_others : live c m (fun ci => ~ req_line r0 ci)
}.

(** After a lookup. *)
Record working c v (β : bucket_map) m (σ : listing) : Prop := {
  wk_serving : serving c v β m σ;
  wk_looked : looked g rd c m;
  wk_found i e st : req_map (request c) !! i = Some e -> is_found e = true -> is_new e = false ->
    statuses c !! me_coll_idx e = Some st -> valid st <> 0
}.

Definition ended s : Prop :=
  (exists β m σ, serving (meta s) (vols s) β m σ /\ R (meta s) (vols s) m (completions s)) /\
  locked (prog s) = ∅ /\ ref_count (prog s) = n.

(** What the shared parts keep of the rest of the state. *)
Definition same_account s s' : Prop :=
  completions s' = completions s /\ fallback_pt_errors s' = fallback_pt_errors s /\
  ref_count (prog s') = ref_count (prog s) /\ req_error (prog s') = req_error (prog s) /\
  cache_error (prog s') = cache_error (prog s) /\ core_error (prog s') = core_error (prog s) /\
  wi_second_pass (prog s') = wi_second_pass (prog s).

Lemma in_req_same r core a : geometry r = geometry r0 -> in_req r core a <-> in_req r0 core a.
Proof. intros N. destruct (geometry_fields _ _ N) as (E1 & _ & E3 & E4 & _). unfold in_req. by rewrite E1, E3, E4. Qed.
Lemma req_line_same r ci : geometry r = geometry r0 -> req_line r ci <-> req_line r0 ci.
Proof. intros N. destruct (geometry_fields _ _ N) as (E1 & _ & _ & _ & E5 & _ & E7). unfold req_line. by rewrite E1, E5, E7. Qed.

Definition entry_line_of r (i : nat) : core_info := CoreInfo (req_core r) (core_line_first r + Z.of_nat i).

(** A mapped line without valid blocks is a new line of the request. *)
Lemma working_zero c v β m σ ci x st : working c v β m σ -> m !! ci = Some x -> statuses c !! x = Some st -> valid st = 0 ->
  exists i e, req_map (request c) !! i = Some e /\ is_new e = true /\ ci = entry_line_of (request c) i.
Proof.
  intros [[HS _ Hr Ho] Hlk Hf] Hx Hst Hv. destruct (decide (req_line (request c) ci)) as [[Hc Hl]|Hl].
  - pose proof (ro_map _ _ (sd_ok _ _ _ _ _ _ HS)) as Hlen.
    destruct (lookup_lt_is_Some_2 (req_map (request c)) (Z.to_nat (core_line ci - core_line_first (request c)))) as [e He]; [lia|].
    pose proof (lk_map _ _ _ _ Hlk _ _ He) as Hm. rewrite Z2Nat.id in Hm by lia.
    assert (Eci : CoreInfo (req_core (request c)) (core_line_first (request c) + (core_line ci - core_line_first (request c))) = ci).
    { rewrite <- Hc. destruct ci. cbn. f_equal. lia. }
    unfold entry_maps in Hm. rewrite Eci in Hm. case_decide as Hs; [congruence|].
    assert (me_coll_idx e = x) as <- by congruence. eexists _, e. split; [exact He|]. split.
    + apply not_false_is_true. intros Hn. apply (Hf _ e st He); [|done..]. unfold is_found. by rewrite bool_decide_eq_false_2.
    + unfold entry_line_of. by rewrite Z2Nat.id, Eci by lia.
  - exfalso. apply (Ho ci x st Hx); [|done..]. by rewrite <- (req_line_same (request c)).
Qed.

(** Without new lines every mapped line has a valid block. *)
Lemma working_live c v β m σ : working c v β m σ ->
  (forall i e, req_map (request c) !! i = Some e -> is_new e = false) -> live c m everything.
Proof.
  intros HW Hnew ci x st Hx _ Hst Hv. destruct (working_zero _ _ _ _ _ _ _ _ HW Hx Hst Hv) as (i & e & He & Hn & _).
  by rewrite (Hnew i e He) in Hn.
Qed.

(** ** The end of a request *)

(** A handler may have a reference of its own left to put. *)
Definition finishing (b : bool) (k : nat) s : Prop := wp (when b ocf_req_put) (fun _ => finishes k ended) s.

Lemma finishing_event b k s : 0 <= n -> ref_count (prog s) = n + 1 + Z.b2z b -> finishes k ended (refs (n + 1) s) -> finishing b k s.
Proof.
  intros Hn Hr Hf. destruct b; unfold finishing, when; cbn in Hr.
  - apply wp_req_put; [lia|]. by replace (ref_count (prog s) - 1) with (n + 1) by lia.
  - apply wp_ret. replace s with (refs (n + 1) s); [done|]. replace (n + 1) with (ref_count (prog s)) by lia.
    by destruct s as [? ? [] ? ? ? ? ? ? ? ?].
Qed.

Lemma ended_at b k s β m σ : serving (meta s) (vols s) β m σ -> R (meta s) (vols s) m (completions s) ->
  0 <= n -> events s = [] -> locked (prog s) = ∅ -> ref_count (prog s) = n + Z.b2z b -> finishing b k s.
Proof.
  intros Hs HR Hn He Hl Hr. destruct b; unfold finishing, when; cbn in Hr; [apply wp_req_put; [lia|]|apply wp_ret];
    (apply finishes_end; [done|]); (split; [by exists β, m, σ|]); cbn; split; try done; lia.
Qed.

(** Both ways to give up the locks. *)
Definition write_locked p : Prop := alock_rw p = OCF_WRITE \/ locked p = ∅.
Definition unlocks (u : Prelude.M E unit) p : Prop := u = ocf_req_unlock \/ u = ocf_req_unlock_wr /\ write_locked p.

Lemma unlocks_wp u s (Q : unit -> E -> Prop) : unlocks u (prog s) -> holds (prog s) (request (meta s)) ->
  Q tt (unlocked s) -> wp u Q s.
Proof.
  intros [->|[-> [Hw|Hl]]] Hh HQ; [by apply unlock_any_wp|unfold ocf_req_unlock_wr; rewrite <- Hw; by apply unlock_wp|].
  apply wp_bind, wp_gets. apply unlock_loop; [intros i d; by rewrite Hl|]. intros l Hl'.
  assert (l = ∅) as ->; [|exact HQ]. apply map_empty. intros i. rewrite Hl', Hl. by case_decide.
Qed.

(** Unlock, answer and drop the last reference, in either order. *)
Lemma unlock_answer_wp u k e b s β m σ : unlocks u (prog s) -> serving (meta s) (vols s) β m σ -> 0 <= n ->
  R (meta s) (vols s) m (completions s ++ [(e, data (vols s))]) ->
  events s = [] -> holds (prog s) (request (meta s)) -> ref_count (prog s) = n + 1 + Z.b2z b ->
  wp (_ ← u; _ ← req_complete e; ocf_req_put) (fun _ => finishing b k) s.
Proof.
  intros Hu Hs Hn HR He Hh Hr. apply wp_bind, unlocks_wp; [done|done|]. apply wp_bind, wp_answer.
  apply wp_req_put; cbn; [destruct b; cbn in Hr; lia|]. eapply ended_at; [exact Hs|exact HR|done..|cbn; lia].
Qed.

Lemma answer_unlock_wp u k e b s β m σ : unlocks u (prog s) -> serving (meta s) (vols s) β m σ -> 0 <= n ->
  R (meta s) (vols s) m (completions s ++ [(e, data (vols s))]) ->
  events s = [] -> holds (prog s) (request (meta s)) -> ref_count (prog s) = n + 1 + Z.b2z b ->
  wp (_ ← req_complete e; _ ← u; ocf_req_put) (fun _ => finishing b k) s.
Proof.
  intros Hu Hs Hn HR He Hh Hr. apply wp_bind, wp_answer, wp_bind, unlocks_wp; [done|done|].
  apply wp_req_put; cbn; [destruct b; cbn in Hr; lia|]. eapply ended_at; [exact Hs|exact HR|done..|cbn; lia].
Qed.

(** Unlock and drop the last reference. *)
Lemma unlock_put_wp u k b s β m σ : unlocks u (prog s) -> serving (meta s) (vols s) β m σ -> 0 <= n ->
  R (meta s) (vols s) m (completions s) ->
  events s = [] -> holds (prog s) (request (meta s)) -> ref_count (prog s) = n + 1 + Z.b2z b ->
  wp (_ ← u; ocf_req_put) (fun _ => finishing b k) s.
Proof.
  intros Hu Hs Hn HR He Hh Hr. apply wp_bind, unlocks_wp; [done|done|].
  apply wp_req_put; cbn; [destruct b; cbn in Hr; lia|]. eapply ended_at; [exact Hs|exact HR|done..|cbn; lia].
Qed.

(** ** Purging and invalidation *)

(** The entries stand for the same lines. *)
Lemma holds_marked p q q' : Forall2 marked (req_map q) (req_map q') -> holds p q -> holds p q'.
Proof.
  intros Hm Hh i d Hi. destruct (Hh i d Hi) as (-> & H0 & e & He & Ha). split; [done|]. split; [done|].
  destruct (Forall2_lookup_l _ _ _ _ _ Hm He) as (e' & He' & [Ei _ _]). exists e'. split; [done|].
  unfold is_acting, me_status in *. by rewrite Ei.
Qed.

Definition clean_range c m : Prop := forall core a x, in_req r0 core a -> place c m core a <> Some (x, true).

Lemma lines_fit_sub m m' : m' ⊆ m -> lines_fit g m -> lines_fit g m'.
Proof. intros Hs Hf ci x Hx. eapply Hf, lookup_weaken; [exact Hx|done]. Qed.

Record purged_from c v m c' (β' : bucket_map) m' (σ' : listing) : Prop := {
  pg_serving : serving c' v β' m' σ';
  pg_live : live c' m' everything;
  pg_place core a : 0 <= a -> place c' m' core a = if decide (in_req r0 core a) then None else place c m core a;
  pg_entries : Forall2 marked (req_map (request c)) (req_map (request c'))
}.

Lemma purge_serving_wp c v β m σ : serving c v β m σ -> entries_map c m -> (rd -> clean_range c m) ->
  wp (ocf_purge_map_info (block_4k g) (line_size g) (raw g) (num_entries g) (waiter_hash g)) (fun _ c' =>
    exists β' m' σ', purged_from c v m c' β' m' σ') c.
Proof.
  intros [HS Hk Hr Ho] Hem Hcl. pose proof HS as [H1 H2 H3 H4 H5 H6 H7 H8].
  eapply wp_mono; [apply (purge_all_wp g c β m σ); try done; apply (cf_raw _ Hg)|].
  intros [] c' (β' & m' & σ' & HI' & Hf & Hsub & Hpl & Hlive). exists β', m', σ'. pose proof (next_frame g c c' Hf) as Hn.
  destruct Hf as (_ & [Hgeo Hmk] & _).
  assert (Hpl' : forall core a, 0 <= a -> place c' m' core a = if decide (in_req r0 core a) then None else place c m core a).
  { intros core a Ha. rewrite (Hpl core a Ha). apply decide_ext. by apply in_req_same. }
  assert (Hlv : live c' m' everything).
  { apply Hlive. intros ci x st Hx Hq. apply (Ho ci x st Hx). by rewrite <- (req_line_same (request c)). }
  split; [|done..]. split.
  - eapply steady_next; [exact HS|exact HI'|exact Hn|by eapply lines_fit_sub].
  - intros core a Ha Hp. destruct (Hk core a Ha Hp) as [Hc Hco]. rewrite <- Hc. apply content_drop; [|done].
    rewrite Hpl' by done. case_decide as Hin; [|by left]. right. split; [done|]. intros q. destruct Hp as [Hrd|?]; [|done]. by apply Hcl.
  - etrans; [exact (nx_geometry _ _ _ Hn)|exact Hr].
  - intros ci x st Hx _. by apply (Hlv ci x st Hx).
Qed.

Lemma flush_wp cb (Q : unit -> E -> Prop) s : events s = [] ->
  (forall t e, Q tt (with_events [Ended cb e] (with_clock t s))) -> wp (ocf_metadata_flush_do_asynch w cb) Q s.
Proof. intros He HQ. apply wp_bind. exact (wp_post _ Q (with_clock (S (clock s)) s) He (HQ _ _)). Qed.

Lemma invalidated_wp k e s β m σ : serving (meta s) (vols s) β m σ -> 0 <= n -> R (meta s) (vols s) m (completions s) ->
  events s = [] -> holds (prog s) (request (meta s)) -> alock_rw (prog s) = OCF_WRITE -> ref_count (prog s) = n + 1 ->
  wp (_ocf_invalidate_req e) (fun _ => finishes k ended) s.
Proof.
  intros Hs Hn HR He Hh Hw Hr. apply wp_bind, wp_when; intros _.
  - apply wp_modify. apply (unlock_put_wp ocf_req_unlock_wr k false _ β m σ); [right; split; [done|by left]|done..|cbn; lia].
  - apply (unlock_put_wp ocf_req_unlock_wr k false _ β m σ); [right; split; [done|by left]|done..|cbn; lia].
Qed.

(** An invalidation drops the bytes of the request and ends it. *)
Lemma invalidate_wp s β m σ : serving (meta s) (vols s) β m σ -> entries_map (meta s) m -> (rd -> clean_range (meta s) m) ->
  0 <= n -> events s = [] -> holds (prog s) (request (meta s)) -> alock_rw (prog s) = OCF_WRITE -> ref_count (prog s) = n + 1 ->
  (forall c' β' m' σ', purged_from (meta s) (vols s) m c' β' m' σ' -> R c' (vols s) m' (completions s)) ->
  wp (ocf_engine_invalidate w) (fun _ => finishes 2 ended) s.
Proof.
  intros Hs Hem Hcl Hn He Hh Hw Hr HR. apply wp_push_cb; [done|]. eapply finishes_run; [done|done|]. cbn [run_handler].
  apply wp_bind, wp_on_meta. eapply wp_mono; [by eapply purge_serving_wp|].
  intros [] c' (β' & m' & σ' & Hp). pose proof (HR _ _ _ _ Hp) as HR'. pose proof (pg_serving _ _ _ _ _ _ _ Hp) as Hs'.
  assert (Hh' : holds (prog s) (request c')) by (eapply holds_marked; [apply Hp|done]).
  set (s1 := with_meta c' _). apply wp_bind, wp_ask.
  apply wp_bind, wp_gets. destruct (_ && _).
  - apply flush_wp; [done|]. intros t e. eapply finishes_ended; [done|]. cbn [run_completion].
    eapply invalidated_wp; [exact Hs'|done|exact HR'|done|exact Hh'|done..].
  - eapply invalidated_wp; [exact Hs'|done|exact HR'|done|exact Hh'|done..].
Qed.

(** ** Cleaning *)

Definition no_dirt (q : ocf_request) : ocf_request :=
  let i := info q in with_req_info (ReqInfo (hit_no i) (invalid_no i) (re_part_no i) (seq_no i) (insert_no i) 0 0
    (flush_metadata i) (mapping_error i) (cleaning_required i)) q.

Lemma cleaned_next β m c v c' v' : cleaned g β m c v c' v' -> next g c c'.
Proof. intros Hc. destruct (cn_frame _ _ _ _ _ _ _ Hc) as (H1 & H2 & H3 & _). split; by rewrite ?H3. Qed.

Lemma cleaned_serving c v β m σ c' v' : serving c v β m σ -> cleaned g β m c v c' v' -> exists σ', serving c' v' β m σ'.
Proof.
  intros [HS Hk Hr Ho] Hc. destruct (cn_inv _ _ _ _ _ _ _ Hc) as [σ' HI']. exists σ'.
  pose proof HS as [HI _ _ _ _ _ _ Hfit]. pose proof (cleaned_next _ _ _ _ _ _ Hc) as Hn. split.
  - by eapply steady_next.
  - intros core a Ha Hp. destruct (Hk core a Ha Hp) as [<- Hco]. by eapply cleaned_content.
  - etrans; [exact (nx_geometry _ _ _ Hn)|exact Hr].
  - intros ci x st' Hx Hq Hst'. destruct (mapped_line g _ _ _ _ _ _ HI Hx) as (_ & st & Hst).
    destruct (cn_lines _ _ _ _ _ _ _ Hc x st Hst) as (d & E & _). rewrite E in Hst'. injection Hst' as <-. by apply (Ho ci x st).
Qed.

(** Once nothing of its range is dirty, a request may forget what was. *)
Lemma cleaned_working c v β m σ c' v' : working c v β m σ -> cleaned g β m c v c' v' -> (rd -> clean_range c' m) ->
  exists σ', working (with_request (no_dirt (request c')) c') v' β m σ'.
Proof.
  intros [HS Hlk Hf] Hc Hcl. destruct (cleaned_serving _ _ _ _ _ _ _ HS Hc) as [σ' HS']. exists σ'.
  destruct (cn_frame _ _ _ _ _ _ _ Hc) as (_ & _ & Eq & _). destruct HS as [Hst _ Hr0 _]. destruct HS' as [HS' Hk' Hr' Ho'].
  assert (HI : inv c β m σ) by apply Hst.
  assert (Hback : forall x st', statuses c' !! x = Some st' -> (exists ci, m !! ci = Some x) ->
    exists st, statuses c !! x = Some st /\ valid st' = valid st /\ (dirty st = 0 -> dirty st' = 0)).
  { intros x st' Hx [ci Hm]. destruct (mapped_line g _ _ _ _ _ _ HI Hm) as (_ & st & Hs). exists st. split; [done|].
    destruct (cn_lines _ _ _ _ _ _ _ Hc x st Hs) as (d & E & Hd). rewrite E in Hx. injection Hx as <-. cbn.
    split; [done|]. destruct Hd as [->| ->]; done. }
  assert (Hmap : forall i e, req_map (request c) !! i = Some e -> me_status e <> LOOKUP_MISS -> exists ci, m !! ci = Some (me_coll_idx e)).
  { intros i e He Hs. pose proof (entries_map_found c m i e (lk_map _ _ _ _ Hlk) He Hs) as H. by eexists. }
  assert (Hnew : forall e, is_new e = true -> me_status e <> LOOKUP_MISS).
  { intros e He Hs. apply bool_decide_eq_true_1 in He. congruence. }
  rewrite Eq. split; [split|split|].
  - eapply steady_next; [exact HS'| |by apply next_request; rewrite Eq|apply HS']. apply inv_request. apply HS'.
  - exact Hk'.
  - exact Hr0.
  - exact Ho'.
  - exact (lk_map _ _ _ _ Hlk).
  - exact (lk_ids _ _ _ _ Hlk).
  - intros i e st' He Hs Hx. destruct (Hback _ _ Hx) as (st & Hx' & -> & _); [eapply Hmap; [exact He|by rewrite Hs]|].
    exact (lk_valid _ _ _ _ Hlk i e st He Hs Hx').
  - exact (lk_hit _ _ _ _ Hlk).
  - intros Hrd _ core a x Hin. apply (Hcl Hrd core a x). by apply (in_req_same (no_dirt (request c))).
  - intros Hd. exfalso. unfold ocf_engine_is_dirty_all in Hd. apply bool_decide_eq_true_1 in Hd. cbn in Hd.
    destruct (request_ok_lines (block_4k g) _ _ (sd_ok _ _ _ _ _ _ Hst)) as (_ & Hn & _). lia.
  - intros i e He Hre. destruct (lk_move _ _ _ _ Hlk i e He Hre) as (Hs & ci & st & Hm & Hci & Hx & Hv).
    split; [done|]. destruct (cn_lines _ _ _ _ _ _ _ Hc _ _ Hx) as (d & E & _). by exists ci, (MapStatus (valid st) d).
  - exact (lk_seq _ _ _ _ Hlk).
  - exact (lk_flush _ _ _ _ Hlk).
  - intros i e st' He Hn Hx. destruct (Hback _ _ Hx) as (st & Hx' & -> & Hd'); [eapply Hmap; [exact He|by apply Hnew]|].
    destruct (lk_fresh _ _ _ _ Hlk i e st He Hn Hx') as [-> Hd0]. auto.
  - intros i e st' He Hfo Hn Hx. destruct (Hback _ _ Hx) as (st & Hx' & -> & _).
    { eapply Hmap; [exact He|]. unfold is_found in Hfo. by apply negb_true_iff, bool_decide_eq_false_1 in Hfo. }
    exact (Hf i e st He Hfo Hn Hx').
Qed.

Definition entry_cleaned (q : ocf_request) (i : Z) (c : cache C) : Prop := forall e, req_map q !! Z.to_nat i = Some e ->
  me_status e = LOOKUP_HIT \/ me_status e = LOOKUP_HIT_INVALID -> line_clean c (me_coll_idx e).

(** What the lines in need of cleaning are for the cleaner. *)
Lemma clean_getter_wp c v β m σ i c1 v1 : working c v β m σ -> cleaned g β m c v c1 v1 -> 0 <= i ->
  wp (_ocf_engine_clean_getter (C:=C) (block_4k g) (line_size g) i) (fun o c' => c' = c1 /\
    match o with
    | None => entry_cleaned (request c) i c1
    | Some x => (exists ci, m !! ci = Some x) /\ forall c2, line_clean c2 x -> entry_cleaned (request c) i c2
    end) c1.
Proof.
  intros [HS Hlk _] Hc Hi. destruct (cn_frame _ _ _ _ _ _ _ Hc) as (_ & _ & Eq & _).
  destruct (cn_inv _ _ _ _ _ _ _ Hc) as [σ1 HI1]. pose proof (ro_map _ _ (sd_ok _ _ _ _ _ _ (sv_steady _ _ _ _ _ HS))) as Hlen.
  apply wp_bind, wp_gets. rewrite Eq. case_bool_decide as Hge.
  { apply wp_ret. split; [done|]. intros e He. apply lookup_lt_Some in He. lia. }
  destruct (lookup_lt_is_Some_2 (req_map (request c)) (Z.to_nat i)) as [e He]; [lia|].
  apply wp_bind. eapply wp_entry; [lia|by rewrite Eq|].
  destruct (_ && _) eqn:Es.
  { apply andb_true_iff in Es as [H1%negb_true_iff%bool_decide_eq_false_1 H2%negb_true_iff%bool_decide_eq_false_1].
    apply wp_ret. split; [done|]. intros e' He' [?|?]; congruence. }
  assert (Hs : me_status e <> LOOKUP_MISS).
  { intros Hs. rewrite Hs in Es. cbn in Es. by rewrite !bool_decide_eq_false_2 in Es. }
  pose proof (entries_map_found c m _ e (lk_map _ _ _ _ Hlk) He Hs) as Hm.
  destruct (mapped_line g _ _ _ _ _ _ HI1 Hm) as (_ & st & Hst). destruct (ci_bits _ _ _ _ _ _ _ HI1 _ _ Hst) as [Hb _].
  apply wp_bind. eapply wp_test_line; [exact Hst|done|]. apply wp_ret. split; [done|].
  destruct (bool_decide (dirty st <> 0)) eqn:Ed; [apply bool_decide_eq_true_1 in Ed as Hd|apply bool_decide_eq_false_1 in Ed as Hd].
  - split; [by eexists|]. intros c2 Hc2 e' He' _. by assert (e' = e) as -> by congruence.
  - intros e' He' _ st' Hst'. assert (e' = e) as -> by congruence. assert (st' = st) as -> by congruence.
    destruct (decide (dirty st = 0)); [done|by destruct Hd].
Qed.

(** Nothing of the range is dirty when all lines found are clean. *)
Lemma range_cleaned c v β m σ c' v' : working c v β m σ -> cleaned g β m c v c' v' ->
  (forall i, 0 <= i < core_line_count (request c) -> entry_cleaned (request c) i c') -> clean_range c' m.
Proof.
  intros [HS Hlk _] Hc Hcl core a x Hin Hp. pose proof HS as [Hst _ Hr0 _]. pose proof (sd_ok _ _ _ _ _ _ Hst) as Hok.
  apply (in_req_same (request c)) in Hin; [|done].
  destruct (byte_in_entry g (request c) core a Hok (sd_aligned _ _ _ _ _ _ Hst) Hin) as (-> & H0 & [e He] & Ei & Eb & _).
  set (i := Z.to_nat (entry_index g (request c) a)) in *. pose proof (lookup_lt_Some _ _ _ He) as Hlt. pose proof (ro_map _ _ Hok) as Hlen.
  pose proof (lk_map _ _ _ _ Hlk i e He) as Hm. unfold Content.place in Hp. rewrite Eb in Hp.
  case_decide as Hs; [by rewrite Hm in Hp|]. unfold entry_maps in Hm. rewrite Hm in Hp. cbn in Hp.
  destruct (statuses c' !! me_coll_idx e) as [st'|] eqn:Hs'; [|done]. cbn in Hp. unfold in_line in Hp.
  destruct (Z.testbit (valid st') _) eqn:Hv; [|done]. injection Hp as _ Hd.
  destruct (decide (me_status e = LOOKUP_REMAPPED)) as [Hre|Hre].
  - destruct (mapped_line g _ _ _ _ _ _ (sd_inv _ _ _ _ _ _ Hst) Hm) as (_ & st & Hx).
    destruct (cn_lines _ _ _ _ _ _ _ Hc _ _ Hx) as (d & E & _). rewrite E in Hs'. injection Hs' as <-. cbn in Hv.
    destruct (lk_fresh _ _ _ _ Hlk i e st He) as [Hv0 _]; [by apply bool_decide_eq_true_2|done|]. by rewrite Hv0, Z.bits_0 in Hv.
  - rewrite (Hcl (Z.of_nat i) ltac:(lia) e ltac:(by rewrite Nat2Z.id)) in Hd; [by rewrite Z.bits_0 in Hd| |done].
    by destruct (me_status e); auto.
Qed.

Context (Hlock : lock_errors w).

(** Cleaning for a request: it goes on when its range is clean, and ends with
    the error otherwise. *)
Lemma clean_wp b k h s β m σ : working (meta s) (vols s) β m σ -> 0 <= n ->
  events s = [] -> holds (prog s) (request (meta s)) -> engine_handler (prog s) = h -> ref_count (prog s) = n + 2 + Z.b2z b ->
  (forall c' v' σ' e, e <> 0 -> serving c' v' β m σ' -> cleaned g β m (meta s) (vols s) c' v' ->
     R c' v' m (completions s ++ [(e, data v')])) ->
  (forall s' σ', working (meta s') (vols s') β m σ' -> clean_range (meta s') m -> dirty_any (info (request (meta s'))) = 0 ->
     completions s' = completions s -> data (vols s') = data (vols s) ->
     prog s' = set_refs (n + 1) (prog s) -> fallback_pt_errors s' = fallback_pt_errors s -> events s' = [] ->
     request (meta s') = no_dirt (request (meta s)) ->
     wp (run_handler w g req_rw seq_cutoff data_offset h) (fun _ => finishes k ended) s') ->
  wp (_ ← ocf_engine_clean w g; ocf_req_put) (fun _ => finishing b (S (S k))) s.
Proof.
  intros Hwk Hn He Hh Hhan Hr Herr Hgo. pose proof Hwk as [HS Hlk _]. pose proof (sv_steady _ _ _ _ _ HS) as Hst.
  pose proof (sd_inv _ _ _ _ _ _ Hst) as HI. pose proof (sd_fit _ _ _ _ _ _ Hst) as Hfit.
  destruct (request_ok_lines (block_4k g) _ _ (sd_ok _ _ _ _ _ _ Hst)) as (_ & Hcount & _).
  apply wp_bind, wp_bind, wp_gets, wp_bind. eapply wp_mono.
  { eapply (ocf_cleaner_fire_wp w g Hg β m (meta s) (vols s) σ HI Hfit _ (entry_cleaned (request (meta s))));
      [| |exact Hlock|done|done|lia].
    - intros i c1 v1 Hc Hi. by eapply clean_getter_wp.
    - intros i c1 c2 v1 v2 H1 H2 Hcl e He' Hs. destruct (cn_inv _ _ _ _ _ _ _ H1) as [σ1 HI1].
      eapply cleaned_line_clean; [exact HI1|exact H2| |by apply (Hcl e)]. eexists.
      apply (entries_map_found (meta s) m _ e (lk_map _ _ _ _ Hlk) He'). destruct Hs as [-> | ->]; done. }
  intros calls s1 (Hc & (B1 & B2 & B3 & B4 & B5 & B6) & e & -> & Hok).
  destruct (cleaned_serving _ _ _ _ _ _ _ HS Hc) as [σ1 HS1]. destruct (cn_frame _ _ _ _ _ _ _ Hc) as (_ & _ & Eq & _).
  destruct (cn_vols _ _ _ _ _ _ _ Hc) as (_ & Ed & _).
  apply wp_bind, wp_post; [congruence|]. apply wp_ret. apply wp_req_put; cbn; [rewrite B1; destruct b; cbn in Hr; lia|].
  apply finishing_event; [done|cbn; rewrite B1; lia|]. eapply finishes_ended; [done|]. cbn [run_completion]. unfold _ocf_engine_clean_end. case_bool_decide as Hee.
  - apply wp_bind, wp_modify. cbn [prog with_events with_prog pend refs]. rewrite B1.
    eapply (unlock_answer_wp ocf_req_unlock (S k) e false); [by left|exact HS1|done| |done| |cbn; lia].
    + cbn. rewrite B6. by eapply Herr.
    + cbn. rewrite Eq, B1. exact Hh.
  - assert (e = 0) as -> by (destruct (decide (e = 0)); [done|by destruct Hee]).
    assert (Hcl : clean_range (meta s1) m) by (eapply range_cleaned; [exact Hwk|exact Hc|auto]).
    destruct (cleaned_working _ _ _ _ _ _ _ Hwk Hc (fun _ => Hcl)) as [σ2 Hwk2].
    apply wp_bind, wp_on_meta, wp_modify, wp_post; [done|]. eapply finishes_run; [done|cbn; by rewrite B1|].
    eapply Hgo; try done.
    + cbn. by rewrite B1.
    + cbn. by rewrite Eq.
Qed.

(** ** Waiting for the lines *)

Lemma infos_lookup r r' i e' : me_info <$> req_map r' = me_info <$> req_map r -> req_map r' !! i = Some e' ->
  exists e, req_map r !! i = Some e /\ me_info e' = me_info e.
Proof.
  intros E He'. apply (f_equal (.!! i)) in E. rewrite !list_lookup_fmap, He' in E. symmetry in E.
  apply fmap_Some in E as (e & He & Ei). eauto.
Qed.

Lemma holds_infos p r r' : me_info <$> req_map r' = me_info <$> req_map r -> holds p r -> holds p r'.
Proof.
  intros E Hh i d Hi. destruct (Hh i d Hi) as (-> & H0 & e & He & Ha). split; [done|]. split; [done|]. symmetry in E.
  destruct (infos_lookup _ _ _ _ E He) as (e' & He' & Ei). exists e'. split; [done|]. unfold is_acting, me_status in *. by rewrite <- Ei.
Qed.

Lemma serving_request c v β m σ q : serving c v β m σ -> geometry q = geometry (request c) -> length (req_map q) = length (req_map (request c)) ->
  serving (with_request q c) v β m σ.
Proof.
  intros [HS Hk Hr Ho] Hq Hl. split; [|exact Hk|cbn; congruence|exact Ho].
  eapply steady_next; [exact HS| |by apply next_request|apply HS]. apply inv_request, HS.
Qed.

(** A request that has been granted its lines checks them and goes on. *)
Lemma granted_wp k h s β m σ : working (meta s) (vols s) β m σ -> recheckable g rd (meta s) m ->
  events s = [Granted ocf_engine_on_resume_cb] -> engine_handler (prog s) = h -> priv (prog s) = None ->
  (forall s', working (meta s') (vols s') β m σ -> me_info <$> req_map (request (meta s')) = me_info <$> req_map (request (meta s)) ->
     vols s' = vols s -> completions s' = completions s -> prog s' = prog s -> fallback_pt_errors s' = fallback_pt_errors s ->
     events s' = [] -> wp (run_handler w g req_rw seq_cutoff data_offset h) (fun _ => finishes k ended) s') ->
  finishes (S (S (S k))) ended s.
Proof.
  intros [HS Hlk Hf] Hrc He Hh Hp Hgo. eapply finishes_event; [exact He|]. cbn [run_event].
  apply wp_bind, wp_gets, wp_bind, wp_bug_on; [cbn; rewrite Hp; by apply bool_decide_eq_false_2; intros []|].
  apply wp_bind, wp_gets, wp_bind, wp_modify, wp_push_cb; [done|]. eapply finishes_run; [done|done|].
  cbn [run_handler]. apply wp_bind, wp_on_meta. pose proof (sv_steady _ _ _ _ _ HS) as Hst.
  eapply wp_mono; [apply (check_wp g rd (meta s) β m σ); [apply Hst..|done|done]|].
  intros res c' (-> & (q & -> & Hq) & Hlk' & Hinf). rewrite bool_decide_eq_true_2 by done.
  apply wp_bind, wp_gets. cbn [prog with_meta with_events pend handled_by priv set_handlers with_prog]. rewrite Hh.
  apply wp_bind, wp_modify, wp_modify. eapply finishes_call; [done|]. apply Hgo; try done.
  - split; [|exact Hlk'|].
    + apply serving_request; [exact HS|exact Hq|]. apply (f_equal length) in Hinf. by rewrite !length_fmap in Hinf.
    + intros i e' st He'. destruct (infos_lookup _ _ _ _ Hinf He') as (e & Hee & Ei).
      unfold is_found, is_new, me_status, me_coll_idx. rewrite Ei. exact (Hf i e st Hee).
  - cbn. destruct (prog s) as [? ? q0 ? ? ? ? ? ? ? ? ?]. cbn in Hp, Hh. by subst.
Qed.

(** Locking: now, later or not at all. *)
Lemma lock_wp rw cb s (Q : Z -> E -> Prop) : events s = [] ->
  (forall i d, locked (prog s) !! i = Some d -> d = rw /\ 0 <= i /\
     exists e, req_map (request (meta s)) !! Z.to_nat i = Some e /\ is_acting e = true /\ needs_lock e = false) ->
  (forall l s', holds (prog s') (request (meta s)) -> prog s' = set_lock rw l (prog s) -> meta s' = meta s -> vols s' = vols s ->
     completions s' = completions s -> fallback_pt_errors s' = fallback_pt_errors s ->
     (events s' = [] -> Q OCF_LOCK_ACQUIRED s') /\
     ((exists n, lock_answers w n = LockLater) -> events s' = [Granted cb] -> Q OCF_LOCK_NOT_ACQUIRED s')) ->
  (forall e s', (exists n, lock_answers w n = LockFails e) -> prog s' = set_lock rw (locked (prog s)) (prog s) -> meta s' = meta s -> vols s' = vols s ->
     completions s' = completions s -> fallback_pt_errors s' = fallback_pt_errors s -> events s' = [] -> Q e s') ->
  wp (ocf_req_async_lock w rw cb) Q s.
Proof.
  intros He Hl Hgo Hfail. apply wp_bind, wp_modify, wp_bind, wp_gets, wp_bind, wp_gets. cbn [prog with_prog set_lock locked meta].
  set (idxs := entries_with needs_lock _). apply wp_bind, wp_bug_on.
  { apply not_true_is_false. intros (i & Hi%list_elem_of_In & [d Hd]%bool_decide_eq_true_1)%existsb_exists.
    apply entries_with_elem in Hi as (H0 & e & Hee & Hn). destruct (Hl i d Hd) as (_ & _ & e' & He' & _ & Hn'). congruence. }
  assert (Hh : forall p', alock_rw p' = rw -> locked p' = lock_all rw idxs (locked (prog s)) -> holds p' (request (meta s))).
  { intros p' E1 E2 i d Hi. rewrite E2, lock_all_lookup in Hi. rewrite E1. case_decide as Hin.
    - injection Hi as <-. apply entries_with_elem in Hin as (H0 & e & Hee & Hn). split; [done|]. split; [done|].
      exists e. split; [done|]. unfold needs_lock, is_acting in *. by destruct (me_status e).
    - destruct (Hl i d Hi) as (-> & H0 & e & Hee & Ha & _). eauto. }
  apply wp_bind, wp_ask. change (clock (with_prog _ s)) with (clock s).
  destruct (lock_answers w (clock s)) as [| |e] eqn:Ea.
  - apply wp_bind, wp_modify, wp_ret. eapply Hgo; try done. by apply Hh.
  - apply wp_bind, wp_modify, wp_bind, wp_post; [done|]. apply wp_ret. eapply Hgo; try done; [by apply Hh|by eexists].
  - assert (e < 0) by by eapply Hlock. apply wp_bind, wp_bug_on; [apply bool_decide_eq_false_2; lia|]. apply wp_ret.
    apply Hfail; try done. by eexists.
Qed.

(** ** Looking a request up *)

(** Between two attempts: nothing is known of the entries, every mapped line
    has a valid block, and a request that may have to wait is not partly dirty. *)
Record idle c v (β : bucket_map) m (σ : listing) : Prop := {
  id_serving : serving c v β m σ;
  id_live : live c m everything;
  id_partly : (exists k, lock_answers w k = LockLater) -> rd -> partly_clean g c m
}.

(** Only the request changes, not its range. *)
Lemma idle_request c v β m σ q : idle c v β m σ -> geometry q = geometry (request c) -> length (req_map q) = length (req_map (request c)) ->
  idle (with_request q c) v β m σ.
Proof.
  intros [HS Hl Hp] Hq Hn. split; [by apply serving_request|exact Hl|].
  intros Hk Hrd core a a' x Hin Hin'. rewrite (in_req_same q), <- (in_req_same (request c)) in Hin by (rewrite ?Hq; apply HS).
  rewrite (in_req_same q), <- (in_req_same (request c)) in Hin' by (rewrite ?Hq; apply HS). by apply Hp.
Qed.

Lemma hash_geometry k r : geometry (ocf_req_hash k r) = geometry r /\ length (req_map (ocf_req_hash k r)) = length (req_map r).
Proof.
  unfold ocf_req_hash. destruct (req_map r) as [|e es] eqn:E; [by rewrite E|]. split; [done|]. cbn. f_equal.
  clear E. generalize (ocf_metadata_hash_func k (core_line_first r) (req_core r)).
  induction es as [|e' es IH]; intros h; [done|]. cbn. f_equal. apply IH.
Qed.

Lemma rehash_wp (Q : unit -> E -> Prop) s : (forall q, geometry q = geometry (request (meta s)) ->
  length (req_map q) = length (req_map (request (meta s))) -> Q tt (with_meta (with_request q (meta s)) s)) -> wp rehash Q s.
Proof. intros HQ. apply wp_on_meta, wp_bind, wp_gets, wp_modify. destruct (hash_geometry (hash_table_entries (mapping_of (meta s))) (request (meta s))). by apply HQ. Qed.

(** The request after a lookup. *)
Record found_in c v (β : bucket_map) m (σ : listing) c' : Prop := {
  fd_same : statuses c' = statuses c /\ mapping_of c' = mapping_of c;
  fd_idle : idle c' v β m σ;
  fd_working : working c' v β m σ;
  fd_check : (exists k, lock_answers w k = LockLater) -> recheckable g rd c' m;
  fd_seen : seen g c' m;
  fd_none : ocf_engine_mapped_count (request c') = 0 -> forall i e, req_map (request c') !! i = Some e -> me_status e = LOOKUP_MISS;
  fd_mapped : ocf_engine_is_mapped (request c') = true <->
    forall i, 0 <= i < core_line_count (request c) -> is_Some (m !! CoreInfo (req_core (request c)) (core_line_first (request c) + i));
  fd_all : ocf_engine_is_mapped (request c') = true -> all_mapped c' m;
  fd_flags : mapping_error (info (request c')) = false /\ cleaning_required (info (request c')) = false
}.

Lemma lookup_idle_wp c v β m σ : idle c v β m σ ->
  wp (ocf_engine_lookup (C:=C) (block_4k g) (line_size g) (walk_fuel g)) (fun _ c' => found_in c v β m σ c') c.
Proof.
  intros Hid. pose proof Hid as [HS Hlive Hp]. pose proof (sv_steady _ _ _ _ _ HS) as Hst.
  pose proof Hst as [HI Hok Hal _ _ _ _ _ _ _ _].
  eapply wp_mono; [apply (engine_lookup_wp _ _ _ _ c β m σ HI Hok (cf_fuel _ Hg))|]. intros [] c' ->.
  set (es := imap _ _). set (c' := visit _ _ _ _).
  assert (Hlive' : live c m (req_line (request c))) by (intros ci x st Hx _; exact (Hlive ci x st Hx I)).
  destruct (lookup_looked g rd c β m σ HI Hok Hal Hlive') as (L1 & L2 & L3 & L4 & L5).
  destruct (request_ok_lines (block_4k g) _ _ Hok) as (_ & Hn & _).
  destruct (sums_meaning (block_4k g) (line_size g) c m (request c) (req_map (request c)) (ro_map _ _ Hok) ltac:(lia)) as (_ & M2 & _).
  assert (Hidle : idle c' v β m σ) by (apply (idle_request c); [done|done|apply length_imap]).
  split; try done.
  - split; [apply Hidle|exact L1|]. intros i e st He Hf _ Hx.
    eapply Hlive; [|done|exact Hx].
    apply (entries_map_found c' m i e (lk_map _ _ _ _ L1) He). unfold is_found in Hf. by apply negb_true_iff, bool_decide_eq_false_1 in Hf.
  - intros Hk. apply L4. by apply Hp.
  - split; [by exists (req_map (request c))|reflexivity].
Qed.

(** Neither the status bits nor the request change. *)
Record quiet c (β : bucket_map) m c' (σ' : listing) : Prop := {
  qu_inv : inv c' β m σ';
  qu_next : next g c c';
  qu_statuses : statuses c' = statuses c;
  qu_request : request c' = request c
}.

Lemma quiet_serving c v β m σ c' σ' : serving c v β m σ -> quiet c β m c' σ' -> serving c' v β m σ'.
Proof.
  intros [HS Hk Hr Ho] [HI' Hn Es Eq]. split.
  - eapply steady_next; [exact HS|exact HI'|exact Hn|apply HS].
  - apply (kept_drop c _ _ m); [|done]. intros core a Ha. left. by apply place_same.
  - congruence.
  - by eapply live_same.
Qed.

Lemma quiet_working c v β m σ c' σ' : working c v β m σ -> quiet c β m c' σ' -> working c' v β m σ'.
Proof.
  intros [HS Hlk Hf] Hq. pose proof (quiet_serving _ _ _ _ _ _ _ HS Hq) as HS'. destruct Hq as [_ _ Es Eq].
  split; [done|by eapply looked_same|]. rewrite Es, Eq. exact Hf.
Qed.

Lemma quiet_idle c v β m σ c' σ' : idle c v β m σ -> quiet c β m c' σ' -> idle c' v β m σ'.
Proof.
  intros [HS Hl Hp] Hq. pose proof (quiet_serving _ _ _ _ _ _ _ HS Hq) as HS'. destruct Hq as [_ _ Es Eq].
  split; [done|by eapply live_same|].
  intros Hk Hrd core a a' x. unfold partly_clean in Hp. rewrite Eq, !(place_same g c c') by done. by apply Hp.
Qed.

Abbreviation relisted := (relisted (block_4k g) (line_size g) (num_entries g)).

Lemma relisted_quiet c β m c' : relisted c β m c' -> exists σ', quiet c β m c' σ'.
Proof. intros (s' & σ' & -> & HI' & Hk & _). exists σ'. split; [done|by split|done|done]. Qed.

Lemma relisted_check c β m c' : relisted c β m c' -> recheckable g rd c m -> recheckable g rd c' m.
Proof. intros (s' & σ' & -> & _ & _ & Hp). by apply recheckable_same. Qed.

Lemma hot_wp c v β m σ : working c v β m σ -> wp (ocf_engine_set_hot (C:=C) (block_4k g) (line_size g)) (fun _ => relisted c β m) c.
Proof.
  intros [HS Hlk _]. pose proof (sv_steady _ _ _ _ _ HS) as Hst.
  eapply set_hot_wp; [apply Hst|apply (ro_map _ _ (sd_ok _ _ _ _ _ _ Hst))|]. intros i e He Hf.
  eexists. apply (entries_map_found c m i e (lk_map _ _ _ _ Hlk) He). unfold is_found in Hf. by apply negb_true_iff, bool_decide_eq_false_1 in Hf.
Qed.

(** The request after a traversal. *)
Record traversed c v (β : bucket_map) m (σ : listing) : Prop := {
  tv_idle : idle c v β m σ;
  tv_working : working c v β m σ;
  tv_check : (exists k, lock_answers w k = LockLater) -> recheckable g rd c m;
  tv_none : ocf_engine_mapped_count (request c) = 0 -> forall i e, req_map (request c) !! i = Some e -> me_status e = LOOKUP_MISS;
  tv_old i e : req_map (request c) !! i = Some e -> is_new e = false
}.

Lemma traverse_wp c v β m σ : idle c v β m σ ->
  wp (ocf_engine_traverse (C:=C) (block_4k g) (line_size g) (walk_fuel g)) (fun _ c' => exists σ', traversed c' v β m σ') c.
Proof.
  intros Hid. apply wp_bind. eapply wp_mono; [by apply lookup_idle_wp|]. intros [] c1 [F1 F2 F3 F4 F5 F6 F7 F8 F9].
  eapply wp_mono; [by eapply hot_wp|]. intros [] c2 Hre. destruct (relisted_quiet _ _ _ _ Hre) as [σ2 Hq].
  pose proof (qu_request _ _ _ _ _ Hq) as Eq. exists σ2. split; [by eapply quiet_idle|by eapply quiet_working| | |].
  - intros Hk. eapply relisted_check; [exact Hre|auto].
  - by rewrite Eq.
  - intros i e. rewrite Eq. intros He. apply bool_decide_eq_false_2. by eapply (seen_old g c1 m).
Qed.

(** Moving the lines of a request to its partition. *)
Lemma engine_move_wp c v β m σ : working c v β m σ -> wp (ocf_user_part_move (C:=C) (block_4k g) (line_size g)) (fun _ c' => exists σ', quiet c β m c' σ') c.
Proof.
  intros [HS Hlk _]. pose proof (sv_steady _ _ _ _ _ HS) as Hst. pose proof (ro_map _ _ (sd_ok _ _ _ _ _ _ Hst)) as Hlen.
  eapply wp_mono.
  { eapply (user_part_move_wp (block_4k g) (line_size g) (num_entries g) c β m σ); [apply Hst|exact Hlen|apply Hst|apply Hst, Hst|exact (lk_move _ _ _ _ Hlk)]. }
  intros [] c' ((Es & Em & Eq & El & Hrdy) & [σ' HI'] & _). exists σ'. split; [done|by split; rewrite ?Eq|done|done].
Qed.

(** ** Mapping the lines of a request *)

Lemma request_lines_fit r ci : request_ok (line_size g) r -> req_line r ci ->
  0 <= core_line ci /\ (core_line ci + 1) * line_bytes (line_size g) <= 2 ^ 64.
Proof.
  intros Hok [_ Hl]. destruct (request_span g r Hok) as (H0 & HB & H64 & Ef & En). rewrite Ef, En in Hl. set (L := line_bytes (line_size g)) in *.
  assert (HL : 0 < L) by (destruct (L_bounds g); lia). pose proof (Z.div_pos (addr r) L ltac:(lia) HL). split; [lia|].
  pose proof (Z.mul_div_le (addr r + bytes r - 1) L HL).
  assert (Hd : exists k, 2 ^ 64 = k * L) by (exists (2 ^ 64 / L); subst L; destruct (line_size g); vm_compute; reflexivity).
  destruct Hd as [k Hk]. assert (core_line ci < k) by nia. nia.
Qed.

Lemma remapped_working c v β m σ status c' β' m' σ' : serving c v β m σ -> remapped g rd c m status c' β' m' σ' ->
  working c' v β' m' σ' /\ (rd -> partly_clean g c m -> partly_clean g c' m').
Proof.
  intros HS [R1 R2 R3 R4 R5 R6 R7 R8 R9 R10]. pose proof HS as [Hst Hk Hr Ho]. pose proof (sd_ok _ _ _ _ _ _ Hst) as Hok.
  assert (Hpl : forall core a, in_req (request c) core a -> place c' m' core a = place c m core a).
  { intros core a Hin. destruct (request_span g _ Hok) as (Ha & _). destruct (R4 core a) as [E|(Hn & _)]; [destruct Hin; lia|done|by destruct Hn]. }
  split; [split; [split| |done]|].
  - eapply steady_next; [exact Hst|exact R1|exact R2|]. intros ci x Hx. destruct (R3 ci) as [[y Hy]|Hq]; [by eexists| |].
    + by apply (sd_fit _ _ _ _ _ _ Hst ci y).
    + by eapply request_lines_fit.
  - apply (kept_drop c _ _ m); [|done]. intros core a Ha. destruct (R4 core a Ha) as [E|(_ & E)]; auto.
  - etrans; [exact (nx_geometry _ _ _ R2)|exact Hr].
  - intros ci x st Hx Hq. apply (R8 (fun ci x st Hx Hq => Ho ci x st Hx (fun H => Hq (proj2 (req_line_same (request c) ci Hr) H))) ci x st Hx).
    by rewrite req_line_same.
  - exact R5.
  - intros Hrd Hpc core a a' x Hin Hin'. rewrite (in_req_next g c c') in Hin by done. rewrite (in_req_next g c c') in Hin' by done.
    rewrite (Hpl core a Hin), (Hpl core a' Hin'). by apply Hpc.
Qed.

(** ** Giving up the new lines *)

(** A line without valid blocks is unmapped; no status bit changes. *)
Lemma drop_fresh_wp c β m σ ci x : inv c β m σ -> no_waiters g c -> m !! ci = Some x -> statuses c !! x = Some (MapStatus 0 0) ->
  wp (set_cache_line_invalid_no_flush (C:=C) (block_4k g) (line_size g) (num_entries g) (waiter_hash g) 0
        (ocf_line_end_block (block_4k g) (line_size g)) x)
    (fun _ c' => (exists β' σ', inv c' β' (delete ci m) σ') /\ next g c c' /\ request c' = request c /\ statuses c' = statuses c) c.
Proof.
  intros HI Hnw Hx Hst. destruct (facts _ _ _ _ _ _ _ _ _ HI Hx) as (st & nd & r & p & [[Hs Hn Hu Hl Hrdy] Hcr Hp Hb Hdv Hsm]).
  assert (st = MapStatus 0 0) as -> by congruence. destruct (proj1 (proj2 (ci_map _ _ _ _ _ _ _ HI) _ _) Hx) as [_ Hcore].
  apply wp_bind. eapply wp_part_id; [exact Hn|exact Hcore|]. cbn [fst snd].
  eapply wp_mono.
  { eapply (cl_set_invalid_wp (block_4k g) (line_size g) (num_entries g) (waiter_hash g) c β m σ ci x _ nd); [done..| |].
    - pose proof (line_blocks_bounds (block_4k g) (line_size g)). unfold block_range, ocf_line_end_block. lia.
    - intros (j & _ & Hj). by rewrite Z.bits_0 in Hj. }
  intros [] c' (v' & Es & Hv & El & Eq & Hk & Hdrop). cbn [valid dirty] in *.
  assert (v' = 0) as ->.
  { apply Z.bits_inj'. intros j Hj. rewrite (Hv j Hj), !Z.bits_0. done. }
  unfold dropped_or_kept in Hdrop. rewrite decide_False in Hdrop by (intros [?|Hw]; [done|by rewrite (Hnw x) in Hw]).
  destruct Hdrop as (β' & σ' & HI' & _). split; [by exists β', σ'|]. split; [by split; rewrite ?Eq|]. split; [done|].
  by rewrite Es, insert_id.
Qed.

(** The entries with the new ones among the first [k] given up. *)
Definition given_up (k : nat) (es : list map_entry) : list map_entry :=
  imap (fun i e => if bool_decide (i < k)%nat && is_new e then with_status LOOKUP_MISS e else e) es.

Lemma given_up_lookup k es i e : es !! i = Some e ->
  given_up k es !! i = Some (if bool_decide (i < k)%nat && is_new e then with_status LOOKUP_MISS e else e).
Proof. intros He. unfold given_up. by rewrite list_lookup_imap, He. Qed.

Lemma given_up_step k es e : es !! k = Some e ->
  given_up (S k) es = if is_new e then alter (with_status LOOKUP_MISS) k (given_up k es) else given_up k es.
Proof.
  intros He. apply list_eq. intros i. destruct (es !! i) as [e'|] eqn:Hi.
  - rewrite (given_up_lookup _ _ _ _ Hi). destruct (decide (i = k)) as [->|Hne].
    + assert (e' = e) as -> by congruence. rewrite bool_decide_eq_true_2 by lia. cbn. destruct (is_new e) eqn:En.
      * rewrite list_lookup_alter_eq, (given_up_lookup _ _ _ _ He). rewrite bool_decide_eq_false_2 by lia. done.
      * rewrite (given_up_lookup _ _ _ _ He). rewrite bool_decide_eq_false_2 by lia. done.
    + assert (Eb : bool_decide (i < S k)%nat = bool_decide (i < k)%nat) by (apply bool_decide_ext; lia).
      rewrite Eb. destruct (is_new e); [rewrite list_lookup_alter_ne by done|]; by rewrite (given_up_lookup _ _ _ _ Hi).
  - assert (Hl : forall k', given_up k' es !! i = None) by (intros k'; unfold given_up; by rewrite list_lookup_imap, Hi).
    rewrite Hl. destruct (is_new e); [|by rewrite Hl]. destruct (decide (i = k)) as [->|Hne]; [congruence|].
    by rewrite list_lookup_alter_ne, Hl.
Qed.

Record giving_up s m (k : nat) s1 : Prop := {
  gu_state : exists β1 m1 σ1, steady g (meta s1) β1 m1 σ1 data_offset /\ m1 ⊆ m /\
    (forall core a, 0 <= a -> place (meta s1) m1 core a = place (meta s) m core a) /\
    (forall i e, (k <= i)%nat -> req_map (request (meta s)) !! i = Some e -> is_new e = true ->
       m1 !! entry_line_of (request (meta s)) i = Some (me_coll_idx e)) /\
    (forall ci x st, m1 !! ci = Some x -> statuses (meta s) !! x = Some st -> valid st = 0 ->
       exists i e, (k <= i)%nat /\ req_map (request (meta s)) !! i = Some e /\ is_new e = true /\ ci = entry_line_of (request (meta s)) i);
  gu_statuses : statuses (meta s1) = statuses (meta s);
  gu_request : request (meta s1) = with_map (given_up k (req_map (request (meta s)))) (request (meta s));
  gu_rest : exists l, s1 = with_prog (set_lock (alock_rw (prog s)) l (prog s)) (with_meta (meta s1) s) /\
    forall i d, l !! i = Some d -> d = OCF_WRITE /\ 0 <= i /\ (k <= Z.to_nat i)%nat /\
      exists e, req_map (request (meta s)) !! Z.to_nat i = Some e /\ is_new e = true
}.

Section GivingUp.
Context (s : E) (β : bucket_map) (m : gmap core_info Z) (σ : listing) (HW : working (meta s) (vols s) β m σ).
Abbreviation es := (req_map (request (meta s))).

Lemma given_status (i : nat) (k : nat) e : es !! i = Some e -> (k <= i)%nat ->
  given_up k es !! i = Some e.
Proof. intros He Hk. rewrite (given_up_lookup _ _ _ _ He). by rewrite bool_decide_eq_false_2 by lia. Qed.

Lemma give_up_step (k : nat) s1 : (k < length es)%nat -> giving_up s m k s1 ->
  wp (entry ← on_meta (map_entry_of (Z.of_nat k));
      if bool_decide (me_status entry = LOOKUP_REMAPPED) then
        _ ← on_meta (set_entry (Z.of_nat k) (with_status LOOKUP_MISS));
        _ ← on_meta (set_cache_line_invalid_no_flush (block_4k g) (line_size g) (num_entries g) (waiter_hash g)
              0 (ocf_line_end_block (block_4k g) (line_size g)) (me_coll_idx entry));
        unlock_index OCF_WRITE (Z.of_nat k)
      else mret tt) (fun _ => giving_up s m (S k)) s1.
Proof.
  intros Hk [(β1 & m1 & σ1 & HS1 & Hsub & Hpl & Hnew & Hlv) Es Eq (l & El & Hl)].
  destruct (lookup_lt_is_Some_2 _ _ Hk) as [e He].
  apply wp_bind, wp_on_meta. eapply wp_entry; [lia|rewrite Eq, Nat2Z.id; by apply given_status|].
  replace (with_meta (meta s1) s1) with s1 by (by destruct s1).
  pose proof (given_up_step k _ _ He) as Estep. fold (is_new e). destruct (is_new e) eqn:Hn; cbn [negb].
  - pose proof (Hnew k e (Nat.le_refl k) He Hn) as Hx.
    assert (Hst : statuses (meta s1) !! me_coll_idx e = Some (MapStatus 0 0)).
    { destruct (mapped_line g _ _ _ _ _ _ (sd_inv _ _ _ _ _ _ HS1) Hx) as (_ & st & Hst). rewrite Hst. rewrite Es in Hst.
      destruct (lk_fresh _ _ _ _ (wk_looked _ _ _ _ _ HW) k e st He Hn Hst) as [Hv Hd]. destruct st. cbn in *. by subst. }
    apply wp_bind, wp_on_meta, wp_bind. eapply wp_entry; [lia|rewrite Eq, Nat2Z.id; by apply given_status|]. apply wp_modify.
    set (c2 := with_request _ (meta s1)). apply wp_bind, wp_on_meta. eapply wp_mono.
    { eapply (drop_fresh_wp c2 β1 m1 σ1); [apply inv_request, HS1|exact (sd_free _ _ _ _ _ _ HS1)|exact Hx|exact Hst]. }
    intros [] c3 ((β3 & σ3 & HI3) & Hn3 & Eq3 & Es3).
    assert (HS3 : steady g c3 β3 (delete (entry_line_of (request (meta s)) k) m1) σ3 data_offset).
    { eapply steady_next; [exact HS1|exact HI3| |eapply lines_fit_sub; [apply delete_subseteq|apply HS1]].
      etrans; [|exact Hn3]. apply next_request; [done|]. cbn. by rewrite length_alter. }
    assert (Hreq : request c3 = with_map (given_up (S k) es) (request (meta s))).
    { rewrite Eq3, Estep. cbn. by rewrite Eq, Nat2Z.id. }
    assert (Hgo : forall l', (forall i d, l' !! i = Some d -> l !! i = Some d /\ i <> Z.of_nat k) -> forall s2,
      s2 = with_prog (set_lock (alock_rw (prog s)) l' (prog s)) (with_meta c3 s) -> giving_up s m (S k) s2).
    { intros l' Hl' s2 ->. split.
      - exists β3, (delete (entry_line_of (request (meta s)) k) m1), σ3. split; [exact HS3|].
        split; [etrans; [apply delete_subseteq|done]|]. split; [|split].
        + intros core a Ha. rewrite <- Hpl by done. cbn [meta with_prog with_meta]. rewrite (place_drop g c3 _ _ _ core a Hx).
          * apply place_same. by rewrite Es3.
          * intros st. rewrite Es3. change (statuses c2) with (statuses (meta s1)). rewrite Hst. by intros [= <-].
        + intros i e' Hi He' Hn'. rewrite lookup_delete_ne; [apply (Hnew i e'); [lia|done..]|].
          unfold entry_line_of. intros Eln. injection Eln as Eln. lia.
        + intros ci x st [Hne Hx']%lookup_delete_Some Hs' Hv. destruct (Hlv ci x st Hx' Hs' Hv) as (i & e' & Hi & He' & Hn' & ->).
          exists i, e'. split; [|done]. destruct (decide (i = k)) as [->|]; [by destruct Hne|lia].
      - cbn. by rewrite Es3.
      - exact Hreq.
      - exists l'. split; [done|]. intros i d Hi. destruct (Hl' i d Hi) as [Hi' Hne]. destruct (Hl i d Hi') as (-> & H0 & Hki & He').
        split; [done|]. split; [done|]. split; [|done]. destruct (decide (Z.to_nat i = k)); lia. }
    apply wp_bind, wp_gets. cbn [prog with_meta].
    assert (Elk : locked (prog s1) = l) by (by rewrite El). rewrite Elk. destruct (l !! Z.of_nat k) as [d|] eqn:Hlk.
    + destruct (Hl _ _ Hlk) as (-> & _). apply wp_bind, wp_bug_on; [by rewrite bool_decide_eq_true_2|]. apply wp_modify.
      apply (Hgo (delete (Z.of_nat k) l)).
      * intros i d' [Hne Hi]%lookup_delete_Some. by split.
      * rewrite El. done.
    + apply wp_ret. apply (Hgo l).
      * intros i d' Hi. split; [done|]. intros ->. congruence.
      * rewrite El. done.
  - apply wp_ret. split; [|done| |].
    + exists β1, m1, σ1. split_and!; try done.
      * intros i e' Hi. apply Hnew. lia.
      * intros ci x st Hx Hs' Hv. destruct (Hlv ci x st Hx Hs' Hv) as (i & e' & Hi & He' & Hn' & ->).
        exists i, e'. split; [|done]. destruct (decide (i = k)) as [->|]; [congruence|lia].
    + by rewrite Eq, Estep.
    + exists l. split; [done|]. intros i d Hi. destruct (Hl i d Hi) as (-> & H0 & Hki & e' & He' & Hn').
      split; [done|]. split; [done|]. split; [|eauto]. destruct (decide (Z.to_nat i = k)) as [Ek|]; [|lia].
      rewrite Ek in He'. congruence.
Qed.

Lemma give_up_start : (forall i d, locked (prog s) !! i = Some d -> d = OCF_WRITE /\ 0 <= i /\
    exists e, es !! Z.to_nat i = Some e /\ is_new e = true) -> giving_up s m 0 s.
Proof.
  intros Hl. pose proof HW as [[Hst _ _ _] Hlk _]. split.
  - exists β, m, σ. split; [done|]. split; [done|]. split; [done|]. split.
    + intros i e _ He Hn. apply (entries_map_found (meta s) m i e (lk_map _ _ _ _ Hlk) He).
      apply bool_decide_eq_true_1 in Hn. congruence.
    + intros ci x st Hx Hs' Hv. destruct (working_zero _ _ _ _ _ _ _ _ HW Hx Hs' Hv) as (i & e & ?). exists i, e. split; [lia|done].
  - done.
  - assert (E0 : given_up 0 es = es).
    { apply list_eq. intros i. destruct (es !! i) as [e|] eqn:He; [by apply given_status; [|lia]|]. unfold given_up. by rewrite list_lookup_imap, He. }
    rewrite E0. by destruct (request (meta s)).
  - exists (locked (prog s)). split; [by destruct s as [? ? [] ? ? ? ? ? ? ? ?]|]. intros i d Hi.
    destruct (Hl i d Hi) as (? & ? & ?). split_and!; [done|done|lia|done].
Qed.

(** The new lines are unmapped and unlocked; no byte changes its place. *)
Lemma give_up_wp (Q : unit -> E -> Prop) :
  (forall i d, locked (prog s) !! i = Some d -> d = OCF_WRITE /\ 0 <= i /\
      exists e, es !! Z.to_nat i = Some e /\ is_new e = true) ->
  (forall c' β' m' σ', serving c' (vols s) β' m' σ' -> live c' m' everything ->
     (forall core a, 0 <= a -> place c' m' core a = place (meta s) m core a) -> info (request c') = info (request (meta s)) ->
     Q tt (with_prog (set_lock (alock_rw (prog s)) ∅ (prog s)) (with_meta c' s))) ->
  wp (ocf_engine_map_hndl_error g) Q s.
Proof.
  intros Hl HQ. pose proof HW as [[Hst Hk Hr Ho] Hlk Hf]. pose proof (ro_map _ _ (sd_ok _ _ _ _ _ _ Hst)) as Hlen.
  apply wp_bind, wp_gets. rewrite <- Hlen, Nat2Z.id. eapply wp_mono.
  - apply (wp_for _ _ (fun l => giving_up s m (length l))); [by apply give_up_start|]. intros pre i post s1 El Hs1.
    assert (Hlk1 : (Z.of_nat <$> seq 0 (length es)) !! length pre = Some i) by (rewrite El; by rewrite list_lookup_middle).
    rewrite list_lookup_fmap in Hlk1. apply fmap_Some in Hlk1 as (k & Hk1 & ->). apply lookup_seq in Hk1 as [-> Hk1].
    rewrite length_app, Nat.add_1_r. by apply give_up_step.
  - intros [] s1. rewrite length_fmap, length_seq. intros [(β1 & m1 & σ1 & HS1 & Hsub & Hpl & Hnew & Hlv) Es Eq (l & El & Hl1)].
    assert (l = ∅) as ->.
    { apply map_empty. intros i. destruct (l !! i) as [d|] eqn:Hi; [|done]. destruct (Hl1 i d Hi) as (_ & _ & Hge & e & He & _).
      apply lookup_lt_Some in He. lia. }
    assert (Hlive : live (meta s1) m1 everything).
    { intros ci x st Hx _ Hs' Hv. rewrite Es in Hs'. destruct (Hlv ci x st Hx Hs' Hv) as (i & e & Hi & He & _). apply lookup_lt_Some in He. lia. }
    rewrite El. eapply HQ; [|exact Hlive|exact Hpl|by rewrite Eq]. split; [exact HS1| | |].
    + apply (kept_drop (meta s) _ _ m); [|done]. intros core a Ha. left. by apply Hpl.
    + by rewrite Eq.
    + intros ci x st Hx _. by apply (Hlive ci x st Hx).
Qed.
End GivingUp.

(** ** Preparing the lines of a request *)

Definition flagged_request (a b : bool) (q : ocf_request) : ocf_request :=
  let i := info q in with_req_info (ReqInfo (hit_no i) (invalid_no i) (re_part_no i) (seq_no i) (insert_no i)
    (dirty_all i) (dirty_any i) (flush_metadata i) a b) q.

Lemma working_flags c v β m σ a b : working c v β m σ -> working (with_request (flagged_request a b (request c)) c) v β m σ.
Proof. intros [HS [] Hf]. split; [by apply serving_request| |exact Hf]. by split. Qed.

(** What preparing keeps of the rest of the state. *)
Record after s s' : Prop := {
  af_data : data (vols s') = data (vols s);
  af_answers : completions s' = completions s;
  af_faults : fallback_pt_errors s' = fallback_pt_errors s;
  af_prog : ref_count (prog s') = ref_count (prog s) /\ engine_handler (prog s') = engine_handler (prog s) /\
    priv (prog s') = priv (prog s) /\ req_error (prog s') = req_error (prog s) /\ cache_error (prog s') = cache_error (prog s) /\
    core_error (prog s') = core_error (prog s) /\ wi_second_pass (prog s') = wi_second_pass (prog s)
}.
#[local] Instance after_pre : PreOrder after.
Proof.
  split; [by intros s; split|]. intros s1 s2 s3 [A1 A2 A3 (A4 & A5 & A6 & A7 & A8 & A9 & A10)] [B1 B2 B3 (B4 & B5 & B6 & B7 & B8 & B9 & B10)].
  split; [congruence..|]. split_and!; congruence.
Qed.

(** A lock can only fail when nothing has to be mapped. *)
Definition failing_locks c m : Prop := (exists k e, lock_answers w k = LockFails e) ->
  forall i, 0 <= i < core_line_count (request c) -> is_Some (m !! CoreInfo (req_core (request c)) (core_line_first (request c) + i)).

Lemma cleaned_idle c v β m σ c' v' : idle c v β m σ -> cleaned g β m c v c' v' -> exists σ', idle c' v' β m σ'.
Proof.
  intros [HS Hl Hp] Hc. destruct (cleaned_serving _ _ _ _ _ _ _ HS Hc) as [σ' HS']. exists σ'.
  destruct (cn_frame _ _ _ _ _ _ _ Hc) as (_ & _ & Eq & _). assert (HI : inv c β m σ) by apply HS. split; [done| |].
  - intros ci x st' Hx _ Hs'. destruct (mapped_line g _ _ _ _ _ _ HI Hx) as (_ & st & Hst).
    destruct (cn_lines _ _ _ _ _ _ _ Hc x st Hst) as (d & E & _). rewrite E in Hs'. injection Hs' as <-. by apply (Hl ci x st).
  - intros Hk Hrd core a a' x. rewrite Eq. intros Hin Hin' Ed Hn Hpx. apply (Hp Hk Hrd core a a' x Hin Hin' Ed).
    + destruct (cleaned_place _ _ _ _ _ _ _ _ core a' HI Hc) as [<-|(y & _ & Ey)]; [done|congruence].
    + destruct (cleaned_place _ _ _ _ _ _ _ _ core a HI Hc) as [<-|(y & _ & Ey)]; [done|congruence].
Qed.

Lemma eviction_clean_idle_wp moment part c0 s β m σ (Q : unit -> E -> Prop) : part ∈ valid_user_parts moment c0 ->
  idle (meta s) (vols s) β m σ ->
  (forall s' σ', idle (meta s') (vols s') β m σ' -> after s s' -> prog s' = prog s -> request (meta s') = request (meta s) ->
     events s' = events s -> Q tt s') ->
  wp (ocf_eviction_clean w g part) Q s.
Proof.
  intros Hpart Hid HQ. apply wp_bind, wp_ask. set (k := clock s).
  apply wp_bind, wp_gets. cbv zeta. set (s1 := with_clock _ s). set (lines := eviction_clean_lines _ _ _).
  assert (HI : inv (meta s1) β m σ) by apply Hid.
  destruct (eviction_law g moment k part c0 (meta s1) β m σ data_offset Hpart (sv_steady _ _ _ _ _ (id_serving _ _ _ _ _ Hid))) as [Hlen Hlines].
  destruct (decide (lines = [])) as [Hnil|Hnil].
  { rewrite bool_decide_eq_true_2 by done. apply wp_ret. apply (HQ s1 σ Hid); [by split|done..]. }
  rewrite bool_decide_eq_false_2 by done. apply wp_bind. eapply wp_mono.
  { eapply (clean_lines_wp w g Hg β m σ false s1 lines Hlock HI); [apply Hid|exact Hlen|exact Hlines]. }
  intros calls s' (Hc & (B1 & B2 & B3 & B4 & B5 & B6) & _). apply wp_ret.
  destruct (cleaned_idle _ _ _ _ _ _ _ Hid Hc) as [σ' Hid']. destruct (cn_vols _ _ _ _ _ _ _ Hc) as (_ & Ed & _).
  destruct (cn_frame _ _ _ _ _ _ _ Hc) as (_ & _ & Eq & _).
  apply (HQ s' σ' Hid'); [|done..]. split; [done|done|done|]. by rewrite B1.
Qed.

Lemma clean_user_parts_idle_wp s β m σ (Q : unit -> E -> Prop) : idle (meta s) (vols s) β m σ ->
  (forall s' σ', idle (meta s') (vols s') β m σ' -> after s s' -> prog s' = prog s -> request (meta s') = request (meta s) ->
     events s' = events s -> Q tt s') ->
  wp (clean_user_parts w g) Q s.
Proof.
  intros Hid HQ. apply wp_bind, wp_ask. set (s1 := with_clock _ s). apply wp_bind, wp_gets. cbv zeta.
  change (meta s1) with (meta s). set (parts := valid_user_parts (id (clock s)) (meta s)).
  assert (Hin : forall part, part ∈ parts -> part ∈ valid_user_parts (clock s) (meta s)) by done. clearbody parts.
  assert (H1 : idle (meta s1) (vols s1) β m σ) by exact Hid. assert (Ha : after s s1) by by split.
  assert (Hs : prog s1 = prog s /\ request (meta s1) = request (meta s) /\ events s1 = events s) by done.
  clearbody s1. clear Hid. revert σ s1 H1 Ha Hs HQ. induction parts as [|part parts IH]; intros σ s1 H1 Ha (E1 & E2 & E3) HQ; cbn [m_for].
  { apply wp_ret. by apply (HQ s1 σ). }
  apply wp_bind. eapply eviction_clean_idle_wp; [by apply Hin; left|exact H1|]. intros s2 σ2 H2 Ha2 F1 F2 F3.
  eapply (IH ltac:(intros p Hp; apply Hin; by right) σ2 s2); [exact H2|by etrans|split_and!; congruence|exact HQ].
Qed.

Section Prepare.
Context (s0 : E) (Q : Z -> E -> Prop).
Context (Hno : forall lock s' β' m' σ', idle (meta s') (vols s') β' m' σ' -> mapping_error (info (request (meta s'))) = true ->
  after s0 s' -> locked (prog s') = ∅ -> events s' = [] -> Q lock s').
Context (Hyes : forall s' β' m' σ', working (meta s') (vols s') β' m' σ' -> all_mapped (meta s') m' ->
  mapping_error (info (request (meta s'))) = false -> holds (prog s') (request (meta s')) ->
  (alock_rw (prog s') = OCF_READ -> forall i e, req_map (request (meta s')) !! i = Some e -> is_new e = false) ->
  (req_rw = OCF_WRITE -> alock_rw (prog s') = OCF_WRITE) -> after s0 s' ->
  (events s' = [] -> Q OCF_LOCK_ACQUIRED s') /\
  (events s' = [Granted ocf_engine_on_resume_cb] -> recheckable g rd (meta s') m' -> Q OCF_LOCK_NOT_ACQUIRED s')).

(** The lines of a request that is mapped are locked. *)
Lemma lock_clines_wp s β m σ (Q' : Z -> E -> Prop) : working (meta s) (vols s) β m σ -> events s = [] ->
  (forall i d, locked (prog s) !! i = Some d -> d = OCF_WRITE /\ 0 <= i /\
     exists e, req_map (request (meta s)) !! Z.to_nat i = Some e /\ is_new e = true) ->
  (forall s', holds (prog s') (request (meta s)) -> meta s' = meta s -> vols s' = vols s -> after s s' ->
     (alock_rw (prog s') = OCF_READ -> forall i e, req_map (request (meta s)) !! i = Some e -> is_new e = false) ->
     (req_rw = OCF_WRITE -> alock_rw (prog s') = OCF_WRITE) ->
     (events s' = [] -> Q' OCF_LOCK_ACQUIRED s') /\
     ((exists k, lock_answers w k = LockLater) -> events s' = [Granted ocf_engine_on_resume_cb] -> Q' OCF_LOCK_NOT_ACQUIRED s')) ->
  (forall e s', (exists k, lock_answers w k = LockFails e) -> e < 0 -> meta s' = meta s -> vols s' = vols s -> after s s' ->
     locked (prog s') = locked (prog s) -> events s' = [] -> Q' e s') ->
  wp (lock_clines w req_rw) Q' s.
Proof.
  intros HW He Hl Hgo Hf. apply wp_bind, wp_gets. cbv zeta.
  set (rw := if _ && _ then OCF_READ else OCF_WRITE).
  assert (Hrd : rw = OCF_READ -> forall i e, req_map (request (meta s)) !! i = Some e -> is_new e = false).
  { intros Er i e Hee. subst rw. destruct (_ && _) eqn:Eb; [|done]. apply andb_true_iff in Eb as [_ Hh].
    apply bool_decide_eq_false_2. rewrite (lk_hit _ _ _ _ (wk_looked _ _ _ _ _ HW) Hh i e Hee). done. }
  assert (Hwr : req_rw = OCF_WRITE -> rw = OCF_WRITE).
  { intros Er. subst rw. rewrite (bool_decide_eq_false_2 (req_rw = OCF_READ)) by congruence. done. }
  assert (H : wp (ocf_req_async_lock w rw ocf_engine_on_resume_cb) Q' s).
  { apply lock_wp; [done| | |].
    - intros i d Hi. destruct (Hl i d Hi) as (-> & H0 & e & Hee & Hn). split; [|split; [done|]].
      + destruct rw eqn:Er; [|done]. by rewrite (Hrd eq_refl _ _ Hee) in Hn.
      + exists e. split; [done|]. apply bool_decide_eq_true_1 in Hn. unfold is_acting, needs_lock. by rewrite Hn.
    - intros l s' Hh Ep Em Ev Ec Ef. apply Hgo; try done; [|by rewrite Ep..]. split; [by rewrite Ev|done|done|by rewrite Ep].
    - intros e s' Hk Ep Em Ev Ec Ef Hev. destruct Hk as [k Hk]. apply Hf; try done; [by eexists|by eapply Hlock| |by rewrite Ep].
      split; [by rewrite Ev|done|done|by rewrite Ep]. }
  case_bool_decide as Hrw; [by rewrite Hrw in H|]. destruct rw; [exact H|done].
Qed.

Lemma mapping_error_wp e s β m σ : idle (meta s) (vols s) β m σ -> after s0 s -> locked (prog s) = ∅ -> events s = [] ->
  wp (_ ← ocf_req_set_mapping_error; mret e) Q s.
Proof.
  intros Hid Ha Hl He. apply wp_bind, wp_on_meta, wp_modify, wp_ret. eapply Hno; [|done| |done|done].
  - by apply (idle_request _ _ _ _ _ _ Hid).
  - etrans; [exact Ha|by split].
Qed.

(** Touching the lines keeps what is known of a request. *)
Lemma hot_and_wp s β m σ (Q' : unit -> E -> Prop) : working (meta s) (vols s) β m σ ->
  (forall c' σ', working c' (vols s) β m σ' -> request c' = request (meta s) -> (recheckable g rd (meta s) m -> recheckable g rd c' m) ->
     Q' tt (with_meta c' s)) ->
  wp (on_meta (ocf_engine_set_hot (C:=C) (block_4k g) (line_size g))) Q' s.
Proof.
  intros HW HQ. apply wp_on_meta. eapply wp_mono; [by eapply hot_wp|]. intros [] c' Hre.
  destruct (relisted_quiet _ _ _ _ Hre) as [σ' Hq].
  eapply HQ; [by eapply quiet_working|apply Hq|]. by eapply relisted_check.
Qed.

Lemma all_mapped_request c c' m : request c' = request c -> all_mapped c m -> all_mapped c' m.
Proof. intros E H. unfold all_mapped. by rewrite E. Qed.

(** A request whose lines are mapped. *)
Lemma ready_wp s β m σ lock : working (meta s) (vols s) β m σ -> all_mapped (meta s) m -> after s0 s ->
  mapping_error (info (request (meta s))) = false -> holds (prog s) (request (meta s)) ->
  (alock_rw (prog s) = OCF_READ -> forall i e, req_map (request (meta s)) !! i = Some e -> is_new e = false) ->
  (req_rw = OCF_WRITE -> alock_rw (prog s) = OCF_WRITE) ->
  lock = OCF_LOCK_ACQUIRED /\ events s = [] \/
  lock = OCF_LOCK_NOT_ACQUIRED /\ events s = [Granted ocf_engine_on_resume_cb] /\ recheckable g rd (meta s) m ->
  wp (on_meta (ocf_engine_set_hot (C:=C) (block_4k g) (line_size g))) (fun _ s' => request (meta s') = request (meta s) /\ Q lock s') s.
Proof.
  intros HW Hall Ha He Hh Hrd Hwr Hlk. eapply hot_and_wp; [exact HW|]. intros c' σ' HW' Eq Hck. split; [exact Eq|].
  destruct (Hyes (with_meta c' s) β m σ' HW') as [Hnow Hlater].
  - by eapply all_mapped_request.
  - cbn. by rewrite Eq.
  - cbn. by rewrite Eq.
  - cbn. by rewrite Eq.
  - done.
  - etrans; [exact Ha|by split].
  - destruct Hlk as [[-> Hev]|(-> & Hev & Hr)]; [by apply Hnow|]. apply Hlater; [done|by apply Hck].
Qed.

(** Space management has mapped the lines, or not. *)
Record remapped_state s (β' : bucket_map) m' (σ' : listing) s' : Prop := {
  rs_working : working (meta s') (vols s) β' m' σ';
  rs_vols : vols s' = vols s;
  rs_after : after s s';
  rs_events : events s' = events s;
  rs_locked i d : locked (prog s') !! i = Some d -> d = OCF_WRITE /\ 0 <= i /\
    exists e, req_map (request (meta s')) !! Z.to_nat i = Some e /\ is_new e = true;
  rs_flags : mapping_error (info (request (meta s'))) = false /\ cleaning_required (info (request (meta s'))) = false
}.

Lemma remap_wp s c β m σ (Q' : lookup_status -> E -> Prop) : idle c (vols s) β m σ -> found_in c (vols s) β m σ (meta s) ->
  locked (prog s) = ∅ ->
  (forall status s' β' m' σ', remapped_state s β' m' σ' s' -> (status <> LOOKUP_MISS -> all_mapped (meta s') m') ->
     ((exists k, lock_answers w k = LockLater) -> recheckable g rd (meta s') m') ->
     ((exists k, lock_answers w k = LockLater) -> rd -> partly_clean g (meta s') m') -> Q' status s') ->
  wp (ocf_space_managment_remap_do) Q' s.
Proof.
  intros Hid Hfd Hl HQ. pose proof (fd_working _ _ _ _ _ _ Hfd) as [HS Hlk Hf]. apply wp_bind, wp_ask.
  apply wp_bind, wp_gets, wp_bind, wp_on_meta. eapply wp_mono.
  { eapply (remap_law g rd (clock s) _ (meta s) β m σ data_offset); [apply HS|exact Hlk|apply (fd_seen _ _ _ _ _ _ Hfd)|].
    apply (fd_idle _ _ _ _ _ _ Hfd). }
  intros status c' (β' & m' & σ' & Hrm). destruct (remapped_working _ _ _ _ _ _ _ _ _ _ HS Hrm) as [HW' Hpc].
  apply wp_bind, wp_gets. cbn [meta with_meta]. set (idxs := entries_with _ _).
  assert (Hfin : forall s', meta s' = c' -> vols s' = vols s -> completions s' = completions s ->
    fallback_pt_errors s' = fallback_pt_errors s -> events s' = events s ->
    (exists rw l, prog s' = set_lock rw l (prog s) /\ forall i d, l !! i = Some d -> d = OCF_WRITE /\ i ∈ idxs) -> Q' status s').
  { intros s' Em Ev Ec Ef Ee (rw & l & Ep & Hll). apply (HQ status s' β' m' σ').
    - split; [by rewrite Em|done|split; [by rewrite Ev|done|done|by rewrite Ep]|done| |].
      + intros i d. rewrite Ep, Em. cbn. intros [-> Hin]%Hll. apply entries_with_elem in Hin as (H0 & e & He & Hn).
        split; [done|]. split; [done|]. by exists e.
      + rewrite Em. destruct (rm_flags _ _ _ _ _ _ _ _ _ Hrm) as [-> ->]. exact (fd_flags _ _ _ _ _ _ Hfd).
    - intros Hs. rewrite Em. by apply (rm_mapped _ _ _ _ _ _ _ _ _ Hrm).
    - intros Hk. rewrite Em. apply (rm_check _ _ _ _ _ _ _ _ _ Hrm). by apply (fd_check _ _ _ _ _ _ Hfd).
    - intros Hk Hrd. rewrite Em. apply (Hpc Hrd). by apply (id_partly _ _ _ _ _ (fd_idle _ _ _ _ _ _ Hfd)). }
  apply wp_bind, wp_when; intros Hb.
  - apply wp_modify, wp_ret. apply Hfin; try done. exists OCF_WRITE, (lock_all OCF_WRITE idxs (locked (prog s))).
    split; [done|]. intros i d. rewrite lock_all_lookup, Hl. case_decide; [|done]. by intros [= <-].
  - apply wp_ret. apply Hfin; try done. exists (alock_rw (prog s)), ∅. split; [|done]. rewrite <- Hl. by destruct s as [? ? [] ? ? ? ? ? ? ? ?].
Qed.

(** Mapping has failed: what was mapped is given up and dirty lines of others
    are cleaned. *)
Lemma remap_failed_wp s1 β m σ s : remapped_state s β m σ s1 -> after s0 s -> events s = [] ->
  ((exists k, lock_answers w k = LockLater) -> rd -> partly_clean g (meta s1) m) ->
  wp (_ ← ocf_req_set_mapping_error; _ ← ocf_req_set_cleaning_required; _ ← ocf_engine_map_hndl_error g; ocf_req_unlock)
    (fun _ s' => exists β' m' σ', idle (meta s') (vols s') β' m' σ' /\ after s0 s' /\ events s' = [] /\ locked (prog s') = ∅ /\
      mapping_error (info (request (meta s'))) = true /\ cleaning_required (info (request (meta s'))) = true) s1.
Proof.
  intros [HW Ev Ha Ee Hl _] Ha0 He Hpc.
  apply wp_bind, wp_on_meta, wp_modify, wp_bind, wp_on_meta, wp_modify. set (s2 := with_meta _ _). rewrite <- Ev in HW.
  pose proof (working_flags _ _ _ _ _ true (cleaning_required (info (request (meta s1)))) HW) as HW1.
  pose proof (working_flags _ _ _ _ _ true true HW1) as HW2.
  apply wp_bind. eapply (give_up_wp s2); [exact HW2|exact Hl|]. intros c' β' m' σ' HS Hlive Hpl Einf.
  apply unlock_any_wp; [by intros i d Hi|]. exists β', m', σ'. split; [split; [exact HS|exact Hlive|]|].
  - intros Hk Hrd core a a' x Hin Hin'.
    rewrite (in_req_same (request _)) in Hin by apply (sv_request _ _ _ _ _ HS).
    rewrite (in_req_same (request _)) in Hin' by apply (sv_request _ _ _ _ _ HS).
    assert (H0 : forall b, in_req r0 core b -> 0 <= b).
    { intros b Hb. rewrite <- (in_req_same (request (meta s2))) in Hb by apply HW2. destruct (request_span g _ (sd_ok _ _ _ _ _ _ (sv_steady _ _ _ _ _ (wk_serving _ _ _ _ _ HW2)))) as (H0 & _).
      destruct Hb as [_ [Hb _]]. etrans; [exact H0|exact Hb]. }
    rewrite !Hpl by auto. rewrite <- (in_req_same (request (meta s1))) in Hin by apply HW. rewrite <- (in_req_same (request (meta s1))) in Hin' by apply HW.
    by apply (Hpc Hk Hrd).
  - split; [etrans; [exact Ha0|etrans; [exact Ha|by split]]|]. split; [transitivity (events s1); [done|by rewrite Ee]|]. split; [done|]. cbn. by rewrite Einf.
Qed.

Lemma prepare_miss_wp s c β m σ : idle c (vols s) β m σ -> found_in c (vols s) β m σ (meta s) -> locked (prog s) = ∅ ->
  events s = [] -> after s0 s -> (forall k e, lock_answers w k <> LockFails e) ->
  wp (_ ← ocf_prepare_clines_miss w g;
      error ← the_request (fun r => mapping_error (info r));
      lock ← (if (error : bool) then mret (- AsyncLock.OCF_ERR_NO_LOCK)
              else lock ← lock_clines w req_rw; _ ← when (bool_decide (lock < 0)) ocf_req_set_mapping_error; mret lock);
      error ← the_request (fun r => mapping_error (info r));
      _ ← when (negb error) (on_meta (ocf_engine_set_hot (C:=C) (block_4k g) (line_size g)));
      cleaning ← the_request (fun r => cleaning_required (info r));
      _ ← when cleaning (clean_user_parts w g);
      mret lock) Q s.
Proof.
  intros Hid Hfd Hl He Ha Hnf. apply wp_bind, wp_bind, wp_ask. set (s1 := with_clock (S (clock s)) s).
  apply wp_bind, wp_modify. set (s2 := with_prog _ s1). apply wp_bind.
  eapply (remap_wp s2 c); [exact Hid|exact Hfd|exact Hl|]. intros status s3 β' m' σ' Hrs Hall Hck Hpc.
  assert (Ha2 : after s0 s2) by (etrans; [exact Ha|by split]).
  case_bool_decide as Hst.
  - eapply wp_mono; [eapply (remap_failed_wp s3 β' m' σ' s2); [exact Hrs|exact Ha2|exact He|exact Hpc]|].
    intros [] s4 (β4 & m4 & σ4 & Hid4 & Ha4 & He4 & Hl4 & Hm4 & Hc4).
    apply wp_bind, wp_gets. rewrite Hm4. apply wp_bind, wp_ret, wp_bind, wp_gets. rewrite Hm4.
    apply wp_bind, wp_when; [done|]. intros _. apply wp_bind, wp_gets. rewrite Hc4. apply wp_bind, wp_when; [|done]. intros _.
    eapply clean_user_parts_idle_wp; [exact Hid4|]. intros s5 σ5 Hid5 Ha5 Ep Eq Ee. apply wp_ret.
    apply (Hno _ _ _ _ _ Hid5); [by rewrite Eq|by etrans|by rewrite Ep|by rewrite Ee].
  - destruct Hrs as [HW Ev Has Ee Hl3 [Hm3 Hc3]]. apply wp_ret. apply wp_bind, wp_gets. rewrite Hm3. apply wp_bind, wp_bind.
    rewrite <- Ev in HW.
    assert (Hfin : forall lock s4, meta s4 = meta s3 -> vols s4 = vols s3 -> after s3 s4 -> holds (prog s4) (request (meta s3)) ->
      (alock_rw (prog s4) = OCF_READ -> forall i e, req_map (request (meta s3)) !! i = Some e -> is_new e = false) ->
      (req_rw = OCF_WRITE -> alock_rw (prog s4) = OCF_WRITE) -> 0 <= lock ->
      lock = OCF_LOCK_ACQUIRED /\ events s4 = [] \/
      lock = OCF_LOCK_NOT_ACQUIRED /\ events s4 = [Granted ocf_engine_on_resume_cb] /\ recheckable g rd (meta s4) m' ->
      wp (_ ← when (bool_decide (lock < 0)) ocf_req_set_mapping_error; mret lock) (fun lock s' =>
        wp (error ← the_request (fun r => mapping_error (info r));
            _ ← when (negb error) (on_meta (ocf_engine_set_hot (C:=C) (block_4k g) (line_size g)));
            cleaning ← the_request (fun r => cleaning_required (info r));
            _ ← when cleaning (clean_user_parts w g); mret lock) Q s') s4).
    { intros lock s4 Em4 Ev4 Ha4 Hh4 Hrd4 Hwr4 H0 Hlk. rewrite (bool_decide_eq_false_2 (lock < 0)) by lia. apply wp_bind, wp_ret, wp_ret.
      apply wp_bind, wp_gets. rewrite Em4, Hm3. rewrite <- Em4, <- Ev4 in HW. cbn [negb when].
      apply wp_bind. eapply wp_mono.
      { eapply (ready_wp s4 β' m' σ' lock HW); rewrite ?Em4; try done; [by apply Hall|etrans; [exact Ha2|by etrans]|].
        by rewrite <- Em4. }
      intros [] s5 [Eq5 HQ5]. apply wp_bind, wp_gets. rewrite Eq5, Em4, Hc3. apply wp_bind, wp_ret. by apply wp_ret. }
    eapply (lock_clines_wp s3 β' m' σ' _ HW); [rewrite Ee; exact He|exact Hl3| |].
    + intros s4 Hh4 Em4 Ev4 Ha4 Hrd4 Hwr4. split.
      * intros Hev. apply Hfin; try done. by left.
      * intros Hk Hev. apply Hfin; try done. right. split; [done|]. split; [done|]. rewrite Em4. by apply Hck.
    + intros e s4 [k Hk] _ _ _ _ _ _. by destruct (Hnf k e).
Qed.

Lemma prepare_wp β m σ : idle (meta s0) (vols s0) β m σ -> failing_locks (meta s0) m -> events s0 = [] -> locked (prog s0) = ∅ ->
  wp (ocf_engine_prepare_clines w g req_rw) Q s0.
Proof.
  intros Hid Hfl He Hl. apply wp_bind, wp_ask. set (s1 := with_clock (S (clock s0)) s0).
  assert (Ha1 : after s0 s1) by by split.
  destruct (decision w (clock s0)); cbn [negb]; [|by eapply (mapping_error_wp _ s1)].
  apply wp_bind, rehash_wp. intros q Hq Hqn. set (s2 := with_meta _ s1).
  assert (Hid2 : idle (meta s2) (vols s2) β m σ) by by apply (idle_request _ _ _ _ _ _ Hid).
  apply wp_bind, wp_on_meta. eapply wp_mono; [by apply lookup_idle_wp|]. intros [] c3 Hfd.
  set (s3 := with_meta c3 s2). assert (Ha3 : after s0 s3) by by split.
  pose proof (fd_working _ _ _ _ _ _ Hfd) as HW. pose proof (fd_idle _ _ _ _ _ _ Hfd) as Hid3. destruct (fd_flags _ _ _ _ _ _ Hfd) as [Hm3 _].
  apply wp_bind, wp_gets. destruct (ocf_engine_is_mapped (request (meta s3))) eqn:Emap.
  - pose proof (fd_all _ _ _ _ _ _ Hfd Emap) as Hall. apply wp_bind.
    eapply (lock_clines_wp s3 β m σ _ HW); [done|intros i d; cbn; by rewrite Hl| |].
    + intros s4 Hh4 Em4 Ev4 Ha4 Hrd4 Hwr4.
      assert (Hgo : forall lock, 0 <= lock -> lock = OCF_LOCK_ACQUIRED /\ events s4 = [] \/
        lock = OCF_LOCK_NOT_ACQUIRED /\ events s4 = [Granted ocf_engine_on_resume_cb] /\ recheckable g rd (meta s4) m ->
        wp (_ ← (if bool_decide (lock < 0) then ocf_req_set_mapping_error else on_meta (ocf_engine_set_hot (C:=C) (block_4k g) (line_size g)));
          mret lock) Q s4).
      { intros lock H0 Hlk. rewrite (bool_decide_eq_false_2 (lock < 0)) by lia. apply wp_bind. eapply wp_mono.
        - eapply (ready_wp s4 β m σ lock); rewrite ?Em4, ?Ev4; try done; [by etrans|]. by rewrite Em4 in Hlk.
        - intros [] s5 [_ HQ]. by apply wp_ret. }
      split.
      * intros Hev. apply Hgo; [done|by left].
      * intros Hk Hev. apply Hgo; [done|]. right. split; [done|]. split; [done|]. rewrite Em4. by apply (fd_check _ _ _ _ _ _ Hfd).
    + intros e s4 _ Hneg Em4 Ev4 Ha4 Hl4 Hev. rewrite bool_decide_eq_true_2 by done.
      eapply (mapping_error_wp e s4 β m σ); [by rewrite Em4, Ev4|by etrans|by rewrite Hl4|done].
  - apply wp_bind, wp_ask. set (s4 := with_clock (S (clock s3)) s3).
    assert (Ha4 : after s0 s4) by by split.
    destruct (decision w (clock s3)); cbn [negb]; [|by eapply (mapping_error_wp _ s4)].
    apply wp_bind, wp_on_meta. eapply wp_mono; [by apply lookup_idle_wp|]. intros [] c5 Hfd5.
    assert (Hsame : forall c, geometry (request c) = geometry (request (meta s0)) ->
      (forall i, 0 <= i < core_line_count (request c) -> is_Some (m !! CoreInfo (req_core (request c)) (core_line_first (request c) + i))) <->
      (forall i, 0 <= i < core_line_count (request (meta s0)) -> is_Some (m !! CoreInfo (req_core (request (meta s0))) (core_line_first (request (meta s0)) + i)))).
    { intros c Ec. destruct (geometry_fields _ _ Ec) as (E1 & _ & _ & _ & E5 & _ & E7). by rewrite E1, E5, E7. }
    assert (Hun : ~ (forall i, 0 <= i < core_line_count (request (meta s0)) -> is_Some (m !! CoreInfo (req_core (request (meta s0))) (core_line_first (request (meta s0)) + i)))).
    { intros H. pose proof (proj2 (fd_mapped _ _ _ _ _ _ Hfd) (proj2 (Hsame (meta s2) Hq) H)). cbn in Emap. congruence. }
    apply wp_bind, wp_gets. cbn [meta with_meta]. destruct (ocf_engine_is_mapped (request c5)) eqn:Emap5.
    { exfalso. apply Hun, (Hsame (meta s4)); [|exact (proj1 (fd_mapped _ _ _ _ _ _ Hfd5) Emap5)].
      pose proof (sv_request _ _ _ _ _ (id_serving _ _ _ _ _ Hid3)) as G3. pose proof (sv_request _ _ _ _ _ (id_serving _ _ _ _ _ Hid)) as G0.
      cbn. congruence. }
    eapply (prepare_miss_wp (with_meta c5 s4) (meta s4) β m σ); [exact Hid3|exact Hfd5|exact Hl|done|by split|].
    intros k e Hk. apply Hun, Hfl. by exists k, e.
Qed.
End Prepare.

(** ** From the start of an engine to its handler *)

(** What stays while a request is prepared, waits or is turned to another engine. *)
Record along s s' : Prop := {
  al_data : data (vols s') = data (vols s);
  al_answers : completions s' = completions s;
  al_faults : fallback_pt_errors s' = fallback_pt_errors s;
  al_prog : req_error (prog s') = req_error (prog s) /\ cache_error (prog s') = cache_error (prog s) /\
    core_error (prog s') = core_error (prog s) /\ wi_second_pass (prog s') = wi_second_pass (prog s)
}.
#[local] Instance along_pre : PreOrder along.
Proof.
  split; [by intros s; split|]. intros s1 s2 s3 [A1 A2 A3 (A4 & A5 & A6 & A7)] [B1 B2 B3 (B4 & B5 & B6 & B7)].
  split; [congruence..|]. split_and!; congruence.
Qed.
Lemma after_along s s' : after s s' -> along s s'.
Proof. intros [H1 H2 H3 (_ & _ & _ & H4)]. by split. Qed.

Lemma all_mapped_infos c c' m : geometry (request c') = geometry (request c) -> me_info <$> req_map (request c') = me_info <$> req_map (request c) ->
  all_mapped c m -> all_mapped c' m.
Proof.
  intros Hgeo Hinf Hall i e' He'. destruct (infos_lookup _ _ _ _ Hinf He') as (e & He & Ei). destruct (Hall i e He) as [Hs Hm].
  destruct (geometry_fields _ _ Hgeo) as (E1 & _ & _ & _ & E5 & _). unfold entry_maps, me_status, me_coll_idx in *. by rewrite Ei, E1, E5.
Qed.

Lemma clear_wp s β m σ (Q : unit -> E -> Prop) : idle (meta s) (vols s) β m σ ->
  (forall s', idle (meta s') (vols s') β m σ -> along s s' -> (exists x, prog s' = set_remaining x (prog s)) -> events s' = events s -> Q tt s') ->
  wp ocf_req_clear Q s.
Proof.
  intros Hid HQ. apply wp_bind, wp_on_meta, wp_modify, wp_modify. apply HQ; [|by split|by eexists|done].
  apply (idle_request _ _ _ _ _ _ Hid); [done|apply length_replicate].
Qed.

Section Prepared.
Context (h h' : handler) (k : nat) (run without : Prelude.M E unit) (F : progress -> progress).
Context (Hrun_h : run_handler w g req_rw seq_cutoff data_offset h = run).
Context (Hwo : forall s (Q : unit -> E -> Prop), events s = [] -> Q tt (with_events [Call h'] (with_prog (F (prog s)) s)) -> wp without Q s).
Context (HF : (forall p, F p = p) \/ (forall p, F p = set_flags true (wi_second_pass p) (part_evict p) p)).
Context (s0 : E) (Hn : 0 <= n).
Context (Hrun : forall s b β m σ, working (meta s) (vols s) β m σ -> all_mapped (meta s) m -> holds (prog s) (request (meta s)) ->
  (alock_rw (prog s) = OCF_READ -> forall i e, req_map (request (meta s)) !! i = Some e -> is_new e = false) ->
  (req_rw = OCF_WRITE -> alock_rw (prog s) = OCF_WRITE) ->
  along s0 s -> engine_handler (prog s) = h -> priv (prog s) = None -> ref_count (prog s) = n + 1 + Z.b2z b -> events s = [] ->
  wp run (fun _ => finishing b k) s).
Context (Hwithout : forall s β m σ, idle (meta s) (vols s) β m σ -> along s0 s -> (exists p, prog s = F p) -> priv (prog s) = None ->
  locked (prog s) = ∅ -> ref_count (prog s) = n + 1 -> events s = [] ->
  wp (run_handler w g req_rw seq_cutoff data_offset h') (fun _ => finishes (S (S k)) ended) s).

Lemma F_keeps p : ref_count (F p) = ref_count p /\ locked (F p) = locked p /\ priv (F p) = priv p /\ req_error (F p) = req_error p /\
  cache_error (F p) = cache_error p /\ core_error (F p) = core_error p /\ wi_second_pass (F p) = wi_second_pass p.
Proof. destruct HF as [-> | ->]; done. Qed.

(** The lines are prepared; the handler runs now, or after a wait, or the
    request is served without new lines. *)
Lemma prepared_wp s β m σ : idle (meta s) (vols s) β m σ -> failing_locks (meta s) m -> along s0 s ->
  engine_handler (prog s) = h -> priv (prog s) = None -> locked (prog s) = ∅ -> ref_count (prog s) = n + 2 -> events s = [] ->
  wp (lock ← ocf_engine_prepare_clines w g req_rw; prepared lock run without) (fun _ => finishes (S (S (S k))) ended) s.
Proof.
  intros Hid Hfl Hal Hh Hp Hl Hr He. apply wp_bind. eapply (prepare_wp s); [| |exact Hid|exact Hfl|done|done].
  - intros lock s1 β1 m1 σ1 Hid1 Hm1 [A1 A2 A3 (A4 & A5 & A6 & A7 & A8 & A9 & A10)] Hl1 He1. unfold prepared. apply wp_bind, wp_gets. rewrite Hm1. cbn [negb].
    apply wp_bind, wp_bind. eapply clear_wp; [exact Hid1|]. intros s2 Hid2 Hal2 [x Ep2] He2.
    apply Hwo; [by rewrite He2|]. destruct (F_keeps (prog s2)) as (F1 & F2 & F3 & F4 & F5 & F6 & F7).
    apply wp_req_put; cbn; [rewrite F1, Ep2; cbn; lia|]. eapply finishes_call; [done|].
    eapply (Hwithout _ β1 m1 σ1); [exact Hid2| | | | | |done].
    + etrans; [exact Hal|]. etrans; [by split|]. etrans; [exact Hal2|]. split; [done..|cbn; by rewrite F4, F5, F6, F7].
    + exists (set_refs (ref_count (F (prog s2)) - 1) (prog s2)). cbn. destruct HF as [HF1|HF1]; by rewrite !HF1.
    + cbn. rewrite F3, Ep2. cbn. congruence.
    + cbn. rewrite F2, Ep2. exact Hl1.
    + cbn. rewrite F1, Ep2. cbn. lia.
  - intros s1 β1 m1 σ1 HW Hall Hm1 Hh1 Hrd Hwr Ha. pose proof (after_along _ _ Ha) as Hal1.
    destruct Ha as [A1 A2 A3 (A4 & A5 & A6 & A7 & A8 & A9 & A10)]. split.
    + intros He1. unfold prepared. apply wp_bind, wp_gets. rewrite Hm1. cbn [negb]. apply wp_bind.
      eapply wp_mono; [eapply (Hrun s1 true β1 m1 σ1 HW); try done; [by etrans|congruence|congruence|cbn; lia]|].
      intros [] s2 Hf. eapply wp_more; [|exact Hf]. lia.
    + intros He1 Hrc. unfold prepared. apply wp_bind, wp_gets. rewrite Hm1. cbn [negb]. apply wp_bind, wp_ret.
      apply wp_req_put; [lia|]. apply (granted_wp k h (refs (ref_count (prog s1) - 1) s1) β1 m1 σ1); [exact HW|exact Hrc|done|cbn; congruence|cbn; congruence|].
      intros s2 HW2 Hinf Ev Ec Ep Ef He2. rewrite Hrun_h.
      eapply (Hrun s2 false β1 m1 σ1 HW2).
      * eapply all_mapped_infos; [|exact Hinf|exact Hall]. etrans; [apply HW2|symmetry; apply HW].
      * rewrite Ep. eapply holds_infos; [exact Hinf|exact Hh1].
      * rewrite Ep. intros Hrd' i e Hi. destruct (infos_lookup _ _ _ _ Hinf Hi) as (e0 & He0 & Ei). unfold is_new, me_status. rewrite Ei.
        exact (Hrd Hrd' i e0 He0).
      * by rewrite Ep.
      * etrans; [exact Hal|]. etrans; [exact Hal1|]. split; [by rewrite Ev|done|done|by rewrite Ep].
      * rewrite Ep. cbn. congruence.
      * rewrite Ep. cbn. congruence.
      * rewrite Ep. cbn. lia.
      * done.
Qed.
End Prepared.

(** ** Making the range of a request valid *)

Lemma range_in c v β m σ core a : serving c v β m σ -> in_req r0 core a -> in_req (request c) core a /\ core = req_core r0 /\ 0 <= a.
Proof.
  intros [HS _ Hr _] Hin. destruct (request_span g _ (sd_ok _ _ _ _ _ _ HS)) as (H0 & _).
  destruct (geometry_fields _ _ Hr) as (_ & _ & E3 & _). split; [by apply (in_req_same (request c))|]. destruct Hin as [-> Hin]. rewrite E3 in H0.
  split; [done|lia].
Qed.

(** The range becomes valid: all of it is in the cache, at its place. *)
Lemma valid_wp c v β m σ : working c v β m σ -> all_mapped c m ->
  (rd -> clean_range c m /\ forall core a, in_req r0 core a -> cache_dev v (pos g m core a) = f core a /\ core_dev v core a = f core a) ->
  wp (ocf_set_valid_map_info (C:=C) (block_4k g) (line_size g)) (fun _ c' => exists σ',
    serving c' v β m σ' /\ live c' m everything /\ next g c c' /\ request c' = request c /\
    (forall core a, 0 <= a -> place c' m core a = in_request g c m (make_valid) core a)) c.
Proof.
  intros HW Hall Hrd. pose proof HW as [HS0 Hlk Hf]. pose proof HS0 as [HS Hk Hr Ho]. pose proof HS as [HI Hok Hal _ _ _ _ Hfit].
  eapply wp_mono; [by eapply (set_valid_all_wp g c β m σ)|]. intros [] c' [([σ' HI'] & Hfr & Em & Hpl) Eq]. exists σ'.
  pose proof (next_frame g c c' Hfr) as Hn.
  assert (Hlv : live c' m everything).
  { intros ci x st' Hx _ Hst'. apply (live_byte g c' β m σ' ci x st' HI' Hfit Hx Hst').
    destruct (mapped_line g _ _ _ _ _ _ HI Hx) as (_ & st & Hst). destruct (decide (valid st = 0)) as [Hv|Hv].
    - destruct (working_zero _ _ _ _ _ _ _ _ HW Hx Hst Hv) as (i & e & He & _ & ->).
      pose proof (ro_map _ _ Hok) as Hlen. pose proof (lookup_lt_Some _ _ _ He) as Hlt.
      destruct (request_ok_lines (block_4k g) _ _ Hok) as (_ & _ & Hrange).
      destruct (block_byte g (request c) (Z.of_nat i) (ocf_map_line_start_block (block_4k g) (line_size g) (request c) (Z.of_nat i)) Hok Hal) as (a & H0 & Hin & _ & _ & Hd);
        [lia|destruct (Hrange (Z.of_nat i) ltac:(lia)); lia|].
      exists a. split; [done|]. split; [exact Hd|]. cbn. rewrite Hpl by done. unfold in_request. rewrite decide_True by done. by eexists.
    - apply (live_byte g c β m σ ci x st HI Hfit Hx Hst) in Hv as (a & H0 & Hd & [y Hy]). exists a. split; [done|]. split; [done|].
      rewrite Hpl by done. unfold in_request. case_decide; [by eexists|by eexists]. }
  split; [|by split_and!]. split.
  - by eapply steady_next.
  - intros core a Ha Hp. destruct (Hk core a Ha Hp) as [Hc Hco]. specialize (Hpl core a Ha). unfold in_request in Hpl. case_decide as Hin.
    + destruct Hp as [Hr'|Hno]; [|destruct Hno; by apply (in_req_same (request c))]. apply (in_req_same (request c)) in Hin; [|done].
      destruct (Hrd Hr') as [Hcl Hb]. destruct (Hb core a Hin) as [Hcb Hdb].
      assert (Hp' : place c' m core a = Some (pos g m core a, false)).
      { rewrite Hpl. unfold make_valid. destruct (place c m core a) as [[y d]|] eqn:E; [|done]. cbn.
        destruct (place_pos g _ _ _ _ _ _ E) as [-> _]. destruct d; [|done]. by destruct (Hcl core a (pos g m core a) Hin). }
      unfold content, coherent. rewrite Hp'. split; [done|]. intros y [= <-]. congruence.
    + rewrite <- Hc. apply content_drop; [|done]. left. exact Hpl.
  - etrans; [exact (nx_geometry _ _ _ Hn)|exact Hr].
  - intros ci x st Hx _. by apply (Hlv ci x st Hx).
Qed.
(** Moving lines when they are to be moved. *)
Lemma move_any_wp s β m σ (Q : unit -> E -> Prop) (b : bool) : working (meta s) (vols s) β m σ ->
  (forall c' σ', working c' (vols s) β m σ' -> request c' = request (meta s) -> statuses c' = statuses (meta s) -> Q tt (with_meta c' s)) ->
  wp (when b (on_meta (ocf_user_part_move (C:=C) (block_4k g) (line_size g)))) Q s.
Proof.
  intros HW HQ. apply wp_when; intros _.
  - apply wp_on_meta. eapply wp_mono; [by eapply engine_move_wp|]. intros [] c' [σ' Hq].
    eapply HQ; [by eapply quiet_working|apply Hq|apply Hq].
  - replace s with (with_meta (meta s) s) by (by destruct s). by eapply HQ.
Qed.

(** ** Requests whose lines are all hit *)

(** Their bytes are in the cache. *)
Lemma hit_places c v β m σ core a : working c v β m σ -> (forall i e, req_map (request c) !! i = Some e -> me_status e = LOOKUP_HIT) ->
  in_req r0 core a -> exists d, place c m core a = Some (pos g m core a, d).
Proof.
  intros [[HS _ Hr _] Hlk _] Hhit Hin. pose proof (sd_ok _ _ _ _ _ _ HS) as Hok.
  apply (in_req_same (request c)) in Hin; [|done].
  destruct (byte_in_entry g (request c) core a Hok (sd_aligned _ _ _ _ _ _ HS) Hin) as (-> & H0 & [e He] & Ei & Eb & Hbl).
  set (i := Z.to_nat (entry_index g (request c) a)) in *. pose proof (Hhit i e He) as Hs.
  assert (Hm : entry_maps m (request c) (Z.of_nat i) e) by (apply (entries_map_found c m i e (lk_map _ _ _ _ Hlk) He); by rewrite Hs).
  destruct (mapped_line g _ _ _ _ _ _ (sd_inv _ _ _ _ _ _ HS) Hm) as (_ & st & Hst).
  pose proof (lk_valid _ _ _ _ Hlk i e st He Hs Hst _ Hbl) as Hv. exists (Z.testbit (dirty st) (block_of g a)).
  unfold entry_maps in Hm. rewrite <- Eb in Hm. rewrite (place_mapped g c m _ a (me_coll_idx e) st Hm Hst). unfold in_line. rewrite Hv.
  unfold pos. by rewrite Hm.
Qed.

Lemma hit_mapped c v β m σ : working c v β m σ -> (forall i e, req_map (request c) !! i = Some e -> me_status e = LOOKUP_HIT) -> all_mapped c m.
Proof.
  intros [_ Hlk _] Hhit i e He. pose proof (Hhit i e He) as Hs. split; [by rewrite Hs|].
  apply (entries_map_found c m i e (lk_map _ _ _ _ Hlk) He). by rewrite Hs.
Qed.

Lemma buf_pos_same r a : geometry r = geometry r0 -> buf_pos data_offset r a = buf_pos data_offset r0 a.
Proof. intros Hq. destruct (geometry_fields _ _ Hq) as (_ & _ & E3 & _). unfold buf_pos. by rewrite E3. Qed.

(** The counter of faults. *)
Lemma fallback_wp s (Q : unit -> E -> Prop) : 0 <= fallback_pt_errors s ->
  (forall k, Q tt (with_fallback k s)) -> wp (inc_fallback_pt_error_counter (C:=C) (V:=V) g) Q s.
Proof.
  intros H0 HQ. apply wp_bind, wp_gets, wp_bind, wp_bug_on; [apply bool_decide_eq_false_2; lia|]. case_bool_decide.
  - replace s with (with_fallback (fallback_pt_errors s) s) by (by destruct s). apply wp_ret, HQ.
  - apply wp_modify, HQ.
Qed.

End Runs.

(** ** A request that is about to be served *)

Section Submitted.
Context {C V : Type} `{!CleaningPolicy C} (w : world V) (g : config) (data_offset : Z).

(** The request is in its queue; every mapped line has a valid block; bytes in
    the cache that are not dirty are on their core. *)
Record submitted (s : engine C V) (β : bucket_map) (m : gmap core_info Z) (σ : listing) : Prop := {
  sb_steady : steady g (meta s) β m σ data_offset;
  sb_live : live (meta s) m (fun _ => True);
  sb_coherent core a : 0 <= a -> coherent g (meta s) (vols s) m core a;
  sb_events : events s = [Run];
  sb_prog : priv (prog s) = None /\ locked (prog s) = ∅ /\ 1 <= ref_count (prog s);
  sb_errors : req_error (prog s) = 0 /\ cache_error (prog s) = false /\ core_error (prog s) = false /\ wi_second_pass (prog s) = false;
  sb_faults : 0 <= fallback_pt_errors s;
  (** Locks can only fail for requests whose lines are all mapped. *)
  sb_locks : lock_errors w /\ failing_locks w (meta s) m
}.

Lemma submitted_idle rd s β m σ : submitted s β m σ -> ((exists k, lock_answers w k = LockLater) -> rd -> partly_clean g (meta s) m) ->
  idle w g data_offset (request (meta s)) rd (content g (meta s) (vols s) m) (meta s) (vols s) β m σ.
Proof.
  intros [H1 H2 H3 _ _ _ _ _] Hp. split; [|exact H2|exact Hp]. split; [exact H1| |done|].
  - intros core a Ha _. split; [done|by apply H3].
  - intros ci x st Hx _. by apply (H2 ci x st Hx).
Qed.
End Submitted.

(** ** A sample *)

(** A cache of one line, which holds four blocks of line 0 of core 0.  Nothing
    else can be mapped. *)
Module EngineSample.
#[export] Instance no_space : SpaceManagement unit :=
  {| space_managment_remap_do := fun _ _ c => Some (LOOKUP_MISS, c); valid_user_parts := fun _ _ => []; eviction_clean_lines := fun _ _ _ => [] |}.

#[export] Instance no_space_laws g : SpaceLaws (C:=unit) g.
Proof.
  split; [|by intros; split; [done|intros x ?%not_elem_of_nil]].
  intros rd k own c β m σ d HS Hlk _ Hlive. exists β, m, σ. split; try done.
  - apply HS.
  - by left.
  - by left.
  - intros i e st He Hf _ Hx. eapply Hlive; [|done|exact Hx].
    apply (entries_map_found c m i e (lk_map _ _ _ _ Hlk) He). unfold is_found in Hf. by apply negb_true_iff, bool_decide_eq_false_1 in Hf.
Qed.

Definition sample_request (n : Z) : ocf_request := ocf_req_new size_4 0 1 0 n [zero_entry].
Definition sample_engine (h : handler) (n : Z) (l : lru_cache) : engine unit Z :=
  Engine (with_request (sample_request n) (line_cache l)) (Volumes (fun p => p - 1000) (fun _ a => a) (fun _ => 77) None)
    (Progress 2 h None OCF_READ ∅ 0 0 false false false false false) (Master 0 0 []) 0 false 0 true 0%nat [Run] [].

Lemma sample_submitted h n : n = 512 \/ n = 4096 -> exists l σ,
  submitted faultless one_line_config 0 (sample_engine h n l) (bupd 0 [0] (fun _ => [])) {[CoreInfo 0 0 := 0]} σ.
Proof.
  intros Hn. destruct line_cache_ready as (l & σ & HI & H1). exists l, σ.
  assert (Hst : forall y s, statuses (line_cache l) !! y = Some s -> y = 0 /\ s = MapStatus 15 0)
    by (intros y s Hy; cbn in Hy; by apply lookup_singleton_Some in Hy as [<- <-]).
  split; try done.
  - split; try done.
    + by apply inv_request.
    + split; destruct Hn as [-> | ->]; try done; by_compute.
    + destruct Hn as [-> | ->]; split; [exists 0|exists 1|exists 0|exists 8]; reflexivity.
    + destruct Hn as [-> | ->]; by_compute.
    + destruct Hn as [-> | ->]; by_compute.
    + apply one_line_fits.
    + intros core ->%bool_decide_eq_true_1. destruct Hn as [-> | ->]; exact (ci_owner _ _ _ _ _ _ _ HI (CoreInfo 0 0) 0 eq_refl).
    + destruct Hn as [-> | ->]; done.
    + destruct Hn as [-> | ->]; by_compute.
  - intros ci x s _ _ [_ ->]%Hst. done.
  - intros core a Ha p Hp. destruct (place_pos _ _ _ _ _ _ _ Hp) as [-> [x Hx]].
    apply lookup_singleton_Some in Hx as [Eb _]. injection Eb as <- Ed. cbn.
    unfold pos, byte_addr. replace (byte_line one_line_config 0 a) with (CoreInfo 0 0) by exact (f_equal (CoreInfo 0) Ed).
    rewrite lookup_singleton_eq. change (4 * KiB) with 4096 in Ed. change (line_bytes (line_size one_line_config)) with 4096.
    change (metadata_offset one_line_config) with 1000. cbn. pose proof (Z.div_mod a 4096 ltac:(lia)). lia.
  - split; [done|]. intros (k & e & Hk). done.
Qed.
End EngineSample.
