(* ===== verification/EngineReads.v ===== *)
(** * Reading

    Every read ends with one answer.  When it reports no error, the buffer holds
    the bytes that a reader is to get, and no read changes these bytes:
    pass-through, hits, misses with their backfill, waits, cleaning and errors
    of every I/O included. *)

From S2P Require Import Prelude Alock AlockProofs CacheLineLock Links Lru LruProofs Generator LruPart LruPartProofs.
From S2P Require Import Collision CollisionProofs Status StatusProofs Request RequestProofs CacheLine CacheLineProofs CacheLineSteps.
From S2P Require Import Engine EngineProofs EngineCheck PartMove EngineIo EngineIoProofs EngineBase Cleaner Engines AsyncLock Content EngineSpec CleanerProofs EngineRuns.
Import EngineIo.

Section Reads.
Context {C V : Type} `{!CleaningPolicy C} (w : world V) (g : config) (Hg : config_ok g).
Context `{!SpaceManagement C} `{!SpaceLaws g} (Hlock : lock_errors w).
Context (seq_cutoff : bool) (data_offset : Z) (r0 : ocf_request) (f : Z -> Z -> V) (n : Z) (Hn : 0 <= n).
(** The answers before. *)
Context (A0 : list (Z * (Z -> V))).
Abbreviation E := (engine C V).
Abbreviation everything := (fun _ : core_info => True).
Implicit Types (c : cache C) (v : volumes V) (m : gmap core_info Z) (r : ocf_request) (p : progress) (s : E).

Definition right_bytes (buf : Z -> V) : Prop :=
  forall a, in_req r0 (req_core r0) a -> buf (buf_pos data_offset r0 a) = f (req_core r0) a.
Definition read_done c v m (answers : list (Z * (Z -> V))) : Prop :=
  exists e buf, answers = A0 ++ [(e, buf)] /\ (e = 0 -> live c m everything /\ right_bytes buf).

Abbreviation serving := (serving g data_offset r0 True f).
Abbreviation working := (working g data_offset r0 True f).
Abbreviation idle := (idle w g data_offset r0 True f).
Abbreviation ended := (ended g data_offset r0 True f read_done n).
Abbreviation finishes k := (finishes w g OCF_READ seq_cutoff data_offset k ended).
Abbreviation finishing := (finishing w g OCF_READ seq_cutoff data_offset r0 True f read_done n).
Abbreviation run_handler := (run_handler w g OCF_READ seq_cutoff data_offset).
Abbreviation place := (place (C:=C) g).
Abbreviation clean_range := (clean_range (C:=C) g r0).

(** ** Bytes of the core *)

Lemma working_same c v v' β m σ : cache_dev v' = cache_dev v -> core_dev v' = core_dev v -> working c v β m σ -> working c v' β m σ.
Proof.
  intros Ec Ed [[HS Hk Hr Ho] Hlk Hf]. split; [split; [done| |done|done]|done|done].
  intros core a Ha Hp. unfold content, coherent. rewrite Ec, Ed. by apply Hk.
Qed.

Lemma working_clean c v β m σ : working c v β m σ -> dirty_any (info (request c)) = 0 -> clean_range c m.
Proof.
  intros [[_ _ Hr _] Hlk _] Hd core a x Hin. apply (lk_clean _ _ _ _ Hlk I Hd). by apply (in_req_same r0).
Qed.

(** A byte that is not dirty is on the core. *)
Lemma core_byte c v β m σ core a : serving c v β m σ -> clean_range c m -> in_req r0 core a -> 0 <= a -> core_dev v core a = f core a.
Proof.
  intros [_ Hk _ _] Hcl Hin Ha. destruct (Hk core a Ha (or_introl I)) as [<- Hco]. unfold content, coherent in *.
  specialize (Hcl core a). destruct (place c m core a) as [[p []]|] eqn:E; [by destruct (Hcl p)| |done]. symmetry. by apply Hco.
Qed.

Lemma range_positive c v β m σ core a : serving c v β m σ -> in_req r0 core a -> core = req_core r0 /\ 0 <= a.
Proof.
  intros [HS _ Hr _] Hin. destruct (request_span g _ (sd_ok _ _ _ _ _ _ HS)) as (H0 & _).
  destruct (geometry_fields _ _ Hr) as (_ & _ & E3 & _). destruct Hin as [-> Hin]. rewrite E3 in H0. split; [done|lia].
Qed.

(** What reading the core leaves: only the buffer changes. *)
Record only_data s s' : Prop := {
  od_meta : meta s' = meta s;
  od_vols : cache_dev (vols s') = cache_dev (vols s) /\ core_dev (vols s') = core_dev (vols s) /\ cp_data (vols s') = cp_data (vols s);
  od_prog : prog s' = prog s;
  od_rest : completions s' = completions s /\ fallback_pt_errors s' = fallback_pt_errors s
}.

Lemma core_read_wp cb s β m σ (Q : unit -> E -> Prop) : serving (meta s) (vols s) β m σ -> clean_range (meta s) m -> events s = [] ->
  (forall s' e, only_data s s' -> (e = 0 -> right_bytes (data (vols s'))) -> events s' = [Ended cb e] -> Q tt s') ->
  wp (forward_core_io_req (C:=C) w OCF_READ data_offset cb) Q s.
Proof.
  intros HS Hcl He HQ. pose proof (sv_request _ _ _ _ _ _ _ _ _ _ HS) as Hgeo. destruct (geometry_fields _ _ Hgeo) as (E1 & _ & E3 & E4 & _).
  apply wp_bind, wp_gets, wp_bind, wp_ask, wp_bind, wp_modify, wp_post; [done|]. cbn [id].
  eapply HQ; [by split| |done]. intros H0 a Hin. cbn. rewrite H0, bool_decide_eq_true_2 by done.
  destruct (range_positive _ _ _ _ _ _ _ HS Hin) as [_ Ha]. unfold read_io, core_io, buf_pos. cbn. rewrite E1, E3, E4.
  destruct Hin as [_ Hin]. rewrite bool_decide_eq_true_2 by lia.
  replace (addr r0 + (data_offset + (a - addr r0) - data_offset)) with a by lia.
  eapply core_byte; [exact HS|exact Hcl|by split|done].
Qed.

(** ** Pass-through *)

(** Reading the core when nothing is dirty. *)
Lemma pt_direct_wp b s β m σ : working (meta s) (vols s) β m σ -> (forall i e, req_map (request (meta s)) !! i = Some e -> is_new e = false) ->
  dirty_any (info (request (meta s))) = 0 -> holds (prog s) (request (meta s)) -> ref_count (prog s) = n + 1 + Z.b2z b ->
  completions s = A0 -> events s = [] ->
  wp (ocf_read_pt_do w g OCF_READ data_offset) (fun _ => finishing b 1) s.
Proof.
  intros HW Hnew Hd Hh Hr HA He. apply wp_bind, wp_req_get, wp_bind, wp_gets. cbn [id].
  change (request (meta (refs _ s))) with (request (meta s)). rewrite bool_decide_eq_false_2 by (intros H; by apply H).
  set (s1 := refs _ s). apply wp_bind. eapply (move_any_wp g data_offset r0 True f s1); [exact HW|]. intros c' σ' HW' Eq Es.
  assert (Hcl : clean_range c' m) by (eapply working_clean; [exact HW'|by rewrite Eq]).
  apply wp_bind. eapply (core_read_wp _ (with_meta c' s1)); [apply HW'|exact Hcl|done|].
  intros s2 e [O1 (O2 & O3 & O4) O5 (O6 & O7)] Hb He2. apply wp_req_put; [rewrite O5; cbn; destruct b; cbn in Hr; lia|].
  apply finishing_event; [done|cbn; rewrite O5; cbn; lia|]. eapply finishes_ended; [exact He2|].
  eapply answer_unlock_wp with (u := ocf_req_unlock) (β := β) (m := m) (σ := σ') (b := false); [by left| |done| |done| |cbn; lia].
  - cbn. rewrite O1. by apply (working_same c' (vols s)).
  - exists e, (data (vols s2)). cbn. rewrite O6. split; [cbn; by rewrite HA|]. intros H0. split; [|by apply Hb]. rewrite O1.
    eapply working_live; [exact HW'|]. cbn. by rewrite Eq.
  - cbn. rewrite O1, O5. cbn. by rewrite Eq.
Qed.

Lemma pt_do_wp b h s β m σ : working (meta s) (vols s) β m σ -> (forall i e, req_map (request (meta s)) !! i = Some e -> is_new e = false) ->
  holds (prog s) (request (meta s)) -> engine_handler (prog s) = h ->
  h = ocf_read_pt_do_h \/ h = read_generic_do_h /\ ocf_engine_is_miss (request (meta s)) = true /\ alock_rw (prog s) = OCF_READ ->
  ref_count (prog s) = n + 1 + Z.b2z b -> completions s = A0 -> events s = [] ->
  wp (ocf_read_pt_do w g OCF_READ data_offset) (fun _ => finishing b 3) s.
Proof.
  intros HW Hnew Hh Hhan Hcase Hr HA He. destruct (decide (dirty_any (info (request (meta s))) = 0)) as [Hd|Hd].
  { eapply wp_mono; [by eapply pt_direct_wp|]. intros [] s' Hf. eapply wp_more; [|exact Hf]. lia. }
  apply wp_bind, wp_req_get, wp_bind, wp_gets. change (request (meta (refs _ s))) with (request (meta s)). cbn [id].
  rewrite bool_decide_eq_true_2 by done. set (s1 := refs _ s).
  eapply (clean_wp w g Hg OCF_READ seq_cutoff data_offset r0 True f read_done n Hlock b 1 h s1 β m σ); [exact HW|done|done|exact Hh|done| | |].
  - cbn. rewrite Hr. lia.
  - intros c' v' σ' e Hne _ _. exists e, (data v'). cbn. rewrite HA. split; [done|]. intros H0. by destruct Hne.
  - intros s' σ' HW' _ Hd' HA' _ Ep _ He' Eq.
    assert (Hpt : wp (ocf_read_pt_do w g OCF_READ data_offset) (fun _ => finishing false 1) s').
    { eapply pt_direct_wp; [exact HW'|by rewrite Eq|done|by rewrite Ep, Eq|rewrite Ep; cbn; lia|rewrite HA'; exact HA|done]. }
    destruct Hcase as [->|(-> & Hm & Hrw)]; [exact Hpt|]. cbn [Engines.run_handler]. apply wp_bind, wp_gets, wp_bind, wp_gets. cbn [id].
    rewrite Eq, Ep. change (alock_rw (set_refs (n + 1) (prog s1))) with (alock_rw (prog s)). rewrite Hrw.
    change (ocf_engine_is_miss (no_dirt (request (meta s1)))) with (ocf_engine_is_miss (request (meta s))). rewrite Hm. exact Hpt.
Qed.

(** ** Hits *)

(** A hit reads the cache volume. *)
Lemma cache_read_wp cb s β m σ (Q : unit -> E -> Prop) : working (meta s) (vols s) β m σ ->
  (forall i e, req_map (request (meta s)) !! i = Some e -> me_status e = LOOKUP_HIT) -> events s = [] ->
  (forall s' e, only_data s s' -> (e = 0 -> right_bytes (data (vols s'))) -> events s' = [Ended cb e] -> Q tt s') ->
  wp (forward_cache_io_req (C:=C) w g data_offset OCF_READ cb) Q s.
Proof.
  intros HW Hhit He HQ. pose proof HW as [[HS Hk Hr _] Hlk _].
  destruct (forward_bytes (V:=V) g data_offset Hg (meta s) β m σ (sd_inv _ _ _ _ _ _ HS) (sd_ok _ _ _ _ _ _ HS)
    (hit_mapped _ _ _ _ _ _ _ _ _ _ HW Hhit) (sd_data _ _ _ _ _ _ HS) (lk_seq _ _ _ _ Hlk)) as (ios & Hios & _ & Hrd).
  apply wp_bind, wp_gets, wp_bind. cbn [id]. eapply wp_load; [exact Hios|].
  apply wp_bind, wp_ask, wp_bind, wp_modify, wp_post; [done|]. cbn [id].
  eapply HQ; [by split| |done]. intros H0 a Hin. cbn. rewrite H0, bool_decide_eq_true_2 by done.
  rewrite <- (buf_pos_same data_offset r0 (request (meta s)) a Hr), (Hrd (data (vols s)) (cache_dev (vols s)) a).
  - destruct (hit_places _ _ _ _ _ _ _ _ _ _ _ _ HW Hhit Hin) as [d Hp]. destruct (geometry_fields _ _ Hr) as (E1 & _). rewrite E1.
    destruct (range_positive _ _ _ _ _ _ _ (wk_serving _ _ _ _ _ _ _ _ _ _ HW) Hin) as [_ Ha].
    destruct (Hk (req_core r0) a Ha (or_introl I)) as [<- _]. unfold content. by rewrite Hp.
  - destruct (geometry_fields _ _ Hr) as (E1 & _). rewrite E1. by apply (in_req_same r0 (request (meta s)) _ _ Hr).
Qed.

Lemma hit_wp b s β m σ : working (meta s) (vols s) β m σ -> (forall i e, req_map (request (meta s)) !! i = Some e -> me_status e = LOOKUP_HIT) ->
  holds (prog s) (request (meta s)) -> 0 <= fallback_pt_errors s -> ref_count (prog s) = n + 2 + Z.b2z b ->
  completions s = A0 -> events s = [] ->
  wp (_ ← ocf_read_generic_submit_hit w g data_offset; ocf_req_put) (fun _ => finishing b 5) s.
Proof.
  intros HW Hhit Hh Hf Hr HA He. apply wp_bind. eapply cache_read_wp; [exact HW|exact Hhit|done|].
  intros s2 e [O1 (O2 & O3 & O4) O5 (O6 & O7)] Hb He2. apply wp_req_put; [rewrite O5; destruct b; cbn in Hr; lia|].
  apply finishing_event; [done|cbn; rewrite O5; cbn; lia|]. eapply finishes_ended; [exact He2|]. cbn [run_completion].
  assert (HW2 : working (meta s2) (vols s2) β m σ) by (rewrite O1; by apply (working_same _ (vols s))).
  assert (Hnew : forall i e, req_map (request (meta s2)) !! i = Some e -> is_new e = false).
  { intros i e0. rewrite O1. intros He0. apply bool_decide_eq_false_2. by rewrite (Hhit i e0 He0). }
  unfold _ocf_read_generic_hit_complete. case_bool_decide as Hee.
  - apply wp_bind, fallback_wp; [cbn; lia|]. intros k. apply wp_push_cb; [done|]. eapply finishes_run; [done|done|]. cbn [Engines.run_handler].
    apply (pt_do_wp false ocf_read_pt_do_h _ β m σ); [exact HW2|exact Hnew| |done|by left|cbn; lia|by rewrite <- HA, <- O6|done].
    cbn. rewrite O1, O5. exact Hh.
  - assert (e = 0) as -> by (destruct (decide (e = 0)); [done|by destruct Hee]).
    eapply unlock_answer_wp with (u := ocf_req_unlock) (β := β) (m := m) (σ := σ) (b := false); [by left|apply HW2|done| |done| |cbn; lia].
    + exists 0, (data (vols s2)). cbn. rewrite O6. split; [by rewrite HA|]. intros _. split; [|by apply Hb]. by eapply working_live.
    + cbn. rewrite O1, O5. exact Hh.
Qed.

(** ** Misses *)

Context (Hoff : data_offset = 0).

(** A copy for the backfill holds the bytes of the request. *)
Definition right_copy v : Prop := forall copy, cp_data v = Some copy -> right_bytes copy.

Lemma backfill_failed_wp s β m σ buf : working (meta s) (vols s) β m σ -> clean_range (meta s) m -> holds (prog s) (request (meta s)) ->
  alock_rw (prog s) = OCF_WRITE -> ref_count (prog s) = n + 1 -> right_bytes buf -> completions s = A0 ++ [(0, buf)] -> events s = [] ->
  wp (ocf_engine_invalidate (C:=C) w) (fun _ => finishes 2) s.
Proof.
  intros HW Hcl Hh Hrw Hr Hb HA He. eapply invalidate_wp; try done; [apply HW|apply (lk_map _ _ _ _ (wk_looked _ _ _ _ _ _ _ _ _ _ HW))|].
  intros c' β' m' σ' Hp. exists 0, buf. split; [done|]. intros _. split; [apply Hp|done].
Qed.

Lemma queue_dec_wp s (Q : unit -> E -> Prop) : (forall k b, Q tt (with_pending k b s)) -> wp (backfill_queue_dec_unblock (C:=C) (V:=V) g) Q s.
Proof.
  intros HQ. apply wp_bind, wp_gets, wp_bind, wp_modify, wp_bind, wp_gets. destruct (negb _); [apply wp_ret, HQ|].
  apply wp_when; intros _; [apply wp_modify|]; apply HQ.
Qed.
Lemma queue_inc_wp s (Q : unit -> E -> Prop) : (forall k b, Q tt (with_pending k b s)) -> wp (backfill_queue_inc_block (C:=C) (V:=V) g) Q s.
Proof.
  intros HQ. apply wp_bind, wp_gets, wp_bind, wp_modify. apply wp_when; intros _; [apply wp_modify|]; apply HQ.
Qed.

(** The volumes after a write of a backfill. *)
Lemma backfill_volumes c v β m σ copy w1 ios v' : working c v β m σ -> all_mapped c m -> clean_range c m -> right_bytes copy ->
  (forall buf dev, backfilled g data_offset c m dev (write_ios (V:=V) buf dev ios) buf) ->
  cache_dev v' = outcome w w1 (write_ios copy (cache_dev v) ios) (cache_dev v) -> core_dev v' = core_dev v ->
  working c v' β m σ /\ (io_error w w1 = 0 -> forall core a, in_req r0 core a ->
    cache_dev v' (pos g m core a) = f core a /\ core_dev v' core a = f core a).
Proof.
  intros HW Hall Hcl Hcopy Hbf Ec Ed. pose proof HW as [[HS Hk Hr Ho] Hlk Hf]. set (dev' := write_ios copy (cache_dev v) ios) in *.
  pose proof (Hbf copy (cache_dev v)) as Hb. fold dev' in Hb.
  assert (Hwhole : forall core a, is_Some (m !! byte_line g core a) -> cache_dev v' (pos g m core a) = cache_dev v (pos g m core a) \/
    in_req r0 core a /\ dev' (pos g m core a) = f core a /\ cache_dev v' (pos g m core a) = f core a).
  { intros core a Hm. rewrite Ec. unfold outcome. destruct (_ || _); [|by left]. specialize (Hb core a Hm). cbv zeta in Hb. case_decide as Hin; [|by left].
    destruct Hb as [[->|E] _]; [by left|]. right. apply (in_req_same r0) in Hin; [|done]. split; [done|].
    destruct (range_positive _ _ _ _ _ _ _ (wk_serving _ _ _ _ _ _ _ _ _ _ HW) Hin) as [-> _]. rewrite E, (buf_pos_same data_offset r0) by done.
    split; by apply Hcopy. }
  assert (Hk' : kept g r0 True f c v' m).
  { intros core a Ha Hp. destruct (Hk core a Ha Hp) as [Hc Hco].
    destruct (place c m core a) as [[p d]|] eqn:Epl.
    - destruct (place_pos g _ _ _ _ _ _ Epl) as [-> Hm]. destruct (Hwhole core a Hm) as [E|(Hin & _ & E)].
      + rewrite <- Hc. unfold content, coherent in *. rewrite Epl in Hco |- *. rewrite E, Ed. split; [done|]. intros q Hq. injection Hq as <- ->.
        rewrite E. by apply Hco.
      + destruct d; [by destruct (Hcl core a (pos g m core a) Hin)|].
        pose proof (core_byte _ _ _ _ _ _ _ (wk_serving _ _ _ _ _ _ _ _ _ _ HW) Hcl Hin Ha) as Hcore.
        unfold content, coherent. rewrite Epl, E, Ed. split; [done|]. intros q [= <-]. congruence.
    - rewrite <- Hc. unfold content, coherent. rewrite Epl, Ed. by split. }
  split; [by split|]. intros H0 core a Hin.
  destruct (range_positive _ _ _ _ _ _ _ (wk_serving _ _ _ _ _ _ _ _ _ _ HW) Hin) as [Ecore Ha].
  pose proof (core_byte _ _ _ _ _ _ _ (wk_serving _ _ _ _ _ _ _ _ _ _ HW) Hcl Hin Ha) as Hcore. rewrite Ed. split; [|done].
  pose proof (proj2 (in_req_same r0 (request c) core a Hr) Hin) as Hin'.
  pose proof (sd_ok _ _ _ _ _ _ HS) as Hok.
  destruct (byte_in_entry g (request c) core a Hok (sd_aligned _ _ _ _ _ _ HS) Hin') as (Ecore' & _ & [e He] & Ei & Eb & _).
  set (i := Z.to_nat (entry_index g (request c) a)) in *. destruct (Hall i e He) as [Hs Hm]. unfold entry_maps in Hm. rewrite <- Eb in Hm.
  assert (Hsm : is_Some (m !! byte_line g core a)) by (rewrite Hm; by eexists).
  rewrite Ec. unfold outcome. rewrite H0, bool_decide_eq_true_2 by done. cbn [orb].
  specialize (Hb core a Hsm). cbv zeta in Hb. rewrite decide_True in Hb by done. destruct Hb as [Hor Hmiss].
  destruct (decide (me_status e = LOOKUP_HIT)) as [Hhit|Hhit].
  - destruct Hor as [->| ->]; [|rewrite (buf_pos_same data_offset r0) by done; subst core; by apply Hcopy].
    destruct (mapped_line g _ _ _ _ _ _ (sd_inv _ _ _ _ _ _ HS) Hm) as (_ & st & Hst).
    destruct (byte_in_entry g (request c) core a Hok (sd_aligned _ _ _ _ _ _ HS) Hin') as (_ & _ & _ & _ & _ & Hbl). fold i in Hbl.
    pose proof (lk_valid _ _ _ _ Hlk i e st He Hhit Hst _ Hbl) as Hv.
    assert (Hpl : is_Some (place c m core a)).
    { rewrite (place_mapped g c m core a _ st Hm Hst). unfold in_line. rewrite Hv. by eexists. }
    destruct Hpl as [[p d] Hpl]. destruct (place_pos g _ _ _ _ _ _ Hpl) as [-> _].
    destruct (Hk core a Ha (or_introl I)) as [<- _]. unfold content. by rewrite Hpl.
  - rewrite (Hmiss e He Hhit), (buf_pos_same data_offset r0) by done. subst core. by apply Hcopy.
Qed.

Lemma backfill_wp s β m σ buf : working (meta s) (vols s) β m σ -> all_mapped (meta s) m -> clean_range (meta s) m -> holds (prog s) (request (meta s)) ->
  alock_rw (prog s) = OCF_WRITE -> ref_count (prog s) = n + 1 -> 0 <= fallback_pt_errors s -> right_copy (vols s) ->
  right_bytes buf -> completions s = A0 ++ [(0, buf)] -> events s = [] ->
  wp (ocf_engine_backfill w g) (fun _ => finishes 4) s.
Proof.
  intros HW Hall Hcl Hh Hrw Hr Hf Hcp Hb HA He. apply wp_bind, queue_inc_wp. intros k b. apply wp_push_cb; [done|].
  eapply finishes_run; [done|done|]. cbn [Engines.run_handler]. set (s1 := with_events [] _).
  assert (Hfail : forall s2 e, e <> 0 -> working (meta s2) (vols s2) β m σ -> meta s2 = meta s -> alock_rw (prog s2) = OCF_WRITE ->
    locked (prog s2) = locked (prog s) -> ref_count (prog s2) = n + 1 -> 0 <= fallback_pt_errors s2 -> completions s2 = A0 ++ [(0, buf)] ->
    events s2 = [] -> wp (_ocf_backfill_complete w g e) (fun _ => finishes 2) s2).
  { intros s2 e Hee HW2 Em Hrw2 Hl2 Hr2 Hf2 HA2 He2. unfold _ocf_backfill_complete. rewrite !(bool_decide_eq_true_2 (e <> 0)) by done.
    apply wp_bind, fallback_wp; [done|]. intros k2. apply wp_bind, queue_dec_wp. intros k3 b3. apply wp_bind, wp_modify.
    eapply (backfill_failed_wp _ β m σ buf); try done.
    - by apply (working_same _ (vols s2)).
    - cbn. by rewrite Em.
    - intros i d. cbn. rewrite Hl2. intros Hi. destruct (Hh i d Hi) as (-> & Hx). rewrite Em, Hrw2, Hrw. by split. }
  apply wp_bind, wp_gets. change (cp_data (vols s1)) with (cp_data (vols s)). destruct (cp_data (vols s)) as [copy|] eqn:Ecp.
  - apply wp_bind, wp_modify, wp_bind, wp_gets. cbn [id]. pose proof HW as [[HS Hk Hg0 _] Hlk _].
    destruct (backfill_bytes (V:=V) g data_offset Hg (meta s) β m σ (sd_inv _ _ _ _ _ _ HS) (sd_ok _ _ _ _ _ _ HS)
      Hall (sd_data _ _ _ _ _ _ HS) (lk_seq _ _ _ _ Hlk)) as (ios & Hios & Hbf).
    apply wp_bind. eapply wp_load; [exact Hios|]. apply wp_bind, wp_ask, wp_bind, wp_modify, wp_post; [done|]. cbn [id].
    set (s2 := pend _ _). destruct (backfill_volumes (meta s) (vols s) β m σ copy (clock s1) ios (vols s2) HW Hall Hcl (Hcp _ Ecp) Hbf eq_refl eq_refl) as [HW2 Hfull].
    eapply finishes_ended; [done|]. cbn [run_completion]. destruct (decide (io_error w (clock s1) = 0)) as [H0|H0].
    + unfold _ocf_backfill_complete. change (clock (with_vols _ s1)) with (clock s1). rewrite !(bool_decide_eq_false_2 (io_error w (clock s1) <> 0)) by (intros Hx; by apply Hx).
      apply wp_bind, wp_ret, wp_bind, queue_dec_wp. intros k3 b3. apply wp_bind, wp_modify, wp_push_cb; [done|].
      eapply finishes_run; [done|done|]. cbn [Engines.run_handler]. apply wp_bind, wp_on_meta.
      eapply wp_mono; [eapply (valid_wp g data_offset r0 True f (meta s) (vols s2) β m σ HW2 Hall); intros _; split; [exact Hcl|by apply Hfull]|].
      intros [] c' (σ' & HS' & Hlv & Hnx & Eq & _).
      eapply unlock_put_wp with (u := ocf_req_unlock) (β := β) (m := m) (σ := σ') (b := false); [by left| |done| |done| |cbn; lia].
      * destruct HS' as [X1 X2 X3 X4]. by split.
      * exists 0, buf. split; [exact HA|]. intros _. split; [exact Hlv|done].
      * cbn. rewrite Eq. exact Hh.
    + apply (Hfail _ (io_error w (clock s1))); done.
  - eapply wp_more; [|apply (Hfail _ (- OCF_ERR_NO_MEM)); done]. lia.
Qed.

Lemma miss_wp b s β m σ : working (meta s) (vols s) β m σ -> all_mapped (meta s) m -> clean_range (meta s) m -> holds (prog s) (request (meta s)) ->
  alock_rw (prog s) = OCF_WRITE -> ref_count (prog s) = n + 2 + Z.b2z b -> 0 <= fallback_pt_errors s ->
  completions s = A0 -> events s = [] ->
  wp (_ ← _ocf_read_generic_submit_miss w OCF_READ data_offset; ocf_req_put) (fun _ => finishing b 5) s.
Proof.
  intros HW Hall Hcl Hh Hrw Hr Hf HA He. apply wp_bind. apply wp_bind, wp_ask, wp_bind, wp_ask.
  assert (Hgo : forall s1, meta s1 = meta s -> cache_dev (vols s1) = cache_dev (vols s) -> core_dev (vols s1) = core_dev (vols s) ->
    prog s1 = prog s -> completions s1 = completions s -> fallback_pt_errors s1 = fallback_pt_errors s -> events s1 = [] ->
    wp (forward_core_io_req (C:=C) w OCF_READ data_offset read_miss_complete) (fun _ s' => wp ocf_req_put (fun _ => finishing b 5) s') s1).
  { intros s1 Em Ec Ed Ep Ea Ef Ee.
    assert (HW1 : working (meta s1) (vols s1) β m σ) by (rewrite Em; by apply (working_same _ (vols s))).
    eapply (core_read_wp _ s1); [apply HW1|by rewrite Em|done|].
    intros s2 e [O1 (O2 & O3 & O4) O5 (O6 & O7)] Hb He2.
    assert (HW2 : working (meta s2) (vols s2) β m σ) by (rewrite O1; by apply (working_same _ (vols s1))).
    apply wp_req_put; [rewrite O5, Ep; destruct b; cbn in Hr; lia|].
    apply finishing_event; [done|cbn; rewrite O5, Ep; cbn; lia|]. eapply finishes_ended; [exact He2|]. cbn [run_completion].
    set (s3 := with_events [] _). assert (Hh3 : holds (prog s3) (request (meta s3))) by (cbn; rewrite O1, O5, Em, Ep; exact Hh).
    assert (Hrw3 : alock_rw (prog s3) = OCF_WRITE) by (cbn; by rewrite O5, Ep).
    unfold _ocf_read_generic_miss_complete. case_bool_decide as Hee.
    - apply wp_bind, wp_answer, wp_bind, wp_modify.
      eapply wp_more; [|eapply (invalidate_wp w g Hg OCF_READ seq_cutoff data_offset r0 True f read_done n _ β m σ); try done]; [lia|..].
      + apply (working_same _ (vols s2)); done.
      + apply (lk_map _ _ _ _ (wk_looked _ _ _ _ _ _ _ _ _ _ HW2)).
      + intros _. cbn. by rewrite O1, Em.
      + intros c' β' m' σ' _. exists e, (data (vols s2)). cbn. rewrite O6, Ea, HA. split; [done|]. intros H0. by destruct Hee.
    - assert (e = 0) as -> by (destruct (decide (e = 0)); [done|by destruct Hee]). specialize (Hb eq_refl).
      apply wp_bind, wp_gets, wp_bind, wp_modify, wp_bind, wp_answer. set (s4 := answer 0 _).
      assert (Hv4 : cache_dev (vols s4) = cache_dev (vols s2) /\ core_dev (vols s4) = core_dev (vols s2) /\ data (vols s4) = data (vols s2)).
      { cbn. destruct (cp_data (vols s2)); done. }
      destruct Hv4 as (C1 & C2 & C3).
      eapply (backfill_wp s4 β m σ (data (vols s2))); try done.
      + apply (working_same _ (vols s2)); done.
      + cbn. by rewrite O1, Em.
      + cbn. by rewrite O1, Em.
      + cbn. lia.
      + intros copy. cbn. destruct (cp_data (vols s2)) as [copy0|] eqn:Ecp; cbn; [|by rewrite Ecp]. intros [= <-] a Hin.
        destruct (range_positive _ _ _ _ _ _ _ (wk_serving _ _ _ _ _ _ _ _ _ _ HW2) Hin) as [_ Ha].
        pose proof (sv_request _ _ _ _ _ _ _ _ _ _ (wk_serving _ _ _ _ _ _ _ _ _ _ HW2)) as Hg2.
        destruct (geometry_fields _ _ Hg2) as (_ & _ & _ & E4 & _). destruct Hin as [_ Hin].
        assert (Hbp : 0 <= buf_pos data_offset r0 a < bytes r0) by (unfold buf_pos; lia).
        change (request (meta s3)) with (request (meta s2)). rewrite E4, bool_decide_eq_true_2 by done. apply Hb. by split.
      + cbn. rewrite O6, Ea, HA. destruct (cp_data (vols s2)); done. }
  apply wp_bind. destruct (allocated w _).
  - apply wp_bind, wp_modify, wp_bind, wp_ask. apply wp_when; intros _; [apply wp_modify|]; by apply Hgo.
  - apply wp_modify. by apply Hgo.
Qed.

(** ** The handler of a read *)

Lemma not_hit_write r p : ocf_engine_is_miss r = true -> alock_rw p <> OCF_READ ->
  ocf_engine_is_miss r && bool_decide (alock_rw p = OCF_READ) = false.
Proof. intros -> Hp. by rewrite bool_decide_eq_false_2. Qed.

(** A miss when nothing is dirty. *)
Lemma do_miss_wp b s β m σ : working (meta s) (vols s) β m σ -> all_mapped (meta s) m -> holds (prog s) (request (meta s)) ->
  ocf_engine_is_miss (request (meta s)) = true -> dirty_any (info (request (meta s))) = 0 ->
  alock_rw (prog s) = OCF_WRITE -> ref_count (prog s) = n + 1 + Z.b2z b -> 0 <= fallback_pt_errors s ->
  completions s = A0 -> events s = [] ->
  wp (_ocf_read_generic_do w g OCF_READ data_offset) (fun _ => finishing b 5) s.
Proof.
  intros HW Hall Hh Hm Hd Hrw Hr Hf HA He. apply wp_bind, wp_gets, wp_bind, wp_gets. cbn [id]. rewrite not_hit_write by (rewrite ?Hrw; done).
  apply wp_bind, wp_req_get. rewrite Hm, (bool_decide_eq_false_2 (dirty_any _ <> 0)) by (intros H; by apply H). cbn [andb].
  apply wp_bind. set (s1 := refs _ s). eapply (move_any_wp g data_offset r0 True f s1); [exact HW|]. intros c' σ' HW' Eq Es.
  unfold ocf_engine_is_miss in Hm. apply negb_true_iff in Hm. rewrite Hm.
  eapply (miss_wp b (with_meta c' s1) β m σ'); [exact HW'|by eapply all_mapped_request| | |done| |done..].
  - eapply working_clean; [exact HW'|cbn; by rewrite Eq].
  - cbn. by rewrite Eq.
  - cbn. lia.
Qed.

Lemma generic_do_wp b s β m σ : working (meta s) (vols s) β m σ -> all_mapped (meta s) m -> holds (prog s) (request (meta s)) ->
  (alock_rw (prog s) = OCF_READ -> forall i e, req_map (request (meta s)) !! i = Some e -> is_new e = false) ->
  engine_handler (prog s) = read_generic_do_h -> ref_count (prog s) = n + 1 + Z.b2z b -> 0 <= fallback_pt_errors s ->
  completions s = A0 -> events s = [] ->
  wp (_ocf_read_generic_do w g OCF_READ data_offset) (fun _ => finishing b 7) s.
Proof.
  intros HW Hall Hh Hrd Hhan Hr Hf HA He.
  destruct (ocf_engine_is_miss (request (meta s))) eqn:Hm.
  - destruct (alock_rw (prog s)) eqn:Hrw.
    + apply wp_bind, wp_gets, wp_bind, wp_gets. cbn [id]. rewrite Hm, Hrw, bool_decide_eq_true_2 by done. cbn [andb].
      eapply wp_mono; [eapply (pt_do_wp b read_generic_do_h s β m σ); try done; [by apply Hrd|by right]|].
      intros [] s' Hf'. eapply wp_more; [|exact Hf']. lia.
    + destruct (decide (dirty_any (info (request (meta s))) = 0)) as [Hd|Hd].
      { eapply wp_mono; [by eapply do_miss_wp|]. intros [] s' Hf'. eapply wp_more; [|exact Hf']. lia. }
      apply wp_bind, wp_gets, wp_bind, wp_gets. cbn [id]. rewrite not_hit_write by (rewrite ?Hrw; done).
      apply wp_bind, wp_req_get. rewrite Hm, (bool_decide_eq_true_2 (dirty_any _ <> 0)) by done. cbn [andb]. set (s1 := refs _ s).
      eapply (clean_wp w g Hg OCF_READ seq_cutoff data_offset r0 True f read_done n Hlock b 5 read_generic_do_h s1 β m σ); [exact HW|done|done|exact Hh|done| | |].
      * cbn. lia.
      * intros c' v' σ' e Hne _ _. exists e, (data v'). cbn. rewrite HA. split; [done|]. intros H0. by destruct Hne.
      * intros s' σ' HW' _ Hd' HA' _ Ep Ef He' Eq. cbn [Engines.run_handler].
        assert (Hw := do_miss_wp false s' β m σ' HW'). apply Hw.
        -- eapply (all_mapped_infos (meta s)); [by rewrite Eq|by rewrite Eq|exact Hall].
        -- rewrite Eq, Ep. exact Hh.
        -- by rewrite Eq.
        -- done.
        -- by rewrite Ep.
        -- rewrite Ep. cbn. lia.
        -- by rewrite Ef.
        -- by rewrite HA'.
        -- done.
  - unfold ocf_engine_is_miss in Hm. apply negb_false_iff in Hm.
    apply wp_bind, wp_gets, wp_bind, wp_gets. cbn [id]. unfold ocf_engine_is_miss. rewrite Hm. cbn [negb andb].
    apply wp_bind, wp_req_get. set (s1 := refs _ s). apply wp_bind. eapply (move_any_wp g data_offset r0 True f s1); [exact HW|]. intros c' σ' HW' Eq Es.
    eapply wp_mono.
    + eapply (hit_wp b (with_meta c' s1) β m σ'); [exact HW'| | |done| |done..].
      * cbn. rewrite Eq. apply (lk_hit _ _ _ _ (wk_looked _ _ _ _ _ _ _ _ _ _ HW) Hm).
      * cbn. by rewrite Eq.
      * cbn. lia.
    + intros [] s' Hf'. eapply wp_more; [|exact Hf']. lia.
Qed.

(** ** The engines *)

(** Before an engine starts. *)
Record request_at s β m σ (k : Z) : Prop := {
  ra_idle : idle (meta s) (vols s) β m σ;
  ra_priv : priv (prog s) = None;
  ra_locks : locked (prog s) = ∅;
  ra_refs : ref_count (prog s) = k;
  ra_faults : 0 <= fallback_pt_errors s;
  ra_answers : completions s = A0;
  ra_events : events s = []
}.

(** A traversed request that may have to be locked for reading. *)
Lemma pt_locked_wp s β m σ : traversed w g data_offset r0 True f (meta s) (vols s) β m σ -> priv (prog s) = None -> locked (prog s) = ∅ ->
  ref_count (prog s) = n + 2 -> engine_handler (prog s) = ocf_read_pt_do_h -> completions s = A0 -> events s = [] ->
  wp (_ ← (lock ← (if bool_decide (ocf_engine_mapped_count (request (meta s)) <> 0) then ocf_req_async_lock_rd w ocf_engine_on_resume_cb
             else mret OCF_LOCK_ACQUIRED);
           if bool_decide (0 <= lock) then
             if bool_decide (lock = OCF_LOCK_ACQUIRED) then ocf_read_pt_do w g OCF_READ data_offset else mret tt
           else _ ← req_complete lock; ocf_req_put); ocf_req_put) (fun _ => finishes 6) s.
Proof.
  intros [Hid HW Hck Hnone Hold] Hp Hl Hr Hh HA He. apply wp_bind.
  assert (Hdo : forall s', meta s' = meta s -> vols s' = vols s -> prog s' = prog s \/ (exists l, prog s' = set_lock OCF_READ l (prog s)) ->
    holds (prog s') (request (meta s)) -> completions s' = completions s -> events s' = [] ->
    wp (if bool_decide (0 <= OCF_LOCK_ACQUIRED) then
          if bool_decide (OCF_LOCK_ACQUIRED = OCF_LOCK_ACQUIRED) then ocf_read_pt_do w g OCF_READ data_offset else mret tt
        else _ ← req_complete OCF_LOCK_ACQUIRED; ocf_req_put) (fun _ s'' => wp ocf_req_put (fun _ => finishes 6) s'') s').
  { intros s' Em Ev Ep Hh' Ea Ee. cbn [bool_decide].
    assert (Epp : engine_handler (prog s') = ocf_read_pt_do_h /\ ref_count (prog s') = n + 2) by (destruct Ep as [->|[l ->]]; done).
    destruct Epp as [E1 E2]. change (wp (ocf_read_pt_do w g OCF_READ data_offset) (fun _ s'' => wp ocf_req_put (fun _ => finishes 6) s'') s').
    eapply wp_mono; [eapply (pt_do_wp true ocf_read_pt_do_h s' β m σ)|]; rewrite ?Em, ?Ev; try done; [by left|cbn; lia|by rewrite Ea|].
    intros [] s'' Hf. eapply wp_more; [|exact Hf]. lia. }
  destruct (bool_decide (ocf_engine_mapped_count (request (meta s)) <> 0)); [|apply wp_bind, wp_ret; apply Hdo; try done; [by left|intros i d; by rewrite Hl]].
  apply wp_bind. eapply (lock_wp w Hlock OCF_READ); [done|intros i d; by rewrite Hl| |].
  - intros l s' Hh' Ep Em Ev Ea Ef. split.
    + intros Hev. apply Hdo; try done. right. by exists l.
    + intros Hk Hev. rewrite (bool_decide_eq_true_2 (0 <= OCF_LOCK_NOT_ACQUIRED)), (bool_decide_eq_false_2 (OCF_LOCK_NOT_ACQUIRED = OCF_LOCK_ACQUIRED)) by done. apply wp_ret.
      apply wp_req_put; [rewrite Ep; cbn; lia|].
      apply (granted_wp w g OCF_READ seq_cutoff data_offset r0 True f read_done n 3 ocf_read_pt_do_h _ β m σ); cbn.
      * by rewrite Em, Ev.
      * rewrite Em. by apply Hck.
      * done.
      * by rewrite Ep.
      * by rewrite Ep.
      * intros s2 HW2 Hinf Ev2 Ec2 Ep2 Ef2 He2.
        eapply (pt_do_wp false ocf_read_pt_do_h s2 β m σ); [exact HW2| | | |by left| | |done].
        -- intros i e Hi. destruct (infos_lookup _ _ _ _ Hinf Hi) as (e0 & He0 & Ei). unfold is_new, me_status. rewrite Ei.
           apply (Hold i e0). by rewrite <- Em.
        -- rewrite Ep2. eapply holds_infos; [exact Hinf|]. cbn. rewrite Em. exact Hh'.
        -- rewrite Ep2. cbn. by rewrite Ep.
        -- rewrite Ep2. cbn. rewrite Ep. cbn. lia.
        -- rewrite Ec2. cbn. by rewrite Ea.
  - intros e s' [k Hk] Ep Em Ev Ea Ef Hev. assert (e < 0) by by eapply Hlock. rewrite bool_decide_eq_false_2 by lia.
    apply wp_bind, wp_answer, wp_req_put; [cbn; rewrite Ep; cbn; lia|]. 
    eapply (ended_at w g OCF_READ seq_cutoff data_offset r0 True f read_done n true); [| |done|done| |].
    + cbn. rewrite Em, Ev. apply HW.
    + exists e, (data (vols s')). cbn. rewrite Ea, HA. split; [done|]. intros H0. lia.
    + cbn. by rewrite Ep.
    + cbn. rewrite Ep. cbn. lia.
Qed.

Lemma pt_forced_wp s β m σ : request_at s β m σ (n + 1) -> seq_cutoff && negb (force_pt (prog s)) = false ->
  wp (ocf_read_pt w g OCF_READ seq_cutoff data_offset) (fun _ => finishes 6) s.
Proof.
  intros [Hid Hp Hl Hr Hf HA He] Hforce. apply wp_bind, wp_req_get, wp_bind, wp_modify, wp_bind, rehash_wp. intros q Hq Hqn.
  set (s1 := with_meta _ _).
  assert (Hid1 : idle (meta s1) (vols s1) β m σ) by (eapply idle_request; [exact Hid|done|done]).
  apply wp_bind, wp_on_meta. eapply wp_mono; [eapply (traverse_wp w g Hg); exact Hid1|]. intros [] c' [σ' Htv].
  apply wp_bind, wp_gets, wp_bind, wp_gets. cbn [id].
  change (force_pt (prog (with_meta c' s1))) with (force_pt (prog s)).
  replace (seq_cutoff && _ && negb (force_pt (prog s))) with false by (destruct seq_cutoff; [|done]; cbn in Hforce; by rewrite Hforce, andb_false_r).
  eapply (pt_locked_wp (with_meta c' s1) β m σ'); [exact Htv|done|done| |done..]. cbn. lia.
Qed.

Lemma generic_wp s β m σ : request_at s β m σ (n + 1) -> failing_locks w (meta s) m ->
  wp (ocf_read_generic w g OCF_READ data_offset) (fun _ => finishes 10) s.
Proof.
  intros Hra Hfl. pose proof Hra as [Hid Hp Hl Hr Hf HA He]. apply wp_bind, wp_gets. destruct (pending_blocked s).
  - apply wp_bind, wp_modify, wp_modify. cbn [events with_prog]. rewrite He.
    eapply finishes_more; [|eapply (finishes_call _ _ _ _ _ 6); [done|]]; [lia|]. cbn [Engines.run_handler].
    eapply pt_forced_wp; [by split|]. cbn. by rewrite andb_false_r.
  - apply wp_bind, wp_req_get, wp_bind, wp_modify. set (s1 := with_prog _ _).
    eapply (prepared_wp w g Hg OCF_READ seq_cutoff data_offset r0 True f read_done n Hlock read_generic_do_h ocf_read_pt_h 7 _ _
      (fun p => set_flags true (wi_second_pass p) (part_evict p) p)) with (s0 := s1); [done| |by right|done| | |exact Hid|exact Hfl|done|done|done|done| |done].
    + intros s2 Q He2 HQ. apply wp_bind, wp_modify, wp_modify. cbn [events with_prog]. by rewrite He2.
    + intros s2 b β2 m2 σ2 HW Hall Hh Hrd _ [A1 A2 A3 _] Hhan _ Hr2 He2.
      eapply (generic_do_wp b s2 β2 m2 σ2); try done; [by rewrite A3|by rewrite A2].
    + intros s2 β2 m2 σ2 Hid2 [A1 A2 A3 _] [p0 Ep] Hp2 Hl2 Hr2 He2. cbn [Engines.run_handler].
      eapply wp_more; [|eapply pt_forced_wp]; [lia| |].
      * split; [exact Hid2|done..|by rewrite A3|by rewrite A2|done].
      * rewrite Ep. cbn. by rewrite andb_false_r.
    + cbn. lia.
Qed.

Lemma pt_wp s β m σ : request_at s β m σ (n + 1) -> failing_locks w (meta s) m ->
  wp (ocf_read_pt w g OCF_READ seq_cutoff data_offset) (fun _ => finishes 11) s.
Proof.
  intros Hra Hfl. destruct (seq_cutoff && negb (force_pt (prog s))) eqn:Hforce.
  2:{ eapply wp_more; [|by eapply pt_forced_wp]. lia. }
  pose proof Hra as [Hid Hp Hl Hr Hf HA He]. apply wp_bind, wp_req_get, wp_bind, wp_modify, wp_bind, rehash_wp. intros q Hq Hqn.
  set (s1 := with_meta _ _).
  assert (Hid1 : idle (meta s1) (vols s1) β m σ) by (eapply idle_request; [exact Hid|done|done]).
  apply wp_bind, wp_on_meta. eapply wp_mono; [eapply (traverse_wp w g Hg); exact Hid1|]. intros [] c' [σ' Htv].
  apply wp_bind, wp_gets, wp_bind, wp_gets. cbn [id]. destruct (_ && _ && _).
  - apply wp_bind, wp_bind. eapply clear_wp; [apply Htv|]. intros s2 Hid2 [A1 A2 A3 _] [x Ep] He2.
    apply wp_modify, wp_req_put; [cbn; rewrite Ep; cbn; lia|]. assert (Hev : events s2 = []) by (rewrite He2; exact He). rewrite Hev.
    eapply finishes_call; [done|]. cbn [Engines.run_handler]. eapply (generic_wp _ β m σ').
    + split; [exact Hid2|cbn; by rewrite Ep|cbn; by rewrite Ep|cbn; rewrite Ep; cbn; lia|cbn; rewrite A3; done|cbn; rewrite A2; done|done].
    + intros Hk. specialize (Hfl Hk). cbn. pose proof (sv_request _ _ _ _ _ _ _ _ _ _ (id_serving _ _ _ _ _ _ _ _ _ _ _ Hid2)) as G2.
      pose proof (sv_request _ _ _ _ _ _ _ _ _ _ (id_serving _ _ _ _ _ _ _ _ _ _ _ Hid)) as G0.
      assert (Ge : geometry (request (meta s2)) = geometry (request (meta s))) by congruence.
      destruct (geometry_fields _ _ Ge) as (-> & _ & _ & _ & -> & _ & ->). exact Hfl.
  - eapply wp_more; [|eapply (pt_locked_wp (with_meta c' s1) β m σ'); [exact Htv|done|done| |done..]]; [lia|]. cbn. lia.
Qed.
End Reads.

(** ** The engines for reading *)

Section Engines.
Context {C V : Type} `{!CleaningPolicy C} `{!SpaceManagement C} (w : world V) (g : config) (seq_cutoff : bool).
Implicit Types (s : engine C V) (m : gmap core_info Z).

(** A read that was submitted in state [s] is over in state [s']: it has been
    answered once, with [e]; no byte of a core has another content than before,
    and a read without error has delivered the content of its range. *)
Record read_served m s s' (β' : bucket_map) (m' : gmap core_info Z) (σ' : listing) (e : Z) (buf : Z -> V) : Prop := {
  rs_answer : completions s' = completions s ++ [(e, buf)];
  rs_released : locked (prog s') = ∅ /\ ref_count (prog s') = ref_count (prog s) - 1;
  rs_steady : steady g (meta s') β' m' σ' 0;
  rs_request : geometry (request (meta s')) = geometry (request (meta s));
  rs_content core a : 0 <= a -> content g (meta s') (vols s') m' core a = content g (meta s) (vols s) m core a;
  rs_coherent core a : 0 <= a -> coherent g (meta s') (vols s') m' core a;
  rs_data a : e = 0 -> in_req (request (meta s)) (req_core (request (meta s))) a ->
    buf (buf_pos 0 (request (meta s)) a) = content g (meta s) (vols s) m (req_core (request (meta s))) a;
  rs_lines : e = 0 -> live (meta s') m' (fun _ => True)
}.

Lemma submitted_request s β m σ : submitted w g 0 s β m σ -> ((exists k, lock_answers w k = LockLater) -> partly_clean g (meta s) m) ->
  request_at w g 0 (request (meta s)) (content g (meta s) (vols s) m) (completions s) (with_events [] s) β m σ (ref_count (prog s)).
Proof.
  intros Hs Hp. pose proof (submitted_idle w g 0 True s β m σ Hs (fun Hk _ => Hp Hk)) as Hid.
  destruct Hs as [_ _ _ He (P1 & P2 & P3) _ Hf _]. split; try done.
Qed.

Lemma read_served_wp `{!SpaceLaws g} s β m σ :
  config_ok g -> submitted w g 0 s β m σ -> ((exists k, lock_answers w k = LockLater) -> partly_clean g (meta s) m) ->
  engine_handler (prog s) = ocf_read_generic_h \/ engine_handler (prog s) = ocf_read_pt_h ->
  wp (ocf_queue_run w g OCF_READ seq_cutoff 0 12) (fun _ s' => events s' = [] /\
    exists β' m' σ' e buf, read_served m s s' β' m' σ' e buf) s.
Proof.
  intros Hg Hs Hp Hh. pose proof (submitted_request s β m σ Hs Hp) as Hra.
  destruct Hs as [_ _ _ He (_ & _ & Href) _ _ [Hlk Hfl]]. set (n := ref_count (prog s) - 1).
  replace (ref_count (prog s)) with (n + 1) in Hra by lia. set (r0 := request (meta s)) in *. set (f := content g _ _ m) in *.
  enough (Hfin : finishes w g OCF_READ seq_cutoff 0 12
    (EngineRuns.ended g 0 r0 True f (read_done 0 r0 f (completions s)) n) s).
  { eapply wp_mono; [exact Hfin|]. intros [] s' [Hev [(β' & m' & σ' & [HS Hk Hq _] & e & buf & HA & HR) [Hl Hr]]]. split; [done|].
    exists β', m', σ', e, buf. split; [done|by split|done|done| | | |].
    - intros core a Ha. by apply (Hk core a Ha (or_introl I)).
    - intros core a Ha. by apply (Hk core a Ha (or_introl I)).
    - intros a H0. by apply (HR H0).
    - intros H0. by apply HR. }
  eapply finishes_run; [exact He|reflexivity|]. destruct Hh as [-> | ->]; cbn [Engines.run_handler].
  - eapply wp_more; [|eapply (generic_wp w g Hg Hlk); [|done|exact Hra|exact Hfl]; lia]. lia.
  - eapply (pt_wp w g Hg Hlk); [|done|exact Hra|exact Hfl]. lia.
Qed.

(** C3. Both engines answer a read once, with what a reader of the core is to get;
    the cache may end up holding other bytes, but stands for the same content.
    Any I/O and any allocation may fail.  Three conditions are the code's own
    limits.  The buffer of the request begins at offset 0, since the backfill
    ignores the offset.  When the locks of the request's lines are granted
    later, a line with a requested byte that is not cached must not have a dirty
    one ([partly_clean]), since the check after a wait counts such a line as
    clean; [EngineExamples] shows runs that break these two.  And that one of these
    locks fails is excluded unless all lines of the request are mapped
    ([failing_locks]). *)
Theorem engine_reads_return_content `{!SpaceLaws g} s β m σ :
  config_ok g -> submitted w g 0 s β m σ -> ((exists k, lock_answers w k = LockLater) -> partly_clean g (meta s) m) ->
  engine_handler (prog s) = ocf_read_generic_h \/ engine_handler (prog s) = ocf_read_pt_h ->
  wp (ocf_queue_run w g OCF_READ seq_cutoff 0 12) (fun _ s' => events s' = [] /\
    exists β' m' σ' e buf, read_served m s s' β' m' σ' e buf) s.
Proof. apply read_served_wp. Qed.
End Engines.

Import EngineSample.
Lemma engine_reads_return_content_witness : exists l σ,
  let s := sample_engine ocf_read_generic_h 4096 l in
  submitted faultless one_line_config 0 s (bupd 0 [0] (fun _ => [])) {[CoreInfo 0 0 := 0]} σ /\
  wp (ocf_queue_run faultless one_line_config OCF_READ false 0 12) (fun _ s' => events s' = [] /\
    exists β' m' σ' e buf, read_served one_line_config {[CoreInfo 0 0 := 0]} s s' β' m' σ' e buf) s.
Proof.
  destruct (sample_submitted ocf_read_generic_h 4096 (or_intror eq_refl)) as (l & σ & Hs).
  exists l, σ. split; [exact Hs|]. apply (engine_reads_return_content faultless one_line_config false _ (bupd 0 [0] (fun _ => [])) {[CoreInfo 0 0 := 0]} σ).
  - exact one_line_config_ok.
  - exact Hs.
  - intros [k Hk]. discriminate Hk.
  - left. reflexivity.
Defined.
