(* ===== verification/EngineWrites.v ===== *)
(** * Writing

    Every write ends with one answer.  When it reports no error, a reader of its
    range gets the bytes of its buffer, from the cache or from the core; bytes
    off its range keep their content whatever happens: hits, misses,
    pass-through, waits, cleaning, invalidation and errors of every I/O. *)

From S2P Require Import Prelude Alock AlockProofs CacheLineLock Links Lru LruProofs Generator LruPart LruPartProofs.
From S2P Require Import Collision CollisionProofs Status StatusProofs Request RequestProofs CacheLine CacheLineProofs CacheLineSteps.
From S2P Require Import Engine EngineProofs EngineCheck PartMove EngineIo EngineIoProofs EngineBase Cleaner Engines AsyncLock Content EngineSpec CleanerProofs EngineRuns.
Import EngineIo.

Section Writes.
Context {C V : Type} `{!CleaningPolicy C} (w : world V) (g : config) (Hg : config_ok g).
Context `{!SpaceManagement C} `{!SpaceLaws g} (Hlock : lock_errors w).
Context (seq_cutoff : bool) (data_offset : Z) (r0 : ocf_request) (f : Z -> Z -> V) (n : Z) (Hn : 0 <= n).
(** The answers before, and the buffer of the write. *)
Context (A0 : list (Z * (Z -> V))) (buf0 : Z -> V).
Abbreviation E := (engine C V).
Abbreviation everything := (fun _ : core_info => True).
Implicit Types (c : cache C) (v : volumes V) (m : gmap core_info Z) (r : ocf_request) (p : progress) (s : E).

Definition new_byte (a : Z) : V := buf0 (buf_pos data_offset r0 a).
Definition write_done c v m (answers : list (Z * (Z -> V))) : Prop :=
  exists e, answers = A0 ++ [(e, buf0)] /\ (e = 0 -> live c m everything /\
    forall core a, in_req r0 core a -> content g c v m core a = new_byte a /\ coherent g c v m core a).

Abbreviation serving := (serving g data_offset r0 False f).
Abbreviation working := (working g data_offset r0 False f).
Abbreviation idle := (idle w g data_offset r0 False f).
Abbreviation ended := (ended g data_offset r0 False f write_done n).
Abbreviation finishes k := (finishes w g OCF_WRITE seq_cutoff data_offset k ended).
Abbreviation finishing := (finishing w g OCF_WRITE seq_cutoff data_offset r0 False f write_done n).
Abbreviation run_handler := (run_handler w g OCF_WRITE seq_cutoff data_offset).
Abbreviation place := (place (C:=C) g).

(** ** What a write has stored so far *)

Definition cache_has v m : Prop := forall core a, in_req r0 core a -> cache_dev v (pos g m core a) = new_byte a.
Definition core_has v : Prop := forall core a, in_req r0 core a -> core_dev v core a = new_byte a.
Definition uncached c m : Prop := forall core a, in_req r0 core a -> place c m core a = None.

Lemma write_failed c v m e : e <> 0 -> write_done c v m (A0 ++ [(e, buf0)]).
Proof. intros He. exists e. split; [done|]. intros H0. by destruct He. Qed.

Lemma done_on_core c v m : live c m everything -> uncached c m -> core_has v -> write_done c v m (A0 ++ [(0, buf0)]).
Proof.
  intros Hl Hun Hc. exists 0. split; [done|]. intros _. split; [done|]. intros core a Hin.
  unfold content, coherent. rewrite (Hun core a Hin). split; [by apply Hc|done].
Qed.

Lemma done_in_cache c v m : live c m everything -> cache_has v m ->
  (forall core a, in_req r0 core a -> exists d, place c m core a = Some (pos g m core a, d) /\ (d = false -> core_dev v core a = new_byte a)) ->
  write_done c v m (A0 ++ [(0, buf0)]).
Proof.
  intros Hl Hb Hp. exists 0. split; [done|]. intros _. split; [done|]. intros core a Hin.
  destruct (Hp core a Hin) as (d & E & Hd). unfold content, coherent. rewrite E, (Hb core a Hin). split; [done|].
  intros p Ep. injection Ep as <- ->. rewrite (Hb core a Hin). symmetry. by apply Hd.
Qed.

(** Bytes off the range keep their content when neither volume changes there. *)
Lemma serving_vols c v v' β m σ : serving c v β m σ ->
  (forall core a, 0 <= a -> ~ in_req r0 core a -> core_dev v' core a = core_dev v core a /\
     (is_Some (m !! byte_line g core a) -> cache_dev v' (pos g m core a) = cache_dev v (pos g m core a))) -> serving c v' β m σ.
Proof.
  intros [HS Hk Hr Ho] Hv. split; [done| |done|done]. intros core a Ha [?|Hoff]; [done|].
  destruct (Hk core a Ha (or_intror Hoff)) as [<- Hco]. destruct (Hv core a Ha Hoff) as [Ed Ec].
  unfold content, coherent in *. destruct (place c m core a) as [[p d]|] eqn:E; [|by rewrite Ed].
  destruct (place_pos g _ _ _ _ _ _ E) as [-> Hm]. rewrite (Ec Hm), Ed. split; [done|]. intros q Eq. injection Eq as <- ->.
  rewrite (Ec Hm). by apply Hco.
Qed.

Lemma working_vols c v v' β m σ : working c v β m σ -> serving c v' β m σ -> working c v' β m σ.
Proof. intros [_ Hlk Hf] HS. by split. Qed.

(** What an I/O keeps. *)
Record wrote s s' : Prop := {
  wr_meta : meta s' = meta s;
  wr_data : data (vols s') = data (vols s);
  wr_prog : prog s' = prog s;
  wr_rest : completions s' = completions s /\ fallback_pt_errors s' = fallback_pt_errors s
}.

Lemma wp_post_among e (Q : unit -> E -> Prop) s :
  (forall es t, es = e :: events s \/ es = events s ++ [e] -> Q tt (with_events es (with_clock t s))) -> wp (post w e) Q s.
Proof.
  intros HQ. unfold wp, post, mbind, M_bind, ask, modify in *. cbn. destruct (decision w (clock s)); (apply HQ; auto).
Qed.

Lemma outcome_either t (new old : Z -> V) x : new x = old x -> outcome w t new old x = old x.
Proof. intros E. unfold outcome. by destruct (_ || _). Qed.
Lemma outcome_done t (new old : Z -> V) x : io_error w t = 0 -> outcome w t new old x = new x.
Proof. intros E. unfold outcome. by rewrite bool_decide_eq_true_2. Qed.

(** Writing the lines of a request in the cache volume. *)
Lemma cache_write_wp cb s β m σ (Q : unit -> E -> Prop) :
  serving (meta s) (vols s) β m σ -> all_mapped (meta s) m -> sequential (request (meta s)) -> data (vols s) = buf0 -> events s = [] ->
  (forall s' e, wrote s s' -> core_dev (vols s') = core_dev (vols s) -> serving (meta s') (vols s') β m σ ->
     (e = 0 -> cache_has (vols s') m) -> events s' = [Ended cb e] -> Q tt s') ->
  wp (forward_cache_io_req (C:=C) w g data_offset OCF_WRITE cb) Q s.
Proof.
  intros HS Hall Hseq Hbuf He HQ. pose proof (sv_steady _ _ _ _ _ _ _ _ _ _ HS) as Hst. pose proof (sv_request _ _ _ _ _ _ _ _ _ _ HS) as Hr.
  destruct (forward_bytes (V:=V) g data_offset Hg (meta s) β m σ (sd_inv _ _ _ _ _ _ Hst) (sd_ok _ _ _ _ _ _ Hst)
    Hall (sd_data _ _ _ _ _ _ Hst) Hseq) as (ios & Hios & Hw & _).
  apply wp_bind, wp_gets, wp_bind. cbn [id]. eapply wp_load; [exact Hios|].
  apply wp_bind, wp_ask, wp_bind, wp_modify, wp_post; [done|]. cbn [id]. specialize (Hw (data (vols s)) (cache_dev (vols s))).
  eapply HQ; [by split|done| | |done].
  - eapply serving_vols; [exact HS|]. intros core a Ha Hoff. split; [done|]. intros Hm. apply outcome_either.
    etrans; [exact (Hw core a Hm)|]. rewrite decide_False; [done|]. by rewrite (in_req_same r0).
  - intros H0 core a Hin. cbn. rewrite outcome_done by done. etrans; [apply (Hw core a)|].
    2: { rewrite decide_True by (by apply (in_req_same r0)). by rewrite Hbuf, (buf_pos_same data_offset r0). }
      apply (in_req_same r0 (request (meta s))) in Hin; [|done].
      destruct (byte_in_entry g (request (meta s)) core a (sd_ok _ _ _ _ _ _ Hst) (sd_aligned _ _ _ _ _ _ Hst) Hin) as (-> & H0a & [e He'] & Ei & Eb & _).
      destruct (Hall _ e He') as [_ Hm]. unfold entry_maps in Hm. rewrite <- Eb in Hm. by eexists.
Qed.

(** Writing the range on the core. *)
Lemma core_write_wp cb s β m σ (Q : unit -> E -> Prop) :
  serving (meta s) (vols s) β m σ -> data (vols s) = buf0 ->
  (forall s' e, wrote s s' -> cache_dev (vols s') = cache_dev (vols s) -> serving (meta s') (vols s') β m σ ->
     (e = 0 -> core_has (vols s')) -> events s' = Ended cb e :: events s \/ events s' = events s ++ [Ended cb e] -> Q tt s') ->
  wp (forward_core_io_req (C:=C) w OCF_WRITE data_offset cb) Q s.
Proof.
  intros HS Hbuf HQ. pose proof (sv_request _ _ _ _ _ _ _ _ _ _ HS) as Hr. destruct (geometry_fields _ _ Hr) as (E1 & _ & E3 & E4 & _).
  apply wp_bind, wp_gets, wp_bind, wp_ask, wp_bind, wp_modify, wp_post_among. intros es t Hes. cbn [id].
  eapply HQ; [by split|done| | |exact Hes].
  - eapply serving_vols; [exact HS|]. intros core a Ha Hoff. split; [|done]. cbn. unfold upd_core. case_decide as Ec; [|done]. subst core.
    apply outcome_either. unfold write_io, core_io. cbn. rewrite bool_decide_eq_false_2; [done|].
    intros Hin. apply Hoff. split; [by rewrite E1|lia].
  - intros H0 core a Hin. cbn. destruct (range_in g data_offset r0 False f _ _ _ _ _ core a HS Hin) as (_ & -> & Ha).
    unfold upd_core. rewrite decide_True by (by rewrite E1). rewrite outcome_done by done. unfold write_io, core_io, new_byte, buf_pos. cbn.
    destruct Hin as [_ Hin]. rewrite E3, E4, bool_decide_eq_true_2 by lia. rewrite Hbuf. f_equal; lia.
Qed.
(** ** Changes of the status bits *)

(** Nobody's byte enters or leaves the cache. *)
Lemma live_kept c c' β m σ σ' P : cache_inv (block_4k g) (line_size g) (num_entries g) c β m σ ->
  cache_inv (block_4k g) (line_size g) (num_entries g) c' β m σ' -> lines_fit g m ->
  (forall core a, 0 <= a -> is_Some (place c' m core a) <-> is_Some (place c m core a)) -> live c m P -> live c' m P.
Proof.
  intros HI HI' Hfit Hpl Hl ci x st' Hx HP Hst'. destruct (mapped_line g _ _ _ _ _ _ HI Hx) as (_ & st & Hst).
  apply (live_byte g c' β m σ' ci x st' HI' Hfit Hx Hst').
  pose proof (proj1 (live_byte g c β m σ ci x st HI Hfit Hx Hst) (Hl ci x st Hx HP Hst)) as (a & Ha & Hd & Hs).
  exists a. split; [done|]. split; [done|]. by apply Hpl.
Qed.

Definition recolours (T : Z -> option (Z * bool) -> option (Z * bool)) : Prop := forall q o, is_Some (T q o) <-> is_Some o.

(** Blocks of the range become dirty, or clean. *)
Lemma recoloured_serving c v β m σ c' T : serving c v β m σ -> recolours T -> same_cache g c β m c' (in_request g c m T) ->
  exists σ', serving c' v β m σ' /\ (live c m everything -> live c' m everything).
Proof.
  intros [HS Hk Hr Ho] HT ([σ' HI'] & Hfr & Em & Hpl). exists σ'. pose proof (next_frame g c c' Hfr) as Hnx.
  pose proof HS as [HI _ _ _ _ _ _ Hfit].
  assert (Hs : forall core a, 0 <= a -> is_Some (place c' m core a) <-> is_Some (place c m core a)).
  { intros core a Ha. rewrite Hpl by done. unfold in_request. case_decide; [apply HT|done]. }
  split; [|by eapply live_kept]. split.
  - by eapply steady_next.
  - intros core a Ha Hp. destruct (Hk core a Ha Hp) as [<- Hco]. apply content_drop; [|done]. left. rewrite Hpl by done.
    unfold in_request. rewrite decide_False; [done|]. destruct Hp as [?|Hoff]; [done|]. by rewrite (in_req_same r0).
  - etrans; [exact (nx_geometry _ _ _ Hnx)|exact Hr].
  - by eapply live_kept.
Qed.

Lemma dirty_recolours : recolours make_dirty.
Proof. intros q o. unfold make_dirty. by rewrite fmap_is_Some. Qed.
Lemma clean_recolours : recolours make_clean.
Proof. intros q o. unfold make_clean. by rewrite fmap_is_Some. Qed.

Lemma in_request_in c m T core a c' v β σ : serving c v β m σ -> in_req r0 core a ->
  same_cache g c β m c' (in_request g c m T) -> place c' m core a = T (pos g m core a) (place c m core a).
Proof.
  intros HS Hin (_ & _ & _ & Hpl). destruct (range_in g data_offset r0 False f _ _ _ _ _ core a HS Hin) as (Hin' & _ & Ha).
  rewrite Hpl by done. unfold in_request. by rewrite decide_True.
Qed.

(** The entries of a request keep their lines when they are only marked. *)
Lemma marked_map c c' m : geometry (request c') = geometry (request c) -> Forall2 marked (req_map (request c)) (req_map (request c')) ->
  (all_mapped c m -> all_mapped c' m) /\ (entries_map c m -> entries_map c' m).
Proof.
  intros Hgeo Hmk. destruct (geometry_fields _ _ Hgeo) as (E1 & _ & _ & _ & E5 & _).
  split; intros H i e' He'; destruct (Forall2_lookup_r _ _ _ _ _ Hmk He') as (e & He & [Ei _ _]); specialize (H i e He);
    unfold entry_maps, me_status, me_coll_idx in *; by rewrite Ei, E1, E5.
Qed.

(** Moving lines of which all are live. *)
Lemma move_live_wp c v β m σ : serving c v β m σ -> live c m everything ->
  (forall i e, req_map (request c) !! i = Some e -> me_re_part e = true -> me_status e <> LOOKUP_MISS /\
     exists ci, m !! ci = Some (me_coll_idx e) /\ core_id ci = req_core (request c)) ->
  wp (ocf_user_part_move (C:=C) (block_4k g) (line_size g)) (fun _ c' => exists σ', quiet g c β m c' σ') c.
Proof.
  intros HS Hl Hmv. pose proof (sv_steady _ _ _ _ _ _ _ _ _ _ HS) as Hst. pose proof (ro_map _ _ (sd_ok _ _ _ _ _ _ Hst)) as Hlen.
  eapply wp_mono.
  { eapply (user_part_move_wp (block_4k g) (line_size g) (num_entries g) c β m σ); [apply Hst|exact Hlen|apply Hst|apply Hst, Hst|].
    intros i e He Hre. destruct (Hmv i e He Hre) as (Hs & ci & Hm & Hci). split; [done|].
    destruct (mapped_line g _ _ _ _ _ _ (sd_inv _ _ _ _ _ _ Hst) Hm) as (_ & st & Hx). exists ci, st. split_and!; try done. by apply (Hl ci _ st Hm). }
  intros [] c' ((Es & Em & Eq & El & Hrdy) & [σ' HI'] & _). exists σ'. split; [done|by split; rewrite ?Eq|done|done].
Qed.
(** The range becomes valid, unless it is already. *)
Lemma validate_wp s β m σ (Q : unit -> E -> Prop) : working (meta s) (vols s) β m σ -> all_mapped (meta s) m ->
  (forall c' σ', serving c' (vols s) β m σ' -> live c' m everything -> request c' = request (meta s) ->
     (forall core a, in_req r0 core a -> exists d, place c' m core a = Some (pos g m core a, d) /\
        forall x d', place (meta s) m core a = Some (x, d') -> d' = d) -> Q tt (with_meta c' s)) ->
  wp (when (ocf_engine_is_miss (request (meta s))) (on_meta (ocf_set_valid_map_info (C:=C) (block_4k g) (line_size g)))) Q s.
Proof.
  intros HW Hall HQ. apply wp_when; intros Hm.
  - apply wp_on_meta. eapply wp_mono; [by eapply (valid_wp g data_offset r0 False f (meta s) (vols s) β m σ HW Hall)|].
    intros [] c' (σ' & HS' & Hl & _ & Eq & Hpl). eapply HQ; [exact HS'|exact Hl|exact Eq|]. intros core a Hin.
    destruct (range_in g data_offset r0 False f _ _ _ _ _ core a (wk_serving _ _ _ _ _ _ _ _ _ _ HW) Hin) as (Hin' & _ & Ha).
    rewrite Hpl by done. unfold in_request. rewrite decide_True by done. unfold make_valid.
    destruct (place (meta s) m core a) as [[x d]|] eqn:Ep; [|by exists false]. destruct (place_pos g _ _ _ _ _ _ Ep) as [-> _].
    exists d. split; [done|]. intros y d' Ey. by injection Ey.
  - unfold ocf_engine_is_miss in Hm. apply negb_false_iff in Hm. pose proof (lk_hit _ _ _ _ (wk_looked _ _ _ _ _ _ _ _ _ _ HW) Hm) as Hhit.
    replace s with (with_meta (meta s) s) by (by destruct s). eapply HQ; [apply HW| |done|].
    + eapply working_live; [exact HW|]. intros i e He. apply bool_decide_eq_false_2. by rewrite (Hhit i e He).
    + intros core a Hin. destruct (hit_places _ _ _ _ _ _ _ _ _ _ _ _ HW Hhit Hin) as [d Ep]. exists d. split; [done|]. intros x d' Ex. congruence.
Qed.

Lemma cleaning_hot_wp c v β m σ : serving c v β m σ -> wp (ocf_req_set_cleaning_hot (C:=C)) (fun _ c' => quiet g c β m c' σ) c.
Proof.
  intros HS. pose proof (sv_steady _ _ _ _ _ _ _ _ _ _ HS) as Hst. pose proof (ro_map _ _ (sd_ok _ _ _ _ _ _ Hst)) as Hlen.
  eapply wp_mono; [apply (for_each_line_wp _ (fun _ c1 => exists cl, c1 = with_cleaner cl c) (length (req_map (request c)))); [done| |]|].
  - exists (cleaner c). by destruct c.
  - intros k c1 Hk [cl ->]. destruct (lookup_lt_is_Some_2 _ _ Hk) as [e He]. apply wp_bind. eapply wp_entry; [lia|by rewrite Nat2Z.id|].
    apply cleaning_op_wp. intros cl'. by exists cl'.
  - intros [] c' [cl ->]. split; [apply inv_cleaner, Hst|split; [done|done|done|split; exact (fun _ H => H)]|done|done].
Qed.

Lemma quiet_live c β m c' σ' P : quiet g c β m c' σ' -> live c m P -> live c' m P.
Proof. intros [_ _ Es _]. by apply live_same. Qed.

(** ** Write-back *)

Lemma wb_update_wp s β m σ (Q : unit -> E -> Prop) : working (meta s) (vols s) β m σ -> all_mapped (meta s) m ->
  (forall c' σ' t, serving c' (vols s) β m σ' -> live c' m everything -> Forall2 marked (req_map (request (meta s))) (req_map (request c')) ->
     (forall core a, in_req r0 core a -> place c' m core a = Some (pos g m core a, true)) -> Q tt (with_clock t (with_meta c' s))) ->
  wp (_ocf_write_wb_update_bits (C:=C) w g) Q s.
Proof.
  intros HW Hall HQ. set (r := request (meta s)) in *.
  assert (Hhot : forall c1 σ1 t, serving c1 (vols s) β m σ1 -> live c1 m everything -> Forall2 marked (req_map r) (req_map (request c1)) ->
    (forall core a, in_req r0 core a -> place c1 m core a = Some (pos g m core a, true)) ->
    wp (on_meta (ocf_req_set_cleaning_hot (C:=C))) Q (with_clock t (with_meta c1 s))).
  { intros c1 σ1 t HS1 Hl1 Hmk1 Hpl1. apply wp_on_meta. eapply wp_mono; [by eapply cleaning_hot_wp|]. intros [] c' Hq.
    eapply (HQ c' σ1 t); [by eapply quiet_serving|by eapply quiet_live|by rewrite (qu_request _ _ _ _ _ _ Hq)|].
    intros core a Hin. rewrite (place_same g c1) by apply Hq. by apply Hpl1. }
  assert (Hdirty : ocf_engine_is_dirty_all r = true -> forall core a, in_req r0 core a -> exists x, place (meta s) m core a = Some (x, true)).
  { intros Hd core a Hin. apply (lk_dirty _ _ _ _ (wk_looked _ _ _ _ _ _ _ _ _ _ HW) Hd). apply (in_req_same r0); [apply HW|done]. }
  assert (Hsteps : forall (cl : bool), (cl = false -> ocf_engine_is_dirty_all r = true) ->
    wp (_ ← when (ocf_engine_is_miss r) (on_meta (ocf_set_valid_map_info (C:=C) (block_4k g) (line_size g)));
        _ ← when cl (now ← ask (ticks w); on_meta (ocf_set_dirty_map_info (block_4k g) (line_size g) (raw g) now));
        on_meta ocf_req_set_cleaning_hot) Q s).
  { intros cl Hcl. apply wp_bind. eapply validate_wp; [exact HW|exact Hall|]. intros c1 σ1 HS1 Hl1 Eq1 Hpl1. apply wp_bind, wp_when; intros Hb.
    - apply wp_bind, wp_ask, wp_on_meta. pose proof (sv_steady _ _ _ _ _ _ _ _ _ _ HS1) as Hst1.
      eapply wp_mono.
      { eapply (set_dirty_all_wp g _ c1 β m σ1); [apply (cf_raw _ Hg)|apply Hst1..| |].
        - intros i e. rewrite Eq1. apply Hall.
        - intros core a _ Hin. rewrite Eq1 in Hin. apply (in_req_same r0) in Hin; [|apply HW]. destruct (Hpl1 core a Hin) as (d & -> & _). by eexists. }
      intros [] c2 Hsc. destruct (recoloured_serving _ _ _ _ _ _ _ HS1 dirty_recolours Hsc) as (σ2 & HS2 & Hl2).
      apply (Hhot c2 σ2 _ HS2 (Hl2 Hl1)).
      + destruct Hsc as (_ & (_ & [_ Hmk] & _) & _). by rewrite Eq1 in Hmk.
      + intros core a Hin. rewrite (in_request_in _ _ _ _ _ _ _ _ _ HS1 Hin Hsc). by destruct (Hpl1 core a Hin) as (d & -> & _).
    - eapply (Hhot c1 σ1 (clock s)); [exact HS1|exact Hl1|by rewrite Eq1|]. intros core a Hin. destruct (Hpl1 core a Hin) as (d & -> & Hd).
      destruct (Hdirty (Hcl Hb) core a Hin) as [x Hx]. by rewrite (Hd x true Hx). }
  apply wp_bind, wp_gets. cbn [id]. cbv zeta. fold r.
  destruct (ocf_engine_is_miss r) eqn:Em; [apply (Hsteps (negb (ocf_engine_is_dirty_all r)))|].
  { by destruct (ocf_engine_is_dirty_all r). }
  destruct (ocf_engine_is_dirty_all r) eqn:Ed; cbn [negb andb]; [|by apply (Hsteps true)].
  by apply (Hsteps false).
Qed.
(** An answer with an error, then the invalidation of the range. *)
Lemma fail_wp e s β m σ : serving (meta s) (vols s) β m σ -> entries_map (meta s) m -> write_locked (prog s) ->
  holds (prog s) (request (meta s)) -> alock_rw (prog s) = OCF_WRITE -> ref_count (prog s) = n + 1 -> data (vols s) = buf0 -> completions s = A0 -> events s = [] ->
  (e = 0 -> core_has (vols s)) ->
  wp (_ ← req_complete e; ocf_engine_invalidate (C:=C) w) (fun _ => finishes 2) s.
Proof.
  intros HS Hem Hwl Hh Hrw Hr Hbuf HA He Hcore. apply wp_bind, wp_answer.
  eapply (invalidate_wp w g Hg OCF_WRITE seq_cutoff data_offset r0 False f write_done n (answer e s) β m σ); [exact HS|exact Hem|done|done|done|exact Hh|done|done|].
  intros c' β' m' σ' [_ Hl Hpl _]. cbn. rewrite HA, Hbuf. destruct (decide (e = 0)) as [->|Hne]; [|by apply write_failed].
  apply done_on_core; [exact Hl| |by apply Hcore]. intros core a Hin.
  destruct (range_in g data_offset r0 False f _ _ _ _ _ core a HS Hin) as (_ & _ & Ha). rewrite Hpl by done. by rewrite decide_True.
Qed.

(** Writing the metadata changes nothing but the events. *)
Record same_rest s s' : Prop := {
  sr_meta : meta s' = meta s;
  sr_vols : vols s' = vols s;
  sr_prog : prog s' = prog s;
  sr_rest : completions s' = completions s /\ fallback_pt_errors s' = fallback_pt_errors s
}.
Lemma flush_any_wp cb s (Q : unit -> E -> Prop) : events s = [] ->
  (forall s' e, same_rest s s' -> events s' = [Ended cb e] -> Q tt s') -> wp (ocf_metadata_flush_do_asynch w cb) Q s.
Proof. intros He HQ. apply flush_wp; [done|]. intros t e. by apply (HQ _ e). Qed.

Lemma wb_flushed_wp e s β m σ : serving (meta s) (vols s) β m σ -> holds (prog s) (request (meta s)) -> alock_rw (prog s) = OCF_WRITE ->
  ref_count (prog s) = n + 1 -> data (vols s) = buf0 -> completions s = A0 -> events s = [] -> write_done (meta s) (vols s) m (A0 ++ [(0, buf0)]) ->
  wp (_ocf_write_wb_io_flush_metadata (C:=C) e) (fun _ => finishes 0) s.
Proof.
  intros HS Hh Hrw Hr Hbuf HA He HR.
  assert (Hgo : forall s1, meta s1 = meta s -> vols s1 = vols s -> prog s1 = prog s -> completions s1 = completions s -> events s1 = [] ->
    wp (_ ← ocf_req_unlock_wr; _ ← req_complete e; ocf_req_put) (fun _ => finishes 0) s1).
  { intros s1 Em Ev Ep Ec Ee. apply (unlock_answer_wp w g OCF_WRITE seq_cutoff data_offset r0 False f write_done n ocf_req_unlock_wr 0 e false s1 β m σ).
    - right. split; [done|]. left. by rewrite Ep.
    - by rewrite Em, Ev.
    - done.
    - rewrite Em, Ev, Ec, HA, Hbuf. destruct (decide (e = 0)) as [->|]; [done|by apply write_failed].
    - done.
    - by rewrite Ep, Em.
    - rewrite Ep. cbn. lia. }
  apply wp_bind, wp_when; intros _; [apply wp_modify|]; by apply Hgo.
Qed.

Lemma wb_do_wp b s β m σ : working (meta s) (vols s) β m σ -> all_mapped (meta s) m -> holds (prog s) (request (meta s)) ->
  alock_rw (prog s) = OCF_WRITE -> ref_count (prog s) = n + 1 + Z.b2z b -> data (vols s) = buf0 -> completions s = A0 -> events s = [] ->
  wp (ocf_write_wb_do (C:=C) w g data_offset) (fun _ => finishing b 3) s.
Proof.
  intros HW Hall Hh Hrw Hr Hbuf HA He. apply wp_bind, wp_req_get. set (s1 := refs _ s). apply wp_bind, wp_bind, wp_gets, wp_bind. cbn [id].
  eapply (move_any_wp g data_offset r0 False f s1); [exact HW|]. intros c' σ' HW' Eq Es.
  assert (Hall' : all_mapped c' m) by (by eapply all_mapped_request).
  eapply (cache_write_wp _ (with_meta c' s1) β m σ'); [apply HW'|exact Hall'|apply (lk_seq _ _ _ _ (wk_looked _ _ _ _ _ _ _ _ _ _ HW'))|done|done|].
  intros s2 e [O1 O2 O3 [O4 O5]] Oc HS2 Hhas He2. assert (HW2 : working (meta s2) (vols s2) β m σ').
  { rewrite O1 in HS2 |- *. by apply (working_vols c' (vols s)). }
  apply wp_req_put; [rewrite O3; destruct b; cbn in Hr |- *; lia|].
  apply finishing_event; [done|cbn; rewrite O3; cbn; lia|]. eapply finishes_ended; [exact He2|]. cbn [run_completion].
  assert (Hh2 : holds (prog s2) (request (meta s2))) by (rewrite O1, O3; cbn; by rewrite Eq).
  unfold _ocf_write_wb_complete. case_bool_decide as Hee.
  - apply wp_bind, wp_modify. apply (fail_wp e _ β m σ'); [exact HS2| | |exact Hh2| |done| | |done|].
    + apply (lk_map _ _ _ _ (wk_looked _ _ _ _ _ _ _ _ _ _ HW2)).
    + left. cbn. by rewrite O3.
    + cbn. by rewrite O3.
    + cbn. rewrite O2. done.
    + cbn. rewrite O4. done.
    + intros H0. by destruct Hee.
  - assert (e = 0) as -> by (destruct (decide (e = 0)); [done|by destruct Hee]). specialize (Hhas eq_refl).
    apply wp_push_cb; [done|]. eapply finishes_run; [done|done|]. cbn [Engines.run_handler]. set (s3 := with_events [] (pend _ _)).
    apply wp_bind. eapply (wb_update_wp s3 β m σ'); [exact HW2|cbn; by rewrite O1|]. intros c4 σ4 t HS4 Hl4 Hmk4 Hpl4. cbn [meta with_events pend handled_by with_prog with_clock] in Hmk4.
    assert (HR : write_done c4 (vols s3) m (A0 ++ [(0, buf0)])).
    { apply done_in_cache; [exact Hl4|exact Hhas|]. intros core a Hin. exists true. split; [by apply Hpl4|done]. }
    assert (Hh4 : holds (prog s2) (request c4)) by (by eapply holds_marked).
    assert (Hbuf2 : data (vols s2) = buf0) by (rewrite O2; exact Hbuf). assert (HA2 : completions s2 = A0) by (rewrite O4; exact HA).
    apply wp_bind, wp_gets. destruct (flush_metadata _).
    + apply flush_any_wp; [reflexivity|]. intros s5 e5 [S1 S2 S3 [S4 S5]] He5. eapply finishes_ended; [exact He5|]. cbn [run_completion].
      apply (wb_flushed_wp e5 _ β m σ4); cbn [meta vols prog completions with_events]; rewrite ?S1, ?S2, ?S3, ?S4; [exact HS4|exact Hh4|cbn; by rewrite O3|reflexivity|exact Hbuf2|exact HA2|done|exact HR].
    + eapply wp_more; [|apply (wb_flushed_wp 0 _ β m σ4); [exact HS4|exact Hh4|cbn; by rewrite O3|reflexivity|exact Hbuf2|exact HA2|done|exact HR]]. lia.
Qed.
(** ** Write-invalidate *)

Lemma answer_wp e b k s β m σ : serving (meta s) (vols s) β m σ -> holds (prog s) (request (meta s)) -> write_locked (prog s) ->
  ref_count (prog s) = n + 1 + Z.b2z b -> data (vols s) = buf0 -> completions s = A0 -> events s = [] ->
  (e = 0 -> write_done (meta s) (vols s) m (A0 ++ [(0, buf0)])) ->
  wp (_ ← ocf_req_unlock_wr; _ ← req_complete e; ocf_req_put) (fun _ => finishing b k) s.
Proof.
  intros HS Hh Hwl Hr Hbuf HA He HR. eapply (unlock_answer_wp w g OCF_WRITE seq_cutoff data_offset r0 False f write_done n ocf_req_unlock_wr k e b s β m σ); [by right|done..| |done|done|done].
  rewrite HA, Hbuf. destruct (decide (e = 0)) as [->|]; [by apply HR|by apply write_failed].
Qed.

Lemma none_uncached c v β m σ : working c v β m σ -> (forall i e, req_map (request c) !! i = Some e -> me_status e = LOOKUP_MISS) -> uncached c m.
Proof.
  intros [HS Hlk _] Hno core a Hin. pose proof (sv_steady _ _ _ _ _ _ _ _ _ _ HS) as Hst. apply (in_req_same r0 (request c)) in Hin; [|apply HS].
  destruct (byte_in_entry g (request c) core a (sd_ok _ _ _ _ _ _ Hst) (sd_aligned _ _ _ _ _ _ Hst) Hin) as (-> & H0 & [e He] & Ei & Eb & _).
  pose proof (lk_map _ _ _ _ Hlk _ e He) as Hm. rewrite decide_True in Hm by (by eapply Hno). rewrite <- Eb in Hm. unfold Content.place. by rewrite Hm.
Qed.

(** A request that a pass of write-invalidate serves. *)
Record wi_ready s (β : bucket_map) m (σ : listing) : Prop := {
  wi_working : working (meta s) (vols s) β m σ;
  wi_none : ocf_engine_mapped_count (request (meta s)) = 0 -> forall i e, req_map (request (meta s)) !! i = Some e -> me_status e = LOOKUP_MISS;
  wi_old i e : req_map (request (meta s)) !! i = Some e -> is_new e = false;
  wi_priv : priv (prog s) = None;
  wi_holds : holds (prog s) (request (meta s)) /\ write_locked (prog s);
  wi_buf : data (vols s) = buf0;
  wi_answers : completions s = A0;
  wi_events : events s = []
}.

(** Both passes look the request up, lock its lines and go on with [h]. *)
Section Pass.
Context (second : bool) (h : handler) (body : Prelude.M E unit) (K : nat) (v0 : volumes V).
Context (Hbody : run_handler h = body).
Context (Hgo : forall b s β m σ, wi_ready s β m σ -> ref_count (prog s) = n + 1 + Z.b2z b -> wi_second_pass (prog s) = second ->
  engine_handler (prog s) = h -> vols s = v0 -> wp body (fun _ => finishing b K) s).

Lemma wi_locked_wp s β m σ : traversed w g data_offset r0 False f (meta s) (vols s) β m σ -> priv (prog s) = None -> locked (prog s) = ∅ ->
  ref_count (prog s) = n + 2 -> wi_second_pass (prog s) = second -> engine_handler (prog s) = h -> vols s = v0 ->
  data (vols s) = buf0 -> completions s = A0 -> events s = [] ->
  wp (lock ← (if bool_decide (ocf_engine_mapped_count (request (meta s)) <> 0) then ocf_req_async_lock_wr w write_wi_on_resume_cb
              else mret OCF_LOCK_ACQUIRED);
      _ ← (if bool_decide (lock >= 0) then
             if bool_decide (lock = OCF_LOCK_ACQUIRED) then body else mret tt
           else _ ← req_complete lock; ocf_req_put);
      ocf_req_put) (fun _ => finishes (S (S K))) s.
Proof.
  intros [Hid HW _ Hnone Hold] Hp Hl Hr Hsec Hh Hv Hbuf HA He.
  assert (Hready : forall s', meta s' = meta s -> vols s' = vols s -> priv (prog s') = None -> write_locked (prog s') ->
    holds (prog s') (request (meta s)) -> completions s' = completions s -> events s' = [] -> wi_ready s' β m σ).
  { intros s' Em Ev Ep Hwl Hh' Ec Ee. split; rewrite ?Em, ?Ev, ?Ec; done. }
  assert (Hnow : forall s' l rw, meta s' = meta s -> vols s' = vols s -> prog s' = set_lock rw l (prog s) -> write_locked (prog s') ->
    holds (prog s') (request (meta s)) -> completions s' = completions s -> events s' = [] ->
    wp (_ ← (if bool_decide (OCF_LOCK_ACQUIRED >= 0) then
               if bool_decide (OCF_LOCK_ACQUIRED = OCF_LOCK_ACQUIRED) then body else mret tt
             else _ ← req_complete OCF_LOCK_ACQUIRED; ocf_req_put);
        ocf_req_put) (fun _ => finishes (S (S K))) s').
  { intros s' l rw Em Ev Ep Hwl Hh' Ec Ee. apply wp_bind. change (wp body (fun _ s2 => wp ocf_req_put (fun _ => finishes (S (S K))) s2) s').
    eapply wp_mono; [apply (Hgo true s' β m σ); [apply Hready; try done; by rewrite Ep|rewrite Ep; cbn; lia|by rewrite Ep|by rewrite Ep|congruence]|].
    intros [] s2 Hf. eapply wp_more; [|exact Hf]. lia. }
  destruct (bool_decide (ocf_engine_mapped_count (request (meta s)) <> 0)).
  2: { apply wp_bind, wp_ret. apply (Hnow s ∅ (alock_rw (prog s))); try done; [|by right|intros i d; by rewrite Hl].
       rewrite <- Hl. by destruct (prog s). }
  apply wp_bind. eapply (lock_wp w Hlock OCF_WRITE); [done|intros i d; by rewrite Hl| |].
  - intros l s' Hh' Ep Em Ev Ea Ef. split.
    + intros Hev. apply (Hnow s' l OCF_WRITE); try done. left. by rewrite Ep.
    + intros Hk Hev. rewrite (bool_decide_eq_true_2 (OCF_LOCK_NOT_ACQUIRED >= 0)), (bool_decide_eq_false_2 (OCF_LOCK_NOT_ACQUIRED = OCF_LOCK_ACQUIRED)) by done.
      apply wp_bind, wp_ret, wp_req_put; [rewrite Ep; cbn; lia|]. eapply finishes_event; [exact Hev|]. cbn [run_event]. apply wp_post; [reflexivity|].
      eapply finishes_run; [reflexivity|cbn; rewrite Ep; exact Hh|]. rewrite Hbody.
      apply (Hgo false _ β m σ); [|cbn; rewrite Ep; cbn; lia|cbn; by rewrite Ep|cbn; by rewrite Ep|cbn; congruence].
      apply Hready; [exact Em|exact Ev|cbn; by rewrite Ep|left; cbn; by rewrite Ep|exact Hh'|exact Ea|reflexivity].
  - intros e s' [k Hk] Ep Em Ev Ea Ef Hev. assert (e < 0) by by eapply Hlock. rewrite bool_decide_eq_false_2 by lia.
    apply wp_bind, wp_bind, wp_answer, wp_req_put; [cbn; rewrite Ep; cbn; lia|].
    eapply (ended_at w g OCF_WRITE seq_cutoff data_offset r0 False f write_done n true); [| |done|done| |].
    + cbn. rewrite Em, Ev. apply HW.
    + cbn. rewrite Ea, HA, Ev, Hbuf. apply write_failed. lia.
    + cbn. by rewrite Ep.
    + cbn. rewrite Ep. cbn. lia.
Qed.

Lemma wi_engine_wp s β m σ : idle (meta s) (vols s) β m σ -> priv (prog s) = None -> locked (prog s) = ∅ ->
  ref_count (prog s) = n + 1 -> wi_second_pass (prog s) = second -> vols s = v0 -> data (vols s) = buf0 -> completions s = A0 -> events s = [] ->
  (h = if second then write_wi_update_and_flush_metadata_h else write_wi_core_write_h) ->
  wp (ocf_write_wi (C:=C) w g OCF_WRITE data_offset) (fun _ => finishes (S (S K))) s.
Proof.
  intros Hid Hp Hl Hr Hsec Hv Hbuf HA He Eh. apply wp_bind, wp_req_get, wp_bind, wp_gets. cbv zeta. change (wi_second_pass (prog (refs _ s))) with (wi_second_pass (prog s)).
  rewrite Hsec, <- Eh. apply wp_bind, wp_modify, wp_bind, rehash_wp. intros q Hq Hqn. set (s1 := with_meta _ _).
  assert (Hid1 : idle (meta s1) (vols s1) β m σ) by (eapply idle_request; [exact Hid|done|done]).
  apply wp_bind, wp_on_meta. eapply wp_mono; [eapply (traverse_wp w g Hg); exact Hid1|]. intros [] c' [σ' Htv].
  apply wp_bind, wp_gets. cbn [id].
  assert (Ebody : (if second then ocf_write_wi_update_and_flush_metadata (C:=C) w g else _ocf_write_wi_core_write w g OCF_WRITE data_offset) = body).
  { rewrite <- Hbody, Eh. by destruct second. }
  rewrite Ebody. apply (wi_locked_wp (with_meta c' s1) β m σ'); try done. cbn. lia.
Qed.
End Pass.
(** The bytes are on the core, and none of the range is in the cache. *)
Record wi_stored s (β : bucket_map) m (σ : listing) : Prop := {
  ws_serving : serving (meta s) (vols s) β m σ;
  ws_live : live (meta s) m everything;
  ws_uncached : uncached (meta s) m;
  ws_core : core_has (vols s);
  ws_holds : holds (prog s) (request (meta s)) /\ write_locked (prog s);
  ws_priv : priv (prog s) = None;
  ws_buf : data (vols s) = buf0;
  ws_answers : completions s = A0;
  ws_events : events s = []
}.

Lemma stored_answer_wp e b k s β m σ : wi_stored s β m σ -> ref_count (prog s) = n + 1 + Z.b2z b ->
  wp (_ ← ocf_req_unlock_wr; _ ← req_complete e; ocf_req_put) (fun _ => finishing b k) s.
Proof. intros [H1 H2 H3 H4 [H5 H6] H7 H8 H9 H10] Hr. eapply answer_wp; try done. intros _. by apply done_on_core. Qed.

Lemma wi_last_wp b s β m σ : wi_stored s β m σ -> ref_count (prog s) = n + 1 + Z.b2z b -> wi_second_pass (prog s) = true ->
  wp (_ocf_write_wi_next_pass (C:=C)) (fun _ => finishing b 0) s.
Proof.
  intros [H1 H2 H3 H4 [H5 H6] H7 H8 H9 H10] Hr Hs. apply wp_bind. eapply unlocks_wp; [by right|done|]. apply wp_bind, wp_gets.
  cbn [prog unlocked with_prog set_lock wi_second_pass]. rewrite Hs. apply wp_bind, wp_answer, wp_req_put; [cbn; destruct b; cbn in Hr; lia|].
  eapply (ended_at w g OCF_WRITE seq_cutoff data_offset r0 False f write_done n b); [exact H1| |done|done|done|cbn; lia].
  cbn. rewrite H9, H8. by apply done_on_core.
Qed.

Lemma wi_flushed_second_wp e b s β m σ : wi_stored s β m σ -> ref_count (prog s) = n + 1 + Z.b2z b -> wi_second_pass (prog s) = true ->
  wp (_ocf_write_wi_io_flush_metadata (C:=C) w e) (fun _ => finishing b 0) s.
Proof.
  intros Hst Hr Hs.
  assert (Hgo : forall s', wi_stored s' β m σ -> prog s' = prog s ->
    wp (second ← progress_of wi_second_pass; r ← the_request id;
        if bool_decide (e = 0) && negb second && ocf_engine_is_miss r then ocf_queue_push_req_cb w write_wi_next_pass_h
        else _ ← ocf_req_unlock_wr; _ ← req_complete e; ocf_req_put) (fun _ => finishing b 0) s').
  { intros s' Hst' Ep. apply wp_bind, wp_gets, wp_bind, wp_gets. rewrite Ep, Hs. rewrite andb_false_r. eapply stored_answer_wp; [exact Hst'|by rewrite Ep]. }
  apply wp_bind, wp_when; intros _; [apply wp_modify|]; apply Hgo; try done. by destruct Hst.
Qed.

(** Purging leaves a request that is stored on the core. *)
Lemma wi_purge_wp s β m σ (Q : unit -> E -> Prop) : wi_ready s β m σ -> core_has (vols s) ->
  (forall s' β' m' σ', wi_stored s' β' m' σ' -> prog s' = prog s -> Q tt s') ->
  wp (on_meta (ocf_purge_map_info (C:=C) (block_4k g) (line_size g) (raw g) (num_entries g) (waiter_hash g))) Q s.
Proof.
  intros [HW _ _ Hp [Hh Hwl] Hbuf HA He] Hcore HQ. pose proof (wk_serving _ _ _ _ _ _ _ _ _ _ HW) as HS. apply wp_on_meta.
  eapply wp_mono; [eapply (purge_serving_wp g Hg data_offset r0 False f); [exact HS|apply (lk_map _ _ _ _ (wk_looked _ _ _ _ _ _ _ _ _ _ HW))|done]|].
  intros [] c' (β' & m' & σ' & [P1 P2 P3 P4]). apply (HQ (with_meta c' s) β' m' σ'); [|done]. split; try done.
  - intros core a Hin. destruct (range_in g data_offset r0 False f _ _ _ _ _ core a HS Hin) as (_ & _ & Ha). cbn. rewrite P3 by done. by rewrite decide_True.
  - split; [|done]. by eapply holds_marked.
Qed.

Lemma wi_unmapped s β m σ : wi_ready s β m σ -> core_has (vols s) -> ocf_engine_mapped_count (request (meta s)) = 0 -> wi_stored s β m σ.
Proof.
  intros [HW Hnone Hold Hp [Hh Hwl] Hbuf HA He] Hcore H0. pose proof (wk_serving _ _ _ _ _ _ _ _ _ _ HW) as HS. split; try done.
  - by eapply working_live.
  - eapply none_uncached; [exact HW|by apply Hnone].
Qed.

Lemma wi_update_second_wp b s β m σ : wi_ready s β m σ -> core_has (vols s) -> ref_count (prog s) = n + 1 + Z.b2z b -> wi_second_pass (prog s) = true ->
  wp (ocf_write_wi_update_and_flush_metadata (C:=C) w g) (fun _ => finishing b 1) s.
Proof.
  intros Hrd Hcore Hr Hs. apply wp_bind, wp_gets. cbn [id]. case_bool_decide as H0.
  - eapply wp_mono; [eapply wi_last_wp; [by eapply wi_unmapped|done|done]|]. intros [] s' Hf. eapply wp_more; [|exact Hf]. lia.
  - apply wp_bind. eapply wi_purge_wp; [exact Hrd|exact Hcore|]. intros s1 β1 m1 σ1 Hst Ep. apply wp_bind, wp_gets. destruct (flush_metadata _).
    + apply flush_any_wp; [apply Hst|]. intros s2 e [S1 S2 S3 [S4 S5]] He2. apply finishing_event; [done|by rewrite S3, Ep|].
      eapply finishes_ended; [exact He2|]. cbn [run_completion]. eapply (wi_flushed_second_wp e false _ β1 m1 σ1); [|cbn; lia|cbn; by rewrite S3, Ep].
      destruct Hst. split; cbn; rewrite ?S1, ?S2, ?S3, ?S4; try done.
    + eapply wp_mono; [eapply wi_flushed_second_wp; [exact Hst|by rewrite Ep|by rewrite Ep]|]. intros [] s' Hf. eapply wp_more; [|exact Hf]. lia.
Qed.

(** *** The first pass *)

Lemma stored_idle s β m σ : wi_stored s β m σ -> idle (meta s) (vols s) β m σ.
Proof. intros []. by split. Qed.

Lemma wi_next_wp b s β m σ : wi_stored s β m σ -> ref_count (prog s) = n + 1 + Z.b2z b -> wi_second_pass (prog s) = false ->
  wp (_ocf_write_wi_next_pass (C:=C)) (fun _ => finishing b 4) s.
Proof.
  intros Hst Hr Hs. pose proof (stored_idle _ _ _ _ Hst) as Hid. destruct Hst as [H1 H2 H3 H4 [H5 H6] H7 H8 H9 H10].
  apply wp_bind. eapply unlocks_wp; [by right|done|]. apply wp_bind, wp_gets.
  cbn [prog unlocked with_prog set_lock wi_second_pass]. rewrite Hs. apply wp_bind, wp_modify, wp_modify. cbn [events with_prog unlocked]. rewrite H10.
  apply finishing_event; [done|done|]. eapply finishes_call; [done|]. cbn [Engines.run_handler].
  eapply (wi_engine_wp true write_wi_update_and_flush_metadata_h _ 1 (vols s)); [done| |exact Hid|exact H7|done|done|done|done|done|done|done|done].
  intros b' s' β' m' σ' Hrd Hr' Hs' _ Hv'. eapply wi_update_second_wp; [exact Hrd|by rewrite Hv'|done|done].
Qed.
Lemma wi_flushed_first_wp e b s β m σ : wi_stored s β m σ -> ref_count (prog s) = n + 1 + Z.b2z b -> wi_second_pass (prog s) = false ->
  wp (_ocf_write_wi_io_flush_metadata (C:=C) w e) (fun _ => finishing b 5) s.
Proof.
  intros Hst Hr Hs.
  assert (Hgo : forall s', wi_stored s' β m σ -> prog s' = prog s ->
    wp (second ← progress_of wi_second_pass; r ← the_request id;
        if bool_decide (e = 0) && negb second && ocf_engine_is_miss r then ocf_queue_push_req_cb w write_wi_next_pass_h
        else _ ← ocf_req_unlock_wr; _ ← req_complete e; ocf_req_put) (fun _ => finishing b 5) s').
  { intros s' Hst' Ep. apply wp_bind, wp_gets, wp_bind, wp_gets. cbn [id]. rewrite Ep, Hs. destruct (_ && _ && _); [|eapply stored_answer_wp; [exact Hst'|by rewrite Ep]].
    apply wp_push_cb; [apply Hst'|]. apply finishing_event; [done|cbn; by rewrite Ep|]. eapply finishes_run; [done|done|]. cbn [Engines.run_handler].
    eapply (wi_next_wp false _ β m σ); [|cbn; lia|cbn; by rewrite Ep]. destruct Hst'. by split. }
  apply wp_bind, wp_when; intros _; [apply wp_modify|]; apply Hgo; try done. by destruct Hst.
Qed.

Lemma wi_update_first_wp b s β m σ : wi_ready s β m σ -> core_has (vols s) -> ref_count (prog s) = n + 1 + Z.b2z b -> wi_second_pass (prog s) = false ->
  wp (ocf_write_wi_update_and_flush_metadata (C:=C) w g) (fun _ => finishing b 6) s.
Proof.
  intros Hrd Hcore Hr Hs. apply wp_bind, wp_gets. cbn [id]. case_bool_decide as H0.
  - eapply wp_mono; [eapply wi_next_wp; [by eapply wi_unmapped|done|done]|]. intros [] s' Hf. eapply wp_more; [|exact Hf]. lia.
  - apply wp_bind. eapply wi_purge_wp; [exact Hrd|exact Hcore|]. intros s1 β1 m1 σ1 Hst Ep. apply wp_bind, wp_gets. destruct (flush_metadata _).
    + apply flush_any_wp; [apply Hst|]. intros s2 e [S1 S2 S3 [S4 S5]] He2. apply finishing_event; [done|by rewrite S3, Ep|].
      eapply finishes_ended; [exact He2|]. cbn [run_completion]. eapply (wi_flushed_first_wp e false _ β1 m1 σ1); [|cbn; lia|cbn; by rewrite S3, Ep].
      destruct Hst. split; cbn; rewrite ?S1, ?S2, ?S3, ?S4; try done.
    + eapply wp_mono; [eapply wi_flushed_first_wp; [exact Hst|by rewrite Ep|by rewrite Ep]|]. intros [] s' Hf. eapply wp_more; [|exact Hf]. lia.
Qed.

(** The write to the core when nothing is dirty. *)
Lemma wi_write_wp b s β m σ : wi_ready s β m σ -> ref_count (prog s) = n + 2 + Z.b2z b -> wi_second_pass (prog s) = false ->
  wp (_ ← forward_core_io_req (C:=C) w OCF_WRITE data_offset write_wi_core_complete; ocf_req_put) (fun _ => finishing b 8) s.
Proof.
  intros [HW Hnone Hold Hp [Hh Hwl] Hbuf HA He] Hr Hs. apply wp_bind.
  eapply core_write_wp; [apply HW|done|]. intros s2 e [O1 O2 O3 [O4 O5]] Oc HS2 Hhas Hev2.
  assert (He2 : events s2 = [Ended write_wi_core_complete e]) by (by destruct Hev2 as [-> | ->]; rewrite He).
  assert (HW2 : working (meta s2) (vols s2) β m σ) by (rewrite O1 in HS2 |- *; by apply (working_vols _ (vols s))).
  apply wp_req_put; [rewrite O3; destruct b; cbn in Hr |- *; lia|]. apply finishing_event; [done|cbn; rewrite O3; cbn; lia|].
  eapply finishes_ended; [exact He2|]. cbn [run_completion]. unfold _ocf_write_wi_core_complete. case_bool_decide as Hee.
  - apply (answer_wp e false 7 _ β m σ); [exact HS2| | |cbn; lia| | |done|intros H0; by destruct Hee].
    + cbn. by rewrite O1, O3.
    + cbn. rewrite O3. exact Hwl.
    + cbn. by rewrite O2.
    + cbn. by rewrite O4.
  - assert (e = 0) as -> by (destruct (decide (e = 0)); [done|by destruct Hee]). apply wp_push_cb; [done|].
    eapply finishes_run; [done|done|]. cbn [Engines.run_handler].
    eapply (wi_update_first_wp false _ β m σ); [|by apply Hhas|cbn; lia|cbn; by rewrite O3].
    split; cbn; rewrite ?O1, ?O2, ?O3, ?O4; try done. by rewrite <- O1.
Qed.

Lemma wi_direct_wp b s β m σ : wi_ready s β m σ -> dirty_any (info (request (meta s))) = 0 -> ref_count (prog s) = n + 1 + Z.b2z b ->
  wi_second_pass (prog s) = false -> wp (_ocf_write_wi_core_write (C:=C) w g OCF_WRITE data_offset) (fun _ => finishing b 8) s.
Proof.
  intros Hrd Hd Hr Hs. apply wp_bind, wp_req_get, wp_bind, wp_gets. cbn [id].
  change (request (meta (refs (ref_count (prog s) + 1) s))) with (request (meta s)). rewrite bool_decide_eq_false_2 by (intros H; by apply H).
  apply (wi_write_wp b _ β m σ); [by destruct Hrd|cbn; lia|done].
Qed.

Lemma wi_core_write_wp b s β m σ : wi_ready s β m σ -> ref_count (prog s) = n + 1 + Z.b2z b -> wi_second_pass (prog s) = false ->
  engine_handler (prog s) = write_wi_core_write_h ->
  wp (_ocf_write_wi_core_write (C:=C) w g OCF_WRITE data_offset) (fun _ => finishing b 10) s.
Proof.
  intros Hrd Hr Hs Hh. destruct (decide (dirty_any (info (request (meta s))) = 0)) as [Hd|Hd].
  { eapply wp_mono; [by eapply wi_direct_wp|]. intros [] s' Hf. eapply wp_more; [|exact Hf]. lia. }
  pose proof Hrd as [HW Hnone Hold Hp [Hho Hwl] Hbuf HA He].
  apply wp_bind, wp_req_get, wp_bind, wp_gets. cbn [id]. set (s1 := refs _ s). change (request (meta s1)) with (request (meta s)). rewrite bool_decide_eq_true_2 by done.
  eapply (clean_wp w g Hg OCF_WRITE seq_cutoff data_offset r0 False f write_done n Hlock b 8 write_wi_core_write_h s1 β m σ); [exact HW|done|done|exact Hho|done| | |].
  - cbn. lia.
  - intros c' v' σ' e Hne _ Hc. destruct (cn_vols _ _ _ _ _ _ _ Hc) as (_ & Ed & _). cbn. rewrite HA, Ed. cbn. rewrite Hbuf. by apply write_failed.
  - intros s' σ' HW' _ Hd' HA' Eb Ep _ He' Eq. cbn [Engines.run_handler]. eapply (wi_direct_wp false s' β m σ'); [|done|rewrite Ep; cbn; lia|by rewrite Ep].
    split; rewrite ?Ep, ?Eq, ?HA', ?Eb; try done.
Qed.

(** Write-invalidate: a pass that writes, and another one that purges what has
    been mapped in the meantime. *)
Lemma wi_wp s β m σ : idle (meta s) (vols s) β m σ -> priv (prog s) = None -> locked (prog s) = ∅ -> ref_count (prog s) = n + 1 ->
  wi_second_pass (prog s) = false -> data (vols s) = buf0 -> completions s = A0 -> events s = [] ->
  wp (ocf_write_wi (C:=C) w g OCF_WRITE data_offset) (fun _ => finishes 12) s.
Proof.
  intros Hid Hp Hl Hr Hs Hbuf HA He.
  eapply (wi_engine_wp false write_wi_core_write_h _ 10 (vols s)); [done| |exact Hid|done..].
  intros b' s' β' m' σ' Hrd Hr' Hs' Hh' Hv'. by eapply wi_core_write_wp.
Qed.
(** ** From the start of an engine *)

(** Before an engine starts. *)
Record write_at s (β : bucket_map) m (σ : listing) : Prop := {
  wa_idle : idle (meta s) (vols s) β m σ;
  wa_priv : priv (prog s) = None;
  wa_locks : locked (prog s) = ∅;
  wa_refs : ref_count (prog s) = n + 1;
  wa_flags : wi_second_pass (prog s) = false /\ req_error (prog s) = 0 /\ cache_error (prog s) = false /\ core_error (prog s) = false;
  wa_faults : 0 <= fallback_pt_errors s;
  wa_buf : data (vols s) = buf0;
  wa_answers : completions s = A0;
  wa_events : events s = []
}.

Lemma wi_at_wp s β m σ : write_at s β m σ -> wp (ocf_write_wi (C:=C) w g OCF_WRITE data_offset) (fun _ => finishes 12) s.
Proof. intros [H1 H2 H3 H4 (H5 & _) _ H6 H7 H8]. by eapply wi_wp. Qed.

(** An engine that maps lines: the handler runs, now or after a wait, or the
    write goes around the cache. *)
Lemma engine_insert_wp h run s β m σ : write_at s β m σ -> failing_locks w (meta s) m ->
  run_handler h = run ->
  (forall s' b β' m' σ', working (meta s') (vols s') β' m' σ' -> all_mapped (meta s') m' -> holds (prog s') (request (meta s')) ->
     alock_rw (prog s') = OCF_WRITE -> along s s' -> ref_count (prog s') = n + 1 + Z.b2z b -> events s' = [] ->
     wp run (fun _ => finishing b 10) s') ->
  wp (_ ← ocf_req_get;
      _ ← set_progress (fun p => set_handlers h (priv p) p);
      lock ← ocf_engine_prepare_clines (C:=C) w g OCF_WRITE;
      prepared lock run (call ocf_write_wi_h)) (fun _ => finishes 13) s.
Proof.
  intros [H1 H2 H3 H4 (H5 & H6 & H7 & H8) H9 H10 H11 H12] Hfl Hrun Hgo. apply wp_bind, wp_req_get, wp_bind, wp_modify. set (s1 := with_prog _ _).
  eapply (prepared_wp w g Hg OCF_WRITE seq_cutoff data_offset r0 False f write_done n Hlock h ocf_write_wi_h 10 run _ (fun p => p)) with (s0 := s1);
    [done| |by left|done| | |exact H1|exact Hfl|done|done|done|done| |done].
  - intros s2 Q He2 HQ. apply wp_modify. cbn. rewrite He2. by destruct s2 as [? ? [] ? ? ? ? ? ? ? ?].
  - intros s2 b β2 m2 σ2 HW Hall Hh _ Hrw [A1 A2 A3 A4] _ _ Hr2 He2. eapply (Hgo s2 b β2 m2 σ2); try done; by apply Hrw.
  - intros s2 β2 m2 σ2 Hid2 [A1 A2 A3 (A4 & A5 & A6 & A7)] _ Hp2 Hl2 Hr2 He2. cbn [Engines.run_handler].
    apply (wi_at_wp s2 β2 m2 σ2). split; rewrite ?A1, ?A2, ?A3, ?A4, ?A5, ?A6, ?A7; done.
  - cbn. lia.
Qed.

Lemma wb_wp s β m σ : write_at s β m σ -> failing_locks w (meta s) m ->
  wp (ocf_write_wb (C:=C) w g OCF_WRITE data_offset) (fun _ => finishes 13) s.
Proof.
  intros Hat Hfl. eapply (engine_insert_wp write_wb_do_h); [exact Hat|exact Hfl|done|].
  intros s' b β' m' σ' HW Hall Hh Hrw [A1 A2 A3 _] Hr He.
  eapply wp_mono; [eapply (wb_do_wp b s' β' m' σ'); try done; [rewrite A1; apply Hat|rewrite A2; apply Hat]|].
  intros [] s2 Hf. eapply wp_more; [|exact Hf]. lia.
Qed.

(** ** Write-through *)

(** Validity, and cleanness when something was dirty. *)
Lemma wt_update_wp s β m σ (Q : unit -> E -> Prop) : working (meta s) (vols s) β m σ -> all_mapped (meta s) m ->
  (forall c' σ', serving c' (vols s) β m σ' -> live c' m everything -> Forall2 marked (req_map (request (meta s))) (req_map (request c')) ->
     (dirty_any (info (request (meta s))) = 0 -> request c' = request (meta s)) ->
     (forall core a, in_req r0 core a -> exists d, place c' m core a = Some (pos g m core a, d) /\ (dirty_any (info (request (meta s))) <> 0 -> d = false)) ->
     Q tt (with_meta c' s)) ->
  wp (_ocf_write_wt_update_bits (C:=C) g) Q s.
Proof.
  intros HW Hall HQ. set (r := request (meta s)) in *. pose proof (wk_looked _ _ _ _ _ _ _ _ _ _ HW) as Hlk.
  assert (Hsteps : wp (_ ← when (ocf_engine_is_miss r) (on_meta (ocf_set_valid_map_info (C:=C) (block_4k g) (line_size g)));
     _ ← when (bool_decide (dirty_any (info r) <> 0)) (on_meta (ocf_set_clean_map_info (block_4k g) (line_size g) (raw g)));
     when (ocf_engine_needs_repart r) (on_meta (ocf_user_part_move (C:=C) (block_4k g) (line_size g)))) Q s).
  { apply wp_bind. eapply validate_wp; [exact HW|exact Hall|]. intros c1 σ1 HS1 Hl1 Eq1 Hpl1.
    assert (Hmove : forall c2 σ2, serving c2 (vols s) β m σ2 -> live c2 m everything -> Forall2 marked (req_map r) (req_map (request c2)) ->
      (dirty_any (info r) = 0 -> request c2 = r) ->
      (forall core a, in_req r0 core a -> exists d, place c2 m core a = Some (pos g m core a, d) /\ (dirty_any (info r) <> 0 -> d = false)) ->
      wp (when (ocf_engine_needs_repart r) (on_meta (ocf_user_part_move (C:=C) (block_4k g) (line_size g)))) Q (with_meta c2 s)).
    { intros c2 σ2 HS2 Hl2 Hmk2 Heq2 Hpl2. apply wp_when; intros _; [|by eapply HQ].
      apply wp_on_meta. eapply wp_mono; [eapply (move_live_wp c2); [exact HS2|exact Hl2|]|].
      - intros i e He _. destruct (marked_map (meta s) c2 m) as [Hm _]; [rewrite (sv_request _ _ _ _ _ _ _ _ _ _ HS2); symmetry; apply HW|done|].
        destruct (Hm Hall i e He) as [Hs He']. split; [done|]. by eexists.
      - intros [] c3 [σ3 Hq]. eapply (HQ c3 σ3); [by eapply quiet_serving|by eapply quiet_live|by rewrite (qu_request _ _ _ _ _ _ Hq)| |].
        + intros Hd. rewrite (qu_request _ _ _ _ _ _ Hq). by apply Heq2.
        + intros core a Hin. rewrite (place_same g c2) by apply Hq. by apply Hpl2. }
    apply wp_bind, wp_when; intros Hd.
    - apply bool_decide_eq_true_1 in Hd. pose proof (sv_steady _ _ _ _ _ _ _ _ _ _ HS1) as Hst1. apply wp_on_meta. cbn [meta with_meta].
      eapply wp_mono; [eapply (set_clean_all_wp g c1 β m σ1); [apply (cf_raw _ Hg)|apply Hst1..|]|].
      { intros i e. rewrite Eq1. apply Hall. }
      intros [] c2 Hsc. destruct (recoloured_serving _ _ _ _ _ _ _ HS1 clean_recolours Hsc) as (σ2 & HS2 & Hl2).
      apply (Hmove c2 σ2 HS2 (Hl2 Hl1)).
      + destruct Hsc as (_ & (_ & [_ Hmk] & _) & _). by rewrite Eq1 in Hmk.
      + intros H0. by destruct Hd.
      + intros core a Hin. rewrite (in_request_in _ _ _ _ _ _ _ _ _ HS1 Hin Hsc). destruct (Hpl1 core a Hin) as (d & -> & _). by exists false.
    - apply bool_decide_eq_false_1 in Hd. apply (Hmove c1 σ1 HS1 Hl1); [by rewrite Eq1|by rewrite Eq1|].
      intros core a Hin. destruct (Hpl1 core a Hin) as (d & Ep & _). by exists d. }
  apply wp_bind, wp_gets. cbn [id]. cbv zeta. fold r.
  destruct (negb (ocf_engine_is_miss r) && _ && _) eqn:Eb; [|exact Hsteps].
  apply andb_true_iff in Eb as [[Em%negb_true_iff Ed%negb_true_iff%bool_decide_eq_false_1]%andb_true_iff _].
  unfold ocf_engine_is_miss in Em. apply negb_false_iff in Em. pose proof (lk_hit _ _ _ _ Hlk Em) as Hhit. apply wp_ret.
  replace s with (with_meta (meta s) s) by (by destruct s). eapply HQ; [apply HW| |done|done|].
  - eapply working_live; [exact HW|]. intros i e He. apply bool_decide_eq_false_2. by rewrite (Hhit i e He).
  - intros core a Hin. destruct (hit_places _ _ _ _ _ _ _ _ _ _ _ _ HW Hhit Hin) as [d Ep]. by exists d.
Qed.
(** The lines of a request while its two writes are under way: when nothing was
    dirty its range is valid already, otherwise the bits are updated later. *)
Record wt_ready c v (β : bucket_map) m (σ : listing) : Prop := {
  wt_serving : serving c v β m σ;
  wt_entries : entries_map c m;
  wt_valid : dirty_any (info (request c)) = 0 -> live c m everything /\
    forall core a, in_req r0 core a -> exists d, place c m core a = Some (pos g m core a, d);
  wt_later : dirty_any (info (request c)) <> 0 -> working c v β m σ /\ all_mapped c m
}.

Lemma wt_ready_vols c v v' β m σ : wt_ready c v β m σ -> serving c v' β m σ -> wt_ready c v' β m σ.
Proof. intros [H1 H2 H3 H4] HS. split; try done. intros Hd. destruct (H4 Hd). split; [by eapply working_vols|done]. Qed.

(** The errors of the two writes so far. *)
Definition verdict p (cache : bool) (core : Z) : Prop :=
  cache_error p = cache /\ core_error p = bool_decide (core <> 0) /\ req_error p = core.

Record wt_active s (β : bucket_map) m (σ : listing) (remaining : Z) (cache : bool) (core : Z) : Prop := {
  wt_lines : wt_ready (meta s) (vols s) β m σ;
  wt_holds : holds (prog s) (request (meta s)) /\ alock_rw (prog s) = OCF_WRITE;
  wt_refs : ref_count (prog s) = n + 1;
  wt_remaining : req_remaining (prog s) = remaining;
  wt_verdict : verdict (prog s) cache core;
  wt_buf : data (vols s) = buf0;
  wt_answers : completions s = A0
}.

Lemma wt_flushed_wp e s β m σ : serving (meta s) (vols s) β m σ -> holds (prog s) (request (meta s)) -> alock_rw (prog s) = OCF_WRITE ->
  ref_count (prog s) = n + 1 -> data (vols s) = buf0 -> completions s = A0 -> events s = [] -> write_done (meta s) (vols s) m (A0 ++ [(0, buf0)]) ->
  wp (_ocf_write_wt_do_flush_metadata_compl (C:=C) e) (fun _ => finishes 0) s.
Proof.
  intros HS Hh Hrw Hr Hbuf HA He HR.
  apply wp_bind, wp_when; intros _; [apply wp_modify|]; (apply (answer_wp e false 0 _ β m σ); try done; [by left|cbn; lia]).
Qed.

Lemma wt_last_wp s β m σ cache core : wt_active s β m σ 1 cache core -> events s = [] -> (cache = false -> cache_has (vols s) m) ->
  (core = 0 -> core_has (vols s)) -> wp (_ocf_write_wt_req_complete (C:=C) w) (fun _ => finishes 2) s.
Proof.
  intros [Hlines [Hh Hrw] Hr Hrem (V1 & V2 & V3) Hbuf HA] He Hcache Hcore. pose proof (wt_serving _ _ _ _ _ Hlines) as HS.
  apply wp_bind, wp_gets. rewrite Hrem. apply wp_bind, wp_modify. rewrite (bool_decide_eq_false_2 (1 - 1 <> 0)) by (intros H; by apply H). set (s1 := with_prog _ s).
  apply wp_bind, wp_gets. cbn [id]. change (cache_error (prog s1)) with (cache_error (prog s)). change (core_error (prog s1)) with (core_error (prog s)).
  change (req_error (prog s1)) with (req_error (prog s)). rewrite V1, V2, V3. destruct (cache || bool_decide (core <> 0)) eqn:Ee.
  - apply (fail_wp core s1 β m σ); [exact HS|apply Hlines|by left|exact Hh|done..].
  - apply orb_false_iff in Ee as [-> Ec%bool_decide_eq_false_1]. assert (core = 0) as -> by (destruct (decide (core = 0)); [done|by destruct Ec]).
    specialize (Hcache eq_refl). specialize (Hcore eq_refl). apply wp_bind, wp_gets. cbn [id]. change (request (meta s1)) with (request (meta s)).
    destruct (bool_decide (dirty_any (info (request (meta s))) <> 0)) eqn:Hd; [apply bool_decide_eq_true_1 in Hd|apply bool_decide_eq_false_1 in Hd].
    + destruct (wt_later _ _ _ _ _ Hlines Hd) as [HW Hall]. apply wp_push_cb; [done|]. eapply finishes_run; [done|done|]. cbn [Engines.run_handler].
      set (s3 := with_events [] _). apply wp_bind. eapply (wt_update_wp s3 β m σ); [exact HW|exact Hall|]. intros c4 σ4 HS4 Hl4 Hmk4 _ Hpl4.
      assert (HR : write_done c4 (vols s) m (A0 ++ [(0, buf0)])).
      { apply done_in_cache; [exact Hl4|exact Hcache|]. intros core a Hin. destruct (Hpl4 core a Hin) as (d & Ep & _). exists d. split; [done|].
        intros _. by apply Hcore. }
      assert (Hh4 : holds (prog s) (request c4)) by (by eapply holds_marked).
      apply wp_bind, wp_gets. destruct (flush_metadata _).
      * apply flush_any_wp; [reflexivity|]. intros s5 e5 [S1 S2 S3 [S4 S5]] He5. eapply finishes_ended; [exact He5|]. cbn [run_completion].
        apply (wt_flushed_wp e5 _ β m σ4); cbn [meta vols prog completions with_events]; rewrite ?S1, ?S2, ?S3, ?S4; [exact HS4|exact Hh4|exact Hrw|exact Hr|exact Hbuf|exact HA|done|exact HR].
      * eapply wp_more; [|apply (wt_flushed_wp 0 _ β m σ4); [exact HS4|exact Hh4|exact Hrw|exact Hr|exact Hbuf|exact HA|done|exact HR]]. lia.
    + assert (Hd0 : dirty_any (info (request (meta s))) = 0) by (destruct (decide (dirty_any (info (request (meta s))) = 0)); [done|by destruct Hd]).
      destruct (wt_valid _ _ _ _ _ Hlines Hd0) as [Hl Hpl].
      apply (answer_wp 0 false 2 s1 β m σ); [exact HS|exact Hh|by left|cbn; lia|done..|]. intros _.
      apply done_in_cache; [exact Hl|exact Hcache|]. intros core a Hin. destruct (Hpl core a Hin) as [d Ep]. exists d. split; [done|].
      intros _. by apply Hcore.
Qed.
(** What recording an error changes. *)
Record noted s s' (cache : bool) (core : Z) : Prop := {
  nt_meta : meta s' = meta s;
  nt_vols : vols s' = vols s;
  nt_rest : completions s' = completions s /\ events s' = events s;
  nt_prog : exists e ca co, prog s' = set_errors e ca co (prog s);
  nt_verdict : verdict (prog s') cache core
}.

Lemma active_noted s s' β m σ remaining cache core cache' core' : wt_active s β m σ remaining cache core -> noted s s' cache' core' ->
  wt_active s' β m σ remaining cache' core'.
Proof.
  intros [H1 H2 H3 H4 H5 H6 H7] [N1 N2 [N3 N4] (e & ca & co & N5) N6].
  split; rewrite ?N1, ?N2, ?N3; try done; rewrite N5; done.
Qed.

Lemma note_cache_wp e core s (Q : unit -> E -> Prop) : verdict (prog s) false core -> 0 <= fallback_pt_errors s ->
  (forall s', noted s s' (bool_decide (e <> 0)) core -> Q tt s') ->
  wp (when (bool_decide (e <> 0)) (_ ← set_progress (fun p => set_errors (req_error p) true (core_error p) p);
      inc_fallback_pt_error_counter (C:=C) (V:=V) g)) Q s.
Proof.
  intros (V1 & V2 & V3) Hf HQ. apply wp_when; intros He; rewrite He in HQ.
  - apply wp_bind, wp_modify, fallback_wp; [done|]. intros k. apply HQ. split; [done|done|done|by do 3 eexists|by split].
  - apply HQ. split; try done. exists (req_error (prog s)), (cache_error (prog s)), (core_error (prog s)). by destruct (prog s).
Qed.

Lemma note_core_wp e cache s (Q : unit -> E -> Prop) : verdict (prog s) cache 0 ->
  (forall s', noted s s' cache e -> fallback_pt_errors s' = fallback_pt_errors s -> Q tt s') ->
  wp (when (bool_decide (e <> 0)) (set_progress (fun p => set_errors e (cache_error p) true p))) Q s.
Proof.
  intros (V1 & V2 & V3) HQ. apply wp_when; intros He.
  - apply wp_modify, HQ; [|done]. split; [done|done|done|by do 3 eexists|]. apply bool_decide_eq_true_1 in He.
    split; [done|]. cbn. by rewrite bool_decide_eq_true_2.
  - assert (e = 0) as -> by (destruct (decide (e = 0)); [done|by apply bool_decide_eq_false_1 in He]).
    apply HQ; [|done]. split; try done. exists (req_error (prog s)), (cache_error (prog s)), (core_error (prog s)). by destruct (prog s).
Qed.

(** The first of the two writes has ended. *)
Lemma wt_first_wp s β m σ cache core (Q : unit -> E -> Prop) : wt_active s β m σ 2 cache core ->
  (forall s', wt_active s' β m σ 1 cache core -> vols s' = vols s -> events s' = events s -> fallback_pt_errors s' = fallback_pt_errors s -> Q tt s') ->
  wp (_ocf_write_wt_req_complete (C:=C) w) Q s.
Proof.
  intros [H1 H2 H3 H4 H5 H6 H7] HQ. apply wp_bind, wp_gets. rewrite H4. apply wp_bind, wp_modify.
  rewrite (bool_decide_eq_true_2 (2 - 1 <> 0)) by done. apply wp_ret, HQ; try done.
Qed.

(** The writes end in either order. *)
Lemma wt_ends_wp s β m σ ec ed : wt_active s β m σ 2 false 0 -> 0 <= fallback_pt_errors s ->
  (ec = 0 -> cache_has (vols s) m) -> (ed = 0 -> core_has (vols s)) ->
  events s = [Ended write_wt_cache_complete ec; Ended write_wt_core_complete ed] \/
  events s = [Ended write_wt_core_complete ed; Ended write_wt_cache_complete ec] -> finishes 4 s.
Proof.
  intros Hact Hf Hc Hd Hev.
  assert (Hc' : bool_decide (ec <> 0) = false -> cache_has (vols s) m).
  { intros He. apply Hc. destruct (decide (ec = 0)); [done|]. by apply bool_decide_eq_false_1 in He. }
  assert (Hsame : forall es, wt_active (with_events es s) β m σ 2 false 0) by (intros es; by destruct Hact).
  destruct Hev as [Hev|Hev]; (eapply finishes_event; [exact Hev|]); cbn [run_event run_completion].
  - apply wp_bind. eapply note_cache_wp; [apply Hact|done|]. intros s1 Hn1. pose proof (active_noted _ _ _ _ _ _ _ _ _ _ (Hsame _) Hn1) as Hact1.
    destruct Hn1 as [_ N2 [_ N4] _ _]. eapply wt_first_wp; [exact Hact1|]. intros s2 Hact2 Ev2 Ee2 _.
    eapply finishes_event; [rewrite Ee2, N4; reflexivity|]. cbn [run_event run_completion]. apply wp_bind. eapply note_core_wp; [apply Hact2|].
    intros s3 Hn3 _. assert (Hact3 : wt_active s3 β m σ 1 (bool_decide (ec <> 0)) ed).
    { eapply active_noted; [|exact Hn3]. destruct Hact2 as [X1 X2 X3 X4 X5 X6 X7]. split; [exact X1|exact X2|exact X3|exact X4|exact X5|exact X6|exact X7]. }
    destruct Hn3 as [_ N2' [_ N4'] _ _]. eapply (wt_last_wp s3); [exact Hact3|by rewrite N4'|rewrite N2'; cbn; rewrite Ev2, N2; exact Hc'|rewrite N2'; cbn; rewrite Ev2, N2; exact Hd].
  - apply wp_bind. eapply note_core_wp; [apply Hact|]. intros s1 Hn1 Ef1. pose proof (active_noted _ _ _ _ _ _ _ _ _ _ (Hsame _) Hn1) as Hact1.
    destruct Hn1 as [_ N2 [_ N4] _ _]. eapply wt_first_wp; [exact Hact1|]. intros s2 Hact2 Ev2 Ee2 Ef2.
    eapply finishes_event; [rewrite Ee2, N4; reflexivity|]. cbn [run_event run_completion]. apply wp_bind. eapply note_cache_wp; [apply Hact2|cbn; rewrite Ef2, Ef1; exact Hf|].
    intros s3 Hn3. assert (Hact3 : wt_active s3 β m σ 1 (bool_decide (ec <> 0)) ed).
    { eapply active_noted; [|exact Hn3]. destruct Hact2 as [X1 X2 X3 X4 X5 X6 X7]. split; [exact X1|exact X2|exact X3|exact X4|exact X5|exact X6|exact X7]. }
    destruct Hn3 as [_ N2' [_ N4'] _ _]. eapply (wt_last_wp s3); [exact Hact3|by rewrite N4'|rewrite N2'; cbn; rewrite Ev2, N2; exact Hc'|rewrite N2'; cbn; rewrite Ev2, N2; exact Hd].
Qed.
(** Both volumes are written. *)
Lemma wt_submit_wp b s β m σ : wt_ready (meta s) (vols s) β m σ -> all_mapped (meta s) m -> sequential (request (meta s)) ->
  holds (prog s) (request (meta s)) -> alock_rw (prog s) = OCF_WRITE -> ref_count (prog s) = n + 2 + Z.b2z b -> verdict (prog s) false 0 ->
  0 <= fallback_pt_errors s -> data (vols s) = buf0 -> completions s = A0 -> events s = [] ->
  wp (_ ← _ocf_write_wt_submit (C:=C) w g OCF_WRITE data_offset; ocf_req_put) (fun _ => finishing b 4) s.
Proof.
  intros Hlines Hall Hseq Hh Hrw Hr Hv Hf Hbuf HA He. apply wp_bind, wp_bind, wp_modify. set (s1 := with_prog _ s). apply wp_bind.
  eapply (cache_write_wp _ s1 β m σ); [apply Hlines|exact Hall|exact Hseq|done|done|]. intros s2 ec [O1 O2 O3 [O4 O5]] Oc HS2 Hc He2.
  eapply core_write_wp; [exact HS2|by rewrite O2|]. intros s3 ed [O1' O2' O3' [O4' O5']] Oc' HS3 Hd Hev3. rewrite He2 in Hev3.
  apply wp_req_put; [rewrite O3', O3; cbn; destruct b; cbn in Hr |- *; lia|]. apply finishing_event; [done|cbn; rewrite O3', O3; cbn; lia|].
  eapply (wt_ends_wp _ β m σ ec ed).
  - split.
    + cbn. eapply (wt_ready_vols (meta s3) (vols s)); [rewrite O1', O1; exact Hlines|exact HS3].
    + cbn. rewrite O3', O3, O1', O1. by split.
    + done.
    + cbn. by rewrite O3', O3.
    + cbn. rewrite O3', O3. exact Hv.
    + cbn. rewrite O2', O2. exact Hbuf.
    + cbn. rewrite O4', O4. exact HA.
  - cbn. rewrite O5', O5. exact Hf.
  - intros H0 core a Hin. cbn. rewrite Oc'. by apply Hc.
  - exact Hd.
  - cbn [events refs with_prog]. by destruct Hev3 as [-> | ->]; [right|left].
Qed.

Lemma wt_do_wp b s β m σ : working (meta s) (vols s) β m σ -> all_mapped (meta s) m -> holds (prog s) (request (meta s)) ->
  alock_rw (prog s) = OCF_WRITE -> ref_count (prog s) = n + 1 + Z.b2z b -> verdict (prog s) false 0 ->
  0 <= fallback_pt_errors s -> data (vols s) = buf0 -> completions s = A0 -> events s = [] ->
  wp (_ocf_write_wt_do (C:=C) w g OCF_WRITE data_offset) (fun _ => finishing b 4) s.
Proof.
  intros HW Hall Hh Hrw Hr Hv Hf Hbuf HA He. pose proof (wk_looked _ _ _ _ _ _ _ _ _ _ HW) as Hlk.
  apply wp_bind, wp_req_get, wp_bind, wp_gets. cbn [id]. set (s1 := refs _ s). change (request (meta s1)) with (request (meta s)).
  apply wp_bind, wp_when; intros Hd.
  - apply bool_decide_eq_true_1 in Hd. apply wp_bind. eapply (wt_update_wp s1 β m σ); [exact HW|exact Hall|].
    intros c' σ' HS' Hl' _ Heq Hpl. specialize (Heq Hd). apply wp_bind, wp_gets. cbn [id].
    apply wp_bug_on; [change (flush_metadata (info (request c')) = false); rewrite Heq; apply (lk_flush _ _ _ _ Hlk)|].
    eapply (wt_submit_wp b (with_meta c' s1) β m σ'); [| | | |done| |done..].
    + split; [exact HS'| | |].
      * intros i e. cbn. rewrite Heq. exact (lk_map _ _ _ _ Hlk i e).
      * intros _. split; [exact Hl'|]. intros core a Hin. destruct (Hpl core a Hin) as (d & Ep & _). by exists d.
      * cbn. rewrite Heq. intros Hx. by destruct Hx.
    + by eapply all_mapped_request.
    + cbn. rewrite Heq. apply (lk_seq _ _ _ _ Hlk).
    + cbn. rewrite Heq. exact Hh.
    + cbn. lia.
  - apply bool_decide_eq_false_1 in Hd.
    eapply (wt_submit_wp b s1 β m σ); [|exact Hall|apply (lk_seq _ _ _ _ Hlk)|exact Hh|done| |done..]; [|cbn; lia].
    split; [apply HW|exact (lk_map _ _ _ _ Hlk)|done|by intros _].
Qed.

Lemma wt_wp s β m σ : write_at s β m σ -> failing_locks w (meta s) m ->
  wp (ocf_write_wt (C:=C) w g OCF_WRITE data_offset) (fun _ => finishes 13) s.
Proof.
  intros Hat Hfl. eapply (engine_insert_wp write_wt_do_h); [exact Hat|exact Hfl|done|].
  intros s' b β' m' σ' HW Hall Hh Hrw [A1 A2 A3 (A4 & A5 & A6 & _)] Hr He. destruct Hat as [_ _ _ _ (_ & V1 & V2 & V3) Hf Hb Ha _].
  eapply wp_mono; [eapply (wt_do_wp b s' β' m' σ'); try done; [|by rewrite A3|by rewrite A1|by rewrite A2]|].
  - unfold verdict. rewrite A4, A5, A6. done.
  - intros [] s2 Hf2. eapply wp_more; [|exact Hf2]. lia.
Qed.

(** Write-around: write-through when all is hit. *)
Lemma wa_wp s β m σ : write_at s β m σ -> failing_locks w (meta s) m ->
  wp (ocf_write_wa (C:=C) (V:=V) g) (fun _ => finishes 14) s.
Proof.
  intros [H1 H2 H3 H4 (H5 & H6 & H7 & H8) H9 H10 H11 H12] Hfl. apply wp_bind, wp_req_get, wp_bind, rehash_wp. intros q Hq Hqn. set (s1 := with_meta _ _).
  assert (Hid1 : idle (meta s1) (vols s1) β m σ) by (eapply idle_request; [exact H1|done|done]).
  apply wp_bind, wp_on_meta. eapply wp_mono; [eapply (traverse_wp w g Hg); exact Hid1|]. intros [] c' [σ' Htv].
  apply wp_bind, wp_gets. cbn [id]. apply wp_bind. eapply clear_wp; [apply Htv|]. intros s2 Hid2 [A1 A2 A3 (A4 & A5 & A6 & A7)] [x Ep] He2.
  assert (Hev : events s2 = []) by (rewrite He2; exact H12). apply wp_bind.
  assert (Hat : forall es, write_at (with_events [] (refs (ref_count (prog s2) - 1) (with_events es s2))) β m σ').
  { intros es. split; cbn; rewrite ?A1, ?A2, ?A3, ?A4, ?A5, ?A6, ?A7; try done; [by rewrite Ep|by rewrite Ep|rewrite Ep; cbn; lia]. }
  assert (Hfl2 : failing_locks w (meta s2) m).
  { intros Hk. specialize (Hfl Hk). pose proof (sv_request _ _ _ _ _ _ _ _ _ _ (id_serving _ _ _ _ _ _ _ _ _ _ _ Hid2)) as G2.
    pose proof (sv_request _ _ _ _ _ _ _ _ _ _ (id_serving _ _ _ _ _ _ _ _ _ _ _ H1)) as G0.
    assert (Ge : geometry (request (meta s2)) = geometry (request (meta s))) by congruence.
    destruct (geometry_fields _ _ Ge) as (-> & _ & _ & _ & -> & _ & ->). exact Hfl. }
  assert (Href : 0 < ref_count (prog s2)) by (rewrite Ep; cbn; lia).
  destruct (ocf_engine_is_hit _); apply wp_modify; rewrite Hev; (apply wp_req_put; [exact Href|]); (eapply finishes_call; [reflexivity|]); cbn [Engines.run_handler].
  - eapply wt_wp; [apply (Hat [Call ocf_write_wt_h])|exact Hfl2].
  - eapply wp_more; [|eapply wi_at_wp; apply (Hat [Call ocf_write_wi_h])]. lia.
Qed.
End Writes.

(** ** The engines for writing *)

Section Engines.
Context {C V : Type} `{!CleaningPolicy C} `{!SpaceManagement C} (w : world V) (g : config) (seq_cutoff : bool) (data_offset : Z).
Implicit Types (s : engine C V) (m : gmap core_info Z).
Abbreviation everything := (fun _ : core_info => True).

Definition writes (h : handler) : Prop :=
  h = ocf_write_wb_h \/ h = ocf_write_wt_h \/ h = ocf_write_wi_h \/ h = ocf_write_wa_h.

(** A write that was submitted in state [s] is over in state [s']: it has been
    answered once, with [e]; bytes off its range have the content they had; a
    write without error has given its range the content of its buffer. *)
Record write_served m s s' (β' : bucket_map) (m' : gmap core_info Z) (σ' : listing) (e : Z) : Prop := {
  ws_answer : completions s' = completions s ++ [(e, data (vols s))];
  ws_released : locked (prog s') = ∅ /\ ref_count (prog s') = ref_count (prog s) - 1;
  ws_steady : steady g (meta s') β' m' σ' data_offset;
  ws_request : geometry (request (meta s')) = geometry (request (meta s));
  ws_others core a : 0 <= a -> ~ in_req (request (meta s)) core a ->
    content g (meta s') (vols s') m' core a = content g (meta s) (vols s) m core a /\ coherent g (meta s') (vols s') m' core a;
  ws_range core a : e = 0 -> in_req (request (meta s)) core a ->
    content g (meta s') (vols s') m' core a = data (vols s) (buf_pos data_offset (request (meta s)) a) /\
    coherent g (meta s') (vols s') m' core a;
  ws_lines : e = 0 -> live (meta s') m' everything
}.

Lemma write_served_wp `{!SpaceLaws g} s β m σ :
  config_ok g -> submitted w g data_offset s β m σ -> writes (engine_handler (prog s)) ->
  wp (ocf_queue_run w g OCF_WRITE seq_cutoff data_offset 15) (fun _ s' => events s' = [] /\
    exists β' m' σ' e, write_served m s s' β' m' σ' e) s.
Proof.
  intros Hg Hs Hh. pose proof (submitted_idle w g data_offset False s β m σ Hs (fun _ => False_ind _)) as Hid.
  destruct Hs as [_ _ _ He (P1 & P2 & Href) (F1 & F2 & F3 & F4) Hf [Hlk Hfl]]. set (n := ref_count (prog s) - 1).
  assert (Hat : write_at w g data_offset (request (meta s)) (content g (meta s) (vols s) m) n (completions s) (data (vols s)) (with_events [] s) β m σ).
  { split; try done. cbn. lia. }
  assert (Hn : 0 <= n) by lia. set (r0 := request (meta s)) in *. set (f := content g _ _ m) in *.
  enough (Hfin : finishes w g OCF_WRITE seq_cutoff data_offset 15
    (EngineRuns.ended g data_offset r0 False f (write_done g data_offset r0 (completions s) (data (vols s))) n) s).
  { eapply wp_mono; [exact Hfin|]. intros [] s' [Hev [(β' & m' & σ' & [HS Hk Hq _] & e & HA & HR) [Hl Hr]]]. split; [done|].
    exists β', m', σ', e. split; [done|by split|done|done| | |].
    - intros core a Ha Hoff. exact (Hk core a Ha (or_intror Hoff)).
    - intros core a H0 Hin. by apply (HR H0).
    - intros H0. by apply HR. }
  eapply finishes_run; [exact He|reflexivity|]. destruct Hh as [-> | [-> | [-> | ->]]]; cbn [Engines.run_handler].
  - eapply wp_more; [|eapply (wb_wp w g Hg Hlk); [done|exact Hat|exact Hfl]]. lia.
  - eapply wp_more; [|eapply (wt_wp w g Hg Hlk); [done|exact Hat|exact Hfl]]. lia.
  - eapply wp_more; [|eapply (wi_at_wp w g Hg Hlk); [done|exact Hat]]. lia.
  - eapply (wa_wp w g Hg Hlk); [done|exact Hat|exact Hfl].
Qed.

(** C2. All engines answer a write once; without an error a reader of its range is
    to get the bytes of its buffer from then on.  With or without, no other
    byte of a core changes its content.  Any I/O and any allocation may fail and
    the locks of the request's lines may be granted at once or later.  That one
    of these locks fails is allowed when all lines of the request are mapped, and
    excluded otherwise ([failing_locks]): after [engine_common.c] has mapped the
    lines it keeps them locked when it gives up, and the pass-through engine that
    takes over locks them again, which is a bug ([alock_never_bugs] has the
    discipline). *)
Theorem engine_writes_store_data `{!SpaceLaws g} s β m σ :
  config_ok g -> submitted w g data_offset s β m σ -> writes (engine_handler (prog s)) ->
  wp (ocf_queue_run w g OCF_WRITE seq_cutoff data_offset 15) (fun _ s' => events s' = [] /\
    exists β' m' σ' e, write_served m s s' β' m' σ' e) s.
Proof. apply write_served_wp. Qed.
End Engines.

Import EngineSample.
Lemma engine_writes_store_data_witness : exists l σ,
  let s := sample_engine ocf_write_wb_h 512 l in
  submitted faultless one_line_config 0 s (bupd 0 [0] (fun _ => [])) {[CoreInfo 0 0 := 0]} σ /\
  wp (ocf_queue_run faultless one_line_config OCF_WRITE false 0 15) (fun _ s' => events s' = [] /\
    exists β' m' σ' e, write_served one_line_config 0 {[CoreInfo 0 0 := 0]} s s' β' m' σ' e) s.
Proof.
  destruct (sample_submitted ocf_write_wb_h 512 (or_introl eq_refl)) as (l & σ & Hs).
  exists l, σ. split; [exact Hs|]. apply (engine_writes_store_data faultless one_line_config false 0 _ (bupd 0 [0] (fun _ => [])) {[CoreInfo 0 0 := 0]} σ).
  - exact one_line_config_ok.
  - exact Hs.
  - left. reflexivity.
Defined.
