(* ===== verification/EngineHistory.v ===== *)
(** * Histories of requests

    A client submits reads and writes one after another, in any mix of modes.
    What it sees is a plain array of bytes for every core: [explained] says so,
    and [serve_history] refines it. *)

From S2P Require Import Prelude Alock AlockProofs CacheLineLock Links Lru LruProofs Generator LruPart LruPartProofs.
From S2P Require Import Collision CollisionProofs Status StatusProofs Request RequestProofs CacheLine CacheLineProofs CacheLineSteps.
From S2P Require Import Engine EngineProofs EngineCheck PartMove EngineIo EngineIoProofs EngineBase Cleaner Engines AsyncLock Content EngineSpec CleanerProofs EngineExamples EngineRuns EngineReads EngineWrites.
Import EngineIo.

(** A request of a client, for a partition of the cache, with the engine that
    serves it and what the rest of the system does in the meantime. *)
Record submission {V : Type} := Submission {
  sub_rw : direction;
  sub_handler : handler;
  sub_part : Z;
  sub_core : Z;
  sub_addr : Z;
  sub_bytes : Z;
  sub_data : Z -> V;
  sub_world : world V
}.
Arguments submission : clear implicits.
Arguments Submission {V}.

Section History.
Context {C V : Type} `{!CleaningPolicy C} `{!SpaceManagement C} (g : config) (seq_cutoff : bool).
Abbreviation EM := (Prelude.M (engine C V)).
Implicit Types (s : engine C V) (m : gmap core_info Z).

(** ** The client *)

Definition sub_range (x : submission V) (core a : Z) : Prop := core = sub_core x /\ sub_addr x <= a < sub_addr x + sub_bytes x.
#[local] Instance sub_range_dec x core a : Decision (sub_range x core a).
Proof. solve_decision. Defined.
Definition sub_byte (x : submission V) (buf : Z -> V) (a : Z) : V := buf (a - sub_addr x).

Definition sub_request (x : submission V) : ocf_request :=
  let r := ocf_req_new (line_size g) (sub_core x) (sub_part x) (sub_addr x) (sub_bytes x) [] in
  with_map (replicate (Z.to_nat (core_line_count r)) zero_entry) r.

Definition ocf_mngt_cache_reset_fallback_pt_error_counter : EM unit := modify (with_fallback 0).

(** A new request with its buffer in the queue. *)
Definition submit (x : submission V) : EM unit := modify (fun s =>
  Engine (with_request (sub_request x) (meta s)) (Volumes (cache_dev (vols s)) (core_dev (vols s)) (sub_data x) None)
    (Progress 1 (sub_handler x) None OCF_READ ∅ 0 0 false false false false false) (master s) (pending_read_misses s)
    (pending_blocked s) (fallback_pt_errors s) (cache_running s) (clock s) [Run] (completions s)).

(** The queue runs until the request is over; the counter of faults begins at
    zero. *)
Definition serve_one (x : submission V) : EM Z :=
  _ ← ocf_mngt_cache_reset_fallback_pt_error_counter;
  _ ← submit x;
  _ ← ocf_queue_run (sub_world x) g (sub_rw x) seq_cutoff 0 15;
  gets (fun s => from_option fst 0 (last (completions s))).

(** The client stops after an error. *)
Fixpoint serve_history (xs : list (submission V)) : EM unit :=
  match xs with
  | [] => mret tt
  | x :: xs => error ← serve_one x; if bool_decide (error = 0) then serve_history xs else mret tt
  end.

(** ** The specification *)

(** The bytes of the cores after request [x]. *)
Definition after_submission (x : submission V) (D : Z -> Z -> V) : Z -> Z -> V := fun core a =>
  match sub_rw x with
  | OCF_READ => D core a
  | OCF_WRITE => if decide (sub_range x core a) then sub_byte x (sub_data x) a else D core a
  end.

(** [answers] are answers to [xs] by an array of bytes that is [D] before and
    [D'] afterwards.  A failed write may have done anything to its range, and is
    the last request. *)
Fixpoint explained (D : Z -> Z -> V) (xs : list (submission V)) (answers : list (Z * (Z -> V))) (D' : Z -> Z -> V) : Prop :=
  match xs, answers with
  | [], [] => forall core a, 0 <= a -> D' core a = D core a
  | x :: xs, (e, buf) :: answers =>
      if decide (e = 0) then
        (sub_rw x = OCF_READ -> forall a, sub_range x (sub_core x) a -> sub_byte x buf a = D (sub_core x) a) /\
        explained (after_submission x D) xs answers D'
      else
        answers = [] /\ forall core a, 0 <= a -> sub_rw x = OCF_READ \/ ~ sub_range x core a -> D' core a = D core a
  | _, _ => False
  end.

(** ** Refinement *)

(** Requests that the engines are made for.  The locks of its own lines are
    granted to a read at once; a write may have to wait for them.  That a lock
    fails is excluded. *)
Record good_submission (x : submission V) : Prop := {
  gs_part : 0 <= sub_part x < OCF_USER_IO_CLASS_MAX;
  gs_core : valid_core g (sub_core x) = true;
  gs_key : (sub_addr x + sub_bytes x - 1) / line_bytes (line_size g) < 2 ^ OCF_CORE_LINE_BITS;
  gs_range : good_range (sub_addr x) (sub_bytes x);
  gs_aligned : (2 ^ OCF_BLOCK_SHIFT (block_4k g) | sub_addr x) /\ (2 ^ OCF_BLOCK_SHIFT (block_4k g) | sub_bytes x);
  gs_handler : match sub_rw x with
               | OCF_READ => sub_handler x = ocf_read_generic_h \/ sub_handler x = ocf_read_pt_h
               | OCF_WRITE => writes (sub_handler x)
               end;
  gs_locks : match sub_rw x with
             | OCF_READ => forall k, lock_answers (sub_world x) k = LockNow
             | OCF_WRITE => forall k e, lock_answers (sub_world x) k <> LockFails e
             end
}.

(** The cache between two requests. *)
Record at_rest s (β : bucket_map) m (σ : listing) : Prop := {
  ar_inv : cache_inv (block_4k g) (line_size g) (num_entries g) (meta s) β m σ;
  ar_free : no_waiters g (meta s);
  ar_ready p : 0 <= p < OCF_USER_IO_CLASS_MAX -> part_ready (lru_of (block_4k g) (line_size g) (meta s)) p;
  ar_fit : lines_fit g m;
  ar_cores core : valid_core g core = true -> core_ready (cores (meta s)) core;
  ar_live : live (meta s) m (fun _ => True);
  ar_coherent core a : 0 <= a -> coherent g (meta s) (vols s) m core a;
  ar_events : events s = []
}.

Lemma never_fails x k e : good_submission x -> lock_answers (sub_world x) k <> LockFails e.
Proof. intros [_ _ _ _ _ _ Hl]. destruct (sub_rw x); [by rewrite Hl|by apply Hl]. Qed.

Lemma sub_request_ok x : good_submission x -> request_ok (line_size g) (sub_request x) /\ aligned g (sub_request x) /\ data_ok 0 (sub_request x).
Proof.
  intros [_ _ _ Hr Ha _ _]. destruct (req_geometry (block_4k g) (line_size g) (sub_core x) (sub_part x) (sub_addr x) (sub_bytes x) [] Hr) as (_ & _ & _ & _ & Hc & _).
  unfold sub_request, ocf_req_new in *. destruct (ocf_req_lines (line_size g) (sub_addr x) (sub_bytes x)) as [[first last] count] eqn:El. cbn in *.
  destruct Hr as (R1 & R2 & R3). split; [split; [done|by symmetry|cbn; rewrite length_replicate; lia]|]. split; [exact Ha|]. split; cbn; lia.
Qed.

Lemma sub_request_fields x : req_core (sub_request x) = sub_core x /\ req_part (sub_request x) = sub_part x /\ addr (sub_request x) = sub_addr x /\ bytes (sub_request x) = sub_bytes x.
Proof. unfold sub_request, ocf_req_new. by destruct (ocf_req_lines _ _ _) as [[? ?] ?]. Qed.

Lemma sub_request_last x : good_submission x -> core_line_last (sub_request x) < 2 ^ OCF_CORE_LINE_BITS.
Proof.
  intros [_ _ Hk (H0 & Hb & Hr) _ _ _]. unfold sub_request, ocf_req_new, ocf_req_lines. rewrite bool_decide_eq_true_2 by lia.
  cbn. unfold ocf_bytes_2_lines. rewrite !wrap_small; [exact Hk|lia|]. rewrite wrap_small; lia.
Qed.

Lemma sub_in_req x core a : in_req (sub_request x) core a <-> sub_range x core a.
Proof. unfold in_req, sub_range. by destruct (sub_request_fields x) as (-> & _ & -> & ->). Qed.

Lemma explained_ext xs : forall D1 D2 answers D', (forall core a, 0 <= a -> D1 core a = D2 core a) -> Forall good_submission xs ->
  explained D1 xs answers D' -> explained D2 xs answers D'.
Proof.
  induction xs as [|x xs IH]; intros D1 D2 answers D' HD Hx; cbn.
  - destruct answers; [|done]. intros H core a Ha. rewrite H by done. by apply HD.
  - apply Forall_cons in Hx as [Hx Hxs]. destruct answers as [|[e buf] answers]; [done|]. case_decide.
    + intros [H1 H2]. split.
      * intros Hr a Ha. rewrite <- HD by (destruct (gs_range _ Hx), Ha; lia). by apply H1.
      * eapply IH; [|done|exact H2]. intros core a Ha. unfold after_submission. destruct (sub_rw x); [by apply HD|]. case_decide; [done|by apply HD].
    + intros [H1 H2]. split; [done|]. intros core a Ha Hoff. rewrite H2 by done. by apply HD.
Qed.

Lemma submitted_at_rest x s β m σ : good_submission x -> at_rest s β m σ ->
  wp (submit x) (fun _ s' => submitted (sub_world x) g 0 s' β m σ /\
    engine_handler (prog s') = sub_handler x /\ request (meta s') = sub_request x /\ completions s' = completions s /\ data (vols s') = sub_data x /\
    prog s' = Progress 1 (sub_handler x) None OCF_READ ∅ 0 0 false false false false false /\
    (forall core a, content g (meta s') (vols s') m core a = content g (meta s) (vols s) m core a)) (with_fallback 0 s).
Proof.
  intros Hx [H1 H2 H3 H4 Hc H5 H6 H7]. destruct (sub_request_ok x Hx) as (Hok & Hal & Hd). destruct (sub_request_fields x) as (Ec & Ep & _).
  apply wp_modify. split; [|by split_and!]. split; try done.
  - split; try done.
    + by apply inv_request.
    + change (0 <= req_part (sub_request x) < OCF_USER_IO_CLASS_MAX). rewrite Ep. by apply gs_part.
    + change (valid_core g (req_core (sub_request x)) = true). rewrite Ec. by apply gs_core.
    + by apply sub_request_last.
  - split.
    + intros k e Hk. by destruct (never_fails x k e Hx).
    + intros (k & e & Hk). by destruct (never_fails x k e Hx).
Qed.

Lemma at_rest_again s' β m σ : steady g (meta s') β m σ 0 -> live (meta s') m (fun _ => True) ->
  (forall core a, 0 <= a -> coherent g (meta s') (vols s') m core a) -> events s' = [] -> at_rest s' β m σ.
Proof. intros [H1 H2 H3 H4 H5 H6 H7 H8 H9 _ _] Hl Hc He. by split. Qed.
Lemma serve_one_wp `{!SpaceLaws g} x s β m σ : config_ok g -> good_submission x -> at_rest s β m σ ->
  wp (serve_one x) (fun e s' => exists β' m' σ' buf, completions s' = completions s ++ [(e, buf)] /\ events s' = [] /\
    (e = 0 -> at_rest s' β' m' σ' /\
       (sub_rw x = OCF_READ -> forall a, sub_range x (sub_core x) a -> sub_byte x buf a = content g (meta s) (vols s) m (sub_core x) a) /\
       forall core a, 0 <= a -> content g (meta s') (vols s') m' core a = after_submission x (content g (meta s) (vols s) m) core a) /\
    (forall core a, 0 <= a -> sub_rw x = OCF_READ \/ ~ sub_range x core a ->
       content g (meta s') (vols s') m' core a = content g (meta s) (vols s) m core a)) s.
Proof.
  intros Hg Hx Hrest. pose proof (gs_handler _ Hx) as Hh. pose proof (gs_range _ Hx) as (R0 & _).
  assert (Hlast : forall (A : list (Z * (Z -> V))) e buf, from_option fst 0 (last (A ++ [(e, buf)])) = e).
  { intros A e buf. by rewrite last_snoc. }
  apply wp_bind, wp_modify, wp_bind. eapply wp_mono; [by eapply submitted_at_rest|].
  intros [] s1 (Hs1 & Eh & Eq & Ec & Ed & Ep & Econt). apply wp_bind.
  assert (Hpos : forall a, buf_pos 0 (request (meta s1)) a = a - sub_addr x).
  { intros a. unfold buf_pos. rewrite Eq. destruct (sub_request_fields x) as (_ & _ & -> & _). lia. }
  assert (Hin : forall core a, in_req (request (meta s1)) core a <-> sub_range x core a) by (intros; rewrite Eq; apply sub_in_req).
  pose proof (gs_locks _ Hx) as Hlk.
  destruct (sub_rw x) eqn:Erw.
  - assert (Hw : finishes (sub_world x) g OCF_READ seq_cutoff 0 12 (fun s' => exists β' m' σ' e buf, read_served g m s1 s' β' m' σ' e buf) s1).
    { unfold finishes. apply (read_served_wp (sub_world x) g seq_cutoff s1 β m σ Hg Hs1); [intros [k Hk]; specialize (Hlk k); congruence|by rewrite Eh]. }
    apply (finishes_more _ _ _ _ _ 12 15 _ _ ltac:(lia)) in Hw. unfold finishes in Hw. eapply wp_mono; [exact Hw|].
    intros [] s2 [He (β' & m' & σ' & e & buf & [A1 A2 A3 A4 A5 A6 A7 A8])]. apply wp_gets. rewrite A1, Hlast.
    exists β', m', σ', buf. rewrite Ec. split; [done|]. split; [done|]. split.
    + intros He0. split; [eapply at_rest_again; auto|]. split.
      * intros _ a Ha. unfold sub_byte. rewrite <- Hpos, A7; [|done|apply Hin; rewrite Eq; by destruct (sub_request_fields x) as (-> & _)].
        rewrite Econt, Eq. by destruct (sub_request_fields x) as (-> & _).
      * intros core a Ha. unfold after_submission. rewrite Erw, A5 by done. apply Econt.
    + intros core a Ha _. rewrite A5 by done. apply Econt.
  - eapply wp_mono; [eapply (write_served_wp (sub_world x) g seq_cutoff 0 s1 β m σ Hg Hs1); by rewrite Eh|].
    intros [] s2 [He (β' & m' & σ' & e & [A1 A2 A3 A4 A5 A6 A7])]. apply wp_gets. rewrite A1, Hlast.
    exists β', m', σ', (data (vols s1)). rewrite Ec. split; [done|]. split; [done|]. split.
    + intros He0. split; [|split; [done|]].
      * eapply at_rest_again; [exact A3|auto| |done]. intros core a Ha. destruct (decide (sub_range x core a)) as [Hr|Hr].
        -- apply A6; [done|by apply Hin].
        -- apply A5; [done|by rewrite Hin].
      * intros core a Ha. unfold after_submission. rewrite Erw. case_decide as Hr.
        -- unfold sub_byte. rewrite <- Ed, <- Hpos. apply A6; [done|by apply Hin].
        -- rewrite <- Econt. apply A5; [done|by rewrite Hin].
    + intros core a Ha [?|Hr]; [done|]. rewrite <- Econt. apply A5; [done|by rewrite Hin].
Qed.
Lemma serve_history_wp `{!SpaceLaws g} (Hg : config_ok g) xs : forall s β m σ D, Forall good_submission xs -> at_rest s β m σ ->
  (forall core a, 0 <= a -> content g (meta s) (vols s) m core a = D core a) ->
  wp (serve_history xs) (fun _ s' => events s' = [] /\ exists β' m' σ' answers, completions s' = completions s ++ answers /\
    explained D xs answers (content g (meta s') (vols s') m') /\
    (Forall (fun answer => answer.1 = 0) answers -> at_rest s' β' m' σ')) s.
Proof.
  induction xs as [|x xs IH]; intros s β m σ D Hxs Hrest HD; cbn [serve_history].
  - apply wp_ret. split; [apply Hrest|]. exists β, m, σ, []. rewrite app_nil_r. split; [done|]. split; [exact HD|done].
  - apply Forall_cons in Hxs as [Hx Hxs]. apply wp_bind. eapply wp_mono; [by eapply serve_one_wp|].
    intros e s1 (β1 & m1 & σ1 & buf & HA & He & Hok & Hoff). pose proof (gs_range _ Hx) as (R0 & _). case_bool_decide as H0.
    + destruct (Hok H0) as (Hrest1 & Hread & Hcont). eapply wp_mono; [eapply (IH s1 β1 m1 σ1 (after_submission x D)); [done|exact Hrest1|]|].
      * intros core a Ha. rewrite Hcont by done. unfold after_submission. destruct (sub_rw x); [by apply HD|]. case_decide; [done|by apply HD].
      * intros [] s2 (He2 & β2 & m2 & σ2 & answers & HA2 & Hexp & Hr2). split; [done|].
        exists β2, m2, σ2, ((e, buf) :: answers). rewrite HA2, HA, <- app_assoc. split; [done|]. split.
        -- cbn. rewrite decide_True by done. split; [|exact Hexp]. intros Hrw a Ha. rewrite <- HD by (destruct Ha; lia). by apply Hread.
        -- intros [_ Hall]%Forall_cons. by apply Hr2.
    + apply wp_ret. split; [done|]. exists β1, m1, σ1, [(e, buf)]. split; [done|]. split.
      * cbn. rewrite decide_False by done. split; [done|]. intros core a Ha Hr. rewrite Hoff by done. by apply HD.
      * intros [Hz _]%Forall_cons. by destruct H0.
Qed.

(** To its clients the cache is an array of bytes: any history of reads
    (normal and pass-through) and writes (write-back, write-through,
    write-around, write-invalidate), one after another, gets the answers that
    the array gives, until one fails; then every byte that the failed request was
    not to write is still what it was. *)
Theorem history_refines_array `{!SpaceLaws g} xs s β m σ :
  config_ok g -> Forall good_submission xs -> at_rest s β m σ ->
  wp (serve_history xs) (fun _ s' => events s' = [] /\ exists m' answers, completions s' = completions s ++ answers /\
    explained (content g (meta s) (vols s) m) xs answers (content g (meta s') (vols s') m')) s.
Proof.
  intros Hg Hxs Hrest. eapply wp_mono; [by eapply (serve_history_wp Hg xs s β m σ)|].
  intros [] s' (He & β' & m' & σ' & answers & HA & Hexp & _). split; [done|]. by exists m', answers.
Qed.
End History.

(** A write of a block in write-back mode that waits for its lock, a read of the
    line, a write-through of the line and another read. *)
Import EngineSample.
Definition waiting : world Z := EngineExamples.EngineExamples.quiet LockLater.
Definition sample_history : list (submission Z) :=
  [Submission OCF_WRITE ocf_write_wb_h 1 0 0 512 (fun o => 9000 + o) waiting;
   Submission OCF_READ ocf_read_generic_h 1 0 0 4096 (fun _ => 0) faultless;
   Submission OCF_WRITE ocf_write_wt_h 1 0 0 4096 (fun o => 5000 + o) faultless;
   Submission OCF_READ ocf_read_pt_h 1 0 512 512 (fun _ => 0) faultless].

Lemma history_refines_array_witness : exists l,
  let s := with_events [] (sample_engine ocf_read_generic_h 512 l) in
  wp (serve_history one_line_config false sample_history) (fun _ s' => events s' = [] /\ exists m' answers, completions s' = answers /\
    explained (content one_line_config (meta s) (vols s) {[CoreInfo 0 0 := 0]}) sample_history answers (content one_line_config (meta s') (vols s') m')) s.
Proof.
  destruct (sample_submitted ocf_read_generic_h 512 (or_introl eq_refl)) as (l & σ & [H1 H2 H3 _ _ _ _ _]). exists l.
  apply (history_refines_array one_line_config false) with (β := bupd 0 [0] (fun _ => [])) (σ := σ).
  - exact one_line_config_ok.
  - repeat apply Forall_cons_2; [..|apply Forall_nil_2].
    + split; [by_compute|reflexivity|reflexivity|by_compute|split; [exists 0|exists 1]; reflexivity|left; reflexivity|discriminate].
    + split; [by_compute|reflexivity|reflexivity|by_compute|split; [exists 0|exists 8]; reflexivity|left; reflexivity|intros k; reflexivity].
    + split; [by_compute|reflexivity|reflexivity|by_compute|split; [exists 0|exists 8]; reflexivity|right; left; reflexivity|discriminate].
    + split; [by_compute|reflexivity|reflexivity|by_compute|split; [exists 1|exists 1]; reflexivity|right; reflexivity|intros k; reflexivity].
  - destruct H1. split; try assumption. reflexivity.
Defined.

(** The history runs without an error. *)
Definition answers_shown (o : option (unit * engine unit Z)) : list Z * list Z :=
  match o with Some (_, s) => ((completions s).*1, (fun c => c.2 0) <$> completions s) | None => ([], []) end.
Example sample_history_answers :
  answers_shown (serve_history one_line_config false sample_history
    (with_events [] (sample_engine ocf_read_generic_h 512 EngineExamples.EngineExamples.lru_of_line))) = ([0; 0; 0; 0], [9000; 9000; 5000; 5512]).
Proof. vm_compute. reflexivity. Qed.
