(* ===== verification/Evict.v ===== *)
(** * Space management: [src/ocf_space.c] and the iterators of [src/eviction/ocf_lru.c]

    How a request gets cache lines for the core lines it misses: from the free
    list, or by evicting clean lines that nobody uses.  An iterator visits the
    lists of a partition in turn; [ocf_lru_req_clines] takes lines from it,
    invalidates them and maps them to the request; [ocf_space.c] chooses the
    partitions by size and priority.

    The functions act on the cache of [CacheLine] with its lock table, on the
    I/O classes of [IoClass] and on the counter of the queue.  The locks of
    hash buckets are not part of the state: what the attempts to lock a bucket
    find is an input of the model ([hash_free], by the number of the attempt
    and the bucket).
    The locks of the LRU lists are held around every use of a list. *)

From stdpp Require Import sorting.
From S2P Require Import Prelude Alock CacheLineLock Links Lru LruPart Collision Status Request CacheLine Engine IndexList HashLock IoClass.
Import HashLock.
Open Scope Z_scope.

(** ** State *)

Record space {C : Type} := Space {
  sp_cache : cache C;
  sp_parts : IoClass.parts;
  sp_lru_idx : Z;      (** [io_queue->lru_idx] *)
  sp_tries : nat       (** attempts to lock a hash bucket so far *)
}.
Arguments space : clear implicits.
Arguments Space {C}.

Section Setters.
Context {C : Type}.
Definition with_cache (v : cache C) (s : space C) := Space v (sp_parts s) (sp_lru_idx s) (sp_tries s).
Definition with_parts v (s : space C) := Space (sp_cache s) v (sp_lru_idx s) (sp_tries s).
Definition with_lru_idx v (s : space C) := Space (sp_cache s) (sp_parts s) v (sp_tries s).
Definition with_tries v (s : space C) := Space (sp_cache s) (sp_parts s) (sp_lru_idx s) v.
End Setters.

(** ** The iterator: [struct ocf_lru_iter]

    [it_hash_locked]: whether the callback that tells the buckets of the
    request is set. *)
Record lru_iter := LruIter {
  it_curr_cline : list Z;
  it_part : Z;
  it_next_avail_lru : Z;
  it_num_avail_lrus : Z;
  it_lru_idx : Z;
  it_lru_element_idx : Z;
  it_hash_locked : bool;
  it_clean : bool
}.

Definition it_with_curr v it := LruIter v (it_part it) (it_next_avail_lru it) (it_num_avail_lrus it) (it_lru_idx it) (it_lru_element_idx it) (it_hash_locked it) (it_clean it).
Definition it_with_avail v n it := LruIter (it_curr_cline it) (it_part it) v n (it_lru_idx it) (it_lru_element_idx it) (it_hash_locked it) (it_clean it).
Definition it_with_idx v it := LruIter (it_curr_cline it) (it_part it) (it_next_avail_lru it) (it_num_avail_lrus it) v (it_lru_element_idx it) (it_hash_locked it) (it_clean it).
Definition it_with_element v it := LruIter (it_curr_cline it) (it_part it) (it_next_avail_lru it) (it_num_avail_lrus it) (it_lru_idx it) v (it_hash_locked it) (it_clean it).

Definition OCF_LRU_MAX_LRU_ELEMENT_IDX : Z := 256.
Definition OCF_EVICTION_CLEAN_SIZE : Z := 32.

(** [__builtin_ffsll]: one plus the place of the lowest set bit, 0 without one. *)
Fixpoint ffs_from (n : nat) (i x : Z) : Z :=
  match n with
  | O => 0
  | S n => if Z.testbit x i then i + 1 else ffs_from n (i + 1) x
  end.
Definition ffsll (x : Z) : Z := ffs_from 64 0 x.

Definition ocf_rotate_right (bits shift width : Z) : Z :=
  Z.land (Z.lor (Z.shiftr bits shift) (u64 (Z.shiftl bits (width - shift)))) (Z.shiftl 1 width - 1).

Definition _lru_iter_advance_list (it : lru_iter) : lru_iter :=
  let increment := ffsll (it_next_avail_lru it) in
  it_with_idx (u32 (it_lru_idx it + increment) mod OCF_NUM_LRU_LISTS)
    (it_with_avail (ocf_rotate_right (it_next_avail_lru it) increment OCF_NUM_LRU_LISTS) (it_num_avail_lrus it) it).

Definition _lru_lru_is_empty (it : lru_iter) : bool :=
  bool_decide (Z.land (it_next_avail_lru it) (Z.shiftl 1 (OCF_NUM_LRU_LISTS - 1)) = 0).

Definition lru_iter_advance (it : lru_iter) : lru_iter :=
  let it := it_with_element (u32 (it_lru_element_idx it + 1)) it in
  if bool_decide (it_lru_element_idx it >= OCF_LRU_MAX_LRU_ELEMENT_IDX) || _lru_lru_is_empty it
  then it_with_element 0 (_lru_iter_advance_list it)
  else it.

Definition _lru_lru_set_empty (it : lru_iter) : lru_iter :=
  it_with_avail (Z.ldiff (it_next_avail_lru it) (Z.shiftl 1 (OCF_NUM_LRU_LISTS - 1))) (u32 (it_num_avail_lrus it - 1)) it.

Definition _lru_lru_all_empty (it : lru_iter) : bool := bool_decide (it_num_avail_lrus it = 0).

Section Evict.
Context {C : Type} `{!CleaningPolicy C}.
Context (block_4k : bool) (line_size : cache_line_size) (num_entries ENTRIES : Z).
(** The name of the request in the lock table, and what the attempts to lock a
    hash bucket find. *)
Context (self : Z) (hash_free : nat -> Z -> bool).
Abbreviation EV := (Prelude.M (space C)).
Abbreviation LM := (LM (C:=C)).

(** ** Access to the components *)

Definition on_cache {A} (m : LM A) : EV A := fun s =>
  match m (sp_cache s) with Some (a, c) => Some (a, with_cache c s) | None => None end.
Definition on_lrus {A} (m : LruPart.PM A) : EV A := on_cache (on_lru block_4k line_size m).
Definition on_locks {A} (m : Alock.M A) : EV A := on_cache (on_lock m).

(** The I/O classes with the sizes that the lists have now. *)
Definition parts_now (s : space C) : parts :=
  let p := sp_parts s in
  Parts (user_parts p) (part_config p) (LruPart.curr_size (lru (sp_cache s))) (valid_parts_no p) (attached p)
    (standby p) (line_count p) (cleaning_policy_type p).
Definition on_parts {A} (m : IoClass.PM A) : EV A := fun s =>
  match m (parts_now s) with Some (a, p) => Some (a, with_parts p s) | None => None end.

(** [cache->user_part_list]. *)
#[global] Instance space_list : OcfLst (space C) := {
  lst_entries s := up_lst_valid (user_parts (sp_parts s));
  lst_with_entries es s := let p := sp_parts s in let t := user_parts p in
    with_parts (with_user_parts (UserPartTable (up_config t) es (up_id t)) p) s;
  lst_invalid := OCF_USER_IO_CLASS_MAX;
  lst_cmp := Some (fun a b => on_parts (ocf_user_part_lst_cmp_valid a b))
}.
Definition each_user_part {A} (body : Z -> A -> EV (A + A)) (acc : A) : EV A :=
  first ← next_of OCF_USER_IO_CLASS_MAX; for_each_lst parts_fuel body first acc.

Definition the_request {A} (f : ocf_request -> A) : EV A := gets (fun s => f (request (sp_cache s))).
Definition cachelines : EV Z := gets (fun s => collision_table_entries (mapping_of (sp_cache s))).

(** ** Locks of hash buckets *)

(** [iter->hash_locked(req, core_id, core_line)] *)
Definition hash_locked (it : lru_iter) (ci : core_info) : EV bool :=
  if it_hash_locked it then
    s ← gets (fun s => hash_table_entries (mapping_of (sp_cache s)));
    span ← load (fun sp => req_span s (request (sp_cache sp)));
    mret (ocf_req_hash_in_range span (core_id ci) (core_line ci))
  else mret false.

Definition hb_cline_naked_trylock_wr (ci : core_info) : EV bool :=
  s ← gets (fun s => mapping_of (sp_cache s));
  let hash := ocf_metadata_hash_func (hash_table_entries s) (core_line ci) (core_id ci) in
  _ ← bug_on (bool_decide (hash >= hash_table_entries s));
  n ← gets sp_tries;
  _ ← modify (with_tries (S n));
  mret (hash_free n hash).
Definition hb_cline_naked_unlock_wr (ci : core_info) : EV unit :=
  s ← gets (fun s => mapping_of (sp_cache s));
  bug_on (bool_decide (ocf_metadata_hash_func (hash_table_entries s) (core_line ci) (core_id ci) >= hash_table_entries s)).

Definition _lru_trylock_hash (it : lru_iter) (ci : core_info) : EV bool :=
  locked ← hash_locked it ci;
  if (locked : bool) then mret true else hb_cline_naked_trylock_wr ci.
Definition _lru_unlock_hash (it : lru_iter) (ci : core_info) : EV unit :=
  locked ← hash_locked it ci;
  if (locked : bool) then mret tt else hb_cline_naked_unlock_wr ci.

(** ** Locks of cache lines *)

Definition try_lock_wr (cline : Z) : EV bool := on_locks (ocf_cache_line_try_lock_wr cline).
Definition unlock_wr (cline : Z) : EV unit := on_locks (ocf_cache_line_unlock_wr ENTRIES cline).
Definition are_waiters (cline : Z) : EV bool := on_locks (ocf_cache_line_are_waiters ENTRIES num_entries cline).

Definition in_request_range (ci : core_info) (r : ocf_request) : bool :=
  bool_decide (core_id ci = req_core r) && bool_decide (core_line ci >= core_line_first r) &&
  bool_decide (core_line ci <= core_line_last r).

(** [None] for [false]; the core line otherwise. *)
Definition _lru_iter_eviction_lock (it : lru_iter) (cache_line : Z) : EV (option core_info) :=
  got ← try_lock_wr cache_line;
  if negb got then mret None
  else
    ci ← on_cache (on_map (ocf_metadata_get_core_info cache_line));
    own ← the_request (in_request_range ci);
    if (own : bool) then _ ← unlock_wr cache_line; mret None
    else
      hash ← _lru_trylock_hash it ci;
      if negb hash then _ ← unlock_wr cache_line; mret None
      else
        waiters ← are_waiters cache_line;
        if (waiters : bool) then
          _ ← _lru_unlock_hash it ci;
          _ ← unlock_wr cache_line;
          mret None
        else mret (Some ci).

(** ** The next line of an iterator *)

Definition lru_iter_init (part start_lru : Z) (clean hash_locked : bool) : EV lru_iter :=
  curr ← foldr (fun i (rest : EV (list Z)) =>
           list ← on_lrus (ocf_lru_get_list part i clean);
           L ← on_lrus (load (fun s => lists s !! list));
           l ← rest; mret (tail L :: l)) (mret []) lru_lists_idx;
  mret (LruIter curr part (Z.shiftl 1 OCF_NUM_LRU_LISTS - 1) OCF_NUM_LRU_LISTS
    (u32 (u32 (start_lru + OCF_NUM_LRU_LISTS) - 1) mod OCF_NUM_LRU_LISTS) 0 hash_locked clean).
Definition lru_iter_cleaning_init (part start_lru : Z) : EV lru_iter := lru_iter_init part start_lru false false.
Definition lru_iter_eviction_init (part start_lru : Z) : EV lru_iter := lru_iter_init part start_lru true true.

(** [while (cline != end_marker && !lock(cline)) cline = prev(cline)]: the first
    line from [cline] towards the head that [lock] takes, with its answer. *)
Fixpoint walk_back {A} (fuel : nat) (lock : Z -> EV (option A)) (cline : Z) : EV (option (Z * A)) :=
  match fuel with
  | O => env_bug
  | S fuel =>
    if bool_decide (cline = end_marker) then mret None
    else
      got ← lock cline;
      match got with
      | Some a => mret (Some (cline, a))
      | None => node ← on_lrus (node_of cline); walk_back fuel lock (prev node)
      end
  end.
Definition walk_fuel : nat := S (Z.to_nat num_entries).

(** The loop that the iterators share: the lists in turn, until one of them has
    a line or all are empty. *)
Fixpoint next_from_lists {A} (fuel : nat) (try_list : lru_iter -> EV (option A * lru_iter)) (it : lru_iter)
    : EV (option A * lru_iter) :=
  match fuel with
  | O => env_bug
  | S fuel =>
    r ← try_list (lru_iter_advance it);
    match r with
    | (Some a, it) => mret (Some a, it)
    | (None, it) =>
      let it := if _lru_lru_is_empty it then it else _lru_lru_set_empty it in
      if _lru_lru_all_empty it then mret (None, it) else next_from_lists fuel try_list it
    end
  end.
(** Every round empties a list; one round may find the current list empty. *)
Definition lists_fuel : nat := 34.

(** [ocf_lru_repart_locked], or a move to the front of [list] when the line stays
    in its partition. *)
Definition take_line (list : EV list_key) (cline part dst_part : Z) : EV unit :=
  if bool_decide (dst_part <> part) then on_lrus (ocf_lru_repart_locked cline part dst_part)
  else list ← list; on_lrus (on_list list (ocf_lru_set_hot cline)).

Definition lru_iter_eviction_next (it : lru_iter) (dst_part : Z) : EV (option (Z * core_info) * lru_iter) :=
  next_from_lists lists_fuel (fun it =>
    list ← on_lrus (ocf_lru_get_list (it_part it) (it_lru_idx it) (it_clean it));
    L ← on_lrus (load (fun s => lists s !! list));
    found ← walk_back walk_fuel (_lru_iter_eviction_lock it) (tail L);
    _ ← match found with
        | Some (cline, _) => take_line (mret list) cline (it_part it) dst_part
        | None => mret tt
        end;
    mret (found, it)) it.

Definition lru_iter_free_next (it : lru_iter) (dst_part : Z) : EV (option Z * lru_iter) :=
  _ ← bug_on (bool_decide (dst_part = it_part it));
  next_from_lists lists_fuel (fun it =>
    list ← on_lrus (ocf_lru_get_list (it_part it) (it_lru_idx it) true);
    L ← on_lrus (load (fun s => lists s !! list));
    found ← walk_back walk_fuel (fun cline =>
              got ← try_lock_wr cline; mret (if (got : bool) then Some tt else None)) (tail L);
    _ ← match found with
        | Some (cline, _) => on_lrus (ocf_lru_repart_locked cline (it_part it) dst_part)
        | None => mret tt
        end;
    mret (fst <$> found, it)) it.

Definition lru_iter_cleaning_next (it : lru_iter) : EV (option Z * lru_iter) :=
  next_from_lists lists_fuel (fun it =>
    cline ← load (fun _ => it_curr_cline it !! Z.to_nat (it_lru_idx it));
    found ← walk_back walk_fuel (fun cline =>
              got ← on_locks (ocf_cache_line_try_lock_rd cline); mret (if (got : bool) then Some tt else None)) cline;
    match found with
    | Some (cline, _) =>
      node ← on_lrus (node_of cline);
      mret (Some cline, it_with_curr (<[Z.to_nat (it_lru_idx it) := prev node]> (it_curr_cline it)) it)
    | None => mret (None, it)
    end) it.

(** The sequential successor of the last line, if it can be taken: the line,
    what it holds and its partition. *)
Definition lru_req_next_cline (it : lru_iter) (cline dst_part : Z) : EV (option (Z * core_info * Z) * lru_iter) :=
  tmp_part_id ← on_lrus (ocf_metadata_get_partition_id cline);
  if bool_decide (tmp_part_id = PARTITION_FREELIST) then mret (None, it)
  else
    config ← on_parts (config_of tmp_part_id);
    if negb (uc_eviction config) then mret (None, it)
    else
      got ← try_lock_wr cline;
      if negb got then mret (None, it)
      else
        ci ← on_cache (on_map (ocf_metadata_get_core_info cline));
        own ← the_request (in_request_range ci);
        if (own : bool) then _ ← unlock_wr cline; mret (None, it)
        else
          node ← on_lrus (node_of cline);
          if hot node then _ ← unlock_wr cline; mret (None, it)
          else
            dirty ← on_cache (on_status (Status.metadata_test_dirty block_4k line_size cline));
            if (dirty : bool) then _ ← unlock_wr cline; mret (None, it)
            else
              hash ← _lru_trylock_hash it ci;
              if negb hash then _ ← unlock_wr cline; mret (None, it)
              else
                _ ← take_line (on_lrus (lru_get_cline_list cline)) cline tmp_part_id dst_part;
                mret (Some (cline, ci, tmp_part_id), lru_iter_advance it).

(** ** Lines for a request *)

Definition ocf_lru_invalidate (cline core part : Z) : EV unit :=
  _ ← on_cache (on_status (metadata_clear_valid_sec block_4k line_size cline 0 (ocf_line_end_block block_4k line_size)));
  _ ← on_cache (on_map (ocf_metadata_remove_from_collision cline));
  _ ← on_cache (add_cached (-1) core);
  on_cache (add_part_cached (-1) core part).

(** The next entry that is not mapped, or the last entry. *)
Fixpoint next_unmapped (fuel : nat) (req_idx : Z) : EV Z :=
  match fuel with
  | O => env_bug
  | S fuel =>
    count ← the_request core_line_count;
    if bool_decide (req_idx + 1 < count) then
      e ← on_cache (map_entry_of req_idx);
      if bool_decide (me_status e <> LOOKUP_MISS) then next_unmapped fuel (req_idx + 1) else mret req_idx
    else mret req_idx
  end.

(** A line for the request: the line, what it holds, if anything, and the
    partition it comes from. *)
Definition next_cline (it : lru_iter) (src_part dst_part cline : Z)
    : EV (option (Z * option core_info * Z) * lru_iter) :=
  if bool_decide (part_id src_part <> PARTITION_FREELIST) then
    n ← cachelines;
    r ← (if bool_decide (cline < n - 1) then lru_req_next_cline it (cline + 1) dst_part else mret (None, it));
    match r with
    | (Some (cline, ci, part), it) => mret (Some (cline, Some ci, part), it)
    | (None, it) =>
      r ← lru_iter_eviction_next it dst_part;
      mret ((fun p => (p.1, Some p.2, part_id src_part)) <$> r.1, r.2)
    end
  else
    r ← lru_iter_free_next it dst_part;
    mret ((fun cline => (cline, None, part_id src_part)) <$> r.1, r.2).

(** The line becomes that of entry [req_idx]. *)
Definition assign_cline (it : lru_iter) (req_idx cline : Z) (ci : option core_info) (part : Z) : EV unit :=
  used ← on_locks (ocf_cache_line_is_used ENTRIES num_entries cline);
  _ ← bug_on (negb used);
  dirty ← on_cache (on_status (Status.metadata_test_dirty block_4k line_size cline));
  _ ← bug_on dirty;
  e ← on_cache (map_entry_of req_idx);
  _ ← bug_on (bool_decide (me_status e <> LOOKUP_MISS));
  _ ← match ci with
      | Some ci => _ ← ocf_lru_invalidate cline (core_id ci) part; _lru_unlock_hash it ci
      | None => mret tt
      end;
  _ ← on_cache (ocf_map_cache_line req_idx cline);
  _ ← on_cache (set_entry req_idx (with_status LOOKUP_REMAPPED));
  _ ← on_cache (ocf_engine_patch_req_info req_idx);
  _ ← on_locks (ocf_alock_mark_index_locked self req_idx true);
  on_locks (r ← load_req self; store_req self (with_rw OCF_WRITE r)).

(** The loop of [ocf_lru_req_clines] with [n] lines to go: [cline] is the last
    line; the result is the number of lines taken. *)
Fixpoint req_clines (n : nat) (it : lru_iter) (src_part dst_part dst_max_size i req_idx cline : Z) : EV Z :=
  match n with
  | O => mret i
  | S n =>
    r ← next_cline it src_part dst_part cline;
    match r with
    | (None, _) => mret i
    | (Some (cline, ci, part), it) =>
      fuel ← the_request (fun q => S (length (req_map q)));
      req_idx ← next_unmapped fuel req_idx;
      _ ← assign_cline it req_idx cline ci part;
      size ← on_lrus (load (fun s => LruPart.curr_size s !! dst_part));
      if bool_decide (part <> part_id dst_part) && bool_decide (u32 size >= dst_max_size) then mret (i + 1)
      else
        count ← the_request core_line_count;
        _ ← bug_on (bool_decide (req_idx + 1 = count) && negb (bool_decide (n = O)));
        req_clines n it src_part dst_part dst_max_size (i + 1) (req_idx + 1) cline
    end
  end.

Definition ocf_lru_req_clines (src_part cline_no : Z) : EV Z :=
  if bool_decide (cline_no = 0) then mret 0
  else
    part_id ← the_request req_part;
    dst_max_size ← on_parts (ocf_user_part_get_max_size part_id);
    unmapped ← the_request ocf_engine_unmapped_count;
    _ ← bug_on (bool_decide (unmapped < cline_no));
    _ ← bug_on (bool_decide (part_id = PARTITION_FREELIST));
    dst_part ← on_lrus (user_part part_id);
    lru_idx ← gets sp_lru_idx;
    _ ← modify (with_lru_idx (u32 (lru_idx + 1)));
    it ← lru_iter_eviction_init src_part (lru_idx mod OCF_NUM_LRU_LISTS);
    req_clines (Z.to_nat cline_no) it src_part dst_part dst_max_size 0 0 end_marker.

(** [ocf_eviction.c], for the LRU policy. *)
Definition ocf_eviction_req_clines (src_part cline_no : Z) : EV Z := ocf_lru_req_clines src_part cline_no.
Definition ocf_eviction_num_free : EV Z := on_lrus (n ← load (fun s => LruPart.curr_size s !! PARTITION_FREELIST); mret (u32 n)).

(** ** Lines to clean *)

(** The loop of [ocf_lru_clean]: at most [n] entries of the cleaning order. *)
Fixpoint clean_entries (n : nat) (it : lru_iter) : EV (list (Z * core_info)) :=
  match n with
  | O => mret []
  | S n =>
    r ← lru_iter_cleaning_next it;
    match r with
    | (None, _) => mret []
    | (Some cline, it) =>
      ci ← on_cache (on_map (ocf_metadata_get_core_info cline));
      rest ← clean_entries n it;
      mret ((cline, ci) :: rest)
    end
  end.

(** [ocf_lru_clean] up to the order that it gives to the cleaner (before it is
    sorted); [idle] is whether the three conditions for starting hold: the cache
    is not locked by management, cleaning is enabled and not running. *)
Definition ocf_lru_clean (idle : bool) (part count : Z) : EV (list (Z * core_info)) :=
  if negb idle then mret []
  else
    lru_idx ← gets sp_lru_idx;
    _ ← modify (with_lru_idx (u32 (lru_idx + 1)));
    it ← lru_iter_cleaning_init part (lru_idx mod OCF_NUM_LRU_LISTS);
    clean_entries (Z.to_nat (Z.min count OCF_EVICTION_CLEAN_SIZE)) it.

(** [_ocf_cleaner_cmp] and the sorting of an order; [env_sort] is [qsort]. *)
Definition _ocf_cleaner_cmp (a b : Z * core_info) : Z :=
  if bool_decide (core_id a.2 = core_id b.2) then if bool_decide (core_line a.2 > core_line b.2) then 1 else -1
  else if bool_decide (core_id a.2 > core_id b.2) then 1 else -1.
Definition flush_before (a b : Z * core_info) : Prop := _ocf_cleaner_cmp a b < 0.
#[export] Instance flush_before_dec : RelDecision flush_before := fun a b => Z_lt_dec (_ocf_cleaner_cmp a b) 0.
Definition ocf_cleaner_sort_flush_data (flush : list (Z * core_info)) : list (Z * core_info) :=
  merge_sort flush_before flush.

(** [ocf_lru_clean_end]: the lines of the order are unlocked. *)
Definition ocf_lru_clean_end (entries : list (Z * core_info)) : EV unit :=
  m_for entries (fun e => on_locks (ocf_cache_line_unlock_rd ENTRIES e.1)).

(** ** [ocf_space.c] *)

Definition EVICT_RETRY : nat := 2.
Definition MIN_EVICT_QUOTA : Z := 256.

Definition part_size_of (part : Z) : EV Z := on_lrus (n ← load (fun s => LruPart.curr_size s !! part); mret (u32 n)).

Definition ocf_evict_counters_inc (part delta : Z) : EV Z :=
  n ← on_lrus (load (fun s => evict_counter s !! part));
  _ ← on_lrus (set_evict_counter part (s32 (n + delta)));
  mret (s32 (n + delta)).

(** The parameter is an [uint16_t]. *)
Definition ocf_evict_counters_update (priority : Z) : EV unit :=
  let priority := u16 priority in
  count ← on_parts (gets line_count);
  r ← each_user_part (fun part acc =>
        config ← on_parts (config_of part);
        if bool_decide (priority > uc_priority config) then mret (inl acc)
        else
          part_size ← part_size_of part;
          mret (inr (acc.1 ++ [part_size], if bool_decide (part_size = 0) then acc.2 else Z.min acc.2 part_size)))
      ([], count);
  let least_part_size := Z.max r.2 MIN_EVICT_QUOTA in
  _ ← each_user_part (fun part sizes =>
        config ← on_parts (config_of part);
        if bool_decide (priority > uc_priority config) then mret (inl sizes)
        else
          match sizes with
          | [] => env_bug
          | part_size :: sizes =>
            if bool_decide (part_size = 0) then mret (inr sizes)
            else
              _ ← ocf_evict_counters_inc part (s32 (u64 (part_size * MIN_EVICT_QUOTA) / least_part_size));
              mret (inr sizes)
          end) r.1;
  mret tt.

Definition ocf_evict_calculate (part to_evict : Z) : EV Z :=
  curr_part_size ← on_parts (ocf_part_get_occupancy part);
  min_part_size ← on_parts (ocf_user_part_get_min_size part);
  if bool_decide (curr_part_size <= min_part_size) then mret 0
  else mret (if bool_decide (to_evict > u32 (curr_part_size - min_part_size))
             then u32 (curr_part_size - min_part_size) else to_evict).

Definition ocf_evict_part_do (part : Z) : EV Z :=
  unmapped ← the_request ocf_engine_unmapped_count;
  to_evict ← ocf_evict_calculate part unmapped;
  if bool_decide (to_evict < unmapped) then mret 0
  else ocf_eviction_req_clines part to_evict.

(** One partition of [ocf_evict_user_partitions_once], after the conditions on
    it: the number of lines evicted so far and the value of [counter]. *)
Definition evict_from (overflown_only : bool) (part to_evict evicted : Z) : EV (Z * Z) :=
  counter ← (if overflown_only then mret 0 else ocf_evict_counters_inc part (- s32 to_evict));
  if negb overflown_only && bool_decide (counter <= - s32 to_evict) then
    _ ← ocf_evict_counters_inc part to_evict;
    mret (evicted, s32 (counter + to_evict))
  else
    evicted_now ← ocf_eviction_req_clines part to_evict;
    if negb overflown_only && bool_decide (evicted_now < to_evict) then
      _ ← ocf_evict_counters_inc part (u32 (to_evict - evicted_now));
      mret (u32 (evicted + evicted_now), s32 (counter + u32 (to_evict - evicted_now)))
    else mret (u32 (evicted + evicted_now), counter).

(** The pair of the result and [*no_more_counters]. *)
Definition ocf_evict_user_partitions_once (evict_cline_no : Z) (overflown_only : bool) (max_priority : Z) : EV (Z * bool) :=
  each_user_part (fun part acc =>
    let '(evicted, no_more_counters) := acc : Z * bool in
    config ← on_parts (config_of part);
    if bool_decide (max_priority > uc_priority config) then mret (inl acc)
    else if negb overflown_only && negb (uc_eviction config) then mret (inl acc)
    else
      overflow_size ← (if overflown_only then on_parts (ocf_user_part_overflow_size part) else mret 0);
      if overflown_only && bool_decide (overflow_size = 0) then mret (inr acc)
      else
        to_evict ← ocf_evict_calculate part (u32 (evict_cline_no - evicted));
        if bool_decide (to_evict = 0) then mret (inr acc)
        else
          r ← evict_from overflown_only part (if overflown_only then Z.min to_evict overflow_size else to_evict) evicted;
          let acc := (r.1, no_more_counters && negb (bool_decide (r.2 > 0))) in
          mret (if bool_decide (r.1 >= evict_cline_no) then inl acc else inr acc)) (0, true).

(** The loop of [ocf_evict_user_partitions], [n] rounds to go. *)
Fixpoint evict_rounds (n : nat) (evict_cline_no : Z) (overflown_only : bool) (max_priority evicted : Z) : EV Z :=
  match n with
  | O => mret evicted
  | S n =>
    r ← ocf_evict_user_partitions_once (u32 (evict_cline_no - evicted)) overflown_only max_priority;
    let evicted := u32 (evicted + r.1) in
    if bool_decide (evicted >= evict_cline_no) then mret evicted
    else if overflown_only then mret evicted
    else
      _ ← when r.2 (ocf_evict_counters_update max_priority);
      evict_rounds n evict_cline_no overflown_only max_priority evicted
  end.
Definition ocf_evict_user_partitions (evict_cline_no : Z) (overflown_only : bool) (max_priority : Z) : EV Z :=
  evict_rounds EVICT_RETRY evict_cline_no overflown_only max_priority 0.

Definition ocf_remap_do : EV Z :=
  target_part ← the_request req_part;
  remap_cline_no ← the_request ocf_engine_unmapped_count;
  num_free ← ocf_eviction_num_free;
  remapped ← (if bool_decide (num_free > 0) then ocf_eviction_req_clines PARTITION_FREELIST remap_cline_no else mret 0);
  if bool_decide (remapped >= remap_cline_no) then mret remapped
  else
    evicted ← ocf_evict_user_partitions (u32 (remap_cline_no - remapped)) true OCF_IO_CLASS_PRIO_PINNED;
    let remapped := u32 (remapped + evicted) in
    if bool_decide (remapped >= remap_cline_no) then mret remapped
    else
      config ← on_parts (config_of target_part);
      evicted ← ocf_evict_user_partitions (u32 (remap_cline_no - remapped)) false (uc_priority config);
      mret (u32 (remapped + evicted)).

(** [own] is [ocf_req_part_evict(req)]. *)
Definition ocf_space_managment_remap_do (own : bool) : EV lookup_status :=
  needed ← the_request ocf_engine_unmapped_count;
  req_part ← the_request req_part;
  remapped ← (if own then ocf_evict_part_do req_part else ocf_remap_do);
  mret (if bool_decide (needed <= remapped) then LOOKUP_REMAPPED else LOOKUP_MISS).
End Evict.
