(* ===== verification/EvictIter.v ===== *)
(** * The iterator over the lists of a partition

    [av it]: the lists that the iterator has not found empty.  Going to the next
    list keeps them and ends at one of them; a list found empty leaves them.  So
    the loops of the iterators end, and they visit every available list before
    they give up.  Walking along a list tries its lines from the tail on. *)

From S2P Require Import Prelude Alock AlockProofs CacheLineLock Links Lru LruProofs LruSeq Generator LruPart LruPartProofs.
From S2P Require Import Collision CollisionProofs Status Request CacheLine CacheLineProofs Engine IndexList HashLock IoClass Evict.
Open Scope Z_scope.

(** Arithmetic with remainders. *)
Ltac mod_lia := Z.div_mod_to_equations; lia.

(** ** Bits *)

Lemma ffs_from_spec n : forall i x, 0 <= i -> (forall j, j < i -> Z.testbit x j = false) -> 0 <= x < 2 ^ (i + Z.of_nat n) -> x <> 0 ->
  exists k, ffs_from n i x = k + 1 /\ i <= k < i + Z.of_nat n /\ Z.testbit x k = true.
Proof.
  induction n as [|n IH]; intros i x Hi Hlow Hx Hne; cbn [ffs_from].
  - exfalso. apply Hne. apply Z.bits_inj'. intros j Hj. rewrite Z.bits_0. destruct (decide (j < i)); [by apply Hlow|].
    rewrite <- (Z.mod_small x (2 ^ i)) by (replace (i + Z.of_nat 0) with i in Hx by lia; done).
    apply Z.mod_pow2_bits_high. lia.
  - destruct (Z.testbit x i) eqn:E; [exists i; split; [done|split; [lia|done]]|].
    destruct (IH (i + 1) x) as (k & -> & Hk & Hb); [lia| |by replace (i + 1 + Z.of_nat n) with (i + Z.of_nat (S n)) by lia|done|].
    2: { exists k. split; [done|]. split; [lia|done]. }
    intros j Hj. destruct (decide (j = i)) as [->|]; [done|]. apply Hlow. lia.
Qed.

Lemma ffsll_spec x : 0 <= x < 2 ^ 32 -> x <> 0 -> 1 <= ffsll x <= 32 /\ Z.testbit x (ffsll x - 1) = true.
Proof.
  intros Hx Hne. destruct (ffs_from_spec 64 0 x) as (k & E & Hk & Hb); [lia|intros j Hj; by apply Z.testbit_neg_r|cbn; lia|done|].
  unfold ffsll. rewrite E. replace (k + 1 - 1) with k by lia. split; [|done]. destruct (decide (k < 32)); [lia|].
  rewrite <- (Z.mod_small x (2 ^ 32)), Z.mod_pow2_bits_high in Hb by lia. done.
Qed.

Lemma rotate_bit x n k : 0 <= x < 2 ^ 32 -> 1 <= n <= 32 -> 0 <= k < 32 ->
  Z.testbit (ocf_rotate_right x n 32) k = Z.testbit x ((k + n) mod 32).
Proof.
  intros Hx Hn Hk. unfold ocf_rotate_right. rewrite Z.land_spec. change (Z.shiftl 1 32 - 1) with (Z.ones 32).
  rewrite Z.ones_spec_low by lia. rewrite andb_true_r, Z.lor_spec, Z.shiftr_spec by lia.
  unfold wrap. rewrite Z.mod_pow2_bits_low by lia. rewrite Z.shiftl_spec by lia.
  destruct (decide (k + n < 32)).
  - rewrite (Z.testbit_neg_r x (k - (32 - n))) by lia. rewrite orb_false_r. by rewrite Z.mod_small by lia.
  - rewrite <- (Z.mod_small x (2 ^ 32)) at 1 by lia. rewrite Z.mod_pow2_bits_high by lia. cbn [orb].
    f_equal. mod_lia.
Qed.

Lemma rotate_range x n : 0 <= ocf_rotate_right x n 32 < 2 ^ 32.
Proof.
  unfold ocf_rotate_right. change (Z.shiftl 1 32 - 1) with (Z.ones 32). rewrite Z.land_ones by lia. apply Z.mod_pos_bound. lia.
Qed.

(** ** The lists that are left *)

Definition av (it : lru_iter) (j : Z) : bool := Z.testbit (it_next_avail_lru it) ((j - it_lru_idx it - 1) mod 32).
Definition avail (it : lru_iter) : list Z := filter (fun j => av it j = true) (seqZ 0 32).

Record iter_ok (it : lru_iter) : Prop := {
  io_bits : 0 <= it_next_avail_lru it < 2 ^ 32;
  io_idx : 0 <= it_lru_idx it < 32;
  io_num : it_num_avail_lrus it = Z.of_nat (length (avail it));
  io_element : 0 <= it_lru_element_idx it < 256
}.

Lemma avail_elem it j : j ∈ avail it <-> 0 <= j < 32 /\ av it j = true.
Proof. unfold avail. rewrite list_elem_of_filter, elem_of_seqZ. split; intros [? ?]; split; (lia || done). Qed.

Lemma avail_ext it it' : (forall j, 0 <= j < 32 -> av it' j = av it j) -> avail it' = avail it.
Proof.
  intros H. unfold avail. assert (Hs : forall j, j ∈ seqZ 0 32 -> av it' j = av it j) by (intros j Hj%elem_of_seqZ; apply H; lia).
  clear H. revert Hs. generalize (seqZ 0 32). induction l as [|x l IH]; intros Hs; [done|]. rewrite !filter_cons, (Hs x) by left.
  rewrite IH by (intros j Hj; apply Hs; by right). done.
Qed.

Lemma avail_nil it : iter_ok it -> avail it = [] <-> it_next_avail_lru it = 0.
Proof.
  intros [Hb Hi _ _]. split.
  - intros E. apply Z.bits_inj'. intros k Hk. rewrite Z.bits_0. destruct (decide (k < 32)).
    + destruct (Z.testbit (it_next_avail_lru it) k) eqn:Ek; [|done]. exfalso.
      assert (Hin : ((k + it_lru_idx it + 1) mod 32) ∈ avail it); [|rewrite E in Hin; by apply not_elem_of_nil in Hin].
      apply avail_elem. pose proof (Z.mod_pos_bound (k + it_lru_idx it + 1) 32 ltac:(lia)). split; [done|].
      unfold av. rewrite <- Ek. f_equal. mod_lia.
    + rewrite <- (Z.mod_small (it_next_avail_lru it) (2 ^ 32)), Z.mod_pow2_bits_high by lia. done.
  - intros E. unfold avail. apply list_eq_nil_filter. intros j _. unfold av. by rewrite E, Z.bits_0.
Qed.

Lemma is_empty_av it : iter_ok it -> _lru_lru_is_empty it = negb (av it (it_lru_idx it)).
Proof.
  intros _. unfold _lru_lru_is_empty, av. replace (it_lru_idx it - it_lru_idx it - 1) with (-1) by lia. change (-1 mod 32) with 31.
  change (Z.shiftl 1 (OCF_NUM_LRU_LISTS - 1)) with (2 ^ 31).
  destruct (Z.testbit (it_next_avail_lru it) 31) eqn:E.
  - apply bool_decide_eq_false_2. intros H. apply (f_equal (fun z => Z.testbit z 31)) in H.
    rewrite Z.land_spec, Z.pow2_bits_true, E, Z.bits_0 in H by lia. done.
  - apply bool_decide_eq_true_2. apply Z.bits_inj'. intros k Hk. rewrite Z.land_spec, Z.bits_0, Z.pow2_bits_eqb by lia.
    destruct (Z.eqb_spec 31 k) as [<-|]; [by rewrite E|by rewrite andb_false_r].
Qed.

Lemma advance_list_ok it : iter_ok it -> iter_ok (_lru_iter_advance_list it) /\ avail (_lru_iter_advance_list it) = avail it /\
  (avail it <> [] -> it_lru_idx (_lru_iter_advance_list it) ∈ avail it).
Proof.
  intros Hit. pose proof Hit as [Hb Hi Hn He]. destruct (decide (it_next_avail_lru it = 0)) as [E0|E0].
  - assert (E : _lru_iter_advance_list it = it).
    { unfold _lru_iter_advance_list. rewrite E0. change (ffsll 0) with 0. change (ocf_rotate_right 0 0 OCF_NUM_LRU_LISTS) with 0.
      rewrite Z.add_0_r, wrap_small by lia. change OCF_NUM_LRU_LISTS with 32. rewrite (Z.mod_small (it_lru_idx it)) by lia. rewrite <- E0. by destruct it. }
    rewrite E. split; [done|]. split; [done|]. intros H. by apply avail_nil in E0.
  - destruct (ffsll_spec _ Hb E0) as [Hf Hbit]. set (inc := ffsll (it_next_avail_lru it)) in *.
    assert (Eidx : it_lru_idx (_lru_iter_advance_list it) = (it_lru_idx it + inc) mod 32).
    { unfold _lru_iter_advance_list. cbn [it_lru_idx it_with_idx]. fold inc. rewrite wrap_small by lia. done. }
    assert (Eav : forall j, 0 <= j < 32 -> av (_lru_iter_advance_list it) j = av it j).
    { intros j Hj. unfold av. rewrite Eidx. unfold _lru_iter_advance_list. cbn [it_next_avail_lru it_with_idx it_with_avail]. fold inc.
      change OCF_NUM_LRU_LISTS with 32. rewrite rotate_bit; [|done|done|apply Z.mod_pos_bound; lia]. f_equal.
      mod_lia. }
    pose proof (avail_ext _ _ Eav) as Eavail. split; [split|split; [done|]].
    + apply rotate_range.
    + rewrite Eidx. apply Z.mod_pos_bound. lia.
    + rewrite Eavail. exact Hn.
    + exact He.
    + intros _. rewrite Eidx. apply avail_elem. pose proof (Z.mod_pos_bound (it_lru_idx it + inc) 32 ltac:(lia)) as Hr. split; [done|].
      unfold av. rewrite <- Hbit. f_equal. mod_lia.
Qed.

Lemma last_bit j i : 0 <= j < 32 -> 0 <= i < 32 -> 31 = (j - i - 1) mod 32 <-> j = i.
Proof. intros Hj Hi. split; intros; mod_lia. Qed.

(** What stays the same of an iterator in use. *)
Definition same_iter (it it' : lru_iter) : Prop :=
  it_part it' = it_part it /\ it_hash_locked it' = it_hash_locked it /\ it_clean it' = it_clean it /\
  it_curr_cline it' = it_curr_cline it.

Lemma advance_ok it : iter_ok it -> iter_ok (lru_iter_advance it) /\ avail (lru_iter_advance it) = avail it /\
  same_iter it (lru_iter_advance it) /\
  (avail it <> [] -> it_lru_idx (lru_iter_advance it) ∈ avail it).
Proof.
  intros Hit. pose proof Hit as [Hb Hi Hn He]. unfold lru_iter_advance. cbv zeta.
  set (it1 := it_with_element _ it). assert (E1 : it_lru_element_idx it1 = it_lru_element_idx it + 1) by (apply wrap_small; lia).
  assert (Hav1 : avail it1 = avail it) by (by apply avail_ext).
  destruct (bool_decide (it_lru_element_idx it1 >= OCF_LRU_MAX_LRU_ELEMENT_IDX)) eqn:Ee;
    [|destruct (_lru_lru_is_empty it1) eqn:Em]; cbn [orb].
  3:{ apply bool_decide_eq_false_1 in Ee. unfold OCF_LRU_MAX_LRU_ELEMENT_IDX in Ee.
      assert (Hit1 : iter_ok it1) by (split; [done|done|by rewrite Hav1|lia]).
      split; [done|]. split; [done|]. split; [done|]. intros _.
      rewrite is_empty_av in Em by done. apply negb_false_iff in Em. rewrite <- Hav1. apply avail_elem. split; [apply Hi|done]. }
  1: set (it2 := it_with_element 0 it). 2: set (it2 := it_with_element 0 it).
  all: assert (Hit2 : iter_ok it2) by (split; [done|done|exact Hn|cbn; lia]);
    destruct (advance_list_ok it2 Hit2) as (H1 & H2 & H3);
    change (it_with_element 0 (_lru_iter_advance_list it1)) with (_lru_iter_advance_list it2);
    split; [exact H1|]; split; [exact H2|]; split; [done|exact H3].
Qed.

Lemma set_empty_ok it : iter_ok it -> av it (it_lru_idx it) = true ->
  iter_ok (_lru_lru_set_empty it) /\ avail (_lru_lru_set_empty it) = without (it_lru_idx it) (avail it).
Proof.
  intros Hit Hav. pose proof Hit as [Hb Hi Hn He].
  assert (Eav : forall j, 0 <= j < 32 -> av (_lru_lru_set_empty it) j = av it j && negb (bool_decide (j = it_lru_idx it))).
  { intros j Hj. unfold av, _lru_lru_set_empty. cbn [it_next_avail_lru it_lru_idx it_with_avail].
    change (Z.shiftl 1 (OCF_NUM_LRU_LISTS - 1)) with (2 ^ 31).
    rewrite Z.ldiff_spec, Z.pow2_bits_eqb by lia. f_equal. f_equal. apply eq_bool_prop_intro.
    rewrite Is_true_true, Is_true_true, Z.eqb_eq, bool_decide_eq_true. split; [intros H31; by apply (last_bit j _ Hj Hi)|intros ->; by apply (last_bit _ _ Hi Hi)]. }
  assert (Eavail : avail (_lru_lru_set_empty it) = without (it_lru_idx it) (avail it)).
  { unfold avail, without. rewrite list_filter_filter. assert (H : forall j, j ∈ seqZ 0 32 -> 0 <= j < 32) by (intros j Hj%elem_of_seqZ; lia).
    revert H. generalize (seqZ 0 32). induction l as [|x l IH]; intros H; [done|]. rewrite !filter_cons, IH by (intros j Hj; apply H; by right).
    rewrite (Eav x) by (apply H; left). apply decide_ext. rewrite andb_true_iff, negb_true_iff, bool_decide_eq_false. tauto. }
  split; [|done]. assert (Hin : it_lru_idx it ∈ avail it) by (apply avail_elem; by split).
  assert (Hnd : NoDup (avail it)) by (apply NoDup_filter, NoDup_seqZ).
  pose proof (length_without (it_lru_idx it) _ Hnd) as Hl. rewrite bool_decide_eq_true_2 in Hl by done. cbn [Z.b2z] in Hl.
  assert (Hlen : (length (avail it) <= 32)%nat).
  { etrans; [apply length_filter|]. rewrite length_seqZ. done. }
  split; [|done| |done].
  - cbn [it_next_avail_lru _lru_lru_set_empty it_with_avail]. split; [apply Z.ldiff_nonneg; left; lia|].
    assert (Hle : forall i, 32 <= i -> Z.testbit (Z.ldiff (it_next_avail_lru it) (Z.shiftl 1 (OCF_NUM_LRU_LISTS - 1))) i = false).
    { intros i H32. rewrite Z.ldiff_spec, (bits_of_below 32) by lia. done. }
    apply below_of_bits; [lia|apply Z.ldiff_nonneg; left; lia|exact Hle].
  - rewrite Eavail. cbn [it_num_avail_lrus _lru_lru_set_empty it_with_avail]. rewrite Hn, wrap_small; lia.
Qed.

Section EvictIter.
Context {C : Type} `{!CleaningPolicy C}.
Context (block_4k : bool) (line_size : cache_line_size) (num_entries ENTRIES : Z).
Abbreviation EV := (Prelude.M (space C)).
Implicit Types (s : space C) (it : lru_iter).

(** ** The loops over the lists *)

(** [J] holds between the lists, [R] of every list that had no line; what [R]
    says of a state it says of the later ones, in the order [Up]. *)
Lemma next_lists_up {A} (try_list : lru_iter -> EV (option A * lru_iter)) (J : space C -> Prop) (Up : space C -> space C -> Prop) (R : space C -> Z -> Prop)
    (Q : A -> lru_iter -> space C -> Prop) it0 :
  (forall s s' j, Up s s' -> R s j -> R s' j) ->
  (forall it s, iter_ok it -> same_iter it0 it -> (forall j, 0 <= j < 32 -> j ∉ avail it -> R s j) -> J s ->
     wp (try_list it) (fun r s' => match r.1 with Some a => Q a r.2 s' | None => r.2 = it /\ J s' /\ Up s s' /\ R s' (it_lru_idx it) end) s) ->
  forall fuel it s, (length (avail it) < fuel)%nat -> iter_ok it -> same_iter it0 it -> J s ->
    (forall j, 0 <= j < 32 -> j ∉ avail it -> R s j) ->
    wp (next_from_lists fuel try_list it)
      (fun r s' => match r.1 with
                   | Some a => Q a r.2 s'
                   | None => J s' /\ (forall j, 0 <= j < 32 -> R s' j) /\ iter_ok r.2 /\ same_iter it0 r.2
                   end) s.
Proof.
  intros Hup Htry. induction fuel as [|fuel IH]; intros it s Hf Hit Hsame HJ HR; [lia|].
  destruct (advance_ok it Hit) as (Hit1 & Eav & Hs1 & Hcur). set (it1 := lru_iter_advance it) in *.
  assert (Hsame1 : same_iter it0 it1) by (destruct Hsame as (? & ? & ? & ?), Hs1 as (? & ? & ? & ?); split_and!; congruence).
  cbn [next_from_lists]. apply wp_bind. eapply wp_mono; [apply Htry; [done|done|rewrite <- Eav in HR; exact HR|done]|]. intros [[a|] it2] s'; cbn [fst snd].
  - intros HQ. by apply wp_ret.
  - intros (-> & HJ' & Hs' & HRi). fold it1 in HRi |- *.
    assert (HR' : forall j, 0 <= j < 32 -> j ∉ avail it -> R s' j) by (intros j Hj Hn; eapply Hup; [exact Hs'|by apply HR]). destruct (decide (avail it = [])) as [E0|Hne].
    + assert (Em : _lru_lru_is_empty it1 = true).
      { rewrite is_empty_av by done. destruct (av it1 (it_lru_idx it1)) eqn:E; [|done]. exfalso.
        assert (Hin : it_lru_idx it1 ∈ avail it1) by (apply avail_elem; split; [apply Hit1|done]). rewrite Eav, E0 in Hin.
        by apply not_elem_of_nil in Hin. }
      rewrite Em. assert (Ea : _lru_lru_all_empty it1 = true).
      { apply bool_decide_eq_true_2. rewrite (io_num _ Hit1), Eav, E0. done. }
      rewrite Ea. apply wp_ret. cbn. split; [done|]. split; [|done]. intros j Hj. apply HR'; [done|]. rewrite E0. apply not_elem_of_nil.
    + specialize (Hcur Hne). assert (Hav : av it1 (it_lru_idx it1) = true) by (rewrite <- Eav in Hcur; by apply avail_elem in Hcur as [_ ?]).
      assert (Em : _lru_lru_is_empty it1 = false) by (rewrite is_empty_av by done; by rewrite Hav).
      rewrite Em. destruct (set_empty_ok it1 Hit1 Hav) as [Hit3 Eav3]. set (it3 := _lru_lru_set_empty it1) in *. rewrite Eav in Eav3.
      assert (Hnd : NoDup (avail it)) by (apply NoDup_filter, NoDup_seqZ).
      pose proof (length_without (it_lru_idx it1) _ Hnd) as Hl. rewrite bool_decide_eq_true_2 in Hl by done. cbn [Z.b2z] in Hl.
      assert (HR3 : forall j, 0 <= j < 32 -> j ∉ avail it3 -> R s' j).
      { intros j Hj Hni. destruct (decide (j = it_lru_idx it1)) as [->|Hne1]; [done|]. apply HR'; [done|]. intros Hin. apply Hni.
        rewrite Eav3. by apply elem_of_without. }
      destruct (_lru_lru_all_empty it3) eqn:Ea.
      * apply wp_ret. cbn. split; [done|]. split; [|done]. intros j Hj. apply HR3; [done|].
        apply bool_decide_eq_true_1 in Ea. rewrite (io_num _ Hit3) in Ea. destruct (avail it3); [apply not_elem_of_nil|done].
      * apply IH; try done. rewrite Eav3. lia.
Qed.

Lemma next_lists_wp {A} (try_list : lru_iter -> EV (option A * lru_iter)) (J : space C -> Prop) (R : Z -> Prop)
    (Q : A -> lru_iter -> space C -> Prop) it0 :
  (forall it s, iter_ok it -> same_iter it0 it -> (forall j, 0 <= j < 32 -> j ∉ avail it -> R j) -> J s ->
     wp (try_list it) (fun r s' => match r.1 with Some a => Q a r.2 s' | None => r.2 = it /\ J s' /\ R (it_lru_idx it) end) s) ->
  forall fuel it s, (length (avail it) < fuel)%nat -> iter_ok it -> same_iter it0 it -> J s ->
    (forall j, 0 <= j < 32 -> j ∉ avail it -> R j) ->
    wp (next_from_lists fuel try_list it)
      (fun r s' => match r.1 with
                   | Some a => Q a r.2 s'
                   | None => J s' /\ (forall j, 0 <= j < 32 -> R j) /\ iter_ok r.2 /\ same_iter it0 r.2
                   end) s.
Proof.
  intros Htry. apply (next_lists_up try_list J (fun _ _ => True) (fun _ => R) Q it0); [done|]. intros it s H1 H2 H3 H4.
  eapply wp_mono; [by apply Htry|]. intros [[a|] it'] s'; [done|]. cbn. by intros (? & ? & ?).
Qed.

(** ** Walking along a list *)

Lemma walk_back_up {A} (lock : Z -> EV (option A)) (J : space C -> Prop) (Up : space C -> space C -> Prop) (R : space C -> Z -> Prop) (Q : Z -> A -> space C -> Prop) ms :
  (forall s, J s -> nodes (lru (sp_cache s)) = ms) -> (forall s s' x, Up s s' -> R s x -> R s' x) ->
  forall fuel l rest s, (length l < fuel)%nat -> link ms end_marker (l ++ rest) end_marker -> (forall x, x ∈ l -> valid_line x) -> J s ->
  (forall x s, x ∈ l -> J s -> wp (lock x) (fun r s' => Up s s' /\ match r with Some a => Q x a s' | None => J s' /\ R s' x end) s) ->
  wp (walk_back block_4k line_size fuel lock (lastd end_marker l))
    (fun r s' => match r with
                 | Some (x, a) => (exists l1 l2, l = l1 ++ x :: l2 /\ forall y, y ∈ l2 -> R s' y) /\ Q x a s'
                 | None => J s' /\ forall x, x ∈ l -> R s' x
                 end) s.
Proof.
  intros HJms Hup. cut (forall fuel l rest s (D : list Z), (length l < fuel)%nat -> link ms end_marker (l ++ rest) end_marker ->
    (forall x, x ∈ l -> valid_line x) -> J s -> (forall x, x ∈ D -> R s x) ->
    (forall x s, x ∈ l -> J s -> wp (lock x) (fun r s' => Up s s' /\ match r with Some a => Q x a s' | None => J s' /\ R s' x end) s) ->
    wp (walk_back block_4k line_size fuel lock (lastd end_marker l))
      (fun r s' => match r with
                   | Some (x, a) => (exists l1 l2, l = l1 ++ x :: l2 /\ forall y, y ∈ l2 ++ D -> R s' y) /\ Q x a s'
                   | None => J s' /\ forall x, x ∈ l ++ D -> R s' x
                   end) s).
  { intros H fuel l rest s Hf Hlink Hval HJ Hlock. eapply wp_mono; [apply (H fuel l rest s []); try done; intros x Hx; by apply not_elem_of_nil in Hx|].
    intros [[x a]|] s'; [|by rewrite app_nil_r]. intros [(l1 & l2 & E & Hl2) HQ]. rewrite app_nil_r in Hl2. eauto. }
  induction fuel as [|fuel IH]; intros l rest s D Hf Hlink Hval HJ HD Hlock; [lia|]. cbn [walk_back].
  destruct l as [|x l _] using rev_ind.
  - rewrite bool_decide_eq_true_2 by done. apply wp_ret. by split.
  - rewrite lastd_snoc. assert (Hx : x ∈ l ++ [x]) by (apply elem_of_app; right; left).
    rewrite bool_decide_eq_false_2 by (apply valid_not_end, Hval, Hx).
    apply wp_bind. eapply wp_mono; [by apply Hlock|]. intros [a|] s' [Hs' H]; cbn.
    + apply wp_ret. split; [|done]. exists l, []. split; [done|]. intros y Hy. by eapply Hup, HD.
    + destruct H as [HJ' HRx]. rewrite <- app_assoc in Hlink. destruct (link_lookup _ _ _ _ _ _ Hlink) as (n & Hn & Hp & _).
      apply wp_bind. unfold on_lrus, on_cache. unfold wp at 1. unfold on_lru.
      rewrite <- (HJms s' HJ') in Hn. unfold node_of, load. cbn [lru_of nodes]. rewrite Hn. cbn. rewrite put_lru_same.
      replace (with_cache (sp_cache s') s') with s' by (by destruct s'). cbn in Hp. rewrite Hp.
      eapply wp_mono; [apply (IH l (x :: rest) s' (x :: D)); try done|].
      * rewrite length_app in Hf. cbn in Hf. lia.
      * intros y Hy. apply Hval, elem_of_app. by left.
      * intros y [->|Hy]%elem_of_cons; [done|by eapply Hup, HD].
      * intros y s2 Hy. apply Hlock. apply elem_of_app. by left.
      * intros [[y a]|] s2.
        { intros [(l1 & l2 & -> & Hl2) HQ]. split; [|done]. exists l1, (l2 ++ [x]). rewrite <- app_assoc. split; [done|].
          intros z. rewrite <- app_assoc. apply Hl2. }
        intros [HJ2 HR]. split; [done|]. intros y. rewrite <- app_assoc. apply HR.
Qed.

Lemma walk_back_wp {A} (lock : Z -> EV (option A)) (J : space C -> Prop) (R : Z -> Prop) (Q : Z -> A -> space C -> Prop) ms :
  (forall s, J s -> nodes (lru (sp_cache s)) = ms) ->
  forall fuel l rest s, (length l < fuel)%nat -> link ms end_marker (l ++ rest) end_marker -> (forall x, x ∈ l -> valid_line x) -> J s ->
  (forall x s, x ∈ l -> J s -> wp (lock x) (fun r s' => match r with Some a => Q x a s' | None => J s' /\ R x end) s) ->
  wp (walk_back block_4k line_size fuel lock (lastd end_marker l))
    (fun r s' => match r with
                 | Some (x, a) => (exists l1 l2, l = l1 ++ x :: l2 /\ forall y, y ∈ l2 -> R y) /\ Q x a s'
                 | None => J s' /\ forall x, x ∈ l -> R x
                 end) s.
Proof.
  intros HJms fuel l rest s Hf Hlink Hval HJ Hlock.
  apply (walk_back_up lock J (fun _ _ => True) (fun _ => R) Q ms HJms) with (rest := rest); try done.
  intros x s1 Hx H1. eapply wp_mono; [by apply Hlock|]. intros r s2 H2. by split.
Qed.
End EvictIter.
