(* ===== verification/EvictTake.v ===== *)
(** * Taking a cache line for a request

    One line leaves the free list or its core line and becomes the line of an
    entry of the request: the steps of the code on lists, bits, mapping and
    counters together keep [cache_inv]. *)

From S2P Require Import Prelude Alock AlockProofs CacheLineLock CacheLineLockProofs Links Lru LruProofs LruSeq Generator LruPart LruPartProofs.
From S2P Require Import Collision CollisionProofs Status StatusProofs Request RequestProofs CacheLine CacheLineProofs CacheLineSteps Engine EngineProofs PartMove.
From S2P Require Import IndexList HashLock IoClass Evict EvictIter.
Open Scope Z_scope.

Section EvictTake.
Context {C : Type} `{!CleaningPolicy C}.
Context (block_4k : bool) (line_size : cache_line_size) (num_entries ENTRIES : Z).
Abbreviation lru_of := (lru_of block_4k line_size).
Abbreviation line_dirty := (line_dirty block_4k line_size).
Abbreviation inv := (cache_inv (C:=C) block_4k line_size num_entries).
Implicit Types (c : cache C) (m : gmap core_info Z).

(** ** The lists *)

(** Line [x] is now in partition [dst], clean. *)
Record lru_taken (l l' : lru_cache) (σ σ' : listing) (x dst : Z) : Prop := {
  lt_inv : part_inv l' σ';
  lt_label : relabelled l l' x dst;
  lt_others k y : y <> x -> y ∈ σ k -> y ∈ σ' k;
  lt_line : x ∈ σ' (line_key x false dst)
}.

(** A clean line in a list of partition [p] is in its list. *)
Lemma listed_key l σ p i b x : part_inv l σ -> x ∈ σ (p, i, b) -> exists n d, nodes l !! x = Some n /\ LruPart.dirty l !! x = Some d /\
  partition_id n = part_id p /\ (p, i, b) = line_key x d p.
Proof.
  intros HI Hx. destruct (pi_placed _ _ HI _ _ Hx) as (n & d & q & Hn & Hd & Hq & Ek).
  exists n, d. assert (q = p) as -> by (unfold line_key in Ek; congruence). done.
Qed.

Lemma take_repart l σ x src dst (Q : unit -> lru_cache -> Prop) :
  part_inv l σ -> part_ready l src -> part_ready l dst -> 0 <= dst < OCF_USER_IO_CLASS_MAX ->
  LruPart.dirty l !! x = Some false -> x ∈ σ (line_key x false src) ->
  (forall l' σ', lru_taken l l' σ σ' x dst -> Q tt l') -> wp (ocf_lru_repart_locked x src dst) Q l.
Proof.
  intros HI Hs Hd Hdst Hdx Hx HQ. eapply wp_mono; [exact (repart_wp l σ x false src dst HI Hs Hd Hdx Hx)|].
  intros [] l' [HI' Hrel]. rewrite part_id_user in Hrel by lia. eapply HQ. split; [exact HI'|exact Hrel| |apply moved_head].
  intros k y Hne Hy. by apply moved_other.
Qed.

Lemma take_hot l σ x dst (Q : unit -> lru_cache -> Prop) :
  part_inv l σ -> part_ready l dst -> 0 <= dst < OCF_USER_IO_CLASS_MAX ->
  LruPart.dirty l !! x = Some false -> x ∈ σ (line_key x false dst) ->
  (forall l' σ', lru_taken l l' σ σ' x dst -> Q tt l') -> wp (on_list (line_key x false dst) (ocf_lru_set_hot x)) Q l.
Proof.
  intros HI Hr Hdst Hdx Hx HQ. set (k := line_key x false dst) in *. pose proof (pi_rep _ _ HI) as HR.
  destruct (lists_rep_is_Some _ _ _ _ HR Hx) as [L HL]. pose proof (rep_list _ _ HR _ _ HL) as Hseq.
  eapply set_hot_on_wp; [exact HR|exact Hx|]. intros l' HR' Hsame _.
  assert (HI' : part_inv l' (upd k (x :: without x (σ k)) σ)).
  { unfold k, line_key. eapply part_inv_reorder; [exact HI|exact HR'|exact Hsame|apply lru_list_index_in| |].
    - eapply length_to_front; [by eapply lru_seq_nodup|exact Hx].
    - intros y [->|[_ Hy]%elem_of_without]%elem_of_cons; done. }
  eapply HQ. split; [exact HI'| | |by rewrite upd_eq; left].
  - destruct (pi_placed _ _ HI _ _ Hx) as (n & d & q & Hn & _ & Hq & Ek). unfold k in Ek. apply line_key_inj in Ek as <-.
    split; [|intros y _; apply (same_parts _ _ Hsame)|by apply same_dirty|intros q; by apply ready_same_rest].
    rewrite (same_parts _ _ Hsame), Hn. cbn. by rewrite Hq, part_id_user by lia.
  - intros k' y Hne Hy. unfold upd. case_decide; [subst k'; right; by apply elem_of_without|done].
Qed.

(** ** The cache *)

(** What is counted, without line [x]. *)
Definition less (b : bool) (r : core_runtime) (part : Z) (p : part_counter) : core_runtime :=
  CoreRuntime (cached_clines r - Z.b2z b) (dirty_clines r) (dirty_since r)
    (<[part := PartCounter (pc_cached_clines p - Z.b2z b) (pc_dirty_clines p)]> (part_counters r)).

Lemma count_cleared own own' (s : status_table) what x st :
  s !! x = Some st -> (forall y, y <> x -> own' y = own y) ->
  count (counted what own') (<[x := MapStatus 0 0]> s) = count (counted what own) s - Z.b2z (own x && nonzero what st).
Proof.
  intros Hx Ho. rewrite (count_step (counted what own) (counted what own') s x st) by (try done; intros y s' Hy; unfold counted; by rewrite Ho).
  unfold counted, nonzero. rewrite (bool_decide_eq_false_2 (get_field what (MapStatus 0 0) <> 0)) by (destruct what; cbn; intros H; by apply H).
  rewrite andb_false_r. cbn. lia.
Qed.

(** What the line held before: nothing, or a core line, with its partition. *)
Definition held c m (x : Z) (old : option (core_info * Z)) : Prop :=
  match old with
  | None => forall ci, m !! ci <> Some x
  | Some (o, src) => m !! o = Some x /\ partition_id <$> nodes (lru c) !! x = Some src
  end.
Definition forget (old : option (core_info * Z)) m : gmap core_info Z :=
  match old with None => m | Some (o, _) => delete o m end.

(** The line [x], clean and valid if it was mapped, is now the line of [ci]. *)
Record replaced c c' β β' m σ σ' (x : Z) (old : option (core_info * Z)) (ci : core_info) (dst : Z) : Prop := {
  rp_held : held c m x old;
  rp_status : exists st, statuses c !! x = Some st /\ dirty st = 0 /\ (old <> None -> valid st <> 0) /\
    statuses c' = <[x := MapStatus 0 0]> (statuses c);
  rp_map : mapping (mapping_of c') β' (<[ci := x]> (forget old m));
  rp_mapped y : y <> x -> mapped β' y <-> mapped β y;
  rp_entries : collision_table_entries (mapping_of c') = collision_table_entries (mapping_of c);
  rp_infos : core_infos (mapping_of c') = <[x := ci]> (core_infos (mapping_of c));
  rp_lists : lru_taken (lru_of c) (lru_of c') σ σ' x dst;
  rp_cores : match old with
             | None => cores c' = cores c
             | Some (o, src) => exists r p, cores c !! core_id o = Some r /\ part_counters r !! src = Some p /\
                 cores c' = <[core_id o := less true r src p]> (cores c)
             end
}.

Lemma clean_line_dirty : line_dirty (MapStatus 0 0) = false.
Proof.
  rewrite line_dirty_bits; [done|]. pose proof (blocks_field block_4k line_size).
  split; cbn; split; try lia; apply Z.pow_pos_nonneg; lia.
Qed.

Lemma inv_replaced c c' β β' m σ σ' x old ci dst :
  inv c β m σ -> replaced c c' β β' m σ σ' x old ci dst -> 0 <= dst < OCF_USER_IO_CLASS_MAX ->
  part_ready (lru_of c) dst -> core_ready (cores c) (core_id ci) ->
  inv c' β' (<[ci := x]> (forget old m)) σ'.
Proof.
  intros HI [Hheld (st & Hst & Hd0 & Hv & Es) Hmap Hmy Een Einf [HL [Hlab Hoth Hdirty Hready] Hlo Hlx] Hcores] Hdst Hrdy Hcore.
  assert (Hlab' : partition_id <$> nodes (lru c') !! x = Some dst) by exact Hlab.
  assert (Hoth' : forall y, y <> x -> partition_id <$> nodes (lru c') !! y = partition_id <$> nodes (lru c) !! y) by exact Hoth.
  assert (Hmx : mapped β' x).
  { assert (H : <[ci := x]> (forget old m) !! ci = Some x) by apply lookup_insert_eq. by apply (proj2 Hmap) in H as [? _]. }
  assert (Hof : forall core y, y <> x -> of_core (mapping_of c') core y = of_core (mapping_of c) core y).
  { intros core y Hne. unfold of_core. by rewrite Einf, lookup_insert_ne. }
  assert (Hpt : forall part y, y <> x -> of_part (lru c') part y = of_part (lru c) part y) by (intros; apply of_part_ext; auto).
  assert (Hkept : cores_kept (cores c) (cores c')).
  { destruct old as [[o src]|]; [|rewrite Hcores; by intros k]. destruct Hcores as (r & p & Hr & Hp & ->).
    eapply cores_kept_set; [exact Hr|]. intros q Hq. cbn. rewrite lookup_insert_is_Some'. auto. }
  split.
  - exact Hmap.
  - rewrite Een. apply (ci_entries _ _ _ _ _ _ _ HI).
  - exact HL.
  - apply Hready, (ci_free _ _ _ _ _ _ _ HI).
  - intros y Hy. apply (ci_line _ _ _ _ _ _ _ HI). rewrite Es, lookup_insert_is_Some' in Hy. destruct Hy as [<-|]; [by eexists|done].
  - intros y Hy. destruct (ci_total _ _ _ _ _ _ _ HI y Hy) as [H1 H2]. rewrite Es, lookup_insert_is_Some'. split; [by right|].
    exact (relabelled_some (lru_of c) (lru_of c') x dst y ltac:(by split) H2).
  - intros y s. rewrite Es, lookup_insert. case_decide as E; [|apply (ci_bits _ _ _ _ _ _ _ HI)]. intros [= <-]. split.
    + pose proof (blocks_field block_4k line_size). split; cbn; split; try lia; apply Z.pow_pos_nonneg; lia.
    + intros j _. cbn. by rewrite Z.bits_0.
  - intros y s. rewrite Es, lookup_insert. case_decide as E; [by intros [= <-]|]. intros Hy Hny. apply (ci_idle _ _ _ _ _ _ _ HI y s Hy).
    by rewrite <- Hmy.
  - intros y n Hn. destruct (decide (y = x)) as [->|Hne].
    + rewrite Hn in Hlab'. injection Hlab' as ->. split; [|done]. intros _. unfold PARTITION_FREELIST, OCF_USER_IO_CLASS_MAX in *. lia.
    + rewrite Hmy by done. destruct (label_ext _ _ _ _ (Hoth' y Hne) Hn) as (n0 & Hn0 & <-). by apply (ci_label _ _ _ _ _ _ _ HI).
  - intros y Hy. destruct (decide (y = x)) as [->|Hne].
    + apply fmap_Some in Hlab' as (n & Hn & En). exists (MapStatus 0 0), n. split; rewrite <- ?En; try done.
      * by rewrite Es, lookup_insert_eq.
      * by apply Hready.
    + apply Hmy in Hy; [|done]. destruct (ci_home _ _ _ _ _ _ _ HI y Hy) as (s & n0 & [H1 H2 H3 H4 H5]).
      pose proof (Hoth' y Hne) as Hly. rewrite H2 in Hly. apply fmap_Some in Hly as (n1 & Hn1 & En).
      exists s, n1. split; rewrite <- ?En; try done; [by rewrite Es, lookup_insert_ne|by apply Hlo|by apply Hready].
  - intros ci' y Hy. apply Hkept. apply lookup_insert_Some in Hy as [[<- _]|[_ Hy]]; [done|].
    assert (Hy' : m !! ci' = Some y) by (destruct old as [[o src]|]; cbn [forget] in Hy; [by apply lookup_delete_Some in Hy as [_ ?]|done]).
    by apply (ci_owner _ _ _ _ _ _ _ HI ci' y).
  - intros core r Hr. unfold counts.
    assert (Hcnt : forall what own own', (forall y, y <> x -> own' y = own y) ->
      count (counted what own') (statuses c') = count (counted what own) (statuses c) - Z.b2z (own x && nonzero what st)).
    { intros what own own' Ho. rewrite Es. by apply count_cleared. }
    assert (Hnd : nonzero Dirty st = false) by (unfold nonzero; cbn; apply bool_decide_eq_false_2; rewrite Hd0; intros H; by apply H).
    assert (Hpair : forall part y, y <> x -> of_core (mapping_of c') core y && of_part (lru c') part y =
      of_core (mapping_of c) core y && of_part (lru c) part y) by (intros part y Hy; by rewrite Hof, Hpt).
    assert (Hsame : forall r0, cores c !! core = Some r0 -> of_core (mapping_of c) core x && nonzero Valid st = false -> counts c' core r0).
    { intros r0 Hr0 Hox. destruct (ci_counts _ _ _ _ _ _ _ HI core r0 Hr0) as (H1 & H2 & H3). unfold counts.
      rewrite !(Hcnt _ _ _ (Hof core)), Hox, Hnd, andb_false_r, H1, H2. cbn [Z.b2z]. split; [lia|]. split; [lia|].
      intros part p Hp. destruct (H3 part p Hp) as [-> ->]. rewrite !(Hcnt _ _ _ (Hpair part)), Hnd, andb_false_r.
      replace (_ && _ && nonzero Valid st) with false; [cbn; lia|].
      destruct (of_core _ core x), (of_part _ part x), (nonzero Valid st); try done. }
    destruct old as [[o src]|].
    + destruct Hheld as [Ho Hsrc], Hcores as (r0 & p0 & Hr0 & Hp0 & Ec).
      destruct (mapped_owner _ _ _ _ _ _ _ _ _ HI Ho) as [_ Hown].
      assert (Hval : nonzero Valid st = true) by (unfold nonzero; cbn; by apply bool_decide_eq_true_2, Hv).
      rewrite Ec in Hr. destruct (decide (core_id o = core)) as [E|Hne].
      * subst core. rewrite lookup_insert_eq in Hr. injection Hr as <-.
        destruct (ci_counts _ _ _ _ _ _ _ HI _ _ Hr0) as (H1 & H2 & H3).
        rewrite !(Hcnt _ _ _ (Hof _)), Hown, bool_decide_eq_true_2, Hval, Hnd by done. cbn [less cached_clines dirty_clines part_counters].
        rewrite H1, H2. cbn [andb Z.b2z]. split; [lia|]. split; [lia|].
        intros part p Hp. rewrite !(Hcnt _ _ _ (Hpair part)), Hown, bool_decide_eq_true_2, Hval, Hnd, !andb_false_r by done.
        rewrite andb_true_r. cbn [andb Z.b2z]. rewrite (label_part _ _ _ part Hsrc). cbn [less part_counters] in Hp.
        destruct (decide (src = part)) as [<-|Hnp].
        -- rewrite lookup_insert_eq in Hp. injection Hp as <-. destruct (H3 _ _ Hp0) as [-> ->]. rewrite bool_decide_eq_true_2 by done. cbn. lia.
        -- rewrite lookup_insert_ne in Hp by done. destruct (H3 _ _ Hp) as [-> ->]. rewrite bool_decide_eq_false_2 by congruence. cbn. lia.
      * rewrite lookup_insert_ne in Hr by done. apply Hsame; [done|]. rewrite Hown, bool_decide_eq_false_2 by done. done.
    + rewrite Hcores in Hr. apply Hsame; [done|].
      destruct (of_core (mapping_of c) core x) eqn:Eo; [|done]. cbn [andb].
      enough (E : st = MapStatus 0 0) by (rewrite E; unfold nonzero; cbn; apply bool_decide_eq_false_2; intros H; by apply H).
      apply (ci_idle _ _ _ _ _ _ _ HI x st Hst). intros Hm.
      unfold of_core in Eo. destruct (core_infos (mapping_of c) !! x) as [cj|] eqn:Ej; [|done].
      apply (Hheld cj). by apply (proj2 (ci_map _ _ _ _ _ _ _ HI)).
Qed.
End EvictTake.
