(* ===== verification/EvictNext.v ===== *)
(** * The next line of an iterator

    What the attempts to lock a line find, and what the iterators give: a line
    that nobody uses, write-locked and moved to the partition of the request,
    or nothing, when every line of the partition's lists is busy. *)

From S2P Require Import Prelude Alock AlockProofs CacheLineLock CacheLineLockProofs Links Lru LruProofs LruSeq Generator LruPart LruPartProofs.
From S2P Require Import Collision CollisionProofs Status StatusProofs Request RequestProofs CacheLine CacheLineProofs CacheLineSteps Engine EngineProofs.
From S2P Require Import IndexList IndexListProofs HashLock IoClass IoClassProofs Evict EvictIter EvictTake.
Open Scope Z_scope.

Section EvictNext.
Context {C : Type} `{!CleaningPolicy C}.
Context (block_4k : bool) (line_size : cache_line_size) (num_entries ENTRIES : Z) (self : Z) (hash_free : nat -> Z -> bool).
Abbreviation EV := (Prelude.M (space C)).
Abbreviation lru_of := (lru_of block_4k line_size).
Abbreviation line_dirty := (line_dirty block_4k line_size).
Abbreviation inv := (cache_inv (C:=C) block_4k line_size num_entries).
Abbreviation request_ok := (request_ok line_size).
Implicit Types (c : cache C) (m : gmap core_info Z) (s : space C).

(** ** The lock table *)

(** A table at rest: no request waits for a line that is idle. *)
Record locks_ok (k : alock) : Prop := {
  lo_word x : 0 <= x < num_entries -> is_Some (access k !! x);
  lo_bucket x : 0 <= x < num_entries -> is_Some (waiters_lsts k !! WAITERS_LIST_ITEM ENTRIES x);
  lo_idle x : access k !! x = Some OCF_CACHE_LINE_ACCESS_IDLE -> filter (fun w => w_entry w = x) (bucket ENTRIES k x) = [];
  lo_self : is_Some (reqs k !! self)
}.

Definition lock_line (x : Z) c : cache C := with_locks (set_access (insert x OCF_CACHE_LINE_ACCESS_WR) (locks c)) c.

Lemma lock_line_ok x c : locks_ok (locks c) -> locks_ok (locks (lock_line x c)).
Proof.
  intros [H1 H2 H3 H4]. split; cbn; [|done| |done].
  - intros y Hy. rewrite lookup_insert_is_Some'. right. auto.
  - intros y. rewrite lookup_insert. case_decide; [done|apply H3].
Qed.

(** [s'] is [s] up to the attempts made and the sizes that the classes know. *)
Definition conf_same (p p' : parts) : Prop :=
  user_parts p' = user_parts p /\ part_config p' = part_config p /\ line_count p' = line_count p.
Definition still s s' : Prop := sp_cache s' = sp_cache s /\ conf_same (sp_parts s) (sp_parts s').
#[global] Instance conf_same_pre : PreOrder conf_same.
Proof. split; [done|]. intros p1 p2 p3 (A1 & A2 & A3) (B1 & B2 & B3). split_and!; congruence. Qed.
#[global] Instance still_pre : PreOrder still.
Proof. split; [done|]. intros s1 s2 s3 [A1 A2] [B1 B2]. split; [congruence|by etrans]. Qed.

Lemma with_same_cache s : with_cache (sp_cache s) s = s.
Proof. by destruct s. Qed.
Lemma with_same_locks c : with_locks (locks c) c = c.
Proof. by destruct c. Qed.

Lemma wp_on_cache {A} (mm : LM (C:=C) A) (Q : A -> space C -> Prop) s :
  wp mm (fun a c => Q a (with_cache c s)) (sp_cache s) -> wp (on_cache mm) Q s.
Proof. unfold wp, on_cache. by destruct (mm (sp_cache s)) as [[a c]|]. Qed.
Lemma wp_on_lrus {A} (mm : LruPart.PM A) (Q : A -> space C -> Prop) s :
  wp mm (fun a l => Q a (with_cache (put_lru l (sp_cache s)) s)) (lru_of (sp_cache s)) -> wp (on_lrus block_4k line_size mm) Q s.
Proof. intros H. by apply wp_on_cache, wp_on_lru. Qed.
Lemma wp_read_lrus {A} (mm : LruPart.PM A) (Q : A -> space C -> Prop) s :
  wp mm (fun a l => l = lru_of (sp_cache s) /\ Q a s) (lru_of (sp_cache s)) -> wp (on_lrus block_4k line_size mm) Q s.
Proof.
  intros H. apply wp_on_lrus. eapply wp_mono; [exact H|]. intros a l [-> HQ]. by rewrite put_lru_same, with_same_cache.
Qed.
Lemma wp_on_locks {A} (mm : Alock.M A) (Q : A -> space C -> Prop) s :
  wp mm (fun a k => Q a (with_cache (with_locks k (sp_cache s)) s)) (locks (sp_cache s)) -> wp (on_locks mm) Q s.
Proof.
  intros H. apply wp_on_cache. unfold wp, on_lock in *. by destruct (mm (locks (sp_cache s))) as [[a k]|].
Qed.

(** ** Locking lines *)

Lemma try_lock_wp x v s (Q : bool -> space C -> Prop) :
  access (locks (sp_cache s)) !! x = Some v ->
  (if decide (v = OCF_CACHE_LINE_ACCESS_IDLE) then Q true (with_cache (lock_line x (sp_cache s)) s) else Q false s) ->
  wp (try_lock_wr x) Q s.
Proof.
  intros Hv HQ. apply wp_on_locks. unfold wp, ocf_cache_line_try_lock_wr, ocf_alock_trylock_entry_wr, access_cmpxchg, access_read, access_set.
  m_unfold. rewrite Hv. destruct (decide (v = OCF_CACHE_LINE_ACCESS_IDLE)) as [->|Hne]; m_unfold.
  - exact HQ.
  - rewrite !(bool_decide_eq_false_2 _ Hne). by rewrite with_same_locks, with_same_cache.
Qed.

Lemma unlock_line_wp c x s (Q : unit -> space C -> Prop) :
  locks_ok (locks c) -> 0 <= x < num_entries -> access (locks c) !! x = Some OCF_CACHE_LINE_ACCESS_IDLE ->
  sp_cache s = lock_line x c -> Q tt (with_cache c s) -> wp (unlock_wr ENTRIES x) Q s.
Proof.
  intros Hl Hx Hv Es HQ. apply wp_on_locks. rewrite Es. unfold wp.
  change (ocf_cache_line_unlock_wr ENTRIES x) with (unlock_one_line ENTRIES OCF_WRITE x).
  rewrite unlock_quiet_run; [|cbn; by rewrite lookup_insert_eq|by apply (lo_idle _ Hl)].
  destruct (lo_bucket _ Hl x Hx) as [l Hb].
  replace (with_locks _ (lock_line x c)) with c; [exact HQ|]. destruct c as [s0 m0 l0 c0 [ac ws wt rq al rs] cl cr q].
  cbn in *. unfold with_locks, set_access, set_lsts. cbn. rewrite insert_insert_eq, insert_id by done.
  unfold bucket. cbn. rewrite Hb. cbn. by rewrite insert_id.
Qed.

Lemma no_waiters_wp c x s (Q : bool -> space C -> Prop) :
  locks_ok (locks c) -> 0 <= x < num_entries -> access (locks c) !! x = Some OCF_CACHE_LINE_ACCESS_IDLE ->
  sp_cache s = lock_line x c -> Q false s -> wp (are_waiters num_entries ENTRIES x) Q s.
Proof.
  intros Hl Hx Hv Es HQ. apply wp_on_locks. unfold wp, ocf_cache_line_are_waiters, ocf_alock_waitlist_is_empty. m_unfold.
  rewrite bool_decide_eq_false_2 by lia. unfold ocf_alock_waitlist_is_empty_locked. m_unfold.
  rewrite negb_involutive, with_same_locks, with_same_cache. replace (existsb _ _) with false; [exact HQ|].
  symmetry. apply not_true_iff_false. intros (w & Hw & He)%existsb_exists. apply bool_decide_eq_true_1 in He.
  assert (Hin : w ∈ filter (fun w => w_entry w = x) (bucket ENTRIES (locks c) x)).
  { apply list_elem_of_filter. split; [done|]. rewrite Es in Hw. by apply list_elem_of_In. }
  rewrite (lo_idle _ Hl x Hv) in Hin. by apply not_elem_of_nil in Hin.
Qed.

(** ** Locks of hash buckets *)

Lemma span_some r : request_ok r -> forall entries, is_Some (HashLock.req_span entries r).
Proof.
  intros Hok entries. destruct (request_ok_lines block_4k line_size r Hok) as (_ & Hn & _). pose proof (ro_map _ _ Hok) as Hlen.
  unfold HashLock.req_span. destruct (lookup_lt_is_Some_2 (req_map r) 0) as [e0 ->]; [lia|]. cbn.
  destruct (lookup_lt_is_Some_2 (req_map r) (Z.to_nat (u32 (core_line_count r - 1)))) as [e1 ->]; [rewrite wrap_small; lia|]. by eexists.
Qed.

Lemma hash_locked_wp it ci s (Q : bool -> space C -> Prop) :
  request_ok (request (sp_cache s)) -> (forall b, Q b s) -> wp (hash_locked it ci) Q s.
Proof.
  intros Hok HQ. unfold hash_locked. destruct (it_hash_locked it); [|by apply wp_ret].
  destruct (span_some _ Hok (hash_table_entries (mapping_of (sp_cache s)))) as [sp Hsp].
  apply wp_bind, wp_gets. apply wp_bind. eapply wp_load; [exact Hsp|]. apply wp_ret, HQ.
Qed.

(** The attempts made so far. *)
Definition later s s' : Prop := (sp_tries s <= sp_tries s')%nat.

Section Hash.
Context c β m σ (HI : inv c β m σ) (Hok : request_ok (request c)).

Lemma hash_fine ci : bool_decide (ocf_metadata_hash_func (hash_table_entries (mapping_of c)) (core_line ci) (core_id ci) >=
  hash_table_entries (mapping_of c)) = false.
Proof.
  apply bool_decide_eq_false_2. pose proof (hash_func_range (hash_table_entries (mapping_of c)) (core_id ci) (core_line ci)
    (wb_hash _ _ (proj1 (ci_map _ _ _ _ _ _ _ HI)))). lia.
Qed.

(** The bucket of a core line, and whether the request holds it: the iterator
    says that the buckets of the request are locked, and it is one of them. *)
Definition hash_bucket ci : Z := ocf_metadata_hash_func (hash_table_entries (mapping_of c)) (core_line ci) (core_id ci).
Definition own_bucket (locked : bool) ci : Prop := locked = true /\
  exists span, HashLock.req_span (hash_table_entries (mapping_of c)) (request c) = Some span /\
    HashLock.ocf_req_hash_in_range span (core_id ci) (core_line ci) = true.
(** An attempt among the [lo .. hi - 1] to lock the bucket of [ci] had the answer
    [b]. *)
Definition tried (b locked : bool) (lo hi : nat) ci : Prop := ~ own_bucket locked ci /\
  exists n, (lo <= n < hi)%nat /\ hash_free n (hash_bucket ci) = b.

Lemma tried_more b locked lo lo' hi hi' ci : (lo' <= lo)%nat -> (hi <= hi')%nat -> tried b locked lo hi ci -> tried b locked lo' hi' ci.
Proof. intros H1 H2 (Hno & n & Hn & Hb). split; [done|]. exists n. split; [lia|done]. Qed.

Lemma trylock_hash_wp it ci s (Q : bool -> space C -> Prop) :
  mapping_of (sp_cache s) = mapping_of c -> request (sp_cache s) = request c ->
  (forall b s', still s s' -> later s s' ->
     (if b : bool then own_bucket (it_hash_locked it) ci \/ tried true (it_hash_locked it) (sp_tries s) (sp_tries s') ci
      else tried false (it_hash_locked it) (sp_tries s) (sp_tries s') ci) -> Q b s') ->
  wp (_lru_trylock_hash hash_free it ci) Q s.
Proof.
  intros Em Er HQ. destruct (span_some _ Hok (hash_table_entries (mapping_of c))) as [sp Hsp].
  assert (Htry : ~ own_bucket (it_hash_locked it) ci -> wp (hb_cline_naked_trylock_wr hash_free ci) Q s).
  { intros Hno. apply wp_bind, wp_gets. cbv zeta. apply wp_bind, wp_bug_on; [rewrite Em; apply hash_fine|].
    apply wp_bind, wp_gets. apply wp_bind, wp_modify. apply wp_ret. rewrite Em. fold (hash_bucket ci).
    assert (Ht : tried (hash_free (sp_tries s) (hash_bucket ci)) (it_hash_locked it) (sp_tries s) (S (sp_tries s)) ci).
    { split; [done|]. exists (sp_tries s). split; [lia|done]. }
    apply HQ; [done|unfold later; cbn; lia|]. cbn [sp_tries with_tries]. destruct (hash_free _ _); [by right|done]. }
  unfold _lru_trylock_hash, hash_locked. destruct (it_hash_locked it) eqn:El.
  - apply wp_bind, wp_bind, wp_gets, wp_bind. eapply wp_load; [rewrite Em, Er; exact Hsp|]. apply wp_ret.
    destruct (HashLock.ocf_req_hash_in_range sp (core_id ci) (core_line ci)) eqn:Hin.
    + apply wp_ret, HQ; [done|unfold later; lia|]. left. split; [done|]. by exists sp.
    + apply Htry. intros (_ & sp' & Hsp' & Hin'). congruence.
  - apply wp_bind, wp_ret, Htry. by intros [? _].
Qed.

Lemma unlock_hash_wp it ci s (Q : unit -> space C -> Prop) :
  hash_table_entries (mapping_of (sp_cache s)) = hash_table_entries (mapping_of c) -> request (sp_cache s) = request c -> Q tt s ->
  wp (_lru_unlock_hash it ci) Q s.
Proof.
  intros Em Er HQ. apply wp_bind, hash_locked_wp; [by rewrite Er|]. intros [|]; [by apply wp_ret|].
  apply wp_bind, wp_gets. apply wp_bug_on; [rewrite Em; apply hash_fine|done].
Qed.

(** ** A line to evict *)

(** Why a line is not taken: it is in use, of the request, or its bucket is
    locked by somebody else: an attempt to lock it has just failed. *)
Definition busy (locked : bool) (lo hi : nat) (x : Z) : Prop :=
  access (locks c) !! x <> Some OCF_CACHE_LINE_ACCESS_IDLE \/
  exists ci, core_infos (mapping_of c) !! x = Some ci /\
    (in_request_range ci (request c) = true \/ tried false locked lo hi ci).

Lemma busy_more locked lo lo' hi hi' x : (lo' <= lo)%nat -> (hi <= hi')%nat -> busy locked lo hi x -> busy locked lo' hi' x.
Proof.
  intros H1 H2 [?|(ci & Hci & [?|Ht])]; [by left|right; exists ci; by split; [|left]|].
  right. exists ci. split; [done|]. right. by eapply tried_more.
Qed.

Definition free_to_take (x : Z) (ci : core_info) : Prop :=
  access (locks c) !! x = Some OCF_CACHE_LINE_ACCESS_IDLE /\ core_infos (mapping_of c) !! x = Some ci /\
  in_request_range ci (request c) = false.

Lemma eviction_lock_wp it x s (Q : option core_info -> space C -> Prop) :
  locks_ok (locks c) -> 0 <= x < num_entries -> sp_cache s = c ->
  (forall s', still s s' -> later s s' -> busy (it_hash_locked it) (sp_tries s) (sp_tries s') x -> Q None s') ->
  (forall ci s', sp_cache s' = lock_line x c -> conf_same (sp_parts s) (sp_parts s') -> later s s' -> free_to_take x ci ->
     own_bucket (it_hash_locked it) ci \/ tried true (it_hash_locked it) (sp_tries s) (sp_tries s') ci -> Q (Some ci) s') ->
  wp (_lru_iter_eviction_lock num_entries ENTRIES hash_free it x) Q s.
Proof.
  intros Hl Hx Es HN HS. destruct (lo_word _ Hl x Hx) as [v Hv].
  destruct (wb_total _ _ (proj1 (ci_map _ _ _ _ _ _ _ HI)) x) as [_ [ci Hci]]; [rewrite <- (ci_entries _ _ _ _ _ _ _ HI); lia|].
  apply wp_bind. eapply try_lock_wp; [rewrite Es; exact Hv|]. case_decide as Hidle; cbn [negb].
  2: { apply wp_ret, HN; [done|by unfold later|]. left. congruence. }
  subst v. rewrite Es. apply wp_bind, wp_on_cache, wp_on_map. eapply wp_load; [exact Hci|].
  set (s1 := with_cache _ _). assert (E1 : sp_cache s1 = lock_line x c) by (subst s1; by destruct c).
  assert (C1 : conf_same (sp_parts s) (sp_parts s1)) by done. assert (T1 : sp_tries s1 = sp_tries s) by done. clearbody s1.
  assert (Hback : forall s2, sp_cache s2 = lock_line x c -> conf_same (sp_parts s1) (sp_parts s2) -> later s s2 ->
    busy (it_hash_locked it) (sp_tries s) (sp_tries s2) x -> wp (_ ← unlock_wr ENTRIES x; mret None) Q s2).
  { intros s2 E2 C2 H2 Hb. apply wp_bind. eapply unlock_line_wp; [exact Hl|done|exact Hv|exact E2|]. apply wp_ret, HN; [|done..].
    split; [done|]. etrans; [exact C1|exact C2]. }
  apply wp_bind, wp_gets. rewrite E1. change (request (lock_line x c)) with (request c).
  destruct (in_request_range ci (request c)) eqn:Hown.
  { apply Hback; [done|done|unfold later; lia|]. right. exists ci. split; [done|by left]. }
  apply wp_bind. eapply trylock_hash_wp; [by rewrite E1|by rewrite E1|]. intros b s2 [E2 C2] L2. rewrite T1. unfold later in L2. rewrite T1 in L2.
  destruct b; intros Hh; cbn [negb].
  2: { apply Hback; [by rewrite E2|done|done|]. right. exists ci. split; [done|by right]. }
  rewrite <- E2 in E1. apply wp_bind. eapply no_waiters_wp; [exact Hl|done|exact Hv|exact E1|].
  apply wp_ret, HS; [done| |done|done|done]. etrans; [exact C1|exact C2].
Qed.

(** ** Taking the line *)

Lemma line_key_user x p : 0 <= p < OCF_USER_IO_CLASS_MAX -> forall b, line_key x b p = (p, lru_list_index x, negb b).
Proof.
  intros Hp b. unfold line_key. rewrite part_id_user by lia. rewrite bool_decide_eq_false_2; [done|].
  unfold PARTITION_FREELIST. lia.
Qed.

(** A line of a clean list is clean. *)
Lemma listed_clean x p j : p <> PARTITION_FREE_DETACHED -> x ∈ σ (p, j, true) ->
  0 <= x < num_entries /\ (p, j, true) = line_key x false p /\ LruPart.dirty (lru_of c) !! x = Some false /\
  partition_id <$> nodes (lru c) !! x = Some p /\ exists st, statuses c !! x = Some st /\ Status.dirty st = 0.
Proof.
  intros Hp Hx. destruct (listed_key _ _ _ _ _ _ (ci_lru _ _ _ _ _ _ _ HI) Hx) as (n & d & Hn & Hd & Hid & Ek).
  assert (Hpid : part_id p = p) by (unfold part_id; by rewrite bool_decide_eq_false_2). rewrite Hpid in Hid.
  change (LruPart.dirty (lru_of c)) with (line_dirty <$> statuses c) in Hd; rewrite lookup_fmap in Hd.
  apply fmap_Some in Hd as (st & Hst & ->). destruct (ci_bits _ _ _ _ _ _ _ HI x st Hst) as [Hb _].
  assert (Hcl : line_dirty st = false).
  { destruct (decide (p = PARTITION_FREELIST)) as [->|Hne].
    - rewrite (ci_idle _ _ _ _ _ _ _ HI x st Hst); [apply clean_line_dirty|]. rewrite (ci_label _ _ _ _ _ _ _ HI x n Hn). tauto.
    - unfold line_key in Ek. rewrite Hpid, bool_decide_eq_false_2 in Ek by done. by destruct (line_dirty st). }
  split; [by apply (ci_line _ _ _ _ _ _ _ HI); eexists|]. rewrite Hcl in Ek. split; [done|]. split.
  { change (LruPart.dirty (lru_of c)) with (line_dirty <$> statuses c). rewrite lookup_fmap, Hst. exact (f_equal Some Hcl). }
  split; [change (partition_id <$> nodes (lru_of c) !! x = Some p); by rewrite Hn, <- Hid|]. exists st. split; [done|].
  rewrite line_dirty_bits in Hcl by done. unfold nonzero in Hcl. apply bool_decide_eq_false_1 in Hcl. cbn in Hcl. lia.
Qed.

(** The iterators' partition [p] and the request's partition [dst]. *)
Context (Hl : locks_ok (locks c)) (p dst : Z).
Context (Hp : p <> PARTITION_FREE_DETACHED) (Hsrc : part_ready (lru_of c) p).
Context (Hdst : 0 <= dst < OCF_USER_IO_CLASS_MAX) (Hdr : part_ready (lru_of c) dst).

(** What is known once line [x] is taken. *)
Definition moved_to (x : Z) s s' : Prop := conf_same (sp_parts s) (sp_parts s') /\
  exists l' σ', sp_cache s' = put_lru l' (lock_line x c) /\ lru_taken (lru_of c) l' σ σ' x dst.

Lemma take_line_wp kl x q s (Q : unit -> space C -> Prop) :
  sp_cache s = lock_line x c -> part_ready (lru_of c) q ->
  LruPart.dirty (lru_of c) !! x = Some false -> x ∈ σ (line_key x false q) ->
  (q = dst -> wp kl (fun k s' => k = line_key x false q /\ s' = s) s) ->
  (forall s', moved_to x s s' -> sp_tries s' = sp_tries s -> Q tt s') -> wp (take_line block_4k line_size kl x q dst) Q s.
Proof.
  intros Es Hq Hd Hx Hk HQ. pose proof (ci_lru _ _ _ _ _ _ _ HI) as HL.
  assert (El : lru_of (sp_cache s) = lru_of c) by (rewrite Es; done). unfold take_line.
  assert (Hend : forall l' σ', lru_taken (lru_of c) l' σ σ' x dst -> Q tt (with_cache (put_lru l' (sp_cache s)) s)).
  { intros l' σ' Ht. apply HQ; [|done]. split; [done|]. exists l', σ'. cbn. by rewrite Es. }
  destruct (decide (dst = q)) as [<-|Hne].
  - rewrite bool_decide_eq_false_2 by tauto. apply wp_bind. eapply wp_mono; [by apply Hk|]. intros k s1 [-> ->].
    apply wp_on_lrus. rewrite El. eapply (take_hot _ σ); eauto.
  - rewrite bool_decide_eq_true_2 by done. apply wp_on_lrus. rewrite El. eapply (take_repart _ σ); eauto.
Qed.

(** ** The next line *)

Lemma seen_still s s' : still s s' -> sp_cache s = c -> sp_cache s' = c.
Proof. intros [-> _] ->. done. Qed.

Lemma lists_index j : 0 <= j < 32 -> j ∈ lru_lists_idx.
Proof.
  intros Hj. unfold lru_lists_idx. apply list_elem_of_fmap. exists (Z.to_nat j). split; [lia|]. apply elem_of_seq.
  unfold OCF_NUM_LRU_LISTS. lia.
Qed.

Lemma get_list_wp b j L s (Q : list_key -> space C -> Prop) :
  b = true \/ p <> PARTITION_FREELIST -> sp_cache s = c -> lists (lru_of c) !! (p, j, b) = Some L -> Q (p, j, b) s ->
  wp (on_lrus block_4k line_size (ocf_lru_get_list p j b)) Q s.
Proof.
  intros Hb Es HL HQ. apply wp_read_lrus. unfold ocf_lru_get_list. rewrite Es. apply wp_bind.
  assert (Hid : part_id p = p) by (unfold part_id; by rewrite bool_decide_eq_false_2). rewrite Hid.
  replace (if bool_decide (p = PARTITION_FREELIST) then true else b) with b by (case_bool_decide; [by destruct Hb|done]).
  eapply wp_load; [exact HL|]. by apply wp_ret.
Qed.

(** [x] is the line nearest to the tail of list [j], the least recently used one,
    that is not excluded by [R]. *)
Definition last_but (R : Z -> Prop) (x j : Z) : Prop := exists l1 l2, σ (p, j, true) = l1 ++ x :: l2 /\ forall y, y ∈ l2 -> R y.

(** The walk along list [j] from its tail: [lock] gets lines of the list. *)
Lemma walk_list_wp {A B} (lock : Z -> EV (option A)) (K : list_key -> ocf_lru_list -> option (Z * A) -> EV B)
    (R : space C -> Z -> Prop) j s (Q : B -> space C -> Prop) :
  (forall s1 s2 x, later s1 s2 -> R s1 x -> R s2 x) ->
  sp_cache s = c -> 0 <= j < 32 ->
  (forall x s1, x ∈ σ (p, j, true) -> still s s1 -> later s s1 -> wp (lock x) (fun r s2 => later s1 s2 /\ match r with
     | Some a => forall L, last_but (R s2) x j -> wp (K (p, j, true) L (Some (x, a))) Q s2
     | None => still s s2 /\ R s2 x end) s1) ->
  (forall L s1, still s s1 -> later s s1 -> (forall x, x ∈ σ (p, j, true) -> R s1 x) -> wp (K (p, j, true) L None) Q s1) ->
  wp (list ← on_lrus block_4k line_size (ocf_lru_get_list p j true);
      L ← on_lrus block_4k line_size (load (fun l : lru_cache => lists l !! list));
      found ← walk_back block_4k line_size (walk_fuel num_entries) lock (tail L); K list L found) Q s.
Proof.
  intros Hup Es Hj Hlock HN. destruct (proj2 Hsrc j true (lists_index j Hj)) as [L HL].
  pose proof (rep_list _ _ (pi_rep _ _ (ci_lru _ _ _ _ _ _ _ HI)) _ _ HL) as Hseq.
  assert (Hrep : link (nodes (lru_of c)) end_marker (σ (p, j, true)) end_marker /\ tail L = lastd end_marker (σ (p, j, true))).
  { pose proof Hseq as H. unfold lru_seq in H. split; [pose proof (rep_link _ _ _ _ H) as Hk|pose proof (rep_tail _ _ _ _ H) as Hk]; by rewrite bal_app in Hk. }
  destruct Hrep as [Hlink Htail].
  apply wp_bind. eapply get_list_wp; [by left|done|exact HL|].
  apply wp_bind, wp_read_lrus. rewrite Es. eapply wp_load; [exact HL|]. split; [done|].
  apply wp_bind. rewrite Htail. eapply wp_mono.
  { apply (walk_back_up block_4k line_size lock (fun s1 => still s s1 /\ later s s1) later R
      (fun x a s2 => forall L, last_but (R s2) x j -> wp (K (p, j, true) L (Some (x, a))) Q s2) (nodes (lru_of c))) with (rest := []).
    - intros s1 [H1 _]. by rewrite (seen_still _ _ H1 Es).
    - exact Hup.
    - unfold walk_fuel. enough (Z.of_nat (length (σ (p, j, true))) <= num_entries) by lia.
      pose proof (ci_entries_bound _ _ _ _ _ _ _ HI). apply lines_bound; [lia|by eapply lru_seq_nodup|].
      intros x Hx. by apply (listed_clean x p j Hp Hx).
    - by rewrite app_nil_r.
    - intros x Hx. by eapply lru_seq_valid.
    - by split; [|unfold later].
    - intros x s1 Hx [H1 L1]. eapply wp_mono; [by apply Hlock|]. intros [a|] s2 [L2 H2]; [done|]. destruct H2 as [H2 HR].
      split; [done|]. split; [|done]. split; [done|]. unfold later in *. lia. }
  intros [[x a]|] s1; [intros [Hfree H]; by apply H|]. intros [[H1 L1] Hb]. by apply HN.
Qed.

Lemma moved_still x s s1 s2 : still s s1 -> moved_to x s1 s2 -> moved_to x s s2.
Proof. intros [_ H1] [H2 H]. split; [by etrans|exact H]. Qed.
Lemma moved_conf x s s1 s2 : conf_same (sp_parts s) (sp_parts s1) -> moved_to x s1 s2 -> moved_to x s s2.
Proof. intros H1 [H2 H]. split; [by etrans|exact H]. Qed.

(** The lines nearer to the tail are all busy: [x] is the least recently used one
    of list [j] that can be taken. *)
Definition last_free (locked : bool) (lo hi : nat) : Z -> Z -> Prop := last_but (busy locked lo hi).

Lemma eviction_next_wp it s (Q : option (Z * core_info) * lru_iter -> space C -> Prop) :
  sp_cache s = c -> iter_ok it -> it_part it = p -> it_clean it = true ->
  (forall it' s', still s s' -> (forall j x, j ∈ avail it -> x ∈ σ (p, j, true) ->
     busy (it_hash_locked it) (sp_tries s) (sp_tries s') x) -> Q (None, it') s') ->
  (forall x ci j it' s', iter_ok it' -> same_iter it it' -> x ∈ σ (p, j, true) ->
     last_free (it_hash_locked it) (sp_tries s) (sp_tries s') x j -> free_to_take x ci ->
     own_bucket (it_hash_locked it) ci \/ tried true (it_hash_locked it) (sp_tries s) (sp_tries s') ci -> moved_to x s s' ->
     Q (Some (x, ci), it') s') ->
  wp (lru_iter_eviction_next block_4k line_size num_entries ENTRIES hash_free it dst) Q s.
Proof.
  intros Es Hit Ep Ec HN HS. unfold lru_iter_eviction_next. set (hl := it_hash_locked it).
  assert (Hmono : forall s1 s2 x, later s1 s2 -> busy hl (sp_tries s) (sp_tries s1) x -> busy hl (sp_tries s) (sp_tries s2) x).
  { intros s1 s2 x H12. by apply busy_more. }
  eapply wp_mono.
  { apply next_lists_up with (it0 := it) (J := fun s1 => still s s1 /\ later s s1) (Up := later)
      (R := fun s1 j => j ∈ avail it -> forall x, x ∈ σ (p, j, true) -> busy hl (sp_tries s) (sp_tries s1) x)
      (Q := fun a it' s' => Q (Some a, it') s').
    3: { enough (length (avail it) <= 32)%nat by (unfold lists_fuel; lia). etrans; [apply length_filter|]. by rewrite length_seqZ. }
    3, 4: done. 3: by split; [|unfold later].
    3: { intros j Hj Hn Hin. done. }
    { intros s1 s2 j H12 Hb Hin x Hx. eapply Hmono; [exact H12|by apply Hb]. }
    intros it1 s1 Hit1 Hsame1 _ [H1 L1]. pose proof Hsame1 as (E1 & E2 & E3 & _). rewrite E1, E3, Ep, Ec.
    pose proof (seen_still _ _ H1 Es) as Es1.
    apply (walk_list_wp _ (fun list L found => _ ← match found with
        | Some (cline, _) => take_line block_4k line_size (mret list) cline p dst
        | None => mret tt
        end; mret (found, it1)) (fun s2 => busy hl (sp_tries s) (sp_tries s2))); [done|done|apply Hit1| |].
    - intros x s2 Hx H2 L2. pose proof (seen_still _ _ H2 Es1) as Es2. destruct (listed_clean x p _ Hp Hx) as (Hxr & Ek & Hxd & _).
      eapply eviction_lock_wp; [done|done|exact Es2|..]; rewrite E2; fold hl; unfold later in *.
      + intros s3 H3 L3 Hb. split; [done|]. split; [by etrans|]. eapply busy_more; [..|exact Hb]; lia.
      + intros ci s3 E3' C3 L3 Hft Htr. split; [done|]. intros L Hlast. apply wp_bind. eapply take_line_wp; [exact E3'|done|exact Hxd|by rewrite <- Ek| |].
        * intros _. by apply wp_ret.
        * intros s4 H4 T4. apply wp_ret. cbn. eapply HS; [exact Hit1|exact Hsame1|exact Hx|by rewrite T4|exact Hft| |].
          { rewrite T4. destruct Htr as [?|Htr]; [by left|right]. eapply tried_more; [..|exact Htr]; lia. }
          eapply moved_still; [etrans; [exact H1|exact H2]|]. by eapply moved_conf.
    - intros L s2 H2 L2 Hb. apply wp_bind, wp_ret, wp_ret. cbn. split; [done|]. split; [|by split; [|intros _]].
      split; [etrans; [exact H1|exact H2]|unfold later in *; lia]. }
  intros [[a|] it'] s'; [done|]. intros ([H1 L1] & Hb & _). apply HN; [done|]. intros j x Hj. apply Hb; [|done].
  by apply avail_elem in Hj as [? _].
Qed.

Lemma free_next_wp it s (Q : option Z * lru_iter -> space C -> Prop) :
  sp_cache s = c -> iter_ok it -> it_part it = p -> dst <> p ->
  (forall it' s', still s s' -> (forall j x, j ∈ avail it -> x ∈ σ (p, j, true) ->
     access (locks c) !! x <> Some OCF_CACHE_LINE_ACCESS_IDLE) -> Q (None, it') s') ->
  (forall x j it' s', iter_ok it' -> same_iter it it' -> x ∈ σ (p, j, true) -> 
     access (locks c) !! x = Some OCF_CACHE_LINE_ACCESS_IDLE -> moved_to x s s' -> Q (Some x, it') s') ->
  wp (lru_iter_free_next block_4k line_size num_entries it dst) Q s.
Proof.
  intros Es Hit Ep Hne HN HS. unfold lru_iter_free_next. rewrite Ep. apply wp_bind, wp_bug_on; [by apply bool_decide_eq_false_2|].
  set (held := fun x => access (locks c) !! x <> Some OCF_CACHE_LINE_ACCESS_IDLE).
  eapply wp_mono.
  { apply next_lists_wp with (it0 := it) (J := still s) (R := fun j => j ∈ avail it -> forall x, x ∈ σ (p, j, true) -> held x)
      (Q := fun a it' s' => Q (Some a, it') s').
    2: { enough (length (avail it) <= 32)%nat by (unfold lists_fuel; lia). etrans; [apply length_filter|]. by rewrite length_seqZ. }
    2, 3, 4: done.
    2: { intros j Hj Hn Hin. done. }
    intros it1 s1 Hit1 Hsame1 _ H1. pose proof Hsame1 as (E1 & E2 & E3 & _). rewrite E1, Ep.
    pose proof (seen_still _ _ H1 Es) as Es1.
    apply (walk_list_wp _ (fun list L found => _ ← match found with
        | Some (cline, _) => on_lrus block_4k line_size (ocf_lru_repart_locked cline p dst)
        | None => mret tt
        end; mret (fst <$> found, it1)) (fun _ => held)); [done|done|apply Hit1| |].
    - intros x s2 Hx H2 _. pose proof (seen_still _ _ H2 Es1) as Es2. destruct (listed_clean x p _ Hp Hx) as (Hxr & Ek & Hxd & _).
      destruct (lo_word _ Hl x Hxr) as [v Hv]. apply wp_bind. eapply try_lock_wp; [rewrite Es2; exact Hv|].
      case_decide as Hidle; apply wp_ret; (split; [by unfold later|]); [|split; [done|]; unfold held; congruence]. subst v. intros L _. rewrite Es2. apply wp_bind.
      assert (Ht : wp (take_line block_4k line_size env_bug x p dst) (fun _ s4 => wp (mret (fst <$> Some (x, tt), it1))
        (fun r s' => match r.1 with Some a => Q (Some a, r.2) s' | None => r.2 = it1 /\ still s s' /\
           (it_lru_idx it1 ∈ avail it -> forall y, y ∈ σ (p, it_lru_idx it1, true) -> held y) end) s4) (with_cache (lock_line x c) s2)).
      { eapply take_line_wp; [done|done|exact Hxd|by rewrite <- Ek|by intros ->|]. intros s4 H4 _. apply wp_ret. cbn.
        eapply HS; [exact Hit1|exact Hsame1|exact Hx|exact Hv|]. eapply moved_conf; [|exact H4]. cbn. transitivity (sp_parts s1); [apply H1|apply H2]. }
      unfold take_line in Ht. by rewrite bool_decide_eq_true_2 in Ht by done.
    - intros L s2 H2 _ Hb. apply wp_bind, wp_ret, wp_ret. cbn. split; [done|]. split; [|by intros _]. etrans; [exact H1|exact H2]. }
  intros [[a|] it'] s'; [done|]. intros (H1 & Hb & _). apply HN; [done|]. intros j x Hj. apply Hb; [|done].
  by apply avail_elem in Hj as [? _].
Qed.

Lemma filter_everything {A} (P : A -> Prop) `{forall x, Decision (P x)} (l : list A) : (forall x, x ∈ l -> P x) -> filter P l = l.
Proof.
  induction l as [|x l IH]; intros Hall; [done|]. rewrite filter_cons, decide_True by (apply Hall; left).
  f_equal. apply IH. intros y Hy. apply Hall. by right.
Qed.

Lemma lists_idx_lookup j : 0 <= j < 32 -> lru_lists_idx !! Z.to_nat j = Some j.
Proof. intros Hj. unfold lru_lists_idx. rewrite list_lookup_fmap, lookup_seq_lt by (unfold OCF_NUM_LRU_LISTS; lia). cbn. f_equal. lia. Qed.

Lemma list_tail L k : lists (lru_of c) !! k = Some L -> tail L = lastd end_marker (σ k).
Proof.
  intros HL. pose proof (rep_list _ _ (pi_rep _ _ (ci_lru _ _ _ _ _ _ _ HI)) _ _ HL) as Hseq. unfold lru_seq in Hseq.
  pose proof (rep_tail _ _ _ _ Hseq) as Hk. by rewrite bal_app in Hk.
Qed.

Lemma iter_init_wp start b hl s (Q : lru_iter -> space C -> Prop) :
  b = true \/ p <> PARTITION_FREELIST -> sp_cache s = c ->
  (forall it, iter_ok it -> it_part it = p -> it_clean it = b -> it_hash_locked it = hl -> avail it = seqZ 0 32 ->
     (forall j, 0 <= j < 32 -> it_curr_cline it !! Z.to_nat j = Some (lastd end_marker (σ (p, j, b)))) -> Q it s) ->
  wp (lru_iter_init block_4k line_size p start b hl) Q s.
Proof.
  intros Hb Es HQ. unfold lru_iter_init. apply wp_bind.
  apply wp_mono with (P := fun (r : list Z) s' => s' = s /\ r = (fun j => lastd end_marker (σ (p, j, b))) <$> lru_lists_idx).
  { assert (Hsub : forall j, j ∈ lru_lists_idx -> j ∈ lru_lists_idx) by done. revert Hsub. generalize lru_lists_idx at 1 3 4.
    intros l. induction l as [|j l IH]; intros Hsub; cbn [foldr]; [by apply wp_ret|].
    destruct (proj2 Hsrc j b (Hsub j ltac:(left))) as [L HL].
    apply wp_bind. eapply get_list_wp; [done|done|exact HL|].
    apply wp_bind, wp_read_lrus. rewrite Es. eapply wp_load; [exact HL|]. split; [done|].
    apply wp_bind. eapply wp_mono; [apply IH; intros k Hk; apply Hsub; by right|]. intros r s' [-> ->]. apply wp_ret. split; [done|].
    cbn. by rewrite (list_tail _ _ HL). }
  intros curr s' [-> ->]. apply wp_ret. set (it := LruIter _ _ _ _ _ _ _ _).
  assert (Hidx : 0 <= it_lru_idx it < 32) by (cbn [it it_lru_idx]; apply Z.mod_pos_bound; done).
  assert (Hav : avail it = seqZ 0 32).
  { unfold avail. apply filter_everything. intros j Hj%elem_of_seqZ. unfold av. cbn [it it_next_avail_lru].
    change (Z.shiftl 1 OCF_NUM_LRU_LISTS - 1) with (Z.ones 32). apply Z.ones_spec_low. apply Z.mod_pos_bound. done. }
  apply HQ; try done.
  - split; [done|done| |done]. rewrite Hav. done.
  - intros j Hj. cbn [it it_curr_cline]. by rewrite list_lookup_fmap, lists_idx_lookup.
Qed.

(** ** The sequential successor *)

(** The configurations of the classes are there, and their list is one. *)
Definition config_there (ps : parts) (x : Z) : Prop := up_config (user_parts ps) !! x = Some x /\ is_Some (part_config ps !! x).
Definition classes_ok (ps : parts) : Prop := exists l, lst_holds ps l /\ forall x, 0 <= x < 34 -> config_there ps x.

Lemma classes_same ps ps' : conf_same ps ps' -> classes_ok ps -> classes_ok ps'.
Proof.
  intros (E1 & E2 & E3) (l & H1 & H2). exists l. split; [by eapply lst_holds_same; [|exact H1]; cbn; rewrite E1|].
  unfold config_there. by rewrite E1, E2.
Qed.

Lemma wp_on_parts {A} (mm : IoClass.PM A) s (Q : A -> space C -> Prop) :
  wp mm (fun a ps => Q a (with_parts ps s)) (parts_now s) -> wp (on_parts mm) Q s.
Proof. unfold wp, on_parts. by destruct (mm (parts_now s)) as [[a ps]|]. Qed.

Lemma wp_config_of q s (Q : ocf_user_part_config -> space C -> Prop) :
  classes_ok (sp_parts s) -> 0 <= q < 34 ->
  (forall cfg s', part_config (sp_parts s) !! q = Some cfg -> still s s' -> Q cfg s') -> wp (on_parts (config_of q)) Q s.
Proof.
  intros (l & _ & Hc) Hq HQ. destruct (Hc q Hq) as [Hup [cfg Hcfg]]. apply wp_on_parts. apply (wp_config (parts_now s) q cfg); [done|done|].
  by apply HQ.
Qed.

(** A mapped line. *)
Lemma label_user x n : nodes (lru c) !! x = Some n -> partition_id n <> PARTITION_FREELIST ->
  exists st, statuses c !! x = Some st /\ 0 <= partition_id n < OCF_USER_IO_CLASS_MAX /\ part_ready (lru_of c) (partition_id n) /\
    x ∈ σ (line_key x (line_dirty st) (partition_id n)).
Proof.
  intros Hn Hq. destruct (ci_home _ _ _ _ _ _ _ HI x) as (st & n' & [H1 H2 H3 H4 H5]); [by apply (ci_label _ _ _ _ _ _ _ HI x n Hn)|].
  assert (n' = n) as -> by congruence. by exists st.
Qed.

Lemma test_dirty_wp x st s (Q : bool -> space C -> Prop) :
  statuses (sp_cache s) !! x = Some st -> bits_ok block_4k line_size st -> Q (line_dirty st) s ->
  wp (on_cache (on_status (Status.metadata_test_dirty block_4k line_size x))) Q s.
Proof.
  intros Hst Hb HQ. apply wp_on_cache, wp_on_status. eapply wp_mono.
  { apply (test_exact (field block_4k line_size) Dirty x 0 (ocf_line_end_block block_4k line_size) false _ st);
      [exact Hst|by apply bits_status|apply block_range_ok].
    pose proof (line_blocks_bounds block_4k line_size). unfold block_range, ocf_line_end_block. lia. }
  intros b s' [-> Hiff]. cbn [get_field] in Hiff. rewrite whole_line in Hiff by done.
  assert (b = line_dirty st) as ->.
  { rewrite line_dirty_bits by done. unfold nonzero. cbn [get_field]. by apply bool_of_iff. }
  by replace (with_cache _ s) with s by (destruct s as [[] ? ? ?]; done).
Qed.

Lemma cline_list_wp x q s (Q : list_key -> space C -> Prop) :
  lru_of (sp_cache s) = lru_of c -> partition_id <$> nodes (lru c) !! x = Some q -> 0 <= q < OCF_USER_IO_CLASS_MAX ->
  part_ready (lru_of c) q -> LruPart.dirty (lru_of c) !! x = Some false -> Q (line_key x false q) s ->
  wp (on_lrus block_4k line_size (lru_get_cline_list x)) Q s.
Proof.
  intros El Hlab Hq Hr Hd HQ. apply wp_read_lrus. rewrite El. apply fmap_Some in Hlab as (n & Hn & ->).
  unfold lru_get_cline_list. apply wp_bind, wp_bind. eapply wp_node_of; [exact Hn|]. apply wp_ret.
  apply wp_bind, wp_bug_on; [apply bool_decide_eq_false_2; lia|]. unfold user_part.
  apply wp_bind, wp_bind, wp_bug_on; [apply bool_decide_eq_false_2; lia|]. apply wp_ret.
  apply wp_bind. eapply wp_test_dirty; [exact Hd|].
  apply (wp_get_list_line (lru_of c) x false); [|done]. rewrite line_key_user by done. apply (proj2 Hr), lru_list_index_in.
Qed.

Lemma req_next_wp it x s (Q : option (Z * core_info * Z) * lru_iter -> space C -> Prop) :
  sp_cache s = c -> classes_ok (sp_parts s) -> iter_ok it -> 0 <= x < num_entries ->
  (forall s', still s s' -> Q (None, it) s') ->
  (forall ci q j it' s', iter_ok it' -> same_iter it it' -> q <> PARTITION_FREE_DETACHED -> q <> PARTITION_FREELIST -> x ∈ σ (q, j, true) ->
     free_to_take x ci -> moved_to x s s' -> Q (Some (x, ci, q), it') s') ->
  wp (lru_req_next_cline block_4k line_size ENTRIES hash_free it x dst) Q s.
Proof.
  intros Es Hcl Hit Hx HN HS. destruct (ci_total _ _ _ _ _ _ _ HI x Hx) as [_ [n Hn]].
  unfold lru_req_next_cline. apply wp_bind, wp_read_lrus. rewrite Es. apply wp_bind.
  eapply wp_node_of; [exact Hn|]. apply wp_ret. split; [done|]. set (q := partition_id n).
  case_bool_decide as Hfree; [by apply wp_ret, HN|].
  destruct (label_user x n Hn Hfree) as (st & Hst & Hq & Hqr & Hxl). fold q in Hq, Hqr, Hxl.
  destruct (ci_bits _ _ _ _ _ _ _ HI x st Hst) as [Hb _].
  apply wp_bind. apply wp_config_of; [done|done|]. intros cfg s1 _ H1. pose proof (seen_still _ _ H1 Es) as E1.
  destruct (uc_eviction cfg); cbn [negb]; [|by apply wp_ret, HN].
  destruct (lo_word _ Hl x Hx) as [v Hv]. apply wp_bind. eapply try_lock_wp; [rewrite E1; exact Hv|].
  case_decide as Hidle; cbn [negb]; [|by apply wp_ret, HN]. subst v. rewrite E1.
  set (s2 := with_cache _ s1). assert (E2 : sp_cache s2 = lock_line x c) by done.
  assert (C2 : conf_same (sp_parts s) (sp_parts s2)) by apply H1. clearbody s2. clear E1.
  assert (Hback : forall s3, sp_cache s3 = lock_line x c -> conf_same (sp_parts s) (sp_parts s3) ->
    wp (_ ← unlock_wr ENTRIES x; mret (None, it)) Q s3).
  { intros s3 E3 C3. apply wp_bind. eapply unlock_line_wp; [exact Hl|done|exact Hv|exact E3|]. apply wp_ret, HN. by split. }
  destruct (wb_total _ _ (proj1 (ci_map _ _ _ _ _ _ _ HI)) x) as [_ [ci Hci]]; [rewrite <- (ci_entries _ _ _ _ _ _ _ HI); lia|].
  apply wp_bind, wp_on_cache, wp_on_map. eapply wp_load; [by rewrite E2|].
  replace (with_cache _ s2) with s2 by (rewrite E2; destruct s2; cbn in E2; rewrite E2; by destruct c).
  apply wp_bind, wp_gets. rewrite E2. change (request (lock_line x c)) with (request c).
  destruct (in_request_range ci (request c)) eqn:Hown; [by apply Hback|].
  apply wp_bind, wp_read_lrus. rewrite E2. eapply wp_node_of; [exact Hn|]. split; [done|].
  destruct (hot n); [by apply Hback|].
  apply wp_bind. eapply (test_dirty_wp x st); [by rewrite E2|done|]. destruct (line_dirty st) eqn:Hd; [by apply Hback|].
  apply wp_bind. eapply trylock_hash_wp; [by rewrite E2|by rewrite E2|]. intros [|] s3 [E3 C3] _ Hh; cbn [negb];
    [|apply Hback; [by rewrite E3|by etrans]]. rewrite E2 in E3.
  assert (Hdx : LruPart.dirty (lru_of c) !! x = Some false).
  { change (LruPart.dirty (lru_of c)) with (line_dirty <$> statuses c). rewrite lookup_fmap, Hst. exact (f_equal Some Hd). }
  assert (Hlab : partition_id <$> nodes (lru c) !! x = Some q) by (exact (f_equal (fmap partition_id) Hn)).
  apply wp_bind. eapply take_line_wp; [exact E3|exact Hqr|done|done| |].
  - intros _. eapply cline_list_wp; [by rewrite E3|exact Hlab|done|done|done|done].
  - intros s4 H4 _. destruct (advance_ok it Hit) as (Hit' & _ & Hs' & _). apply wp_ret.
    apply (HS ci q (lru_list_index x)); [done|done| |done| |done|].
    + unfold PARTITION_FREE_DETACHED. lia.
    + rewrite line_key_user in Hxl by done. exact Hxl.
    + eapply moved_conf; [etrans; [exact C2|exact C3]|exact H4].
Qed.
End Hash.
End EvictNext.
