(* ===== verification/EvictAssign.v ===== *)
(** * A line becomes that of an entry

    What a lookup counted changes by one entry that was missing
    ([ocf_engine_patch_req_info]); the line that was taken is invalidated and
    mapped to the core line of the entry. *)

From S2P Require Import Prelude Alock AlockProofs CacheLineLock CacheLineLockProofs Links Lru LruProofs LruSeq Generator LruPart LruPartProofs.
From S2P Require Import Collision CollisionProofs Status StatusProofs Request RequestProofs CacheLine CacheLineProofs CacheLineSteps Engine EngineProofs EngineCheck.
From S2P Require Import IndexList IndexListProofs HashLock IoClass IoClassProofs Evict EvictIter EvictTake EvictNext.
Open Scope Z_scope.

(** ** Counting with one entry replaced *)

Lemma count_replaced (l : list bool) i b b0 : l !! i = Some b0 ->
  Z.of_nat (length (filter (fun b => b = true) (<[i := b]> l))) = Z.of_nat (length (filter (fun b => b = true) l)) - Z.b2z b0 + Z.b2z b.
Proof.
  intros Hi. rewrite insert_take_drop by (by eapply lookup_lt_Some). rewrite <- (take_drop_middle l i b0 Hi) at 3.
  rewrite !filter_app, !filter_cons, !length_app. destruct b0, b; repeat (case_decide; try done); cbn [length Z.b2z]; lia.
Qed.

Lemma icount_replaced P P' es i e e' : es !! i = Some e -> (forall j x, j <> i -> es !! j = Some x -> P' j x = P j x) ->
  icount P' (<[i := e']> es) = icount P es - Z.b2z (P i e) + Z.b2z (P' i e').
Proof.
  intros Hi HP. unfold icount. rewrite <- (count_replaced (imap P es) i (P' i e') (P i e)) by (by rewrite list_lookup_imap, Hi).
  do 3 f_equal. apply list_eq. intros j. rewrite list_lookup_imap. destruct (decide (j = i)) as [->|Hne].
  - rewrite !list_lookup_insert_eq; [done|rewrite length_imap|]; by eapply lookup_lt_Some.
  - rewrite !list_lookup_insert_ne by done. rewrite list_lookup_imap. destruct (es !! j) as [x|] eqn:Hj; cbn; [|done]. by rewrite (HP j x).
Qed.

(** The entry after [i] continues the line of [e]. *)
Definition continued (es : list map_entry) (i : nat) (e : map_entry) : bool :=
  match es !! S i with
  | Some e' => is_found e && is_found e' && bool_decide (me_coll_idx e + 1 = me_coll_idx e')
  | None => false
  end.

Lemma continues_replaced es i e e' : es !! i = Some e -> is_found e = false ->
  let es' := <[i := e']> es in
  icount (continues es') es' = icount (continues es) es + Z.b2z (continues es' i e') + Z.b2z (continued es' i e').
Proof.
  intros Hi He es'. assert (Hlt : (i < length es)%nat) by (by eapply lookup_lt_Some).
  assert (Hi' : es' !! i = Some e') by (by apply list_lookup_insert_eq).
  assert (H0 : continues es i e = false) by (destruct i as [|k]; cbn; [done|]; destruct (es !! k); [|done]; by rewrite He, andb_false_r).
  assert (Hoff : forall j x, j <> i -> j <> S i -> continues es' j x = continues es j x).
  { intros [|k] x H1 H2; [done|]. cbn. unfold es'. by rewrite list_lookup_insert_ne by lia. }
  set (P := fun j x => if decide (j = S i) then continues es' j x else continues es j x).
  assert (HP : icount P es = icount (continues es) es + Z.b2z (continued es' i e')).
  { unfold continued, es'. rewrite list_lookup_insert_ne by lia. destruct (es !! S i) as [en|] eqn:Hn.
    - assert (Hd : es = <[S i := en]> es) by (by rewrite list_insert_id). rewrite Hd at 1.
      rewrite (icount_replaced (continues es) P es (S i) en en Hn).
      + unfold P. rewrite decide_True by done. cbn [continues]. rewrite Hi. unfold es' at 1. rewrite list_lookup_insert_eq by done.
        rewrite He. cbn [andb Z.b2z]. lia.
      + intros j x Hj _. unfold P. by rewrite decide_False.
    - cbn [Z.b2z]. rewrite Z.add_0_r. apply icount_ext. intros j x Hj. unfold P. case_decide; [congruence|done]. }
  change (icount (continues es') es') with (icount (continues es') (<[i := e']> es)).
  rewrite (icount_replaced P (continues es') es i e e' Hi).
  - rewrite HP. unfold P at 1. rewrite decide_False by lia. rewrite H0. cbn [Z.b2z]. lia.
  - intros j x Hj _. unfold P. case_decide; [done|]. by apply Hoff.
Qed.

Section EvictAssign.
Context {C : Type} `{!CleaningPolicy C}.
Context (block_4k : bool) (line_size : cache_line_size) (num_entries ENTRIES : Z) (self : Z) (hash_free : nat -> Z -> bool).
Abbreviation EV := (Prelude.M (space C)).
Abbreviation lru_of := (lru_of block_4k line_size).
Abbreviation line_dirty := (line_dirty block_4k line_size).
Abbreviation inv := (cache_inv (C:=C) block_4k line_size num_entries).
Abbreviation request_ok := (request_ok line_size).
Implicit Types (c : cache C) (m : gmap core_info Z) (s : space C).

(** ** [ocf_engine_patch_req_info] *)

Definition patched (es : list map_entry) (i : nat) (e : map_entry) (I : ocf_req_info) : ocf_req_info :=
  let I1 := inc_insert_no I in
  let I2 := if continues es i e then inc_seq_no I1 else I1 in
  if continued es i e then inc_seq_no I2 else I2.

Lemma patch_wp c r es I i e (Q : unit -> cache C -> Prop) :
  es !! i = Some e -> me_status e = LOOKUP_REMAPPED -> Z.of_nat (length es) = core_line_count r -> Forall line_in_range es ->
  Q tt (visit c r es (patched es i e I)) -> wp (ocf_engine_patch_req_info (Z.of_nat i)) Q (visit c r es I).
Proof.
  intros Hi Hs Hlen Hr HQ. pose proof (take_drop_middle es i e Hi) as Ees. set (pre := take i es) in *. set (post := drop (S i) es) in *.
  assert (Hpre : length pre = i) by (subst pre; rewrite length_take; apply lookup_lt_Some in Hi; lia).
  assert (Hfound : is_found e = true) by (unfold is_found; by rewrite Hs).
  assert (Ec : continues (pre ++ [e]) (length pre) e = continues es i e).
  { rewrite <- Ees, Hpre. destruct i as [|k]; [done|]. cbn [continues]. rewrite !lookup_app_l by lia. done. }
  assert (En : continued es i e = match post with e' :: _ => is_found e && is_found e' && bool_decide (me_coll_idx e + 1 = me_coll_idx e') | [] => false end).
  { unfold continued. rewrite <- Ees. replace (S i) with (length (pre ++ [e]) + 0)%nat by (rewrite length_app; cbn; lia).
    replace (pre ++ e :: post) with ((pre ++ [e]) ++ post) by (by rewrite <- app_assoc). rewrite lookup_app_r by lia.
    rewrite Nat.add_0_r, Nat.sub_diag. by destruct post. }
  unfold patched in HQ. rewrite <- Ec, En in HQ. clear Ec En. rewrite <- Ees in HQ |- *. rewrite <- Hpre in *. clear Hi.
  assert (Hrpre : Forall line_in_range pre /\ line_in_range e).
  { rewrite <- Ees in Hr. apply Forall_app in Hr as [? Hr]. by apply Forall_cons in Hr as [? _]. }
  destruct Hrpre as [Hrpre Hre]. unfold ocf_engine_patch_req_info.
  apply wp_bind, wp_visit_entry. apply wp_bind, wp_bug_on; [by rewrite bool_decide_eq_true_2|].
  apply wp_bind, wp_visit_bump. apply wp_bind. apply wp_seq_step; [done|].
  set (I2 := if continues _ _ _ then _ else _) in *. apply wp_bind, wp_gets.
  change (core_line_count (request (visit c r (pre ++ e :: post) I2))) with (core_line_count r).
  rewrite <- Hlen, <- Ees, length_app. cbn [length]. destruct post as [|e' post].
  - rewrite bool_decide_eq_false_2 by (cbn; lia). by apply wp_ret.
  - rewrite bool_decide_eq_true_2 by (cbn; lia). apply wp_bind. apply wp_phys_cont; [done|].
    destruct (is_found e && is_found e' && _); [by apply wp_visit_bump|exact HQ].
Qed.

(** ** Giving up the core line of a cache line *)

Lemma on_cache_seq {A B} (m1 : LM (C:=C) A) (m2 : A -> LM (C:=C) B) s (Q : B -> space C -> Prop) :
  wp (a ← m1; m2 a) (fun b c => Q b (with_cache c s)) (sp_cache s) -> wp (a ← on_cache m1; on_cache (m2 a)) Q s.
Proof.
  unfold wp, mbind, M_bind, on_cache. destruct (m1 (sp_cache s)) as [[a c1]|]; [|done]. cbn. by destruct (m2 a c1) as [[b c2]|].
Qed.

Record invalidated c c' β β' m (x : Z) (o : core_info) (part : Z) (r : core_runtime) (p : part_counter) : Prop := {
  iv_map : mapping (mapping_of c') β' (delete o m);
  iv_gone : ~ mapped β' x;
  iv_mapped y : y <> x -> mapped β' y <-> mapped β y;
  iv_entries : collision_table_entries (mapping_of c') = collision_table_entries (mapping_of c);
  iv_hash : hash_table_entries (mapping_of c') = hash_table_entries (mapping_of c);
  iv_infos : exists o', core_infos (mapping_of c') = <[x := o']> (core_infos (mapping_of c));
  iv_status : statuses c' = <[x := MapStatus 0 0]> (statuses c);
  iv_cores : cores c' = <[core_id o := less true r part p]> (cores c);
  iv_rest : lru c' = lru c /\ locks c' = locks c /\ request c' = request c
}.

Lemma drop_line_wp c β m x o part st r p s (Q : unit -> space C -> Prop) :
  sp_cache s = c -> mapping (mapping_of c) β m -> m !! o = Some x ->
  statuses c !! x = Some st -> bits_ok block_4k line_size st -> Status.dirty st = 0 ->
  cores c !! core_id o = Some r -> part_counters r !! part = Some p ->
  0 <= cached_clines r < 2 ^ 29 -> 0 <= pc_cached_clines p < 2 ^ 29 ->
  (forall c' β', invalidated c c' β β' m x o part r p -> Q tt (with_cache c' s)) ->
  wp (ocf_lru_invalidate block_4k line_size x (core_id o) part) Q s.
Proof.
  intros Es HM Ho Hst Hb Hd Hr Hp Hsr Hsp HQ. unfold ocf_lru_invalidate.
  apply wp_bind, wp_on_cache, wp_on_status. rewrite Es. pose proof (line_blocks_bounds block_4k line_size) as Hbl.
  eapply wp_mono; [apply clear_performs; [exact Hst|by apply bits_status|apply block_range_ok; unfold block_range, ocf_line_end_block; lia]|].
  intros left s1 (v' & -> & Hw & Hrem & _). cbn [get_field put_field] in *.
  assert (v' = 0) as ->.
  { apply Z.bits_inj'. intros j Hj. rewrite Z.bits_0, Hrem by done. unfold in_range, ocf_line_end_block.
    destruct (decide (j < ocf_line_blocks block_4k line_size)).
    - rewrite bool_decide_eq_true_2 by lia. by rewrite andb_false_r.
    - rewrite (bits_of_below (ocf_line_blocks block_4k line_size)); [done|lia|apply Hb|lia]. }
  rewrite Hd. set (s1 := with_cache _ s). set (c1 := sp_cache s1).
  apply wp_bind, wp_on_cache, wp_on_map. fold c1. change (mapping_of c1) with (mapping_of c).
  eapply wp_mono; [apply (remove_wp _ β m o); done|]. intros [] ms (β' & Hm & Hnm & Hym & Hen & Hci & Hh).
  apply on_cache_seq. eapply wp_add_cached; [exact Hr|exact Hp|].
  match goal with |- Q tt (with_cache ?c2 (with_cache _ s1)) => change (Q tt (with_cache c2 s)); apply (HQ c2 β') end.
  split; [exact Hm|exact Hnm|exact Hym|exact Hen|exact Hh|by eexists|done| |done].
  unfold set_counters. cbn [cores with_cores with_mapping]. unfold less. cbn [Z.b2z]. change (cores c1) with (cores c).
  by rewrite !s32_small by lia.
Qed.

(** ** The step *)

Definition taken_entry (x : Z) (e : map_entry) : map_entry := with_status LOOKUP_REMAPPED (with_coll_idx x e).
Definition assigned_request (r : ocf_request) (i : nat) (x : Z) (e : map_entry) : ocf_request :=
  let es := <[i := taken_entry x e]> (req_map r) in
  with_req_info (patched es i (taken_entry x e) (info r)) (with_map es r).

(** The core line of entry [i]. *)
Definition key_of (r : ocf_request) (i : nat) : core_info := CoreInfo (req_core r) (core_line_first r + Z.of_nat i).

Lemma map_line_wp c β m x i e s (K : EV unit) (Q : unit -> space C -> Prop) :
  let key := key_of (request c) i in
  sp_cache s = c -> mapping (mapping_of c) β m -> ~ mapped β x -> m !! key = None -> valid_key key ->
  0 <= x < collision_table_entries (mapping_of c) ->
  req_map (request c) !! i = Some e -> mi_hash (me_info e) = bucket_of (mapping_of c) key ->
  Z.of_nat (length (req_map (request c))) = core_line_count (request c) -> Forall line_in_range (<[i := taken_entry x e]> (req_map (request c))) ->
  (forall cl ms β', mapping ms β' (<[key := x]> m) -> (forall y, y <> x -> mapped β' y <-> mapped β y) ->
     collision_table_entries ms = collision_table_entries (mapping_of c) -> hash_table_entries ms = hash_table_entries (mapping_of c) ->
     core_infos ms = <[x := key]> (core_infos (mapping_of c)) ->
     wp K Q (with_cache (with_request (assigned_request (request c) i x e) (with_cleaner cl (with_mapping ms c))) s)) ->
  wp (_ ← on_cache (ocf_map_cache_line (Z.of_nat i) x); _ ← on_cache (set_entry (Z.of_nat i) (with_status LOOKUP_REMAPPED));
      _ ← on_cache (ocf_engine_patch_req_info (Z.of_nat i)); K) Q s.
Proof.
  intros key Es HM Hx Hkey Hvk Hxr He Hh Hlen Hir HQ. subst c. set (c := sp_cache s) in *. set (r := request c) in *.
  assert (Hlt : (i < length (req_map r))%nat) by (by eapply lookup_lt_Some).
  apply wp_bind, wp_on_cache. unfold ocf_map_cache_line. apply wp_bind, wp_gets. fold c r.
  apply wp_bind. eapply wp_entry; [lia|by rewrite Nat2Z.id|]. rewrite Hh.
  apply wp_bind, wp_on_map. eapply wp_mono; [by apply (add_wp _ β m key x)|].
  intros [] ms (β' & HM' & Hym & Hen & Hhs & Hci). fold c. apply wp_bind, cleaning_op_wp. intros cl.
  set (c1 := with_cleaner cl (with_mapping ms c)). unfold set_entry. apply wp_bind. eapply wp_entry; [lia|by rewrite Nat2Z.id|].
  apply wp_modify. rewrite Nat2Z.id. set (s1 := with_cache _ s). set (es1 := alter (with_coll_idx x) i (req_map r)).
  assert (E1 : sp_cache s1 = with_request (with_map es1 r) c1) by done.
  assert (Hes1 : es1 !! i = Some (with_coll_idx x e)) by (unfold es1; by rewrite list_lookup_alter_eq, He).
  apply wp_bind, wp_on_cache. rewrite E1. apply wp_bind. eapply wp_entry; [lia|by rewrite Nat2Z.id|].
  apply wp_modify. cbn [request with_request req_map with_map].
  assert (Ees : alter (with_status LOOKUP_REMAPPED) i es1 = <[i := taken_entry x e]> (req_map r)).
  { apply list_eq. intros j. destruct (decide (j = i)) as [->|Hne].
    - rewrite list_lookup_alter_eq, Hes1, list_lookup_insert_eq by done. done.
    - rewrite list_lookup_alter_ne by done. unfold es1. rewrite list_lookup_alter_ne by done. by rewrite list_lookup_insert_ne by done. }
  rewrite Ees. clear Ees E1 Hes1. set (es := <[i := _]> _) in *.
  apply wp_bind, wp_on_cache.
  match goal with |- wp _ _ ?c2 => change c2 with (visit c1 r es (info r)) end.
  eapply (patch_wp c1 r es (info r) i (taken_entry x e)).
  - by apply list_lookup_insert_eq.
  - done.
  - unfold es; by rewrite length_insert.
  - exact Hir.
  - exact (HQ cl ms β' HM' Hym Hen Hhs Hci).
Qed.

(** ** Marking the line as locked *)

Lemma alter_known {A} (f : A -> A) (t : gmap Z A) k v : t !! k = Some v -> alter f k t = <[k := f v]> t.
Proof.
  intros Hk. apply map_eq. intros j. destruct (decide (k = j)) as [<-|Hne].
  - by rewrite lookup_alter_eq, lookup_insert_eq, Hk.
  - by rewrite lookup_alter_ne, lookup_insert_ne.
Qed.

Definition mark (i : Z) (k : alock) : alock :=
  set_reqs (alter (fun r => Alock.with_rw OCF_WRITE (Alock.with_status (fun b => Z.setbit b i) r)) self) k.
Definition own (x i : Z) (k : alock) : alock := mark i (set_access (insert x OCF_CACHE_LINE_ACCESS_WR) k).

Lemma mark_wp i c s (Q : unit -> space C -> Prop) :
  sp_cache s = c -> is_Some (reqs (locks c) !! self) -> Q tt (with_cache (with_locks (mark i (locks c)) c) s) ->
  wp (_ ← on_locks (ocf_alock_mark_index_locked self i true); on_locks (r ← load_req self; store_req self (with_rw OCF_WRITE r))) Q s.
Proof.
  intros Es [r Hr] HQ. apply wp_bind, wp_on_locks. rewrite Es.
  unfold ocf_alock_mark_index_locked. apply wp_bind. eapply wp_load; [exact Hr|]. apply wp_modify.
  apply wp_on_locks. apply wp_bind. eapply wp_load; [cbn; apply lookup_insert_eq|]. apply wp_modify.
  unfold mark in HQ. unfold set_reqs in HQ at 1. rewrite (alter_known _ _ _ _ Hr) in HQ.
  rewrite <- (insert_insert_eq _ _ _ (Alock.with_status (fun b => Z.setbit b i) r)) in HQ. exact HQ.
Qed.

Lemma mark_ok i k : locks_ok num_entries ENTRIES self k -> locks_ok num_entries ENTRIES self (mark i k).
Proof. intros [H1 H2 H3 H4]. split; try done. cbn. by rewrite lookup_alter_is_Some. Qed.

Lemma own_ok x i c : locks_ok num_entries ENTRIES self (locks c) -> locks_ok num_entries ENTRIES self (own x i (locks c)).
Proof. intros H. apply mark_ok. exact (lock_line_ok num_entries ENTRIES self x c H). Qed.

(** ** [assign_cline] *)

Record assigned c c' β' m' σ' (x : Z) (i : nat) (e : map_entry) : Prop := {
  an_inv : inv c' β' m' σ';
  an_status : statuses c' = <[x := MapStatus 0 0]> (statuses c);
  an_here : partition_id <$> nodes (lru c') !! x = Some (req_part (request c));
  an_label y : y <> x -> partition_id <$> nodes (lru c') !! y = partition_id <$> nodes (lru c) !! y;
  an_ready : ready_kept block_4k line_size c c';
  an_hash : hash_table_entries (mapping_of c') = hash_table_entries (mapping_of c);
  an_request : request c' = assigned_request (request c) i x e;
  an_locks : locks c' = own x (Z.of_nat i) (locks c)
}.

(** From what is known of the cache after the line was given up or found free,
    to the end. *)
Lemma assign_mapped_wp c β m σ σ' l' x i e ci part st c2 β2 s (Q : unit -> space C -> Prop) :
  let r := request c in let key := key_of r i in let old := (fun o : core_info => (o, part)) <$> ci in
  inv c β m σ -> locks_ok num_entries ENTRIES self (locks c) -> lru_taken (lru_of c) l' σ σ' x (req_part r) ->
  0 <= req_part r < OCF_USER_IO_CLASS_MAX -> part_ready (lru_of c) (req_part r) -> core_ready (cores c) (req_core r) ->
  held c m x old -> statuses c !! x = Some st -> Status.dirty st = 0 -> (old <> None -> valid st <> 0) ->
  req_map r !! i = Some e -> mi_hash (me_info e) = bucket_of (mapping_of c) key -> m !! key = None -> valid_key key ->
  Z.of_nat (length (req_map r)) = core_line_count r -> Forall line_in_range (req_map r) ->
  sp_cache s = c2 -> mapping (mapping_of c2) β2 (forget old m) -> ~ mapped β2 x -> (forall y, y <> x -> mapped β2 y <-> mapped β y) ->
  collision_table_entries (mapping_of c2) = collision_table_entries (mapping_of c) ->
  hash_table_entries (mapping_of c2) = hash_table_entries (mapping_of c) ->
  (exists o', <[x := key]> (core_infos (mapping_of c2)) = <[x := key]> (<[x := o']> (core_infos (mapping_of c)))) ->
  statuses c2 = <[x := MapStatus 0 0]> (statuses c) -> lru c2 = lru (put_lru l' c) -> locks c2 = locks (lock_line x c) -> request c2 = r ->
  match old with
  | None => cores c2 = cores c
  | Some (o, src) => exists r p, cores c !! core_id o = Some r /\ part_counters r !! src = Some p /\
      cores c2 = <[core_id o := less true r src p]> (cores c)
  end ->
  (forall c' β' s', sp_cache s' = c' -> conf_same (sp_parts s) (sp_parts s') -> assigned c c' β' (<[key := x]> (forget old m)) σ' x i e -> Q tt s') ->
  wp (_ ← on_cache (ocf_map_cache_line (Z.of_nat i) x); _ ← on_cache (set_entry (Z.of_nat i) (with_status LOOKUP_REMAPPED));
      _ ← on_cache (ocf_engine_patch_req_info (Z.of_nat i));
      _ ← on_locks (ocf_alock_mark_index_locked self (Z.of_nat i) true);
      on_locks (r ← load_req self; store_req self (with_rw OCF_WRITE r))) Q s.
Proof.
  intros r key old HI Hlk Ht Hdst Hrdy Hcore Hheld Hst Hd Hv He Hh Hkey Hvk Hlen Hir Es HM Hx Hym Hen Hhs [o' Hci] Hs2 Hl2 Hk2 Hr2 Hc2 HQ.
  assert (Hxr : 0 <= x < num_entries) by (apply (ci_line _ _ _ _ _ _ _ HI); by eexists).
  assert (Hlt : (i < length (req_map r))%nat) by (by eapply lookup_lt_Some).
  assert (Hf : forget old m !! key = None).
  { destruct old as [[o src]|]; cbn [forget]; [|done]. apply lookup_delete_None. by right. }
  eapply (map_line_wp c2 β2 (forget old m) x i e); rewrite ?Hr2; try done.
  - rewrite Hen, <- (ci_entries _ _ _ _ _ _ _ HI). lia.
  - rewrite Hh. unfold bucket_of. by rewrite Hhs.
  - apply Forall_insert; [exact Hir|]. intros _. cbn. pose proof (ci_entries_bound _ _ _ _ _ _ _ HI). lia.
  - intros cl ms β' HM' Hym' Hen' Hhs' Hci'. set (c3 := with_request _ _).
    eapply (mark_wp _ c3); [done|change (locks c3) with (locks c2); rewrite Hk2; apply (lo_self _ _ _ _ Hlk)|].
    set (c' := with_locks _ c3).
    assert (Elo : lru_of c' = l').
    { unfold CacheLine.lru_of. change (lru c') with (lru c2). rewrite Hl2. cbn.
      replace (line_dirty <$> statuses c2) with (LruPart.dirty l'); [by destruct l'|].
        rewrite (rl_dirty _ _ _ _ (lt_label _ _ _ _ _ _ Ht)). rewrite Hs2, fmap_insert, clean_line_dirty.
        change (LruPart.dirty (lru_of c)) with (line_dirty <$> statuses c). symmetry. apply insert_id. rewrite lookup_fmap, Hst.
        change (Some (line_dirty st) = Some false). f_equal. destruct (ci_bits _ _ _ _ _ _ _ HI x st Hst) as [Hb _]. rewrite line_dirty_bits by done. unfold nonzero. cbn.
        apply bool_decide_eq_false_2. rewrite Hd. intros H. by apply H. }
    assert (Hrp : replaced block_4k line_size c c' β β' m σ σ' x old key (req_part r)).
    { split.
      - exact Hheld.
      - exists st. split_and!; try done.
      - exact HM'.
      - intros y Hy. rewrite Hym', Hym by done. done.
      - by rewrite <- Hen, <- Hen'.
      - change (core_infos (mapping_of c')) with (core_infos ms). etrans; [exact Hci'|]. etrans; [exact Hci|]. by rewrite insert_insert_eq.
      - by rewrite Elo.
      - exact Hc2. }
    apply (HQ c' β'); [done|done|].
    pose proof (lt_label _ _ _ _ _ _ Ht) as Hlab.
    assert (El : lru c' = lru (put_lru l' c)) by exact Hl2.
    split.
    + eapply inv_replaced; [exact HI|exact Hrp|done|done|exact Hcore].
    + exact Hs2.
    + rewrite El. apply (rl_label _ _ _ _ Hlab).
    + intros y Hy. rewrite El. by apply (rl_others _ _ _ _ Hlab).
    + split.
      * intros q Hq. rewrite Elo. exact (rl_ready _ _ _ _ Hlab q Hq).
      * change (cores c') with (cores c2). destruct old as [[o src]|]; [|rewrite Hc2; exact (fun _ H => H)].
        destruct Hc2 as (r1 & p1 & Hr1 & Hp1 & ->). eapply cores_kept_set; [exact Hr1|]. intros q Hq. cbn. rewrite lookup_insert_is_Some'. by right.
    + change (mapping_of c') with ms. by rewrite Hhs'.
    + done.
    + change (locks c') with (mark (Z.of_nat i) (locks c2)). by rewrite Hk2.
Qed.

Lemma assign_wp c β m σ x i e it ci part st s0 s (Q : unit -> space C -> Prop) :
  let r := request c in let key := key_of r i in let old := (fun o : core_info => (o, part)) <$> ci in
  inv c β m σ -> request_ok r -> locks_ok num_entries ENTRIES self (locks c) -> moved_to block_4k line_size c σ (req_part r) x s0 s ->
  0 <= req_part r < OCF_USER_IO_CLASS_MAX -> part_ready (lru_of c) (req_part r) -> core_ready (cores c) (req_core r) ->
  held c m x old -> statuses c !! x = Some st -> Status.dirty st = 0 -> (old <> None -> valid st <> 0) ->
  req_map r !! i = Some e -> me_status e = LOOKUP_MISS -> mi_hash (me_info e) = bucket_of (mapping_of c) key -> m !! key = None ->
  valid_key key -> Forall line_in_range (req_map r) ->
  (forall c' β' σ' s', sp_cache s' = c' -> conf_same (sp_parts s) (sp_parts s') ->
     assigned c c' β' (<[key := x]> (forget old m)) σ' x i e -> Q tt s') ->
  wp (assign_cline block_4k line_size num_entries ENTRIES self it (Z.of_nat i) x ci part) Q s.
Proof.
  intros r key old HI Hok Hlk [_ (l' & σ' & Es & Ht)] Hdst Hrdy Hcore Hheld Hst Hd Hv He Hm Hh Hkey Hvk Hir HQ.
  assert (Hxr : 0 <= x < num_entries) by (apply (ci_line _ _ _ _ _ _ _ HI); by eexists).
  destruct (ci_bits _ _ _ _ _ _ _ HI x st Hst) as [Hb _]. unfold assign_cline.
  (* the assertions *)
  apply wp_bind, wp_on_locks. unfold ocf_cache_line_is_used.
  apply wp_bind, wp_bug_on; [apply bool_decide_eq_false_2; lia|]. apply wp_bind.
  eapply wp_load; [rewrite Es; cbn; apply lookup_insert_eq|]. rewrite bool_decide_eq_true_2 by done. apply wp_ret.
  rewrite with_same_locks, with_same_cache. apply wp_bind, wp_bug_on; [done|].
  apply wp_bind. eapply test_dirty_wp; [by rewrite Es|done|].
  assert (Hclean : line_dirty st = false).
  { rewrite line_dirty_bits by done. unfold nonzero. cbn. apply bool_decide_eq_false_2. rewrite Hd. intros H. by apply H. }
  rewrite Hclean. apply wp_bind, wp_bug_on; [done|].
  apply wp_bind, wp_on_cache. eapply wp_entry; [lia|rewrite Es, Nat2Z.id; exact He|]. rewrite with_same_cache.
  apply wp_bind, wp_bug_on; [apply bool_decide_eq_false_2; intros H; by apply H|].
  apply wp_bind.
  destruct ci as [o|]; cbn in old.
  - (* a line with a core line *)
    destruct Hheld as [Ho Hsrc]. destruct (mapped_owner _ _ _ _ _ _ _ _ _ HI Ho) as [Hmx _].
    destruct (facts _ _ _ _ _ _ _ _ _ HI Ho) as (st1 & n & r1 & p1 & [[Hs1 Hn Hu _ _] Hr1 Hp1 _ _ Hsm]).
    change (nodes (lru_of c)) with (nodes (lru c)) in *. rewrite Hn in Hsrc. injection Hsrc as <-.
    rewrite !Forall_cons in Hsm. destruct Hsm as (Hs3 & _ & Hs4 & _).
    apply wp_bind. eapply drop_line_wp; [exact Es|apply (ci_map _ _ _ _ _ _ _ HI)|exact Ho|exact Hst|done|done|exact Hr1|exact Hp1|done|done|].
    intros c2 β2 [I1 I2 I3 I4 I5 [o' I6] I7 I8 (I9 & I10 & I11)]. 
    eapply (unlock_hash_wp block_4k line_size num_entries c β m σ HI Hok); [exact I5|exact I11|].
    eapply (assign_mapped_wp c β m σ σ' l' x i e (Some o) (partition_id n) st c2 β2); try done.
    + by split; [|rewrite Hn].
    + apply Hok.
    + exists o'. by rewrite I6.
    + by exists r1, p1.
    + intros c' β' s' E' C' H'. by apply (HQ c' β' σ').
  - apply wp_ret.
    eapply (assign_mapped_wp c β m σ σ' l' x i e None part st (sp_cache s) β); rewrite ?Es; try done.
    + apply Hok.
    + apply (ci_map _ _ _ _ _ _ _ HI).
    + intros [h Hx]. destruct (wb_bucket _ _ (proj1 (ci_map _ _ _ _ _ _ _ HI)) h x Hx) as (o & Ho & _).
      apply (Hheld o). apply (proj2 (ci_map _ _ _ _ _ _ _ HI)). split; [by exists h|done].
    + exists key. by rewrite insert_insert_eq.
    + rewrite (ci_idle _ _ _ _ _ _ _ HI x st Hst) in Hst.
      * by rewrite insert_id.
      * intros [h Hx]. destruct (wb_bucket _ _ (proj1 (ci_map _ _ _ _ _ _ _ HI)) h x Hx) as (o & Ho & _).
        apply (Hheld o). apply (proj2 (ci_map _ _ _ _ _ _ _ HI)). split; [by exists h|done].
    + intros c' β' s' E' C' H'. by apply (HQ c' β' σ').
Qed.
End EvictAssign.
