(* ===== verification/EvictLoop.v ===== *)
(** * Taking lines for a request

    [stage]: how far a request has come that takes cache lines for the core
    lines it misses, relative to where it began.  Entries that were missing are
    mapped one by one to lines without data; what the request found stays; of
    other core lines, some whose line was clean and idle are no longer cached.
    The loop of [ocf_lru_req_clines] goes from stage to stage. *)

From S2P Require Import Prelude Alock AlockProofs CacheLineLock CacheLineLockProofs Links Lru LruProofs LruSeq Generator LruPart LruPartProofs.
From S2P Require Import Collision CollisionProofs Status StatusProofs Request RequestProofs CacheLine CacheLineProofs CacheLineSteps Engine EngineProofs EngineCheck.
From S2P Require Import PartMove HashLock IndexList IndexListProofs IoClass IoClassProofs EngineIo EngineBase Cleaner Content EngineSpec EngineRuns.
From S2P Require Import Evict EvictIter EvictTake EvictNext EvictAssign.
Open Scope Z_scope.

Section EvictLoop.
Context {C : Type} `{!CleaningPolicy C}.
Context (g : config) (self : Z) (hash_free : nat -> Z -> bool).
Abbreviation EV := (Prelude.M (space C)).
Abbreviation lru_of := (lru_of (block_4k g) (line_size g)).
Abbreviation line_dirty := (line_dirty (block_4k g) (line_size g)).
Abbreviation inv := (cache_inv (C:=C) (block_4k g) (line_size g) (num_entries g)).
Abbreviation request_ok := (request_ok (line_size g)).
Abbreviation locks_ok := (locks_ok (num_entries g) (waiter_hash g) self).
Implicit Types (c : cache C) (m : gmap core_info Z) (s : space C).

(** ** Where the request begins *)

Context (c0 : cache C) (m0 : gmap core_info Z).
Abbreviation r0 := (request c0).

Record begins : Prop := {
  bg_ok : request_ok r0;
  bg_part : 0 <= req_part r0 < OCF_USER_IO_CLASS_MAX;
  bg_ready p : 0 <= p < OCF_USER_IO_CLASS_MAX -> part_ready (lru_of c0) p;
  bg_core : core_ready (cores c0) (req_core r0);
  bg_key : core_line_last r0 < 2 ^ OCF_CORE_LINE_BITS;
  bg_live : live c0 m0 (fun ci => ~ req_line r0 ci);
  bg_hash i e : req_map r0 !! i = Some e -> mi_hash (me_info e) = bucket_of (mapping_of c0) (key_of r0 i)
}.

Definition missing (es : list map_entry) : Z := icount (fun _ e => negb (is_found e)) es.

(** The entry is as it was, or was missing and is mapped to a new line. *)
Definition kept_entry c m (i : nat) (e e0 : map_entry) : Prop :=
  e = e0 /\ is_new e0 = false /\
  if is_found e0 then
    m !! key_of r0 i = Some (me_coll_idx e0) /\ m0 !! key_of r0 i = Some (me_coll_idx e0) /\
    statuses c !! me_coll_idx e0 = statuses c0 !! me_coll_idx e0 /\
    partition_id <$> nodes (lru c) !! me_coll_idx e0 = partition_id <$> nodes (lru c0) !! me_coll_idx e0
  else m !! key_of r0 i = None /\ m0 !! key_of r0 i = None.
Definition new_entry c m (i : nat) (e e0 : map_entry) : Prop :=
  me_status e0 = LOOKUP_MISS /\ m0 !! key_of r0 i = None /\ exists x, e = taken_entry x e0 /\ m !! key_of r0 i = Some x /\
    statuses c !! x = Some (MapStatus 0 0) /\ partition_id <$> nodes (lru c) !! x = Some (req_part r0) /\
    access (locks c) !! x = Some OCF_CACHE_LINE_ACCESS_WR.

(** The counters are those of the lookup, and count new lines and neighbours. *)
Definition counted_info (I0 : ocf_req_info) (es : list map_entry) : ocf_req_info :=
  ReqInfo (hit_no I0) (invalid_no I0) (re_part_no I0) (icount (continues es) es) (icount (fun _ => is_new) es)
    (dirty_all I0) (dirty_any I0) (flush_metadata I0) (mapping_error I0) (cleaning_required I0).

Record stage c (β : bucket_map) m (σ : listing) : Prop := {
  sg_inv : inv c β m σ;
  sg_geometry : geometry (request c) = geometry r0;
  sg_length : length (req_map (request c)) = length (req_map r0);
  sg_ready : ready_kept (block_4k g) (line_size g) c0 c;
  sg_locks : locks_ok (locks c);
  sg_hash : hash_table_entries (mapping_of c) = hash_table_entries (mapping_of c0);
  sg_entry i e : req_map (request c) !! i = Some e -> exists e0, req_map r0 !! i = Some e0 /\
    (kept_entry c m i e e0 \/ new_entry c m i e e0);
  sg_info : info (request c) = counted_info (info r0) (req_map (request c));
  sg_count : hit_no (info r0) + invalid_no (info r0) + icount (fun _ => is_new) (req_map (request c)) + missing (req_map (request c)) =
    Z.of_nat (length (req_map r0));
  sg_off ci x : ~ req_line r0 ci -> m !! ci = Some x -> m0 !! ci = Some x /\ statuses c !! x = statuses c0 !! x;
  sg_gone ci x : ~ req_line r0 ci -> m0 !! ci = Some x -> m !! ci = None ->
    (exists st, statuses c0 !! x = Some st /\ Status.dirty st = 0) /\ access (locks c0) !! x = Some OCF_CACHE_LINE_ACCESS_IDLE;
  sg_words y : access (locks c) !! y = access (locks c0) !! y \/ access (locks c0) !! y = Some OCF_CACHE_LINE_ACCESS_IDLE /\
    exists i e, req_map (request c) !! i = Some e /\ is_new e = true /\ me_coll_idx e = y
}.

Lemma key_line i : request_ok r0 -> (i < length (req_map r0))%nat -> req_line r0 (key_of r0 i).
Proof. intros Hok Hi. pose proof (ro_map _ _ Hok). split; [done|]. cbn. lia. Qed.

Lemma key_inj i j : key_of r0 i = key_of r0 j -> i = j.
Proof. intros E. injection E. lia. Qed.

Lemma off_range r ci : request_ok r -> in_request_range ci r = false -> ~ req_line r ci.
Proof.
  intros Hok Hf [H1 H2]. destruct (request_ok_lines (block_4k g) (line_size g) r Hok) as (Hc & _).
  unfold in_request_range in Hf. rewrite !bool_decide_eq_true_2 in Hf by lia. done.
Qed.

Lemma stage_ok c β m σ : begins -> stage c β m σ -> request_ok (request c).
Proof.
  intros [[A1 A2 A3] _ _ _ _ _ _] [_ G L _ _ _ _ _ _ _ _ _]. destruct (geometry_fields _ _ G) as (_ & _ & E3 & E4 & E5 & E6 & E7).
  split; [by rewrite E3, E4|by rewrite E3, E4, E5, E6, E7|by rewrite L, E7].
Qed.

Lemma stage_line c β m σ i e : stage c β m σ -> req_map (request c) !! i = Some e -> is_found e = true ->
  m !! key_of r0 i = Some (me_coll_idx e).
Proof.
  intros HS He Hf. destruct (sg_entry _ _ _ _ HS i e He) as (e0 & He0 & [(-> & _ & Hk)|(_ & _ & x & -> & Hx & _)]); [|exact Hx].
  rewrite Hf in Hk. apply Hk.
Qed.

(** ** From stage to stage *)

(** What the entry that gets a line changes of the counts. *)
Lemma taken_counts es i e x : es !! i = Some e -> me_status e = LOOKUP_MISS -> let es' := <[i := taken_entry x e]> es in
  icount (fun _ => is_new) es' = icount (fun _ => is_new) es + 1 /\ missing es' = missing es - 1.
Proof.
  intros He Hm es'. unfold missing, es'. rewrite (icount_replaced (fun _ => is_new) _ _ i e), (icount_replaced (fun _ e => negb (is_found e)) _ _ i e) by done.
  assert (is_new e = false) as -> by (unfold is_new; by rewrite Hm). assert (is_found e = false) as -> by (unfold is_found; by rewrite Hm).
  change (is_new (taken_entry x e)) with true. change (is_found (taken_entry x e)) with true. cbn [negb Z.b2z]. lia.
Qed.

Lemma patched_counted I0 es i e x : es !! i = Some e -> me_status e = LOOKUP_MISS -> Z.of_nat (length es) < 2 ^ 32 ->
  let es' := <[i := taken_entry x e]> es in patched es' i (taken_entry x e) (counted_info I0 es) = counted_info I0 es'.
Proof.
  intros He Hm Hlen es'. assert (Hfe : is_found e = false) by (unfold is_found; by rewrite bool_decide_eq_true_2).
  assert (Hc := continues_replaced es i e (taken_entry x e) He Hfe). cbv zeta in Hc. fold es' in Hc.
  destruct (taken_counts es i e x He Hm) as [Hnew _]. fold es' in Hnew.
  assert (Hb : forall P, 0 <= icount P es' < 2 ^ 32).
  { intros P. pose proof (icount_bounds P es') as Hb. unfold es' in Hb at 3. rewrite length_insert in Hb. lia. }
  unfold patched, counted_info. pose proof (Hb (continues es')) as Hb1. pose proof (Hb (fun _ => is_new)) as Hb2.
  pose proof (icount_bounds (continues es) es) as Hb3. pose proof (icount_bounds (fun _ => is_new) es) as Hb4.
  rewrite Hnew, Hc in *. destruct (continues es' i (taken_entry x e)), (continued es' i (taken_entry x e)); cbn [Z.b2z] in *;
    unfold inc_insert_no, inc_seq_no; cbn [hit_no invalid_no re_part_no seq_no insert_no dirty_all dirty_any flush_metadata mapping_error cleaning_required];
    set (a := icount (continues _) es) in *; rewrite ?(wrap_small 32 (a + 1)) by lia; rewrite ?wrap_small by lia; f_equal; lia.
Qed.

Lemma stage_step c c' β β' m σ σ' x i e old st : begins -> stage c β m σ -> let m' := <[key_of r0 i := x]> (forget old m) in
  assigned (block_4k g) (line_size g) (num_entries g) self c c' β' m' σ' x i e ->
  req_map (request c) !! i = Some e -> me_status e = LOOKUP_MISS ->
  held c m x old -> statuses c !! x = Some st -> Status.dirty st = 0 -> access (locks c) !! x = Some OCF_CACHE_LINE_ACCESS_IDLE ->
  (forall o src, old = Some (o, src) -> ~ req_line r0 o) ->
  stage c' β' m' σ' /\ missing (req_map (request c')) = missing (req_map (request c)) - 1 /\
    req_map (request c') = <[i := taken_entry x e]> (req_map (request c)).
Proof.
  intros HB HS m' [A1 A2 A3 A4 A5 A6 A7 A8] He Hm Hheld Hst Hd Hidle Hoff. pose proof HS as [S1 S2 S3 S4 S5 S6 S7 S8 S9 S10 S11 S12].
  assert (Hlt : (i < length (req_map (request c)))%nat) by (by eapply lookup_lt_Some).
  assert (Hk : req_line r0 (key_of r0 i)) by (apply key_line; [apply HB|by rewrite <- S3]).
  assert (Emap : req_map (request c') = <[i := taken_entry x e]> (req_map (request c))) by (by rewrite A7).
  assert (Hfe : is_found e = false) by (unfold is_found; by rewrite bool_decide_eq_true_2).
  (* no other line of the mapping is [x] *)
  assert (Hx : forall ci, m !! ci = Some x -> ~ req_line r0 ci /\ m' !! ci = None).
  { intros ci Hci. destruct old as [[o src]|]; [|by destruct (Hheld ci)]. destruct Hheld as [Ho _].
    assert (ci = o) as -> by (by eapply (inv_inj g)). pose proof (Hoff o src eq_refl) as Hno. split; [done|].
    unfold m'. rewrite lookup_insert_ne by (intros <-; done). apply lookup_delete_eq. }
  assert (Hm' : forall ci, ci <> key_of r0 i -> m' !! ci = if decide (m !! ci = Some x) then None else m !! ci).
  { intros ci Hne. case_decide as E; [by apply Hx|]. unfold m'. rewrite lookup_insert_ne by done.
    destruct old as [[o src]|]; [|done]. cbn [forget]. destruct Hheld as [Ho _].
    apply lookup_delete_ne. intros <-. by apply E. }
  assert (Ho : access (locks c0) !! x = Some OCF_CACHE_LINE_ACCESS_IDLE).
  { destruct (S12 x) as [<-|[? _]]; done. }
  split; [|split; [|exact Emap]].
  2:{ rewrite Emap. by apply taken_counts. }
  assert (Hwrite : access (locks c') = <[x := OCF_CACHE_LINE_ACCESS_WR]> (access (locks c))) by (by rewrite A8).
  assert (Hstx : forall y, y <> x -> statuses c' !! y = statuses c !! y) by (intros y Hy; by rewrite A2, lookup_insert_ne).
  split.
  - exact A1.
  - rewrite A7. exact S2.
  - by rewrite Emap, length_insert.
  - by eapply ready_kept_trans.
  - rewrite A8. by apply own_ok.
  - congruence.
  - intros j e1 He1. rewrite Emap in He1. destruct (decide (j = i)) as [->|Hne].
    + rewrite list_lookup_insert_eq in He1 by done. injection He1 as <-.
      destruct (S7 i e He) as (e0 & He0 & [(-> & Hn & Hk0)|(_ & _ & y & -> & _)]); [|done].
      exists e0. split; [done|]. right. rewrite Hfe in Hk0. split; [done|]. split; [apply Hk0|]. exists x. split; [done|].
      split; [apply lookup_insert_eq|]. split; [by rewrite A2, lookup_insert_eq|]. split.
      * rewrite A3. by destruct (geometry_fields _ _ S2) as (_ & -> & _).
      * by rewrite Hwrite, lookup_insert_eq.
    + rewrite list_lookup_insert_ne in He1 by done.
      destruct (S7 j e1 He1) as (e0 & He0 & Hj). exists e0. split; [done|].
      assert (Hkj : req_line r0 (key_of r0 j)) by (apply key_line; [apply HB|by eapply lookup_lt_Some]).
      assert (Hmj : m' !! key_of r0 j = m !! key_of r0 j).
      { rewrite Hm' by (intros E; by apply key_inj in E). case_decide as E; [|done]. by destruct (Hx _ E). }
      assert (Hxj : forall y, m !! key_of r0 j = Some y -> y <> x) by (intros y Hy ->; by destruct (Hx _ Hy)).
      destruct Hj as [(-> & Hn & Hj)|(Hs0 & Hm0 & y & -> & Hy & H1 & H2 & H3)].
      * left. split; [done|]. split; [done|]. destruct (is_found e0); [|by rewrite Hmj].
        destruct Hj as (H1 & H2 & H3 & H4). pose proof (Hxj _ H1) as Hnx. rewrite Hmj, Hstx, A4 by done. done.
      * right. split; [done|]. split; [done|]. exists y. pose proof (Hxj _ Hy) as Hnx. rewrite Hmj, Hstx, A4, Hwrite, lookup_insert_ne by done. done.
  - rewrite A7. change (patched (<[i := taken_entry x e]> (req_map (request c))) i (taken_entry x e) (info (request c)) =
      counted_info (info r0) (<[i := taken_entry x e]> (req_map (request c)))). rewrite S8. apply patched_counted; [done|done|].
    destruct (request_ok_lines (block_4k g) (line_size g) _ (stage_ok _ _ _ _ HB HS)) as (_ & Hn & _).
    pose proof (ro_map _ _ (stage_ok _ _ _ _ HB HS)). lia.
  - rewrite Emap. destruct (taken_counts _ i e x He Hm) as [-> ->]. lia.
  - intros ci y Hci Hy. rewrite Hm' in Hy by (intros ->; done). case_decide as E; [done|].
    destruct (S10 ci y Hci Hy) as [H1 H2]. split; [done|]. rewrite Hstx; [done|]. intros ->. by apply E.
  - intros ci y Hci Hy Hn. rewrite Hm' in Hn by (intros ->; done). case_decide as E; [|by apply (S11 ci y)].
    destruct (S10 ci x Hci E) as [H1 H2]. assert (y = x) as -> by congruence. split; [|done]. exists st. by rewrite <- H2.
  - intros y. destruct (decide (y = x)) as [->|Hne].
    + right. split; [done|]. exists i, (taken_entry x e). rewrite Emap. by rewrite list_lookup_insert_eq.
    + rewrite Hwrite, lookup_insert_ne by done. destruct (S12 y) as [?|(? & j & e1 & He1 & Hn1 & Hy1)]; [by left|right]. split; [done|].
      exists j, e1. split; [|done]. rewrite Emap. destruct (decide (j = i)) as [->|Hji]; [|by rewrite list_lookup_insert_ne].
      exfalso. assert (e1 = e) as -> by congruence. unfold is_new in Hn1. by rewrite Hm in Hn1.
Qed.

(** ** The line that is offered *)

Record offer c m (x : Z) (ci : option core_info) (part : Z) : Prop := {
  of_range : 0 <= x < num_entries g;
  of_status : exists st, statuses c !! x = Some st /\ Status.dirty st = 0 /\ (ci <> None -> valid st <> 0);
  of_held : held c m x ((fun o => (o, part)) <$> ci);
  of_idle : access (locks c) !! x = Some OCF_CACHE_LINE_ACCESS_IDLE;
  of_off o : ci = Some o -> ~ req_line r0 o
}.

Context (HB : begins).

Lemma stage_live c β m σ : stage c β m σ -> live c m (fun ci => ~ req_line r0 ci).
Proof.
  intros HS ci x st Hx Hci Hst. destruct (sg_off _ _ _ _ HS ci x Hci Hx) as [H0 Es]. rewrite Es in Hst. by apply (bg_live HB ci x st).
Qed.

Lemma stage_req_line c β m σ ci : stage c β m σ -> req_line (request c) ci <-> req_line r0 ci.
Proof.
  intros HS. destruct (geometry_fields _ _ (sg_geometry _ _ _ _ HS)) as (E1 & _ & _ & _ & E5 & _ & E7). unfold req_line. by rewrite E1, E5, E7.
Qed.

Lemma evict_offer c β m σ x q j ci : stage c β m σ -> q <> PARTITION_FREE_DETACHED -> q <> PARTITION_FREELIST -> x ∈ σ (q, j, true) ->
  free_to_take c x ci -> offer c m x (Some ci) q.
Proof.
  intros HS Hq1 Hq2 Hx (Hidle & Hci & Hoff). pose proof (sg_inv _ _ _ _ HS) as HI.
  destruct (listed_clean _ _ _ c β m σ HI x q j Hq1 Hx) as (Hr & _ & _ & Hlab & st & Hst & Hd).
  apply fmap_Some in Hlab as (n & Hn & ->).
  assert (Hmx : mapped β x) by (by apply (ci_label _ _ _ _ _ _ _ HI x n Hn)).
  assert (Hm : m !! ci = Some x) by (by apply (proj2 (ci_map _ _ _ _ _ _ _ HI))).
  assert (Hno : ~ req_line r0 ci).
  { rewrite <- (stage_req_line c β m σ ci HS). apply off_range; [by eapply stage_ok|done]. }
  split; [done| |by split; [|rewrite Hn]|done|by intros o [= <-]].
  exists st. split; [done|]. split; [done|]. intros _. by apply (stage_live c β m σ HS ci x st).
Qed.

Lemma free_offer c β m σ x j part : stage c β m σ -> x ∈ σ (PARTITION_FREELIST, j, true) ->
  access (locks c) !! x = Some OCF_CACHE_LINE_ACCESS_IDLE -> offer c m x None part.
Proof.
  intros HS Hx Hidle. pose proof (sg_inv _ _ _ _ HS) as HI.
  destruct (listed_clean _ _ _ c β m σ HI x PARTITION_FREELIST j ltac:(done) Hx) as (Hr & _ & _ & Hlab & st & Hst & Hd).
  split; [done|by exists st| |done|done]. intros ci Hci. apply fmap_Some in Hlab as (n & Hn & En).
  apply (proj2 (ci_map _ _ _ _ _ _ _ HI)) in Hci as [Hmx _]. apply (ci_label _ _ _ _ _ _ _ HI x n Hn) in Hmx. done.
Qed.

Lemma stage_ready c β m σ p : stage c β m σ -> p = PARTITION_FREELIST \/ 0 <= p < OCF_USER_IO_CLASS_MAX -> part_ready (lru_of c) p.
Proof.
  intros HS [->|Hp]; [apply (ci_free _ _ _ _ _ _ _ (sg_inv _ _ _ _ HS))|]. apply (proj1 (sg_ready _ _ _ _ HS)), (bg_ready HB p Hp).
Qed.

Lemma next_cline_wp s c β m σ it p cline (Q : option (Z * option core_info * Z) * lru_iter -> space C -> Prop) :
  stage c β m σ -> sp_cache s = c -> classes_ok (sp_parts s) ->
  iter_ok it -> it_part it = p -> it_clean it = true -> p = PARTITION_FREELIST \/ 0 <= p < OCF_USER_IO_CLASS_MAX ->
  cline = end_marker \/ 0 <= cline < num_entries g ->
  (forall it' s', still s s' -> Q (None, it') s') ->
  (forall x ci part it' s', iter_ok it' -> same_iter it it' -> offer c m x ci part ->
     moved_to (block_4k g) (line_size g) c σ (req_part r0) x s s' -> Q (Some (x, ci, part), it') s') ->
  wp (next_cline (block_4k g) (line_size g) (num_entries g) (waiter_hash g) hash_free it p (req_part r0) cline) Q s.
Proof.
  intros HS Es Hcl Hit Ep Ec Hp Hc HN HQ. pose proof (sg_inv _ _ _ _ HS) as HI. pose proof (ci_entries_bound _ _ _ _ _ _ _ HI) as Hn.
  pose proof (stage_ok _ _ _ _ HB HS) as Hok. pose proof (sg_locks _ _ _ _ HS) as Hlk. pose proof (stage_ready c β m σ p HS Hp) as Hsrc.
  pose proof (bg_part HB) as Hd. pose proof (stage_ready c β m σ (req_part r0) HS (or_intror Hd)) as Hdr.
  assert (Hpd : p <> PARTITION_FREE_DETACHED).
  { destruct Hp as [->|Hp]; [done|]. unfold PARTITION_FREE_DETACHED, OCF_USER_IO_CLASS_MAX in *. lia. }
  assert (Epid : part_id p = p) by (unfold part_id; by rewrite bool_decide_eq_false_2). unfold next_cline. rewrite Epid.
  destruct (bool_decide (p <> PARTITION_FREELIST)) eqn:Hf.
  - apply bool_decide_eq_true_1 in Hf. apply wp_bind, wp_gets. rewrite Es, <- (ci_entries _ _ _ _ _ _ _ HI).
    assert (Hevict : forall s1 it1, still s s1 -> iter_ok it1 -> same_iter it it1 ->
      wp (r ← lru_iter_eviction_next (block_4k g) (line_size g) (num_entries g) (waiter_hash g) hash_free it1 (req_part r0);
          mret ((fun p0 => (p0.1, Some p0.2, p)) <$> r.1, r.2)) Q s1).
    { intros s1 it1 H1 Hit1 (E1 & E2 & E3 & E4). pose proof (seen_still c _ _ H1 Es) as Es1. apply wp_bind.
      eapply (eviction_next_wp _ _ _ _ self hash_free c β m σ HI Hok Hlk p (req_part r0)); try done; [congruence|congruence|..].
      - intros it' s' H' _. apply wp_ret, HN. by etrans.
      - intros x ci j it' s' Hit' (F1 & F2 & F3 & F4) Hx _ Hft _ Hmv. apply wp_ret. cbn.
        apply (HQ x (Some ci) p); [done|split_and!; congruence|by eapply evict_offer|by eapply moved_still]. }
    apply wp_bind. case_bool_decide as Hlt.
    + assert (Hcr : 0 <= cline + 1 < num_entries g) by (destruct Hc as [->|?]; [unfold end_marker in Hlt; lia|lia]).
      eapply (req_next_wp _ _ _ _ self hash_free c β m σ HI Hok Hlk (req_part r0)); try done.
      * intros s' H'. by apply Hevict.
      * intros ci q j it' s' Hit' Hs' Hq1 Hq2 Hx Hft Hmv. apply wp_ret. apply (HQ _ (Some ci) q); [done|done|by eapply evict_offer|done].
    + apply wp_ret. by apply Hevict.
  - apply bool_decide_eq_false_1 in Hf. assert (p = PARTITION_FREELIST) as Efree by lia. apply wp_bind.
    eapply (free_next_wp _ _ _ _ self c β m σ HI Hlk p (req_part r0)); try done.
    + unfold PARTITION_FREELIST in *. lia.
    + intros it' s' H' _. apply wp_ret. by apply HN.
    + intros x j it' s' Hit' Hs' Hx Hidle Hmv. apply wp_ret. apply (HQ x None p); [done|done| |done]. eapply free_offer; [done|by rewrite <- Efree|done].
Qed.

(** ** The entries that are missing *)

Lemma icount_never P es : (forall i e, es !! i = Some e -> P i e = false) -> icount P es = 0.
Proof.
  intros H. rewrite (icount_ext P (fun _ _ => false)) by done. clear H. induction es as [|e es IH] using rev_ind; [done|].
  by rewrite icount_snoc, IH.
Qed.

Definition missing_from (k : nat) (es : list map_entry) : Z := icount (fun i e => bool_decide (k <= i)%nat && negb (is_found e)) es.

Lemma missing_all es : missing_from 0 es = missing es.
Proof. apply icount_ext. intros i e _. by rewrite bool_decide_eq_true_2 by lia. Qed.

(** The first missing entry from [k] on, if there is one. *)
Definition first_missing (k : nat) (es : list map_entry) (j : nat) (e : map_entry) : Prop :=
  (k <= j)%nat /\ es !! j = Some e /\ is_found e = false /\ forall i e', (k <= i < j)%nat -> es !! i = Some e' -> is_found e' = true.

Lemma missing_taken k es j e x : first_missing k es j e -> missing_from (S j) (<[j := taken_entry x e]> es) = missing_from k es - 1.
Proof.
  intros (Hk & Hj & He & Hlow). unfold missing_from.
  rewrite (icount_replaced (fun i e => bool_decide (k <= i)%nat && negb (is_found e)) _ es j e _ Hj).
  - cbv beta. rewrite He, bool_decide_eq_true_2, bool_decide_eq_false_2 by lia. cbn [negb andb Z.b2z]. lia.
  - intros i e' Hne Hi. destruct (decide (i < j)%nat) as [Hlt|Hge].
    + rewrite (bool_decide_eq_false_2 (S j <= i)%nat) by lia. destruct (decide (k <= i)%nat) as [Hki|Hki].
      * rewrite (Hlow i e') by (done || lia). cbn [negb]. by rewrite !andb_false_r.
      * by rewrite (bool_decide_eq_false_2 (k <= i)%nat) by lia.
    + by rewrite !bool_decide_eq_true_2 by lia.
Qed.

Lemma missing_out k es : (length es <= k)%nat -> missing_from k es = 0.
Proof.
  intros Hk. apply icount_never. intros i e Hi. apply lookup_lt_Some in Hi. by rewrite bool_decide_eq_false_2 by lia.
Qed.

Lemma next_unmapped_wp fuel : forall k s (Q : Z -> space C -> Prop), let es := req_map (request (sp_cache s)) in
  Z.of_nat (length es) = core_line_count (request (sp_cache s)) -> 0 < missing_from k es -> (length es < k + fuel)%nat ->
  (forall j e, first_missing k es j e -> Q (Z.of_nat j) s) -> wp (next_unmapped fuel (Z.of_nat k)) Q s.
Proof.
  induction fuel as [|fuel IH]; intros k s Q es Hlen Hm Hf HQ.
  { rewrite missing_out in Hm by lia. lia. }
  destruct (decide (length es <= k)%nat) as [|Hlt]; [rewrite missing_out in Hm by done; lia|].
  destruct (lookup_lt_is_Some_2 es k) as [e He]; [lia|].
  assert (Hnext : is_found e = true -> missing_from (S k) es = missing_from k es).
  { intros Hfe. apply icount_ext. intros i e' Hi. destruct (decide (i = k)) as [->|Hne].
    - rewrite He in Hi. injection Hi as <-. by rewrite Hfe, !andb_false_r.
    - f_equal. apply bool_decide_ext. lia. }
  cbn [next_unmapped]. apply wp_bind, wp_gets. rewrite <- Hlen.
  assert (Hhere : is_found e = false -> Q (Z.of_nat k) s).
  { intros Hfe. apply (HQ k e). split_and!; [lia|done|done|lia]. }
  case_bool_decide as Hlast.
  - apply wp_bind, wp_on_cache. eapply wp_entry; [lia|rewrite Nat2Z.id; exact He|]. rewrite with_same_cache.
    destruct (is_found e) eqn:Hfe; unfold is_found in Hfe; [apply negb_true_iff in Hfe|apply negb_false_iff in Hfe].
    + apply bool_decide_eq_false_1 in Hfe as Hs. rewrite bool_decide_eq_true_2 by done.
      replace (Z.of_nat k + 1) with (Z.of_nat (S k)) by lia. apply IH; [done|exact (eq_ind_r (fun z => 0 < z) Hm (Hnext eq_refl))|unfold es in *; lia|].
      intros j e' (H1 & H2 & H3 & H4). apply (HQ j e'). split_and!; [lia|done|done|]. intros i e1 Hi He1.
      destruct (decide (i = k)) as [->|]; [|apply (H4 i e1); [lia|done]]. assert (e1 = e) as -> by congruence. unfold is_found. by rewrite Hfe.
    + apply bool_decide_eq_true_1 in Hfe as Hs. rewrite bool_decide_eq_false_2 by (intros H; by apply H). apply wp_ret. by apply Hhere.
  - apply wp_ret. apply Hhere. destruct (is_found e) eqn:Hfe; [|done]. exfalso. specialize (Hnext eq_refl). rewrite missing_out in Hnext by lia. lia.
Qed.

(** ** The loop *)

(** [s'] is a later stage than [s], with [n] lines more. *)
Definition took (n : Z) s s' : Prop := conf_same (sp_parts s) (sp_parts s') /\
  (exists β m σ, stage (sp_cache s') β m σ) /\ missing (req_map (request (sp_cache s'))) = missing (req_map (request (sp_cache s))) - n.

Lemma took_still n s s1 s' : still s s1 -> took n s1 s' -> took n s s'.
Proof. intros [E1 H1] (H2 & H3 & H4). split; [by etrans|]. split; [done|]. by rewrite H4, E1. Qed.

Lemma took_more n n' s s1 s2 : took n s s1 -> took n' s1 s2 -> took (n + n') s s2.
Proof. intros (A1 & _ & A3) (B1 & B2 & B3). split; [by etrans|]. split; [done|]. rewrite B3, A3. lia. Qed.

Lemma stage_in_range c β m σ : stage c β m σ -> Forall line_in_range (req_map (request c)).
Proof.
  intros HS. pose proof (sg_inv _ _ _ _ HS) as HI. apply Forall_lookup. intros i e He Hf.
  pose proof (stage_line _ _ _ _ _ _ HS He Hf) as Hx. apply (proj2 (ci_map _ _ _ _ _ _ _ HI)) in Hx as [[h Hx] _].
  pose proof (wb_line _ _ (proj1 (ci_map _ _ _ _ _ _ _ HI)) h _ Hx). pose proof (wb_entries _ _ (proj1 (ci_map _ _ _ _ _ _ _ HI))). lia.
Qed.

Lemma stage_key c β m σ i : stage c β m σ -> key_of (request c) i = key_of r0 i.
Proof. intros HS. destruct (geometry_fields _ _ (sg_geometry _ _ _ _ HS)) as (E1 & _ & _ & _ & E5 & _). unfold key_of. by rewrite E1, E5. Qed.

Lemma key_valid i : (i < length (req_map r0))%nat -> valid_key (key_of r0 i).
Proof.
  intros Hi. destruct (bg_core HB) as (Hc & _). pose proof (bg_key HB) as Hk. unfold OCF_CORE_LINE_BITS in Hk.
  destruct (request_ok_lines (block_4k g) (line_size g) _ (bg_ok HB)) as (Hl & _). pose proof (ro_map _ _ (bg_ok HB)).
  destruct (request_span g _ (bg_ok HB)) as (H0 & _ & _ & Hf & _). destruct (L_bounds g) as (HL & _).
  assert (0 <= core_line_first r0) by (rewrite Hf; apply Z.div_pos; lia).
  unfold OCF_CORE_NUM, OCF_CORE_ID_BITS in Hc. split; cbn; lia.
Qed.

(** The line is assigned to the first missing entry. *)
Lemma assign_stage_wp s0 s c β m σ it k j e x ci part (Q : unit -> space C -> Prop) :
  stage c β m σ -> offer c m x ci part -> moved_to (block_4k g) (line_size g) c σ (req_part r0) x s0 s ->
  sp_cache s0 = c -> first_missing k (req_map (request c)) j e ->
  (forall s', took 1 s0 s' -> missing_from (S j) (req_map (request (sp_cache s'))) = missing_from k (req_map (request c)) - 1 -> Q tt s') ->
  wp (assign_cline (block_4k g) (line_size g) (num_entries g) (waiter_hash g) self it (Z.of_nat j) x ci part) Q s.
Proof.
  intros HS [Hr (st & Hst & Hd & Hv) Hheld Hidle Hoff] Hmv Es0 Hfirst HQ. pose proof Hfirst as (_ & He & Hf & _).
  pose proof (sg_inv _ _ _ _ HS) as HI. pose proof (bg_part HB) as Hp.
  destruct (geometry_fields _ _ (sg_geometry _ _ _ _ HS)) as (E1 & E2 & _).
  assert (Hms : me_status e = LOOKUP_MISS) by (unfold is_found in Hf; by apply negb_false_iff, bool_decide_eq_true_1 in Hf).
  destruct (sg_entry _ _ _ _ HS j e He) as (e0 & He0 & [(-> & _ & Hk)|(_ & _ & y & -> & _)]); [|done]. rewrite Hf in Hk.
  assert (Hjl : (j < length (req_map r0))%nat) by (by eapply lookup_lt_Some).
  eapply (assign_wp _ _ _ _ self c β m σ x j e0 it ci part st s0); rewrite ?E2; try done.
  - by eapply stage_ok.
  - apply (sg_locks _ _ _ _ HS).
  - eapply stage_ready; [exact HS|by right].
  - rewrite E1. apply (proj2 (sg_ready _ _ _ _ HS)), (bg_core HB).
  - destruct ci; [|done]. intros _. by apply Hv.
  - rewrite (stage_key c β m σ) by done. rewrite (bg_hash HB j e0 He0). unfold bucket_of. by rewrite (sg_hash _ _ _ _ HS).
  - rewrite (stage_key c β m σ) by done. apply Hk.
  - rewrite (stage_key c β m σ) by done. by apply key_valid.
  - by eapply stage_in_range.
  - intros c' β' σ' s' Es' Hcs Has. rewrite (stage_key c β m σ) in Has by done.
    destruct (stage_step c c' β β' m σ σ' x j e0 _ st HB HS Has He Hms Hheld Hst Hd Hidle) as (HS' & Hm' & Emap).
    { intros o src Ho. destruct ci as [o'|]; [|done]. injection Ho as <- _. by apply Hoff. }
    apply HQ.
    + split; [etrans; [apply Hmv|exact Hcs]|]. rewrite Es'. split; [eexists β', _, σ'; exact HS'|]. by rewrite Hm', Es0.
    + rewrite Es', Emap. by apply missing_taken.
Qed.

Lemma req_clines_wp p max : p = PARTITION_FREELIST \/ 0 <= p < OCF_USER_IO_CLASS_MAX -> forall n it i k cline s β m σ,
  stage (sp_cache s) β m σ -> classes_ok (sp_parts s) ->
  iter_ok it -> it_part it = p -> it_clean it = true -> cline = end_marker \/ 0 <= cline < num_entries g ->
  Z.of_nat n <= missing_from k (req_map (request (sp_cache s))) ->
  wp (req_clines (block_4k g) (line_size g) (num_entries g) (waiter_hash g) self hash_free n it p (req_part r0) max i (Z.of_nat k) cline)
    (fun t s' => i <= t <= i + Z.of_nat n /\ took (t - i) s s') s.
Proof.
  intros Hp. induction n as [|n IH]; intros it i k cline s β m σ HS Hcl Hit Ep Ec Hc Hn; cbn [req_clines].
  { apply wp_ret. split; [lia|]. split; [done|]. split; [by exists β, m, σ|]. lia. }
  apply wp_bind. eapply next_cline_wp; [exact HS|done|exact Hcl|done|done|done|done|done|..].
  - intros it' s' Hs. apply wp_ret. split; [lia|]. eapply took_still; [exact Hs|]. rewrite Z.sub_diag.
    split; [done|]. rewrite (proj1 Hs). split; [by exists β, m, σ|]. lia.
  - intros x ci part it' s1 Hit' (F1 & F2 & F3 & F4) Ho Hmv. pose proof Hmv as [_ (l' & σ' & Es1 & _)].
    assert (Er : request (sp_cache s1) = request (sp_cache s)) by (by rewrite Es1).
    pose proof (ro_map _ _ (stage_ok _ _ _ _ HB HS)) as Hlen.
    apply wp_bind, wp_gets, wp_bind. apply next_unmapped_wp; rewrite ?Er; [done|lia|lia|].
    intros j e Hfirst. apply wp_bind. eapply assign_stage_wp; [exact HS|exact Ho|exact Hmv|done|exact Hfirst|].
    intros s2 Ht Hm2. pose proof Ht as (Hcs & (β2 & m2 & σ2 & HS2) & Hm).
    destruct (proj1 (proj1 (stage_ready _ _ _ _ (req_part r0) HS2 (or_intror (bg_part HB))))) as [size Hsize].
    apply wp_bind, wp_read_lrus. eapply wp_load; [exact Hsize|]. split; [done|].
    destruct (bool_decide (part <> part_id (req_part r0)) && _).
    + apply wp_ret. split; [lia|]. by replace (i + 1 - i) with 1 by lia.
    + apply wp_bind, wp_gets. apply wp_bind, wp_bug_on.
      * destruct (decide (n = 0%nat)) as [->|Hn0]; [by rewrite andb_false_r|]. apply andb_false_iff. left. apply bool_decide_eq_false_2.
        intros Hlast. rewrite missing_out in Hm2; [lia|]. pose proof (ro_map _ _ (stage_ok _ _ _ _ HB HS2)). lia.
      * replace (Z.of_nat j + 1) with (Z.of_nat (S j)) by lia.
        eapply wp_mono; [eapply (IH it' (i + 1) (S j) x s2 β2 m2 σ2 HS2)|].
        -- eapply classes_same; [exact Hcs|exact Hcl].
        -- done.
        -- congruence.
        -- congruence.
        -- right. apply Ho.
        -- lia.
        -- intros t s' [Ht1 Ht2]. split; [lia|]. replace (t - i) with (1 + (t - (i + 1))) by lia. by eapply took_more.
Qed.

(** ** [ocf_lru_req_clines] *)

Lemma unmapped_missing c β m σ : stage c β m σ -> ocf_engine_unmapped_count (request c) = missing (req_map (request c)).
Proof.
  intros HS. pose proof (ro_map _ _ (stage_ok _ _ _ _ HB HS)) as Hlen. pose proof (sg_count _ _ _ _ HS) as Hc.
  destruct (request_ok_lines (block_4k g) (line_size g) _ (stage_ok _ _ _ _ HB HS)) as (_ & Hn & _).
  pose proof (icount_bounds (fun _ e => negb (is_found e)) (req_map (request c))) as Hb. fold (missing (req_map (request c))) in Hb.
  unfold ocf_engine_unmapped_count. rewrite (sg_info _ _ _ _ HS). cbn [counted_info hit_no invalid_no insert_no].
  rewrite <- (sg_length _ _ _ _ HS) in Hc. rewrite (wrap_small 32 (_ + _)) by lia. rewrite wrap_small by lia. lia.
Qed.

Lemma wp_config_read q ps (Q : ocf_user_part_config -> parts -> Prop) : config_there ps q -> (forall cfg, Q cfg ps) -> wp (config_of q) Q ps.
Proof. intros [Hp [cfg Hc]] HQ. by apply (wp_config ps q cfg). Qed.

Lemma max_size_wp q s (Q : Z -> space C -> Prop) : classes_ok (sp_parts s) -> 0 <= q < 34 ->
  (forall v s', still s s' -> Q v s') -> wp (on_parts (ocf_user_part_get_max_size q)) Q s.
Proof.
  intros (l & _ & Hc) Hq HQ. apply wp_on_parts. apply wp_bind, wp_config_read; [by apply Hc|]. intros cfg.
  apply wp_bind, wp_gets, wp_ret. by apply HQ.
Qed.

Lemma part_cases p : p = PARTITION_FREELIST \/ 0 <= p < OCF_USER_IO_CLASS_MAX -> p <> PARTITION_FREE_DETACHED.
Proof. intros [->|Hp]; [done|]. unfold PARTITION_FREE_DETACHED, OCF_USER_IO_CLASS_MAX in *. lia. Qed.

Lemma lru_req_clines_wp p n s β m σ : p = PARTITION_FREELIST \/ 0 <= p < OCF_USER_IO_CLASS_MAX ->
  stage (sp_cache s) β m σ -> classes_ok (sp_parts s) -> 0 <= n <= missing (req_map (request (sp_cache s))) ->
  wp (ocf_lru_req_clines (block_4k g) (line_size g) (num_entries g) (waiter_hash g) self hash_free p n)
    (fun t s' => 0 <= t <= n /\ took t s s') s.
Proof.
  intros Hp HS Hcl Hn. pose proof (bg_part HB) as Hd. unfold ocf_lru_req_clines. case_bool_decide as H0.
  { apply wp_ret. split; [lia|]. split; [done|]. split; [by exists β, m, σ|]. lia. }
  destruct (geometry_fields _ _ (sg_geometry _ _ _ _ HS)) as (_ & E2 & _).
  apply wp_bind, wp_gets. rewrite E2. apply wp_bind. apply max_size_wp; [done|unfold OCF_USER_IO_CLASS_MAX in Hd; lia|].
  intros max s1 H1. pose proof H1 as [Es1 Hc1]. apply wp_bind, wp_gets. rewrite Es1, (unmapped_missing _ _ _ _ HS).
  apply wp_bind, wp_bug_on; [apply bool_decide_eq_false_2; lia|].
  apply wp_bind, wp_bug_on; [apply bool_decide_eq_false_2; unfold PARTITION_FREELIST; lia|].
  apply wp_bind, wp_read_lrus. unfold user_part. apply wp_bind, wp_bug_on; [apply bool_decide_eq_false_2; lia|]. apply wp_ret. split; [done|].
  apply wp_bind, wp_gets. apply wp_bind, wp_modify. set (s2 := with_lru_idx _ s1).
  assert (H2 : still s s2) by (split; [exact Es1|exact Hc1]). assert (Es2 : sp_cache s2 = sp_cache s) by apply H2. clearbody s2.
  apply wp_bind. eapply (iter_init_wp _ _ _ (sp_cache s)); [exact (sg_inv _ _ _ _ HS)|by apply part_cases|by eapply stage_ready|by left|exact Es2|]. intros it Hit Ep Ec _ _ _.
  eapply wp_mono; [change 0 with (Z.of_nat 0) at 2; eapply (req_clines_wp p max Hp _ it 0 0%nat end_marker s2)|].
  - rewrite Es2. exact HS.
  - eapply classes_same; [apply H2|done].
  - done.
  - done.
  - done.
  - by left.
  - rewrite Es2, missing_all. lia.
  - intros t s' [Ht1 Ht2]. rewrite Z.sub_0_r in Ht2. split; [lia|]. by eapply took_still.
Qed.
End EvictLoop.
