(* ===== verification/EvictSpace.v ===== *)
(** * Space management: [src/ocf_space.c]

    The choice of partitions to evict from only decides where the lines come
    from: whatever the sizes, priorities and counters are, the request goes from
    stage to stage, and no more lines are taken than it misses. *)

From S2P Require Import Prelude Alock AlockProofs CacheLineLock CacheLineLockProofs Links Lru LruProofs LruSeq Generator LruPart LruPartProofs.
From S2P Require Import Collision CollisionProofs Status StatusProofs Request RequestProofs CacheLine CacheLineProofs CacheLineSteps Engine EngineProofs EngineCheck.
From S2P Require Import PartMove HashLock IndexList IndexListProofs IoClass IoClassProofs EngineIo EngineBase Cleaner Content EngineSpec EngineRuns.
From S2P Require Import Evict EvictIter EvictTake EvictNext EvictAssign EvictLoop.
Open Scope Z_scope.

Section EvictSpace.
Context {C : Type} `{!CleaningPolicy C}.
Context (g : config) (self : Z) (hash_free : nat -> Z -> bool).
Abbreviation EV := (Prelude.M (space C)).
Abbreviation lru_of := (lru_of (block_4k g) (line_size g)).
Abbreviation inv := (cache_inv (C:=C) (block_4k g) (line_size g) (num_entries g)).
Abbreviation on_lrus := (on_lrus (C:=C) (block_4k g) (line_size g)).
Implicit Types (c : cache C) (m : gmap core_info Z) (s : space C).

(** ** Loops over the classes *)

Lemma each_class_wp {A} (body : Z -> A -> EV (A + A)) (I : list Z -> A -> space C -> Prop) (Q : A -> space C -> Prop) acc s l :
  lst_holds (sp_parts s) l -> I [] acc s ->
  (forall pre x post a s1, l = pre ++ x :: post -> conf_same (sp_parts s) (sp_parts s1) -> I pre a s1 ->
    wp (body x a) (fun r s2 => conf_same (sp_parts s) (sp_parts s2) /\
      match r with inl a' => Q a' s2 | inr a' => I (pre ++ [x]) a' s2 end) s1) ->
  (forall a s1, conf_same (sp_parts s) (sp_parts s1) -> I l a s1 -> Q a s1) -> wp (each_user_part body acc) Q s.
Proof.
  intros [[Hnd Hr H] _] HI Hb HQ. unfold each_user_part. assert (Hlen := lines_bound l 34 ltac:(lia) Hnd Hr).
  destruct (link_lookup _ _ _ _ [] _ H) as (h & Hh & _ & Hn). cbn in Hn.
  apply wp_bind. eapply (IndexListProofs.wp_next s OCF_USER_IO_CLASS_MAX h); [exact Hh|]. rewrite Hn.
  change (hdd OCF_USER_IO_CLASS_MAX l) with (hdd (lst_invalid (St:=space C)) l).
  eapply (wp_for_each (St:=space C) (lst_entries s) l body (fun pre a s' => conf_same (sp_parts s) (sp_parts s') /\ I pre a s')); try done.
  - unfold parts_fuel. lia.
  - intros pre x post a s1 El _ [Hc Ha]. eapply wp_mono; [by eapply Hb|]. cbn beta. intros r s2 [Hc2 Hr2].
    split; [cbn; by rewrite (proj1 Hc2)|]. by destruct r.
  - intros a s1 _ [Hc Ha]. by apply HQ.
Qed.

(** ** Counters

    An eviction counter is of nobody else's concern. *)

Definition with_counter (q v : Z) (l : lru_cache) : lru_cache :=
  LruCache (nodes l) (lists l) (LruPart.curr_size l) (<[q := v]> (evict_counter l)) (LruPart.dirty l).

Lemma counter_ready q v l p : part_ready l p -> part_ready (with_counter q v l) p.
Proof. intros [[H1 H2] H3]. split; [split; [done|]|done]. cbn. rewrite lookup_insert_is_Some'. by right. Qed.

Lemma counter_inv c β m σ q v : inv c β m σ -> inv (put_lru (with_counter q v (lru_of c)) c) β m σ.
Proof.
  intros HI. pose proof HI as [H1 H2 [P1 P2 P3] H4 H5 H6 H7 H8 H9 H10 H11 H12]. split; try done.
  - split; [|exact P2|exact P3]. by apply (lists_rep_ext (lru_of c)).
  - exact (counter_ready q v (lru_of c) _ H4).
  - intros x Hx. destruct (H10 x Hx) as (st & n & [F1 F2 F3 F4 F5]). exists st, n. split; try done.
    exact (counter_ready q v (lru_of c) _ F5).
Qed.

Context (c0 : cache C) (m0 : gmap core_info Z) (HB : begins g c0 m0).
Abbreviation stage := (stage g self c0 m0).
Abbreviation took := (took g self c0 m0).

Lemma counter_stage c β m σ q v : stage c β m σ -> stage (put_lru (with_counter q v (lru_of c)) c) β m σ.
Proof.
  intros [S1 S2 S3 S4 S5 S6 S7 S8 S9 S10 S11 S12]. split; try done.
  - by apply counter_inv.
  - split; [|apply S4]. intros p Hp. exact (counter_ready q v (lru_of c) p (proj1 S4 p Hp)).
Qed.

(** A space at a stage. *)
Definition ready s : Prop := (exists β m σ, stage (sp_cache s) β m σ) /\ classes_ok (sp_parts s).

Lemma took_ready n s s' : ready s -> took n s s' -> ready s'.
Proof. intros [_ H1] (H2 & H3 & _). split; [done|]. by eapply classes_same. Qed.

Lemma took_none s s' : ready s -> still s s' -> took 0 s s'.
Proof. intros [H1 _] [E Hc]. split; [done|]. rewrite E. split; [done|lia]. Qed.

Lemma ready_part s p : ready s -> 0 <= p < OCF_USER_IO_CLASS_MAX -> part_ready (lru_of (sp_cache s)) p.
Proof. intros [(β & m & σ & HS) _] Hp. eapply stage_ready; [exact HB|exact HS|by right]. Qed.

Lemma counters_inc_wp p d s (Q : Z -> space C -> Prop) : ready s -> 0 <= p < OCF_USER_IO_CLASS_MAX ->
  (forall v s', took 0 s s' -> Q v s') -> wp (ocf_evict_counters_inc (block_4k g) (line_size g) p d) Q s.
Proof.
  intros Hr Hp HQ. destruct (ready_part s p Hr Hp) as [[_ [v Hv]] _]. pose proof Hr as [(β & m & σ & HS) _].
  unfold ocf_evict_counters_inc. apply wp_bind, wp_read_lrus. eapply wp_load; [exact Hv|]. split; [done|].
  apply wp_bind, wp_on_lrus, wp_modify, wp_ret, HQ. split; [done|]. split.
  - exists β, m, σ. exact (counter_stage _ _ _ _ p (s32 (v + d)) HS).
  - symmetry. apply Z.sub_0_r.
Qed.

Lemma part_size_wp p s (Q : Z -> space C -> Prop) : ready s -> 0 <= p < OCF_USER_IO_CLASS_MAX \/ p = PARTITION_FREELIST ->
  (forall v, Q v s) -> wp (part_size_of (block_4k g) (line_size g) p) Q s.
Proof.
  intros Hr Hp HQ. assert (Hpr : part_ready (lru_of (sp_cache s)) p).
  { destruct Hp as [Hp| ->]; [by apply ready_part|]. destruct Hr as [(β & m & σ & HS) _]. eapply stage_ready; [exact HB|exact HS|by left]. }
  destruct (proj1 (proj1 Hpr)) as [v Hv]. unfold part_size_of. apply wp_read_lrus. apply wp_bind. eapply wp_load; [exact Hv|]. by apply wp_ret.
Qed.

(** ** The list of the classes

    Configurations are read, and do not change. *)

Lemma read_config_wp s x (Q : ocf_user_part_config -> space C -> Prop) :
  ready s -> 0 <= x < 34 ->
  (forall cfg s2, part_config (sp_parts s) !! x = Some cfg -> still s s2 -> Q cfg s2) -> wp (on_parts (config_of x)) Q s.
Proof. intros [_ Hc] Hx HQ. by apply wp_config_of. Qed.

(** The class in hand of a loop over the list. *)
Lemma loop_class s l x pre post : lst_holds (sp_parts s) l -> l = pre ++ x :: post -> 0 <= x < OCF_USER_IO_CLASS_MAX.
Proof. intros [[_ Hr _] _] ->. apply Hr. set_solver. Qed.

Lemma ready_still s s' : ready s -> still s s' -> ready s'.
Proof. intros Hr Hs. eapply took_ready; [exact Hr|]. by apply took_none. Qed.

Lemma took_trans0 s s1 s' n : took 0 s s1 -> took n s1 s' -> took n s s'.
Proof. intros H1 H2. rewrite <- (Z.add_0_l n). by eapply took_more. Qed.

Lemma took_refl s : ready s -> took 0 s s.
Proof. intros Hr. by apply took_none. Qed.

(** ** [ocf_evict_counters_update] *)

Lemma counters_update_wp prio s : ready s -> wp (ocf_evict_counters_update (block_4k g) (line_size g) prio) (fun _ s' => took 0 s s') s.
Proof.
  intros Hr. pose proof Hr as [_ (l & Hl & _)]. unfold ocf_evict_counters_update. cbv zeta.
  apply wp_bind, wp_on_parts, wp_gets. set (s1 := with_parts _ s).
  assert (T1 : took 0 s s1) by by apply took_none.
  assert (Hl1 : lst_holds (sp_parts s1) l) by by eapply lst_holds_same; [|exact Hl].
  assert (Hr1 : ready s1) by by eapply took_ready. clearbody s1.
  (* the classes before the first with a lower priority *)
  set (stops x := exists cfg, part_config (sp_parts s1) !! x = Some cfg /\ u16 prio > uc_priority cfg).
  apply wp_bind. eapply wp_mono; [apply (each_class_wp (A := list Z * Z) _
    (fun pre r s2 => took 0 s1 s2 /\ length r.1 = length pre /\ forall x, x ∈ pre -> ~ stops x)
    (fun r s2 => took 0 s1 s2 /\ exists pre post, l = pre ++ post /\ length r.1 = length pre /\ (forall x, x ∈ pre -> ~ stops x) /\
      forall x post', post = x :: post' -> stops x) _ _ l Hl1)|].
  - split; [by apply took_refl|]. split; [done|]. set_solver.
  - intros pre x post [sizes least] s2 El Hc (H1 & H2 & H3). assert (Hx := loop_class _ _ _ _ _ Hl1 El). cbn [fst snd] in *.
    assert (Hr2 : ready s2) by by eapply took_ready. apply wp_bind, read_config_wp; [done|unfold OCF_USER_IO_CLASS_MAX in Hx; lia|].
    intros cfg s3 Hcfg Hs3. assert (T3 : took 0 s1 s3) by (eapply took_trans0; [exact H1|by apply took_none]).
    assert (Hcfg1 : part_config (sp_parts s1) !! x = Some cfg) by by rewrite <- (proj1 (proj2 Hc)).
    case_bool_decide as Hp.
    + apply wp_ret. split; [apply T3|]. split; [done|]. exists pre, (x :: post). split_and!; try done.
      intros ? ? [= <- <-]. by exists cfg.
    + apply wp_bind, part_size_wp; [by eapply took_ready, T3|by left|]. intros v. apply wp_ret. split; [apply T3|]. split; [done|]. cbn [fst].
      split; [rewrite !length_app; cbn; lia|]. intros y [Hy| ->%list_elem_of_singleton]%elem_of_app; [by apply H3|].
      intros (cfg' & Hc' & Hp'). by simplify_eq.
  - intros r s2 Hc (H1 & H2 & H3). split; [done|]. exists l, []. by rewrite app_nil_r.
  - intros r s2 (T2 & pre0 & post0 & El0 & Hlen & Hpre & Hpost).
    assert (Hl2 : lst_holds (sp_parts s2) l) by (eapply lst_holds_same; [|exact Hl1]; cbn; by rewrite (proj1 (proj1 T2))).
    assert (Hr2 : ready s2) by by eapply took_ready.
    apply wp_bind. eapply wp_mono; [apply (each_class_wp (A := list Z) _
      (fun pre sizes s3 => took 0 s2 s3 /\ exists rest, pre0 = pre ++ rest /\ length sizes = length rest)
      (fun _ s3 => took 0 s2 s3) _ _ l Hl2)|].
    + split; [by apply took_refl|]. by exists pre0.
    + intros pre x post sizes s3 El Hc (H1 & rest & Erest & Hlr). assert (Hx := loop_class _ _ _ _ _ Hl2 El).
      assert (Hr3 : ready s3) by by eapply took_ready. apply wp_bind, read_config_wp; [done|unfold OCF_USER_IO_CLASS_MAX in Hx; lia|].
      intros cfg s4 Hcfg Hs4. assert (T4 : took 0 s2 s4) by (eapply took_trans0; [exact H1|by apply took_none]).
      assert (Hcfg1 : part_config (sp_parts s1) !! x = Some cfg) by by rewrite <- (proj1 (proj2 (proj1 T2))), <- (proj1 (proj2 Hc)).
      case_bool_decide as Hp; [apply wp_ret; by split; [apply T4|]|].
      assert (exists rest', rest = x :: rest') as [rest' ->].
      { destruct rest as [|y rest'].
        - exfalso. rewrite app_nil_r in Erest. subst pre0. rewrite El0 in El. apply app_inv_head in El.
          destruct (Hpost x post El) as (cfg' & Hc' & Hp'). by simplify_eq.
        - exists rest'. rewrite El0, Erest, <- app_assoc in El. apply app_inv_head in El. by injection El as ->. }
      destruct sizes as [|size sizes]; [done|]. injection Hlr as Hlr.
      assert (Hnext : exists rest, pre0 = (pre ++ [x]) ++ rest /\ length sizes = length rest) by (exists rest'; by rewrite <- app_assoc).
      case_bool_decide as Hz; [apply wp_ret; split; [apply T4|by split]|].
      apply wp_bind, counters_inc_wp; [by eapply took_ready, T4|done|]. intros v s5 H5.
      assert (T5 : took 0 s2 s5) by by eapply took_trans0. apply wp_ret. split; [apply T5|]. by split.
    + intros sizes s3 _ [H1 _]. exact H1.
    + intros sizes s3 T3. apply wp_ret. eapply took_trans0; [exact T1|]. by eapply took_trans0.
Qed.

(** ** Evicting from the classes *)

(** What is still missing. *)
Abbreviation left s := (missing (req_map (request (sp_cache s)))).

Lemma ready_ok c β m σ : stage c β m σ -> request_ok (line_size g) (request c).
Proof. by apply stage_ok. Qed.
Lemma still_missing c β m σ : stage c β m σ -> ocf_engine_unmapped_count (request c) = missing (req_map (request c)).
Proof. by apply unmapped_missing. Qed.

Lemma left_bound s : ready s -> 0 <= left s < 2 ^ 32.
Proof.
  intros [(β & m & σ & HS) _]. destruct (request_ok_lines (block_4k g) (line_size g) _ (ready_ok _ _ _ _ HS)) as (_ & Hn & _).
  pose proof (ro_map _ _ (ready_ok _ _ _ _ HS)). pose proof (icount_bounds (fun _ e => negb (is_found e)) (req_map (request (sp_cache s)))) as Hb.
  unfold missing. lia.
Qed.

Lemma took_left n s s' : took n s s' -> left s' = left s - n.
Proof. by intros (_ & _ & H). Qed.

Lemma evict_calculate_wp x n s (Q : Z -> space C -> Prop) : ready s -> 0 <= x < OCF_USER_IO_CLASS_MAX -> 0 <= n ->
  (forall v s', 0 <= v <= n -> still s s' -> Q v s') -> wp (ocf_evict_calculate x n) Q s.
Proof.
  intros Hr Hx Hn HQ. destruct (proj1 (proj1 (ready_part s x Hr Hx))) as [size Hsize]. unfold ocf_evict_calculate.
  apply wp_bind, wp_on_parts. apply wp_bind. eapply wp_load; [exact Hsize|]. apply wp_ret.
  assert (Hs1 : still s (with_parts (parts_now s) s)) by done. set (s1 := with_parts _ s) in *. clearbody s1.
  apply wp_bind, wp_on_parts. unfold ocf_user_part_get_min_size. apply wp_bind.
  assert (Hc1 : classes_ok (sp_parts s1)) by by eapply ready_still. destruct Hc1 as (l & _ & Hc).
  apply wp_config_read; [apply (Hc x); unfold OCF_USER_IO_CLASS_MAX in Hx; lia|]. intros cfg. apply wp_bind, wp_gets, wp_ret.
  assert (Hs2 : still s (with_parts (parts_now s1) s1)) by by etrans. set (s2 := with_parts _ s1) in *. clearbody s2.
  destruct (bool_decide _); apply wp_ret, HQ; try done. case_bool_decide; [|lia].
  match goal with |- context [u32 (?a - ?b)] => pose proof (wrap_range 32 (a - b) ltac:(lia)) end. lia.
Qed.

(** The policy takes at most [n] lines. *)
Lemma req_clines_space p n s : ready s -> p = PARTITION_FREELIST \/ 0 <= p < OCF_USER_IO_CLASS_MAX -> 0 <= n <= left s ->
  wp (ocf_eviction_req_clines (block_4k g) (line_size g) (num_entries g) (waiter_hash g) self hash_free p n)
    (fun t s' => 0 <= t <= n /\ took t s s') s.
Proof. intros [(β & m & σ & HS) Hc] Hp Hn. by eapply lru_req_clines_wp. Qed.

Lemma evict_from_wp ov x n e s : ready s -> 0 <= x < OCF_USER_IO_CLASS_MAX -> 0 <= n <= left s -> 0 <= e -> e + left s < 2 ^ 32 ->
  wp (evict_from (block_4k g) (line_size g) (num_entries g) (waiter_hash g) self hash_free ov x n e)
    (fun r s' => e <= r.1 <= e + n /\ took (r.1 - e) s s') s.
Proof.
  intros Hr Hx Hn He Hb. unfold evict_from. pose proof (left_bound s Hr).
  assert (Hcount : forall P : Z -> space C -> Prop, (forall v s', took 0 s s' -> P v s') ->
    wp (if ov then mret 0 else ocf_evict_counters_inc (block_4k g) (line_size g) x (- s32 n)) P s).
  { intros P HP. destruct ov; [by apply wp_ret, HP, took_refl|by apply counters_inc_wp]. }
  apply wp_bind, Hcount. intros v s1 T1. assert (Hr1 : ready s1) by by eapply took_ready.
  destruct (negb ov && _).
  { apply wp_bind, counters_inc_wp; [done|done|]. intros v2 s2 T2. apply wp_ret. cbn [fst]. split; [lia|].
    rewrite Z.sub_diag. by eapply took_trans0. }
  pose proof (took_left _ _ _ T1). apply wp_bind. eapply wp_mono; [apply req_clines_space; [done|by right|lia]|]. intros t s2 [Ht T2].
  assert (T : took t s s2) by by eapply took_trans0. assert (Et : u32 (e + t) = e + t) by (apply wrap_small; lia).
  destruct (negb ov && _).
  - apply wp_bind, counters_inc_wp; [by eapply took_ready, T|done|]. intros v3 s3 T3. apply wp_ret. cbn [fst]. rewrite Et. split; [lia|].
    replace (e + t - e) with (t + 0) by lia. by eapply took_more.
  - apply wp_ret. cbn [fst]. rewrite Et. split; [lia|]. by replace (e + t - e) with t by lia.
Qed.

Lemma overflow_size_wp x s (Q : Z -> space C -> Prop) : ready s -> 0 <= x < OCF_USER_IO_CLASS_MAX ->
  (forall v s', 0 <= v -> still s s' -> Q v s') -> wp (on_parts (ocf_user_part_overflow_size x)) Q s.
Proof.
  intros Hr Hx HQ. destruct (proj1 (proj1 (ready_part s x Hr Hx))) as [size Hsize]. pose proof Hr as [_ (l & _ & Hc)].
  apply wp_on_parts. unfold ocf_user_part_overflow_size, ocf_part_get_occupancy, ocf_user_part_get_max_size.
  apply wp_bind, wp_bind. eapply wp_load; [exact Hsize|]. apply wp_ret. apply wp_bind, wp_bind.
  apply wp_config_read; [apply (Hc x); unfold OCF_USER_IO_CLASS_MAX in Hx; lia|]. intros cfg. apply wp_bind, wp_gets, wp_ret, wp_ret, HQ; [|done].
  case_bool_decide; [|done]. match goal with |- context [u32 (?a - ?b)] => pose proof (wrap_range 32 (a - b) ltac:(lia)) end. lia.
Qed.

Lemma partitions_once_wp n ov prio s : ready s -> 0 <= n <= left s ->
  wp (ocf_evict_user_partitions_once (block_4k g) (line_size g) (num_entries g) (waiter_hash g) self hash_free n ov prio)
    (fun r s' => 0 <= r.1 <= n /\ took r.1 s s') s.
Proof.
  intros Hr Hn. pose proof (left_bound s Hr) as Hb. pose proof Hr as [_ (l & Hl & _)]. unfold ocf_evict_user_partitions_once.
  apply (each_class_wp (A := Z * bool) _ (fun _ r s' => 0 <= r.1 <= n /\ took r.1 s s') _ _ _ l Hl).
  - split; [cbn; lia|]. by apply took_refl.
  - intros pre x post [e more] s1 El Hc [He T]. cbn [fst] in *. assert (Hx := loop_class _ _ _ _ _ Hl El). pose proof (took_left _ _ _ T).
    assert (Hr1 : ready s1) by by eapply took_ready.
    assert (Hstay : forall s2, still s1 s2 -> conf_same (sp_parts s) (sp_parts s2) /\ 0 <= e <= n /\ took e s s2).
    { intros s2 Hs. assert (T2 : took e s s2) by (replace e with (e + 0) by lia; eapply took_more; [exact T|by apply took_none]).
      split; [apply T2|done]. }
    apply wp_bind, read_config_wp; [done|unfold OCF_USER_IO_CLASS_MAX in Hx; lia|]. intros cfg s2 _ Hs2.
    case_bool_decide; [by apply wp_ret, Hstay|]. destruct (negb ov && _); [by apply wp_ret, Hstay|].
    assert (Hov : forall P : Z -> space C -> Prop, (forall v s3, 0 <= v -> still s1 s3 -> P v s3) ->
      wp (if ov then on_parts (ocf_user_part_overflow_size x) else mret 0) P s2).
    { intros P HP. destruct ov; [|by apply wp_ret, HP]. apply overflow_size_wp; [by eapply ready_still|done|].
      intros v s3 Hv Hs3. apply HP; [done|by etrans]. }
    apply wp_bind, Hov. intros size s3 Hsize Hs3. destruct (ov && _); [by apply wp_ret, Hstay|].
    rewrite (wrap_small 32 (n - e)) by lia. apply wp_bind, evict_calculate_wp; [by eapply ready_still|done|lia|].
    intros k s4 Hk Hs4'. assert (Hs4 : still s1 s4) by by etrans. case_bool_decide; [by apply wp_ret, Hstay|].
    apply wp_bind. eapply wp_mono; [apply evict_from_wp; [by eapply ready_still|done| | |]|].
    + rewrite (proj1 Hs4). destruct ov; lia.
    + lia.
    + rewrite (proj1 Hs4). lia.
    + intros [e' c'] s5 [He' T5]. cbn [fst snd] in *. assert (T' : took e' s s5).
      { replace e' with (e + (e' - e)) by lia. eapply took_more; [exact T|]. eapply took_still; [exact Hs4|exact T5]. }
      assert (He2 : 0 <= e' <= n) by (destruct ov; lia). apply wp_ret. split; [apply T'|]. by case_bool_decide.
  - done.
Qed.

Lemma evict_rounds_wp k n ov prio : forall e s, ready s -> 0 <= e <= n -> n - e <= left s -> n < 2 ^ 32 ->
  wp (evict_rounds (block_4k g) (line_size g) (num_entries g) (waiter_hash g) self hash_free k n ov prio e)
    (fun r s' => e <= r <= n /\ took (r - e) s s') s.
Proof.
  induction k as [|k IH]; intros e s Hr He Hn Hb; cbn [evict_rounds].
  { apply wp_ret. split; [lia|]. rewrite Z.sub_diag. by apply took_refl. }
  rewrite (wrap_small 32 (n - e)) by lia. apply wp_bind. eapply wp_mono; [apply partitions_once_wp; [done|lia]|].
  intros [t more] s1 [Ht T]. cbn [fst snd] in *. rewrite (wrap_small 32 (e + t)) by lia.
  assert (T' : took (e + t - e) s s1) by by replace (e + t - e) with t by lia.
  case_bool_decide; [apply wp_ret; split; [lia|done]|]. destruct ov; [apply wp_ret; split; [lia|done]|].
  assert (Hr1 : ready s1) by by eapply took_ready. pose proof (took_left _ _ _ T).
  apply wp_bind. apply (wp_mono _ (fun _ s2 => took 0 s1 s2)).
  { destruct more; [by apply counters_update_wp|by apply wp_ret, took_refl]. }
  intros _ s2 T2. pose proof (took_left _ _ _ T2). eapply wp_mono; [apply IH; [by eapply took_ready, T2|lia..]|].
  intros r s3 [Hr3 T3]. split; [lia|]. replace (r - e) with (t + (r - (e + t))) by lia. eapply took_more; [exact T|]. by eapply took_trans0.
Qed.

(** ** Lines for the request *)

Lemma part_do_wp s : ready s ->
  wp (ocf_evict_part_do (block_4k g) (line_size g) (num_entries g) (waiter_hash g) self hash_free (req_part (request c0)))
    (fun t s' => 0 <= t <= left s /\ took t s s') s.
Proof.
  intros Hr. pose proof Hr as [(β & m & σ & HS) _]. pose proof (left_bound s Hr). unfold ocf_evict_part_do.
  apply wp_bind, wp_gets. rewrite (still_missing _ _ _ _ HS).
  apply wp_bind, evict_calculate_wp; [done|apply HB|lia|]. intros k s1 Hk Hs1. case_bool_decide.
  - apply wp_ret. split; [lia|]. by apply took_none.
  - eapply wp_mono; [apply req_clines_space; [by eapply ready_still|right; apply HB|rewrite (proj1 Hs1); lia]|].
    intros t s2 [Ht T]. split; [lia|]. by eapply took_still.
Qed.

Lemma remap_lines_wp s : ready s ->
  wp (ocf_remap_do (block_4k g) (line_size g) (num_entries g) (waiter_hash g) self hash_free)
    (fun t s' => 0 <= t <= left s /\ took t s s') s.
Proof.
  intros Hr. pose proof Hr as [(β & m & σ & HS) _]. pose proof (left_bound s Hr). unfold ocf_remap_do.
  destruct (geometry_fields _ _ (sg_geometry _ _ _ _ _ _ _ _ HS)) as (_ & E2 & _).
  apply wp_bind, wp_gets. rewrite E2. apply wp_bind, wp_gets. rewrite (still_missing _ _ _ _ HS).
  apply wp_bind, part_size_wp; [done|by right|]. intros free.
  apply wp_bind. apply (wp_mono _ (fun t s' => 0 <= t <= left s /\ took t s s')).
  { case_bool_decide; [apply req_clines_space; [done|by left|lia]|apply wp_ret; split; [lia|by apply took_refl]]. }
  intros t s1 [Ht T]. assert (Hr1 : ready s1) by by eapply took_ready. pose proof (took_left _ _ _ T). case_bool_decide; [by apply wp_ret|].
  rewrite (wrap_small 32 (_ - t)) by lia. apply wp_bind. eapply wp_mono; [apply evict_rounds_wp; [done|lia..]|].
  intros e s2 [He T2]. rewrite Z.sub_0_r in T2. rewrite (wrap_small 32 (t + e)) by lia.
  assert (T' : took (t + e) s s2) by by eapply took_more. assert (Hr2 : ready s2) by by eapply took_ready. pose proof (took_left _ _ _ T').
  case_bool_decide; [apply wp_ret; split; [lia|done]|].
  apply wp_bind, read_config_wp; [done|pose proof (bg_part _ _ _ HB) as Hp; unfold OCF_USER_IO_CLASS_MAX in Hp; lia|].
  intros cfg s3 _ Hs3. rewrite (wrap_small 32 (_ - (t + e))) by lia. apply wp_bind.
  eapply wp_mono; [apply evict_rounds_wp; [by eapply ready_still|lia|rewrite (proj1 Hs3); lia|lia]|].
  intros e2 s4 [He2 T4]. rewrite Z.sub_0_r in T4. apply wp_ret. rewrite (wrap_small 32 (t + e + e2)) by lia. split; [lia|].
  eapply took_more; [exact T'|]. by eapply took_still.
Qed.

Lemma space_remap_wp own s : ready s ->
  wp (ocf_space_managment_remap_do (block_4k g) (line_size g) (num_entries g) (waiter_hash g) self hash_free own)
    (fun r s' => exists t, took t s s' /\ 0 <= t <= left s /\ r = if bool_decide (left s' = 0) then LOOKUP_REMAPPED else LOOKUP_MISS) s.
Proof.
  intros Hr. pose proof Hr as [(β & m & σ & HS) _]. unfold ocf_space_managment_remap_do.
  destruct (geometry_fields _ _ (sg_geometry _ _ _ _ _ _ _ _ HS)) as (_ & E2 & _).
  apply wp_bind, wp_gets, wp_bind, wp_gets. rewrite (still_missing _ _ _ _ HS), E2. apply wp_bind.
  apply (wp_mono _ (fun t s' => 0 <= t <= left s /\ took t s s')); [destruct own; [by apply part_do_wp|by apply remap_lines_wp]|].
  intros t s' [Ht T]. apply wp_ret. exists t. split; [done|]. split; [done|]. pose proof (took_left _ _ _ T).
  case_bool_decide; case_bool_decide; try done; lia.
Qed.
End EvictSpace.
