(* ===== verification/EvictPinned.v ===== *)
(** * Pinned classes: [ocf_evict_counters_update]

    The function takes a priority as an [uint16_t], so the priority -1 of a
    pinned class is 65535 to it and no counter is raised: a request of such a
    class only evicts while requests of other classes have left a counter above
    zero. *)

From S2P Require Import Prelude Alock AlockProofs CacheLineLock CacheLineLockProofs Links Lru LruProofs LruSeq Generator LruPart LruPartProofs.
From S2P Require Import Collision CollisionProofs Status StatusProofs Request RequestProofs CacheLine CacheLineProofs CacheLineSteps Engine EngineProofs EngineCheck.
From S2P Require Import PartMove HashLock IndexList IndexListProofs IoClass IoClassProofs EngineIo EngineBase Cleaner Content EngineSpec EngineRuns.
From S2P Require Import Evict EvictIter EvictTake EvictNext EvictAssign EvictLoop EvictSpace.
Open Scope Z_scope.

Section EvictPinned.
Context {C : Type} `{!CleaningPolicy C}.
Context (g : config) (self : Z) (hash_free : nat -> Z -> bool).
Abbreviation lru_of := (lru_of (block_4k g) (line_size g)).
Implicit Types (c : cache C) (s : space C).

(** All eviction counters are zero. *)
Record calm s : Prop := {
  cm_classes : classes_ok (sp_parts s);
  cm_ready p : 0 <= p < OCF_USER_IO_CLASS_MAX -> part_ready (lru_of (sp_cache s)) p;
  cm_counter p : 0 <= p < OCF_USER_IO_CLASS_MAX -> evict_counter (lru (sp_cache s)) !! p = Some 0;
  cm_priority p cfg : part_config (sp_parts s) !! p = Some cfg -> uc_priority cfg < 65535
}.

Lemma calm_still s s' : calm s -> still s s' -> calm s'.
Proof.
  intros [H1 H2 H3 H4] [E Hc]. pose proof Hc as (_ & Ec & _). split; rewrite ?E, ?Ec; try done. by eapply classes_same.
Qed.

Lemma calm_class s l x pre post : calm s -> lst_holds (sp_parts s) l -> l = pre ++ x :: post -> 0 <= x < OCF_USER_IO_CLASS_MAX.
Proof. intros _ [[_ Hr _] _] ->. apply Hr. set_solver. Qed.

Lemma calm_calculate_wp x n s (Q : Z -> space C -> Prop) : calm s -> 0 <= x < OCF_USER_IO_CLASS_MAX -> 0 <= n ->
  (forall v s', 0 <= v <= n -> still s s' -> Q v s') -> wp (ocf_evict_calculate x n) Q s.
Proof.
  intros [Hc Hr _ _] Hx Hn HQ. destruct (proj1 (proj1 (Hr x Hx))) as [size Hsize]. unfold ocf_evict_calculate.
  apply wp_bind, wp_on_parts. apply wp_bind. eapply wp_load; [exact Hsize|]. apply wp_ret.
  assert (Hs1 : still s (with_parts (parts_now s) s)) by done. set (s1 := with_parts _ s) in *.
  assert (Hc1 : classes_ok (sp_parts s1)) by (eapply classes_same; [apply Hs1|exact Hc]). clearbody s1.
  apply wp_bind, wp_on_parts. unfold ocf_user_part_get_min_size. apply wp_bind. destruct Hc1 as (l & _ & Hc1).
  apply wp_config_read; [apply (Hc1 x); unfold OCF_USER_IO_CLASS_MAX in Hx; lia|]. intros cfg. apply wp_bind, wp_gets, wp_ret.
  assert (Hs2 : still s (with_parts (parts_now s1) s1)) by by etrans. set (s2 := with_parts _ s1) in *. clearbody s2.
  destruct (bool_decide _); apply wp_ret, HQ; try done. case_bool_decide; [|lia].
  match goal with |- context [u32 (?a - ?b)] => pose proof (wrap_range 32 (a - b) ltac:(lia)) end. lia.
Qed.

(** A step on a counter. *)
Lemma counter_step_wp p d v s (Q : Z -> space C -> Prop) : evict_counter (lru (sp_cache s)) !! p = Some v -> - 2 ^ 31 <= v + d < 2 ^ 31 ->
  Q (v + d) (with_cache (put_lru (with_counter p (v + d) (lru_of (sp_cache s))) (sp_cache s)) s) ->
  wp (ocf_evict_counters_inc (block_4k g) (line_size g) p d) Q s.
Proof.
  intros Hv Hd HQ. unfold ocf_evict_counters_inc. apply wp_bind, wp_read_lrus. eapply wp_load; [exact Hv|]. split; [done|].
  rewrite s32_small by done. apply wp_bind, wp_on_lrus, wp_modify, wp_ret. exact HQ.
Qed.

(** An empty counter does not pay for [k] lines. *)
Lemma calm_evict_from_wp x k s : calm s -> 0 <= x < OCF_USER_IO_CLASS_MAX -> 0 < k < 2 ^ 31 ->
  wp (evict_from (block_4k g) (line_size g) (num_entries g) (waiter_hash g) self hash_free false x k 0) (fun r s' => r = (0, 0) /\ still s s') s.
Proof.
  intros Hcm Hx Hk. pose proof (cm_counter _ Hcm x Hx) as H0. unfold evict_from. rewrite s32_small by lia.
  apply wp_bind. eapply counter_step_wp; [exact H0|lia|]. rewrite bool_decide_eq_true_2 by lia. cbn [negb andb].
  apply wp_bind. eapply counter_step_wp; [apply lookup_insert_eq|lia|]. apply wp_ret.
  replace (0 + - k + k) with 0 by lia. split; [done|]. split; [|done]. cbn [sp_cache with_cache].
  destruct s as [[? ? [] ? ? ? ? ?] ? ? ?]. cbn in *. unfold put_lru, with_counter. cbn. do 2 f_equal.
  by rewrite insert_insert_eq, insert_id.
Qed.

Lemma calm_once_wp n prio s : calm s -> 0 <= n < 2 ^ 31 ->
  wp (ocf_evict_user_partitions_once (block_4k g) (line_size g) (num_entries g) (waiter_hash g) self hash_free n false prio)
    (fun r s' => r.1 = 0 /\ still s s') s.
Proof.
  intros Hcm Hn. pose proof (cm_classes _ Hcm) as (l & Hl & _). unfold ocf_evict_user_partitions_once.
  apply (each_class_wp (A := Z * bool) _ (fun _ r s' => r.1 = 0 /\ still s s') _ _ _ l Hl); [by split| |by intros r s1 _ H].
  intros pre x post [e more] s1 El Hc [He S1]. cbn [fst] in He. subst e. pose proof (calm_class _ _ _ _ _ Hcm Hl El) as Hx.
  pose proof (calm_still _ _ Hcm S1) as C1.
  assert (Hstay : forall s2, still s1 s2 -> conf_same (sp_parts s) (sp_parts s2) /\ 0 = 0 /\ still s s2).
  { intros s2 S2. assert (S : still s s2) by by etrans. by split; [apply S|]. }
  apply wp_bind, wp_config_of; [apply C1|unfold OCF_USER_IO_CLASS_MAX in Hx; lia|]. intros cfg s2 _ S2.
  case_bool_decide; [by apply wp_ret, Hstay|]. destruct (negb false && _); [by apply wp_ret, Hstay|].
  apply wp_bind, wp_ret. cbn [andb]. rewrite Z.sub_0_r, (wrap_small 32 n) by lia.
  apply wp_bind, calm_calculate_wp; [by eapply calm_still|done|lia|]. intros k s3 Hk S3.
  assert (S3' : still s1 s3) by by etrans. case_bool_decide; [by apply wp_ret, Hstay|].
  apply wp_bind. eapply wp_mono; [apply calm_evict_from_wp; [by eapply calm_still|done|lia]|].
  intros r s4 [-> S4]. apply wp_ret. cbn [fst snd]. assert (S4' : still s1 s4) by by etrans.
  case_bool_decide; by apply Hstay.
Qed.

(** The priority of a pinned class exceeds every priority. *)
Lemma calm_update_wp s : calm s ->
  wp (ocf_evict_counters_update (block_4k g) (line_size g) OCF_IO_CLASS_PRIO_PINNED) (fun _ s' => still s s') s.
Proof.
  intros Hcm. unfold ocf_evict_counters_update. cbv zeta. apply wp_bind, wp_on_parts, wp_gets. set (s1 := with_parts _ s).
  assert (S1 : still s s1) by done. clearbody s1.
  assert (Hstop : forall A (body : Z -> A -> ocf_user_part_config -> Prelude.M (space C) (A + A)) (acc : A) s2, still s s2 ->
    wp (each_user_part (fun part a => config ← on_parts (config_of part);
      if bool_decide (u16 OCF_IO_CLASS_PRIO_PINNED > uc_priority config) then mret (inl a) else body part a config) acc) (fun _ s3 => still s s3) s2).
  { intros A body acc s2 S2. pose proof (calm_still _ _ Hcm S2) as C2. pose proof (cm_classes _ C2) as (l & Hl & _).
    apply (each_class_wp (A := A) _ (fun _ _ s3 => still s s3) _ _ _ l Hl); [done| |by intros].
    intros pre x post a s3 El Hc S3. pose proof (calm_class _ _ _ _ _ C2 Hl El) as Hx. pose proof (calm_still _ _ Hcm S3) as C3.
    apply wp_bind, wp_config_of; [apply C3|unfold OCF_USER_IO_CLASS_MAX in Hx; lia|]. intros cfg s4 Hcfg S4.
    pose proof (cm_priority _ C3 _ _ Hcfg). rewrite bool_decide_eq_true_2 by (change (u16 OCF_IO_CLASS_PRIO_PINNED) with 65535; lia).
    apply wp_ret. split; [etrans; [exact Hc|apply S4]|by etrans]. }
  apply wp_bind. eapply wp_mono.
  { exact (Hstop _ (fun part acc _ => part_size ← part_size_of (block_4k g) (line_size g) part;
      mret (inr (acc.1 ++ [part_size], if bool_decide (part_size = 0) then acc.2 else Z.min acc.2 part_size))) _ s1 S1). }
  intros r s2 S2. apply wp_bind. eapply wp_mono; [|intros ? s3 S3; apply wp_ret; exact S3].
  exact (Hstop _ (fun part sizes _ => match sizes with
    | [] => env_bug
    | part_size :: sizes =>
      if bool_decide (part_size = 0) then mret (inr sizes)
      else
        _ ← ocf_evict_counters_inc (block_4k g) (line_size g) part (s32 (u64 (part_size * MIN_EVICT_QUOTA) / Z.max r.2 MIN_EVICT_QUOTA));
        mret (inr sizes)
    end) _ s2 S2).
Qed.

Lemma calm_rounds_wp k n : forall s, calm s -> 0 < n < 2 ^ 31 ->
  wp (evict_rounds (block_4k g) (line_size g) (num_entries g) (waiter_hash g) self hash_free k n false OCF_IO_CLASS_PRIO_PINNED 0)
    (fun r s' => r = 0 /\ still s s') s.
Proof.
  induction k as [|k IH]; intros s Hcm Hn; cbn [evict_rounds]; [by apply wp_ret|].
  rewrite Z.sub_0_r, (wrap_small 32 n) by lia. apply wp_bind. eapply wp_mono; [apply calm_once_wp; [done|lia]|].
  intros [e more] s1 [He S1]. cbn in He. subst e. cbn [fst snd]. rewrite Z.add_0_l, (wrap_small 32 0) by lia. rewrite bool_decide_eq_false_2 by lia.
  apply wp_bind. eapply wp_mono with (P := fun _ s2 => still s s2).
  { destruct more; [|by apply wp_ret]. eapply wp_mono; [by eapply calm_update_wp, calm_still|]. intros u s2 S2. by etrans. }
  intros u s2 S2. eapply wp_mono; [apply IH; [by eapply calm_still|done]|]. intros e s3 [He S3]. split; [done|by etrans].
Qed.

(** C35. While all eviction counters are zero, a request of a pinned class, with
    the priority -1, evicts no line from any class, whatever the classes hold
    and whichever lines are idle, and the counters stay zero.  (The classes over
    their limit are evicted from before, without counters.) *)
Theorem pinned_class_evicts_nothing n s :
  calm s -> 0 < n < 2 ^ 31 ->
  wp (ocf_evict_user_partitions (block_4k g) (line_size g) (num_entries g) (waiter_hash g) self hash_free n false OCF_IO_CLASS_PRIO_PINNED)
    (fun r s' => r = 0 /\ sp_cache s' = sp_cache s) s.
Proof. intros Hcm Hn. eapply wp_mono; [by apply calm_rounds_wp|]. by intros r s' [-> [E _]]. Qed.
End EvictPinned.
