(* ===== verification/EvictRemap.v ===== *)
(** * Eviction serves the engines

    The stages of [EvictLoop] begin with a lookup, and what they leave is what
    the engines expect of space management: [remapped] of [EngineRuns]. *)

From S2P Require Import Prelude Alock AlockProofs CacheLineLock CacheLineLockProofs Links Lru LruProofs LruSeq Generator LruPart LruPartProofs.
From S2P Require Import Collision CollisionProofs Status StatusProofs Request RequestProofs CacheLine CacheLineProofs CacheLineSteps Engine EngineProofs EngineCheck.
From S2P Require Import PartMove HashLock IndexList IndexListProofs IoClass IoClassProofs EngineIo EngineBase Cleaner Content EngineSpec EngineRuns.
From S2P Require Import Evict EvictIter EvictTake EvictNext EvictAssign EvictLoop EvictSpace.
Open Scope Z_scope.

Section EvictRemap.
Context {C : Type} `{!CleaningPolicy C}.
Context (g : config) (self : Z) (hash_free : nat -> Z -> bool).
Abbreviation inv := (cache_inv (C:=C) (block_4k g) (line_size g) (num_entries g)).
Abbreviation request_ok := (request_ok (line_size g)).
Abbreviation locks_ok := (locks_ok (num_entries g) (waiter_hash g) self).
Abbreviation start := (ocf_map_line_start_block (block_4k g) (line_size g)).
Abbreviation stop := (ocf_map_line_end_block (block_4k g) (line_size g)).
Implicit Types (c : cache C) (m : gmap core_info Z).

Context (c0 : cache C) (m0 : gmap core_info Z) (HB : begins g c0 m0) (Hal : aligned g (request c0)).
Abbreviation r0 := (request c0).
Abbreviation stage := (stage g self c0 m0).

(** ** The first stage *)

Lemma old_counts es : (forall i e, es !! i = Some e -> me_status e <> LOOKUP_REMAPPED) ->
  icount (fun _ => is_new) es = 0 /\
  icount (fun _ => is_hit) es + icount (fun _ => is_hit_invalid) es + missing es = Z.of_nat (length es).
Proof.
  unfold missing. induction es as [|e es IH] using rev_ind; intros Hs; [done|]. rewrite !icount_snoc, length_app. cbn [length].
  assert (He : me_status e <> LOOKUP_REMAPPED) by (apply (Hs (length es)); by rewrite list_lookup_middle).
  destruct (IH (fun i e' Hi => Hs i e' (lookup_app_l_Some es [e] i e' Hi))) as [H1 H2].
  unfold is_new, is_found, is_hit, is_hit_invalid in *. destruct (me_status e) eqn:E; try done; cbn [Z.b2z negb] in *;
    repeat case_bool_decide; try done; cbn [negb Z.b2z]; lia.
Qed.

Lemma stage_start β σ : inv c0 β m0 σ -> locks_ok (locks c0) -> entries_map c0 m0 -> seen g c0 m0 -> stage c0 β m0 σ.
Proof.
  intros HI HL Hent Hseen. pose proof (fun i e => seen_old g c0 m0 i e Hseen) as Hold. destruct (old_counts _ Hold) as [Hn Hc].
  pose proof (se_info _ _ _ Hseen) as Ei. split; try done.
  - apply ready_kept_refl.
  - intros i e He. exists e. split; [done|]. left. split; [done|].
    split; [unfold is_new; apply bool_decide_eq_false_2, (Hold i e He)|]. specialize (Hent i e He). unfold is_found.
    destruct (decide (me_status e = LOOKUP_MISS)) as [Hs|Hs]; [by rewrite bool_decide_eq_true_2|by rewrite bool_decide_eq_false_2].
  - rewrite Ei at 1. unfold counted_info. rewrite Hn, Ei. reflexivity.
  - rewrite Hn, Ei. cbn [hit_no invalid_no sums]. lia.
  - intros ci x _ Hx Hnone. congruence.
  - by left.
Qed.

(** ** Bytes at a stage *)

Section Stage.
Context (c : cache C) (β : bucket_map) (m : gmap core_info Z) (σ : listing) (HS : stage c β m σ).

Lemma stage_in_req core a : in_req (request c) core a <-> in_req r0 core a.
Proof.
  destruct (geometry_fields _ _ (sg_geometry _ _ _ _ _ _ _ _ HS)) as (E1 & _ & E3 & E4 & _). unfold in_req. by rewrite E1, E3, E4.
Qed.

Lemma stage_blocks i : start (request c) i = start r0 i /\ stop (request c) i = stop r0 i.
Proof.
  destruct (geometry_fields _ _ (sg_geometry _ _ _ _ _ _ _ _ HS)) as (_ & _ & E3 & E4 & _ & _ & E7).
  unfold ocf_map_line_start_block, ocf_map_line_end_block. by rewrite E3, E4, E7.
Qed.

Lemma stage_index a : entry_index g (request c) a = entry_index g r0 a.
Proof. destruct (geometry_fields _ _ (sg_geometry _ _ _ _ _ _ _ _ HS)) as (_ & _ & _ & _ & E5 & _). unfold entry_index. by rewrite E5. Qed.

(** The entries, by their status. *)
Lemma stage_entry i e : req_map (request c) !! i = Some e -> exists e0, req_map r0 !! i = Some e0 /\
  if is_new e then me_status e0 = LOOKUP_MISS /\ new_entry c0 m0 c m i e e0 else e = e0 /\ kept_entry c0 m0 c m i e e0.
Proof.
  intros He. destruct (sg_entry _ _ _ _ _ _ _ _ HS i e He) as (e0 & He0 & [Hk|Hn]); exists e0; (split; [done|]).
  - pose proof Hk as (-> & -> & _). done.
  - pose proof Hn as (H1 & _ & x & -> & _). by change (is_new (taken_entry x e0)) with true.
Qed.

Lemma entry_of_line core a : req_line r0 (byte_line g core a) -> exists i e, req_map (request c) !! i = Some e /\
  byte_line g core a = key_of r0 i.
Proof.
  intros [H1 H2]. pose proof (ro_map _ _ (bg_ok _ _ _ HB)) as Hl. pose proof (sg_length _ _ _ _ _ _ _ _ HS) as El.
  set (i := Z.to_nat (core_line (byte_line g core a) - core_line_first r0)).
  destruct (lookup_lt_is_Some_2 (req_map (request c)) i) as [e He]; [rewrite El; lia|]. exists i, e. split; [done|].
  unfold byte_line, key_of in *. cbn in *. f_equal; [done|]. lia.
Qed.

Lemma stage_place_in core a : req_line r0 (byte_line g core a) -> place g c m core a = place g c0 m0 core a.
Proof.
  intros (i & e & He & Eb)%entry_of_line. destruct (stage_entry i e He) as (e0 & He0 & Hi). unfold place. rewrite Eb. destruct (is_new e).
  - destruct Hi as (_ & _ & Hm0 & x & _ & Hx & Hst & _). rewrite Hm0, Hx. cbn. rewrite Hst. cbn.
    unfold in_line. cbn [valid]. by rewrite Z.bits_0.
  - destruct Hi as (_ & _ & _ & Hk). destruct (is_found e0); [destruct Hk as (-> & -> & Hst & _)|by destruct Hk as (-> & ->)].
    cbn. by rewrite Hst.
Qed.

Lemma stage_place_off core a : ~ req_line r0 (byte_line g core a) -> place g c m core a = place g c0 m0 core a \/
  place g c m core a = None /\ forall x, place g c0 m0 core a <> Some (x, true).
Proof.
  intros Hoff. unfold place. destruct (m !! byte_line g core a) as [x|] eqn:Hx.
  { left. destruct (sg_off _ _ _ _ _ _ _ _ HS _ x Hoff Hx) as [-> Hst]. cbn. by rewrite Hst. }
  destruct (m0 !! byte_line g core a) as [x|] eqn:Hx0; [|by left]. right. split; [done|].
  destruct (sg_gone _ _ _ _ _ _ _ _ HS _ x Hoff Hx0 Hx) as [(st & Hst & Hd) _]. cbn. rewrite Hst. cbn. unfold in_line.
  rewrite Hd, Z.bits_0. by destruct (Z.testbit _ _).
Qed.

Lemma req_byte core a : in_req r0 core a -> req_line r0 (byte_line g core a).
Proof.
  intros Hin. destruct (byte_in_entry g r0 core a (bg_ok _ _ _ HB) Hal Hin) as (_ & _ & [e He] & _ & -> & _). split; [done|]. cbn.
  apply lookup_lt_Some in He. pose proof (ro_map _ _ (bg_ok _ _ _ HB)). lia.
Qed.

(** ** What the engines expect *)

Context (rd : Prop) (Hlk : looked g rd c0 m0) (Hseen : seen g c0 m0).

(** The counters of the lookup decide. *)
Lemma stage_info : hit_no (info (request c)) = hit_no (info r0) /\ dirty_all (info (request c)) = dirty_all (info r0) /\
  dirty_any (info (request c)) = dirty_any (info r0) /\ core_line_count (request c) = core_line_count r0.
Proof.
  destruct (geometry_fields _ _ (sg_geometry _ _ _ _ _ _ _ _ HS)) as (_ & _ & _ & _ & _ & _ & E7).
  by rewrite (sg_info _ _ _ _ _ _ _ _ HS).
Qed.

Lemma stage_sequential : sequential (request c).
Proof.
  intros Hs. pose proof (ready_ok _ _ _ _ HB _ _ _ _ HS) as Hok. pose proof (ro_map _ _ Hok) as Hlen.
  destruct (request_ok_lines (block_4k g) (line_size g) _ Hok) as (_ & Hn & _). pose proof (sg_count _ _ _ _ _ _ _ _ HS) as Hc.
  rewrite <- (sg_length _ _ _ _ _ _ _ _ HS) in Hc.
  unfold ocf_engine_is_sequential in Hs. rewrite (sg_info _ _ _ _ _ _ _ _ HS) in Hs. cbn [counted_info hit_no insert_no seq_no] in Hs.
  set (es := req_map (request c)) in *. apply andb_true_iff in Hs as [H1%bool_decide_eq_true_1 H2%bool_decide_eq_true_1].
  pose proof (icount_bounds (fun _ => is_new) es) as Hb. pose proof (icount_bounds (fun _ e => negb (is_found e)) es) as Hb2.
  fold (missing es) in Hb2.
  assert (Hi : 0 <= hit_no (info r0) /\ 0 <= invalid_no (info r0)).
  { rewrite (se_info _ _ _ Hseen). cbn [hit_no invalid_no sums]. split; apply icount_bounds. }
  rewrite !wrap_small in H1, H2 by lia. apply chain_sequential; [fold es; lia| |fold es; lia].
  intros i e He. assert (Hm : missing es = 0) by lia. pose proof (icount_none _ _ _ _ Hm He) as Hf. cbv beta in Hf.
  by apply negb_false_iff in Hf.
Qed.

Lemma stage_looked : looked g rd c m.
Proof.
  destruct (geometry_fields _ _ (sg_geometry _ _ _ _ _ _ _ _ HS)) as (E1 & E2 & E3 & E4 & E5 & E6 & E7).
  destruct stage_info as (I1 & I2 & I3 & I4). split.
  - intros i e He. destruct (stage_entry i e He) as (e0 & He0 & Hi). unfold entry_maps. rewrite E1, E5. fold (key_of r0 i).
    destruct (is_new e).
    + destruct Hi as (_ & _ & _ & x & -> & Hx & _). by rewrite decide_False.
    + destruct Hi as (-> & _ & _ & Hk). unfold is_found in Hk. destruct (decide (me_status e0 = LOOKUP_MISS)) as [Hs|Hs].
      * rewrite bool_decide_eq_true_2 in Hk by done. apply Hk.
      * rewrite bool_decide_eq_false_2 in Hk by done. apply Hk.
  - intros i e He Hs. rewrite E1, E5. destruct (stage_entry i e He) as (e0 & He0 & Hi). destruct (is_new e).
    + destruct Hi as (Hs0 & _ & _ & x & -> & _). change (mi_core_id (me_info e0) = req_core r0 /\ mi_core_line (me_info e0) = core_line_first r0 + Z.of_nat i).
      destruct (se_entries _ _ _ Hseen) as [es Ees]. rewrite Ees, list_lookup_imap in He0. apply fmap_Some in He0 as (e1 & _ & ->).
      unfold view. cbv zeta. by destruct (m0 !! _).
    + destruct Hi as [-> _]. by apply (lk_ids _ _ _ _ Hlk).
  - intros i e st He Hs Hst. destruct (stage_blocks (Z.of_nat i)) as [-> ->]. destruct (stage_entry i e He) as (e0 & He0 & Hi).
    destruct (is_new e) eqn:Hn; [by apply bool_decide_eq_true_1 in Hn; congruence|]. destruct Hi as (-> & _ & _ & Hk).
    unfold is_found in Hk. rewrite bool_decide_eq_false_2 in Hk by congruence. destruct Hk as (_ & _ & Es & _).
    apply (lk_valid _ _ _ _ Hlk i e0 st He0 Hs). by rewrite <- Es.
  - unfold ocf_engine_is_hit. rewrite I1, I4. intros Hh i e He. destruct (stage_entry i e He) as (e0 & He0 & Hi).
    pose proof (lk_hit _ _ _ _ Hlk Hh i e0 He0) as Hs. destruct (is_new e); [destruct Hi; congruence|]. by destruct Hi as [-> _].
  - intros Hrd. rewrite I3. intros Hd core a p Hin%stage_in_req. rewrite stage_place_in by by apply req_byte.
    by apply (lk_clean _ _ _ _ Hlk Hrd Hd).
  - unfold ocf_engine_is_dirty_all. rewrite I2, I4. intros Hd core a Hin%stage_in_req. rewrite stage_place_in by by apply req_byte.
    by apply (lk_dirty _ _ _ _ Hlk Hd).
  - intros i e He Hre. destruct (stage_entry i e He) as (e0 & He0 & Hi). destruct (is_new e).
    + destruct Hi as (Hs & _ & _ & x & -> & _). change (me_re_part e0 = true) in Hre. by destruct (lk_move _ _ _ _ Hlk i e0 He0 Hre).
    + destruct Hi as (-> & _ & _ & Hk). destruct (lk_move _ _ _ _ Hlk i e0 He0 Hre) as (Hs & ci & st & Hci & Hcore & Hst & Hv).
      unfold is_found in Hk. rewrite bool_decide_eq_false_2 in Hk by done. destruct Hk as (Hm & _ & Es & _).
      split; [done|]. exists (key_of r0 i), st. rewrite E1, Es. done.
  - exact stage_sequential.
  - rewrite (sg_info _ _ _ _ _ _ _ _ HS). apply (lk_flush _ _ _ _ Hlk).
  - intros i e st He Hn Hst. destruct (stage_entry i e He) as (e0 & He0 & Hi). rewrite Hn in Hi.
    destruct Hi as (_ & _ & _ & x & -> & _ & Es & _). change (statuses c !! x = Some st) in Hst. rewrite Es in Hst. by injection Hst as <-.
Qed.

Lemma stage_found i e st : live c0 m0 (fun _ => True) -> req_map (request c) !! i = Some e -> is_found e = true -> is_new e = false ->
  statuses c !! me_coll_idx e = Some st -> valid st <> 0.
Proof.
  intros Hlive He Hf Hn Hst. destruct (stage_entry i e He) as (e0 & He0 & Hi). rewrite Hn in Hi. destruct Hi as (-> & _ & _ & Hk).
  rewrite Hf in Hk. destruct Hk as (_ & Hm & Es & _). eapply Hlive; [exact Hm|done|]. by rewrite <- Es.
Qed.

Lemma stage_recheckable : live c0 m0 (fun _ => True) -> recheckable g rd c0 m0 -> recheckable g rd c m.
Proof.
  intros Hlive Hrc. destruct (geometry_fields _ _ (sg_geometry _ _ _ _ _ _ _ _ HS)) as (_ & E2 & _). split.
  - intros i e st He Hf Hn. by apply (stage_found i e).
  - intros i e He Hn. destruct (stage_entry i e He) as (e0 & He0 & Hi). rewrite Hn in Hi.
    destruct Hi as (_ & _ & _ & x & -> & _ & _ & Hp & _). by rewrite E2.
  - intros core a e p Hrd Hin He Hs. apply stage_in_req in Hin. rewrite stage_index in He. rewrite stage_place_in by by apply req_byte.
    destruct (stage_entry _ e He) as (e0 & He0 & Hi). apply (rc_tidy _ _ _ _ Hrc core a e0 p Hrd Hin He0).
    destruct (is_new e); [destruct Hi as [-> _]; done|]. by destruct Hi as [-> _].
Qed.

Lemma stage_all_mapped : missing (req_map (request c)) = 0 -> all_mapped c m.
Proof.
  intros Hm i e He. pose proof (icount_none _ _ _ _ Hm He) as Hf. cbv beta in Hf. apply negb_false_iff in Hf.
  assert (Hs : me_status e <> LOOKUP_MISS) by (unfold is_found in Hf; by apply negb_true_iff, bool_decide_eq_false_1 in Hf).
  split; [done|]. apply (entries_map_found c m i e (lk_map _ _ _ _ stage_looked) He Hs).
Qed.

(** What a request gets, whatever became of the locks meanwhile. *)
Lemma stage_remapped k status : live c0 m0 (fun _ => True) -> (status <> LOOKUP_MISS -> missing (req_map (request c)) = 0) ->
  remapped g rd (with_locks k c0) m0 status (with_locks k c) β m σ.
Proof.
  intros Hlive Hst. assert (Hone : req_line r0 = req_line (request (with_locks k c0))) by done. split.
  - pose proof (sg_inv _ _ _ _ _ _ _ _ HS) as [F1 F2 F3 F4 F5 F6 F7 F8 F9 F10 F11 F12]. split; try done.
    intros x Hx. destruct (F10 x Hx) as (st & n & [G1 G2 G3 G4 G5]). by exists st, n.
  - split; try done; apply HS.
  - intros ci [x Hx]. destruct (decide (core_id ci = req_core r0 /\ 0 <= core_line ci - core_line_first r0 < core_line_count r0)) as [Hin|Hoff].
    + by right.
    + left. destruct (sg_off _ _ _ _ _ _ _ _ HS ci x Hoff Hx) as [-> _]. by eexists.
  - intros core a Ha. change (place g (with_locks k c) m core a) with (place g c m core a).
    change (place g (with_locks k c0) m0 core a) with (place g c0 m0 core a).
    destruct (decide (core_id (byte_line g core a) = req_core r0 /\ 0 <= core_line (byte_line g core a) - core_line_first r0 < core_line_count r0)) as [Hin|Hoff].
    + left. by apply stage_place_in.
    + destruct (stage_place_off core a Hoff) as [E|[H1 H2]]; [by left|]. right. split; [|done]. intros Hin. by apply Hoff, req_byte.
  - by eapply (looked_same g rd c), stage_looked.
  - intros i e st. by apply stage_found.
  - intros Hrc. eapply (recheckable_same g rd c); [done|done|done|]. apply stage_recheckable; [done|].
    by eapply (recheckable_same g rd (with_locks k c0) c0).
  - intros _ ci x st Hx Hoff Hs. destruct (sg_off _ _ _ _ _ _ _ _ HS ci x Hoff Hx) as [Hx0 Es].
    eapply Hlive; [exact Hx0|done|]. by rewrite <- Es.
  - change (request (with_locks k c)) with (request c). by rewrite (sg_info _ _ _ _ _ _ _ _ HS).
  - intros Hs. by apply stage_all_mapped, Hst.
Qed.
End Stage.
End EvictRemap.
