(* ===== verification/EvictClean.v ===== *)
(** * Dirty lines for cleaning: [ocf_lru_clean]

    The iterator keeps a cursor per list.  Behind a cursor are lines that were
    taken, which means locked for reading, and lines that were busy; so the lines
    of an order are distinct, and a short order says that no dirty line of the
    partition is idle any more.  At its end the cleaning gives the locks back. *)

From S2P Require Import Prelude Alock AlockProofs CacheLineLock CacheLineLockProofs Links Lru LruProofs LruSeq Generator LruPart LruPartProofs.
From S2P Require Import Collision CollisionProofs Status StatusProofs Request RequestProofs CacheLine CacheLineProofs CacheLineSteps Engine EngineProofs.
From S2P Require Import IndexList IndexListProofs HashLock IoClass IoClassProofs Evict EvictIter EvictTake EvictNext.
Open Scope Z_scope.

Section EvictClean.
Context {C : Type} `{!CleaningPolicy C}.
Context (block_4k : bool) (line_size : cache_line_size) (num_entries ENTRIES : Z) (self : Z).
Abbreviation EV := (Prelude.M (space C)).
Abbreviation lru_of := (lru_of block_4k line_size).
Abbreviation line_dirty := (line_dirty block_4k line_size).
Abbreviation inv := (cache_inv (C:=C) block_4k line_size num_entries).
Abbreviation locks_ok := (locks_ok num_entries ENTRIES self).
Implicit Types (c : cache C) (m : gmap core_info Z) (s : space C).

Context (c : cache C) (β : bucket_map) (m : gmap core_info Z) (σ : listing).
Context (HI : inv c β m σ) (Hl : locks_ok (locks c)) (p : Z) (Hp : 0 <= p < OCF_USER_IO_CLASS_MAX).
Context (Hpr : part_ready (lru_of c) p).
Abbreviation idle x := (access (locks c) !! x = Some OCF_CACHE_LINE_ACCESS_IDLE).
Abbreviation list_of j := (σ (p, j, false)).

(** ** Lines locked for reading *)

Definition rd_held (xs : list Z) c' : Prop := exists acc,
  (forall y, acc !! y = if decide (y ∈ xs) then Some OCF_CACHE_LINE_ACCESS_ONE_RD else access (locks c) !! y) /\
  c' = with_locks (set_access (fun _ => acc) (locks c)) c.

Lemma held_none : rd_held [] c.
Proof. exists (access (locks c)). split; [intros y; by rewrite decide_False by apply not_elem_of_nil|]. by destruct c as [? ? ? ? [] ? ? ?]. Qed.

Lemma not_detached : p <> PARTITION_FREE_DETACHED.
Proof. pose proof Hp as H. unfold PARTITION_FREE_DETACHED, OCF_USER_IO_CLASS_MAX in *. lia. Qed.
Lemma not_free : p <> PARTITION_FREELIST.
Proof. pose proof Hp as H. unfold PARTITION_FREELIST, OCF_USER_IO_CLASS_MAX in *. lia. Qed.

(** A line of a dirty list is a dirty line of the partition. *)
Lemma listed_dirty x j : x ∈ list_of j -> 0 <= x < num_entries /\ j = lru_list_index x /\ partition_id <$> nodes (lru c) !! x = Some p /\
  exists st ci, statuses c !! x = Some st /\ Status.dirty st <> 0 /\ m !! ci = Some x /\ core_infos (mapping_of c) !! x = Some ci.
Proof.
  intros Hx. destruct (listed_key _ _ _ _ _ _ (ci_lru _ _ _ _ _ _ _ HI) Hx) as (n & d & Hn & Hd & Hid & Ek).
  change (LruPart.dirty (lru_of c)) with (line_dirty <$> statuses c) in Hd. rewrite lookup_fmap in Hd.
  apply fmap_Some in Hd as (st & Hst & ->). destruct (ci_bits _ _ _ _ _ _ _ HI x st Hst) as [Hb _].
  pose proof not_detached. pose proof not_free.
  assert (Hpid : part_id p = p) by (unfold part_id; by rewrite bool_decide_eq_false_2). rewrite Hpid in Hid.
  rewrite line_key_user in Ek by done. injection Ek as Ej Ed. apply eq_sym, negb_false_iff in Ed.
  split; [by apply (ci_line _ _ _ _ _ _ _ HI); eexists|]. split; [done|].
  split; [change (partition_id <$> nodes (lru_of c) !! x = Some p); by rewrite Hn, <- Hid|].
  assert (Hm : mapped β x) by (apply (ci_label _ _ _ _ _ _ _ HI x n Hn); congruence).
  destruct (wb_total _ _ (proj1 (ci_map _ _ _ _ _ _ _ HI)) x) as [_ [ci Hci]].
  { rewrite <- (ci_entries _ _ _ _ _ _ _ HI). apply (ci_line _ _ _ _ _ _ _ HI). by eexists. }
  exists st, ci. split; [done|]. split; [|split; [|done]].
  - rewrite line_dirty_bits in Ed by done. unfold nonzero in Ed. by apply bool_decide_eq_true_1 in Ed.
  - by apply (proj2 (ci_map _ _ _ _ _ _ _ HI)).
Qed.

Lemma dirty_listed x st : statuses c !! x = Some st -> Status.dirty st <> 0 -> partition_id <$> nodes (lru c) !! x = Some p ->
  x ∈ list_of (lru_list_index x).
Proof.
  intros Hst Hd Hn. apply fmap_Some in Hn as (n & Hn & En). pose proof not_free.
  destruct (label_user block_4k line_size num_entries c β m σ HI x n Hn) as (st' & Hst' & _ & _ & Hx); [congruence|].
  assert (st' = st) as -> by congruence. destruct (ci_bits _ _ _ _ _ _ _ HI x st Hst) as [Hb _].
  rewrite <- En, line_key_user in Hx by done. rewrite line_dirty_bits in Hx by done. unfold nonzero in Hx.
  by rewrite bool_decide_eq_true_2 in Hx.
Qed.

Lemma trylock_rd_wp xs x s (Q : bool -> space C -> Prop) : rd_held xs (sp_cache s) -> 0 <= x < num_entries ->
  (forall s', idle x -> x ∉ xs -> rd_held (x :: xs) (sp_cache s') -> conf_same (sp_parts s) (sp_parts s') -> Q true s') ->
  (x ∈ xs \/ ~ idle x -> Q false s) -> wp (on_locks (ocf_cache_line_try_lock_rd x)) Q s.
Proof.
  intros (acc & Hacc & Es) Hx HT HF. apply wp_on_locks. unfold wp, ocf_cache_line_try_lock_rd, ocf_alock_trylock_one_rd.
  assert (Hlk : locks (sp_cache s) = set_access (fun _ => acc) (locks c)) by (by rewrite Es).
  destruct (lo_word _ _ _ _ Hl x Hx) as [v Hv]. rewrite Hlk.
  assert (Hv' : access (set_access (fun _ => acc) (locks c)) !! x = Some (if decide (x ∈ xs) then OCF_CACHE_LINE_ACCESS_ONE_RD else v)).
  { cbn. rewrite Hacc. by case_decide. }
  rewrite (trylock_rd_idle_run _ _ _ Hv'). destruct (decide (x ∈ xs)) as [Hin|Hin]; [|destruct (decide (v = OCF_CACHE_LINE_ACCESS_IDLE)) as [->|Hne]].
  - rewrite bool_decide_eq_false_2 by done. rewrite <- Hlk, with_same_locks, with_same_cache. apply HF. by left.
  - rewrite bool_decide_eq_true_2 by done. apply HT; [done|done| |done]. cbn.
    exists (<[x := OCF_CACHE_LINE_ACCESS_ONE_RD]> acc). rewrite Es. split; [|done].
    intros y. rewrite lookup_insert, Hacc. destruct (decide (x = y)) as [->|Hne].
    + by rewrite decide_True by left.
    + apply decide_ext. rewrite elem_of_cons. naive_solver.
  - rewrite bool_decide_eq_false_2 by done. rewrite <- Hlk, with_same_locks, with_same_cache. apply HF. right. congruence.
Qed.

(** ** The cursors *)

(** Behind the cursors: lines taken, or busy. *)
Definition behind (xs : list Z) (l : list Z) : Prop := forall x, x ∈ l -> x ∈ xs \/ ~ idle x.
Record cursors (it : lru_iter) (xs : list Z) : Prop := {
  cu_iter : iter_ok it;
  cu_part : it_part it = p;
  cu_list j : 0 <= j < 32 -> exists rest done, list_of j = rest ++ done /\
    it_curr_cline it !! Z.to_nat j = Some (lastd end_marker rest) /\ behind xs done /\ (forall x, x ∈ xs -> x ∉ rest);
  cu_empty j : 0 <= j < 32 -> j ∉ avail it -> behind xs (list_of j)
}.

Lemma behind_more xs x l : behind xs l -> behind (x :: xs) l.
Proof. intros H y Hy. destruct (H y Hy) as [?|?]; [left; by right|by right]. Qed.

Lemma listed_link j : 0 <= j < 32 -> link (nodes (lru c)) end_marker (list_of j) end_marker /\ NoDup (list_of j) /\
  forall x, x ∈ list_of j -> valid_line x.
Proof.
  intros Hj. destruct (proj2 Hpr j false (lists_index j Hj)) as [L HL].
  pose proof (rep_list _ _ (pi_rep _ _ (ci_lru _ _ _ _ _ _ _ HI)) _ _ HL) as Hseq. split.
  - unfold lru_seq in Hseq. pose proof (rep_link _ _ _ _ Hseq) as Hk. by rewrite bal_app in Hk.
  - split; [by eapply lru_seq_nodup|]. intros x Hx. by eapply lru_seq_valid.
Qed.

Lemma cleaning_next_wp it xs s (Q : option Z * lru_iter -> space C -> Prop) :
  cursors it xs -> rd_held xs (sp_cache s) ->
  (forall it' s', rd_held xs (sp_cache s') -> conf_same (sp_parts s) (sp_parts s') -> (forall j, 0 <= j < 32 -> behind xs (list_of j)) -> Q (None, it') s') ->
  (forall x j it' s', x ∈ list_of j -> idle x -> x ∉ xs -> cursors it' (x :: xs) -> rd_held (x :: xs) (sp_cache s') ->
     conf_same (sp_parts s) (sp_parts s') -> Q (Some x, it') s') ->
  wp (lru_iter_cleaning_next block_4k line_size num_entries it) Q s.
Proof.
  intros [Hit Ep Hcur Hemp] Hh HN HS. unfold lru_iter_cleaning_next.
  set (J := fun s1 => rd_held xs (sp_cache s1) /\ conf_same (sp_parts s) (sp_parts s1)).
  eapply wp_mono.
  { apply next_lists_wp with (it0 := it) (J := J) (R := fun j => behind xs (list_of j)) (Q := fun a it' s' => Q (Some a, it') s').
    2: { enough (length (avail it) <= 32)%nat by (unfold lists_fuel; lia). etrans; [apply length_filter|]. by rewrite length_seqZ. }
    2, 3: done. 2: by split. 2: exact Hemp.
    intros it1 s1 Hit1 (E1 & E2 & E3 & E4) Hemp1 [H1 C1]. set (j := it_lru_idx it1). assert (Hj : 0 <= j < 32) by apply Hit1.
    destruct (Hcur j Hj) as (rest & tk & El & Ecur & Htk & Hrest). destruct (listed_link j Hj) as (Hlink & Hdup & Hval).
    apply wp_bind. eapply wp_load; [rewrite E4; exact Ecur|].
    assert (Hin : forall x, x ∈ rest -> x ∈ list_of j) by (intros x Hx; rewrite El; apply elem_of_app; by left).
    apply wp_bind. eapply wp_mono.
    { apply (walk_back_wp block_4k line_size _ J (fun x => x ∈ xs \/ ~ idle x) (fun x _ s2 => idle x /\ x ∉ xs /\ rd_held (x :: xs) (sp_cache s2) /\
        conf_same (sp_parts s) (sp_parts s2)) (nodes (lru c))) with (rest := tk).
      - by intros s2 [(acc & _ & ->) _].
      - unfold walk_fuel. enough (Z.of_nat (length rest) <= num_entries) by lia. pose proof (ci_entries_bound _ _ _ _ _ _ _ HI).
        apply lines_bound; [lia| |intros x Hx; by apply (proj1 (listed_dirty x j (Hin x Hx)))]. rewrite El in Hdup. by apply NoDup_app in Hdup as [? _].
      - by rewrite <- El.
      - intros x Hx. by apply Hval, Hin.
      - by split.
      - intros x s2 Hx [H2 C2]. apply wp_bind. eapply trylock_rd_wp; [exact H2|by apply (proj1 (listed_dirty x j (Hin x Hx)))|..].
        + intros s3 Hidle Hni H3 C3. apply wp_ret. split_and!; try done. by etrans.
        + intros Hb. apply wp_ret. by split. }
    intros [[x []]|] s2.
    - intros [(r1 & r2 & -> & Hr2) (Hidle & Hni & H2 & C2)]. assert (Hx : x ∈ r1 ++ x :: r2) by (apply elem_of_app; right; left). destruct (listed_dirty x j (Hin x Hx)) as (_ & _ & Hlab & _). apply fmap_Some in Hlab as (n & Hn & _).
      apply wp_bind, wp_read_lrus. assert (Hn2 : nodes (lru_of (sp_cache s2)) !! x = Some n) by (destruct H2 as (acc & _ & ->); exact Hn).
      eapply wp_node_of; [exact Hn2|]. split; [done|]. apply wp_ret. cbn [fst snd].
      apply (HS x j); [|done|done| |done|done].
      { apply Hin, elem_of_app. right. left. }
      rewrite El, <- app_assoc in Hlink. cbn [app] in Hlink. destruct (link_lookup _ _ _ _ _ _ Hlink) as (n' & Hn' & Hprev & _).
      assert (n' = n) as -> by congruence. split.
      + destruct Hit1 as [? ? ? ?]. by split.
      + cbn. congruence.
      + intros k Hk. destruct (Hcur k Hk) as (rest' & tk' & El' & Ecur' & Htk' & Hrest'). cbn [it_curr_cline it_with_curr]. rewrite E4.
        destruct (decide (k = j)) as [->|Hne].
        * exists r1, (x :: r2 ++ tk). rewrite El, <- app_assoc. split; [done|]. split.
          { rewrite list_lookup_insert_eq by (by eapply lookup_lt_Some). f_equal. exact Hprev. }
          rewrite El, <- app_assoc in Hdup. apply NoDup_app in Hdup as (_ & Hd & _). split.
          -- intros y [->|[Hy|Hy]%elem_of_app]%elem_of_cons; [by left; left| |by apply (behind_more xs x tk Htk)].
             destruct (Hr2 y Hy) as [?|?]; [left; by right|by right].
          -- intros y [->|Hy]%elem_of_cons; [intros Hr; apply (Hd x Hr); left|]. intros Hr. apply (Hrest y Hy), elem_of_app. by left.
        * exists rest', tk'. rewrite list_lookup_insert_ne by lia. split_and!; [done|done|by apply behind_more|].
          intros y [->|Hy]%elem_of_cons; [|by apply Hrest']. intros Hr.
          destruct (listed_dirty x j) as (_ & E & _); [apply Hin, elem_of_app; right; left|].
          destruct (listed_dirty x k) as (_ & E' & _); [rewrite El'; apply elem_of_app; by left|]. congruence.
      + intros k Hk Hna. apply behind_more, Hemp1; [done|]. exact Hna.
    - intros [[H2 C2] Hb]. apply wp_ret. cbn. split; [done|]. split; [done|]. rewrite El. intros x [Hx|Hx]%elem_of_app; [by apply Hb|by apply Htk]. }
  intros [[a|] it'] s'; [done|]. intros ([H1 C1] & Hb & _). by apply HN.
Qed.

(** ** The order *)

(** An entry of the order: a dirty line of the partition, idle until it was
    taken, with the core line that it holds. *)
Definition ordered (e : Z * core_info) : Prop := idle e.1 /\ m !! e.2 = Some e.1 /\ partition_id <$> nodes (lru c) !! e.1 = Some p /\
  exists st, statuses c !! e.1 = Some st /\ Status.dirty st <> 0.

Lemma held_same xs ys c' : (forall x, x ∈ xs <-> x ∈ ys) -> rd_held xs c' -> rd_held ys c'.
Proof. intros Hs (acc & Ha & E). exists acc. split; [|done]. intros y. rewrite Ha. by apply decide_ext. Qed.

Lemma clean_entries_wp n : forall it xs s, cursors it xs -> rd_held xs (sp_cache s) ->
  wp (clean_entries block_4k line_size num_entries n it) (fun l s' =>
    (length l <= n)%nat /\ NoDup l.*1 /\ (forall x, x ∈ l.*1 -> x ∉ xs) /\ Forall ordered l /\ rd_held (l.*1 ++ xs) (sp_cache s') /\
    conf_same (sp_parts s) (sp_parts s') /\ ((length l < n)%nat -> forall j, 0 <= j < 32 -> behind (l.*1 ++ xs) (list_of j))) s.
Proof.
  induction n as [|n IH]; intros it xs s Hc Hh; cbn [clean_entries].
  { apply wp_ret. split_and!; [done|constructor|intros x Hx; by apply not_elem_of_nil in Hx|done|done|done|cbn; lia]. }
  apply wp_bind. eapply cleaning_next_wp; [exact Hc|exact Hh|..].
  - intros it' s' H' C' Hb. apply wp_ret. split_and!; [cbn; lia|constructor|intros x Hx; by apply not_elem_of_nil in Hx|done|done|done|done].
  - intros x j it' s1 Hx Hidle Hni Hc' H' C'. destruct (listed_dirty x j Hx) as (_ & _ & Hlab & st & ci & Hst & Hd & Hci & Hinfo).
    apply wp_bind, wp_on_cache, wp_on_map. eapply wp_load; [destruct H' as (acc & _ & ->); exact Hinfo|].
    set (s2 := with_cache _ s1). assert (E2 : s2 = s1) by (subst s2; destruct s1 as [[] ? ? ?]; done). rewrite E2. clear s2 E2.
    apply wp_bind. eapply wp_mono; [by apply (IH it' (x :: xs) s1)|]. intros l s' (L1 & L2 & L3 & L4 & L5 & L6 & L7). apply wp_ret.
    assert (Hperm : forall y, y ∈ l.*1 ++ x :: xs <-> y ∈ (x :: l.*1) ++ xs) by (intros y; rewrite !elem_of_app, !elem_of_cons; tauto).
    split_and!.
    + cbn. lia.
    + cbn. constructor; [|done]. intros Hin. apply (L3 x Hin). left.
    + intros y [->|Hy]%elem_of_cons; [done|]. intros Hin. apply (L3 y Hy). by right.
    + constructor; [|done]. split_and!; try done. by exists st.
    + by eapply held_same.
    + by etrans.
    + cbn [length]. intros Hlt k Hk y Hy. destruct (L7 ltac:(lia) k Hk y Hy) as [Hin|?]; [left; by apply Hperm|by right].
Qed.

Lemma lru_clean_wp start count s : sp_cache s = c -> start = true -> 0 <= count ->
  wp (ocf_lru_clean block_4k line_size num_entries start p count) (fun l s' =>
    Z.of_nat (length l) <= Z.min count OCF_EVICTION_CLEAN_SIZE /\ NoDup l.*1 /\ Forall ordered l /\ rd_held l.*1 (sp_cache s') /\
    conf_same (sp_parts s) (sp_parts s') /\
    (Z.of_nat (length l) < Z.min count OCF_EVICTION_CLEAN_SIZE -> forall x st, statuses c !! x = Some st -> Status.dirty st <> 0 ->
       partition_id <$> nodes (lru c) !! x = Some p -> x ∈ l.*1 \/ ~ idle x)) s.
Proof.
  intros Es -> Hcount. unfold ocf_lru_clean. cbn [negb]. apply wp_bind, wp_gets, wp_bind, wp_modify. set (s1 := with_lru_idx _ s).
  apply wp_bind. eapply (iter_init_wp _ _ _ c β m σ HI p not_detached Hpr _ false false s1); [right; exact not_free|exact Es|].
  intros it Hit Ep _ _ Hav Hcurs. eapply wp_mono; [apply (clean_entries_wp _ it [] s1)|].
  - split; [done|done| |].
    + intros j Hj. exists (list_of j), []. rewrite app_nil_r. split_and!; [done|by apply Hcurs| |].
      * intros x Hx. by apply not_elem_of_nil in Hx.
      * intros x Hx. by apply not_elem_of_nil in Hx.
    + intros j Hj Hn. destruct Hn. rewrite Hav. apply elem_of_seqZ. lia.
  - change (sp_cache s1) with (sp_cache s). rewrite Es. exact held_none.
  - intros l s' (L1 & L2 & _ & L4 & L5 & L6 & L7). rewrite app_nil_r in L5, L7.
    unfold OCF_EVICTION_CLEAN_SIZE in *. split_and!; [lia|done|done|done|exact L6|].
    intros Hlt x st Hst Hd Hlab. apply (L7 ltac:(lia) (lru_list_index x)); [|by eapply dirty_listed].
    unfold lru_list_index, OCF_NUM_LRU_LISTS. apply Z.mod_pos_bound. lia.
Qed.

(** Locks for reading leave the table in order. *)
Lemma held_ok xs c' : (forall x, x ∈ xs -> 0 <= x < num_entries) -> rd_held xs c' -> locks_ok (locks c') /\ c' = with_locks (locks c') c.
Proof.
  intros Hxs (acc & Ha & ->). split; [|done]. destruct Hl as [H1 H2 H3 H4]. split; cbn; [|done| |done].
  - intros x Hx. rewrite Ha. case_decide; [done|by apply H1].
  - intros x. rewrite Ha. case_decide; [done|]. exact (H3 x).
Qed.

Lemma ordered_range e : ordered e -> 0 <= e.1 < num_entries.
Proof.
  intros (_ & Hm & _). apply (proj2 (ci_map _ _ _ _ _ _ _ HI)) in Hm as [[h Hx] _].
  pose proof (wb_line _ _ (proj1 (ci_map _ _ _ _ _ _ _ HI)) h _ Hx). by rewrite (ci_entries _ _ _ _ _ _ _ HI).
Qed.

(** ** The end of the cleaning *)

Lemma unlock_rd_wp x xs s (Q : unit -> space C -> Prop) : rd_held (x :: xs) (sp_cache s) -> x ∉ xs -> idle x -> 0 <= x < num_entries ->
  (forall s', rd_held xs (sp_cache s') -> sp_parts s' = sp_parts s -> Q tt s') -> wp (on_locks (ocf_cache_line_unlock_rd ENTRIES x)) Q s.
Proof.
  intros (acc & Ha & Es) Hx Hidle Hr HQ. apply wp_on_locks. rewrite Es. unfold wp.
  change (ocf_cache_line_unlock_rd ENTRIES x) with (unlock_one_line ENTRIES OCF_READ x).
  rewrite unlock_quiet_run; [|cbn; rewrite Ha; by rewrite decide_True by left|by apply (lo_idle _ _ _ _ Hl)].
  destruct (lo_bucket _ _ _ _ Hl x Hr) as [l Hb]. apply HQ; [|done]. cbn.
  exists (<[x := OCF_CACHE_LINE_ACCESS_IDLE]> acc). split.
  - intros y. rewrite lookup_insert, Ha. case_decide as E; [subst y; by rewrite decide_False|].
    apply decide_ext. rewrite elem_of_cons. naive_solver.
  - unfold with_locks, set_access, set_lsts, bucket. cbn. f_equal. f_equal. rewrite Hb. cbn. by rewrite insert_id.
Qed.

Lemma clean_end_wp l : forall s, NoDup l.*1 -> Forall ordered l -> rd_held l.*1 (sp_cache s) ->
  wp (ocf_lru_clean_end ENTRIES l) (fun _ s' => sp_cache s' = c /\ sp_parts s' = sp_parts s) s.
Proof.
  induction l as [|[x ci] l IH]; intros s Hnd Ho Hh; unfold ocf_lru_clean_end; cbn [m_for].
  - apply wp_ret. split; [|done]. destruct Hh as (acc & Ha & ->).
    assert (acc = access (locks c)) as -> by (apply map_eq; intros y; rewrite Ha; by rewrite decide_False by apply not_elem_of_nil).
    by destruct c as [? ? ? ? [] ? ? ?].
  - apply NoDup_cons in Hnd as [Hn Hnd]. apply Forall_cons in Ho as [Ho1 Ho]. pose proof Ho1 as (Hi & Hm & _). cbn [fst] in *.
    apply wp_bind. eapply unlock_rd_wp; [exact Hh|exact Hn|exact Hi| |].
    + exact (ordered_range _ Ho1).
    + intros s' H' C'. rewrite <- C'. by apply IH.
Qed.
End EvictClean.
