(* ===== verification/EvictEngine.v ===== *)
(** * The engines over eviction

    The interface of [Engines.SpaceManagement] with the code of [ocf_space.c]
    and of the LRU policy behind it, and its laws.  What other requests do is an
    input: the table of the cache line locks when the request comes to evict, the
    I/O classes, the counter of the queue and the locks of hash buckets. *)

From stdpp Require Import sorting.
From S2P Require Import Prelude Alock AlockProofs CacheLineLock CacheLineLockProofs Links Lru LruProofs LruSeq Generator LruPart LruPartProofs.
From S2P Require Import Collision CollisionProofs Status StatusProofs Request RequestProofs CacheLine CacheLineProofs CacheLineSteps Engine EngineProofs EngineCheck.
From S2P Require Import PartMove HashLock IndexList IndexListProofs IoClass IoClassProofs EngineIo EngineBase Cleaner Engines Content EngineSpec EngineRuns.
From S2P Require Import Evict EvictIter EvictTake EvictNext EvictAssign EvictLoop EvictSpace EvictRemap EvictClean.
Open Scope Z_scope.

(** What a request finds when it comes to evict. *)
Record surroundings := Surroundings {
  su_locks : alock;             (** the locks of cache lines *)
  su_parts : parts;             (** the I/O classes *)
  su_lru_idx : Z;               (** the counter of its queue *)
  su_tries : nat;               (** where its attempts on hash buckets begin *)
  su_idle : Z -> bool           (** can the cleaning of a partition start? *)
}.

Section EvictEngine.
Context {C : Type} `{!CleaningPolicy C}.
Context (g : config) (self : Z) (hash_free : nat -> Z -> bool) (su : nat -> surroundings).
Abbreviation EV := (Prelude.M (space C)).
Abbreviation inv := (cache_inv (C:=C) (block_4k g) (line_size g) (num_entries g)).
Abbreviation lru_of := (lru_of (block_4k g) (line_size g)).

Definition come (k : nat) (c : cache C) : space C :=
  Space (with_locks (su_locks (su k)) c) (su_parts (su k)) (su_lru_idx (su k)) (su_tries (su k)).

(** The partitions that [ocf_engine_prepare_clines] cleans. *)
Definition valid_parts : EV (list Z) :=
  each_user_part (fun part acc =>
    valid ← on_parts (ocf_user_part_is_valid part);
    mret (inr (if (valid : bool) then acc ++ [part] else acc))) [].

(** The order that [ocf_lru_clean] gives to the cleaner. *)
Definition clean_order (idle : Z -> bool) (part : Z) : EV (list Z) :=
  entries ← ocf_lru_clean (block_4k g) (line_size g) (num_entries g) (idle part) part 128;
  mret (ocf_cleaner_sort_flush_data entries).*1.

Definition evicting : SpaceManagement C := {|
  space_managment_remap_do k own := fun c =>
    match ocf_space_managment_remap_do (block_4k g) (line_size g) (num_entries g) (waiter_hash g) self hash_free own (come k c) with
    | Some (r, s) => Some (r, with_locks (locks c) (sp_cache s))
    | None => None
    end;
  valid_user_parts k c := match valid_parts (come k c) with Some (parts, _) => parts | None => [] end;
  eviction_clean_lines k part c :=
    match clean_order (su_idle (su k)) part (come k c) with Some (lines, _) => lines | None => [] end
|}.

(** The requests that hold or await locks leave the table in order. *)
Definition surroundings_ok : Prop := forall k,
  locks_ok (num_entries g) (waiter_hash g) self (su_locks (su k)) /\ classes_ok (su_parts (su k)).

Context (Hsu : surroundings_ok).

(** ** Lines for the engines *)

Lemma swap_locks k k' (c : cache C) : with_locks k' (with_locks k c) = with_locks k' c.
Proof. done. Qed.

Lemma come_begins rd k c β m σ d : steady g c β m σ d -> looked g rd c m -> seen g c m -> live c m (fun _ => True) ->
  begins g (sp_cache (come k c)) m.
Proof.
  intros HS Hlk Hseen Hlive. split.
  - apply HS.
  - apply HS.
  - apply HS.
  - change (core_ready (cores c) (req_core (request c))). by apply HS, HS.
  - apply HS.
  - intros ci x st Hx _ Hst. by eapply Hlive.
  - intros i e He. destruct (se_entries _ _ _ Hseen) as [es Ees]. change (req_map (request c) !! i = Some e) in He.
    rewrite Ees, list_lookup_imap in He. apply fmap_Some in He as (e0 & _ & ->). unfold view. cbv zeta.
    change (mapping_of (sp_cache (come k c))) with (mapping_of c). change (request (sp_cache (come k c))) with (request c). by destruct (m !! _).
Qed.

Lemma inv_locks k c β m σ : inv c β m σ -> inv (with_locks k c) β m σ.
Proof.
  intros [F1 F2 F3 F4 F5 F6 F7 F8 F9 F10 F11 F12]. split; try done.
  intros x Hx. destruct (F10 x Hx) as (st & n & [G1 G2 G3 G4 G5]). by exists st, n.
Qed.

Lemma evicting_remap rd k own c β m σ d : steady g c β m σ d -> looked g rd c m -> seen g c m -> live c m (fun _ => True) ->
  wp (space_managment_remap_do (SpaceManagement := evicting) k own) (fun status c' => exists β' m' σ', remapped g rd c m status c' β' m' σ') c.
Proof.
  intros HS Hlk Hseen Hlive. destruct (Hsu k) as [HL HC]. pose proof (come_begins rd k c β m σ d HS Hlk Hseen Hlive) as HB.
  assert (H0 : stage g self (sp_cache (come k c)) m (sp_cache (come k c)) β m σ).
  { apply (stage_start g self); [apply inv_locks, HS|exact HL|exact (lk_map _ _ _ _ Hlk)|].
    destruct Hseen as [H1 H2]. by split. }
  assert (Hready : ready g self (sp_cache (come k c)) m (come k c)) by (split; [by exists β, m, σ|exact HC]).
  pose proof (space_remap_wp g self hash_free (sp_cache (come k c)) m HB own (come k c) Hready) as Hwp.
  unfold wp in *. cbn [space_managment_remap_do evicting].
  destruct (ocf_space_managment_remap_do _ _ _ _ _ _ _ _) as [[r s]|]; [|done].
  destruct Hwp as (t & (_ & (β' & m' & σ' & HS') & _) & _ & ->). exists β', m', σ'.
  replace c with (with_locks (locks c) (sp_cache (come k c))) at 1 by (by destruct c).
  apply (stage_remapped g self _ _ HB); [apply HS|exact HS'|..].
  - by eapply (looked_same g rd c).
  - destruct Hseen. by split.
  - exact Hlive.
  - by case_bool_decide.
Qed.

(** ** Lines for cleaning *)

Lemma valid_parts_range k c part : part ∈ valid_user_parts (SpaceManagement := evicting) k c -> 0 <= part < OCF_USER_IO_CLASS_MAX.
Proof.
  destruct (Hsu k) as [HL [l [Hlst Hcl]]]. pose proof Hlst as [[_ Hr _] _]. cbn [valid_user_parts evicting].
  assert (H : wp valid_parts (fun parts _ => forall x, x ∈ parts -> 0 <= x < OCF_USER_IO_CLASS_MAX) (come k c)).
  { apply (each_class_wp (A := list Z) _ (fun pre parts _ => forall x, x ∈ parts -> 0 <= x < OCF_USER_IO_CLASS_MAX) _ _ (come k c) l Hlst).
    - intros x Hx. by apply not_elem_of_nil in Hx.
    - intros pre x post parts s1 El Hc Hin. assert (Hx : 0 <= x < OCF_USER_IO_CLASS_MAX) by (apply Hr; set_solver).
      assert (Hc1 : classes_ok (sp_parts s1)) by (eapply classes_same; [exact Hc|by exists l]). destruct Hc1 as (l1 & _ & Hc1).
      unfold ocf_user_part_is_valid. apply wp_bind, wp_on_parts, wp_bind.
      apply wp_config_read; [apply Hc1; unfold OCF_USER_IO_CLASS_MAX in Hx; lia|]. intros cfg. apply wp_ret, wp_ret.
      split; [by etrans|]. destruct (uc_valid cfg); [|done]. intros y [Hy|Hy]%elem_of_app; [by apply Hin|]. by apply list_elem_of_singleton in Hy as ->.
    - by intros parts s1 _ Hin. }
  intros Hp. unfold wp in H. destruct (valid_parts _) as [[parts s]|]; [by apply H|by apply not_elem_of_nil in Hp].
Qed.

Lemma clean_order_wp idle part c β m σ d k : 0 <= part < OCF_USER_IO_CLASS_MAX -> steady g c β m σ d ->
  wp (clean_order idle part) (fun lines _ => Z.of_nat (length lines) <= 128 /\ forall x, x ∈ lines -> exists ci, m !! ci = Some x) (come k c).
Proof.
  intros Hx HS. destruct (Hsu k) as [HL _]. assert (HI : inv c β m σ) by apply HS. apply wp_bind. destruct (idle part).
  - eapply wp_mono; [eapply (lru_clean_wp _ _ _ (waiter_hash g) self (with_locks (su_locks (su k)) c) β m σ (inv_locks (su_locks (su k)) c β m σ HI) HL part Hx);
      [apply HS, Hx|done|done|done]|].
    intros es s3 (L1 & _ & L3 & _). apply wp_ret. rewrite Forall_forall in L3.
    pose proof (merge_sort_Permutation flush_before es) as HP. split.
    + rewrite length_fmap. unfold ocf_cleaner_sort_flush_data. rewrite HP. unfold OCF_EVICTION_CLEAN_SIZE in L1. lia.
    + intros y Hy. apply list_elem_of_fmap in Hy as (e & -> & He). unfold ocf_cleaner_sort_flush_data in He. rewrite HP in He.
      destruct (L3 e He) as (_ & Hci & _). by eexists.
  - unfold ocf_lru_clean. cbn [negb]. apply wp_ret, wp_ret. split; [done|]. intros y Hy. by apply not_elem_of_nil in Hy.
Qed.

Lemma evicting_clean k part c β m σ d : 0 <= part < OCF_USER_IO_CLASS_MAX -> steady g c β m σ d ->
  let lines := eviction_clean_lines (SpaceManagement := evicting) k part c in
  Z.of_nat (length lines) < 2 ^ 32 /\ forall x, x ∈ lines -> exists ci, m !! ci = Some x.
Proof.
  intros Hp HS. cbv zeta. cbn [eviction_clean_lines evicting]. pose proof (clean_order_wp (su_idle (su k)) part c β m σ d k Hp HS) as H.
  unfold wp in H. destruct (clean_order _ _ _) as [[lines s]|]; [|done]. destruct H as [H1 H2]. split; [lia|done].
Qed.

Lemma evicting_laws : SpaceLaws (SpaceManagement0 := evicting) g.
Proof.
  split.
  - intros rd k own c β m σ d. by apply evicting_remap.
  - intros n k part c0 c β m σ d Hp HS. eapply evicting_clean; [by eapply valid_parts_range|done].
Qed.
End EvictEngine.
