(* ===== verification/EvictProps.v ===== *)
(** * What eviction guarantees

    The theorems on the iterators, on the lines that a request gets, on the
    lines handed to the cleaner, and the engines on top of them, with a cache of
    one line on which everything is run. *)

From Stdlib Require Import String.
From S2P Require Import Prelude Alock AlockProofs CacheLineLock CacheLineLockProofs Links Lru LruProofs LruSeq Generator LruPart LruPartProofs.
From S2P Require Import Collision CollisionProofs Status StatusProofs Request RequestProofs CacheLine CacheLineProofs CacheLineSteps Engine EngineProofs EngineCheck.
From S2P Require Import PartMove HashLock IndexList IndexListProofs IoClass IoClassProofs EngineIo EngineBase Cleaner Engines Content EngineSpec CleanerProofs EngineExamples EngineRuns EngineHistory.
From S2P Require Import Evict EvictIter EvictTake EvictNext EvictAssign EvictLoop EvictSpace EvictPinned EvictRemap EvictClean EvictEngine.
Import EngineIo EngineSample.
Open Scope Z_scope.

Section EvictProps.
Context {C : Type} `{!CleaningPolicy C} (g : config) (self : Z) (hash_free : nat -> Z -> bool).
Abbreviation inv := (cache_inv (C:=C) (block_4k g) (line_size g) (num_entries g)).
Abbreviation locks_ok := (locks_ok (num_entries g) (waiter_hash g) self).
Abbreviation lru_of := (lru_of (block_4k g) (line_size g)).
Implicit Types (c : cache C) (m : gmap core_info Z).

(** C1. To its clients the cache with the program's own eviction is an array of
    bytes: any history of block-aligned reads and writes, one after another,
    gets the answers of the array until one fails, and then no other byte has
    changed.  Whatever lines other requests hold when a request comes to evict,
    whichever hash buckets are locked, however the I/O classes are configured
    and whichever allocations and I/Os fail, this is so under two conditions on
    the locks of a request's own lines: they do not fail, and a read gets them
    at once, where a write may have to wait ([good_submission]).  The buffers
    begin at offset 0.  The runs in [EngineExamples] show reads that wait, and
    offsets, for which it is not so. *)
Theorem evicting_history_refines_array {V} seq_cutoff su xs (s : engine C V) β m σ :
  surroundings_ok g self su ->
  config_ok g -> Forall (good_submission g) xs -> at_rest g s β m σ ->
  wp (serve_history (SpaceManagement0 := evicting g self hash_free su) g seq_cutoff xs) (fun _ s' => events s' = [] /\
    exists m' answers, completions s' = completions s ++ answers /\
      explained (content g (meta s) (vols s) m) xs answers (content g (meta s') (vols s') m')) s.
Proof.
  intros Hsu Hg Hxs Hrest. pose proof (evicting_laws g self hash_free su Hsu) as Hlaws.
  eapply wp_mono; [by eapply (serve_history_wp (SpaceManagement0 := evicting g self hash_free su) g seq_cutoff Hg xs s β m σ)|].
  intros [] s' (He & β' & m' & σ' & answers & HA & Hexp & _). split; [done|]. by exists m', answers.
Qed.

(** C4. A request that misses lines ends with status [LOOKUP_REMAPPED] exactly
    when all its core lines are mapped.  Each missing entry is as before or
    mapped to a line without data, in the partition of the request and locked for
    writing; entries that were found keep their lines.  No other core line gets
    a line; one that loses its line had a clean line that nobody held. *)
Theorem space_remap_serves own (s : space C) β σ m :
  let c := sp_cache s in let r := request c in
  begins g c m -> inv c β m σ -> locks_ok (locks c) -> classes_ok (sp_parts s) -> entries_map c m -> seen g c m ->
  wp (ocf_space_managment_remap_do (block_4k g) (line_size g) (num_entries g) (waiter_hash g) self hash_free own) (fun status s' =>
    exists β' m' σ', let c' := sp_cache s' in inv c' β' m' σ' /\ locks_ok (locks c') /\
      (status = LOOKUP_REMAPPED <-> forall i e, req_map (request c') !! i = Some e -> is_found e = true) /\
      (forall i e, req_map (request c') !! i = Some e -> exists e0, req_map r !! i = Some e0 /\
         (kept_entry c m c' m' i e e0 \/ new_entry c m c' m' i e e0)) /\
      (forall ci x, ~ req_line r ci -> m' !! ci = Some x -> m !! ci = Some x /\ statuses c' !! x = statuses c !! x) /\
      (forall ci x, ~ req_line r ci -> m !! ci = Some x -> m' !! ci = None ->
         (exists st, statuses c !! x = Some st /\ Status.dirty st = 0) /\ access (locks c) !! x = Some OCF_CACHE_LINE_ACCESS_IDLE)) s.
Proof.
  intros c r HB HI HL HC Hent Hseen. assert (HR : ready g self c m s) by (split; [exists β, m, σ; by apply stage_start|done]).
  eapply wp_mono; [exact (space_remap_wp g self hash_free c m HB own s HR)|].
  intros status s' (t & (_ & (β' & m' & σ' & HS) & _) & Ht & ->). exists β', m', σ'. cbv zeta.
  split; [apply HS|]. split; [apply HS|]. split; [|split_and!; apply HS].
  case_bool_decide as H0; (split; [intros Hst|intros Hall]); try done.
  - intros i e He. pose proof (EngineSpec.icount_none _ _ _ _ H0 He) as Hf. by apply negb_false_iff in Hf.
  - destruct H0. apply icount_never. intros i e He. apply negb_false_iff. by eapply Hall.
Qed.

(** C6. The iterator for eviction takes, of the list that it has come to, the least
    recently used line that is idle, not of the request and of a bucket that it
    could lock: of every line nearer to the tail, the line is in use, or it is of
    the request, or the attempt to lock its own bucket has failed during this
    call.  The bucket of the line taken is locked, by the request before or by
    an attempt of this call, and the line moves to the partition of the request.
    The iterator gives up only when every line of its lists is in use, of the
    request, or of a bucket that it failed to lock during this call. *)
Theorem eviction_next_takes_last c β m σ p dst it (s : space C) :
  inv c β m σ -> request_ok (line_size g) (request c) -> locks_ok (locks c) ->
  p <> PARTITION_FREE_DETACHED -> part_ready (lru_of c) p -> 0 <= dst < OCF_USER_IO_CLASS_MAX -> part_ready (lru_of c) dst ->
  sp_cache s = c -> iter_ok it -> it_part it = p -> it_clean it = true ->
  wp (lru_iter_eviction_next (block_4k g) (line_size g) (num_entries g) (waiter_hash g) hash_free it dst) (fun r s' =>
    match r.1 with
    | Some (x, ci) => exists j, last_free hash_free c σ p (it_hash_locked it) (sp_tries s) (sp_tries s') x j /\ free_to_take c x ci /\
        (own_bucket c (it_hash_locked it) ci \/ tried hash_free c true (it_hash_locked it) (sp_tries s) (sp_tries s') ci) /\
        moved_to (block_4k g) (line_size g) c σ dst x s s'
    | None => sp_cache s' = c /\ forall j x, j ∈ avail it -> x ∈ σ (p, j, true) ->
        busy hash_free c (it_hash_locked it) (sp_tries s) (sp_tries s') x
    end) s.
Proof.
  intros HI Hok HL Hp Hsrc Hdst Hdr Es Hit Ep Ec. eapply eviction_next_wp; try done.
  - intros it' s' [E _] Hb. cbn [fst]. split; [congruence|done].
  - intros x ci j it' s' _ _ _ Hlast Hfree Htr Hmv. cbn [fst]. by exists j.
Qed.

(** C7. What [ocf_lru_clean] hands to the cleaner: distinct dirty lines of the
    partition, each with the core line that it holds and locked for reading, at
    most 32 of them; when fewer than asked for, every other dirty line of the
    partition is in use.  When the cleaning ends, the cache and all locks are as
    before. *)
Theorem lru_clean_roundtrip c β m σ p count (s : space C) :
  inv c β m σ -> locks_ok (locks c) -> 0 <= p < OCF_USER_IO_CLASS_MAX -> part_ready (lru_of c) p -> sp_cache s = c -> 0 <= count ->
  wp (l ← ocf_lru_clean (block_4k g) (line_size g) (num_entries g) true p count;
      held ← gets (fun s => access (locks (sp_cache s)));
      _ ← ocf_lru_clean_end (waiter_hash g) l; mret (l, held)) (fun r s' =>
    let l := r.1 in sp_cache s' = c /\ Z.of_nat (length l) <= Z.min count 32 /\ NoDup l.*1 /\ Forall (ordered c m p) l /\
    (forall x, x ∈ l.*1 -> r.2 !! x = Some OCF_CACHE_LINE_ACCESS_ONE_RD) /\
    (Z.of_nat (length l) < Z.min count 32 -> forall x st, statuses c !! x = Some st -> Status.dirty st <> 0 ->
       partition_id <$> nodes (lru c) !! x = Some p -> x ∈ l.*1 \/ access (locks c) !! x <> Some OCF_CACHE_LINE_ACCESS_IDLE)) s.
Proof.
  intros HI HL Hp Hpr Es Hc. apply wp_bind. eapply wp_mono; [by eapply (lru_clean_wp _ _ _ (waiter_hash g) self c β m σ HI HL p Hp Hpr true)|].
  intros l s1 (L1 & L2 & L3 & L4 & L5 & L6). apply wp_bind, wp_gets, wp_bind.
  eapply wp_mono; [eapply (clean_end_wp _ _ _ (waiter_hash g) self c β m σ HI HL p Hp Hpr l s1 L2 L3 L4)|].
  intros [] s2 [E _]. apply wp_ret. cbn [fst snd]. split_and!; try done. intros x Hx. destruct L4 as (acc & Ha & ->). cbn. rewrite Ha.
  by rewrite decide_True.
Qed.
End EvictProps.

(** ** A cache of one line *)

Module EvictSample.
(** Nobody else holds a lock; request 7 comes to evict. *)
Definition free_table : alock := Alock {[0 := 0]} {[0 := []]} 0 {[7 := LReq 0 0 Alock.OCF_READ false]} [] [].
Definition alone (k : nat) : surroundings := Surroundings free_table started_cache 0 0 (fun _ => true).

Lemma free_table_ok : locks_ok 1 1 7 free_table.
Proof.
  split.
  - intros x Hx. assert (x = 0) as -> by lia. by eexists.
  - intros x Hx. assert (x = 0) as -> by lia. by eexists.
  - intros x _. unfold bucket. cbn. rewrite lookup_singleton. by case_decide.
  - by eexists.
Qed.

Lemma started_classes : classes_ok started_cache.
Proof.
  destruct started_list as (l & _ & Hok). exists l. split; [apply (po_list _ _ Hok)|].
  intros x Hx. destruct (po_pointers _ _ Hok x Hx) as (H1 & H2 & _). by split.
Qed.

Lemma alone_ok : surroundings_ok one_line_config 7 alone.
Proof. intros k. split; [exact free_table_ok|exact started_classes]. Qed.

(** A read of core line 1, a write of core line 2 that waits for its lock and
    reads of both: every request evicts the line of the one before. *)
Definition missing_history : list (submission Z) :=
  [Submission OCF_READ ocf_read_generic_h 0 0 4096 4096 (fun _ => 0) faultless;
   Submission OCF_WRITE ocf_write_wt_h 0 0 8192 4096 (fun o => 5000 + o) waiting;
   Submission OCF_READ ocf_read_generic_h 0 0 4096 512 (fun _ => 0) faultless;
   Submission OCF_READ ocf_read_generic_h 0 0 8192 512 (fun _ => 0) faultless].

Lemma evicting_history_refines_array_witness : exists l,
  let s := with_events [] (sample_engine ocf_read_generic_h 512 l) in
  wp (serve_history (SpaceManagement0 := evicting one_line_config 7 (fun _ _ => true) alone) one_line_config false missing_history)
    (fun _ s' => events s' = [] /\ exists m' answers, completions s' = answers /\
      explained (content one_line_config (meta s) (vols s) {[CoreInfo 0 0 := 0]}) missing_history answers (content one_line_config (meta s') (vols s') m')) s.
Proof.
  destruct (sample_submitted ocf_read_generic_h 512 (or_introl eq_refl)) as (l & σ & [H1 H2 H3 _ _ _ _ _]). exists l.
  apply (evicting_history_refines_array one_line_config 7 (fun _ _ => true) false alone) with (β := bupd 0 [0] (fun _ => [])) (σ := σ).
  - exact alone_ok.
  - exact one_line_config_ok.
  - repeat apply Forall_cons_2; [..|apply Forall_nil_2].
    + split; [by_compute|reflexivity|reflexivity|by_compute|split; [exists 8|exists 8]; reflexivity|left; reflexivity|intros k; reflexivity].
    + split; [by_compute|reflexivity|reflexivity|by_compute|split; [exists 16|exists 8]; reflexivity|right; left; reflexivity|discriminate].
    + split; [by_compute|reflexivity|reflexivity|by_compute|split; [exists 8|exists 1]; reflexivity|left; reflexivity|intros k; reflexivity].
    + split; [by_compute|reflexivity|reflexivity|by_compute|split; [exists 16|exists 1]; reflexivity|left; reflexivity|intros k; reflexivity].
  - destruct H1. split; try assumption. reflexivity.
Defined.

(** The history runs without an error, and the cache ends with core line 2. *)
Example missing_history_answers :
  match serve_history (SpaceManagement0 := evicting one_line_config 7 (fun _ _ => true) alone) one_line_config false missing_history
    (with_events [] (sample_engine ocf_read_generic_h 512 EngineExamples.EngineExamples.lru_of_line)) with
  | Some (_, s) => ((completions s).*1, (fun c => c.2 0) <$> completions s, core_infos (mapping_of (meta s)) !! 0)
  | None => ([], [], None)
  end = ([0; 0; 0; 0], [4096; 5000; 4096; 5000], Some (CoreInfo 0 2)).
Proof. vm_compute. reflexivity. Qed.

(** A world where every lock of the request's lines is refused for want of memory.  A read
    whose line is mapped completes with that error.  A read that has just been
    given a line runs into an assertion: the line is left locked when the request
    falls back to pass-through, which locks it again. *)
Definition refusing : world Z :=
  World (fun _ => 0) (fun _ _ => 777) (fun _ _ => false) (fun _ => LockFails (- OCF_ERR_NO_MEM)) (fun _ => true) (fun _ => true) (fun _ => 5).
Definition refused (core_line : Z) : option (list Z * list event) :=
  match serve_history (SpaceManagement0 := evicting one_line_config 7 (fun _ _ => true) alone) one_line_config false
    [Submission OCF_READ ocf_read_generic_h 0 0 (4096 * core_line) 4096 (fun _ => 0) refusing]
    (with_events [] (sample_engine ocf_read_generic_h 512 EngineExamples.EngineExamples.lru_of_line)) with
  | Some (_, s) => Some ((completions s).*1, events s)
  | None => None
  end.
Example lock_error_after_mapping : (refused 0, refused 1) = (Some ([- OCF_ERR_NO_MEM], []), None).
Proof. vm_compute. reflexivity. Qed.

(** A request that has looked up core line 1. *)
Definition looking (l : lru_cache) : cache unit :=
  with_locks free_table (with_request (ocf_req_new size_4 0 0 4096 4096 [zero_entry]) (line_cache l)).
Definition one_mapped : gmap core_info Z := {[CoreInfo 0 0 := 0]}.
Definition miss_cache (l : lru_cache) : cache unit :=
  let c := looking l in let es := imap (view false size_4 c one_mapped (request c)) (req_map (request c)) in
  visit c (request c) es (sums false size_4 c (request c) es).
Definition miss_space (l : lru_cache) : space unit := Space (miss_cache l) started_cache 0 0.

Lemma miss_ready : exists l β σ, cache_inv false size_4 1 (miss_cache l) β one_mapped σ /\ begins one_line_config (miss_cache l) one_mapped /\
  forall p, 0 <= p < OCF_USER_IO_CLASS_MAX -> part_ready (lru_of false size_4 (miss_cache l)) p.
Proof.
  destruct line_cache_ready as (l & σ & HI & Hr). exists l, (bupd 0 [0] (fun _ => [])), σ.
  split; [apply inv_request; apply (inv_locks one_line_config free_table), inv_request, HI|]. split; [|exact Hr]. split.
  - split; by_compute.
  - by_compute.
  - exact Hr.
  - exact (ci_owner _ _ _ _ _ _ _ HI (CoreInfo 0 0) 0 eq_refl).
  - by_compute.
  - intros ci x st _ _ Hx. cbn in Hx. by apply lookup_singleton_Some in Hx as [<- <-].
  - intros [|i] e He; [|done]. injection He as <-. vm_compute. reflexivity.
Qed.

Lemma space_remap_serves_witness : exists l, wp (ocf_space_managment_remap_do false size_4 1 1 7 (fun _ _ => true) false) (fun status s' =>
  status = LOOKUP_REMAPPED <-> forall i e, req_map (request (sp_cache s')) !! i = Some e -> is_found e = true) (miss_space l).
Proof.
  destruct miss_ready as (l & β & σ & HI & HB & Hr). exists l.
  assert (Hw := space_remap_serves one_line_config 7 (fun _ _ => true) false (miss_space l) β σ one_mapped HB HI free_table_ok started_classes).
  eapply wp_mono; [apply Hw|].
  - intros [|i] e He; [|discriminate He]. injection He as <-. vm_compute. reflexivity.
  - split; [exists [zero_entry]; reflexivity|reflexivity].
  - intros status s' (β' & m' & σ' & H1 & H2 & H3 & _). exact H3.
Defined.

(** The run: the line of core line 0 becomes that of core line 1. *)
Example line_evicted :
  match ocf_space_managment_remap_do false size_4 1 1 7 (fun _ _ => true) false (miss_space EngineExamples.EngineExamples.lru_of_line) with
  | Some (status, s) => Some (status, (fun e => (me_status e, me_coll_idx e)) <$> req_map (request (sp_cache s)), core_infos (mapping_of (sp_cache s)) !! 0)
  | None => None
  end = Some (LOOKUP_REMAPPED, [(LOOKUP_REMAPPED, 0)], Some (CoreInfo 0 1)).
Proof. vm_compute. reflexivity. Qed.

Definition sample_iter : lru_iter := LruIter [] 0 (Z.shiftl 1 OCF_NUM_LRU_LISTS - 1) OCF_NUM_LRU_LISTS 31 0 true true.
Lemma sample_iter_ok : iter_ok sample_iter.
Proof. split; by_compute. Qed.

Lemma eviction_next_takes_last_witness : exists l c, c = miss_cache l /\
  wp (lru_iter_eviction_next false size_4 1 1 (fun _ _ => true) sample_iter 0) (fun r s' =>
    match r.1 with Some (x, ci) => free_to_take c x ci | None => sp_cache s' = c end) (miss_space l).
Proof.
  destruct miss_ready as (l & β & σ & HI & HB & Hr). exists l, (miss_cache l). split; [reflexivity|].
  assert (H0 : 0 <= 0 < OCF_USER_IO_CLASS_MAX) by (split; [discriminate|reflexivity]).
  eapply wp_mono; [apply (eviction_next_takes_last one_line_config 7 (fun _ _ => true) (miss_cache l) β one_mapped σ 0 0 sample_iter (miss_space l) HI
    (bg_ok _ _ _ HB) free_table_ok ltac:(discriminate) (Hr 0 H0) H0 (Hr 0 H0) eq_refl sample_iter_ok eq_refl eq_refl)|].
  intros [[[x ci]|] it] s' H; cbn [fst] in *; [|apply H]. destruct H as (j & _ & H & _). exact H.
Defined.

Lemma lru_clean_roundtrip_witness : exists l,
  wp (l ← ocf_lru_clean false size_4 1 true 0 128; held ← gets (fun s => access (locks (sp_cache s))); _ ← ocf_lru_clean_end 1 l; mret (l, held))
    (fun r s' => sp_cache s' = miss_cache l /\ Z.of_nat (length r.1) <= 32) (miss_space l).
Proof.
  destruct miss_ready as (l & β & σ & HI & HB & Hr). exists l.
  assert (H0 : 0 <= 0 < OCF_USER_IO_CLASS_MAX) by (split; [discriminate|reflexivity]).
  eapply wp_mono; [apply (lru_clean_roundtrip one_line_config 7 (miss_cache l) β one_mapped σ 0 128 (miss_space l) HI free_table_ok H0 (Hr 0 H0) eq_refl ltac:(discriminate))|].
  intros r s' (H1 & H2 & _). split; [exact H1|exact H2].
Defined.

(** ** Pinned classes *)

(** Class 1 with a priority, the line in class 0. *)
Definition classes (prio : Z) : parts :=
  let s := Parts (user_parts started_cache) (part_config started_cache) (IoClass.curr_size started_cache) (valid_parts_no started_cache)
    (attached started_cache) (standby started_cache) 1 (cleaning_policy_type started_cache) in
  match ocf_mngt_cache_io_classes_configure true [IoClassConfig 1 100 (Some "db"%string) 1 prio] s with
  | Some (_, s) => s
  | None => s
  end.
Definition pinned_request : ocf_request := ocf_req_hash 1 (ocf_req_new size_4 0 1 4096 4096 [zero_entry]).
Definition pinned_start (ps : parts) : space unit :=
  Space (with_locks free_table (with_request pinned_request (line_cache EngineExamples.EngineExamples.lru_of_line))) ps 0 0.
Definition priority_of (s : space unit) (x : Z) : option Z := uc_priority <$> part_config (sp_parts s) !! x.
Definition remap_shown (o : option (lookup_status * space unit)) : option (option Z * lookup_status * list (lookup_status * Z)) :=
  match o with
  | Some (r, s) => Some (priority_of s 1, r, (fun e => (me_status e, me_coll_idx e)) <$> req_map (request (sp_cache s)))
  | None => None
  end.
Definition remap (ps : parts) : option (option Z * lookup_status * list (lookup_status * Z)) :=
  remap_shown (ocf_space_managment_remap_do false size_4 1 1 7 (fun _ _ => true) false (pinned_start ps)).

(** While the counters are zero, a request of a class of priority 1 evicts the
    idle clean line of class 0, and a request of a pinned class gets nothing. *)
Example pinned_class_cannot_evict :
  remap (classes 1) = Some (Some 1, LOOKUP_REMAPPED, [(LOOKUP_REMAPPED, 0)]) /\
  remap (classes OCF_IO_CLASS_PRIO_PINNED) = Some (Some (-1), LOOKUP_MISS, [(LOOKUP_MISS, 0)]).
Proof. split; vm_compute; reflexivity. Qed.

Lemma sample_calm : exists l, calm one_line_config (miss_space l).
Proof.
  pose proof sample_parts as [P0 _]. destruct (sample_inv 0 P0) as (l & σ & _ & Hs & _). exists l.
  assert (H0 : Forall (fun p => sample_counters !! p = Some 0) LruPartProofs.sample_ids) by by_compute. rewrite Forall_forall in H0.
  assert (Hprio : map_Forall (fun _ cfg => uc_priority cfg < 65535) (part_config started_cache)) by by_compute.
  split.
  - exact started_classes.
  - intros p Hp. exact (sample_ready p 0 l (sample_user p Hp) P0 Hs).
  - intros p Hp. change (evict_counter l !! p = Some 0). rewrite (same_evict _ _ Hs). by apply H0, sample_user.
  - intros p cfg Hcfg. exact (Hprio p cfg Hcfg).
Qed.

Lemma pinned_class_evicts_nothing_witness : exists l r s',
  ocf_evict_user_partitions false size_4 1 1 7 (fun _ _ => true) 1 false OCF_IO_CLASS_PRIO_PINNED (miss_space l) = Some (r, s') /\
    r = 0 /\ sp_cache s' = miss_cache l.
Proof.
  destruct sample_calm as [l Hl]. exists l.
  assert (Hw := pinned_class_evicts_nothing one_line_config 7 (fun _ _ => true) 1 _ Hl (conj eq_refl eq_refl)).
  rewrite wp_run in Hw. destruct Hw as (r & s' & Hr & H1 & H2). exists r, s'. split; [exact Hr|]. split; [exact H1|exact H2].
Defined.
End EvictSample.
