(* ===== verification/Nhit.v ===== *)
(** * Promotion: [src/promotion/nhit/] and [src/promotion/promotion.c]

    Which core lines are worth a cache line.  The policy nhit counts the
    accesses to core lines that are not cached and promotes a request once all
    its lines have been seen often enough.  The counts live in a ring buffer of
    slots that is indexed by a hash table with collision lists; a new core line
    takes the slot at the pointer of the ring, whose old line is forgotten.

    The locks of the buckets are part of the state.  An operation that waits for
    a lock which is not free does not end: a lone caller would wait forever. *)

From S2P Require Import Prelude Links Lru Collision Request HashLock.
Import HashLock.
Open Scope Z_scope.

(** ** [nhit_hash.c] *)

Definition HASH_PRIME : Z := 4099.
Definition OCF_ERR_INVAL : Z := 1000000.
Definition OCF_ERR_NO_MEM : Z := 1000005.
Definition OCF_ERR_UNKNOWN : Z := 1000013.
Definition OCF_ERR_NO_FREE_RAM : Z := 1000015.
Definition CORE_ID_INVALID : Z := 4096.

Record nhit_list_elem := NhitElem {
  ne_core_lba : Z;
  ne_counter : Z;
  ne_coll_prev : Z;
  ne_coll_next : Z;
  ne_core_id : Z;
  ne_valid : bool
}.
Definition with_counter n e := NhitElem (ne_core_lba e) n (ne_coll_prev e) (ne_coll_next e) (ne_core_id e) (ne_valid e).
Definition with_coll_prev p e := NhitElem (ne_core_lba e) (ne_counter e) p (ne_coll_next e) (ne_core_id e) (ne_valid e).
Definition with_coll_next n e := NhitElem (ne_core_lba e) (ne_counter e) (ne_coll_prev e) n (ne_core_id e) (ne_valid e).
Definition with_core_id i e := NhitElem (ne_core_lba e) (ne_counter e) (ne_coll_prev e) (ne_coll_next e) i (ne_valid e).
Definition with_valid v e := NhitElem (ne_core_lba e) (ne_counter e) (ne_coll_prev e) (ne_coll_next e) (ne_core_id e) v.

Record nhit_hash := NhitHash {
  hash_entries : Z;
  rb_entries : Z;
  hash_map : gmap Z Z;
  hash_locks : gmap Z env_rwsem;
  ring_buffer : gmap Z nhit_list_elem;
  rb_pointer : Z
}.
Definition with_hash_map f s := NhitHash (hash_entries s) (rb_entries s) (f (hash_map s)) (hash_locks s) (ring_buffer s) (rb_pointer s).
Definition with_hash_locks f s := NhitHash (hash_entries s) (rb_entries s) (hash_map s) (f (hash_locks s)) (ring_buffer s) (rb_pointer s).
Definition with_ring f s := NhitHash (hash_entries s) (rb_entries s) (hash_map s) (hash_locks s) (f (ring_buffer s)) (rb_pointer s).
Definition with_pointer p s := NhitHash (hash_entries s) (rb_entries s) (hash_map s) (hash_locks s) (ring_buffer s) p.

Definition DIV_ROUND_UP (x y : Z) : Z := u64 (u64 (x + y) - 1) / y.
Definition calculate_hash_buckets (hash_size : Z) : Z :=
  u64 (u64 (DIV_ROUND_UP (hash_size / 4) HASH_PRIME * HASH_PRIME) - 1).

(** *** Allocation

    What is allocated when an attempt to create the table is over. *)
Inductive nhit_memory := MemCtx | MemHashMap | MemHashLocks | MemRingBuffer.
#[export] Instance nhit_memory_eq_dec : EqDecision nhit_memory.
Proof. solve_decision. Defined.

Definition nhit_hash_new (hash_size : Z) : nhit_hash :=
  let n := u32 (calculate_hash_buckets hash_size) in
  NhitHash n hash_size
    (list_to_map ((fun i => (i, u32 hash_size)) <$> seqZ 0 n)) (list_to_map ((fun i => (i, rw_free)) <$> seqZ 0 n))
    (list_to_map ((fun i => (i, NhitElem 0 0 0 0 CORE_ID_INVALID true)) <$> seqZ 0 hash_size)) 0.

(** [mem]: does an allocation succeed; [sem i]: can semaphore [i] be
    initialised; [spin]: the result for the spinlock.  The result, the table and
    what stays allocated. *)
Definition nhit_hash_init (mem : nhit_memory -> bool) (sem : Z -> bool) (spin hash_size : Z) : Z * option nhit_hash * list nhit_memory :=
  let new := nhit_hash_new hash_size in
  if negb (mem MemCtx) then (- OCF_ERR_NO_MEM, None, [])
  else if negb (mem MemHashMap) then (- OCF_ERR_NO_MEM, None, [])
  else if negb (mem MemHashLocks) then (- OCF_ERR_NO_MEM, None, [])
  else if negb (forallb sem (seqZ 0 (hash_entries new))) then (- OCF_ERR_UNKNOWN, None, [])
  else if negb (mem MemRingBuffer) then (- OCF_ERR_NO_MEM, None, [])
  else if negb (bool_decide (spin = 0)) then (spin, None, [MemRingBuffer])
  else (0, Some new, [MemCtx; MemHashMap; MemHashLocks; MemRingBuffer]).

(** *** Hashing and lookup *)

Definition NH := Prelude.M nhit_hash.

Definition hash_function (core_id core_lba limit : Z) : Z :=
  if bool_decide (core_id = CORE_ID_INVALID) then u32 limit
  else u32 (u64 (u64 (core_lba * HASH_PRIME) + core_id) mod limit).

Definition elem (slot : Z) : NH nhit_list_elem := load (fun s => ring_buffer s !! slot).
Definition bucket_head (hash : Z) : NH Z := load (fun s => hash_map s !! hash).
(** A store to [ctx->ring_buffer\[slot\]]. *)
Definition set_elem (slot : Z) (f : nhit_list_elem -> nhit_list_elem) : NH unit :=
  _ ← elem slot; modify (with_ring (alter f slot)).
Definition set_bucket_head (hash slot : Z) : NH unit :=
  _ ← bucket_head hash; modify (with_hash_map (<[hash := u32 slot]>)).

(** The loop of [core_line_lookup]; out of fuel is no result. *)
Fixpoint lookup_from (fuel : nat) (core_id core_lba cur : Z) : NH Z :=
  match fuel with
  | O => env_bug
  | S fuel =>
      s ← get;
      if bool_decide (cur = rb_entries s) then mret (u32 (rb_entries s))
      else
        cur_elem ← elem cur;
        if bool_decide (ne_core_lba cur_elem = core_lba) && bool_decide (ne_core_id cur_elem = core_id)
        then mret cur
        else lookup_from fuel core_id core_lba (ne_coll_next cur_elem)
  end.

Definition core_line_lookup (core_id core_lba : Z) : NH Z :=
  s ← get;
  cur ← bucket_head (hash_function core_id core_lba (hash_entries s));
  lookup_from (S (Z.to_nat (rb_entries s))) core_id core_lba cur.

(** *** Slots *)

(** The result and [*slot]. *)
Definition get_rb_slot : NH (bool * Z) :=
  s ← get;
  let slot := rb_pointer s in
  e ← elem slot;
  _ ← set_elem slot (with_valid false);
  _ ← modify (with_pointer (u64 (slot + 1) mod rb_entries s));
  mret (ne_valid e, slot).

Definition commit_rb_slot (slot : Z) : NH unit := set_elem slot (with_valid true).

Definition collision_remove (slot_id : Z) : NH unit :=
  s ← get;
  slot ← elem slot_id;
  let hash := hash_function (ne_core_id slot) (ne_core_lba slot) (hash_entries s) in
  if bool_decide (ne_core_id slot = CORE_ID_INVALID) then mret tt
  else
    _ ← set_elem slot_id (with_core_id CORE_ID_INVALID);
    _ ← when (bool_decide (ne_coll_prev slot <> rb_entries s))
          (set_elem (ne_coll_prev slot) (with_coll_next (ne_coll_next slot)));
    _ ← when (bool_decide (ne_coll_next slot <> rb_entries s))
          (set_elem (ne_coll_next slot) (with_coll_prev (ne_coll_prev slot)));
    head ← bucket_head hash;
    when (bool_decide (head = slot_id)) (set_bucket_head hash (ne_coll_next slot)).

Definition collision_insert_new (slot_id core_id core_lba : Z) : NH unit :=
  s ← get;
  let hash := hash_function core_id core_lba (hash_entries s) in
  head ← bucket_head hash;
  _ ← set_elem slot_id (fun e => NhitElem core_lba 1 (u32 (rb_entries s)) head core_id (ne_valid e));
  _ ← when (bool_decide (head <> rb_entries s)) (set_elem head (with_coll_prev (u32 slot_id)));
  set_bucket_head hash slot_id.

(** *** Locks *)

Definition sem_down (rw : access) (hash : Z) : NH unit :=
  l ← load (fun s => hash_locks s !! hash);
  match rw_acquire rw l with
  | Some l => modify (with_hash_locks (<[hash := l]>))
  | None => env_bug
  end.
Definition sem_up (rw : access) (hash : Z) : NH unit :=
  l ← load (fun s => hash_locks s !! hash);
  modify (with_hash_locks (<[hash := rw_release rw l]>)).

Definition write_lock_hashes (core_id1 core_lba1 core_id2 core_lba2 : Z) : NH unit :=
  s ← get;
  let hash1 := hash_function core_id1 core_lba1 (hash_entries s) in
  let hash2 := hash_function core_id2 core_lba2 (hash_entries s) in
  let first := Z.min hash1 hash2 in
  let second := Z.max hash1 hash2 in
  _ ← when (bool_decide (first <> hash_entries s)) (sem_down OCF_METADATA_WR first);
  when (bool_decide (second <> hash_entries s) && bool_decide (first <> second)) (sem_down OCF_METADATA_WR second).

Definition write_unlock_hashes (core_id1 core_lba1 core_id2 core_lba2 : Z) : NH unit :=
  s ← get;
  let hash1 := hash_function core_id1 core_lba1 (hash_entries s) in
  let hash2 := hash_function core_id2 core_lba2 (hash_entries s) in
  _ ← when (bool_decide (hash1 <> hash_entries s)) (sem_up OCF_METADATA_WR hash1);
  when (bool_decide (hash2 <> hash_entries s) && bool_decide (hash1 <> hash2)) (sem_up OCF_METADATA_WR hash2).

(** *** Operations *)

Definition nhit_hash_insert (core_id core_lba : Z) : NH unit :=
  '(got, slot_id) ← get_rb_slot;
  if negb (got : bool) then mret tt
  else
    slot ← elem slot_id;
    let slot_core_id := ne_core_id slot in
    let slot_core_lba := ne_core_lba slot in
    _ ← write_lock_hashes core_id core_lba slot_core_id slot_core_lba;
    _ ← collision_remove slot_id;
    _ ← collision_insert_new slot_id core_id core_lba;
    _ ← write_unlock_hashes core_id core_lba slot_core_id slot_core_lba;
    commit_rb_slot slot_id.

(** The slot of the core line, under the read lock of its bucket: what
    [nhit_hash_query] and [nhit_hash_set_occurences] have in common. *)
Definition at_core_line {A} (core_id core_lba : Z) (missing : A) (found : Z -> NH A) : NH A :=
  s ← get;
  let hash := hash_function core_id core_lba (hash_entries s) in
  _ ← sem_down OCF_METADATA_RD hash;
  rb_idx ← core_line_lookup core_id core_lba;
  if bool_decide (rb_idx = rb_entries s) then _ ← sem_up OCF_METADATA_RD hash; mret missing
  else
    a ← found rb_idx;
    _ ← sem_up OCF_METADATA_RD hash;
    mret a.

(** The new counter of the core line, if it is there. *)
Definition nhit_hash_query (core_id core_lba : Z) : NH (option Z) :=
  at_core_line core_id core_lba None (fun rb_idx =>
    e ← elem rb_idx;
    let counter := s32 (ne_counter e + 1) in
    _ ← set_elem rb_idx (with_counter counter);
    mret (Some counter)).

Definition nhit_hash_set_occurences (core_id core_lba occurences : Z) : NH unit :=
  at_core_line core_id core_lba tt (fun rb_idx => set_elem rb_idx (with_counter (s32 occurences))).

(** [destroy i]: what destroying semaphore [i] returns.  Nothing stays
    allocated. *)
Definition nhit_hash_deinit (destroy : Z -> Z) (s : nhit_hash) : option (list nhit_memory) :=
  if forallb (fun i => bool_decide (destroy i = 0)) (seqZ 0 (hash_entries s)) then Some [] else None.

(** Sizes of the types, in bytes. *)
Record nhit_sizes := NhitSizes { size_policy_context : Z; size_nhit_hash : Z; size_cache_line : Z; size_rwsem : Z; size_list_elem : Z }.

Definition nhit_hash_sizeof (z : nhit_sizes) (hash_size : Z) : Z :=
  let n_buckets := calculate_hash_buckets hash_size in
  u64 (size_nhit_hash z + n_buckets * size_cache_line z + n_buckets * size_rwsem z + hash_size * size_list_elem z).
