(* ===== verification/NhitProofs.v ===== *)
(** * The table of nhit refines a list of recent core lines

    [tracks s occ]: [occ] lists the occupied slots of the ring with the core line
    and the count in each, the newest first.  The collision list of a bucket is
    the part of [occ] that hashes to it, in the same order. *)

From S2P Require Import Prelude Links Lru Collision Request HashLock Nhit.
Import HashLock.
Open Scope Z_scope.

#[export] Instance nhit_link_node : LinkNode ne_coll_prev ne_coll_next with_coll_prev with_coll_next id.
Proof. by split. Qed.
Abbreviation ring_list := (link ne_coll_prev ne_coll_next).

Record visit := Visit { v_core : Z; v_lba : Z; v_count : Z }.
#[export] Instance visit_eq_dec : EqDecision visit.
Proof. solve_decision. Defined.

(** What a slot says besides its links. *)
Definition payload (e : nhit_list_elem) : visit * bool := (Visit (ne_core_id e) (ne_core_lba e) (ne_counter e), ne_valid e).
Definition data (s : nhit_hash) (p : Z) : option (visit * bool) := payload <$> ring_buffer s !! p.

Definition hash_of (s : nhit_hash) (v : visit) : Z := hash_function (v_core v) (v_lba v) (hash_entries s).
Definition bucket (s : nhit_hash) (occ : list (Z * visit)) (h : Z) : list Z :=
  (filter (fun x => hash_of s x.2 = h) occ).*1.

(** The part of the invariant that the collision lists carry. *)
Record listed (s : nhit_hash) (occ : list (Z * visit)) : Prop := {
  li_entries : 0 < rb_entries s < 2 ^ 32;
  li_hash : 0 < hash_entries s < 2 ^ 32;
  li_nodup : NoDup occ.*1;
  li_range p : p ∈ occ.*1 -> 0 <= p < rb_entries s;
  li_data p v : (p, v) ∈ occ -> (exists b, data s p = Some (v, b)) /\ 0 <= v_core v < CORE_ID_INVALID;
  li_head h : 0 <= h < hash_entries s -> hash_map s !! h = Some (hdd (rb_entries s) (bucket s occ h));
  li_chain h : ring_list (ring_buffer s) (rb_entries s) (bucket s occ h) (rb_entries s)
}.

(** What does not change but for the links, and for slot [p]. *)
Record but_slot (p : Z) (s s' : nhit_hash) : Prop := {
  bs_rb : rb_entries s' = rb_entries s;
  bs_hash : hash_entries s' = hash_entries s;
  bs_pointer : rb_pointer s' = rb_pointer s;
  bs_locks : hash_locks s' = hash_locks s;
  bs_data y : y <> p -> data s' y = data s y
}.

Lemma hash_of_range s v :
  0 < hash_entries s < 2 ^ 32 -> 0 <= v_core v < CORE_ID_INVALID -> 0 <= hash_of s v < hash_entries s.
Proof.
  intros Hh Hv. unfold hash_of, hash_function. rewrite bool_decide_eq_false_2 by lia.
  pose proof (Z.mod_pos_bound (u64 (u64 (v_lba v * HASH_PRIME) + v_core v)) (hash_entries s)).
  rewrite wrap_small; lia.
Qed.

Lemma bucket_in s occ h p : p ∈ bucket s occ h <-> exists v, (p, v) ∈ occ /\ hash_of s v = h.
Proof.
  unfold bucket. rewrite list_elem_of_fmap. split.
  - intros ([q v] & -> & [? ?]%list_elem_of_filter). eauto.
  - intros (v & ? & ?). exists (p, v). split; [done|]. by apply list_elem_of_filter.
Qed.

Lemma bucket_sub s occ h p : p ∈ bucket s occ h -> p ∈ occ.*1.
Proof. rewrite bucket_in. intros (v & Hv & _). apply list_elem_of_fmap. by exists (p, v). Qed.

Lemma bucket_nodup s occ h : NoDup occ.*1 -> NoDup (bucket s occ h).
Proof.
  intros Hnd. eapply sublist_NoDup; [exact Hnd|]. apply fmap_sublist, sublist_filter.
Qed.

Lemma occ_fun (occ : list (Z * visit)) p v v' : NoDup occ.*1 -> (p, v) ∈ occ -> (p, v') ∈ occ -> v = v'.
Proof.
  intros Hnd H1 H2. apply list_elem_of_lookup in H1 as [i Hi]. apply list_elem_of_lookup in H2 as [j Hj].
  assert (i = j) as ->; [|by simplify_eq].
  eapply (NoDup_lookup _ _ _ _ Hnd); rewrite list_lookup_fmap, ?Hi, ?Hj; done.
Qed.

Lemma bucket_disj s occ h h' p : NoDup occ.*1 -> p ∈ bucket s occ h -> p ∈ bucket s occ h' -> h = h'.
Proof.
  rewrite !bucket_in. intros Hnd (v & H1 & <-) (v' & H2 & <-). by rewrite (occ_fun _ _ _ _ Hnd H1 H2).
Qed.

Lemma bucket_snoc s occ p v h :
  bucket s (occ ++ [(p, v)]) h = if decide (hash_of s v = h) then bucket s occ h ++ [p] else bucket s occ h.
Proof.
  unfold bucket. rewrite filter_app, fmap_app, (filter_cons _ _ []). cbn [snd].
  case_decide; cbn; [done|by rewrite app_nil_r].
Qed.

Lemma bucket_last_nodup s occ p v : NoDup (occ ++ [(p, v)]).*1 -> NoDup (bucket s occ (hash_of s v) ++ [p]).
Proof.
  intros Hnd. apply (bucket_nodup s _ (hash_of s v)) in Hnd. by rewrite bucket_snoc, decide_True in Hnd by done.
Qed.

Lemma bucket_cons s occ p v h :
  bucket s ((p, v) :: occ) h = if decide (hash_of s v = h) then p :: bucket s occ h else bucket s occ h.
Proof. unfold bucket. rewrite filter_cons. cbn [snd]. by case_decide. Qed.

Lemma data_elem s p v b : data s p = Some (v, b) ->
  exists e, ring_buffer s !! p = Some e /\ ne_core_id e = v_core v /\ ne_core_lba e = v_lba v /\
            ne_counter e = v_count v /\ ne_valid e = b.
Proof.
  unfold data. destruct (ring_buffer s !! p) as [e|]; [|done]. cbn. intros [= <- <-]. by exists e.
Qed.

(** ** Steps *)

Lemma wp_ran {A} (m : NH A) s a s' (Q : A -> nhit_hash -> Prop) : m s = Some (a, s') -> Q a s' -> wp m Q s.
Proof. intros E HQ. unfold wp. by rewrite E. Qed.

Lemma wp_elem p e s (Q : nhit_list_elem -> nhit_hash -> Prop) :
  ring_buffer s !! p = Some e -> Q e s -> wp (elem p) Q s.
Proof. apply (wp_load (fun s => ring_buffer s !! p)). Qed.

Lemma wp_set_slot p f s (Q : unit -> nhit_hash -> Prop) :
  is_Some (ring_buffer s !! p) -> Q tt (with_ring (alter f p) s) -> wp (set_elem p f) Q s.
Proof. intros [e He] HQ. apply wp_bind. eapply wp_elem; [exact He|]. by apply wp_modify. Qed.

Lemma wp_set_head h p s (Q : unit -> nhit_hash -> Prop) :
  is_Some (hash_map s !! h) -> Q tt (with_hash_map (<[h := u32 p]>) s) -> wp (set_bucket_head h p) Q s.
Proof. intros [x Hx] HQ. apply wp_bind. eapply wp_load; [exact Hx|]. by apply wp_modify. Qed.

(** ** Removing the oldest line of a bucket *)

Lemma bucket_range s occ h x : listed s occ -> x ∈ bucket s occ h -> 0 <= x < rb_entries s.
Proof. intros Hli Hx. eapply (li_range _ _ Hli), bucket_sub, Hx. Qed.

Lemma hdd_bucket s occ h : listed s occ -> hdd (rb_entries s) (bucket s occ h) <> rb_entries s <-> bucket s occ h <> [].
Proof.
  intros Hli. pose proof (bucket_range s occ h) as Hr. destruct (bucket s occ h) as [|x l]; [done|].
  specialize (Hr x Hli ltac:(left)). cbn. split; [done|lia].
Qed.

(** The state after [collision_remove] of the oldest slot, which is the last one
    in its bucket. *)
Definition removed (s : nhit_hash) (occ : list (Z * visit)) (p : Z) (h : Z) : nhit_hash :=
  let ring := alter (with_core_id CORE_ID_INVALID) p (ring_buffer s) in
  NhitHash (hash_entries s) (rb_entries s)
    (match bucket s occ h with [] => <[h := rb_entries s]> (hash_map s) | _ => hash_map s end) (hash_locks s)
    (match last (bucket s occ h) with Some a => alter (with_coll_next (rb_entries s)) a ring | None => ring end)
    (rb_pointer s).

Lemma remove_run s occ p v :
  listed s (occ ++ [(p, v)]) ->
  collision_remove p s = Some (tt, removed s occ p (hash_of s v)).
Proof.
  intros Hli. pose proof (li_entries _ _ Hli) as HN. pose proof (li_hash _ _ Hli) as HH.
  destruct (li_data _ _ Hli p v ltac:(set_solver)) as [[b Hd] Hv].
  destruct (data_elem _ _ _ _ Hd) as (e & He & Ec & El & _).
  set (h := hash_of s v). pose proof (li_chain _ _ Hli h) as Hch.
  rewrite bucket_snoc, decide_True in Hch by done.
  destruct (link_lookup _ _ _ _ _ _ Hch) as (e' & He' & Hp & Hn). rewrite He in He'. injection He' as <-. cbn in Hn.
  pose proof (li_nodup _ _ Hli) as Hnd. apply (bucket_nodup s _ h) in Hnd.
  rewrite bucket_snoc, decide_True in Hnd by done.
  pose proof (li_head _ _ Hli h (hash_of_range s v HH Hv)) as Hhd.
  rewrite bucket_snoc, decide_True in Hhd by done.
  enough (Hwp : wp (collision_remove p) (fun _ s' => s' = removed s occ p h) s).
  { apply wp_run in Hwp as ([] & s' & E & ->). exact E. }
  unfold collision_remove. wp_step. apply wp_get. wp_step. eapply wp_elem; [exact He|].
  rewrite Ec, El, bool_decide_eq_false_2 by lia. fold (hash_of s v). fold h.
  wp_step. apply wp_set_slot; [eauto|]. rewrite Hp, Hn.
  rewrite (bool_decide_eq_false_2 (rb_entries s <> rb_entries s)) by (intros H; by apply H).
  unfold removed. fold h. destruct (bucket s occ h) as [|x l _] eqn:Eb using rev_ind.
  - rewrite bool_decide_eq_false_2 by (intros H; by apply H).
    cbn [when]. wp_step. apply wp_ret. wp_step. apply wp_ret. wp_step.
    eapply wp_load; [exact Hhd|]. cbn [hdd]. rewrite bool_decide_eq_true_2 by done. cbn [when].
    apply wp_set_head; [eauto|]. rewrite wrap_small by lia. done.
  - assert (Hx : 0 <= x < rb_entries s).
    { eapply (bucket_range s (occ ++ [(p, v)]) h); [done|]. rewrite bucket_snoc, decide_True, Eb by done. set_solver. }
    assert (Hxe : is_Some (ring_buffer s !! x)).
    { eapply link_dom; [exact Hch|]. set_solver. }
    rewrite lastd_snoc, last_snoc, (bool_decide_eq_true_2 (x <> _)) by lia. cbn [when].
    wp_step. apply wp_set_slot; [by apply lookup_alter_is_Some|]. wp_step. apply wp_ret. wp_step.
    eapply wp_load; [exact Hhd|].
    rewrite bool_decide_eq_false_2; [destruct l; done|].
    destruct l as [|y l]; cbn; intros ->; apply NoDup_cons in Hnd as [Hnd _]; apply Hnd; set_solver.
Qed.

Lemma data_set_other s f y z :
  (forall e, payload (f e) = payload e) -> data (with_ring (alter f y) s) z = data s z.
Proof.
  intros Hf. unfold data. cbn. destruct (decide (y = z)) as [->|Hne].
  - rewrite lookup_alter_eq. destruct (ring_buffer s !! z); cbn; [by rewrite Hf|done].
  - by rewrite lookup_alter_ne.
Qed.

Lemma data_set_ne s f y z : y <> z -> data (with_ring (alter f y) s) z = data s z.
Proof. intros Hne. unfold data. cbn. by rewrite lookup_alter_ne. Qed.

Lemma removed_data s occ p h y :
  data (removed s occ p h) y = data (with_ring (alter (with_core_id CORE_ID_INVALID) p) s) y.
Proof.
  unfold removed. destruct (last _) as [a|]; [|done].
  exact (data_set_other (with_ring (alter (with_core_id CORE_ID_INVALID) p) s)
    (with_coll_next (rb_entries s)) a y ltac:(done)).
Qed.

Lemma removed_but_slot s occ p h : but_slot p s (removed s occ p h).
Proof. split; try done. intros y Hy. rewrite removed_data. by apply data_set_ne. Qed.

Lemma removed_slot s occ p h v b :
  data s p = Some (v, b) -> data (removed s occ p h) p = Some (Visit CORE_ID_INVALID (v_lba v) (v_count v), b).
Proof.
  intros (e & He & ? & El & Ec & Ev)%data_elem. rewrite removed_data. unfold data. cbn.
  rewrite lookup_alter_eq, He. cbn. unfold payload. cbn. by rewrite El, Ec, Ev.
Qed.

Lemma bucket_ext s s' occ h : hash_entries s' = hash_entries s -> bucket s' occ h = bucket s occ h.
Proof. intros E. unfold bucket, hash_of. by rewrite E. Qed.

Lemma removed_listed s occ p v :
  listed s (occ ++ [(p, v)]) -> listed (removed s occ p (hash_of s v)) occ.
Proof.
  intros Hli. set (h := hash_of s v).
  pose proof (li_nodup _ _ Hli) as Hnd. rewrite fmap_app in Hnd. apply NoDup_app in Hnd as (Hnd & Hdis & _).
  assert (Hp : p ∉ occ.*1) by (intros Hp; apply (Hdis p Hp); set_solver).
  split; rewrite ?(bucket_ext s) by done; try apply Hli.
  - done.
  - intros q Hq. apply (li_range _ _ Hli). rewrite fmap_app. set_solver.
  - intros q w Hq. destruct (li_data _ _ Hli q w ltac:(set_solver)) as [[b Hb] Hw]. split; [|done].
    exists b. rewrite (bs_data _ _ _ (removed_but_slot s occ p h)); [done|].
    intros ->. apply Hp. apply list_elem_of_fmap. by exists (p, w).
  - intros h' Hh'. rewrite (bucket_ext s) by done.
    pose proof (li_head _ _ Hli h' Hh') as Hd. rewrite bucket_snoc in Hd. fold h in Hd. cbn.
    destruct (decide (h = h')) as [<-|Hne].
    + destruct (bucket s occ h); [by rewrite lookup_insert_eq|done].
    + destruct (bucket s occ h); [by rewrite lookup_insert_ne|done].
  - intros h'. rewrite (bucket_ext s) by done.
    pose proof (li_chain _ _ Hli h') as Hc. rewrite bucket_snoc in Hc. fold h in Hc.
    assert (Hcore : forall l, ring_list (ring_buffer s) (rb_entries s) l (rb_entries s) ->
      ring_list (alter (with_core_id CORE_ID_INVALID) p (ring_buffer s)) (rb_entries s) l (rb_entries s)).
    { intros l. by apply link_set_other. }
    cbn. destruct (decide (h = h')) as [<-|Hne].
    + apply Hcore in Hc.
      pose proof (link_remove with_coll_prev with_coll_next id _ _ (bucket s occ h) p [] _
        (bucket_last_nodup s occ p v (li_nodup _ _ Hli)) Hc eq_refl eq_refl) as Hr.
      rewrite app_nil_r in Hr. exact Hr.
    + apply Hcore in Hc. destruct (last (bucket s occ h)) as [a|] eqn:Ea; [|done].
      apply link_alter_out; [|done]. intros Ha. apply Hne.
      eapply (bucket_disj s occ); [exact Hnd| |exact Ha]. by apply last_Some_elem_of.
Qed.

(** ** Inserting into an empty slot *)

Definition inserted (s : nhit_hash) (occ : list (Z * visit)) (p : Z) (v : visit) : nhit_hash :=
  let h := hash_of s v in
  let head := hdd (rb_entries s) (bucket s occ h) in
  let ring := alter (fun e => NhitElem (v_lba v) (v_count v) (rb_entries s) head (v_core v) (ne_valid e)) p (ring_buffer s) in
  NhitHash (hash_entries s) (rb_entries s) (<[h := p]> (hash_map s)) (hash_locks s)
    (match bucket s occ h with a :: _ => alter (with_coll_prev p) a ring | [] => ring end) (rb_pointer s).

Lemma insert_run s occ p core lba :
  listed s occ -> 0 <= p < rb_entries s -> is_Some (ring_buffer s !! p) -> 0 <= core < CORE_ID_INVALID ->
  collision_insert_new p core lba s = Some (tt, inserted s occ p (Visit core lba 1)).
Proof.
  intros Hli Hp He Hc. pose proof (li_entries _ _ Hli) as HN. pose proof (li_hash _ _ Hli) as HH.
  set (h := hash_of s (Visit core lba 1)).
  pose proof (li_head _ _ Hli h (hash_of_range s (Visit core lba 1) HH Hc)) as Hd.
  enough (Hwp : wp (collision_insert_new p core lba) (fun _ s' => s' = inserted s occ p (Visit core lba 1)) s).
  { apply wp_run in Hwp as ([] & s' & E & ->). exact E. }
  unfold collision_insert_new. wp_step. apply wp_get. wp_step.
  change (hash_function core lba (hash_entries s)) with h.
  eapply wp_load; [exact Hd|]. wp_step. apply wp_set_slot; [done|].
  rewrite !wrap_small by lia. pose proof (hdd_bucket s occ h Hli) as Hn.
  unfold inserted. fold h. cbn [v_lba v_count v_core]. destruct (bucket s occ h) as [|a l] eqn:Eb.
  - cbn [hdd]. rewrite bool_decide_eq_false_2 by naive_solver. cbn [when]. wp_step. apply wp_ret.
    apply wp_set_head; [cbn; eauto|]. by rewrite wrap_small by lia.
  - rewrite bool_decide_eq_true_2 by naive_solver. cbn [when]. wp_step. apply wp_set_slot.
    { apply lookup_alter_is_Some. pose proof (li_chain _ _ Hli h) as Hch. rewrite Eb in Hch.
      by eapply link_dom; [|left]. }
    apply wp_set_head; [cbn; eauto|]. by rewrite wrap_small by lia.
Qed.

Lemma inserted_data s occ p v y :
  data (inserted s occ p v) y =
  data (with_ring (alter (fun e => NhitElem (v_lba v) (v_count v) (rb_entries s)
    (hdd (rb_entries s) (bucket s occ (hash_of s v))) (v_core v) (ne_valid e)) p) s) y.
Proof.
  unfold inserted. destruct (bucket s occ (hash_of s v)) as [|a l]; [done|].
  exact (data_set_other (with_ring _ s) (with_coll_prev p) a y ltac:(done)).
Qed.

Lemma inserted_but_slot s occ p v : but_slot p s (inserted s occ p v).
Proof. split; try done. intros y Hy. rewrite inserted_data. by apply data_set_ne. Qed.

Lemma inserted_slot s occ p v w b : data s p = Some (w, b) -> data (inserted s occ p v) p = Some (v, b).
Proof.
  intros (e & He & _ & _ & _ & Ev)%data_elem. rewrite inserted_data. unfold data. cbn.
  rewrite lookup_alter_eq, He. cbn. unfold payload. cbn. rewrite Ev. by destruct v.
Qed.

Lemma nhit_inserted_listed s occ p v w b :
  listed s occ -> 0 <= p < rb_entries s -> p ∉ occ.*1 -> data s p = Some (w, b) -> 0 <= v_core v < CORE_ID_INVALID ->
  listed (inserted s occ p v) ((p, v) :: occ).
Proof.
  intros Hli Hpr Hp Hd Hv. set (h := hash_of s v). pose proof (data_elem _ _ _ _ Hd) as (e & He & _).
  split; rewrite ?(bucket_ext s) by done; try apply Hli.
  - cbn. apply NoDup_cons. split; [done|apply Hli].
  - cbn. intros q [->|Hq]%elem_of_cons; [done|]. by apply (li_range _ _ Hli).
  - intros q u [[= -> ->]|Hq]%elem_of_cons.
    + split; [|done]. exists b. by eapply inserted_slot.
    + destruct (li_data _ _ Hli q u Hq) as [[c Hc] Hu]. split; [|done]. exists c.
      rewrite (bs_data _ _ _ (inserted_but_slot s occ p v)); [done|].
      intros ->. apply Hp. apply list_elem_of_fmap. by exists (p, u).
  - intros h' Hh'. rewrite (bucket_ext s), bucket_cons by done. fold h. cbn. fold h.
    destruct (decide (h = h')) as [<-|Hne]; [by rewrite lookup_insert_eq|].
    rewrite lookup_insert_ne by done. by apply (li_head _ _ Hli).
  - intros h'. rewrite (bucket_ext s), bucket_cons by done. fold h. pose proof (li_chain _ _ Hli h') as Hc.
    assert (Hpb : forall h', p ∉ bucket s occ h') by (intros ? ?%bucket_sub; done).
    cbn. fold h. apply (link_alter_out _ (fun e => NhitElem (v_lba v) (v_count v) (rb_entries s)
      (hdd (rb_entries s) (bucket s occ h)) (v_core v) (ne_valid e)) p) in Hc; [|apply Hpb].
    destruct (decide (h = h')) as [<-|Hne].
    + cbn. split.
      * exists (NhitElem (v_lba v) (v_count v) (rb_entries s) (hdd (rb_entries s) (bucket s occ h)) (v_core v) (ne_valid e)).
        split; [|done]. specialize (Hpb h). destruct (bucket s occ h) as [|a l]; cbn.
        -- by rewrite lookup_alter_eq, He.
        -- rewrite lookup_alter_ne by set_solver. by rewrite lookup_alter_eq, He.
      * pose proof (bucket_nodup s occ h (li_nodup _ _ Hli)) as Hnd. destruct (bucket s occ h) as [|a l]; [done|].
        apply NoDup_cons in Hnd as [Ha _].
        exact (link_set_prev with_coll_prev with_coll_next id _ _ p a l _ Ha Hc).
    + destruct (bucket s occ h) as [|a l] eqn:Eb; [done|]. apply link_alter_out; [|done].
      intros Ha. apply Hne. eapply (bucket_disj s occ _ _ a); [apply Hli|rewrite Eb; left|exact Ha].
Qed.

(** ** Frames *)

Lemma listed_same s s' occ :
  rb_entries s' = rb_entries s -> hash_entries s' = hash_entries s -> hash_map s' = hash_map s ->
  ring_buffer s' = ring_buffer s -> listed s occ -> listed s' occ.
Proof. destruct s, s'. cbn. intros -> -> -> -> []. by split. Qed.

(** Changing neither links nor key of a slot. *)
Lemma listed_alter s f p occ occ' :
  listed s occ ->
  (forall e, ne_coll_prev (f e) = ne_coll_prev e /\ ne_coll_next (f e) = ne_coll_next e) ->
  (forall h, bucket s occ' h = bucket s occ h) -> occ'.*1 = occ.*1 ->
  (forall q v, (q, v) ∈ occ' ->
    (exists b, data (with_ring (alter f p) s) q = Some (v, b)) /\ 0 <= v_core v < CORE_ID_INVALID) ->
  listed (with_ring (alter f p) s) occ'.
Proof.
  intros Hli Hf Hb E Hd. split; rewrite ?E; try apply Hli.
  - exact Hd.
  - intros h Hh. rewrite (bucket_ext s), Hb by done. by apply (li_head _ _ Hli).
  - intros h. rewrite (bucket_ext s), Hb by done. apply link_set_other; [done|apply (li_chain _ _ Hli)].
Qed.

Lemma listed_valid s b p occ : listed s occ -> listed (with_ring (alter (with_valid b) p) s) occ.
Proof.
  intros Hli. eapply listed_alter; try done. intros q v Hq.
  destruct (li_data _ _ Hli q v Hq) as [[c Hc] Hv]. split; [|done].
  destruct (decide (p = q)) as [->|Hne]; [|exists c; by rewrite data_set_ne].
  apply data_elem in Hc as (e & He & E1 & E2 & E3 & _). exists b. unfold data. cbn.
  rewrite lookup_alter_eq, He. cbn. unfold payload. cbn. rewrite E1, E2, E3. by destruct v.
Qed.

(** ** Locks *)

Definition rw_held : env_rwsem := RwSem 0 true.
Definition all_free (s : nhit_hash) : Prop := forall h, 0 <= h < hash_entries s -> hash_locks s !! h = Some rw_free.

(** The semaphores that are held for writing. *)
Definition held (s : nhit_hash) (hs : list Z) : Prop :=
  forall h, 0 <= h < hash_entries s -> hash_locks s !! h = Some (if decide (h ∈ hs) then rw_held else rw_free).

Lemma held_nil s : held s [] <-> all_free s.
Proof. unfold held, all_free. split; intros H h Hh; rewrite (H h Hh); by rewrite decide_False by set_solver. Qed.

Lemma held_ext s hs hs' : (forall h, 0 <= h < hash_entries s -> h ∈ hs <-> h ∈ hs') -> held s hs -> held s hs'.
Proof.
  intros E H h Hh. rewrite (H h Hh). specialize (E h Hh). destruct (decide (h ∈ hs)), (decide (h ∈ hs')); tauto.
Qed.

Lemma down_write_wp s hs h (Q : unit -> nhit_hash -> Prop) :
  held s hs -> 0 <= h < hash_entries s -> h ∉ hs ->
  (forall L, held (with_hash_locks (fun _ => L) s) (h :: hs) -> Q tt (with_hash_locks (fun _ => L) s)) ->
  wp (sem_down OCF_METADATA_WR h) Q s.
Proof.
  intros H Hh Hn HQ. unfold sem_down. wp_step. eapply wp_load; [by apply H|]. rewrite decide_False by done.
  cbn. apply wp_modify. apply (HQ (<[h := rw_held]> (hash_locks s))). intros h' Hh'. cbn.
  destruct (decide (h = h')) as [<-|Hne].
  - rewrite lookup_insert_eq, decide_True by left. done.
  - rewrite lookup_insert_ne, H by done. destruct (decide (h' ∈ hs)), (decide (h' ∈ h :: hs)); set_solver.
Qed.

Lemma up_write_wp s hs h (Q : unit -> nhit_hash -> Prop) :
  held s hs -> 0 <= h < hash_entries s -> h ∈ hs ->
  (forall L, held (with_hash_locks (fun _ => L) s) (without h hs) -> Q tt (with_hash_locks (fun _ => L) s)) ->
  wp (sem_up OCF_METADATA_WR h) Q s.
Proof.
  intros H Hh Hn HQ. unfold sem_up. wp_step. eapply wp_load; [by apply H|]. rewrite decide_True by done.
  apply wp_modify. replace (rw_release OCF_METADATA_WR rw_held) with (rw_free (L := env_rwsem)) by reflexivity. apply (HQ (<[h := rw_free]> (hash_locks s))). intros h' Hh'. cbn.
  destruct (decide (h = h')) as [<-|Hne].
  - rewrite lookup_insert_eq, decide_False by (rewrite elem_of_without; naive_solver). done.
  - rewrite lookup_insert_ne, H by done.
    destruct (decide (h' ∈ hs)), (decide (h' ∈ without h hs)) as [E|E]; rewrite elem_of_without in E; naive_solver.
Qed.

(** A bucket in range, or the mark for "no core line". *)
Definition hash_or_none (s : nhit_hash) (core lba : Z) : Prop :=
  core = CORE_ID_INVALID \/ 0 <= core < CORE_ID_INVALID.

Lemma hash_or_none_range s core lba :
  0 < hash_entries s < 2 ^ 32 -> hash_or_none s core lba ->
  hash_function core lba (hash_entries s) = hash_entries s \/
  0 <= hash_function core lba (hash_entries s) < hash_entries s.
Proof.
  intros HH [->|Hc].
  - left. unfold hash_function. rewrite bool_decide_eq_true_2 by done. apply wrap_small. lia.
  - right. by apply (hash_of_range s (Visit core lba 0)).
Qed.

Lemma write_lock_wp s c1 l1 c2 l2 (Q : unit -> nhit_hash -> Prop) :
  0 < hash_entries s < 2 ^ 32 -> all_free s -> 0 <= c1 < CORE_ID_INVALID -> hash_or_none s c2 l2 ->
  (forall L, held (with_hash_locks (fun _ => L) s)
      [hash_function c1 l1 (hash_entries s); hash_function c2 l2 (hash_entries s)] ->
    Q tt (with_hash_locks (fun _ => L) s)) ->
  wp (write_lock_hashes c1 l1 c2 l2) Q s.
Proof.
  intros HH Hf%held_nil Hc1 Hc2 HQ. pose proof (hash_or_none_range s c2 l2 HH Hc2) as H2.
  assert (H1 : 0 <= hash_function c1 l1 (hash_entries s) < hash_entries s) by exact (hash_of_range s (Visit c1 l1 0) HH Hc1).
  unfold write_lock_hashes. wp_step. apply wp_get. cbv zeta.
  set (h1 := hash_function c1 l1 (hash_entries s)) in *. set (h2 := hash_function c2 l2 (hash_entries s)) in *.
  rewrite (bool_decide_eq_true_2 (Z.min h1 h2 <> hash_entries s)) by lia. cbn [when]. wp_step.
  apply (down_write_wp s []); [done|lia|set_solver|]. intros L HL. apply wp_when.
  - intros [E1%bool_decide_eq_true_1 E2%bool_decide_eq_true_1]%andb_true_iff.
    eapply down_write_wp; [exact HL|cbn; lia|set_solver|]. intros L' HL'. apply (HQ L').
    eapply held_ext; [|exact HL']. intros h _. cbn.
    rewrite !elem_of_cons, elem_of_nil. lia.
  - intros E. apply HQ. eapply held_ext; [|exact HL]. intros h Hh. cbn in Hh.
    apply andb_false_iff in E as [E%bool_decide_eq_false_1|E%bool_decide_eq_false_1];
      rewrite !elem_of_cons, elem_of_nil; lia.
Qed.

Lemma write_unlock_wp s c1 l1 c2 l2 (Q : unit -> nhit_hash -> Prop) :
  0 < hash_entries s < 2 ^ 32 -> 0 <= c1 < CORE_ID_INVALID -> hash_or_none s c2 l2 ->
  held s [hash_function c1 l1 (hash_entries s); hash_function c2 l2 (hash_entries s)] ->
  (forall L, all_free (with_hash_locks (fun _ => L) s) -> Q tt (with_hash_locks (fun _ => L) s)) ->
  wp (write_unlock_hashes c1 l1 c2 l2) Q s.
Proof.
  intros HH Hc1 Hc2 Hf HQ. pose proof (hash_or_none_range s c2 l2 HH Hc2) as H2.
  assert (H1 : 0 <= hash_function c1 l1 (hash_entries s) < hash_entries s) by exact (hash_of_range s (Visit c1 l1 0) HH Hc1).
  unfold write_unlock_hashes. wp_step. apply wp_get. cbv zeta.
  set (h1 := hash_function c1 l1 (hash_entries s)) in *. set (h2 := hash_function c2 l2 (hash_entries s)) in *.
  rewrite (bool_decide_eq_true_2 (h1 <> hash_entries s)) by lia. cbn [when]. wp_step.
  eapply up_write_wp; [exact Hf|lia|set_solver|]. intros L HL. apply wp_when.
  - intros [E1%bool_decide_eq_true_1 E2%bool_decide_eq_true_1]%andb_true_iff.
    eapply up_write_wp; [exact HL|cbn; lia|rewrite elem_of_without; set_solver|].
    intros L' HL'. apply (HQ L'). apply (proj1 (held_nil _)). eapply held_ext; [|exact HL'].
    intros h _. rewrite !elem_of_without. set_solver.
  - intros E. apply HQ. apply (proj1 (held_nil _)). eapply held_ext; [|exact HL]. intros h Hh. cbn in Hh.
    rewrite elem_of_without, !elem_of_cons, !elem_of_nil.
    apply andb_false_iff in E as [E%bool_decide_eq_false_1|E%bool_decide_eq_false_1]; lia.
Qed.

(** ** The ring *)

Record tracks (s : nhit_hash) (occ : list (Z * visit)) : Prop := {
  tr_listed : listed s occ;
  tr_pointer : 0 <= rb_pointer s < rb_entries s;
  tr_len : Z.of_nat (length occ) <= rb_entries s;
  tr_slot i x : occ !! i = Some x -> x.1 = (rb_pointer s - 1 - Z.of_nat i) mod rb_entries s;
  tr_data p : 0 <= p < rb_entries s ->
    exists v, data s p = Some (v, true) /\ (p ∈ occ.*1 \/ v_core v = CORE_ID_INVALID);
  tr_free : all_free s
}.

Lemma get_rb_slot_run s v b :
  0 <= rb_pointer s < rb_entries s -> rb_entries s < 2 ^ 32 -> data s (rb_pointer s) = Some (v, b) ->
  get_rb_slot s = Some ((b, rb_pointer s),
    with_pointer ((rb_pointer s + 1) mod rb_entries s) (with_ring (alter (with_valid false) (rb_pointer s)) s)).
Proof.
  intros Hp HN (e & He & _ & _ & _ & <-)%data_elem.
  enough (Hwp : wp get_rb_slot (fun r s' => r = (ne_valid e, rb_pointer s) /\ s' =
    with_pointer ((rb_pointer s + 1) mod rb_entries s) (with_ring (alter (with_valid false) (rb_pointer s)) s)) s).
  { apply wp_run in Hwp as (? & ? & ? & -> & ->). done. }
  unfold get_rb_slot. wp_step. apply wp_get. wp_step. eapply wp_elem; [exact He|]. wp_step.
  apply wp_set_slot; [eauto|]. wp_step. apply wp_modify. apply wp_ret. by rewrite wrap_small by lia.
Qed.

Lemma elem_of_slot (occ : list (Z * visit)) p v : (p, v) ∈ occ -> p ∈ occ.*1.
Proof. intros H. apply list_elem_of_fmap. by exists (p, v). Qed.

(** At most one line is forgotten: the oldest, and only if the ring is full. *)
Definition kept (s : nhit_hash) (occ : list (Z * visit)) : list (Z * visit) :=
  take (Z.to_nat (rb_entries s - 1)) occ.

Lemma kept_cases s occ :
  0 < rb_entries s -> Z.of_nat (length occ) <= rb_entries s ->
  (kept s occ = occ /\ Z.of_nat (length occ) < rb_entries s) \/
  (exists x, occ = kept s occ ++ [x] /\ Z.of_nat (length occ) = rb_entries s).
Proof.
  intros HN Hlen. unfold kept. destruct (decide (Z.of_nat (length occ) = rb_entries s)) as [E|Hne].
  - right. destruct occ as [|x l _] using rev_ind; [cbn in E; lia|]. exists x.
    rewrite length_app in E. cbn in E. rewrite take_app_length' by lia. split; [done|]. rewrite length_app. cbn. lia.
  - left. split; [|lia]. apply take_ge. lia.
Qed.

Lemma tracks_pointer_free s occ :
  tracks s occ -> Z.of_nat (length occ) < rb_entries s -> rb_pointer s ∉ occ.*1.
Proof.
  intros Ht Hlen Hp. apply list_elem_of_fmap in Hp as (x & Hx & Hin).
  apply list_elem_of_lookup in Hin as [i Hi]. pose proof (tr_slot _ _ Ht i x Hi) as Hs.
  apply lookup_lt_Some in Hi. pose proof (tr_pointer _ _ Ht) as Hp.
  rewrite <- Hx in Hs. revert Hs. destruct (decide (0 <= rb_pointer s - 1 - Z.of_nat i)).
  - rewrite Z.mod_small by lia. lia.
  - rewrite <- (Z_mod_plus_full _ 1), Z.mod_small by lia. lia.
Qed.

Lemma tracks_pointer_oldest s occ x :
  tracks s (occ ++ [x]) -> Z.of_nat (length (occ ++ [x])) = rb_entries s -> x.1 = rb_pointer s.
Proof.
  intros Ht Hlen. rewrite (tr_slot _ _ Ht (length occ) x) by (by rewrite list_lookup_middle).
  rewrite length_app in Hlen. cbn in Hlen. pose proof (tr_pointer _ _ Ht) as Hp.
  rewrite <- (Z_mod_plus_full _ 1), Z.mod_small by lia. lia.
Qed.

(** [collision_remove] on the slot at the pointer. *)
Lemma nhit_remove_wp s p occ v :
  listed s occ -> data s p = Some (v, false) ->
  (v_core v = CORE_ID_INVALID /\ p ∉ occ.*1 \/ 0 <= v_core v < CORE_ID_INVALID /\ exists occ', occ = occ' ++ [(p, v)]) ->
  wp (collision_remove p) (fun _ s' =>
    but_slot p s s' /\ (exists w, data s' p = Some (w, false)) /\
    exists occ', (v_core v = CORE_ID_INVALID -> occ' = occ) /\ (v_core v <> CORE_ID_INVALID -> occ = occ' ++ [(p, v)]) /\
      listed s' occ' /\ p ∉ occ'.*1) s.
Proof.
  intros Hli Hd [[Hv Hp]|[Hv [occ' ->]]].
  - pose proof (data_elem _ _ _ _ Hd) as (e & He & Ec & _).
    unfold collision_remove. wp_step. apply wp_get. wp_step. eapply wp_elem; [exact He|].
    rewrite bool_decide_eq_true_2 by congruence. apply wp_ret. split; [done|]. split; [eauto|]. by exists occ.
  - unfold wp. rewrite (remove_run _ _ _ _ Hli).
    split; [apply removed_but_slot|]. split; [eexists; by eapply removed_slot|].
    exists occ'. split; [lia|]. split; [done|]. split; [by apply removed_listed|].
    pose proof (li_nodup _ _ Hli) as Hnd. rewrite fmap_app in Hnd. apply NoDup_app in Hnd as (_ & Hdis & _).
    intros Hp. apply (Hdis p Hp). set_solver.
Qed.

Lemma nhit_held_same s s' hs :
  hash_entries s' = hash_entries s -> hash_locks s' = hash_locks s -> held s hs -> held s' hs.
Proof. intros E1 E2 H h. rewrite E1, E2. apply H. Qed.

Lemma but_slot_trans p s1 s2 s3 : but_slot p s1 s2 -> but_slot p s2 s3 -> but_slot p s1 s3.
Proof. intros [A1 A2 A3 A4 A5] [B1 B2 B3 B4 B5]. split; try congruence. intros y Hy. by rewrite B5, A5. Qed.

(** The slot at the pointer, once it is taken: empty, or the oldest. *)
Lemma pointer_slot s occ :
  tracks s occ -> exists v, data s (rb_pointer s) = Some (v, true) /\
    (v_core v = CORE_ID_INVALID /\ kept s occ = occ /\ rb_pointer s ∉ occ.*1 \/
     0 <= v_core v < CORE_ID_INVALID /\ occ = kept s occ ++ [(rb_pointer s, v)]).
Proof.
  intros Ht. pose proof (li_entries _ _ (tr_listed _ _ Ht)) as HN.
  destruct (tr_data _ _ Ht _ (tr_pointer _ _ Ht)) as (v & Hv & Hcase). exists v. split; [done|].
  destruct (kept_cases s occ ltac:(lia) (tr_len _ _ Ht)) as [[Hk Hlen]|([q w] & Hk & Hlen)].
  - left. pose proof (tracks_pointer_free _ _ Ht Hlen). by destruct Hcase.
  - right. pose proof Ht as Ht'. rewrite Hk in Ht', Hlen. pose proof (tracks_pointer_oldest _ _ _ Ht' Hlen) as E. cbn in E.
    subst q. destruct (li_data _ _ (tr_listed _ _ Ht) (rb_pointer s) w) as [[b Hb] Hw]; [rewrite Hk; set_solver|].
    rewrite Hv in Hb. injection Hb as <- _. done.
Qed.

(** The three steps on the lists, between taking the slot and giving it back. *)
Lemma refill_wp s p occ v core lba (k : NH unit) (Q : unit -> nhit_hash -> Prop) :
  listed s occ -> all_free s -> 0 <= p < rb_entries s -> data s p = Some (v, false) -> 0 <= core < CORE_ID_INVALID ->
  (v_core v = CORE_ID_INVALID /\ p ∉ occ.*1 \/ 0 <= v_core v < CORE_ID_INVALID /\ exists occ', occ = occ' ++ [(p, v)]) ->
  (forall s' occ', (v_core v = CORE_ID_INVALID -> occ' = occ) /\ (v_core v <> CORE_ID_INVALID -> occ = occ' ++ [(p, v)]) ->
    p ∉ occ'.*1 -> rb_entries s' = rb_entries s -> hash_entries s' = hash_entries s -> rb_pointer s' = rb_pointer s ->
    (forall y, y <> p -> data s' y = data s y) -> data s' p = Some (Visit core lba 1, false) ->
    all_free s' -> listed s' ((p, Visit core lba 1) :: occ') -> wp k Q s') ->
  wp (_ ← write_lock_hashes core lba (v_core v) (v_lba v); _ ← collision_remove p;
      _ ← collision_insert_new p core lba; _ ← write_unlock_hashes core lba (v_core v) (v_lba v); k) Q s.
Proof.
  intros Hli Hf Hp Hd Hc Hcase HQ. pose proof (li_hash _ _ Hli) as HH.
  assert (Hnone : forall s, hash_or_none s (v_core v) (v_lba v)) by (intros; destruct Hcase as [[? _]|[? _]]; [by left|by right]).
  wp_step. apply write_lock_wp; [done..|]. intros L HL. set (s2 := with_hash_locks _ s) in *.
  wp_step. eapply wp_mono; [apply (nhit_remove_wp s2 p occ v); [by eapply listed_same; [..|exact Hli]|done|done]|].
  intros [] s3 (Hb & (w & Hw) & occ' & Ho1 & Ho2 & Hli3 & Hp3). cbn beta.
  assert (He3 : is_Some (ring_buffer s3 !! p)) by (destruct (data_elem _ _ _ _ Hw) as (e & -> & _); done).
  assert (Hp3r : 0 <= p < rb_entries s3) by (by rewrite (bs_rb _ _ _ Hb)).
  wp_step. eapply wp_ran; [apply (insert_run s3 occ' p core lba Hli3 Hp3r He3 Hc)|].
  set (s4 := inserted _ _ _ _). pose proof (inserted_but_slot s3 occ' p (Visit core lba 1)) as Hb4. fold s4 in Hb4.
  pose proof (but_slot_trans _ _ _ _ Hb Hb4) as Hb24. destruct Hb24 as [E1 E2 E3 E4 E5].
  assert (E2' : hash_entries s4 = hash_entries s) by exact E2.
  wp_step. apply write_unlock_wp; [by rewrite E2'|done|done| |].
  { rewrite E2'. by eapply nhit_held_same; [| |exact HL]. }
  intros L' HL'. apply (HQ _ occ'); [done|done|exact E1|exact E2|exact E3| | |done|].
  - intros y Hy. by apply E5.
  - by eapply inserted_slot.
  - eapply listed_same; [..|eapply (nhit_inserted_listed s3 occ' p); try done]; try done.
Qed.

Lemma data_valid s p v b c : data s p = Some (v, b) -> data (with_ring (alter (with_valid c) p) s) p = Some (v, c).
Proof.
  intros (e & He & E1 & E2 & E3 & _)%data_elem. unfold data. cbn.
  rewrite lookup_alter_eq, He. cbn. unfold payload. cbn. rewrite E1, E2, E3. by destruct v.
Qed.

Lemma next_slot p N i : ((p + 1) mod N - 1 - i) mod N = (p - i) mod N.
Proof. rewrite <- (Z.sub_add_distr ((p + 1) mod N)), Zminus_mod_idemp_l. f_equal. lia. Qed.

(** The slot given back at the end of an insertion. *)
Lemma tracks_next s s' occ v :
  tracks s occ -> rb_entries s' = rb_entries s -> hash_entries s' = hash_entries s ->
  rb_pointer s' = (rb_pointer s + 1) mod rb_entries s ->
  (occ = kept s occ \/ exists w, occ = kept s occ ++ [(rb_pointer s, w)]) ->
  (forall y, y <> rb_pointer s -> data s' y = data s y) -> (exists b, data s' (rb_pointer s) = Some (v, b)) ->
  all_free s' -> listed s' ((rb_pointer s, v) :: kept s occ) ->
  tracks (with_ring (alter (with_valid true) (rb_pointer s)) s') ((rb_pointer s, v) :: kept s occ).
Proof.
  intros Ht E1 E2 E3 Hocc Hd [b Hdp] Hf Hli.
  pose proof (tr_pointer _ _ Ht) as Hp. pose proof (tr_len _ _ Ht) as Hlen.
  set (p := rb_pointer s) in *. split; cbn [rb_entries rb_pointer with_ring]; rewrite ?E1, ?E3.
  - by apply listed_valid.
  - apply Z.mod_pos_bound. lia.
  - cbn [length]. unfold kept. rewrite length_take. lia.
  - intros i x Hi. destruct i as [|i]; cbn in Hi.
    + injection Hi as <-. cbn. rewrite next_slot, Z.mod_small by lia. lia.
    + unfold kept in Hi. apply lookup_take_Some in Hi as [Hi Hil].
      rewrite (tr_slot _ _ Ht i x Hi). fold p.
      rewrite next_slot. f_equal. lia.
  - intros q Hq. destruct (decide (q = p)) as [->|Hne].
    + exists v. split; [by eapply data_valid|]. left. left.
    + destruct (tr_data _ _ Ht q Hq) as (w & Hw & Hin). exists w. rewrite data_set_ne, Hd by done.
      split; [done|]. destruct Hin as [Hin|]; [left|by right].
      destruct Hocc as [E|[u E]]; rewrite E in Hin; [by right|].
      rewrite fmap_app in Hin. cbn in Hin. set_solver.
  - exact Hf.
Qed.

Lemma nhit_insert_wp s occ core lba :
  tracks s occ -> 0 <= core < CORE_ID_INVALID ->
  wp (nhit_hash_insert core lba) (fun _ s' =>
    tracks s' ((rb_pointer s, Visit core lba 1) :: kept s occ) /\
    rb_entries s' = rb_entries s /\ hash_entries s' = hash_entries s) s.
Proof.
  intros Ht Hc. pose proof (li_entries _ _ (tr_listed _ _ Ht)) as HN. pose proof (tr_pointer _ _ Ht) as Hp.
  set (p := rb_pointer s) in *. destruct (pointer_slot s occ Ht) as (v & Hv & Hcase). fold p in Hv, Hcase.
  unfold nhit_hash_insert. wp_step. eapply wp_ran; [apply (get_rb_slot_run s v true Hp ltac:(lia) Hv)|]. cbn [negb]. fold p.
  set (s1 := with_pointer _ _).
  assert (Hd : data s1 p = Some (v, false)).
  { exact (data_valid s p v true false Hv). }
  destruct (data_elem _ _ _ _ Hd) as (e & He & Ec & El & _).
  wp_step. eapply wp_elem; [exact He|]. rewrite Ec, El.
  apply (refill_wp s1 p occ v core lba).
  - eapply listed_same; [..|apply (listed_valid s false p), (tr_listed _ _ Ht)]; done.
  - exact (tr_free _ _ Ht).
  - exact Hp.
  - done.
  - done.
  - destruct Hcase as [(? & _ & ?)|[? E]]; [by left|right]. split; [done|]. by eexists.
  - intros s' occ' [Ho1 Ho2] Hp' E1 E2 E3 Hd' Hdp Hf Hli. cbn in E1, E2, E3.
    assert (occ' = kept s occ) as ->.
    { destruct Hcase as [(? & -> & _)|[Hr E]]; [auto|].
      assert (E' : occ = occ' ++ [(p, v)]) by (apply Ho2; unfold CORE_ID_INVALID in *; lia).
      rewrite E in E' at 1. by apply app_inj_tail in E' as [? _]. }
    apply wp_set_slot; [destruct (data_elem _ _ _ _ Hdp) as (? & -> & _); done|].
    split; [|done]. apply tracks_next; try done; [| |by eexists].
    + destruct Hcase as [(_ & -> & _)|[_ E]]; [by left|right; by eexists].
    + intros y Hy. rewrite Hd' by done. by apply data_set_ne.
Qed.

(** ** Lookup *)

Definition is_line (core lba : Z) (v : visit) : bool := bool_decide (v_core v = core) && bool_decide (v_lba v = lba).

(** The slot of the newest visit to the core line. *)
Definition find_line (core lba : Z) (occ : list (Z * visit)) : option (nat * (Z * visit)) :=
  list_find (fun x => is_line core lba x.2 = true) occ.

Lemma find_line_cons core lba x occ :
  snd <$> find_line core lba (x :: occ) =
    if is_line core lba x.2 then Some x else snd <$> find_line core lba occ.
Proof.
  unfold find_line. cbn. destruct (is_line core lba x.2) eqn:E; [by rewrite decide_True|].
  rewrite decide_False by congruence. by destruct (list_find _ occ) as [[]|].
Qed.

Definition line_slot (s : nhit_hash) (core lba : Z) (occ : list (Z * visit)) : Z :=
  match snd <$> find_line core lba occ with Some x => x.1 | None => rb_entries s end.

Lemma lookup_from_wp s core lba : forall (l : list (Z * visit)) p fuel (Q : Z -> nhit_hash -> Prop),
  0 < rb_entries s < 2 ^ 32 ->
  ring_list (ring_buffer s) p l.*1 (rb_entries s) ->
  (forall q v, (q, v) ∈ l -> 0 <= q < rb_entries s /\ exists b, data s q = Some (v, b)) ->
  (length l < fuel)%nat ->
  Q (line_slot s core lba l) s ->
  wp (lookup_from fuel core lba (hdd (rb_entries s) l.*1)) Q s.
Proof.
  intros l p fuel Q HN. revert p fuel. induction l as [|[q v] l IH]; intros p [|fuel] Hl Hd Hf HQ; try (cbn in Hf; lia).
  - cbn [lookup_from]. wp_step. apply wp_get. rewrite bool_decide_eq_true_2 by done. apply wp_ret.
    by rewrite wrap_small by lia.
  - destruct Hl as [(e & He & _ & Hnx) Hl]. destruct (Hd q v ltac:(left)) as (Hq & b & Hb).
    apply data_elem in Hb as (e' & He' & Ec & El & _). cbn [fst] in He, Hnx. rewrite He in He'. injection He' as <-.
    cbn [lookup_from]. wp_step. apply wp_get. rewrite bool_decide_eq_false_2 by (cbn; lia).
    wp_step. eapply wp_elem; [exact He|]. unfold line_slot in HQ. rewrite find_line_cons in HQ.
    cbn [snd] in HQ. unfold is_line in HQ. rewrite <- Ec, <- El, andb_comm in HQ.
    destruct (bool_decide _ && bool_decide _); [by apply wp_ret|]. rewrite Hnx.
    eapply IH; [exact Hl| |cbn in Hf; lia|exact HQ]. intros ? ? ?. apply Hd. by right.
Qed.

Lemma filter_find_line (P : Z * visit -> Prop) `{!forall x, Decision (P x)} core lba occ :
  (forall x, is_line core lba x.2 = true -> P x) ->
  snd <$> find_line core lba (filter P occ) = snd <$> find_line core lba occ.
Proof.
  intros HP. induction occ as [|x occ IH]; [done|]. rewrite filter_cons, find_line_cons.
  destruct (decide (P x)) as [Hx|Hx].
  - by rewrite find_line_cons, IH.
  - rewrite IH. destruct (is_line core lba x.2) eqn:E; [|done]. destruct Hx. by apply HP.
Qed.

Lemma is_line_true core lba v : is_line core lba v = true <-> v_core v = core /\ v_lba v = lba.
Proof. unfold is_line. rewrite andb_true_iff, !bool_decide_eq_true. done. Qed.

Lemma core_line_lookup_wp s occ core lba (Q : Z -> nhit_hash -> Prop) :
  listed s occ -> Z.of_nat (length occ) <= rb_entries s -> 0 <= core < CORE_ID_INVALID ->
  Q (line_slot s core lba occ) s -> wp (core_line_lookup core lba) Q s.
Proof.
  intros Hli Hlen Hc HQ. pose proof (li_entries _ _ Hli) as HN. pose proof (li_hash _ _ Hli) as HH.
  unfold core_line_lookup. wp_step. apply wp_get. wp_step.
  pose proof (hash_of_range s (Visit core lba 0) HH Hc) as Hr.
  eapply wp_load; [exact (li_head _ _ Hli _ Hr)|]. set (h := hash_of s (Visit core lba 0)) in *.
  unfold bucket. eapply lookup_from_wp; [done|apply (li_chain _ _ Hli h)| | |].
  - intros q v [_ Hq]%list_elem_of_filter. split; [by eapply (li_range _ _ Hli), elem_of_slot|].
    by destruct (li_data _ _ Hli q v Hq).
  - pose proof (length_filter (fun x : Z * visit => hash_of s x.2 = h) occ). lia.
  - unfold line_slot in *. rewrite filter_find_line; [done|].
    intros [q v] [<- <-]%is_line_true. done.
Qed.

(** ** Counting a visit *)

Definition recount (n : Z) (v : visit) : visit := Visit (v_core v) (v_lba v) n.

Lemma bucket_recount s occ i q v n h :
  occ !! i = Some (q, v) -> bucket s (<[i := (q, recount n v)]> occ) h = bucket s occ h.
Proof.
  unfold bucket. revert i. induction occ as [|x occ IH]; intros [|i] Hi; try done; cbn in Hi.
  - injection Hi as ->. cbn [insert list_insert]. rewrite !filter_cons. cbn [snd].
    change (hash_of s (recount n v)) with (hash_of s v). by case_decide.
  - cbn [insert list_insert]. rewrite !filter_cons. specialize (IH i Hi).
    case_decide; cbn; [f_equal|]; exact IH.
Qed.

Lemma slots_recount (occ : list (Z * visit)) i q v n :
  occ !! i = Some (q, v) -> (<[i := (q, recount n v)]> occ).*1 = occ.*1.
Proof. intros Hi. rewrite list_fmap_insert. apply list_insert_id. by rewrite list_lookup_fmap, Hi. Qed.

Lemma data_counter s q v b n :
  data s q = Some (v, b) -> data (with_ring (alter (with_counter n) q) s) q = Some (recount n v, b).
Proof.
  intros (e & He & E1 & E2 & _ & E4)%data_elem. unfold data. cbn.
  rewrite lookup_alter_eq, He. cbn. unfold payload, recount. cbn. by rewrite E1, E2, E4.
Qed.

Lemma tracks_recount s occ i q v n :
  tracks s occ -> occ !! i = Some (q, v) ->
  tracks (with_ring (alter (with_counter n) q) s) (<[i := (q, recount n v)]> occ).
Proof.
  intros Ht Hi. pose proof (tr_listed _ _ Ht) as Hli.
  assert (Hnd : NoDup occ.*1) by apply Hli.
  assert (Hin : (q, v) ∈ occ) by (by eapply list_elem_of_lookup_2).
  split; rewrite ?(slots_recount _ _ _ _ _ Hi); [|exact (tr_pointer _ _ Ht)| | | |exact (tr_free _ _ Ht)].
  - eapply listed_alter; [done|done|by intros; apply bucket_recount|by apply slots_recount|].
    intros r w Hr. apply list_elem_of_lookup in Hr as [j Hj].
    destruct (decide (i = j)) as [<-|Hne].
    + rewrite list_lookup_insert_eq in Hj by (by eapply lookup_lt_Some). injection Hj as <- <-.
      destruct (li_data _ _ Hli q v Hin) as [[b Hb] Hc]. split; [|done]. eexists. by apply data_counter.
    + rewrite list_lookup_insert_ne in Hj by done.
      destruct (li_data _ _ Hli r w ltac:(by eapply list_elem_of_lookup_2)) as [[b Hb] Hc]. split; [|done]. exists b.
      rewrite data_set_ne; [done|]. intros ->. apply Hne.
      eapply (NoDup_lookup _ _ _ _ Hnd); rewrite list_lookup_fmap, ?Hi, ?Hj; done.
  - rewrite length_insert. exact (tr_len _ _ Ht).
  - intros j x Hj. cbn [rb_pointer rb_entries with_ring]. destruct (decide (i = j)) as [<-|Hne].
    + rewrite list_lookup_insert_eq in Hj by (by eapply lookup_lt_Some). injection Hj as <-.
      exact (tr_slot _ _ Ht i _ Hi).
    + rewrite list_lookup_insert_ne in Hj by done. by apply (tr_slot _ _ Ht).
  - intros p Hp. cbn [rb_entries with_ring] in Hp. destruct (tr_data _ _ Ht p Hp) as (w & Hw & Hcase).
    destruct (decide (q = p)) as [<-|Hne].
    + exists (recount n w). split; [by apply data_counter|]. left. by eapply elem_of_slot.
    + exists w. by rewrite data_set_ne.
Qed.

(** ** Query and reset *)

Lemma tracks_locks s occ L : tracks s occ -> all_free (with_hash_locks (fun _ => L) s) ->
  tracks (with_hash_locks (fun _ => L) s) occ.
Proof.
  intros [Hli H2 H3 H4 H5 _] Hf. split; try done. eapply listed_same; [..|exact Hli]; done.
Qed.

Lemma find_line_lookup core lba occ i q v :
  find_line core lba occ = Some (i, (q, v)) -> occ !! i = Some (q, v) /\ v_core v = core /\ v_lba v = lba.
Proof. intros (Hi & E%is_line_true & _)%list_find_Some. done. Qed.

(** What an operation on the counter of a core line does to the list of visits. *)
Definition on_line (core lba : Z) (f : Z -> Z) (occ : list (Z * visit)) : list (Z * visit) :=
  match find_line core lba occ with
  | Some (i, (q, v)) => <[i := (q, recount (f (v_count v)) v)]> occ
  | None => occ
  end.

Lemma at_core_line_wp {A} s occ core lba (missing : A) (found : Z -> NH A) (f : Z -> Z) (result : Z -> A)
    (Q : A -> nhit_hash -> Prop) :
  tracks s occ -> 0 <= core < CORE_ID_INVALID ->
  (forall s1 q e, ring_buffer s1 !! q = Some e ->
    found q s1 = Some (result (ne_counter e), with_ring (alter (with_counter (f (ne_counter e))) q) s1)) ->
  (forall s', tracks s' (on_line core lba f occ) -> rb_entries s' = rb_entries s ->
    hash_entries s' = hash_entries s -> rb_pointer s' = rb_pointer s ->
    Q (from_option (fun x => result (v_count x.2)) missing (snd <$> find_line core lba occ)) s') ->
  wp (at_core_line core lba missing found) Q s.
Proof.
  intros Ht Hc Hfound HQ. pose proof (tr_listed _ _ Ht) as Hli.
  pose proof (hash_of_range s (Visit core lba 0) (li_hash _ _ Hli) Hc) as Hr.
  unfold at_core_line. wp_step. apply wp_get. cbv zeta.
  change (hash_function core lba (hash_entries s)) with (hash_of s (Visit core lba 0)).
  set (h := hash_of s (Visit core lba 0)) in *. wp_step. unfold sem_down. wp_step.
  eapply wp_load; [exact (tr_free _ _ Ht h Hr)|]. cbn [rw_acquire rwsem_lock rw_free sem_writer sem_readers].
  apply wp_modify. set (s1 := with_hash_locks _ s).
  assert (Hli1 : listed s1 occ) by (eapply listed_same; [..|exact Hli]; done).
  wp_step. eapply core_line_lookup_wp; [exact Hli1|exact (tr_len _ _ Ht)|done|].
  (* the lock is given back *)
  assert (Hup : forall (a : A) f occ',
    tracks (with_ring f s) occ' ->
    Q a (with_hash_locks (<[h := rw_free]>) (with_ring f s1)) ->
    wp (_ ← sem_up OCF_METADATA_RD h; mret a) Q (with_ring f s1)).
  { intros a g occ' Ht' HQ'. wp_step. unfold sem_up. wp_step. eapply wp_load; [apply lookup_insert_eq|].
    apply wp_modify. by apply wp_ret. }
  assert (Hfree : forall f occ', tracks (with_ring f s) occ' ->
    tracks (with_hash_locks (<[h := rw_free]>) (with_ring f s1)) occ').
  { intros g occ' Ht'. assert (Hall : all_free (with_hash_locks (fun _ => <[h := rw_free]> (hash_locks s1)) (with_ring g s))).
    - intros h' Hh'. cbn. destruct (decide (h = h')) as [<-|Hne]; [by rewrite lookup_insert_eq|].
      rewrite !lookup_insert_ne by done. by apply (tr_free _ _ Ht).
    - exact (tracks_locks _ _ _ Ht' Hall). }
  unfold line_slot, on_line in *. destruct (find_line core lba occ) as [[i [q v]]|] eqn:Ef; cbn [fmap option_fmap option_map snd fst from_option] in *.
  - apply find_line_lookup in Ef as (Hi & _ & _). 
    destruct (li_data _ _ Hli q v ltac:(by eapply list_elem_of_lookup_2)) as [[b Hb] _].
    pose proof (li_range _ _ Hli q ltac:(eapply elem_of_slot, list_elem_of_lookup_2, Hi)) as Hq.
    rewrite bool_decide_eq_false_2 by lia. destruct (data_elem _ _ _ _ Hb) as (e & He & _ & _ & En & _).
    wp_step. eapply wp_ran; [apply (Hfound s1 q e He)|]. rewrite En.
    pose proof (tracks_recount s occ i q v (f (v_count v)) Ht Hi) as Ht'.
    eapply Hup; [exact Ht'|]. apply HQ; [by apply Hfree|done..].
  - rewrite bool_decide_eq_true_2 by done.
    assert (Ht' : tracks (with_ring id s) occ) by (destruct s; exact Ht).
    assert (E : s1 = with_ring id s1) by done. rewrite E.
    eapply Hup; [exact Ht'|]. apply HQ; [by apply Hfree|done..].
Qed.
