(* ===== verification/NhitSpec.v ===== *)
(** * The table of nhit as a bounded list of counted core lines

    [remembers s l]: the table holds the core lines [l] with their counts, the
    newest first.  An insertion puts a core line in front and forgets what is
    beyond the size of the ring; a query counts.  A new table remembers
    nothing. *)

From S2P Require Import Prelude Links Lru Collision Request HashLock Nhit NhitProofs.
Import HashLock.
Open Scope Z_scope.

(** ** The specification *)

Definition visits : Type := list visit.

(** The count of a core line. *)
Definition count_of (core lba : Z) (l : visits) : option Z :=
  v_count <$> (snd <$> list_find (fun v => is_line core lba v = true) l).

Fixpoint recount_line (core lba : Z) (f : Z -> Z) (l : visits) : visits :=
  match l with
  | [] => []
  | v :: l => if is_line core lba v then recount (f (v_count v)) v :: l else v :: recount_line core lba f l
  end.

Definition insert_line (n core lba : Z) (l : visits) : visits := take (Z.to_nat n) (Visit core lba 1 :: l).

Definition bump (n : Z) : Z := s32 (n + 1).

Definition remembers (s : nhit_hash) (l : visits) : Prop := exists occ, tracks s occ /\ occ.*2 = l.

(** ** Refinement *)

Lemma count_of_cons core lba v l :
  count_of core lba (v :: l) = if is_line core lba v then Some (v_count v) else count_of core lba l.
Proof.
  unfold count_of. cbn. destruct (is_line core lba v) eqn:E; [by rewrite decide_True|].
  rewrite decide_False by congruence. by destruct (list_find _ l) as [[]|].
Qed.

Lemma find_line_count core lba occ :
  (fun x : Z * visit => v_count x.2) <$> (snd <$> find_line core lba occ) = count_of core lba occ.*2.
Proof.
  induction occ as [|x occ IH]; [done|]. rewrite find_line_cons. cbn [fmap list_fmap]. rewrite count_of_cons.
  destruct (is_line core lba x.2); [done|exact IH].
Qed.

Lemma on_line_cons core lba f x occ :
  on_line core lba f (x :: occ) =
    if is_line core lba x.2 then (x.1, recount (f (v_count x.2)) x.2) :: occ else x :: on_line core lba f occ.
Proof.
  unfold on_line, find_line. cbn. destruct x as [q v]. cbn [fst snd]. destruct (is_line core lba v) eqn:E.
  - by rewrite decide_True by done.
  - rewrite decide_False by congruence. by destruct (list_find _ occ) as [[i [q' v']]|].
Qed.

Lemma on_line_visits core lba f occ : (on_line core lba f occ).*2 = recount_line core lba f occ.*2.
Proof.
  induction occ as [|x occ IH]; [done|]. rewrite on_line_cons. cbn [fmap list_fmap recount_line].
  destruct (is_line core lba x.2); cbn; [done|by rewrite IH].
Qed.

Lemma insert_refines s l core lba :
  remembers s l -> 0 <= core < CORE_ID_INVALID ->
  wp (nhit_hash_insert core lba) (fun _ s' =>
    remembers s' (insert_line (rb_entries s) core lba l) /\
    rb_entries s' = rb_entries s /\ hash_entries s' = hash_entries s) s.
Proof.
  intros (occ & Ht & <-) Hc. eapply wp_mono; [by apply (nhit_insert_wp s occ core lba)|].
  intros [] s' (Ht' & E1 & E2). split; [|done]. eexists. split; [exact Ht'|].
  pose proof (li_entries _ _ (tr_listed _ _ Ht)). unfold insert_line, kept.
  replace (Z.to_nat (rb_entries s)) with (S (Z.to_nat (rb_entries s - 1))) by lia.
  cbn. by rewrite <- fmap_take.
Qed.

Lemma query_refines s l core lba (Q : option Z -> nhit_hash -> Prop) :
  remembers s l -> 0 <= core < CORE_ID_INVALID ->
  (forall s', remembers s' (recount_line core lba bump l) -> rb_entries s' = rb_entries s ->
    hash_entries s' = hash_entries s -> Q (bump <$> count_of core lba l) s') ->
  wp (nhit_hash_query core lba) Q s.
Proof.
  intros (occ & Ht & <-) Hc HQ. apply (at_core_line_wp s occ core lba _ _ bump (fun n => Some (bump n))); [done..| |].
  - intros s1 q e He. unfold mbind, M_bind, elem, load. rewrite He. unfold set_elem, mbind, M_bind, elem, load, modify.
    by rewrite He.
  - intros s' Ht' E1 E2 _. rewrite <- find_line_count in HQ.
    assert (E : from_option (fun x : Z * visit => Some (bump (v_count x.2))) None (snd <$> find_line core lba occ) =
      bump <$> ((fun x : Z * visit => v_count x.2) <$> (snd <$> find_line core lba occ))).
    { by destruct (find_line core lba occ) as [[? ?]|]. }
    rewrite E. apply HQ; [|done..]. eexists. split; [exact Ht'|apply on_line_visits].
Qed.

Lemma set_occurences_refines s l core lba n (Q : unit -> nhit_hash -> Prop) :
  remembers s l -> 0 <= core < CORE_ID_INVALID ->
  (forall s', remembers s' (recount_line core lba (fun _ => s32 n) l) -> rb_entries s' = rb_entries s ->
    hash_entries s' = hash_entries s -> Q tt s') ->
  wp (nhit_hash_set_occurences core lba n) Q s.
Proof.
  intros (occ & Ht & <-) Hc HQ.
  apply (at_core_line_wp s occ core lba _ _ (fun _ => s32 n) (fun _ => tt)); [done..| |].
  - intros s1 q e He. unfold set_elem, mbind, M_bind, elem, load, modify. by rewrite He.
  - intros s' Ht' E1 E2 _. destruct (snd <$> find_line core lba occ); cbn;
      (apply HQ; [|done..]; eexists; split; [exact Ht'|apply on_line_visits]).
Qed.

(** ** A new table *)

Lemma buckets_range n : 0 < n < 2 ^ 32 -> 0 < u32 (calculate_hash_buckets n) < 2 ^ 32.
Proof.
  intros Hn. unfold calculate_hash_buckets, DIV_ROUND_UP, HASH_PRIME.
  pose proof (Z.div_le_upper_bound n 4 (2 ^ 30) ltac:(lia) ltac:(lia)) as H4.
  pose proof (Z.div_pos n 4 ltac:(lia) ltac:(lia)) as H0.
  rewrite (wrap_small 64 (n / 4 + 4099)) by lia. rewrite (wrap_small 64 (n / 4 + 4099 - 1)) by lia.
  set (q := (n / 4 + 4099 - 1) / 4099).
  assert (Hq : 4099 * q <= n / 4 + 4099 - 1) by (apply Z.mul_div_le; lia).
  assert (Hq0 : 0 <= q) by (apply Z.div_pos; lia).
  rewrite (wrap_small 64 (q * 4099)) by lia. destruct (decide (q = 0)) as [->|Hne].
  - vm_compute. done.
  - rewrite (wrap_small 64) by lia. rewrite wrap_small by lia. lia.
Qed.

Lemma lookup_seqZ_map {V} (f : Z -> V) n i :
  0 <= i < n -> (list_to_map ((fun i => (i, f i)) <$> seqZ 0 n) : gmap Z V) !! i = Some (f i).
Proof.
  intros Hi. apply elem_of_list_to_map_1.
  - rewrite <- list_fmap_compose. cbn. rewrite list_fmap_id. apply NoDup_seqZ.
  - apply list_elem_of_fmap. exists i. split; [done|]. apply elem_of_seqZ. lia.
Qed.

Lemma new_remembers n : 0 < n < 2 ^ 32 -> remembers (nhit_hash_new n) [].
Proof.
  intros Hn. pose proof (buckets_range n Hn) as Hb. exists []. split; [|done]. split.
  - split; cbn; try done.
    + constructor.
    + intros p Hp. by apply elem_of_nil in Hp.
    + intros p v Hp. by apply elem_of_nil in Hp.
    + intros h Hh. rewrite (lookup_seqZ_map (fun _ => u32 n)) by lia. by rewrite wrap_small by lia.
  - cbn. lia.
  - cbn. lia.
  - done.
  - intros p Hp. exists (Visit CORE_ID_INVALID 0 0). split; [|by right]. unfold data, nhit_hash_new. cbn.
    rewrite (lookup_seqZ_map (fun _ => NhitElem 0 0 0 0 CORE_ID_INVALID true)) by done. done.
  - intros h Hh. exact (lookup_seqZ_map (fun _ => rw_free) _ h Hh).
Qed.
