(* ===== verification/Promotion.v ===== *)
(** * Promotion policies: [src/promotion/promotion.c] and [src/promotion/nhit/nhit.c]

    The policy nhit on top of its hash table, and the table of operations that
    dispatches on the type of the policy. *)

From S2P Require Import Prelude Lru Collision Request Engine Nhit.
Open Scope Z_scope.

Definition ocf_promotion_always : Z := 0.
Definition ocf_promotion_nhit : Z := 1.
Definition ocf_promotion_max : Z := 2.

Definition ocf_nhit_insertion_threshold : Z := 0.
Definition ocf_nhit_trigger_threshold : Z := 1.
Definition OCF_NHIT_MIN_THRESHOLD : Z := 2.
Definition OCF_NHIT_MAX_THRESHOLD : Z := 1000.
Definition OCF_NHIT_THRESHOLD_DEFAULT : Z := 3.
Definition OCF_NHIT_MIN_TRIGGER : Z := 0.
Definition OCF_NHIT_MAX_TRIGGER : Z := 100.
Definition OCF_NHIT_TRIGGER_DEFAULT : Z := 80.
Definition NHIT_MAPPING_RATIO : Z := 2.

Record nhit_promotion_policy_config := NhitConfig { insertion_threshold : Z; trigger_threshold : Z }.
#[export] Instance nhit_config_eq_dec : EqDecision nhit_promotion_policy_config.
Proof. solve_decision. Defined.

(** [pol_config] is the index of the configuration that [policy->config] points
    to; [pol_ctx] is [policy->ctx]. *)
Record ocf_promotion_policy := Policy { pol_type : Z; pol_config : Z; pol_ctx : option nhit_hash }.

(** [cache->promotion_policy] with [promotion_policy_type] and [promotion] of the
    superblock; the latter as nhit reads it. *)
Record promotion_state := PromotionState {
  promotion_policy : option ocf_promotion_policy;
  promotion_policy_type : Z;
  promotion_conf : gmap Z nhit_promotion_policy_config
}.
Definition with_policy f s := PromotionState (f <$> promotion_policy s) (promotion_policy_type s) (promotion_conf s).
Definition with_policy_type t s := PromotionState (promotion_policy s) t (promotion_conf s).
Definition with_conf f s := PromotionState (promotion_policy s) (promotion_policy_type s) (f (promotion_conf s)).
Definition with_ctx c p := Policy (pol_type p) (pol_config p) c.
Definition with_pol_config c p := Policy (pol_type p) c (pol_ctx p).
Definition with_pol_type t p := Policy t (pol_config p) (pol_ctx p).

Definition PM := Prelude.M promotion_state.

(** An operation on the hash table of the policy. *)
Definition on_hash {A} (m : NH A) : PM A := fun s =>
  match promotion_policy s ≫= pol_ctx with
  | Some h => match m h with
              | Some (a, h) => Some (a, with_policy (with_ctx (Some h)) s)
              | None => None
              end
  | None => None
  end.

(** What the environment answers to the attempt to create a policy. *)
Record promotion_env := PromotionEnv {
  env_policy : bool;                (** memory for [struct ocf_promotion_policy] *)
  env_get_free_memory : Z;
  env_ctx : bool;                   (** memory for [struct nhit_policy_context] *)
  env_mem : nhit_memory -> bool;
  env_sem : Z -> bool;
  env_spin : Z;
  env_destroy : Z -> Z
}.

Section Nhit.
(** [cachelines]: [ocf_metadata_get_cachelines_count]. *)
Context (z : nhit_sizes) (e : promotion_env) (cachelines : Z).

Definition nhit_conf : PM nhit_promotion_policy_config := load (fun s => promotion_conf s !! ocf_promotion_nhit).
Definition set_nhit_conf (f : nhit_promotion_policy_config -> nhit_promotion_policy_config) : PM unit :=
  _ ← nhit_conf; modify (with_conf (alter f ocf_promotion_nhit)).

Definition nhit_setup : PM unit :=
  _ ← set_nhit_conf (fun c => NhitConfig OCF_NHIT_THRESHOLD_DEFAULT (trigger_threshold c));
  set_nhit_conf (fun c => NhitConfig (insertion_threshold c) OCF_NHIT_TRIGGER_DEFAULT).

(** The product is of type [ocf_cache_line_t]. *)
Definition nhit_hash_size : Z := u32 (cachelines * NHIT_MAPPING_RATIO).
Definition nhit_sizeof : Z := u64 (size_policy_context z + nhit_hash_sizeof z nhit_hash_size).

Definition nhit_init : PM Z :=
  if bool_decide (nhit_sizeof >= env_get_free_memory e) then mret (- OCF_ERR_NO_FREE_RAM)
  else if negb (env_ctx e) then mret (- OCF_ERR_NO_MEM)
  else
    match nhit_hash_init (env_mem e) (env_sem e) (env_spin e) nhit_hash_size with
    | (0, Some h, _) =>
        _ ← load promotion_policy;
        _ ← modify (with_policy (with_ctx (Some h)));
        _ ← modify (with_policy (with_pol_config ocf_promotion_nhit));
        mret 0
    | (result, _, _) => mret result
    end.

Definition nhit_deinit : PM unit :=
  policy ← load promotion_policy;
  h ← load (fun _ => pol_ctx policy);
  _ ← load (fun _ => nhit_hash_deinit (env_destroy e) h);
  modify (with_policy (with_ctx None)).

Definition nhit_set_param (param_id param_value : Z) : PM Z :=
  if bool_decide (param_id = ocf_nhit_insertion_threshold) then
    if bool_decide (param_value >= OCF_NHIT_MIN_THRESHOLD) && bool_decide (param_value <= OCF_NHIT_MAX_THRESHOLD)
    then _ ← set_nhit_conf (fun c => NhitConfig param_value (trigger_threshold c)); mret 0
    else mret (- OCF_ERR_INVAL)
  else if bool_decide (param_id = ocf_nhit_trigger_threshold) then
    if bool_decide (param_value >= OCF_NHIT_MIN_TRIGGER) && bool_decide (param_value <= OCF_NHIT_MAX_TRIGGER)
    then _ ← set_nhit_conf (fun c => NhitConfig (insertion_threshold c) param_value); mret 0
    else mret (- OCF_ERR_INVAL)
  else mret (- OCF_ERR_INVAL).

(** The result and [*param_value] where it is written. *)
Definition nhit_get_param (param_id : Z) : PM (Z * option Z) :=
  cfg ← nhit_conf;
  mret (if bool_decide (param_id = ocf_nhit_insertion_threshold) then (0, Some (insertion_threshold cfg))
        else if bool_decide (param_id = ocf_nhit_trigger_threshold) then (0, Some (trigger_threshold cfg))
        else (- OCF_ERR_INVAL, None)).

Definition core_line_purge (core_id core_lba : Z) : PM unit :=
  on_hash (nhit_hash_set_occurences core_id core_lba 0).

(** The entry of [req->map] for core line number [i] of the request. *)
Definition req_entry (req : ocf_request) (i : Z) : PM ocf_map_info :=
  load (fun _ => me_info <$> req_map req !! Z.to_nat i).

(** The values of [i] in the loops over the core lines of a request. *)
Definition req_indices (req : ocf_request) : list Z := seqZ 0 (core_line_last req - core_line_first req + 1).

Definition nhit_req_purge (req : ocf_request) : PM unit :=
  m_for (req_indices req) (fun i =>
    entry ← req_entry req i;
    core_line_purge (mi_core_id entry) (mi_core_line entry)).

(** [policy->config] as nhit reads it. *)
Definition policy_config : PM nhit_promotion_policy_config :=
  policy ← load promotion_policy;
  load (fun s => promotion_conf s !! pol_config policy).

Definition core_line_should_promote (core_id core_lba : Z) : PM bool :=
  cfg ← policy_config;
  hit ← on_hash (nhit_hash_query core_id core_lba);
  match hit with
  | Some counter => mret (bool_decide (insertion_threshold cfg <= u32 counter))
  | None => _ ← on_hash (nhit_hash_insert core_id core_lba); mret false
  end.

(** The loop of [nhit_req_should_promote] over the core lines; the value of
    [result] after it. *)
Fixpoint should_promote_lines (req : ocf_request) (indices : list Z) (result : bool) : PM bool :=
  match indices with
  | [] => mret result
  | i :: indices =>
      entry ← req_entry req i;
      promote ← core_line_should_promote (mi_core_id entry) (mi_core_line entry);
      should_promote_lines req indices (if negb (promote : bool) then false else result)
  end.

(** [entries]: [ocf_metadata_collision_table_entries]; [num_free]:
    [ocf_eviction_num_free]. *)
Definition nhit_req_should_promote (entries num_free : Z) (req : ocf_request) : PM bool :=
  let occupied_cachelines := u32 (entries - num_free) in
  cfg ← policy_config;
  if bool_decide (occupied_cachelines < DIV_ROUND_UP (u64 (trigger_threshold cfg * cachelines)) 100) then mret true
  else
    result ← should_promote_lines req (req_indices req) true;
    mret (result || bool_decide (ocf_engine_mapped_count req <> 0)).

(** ** [promotion.c]

    A policy without an operation has no entry in the table. *)

Definition table_init (type : Z) : option (PM Z) :=
  if bool_decide (type = ocf_promotion_nhit) then Some nhit_init else None.
Definition table_deinit (type : Z) : option (PM unit) :=
  if bool_decide (type = ocf_promotion_nhit) then Some nhit_deinit else None.
Definition table_set_param (type : Z) : option (Z -> Z -> PM Z) :=
  if bool_decide (type = ocf_promotion_nhit) then Some nhit_set_param else None.
Definition table_get_param (type : Z) : option (Z -> PM (Z * option Z)) :=
  if bool_decide (type = ocf_promotion_nhit) then Some nhit_get_param else None.
Definition table_req_purge (type : Z) : option (ocf_request -> PM unit) :=
  if bool_decide (type = ocf_promotion_nhit) then Some nhit_req_purge else None.
Definition table_req_should_promote (type entries num_free : Z) : option (ocf_request -> PM bool) :=
  if bool_decide (type = ocf_promotion_nhit) then Some (nhit_req_should_promote entries num_free) else None.

(** [ENV_BUG_ON(type >= ocf_promotion_max)]. *)
Definition known_type (type : Z) : PM unit := bug_on (bool_decide (type >= ocf_promotion_max)).

Definition ocf_promotion_init (type : Z) : PM Z :=
  _ ← known_type type;
  if negb (env_policy e) then mret (- OCF_ERR_NO_MEM)
  else
    _ ← modify (fun s => PromotionState (Some (Policy type type None)) (promotion_policy_type s) (promotion_conf s));
    result ← default (mret 0) (table_init type);
    _ ← when (bool_decide (result <> 0))
          (modify (fun s => PromotionState None (promotion_policy_type s) (promotion_conf s)));
    mret result.

(** The pointer in the cache is left as it is; nothing is behind it. *)
Definition ocf_promotion_deinit : PM unit :=
  policy ← load promotion_policy;
  _ ← known_type (pol_type policy);
  _ ← default (mret tt) (table_deinit (pol_type policy));
  modify (fun s => PromotionState None (promotion_policy_type s) (promotion_conf s)).

Definition set_type (type : Z) : PM unit :=
  _ ← modify (with_policy_type type); modify (with_policy (with_pol_type type)).

Definition ocf_promotion_set_policy (type : Z) : PM Z :=
  if bool_decide (type >= ocf_promotion_max) then mret (- OCF_ERR_INVAL)
  else
    prev_policy ← gets promotion_policy_type;
    if bool_decide (type = prev_policy) then mret 0
    else
      _ ← default (mret tt) (table_deinit prev_policy);
      _ ← set_type type;
      result ← default (mret 0) (table_init type);
      _ ← when (bool_decide (result <> 0)) (set_type ocf_promotion_always);
      mret result.

Definition ocf_promotion_set_param (type param_id param_value : Z) : PM Z :=
  _ ← known_type type;
  match table_set_param type with
  | Some set_param => set_param param_id param_value
  | None => mret (- OCF_ERR_INVAL)
  end.

Definition ocf_promotion_get_param (type param_id : Z) : PM (Z * option Z) :=
  _ ← known_type type;
  match table_get_param type with
  | Some get_param => get_param param_id
  | None => mret (- OCF_ERR_INVAL, None)
  end.

Definition ocf_promotion_req_purge (req : ocf_request) : PM unit :=
  policy ← load promotion_policy;
  _ ← known_type (pol_type policy);
  match table_req_purge (pol_type policy) with
  | Some req_purge => req_purge req
  | None => mret tt
  end.

Definition ocf_promotion_req_should_promote (entries num_free : Z) (req : ocf_request) : PM bool :=
  policy ← load promotion_policy;
  _ ← known_type (pol_type policy);
  match table_req_should_promote (pol_type policy) entries num_free with
  | Some req_should_promote => req_should_promote req
  | None => mret true
  end.
End Nhit.
