(* ===== verification/PromotionProofs.v ===== *)
(** * What the policy nhit answers

    [counting s cfg n l]: nhit is the active policy, its configuration is [cfg]
    and its table of [n] slots remembers [l].  Every operation on the lines of a
    request refines a function on [l]. *)

From S2P Require Import Prelude Links Lru Collision Request HashLock Engine Nhit NhitProofs NhitSpec Promotion.
Open Scope Z_scope.

Record counting (s : promotion_state) (cfg : nhit_promotion_policy_config) (n : Z) (l : visits) : Prop := {
  co_policy : exists h, promotion_policy s = Some (Policy ocf_promotion_nhit ocf_promotion_nhit (Some h)) /\
    remembers h l /\ rb_entries h = n;
  co_conf : promotion_conf s !! ocf_promotion_nhit = Some cfg
}.

(** What the operations on the table leave alone. *)
Definition same_config (s s' : promotion_state) : Prop :=
  promotion_policy_type s' = promotion_policy_type s /\ promotion_conf s' = promotion_conf s.

Lemma on_hash_wp {A} (m : NH A) s cfg n l (Q : A -> promotion_state -> Prop) :
  counting s cfg n l ->
  (forall h, remembers h l -> rb_entries h = n ->
    wp m (fun a h' => exists l', remembers h' l' /\ rb_entries h' = n /\
      forall s', counting s' cfg n l' -> same_config s s' -> Q a s') h) ->
  wp (on_hash m) Q s.
Proof.
  intros [(h & Hp & Hr & Hn) Hc] Hm. specialize (Hm h Hr Hn). unfold wp, on_hash. rewrite Hp. cbn.
  apply wp_run in Hm as (a & h' & E & l' & Hr' & Hn' & HQ). rewrite E. apply HQ; [|done].
  split; [|done]. exists h'. cbn. by rewrite Hp.
Qed.

(** ** One core line *)

Definition line : Type := Z * Z.
Definition valid_line (k : line) : Prop := 0 <= k.1 < CORE_ID_INVALID.

Definition visit_line (n threshold : Z) (k : line) (l : visits) : bool * visits :=
  match count_of k.1 k.2 l with
  | Some c => (bool_decide (threshold <= u32 (bump c)), recount_line k.1 k.2 bump l)
  | None => (false, insert_line n k.1 k.2 l)
  end.

Lemma policy_config_wp s cfg n l (Q : nhit_promotion_policy_config -> promotion_state -> Prop) :
  counting s cfg n l -> Q cfg s -> wp policy_config Q s.
Proof.
  intros [(h & Hp & _) Hc] HQ. unfold policy_config. wp_step. eapply wp_load; [exact Hp|]. by eapply wp_load.
Qed.

Lemma core_line_should_promote_wp s cfg n l k (Q : bool -> promotion_state -> Prop) :
  counting s cfg n l -> valid_line k ->
  (forall s', counting s' cfg n (visit_line n (insertion_threshold cfg) k l).2 -> same_config s s' ->
    Q (visit_line n (insertion_threshold cfg) k l).1 s') ->
  wp (core_line_should_promote k.1 k.2) Q s.
Proof.
  intros Hs Hk HQ. unfold core_line_should_promote, visit_line in *. wp_step. eapply policy_config_wp; [done|]. wp_step.
  eapply on_hash_wp; [done|]. intros h Hr Hn. apply (query_refines h l); [done..|]. intros h' Hr' Hn' _.
  eexists. split; [exact Hr'|]. split; [congruence|]. intros s1 Hs1 Hsame. destruct (count_of k.1 k.2 l) as [c|] eqn:E; cbn [fmap option_fmap option_map].
  - apply wp_ret. by apply HQ.
  - assert (El : recount_line k.1 k.2 bump l = l).
    { clear -E. induction l as [|v l IH]; [done|]. rewrite count_of_cons in E. cbn.
      destruct (is_line _ _ v); [done|]. by rewrite IH. }
    rewrite El in Hs1. wp_step. eapply on_hash_wp; [exact Hs1|]. intros g Hg Hgn.
    eapply wp_mono; [by apply (insert_refines g l)|]. intros [] g' (Hg' & Hn2 & _). rewrite Hgn in Hg'.
    eexists. split; [exact Hg'|]. split; [congruence|]. intros s2 Hs2 [? ?]. apply wp_ret. apply HQ; [done|].
    destruct Hsame. split; congruence.
Qed.

(** ** The lines of a request *)

Fixpoint visit_lines (n threshold : Z) (ks : list line) (l : visits) : list bool * visits :=
  match ks with
  | [] => ([], l)
  | k :: ks =>
      let '(b, l) := visit_line n threshold k l in
      let '(bs, l) := visit_lines n threshold ks l in (b :: bs, l)
  end.

(** Entry [i] of the map is for core line [ks !! i]. *)
Definition req_lines (req : ocf_request) (ks : list line) : Prop :=
  ((fun e => (mi_core_id (me_info e), mi_core_line (me_info e))) <$> req_map req) = ks /\
  Z.of_nat (length ks) = core_line_last req - core_line_first req + 1.

Lemma req_entry_wp req ks i k s (Q : ocf_map_info -> promotion_state -> Prop) :
  req_lines req ks -> ks !! i = Some k ->
  (forall e, mi_core_id e = k.1 -> mi_core_line e = k.2 -> Q e s) ->
  wp (req_entry req (Z.of_nat i)) Q s.
Proof.
  intros [<- _] Hi HQ. rewrite list_lookup_fmap in Hi.
  destruct (req_map req !! i) as [e|] eqn:E; [|done]. injection Hi as <-.
  unfold req_entry. eapply wp_load; [rewrite Nat2Z.id, E; done|]. by apply HQ.
Qed.

Lemma should_promote_lines_wp req ks cfg n : forall todo done s l b (Q : bool -> promotion_state -> Prop),
  req_lines req ks -> ks = done ++ todo -> Forall valid_line ks -> counting s cfg n l ->
  (forall s', counting s' cfg n (visit_lines n (insertion_threshold cfg) todo l).2 -> same_config s s' ->
    Q (b && forallb id (visit_lines n (insertion_threshold cfg) todo l).1) s') ->
  wp (should_promote_lines req (seqZ (Z.of_nat (length done)) (Z.of_nat (length todo))) b) Q s.
Proof.
  intros todo. induction todo as [|k todo IH]; intros pre s l b Q Hreq Eks Hv Hs HQ.
  - cbn. apply wp_ret. specialize (HQ s Hs ltac:(done)). cbn in HQ. by rewrite andb_true_r in HQ.
  - rewrite seqZ_cons by (cbn; lia). cbn [should_promote_lines]. wp_step.
    eapply (req_entry_wp _ _ _ k); [exact Hreq|rewrite Eks; by apply list_lookup_middle|].
    intros e E1 E2. rewrite E1, E2. wp_step. eapply core_line_should_promote_wp; [exact Hs| |].
    { rewrite Eks in Hv. by apply Forall_app in Hv as [_ [? _]%Forall_cons]. }
    intros s1 Hs1 Hsame1. cbn [visit_lines] in HQ.
    destruct (visit_line n (insertion_threshold cfg) k l) as [c l1]. cbn [fst snd] in *.
    assert (Elen : Z.succ (Z.of_nat (length pre)) = Z.of_nat (length (pre ++ [k]))) by (rewrite length_app; cbn; lia).
    assert (Etodo : Z.pred (Z.of_nat (length (k :: todo))) = Z.of_nat (length todo)) by (cbn; lia).
    rewrite Elen, Etodo. eapply IH; [exact Hreq|by rewrite <- app_assoc|exact Hv|exact Hs1|].
    intros s2 Hs2 [? ?]. destruct (visit_lines n (insertion_threshold cfg) todo l1) as [bs l2]. cbn [fst snd forallb id] in *.
    assert (Eb : (if negb c then false else b) && forallb id bs = b && (c && forallb id bs)) by (by destruct c, b).
    rewrite Eb. apply HQ; [done|]. destruct Hsame1. split; congruence.
Qed.

(** [occupied]: the cache lines in use; [mapped]: the lines of the request that
    are in the cache. *)
Definition promotes (cachelines occupied mapped n : Z) (cfg : nhit_promotion_policy_config) (ks : list line) (l : visits) :
    bool * visits :=
  if bool_decide (occupied < DIV_ROUND_UP (u64 (trigger_threshold cfg * cachelines)) 100) then (true, l)
  else
    let '(bs, l) := visit_lines n (insertion_threshold cfg) ks l in
    (forallb id bs || bool_decide (mapped <> 0), l).

Lemma req_should_promote_wp cachelines entries num_free req ks s cfg n l :
  req_lines req ks -> Forall valid_line ks -> counting s cfg n l ->
  wp (nhit_req_should_promote cachelines entries num_free req) (fun b s' =>
    let spec := promotes cachelines (u32 (entries - num_free)) (ocf_engine_mapped_count req) n cfg ks l in
    b = spec.1 /\ counting s' cfg n spec.2 /\ same_config s s') s.
Proof.
  intros Hreq Hv Hs. unfold nhit_req_should_promote, promotes. cbv zeta. wp_step. eapply policy_config_wp; [exact Hs|].
  case_bool_decide; [by apply wp_ret|]. wp_step. unfold req_indices. destruct Hreq as [Em En] eqn:Er.
  rewrite <- En. eapply (should_promote_lines_wp req ks cfg n ks []); try done.
  intros s' Hs' Hsame. apply wp_ret. destruct (visit_lines _ _ _ _) as [bs l']. done.
Qed.

Lemma req_purge_wp req ks s cfg n l :
  req_lines req ks -> Forall valid_line ks -> counting s cfg n l ->
  wp (nhit_req_purge req) (fun _ s' =>
    counting s' cfg n (foldl (fun l k => recount_line k.1 k.2 (fun _ => 0) l) l ks) /\ same_config s s') s.
Proof.
  intros Hreq Hv Hs. unfold nhit_req_purge, req_indices. pose proof Hreq as [_ En]. rewrite <- En.
  assert (Hidx : seqZ 0 (Z.of_nat (length ks)) = Z.of_nat <$> seq 0 (length ks)) by (unfold seqZ; rewrite Nat2Z.id; apply list_fmap_ext; intros; lia).
  rewrite Hidx. eapply wp_mono; [apply (wp_for _ _ (fun pre s' =>
    counting s' cfg n (foldl (fun l k => recount_line k.1 k.2 (fun _ => 0) l) l (take (length pre) ks)) /\ same_config s s'))|].
  - cbn. done.
  - intros pre i post s1 Epre [Hs1 Hsame].
    assert (Hi : (exists k, ks !! length pre = Some k) /\ i = Z.of_nat (length pre)).
    { assert (Hl : (Z.of_nat <$> seq 0 (length ks)) !! length pre = Some i) by (rewrite Epre; by apply list_lookup_middle).
      rewrite list_lookup_fmap in Hl. destruct (seq 0 (length ks) !! length pre) as [j|] eqn:Ej; [|done].
      apply lookup_seq in Ej as [-> Hlt]. injection Hl as <-. split; [|done].
      by apply lookup_lt_is_Some. }
    destruct Hi as [[k Hi] ->]. wp_step. eapply req_entry_wp; [exact Hreq|exact Hi|].
    intros e E1 E2. rewrite E1, E2. unfold core_line_purge. eapply on_hash_wp; [exact Hs1|]. intros h Hr Hn.
    eapply set_occurences_refines; [exact Hr|exact (Forall_lookup_1 _ _ _ _ Hv Hi)|]. intros h' Hr' Hn' _.
    eexists. split; [exact Hr'|]. split; [congruence|]. intros s2 Hs2 [? ?]. split; [|destruct Hsame; split; congruence].
    rewrite length_app. cbn [length]. rewrite Nat.add_1_r. erewrite take_S_r by exact Hi. rewrite foldl_app. exact Hs2.
  - intros [] s' H. rewrite length_fmap, length_seq, take_ge in H by done. exact H.
Qed.

(** ** The threshold-th visit promotes

    As long as the ring has a slot for every core line that is visited, the
    policy answers by the number of visits alone. *)

Definition key (v : visit) : line := (v_core v, v_lba v).

Lemma is_line_key k v : is_line k.1 k.2 v = true <-> key v = k.
Proof. rewrite is_line_true. destruct k. unfold key. cbn. split; [by intros [-> ->]|by intros [= -> ->]]. Qed.

Lemma count_of_key k v l : count_of k.1 k.2 (v :: l) = if decide (key v = k) then Some (v_count v) else count_of k.1 k.2 l.
Proof.
  rewrite count_of_cons. pose proof (is_line_key k v) as E.
  destruct (is_line k.1 k.2 v), (decide (key v = k)) as [H|H]; try done; [by destruct H; apply E|by apply E in H].
Qed.

Lemma keys_recount k f l : key <$> recount_line k.1 k.2 f l = key <$> l.
Proof. induction l as [|v l IH]; [done|]. cbn. destruct (is_line _ _ v); cbn; [done|by rewrite IH]. Qed.

Lemma count_of_recount k k' f l :
  count_of k'.1 k'.2 (recount_line k.1 k.2 f l) =
    if decide (k = k') then f <$> count_of k'.1 k'.2 l else count_of k'.1 k'.2 l.
Proof.
  induction l as [|v l IH]; [by case_decide|]. cbn [recount_line]. pose proof (is_line_key k v) as E.
  destruct (is_line k.1 k.2 v); rewrite !count_of_key.
  - assert (Ev : key v = k) by (by apply E). change (key (recount (f (v_count v)) v)) with (key v). rewrite Ev.
    repeat case_decide; congruence || done.
  - rewrite IH. assert (key v <> k) by (intros H; by apply E in H).
    repeat case_decide; congruence.
Qed.

Lemma count_of_none k l : count_of k.1 k.2 l = None <-> k ∉ key <$> l.
Proof.
  induction l as [|v l IH]; [split; [intros _; apply not_elem_of_nil|done]|]. rewrite count_of_key, fmap_cons, not_elem_of_cons, <- IH.
  case_decide; naive_solver.
Qed.

(** ** Counting occurrences *)

Definition occurrences (k : line) (ks : list line) : Z := Z.of_nat (length (filter (fun k' => k' = k) ks)).

Lemma occurrences_snoc k ks k' :
  occurrences k (ks ++ [k']) = occurrences k ks + (if decide (k' = k) then 1 else 0).
Proof. unfold occurrences. rewrite filter_app, length_app, (filter_cons _ _ []). case_decide; cbn; lia. Qed.

Lemma occurrences_none k ks : k ∉ ks -> occurrences k ks = 0.
Proof. intros Hk. unfold occurrences. rewrite list_eq_nil_filter; [done|]. by intros x Hx ->. Qed.

Lemma occurrences_le k ks : 0 <= occurrences k ks <= Z.of_nat (length ks).
Proof. unfold occurrences. pose proof (length_filter (fun k' => k' = k) ks). lia. Qed.

Record counts (ks : list line) (l : visits) : Prop := {
  ct_keys : NoDup (key <$> l);
  ct_sub k : k ∈ key <$> l <-> k ∈ ks;
  ct_count k : k ∈ ks -> count_of k.1 k.2 l = Some (occurrences k ks)
}.

Lemma visit_line_counts n t all pre k l :
  counts pre l -> pre ++ [k] ⊆ all -> Z.of_nat (length (remove_dups all)) <= n -> 2 <= t ->
  Z.of_nat (length pre) < 2 ^ 31 - 1 ->
  counts (pre ++ [k]) (visit_line n t k l).2 /\ (visit_line n t k l).1 = bool_decide (t <= occurrences k (pre ++ [k])).
Proof.
  intros [Hnd Hsub Hct] Hall Hn Ht Hlen. unfold visit_line. pose proof (count_of_none k l) as Hnone.
  pose proof (occurrences_le k pre) as Hle. pose proof (occurrences_snoc k pre k) as Es. rewrite decide_True in Es by done.
  destruct (decide (k ∈ pre)) as [Hin|Hin].
  - rewrite (Hct k Hin). cbn [fst snd].
    assert (Eb : bump (occurrences k pre) = occurrences k (pre ++ [k])) by (unfold bump; rewrite s32_small; lia).
    split; [|rewrite Eb, wrap_small by lia; done]. split.
    + by rewrite keys_recount.
    + intros k'. rewrite keys_recount, Hsub, elem_of_app, list_elem_of_singleton. naive_solver.
    + intros k' [Hk'|Hk'%list_elem_of_singleton]%elem_of_app; [|subst k']; rewrite count_of_recount; case_decide as E.
      * subst k'. rewrite (Hct k Hin). cbn. by rewrite Eb.
      * rewrite (Hct k' Hk'), occurrences_snoc, decide_False by done. f_equal. lia.
      * rewrite (Hct k Hin). cbn. by rewrite Eb.
      * done.
  - assert (Hkl : k ∉ key <$> l) by (by rewrite Hsub). rewrite (proj2 Hnone Hkl). cbn [fst snd].
    assert (E0 : occurrences k pre = 0) by (by apply occurrences_none).
    assert (Hlt : Z.of_nat (length l) < n).
    { assert (Hs : (k :: (key <$> l)) ⊆+ remove_dups all).
      { apply NoDup_submseteq; [by constructor|]. intros x Hx. apply elem_of_remove_dups, Hall.
        apply elem_of_cons in Hx as [->|Hx]; [set_solver|]. rewrite Hsub in Hx. set_solver. }
      apply submseteq_length in Hs. cbn in Hs. rewrite length_fmap in Hs. lia. }
    assert (Ei : insert_line n k.1 k.2 l = Visit k.1 k.2 1 :: l) by (unfold insert_line; apply take_ge; cbn; lia).
    rewrite Ei. assert (Ek : key (Visit k.1 k.2 1) = k) by (by destruct k).
    split; [|rewrite bool_decide_eq_false_2 by lia; done]. split.
    + rewrite fmap_cons, Ek. by constructor.
    + intros k'. rewrite fmap_cons, Ek, elem_of_cons, Hsub, elem_of_app, list_elem_of_singleton. tauto.
    + intros k' [Hk'|Hk'%list_elem_of_singleton]%elem_of_app; [|subst k']; rewrite count_of_key, Ek; case_decide as E.
      * subst k'. done.
      * rewrite (Hct k' Hk'), occurrences_snoc, decide_False by done. f_equal. lia.
      * cbn. f_equal. lia.
      * done.
Qed.

Lemma visit_lines_counts n t all : forall ks pre l,
  counts pre l -> pre ++ ks ⊆ all -> Z.of_nat (length (remove_dups all)) <= n -> 2 <= t ->
  Z.of_nat (length (pre ++ ks)) < 2 ^ 31 ->
  (visit_lines n t ks l).1 = imap (fun i k => bool_decide (t <= occurrences k (pre ++ take (S i) ks))) ks.
Proof.
  induction ks as [|k ks IH]; intros pre l Hc Hall Hn Ht Hlen; [done|]. cbn [visit_lines imap].
  rewrite length_app in Hlen. cbn in Hlen.
  destruct (visit_line_counts n t all pre k l Hc ltac:(set_solver) Hn Ht ltac:(lia)) as [Hc' Eb].
  destruct (visit_line n t k l) as [b l1]. cbn [fst snd] in *.
  specialize (IH (pre ++ [k]) l1 Hc' ltac:(rewrite <- app_assoc; exact Hall) Hn Ht ltac:(rewrite !length_app; cbn; lia)).
  destruct (visit_lines n t ks l1) as [bs l2]. cbn [fst snd] in *. subst b bs. f_equal.
  apply imap_ext. intros i x _. cbn. by rewrite <- app_assoc.
Qed.

(** ** A sequence of visits *)

Fixpoint serve (ks : list line) : PM (list bool) :=
  match ks with
  | [] => mret []
  | k :: ks =>
      b ← core_line_should_promote k.1 k.2;
      bs ← serve ks;
      mret (b :: bs)
  end.

Lemma serve_wp cfg n : forall ks s l (Q : list bool -> promotion_state -> Prop),
  counting s cfg n l -> Forall valid_line ks ->
  (forall s', counting s' cfg n (visit_lines n (insertion_threshold cfg) ks l).2 ->
    Q (visit_lines n (insertion_threshold cfg) ks l).1 s') ->
  wp (serve ks) Q s.
Proof.
  induction ks as [|k ks IH]; intros s l Q Hs Hv HQ; cbn [serve].
  - apply wp_ret. by apply HQ.
  - apply Forall_cons in Hv as [Hk Hv]. wp_step. eapply core_line_should_promote_wp; [done..|].
    intros s1 Hs1 _. wp_step. cbn [visit_lines] in HQ.
    destruct (visit_line n (insertion_threshold cfg) k l) as [b l1]. cbn [fst snd] in *.
    eapply IH; [exact Hs1|done|]. intros s2 Hs2. apply wp_ret.
    destruct (visit_lines n (insertion_threshold cfg) ks l1) as [bs l2]. by apply HQ.
Qed.
