(* ===== verification/PromotionProps.v ===== *)
(** * Properties of the promotion policies

    Switching policies keeps the policy, its type in the superblock and its table
    in step, whatever the environment refuses; the table of nhit refines a
    bounded list of counted core lines; a core line is promoted from its
    threshold-th visit on. *)

From S2P Require Import Prelude Links Lru Collision Request HashLock Engine Nhit NhitProofs NhitSpec Promotion PromotionProofs.
Open Scope Z_scope.

(** ** Creating the table *)

Definition all_memory : list nhit_memory := [MemCtx; MemHashMap; MemHashLocks; MemRingBuffer].

(** Everything but the spinlock can be had. *)
Definition reaches_spinlock (mem : nhit_memory -> bool) (sem : Z -> bool) (n : Z) : bool :=
  forallb mem all_memory && forallb sem (seqZ 0 (hash_entries (nhit_hash_new n))).

Lemma nhit_hash_init_cases mem sem spin n :
  if reaches_spinlock mem sem n
  then nhit_hash_init mem sem spin n =
    (if bool_decide (spin = 0) then (0, Some (nhit_hash_new n), all_memory) else (spin, None, [MemRingBuffer]))
  else exists result, result <> 0 /\ nhit_hash_init mem sem spin n = (result, None, []).
Proof.
  unfold nhit_hash_init, reaches_spinlock, all_memory, OCF_ERR_NO_MEM, OCF_ERR_UNKNOWN. cbv zeta. cbn [forallb].
  destruct (mem MemCtx); cbn [negb andb]; [|eexists; split; [|reflexivity]; lia].
  destruct (mem MemHashMap); cbn [negb andb]; [|eexists; split; [|reflexivity]; lia].
  destruct (mem MemHashLocks); cbn [negb andb]; [|eexists; split; [|reflexivity]; lia].
  destruct (mem MemRingBuffer), (forallb _ (seqZ _ _)); cbn [negb andb]; [|eexists; split; [|reflexivity]; lia..].
  by case_bool_decide.
Qed.

Lemma nhit_hash_init_result mem sem spin n r h m :
  nhit_hash_init mem sem spin n = (r, h, m) -> r = 0 /\ h = Some (nhit_hash_new n) \/ r <> 0 /\ h = None.
Proof.
  intros E. pose proof (nhit_hash_init_cases mem sem spin n) as H. rewrite E in H.
  destruct (reaches_spinlock mem sem n).
  - case_bool_decide; injection H as -> -> ->; [by left|by right].
  - destruct H as (r' & Hr & [= -> -> ->]). by right.
Qed.

(** ** The policy and its type *)

(** The policy in use is the one of the superblock, and it has a table exactly
    if it needs one. *)
Inductive in_step (s : promotion_state) : Prop :=
| step_always p :
    promotion_policy s = Some p -> pol_type p = ocf_promotion_always -> pol_ctx p = None ->
    promotion_policy_type s = ocf_promotion_always -> in_step s
| step_nhit cfg n l :
    counting s cfg n l -> promotion_policy_type s = ocf_promotion_nhit -> in_step s.

Section Switch.
Context (z : nhit_sizes) (e : promotion_env) (cachelines : Z).
Hypothesis cachelines_range : 0 < cachelines < 2 ^ 31.
(** The semaphores can be destroyed. *)
Hypothesis destroy_ok : forall i, env_destroy e i = 0.

Lemma hash_size_range : 0 < nhit_hash_size cachelines < 2 ^ 32.
Proof. unfold nhit_hash_size, NHIT_MAPPING_RATIO. rewrite wrap_small; lia. Qed.

(** [nhit_init] for a policy of type nhit that has no table. *)
Lemma nhit_init_wp s p cfg (Q : Z -> promotion_state -> Prop) :
  promotion_policy s = Some p -> pol_type p = ocf_promotion_nhit -> pol_ctx p = None ->
  promotion_conf s !! ocf_promotion_nhit = Some cfg ->
  (forall s', counting s' cfg (nhit_hash_size cachelines) [] -> same_config s s' -> Q 0 s') ->
  (forall r, r <> 0 -> Q r s) ->
  wp (nhit_init z e cachelines) Q s.
Proof.
  intros Hp Ht Hc Hcfg Hok Herr. unfold nhit_init.
  case_bool_decide; [apply wp_ret, Herr; unfold OCF_ERR_NO_FREE_RAM; lia|].
  destruct (env_ctx e); cbn [negb]; [|apply wp_ret, Herr; unfold OCF_ERR_NO_MEM; lia].
  destruct (nhit_hash_init _ _ _ _) as [[r h] m] eqn:E.
  destruct (nhit_hash_init_result _ _ _ _ _ _ _ E) as [[-> ->]|[Hr ->]].
  - wp_step. eapply wp_load; [exact Hp|]. wp_step. apply wp_modify. wp_step. apply wp_modify. apply wp_ret.
    apply Hok; [|done]. split; [|done]. exists (nhit_hash_new (nhit_hash_size cachelines)).
    cbn. rewrite Hp. destruct p as [t c x]. cbn in *. subst t. split; [done|]. split; [|done].
    apply new_remembers, hash_size_range.
  - assert (Em : wp (mret r) Q s) by (by apply wp_ret, Herr). destruct r; done.
Qed.

Lemma nhit_deinit_wp s h (Q : unit -> promotion_state -> Prop) :
  promotion_policy s = Some (Policy ocf_promotion_nhit ocf_promotion_nhit (Some h)) ->
  Q tt (with_policy (with_ctx None) s) -> wp (nhit_deinit e) Q s.
Proof.
  intros Hp HQ. unfold nhit_deinit. wp_step. eapply wp_load; [exact Hp|]. wp_step.
  eapply wp_load; [done|]. wp_step. eapply wp_load; [|by apply wp_modify].
  unfold nhit_hash_deinit. rewrite (proj2 (forallb_forall _ _)); [done|].
  intros i _. by rewrite destroy_ok.
Qed.

Lemma set_policy_wp s type cfg :
  in_step s -> 0 <= type -> promotion_conf s !! ocf_promotion_nhit = Some cfg ->
  wp (ocf_promotion_set_policy z e cachelines type) (fun r s' =>
    in_step s' /\ promotion_conf s' = promotion_conf s /\
    (r = 0 -> promotion_policy_type s' = type) /\
    (r <> 0 -> s' = s \/ promotion_policy_type s' = ocf_promotion_always) /\
    (r = 0 -> promotion_policy_type s <> type -> type = ocf_promotion_nhit ->
      counting s' cfg (nhit_hash_size cachelines) [])) s.
Proof.
  intros Hs Ht Hcfg. unfold ocf_promotion_set_policy.
  case_bool_decide as Hmax; [apply wp_ret; split; [done|]; split; [done|]; split; [|split; [by left|]]; unfold OCF_ERR_INVAL; lia|].
  wp_step. apply wp_gets. case_bool_decide as Heq; [apply wp_ret; by rewrite <- Heq|].
  destruct Hs as [p Hp Hpt Hctx Hst|cfg' n l [(h & Hp & Hr & Hn) Hc] Hst]; rewrite Hst in Heq |- *.
  - assert (type = ocf_promotion_nhit) as -> by (unfold ocf_promotion_max, ocf_promotion_always, ocf_promotion_nhit in *; lia).
    unfold table_deinit. rewrite bool_decide_eq_false_2 by done. cbn [default]. wp_step. apply wp_ret.
    wp_step. unfold set_type at 1. wp_step. apply wp_modify. apply wp_modify.
    unfold table_init. rewrite bool_decide_eq_true_2 by done. cbn [default].
    wp_step. apply (nhit_init_wp _ (with_pol_type ocf_promotion_nhit p) cfg); [cbn; by rewrite Hp|done|done|done| |].
    + intros s' Hs' [E1 E2]. cbn in E1, E2. wp_step. cbn [bool_decide when]. apply wp_ret. apply wp_ret.
      split; [by eapply step_nhit|]. done.
    + intros r Hr. wp_step. rewrite bool_decide_eq_true_2 by done. cbn [when]. unfold set_type.
      wp_step. apply wp_modify. apply wp_modify. apply wp_ret.
      split; [eapply step_always; cbn; [by rewrite Hp|done|exact Hctx|done]|].
      split; [done|]. split; [done|]. split; [by right|done].
  - assert (type = ocf_promotion_always) as -> by (unfold ocf_promotion_max, ocf_promotion_always, ocf_promotion_nhit in *; lia).
    unfold table_deinit. rewrite bool_decide_eq_true_2 by done. cbn [default]. wp_step. eapply nhit_deinit_wp; [exact Hp|].
    wp_step. unfold set_type at 1. wp_step. apply wp_modify. apply wp_modify.
    unfold table_init. rewrite bool_decide_eq_false_2 by done. cbn [default]. wp_step. apply wp_ret. wp_step.
    cbn [bool_decide when]. apply wp_ret. apply wp_ret. split; [|done].
    eapply step_always; cbn; [by rewrite Hp|done..].
Qed.
End Switch.

(** ** The properties *)

(** C36. A core line is promoted from its threshold-th visit on: if the ring has
    a slot for every core line of a sequence, each visit is answered by the number
    of visits of its core line so far. *)
Theorem nhit_promotes_on_threshold s cfg n ks :
  counting s cfg n [] -> Forall valid_line ks ->
  Z.of_nat (length (remove_dups ks)) <= n -> Z.of_nat (length ks) < 2 ^ 31 ->
  OCF_NHIT_MIN_THRESHOLD <= insertion_threshold cfg ->
  wp (serve ks) (fun bs _ =>
    bs = imap (fun i k => bool_decide (insertion_threshold cfg <= occurrences k (take (S i) ks))) ks) s.
Proof.
  intros Hs Hv Hn Hlen Ht. eapply serve_wp; [done..|]. intros s' _.
  apply (visit_lines_counts n _ ks ks []); try done.
  split; [constructor| |]; intros k; [done|]. intros Hk. by apply elem_of_nil in Hk.
Qed.

(** C37. The answer for a request and the purge of its lines refine functions on the
    bounded list of counted core lines; without a policy like nhit every request
    is promoted. *)
Theorem promotion_refines_visits cachelines entries num_free s cfg n l req ks :
  req_lines req ks -> Forall valid_line ks -> counting s cfg n l ->
  wp (ocf_promotion_req_should_promote cachelines entries num_free req) (fun b s' =>
    let spec := promotes cachelines (u32 (entries - num_free)) (ocf_engine_mapped_count req) n cfg ks l in
    b = spec.1 /\ counting s' cfg n spec.2 /\ same_config s s') s /\
  wp (ocf_promotion_req_purge req) (fun _ s' =>
    counting s' cfg n (foldl (fun l k => recount_line k.1 k.2 (fun _ => 0) l) l ks) /\ same_config s s') s.
Proof.
  intros Hreq Hv Hs. destruct (co_policy _ _ _ _ Hs) as (h & Hp & _).
  split; [unfold ocf_promotion_req_should_promote|unfold ocf_promotion_req_purge];
    (wp_step; eapply wp_load; [exact Hp|]; wp_step; apply wp_bug_on; [done|]; cbn [pol_type]).
  - by apply req_should_promote_wp.
  - by apply req_purge_wp.
Qed.

(** C38. Changing the policy keeps the policy, the type in the superblock and the
    table in step, whatever memory and locks the environment refuses: a success
    sets the policy asked for, with an empty table if it is a new nhit policy; an
    error changes nothing or falls back to the policy that promotes everything. *)
Theorem promotion_switch_in_step z e cachelines s cfg type :
  0 < cachelines < 2 ^ 31 -> (forall i, env_destroy e i = 0) ->
  in_step s -> 0 <= type -> promotion_conf s !! ocf_promotion_nhit = Some cfg ->
  wp (ocf_promotion_set_policy z e cachelines type) (fun r s' =>
    in_step s' /\ promotion_conf s' = promotion_conf s /\
    (r = 0 -> promotion_policy_type s' = type) /\
    (r <> 0 -> s' = s \/ promotion_policy_type s' = ocf_promotion_always) /\
    (r = 0 -> promotion_policy_type s <> type -> type = ocf_promotion_nhit ->
      counting s' cfg (nhit_hash_size cachelines) [])) s.
Proof. intros. by apply set_policy_wp. Qed.

(** Creating the table either keeps all four blocks of memory or none of them,
    except when the spinlock cannot be initialised: then the ring is lost. *)
Theorem nhit_hash_init_memory mem sem spin n :
  if reaches_spinlock mem sem n
  then nhit_hash_init mem sem spin n =
    (if bool_decide (spin = 0) then (0, Some (nhit_hash_new n), all_memory) else (spin, None, [MemRingBuffer]))
  else exists result, result <> 0 /\ nhit_hash_init mem sem spin n = (result, None, []).
Proof. apply nhit_hash_init_cases. Qed.

Module PromotionSample.

Definition cfg : nhit_promotion_policy_config := NhitConfig OCF_NHIT_THRESHOLD_DEFAULT OCF_NHIT_TRIGGER_DEFAULT.
(** A cache of four lines: a ring of eight slots. *)
Definition start : promotion_state :=
  PromotionState (Some (Policy ocf_promotion_nhit ocf_promotion_nhit (Some (nhit_hash_new 8)))) ocf_promotion_nhit
    {[ ocf_promotion_nhit := cfg ]}.

Lemma start_counting : counting start cfg 8 [].
Proof. split; [|done]. exists (nhit_hash_new 8). split; [done|]. split; [|done]. by apply new_remembers. Qed.

Definition visited : list line := [(0, 5); (0, 6); (0, 5); (0, 5); (0, 6); (0, 5); (0, 6)].

Example visited_run : fst <$> serve visited start = Some [false; false; false; true; false; true; true].
Proof. vm_compute. reflexivity. Qed.

(** Eight other core lines push a core line out of a ring of eight. *)
Example forgotten_run :
  fst <$> serve ([(0, 5); (0, 5)] ++ ((fun i => (0, 10 + i)) <$> seqZ 0 8) ++ [(0, 5); (0, 5); (0, 5)]) start =
    Some (repeat false 12 ++ [true]).
Proof. vm_compute. reflexivity. Qed.

Lemma nhit_promotes_on_threshold_witness :
  wp (serve visited) (fun bs _ =>
    bs = imap (fun i k => bool_decide (insertion_threshold cfg <= occurrences k (take (S i) visited))) visited) start.
Proof.
  apply (nhit_promotes_on_threshold start cfg 8 visited start_counting).
  - unfold visited, valid_line, CORE_ID_INVALID. repeat (constructor; [cbn; lia|]). constructor.
  - vm_compute. discriminate.
  - vm_compute. reflexivity.
  - vm_compute. discriminate.
Defined.

Definition entry_of (k : line) : map_entry :=
  MapEntry (MapInfo 0 0 k.2 k.1 LOOKUP_MISS) false false false 0 0.
Definition req : ocf_request :=
  Request 0 0 0 0 5 6 2 [entry_of (0, 5); entry_of (0, 6)] (ReqInfo 0 0 0 0 0 0 0 false false false).

Lemma promotion_refines_visits_witness :
  wp (ocf_promotion_req_should_promote 4 4 0 req) (fun b s' =>
    let spec := promotes 4 (u32 (4 - 0)) (ocf_engine_mapped_count req) 8 cfg [(0, 5); (0, 6)] [] in
    b = spec.1 /\ counting s' cfg 8 spec.2 /\ same_config start s') start /\
  wp (ocf_promotion_req_purge req) (fun _ s' =>
    counting s' cfg 8 (foldl (fun l k => recount_line k.1 k.2 (fun _ => 0) l) [] [(0, 5); (0, 6)]) /\ same_config start s') start.
Proof.
  apply (promotion_refines_visits 4 4 0 start cfg 8 [] req [(0, 5); (0, 6)]).
  - split; reflexivity.
  - unfold valid_line, CORE_ID_INVALID. repeat (constructor; [cbn; lia|]). constructor.
  - exact start_counting.
Defined.

Example should_promote_run :
  (b ← ocf_promotion_req_should_promote 4 4 0 req; c ← ocf_promotion_req_should_promote 4 4 0 req;
   d ← ocf_promotion_req_should_promote 4 4 0 req; _ ← ocf_promotion_req_purge req;
   f ← ocf_promotion_req_should_promote 4 4 0 req; mret [b; c; d; f]) start ≫= (fun r => Some (fst r)) =
    Some [false; false; true; false].
Proof. vm_compute. reflexivity. Qed.

Definition sizes : nhit_sizes := NhitSizes 8 64 4 56 32.
(** Memory for all but the hash locks. *)
Definition no_locks : promotion_env :=
  PromotionEnv true (2 ^ 40) true (fun m => bool_decide (m <> MemHashLocks)) (fun _ => true) 0 (fun _ => 0).
Definition always : promotion_state :=
  PromotionState (Some (Policy ocf_promotion_always ocf_promotion_always None)) ocf_promotion_always {[ ocf_promotion_nhit := cfg ]}.

Lemma promotion_switch_in_step_witness :
  wp (ocf_promotion_set_policy sizes no_locks 4 ocf_promotion_nhit) (fun r s' =>
    in_step s' /\ promotion_conf s' = promotion_conf always /\
    (r = 0 -> promotion_policy_type s' = ocf_promotion_nhit) /\
    (r <> 0 -> s' = always \/ promotion_policy_type s' = ocf_promotion_always) /\
    (r = 0 -> promotion_policy_type always <> ocf_promotion_nhit -> ocf_promotion_nhit = ocf_promotion_nhit ->
      counting s' cfg (nhit_hash_size 4) [])) always.
Proof.
  apply (promotion_switch_in_step sizes no_locks 4 always cfg ocf_promotion_nhit).
  - lia.
  - reflexivity.
  - eapply step_always; reflexivity.
  - vm_compute. discriminate.
  - reflexivity.
Defined.

Example switch_run :
  fst <$> ocf_promotion_set_policy sizes no_locks 4 ocf_promotion_nhit always = Some (- OCF_ERR_NO_MEM).
Proof. vm_compute. reflexivity. Qed.
End PromotionSample.
