(* ===== verification/RbTree.v ===== *)
(** * Red-black trees: [src/utils/utils_rbtree.c]

    Nodes live in a store and point to their children and their parent.  Nodes
    with equal keys form a ring with the node that is in the tree.  The comparison
    is the callback of the tree's owner. *)

From S2P Require Import Prelude.
Open Scope Z_scope.

(** [list] is [struct list_head]: the nodes before and after it in its ring. *)
Record ocf_rb_node := RbNode {
  red : bool;
  left : option Z;
  right : option Z;
  parent : option Z;
  list_next : Z;
  list_prev : Z
}.
#[export] Instance rb_node_eq_dec : EqDecision ocf_rb_node.
Proof. solve_decision. Defined.

Record ocf_rb_tree := RbTree { root : option Z; rb_nodes : gmap Z ocf_rb_node }.

Definition RB := Prelude.M ocf_rb_tree.

Definition with_red b n := RbNode b (left n) (right n) (parent n) (list_next n) (list_prev n).
Definition with_left p n := RbNode (red n) p (right n) (parent n) (list_next n) (list_prev n).
Definition with_right p n := RbNode (red n) (left n) p (parent n) (list_next n) (list_prev n).
Definition with_parent p n := RbNode (red n) (left n) (right n) p (list_next n) (list_prev n).
Definition with_next x n := RbNode (red n) (left n) (right n) (parent n) x (list_prev n).
Definition with_prev x n := RbNode (red n) (left n) (right n) (parent n) (list_next n) x.

Definition with_root r s := RbTree r (rb_nodes s).
Definition with_nodes f s := RbTree (root s) (f (rb_nodes s)).

(** The fields of a node; there is none behind a null pointer. *)
Definition node_at (x : Z) : RB ocf_rb_node := load (fun s => rb_nodes s !! x).
Definition deref (p : option Z) : RB Z := load (fun _ => p).
Definition set_node (x : Z) (f : ocf_rb_node -> ocf_rb_node) : RB unit :=
  _ ← node_at x; modify (with_nodes (alter f x)).
(** [if (p) p->... = ...]. *)
Definition set_if (p : option Z) (f : ocf_rb_node -> ocf_rb_node) : RB unit :=
  match p with Some x => set_node x f | None => mret tt end.
(** [p && p->red]. *)
Definition is_red (p : option Z) : RB bool :=
  match p with Some x => n ← node_at x; mret (red n) | None => mret false end.

(** ** Rings *)

Definition INIT_LIST_HEAD (x : Z) : RB unit := _ ← set_node x (with_prev x); set_node x (with_next x).
Definition list_add_tail (it l1 : Z) : RB unit :=
  l ← node_at l1;
  _ ← set_node it (with_prev (list_prev l));
  _ ← set_node it (with_next l1);
  l ← node_at l1;
  _ ← set_node (list_prev l) (with_next it);
  set_node l1 (with_prev it).
Definition list_empty (l1 : Z) : RB bool := l ← node_at l1; mret (bool_decide (list_next l = l1)).
Definition list_del (it : Z) : RB unit :=
  n ← node_at it;
  _ ← set_node (list_next n) (with_prev (list_prev n));
  n ← node_at it;
  set_node (list_prev n) (with_next (list_next n)).

(** ** Rotations *)

Definition ocf_rb_tree_init : ocf_rb_tree := RbTree None ∅.

Definition ocf_rb_tree_update_parent (parent : option Z) (old_node : Z) (new_node : option Z) : RB unit :=
  match parent with
  | None =>
      s ← get; when (bool_decide (root s = Some old_node)) (modify (with_root new_node))
  | Some parent =>
      p ← node_at parent;
      if bool_decide (left p = Some old_node) then set_node parent (with_left new_node)
      else if bool_decide (right p = Some old_node) then set_node parent (with_right new_node)
      else mret tt
  end.

Definition ocf_rb_tree_rotate_left (node : Z) : RB unit :=
  n ← node_at node;
  right_ ← deref (right n);
  r ← node_at right_;
  _ ← set_node node (with_right (left r));
  _ ← set_if (left r) (with_parent (Some node));
  n ← node_at node;
  _ ← set_node right_ (with_parent (parent n));
  _ ← ocf_rb_tree_update_parent (parent n) node (Some right_);
  _ ← set_node right_ (with_left (Some node));
  set_node node (with_parent (Some right_)).

Definition ocf_rb_tree_rotate_right (node : Z) : RB unit :=
  n ← node_at node;
  left_ ← deref (left n);
  l ← node_at left_;
  _ ← set_node node (with_left (right l));
  _ ← set_if (right l) (with_parent (Some node));
  n ← node_at node;
  _ ← set_node left_ (with_parent (parent n));
  _ ← ocf_rb_tree_update_parent (parent n) node (Some left_);
  _ ← set_node left_ (with_right (Some node));
  set_node node (with_parent (Some left_)).

(** ** Insertion *)

Definition swap_red (parent grandparent : Z) : RB unit :=
  p ← node_at parent;
  g ← node_at grandparent;
  _ ← set_node parent (with_red (red g));
  set_node grandparent (with_red (red p)).

Definition recolor (grandparent parent uncle : Z) : RB unit :=
  _ ← set_node grandparent (with_red true);
  _ ← set_node parent (with_red false);
  set_node uncle (with_red false).

(** The loop of [ocf_rb_tree_fix_violation]. *)
Fixpoint fix_violation_loop (fuel : nat) (node : Z) : RB unit :=
  match fuel with
  | O => env_bug
  | S fuel =>
      n ← node_at node;
      match parent n with
      | Some parent_ =>
          p ← node_at parent_;
          if red n && red p then
            match parent p with
            | None => mret tt
            | Some grandparent =>
                g ← node_at grandparent;
                if bool_decide (left g = Some parent_) then
                  uncle_red ← is_red (right g);
                  if (uncle_red : bool) then
                    uncle ← deref (right g);
                    _ ← recolor grandparent parent_ uncle;
                    fix_violation_loop fuel grandparent
                  else if bool_decide (right p = Some node) then
                    _ ← ocf_rb_tree_rotate_left parent_;
                    fix_violation_loop fuel parent_
                  else
                    _ ← ocf_rb_tree_rotate_right grandparent;
                    _ ← swap_red parent_ grandparent;
                    fix_violation_loop fuel parent_
                else
                  uncle_red ← is_red (left g);
                  if (uncle_red : bool) then
                    uncle ← deref (left g);
                    _ ← recolor grandparent parent_ uncle;
                    fix_violation_loop fuel grandparent
                  else if bool_decide (left p = Some node) then
                    _ ← ocf_rb_tree_rotate_right parent_;
                    fix_violation_loop fuel parent_
                  else
                    _ ← ocf_rb_tree_rotate_left grandparent;
                    _ ← swap_red parent_ grandparent;
                    fix_violation_loop fuel parent_
            end
          else mret tt
      | None => mret tt
      end
  end.

Definition ocf_rb_tree_fix_violation (node : Z) : RB unit :=
  s ← get;
  _ ← fix_violation_loop (3 + size (rb_nodes s)) node;
  s ← get;
  top ← deref (root s);
  set_node top (with_red false).

Section Keys.
(** [tree->cmp], between two nodes of the store. *)
Context (cmp : Z -> Z -> Z).

(** The descent of [ocf_rb_tree_insert] from [iter]: the last node and the last
    comparison. *)
Fixpoint insert_descend (fuel : nat) (node iter : Z) : RB (Z * Z) :=
  match fuel with
  | O => env_bug
  | S fuel =>
      i ← node_at iter;
      let c := cmp node iter in
      if bool_decide (c = 0) then mret (iter, c)
      else
        match (if bool_decide (c < 0) then left i else right i) with
        | Some new_iter => insert_descend fuel node new_iter
        | None => mret (iter, c)
        end
  end.

Definition ocf_rb_tree_insert (node : Z) : RB unit :=
  _ ← INIT_LIST_HEAD node;
  _ ← set_node node (with_left None);
  _ ← set_node node (with_right None);
  _ ← set_node node (with_parent None);
  s ← get;
  match root s with
  | None =>
      _ ← set_node node (with_red false);
      _ ← set_node node (with_parent None);
      modify (with_root (Some node))
  | Some top =>
      '(iter, c) ← insert_descend (S (size (rb_nodes s))) node top;
      if bool_decide (c = 0) then list_add_tail node iter
      else
        _ ← set_node node (with_red true);
        _ ← set_node node (with_parent (Some iter));
        _ ← set_node iter (if bool_decide (c < 0) then with_left (Some node) else with_right (Some node));
        ocf_rb_tree_fix_violation node
  end.

End Keys.

(** ** Removal *)

Definition ocf_rb_copy_node (src dst : ocf_rb_node) : ocf_rb_node :=
  RbNode (red src) (left src) (right src) (parent src) (list_next dst) (list_prev dst).

Definition ocf_rb_tree_update_children (node : Z) : RB unit :=
  n ← node_at node;
  _ ← set_if (left n) (with_parent (Some node));
  n ← node_at node;
  set_if (right n) (with_parent (Some node)).

(** The link of [node] to itself, if there is one, becomes a link to [other]. *)
Definition unloop (node other : Z) : RB unit :=
  n ← node_at node;
  if bool_decide (parent n = Some node) then set_node node (with_parent (Some other))
  else if bool_decide (left n = Some node) then set_node node (with_left (Some other))
  else if bool_decide (right n = Some node) then set_node node (with_right (Some other))
  else mret tt.

Definition ocf_rb_tree_swap (node1 node2 : Z) : RB unit :=
  tmp ← node_at node1;
  n2 ← node_at node2;
  _ ← set_node node1 (ocf_rb_copy_node n2);
  _ ← set_node node2 (ocf_rb_copy_node tmp);
  _ ← unloop node1 node2;
  _ ← unloop node2 node1;
  _ ← ocf_rb_tree_update_children node1;
  _ ← ocf_rb_tree_update_children node2;
  n1 ← node_at node1;
  _ ← ocf_rb_tree_update_parent (parent n1) node2 (Some node1);
  n2 ← node_at node2;
  ocf_rb_tree_update_parent (parent n2) node1 (Some node2).

(** The leftmost node below, for the loop of [ocf_rb_tree_successor]. *)
Fixpoint leftmost (fuel : nat) (succ : Z) : RB Z :=
  match fuel with
  | O => env_bug
  | S fuel =>
      n ← node_at succ;
      match left n with Some succ => leftmost fuel succ | None => mret succ end
  end.
Fixpoint rightmost (fuel : nat) (pred : Z) : RB Z :=
  match fuel with
  | O => env_bug
  | S fuel =>
      n ← node_at pred;
      match right n with Some pred => rightmost fuel pred | None => mret pred end
  end.

Definition ocf_rb_tree_successor (node : Z) : RB (option Z) :=
  n ← node_at node;
  match right n with
  | None => mret None
  | Some succ => s ← get; succ ← leftmost (S (size (rb_nodes s))) succ; mret (Some succ)
  end.
Definition ocf_rb_tree_predecessor (node : Z) : RB (option Z) :=
  n ← node_at node;
  match left n with
  | None => mret None
  | Some pred => s ← get; pred ← rightmost (S (size (rb_nodes s))) pred; mret (Some pred)
  end.

Definition ocf_rb_tree_bst_replacement (node : Z) : RB (option Z) :=
  n ← node_at node;
  match left n, right n with
  | Some _, Some _ => ocf_rb_tree_successor node
  | Some l, None => mret (Some l)
  | None, Some r => mret (Some r)
  | None, None => mret None
  end.

Definition ocf_rb_tree_sibling (node : Z) : RB (option Z) :=
  n ← node_at node;
  match parent n with
  | None => mret None
  | Some parent => p ← node_at parent; mret (if bool_decide (left p = Some node) then right p else left p)
  end.

(** The cases of [ocf_rb_tree_fix_double_black] for a black sibling with a red
    child: [node->parent] is [up]. *)
Definition borrow_left (up sibling nephew : Z) : RB unit :=
  u ← node_at up;
  s ← node_at sibling;
  _ ← (if bool_decide (left u = Some sibling) then
         _ ← set_node nephew (with_red (red s));
         _ ← set_node sibling (with_red (red u));
         ocf_rb_tree_rotate_right up
       else
         _ ← set_node nephew (with_red (red u));
         _ ← ocf_rb_tree_rotate_right sibling;
         ocf_rb_tree_rotate_left up);
  mret tt.
Definition borrow_right (up sibling nephew : Z) : RB unit :=
  u ← node_at up;
  s ← node_at sibling;
  _ ← (if bool_decide (left u = Some sibling) then
         _ ← set_node nephew (with_red (red u));
         _ ← ocf_rb_tree_rotate_left sibling;
         ocf_rb_tree_rotate_right up
       else
         _ ← set_node nephew (with_red (red s));
         _ ← set_node sibling (with_red (red u));
         ocf_rb_tree_rotate_left up);
  mret tt.

(** [node->parent->red = false]. *)
Definition blacken_parent (node : Z) : RB unit :=
  n ← node_at node; up ← deref (parent n); set_node up (with_red false).

Fixpoint fix_double_black_loop (fuel : nat) (node : Z) : RB unit :=
  match fuel with
  | O => env_bug
  | S fuel =>
      n ← node_at node;
      match parent n with
      | None => mret tt
      | Some up =>
          sibling ← ocf_rb_tree_sibling node;
          match sibling with
          | None => fix_double_black_loop fuel up
          | Some sibling =>
              s ← node_at sibling;
              if red s then
                _ ← set_node up (with_red true);
                _ ← set_node sibling (with_red false);
                u ← node_at up;
                _ ← (if bool_decide (left u = Some sibling) then ocf_rb_tree_rotate_right up
                     else ocf_rb_tree_rotate_left up);
                fix_double_black_loop fuel node
              else
                left_red ← is_red (left s);
                right_red ← is_red (right s);
                if (left_red : bool) then
                  nephew ← deref (left s);
                  _ ← borrow_left up sibling nephew;
                  blacken_parent node
                else if (right_red : bool) then
                  nephew ← deref (right s);
                  _ ← borrow_right up sibling nephew;
                  blacken_parent node
                else
                  _ ← set_node sibling (with_red true);
                  u ← node_at up;
                  if negb (red u) then fix_double_black_loop fuel up
                  else set_node up (with_red false)
          end
      end
  end.

Definition ocf_rb_tree_fix_double_black (node : Z) : RB unit :=
  s ← get; fix_double_black_loop (2 + 2 * size (rb_nodes s)) node.

(** The loop of [ocf_rb_tree_remove]. *)
Fixpoint remove_loop (fuel : nat) (node : Z) : RB unit :=
  match fuel with
  | O => env_bug
  | S fuel =>
      sibling ← ocf_rb_tree_sibling node;
      rep ← ocf_rb_tree_bst_replacement node;
      match rep with
      | None =>
          s ← get;
          if bool_decide (root s = Some node) then modify (with_root None)
          else
            n ← node_at node;
            _ ← (if negb (red n) then ocf_rb_tree_fix_double_black node else set_if sibling (with_red true));
            n ← node_at node;
            ocf_rb_tree_update_parent (parent n) node None
      | Some rep =>
          r ← node_at rep;
          if bool_decide (left r = None) && bool_decide (right r = None) then
            _ ← ocf_rb_tree_swap node rep;
            n ← node_at node;
            _ ← when (negb (red n)) (ocf_rb_tree_fix_double_black node);
            n ← node_at node;
            ocf_rb_tree_update_parent (parent n) node None
          else
            _ ← ocf_rb_tree_swap node rep;
            remove_loop fuel node
      end
  end.

Definition ocf_rb_tree_remove (node : Z) : RB unit :=
  empty ← list_empty node;
  if negb (empty : bool) then
    n ← node_at node;
    s ← get;
    if bool_decide (parent n = None) && negb (bool_decide (root s = Some node)) then list_del node
    else
      n ← node_at node;
      let next := list_next n in
      _ ← ocf_rb_tree_swap node next;
      list_del node
  else
    s ← get; remove_loop (3 + size (rb_nodes s)) node.

(** ** Lookup *)

(** [cmp]: the comparison of the key that is looked for with that of a node;
    [find]: the callback for a ring of equal nodes. *)
Section Find.
Context (cmp : Z -> Z).

Fixpoint find_loop (fuel : nat) (iter : option Z) : RB (option Z) :=
  match iter, fuel with
  | None, _ => mret None
  | _, O => env_bug
  | Some iter, S fuel =>
      i ← node_at iter;
      if bool_decide (cmp iter = 0) then mret (Some iter)
      else find_loop fuel (if bool_decide (cmp iter < 0) then left i else right i)
  end.

Definition ocf_rb_tree_list_find_first (node_list : Z) : RB (option Z) := mret (Some node_list).

Definition ocf_rb_tree_find (find : Z -> RB (option Z)) : RB (option Z) :=
  s ← get;
  iter ← find_loop (S (size (rb_nodes s))) (root s);
  match iter with
  | None => mret None
  | Some iter => empty ← list_empty iter; if (empty : bool) then mret (Some iter) else find iter
  end.

(** The first loop of [ocf_rb_tree_can_update]: is [node] on the path? *)
Fixpoint path_to (fuel : nat) (node : Z) (iter : option Z) : RB bool :=
  match iter, fuel with
  | None, _ => mret false
  | _, O => env_bug
  | Some iter, S fuel =>
      if bool_decide (iter = node) then mret true
      else
        i ← node_at iter;
        path_to fuel node (if bool_decide (cmp iter < 0) then left i else right i)
  end.

Definition ocf_rb_tree_can_update (node : Z) : RB bool :=
  empty ← list_empty node;
  if negb (empty : bool) then mret false
  else
    s ← get;
    found ← path_to (S (size (rb_nodes s))) node (root s);
    if negb (found : bool) then mret false
    else if bool_decide (cmp node < 0) then
      iter ← ocf_rb_tree_predecessor node;
      match iter with None => mret true | Some iter => mret (bool_decide (cmp iter > 0)) end
    else if bool_decide (cmp node > 0) then
      iter ← ocf_rb_tree_successor node;
      match iter with None => mret true | Some iter => mret (bool_decide (cmp iter < 0)) end
    else mret true.
End Find.
