(* ===== verification/RbShape.v ===== *)
(** * The trees that the store of nodes holds

    [holds s t]: the nodes reachable from the root form the tree [t], with their
    colours and parents.  [plug k t] is [t] in the context [k], so that one
    tree can be looked at from any of its nodes. *)

From S2P Require Import Prelude RbTree.
Open Scope Z_scope.

(** ** Trees and contexts *)

Inductive tree := E | T (c : bool) (l : tree) (x : Z) (r : tree).

(** The hole is the left or the right child; innermost frame first. *)
Inductive frame := FL (c : bool) (x : Z) (r : tree) | FR (c : bool) (l : tree) (x : Z).
Definition ctx : Type := list frame.

Definition fill (f : frame) (t : tree) : tree :=
  match f with FL c x r => T c t x r | FR c l x => T c l x t end.
Fixpoint plug (k : ctx) (t : tree) : tree :=
  match k with [] => t | f :: k => plug k (fill f t) end.

Definition ptr (t : tree) : option Z := match t with E => None | T _ _ x _ => Some x end.
Definition frame_node (f : frame) : Z := match f with FL _ x _ | FR _ _ x => x end.
Definition frame_red (f : frame) : bool := match f with FL c _ _ | FR c _ _ => c end.
(** The node above the hole. *)
Definition above (k : ctx) : option Z := match k with [] => None | f :: _ => Some (frame_node f) end.

Fixpoint inorder (t : tree) : list Z :=
  match t with E => [] | T _ l x r => inorder l ++ x :: inorder r end.
Fixpoint before (k : ctx) : list Z :=
  match k with [] => [] | FL _ _ _ :: k => before k | FR _ l x :: k => before k ++ inorder l ++ [x] end.
Fixpoint after (k : ctx) : list Z :=
  match k with [] => [] | FL _ x r :: k => x :: inorder r ++ after k | FR _ _ _ :: k => after k end.

Lemma inorder_plug k t : inorder (plug k t) = before k ++ inorder t ++ after k.
Proof.
  revert t. induction k as [|f k IH]; intros t; cbn [plug before after]; [by rewrite app_nil_r|].
  rewrite IH. destruct f; cbn; by rewrite <- ?app_assoc.
Qed.

(** ** The store *)

Record shape := Shape { sh_red : bool; sh_left : option Z; sh_right : option Z; sh_parent : option Z }.
Definition shape_of (n : ocf_rb_node) : shape := Shape (red n) (left n) (right n) (parent n).
Definition shape_at (s : ocf_rb_tree) (x : Z) : option shape := shape_of <$> rb_nodes s !! x.

Fixpoint rep (s : ocf_rb_tree) (p : option Z) (t : tree) : Prop :=
  match t with
  | E => True
  | T c l x r => shape_at s x = Some (Shape c (ptr l) (ptr r) p) /\ rep s (Some x) l /\ rep s (Some x) r
  end.

Definition rep_frame (s : ocf_rb_tree) (h p : option Z) (f : frame) : Prop :=
  match f with
  | FL c x r => shape_at s x = Some (Shape c h (ptr r) p) /\ rep s (Some x) r
  | FR c l x => shape_at s x = Some (Shape c (ptr l) h p) /\ rep s (Some x) l
  end.
Fixpoint rep_ctx (s : ocf_rb_tree) (h : option Z) (k : ctx) : Prop :=
  match k with
  | [] => True
  | f :: k => rep_frame s h (above k) f /\ rep_ctx s (Some (frame_node f)) k
  end.

Lemma ptr_fill f t : ptr (fill f t) = Some (frame_node f).
Proof. by destruct f. Qed.

Lemma rep_plug s k t : rep s None (plug k t) <-> rep s (above k) t /\ rep_ctx s (ptr t) k.
Proof.
  revert t. induction k as [|f k IH]; intros t; cbn [plug rep_ctx above]; [tauto|].
  rewrite IH, ptr_fill. destruct f; cbn; tauto.
Qed.

(** The nodes of a context. *)
Definition ctx_nodes (k : ctx) : list Z := before k ++ after k.
Arguments ctx_nodes : simpl never.

Lemma nodup_plug k t : NoDup (inorder (plug k t)) <->
  NoDup (inorder t) /\ NoDup (ctx_nodes k) /\ (forall x, x ∈ inorder t -> x ∉ ctx_nodes k).
Proof.
  rewrite inorder_plug, (Permutation_app_comm (inorder t)), app_assoc. fold (ctx_nodes k).
  rewrite (Permutation_app_comm (ctx_nodes k)), NoDup_app. naive_solver.
Qed.

Lemma frame_in_ctx f k : frame_node f ∈ ctx_nodes (f :: k).
Proof. unfold ctx_nodes. destruct f; cbn; set_solver. Qed.

(** The sibling of the hole. *)
Definition beside (f : frame) : tree := match f with FL _ _ r => r | FR _ l _ => l end.

Lemma ctx_nodes_cons f k : ctx_nodes (f :: k) ≡ₚ frame_node f :: inorder (beside f) ++ ctx_nodes k.
Proof. unfold ctx_nodes. destruct f; cbn [before after frame_node beside]; solve_Permutation. Qed.

Lemma elem_of_ctx_cons x f k :
  x ∈ ctx_nodes (f :: k) <-> x = frame_node f \/ x ∈ inorder (beside f) \/ x ∈ ctx_nodes k.
Proof. unfold ctx_nodes. destruct f; cbn; set_solver. Qed.

Lemma rep_ext s s' p t :
  (forall x, x ∈ inorder t -> shape_at s' x = shape_at s x) -> rep s p t -> rep s' p t.
Proof.
  revert p. induction t as [|c l IHl x r IHr]; intros p Hf; cbn; [done|]. intros (Hx & Hl & Hr).
  cbn in Hf. rewrite Hf by set_solver. split; [done|]. split; [apply IHl|apply IHr]; try done; set_solver.
Qed.

Lemma rep_ctx_ext s s' h k :
  (forall x, x ∈ ctx_nodes k -> shape_at s' x = shape_at s x) -> rep_ctx s h k -> rep_ctx s' h k.
Proof.
  revert h. induction k as [|f k IH]; intros h Hf; cbn; [done|]. intros [Hx Hk].
  assert (Hn : shape_at s' (frame_node f) = shape_at s (frame_node f)) by (apply Hf, elem_of_ctx_cons; auto).
  assert (Hb : forall y, y ∈ inorder (beside f) -> shape_at s' y = shape_at s y) by (intros; apply Hf, elem_of_ctx_cons; auto).
  split; [|apply IH; [|done]; intros; apply Hf, elem_of_ctx_cons; auto].
  clear -Hn Hb Hx. destruct f; cbn in *; rewrite Hn; (split; [apply Hx|by eapply rep_ext; [|apply Hx]]).
Qed.

(** A segment of a context: what is above it is [p]. *)
Definition above_or (p : option Z) (k : ctx) : option Z := match k with [] => p | f :: _ => Some (frame_node f) end.
Fixpoint rep_seg (s : ocf_rb_tree) (p h : option Z) (k : ctx) : Prop :=
  match k with
  | [] => True
  | f :: k => rep_frame s h (above_or p k) f /\ rep_seg s p (Some (frame_node f)) k
  end.

Lemma rep_plug_seg s p k t : rep s p (plug k t) <-> rep s (above_or p k) t /\ rep_seg s p (ptr t) k.
Proof.
  revert t. induction k as [|f k IH]; intros t; cbn [plug rep_seg above_or]; [tauto|].
  rewrite IH, ptr_fill. destruct f; cbn; tauto.
Qed.

Lemma rep_seg_ext s s' p h k :
  (forall x, x ∈ ctx_nodes k -> shape_at s' x = shape_at s x) -> rep_seg s p h k -> rep_seg s' p h k.
Proof.
  revert h. induction k as [|f k IH]; intros h Hf; cbn; [done|]. intros [Hx Hk].
  assert (Hn : shape_at s' (frame_node f) = shape_at s (frame_node f)) by (apply Hf, elem_of_ctx_cons; auto).
  assert (Hb : forall y, y ∈ inorder (beside f) -> shape_at s' y = shape_at s y) by (intros; apply Hf, elem_of_ctx_cons; auto).
  split; [|apply IH; [|done]; intros; apply Hf, elem_of_ctx_cons; auto].
  clear -Hn Hb Hx. destruct f; cbn in *; rewrite Hn; (split; [apply Hx|by eapply rep_ext; [|apply Hx]]).
Qed.

(** ** Parts of the store

    A small separation logic: [owns lk s ps] says that the parts [ps] describe the
    nodes they name, which are all different, and that the rings are [lk].  An
    operation changes the part it works on. *)

Definition links_of (n : ocf_rb_node) : Z * Z := (list_next n, list_prev n).
Definition links (s : ocf_rb_tree) : gmap Z (Z * Z) := links_of <$> rb_nodes s.

Inductive part :=
| PNode (x : Z) (sh : shape)
| PTree (p : option Z) (t : tree)
| PCtx (h : option Z) (k : ctx)
| PSeg (p h : option Z) (k : ctx).

Definition part_nodes (P : part) : list Z :=
  match P with PNode x _ => [x] | PTree _ t => inorder t | PCtx _ k | PSeg _ _ k => ctx_nodes k end.

(** The root of what is plugged into [k], with [h] in the hole. *)
Fixpoint top (k : ctx) (h : option Z) : option Z :=
  match k with [] => h | f :: k => top k (Some (frame_node f)) end.

Definition sat (s : ocf_rb_tree) (P : part) : Prop :=
  match P with
  | PNode x sh => shape_at s x = Some sh
  | PTree p t => rep s p t
  | PCtx h k => rep_ctx s h k /\ root s = top k h
  | PSeg p h k => rep_seg s p h k
  end.

Record owns (lk : gmap Z (Z * Z)) (s : ocf_rb_tree) (ps : list part) : Prop := {
  ow_links : links s = lk;
  ow_sat : Forall (sat s) ps;
  ow_nodup : NoDup (ps ≫= part_nodes)
}.

Lemma top_plug k t : ptr (plug k t) = top k (ptr t).
Proof. revert t. induction k as [|f k IH]; intros t; [done|]. cbn. by rewrite IH, ptr_fill. Qed.

#[export] Instance owns_perm lk s : Proper ((≡ₚ) ==> iff) (owns lk s).
Proof.
  enough (H : forall ps ps', ps ≡ₚ ps' -> owns lk s ps -> owns lk s ps') by (intros ps ps' E; split; apply H; [done|by symmetry]).
  intros ps ps' E [H1 H2 H3]. split; [done|by rewrite <- E|]. by rewrite <- E.
Qed.

(** A tree beside other parts. *)
Record holds (ps : list part) (s : ocf_rb_tree) (t : tree) : Prop := {
  ho_root : root s = ptr t;
  ho_rep : rep s None t;
  ho_rest : Forall (sat s) ps;
  ho_nodup : NoDup (inorder t ++ (ps ≫= part_nodes))
}.
Class NoCtx (ps : list part) : Prop := no_ctx h k : PCtx h k ∉ ps.

Lemma holds_nodup ps s t : holds ps s t -> NoDup (inorder t).
Proof. by intros [_ _ _ [H _]%NoDup_app]. Qed.

Lemma owns_tree ps s k t : holds ps s (plug k t) <-> owns (links s) s (PCtx (ptr t) k :: PTree (above k) t :: ps).
Proof.
  assert (E : inorder (plug k t) ++ (ps ≫= part_nodes) ≡ₚ ctx_nodes k ++ inorder t ++ (ps ≫= part_nodes)).
  { rewrite inorder_plug. unfold ctx_nodes. solve_Permutation. }
  split.
  - intros [H1 [H2 H3]%rep_plug H4 H5]. split; [done| |by rewrite E in H5].
    constructor; [split; [done|by rewrite H1, top_plug]|]. by constructor.
  - intros [_ [[H1 H2] [H3 H4]%Forall_cons]%Forall_cons H5]. split.
    + by rewrite H2, top_plug.
    + by apply rep_plug.
    + done.
    + by rewrite E.
Qed.

(** Opening a node. *)
Lemma owns_open lk s p c l x r ps :
  owns lk s (PTree p (T c l x r) :: ps) <->
  owns lk s (PNode x (Shape c (ptr l) (ptr r) p) :: PTree (Some x) l :: PTree (Some x) r :: ps).
Proof.
  split; intros [H1 H2 H3].
  - apply Forall_cons in H2 as [(Hx & Hl & Hr) H2]. split; [done|by repeat constructor|].
    cbn in H3 |- *. rewrite <- app_assoc in H3. cbn in H3. by rewrite <- Permutation_middle in H3.
  - apply Forall_cons in H2 as [Hx [Hl [Hr H2]%Forall_cons]%Forall_cons]. split; [done|by repeat constructor|].
    cbn in H3 |- *. rewrite <- app_assoc. cbn. by rewrite <- Permutation_middle.
Qed.

(** The shape of the node of a frame. *)
Definition frame_shape (f : frame) (h p : option Z) : shape :=
  match f with FL c _ r => Shape c h (ptr r) p | FR c l _ => Shape c (ptr l) h p end.

(** Opening a segment: the subtree in its hole, its innermost or its outermost node. *)
Lemma owns_seg lk s p k t ps :
  owns lk s (PTree p (plug k t) :: ps) <-> owns lk s (PSeg p (ptr t) k :: PTree (above_or p k) t :: ps).
Proof.
  assert (E : inorder (plug k t) ++ (ps ≫= part_nodes) ≡ₚ ctx_nodes k ++ inorder t ++ (ps ≫= part_nodes)).
  { rewrite inorder_plug. unfold ctx_nodes. solve_Permutation. }
  split; intros [H1 H2 H3].
  - apply Forall_cons in H2 as [[Ht Hk]%rep_plug_seg H2]. split; [done|by repeat constructor|]. cbn in *. by rewrite <- E.
  - apply Forall_cons in H2 as [Hk [Ht H2]%Forall_cons]. split; [done| |cbn in *; by rewrite E].
    constructor; [by apply rep_plug_seg|done].
Qed.

Lemma owns_seg_inner lk s p h f k ps :
  owns lk s (PSeg p h (f :: k) :: ps) <->
  owns lk s (PNode (frame_node f) (frame_shape f h (above_or p k)) :: PTree (Some (frame_node f)) (beside f) ::
    PSeg p (Some (frame_node f)) k :: ps).
Proof.
  assert (E : ctx_nodes (f :: k) ++ (ps ≫= part_nodes) ≡ₚ frame_node f :: inorder (beside f) ++ ctx_nodes k ++ (ps ≫= part_nodes)).
  { rewrite ctx_nodes_cons. solve_Permutation. }
  split; intros [H1 H2 H3].
  - apply Forall_cons in H2 as [[Hf Hk] H2]. split; [done| |cbn in *; by rewrite <- E].
    destruct f; destruct Hf; by repeat constructor.
  - apply Forall_cons in H2 as [Hn [Hb [Hk H2]%Forall_cons]%Forall_cons]. split; [done| |cbn in *; by rewrite E].
    constructor; [|done]. split; [|done]. by destruct f.
Qed.

Lemma rep_seg_app s p h k1 k2 :
  rep_seg s p h (k1 ++ k2) <-> rep_seg s (above_or p k2) h k1 /\ rep_seg s p (top k1 h) k2.
Proof.
  revert h. induction k1 as [|f k1 IH]; intros h; cbn [app rep_seg top]; [tauto|]. rewrite IH.
  assert (E : above_or p (k1 ++ k2) = above_or (above_or p k2) k1) by (by destruct k1). rewrite E. tauto.
Qed.

Lemma ctx_nodes_app k1 k2 : ctx_nodes (k1 ++ k2) ≡ₚ ctx_nodes k1 ++ ctx_nodes k2.
Proof.
  induction k1 as [|f k1 IH]; [done|]. cbn [app]. rewrite !ctx_nodes_cons, IH. solve_Permutation.
Qed.

Lemma owns_seg_outer lk s p h k f ps :
  owns lk s (PSeg p h (k ++ [f]) :: ps) <->
  owns lk s (PSeg (Some (frame_node f)) h k :: PNode (frame_node f) (frame_shape f (top k h) p) ::
    PTree (Some (frame_node f)) (beside f) :: ps).
Proof.
  assert (E : ctx_nodes (k ++ [f]) ++ (ps ≫= part_nodes) ≡ₚ ctx_nodes k ++ frame_node f :: inorder (beside f) ++ (ps ≫= part_nodes)).
  { rewrite ctx_nodes_app, (ctx_nodes_cons f []). change (ctx_nodes []) with (@nil Z). solve_Permutation. }
  split; intros [H1 H2 H3].
  - apply Forall_cons in H2 as [Hk H2]. cbn in Hk. apply rep_seg_app in Hk as [Hk [Hf _]].
    split; [done| |cbn in *; by rewrite <- E]. destruct f; destruct Hf; by repeat constructor.
  - apply Forall_cons in H2 as [Hk [Hn [Hb H2]%Forall_cons]%Forall_cons]. split; [done| |cbn in *; by rewrite E].
    constructor; [|done]. cbn. apply rep_seg_app. split; [done|]. split; [|done]. by destruct f.
Qed.

(** *** Operations *)

(** The nodes of the other parts do not change. *)
Lemma owns_change lk s s' P P' ps :
  owns lk s (P :: ps) -> links s' = links s -> sat s' P' -> part_nodes P' = part_nodes P ->
  (forall y, y ∉ part_nodes P -> shape_at s' y = shape_at s y) ->
  (root s' = root s \/ forall h k, PCtx h k ∉ ps) ->
  owns lk s' (P' :: ps).
Proof.
  intros [H1 [HP H2]%Forall_cons H3] Hl HP' En Hsame Hroot. cbn in H3.
  apply NoDup_app in H3 as (H31 & H32 & H33).
  assert (Hout : forall y P2, P2 ∈ ps -> y ∈ part_nodes P2 -> shape_at s' y = shape_at s y).
  { intros y P2 Hin Hy. apply Hsame. intros Hy'. apply (H32 y Hy'). apply list_elem_of_bind. by exists P2. }
  split; [by rewrite Hl| |cbn; rewrite En; apply NoDup_app; done].
  constructor; [done|]. apply Forall_forall. intros P2 Hin. rewrite Forall_forall in H2. specialize (H2 P2 Hin).
  assert (Hx : forall y, y ∈ part_nodes P2 -> shape_at s' y = shape_at s y) by (intros y; by apply Hout).
  destruct P2 as [x sh|p t|h k|p h k]; cbn in *.
  - rewrite Hx; [done|set_solver].
  - by eapply rep_ext.
  - destruct Hroot as [->|Hno]; [|by destruct (Hno h k)]. destruct H2. split; [by eapply rep_ctx_ext|done].
  - by eapply rep_seg_ext.
Qed.

(** A setter of the fields of the tree, and what it does to the shape. *)
Class Setter (f : ocf_rb_node -> ocf_rb_node) (g : shape -> shape) : Prop := {
  setter_shape n : shape_of (f n) = g (shape_of n);
  setter_links n : links_of (f n) = links_of n
}.
#[export] Instance setter_red b : Setter (with_red b) (fun sh => Shape b (sh_left sh) (sh_right sh) (sh_parent sh)).
Proof. by split. Qed.
#[export] Instance setter_left p : Setter (with_left p) (fun sh => Shape (sh_red sh) p (sh_right sh) (sh_parent sh)).
Proof. by split. Qed.
#[export] Instance setter_right p : Setter (with_right p) (fun sh => Shape (sh_red sh) (sh_left sh) p (sh_parent sh)).
Proof. by split. Qed.
#[export] Instance setter_parent p : Setter (with_parent p) (fun sh => Shape (sh_red sh) (sh_left sh) (sh_right sh) p).
Proof. by split. Qed.

Section Steps.
Context (lk : gmap Z (Z * Z)).

Lemma links_alter s f g x : Setter f g -> links (with_nodes (alter f x) s) = links s.
Proof.
  intros Hf. unfold links. cbn. apply map_eq. intros y. rewrite !lookup_fmap.
  destruct (decide (x = y)) as [->|Hne]; [|by rewrite lookup_alter_ne].
  rewrite lookup_alter_eq. destruct (rb_nodes s !! y) as [n|]; [|done]. cbn. by rewrite setter_links.
Qed.

Lemma shape_alter s f g x y : Setter f g ->
  shape_at (with_nodes (alter f x) s) y = if decide (x = y) then g <$> shape_at s y else shape_at s y.
Proof.
  intros Hf. unfold shape_at. cbn. case_decide as E; [subst|by rewrite lookup_alter_ne].
  rewrite lookup_alter_eq. destruct (rb_nodes s !! y) as [n|]; [|done]. cbn. by rewrite setter_shape.
Qed.

Lemma wp_node_at s x sh (Q : ocf_rb_node -> ocf_rb_tree -> Prop) :
  shape_at s x = Some sh -> (forall n, shape_of n = sh -> Q n s) -> wp (node_at x) Q s.
Proof.
  unfold shape_at. destruct (rb_nodes s !! x) as [n|] eqn:E; [|done]. intros [= Hn] HQ.
  eapply wp_load; [exact E|]. by apply HQ.
Qed.

Lemma wp_read s x sh ps (Q : ocf_rb_node -> ocf_rb_tree -> Prop) :
  owns lk s (PNode x sh :: ps) -> (forall n, shape_of n = sh -> Q n s) -> wp (node_at x) Q s.
Proof. intros [_ [Hx _]%Forall_cons _]. by apply wp_node_at. Qed.

Lemma wp_set s x f g sh ps (Q : unit -> ocf_rb_tree -> Prop) :
  Setter f g -> owns lk s (PNode x sh :: ps) ->
  (forall s', owns lk s' (PNode x (g sh) :: ps) -> Q tt s') -> wp (set_node x f) Q s.
Proof.
  intros Hf Ho HQ. assert (Hx : shape_at s x = Some sh) by (by destruct Ho as [_ [? _]%Forall_cons _]).
  unfold set_node. wp_step. eapply wp_node_at; [exact Hx|]. intros n _. apply wp_modify. apply HQ.
  eapply owns_change; [exact Ho|by eapply links_alter| |done| |by left].
  - cbn. rewrite (shape_alter _ _ g) by done. by rewrite decide_True, Hx by done.
  - intros y Hy. rewrite (shape_alter _ _ g) by done. rewrite decide_False; [done|]. cbn in Hy. set_solver.
Qed.

(** A subtree gets another parent. *)
Lemma wp_reparent s p q t ps (Q : unit -> ocf_rb_tree -> Prop) :
  owns lk s (PTree p t :: ps) -> (forall s', owns lk s' (PTree q t :: ps) -> Q tt s') ->
  wp (set_if (ptr t) (with_parent q)) Q s.
Proof.
  intros Ho HQ. destruct t as [|c l x r]; cbn [ptr set_if].
  - apply wp_ret. apply HQ. eapply owns_change; [exact Ho|done|done|done|done|by left].
  - apply owns_open in Ho. eapply wp_set; [apply setter_parent|exact Ho|]. intros s' Ho'. apply HQ.
    by apply owns_open.
Qed.

(** The link from above to a subtree changes. *)
Lemma wp_update_parent s x h' k ps (Q : unit -> ocf_rb_tree -> Prop) :
  owns lk s (PCtx (Some x) k :: ps) -> x ∉ ctx_nodes k -> (forall h k, PCtx h k ∉ ps) ->
  (forall s', owns lk s' (PCtx h' k :: ps) -> Q tt s') ->
  wp (ocf_rb_tree_update_parent (above k) x h') Q s.
Proof.
  intros Ho Hx Hno HQ. assert (Hs : sat s (PCtx (Some x) k)) by (by destruct Ho as [_ [? _]%Forall_cons _]).
  destruct k as [|f k]; cbn [above ocf_rb_tree_update_parent].
  - wp_step. apply wp_get. destruct Hs as [_ Hroot]. cbn in Hroot. rewrite bool_decide_eq_true_2 by done.
    apply wp_modify. apply HQ. eapply owns_change; [exact Ho|done|by split|done|done|by right].
  - assert (Hnk : frame_node f ∉ inorder (beside f) /\ frame_node f ∉ ctx_nodes k).
    { destruct Ho as [_ _ Hnd]. cbn in Hnd. apply NoDup_app in Hnd as [Hnd _].
      rewrite ctx_nodes_cons in Hnd. apply NoDup_cons in Hnd as [Hnd _]. rewrite elem_of_app in Hnd. tauto. }
    assert (Hxb : x ∉ inorder (beside f)) by (intros H; apply Hx, elem_of_ctx_cons; auto).
    destruct Hs as [[Hf Hk] Hroot].
    assert (Hgo : forall g st, Setter st g -> rep_frame (with_nodes (alter st (frame_node f)) s) h' (above k) f ->
      wp (set_node (frame_node f) st) Q s).
    { intros g st Hst Hf'.
      assert (Hin : exists sh, shape_at s (frame_node f) = Some sh) by (destruct f; cbn in Hf; destruct Hf; eauto).
      destruct Hin as [sh Hsh]. unfold set_node. wp_step. eapply wp_node_at; [exact Hsh|]. intros n _.
      apply wp_modify. apply HQ. eapply owns_change; [exact Ho|by eapply links_alter| |done| |by left].
      - split; [|done]. split; [exact Hf'|]. eapply rep_ctx_ext; [|exact Hk].
        intros y Hy. rewrite (shape_alter _ _ g) by done. rewrite decide_False; [done|]. intros <-. by apply Hnk.
      - intros y Hy. rewrite (shape_alter _ _ g) by done. rewrite decide_False; [done|]. intros <-. apply Hy. cbn [part_nodes].
        apply elem_of_ctx_cons. by left. }
    destruct f as [c y r|c l y]; cbn [frame_node rep_frame beside above] in *; destruct Hf as [Hsh Hb].
    + wp_step. eapply wp_node_at; [exact Hsh|]. intros n [= <- El _ _].
      rewrite bool_decide_eq_true_2 by done. eapply Hgo; [apply setter_left|]. split.
      * rewrite (shape_alter _ _ _ _ _ (setter_left _)), decide_True, Hsh by done. done.
      * eapply rep_ext; [|exact Hb]. intros z Hz. rewrite (shape_alter _ _ _ _ _ (setter_left _)), decide_False; [done|].
        intros <-. by destruct Hnk.
    + wp_step. eapply wp_node_at; [exact Hsh|]. intros n [= <- El Er _].
      rewrite bool_decide_eq_false_2, bool_decide_eq_true_2; [|done|].
      2: { rewrite El. destruct l; cbn; [done|]. intros [= ->]. apply Hxb. cbn. set_solver. }
      eapply Hgo; [apply setter_right|]. split.
      * rewrite (shape_alter _ _ _ _ _ (setter_right _)), decide_True, Hsh by done. done.
      * eapply rep_ext; [|exact Hb]. intros z Hz. rewrite (shape_alter _ _ _ _ _ (setter_right _)), decide_False; [done|].
        intros <-. by destruct Hnk.
Qed.
End Steps.

(** *** Rotations *)

Lemma owns_fresh lk s h k p c l x r ps :
  owns lk s (PCtx h k :: PTree p (T c l x r) :: ps) -> x ∉ ctx_nodes k.
Proof. intros [_ _ Hnd] Hx. apply NoDup_app in Hnd as (_ & Hd & _). apply (Hd x Hx). cbn. set_solver. Qed.

(** Bring a part to the front. *)
Lemma owns_pick lk s ps i P : ps !! i = Some P -> owns lk s ps <-> owns lk s (P :: delete i ps).
Proof. intros Hi. by rewrite <- (delete_Permutation ps i P). Qed.

Ltac pick i H := eapply (owns_pick _ _ _ i) in H; [|reflexivity]; cbn [delete list_delete] in H.

Ltac goal_pick i := eapply (owns_pick _ _ _ i); [reflexivity|]; cbn [delete list_delete].

Lemma rotate_left_wp ps lk s k c a x d b y e (Q : unit -> ocf_rb_tree -> Prop) : NoCtx ps ->
  owns lk s (PCtx (Some x) k :: PTree (above k) (T c a x (T d b y e)) :: ps) ->
  (forall s', owns lk s' (PCtx (Some y) k :: PTree (above k) (T d (T c a x b) y e) :: ps) -> Q tt s') ->
  wp (ocf_rb_tree_rotate_left x) Q s.
Proof.
  intros Hps Ho HQ. pose proof (owns_fresh _ _ _ _ _ _ _ _ _ _ Ho) as Hfx.
  pick 1%nat Ho. apply owns_open in Ho. pick 2%nat Ho. apply owns_open in Ho. cbn [ptr] in Ho.
  (* y, b, e, x, a, k *)
  unfold ocf_rb_tree_rotate_left. wp_step. pick 3%nat Ho. eapply wp_read; [exact Ho|]. intros n [= En1 En2 En3 En4].
  wp_step. eapply wp_load; [exact En3|]. wp_step. pick 1%nat Ho. eapply wp_read; [exact Ho|]. intros m [= Em1 Em2 Em3 Em4].
  rewrite Em2. wp_step. pick 1%nat Ho. eapply wp_set; [apply setter_right|exact Ho|]. clear s Ho. intros s Ho. cbn in Ho.
  wp_step. pick 2%nat Ho. eapply wp_reparent; [exact Ho|]. clear s Ho. intros s Ho.
  wp_step. pick 1%nat Ho. eapply wp_read; [exact Ho|]. clear n En1 En2 En3 En4. intros n [= En1 En2 En3 En4]. rewrite En4.
  wp_step. pick 2%nat Ho. eapply wp_set; [apply setter_parent|exact Ho|]. clear s Ho. intros s Ho. cbn in Ho.
  wp_step. pick 5%nat Ho. eapply (wp_update_parent _ _ _ (Some y)); [exact Ho|exact Hfx| |].
  { intros h' k'. rewrite !elem_of_cons. specialize (Hps h' k'). naive_solver. }
  clear s Ho. intros s Ho.
  wp_step. pick 1%nat Ho. eapply wp_set; [apply setter_left|exact Ho|]. clear s Ho. intros s Ho. cbn in Ho.
  pick 2%nat Ho. eapply wp_set; [apply setter_parent|exact Ho|]. clear s Ho. intros s Ho. cbn in Ho.
  apply HQ. goal_pick 1%nat. apply owns_open. goal_pick 1%nat. apply owns_open. cbn [ptr].
  eapply owns_perm; [|exact Ho]. solve_Permutation.
Qed.

Lemma rotate_right_wp ps lk s k c d a x b y e (Q : unit -> ocf_rb_tree -> Prop) : NoCtx ps ->
  owns lk s (PCtx (Some y) k :: PTree (above k) (T d (T c a x b) y e) :: ps) ->
  (forall s', owns lk s' (PCtx (Some x) k :: PTree (above k) (T c a x (T d b y e)) :: ps) -> Q tt s') ->
  wp (ocf_rb_tree_rotate_right y) Q s.
Proof.
  intros Hps Ho HQ. pose proof (owns_fresh _ _ _ _ _ _ _ _ _ _ Ho) as Hfx.
  pick 1%nat Ho. apply owns_open in Ho. pick 1%nat Ho. apply owns_open in Ho. cbn [ptr] in Ho.
  (* x, a, b, y, e, k *)
  unfold ocf_rb_tree_rotate_right. wp_step. pick 3%nat Ho. eapply wp_read; [exact Ho|]. intros n [= En1 En2 En3 En4].
  wp_step. eapply wp_load; [exact En2|]. wp_step. pick 1%nat Ho. eapply wp_read; [exact Ho|]. intros m [= Em1 Em2 Em3 Em4].
  rewrite Em3. wp_step. pick 1%nat Ho. eapply wp_set; [apply setter_left|exact Ho|]. clear s Ho. intros s Ho. cbn in Ho.
  wp_step. pick 3%nat Ho. eapply wp_reparent; [exact Ho|]. clear s Ho. intros s Ho.
  wp_step. pick 1%nat Ho. eapply wp_read; [exact Ho|]. clear n En1 En2 En3 En4. intros n [= En1 En2 En3 En4]. rewrite En4.
  wp_step. pick 2%nat Ho. eapply wp_set; [apply setter_parent|exact Ho|]. clear s Ho. intros s Ho. cbn in Ho.
  wp_step. pick 5%nat Ho. eapply (wp_update_parent _ _ _ (Some x)); [exact Ho|exact Hfx| |].
  { intros h' k'. rewrite !elem_of_cons. specialize (Hps h' k'). naive_solver. }
  clear s Ho. intros s Ho.
  wp_step. pick 1%nat Ho. eapply wp_set; [apply setter_right|exact Ho|]. clear s Ho. intros s Ho. cbn in Ho.
  pick 2%nat Ho. eapply wp_set; [apply setter_parent|exact Ho|]. clear s Ho. intros s Ho. cbn in Ho.
  apply HQ. goal_pick 1%nat. apply owns_open. goal_pick 2%nat. apply owns_open. cbn [ptr].
  eapply owns_perm; [|exact Ho]. solve_Permutation.
Qed.

(** ** Colours and heights of the trees

    What makes a tree of [RbShape] a red-black tree, and how the conditions split
    between a subtree and its context. *)

(** The colour of the root. *)
Definition red_of (t : tree) : bool := match t with T c _ _ _ => c | E => false end.

(** No red node below a red one, if the parent is red or not. *)
Fixpoint colours (above_red : bool) (t : tree) : bool :=
  match t with E => true | T c l _ r => negb (above_red && c) && colours c l && colours c r end.
(** The colour above the hole; above the root it counts as red, so that the root
    is black. *)
Definition ctx_red (k : ctx) : bool := match k with [] => true | f :: _ => frame_red f end.
Fixpoint ctx_colours (k : ctx) : bool :=
  match k with
  | [] => true
  | f :: k => colours (frame_red f) (beside f) && negb (ctx_red k && frame_red f) && ctx_colours k
  end.

(** The number of black nodes on every path, if it is the same on all. *)
Definition meet (c : bool) (h1 h2 : option nat) : option nat :=
  match h1, h2 with
  | Some a, Some b => if decide (a = b) then Some (if c then a else S a) else None
  | _, _ => None
  end.
Fixpoint height (t : tree) : option nat :=
  match t with E => Some 0%nat | T c l _ r => meet c (height l) (height r) end.

Definition red_black (t : tree) : Prop := colours true t = true /\ is_Some (height t).

Lemma colours_plug k t : colours true (plug k t) = ctx_colours k && colours (ctx_red k) t.
Proof.
  revert t. induction k as [|f k IH]; intros t; cbn [plug ctx_colours]; [done|].
  rewrite IH. destruct f as [c x r|c l x]; cbn [fill colours frame_red beside];
    destruct (ctx_colours k), (ctx_red k), c, (colours _ t); cbn; rewrite ?andb_true_r, ?andb_false_r; done.
Qed.

Lemma height_ext k t t' : height t = height t' -> height (plug k t) = height (plug k t').
Proof.
  revert t t'. induction k as [|f k IH]; intros t t' E; cbn; [done|]. apply IH.
  destruct f; cbn; by rewrite E.
Qed.

Lemma height_hole k t : is_Some (height (plug k t)) -> is_Some (height t).
Proof.
  revert t. induction k as [|f k IH]; intros t H; [done|]. apply IH in H. destruct H as [h H].
  destruct f; cbn in H; destruct (height t); try done. by destruct (height l).
Qed.

Lemma height_node c l x r h :
  height (T c l x r) = Some h <-> exists a, height l = Some a /\ height r = Some a /\ h = (if c then a else S a).
Proof.
  cbn. unfold meet. split.
  - destruct (height l) as [a|], (height r) as [b|]; try done. case_decide; [|done]. intros [= <-]. subst. eauto.
  - intros (a & -> & -> & ->). by rewrite decide_True.
Qed.

Lemma colours_weaken b t : colours b t = true -> colours false t = true.
Proof. destruct t as [|c l x r]; [done|]. cbn. by destruct b, c. Qed.

Lemma colours_black b t : red_of t = false -> colours b t = colours false t.
Proof. destruct t as [|[] l x r]; cbn; [done|done|]. by destruct b. Qed.

(** What both heights are is known from one of them. *)
Ltac use_heights :=
  repeat match goal with
  | H : height (T _ _ _ _) = Some _ |- _ => apply height_node in H as (? & ? & ? & ?)
  end.
Ltac show_height := repeat (apply height_node; eexists; split_and!; try reflexivity; try eassumption); try congruence.

(** Turns conjunctions of booleans into facts. *)
Ltac split_bools :=
  repeat match goal with
  | H : _ && _ = true |- _ => apply andb_true_iff in H as [? ?]
  | H : negb _ = true |- _ => apply negb_true_iff in H
  end.

Lemma height_replace k t t' h :
  is_Some (height (plug k t)) -> height t = Some h -> height t' = Some h -> is_Some (height (plug k t')).
Proof. intros Hs E1 E2. by rewrite (height_ext k t' t) by congruence. Qed.

Lemma height_same k t t' : is_Some (height (plug k t)) -> height t' = height t -> is_Some (height (plug k t')).
Proof. intros H E. by rewrite (height_ext k _ _ E). Qed.

(** ** Depth *)

Fixpoint depth (t : tree) : nat := match t with E => 0 | T _ l _ r => S (depth l `max` depth r) end.

Lemma depth_height t b h : colours b t = true -> height t = Some h -> (depth t <= 2 * h + if red_of t then 1 else 0)%nat.
Proof.
  revert b h. induction t as [|c l IHl x r IHr]; intros b h Hc Hh; cbn [depth]; [lia|].
  use_heights. cbn in Hc. split_bools. subst.
  specialize (IHl c _ ltac:(done) ltac:(done)). specialize (IHr c _ ltac:(done) ltac:(done)).
  destruct c; cbn [red_of]; [|destruct (red_of l), (red_of r); lia].
  destruct l as [|[] ? ? ?], r as [|[] ? ? ?]; cbn [red_of colours] in *; try discriminate; lia.
Qed.

Lemma height_size t h : height t = Some h -> (2 ^ h <= S (length (inorder t)))%nat.
Proof.
  revert h. induction t as [|c l IHl x r IHr]; intros h Hh; [injection Hh as <-; cbn; lia|].
  use_heights. subst. specialize (IHl _ ltac:(done)). specialize (IHr _ ltac:(done)).
  cbn [inorder]. rewrite length_app. cbn. destruct c; cbn; lia.
Qed.

(** A red-black tree is not deeper than twice the logarithm of its size. *)
Lemma red_black_depth t : red_black t -> (depth t <= 2 * Nat.log2 (S (length (inorder t))))%nat.
Proof.
  intros [Hc [h Hh]]. pose proof (depth_height _ _ _ Hc Hh) as Hd. pose proof (height_size _ _ Hh) as Hs.
  apply Nat.log2_le_mono in Hs. rewrite Nat.log2_pow2 in Hs by lia.
  destruct t as [|[] l x r]; [cbn; lia|discriminate|]. cbn [red_of] in Hd. lia.
Qed.

Lemma depth_length t : (depth t <= length (inorder t))%nat.
Proof. induction t as [|c l IHl x r IHr]; cbn; [lia|]. rewrite length_app. cbn. lia. Qed.

(** The same nodes in the same order. *)
Ltac same_order :=
  rewrite !inorder_plug; cbn [inorder before after];
  repeat (rewrite <- app_assoc; cbn [app]); reflexivity.
Ltac same_height :=
  cbn [height plug fill];
  repeat match goal with H : height _ = Some _ |- _ => rewrite H end;
  unfold meet; repeat rewrite decide_True by done; reflexivity.
Ltac good_colours :=
  cbn [colours negb andb] in *; split_bools;
  repeat match goal with
  | H : colours true ?t = true |- _ =>
      lazymatch goal with
      | _ : colours false t = true |- _ => fail
      | _ => pose proof (colours_weaken true t H)
      end
  end;
  repeat match goal with H : colours _ _ = true |- _ => rewrite H end; try reflexivity.
