(* ===== verification/RbInsert.v ===== *)
(** * Insertion keeps a red-black tree

    The loop that repairs the colours after an insertion, on the trees of
    [RbShape]; then the descent and the whole insertion. *)

From Stdlib Require Import Sorting.Sorted.
From S2P Require Import Prelude RbTree RbShape.
Open Scope Z_scope.

Section Beside.
(** What is beside the tree and does not change. *)
Context (ps : list part) `{!NoCtx ps}.
Local Abbreviation holds := (RbShape.holds ps).

(** ** Steps on whole trees *)

Lemma holds_shape s k c l x r :
  holds s (plug k (T c l x r)) -> shape_at s x = Some (Shape c (ptr l) (ptr r) (above k)).
Proof. by intros [_ [[Hx _] _]%rep_plug _ _]. Qed.

Lemma wp_tree_node s k c l x r (Q : ocf_rb_node -> ocf_rb_tree -> Prop) :
  holds s (plug k (T c l x r)) ->
  (forall n, red n = c -> left n = ptr l -> right n = ptr r -> parent n = above k -> Q n s) -> wp (node_at x) Q s.
Proof.
  intros Hs HQ. eapply wp_node_at; [by eapply holds_shape|]. intros n [= ? ? ? ?]. by apply HQ.
Qed.

Lemma wp_above s f k t (Q : ocf_rb_node -> ocf_rb_tree -> Prop) :
  holds s (plug (f :: k) t) ->
  (forall n, red n = frame_red f -> parent n = above k ->
    left n = (match f with FL _ _ _ => ptr t | FR _ b _ => ptr b end) ->
    right n = (match f with FL _ _ b => ptr b | FR _ _ _ => ptr t end) -> Q n s) ->
  wp (node_at (frame_node f)) Q s.
Proof.
  intros Hs HQ. destruct f; cbn [fill frame_node plug] in *; (eapply wp_tree_node; [exact Hs|]; intros m ? ? ? ?; by apply HQ).
Qed.

Lemma holds_red s k c l x r b (Q : unit -> ocf_rb_tree -> Prop) :
  holds s (plug k (T c l x r)) ->
  (forall s', holds s' (plug k (T b l x r)) -> links s' = links s -> Q tt s') -> wp (set_node x (with_red b)) Q s.
Proof.
  intros Ho%owns_tree HQ. pick 1%nat Ho. apply owns_open in Ho. eapply wp_set; [apply setter_red|exact Ho|].
  intros s' Ho'. assert (E : links s' = links s) by apply Ho'. apply HQ; [|done]. apply owns_tree.
  rewrite E. goal_pick 1%nat. by apply owns_open.
Qed.

Lemma holds_rotate_left s k c a x d b y e (Q : unit -> ocf_rb_tree -> Prop) :
  holds s (plug k (T c a x (T d b y e))) ->
  (forall s', holds s' (plug k (T d (T c a x b) y e)) -> links s' = links s -> Q tt s') ->
  wp (ocf_rb_tree_rotate_left x) Q s.
Proof.
  intros Ho%owns_tree HQ. eapply rotate_left_wp; [done|exact Ho|]. intros s' Ho'.
  assert (E : links s' = links s) by apply Ho'. apply HQ; [|done]. apply owns_tree. by rewrite E.
Qed.

Lemma holds_rotate_right s k c d a x b y e (Q : unit -> ocf_rb_tree -> Prop) :
  holds s (plug k (T d (T c a x b) y e)) ->
  (forall s', holds s' (plug k (T c a x (T d b y e))) -> links s' = links s -> Q tt s') ->
  wp (ocf_rb_tree_rotate_right y) Q s.
Proof.
  intros Ho%owns_tree HQ. eapply rotate_right_wp; [done|exact Ho|]. intros s' Ho'.
  assert (E : links s' = links s) by apply Ho'. apply HQ; [|done]. apply owns_tree. by rewrite E.
Qed.

Lemma wp_is_red s k t (Q : bool -> ocf_rb_tree -> Prop) :
  holds s (plug k t) -> Q (red_of t) s -> wp (is_red (ptr t)) Q s.
Proof.
  intros Hs HQ. destruct t as [|c l x r]; [by apply wp_ret|]. cbn [ptr is_red]. wp_step.
  eapply wp_tree_node; [exact Hs|]. intros n <- _ _ _. by apply wp_ret.
Qed.

(** The parent and its sibling are different nodes. *)
Lemma sibling_not_parent s k f c l x r :
  holds s (plug (f :: k) (T c l x r)) -> ptr (beside f) <> Some x.
Proof.
  intros Hnd%holds_nodup. apply nodup_plug in Hnd as (_ & _ & Hd).
  destruct (beside f) as [|c' l' x' r'] eqn:E; [done|]. cbn. intros [= ->].
  apply (Hd x); [cbn; set_solver|]. apply elem_of_ctx_cons. right. left. rewrite E. cbn. set_solver.
Qed.

(** The loop of [ocf_rb_tree_fix_violation]: [x] is red, and red nodes have black
    children but for [x] and its parent. *)
Definition fixed (lk : gmap Z (Z * Z)) (nodes : list Z) (s : ocf_rb_tree) : Prop :=
  exists t, holds s t /\ inorder t = nodes /\ colours false t = true /\ is_Some (height t) /\ links s = lk.

Lemma fixed_done s k c l x r :
  holds s (plug k (T c l x r)) -> ctx_colours k = true -> colours c l = true -> colours c r = true ->
  is_Some (height (plug k (T c l x r))) -> (c && ctx_red k = false \/ k = []) ->
  fixed (links s) (inorder (plug k (T c l x r))) s.
Proof.
  intros Hs Hk Hl Hr Hh Hc. eexists. split; [exact Hs|]. split; [done|]. split; [|done].
  destruct Hc as [Hc| ->]; [|cbn; by rewrite Hl, Hr].
  apply (colours_weaken true). rewrite colours_plug, Hk. cbn. rewrite andb_comm in Hc. by rewrite Hc, Hl, Hr.
Qed.

Lemma fix_violation_black fuel s k l x r (Q : unit -> ocf_rb_tree -> Prop) :
  holds s (plug k (T false l x r)) -> Q tt s -> wp (fix_violation_loop (S fuel) x) Q s.
Proof.
  intros Hs HQ. cbn [fix_violation_loop]. wp_step. eapply wp_tree_node; [exact Hs|]. intros n Er _ _ Ep. rewrite Er, Ep.
  destruct k as [|f k]; cbn [above]; [by apply wp_ret|]. wp_step.
  destruct f; cbn [plug fill] in Hs; (eapply wp_tree_node; [exact Hs|]; intros; by apply wp_ret).
Qed.

Lemma recolor_wp s k cg cp cu a p b g ul u ur (Q : unit -> ocf_rb_tree -> Prop) :
  holds s (plug k (T cg (T cp a p b) g (T cu ul u ur))) ->
  (forall s', holds s' (plug k (T true (T false a p b) g (T false ul u ur))) -> links s' = links s -> Q tt s') ->
  wp (recolor g p u) Q s.
Proof.
  intros Hs HQ. unfold recolor. wp_step. eapply holds_red; [exact Hs|]. intros s1 Hs1 E1.
  wp_step. eapply (holds_red s1 (FL true g (T cu ul u ur) :: k)); [exact Hs1|]. intros s2 Hs2 E2.
  eapply (holds_red s2 (FR true (T false a p b) g :: k)); [exact Hs2|]. intros s3 Hs3 E3.
  apply HQ; [exact Hs3|congruence].
Qed.

Lemma recolor_wp_r s k cg cp cu a p b g ul u ur (Q : unit -> ocf_rb_tree -> Prop) :
  holds s (plug k (T cg (T cu ul u ur) g (T cp a p b))) ->
  (forall s', holds s' (plug k (T true (T false ul u ur) g (T false a p b))) -> links s' = links s -> Q tt s') ->
  wp (recolor g p u) Q s.
Proof.
  intros Hs HQ. unfold recolor. wp_step. eapply holds_red; [exact Hs|]. intros s1 Hs1 E1.
  wp_step. eapply (holds_red s1 (FR true (T cu ul u ur) g :: k)); [exact Hs1|]. intros s2 Hs2 E2.
  eapply (holds_red s2 (FL true g (T false a p b) :: k)); [exact Hs2|]. intros s3 Hs3 E3.
  apply HQ; [exact Hs3|congruence].
Qed.

(** The exchange of colours after an outer rotation. *)
Lemma swap_red_wp s k cg cp a p b g u (Q : unit -> ocf_rb_tree -> Prop) :
  holds s (plug k (T cp a p (T cg b g u))) ->
  (forall s', holds s' (plug k (T cg a p (T cp b g u))) -> links s' = links s -> Q tt s') -> wp (swap_red p g) Q s.
Proof.
  intros Hs HQ. unfold swap_red.
  wp_step. eapply wp_tree_node; [exact Hs|]. intros np Ep _ _ _.
  wp_step. eapply (wp_tree_node s (FR cp a p :: k)); [exact Hs|]. intros ng Eg _ _ _. rewrite Ep, Eg.
  wp_step. eapply holds_red; [exact Hs|]. intros s2 Hs2 E2.
  eapply (holds_red s2 (FR cg a p :: k)); [exact Hs2|]. intros s3 Hs3 E3. apply HQ; [exact Hs3|congruence].
Qed.

Lemma swap_red_wp_r s k cg cp a p b g u (Q : unit -> ocf_rb_tree -> Prop) :
  holds s (plug k (T cp (T cg u g a) p b)) ->
  (forall s', holds s' (plug k (T cg (T cp u g a) p b)) -> links s' = links s -> Q tt s') -> wp (swap_red p g) Q s.
Proof.
  intros Hs HQ. unfold swap_red.
  wp_step. eapply wp_tree_node; [exact Hs|]. intros np Ep _ _ _.
  wp_step. eapply (wp_tree_node s (FL cp p b :: k)); [exact Hs|]. intros ng Eg _ _ _. rewrite Ep, Eg.
  wp_step. eapply holds_red; [exact Hs|]. intros s2 Hs2 E2.
  eapply (holds_red s2 (FL cg p b :: k)); [exact Hs2|]. intros s3 Hs3 E3. apply HQ; [exact Hs3|congruence].
Qed.

(** An inner grandchild takes one more step. *)
Definition inner (k : ctx) : nat :=
  match k with FR _ _ _ :: FL _ _ _ :: _ | FL _ _ _ :: FR _ _ _ :: _ => 1 | _ => 0 end%nat.

Definition fix_spec (fuel : nat) : Prop := forall k s l x r (Q : unit -> ocf_rb_tree -> Prop),
  (length k + inner k + 2 <= fuel)%nat ->
  holds s (plug k (T true l x r)) -> ctx_colours k = true -> colours true l = true -> colours true r = true ->
  is_Some (height (plug k (T true l x r))) ->
  (forall s', fixed (links s) (inorder (plug k (T true l x r))) s' -> Q tt s') ->
  wp (fix_violation_loop fuel x) Q s.

Lemma fixed_trans lk lk' ns ns' s : lk = lk' -> ns = ns' -> fixed lk ns s -> fixed lk' ns' s.
Proof. by intros -> ->. Qed.

Ltac finish_fixed :=
  let s' := fresh "s'" in let H := fresh "H" in
  intros s' H; refine (fixed_trans _ _ _ _ _ _ _ H); [congruence|same_order].
Lemma fix_violation_wp fuel : fix_spec fuel.
Proof.
  induction fuel as [|fuel IH]; intros k s l x r Q Hfuel Hs Hk Hl Hr Hh HQ; [lia|].
  cbn [fix_violation_loop]. wp_step. eapply wp_tree_node; [exact Hs|]. intros n Er _ _ Ep. rewrite Er, Ep.
  destruct k as [|f k]; cbn [above].
  { apply wp_ret, HQ, fixed_done; auto. }
  destruct (frame_red f) eqn:Efr.
  2: { wp_step. eapply wp_above; [exact Hs|]. intros p Ec _ _ _. rewrite Ec, Efr. cbn [andb].
       apply wp_ret, HQ, fixed_done; auto. }
  destruct k as [|g k].
  { exfalso. cbn in Hk. rewrite Efr, andb_false_r in Hk. done. }
  assert (Hhg : is_Some (height (fill g (fill f (T true l x r))))) by exact (height_hole k _ Hh).
  destruct Hhg as [h Hhg]. cbn [ctx_colours ctx_red] in Hk. rewrite Efr, andb_true_r in Hk. split_bools.
  wp_step. eapply wp_above; [exact Hs|]. intros pn Ec Epp Epl Epr. rewrite Ec, Epp, Efr. cbn [andb above].
  wp_step. eapply (wp_above s g k); [exact Hs|]. intros gn _ _ Egl Egr.
  assert (Hlen : (length k + inner k + 2 <= length k + 3)%nat) by (destruct k as [|[] [|[] ?]]; cbn; lia).
  pose proof (sibling_not_parent _ _ _ _ _ _ _ Hs) as Hnx.
  assert (Hnp : ptr (beside g) <> Some (frame_node f)) by (destruct f; exact (sibling_not_parent s k g _ _ _ _ Hs)).
  destruct f as [c p b|c b p], g as [cg gp u|cg u gp];
    cbn [frame_red frame_node beside fill plug ptr length inner colours] in *; subst c cg;
    rewrite Egl, ?(bool_decide_eq_true_2 (Some p = Some p)), ?(bool_decide_eq_false_2 _ Hnp) by done;
    rewrite ?Egr, ?Epr, ?Epl.
  - (* left, left *)
    wp_step. eapply (wp_is_red s (FR false (T true (T true l x r) p b) gp :: k)); [exact Hs|].
    destruct (red_of u) eqn:Eu.
    + destruct u as [|[] ul ux ur]; try done. cbn [ptr]. wp_step. eapply wp_load; [done|].
      wp_step. eapply recolor_wp; [exact Hs|]. intros s1 Hs1 E1. use_heights. subst.
      eapply (IH k); [lia|exact Hs1|done|good_colours|good_colours|eapply height_same; [exact Hh|same_height]|].
      intros s' H'. apply HQ. revert s' H'. finish_fixed.
    + rewrite (bool_decide_eq_false_2 _ Hnx).
      wp_step. eapply holds_rotate_right; [exact Hs|]. intros s1 Hs1 E1.
      wp_step. eapply swap_red_wp; [exact Hs1|]. intros s2 Hs2 E2. use_heights. subst.
      destruct fuel as [|fuel]; [lia|]. eapply fix_violation_black; [exact Hs2|]. apply HQ.
      eapply fixed_trans; [| |apply (fixed_done s2 k false (T true l x r) p (T true b gp u)); [exact Hs2|done|good_colours| |eapply height_same; [exact Hh|same_height]|by left]].
      * congruence.
      * same_order.
      * good_colours. by rewrite (colours_black true u), ?andb_true_r by done.
  - (* left, right: an inner grandchild *)
    wp_step. eapply (wp_is_red s (FL false gp (T true (T true l x r) p b) :: k)); [exact Hs|].
    destruct (red_of u) eqn:Eu.
    + destruct u as [|[] ul ux ur]; try done. cbn [ptr]. wp_step. eapply wp_load; [done|].
      wp_step. eapply recolor_wp_r; [exact Hs|]. intros s1 Hs1 E1. use_heights. subst.
      eapply (IH k); [lia|exact Hs1|done|good_colours|good_colours|eapply height_same; [exact Hh|same_height]|].
      intros s' H'. apply HQ. revert s' H'. finish_fixed.
    + rewrite bool_decide_eq_true_2 by done.
      wp_step. eapply (holds_rotate_right s (FR false u gp :: k)); [exact Hs|]. intros s1 Hs1 E1. use_heights. subst.
      eapply (IH (FR true l x :: FR false u gp :: k)); [cbn in *; lia|exact Hs1| | | | |].
      * cbn. good_colours. by rewrite H2.
      * good_colours.
      * good_colours.
      * eapply (height_same k); [exact Hh|same_height].
      * intros s' H'. apply HQ. revert s' H'. cbn [plug fill]. finish_fixed.
  - (* right, left: an inner grandchild *)
    wp_step. eapply (wp_is_red s (FR false (T true b p (T true l x r)) gp :: k)); [exact Hs|].
    destruct (red_of u) eqn:Eu.
    + destruct u as [|[] ul ux ur]; try done. cbn [ptr]. wp_step. eapply wp_load; [done|].
      wp_step. eapply recolor_wp; [exact Hs|]. intros s1 Hs1 E1. use_heights. subst.
      eapply (IH k); [lia|exact Hs1|done|good_colours|good_colours|eapply height_same; [exact Hh|same_height]|].
      intros s' H'. apply HQ. revert s' H'. finish_fixed.
    + rewrite bool_decide_eq_true_2 by done.
      wp_step. eapply (holds_rotate_left s (FL false gp u :: k)); [exact Hs|]. intros s1 Hs1 E1. use_heights. subst.
      eapply (IH (FL true x r :: FL false gp u :: k)); [cbn in *; lia|exact Hs1| | | | |].
      * cbn. good_colours. by rewrite H2.
      * good_colours.
      * good_colours.
      * eapply (height_same k); [exact Hh|same_height].
      * intros s' H'. apply HQ. revert s' H'. cbn [plug fill]. finish_fixed.
  - (* right, right *)
    wp_step. eapply (wp_is_red s (FL false gp (T true b p (T true l x r)) :: k)); [exact Hs|].
    destruct (red_of u) eqn:Eu.
    + destruct u as [|[] ul ux ur]; try done. cbn [ptr]. wp_step. eapply wp_load; [done|].
      wp_step. eapply recolor_wp_r; [exact Hs|]. intros s1 Hs1 E1. use_heights. subst.
      eapply (IH k); [lia|exact Hs1|done|good_colours|good_colours|eapply height_same; [exact Hh|same_height]|].
      intros s' H'. apply HQ. revert s' H'. finish_fixed.
    + rewrite (bool_decide_eq_false_2 _ Hnx).
      wp_step. eapply holds_rotate_left; [exact Hs|]. intros s1 Hs1 E1.
      wp_step. eapply swap_red_wp_r; [exact Hs1|]. intros s2 Hs2 E2. use_heights. subst.
      destruct fuel as [|fuel]; [lia|]. eapply fix_violation_black; [exact Hs2|]. apply HQ.
      eapply fixed_trans; [| |apply (fixed_done s2 k false (T true u gp b) p (T true l x r)); [exact Hs2|done| |good_colours|eapply height_same; [exact Hh|same_height]|by left]].
      * congruence.
      * same_order.
      * good_colours. by rewrite (colours_black true u), ?andb_true_r by done.
Qed.

Lemma holds_size s t : holds s t -> (length (inorder t) <= size (rb_nodes s))%nat.
Proof.
  intros Hs. pose proof (holds_nodup _ _ _ Hs) as Hnd. destruct Hs as [_ Hr _ _]. rewrite <- size_dom, <- (size_list_to_set (C := gset Z)) by exact Hnd.
  apply subseteq_size. intros x Hx. apply elem_of_list_to_set in Hx. apply elem_of_dom.
  assert (Hin : forall p t, rep s p t -> x ∈ inorder t -> is_Some (shape_at s x)).
  { clear. intros p t. revert p. induction t as [|c l IHl y r IHr]; intros p; cbn; [intros _ H; by apply elem_of_nil in H|].
    intros (Hy & Hl & Hr) [H|[->|H]%elem_of_cons]%elem_of_app; eauto. }
  destruct (Hin None t Hr Hx) as [sh Hsh]. unfold shape_at in Hsh. destruct (rb_nodes s !! x); [eauto|done].
Qed.

Lemma ctx_length k : (length k <= length (ctx_nodes k))%nat.
Proof.
  induction k as [|f k IH]; [done|]. rewrite (ctx_nodes_cons f k). cbn. rewrite length_app. lia.
Qed.

Lemma plug_length k t : (length k + length (inorder t) <= length (inorder (plug k t)))%nat.
Proof.
  pose proof (ctx_length k) as H. unfold ctx_nodes in H. rewrite inorder_plug. rewrite !length_app in *. lia.
Qed.

(** What a whole operation leaves. *)
Definition indexed (lk : gmap Z (Z * Z)) (nodes : list Z) (s : ocf_rb_tree) : Prop :=
  exists t, holds s t /\ inorder t = nodes /\ red_black t /\ links s = lk.

Lemma blacken_root c l x r : colours false (T c l x r) = true -> is_Some (height (T c l x r)) -> red_black (T false l x r).
Proof.
  intros Hc [h Hh]. split.
  - cbn in Hc. split_bools. cbn. destruct c; rewrite ?(colours_weaken true l), ?(colours_weaken true r) by done; [done|].
    by apply andb_true_iff.
  - use_heights. eexists. apply height_node. eauto.
Qed.

Lemma rb_fix_violation_wp s k l x r (Q : unit -> ocf_rb_tree -> Prop) :
  holds s (plug k (T true l x r)) -> ctx_colours k = true -> colours true l = true -> colours true r = true ->
  is_Some (height (plug k (T true l x r))) ->
  (forall s', indexed (links s) (inorder (plug k (T true l x r))) s' -> Q tt s') ->
  wp (ocf_rb_tree_fix_violation x) Q s.
Proof.
  intros Hs Hk Hl Hr Hh HQ. unfold ocf_rb_tree_fix_violation. wp_step. apply wp_get. wp_step.
  eapply fix_violation_wp; [|exact Hs|done|done|done|done|].
  { pose proof (holds_size _ _ Hs) as Hsz. pose proof (plug_length k (T true l x r)) as Hp. cbn in Hp. rewrite length_app in Hp.
    cbn in Hp. assert (inner k <= 1)%nat by (destruct k as [|[] [|[] ?]]; cbn; lia). lia. }
  intros s1 (t & Ht & Ei & Hc & Hht & El). destruct t as [|c tl y tr].
  { exfalso. cbn in Ei. rewrite inorder_plug in Ei. cbn in Ei. destruct (before k), (inorder l); done. }
  wp_step. apply wp_get. wp_step. eapply wp_load; [exact (ho_root _ _ _ Ht)|].
  eapply (holds_red s1 []); [exact Ht|]. intros s2 Hs2 E2. apply HQ. eexists. split; [exact Hs2|].
  split; [exact Ei|]. split; [by eapply blacken_root|]. congruence.
Qed.

(** ** Descent *)

(** The comparison of nodes is a total preorder. *)
Class NodeOrder (cmp : Z -> Z -> Z) : Prop := {
  cmp_refl x : cmp x x = 0;
  cmp_flip x y : cmp x y < 0 <-> cmp y x > 0;
  cmp_trans x y z : cmp x y <= 0 -> cmp y z <= 0 -> cmp x z <= 0
}.

Section Order.
Context (cmp : Z -> Z -> Z) `{!NodeOrder cmp}.

Lemma cmp_lt_trans x y z : cmp x y < 0 -> cmp y z < 0 -> cmp x z < 0.
Proof.
  intros H1 H2. pose proof (cmp_trans x y z) as H0. destruct (decide (cmp x z = 0)) as [E|]; [|lia].
  pose proof (cmp_trans z x y) as H3. pose proof (cmp_flip x z). pose proof (cmp_flip z x). pose proof (cmp_flip y z). lia.
Qed.

Lemma cmp_lt_le_trans x y z : cmp x y < 0 -> cmp y z <= 0 -> cmp x z < 0.
Proof.
  intros H1 H2. pose proof (cmp_trans x y z) as H0. destruct (decide (cmp x z = 0)) as [E|]; [|lia].
  pose proof (cmp_trans y z x) as H3. pose proof (cmp_flip x z). pose proof (cmp_flip z x). pose proof (cmp_flip x y). lia.
Qed.

Lemma cmp_le_lt_trans x y z : cmp x y <= 0 -> cmp y z < 0 -> cmp x z < 0.
Proof.
  intros H1 H2. pose proof (cmp_trans x y z) as H0. destruct (decide (cmp x z = 0)) as [E|]; [|lia].
  pose proof (cmp_trans z x y) as H3. pose proof (cmp_flip x z). pose proof (cmp_flip z x). pose proof (cmp_flip y z). lia.
Qed.

(** In ascending order, without equal nodes. *)
Definition ascending (l : list Z) : Prop := StronglySorted (fun x y => cmp x y < 0) l.

Lemma ascending_app l1 l2 :
  ascending (l1 ++ l2) <-> ascending l1 /\ ascending l2 /\ forall x y, x ∈ l1 -> y ∈ l2 -> cmp x y < 0.
Proof.
  induction l1 as [|z l1 IH]; cbn.
  - split; [intros H; split; [constructor|]; split; [done|]; intros x y Hx; by apply elem_of_nil in Hx|by intros (_ & H & _)].
  - split.
    + intros H. apply StronglySorted_inv in H as [(H1 & H2 & H3)%IH Hz].
      rewrite Forall_app, !Forall_forall in Hz. destruct Hz as [Hz1 Hz2].
      split; [constructor; [done|by apply Forall_forall]|]. split; [done|].
      intros x y [->|Hx]%elem_of_cons Hy; [by apply Hz2|by apply H3].
    + intros (H1 & H2 & H3). apply StronglySorted_inv in H1 as [H1 Hz]. constructor.
      * apply IH. split; [done|]. split; [done|]. intros x y Hx. apply H3. by right.
      * apply Forall_app. split; [done|]. apply Forall_forall. intros y Hy. apply H3; [left|done].
Qed.

(** Where the descent for [x] ends. *)
Inductive descended (s : ocf_rb_tree) (x : Z) (whole : tree) : Z * Z -> Prop :=
| desc_equal k c l y r :
    whole = plug k (T c l y r) -> cmp x y = 0 -> descended s x whole (y, 0)
| desc_left k c y r :
    whole = plug (FL c y r :: k) E -> cmp x y < 0 ->
    (forall z, z ∈ before k -> cmp z x < 0) -> (forall z, z ∈ y :: inorder r ++ after k -> cmp x z < 0) ->
    descended s x whole (y, cmp x y)
| desc_right k c y l :
    whole = plug (FR c l y :: k) E -> cmp x y > 0 ->
    (forall z, z ∈ before k ++ inorder l ++ [y] -> cmp z x < 0) -> (forall z, z ∈ after k -> cmp x z < 0) ->
    descended s x whole (y, cmp x y).

Lemma insert_descend_wp s x whole : forall fuel k c l y r (Q : Z * Z -> ocf_rb_tree -> Prop),
  (length (inorder (T c l y r)) < fuel)%nat -> holds s whole -> ascending (inorder whole) ->
  whole = plug k (T c l y r) ->
  (forall z, z ∈ before k -> cmp z x < 0) -> (forall z, z ∈ after k -> cmp x z < 0) ->
  (forall p, descended s x whole p -> Q p s) ->
  wp (insert_descend cmp fuel x y) Q s.
Proof.
  induction fuel as [|fuel IH]; intros k c l y r Q Hf Hs Hasc Ew Hb Ha HQ; [lia|].
  cbn in Hf. rewrite length_app in Hf. cbn in Hf.
  assert (Hfl : (length (inorder l) < fuel)%nat) by lia. assert (Hfr : (length (inorder r) < fuel)%nat) by lia.
  assert (Hlr : (forall z, z ∈ inorder l -> cmp z y < 0) /\ (forall z, z ∈ inorder r -> cmp y z < 0)).
  { rewrite Ew, inorder_plug in Hasc. apply ascending_app in Hasc as (_ & Hasc & _). apply ascending_app in Hasc as (Hasc & _ & _).
    cbn in Hasc. apply ascending_app in Hasc as (_ & Hasc & H1). split; [intros z Hz; apply H1; [done|left]|].
    apply StronglySorted_inv in Hasc as [_ H2]. by rewrite Forall_forall in H2. }
  destruct Hlr as [Hl Hr]. cbn [insert_descend]. wp_step.
  eapply (wp_tree_node s k); [rewrite <- Ew; exact Hs|]. intros n _ El Er _. cbv zeta.
  case_bool_decide as H0.
  { apply wp_ret, HQ. rewrite H0. by eapply desc_equal. }
  pose proof (cmp_flip x y) as Hxy. pose proof (cmp_flip y x) as Hyx.
  case_bool_decide as Hlt.
  - rewrite El. assert (Hright : forall z, z ∈ y :: inorder r ++ after k -> cmp x z < 0).
    { intros z [->|[Hz|Hz]%elem_of_app]%elem_of_cons; [done| |by apply Ha]. eapply cmp_lt_trans; [exact Hlt|by apply Hr]. }
    destruct l as [|lc ll ly lr]; cbn [ptr].
    + apply wp_ret, HQ. by eapply (desc_left _ _ _ k c y r).
    + eapply (IH (FL c y r :: k)); [exact Hfl|done|done|exact Ew|exact Hb|exact Hright|done].
  - rewrite Er. assert (Hleft : forall z, z ∈ before k ++ inorder l ++ [y] -> cmp z x < 0).
    { intros z [Hz|[Hz|Hz%list_elem_of_singleton]%elem_of_app]%elem_of_app; [by apply Hb| |subst; lia].
      eapply cmp_lt_trans; [by apply Hl|]. lia. }
    destruct r as [|rc rl ry rr]; cbn [ptr].
    + apply wp_ret, HQ. eapply (desc_right _ _ _ k c y l); [exact Ew|lia|done|done].
    + eapply (IH (FR c l y :: k)); [exact Hfr|done|done|exact Ew|exact Hleft|exact Ha|done].
Qed.
End Order.
End Beside.
