(* ===== verification/RbIndex.v ===== *)
(** * A tree with rings is a sorted list of classes

    [index s cs]: the tree of [s] is a red-black tree in ascending order whose
    nodes are the heads of the classes [cs]; the other members of a class are in
    the ring of its head, the oldest first.  Insertion and removal refine functions on the list. *)

From Stdlib Require Import Sorting.Sorted.
From S2P Require Import Prelude Links RbTree RbShape RbInsert.
Open Scope Z_scope.

(** ** Rings *)

#[export] Instance ring_link_node : LinkNode (N := Z * Z) snd fst (fun p n => (n.1, p)) (fun x n => (x, n.2)) id.
Proof. by split. Qed.
Abbreviation rlinks := (gmap Z (Z * Z)).
Definition ring (lk : rlinks) (y : Z) (l : list Z) : Prop := link snd fst lk (lastd y l) (y :: l) y.

Definition set_next (x z : Z) (lk : rlinks) : rlinks := alter (fun n => (z, n.2)) x lk.
Definition set_prev (x z : Z) (lk : rlinks) : rlinks := alter (fun n => (n.1, z)) x lk.

Lemma ring_head lk y l : ring lk y l -> lk !! y = Some (hdd y l, lastd y l).
Proof. intros [(n & Hn & Hp & Hx) _]. destruct n as [a b]. cbn in *. by subst. Qed.

Lemma ring_frame lk lk' y l : (forall z, z ∈ y :: l -> lk' !! z = lk !! z) -> ring lk y l -> ring lk' y l.
Proof. intros Hf. by apply link_frame. Qed.

(** What [INIT_LIST_HEAD] does. *)
Lemma ring_init lk x : is_Some (lk !! x) -> ring (set_next x x (set_prev x x lk)) x [].
Proof.
  intros [n Hn]. unfold ring. split; [|done]. exists (x, x). split; [|done].
  unfold set_next, set_prev. by rewrite !lookup_alter_eq, Hn.
Qed.

(** [list_add_tail]: the links are read in the order of the code. *)
Definition added (x y : Z) (lk : rlinks) : rlinks :=
  let last := default (0, 0) (lk !! y) in
  let lk := set_next x y (set_prev x last.2 lk) in
  let last := default (0, 0) (lk !! y) in
  set_prev y x (set_next last.2 x lk).

Lemma ring_added lk x y l : ring lk y l -> NoDup (y :: l) -> x ∉ y :: l -> is_Some (lk !! x) -> ring (added x y lk) y (l ++ [x]).
Proof.
  intros Hr Hnd Hx [n Hn]. pose proof (ring_head _ _ _ Hr) as Hy. unfold added. rewrite Hy. cbn [default snd id].
  set (lk1 := set_next x y _). assert (E1 : forall z, z <> x -> lk1 !! z = lk !! z).
  { intros z Hz. unfold lk1, set_next, set_prev. by rewrite !lookup_alter_ne. }
  assert (Ex : lk1 !! x = Some (y, lastd y l)).
  { unfold lk1, set_next, set_prev. by rewrite !lookup_alter_eq, Hn. }
  rewrite (E1 y) by (intros ->; apply Hx; left). rewrite Hy. cbn [default snd id].
  unfold ring. rewrite lastd_snoc.
  assert (H1 : link snd fst lk1 (lastd y l) (y :: l) y) by (eapply link_frame; [|exact Hr]; intros z Hz; apply E1; by intros ->).
  assert (Hxy : x <> y) by (intros ->; apply Hx; left).
  assert (H2 : link snd fst (set_next (lastd y l) x lk1) (lastd y l) (y :: l) x).
  { unfold set_next. destruct l as [|z l _] using rev_ind.
    - change (lastd y []) with y in *. exact (link_set_next _ _ id lk1 _ x [] y y ltac:(set_solver) H1).
    - rewrite lastd_snoc in *. rewrite app_comm_cons in *.
      apply (link_set_next (fun p n => (n.1, p)) (fun x n => (x, n.2)) id lk1 z x (y :: l) z y); [|exact H1].
      intros Hz. apply NoDup_app in Hnd as (_ & Hd & _). apply (Hd z Hz). left. }
  assert (Hlast : lastd y l ∈ y :: l) by (destruct (lastd_in y l) as [->|]; [left|by right]).
  assert (H3 : link snd fst (set_next (lastd y l) x lk1) (lastd y l) (y :: (l ++ [x])) y).
  { rewrite app_comm_cons. apply link_app. split; [exact H2|]. cbn. split; [|done]. exists (y, lastd y l).
    unfold set_next. rewrite lookup_alter_ne by (intros E; apply Hx; by rewrite <- E). rewrite Ex.
    split; [done|]. split; [|done]. rewrite lastd_cons. cbn. by destruct l. }
  exact (link_set_prev (fun p n => (n.1, p)) (fun x n => (x, n.2)) id _ _ x y (l ++ [x]) y
    ltac:(intros Hy'; apply NoDup_cons in Hnd as [Hnd _]; apply elem_of_app in Hy' as [?|?%list_elem_of_singleton]; congruence || done) H3).
Qed.

Lemma set_next_prev a u b v lk : set_next a u (set_prev b v lk) = set_prev b v (set_next a u lk).
Proof.
  unfold set_next, set_prev. apply map_eq. intros z.
  rewrite !lookup_alter. repeat case_decide; subst; rewrite ?lookup_alter; repeat case_decide; try congruence; by destruct (lk !! _) as [[]|].
Qed.

(** [list_del]. *)
Definition deleted (x : Z) (lk : rlinks) : rlinks :=
  let n := default (0, 0) (lk !! x) in
  let lk := set_prev n.1 n.2 lk in
  let n := default (0, 0) (lk !! x) in
  set_next n.2 n.1 lk.

Lemma ring_at lk y l1 x l2 : ring lk y (l1 ++ x :: l2) -> lk !! x = Some (hdd y l2, lastd y l1).
Proof.
  unfold ring. rewrite app_comm_cons. intros H. destruct (link_lookup _ _ _ _ _ _ H) as ([a b] & Hm & Hp & Hn).
  cbn in Hp, Hn. rewrite lastd_cons in Hp. by subst.
Qed.

Lemma ring_deleted lk y l1 x l2 :
  ring lk y (l1 ++ x :: l2) -> NoDup (y :: l1 ++ x :: l2) -> ring (deleted x lk) y (l1 ++ l2).
Proof.
  intros Hr Hnd. pose proof (ring_at _ _ _ _ _ Hr) as Hx. unfold deleted. rewrite Hx. cbn [default fst snd id].
  assert (Hx2 : x ∉ y :: l1 ++ l2).
  { rewrite app_comm_cons in Hnd |- *. by apply nodup_pivot. }
  assert (Hhd : hdd y l2 <> x) by (intros <-; apply Hx2; destruct l2; cbn; set_solver).
  assert (Hx' : set_prev (hdd y l2) (lastd y l1) lk !! x = Some (hdd y l2, lastd y l1)).
  { unfold set_prev. by rewrite lookup_alter_ne. }
  rewrite Hx'. cbn [default fst snd id]. rewrite set_next_prev. clear Hx'.
  unfold ring in Hr. rewrite app_comm_cons in Hnd, Hr.
  pose proof (link_remove (fun p n => (n.1, p)) (fun x n => (x, n.2)) id lk _ (y :: l1) x l2 y Hnd Hr eq_refl eq_refl) as Hrem.
  cbn zeta in Hrem.
  assert (El : last (y :: l1) = Some (lastd y l1)) by (rewrite last_cons; unfold lastd; by destruct (last l1)).
  rewrite El in Hrem. rewrite lastd_cons in Hrem. destruct l2 as [|b l2].
  - rewrite app_nil_r in *. rewrite lastd_snoc in Hrem. cbn [hdd List.hd_error default] in *.
    apply NoDup_app in Hnd as [[Hnd _]%NoDup_cons _].
    exact (link_set_prev (fun p n => (n.1, p)) (fun x n => (x, n.2)) id _ x (lastd y l1) y l1 y Hnd Hrem).
  - unfold ring. rewrite app_comm_cons. rewrite !lastd_app, !lastd_cons in *. exact Hrem.
Qed.

Lemma ring_rotate lk y n l : ring lk y (n :: l) -> ring lk n (l ++ [y]).
Proof.
  unfold ring. intros H. change (y :: n :: l) with ([y] ++ n :: l) in H. apply link_app in H as [H1 H2].
  rewrite lastd_snoc, app_comm_cons. apply link_app. rewrite lastd_cons in *. split; [exact H2|exact H1].
Qed.

(** [list_del] of the head of a ring. *)
Lemma ring_deleted_head lk y n l : ring lk y (n :: l) -> NoDup (y :: n :: l) -> ring (deleted y lk) n l.
Proof.
  intros Hr Hnd. apply ring_rotate in Hr. rewrite <- (app_nil_r l) at 1. apply ring_deleted; [exact Hr|].
  assert (E : y :: n :: l ≡ₚ n :: l ++ [y]) by solve_Permutation. by rewrite <- E.
Qed.

(** Nodes outside the ring are as before. *)
Lemma deleted_other lk y l1 x l2 z : ring lk y (l1 ++ x :: l2) -> z ∉ y :: l1 ++ x :: l2 -> deleted x lk !! z = lk !! z.
Proof.
  intros Hr Hz. pose proof (ring_at _ _ _ _ _ Hr) as Hx. unfold deleted. rewrite Hx. cbn [default fst snd id].
  assert (Hh : hdd y l2 ∈ y :: l1 ++ x :: l2) by (destruct l2; cbn; set_solver).
  assert (Hl : lastd y l1 ∈ y :: l1 ++ x :: l2) by (destruct (lastd_in y l1) as [->|]; set_solver).
  assert (E : exists n, set_prev (hdd y l2) (lastd y l1) lk !! x = Some n /\ n.2 ∈ y :: l1 ++ x :: l2).
  { unfold set_prev. destruct (decide (hdd y l2 = x)) as [->|Hne].
    - rewrite lookup_alter_eq, Hx. eexists. split; [done|]. exact Hl.
    - rewrite lookup_alter_ne, Hx by done. eexists. split; [done|]. exact Hl. }
  destruct E as (n & -> & Hn). cbn [default id]. unfold set_next, set_prev.
  rewrite !lookup_alter_ne; [done| |]; intros E; apply Hz; by rewrite <- E.
Qed.

Lemma added_other lk x y l z : ring lk y l -> z <> x -> z ∉ y :: l -> is_Some (lk !! x) -> x <> y -> added x y lk !! z = lk !! z.
Proof.
  intros Hr Hzx Hz [n Hn] Hxy. pose proof (ring_head _ _ _ Hr) as Hy. unfold added. rewrite Hy. cbn [default snd id].
  assert (Ey : set_next x y (set_prev x (lastd y l) lk) !! y = Some (hdd y l, lastd y l)).
  { unfold set_next, set_prev. by rewrite !lookup_alter_ne. }
  rewrite Ey. cbn [default snd id].
  assert (Hl : lastd y l ∈ y :: l) by (destruct (lastd_in y l) as [->|]; [left|by right]).
  unfold set_next, set_prev. rewrite !lookup_alter_ne; [done|done|done| |]; intros E; apply Hz; rewrite <- E; [done|left].
Qed.

(** ** Operations on rings *)

Section RingSteps.
Context (ps : list part).

Lemma links_node s x n : links s !! x = Some n -> exists m, rb_nodes s !! x = Some m /\ list_next m = n.1 /\ list_prev m = n.2.
Proof.
  unfold links. rewrite lookup_fmap. destruct (rb_nodes s !! x) as [m|]; [|done]. intros [= <-]. by exists m.
Qed.

Lemma owns_links lk s f g x :
  owns lk s ps -> (forall n, shape_of (f n) = shape_of n) -> (forall n, links_of (f n) = g (links_of n)) ->
  owns (alter g x lk) (with_nodes (alter f x) s) ps.
Proof.
  intros [H1 H2 H3] Hs Hl.
  assert (E : forall y, shape_at (with_nodes (alter f x) s) y = shape_at s y).
  { intros y. unfold shape_at. cbn. rewrite lookup_alter. case_decide; [subst x|done]. destruct (rb_nodes s !! y); [exact (f_equal Some (Hs _))|done]. }
  split; [| |done].
  - rewrite <- H1. unfold links. cbn. apply map_eq. intros y. rewrite lookup_fmap, !lookup_alter.
    case_decide; [subst x|by rewrite lookup_fmap]. rewrite lookup_fmap. destruct (rb_nodes s !! y); [exact (f_equal Some (Hl _))|done].
  - eapply Forall_impl; [exact H2|]. intros [y sh|p t|h k|p h k]; cbn.
    + by rewrite E.
    + apply rep_ext. auto.
    + intros [Hk Hr]. split; [|done]. eapply rep_ctx_ext; [|exact Hk]. auto.
    + apply rep_seg_ext. auto.
Qed.

Lemma wp_set_next lk s x z (Q : unit -> ocf_rb_tree -> Prop) :
  owns lk s ps -> is_Some (lk !! x) -> (forall s', owns (set_next x z lk) s' ps -> Q tt s') ->
  wp (set_node x (with_next z)) Q s.
Proof.
  intros Ho [n Hn] HQ. rewrite <- (ow_links _ _ _ Ho) in Hn. apply links_node in Hn as (m & Hm & _).
  unfold set_node. wp_step. eapply wp_load; [exact Hm|]. apply wp_modify. apply HQ. by apply owns_links.
Qed.

Lemma wp_set_prev lk s x z (Q : unit -> ocf_rb_tree -> Prop) :
  owns lk s ps -> is_Some (lk !! x) -> (forall s', owns (set_prev x z lk) s' ps -> Q tt s') ->
  wp (set_node x (with_prev z)) Q s.
Proof.
  intros Ho [n Hn] HQ. rewrite <- (ow_links _ _ _ Ho) in Hn. apply links_node in Hn as (m & Hm & _).
  unfold set_node. wp_step. eapply wp_load; [exact Hm|]. apply wp_modify. apply HQ. by apply owns_links.
Qed.

Lemma wp_links lk s x n (Q : ocf_rb_node -> ocf_rb_tree -> Prop) :
  owns lk s ps -> lk !! x = Some n -> (forall m, list_next m = n.1 -> list_prev m = n.2 -> Q m s) -> wp (node_at x) Q s.
Proof.
  intros Ho Hn HQ. rewrite <- (ow_links _ _ _ Ho) in Hn. apply links_node in Hn as (m & Hm & ? & ?).
  eapply wp_load; [exact Hm|]. by apply HQ.
Qed.

Lemma set_next_is_Some x z lk y : is_Some (set_next x z lk !! y) <-> is_Some (lk !! y).
Proof. unfold set_next. by rewrite lookup_alter_is_Some. Qed.
Lemma set_prev_is_Some x z lk y : is_Some (set_prev x z lk !! y) <-> is_Some (lk !! y).
Proof. unfold set_prev. by rewrite lookup_alter_is_Some. Qed.

Lemma wp_init lk s x (Q : unit -> ocf_rb_tree -> Prop) :
  owns lk s ps -> is_Some (lk !! x) -> (forall s', owns (set_next x x (set_prev x x lk)) s' ps -> Q tt s') ->
  wp (INIT_LIST_HEAD x) Q s.
Proof.
  intros Ho Hx HQ. unfold INIT_LIST_HEAD. wp_step. eapply wp_set_prev; [exact Ho|done|]. intros s1 Ho1.
  eapply wp_set_next; [exact Ho1|by apply set_prev_is_Some|done].
Qed.

Lemma ring_is_Some lk y l z : ring lk y l -> z ∈ y :: l -> is_Some (lk !! z).
Proof. intros Hr Hz. by eapply link_dom. Qed.

Lemma wp_add_tail lk s x y l (Q : unit -> ocf_rb_tree -> Prop) :
  owns lk s ps -> ring lk y l -> x ∉ y :: l -> is_Some (lk !! x) ->
  (forall s', owns (added x y lk) s' ps -> Q tt s') -> wp (list_add_tail x y) Q s.
Proof.
  intros Ho Hr Hx Hxs HQ. pose proof (ring_head _ _ _ Hr) as Hy.
  assert (Hxy : x <> y) by (intros ->; apply Hx; left).
  assert (Hl : is_Some (lk !! lastd y l)) by (eapply ring_is_Some; [exact Hr|]; destruct (lastd_in y l) as [->|]; [left|by right]).
  unfold added in HQ. rewrite Hy in HQ. cbn [default snd id] in HQ.
  assert (Ey : set_next x y (set_prev x (lastd y l) lk) !! y = Some (hdd y l, lastd y l)).
  { unfold set_next, set_prev. by rewrite !lookup_alter_ne. }
  rewrite Ey in HQ. cbn [default snd id] in HQ.
  unfold list_add_tail. wp_step. eapply wp_links; [exact Ho|exact Hy|]. intros m _ Em. cbn in Em. rewrite Em.
  wp_step. eapply wp_set_prev; [exact Ho|done|]. intros s1 Ho1.
  wp_step. eapply wp_set_next; [exact Ho1|by apply set_prev_is_Some|]. intros s2 Ho2.
  wp_step. eapply wp_links; [exact Ho2|exact Ey|]. intros m2 _ Em2. cbn in Em2. rewrite Em2.
  wp_step. eapply wp_set_next; [exact Ho2|by apply set_next_is_Some, set_prev_is_Some|]. intros s3 Ho3.
  eapply wp_set_prev; [exact Ho3|apply set_next_is_Some; rewrite Ey; eauto|exact HQ].
Qed.

Lemma wp_del lk s x y l1 l2 (Q : unit -> ocf_rb_tree -> Prop) :
  owns lk s ps -> ring lk y (l1 ++ x :: l2) -> NoDup (y :: l1 ++ x :: l2) ->
  (forall s', owns (deleted x lk) s' ps -> Q tt s') -> wp (list_del x) Q s.
Proof.
  intros Ho Hr Hnd HQ. pose proof (ring_at _ _ _ _ _ Hr) as Hx.
  assert (Hx2 : x ∉ y :: l1 ++ l2) by (rewrite app_comm_cons in Hnd |- *; by apply nodup_pivot).
  assert (Hhd : hdd y l2 <> x) by (intros <-; apply Hx2; destruct l2; cbn; set_solver).
  assert (Hh : is_Some (lk !! hdd y l2)) by (eapply ring_is_Some; [exact Hr|]; destruct l2; cbn; set_solver).
  assert (Hl : is_Some (lk !! lastd y l1)) by (eapply ring_is_Some; [exact Hr|]; destruct (lastd_in y l1) as [->|]; set_solver).
  assert (Hx' : set_prev (hdd y l2) (lastd y l1) lk !! x = Some (hdd y l2, lastd y l1)) by (unfold set_prev; by rewrite lookup_alter_ne).
  unfold deleted in HQ. rewrite Hx in HQ. cbn [default fst snd id] in HQ. rewrite Hx' in HQ. cbn [default fst snd id] in HQ.
  unfold list_del. wp_step. eapply wp_links; [exact Ho|exact Hx|]. intros m E1 E2. cbn in E1, E2. rewrite E1, E2.
  wp_step. eapply wp_set_prev; [exact Ho|done|]. intros s1 Ho1.
  wp_step. eapply wp_links; [exact Ho1|exact Hx'|]. intros m2 E3 E4. cbn in E3, E4. rewrite E3, E4.
  eapply wp_set_next; [exact Ho1|by apply set_prev_is_Some|exact HQ].
Qed.
End RingSteps.

(** ** Classes *)

Definition classes : Type := list (Z * list Z).
Definition heads (cs : classes) : list Z := cs.*1.
Definition members (cs : classes) : list Z := cs ≫= snd.

(** The nodes of the rings are in no tree; their colours mean nothing. *)
Definition member_parts (col : Z -> bool) (ms : list Z) : list part :=
  (fun m => PNode m (Shape (col m) None None None)) <$> ms.

#[export] Instance member_no_ctx col ms : NoCtx (member_parts col ms).
Proof. intros h k (m & E & _)%list_elem_of_fmap. done. Qed.
#[export] Instance cons_no_ctx x sh ps : NoCtx ps -> NoCtx (PNode x sh :: ps).
Proof. intros H h k [E|Hin]%elem_of_cons; [done|by apply (H h k)]. Qed.
#[export] Instance tree_no_ctx p t ps : NoCtx ps -> NoCtx (PTree p t :: ps).
Proof. intros H h k [E|Hin]%elem_of_cons; [done|by apply (H h k)]. Qed.

Lemma member_nodes col ms : member_parts col ms ≫= part_nodes = ms.
Proof. induction ms as [|m ms IH]; [done|]. cbn. by f_equal. Qed.

Section Index.
Context (cmp : Z -> Z -> Z) `{!NodeOrder cmp}.

Record index (s : ocf_rb_tree) (cs : classes) : Prop := {
  ix_tree : exists t col, holds (member_parts col (members cs)) s t /\ inorder t = heads cs /\ red_black t;
  ix_ring y l : (y, l) ∈ cs -> ring (links s) y l;
  ix_equal y l m : (y, l) ∈ cs -> m ∈ l -> cmp m y = 0;
  ix_ascending : ascending cmp (heads cs)
}.

Fixpoint insert_class (x : Z) (cs : classes) : classes :=
  match cs with
  | [] => [(x, [])]
  | (y, l) :: cs =>
      if decide (cmp x y = 0) then (y, l ++ [x]) :: cs
      else if decide (cmp x y < 0) then (x, []) :: (y, l) :: cs
      else (y, l) :: insert_class x cs
  end.

Lemma insert_class_new x cs1 cs2 :
  (forall c, c ∈ cs1 -> cmp x c.1 > 0) -> (forall c, c ∈ cs2 -> cmp x c.1 < 0) ->
  insert_class x (cs1 ++ cs2) = cs1 ++ (x, []) :: cs2.
Proof.
  intros H1 H2. induction cs1 as [|[y l] cs1 IH]; cbn.
  - destruct cs2 as [|[y l] cs2]; [done|]. specialize (H2 (y, l) ltac:(left)). cbn in *.
    rewrite decide_False, decide_True by lia. done.
  - specialize (H1 (y, l) ltac:(left)) as Hy. cbn in Hy. rewrite !decide_False by lia. f_equal. apply IH.
    intros c Hc. apply H1. by right.
Qed.

Lemma insert_class_old x cs1 y l cs2 :
  (forall c, c ∈ cs1 -> cmp x c.1 > 0) -> cmp x y = 0 ->
  insert_class x (cs1 ++ (y, l) :: cs2) = cs1 ++ (y, l ++ [x]) :: cs2.
Proof.
  intros H1 H2. induction cs1 as [|[z k] cs1 IH]; cbn; [by rewrite decide_True|].
  specialize (H1 (z, k) ltac:(left)) as Hy. cbn in Hy. rewrite !decide_False by lia. f_equal. apply IH.
  intros c Hc. apply H1. by right.
Qed.

Lemma index_nodup s cs : index s cs -> NoDup (heads cs ++ members cs).
Proof. intros [(t & col & Ht & <- & _) _ _ _]. apply ho_nodup in Ht. by rewrite member_nodes in Ht. Qed.

Lemma class_nodup s cs y l : index s cs -> (y, l) ∈ cs -> NoDup (y :: l).
Proof.
  intros Hi Hin. pose proof (index_nodup s cs Hi) as Hnd. apply list_elem_of_split in Hin as (cs1 & cs2 & ->).
  assert (E : heads (cs1 ++ (y, l) :: cs2) ++ members (cs1 ++ (y, l) :: cs2) ≡ₚ
    (y :: l) ++ (heads cs1 ++ heads cs2 ++ members cs1 ++ members cs2)).
  { unfold heads, members. rewrite fmap_app, bind_app. cbn. solve_Permutation. }
  rewrite E in Hnd. by apply NoDup_app in Hnd as [? _].
Qed.

Lemma in_class cs y l x : (y, l) ∈ cs -> x ∈ y :: l -> x ∈ heads cs ++ members cs.
Proof.
  intros Hin [->|Hx]%elem_of_cons; apply elem_of_app; [left|right].
  - apply list_elem_of_fmap. by exists (y, l).
  - apply list_elem_of_bind. by exists (y, l).
Qed.

Lemma wp_set_root lk s h r ps (Q : unit -> ocf_rb_tree -> Prop) :
  NoCtx ps -> owns lk s (PCtx h [] :: ps) -> (owns lk (with_root r s) (PCtx r [] :: ps) -> Q tt (with_root r s)) ->
  wp (modify (with_root r)) Q s.
Proof.
  intros Hps Ho HQ. apply wp_modify, HQ. eapply owns_change; [exact Ho|done|by split|done|done|by right].
Qed.

Lemma owns_empty lk s p ps : owns lk s (PTree p E :: ps) <-> owns lk s ps.
Proof.
  split; intros [H1 H2 H3]; (split; [done| |done]).
  - by apply Forall_cons in H2 as [_ H2].
  - by constructor.
Qed.

(** A new leaf. *)
Lemma attach_wp ps s f k x (Q : unit -> ocf_rb_tree -> Prop) :
  NoCtx ps -> holds (PNode x (Shape true None None (Some (frame_node f))) :: ps) s (plug (f :: k) E) ->
  (forall s', holds ps s' (plug (f :: k) (T true E x E)) -> links s' = links s -> Q tt s') ->
  wp (set_node (frame_node f) (match f with FL _ _ _ => with_left (Some x) | FR _ _ _ => with_right (Some x) end)) Q s.
Proof.
  intros Hps Hs HQ. cbn [plug] in Hs. apply owns_tree in Hs.
  assert (Hend : forall s', links s' = links s ->
    owns (links s) s' (PCtx (Some (frame_node f)) k :: PTree (above k) (fill f (T true E x E)) :: ps) -> Q tt s').
  { intros s' El Ho. apply HQ; [|done]. cbn [plug]. apply owns_tree. by rewrite El, ptr_fill. }
  destruct f as [c y r|c l y]; cbn [fill frame_node ptr above] in *; pick 1%nat Hs; apply owns_open in Hs;
    cbn [ptr] in Hs.
  - eapply wp_set; [apply setter_left|exact Hs|]. intros s' Ho. cbn in Ho. apply Hend; [apply Ho|].
    pick 1%nat Ho. apply (proj1 (owns_empty _ _ _ _)) in Ho.
    goal_pick 1%nat. apply owns_open. goal_pick 1%nat. apply owns_open. cbn [ptr].
    goal_pick 1%nat. apply (proj2 (owns_empty _ _ _ _)). goal_pick 1%nat. apply (proj2 (owns_empty _ _ _ _)).
    eapply owns_perm; [|exact Ho]. solve_Permutation.
  - eapply wp_set; [apply setter_right|exact Hs|]. intros s' Ho. cbn in Ho. apply Hend; [apply Ho|].
    pick 2%nat Ho. apply (proj1 (owns_empty _ _ _ _)) in Ho.
    goal_pick 1%nat. apply owns_open. goal_pick 2%nat. apply owns_open. cbn [ptr].
    goal_pick 1%nat. apply (proj2 (owns_empty _ _ _ _)). goal_pick 1%nat. apply (proj2 (owns_empty _ _ _ _)).
    eapply owns_perm; [|exact Ho]. solve_Permutation.
Qed.

(** *** Insertion *)

Lemma member_parts_ext col col' ms : (forall m, m ∈ ms -> col m = col' m) -> member_parts col ms = member_parts col' ms.
Proof. intros H. apply list_fmap_ext. intros i m Hm. rewrite (H m); [done|]. by eapply list_elem_of_lookup_2. Qed.

(** A node outside comes as a part of its own. *)
Lemma holds_outside ps s t x n :
  holds ps s t -> rb_nodes s !! x = Some n -> x ∉ inorder t -> x ∉ (ps ≫= part_nodes) ->
  holds (PNode x (shape_of n) :: ps) s t.
Proof.
  intros [H1 H2 H3 H4] Hn Hx1 Hx2. split; [done|done| |].
  - constructor; [|done]. cbn. unfold shape_at. by rewrite Hn.
  - cbn. rewrite <- Permutation_middle. constructor; [|done]. rewrite elem_of_app. tauto.
Qed.

Lemma dom_alter_links (f : Z * Z -> Z * Z) x (lk : rlinks) : dom (alter f x lk) = dom lk.
Proof. apply dom_alter_L. Qed.

Lemma added_dom x y lk : dom (added x y lk) = dom lk.
Proof. unfold added, set_next, set_prev. by rewrite !dom_alter_links. Qed.
Lemma deleted_dom x lk : dom (deleted x lk) = dom lk.
Proof. unfold deleted, set_next, set_prev. by rewrite !dom_alter_links. Qed.

(** The links after [INIT_LIST_HEAD]. *)
Definition initialised (x : Z) (lk : rlinks) : rlinks := set_next x x (set_prev x x lk).
Lemma initialised_other x z lk : z <> x -> initialised x lk !! z = lk !! z.
Proof. intros Hz. unfold initialised, set_next, set_prev. by rewrite !lookup_alter_ne. Qed.
Lemma initialised_dom x lk : dom (initialised x lk) = dom lk.
Proof. unfold initialised, set_next, set_prev. by rewrite !dom_alter_links. Qed.

(** Other classes do not share nodes with a class. *)
Lemma other_class cs1 y l cs2 z k m :
  NoDup (heads (cs1 ++ (y, l) :: cs2) ++ members (cs1 ++ (y, l) :: cs2)) -> (z, k) ∈ cs1 ++ cs2 ->
  m ∈ z :: k -> m ∉ y :: l.
Proof.
  intros Hnd Hin Hm Hy.
  assert (E : heads (cs1 ++ (y, l) :: cs2) ++ members (cs1 ++ (y, l) :: cs2) ≡ₚ
    (y :: l) ++ (heads (cs1 ++ cs2) ++ members (cs1 ++ cs2))).
  { unfold heads, members. rewrite !fmap_app, !bind_app. cbn. solve_Permutation. }
  rewrite E in Hnd. apply NoDup_app in Hnd as (_ & Hd & _). apply (Hd m Hy). by eapply in_class.
Qed.

(** The initialised node, beside the tree. *)
Lemma insert_start s cs x (Q : unit -> ocf_rb_tree -> Prop) k :
  index s cs -> x ∉ heads cs ++ members cs -> is_Some (rb_nodes s !! x) ->
  (forall s' t col c, owns (initialised x (links s)) s' (PCtx (ptr t) [] :: PTree None t :: PNode x (Shape c None None None) :: member_parts col (members cs)) ->
    inorder t = heads cs -> red_black t -> wp k Q s') ->
  wp (_ ← INIT_LIST_HEAD x; _ ← set_node x (with_left None); _ ← set_node x (with_right None);
      _ ← set_node x (with_parent None); k) Q s.
Proof.
  intros [(t & col & Ht & Ei & Hrb) _ _ _] Hx [n Hn] HQ. rewrite elem_of_app in Hx.
  assert (Ho : holds (PNode x (shape_of n) :: member_parts col (members cs)) s (plug [] t)).
  { apply holds_outside; [exact Ht|done|cbn [plug]; rewrite Ei; tauto|rewrite member_nodes; tauto]. }
  apply owns_tree in Ho. assert (Hxs : is_Some (links s !! x)) by (unfold links; rewrite lookup_fmap, Hn; done).
  wp_step. eapply wp_init; [exact Ho|done|]. clear Ho. intros s1 Ho. fold (initialised x (links s)) in Ho.
  wp_step. pick 2%nat Ho. eapply wp_set; [apply setter_left|exact Ho|]. clear s1 Ho. intros s1 Ho.
  wp_step. eapply wp_set; [apply setter_right|exact Ho|]. clear s1 Ho. intros s1 Ho.
  wp_step. eapply wp_set; [apply setter_parent|exact Ho|]. clear s1 Ho. intros s1 Ho. cbn in Ho.
  eapply HQ; [|exact Ei|exact Hrb]. eapply owns_perm; [|exact Ho]. solve_Permutation.
Qed.


(** Splitting the classes where the descent ends. *)
Lemma split_classes cs b a : heads cs = b ++ a -> exists cs1 cs2, cs = cs1 ++ cs2 /\ heads cs1 = b /\ heads cs2 = a.
Proof. intros E. unfold heads in E. apply fmap_app_inv in E as (cs1 & cs2 & -> & -> & ->). eauto. Qed.

Lemma heads_in cs c : c ∈ cs -> c.1 ∈ heads cs.
Proof. intros H. apply list_elem_of_fmap. eauto. Qed.

Lemma insert_class_between x cs b a :
  heads cs = b ++ a -> (forall z, z ∈ b -> cmp z x < 0) -> (forall z, z ∈ a -> cmp x z < 0) ->
  heads (insert_class x cs) = b ++ x :: a /\ members (insert_class x cs) = members cs /\
  (forall y l, (y, l) ∈ insert_class x cs -> (y = x /\ l = []) \/ (y, l) ∈ cs).
Proof.
  intros Eh Hb Ha. destruct (split_classes cs b a Eh) as (cs1 & cs2 & -> & <- & <-).
  rewrite insert_class_new.
  - unfold heads, members. rewrite fmap_app, !bind_app. split; [done|]. split; [done|].
    intros y l [Hin|[[= -> ->]|Hin]%elem_of_cons]%elem_of_app; [right|by left|right]; set_solver.
  - intros c Hc%heads_in. specialize (Hb _ Hc). pose proof (cmp_flip c.1 x). lia.
  - intros c Hc%heads_in. by apply Ha.
Qed.

Lemma index_lone s cs x (s' : ocf_rb_tree) b a :
  index s cs -> x ∉ heads cs ++ members cs -> is_Some (links s !! x) ->
  heads cs = b ++ a -> (forall z, z ∈ b -> cmp z x < 0) -> (forall z, z ∈ a -> cmp x z < 0) ->
  (exists t col, holds (member_parts col (members cs)) s' t /\ inorder t = b ++ x :: a /\ red_black t) ->
  links s' = initialised x (links s) ->
  index s' (insert_class x cs) /\ dom (links s') = dom (links s).
Proof.
  intros Hi Hx Hxs Eh Hb Ha (t & col & Ht & Ei & Hrb) El.
  destruct (insert_class_between x cs b a Eh Hb Ha) as (E1 & E2 & E3).
  split; [|by rewrite El, initialised_dom]. split.
  - exists t, col. by rewrite E1, E2.
  - intros y l [[-> ->]|Hin]%E3; rewrite El.
    + by apply ring_init.
    + eapply ring_frame; [|by apply (ix_ring _ _ Hi)]. intros z Hz. apply initialised_other.
      intros ->. apply Hx. by eapply in_class.
  - intros y l m [[-> ->]|Hin]%E3 Hm; [by apply elem_of_nil in Hm|by eapply (ix_equal _ _ Hi)].
  - rewrite E1. pose proof (ix_ascending _ _ Hi) as Hasc. rewrite Eh in Hasc.
    apply ascending_app in Hasc as (H1 & H2 & H3). apply ascending_app.
    split; [done|]. split; [constructor; [done|by apply Forall_forall]|].
    intros y z Hy [->|Hz]%elem_of_cons; [by apply Hb|by apply H3].
Qed.

(** A node equal to the head of a class joins its ring. *)
Lemma index_join s cs1 y l cs2 x s' :
  let cs := cs1 ++ (y, l) :: cs2 in
  index s cs -> x ∉ heads cs ++ members cs -> is_Some (links s !! x) -> cmp x y = 0 ->
  (exists t col c, holds (PNode x (Shape c None None None) :: member_parts col (members cs)) s' t /\ inorder t = heads cs /\ red_black t) ->
  links s' = added x y (initialised x (links s)) ->
  index s' (insert_class x cs) /\ dom (links s') = dom (links s).
Proof.
  intros cs Hi Hx [nx Hxs] Hxy (t & col & c & Ht & Ei & Hrb) El.
  assert (Hin : (y, l) ∈ cs) by (unfold cs; set_solver).
  assert (Hasc := ix_ascending _ _ Hi). unfold cs, heads in Hasc. rewrite fmap_app in Hasc. cbn in Hasc.
  apply ascending_app in Hasc as (_ & _ & Hlt).
  assert (Eins : insert_class x cs = cs1 ++ (y, l ++ [x]) :: cs2).
  { apply insert_class_old; [|done]. intros d Hd%heads_in. specialize (Hlt d.1 y Hd ltac:(left)).
    pose proof (cmp_flip d.1 x). enough (cmp d.1 x < 0) by lia. eapply cmp_lt_le_trans; [done|exact Hlt|].
    pose proof (cmp_flip x y). pose proof (cmp_flip y x). lia. }
  assert (Hxn : x ∉ y :: l) by (intros H; apply Hx; by eapply in_class).
  assert (Hr0 : ring (initialised x (links s)) y l).
  { eapply ring_frame; [|by apply (ix_ring _ _ Hi)]. intros z Hz. apply initialised_other. intros ->. done. }
  assert (Hx0 : is_Some (initialised x (links s) !! x)).
  { unfold initialised. by apply set_next_is_Some, set_prev_is_Some; rewrite Hxs. }
  rewrite Eins. split; [|by rewrite El, added_dom, initialised_dom]. split.
  - exists t, (fun m => if decide (m = x) then c else col m).
    assert (Em : member_parts (fun m => if decide (m = x) then c else col m) (members (cs1 ++ (y, l ++ [x]) :: cs2)) ≡ₚ
      PNode x (Shape c None None None) :: member_parts col (members cs)).
    { transitivity (member_parts (fun m => if decide (m = x) then c else col m) (x :: members cs)).
      - apply Permutation_map. unfold cs, members. rewrite !bind_app. cbn. solve_Permutation.
      - cbn. rewrite decide_True by done. f_equiv. apply reflexive_eq, member_parts_ext. intros m Hm.
        rewrite decide_False; [done|]. intros ->. apply Hx. set_solver. }
    split; [|split; [|done]].
    + destruct Ht as [H1 H2 H3 H4]. split; [done|done|by rewrite Em|by rewrite Em].
    + rewrite Ei. unfold cs, heads. by rewrite !fmap_app.
  - assert (Hold : forall z k, (z, k) ∈ cs1 ++ cs2 -> ring (added x y (initialised x (links s))) z k).
    { intros z k Hz. assert (Hzc : (z, k) ∈ cs) by (unfold cs; set_solver).
      eapply ring_frame; [|by apply (ix_ring _ _ Hi)]. intros m Hm.
      assert (Hmx : m <> x) by (intros ->; apply Hx; by eapply in_class).
      rewrite (added_other _ _ _ l); [by apply initialised_other|exact Hr0|done| |done|set_solver].
      eapply other_class; [by apply (index_nodup _ _ Hi)|exact Hz|done]. }
    intros z k Hz. rewrite El. apply elem_of_app in Hz as [Hz|[[= -> ->]|Hz]%elem_of_cons].
    + apply Hold. set_solver.
    + apply ring_added; [done|by eapply class_nodup|done|done].
    + apply Hold. set_solver.
  - intros z k m Hz Hm. apply elem_of_app in Hz as [Hz|[[= -> ->]|Hz]%elem_of_cons].
    + apply (ix_equal _ _ Hi z k); [unfold cs; set_solver|done].
    + apply elem_of_app in Hm as [Hm|Hm%list_elem_of_singleton]; [|by subst m]. by apply (ix_equal _ _ Hi y l).
    + apply (ix_equal _ _ Hi z k); [unfold cs; set_solver|done].
  - pose proof (ix_ascending _ _ Hi) as Ha. unfold cs, heads in *. rewrite fmap_app in *. exact Ha.
Qed.


Lemma red_black_leaf k x :
  red_black (plug k E) ->
  ctx_colours k = true /\ is_Some (height (plug k (T true E x E))).
Proof.
  intros [Hc Hh]. rewrite colours_plug in Hc. apply andb_true_iff in Hc as [Hc _]. split; [done|].
  by eapply height_same.
Qed.

(** The leaf is linked and the colours are repaired. *)
Lemma insert_leaf ps s f k x c (Q : unit -> ocf_rb_tree -> Prop) st :
  NoCtx ps -> holds (PNode x (Shape c None None None) :: ps) s (plug (f :: k) E) -> red_black (plug (f :: k) E) ->
  st = (match f with FL _ _ _ => with_left (Some x) | FR _ _ _ => with_right (Some x) end) ->
  (forall s' t, holds ps s' t -> inorder t = before (f :: k) ++ x :: after (f :: k) -> red_black t ->
    links s' = links s -> Q tt s') ->
  wp (_ ← set_node x (with_red true); _ ← set_node x (with_parent (Some (frame_node f)));
      _ ← set_node (frame_node f) st; ocf_rb_tree_fix_violation x) Q s.
Proof.
  intros Hps Hs Hrb -> HQ. apply owns_tree in Hs.
  wp_step. pick 2%nat Hs. eapply wp_set; [apply setter_red|exact Hs|]. intros s1 Ho.
  wp_step. eapply wp_set; [apply setter_parent|exact Ho|]. intros s2 Ho2. cbn in Ho2.
  assert (Hs2 : holds (PNode x (Shape true None None (Some (frame_node f))) :: ps) s2 (plug (f :: k) E)).
  { apply owns_tree. assert (El : links s2 = links s) by apply Ho2. rewrite El. eapply owns_perm; [|exact Ho2]. solve_Permutation. }
  assert (El2 : links s2 = links s) by apply Ho2.
  wp_step. eapply attach_wp; [done|exact Hs2|]. intros s3 Hs3 El3.
  destruct (red_black_leaf _ x Hrb) as [Hc Hh].
  eapply (rb_fix_violation_wp ps s3 (f :: k) E x E); [exact Hs3|exact Hc|done|done|exact Hh|].
  intros s4 (t & Ht & Ei & Hrbt & El4). eapply HQ; [exact Ht| |done|congruence].
  rewrite Ei, inorder_plug. done.
Qed.

Lemma rb_insert_wp s cs x :
  index s cs -> x ∉ heads cs ++ members cs -> is_Some (rb_nodes s !! x) ->
  wp (ocf_rb_tree_insert cmp x) (fun _ s' => index s' (insert_class x cs) /\ dom (links s') = dom (links s)) s.
Proof.
  intros Hi Hx Hn. unfold ocf_rb_tree_insert. apply (insert_start s cs x _ _ Hi Hx Hn).
  assert (Hxs : is_Some (links s !! x)) by (destruct Hn as [n Hn]; unfold links; rewrite lookup_fmap, Hn; done).
  intros s1 t col c Ho Ei Hrb. assert (El : links s1 = initialised x (links s)) by apply Ho.
  assert (Hroot : root s1 = ptr t) by (by destruct Ho as [_ [[_ Hr] _]%Forall_cons _]).
  wp_step. apply wp_get. rewrite Hroot. destruct t as [|tc tl ty tr]; cbn [ptr].
  - (* the first node *)
    wp_step. pick 2%nat Ho. eapply wp_set; [apply setter_red|exact Ho|]. intros s2 Ho2.
    wp_step. eapply wp_set; [apply setter_parent|exact Ho2|]. intros s3 Ho3. cbn in Ho3.
    pick 1%nat Ho3. eapply wp_set_root; [|exact Ho3|].
    { intros h k [E|[E|Hin]%elem_of_cons]%elem_of_cons; [done|done|]. by apply (member_no_ctx col (members cs) h k). }
    intros Ho4. set (s4 := with_root _ _) in *. assert (El4 : links s4 = initialised x (links s)) by apply Ho4.
    eapply (index_lone s cs x s4 [] []); [done|done|done|by rewrite <- Ei|intros z Hz; by apply elem_of_nil in Hz..| |done].
    exists (T false E x E), col. split; [|done].
    apply (owns_tree (member_parts col (members cs)) s4 [] (T false E x E)). rewrite El4.
    goal_pick 1%nat. apply owns_open. cbn [ptr above]. goal_pick 1%nat. apply (proj2 (owns_empty _ _ _ _)).
    pick 2%nat Ho4. apply (proj1 (owns_empty _ _ _ _)) in Ho4.
    goal_pick 1%nat. apply (proj2 (owns_empty _ _ _ _)). eapply owns_perm; [|exact Ho4]. solve_Permutation.
  - set (whole := T tc tl ty tr) in *.
    assert (Hs1 : holds (PNode x (Shape c None None None) :: member_parts col (members cs)) s1 (plug [] whole)).
    { apply owns_tree. rewrite El. exact Ho. }
    wp_step. eapply (insert_descend_wp _ cmp s1 x whole _ [] tc tl ty tr).
    { pose proof (holds_size _ _ _ Hs1) as Hsz. cbn [plug] in Hsz. unfold whole in Hsz at 1. lia. }
    { exact Hs1. }
    { rewrite Ei. apply Hi. }
    { done. }
    { intros z Hz. by apply elem_of_nil in Hz. }
    { intros z Hz. by apply elem_of_nil in Hz. }
    intros p [k yc l y r Ew H0|k yc y r Ew Hlt Hb Ha|k yc y l Ew Hgt Hb Ha]; cbn beta iota.
    + (* joins a ring *)
      rewrite bool_decide_eq_true_2 by done.
      assert (Hy : y ∈ heads cs) by (rewrite <- Ei, Ew, inorder_plug; cbn; set_solver).
      apply list_elem_of_fmap in Hy as ([y' ly] & -> & Hin). cbn [fst] in *.
      assert (Hxn : x ∉ y' :: ly) by (intros H; apply Hx; by eapply in_class).
      eapply (wp_add_tail _ _ _ _ _ ly); [exact Ho| |exact Hxn| |].
      { eapply ring_frame; [|by apply (ix_ring _ _ Hi)]. intros z Hz. apply initialised_other. intros ->. done. }
      { unfold initialised. by apply set_next_is_Some, set_prev_is_Some. }
      intros s2 Ho2. apply list_elem_of_split in Hin as (cs1 & cs2 & ->).
      eapply (index_join s cs1 y' ly cs2 x s2); [done|done|done|done| |by apply Ho2].
      exists whole, col, c. split; [|done].
      apply (owns_tree _ s2 [] whole). assert (El2 : links s2 = added x y' (initialised x (links s))) by apply Ho2. by rewrite El2.
    + rewrite bool_decide_eq_false_2 by lia. rewrite bool_decide_eq_true_2 by done. cbn [plug] in Hs1. rewrite Ew in Hs1, Hrb.
      eapply (insert_leaf _ _ (FL yc y r) k); [|exact Hs1|exact Hrb|done|]; [apply _|].
      intros s2 t2 Ht2 Ei2 Hrb2 El2. eapply index_lone; [done|done|done| | | | |congruence].
      * rewrite <- Ei, Ew, inorder_plug. cbn. reflexivity.
      * exact Hb.
      * exact Ha.
      * exists t2, col. done.
    + rewrite bool_decide_eq_false_2 by lia. rewrite bool_decide_eq_false_2 by lia. cbn [plug] in Hs1. rewrite Ew in Hs1, Hrb.
      eapply (insert_leaf _ _ (FR yc l y) k); [|exact Hs1|exact Hrb|done|]; [apply _|].
      intros s2 t2 Ht2 Ei2 Hrb2 El2. eapply index_lone; [done|done|done| | | | |congruence].
      * rewrite <- Ei, Ew, inorder_plug. cbn. reflexivity.
      * exact Hb.
      * exact Ha.
      * exists t2, col. done.
Qed.

End Index.
