(* ===== verification/RbRemove.v ===== *)
(** * Removal keeps a red-black tree

    The exchange of two nodes, the loop that restores the heights before a black
    leaf is unlinked, and the removal of a node that is alone in its class. *)

From S2P Require Import Prelude RbTree RbShape RbInsert RbIndex.
Open Scope Z_scope.

(** ** Two nodes exchange their places

    [ocf_rb_tree_swap] on the trees of [RbShape]: with a node that is outside
    the tree, with a child and with a node further below.  The keys stay with
    the nodes. *)

#[export] Instance setter_copy n : Setter (ocf_rb_copy_node n) (fun _ => shape_of n).
Proof. by split. Qed.

Lemma ptr_not_in t x : x ∉ inorder t -> ptr t <> Some x.
Proof. destruct t as [|c l y r]; cbn; [done|]. intros Hx [= ->]. apply Hx. set_solver. Qed.

Lemma above_not_in k x : x ∉ ctx_nodes k -> above k <> Some x.
Proof. destruct k as [|f k]; cbn [above]; [done|]. intros Hx [= <-]. apply Hx, frame_in_ctx. Qed.

Lemma top_not_in k h x : x ∉ ctx_nodes k -> h <> Some x -> top k h <> Some x.
Proof.
  revert h. induction k as [|f k IH]; intros h Hx Hh; cbn [top]; [done|].
  apply IH; [|intros [= <-]; apply Hx, frame_in_ctx]. intros H. apply Hx, elem_of_ctx_cons. auto.
Qed.

Section Swap.
Context (ps : list part) `{!NoCtx ps} (lk : gmap Z (Z * Z)).

(** The exchange of the fields, then the links. *)
Lemma swap_start s x y sx sy qs (Q : unit -> ocf_rb_tree -> Prop) k :
  owns lk s (PNode x sx :: PNode y sy :: qs) ->
  (forall s', owns lk s' (PNode x sy :: PNode y sx :: qs) -> wp k Q s') ->
  wp (tmp ← node_at x; n2 ← node_at y; _ ← set_node x (ocf_rb_copy_node n2);
      _ ← set_node y (ocf_rb_copy_node tmp); k) Q s.
Proof.
  intros Ho HQ. wp_step. eapply wp_read; [exact Ho|]. intros n1 E1.
  wp_step. pick 1%nat Ho. eapply wp_read; [exact Ho|]. intros n2 E2.
  wp_step. pick 1%nat Ho. eapply wp_set; [apply _|exact Ho|]. clear s Ho. intros s Ho. cbn beta in Ho.
  wp_step. pick 1%nat Ho. eapply wp_set; [apply _|exact Ho|]. clear s Ho. intros s Ho. cbn beta in Ho.
  apply HQ. rewrite <- E1, <- E2. by goal_pick 1%nat.
Qed.

Lemma unloop_wp s x y sh qs (Q : unit -> ocf_rb_tree -> Prop) :
  owns lk s (PNode x sh :: qs) -> sh_parent sh <> Some x -> sh_left sh <> Some x -> sh_right sh <> Some x ->
  Q tt s -> wp (unloop x y) Q s.
Proof.
  intros Ho H1 H2 H3 HQ. unfold unloop. wp_step. eapply wp_read; [exact Ho|]. intros n <-. cbn in H1, H2, H3.
  rewrite !bool_decide_eq_false_2 by done. by apply wp_ret.
Qed.

Lemma update_children_wp s x c l r p q1 q2 qs (Q : unit -> ocf_rb_tree -> Prop) :
  owns lk s (PNode x (Shape c (ptr l) (ptr r) p) :: PTree q1 l :: PTree q2 r :: qs) ->
  (forall s', owns lk s' (PNode x (Shape c (ptr l) (ptr r) p) :: PTree (Some x) l :: PTree (Some x) r :: qs) -> Q tt s') ->
  wp (ocf_rb_tree_update_children x) Q s.
Proof.
  intros Ho HQ. unfold ocf_rb_tree_update_children. wp_step. eapply wp_read; [exact Ho|]. intros n [= _ -> _ _].
  wp_step. pick 1%nat Ho. eapply wp_reparent; [exact Ho|]. clear s Ho. intros s Ho.
  wp_step. pick 1%nat Ho. eapply wp_read; [exact Ho|]. intros m [= _ _ -> _].
  pick 2%nat Ho. eapply wp_reparent; [exact Ho|]. clear s Ho. intros s Ho.
  apply HQ. eapply owns_perm; [|exact Ho]. solve_Permutation.
Qed.

Lemma update_children_leaf s x c p qs (Q : unit -> ocf_rb_tree -> Prop) :
  owns lk s (PNode x (Shape c None None p) :: qs) -> Q tt s -> wp (ocf_rb_tree_update_children x) Q s.
Proof.
  intros Ho HQ. unfold ocf_rb_tree_update_children. wp_step. eapply wp_read; [exact Ho|]. intros n [= _ -> _ _].
  wp_step. apply wp_ret. wp_step. eapply wp_read; [exact Ho|]. intros m [= _ _ -> _]. by apply wp_ret.
Qed.

(** A link from above to a node that is not there. *)
Lemma update_parent_none s x sh y z qs (Q : unit -> ocf_rb_tree -> Prop) :
  owns lk s (PNode x sh :: qs) -> sh_left sh <> Some y -> sh_right sh <> Some y -> Q tt s ->
  wp (ocf_rb_tree_update_parent (Some x) y z) Q s.
Proof.
  intros Ho H1 H2 HQ. cbn [ocf_rb_tree_update_parent]. wp_step. eapply wp_read; [exact Ho|]. intros n <-.
  cbn in H1, H2. rewrite !bool_decide_eq_false_2 by done. by apply wp_ret.
Qed.

(** The whole segment gets another parent, and another node in its hole. *)
Lemma reparent_seg s p q h k z qs (Q : unit -> ocf_rb_tree -> Prop) :
  k <> [] -> top k h = Some z -> owns lk s (PSeg p h k :: qs) ->
  (forall s', owns lk s' (PSeg q h k :: qs) -> Q tt s') -> wp (set_node z (with_parent q)) Q s.
Proof.
  intros Hk Hz Ho HQ. destruct k as [|f k _] using rev_ind; [done|]. clear Hk.
  assert (E : forall g h, top (g ++ [f]) h = Some (frame_node f)) by (intros g; induction g as [|a g IH]; intros; cbn; [done|apply IH]).
  rewrite E in Hz. injection Hz as <-. apply owns_seg_outer in Ho. pick 1%nat Ho.
  eapply wp_set; [apply setter_parent|exact Ho|]. intros s' Ho'. apply HQ. apply owns_seg_outer.
  goal_pick 1%nat. by destruct f.
Qed.

Lemma update_parent_seg s p y h f k qs (Q : unit -> ocf_rb_tree -> Prop) :
  y ∉ ctx_nodes (f :: k) -> owns lk s (PSeg p (Some y) (f :: k) :: qs) ->
  (forall s', owns lk s' (PSeg p h (f :: k) :: qs) -> Q tt s') ->
  wp (ocf_rb_tree_update_parent (Some (frame_node f)) y h) Q s.
Proof.
  intros Hy Ho HQ. apply owns_seg_inner in Ho. cbn [ocf_rb_tree_update_parent].
  assert (Hb : ptr (beside f) <> Some y) by (apply ptr_not_in; intros H; apply Hy, elem_of_ctx_cons; auto).
  wp_step. eapply wp_read; [exact Ho|]. intros n En.
  destruct f as [c x r|c l x]; cbn [frame_shape frame_node beside] in *; injection En as _ El Er _; rewrite El.
  - rewrite bool_decide_eq_true_2 by done. eapply wp_set; [apply setter_left|exact Ho|]. intros s' Ho'. apply HQ.
    by apply owns_seg_inner.
  - rewrite (bool_decide_eq_false_2 _ Hb), Er, bool_decide_eq_true_2 by done.
    eapply wp_set; [apply setter_right|exact Ho|]. intros s' Ho'. apply HQ. by apply owns_seg_inner.
Qed.

(** ** With a node outside the tree *)

Lemma swap_outside s k c l x r m d (Q : unit -> ocf_rb_tree -> Prop) :
  owns lk s (PCtx (Some x) k :: PTree (above k) (T c l x r) :: PNode m (Shape d None None None) :: ps) ->
  (forall s', owns lk s' (PCtx (Some m) k :: PTree (above k) (T c l m r) :: PNode x (Shape d None None None) :: ps) -> Q tt s') ->
  wp (ocf_rb_tree_swap x m) Q s.
Proof.
  intros Ho HQ.
  assert (Hd : x ∉ ctx_nodes k /\ m ∉ ctx_nodes k /\ m ∉ inorder l /\ m ∉ inorder r /\ m <> x).
  { destruct Ho as [_ _ Hnd]. cbn in Hnd. clear -Hnd. apply NoDup_app in Hnd as (_ & H1 & H2).
    apply NoDup_app in H2 as (_ & H2 & _). cbn in H2.
    split_and!; intros H; [apply (H1 x)|apply (H1 m)|apply (H2 m)|apply (H2 m)|apply (H2 m)]; set_solver. }
  destruct Hd as (Hxk & Hmk & Hml & Hmr & Hmx).
  pick 1%nat Ho. apply owns_open in Ho. pick 4%nat Ho. pick 1%nat Ho.
  unfold ocf_rb_tree_swap. eapply swap_start; [exact Ho|]. clear s Ho. intros s Ho.
  wp_step. eapply unloop_wp; [exact Ho|done|done|done|].
  wp_step. pick 1%nat Ho. eapply unloop_wp; [exact Ho|by apply above_not_in|by apply ptr_not_in|by apply ptr_not_in|].
  wp_step. pick 1%nat Ho. eapply (update_children_leaf _ x); [exact Ho|].
  (* x, m, l, r, k *)
  wp_step. pick 3%nat Ho. pick 3%nat Ho. pick 3%nat Ho. eapply update_children_wp; [exact Ho|]. clear s Ho. intros s Ho.
  wp_step. pick 3%nat Ho. eapply wp_read; [exact Ho|]. intros n1 [= _ _ _ ->].
  wp_step. cbn [ocf_rb_tree_update_parent]. wp_step. apply wp_get.
  rewrite bool_decide_eq_false_2; [|].
  2: { pick 4%nat Ho. destruct Ho as [_ [[_ ->] _]%Forall_cons _]. apply top_not_in; [done|congruence]. }
  cbn [when]. apply wp_ret.
  wp_step. pick 1%nat Ho. eapply wp_read; [exact Ho|]. intros n2 [= _ _ _ ->].
  pick 4%nat Ho. eapply (wp_update_parent _ _ _ (Some m)); [exact Ho|exact Hxk| |].
  { intros h' k'. rewrite !elem_of_cons. specialize (NoCtx0 h' k'). naive_solver. }
  clear s Ho. intros s Ho. apply HQ. goal_pick 1%nat. apply owns_open. eapply owns_perm; [|exact Ho]. solve_Permutation.
Qed.

(** ** With a child *)

(** The link of the node to itself. *)
Lemma unloop_right s y x c l p qs (Q : unit -> ocf_rb_tree -> Prop) :
  owns lk s (PNode y (Shape c l (Some y) p) :: qs) -> p <> Some y -> l <> Some y ->
  (forall s', owns lk s' (PNode y (Shape c l (Some x) p) :: qs) -> Q tt s') -> wp (unloop y x) Q s.
Proof.
  intros Ho H1 H2 HQ. unfold unloop. wp_step. eapply wp_read; [exact Ho|]. intros n [= _ -> -> ->].
  rewrite !(bool_decide_eq_false_2 (_ = Some y)) by done. rewrite bool_decide_eq_true_2 by done.
  by eapply wp_set; [apply setter_right|exact Ho|].
Qed.
Lemma unloop_left s y x c r p qs (Q : unit -> ocf_rb_tree -> Prop) :
  owns lk s (PNode y (Shape c (Some y) r p) :: qs) -> p <> Some y ->
  (forall s', owns lk s' (PNode y (Shape c (Some x) r p) :: qs) -> Q tt s') -> wp (unloop y x) Q s.
Proof.
  intros Ho H1 HQ. unfold unloop. wp_step. eapply wp_read; [exact Ho|]. intros n [= _ -> _ ->].
  rewrite (bool_decide_eq_false_2 (p = Some y)) by done. rewrite bool_decide_eq_true_2 by done.
  by eapply wp_set; [apply setter_left|exact Ho|].
Qed.
Lemma unloop_parent s x y c l r qs (Q : unit -> ocf_rb_tree -> Prop) :
  owns lk s (PNode x (Shape c l r (Some x)) :: qs) ->
  (forall s', owns lk s' (PNode x (Shape c l r (Some y)) :: qs) -> Q tt s') -> wp (unloop x y) Q s.
Proof.
  intros Ho HQ. unfold unloop. wp_step. eapply wp_read; [exact Ho|]. intros n [= _ _ _ ->].
  rewrite bool_decide_eq_true_2 by done. by eapply wp_set; [apply setter_parent|exact Ho|].
Qed.

(** The last two steps: the node below has been linked. *)
Lemma swap_links s x y c l r k qs (Q : unit -> ocf_rb_tree -> Prop) sx :
  NoCtx qs -> owns lk s (PNode x sx :: PNode y (Shape c l r (above k)) :: PCtx (Some x) k :: qs) ->
  sh_parent sx = Some y -> l <> Some y -> r <> Some y -> x ∉ ctx_nodes k ->
  (forall s', owns lk s' (PNode x sx :: PNode y (Shape c l r (above k)) :: PCtx (Some y) k :: qs) -> Q tt s') ->
  wp (n1 ← node_at x; _ ← ocf_rb_tree_update_parent (parent n1) y (Some x);
      n2 ← node_at y; ocf_rb_tree_update_parent (parent n2) x (Some y)) Q s.
Proof.
  intros Hqs Ho Hp H1 H2 Hx HQ. wp_step. eapply wp_read; [exact Ho|]. intros n1 <-. cbn in Hp. rewrite Hp.
  wp_step. pick 1%nat Ho. eapply update_parent_none; [exact Ho|exact H1|exact H2|].
  wp_step. eapply wp_read; [exact Ho|]. intros n2 [= _ _ _ ->].
  pick 2%nat Ho. eapply (wp_update_parent _ _ _ (Some y)); [exact Ho|exact Hx| |].
  { intros h' k'. rewrite !elem_of_cons. specialize (Hqs h' k'). naive_solver. }
  intros s' Ho'. apply HQ. eapply owns_perm; [|exact Ho']. solve_Permutation.
Qed.

Lemma swap_right s k c l x d a y b (Q : unit -> ocf_rb_tree -> Prop) :
  owns lk s (PCtx (Some x) k :: PTree (above k) (T c l x (T d a y b)) :: ps) ->
  (forall s', owns lk s' (PCtx (Some y) k :: PTree (above k) (T c l y (T d a x b)) :: ps) -> Q tt s') ->
  wp (ocf_rb_tree_swap x y) Q s.
Proof.
  intros Ho HQ.
  assert (Hd : x ∉ ctx_nodes k /\ y ∉ ctx_nodes k /\ y <> x /\ y ∉ inorder l /\ x ∉ inorder a /\ x ∉ inorder b).
  { apply ow_nodup in Ho. cbn in Ho. clear -Ho. apply NoDup_app in Ho as (_ & H1 & Ho). split; [|split]; [intros H; apply (H1 _ H); set_solver..|].
    rewrite <- app_assoc in Ho. apply NoDup_app in Ho as (_ & H2 & Ho). cbn in Ho. apply NoDup_cons in Ho as [H3 _].
    split_and!; intros H; [|apply (H2 y); set_solver|..]; subst; apply H3; set_solver. }
  destruct Hd as (Hxk & Hyk & Hyx & Hyl & Hxa & Hxb).
  pick 1%nat Ho. apply owns_open in Ho. pick 2%nat Ho. apply owns_open in Ho. cbn [ptr] in Ho. pick 3%nat Ho.
  (* x, y, a, b, l, k *)
  unfold ocf_rb_tree_swap. eapply swap_start; [exact Ho|]. clear s Ho. intros s Ho.
  wp_step. eapply unloop_parent; [exact Ho|]. clear s Ho. intros s Ho.
  wp_step. pick 1%nat Ho. eapply (unloop_right _ y x); [exact Ho|by apply above_not_in|by apply ptr_not_in|]. clear s Ho. intros s Ho.
  wp_step. pick 3%nat Ho. pick 3%nat Ho. pick 3%nat Ho. eapply update_children_wp; [exact Ho|]. clear s Ho. intros s Ho.
  apply (proj2 (owns_open _ _ _ _ _ _ _ _)) in Ho.
  wp_step. pick 1%nat Ho. pick 2%nat Ho. pick 1%nat Ho. eapply (update_children_wp _ y c l (T d a x b)); [exact Ho|]. clear s Ho. intros s Ho.
  pick 2%nat Ho. apply owns_open in Ho. pick 5%nat Ho. pick 4%nat Ho. pick 2%nat Ho.
  eapply swap_links; [|exact Ho|done|by apply ptr_not_in|cbn; congruence|done|]; [apply _|].
  clear s Ho. intros s Ho. apply HQ. goal_pick 1%nat. apply owns_open. goal_pick 2%nat. apply owns_open.
  eapply owns_perm; [|exact Ho]. solve_Permutation.
Qed.

Lemma swap_left s k c x r d a y b (Q : unit -> ocf_rb_tree -> Prop) :
  owns lk s (PCtx (Some x) k :: PTree (above k) (T c (T d a y b) x r) :: ps) ->
  (forall s', owns lk s' (PCtx (Some y) k :: PTree (above k) (T c (T d a x b) y r) :: ps) -> Q tt s') ->
  wp (ocf_rb_tree_swap x y) Q s.
Proof.
  intros Ho HQ.
  assert (Hd : x ∉ ctx_nodes k /\ y ∉ ctx_nodes k /\ y <> x /\ y ∉ inorder r /\ x ∉ inorder a /\ x ∉ inorder b).
  { apply ow_nodup in Ho. cbn in Ho. clear -Ho. apply NoDup_app in Ho as (_ & H1 & Ho). split; [|split]; [intros H; apply (H1 _ H); set_solver..|].
    rewrite <- !app_assoc in Ho. cbn in Ho. apply NoDup_app in Ho as (_ & H2 & Ho). apply NoDup_cons in Ho as [H3 Ho].
    apply NoDup_app in Ho as (_ & H4 & _).
    split_and!; intros H; [subst; apply H3; set_solver|apply H3; set_solver|apply (H2 x); set_solver|apply (H4 x); set_solver]. }
  destruct Hd as (Hxk & Hyk & Hyx & Hyl & Hxa & Hxb).
  pick 1%nat Ho. apply owns_open in Ho. pick 1%nat Ho. apply owns_open in Ho. cbn [ptr] in Ho. pick 3%nat Ho.
  (* x, y, a, b, r, k *)
  unfold ocf_rb_tree_swap. eapply swap_start; [exact Ho|]. clear s Ho. intros s Ho.
  wp_step. eapply unloop_parent; [exact Ho|]. clear s Ho. intros s Ho.
  wp_step. pick 1%nat Ho. eapply (unloop_left _ y x); [exact Ho|by apply above_not_in|]. clear s Ho. intros s Ho.
  wp_step. pick 3%nat Ho. pick 3%nat Ho. pick 3%nat Ho. eapply update_children_wp; [exact Ho|]. clear s Ho. intros s Ho.
  apply (proj2 (owns_open _ _ _ _ _ _ _ _)) in Ho.
  wp_step. pick 1%nat Ho. eapply (update_children_wp _ y c (T d a x b) r); [exact Ho|]. clear s Ho. intros s Ho.
  pick 1%nat Ho. apply owns_open in Ho. pick 5%nat Ho. pick 4%nat Ho. pick 2%nat Ho.
  eapply swap_links; [|exact Ho|done|cbn; congruence|by apply ptr_not_in|done|]; [apply _|].
  clear s Ho. intros s Ho. apply HQ. goal_pick 1%nat. apply owns_open. goal_pick 1%nat. apply owns_open.
  eapply owns_perm; [|exact Ho]. solve_Permutation.
Qed.

(** ** With a node further below *)

Lemma top_some g q : exists z, top g (Some q) = Some z /\ (z = q \/ z ∈ ctx_nodes g).
Proof.
  revert q. induction g as [|f g IH]; intros q; cbn [top]; [eauto|].
  destruct (IH (frame_node f)) as (z & E & H). exists z. split; [done|]. right. apply elem_of_ctx_cons. tauto.
Qed.

Lemma swap_deep s k c l x d a y b f g (Q : unit -> ocf_rb_tree -> Prop) :
  owns lk s (PCtx (Some x) k :: PTree (above k) (T c l x (plug (f :: g) (T d a y b))) :: ps) ->
  (forall s', owns lk s' (PCtx (Some y) k :: PTree (above k) (T c l y (plug (f :: g) (T d a x b))) :: ps) -> Q tt s') ->
  wp (ocf_rb_tree_swap x y) Q s.
Proof.
  intros Ho HQ.
  destruct (top_some g (frame_node f)) as (z & Ez & Hz).
  assert (Ep : forall t, ptr (plug (f :: g) t) = Some z) by (intros t; rewrite top_plug; exact Ez).
  assert (Hzf : z ∈ ctx_nodes (f :: g)) by (apply elem_of_ctx_cons; tauto). clear Hz.
  pick 1%nat Ho. apply owns_open in Ho. rewrite Ep in Ho. pick 2%nat Ho. apply owns_seg in Ho.
  pick 1%nat Ho. apply owns_open in Ho. cbn [ptr above_or] in Ho. pick 4%nat Ho.
  (* x, y, a, b, segment, l, k *)
  assert (Hd : x ∉ ctx_nodes k /\ y ∉ ctx_nodes k /\ y ∉ inorder l /\ x ∉ inorder a /\ x ∉ inorder b /\
    x ∉ ctx_nodes (f :: g) /\ y ∉ ctx_nodes (f :: g)).
  { apply ow_nodup in Ho. cbn [mbind list_bind part_nodes] in Ho. clear -Ho. apply NoDup_cons in Ho as [H1 [H2 _]%NoDup_cons].
    split_and!; set_solver. }
  destruct Hd as (Hxk & Hyk & Hyl & Hxa & Hxb & Hxf & Hyf).
  assert (Hqx : Some (frame_node f) <> Some x) by (intros [= <-]; apply Hxf, frame_in_ctx).
  assert (Hzy : Some z <> Some y) by congruence.
  unfold ocf_rb_tree_swap. eapply swap_start; [exact Ho|]. clear s Ho. intros s Ho.
  wp_step. eapply unloop_wp; [exact Ho|exact Hqx|by apply ptr_not_in|by apply ptr_not_in|].
  wp_step. pick 1%nat Ho. eapply unloop_wp; [exact Ho|by apply above_not_in|by apply ptr_not_in|exact Hzy|].
  wp_step. pick 3%nat Ho. pick 3%nat Ho. pick 3%nat Ho. eapply update_children_wp; [exact Ho|]. clear s Ho. intros s Ho.
  (* x, a, b, y, segment, l, k *)
  unfold ocf_rb_tree_update_children at 1.
  wp_step. wp_step. pick 3%nat Ho. eapply wp_read; [exact Ho|]. intros n [= _ -> _ _].
  wp_step. pick 5%nat Ho. eapply wp_reparent; [exact Ho|]. clear s Ho. intros s Ho.
  wp_step. pick 1%nat Ho. eapply wp_read; [exact Ho|]. intros m [= _ _ -> _].
  pick 5%nat Ho. cbn [set_if]. eapply (reparent_seg _ _ _ _ (f :: g)); [|exact Ez|exact Ho|]; [done|]. clear s Ho. intros s Ho.
  (* segment, y, l, x, a, b, k *)
  wp_step. pick 3%nat Ho. eapply wp_read; [exact Ho|]. intros n1 [= _ _ _ ->].
  wp_step. pick 1%nat Ho. eapply (update_parent_seg _ _ _ (Some x)); [exact Hyf|exact Ho|]. clear s Ho. intros s Ho.
  wp_step. pick 2%nat Ho. eapply wp_read; [exact Ho|]. intros n2 [= _ _ _ ->].
  pick 6%nat Ho. eapply (wp_update_parent _ _ _ (Some y)); [exact Ho|exact Hxk| |].
  { intros h' k'. rewrite !elem_of_cons. specialize (NoCtx0 h' k'). naive_solver. }
  clear s Ho. intros s Ho. apply HQ. goal_pick 1%nat. apply owns_open. rewrite Ep. goal_pick 2%nat. apply owns_seg.
  goal_pick 1%nat. apply owns_open. cbn [ptr above_or]. eapply owns_perm; [|exact Ho]. solve_Permutation.
Qed.
End Swap.

(** ** Removal *)

Lemma plug_app k1 k2 t : plug (k1 ++ k2) t = plug k2 (plug k1 t).
Proof. revert t. induction k1 as [|f k1 IH]; intros t; [done|]. apply IH. Qed.
Lemma before_app k1 k2 : before (k1 ++ k2) = before k2 ++ before k1.
Proof. induction k1 as [|[] k1 IH]; cbn; rewrite ?IH, ?app_nil_r, <- ?app_assoc; done. Qed.
Lemma after_app k1 k2 : after (k1 ++ k2) = after k1 ++ after k2.
Proof. induction k1 as [|[] k1 IH]; cbn; rewrite ?IH, <- ?app_assoc; done. Qed.

Ltac flat := cbn; rewrite ?app_nil_r; repeat (rewrite <- app_assoc; cbn [app]); reflexivity.

(** Frames that take the place of a frame. *)
Lemma before_frames k0 kv f k : before kv = before [f] -> before (k0 ++ kv ++ k) = before (k0 ++ f :: k).
Proof. intros E. change (f :: k) with ([f] ++ k). by rewrite !before_app, E. Qed.
Lemma after_frames k0 kv f k : after kv = after [f] -> after (k0 ++ kv ++ k) = after (k0 ++ f :: k).
Proof. intros E. change (f :: k) with ([f] ++ k). by rewrite !after_app, E. Qed.

Section Beside.
Context (ps : list part) `{!NoCtx ps}.
Local Abbreviation holds := (RbShape.holds ps).

(** The sibling of a node. *)
Lemma sibling_wp s f k t y (Q : option Z -> ocf_rb_tree -> Prop) :
  holds s (plug (f :: k) t) -> ptr t = Some y -> Q (ptr (beside f)) s -> wp (ocf_rb_tree_sibling y) Q s.
Proof.
  intros Hs Hy HQ. destruct t as [|c l y' r]; [done|]. injection Hy as ->. unfold ocf_rb_tree_sibling.
  pose proof (sibling_not_parent _ _ _ _ _ _ _ _ Hs) as Hb.
  wp_step. eapply (wp_tree_node _ s (f :: k)); [exact Hs|]. intros n _ _ _ ->. cbn [above].
  wp_step. eapply wp_above; [exact Hs|]. intros p _ _ El Er.
  destruct f as [fc x t|fc t x]; cbn [frame_node beside ptr] in *; rewrite El.
  - rewrite bool_decide_eq_true_2 by done. rewrite Er. by apply wp_ret.
  - rewrite bool_decide_eq_false_2 by done. by apply wp_ret.
Qed.

(** [x] is a black leaf: [plug k X] with it, [plug k E] without it. *)
Section Leaf.
Context (x : Z).
Local Abbreviation X := (T false E x E).

Definition unlinkable (lk : gmap Z (Z * Z)) (b a : list Z) (s : ocf_rb_tree) : Prop :=
  exists k, holds s (plug k X) /\ red_black (plug k E) /\ before k = b /\ after k = a /\ links s = lk.

Lemma unlinkable_done s k k0 b a :
  holds s (plug k (plug k0 X)) -> ctx_colours k = true -> colours (ctx_red k) (plug k0 E) = true ->
  is_Some (height (plug k (plug k0 E))) -> before (k0 ++ k) = b -> after (k0 ++ k) = a ->
  unlinkable (links s) b a s.
Proof.
  intros Hs Hk Hc Hh Hb Ha. exists (k0 ++ k). rewrite !plug_app. split; [done|]. split; [|done].
  split; [|done]. by rewrite colours_plug, Hk, Hc.
Qed.

(** [node->parent->red = false]. *)
Lemma blacken_wp s f k t y (Q : unit -> ocf_rb_tree -> Prop) :
  holds s (plug (f :: k) t) -> ptr t = Some y ->
  (forall s', holds s' (plug k (fill (match f with FL _ x r => FL false x r | FR _ l x => FR false l x end) t)) ->
    links s' = links s -> Q tt s') ->
  wp (blacken_parent y) Q s.
Proof.
  intros Hs Hy HQ. destruct t as [|c l y' r]; [done|]. injection Hy as ->. unfold blacken_parent.
  wp_step. eapply (wp_tree_node _ s (f :: k)); [exact Hs|]. intros n _ _ _ ->. cbn [above].
  wp_step. eapply wp_load; [done|]. destruct f; (eapply (holds_red _ s k); [exact Hs|exact HQ]).
Qed.

Definition black_spec (fuel : nat) : Prop := forall k k0 y h u s (Q : unit -> ocf_rb_tree -> Prop),
  (2 + (if ctx_red k then 0 else length k) <= fuel)%nat ->
  ptr (plug k0 X) = Some y -> holds s (plug k (plug k0 X)) -> ctx_colours k = true ->
  colours false (plug k0 E) = true -> red_of (plug k0 E) = false -> height (plug k0 E) = Some h ->
  height u = Some (S h) -> is_Some (height (plug k u)) ->
  (forall s', unlinkable (links s) (before (k0 ++ k)) (after (k0 ++ k)) s' -> Q tt s') ->
  wp (fix_double_black_loop fuel y) Q s.

(** The frames [kv] take the place of [f]. *)
Lemma unlinkable_at lk s k kv f k0 u b a :
  holds s (plug k (plug kv (plug k0 X))) -> ctx_colours k = true ->
  colours (ctx_red k) (plug kv (plug k0 E)) = true ->
  is_Some (height (plug k u)) -> height (plug kv (plug k0 E)) = height u ->
  before kv = before [f] -> after kv = after [f] -> links s = lk ->
  b = before (k0 ++ f :: k) -> a = after (k0 ++ f :: k) ->
  unlinkable lk b a s.
Proof.
  intros Hs Hk Hc Hh Eh Hb Ha <- -> ->. eapply (unlinkable_done _ k (k0 ++ kv)); [by rewrite plug_app|done|by rewrite plug_app| | |].
  - rewrite plug_app. by eapply height_same.
  - rewrite <- app_assoc. by apply before_frames.
  - rewrite <- app_assoc. by apply after_frames.
Qed.

Lemma borrow_left_wp s f k t y nl n nr sx sr (Q : unit -> ocf_rb_tree -> Prop) :
  beside f = T false (T true nl n nr) sx sr -> holds s (plug (f :: k) t) -> ptr t = Some y ->
  (forall s', holds s' (plug k (match f with
     | FL c p _ => T c (T false t p nl) n (T false nr sx sr)
     | FR c _ p => T c (T false nl n nr) sx (T false sr p t) end)) -> links s' = links s -> Q tt s') ->
  wp (_ ← borrow_left (frame_node f) sx n; blacken_parent y) Q s.
Proof.
  intros Hf Hs Hy HQ. destruct t as [|tc tl y' tr]; [done|]. injection Hy as ->.
  pose proof (sibling_not_parent _ _ _ _ _ _ _ _ Hs) as Hb.
  wp_step. unfold borrow_left. wp_step. eapply wp_above; [exact Hs|]. intros u Eu _ El _.
  destruct f as [c p r|c l p]; cbn [beside frame_node frame_red plug fill ptr] in *; subst; cbn [ptr] in Hb, El.
  - wp_step. eapply (wp_tree_node _ s (FR (red u) (T tc tl y tr) p :: k)); [exact Hs|]. intros m Em _ _ _.
    rewrite El, bool_decide_eq_false_2 by congruence.
    wp_step. wp_step. eapply (holds_red _ s (FL false sx sr :: FR (red u) (T tc tl y tr) p :: k)); [exact Hs|]. intros s1 Hs1 E1.
    wp_step. eapply (holds_rotate_right _ s1 (FR (red u) (T tc tl y tr) p :: k)); [exact Hs1|]. intros s2 Hs2 E2.
    eapply (holds_rotate_left _ s2 k); [exact Hs2|]. intros s3 Hs3 E3. apply wp_ret.
    eapply (blacken_wp s3 (FL (red u) p nl) (FL (red u) n (T false nr sx sr) :: k)); [exact Hs3|done|].
    intros s4 Hs4 E4. apply HQ; [exact Hs4|congruence].
  - wp_step. eapply (wp_tree_node _ s (FL (red u) p (T tc tl y tr) :: k)); [exact Hs|]. intros m Em _ _ _.
    rewrite El, bool_decide_eq_true_2, Em by congruence.
    wp_step. wp_step. eapply (holds_red _ s (FL false sx sr :: FL (red u) p (T tc tl y tr) :: k)); [exact Hs|]. intros s1 Hs1 E1.
    wp_step. eapply (holds_red _ s1 (FL (red u) p (T tc tl y tr) :: k)); [exact Hs1|]. intros s2 Hs2 E2.
    eapply (holds_rotate_right _ s2 k); [exact Hs2|]. intros s3 Hs3 E3. apply wp_ret.
    eapply (blacken_wp s3 (FR (red u) sr p) (FR (red u) (T false nl n nr) sx :: k)); [exact Hs3|done|].
    intros s4 Hs4 E4. apply HQ; [exact Hs4|congruence].
Qed.

Lemma borrow_right_wp s f k t y sl sx nl n nr (Q : unit -> ocf_rb_tree -> Prop) :
  beside f = T false sl sx (T true nl n nr) -> holds s (plug (f :: k) t) -> ptr t = Some y ->
  (forall s', holds s' (plug k (match f with
     | FL c p _ => T c (T false t p sl) sx (T false nl n nr)
     | FR c _ p => T c (T false sl sx nl) n (T false nr p t) end)) -> links s' = links s -> Q tt s') ->
  wp (_ ← borrow_right (frame_node f) sx n; blacken_parent y) Q s.
Proof.
  intros Hf Hs Hy HQ. destruct t as [|tc tl y' tr]; [done|]. injection Hy as ->.
  pose proof (sibling_not_parent _ _ _ _ _ _ _ _ Hs) as Hb.
  wp_step. unfold borrow_right. wp_step. eapply wp_above; [exact Hs|]. intros u Eu _ El _.
  destruct f as [c p r|c l p]; cbn [beside frame_node frame_red plug fill ptr] in *; subst; cbn [ptr] in Hb, El.
  - wp_step. eapply (wp_tree_node _ s (FR (red u) (T tc tl y tr) p :: k)); [exact Hs|]. intros m Em _ _ _.
    rewrite El, bool_decide_eq_false_2, Em by congruence.
    wp_step. wp_step. eapply (holds_red _ s (FR false sl sx :: FR (red u) (T tc tl y tr) p :: k)); [exact Hs|]. intros s1 Hs1 E1.
    wp_step. eapply (holds_red _ s1 (FR (red u) (T tc tl y tr) p :: k)); [exact Hs1|]. intros s2 Hs2 E2.
    eapply (holds_rotate_left _ s2 k); [exact Hs2|]. intros s3 Hs3 E3. apply wp_ret.
    eapply (blacken_wp s3 (FL (red u) p sl) (FL (red u) sx (T false nl n nr) :: k)); [exact Hs3|done|].
    intros s4 Hs4 E4. apply HQ; [exact Hs4|congruence].
  - wp_step. eapply (wp_tree_node _ s (FL (red u) p (T tc tl y tr) :: k)); [exact Hs|]. intros m Em _ _ _.
    rewrite El, bool_decide_eq_true_2 by congruence.
    wp_step. wp_step. eapply (holds_red _ s (FR false sl sx :: FL (red u) p (T tc tl y tr) :: k)); [exact Hs|]. intros s1 Hs1 E1.
    wp_step. eapply (holds_rotate_left _ s1 (FL (red u) p (T tc tl y tr) :: k)); [exact Hs1|]. intros s2 Hs2 E2.
    eapply (holds_rotate_right _ s2 k); [exact Hs2|]. intros s3 Hs3 E3. apply wp_ret.
    eapply (blacken_wp s3 (FR (red u) nr p) (FR (red u) (T false sl sx nl) n :: k)); [exact Hs3|done|].
    intros s4 Hs4 E4. apply HQ; [exact Hs4|congruence].
Qed.

(** A red sibling goes up: the node gets a black one. *)
Definition lower (f : frame) (sl : tree) (sx : Z) (sr : tree) : ctx :=
  match f with
  | FL _ p _ => [FL true p sl; FL false sx sr]
  | FR _ _ p => [FR true sr p; FR false sl sx]
  end.

Lemma lower_order f sl sx sr :
  beside f = T true sl sx sr -> before (lower f sl sx sr) = before [f] /\ after (lower f sl sx sr) = after [f].
Proof.
  destruct f; cbn; intros ->; split; cbn; rewrite ?app_nil_r, <- ?app_assoc; done.
Qed.

Lemma lower_wp s f k t y sl sx sr (Q : unit -> ocf_rb_tree -> Prop) m :
  beside f = T true sl sx sr -> holds s (plug (f :: k) t) -> ptr t = Some y ->
  (forall s', holds s' (plug k (plug (lower f sl sx sr) t)) -> links s' = links s -> wp m Q s') ->
  wp (_ ← set_node (frame_node f) (with_red true); _ ← set_node sx (with_red false);
      u ← node_at (frame_node f);
      _ ← (if bool_decide (left u = Some sx) then ocf_rb_tree_rotate_right (frame_node f)
           else ocf_rb_tree_rotate_left (frame_node f)); m) Q s.
Proof.
  intros Hf Hs Hy HQ. destruct t as [|tc tl y' tr]; [done|]. injection Hy as ->.
  pose proof (sibling_not_parent _ _ _ _ _ _ _ _ Hs) as Hb.
  destruct f as [c p r|c l p]; cbn [beside frame_node plug fill lower] in *; subst; cbn [ptr] in Hb.
  - wp_step. eapply (holds_red _ s k); [exact Hs|]. intros s1 Hs1 E1.
    wp_step. eapply (holds_red _ s1 (FR true (T tc tl y tr) p :: k)); [exact Hs1|]. intros s2 Hs2 E2.
    wp_step. eapply (wp_tree_node _ s2 k); [exact Hs2|]. intros u _ El _ _. rewrite El. cbn [ptr].
    rewrite bool_decide_eq_false_2 by congruence. wp_step.
    eapply (holds_rotate_left _ s2 k); [exact Hs2|]. intros s3 Hs3 E3. apply HQ; [exact Hs3|congruence].
  - wp_step. eapply (holds_red _ s k); [exact Hs|]. intros s1 Hs1 E1.
    wp_step. eapply (holds_red _ s1 (FL true p (T tc tl y tr) :: k)); [exact Hs1|]. intros s2 Hs2 E2.
    wp_step. eapply (wp_tree_node _ s2 k); [exact Hs2|]. intros u _ El _ _. rewrite El. cbn [ptr].
    rewrite bool_decide_eq_true_2 by congruence. wp_step.
    eapply (holds_rotate_right _ s2 k); [exact Hs2|]. intros s3 Hs3 E3. apply HQ; [exact Hs3|congruence].
Qed.

(** The frame of the sibling. *)
Definition flip (f : frame) (t : tree) : frame := match f with FL c p _ => FR c t p | FR c _ p => FL c p t end.
Lemma fill_flip f t : fill (flip f t) (beside f) = fill f t.
Proof. by destruct f. Qed.

(** The frame with other colours. *)
Definition painted (f : frame) (c : bool) (b : tree) : frame := match f with FL _ p _ => FL c p b | FR _ _ p => FR c b p end.

Lemma painted_order f c b : inorder b = inorder (beside f) ->
  before [painted f c b] = before [f] /\ after [painted f c b] = after [f].
Proof. by destruct f; cbn; intros ->. Qed.

(** One round of the loop, for the node [y] below the frame [f]: the heights are
    right when [u] is in the hole. *)
Section Round.
Context (fuel : nat) (IH : black_spec fuel) (k : ctx) (f : frame) (k0 : ctx) (y : Z) (h : nat) (u : tree)
  (s : ocf_rb_tree) (Q : unit -> ocf_rb_tree -> Prop).
Context (Hfuel : (2 + (if frame_red f then 0 else S (length k)) <= S fuel)%nat).
Context (Hy : ptr (plug k0 X) = Some y) (Hs : holds s (plug (f :: k) (plug k0 X))).
Context (Hk : ctx_colours k = true) (Hf : ctx_red k && frame_red f = false) (Hb : colours (frame_red f) (beside f) = true).
Context (Hc : colours false (plug k0 E) = true) (Hblack : red_of (plug k0 E) = false) (Hh : height (plug k0 E) = Some h).
Context (Hu : height u = Some (S h)) (Hbh : height (beside f) = Some (S h)) (Hku : is_Some (height (plug k (fill f u)))).
Context (HQ : forall s', unlinkable (links s) (before (k0 ++ f :: k)) (after (k0 ++ f :: k)) s' -> Q tt s').

Ltac of_frame := destruct f; cbn [beside frame_red] in *; subst; use_heights; simplify_eq; cbn [painted]; same_height.

Lemma round_red_sibling sl sx sr : beside f = T true sl sx sr ->
  forall s1, holds s1 (plug k (plug (lower f sl sx sr) (plug k0 X))) -> links s1 = links s ->
  wp (fix_double_black_loop fuel y) Q s1.
Proof.
  intros Ef s1 Hs1 E1. rewrite Ef in Hb, Hbh. cbn [colours] in Hb. split_bools. destruct (frame_red f) eqn:Efr; [done|].
  rewrite <- plug_app in Hs1. eapply (IH (lower f sl sx sr ++ k) k0 y h u s1); [|done|exact Hs1| |done|done|done|exact Hu| |].
  - destruct f; cbn in *; lia.
  - destruct f; cbn; good_colours; rewrite ?andb_false_r; done.
  - rewrite plug_app. eapply height_same; [exact Hku|]. destruct f; cbn [beside frame_red lower] in *; subst; use_heights; subst; same_height.
  - intros s' H'. apply HQ. rewrite <- E1. destruct (lower_order _ _ _ _ Ef) as [Eb Ea].
    by rewrite <- (before_frames k0 _ f k Eb), <- (after_frames k0 _ f k Ea).
Qed.

Lemma round_left_nephew nl nx nr sx sr : beside f = T false (T true nl nx nr) sx sr ->
  wp (_ ← borrow_left (frame_node f) sx nx; blacken_parent y) Q s.
Proof.
  intros Ef. rewrite Ef in Hb, Hbh. eapply borrow_left_wp; [exact Ef|exact Hs|exact Hy|]. intros s1 Hs1 E1. apply HQ.
  eapply (unlinkable_at _ s1 k (match f with
    | FL c p _ => [FL false p nl; FL c nx (T false nr sx sr)] | FR c _ p => [FR false sr p; FR c (T false nl nx nr) sx] end) f k0 (fill f u));
    [by destruct f|done| |exact Hku| | | |done|done|done].
  - destruct f; cbn; cbn in *; good_colours; by rewrite ?Hf, ?andb_false_r.
  - of_frame.
  - destruct f; cbn in *; subst; flat.
  - destruct f; cbn in *; subst; flat.
Qed.

Lemma round_right_nephew sl sx nl nx nr : red_of sl = false -> beside f = T false sl sx (T true nl nx nr) ->
  wp (_ ← borrow_right (frame_node f) sx nx; blacken_parent y) Q s.
Proof.
  intros Hsl Ef. rewrite Ef in Hb, Hbh. eapply borrow_right_wp; [exact Ef|exact Hs|exact Hy|]. intros s1 Hs1 E1. apply HQ.
  eapply (unlinkable_at _ s1 k (match f with
    | FL c p _ => [FL false p sl; FL c sx (T false nl nx nr)] | FR c _ p => [FR false nr p; FR c (T false sl sx nl) nx] end) f k0 (fill f u));
    [by destruct f|done| |exact Hku| | | |done|done|done].
  - destruct f; cbn; cbn in *; good_colours; by rewrite ?Hf, ?andb_false_r.
  - of_frame.
  - destruct f; cbn in *; subst; flat.
  - destruct f; cbn in *; subst; flat.
Qed.

Lemma round_red_parent sl sx sr s1 : frame_red f = true -> beside f = T false sl sx sr ->
  red_of sl = false -> red_of sr = false ->
  holds s1 (plug k (fill (painted f (frame_red f) (T true sl sx sr)) (plug k0 X))) -> links s1 = links s ->
  wp (set_node (frame_node f) (with_red false)) Q s1.
Proof.
  intros Ered Ef Hsl Hsr Hs1 E1. rewrite Ef in Hb, Hbh.
  assert (Hkids : colours true sl = true /\ colours true sr = true).
  { cbn in Hb. split_bools. by rewrite !(colours_black true). }
  destruct Hkids. destruct (painted_order f false (T true sl sx sr)) as [Eb Ea]; [by rewrite Ef|].
  assert (Hgo : forall s', holds s' (plug k (plug [painted f false (T true sl sx sr)] (plug k0 X))) -> links s' = links s1 -> Q tt s').
  { intros s2 Hs2 E2. apply HQ.
    eapply (unlinkable_at _ s2 k [_] f k0 (fill f u)); [exact Hs2|done| |exact Hku| |exact Eb|exact Ea|congruence|done|done].
    - clear Eb Ea. destruct f; cbn; cbn in *; good_colours; by rewrite ?andb_false_r.
    - of_frame. }
  destruct f; (eapply (holds_red _ s1 k); [exact Hs1|exact Hgo]).
Qed.

Lemma round_black_parent sl sx sr s1 : frame_red f = false -> beside f = T false sl sx sr ->
  red_of sl = false -> red_of sr = false ->
  holds s1 (plug k (fill (painted f (frame_red f) (T true sl sx sr)) (plug k0 X))) -> links s1 = links s ->
  wp (fix_double_black_loop fuel (frame_node f)) Q s1.
Proof.
  intros Ered Ef Hsl Hsr Hs1 E1. rewrite Ef in Hb, Hbh. rewrite Ered in Hfuel, Hs1.
  assert (Hkids : colours true sl = true /\ colours true sr = true).
  { rewrite Ered in Hb. cbn in Hb. split_bools. by rewrite !(colours_black true). }
  destruct Hkids. destruct (painted_order f false (T true sl sx sr)) as [Eb Ea]; [by rewrite Ef|].
  eapply (IH k (k0 ++ [painted f false (T true sl sx sr)]) _ (S h) (fill f u) s1); rewrite ?plug_app;
    [|by destruct f|exact Hs1|done| | | | |exact Hku|].
  - destruct (ctx_red k); lia.
  - clear Eb Ea. destruct f; cbn; cbn in *; subst; good_colours; by rewrite ?andb_false_r.
  - by destruct f.
  - of_frame.
  - of_frame.
  - intros s' H'. apply HQ. rewrite <- E1. rewrite <- !app_assoc in H'.
    by rewrite <- (before_frames k0 _ f k Eb), <- (after_frames k0 _ f k Ea).
Qed.
End Round.

Lemma fix_double_black_loop_wp fuel : black_spec fuel.
Proof.
  induction fuel as [|fuel IH]; intros k k0 y h u s Q Hfuel Hy Hs Hk Hc Hblack Hh Hu Hku HQ; [lia|].
  assert (Hnode : exists c l r, plug k0 X = T c l y r).
  { destruct (plug k0 X) as [|c l y' r]; [done|]. injection Hy as ->. eauto. }
  destruct Hnode as (tc & tl & tr & Et).
  cbn [fix_double_black_loop]. wp_step. eapply (wp_tree_node _ s k); [rewrite <- Et; exact Hs|]. intros n _ _ _ ->.
  destruct k as [|f k]; cbn [above].
  { apply wp_ret, HQ. eapply (unlinkable_done s []); [exact Hs|done| |cbn [plug]; rewrite Hh; eauto|done|done].
    by rewrite colours_black. }
  wp_step. eapply sibling_wp; [exact Hs|exact Hy|].
  assert (Hhs : height (beside f) = Some (S h)).
  { cbn [plug] in Hku. apply height_hole in Hku as [v Hv]. clear -Hu Hv. destruct f; cbn [fill beside] in *; use_heights; congruence. }
  cbn [ctx_colours] in Hk. split_bools. cbn [ctx_red length] in Hfuel.
  destruct (beside f) as [|sc sl sx sr] eqn:Ef; [done|]. cbn [ptr].
  assert (Hsib : holds s (plug (flip f (plug k0 X) :: k) (T sc sl sx sr))).
  { cbn [plug]. rewrite <- Ef, fill_flip. exact Hs. }
  pose proof Hhs as Hbh. pose proof H as Hb. rewrite <- Ef in Hbh, Hb.
  wp_step. eapply wp_tree_node; [exact Hsib|]. intros m -> El Er _. destruct sc.
  { eapply lower_wp; [exact Ef|exact Hs|exact Hy|]. intros s1 Hs1 E1. by eapply (round_red_sibling fuel IH k f k0 y h u s). }
  wp_step. rewrite El. eapply (wp_is_red _ s (FL false sx sr :: flip f (plug k0 X) :: k)); [exact Hsib|].
  wp_step. rewrite Er. eapply (wp_is_red _ s (FR false sl sx :: flip f (plug k0 X) :: k)); [exact Hsib|].
  destruct (red_of sl) eqn:Esl; [|destruct (red_of sr) eqn:Esr].
  - destruct sl as [|[] nl nx nr]; try done. wp_step. eapply wp_load; [done|]. by eapply (round_left_nephew fuel k f k0 y h u s).
  - destruct sr as [|[] nl nx nr]; try done. wp_step. eapply wp_load; [done|]. by eapply (round_right_nephew fuel k f k0 y h u s).
  - wp_step. eapply (holds_red _ s (flip f (plug k0 X) :: k)); [exact Hsib|]. intros s1 Hs1 E1.
    pose (f' := painted f (frame_red f) (T true sl sx sr)).
    assert (Hs1' : holds s1 (plug (f' :: k) (plug k0 X))) by (by destruct f).
    assert (Ef' : frame_node f' = frame_node f /\ frame_red f' = frame_red f) by (by destruct f).
    destruct Ef' as [Efn Efr]. wp_step. rewrite <- Efn. eapply wp_above; [exact Hs1'|]. intros up Eup _ _ _. rewrite Eup, Efr, Efn.
    assert (Hred : frame_red f = true \/ frame_red f = false) by (destruct (frame_red f); auto).
    destruct Hred as [Ered|Ered]; rewrite Ered; cbn [negb].
    + by eapply (round_red_parent fuel k f k0 h u s).
    + by eapply (round_black_parent fuel IH k f k0 h u s).
Qed.

Lemma fix_double_black_wp k s (Q : unit -> ocf_rb_tree -> Prop) :
  holds s (plug k X) -> red_black (plug k X) ->
  (forall s', unlinkable (links s) (before k) (after k) s' -> Q tt s') -> wp (ocf_rb_tree_fix_double_black x) Q s.
Proof.
  intros Hs [Hc Hh] HQ. unfold ocf_rb_tree_fix_double_black. wp_step. apply wp_get.
  rewrite colours_plug in Hc. apply andb_true_iff in Hc as [Hk _].
  eapply (fix_double_black_loop_wp _ k [] x 0%nat X); [|done|exact Hs|done..|exact Hh|exact HQ].
  pose proof (holds_size _ _ _ Hs) as Hsz. pose proof (plug_length k X) as Hp. cbn in Hp. destruct (ctx_red k); lia.
Qed.

(** A leaf is unlinked. *)
Lemma rb_unlink_wp s k c (Q : unit -> ocf_rb_tree -> Prop) :
  holds s (plug k (T c E x E)) -> (forall s', holds s' (plug k E) -> links s' = links s -> Q tt s') ->
  wp (n ← node_at x; ocf_rb_tree_update_parent (parent n) x None) Q s.
Proof.
  intros Hs HQ. wp_step. eapply wp_tree_node; [exact Hs|]. intros n _ _ _ ->.
  apply owns_tree in Hs. pose proof (owns_fresh _ _ _ _ _ _ _ _ _ _ Hs) as Hfx.
  eapply (wp_update_parent _ _ _ None); [exact Hs|exact Hfx| |].
  { intros h' k'. rewrite elem_of_cons. specialize (NoCtx0 h' k'). naive_solver. }
  intros s' Ho. assert (El : links s' = links s) by apply Ho. apply HQ; [|done]. apply owns_tree. rewrite El.
  pick 1%nat Ho. apply owns_open in Ho. destruct Ho as [H1 [_ [_ [_ H2]%Forall_cons]%Forall_cons]%Forall_cons [_ H3]%NoDup_cons].
  goal_pick 1%nat. by apply owns_empty.
Qed.

Definition removed (lk : gmap Z (Z * Z)) (nodes : list Z) (s : ocf_rb_tree) : Prop :=
  exists t, holds s t /\ inorder t = nodes /\ red_black t /\ links s = lk.

Lemma removed_at lk s k nodes : holds s (plug k E) -> red_black (plug k E) -> links s = lk -> nodes = before k ++ after k -> removed lk nodes s.
Proof. intros Hs Hrb El ->. exists (plug k E). by rewrite inorder_plug. Qed.

(** The last node of the way down: a leaf. *)
Lemma remove_leaf_wp s k c (Q : unit -> ocf_rb_tree -> Prop) :
  holds s (plug k (T c E x E)) -> red_black (plug k (T c E x E)) ->
  (forall s', removed (links s) (before k ++ after k) s' -> Q tt s') ->
  wp (n ← node_at x; _ ← when (negb (red n)) (ocf_rb_tree_fix_double_black x);
      n ← node_at x; ocf_rb_tree_update_parent (parent n) x None) Q s.
Proof.
  intros Hs Hrb HQ. wp_step. eapply wp_tree_node; [exact Hs|]. intros n -> _ _ _. wp_step. destruct c; cbn [negb when].
  - apply wp_ret. eapply rb_unlink_wp; [exact Hs|]. intros s1 Hs1 E1. apply HQ. eapply removed_at; [exact Hs1| |done|done].
    destruct Hrb as [Hc Hh]. rewrite colours_plug in Hc. split_bools. split; [|by eapply height_same].
    rewrite colours_plug. by apply andb_true_iff.
  - eapply fix_double_black_wp; [exact Hs|exact Hrb|]. intros s1 (k' & Hs1 & Hrb1 & Eb & Ea & E1).
    eapply rb_unlink_wp; [exact Hs1|]. intros s2 Hs2 E2. apply HQ. eapply removed_at; [exact Hs2|exact Hrb1|congruence|by rewrite Eb, Ea].
Qed.

End Leaf.

(** *** The way down *)

(** The leftmost node. *)
Lemma leftmost_split c l x r : exists g d y b, T c l x r = plug g (T d E y b) /\ before g = [].
Proof.
  revert c x r. induction l as [|lc ll IH lx lr _]; intros c x r; [by exists [], c, x, r|].
  destruct (IH lc lx lr) as (g & d & y & b & E & Hg). exists (g ++ [FL c x r]), d, y, b.
  rewrite plug_app, before_app, <- E, Hg. done.
Qed.

Lemma leftmost_wp s d y b : forall fuel k g z (Q : Z -> ocf_rb_tree -> Prop),
  (length g < fuel)%nat -> before g = [] -> holds s (plug k (plug g (T d E y b))) ->
  ptr (plug g (T d E y b)) = Some z -> Q y s -> wp (leftmost fuel z) Q s.
Proof.
  induction fuel as [|fuel IH]; intros k g z Q Hf Hg Hs Hz HQ; [lia|]. cbn [leftmost].
  destruct g as [|f g _] using rev_ind.
  - cbn in Hz, Hs. injection Hz as <-. wp_step. eapply wp_tree_node; [exact Hs|]. intros n _ -> _ _. by apply wp_ret.
  - rewrite before_app in Hg. apply app_nil in Hg as [Hf0 Hg]. rewrite length_app in Hf. cbn in Hf.
    destruct f as [c x r|c l x]; [|cbn in Hf0; by apply app_nil in Hf0 as [_ ?]]. rewrite plug_app in Hs, Hz. cbn [plug fill ptr] in Hs, Hz. injection Hz as <-.
    wp_step. eapply wp_tree_node; [exact Hs|]. intros n _ -> _ _.
    destruct (ptr (plug g (T d E y b))) as [z|] eqn:Ez; [|rewrite top_plug in Ez; destruct (top_some g y) as (? & E & _); cbn in Ez; congruence].
    eapply (IH (FL c x r :: k) g); [lia|done|exact Hs|done|done].
Qed.

Lemma successor_wp s k c l x r d y b g (Q : option Z -> ocf_rb_tree -> Prop) :
  r = plug g (T d E y b) -> before g = [] -> holds s (plug k (T c l x r)) -> Q (Some y) s ->
  wp (ocf_rb_tree_successor x) Q s.
Proof.
  intros Er Hg Hs HQ. unfold ocf_rb_tree_successor. wp_step. eapply wp_tree_node; [exact Hs|]. intros n _ _ -> _.
  destruct (ptr r) as [z|] eqn:Ez; [|rewrite Er, top_plug in Ez; destruct (top_some g y) as (? & E & _); cbn in Ez; congruence].
  wp_step. apply wp_get. wp_step. subst r. eapply (leftmost_wp s d y b _ (FR c l x :: k) g); [|done|exact Hs|exact Ez|by apply wp_ret].
  pose proof (holds_size _ _ _ Hs) as Hsz. pose proof (plug_length k (T c l x (plug g (T d E y b)))) as Hp.
  cbn in Hp. rewrite length_app in Hp. cbn in Hp. pose proof (plug_length g (T d E y b)). lia.
Qed.

Lemma replacement_wp s k c l x r (Q : option Z -> ocf_rb_tree -> Prop) :
  holds s (plug k (T c l x r)) ->
  match l, r with
  | E, E => Q None s
  | T _ _ y _, E | E, T _ _ y _ => Q (Some y) s
  | _, _ => forall g d y b, r = plug g (T d E y b) -> before g = [] -> Q (Some y) s
  end -> wp (ocf_rb_tree_bst_replacement x) Q s.
Proof.
  intros Hs HQ. unfold ocf_rb_tree_bst_replacement. wp_step. eapply wp_tree_node; [exact Hs|]. intros n _ -> -> _.
  destruct l as [|lc ll ly lr], r as [|rc rl ry rr]; cbn [ptr]; [by apply wp_ret..|].
  destruct (leftmost_split rc rl ry rr) as (g & d & y & b & Er & Hg).
  eapply successor_wp; [exact Er|exact Hg|exact Hs|by eapply HQ].
Qed.

(** The exchange with a node below. *)
Lemma holds_swap_left s k c d a y b x r (Q : unit -> ocf_rb_tree -> Prop) :
  holds s (plug k (T c (T d a y b) x r)) ->
  (forall s', holds s' (plug k (T c (T d a x b) y r)) -> links s' = links s -> Q tt s') ->
  wp (ocf_rb_tree_swap x y) Q s.
Proof.
  intros Ho%owns_tree HQ. eapply swap_left; [done|exact Ho|]. intros s' Ho'.
  assert (El : links s' = links s) by apply Ho'. apply HQ; [|done]. apply owns_tree. by rewrite El.
Qed.

Lemma holds_swap_right s k c l x g d a y b (Q : unit -> ocf_rb_tree -> Prop) :
  holds s (plug k (T c l x (plug g (T d a y b)))) ->
  (forall s', holds s' (plug k (T c l y (plug g (T d a x b)))) -> links s' = links s -> Q tt s') ->
  wp (ocf_rb_tree_swap x y) Q s.
Proof.
  intros Ho%owns_tree HQ.
  assert (Hend : forall s', owns (links s) s' (PCtx (Some y) k :: PTree (above k) (T c l y (plug g (T d a x b))) :: ps) -> Q tt s').
  { intros s' Ho'. assert (El : links s' = links s) by apply Ho'. apply HQ; [|done]. apply owns_tree. by rewrite El. }
  destruct g as [|f g]; [eapply swap_right|eapply swap_deep]; done.
Qed.

(** The colours and the heights stay where they are. *)
Lemma same_red_black k t t' : red_black (plug k t) -> (forall b, colours b t' = colours b t) -> height t' = height t ->
  red_black (plug k t').
Proof.
  intros [Hc Hh] Ec Eh. split; [|by eapply height_same]. by rewrite colours_plug, Ec, <- colours_plug.
Qed.

Lemma colours_ext g t t' : (forall b, colours b t' = colours b t) -> forall b, colours b (plug g t') = colours b (plug g t).
Proof.
  revert t t'. induction g as [|f g IH]; intros t t' H; cbn; [done|]. apply IH. intros b. destruct f; cbn; by rewrite H.
Qed.

(** In a red-black tree an only child is a red leaf. *)
Lemma no_height t : height t = Some 0%nat -> colours true t = true -> t = E.
Proof.
  destruct t as [|[] l x r]; cbn; [done|done|]. unfold meet. destruct (height l), (height r); try done. by case_decide.
Qed.
Lemma red_leaf t b : height t = Some 0%nat -> colours b t = true -> t = E \/ exists x, t = T true E x E.
Proof.
  destruct t as [|c l x r]; [by left|]. intros Hh Hc. right. exists x. use_heights. destruct c; [|done]. cbn in Hc. split_bools. subst.
  by rewrite (no_height l), (no_height r).
Qed.
Lemma only_child k c l x r : red_black (plug k (T c l x r)) -> (l = E -> r = E \/ c = false /\ exists y, r = T true E y E) /\
  (r = E -> l = E \/ c = false /\ exists y, l = T true E y E).
Proof.
  intros [Hc Hh]. rewrite colours_plug in Hc. apply andb_true_iff in Hc as [_ Hc]. cbn in Hc. split_bools.
  apply height_hole in Hh as [h Hh]. use_heights. split; intros ->; cbn in *; simplify_eq.
  - destruct (red_leaf r c) as [->|[y ->]]; [done|done|by left|]. right. destruct c; eauto.
  - destruct (red_leaf l c) as [->|[y ->]]; [done|done|by left|]. right. destruct c; eauto.
Qed.

Lemma any_sibling_wp s k c l x r (Q : option Z -> ocf_rb_tree -> Prop) :
  holds s (plug k (T c l x r)) -> Q (match k with [] => None | f :: _ => ptr (beside f) end) s ->
  wp (ocf_rb_tree_sibling x) Q s.
Proof.
  intros Hs HQ. destruct k as [|f k]; [|by eapply sibling_wp].
  unfold ocf_rb_tree_sibling. wp_step. eapply wp_tree_node; [exact Hs|]. intros n _ _ _ ->. by apply wp_ret.
Qed.

(** The sibling of a red leaf is red, if there is one. *)
Lemma red_sibling_wp s f k x (Q : unit -> ocf_rb_tree -> Prop) :
  let t := T true E x E in
  holds s (plug (f :: k) t) -> red_black (plug (f :: k) t) ->
  (forall s', holds s' (plug (f :: k) t) -> links s' = links s -> Q tt s') ->
  wp (set_if (ptr (beside f)) (with_red true)) Q s.
Proof.
  intros t Hs [Hc Hh] HQ. rewrite colours_plug in Hc. cbn [ctx_colours] in Hc. split_bools.
  assert (Hb : height (beside f) = Some 0%nat).
  { cbn [plug] in Hh. apply height_hole in Hh as [v Hv]. destruct f; cbn [fill beside] in *; unfold t in Hv; use_heights; cbn in *; simplify_eq; done. }
  assert (Hcb : exists b, colours b (beside f) = true) by (destruct f; cbn in *; eauto). destruct Hcb as [b Hcb].
  destruct (red_leaf (beside f) b Hb Hcb) as [Eb|[y Eb]]; rewrite Eb; cbn [ptr set_if]; [by apply wp_ret, HQ|].
  eapply (holds_red _ s (flip f t :: k)); [cbn [plug]; rewrite <- Eb, fill_flip; exact Hs|].
  intros s' Hs' El. apply HQ; [|done]. cbn [plug] in *. by rewrite <- Eb, fill_flip in Hs'.
Qed.

Lemma remove_childless_wp fuel s k c x (Q : unit -> ocf_rb_tree -> Prop) :
  holds s (plug k (T c E x E)) -> red_black (plug k (T c E x E)) ->
  (forall s', removed (links s) (before k ++ after k) s' -> Q tt s') -> wp (remove_loop (S fuel) x) Q s.
Proof.
  intros Hs Hrb HQ. cbn [remove_loop]. wp_step. eapply any_sibling_wp; [exact Hs|].
  wp_step. eapply replacement_wp; [exact Hs|]. cbn beta iota. wp_step. apply wp_get.
  pose proof (ho_root _ _ _ Hs) as Hroot. rewrite top_plug in Hroot. destruct k as [|f k].
  - cbn in Hroot. rewrite bool_decide_eq_true_2 by done. apply (owns_tree ps s []) in Hs. pick 1%nat Hs. apply owns_open in Hs.
    pick 3%nat Hs. eapply wp_set_root; [|exact Hs|].
    { intros h k. rewrite !elem_of_cons. specialize (NoCtx0 h k). naive_solver. }
    intros Ho. apply HQ. assert (El : links (with_root None s) = links s) by apply Ho. exists E. split; [|done].
    apply (owns_tree ps _ []). rewrite El. goal_pick 1%nat. apply owns_empty.
    destruct Ho as [H1 [H2 [_ [_ [_ H3]%Forall_cons]%Forall_cons]%Forall_cons]%Forall_cons H4].
    split; [done|by constructor|]. cbn in H4 |- *. by apply NoDup_cons in H4 as [_ H4].
  - pose proof (holds_nodup _ _ _ Hs) as Hnd. rewrite bool_decide_eq_false_2.
    2: { rewrite Hroot. cbn [ptr top]. apply top_not_in; [|intros [= E0]].
         - apply nodup_plug in Hnd as (_ & _ & Hnd). intros Hx. apply (Hnd x); [cbn; set_solver|]. apply elem_of_ctx_cons. auto.
         - apply nodup_plug in Hnd as (_ & _ & Hnd). apply (Hnd x); [cbn; set_solver|]. rewrite <- E0. apply frame_in_ctx. }
    wp_step. eapply wp_tree_node; [exact Hs|]. intros n -> _ _ _. wp_step. destruct c; cbn [negb].
    + eapply red_sibling_wp; [exact Hs|exact Hrb|]. intros s1 Hs1 E1. eapply rb_unlink_wp; [exact Hs1|].
      intros s2 Hs2 E2. apply HQ. eapply removed_at; [exact Hs2| |congruence|done].
      destruct Hrb as [Hc Hh]. rewrite colours_plug in Hc. split_bools. split; [|by eapply height_same].
      rewrite colours_plug. by apply andb_true_iff.
    + eapply fix_double_black_wp; [exact Hs|exact Hrb|]. intros s1 (k' & Hs1 & Hrb1 & Eb & Ea & E1).
      eapply rb_unlink_wp; [exact Hs1|]. intros s2 Hs2 E2. apply HQ. eapply removed_at; [exact Hs2|exact Hrb1|congruence|by rewrite Eb, Ea].
Qed.

(** The replacement is a leaf: the node is unlinked from its place. *)
Definition from_leaf (x rep : Z) : RB unit :=
  _ ← ocf_rb_tree_swap x rep;
  n ← node_at x; _ ← when (negb (red n)) (ocf_rb_tree_fix_double_black x);
  n ← node_at x; ocf_rb_tree_update_parent (parent n) x None.

Lemma remove_loop_rep fuel s k c l x r kr rc rl y rr (Q : unit -> ocf_rb_tree -> Prop) :
  holds s (plug k (T c l x r)) -> holds s (plug kr (T rc rl y rr)) ->
  wp (ocf_rb_tree_bst_replacement x) (fun p s' => p = Some y /\ s' = s) s ->
  match rl, rr with
  | E, E => wp (from_leaf x y) Q s
  | _, _ => wp (_ ← ocf_rb_tree_swap x y; remove_loop fuel x) Q s
  end -> wp (remove_loop (S fuel) x) Q s.
Proof.
  intros Hs Hr Hrep HQ. cbn [remove_loop]. wp_step. eapply any_sibling_wp; [exact Hs|].
  wp_step. eapply wp_mono; [exact Hrep|]. intros p s' [-> ->].
  wp_step. eapply wp_tree_node; [exact Hr|]. intros n _ -> -> _.
  destruct rl as [|? ? ? ?], rr as [|? ? ? ?]; cbn [ptr]; exact HQ.
Qed.

Lemma remove_left_wp fuel s k x y (Q : unit -> ocf_rb_tree -> Prop) :
  holds s (plug k (T false (T true E y E) x E)) -> red_black (plug k (T false (T true E y E) x E)) ->
  (forall s', removed (links s) (before k ++ y :: after k) s' -> Q tt s') -> wp (remove_loop (S fuel) x) Q s.
Proof.
  intros Hs Hrb HQ. eapply (remove_loop_rep _ s k _ _ _ _ (FL false x E :: k)); [exact Hs|exact Hs| |].
  { eapply replacement_wp; [exact Hs|done]. }
  unfold from_leaf. wp_step. eapply holds_swap_left; [exact Hs|]. intros s1 Hs1 E1.
  eapply (remove_leaf_wp x s1 (FL false y E :: k) true); [exact Hs1|eapply (same_red_black k); [exact Hrb|done|done]|].
  intros s2 H2. apply HQ. rewrite <- E1. exact H2.
Qed.

Lemma remove_right_wp fuel s k x y (Q : unit -> ocf_rb_tree -> Prop) :
  holds s (plug k (T false E x (T true E y E))) -> red_black (plug k (T false E x (T true E y E))) ->
  (forall s', removed (links s) (before k ++ y :: after k) s' -> Q tt s') -> wp (remove_loop (S fuel) x) Q s.
Proof.
  intros Hs Hrb HQ. eapply (remove_loop_rep _ s k _ _ _ _ (FR false E x :: k)); [exact Hs|exact Hs| |].
  { eapply replacement_wp; [exact Hs|done]. }
  unfold from_leaf. wp_step. eapply (holds_swap_right s k false E x [] true E y E); [exact Hs|]. intros s1 Hs1 E1.
  eapply (remove_leaf_wp x s1 (FR false E y :: k) true); [exact Hs1|eapply (same_red_black k); [exact Hrb|done|done]|].
  intros s2 H2. apply HQ. rewrite <- E1. cbn [before after inorder] in H2. rewrite <- app_assoc in H2. exact H2.
Qed.

Lemma remove_both_wp fuel s k c l x r (Q : unit -> ocf_rb_tree -> Prop) :
  l <> E -> r <> E -> holds s (plug k (T c l x r)) -> red_black (plug k (T c l x r)) ->
  (forall s', removed (links s) (before k ++ inorder l ++ inorder r ++ after k) s' -> Q tt s') ->
  wp (remove_loop (S (S fuel)) x) Q s.
Proof.
  intros Hl Hr Hs Hrb HQ. destruct r as [|rc rl ry rr]; [done|].
  destruct (leftmost_split rc rl ry rr) as (g & d & y & b & Er & Hg).
  pose proof Hs as Hsy. rewrite Er in Hs, Hrb, HQ.
  assert (Hrb' : red_black (plug k (T c l y (plug g (T d E x b))))).
  { eapply same_red_black; [exact Hrb| |].
    - intros v. cbn. by rewrite (colours_ext g (T d E y b) (T d E x b)).
    - cbn. by rewrite (height_ext g (T d E x b) (T d E y b)). }
  assert (Enodes : forall k', k' = g ++ FR c l y :: k ->
    before k' ++ inorder b ++ after k' = before k ++ inorder l ++ inorder (plug g (T d E y b)) ++ after k).
  { intros k' ->. rewrite before_app, after_app, inorder_plug, Hg. flat. }
  assert (Eplug : forall t, plug (g ++ FR c l y :: k) t = plug k (T c l y (plug g t))) by (intros t; by rewrite plug_app).
  eapply (remove_loop_rep _ s k _ _ _ _ (g ++ FR c l x :: k) d E y b); [exact Hs|by rewrite plug_app| |].
  { eapply replacement_wp; [exact Hsy|]. destruct l; [done|]. intros g' d' y' b' Er' Hg'. split; [|done]. f_equal.
    rewrite Er in Er'. assert (Ei := f_equal inorder Er'). rewrite !inorder_plug, Hg, Hg' in Ei. cbn in Ei. congruence. }
  destruct b as [|bc bl bx br].
  - unfold from_leaf. wp_step. eapply holds_swap_right; [exact Hs|]. intros s1 Hs1 E1.
    rewrite <- Eplug in Hs1, Hrb'. eapply (remove_leaf_wp x s1 _ d); [exact Hs1|exact Hrb'|].
    intros s2 H2. apply HQ. rewrite <- E1, <- (Enodes _ eq_refl). exact H2.
  - wp_step. eapply holds_swap_right; [exact Hs|]. intros s1 Hs1 E1.
    rewrite <- Eplug in Hs1, Hrb'. destruct (only_child _ _ _ _ _ Hrb') as [Hone _].
    destruct (Hone eq_refl) as [?|(-> & z & Ez)]; [done|]. rewrite Ez in *.
    eapply remove_right_wp; [exact Hs1|exact Hrb'|]. intros s2 H2. apply HQ. rewrite <- E1, <- (Enodes _ eq_refl). exact H2.
Qed.

(** Removal of a node of the tree. *)
Lemma remove_loop_wp fuel s k c l x r (Q : unit -> ocf_rb_tree -> Prop) :
  (2 <= fuel)%nat -> holds s (plug k (T c l x r)) -> red_black (plug k (T c l x r)) ->
  (forall s', removed (links s) (before k ++ inorder l ++ inorder r ++ after k) s' -> Q tt s') ->
  wp (remove_loop fuel x) Q s.
Proof.
  intros Hf Hs Hrb HQ. destruct fuel as [|[|fuel]]; [lia..|].
  destruct (only_child _ _ _ _ _ Hrb) as [H1 H2].
  destruct l as [|lc ll ly lr]; [destruct (H1 eq_refl) as [->|(-> & y & ->)]|].
  - eapply remove_childless_wp; [exact Hs|exact Hrb|exact HQ].
  - eapply remove_right_wp; [exact Hs|exact Hrb|exact HQ].
  - destruct r as [|rc rl ry rr]; [destruct (H2 eq_refl) as [?|(-> & y & [= -> -> -> ->])]; [discriminate|]|].
    + eapply remove_left_wp; [exact Hs|exact Hrb|exact HQ].
    + eapply remove_both_wp; [| |exact Hs|exact Hrb|exact HQ]; done.
Qed.

End Beside.
