(* ===== verification/RbClasses.v ===== *)
(** * Removal and lookup on sorted classes

    [ocf_rb_tree_remove], [ocf_rb_tree_find] and [ocf_rb_tree_can_update] refine
    functions on the list of classes of [RbIndex]. *)

From Stdlib Require Import Sorting.Sorted.
From S2P Require Import Prelude Links RbTree RbShape RbInsert RbIndex RbRemove.
Open Scope Z_scope.

(** A node leaves its class; the next member takes the place of a head. *)
Fixpoint remove_class (x : Z) (cs : classes) : classes :=
  match cs with
  | [] => []
  | (y, l) :: cs =>
      if decide (x = y) then match l with [] => cs | n :: l => (n, l) :: cs end
      else if decide (x ∈ l) then (y, filter (fun m => m <> x) l) :: cs
      else (y, l) :: remove_class x cs
  end.

Lemma remove_class_at x cs1 cs : x ∉ heads cs1 -> x ∉ members cs1 -> remove_class x (cs1 ++ cs) = cs1 ++ remove_class x cs.
Proof.
  induction cs1 as [|[y l] cs1 IH]; [done|]. unfold heads, members. cbn. intros H1 H2.
  rewrite decide_False by set_solver. rewrite decide_False by set_solver. f_equal. apply IH; set_solver.
Qed.

Lemma filter_absent (x : Z) (l : list Z) : x ∉ l -> filter (fun m => m <> x) l = l.
Proof.
  induction l as [|y l IH]; [done|]. intros Hx. rewrite filter_cons_True, IH; [done|set_solver|].
  intros ->. apply Hx. left.
Qed.

Lemma filter_other (x : Z) l1 l2 : NoDup (l1 ++ x :: l2) -> filter (fun m => m <> x) (l1 ++ x :: l2) = l1 ++ l2.
Proof.
  intros Hnd%nodup_pivot. rewrite filter_app, filter_cons. rewrite decide_False by (intros H; by apply H).
  rewrite !filter_absent; [done|set_solver..].
Qed.

Lemma owns_drop lk s P ps : owns lk s (P :: ps) -> owns lk s ps.
Proof.
  intros [H1 [_ H2]%Forall_cons H3]. split; [done|done|]. cbn in H3. by apply NoDup_app in H3 as (_ & _ & H3).
Qed.

Section Classes.
Context (cmp : Z -> Z -> Z) `{!NodeOrder cmp}.
Local Abbreviation index := (RbIndex.index cmp).

(** The class of a node. *)
Lemma class_of s cs x : index s cs -> x ∈ heads cs ++ members cs ->
  exists cs1 y l cs2, cs = cs1 ++ (y, l) :: cs2 /\ x ∈ y :: l /\ x ∉ heads cs1 /\ x ∉ members cs1.
Proof.
  intros Hi Hx. assert (Hin : exists y l, (y, l) ∈ cs /\ x ∈ y :: l).
  { apply elem_of_app in Hx as [Hx|Hx].
    - apply list_elem_of_fmap in Hx as ([y l] & -> & Hin). exists y, l. split; [done|left].
    - apply list_elem_of_bind in Hx as ([y l] & Hx & Hin). exists y, l. split; [done|by right]. }
  destruct Hin as (y & l & Hin & Hxy). apply list_elem_of_split in Hin as (cs1 & cs2 & ->).
  exists cs1, y, l, cs2. split; [done|]. split; [done|].
  pose proof (index_nodup _ _ _ Hi) as Hnd.
  assert (Hno : forall z k, (z, k) ∈ cs1 -> x ∉ z :: k).
  { intros z k Hz Hzk. eapply (other_class cs1 y l cs2 z k x); [exact Hnd|set_solver|exact Hzk|exact Hxy]. }
  split; intros H.
  - apply list_elem_of_fmap in H as ([z k] & -> & Hz). apply (Hno z k Hz). left.
  - apply list_elem_of_bind in H as ([z k] & H & Hz). apply (Hno z k Hz). by right.
Qed.

Lemma cmp_eq_trans x y z : cmp x y = 0 -> cmp z y = 0 -> cmp x z = 0.
Proof.
  intros H1 H2. pose proof (cmp_flip y z). pose proof (cmp_flip z y). pose proof (cmp_flip x y). pose proof (cmp_flip y x).
  pose proof (cmp_flip x z). pose proof (cmp_flip z x). pose proof (cmp_trans x y z). pose proof (cmp_trans z y x). lia.
Qed.

(** Another list of classes in place of one class. *)
Lemma index_replace s s' cs1 y l mid cs2 :
  index s (cs1 ++ (y, l) :: cs2) ->
  (exists t col, holds (member_parts col (members (cs1 ++ mid ++ cs2))) s' t /\ inorder t = heads (cs1 ++ mid ++ cs2) /\ red_black t) ->
  (forall z, z ∉ y :: l -> links s' !! z = links s !! z) ->
  (forall z k, (z, k) ∈ mid -> ring (links s') z k /\ cmp z y = 0 /\ forall m, m ∈ k -> cmp m z = 0) ->
  (length mid <= 1)%nat ->
  index s' (cs1 ++ mid ++ cs2).
Proof.
  intros Hi Ht Hl Hm Hlen. pose proof (index_nodup _ _ _ Hi) as Hnd.
  assert (Hout : forall z k, (z, k) ∈ cs1 ++ cs2 -> (z, k) ∈ cs1 ++ (y, l) :: cs2) by set_solver.
  split.
  - exact Ht.
  - assert (Hold : forall z k, (z, k) ∈ cs1 ++ cs2 -> ring (links s') z k).
    { intros z k Hz. eapply ring_frame; [|by apply (ix_ring _ _ _ Hi), Hout]. intros m Hm'. apply Hl.
      by eapply other_class. }
    intros z k [Hz|[Hz|Hz]%elem_of_app]%elem_of_app; [apply Hold; set_solver|by apply Hm|apply Hold; set_solver].
  - intros z k m [Hz|[Hz|Hz]%elem_of_app]%elem_of_app Hk; [|by apply (Hm z k)|]; eapply (ix_equal _ _ _ Hi); try exact Hk; set_solver.
  - pose proof (ix_ascending _ _ _ Hi) as Ha. unfold heads in *. rewrite !fmap_app in *. cbn in Ha.
    apply ascending_app in Ha as (H1 & H2 & H3). apply StronglySorted_inv in H2 as [H2 H4]. rewrite Forall_forall in H4.
    assert (Hmid : forall z, z ∈ mid.*1 -> cmp z y = 0).
    { intros z Hz. apply list_elem_of_fmap in Hz as ([z' k] & -> & Hz). by apply (Hm z' k). }
    assert (Hle : forall z, cmp z y = 0 -> cmp y z <= 0 /\ cmp z y <= 0).
    { intros z Hz. pose proof (cmp_flip z y). pose proof (cmp_flip y z). lia. }
    apply ascending_app. split; [done|]. split.
    + apply ascending_app. split; [|split; [done|]].
      * destruct mid as [|[z k] [|? ?]]; cbn in *; [constructor|constructor; [constructor|constructor]|lia].
      * intros a b Ha Hb. destruct (Hle a (Hmid a Ha)). eapply cmp_le_lt_trans; [done|done|by apply H4].
    + intros a b Ha [Hb|Hb]%elem_of_app.
      * destruct (Hle b (Hmid b Hb)). eapply cmp_lt_le_trans; [done| |done]. apply H3; [done|left].
      * apply H3; [done|by right].
Qed.

(** A node of the tree. *)
Lemma tree_at x t b a : inorder t = b ++ x :: a -> NoDup (inorder t) ->
  exists k c l r, t = plug k (T c l x r) /\ before k ++ inorder l = b /\ inorder r ++ after k = a.
Proof.
  intros E Hnd. assert (Hx : x ∈ inorder t) by (rewrite E; set_solver).
  assert (Hin : forall t k, x ∈ inorder t -> exists k' c l r, plug k t = plug k' (T c l x r)).
  { clear. induction t as [|c l IHl y r IHr]; intros k; cbn; [intros H; by apply elem_of_nil in H|].
    intros [H|[->|H]%elem_of_cons]%elem_of_app; [apply (IHl (FL c y r :: k) H)|by exists k, c, l, r|apply (IHr (FR c l y :: k) H)]. }
  destruct (Hin t [] Hx) as (k & c & l & r & Et). cbn in Et. subst t. exists k, c, l, r. split; [done|].
  assert (E' : b ++ x :: a = (before k ++ inorder l) ++ x :: inorder r ++ after k).
  { rewrite <- E, inorder_plug. cbn. by rewrite <- !app_assoc. }
  rewrite E in Hnd. pose proof Hnd as Hnd'. rewrite E' in Hnd'. apply nodup_pivot in Hnd, Hnd'.
  apply not_elem_of_app_cons_inv_l in E' as (-> & _ & ->); [done|set_solver|set_solver].
Qed.

(** A node that is alone in its class. *)
Lemma remove_alone_wp s cs1 x cs2 (Q : unit -> ocf_rb_tree -> Prop) :
  index s (cs1 ++ (x, []) :: cs2) ->
  (forall s', index s' (cs1 ++ cs2) -> links s' = links s -> Q tt s') ->
  wp (s ← get; remove_loop (3 + size (rb_nodes s)) x) Q s.
Proof.
  intros Hi HQ. pose proof (index_nodup _ _ _ Hi) as Hnd. destruct (ix_tree _ _ _ Hi) as (t & col & Ht & Et & Hrb).
  pose proof Et as Et'. unfold heads in Et'. rewrite fmap_app in Et'. cbn in Et'.
  destruct (tree_at x t _ _ Et' (holds_nodup _ _ _ Ht)) as (k & c & l & r & -> & Eb & Ea).
  wp_step. apply wp_get. eapply (remove_loop_wp _ _ s k); [|exact Ht|exact Hrb|]; [cbn; lia|].
  intros s' (t' & Ht' & Ei' & Hrb' & El). apply HQ; [|exact El].
  apply (index_replace s s' cs1 x [] [] cs2); [done| |by rewrite El|intros z k' Hz; by apply elem_of_nil in Hz|cbn; lia].
  exists t', col. cbn [app]. split; [|split; [|done]].
  - unfold members in Ht' |- *. rewrite bind_app in *. exact Ht'.
  - rewrite Ei', app_assoc, Eb, Ea. unfold heads. by rewrite fmap_app.
Qed.

(** The parts of the members when one of them is gone. *)
Lemma member_parts_split col cs1 y l1 x l2 cs2 :
  member_parts col (members (cs1 ++ (y, l1 ++ x :: l2) :: cs2)) ≡ₚ
    PNode x (Shape (col x) None None None) :: member_parts col (members (cs1 ++ [(y, l1 ++ l2)] ++ cs2)).
Proof.
  transitivity (member_parts col (x :: members (cs1 ++ [(y, l1 ++ l2)] ++ cs2))); [|done].
  apply Permutation_map. unfold members. rewrite !bind_app. cbn. solve_Permutation.
Qed.

(** A member of a ring that is not its head. *)
Lemma remove_member_wp s cs1 y l1 x l2 cs2 (Q : unit -> ocf_rb_tree -> Prop) :
  index s (cs1 ++ (y, l1 ++ x :: l2) :: cs2) ->
  (forall s', index s' (cs1 ++ [(y, l1 ++ l2)] ++ cs2) -> dom (links s') = dom (links s) -> Q tt s') ->
  wp (list_del x) Q s.
Proof.
  intros Hi HQ. pose proof (index_nodup _ _ _ Hi) as Hnd.
  assert (Hin : (y, l1 ++ x :: l2) ∈ cs1 ++ (y, l1 ++ x :: l2) :: cs2) by set_solver.
  pose proof (ix_ring _ _ _ Hi _ _ Hin) as Hr. pose proof (class_nodup _ _ _ _ _ Hi Hin) as Hcn.
  destruct (ix_tree _ _ _ Hi) as (t & col & Ht & Et & Hrb). apply (owns_tree _ s [] t) in Ht.
  eapply wp_del; [exact Ht|exact Hr|exact Hcn|]. intros s' Ho. assert (El : links s' = deleted x (links s)) by apply Ho.
  apply HQ; [|by rewrite El, deleted_dom].
  eapply index_replace; [exact Hi| | | |cbn; lia].
  - exists t, col. split; [|split; [|done]].
    + apply (owns_tree _ s' [] t). rewrite El. rewrite member_parts_split in Ho.
      pick 2%nat Ho. by apply owns_drop in Ho.
    + rewrite Et. unfold heads. by rewrite !fmap_app.
  - intros z Hz. rewrite El. by eapply deleted_other.
  - intros z k [[= -> ->]|Hz]%elem_of_cons; [|by apply elem_of_nil in Hz]. rewrite El.
    split; [by apply ring_deleted|]. split; [apply cmp_refl|]. intros m Hm. eapply (ix_equal _ _ _ Hi _ _ _ Hin). set_solver.
Qed.

(** The head of a ring gives its place to the next member. *)
Lemma remove_head_wp s cs1 x n l cs2 (Q : unit -> ocf_rb_tree -> Prop) :
  index s (cs1 ++ (x, n :: l) :: cs2) ->
  (forall s', index s' (cs1 ++ [(n, l)] ++ cs2) -> dom (links s') = dom (links s) -> Q tt s') ->
  wp (_ ← ocf_rb_tree_swap x n; list_del x) Q s.
Proof.
  intros Hi HQ. pose proof (index_nodup _ _ _ Hi) as Hnd.
  assert (Hin : (x, n :: l) ∈ cs1 ++ (x, n :: l) :: cs2) by set_solver.
  pose proof (ix_ring _ _ _ Hi _ _ Hin) as Hr. pose proof (class_nodup _ _ _ _ _ Hi Hin) as Hcn.
  destruct (ix_tree _ _ _ Hi) as (t & col & Ht & Et & Hrb).
  pose proof Et as Et'. unfold heads in Et'. rewrite fmap_app in Et'. cbn in Et'.
  destruct (tree_at x t _ _ Et' (holds_nodup _ _ _ Ht)) as (k & c & tl & tr & -> & Eb & Ea).
  apply owns_tree in Ht. rewrite (member_parts_split col cs1 x [] n l cs2) in Ht.
  wp_step. eapply swap_outside; [|exact Ht|]; [apply _|]. intros s1 Ho1.
  eapply (wp_del _ _ _ x n l []); [exact Ho1|by apply ring_rotate| |].
  { assert (E : n :: l ++ [x] ≡ₚ x :: n :: l) by solve_Permutation. by rewrite E. }
  intros s2 Ho. assert (El : links s2 = deleted x (links s)) by apply Ho. apply HQ; [|by rewrite El, deleted_dom].
  assert (Hxn : cmp n x = 0) by (apply (ix_equal _ _ _ Hi _ _ _ Hin); left).
  eapply index_replace; [exact Hi| | | |cbn; lia].
  - exists (plug k (T c tl n tr)), col. split; [|split].
    + apply owns_tree. rewrite El. pick 2%nat Ho. apply owns_drop in Ho.
      assert (Em : members (cs1 ++ [(n, l)] ++ cs2) = members (cs1 ++ [(x, [] ++ l)] ++ cs2)) by (unfold members; by rewrite !bind_app).
      rewrite Em. exact Ho.
    + rewrite inorder_plug. unfold heads. rewrite !fmap_app. cbn. rewrite <- Eb, <- Ea. flat.
    + by eapply same_red_black.
  - intros z Hz. rewrite El. apply (deleted_other _ n l x []); [by apply ring_rotate|].
    intros H. apply Hz. set_solver.
  - intros z k' [[= -> ->]|Hz]%elem_of_cons; [|by apply elem_of_nil in Hz]. rewrite El.
    split; [by apply ring_deleted_head|]. split; [done|]. intros m Hm.
    assert (Hmx : cmp m x = 0) by (apply (ix_equal _ _ _ Hi _ _ _ Hin); by right).
    by eapply cmp_eq_trans.
Qed.

(** How the code tells a head from the other members. *)
Lemma head_in_tree s cs1 x l cs2 m :
  index s (cs1 ++ (x, l) :: cs2) -> rb_nodes s !! x = Some m ->
  bool_decide (parent m = None) && negb (bool_decide (root s = Some x)) = false.
Proof.
  intros Hi Hm. destruct (ix_tree _ _ _ Hi) as (t & col & Ht & Et & _). unfold heads in Et. rewrite fmap_app in Et. cbn in Et.
  destruct (tree_at x t _ _ Et (holds_nodup _ _ _ Ht)) as (k & c & tl & tr & -> & _).
  pose proof (holds_shape _ _ _ _ _ _ _ Ht) as Hs. unfold shape_at in Hs. rewrite Hm in Hs. injection Hs as _ _ _ ->.
  destruct k as [|f k]; [|done]. rewrite (ho_root _ _ _ Ht). cbn. by rewrite bool_decide_eq_true_2.
Qed.

Lemma member_not_in_tree s cs1 y l1 x l2 cs2 m :
  index s (cs1 ++ (y, l1 ++ x :: l2) :: cs2) -> rb_nodes s !! x = Some m ->
  bool_decide (parent m = None) && negb (bool_decide (root s = Some x)) = true.
Proof.
  intros Hi Hm. destruct (ix_tree _ _ _ Hi) as (t & col & Ht & Et & _).
  pose proof (ho_root _ _ _ Ht) as Hroot. apply (owns_tree _ s [] t) in Ht. rewrite member_parts_split in Ht.
  destruct Ht as [_ [_ [_ [Hs _]%Forall_cons]%Forall_cons]%Forall_cons Hnd].
  cbn in Hs. unfold shape_at in Hs. rewrite Hm in Hs. injection Hs as _ _ _ Hp. cbn in Hp.
  rewrite (bool_decide_eq_true_2 (parent m = None)), bool_decide_eq_false_2; [done| |done].
  rewrite Hroot. apply ptr_not_in. intros Hx. cbn in Hnd. apply NoDup_app in Hnd as (_ & _ & Hnd).
  apply NoDup_app in Hnd as (_ & Hd & _). apply (Hd x Hx). left.
Qed.

(** [ocf_rb_tree_remove] takes the node out of its class. *)
Lemma rb_remove_wp s cs x :
  index s cs -> x ∈ heads cs ++ members cs ->
  wp (ocf_rb_tree_remove x) (fun _ s' => index s' (remove_class x cs) /\ dom (links s') = dom (links s)) s.
Proof.
  intros Hi Hx. destruct (class_of s cs x Hi Hx) as (cs1 & y & l & cs2 & -> & Hxy & Hx1 & Hx2).
  rewrite remove_class_at by done. cbn [remove_class].
  assert (Hin : (y, l) ∈ cs1 ++ (y, l) :: cs2) by set_solver.
  pose proof (ix_ring _ _ _ Hi _ _ Hin) as Hr. pose proof (class_nodup _ _ _ _ _ Hi Hin) as Hcn.
  unfold ocf_rb_tree_remove, list_empty. wp_step. wp_step. case_decide as Exy.
  - subst y. destruct (links_node s x _ (ring_head _ _ _ Hr)) as (m & Hm & En & _). cbn in En.
    eapply wp_load; [exact Hm|]. apply wp_ret. rewrite En. destruct l as [|n l]; cbn [hdd].
    + rewrite bool_decide_eq_true_2 by done. eapply remove_alone_wp; [exact Hi|]. intros s' Hi' El. by rewrite El.
    + rewrite bool_decide_eq_false_2; [|intros E; apply NoDup_cons in Hcn as [Hcn _]; apply Hcn; rewrite <- E; left]. cbn [negb].
      wp_step. eapply wp_load; [exact Hm|]. wp_step. apply wp_get.
      rewrite (head_in_tree s _ _ _ _ _ Hi Hm). wp_step. eapply wp_load; [exact Hm|]. rewrite En.
      eapply remove_head_wp; [exact Hi|]. by intros.
  - assert (Hxl : x ∈ l) by set_solver. rewrite decide_True by done.
    apply list_elem_of_split in Hxl as (l1 & l2 & ->).
    destruct (links_node s x _ (ring_at _ _ _ _ _ Hr)) as (m & Hm & En & _). cbn in En.
    eapply wp_load; [exact Hm|]. apply wp_ret. rewrite En. rewrite bool_decide_eq_false_2.
    2: { intros E. rewrite app_comm_cons in Hcn. apply nodup_pivot in Hcn. apply Hcn. rewrite <- E. destruct l2; set_solver. }
    cbn [negb]. wp_step. eapply wp_load; [exact Hm|]. wp_step. apply wp_get.
    rewrite (member_not_in_tree s _ _ _ _ _ _ _ Hi Hm). eapply remove_member_wp; [exact Hi|].
    intros s' Hi' Ed. apply NoDup_cons in Hcn as [_ Hcn]. by rewrite filter_other.
Qed.

(** Is the head alone? *)
Lemma list_empty_wp s cs y l (Q : bool -> ocf_rb_tree -> Prop) :
  index s cs -> (y, l) ∈ cs -> Q (match l with [] => true | _ => false end) s -> wp (list_empty y) Q s.
Proof.
  intros Hi Hin HQ. pose proof (ix_ring _ _ _ Hi _ _ Hin) as Hr. pose proof (class_nodup _ _ _ _ _ Hi Hin) as Hcn.
  destruct (links_node s y _ (ring_head _ _ _ Hr)) as (m & Hm & En & _). cbn in En.
  unfold list_empty. wp_step. eapply wp_load; [exact Hm|]. apply wp_ret. rewrite En. destruct l as [|n l]; cbn [hdd].
  - by rewrite bool_decide_eq_true_2.
  - rewrite bool_decide_eq_false_2; [done|]. intros E. apply NoDup_cons in Hcn as [Hcn _]. apply Hcn. rewrite <- E. left.
Qed.

(** ** Lookup *)

(** [key x]: the comparison of what is looked for with the node [x]. *)
Class ItemOrder (key : Z -> Z) : Prop := {
  item_lt x y : key x <= 0 -> cmp x y < 0 -> key y < 0;
  item_gt x y : key y >= 0 -> cmp x y < 0 -> key x > 0
}.

Section Item.
Context (key : Z -> Z) `{!ItemOrder key}.

Fixpoint find_class (cs : classes) : option (Z * list Z) :=
  match cs with
  | [] => None
  | (y, l) :: cs => if decide (key y = 0) then Some (y, l) else find_class cs
  end.

Lemma find_class_some cs y l : ascending cmp (heads cs) -> (y, l) ∈ cs -> key y = 0 -> find_class cs = Some (y, l).
Proof.
  unfold heads. induction cs as [|[z k] cs IH]; intros Ha Hin Hy; [by apply elem_of_nil in Hin|].
  cbn in Ha |- *. apply StronglySorted_inv in Ha as [Ha Hz]. rewrite Forall_forall in Hz.
  apply elem_of_cons in Hin as [[= <- <-]|Hin]; [by rewrite decide_True|]. rewrite decide_False; [by apply IH|].
  enough (key z > 0) by lia. apply (item_gt z y); [lia|]. apply Hz, list_elem_of_fmap. by exists (y, l).
Qed.

Lemma find_class_none cs : (forall y, y ∈ heads cs -> key y <> 0) -> find_class cs = None.
Proof.
  unfold heads. induction cs as [|[z k] cs IH]; intros H; [done|]. cbn in *. rewrite decide_False by (apply H; left).
  apply IH. intros y Hy. apply H. by right.
Qed.

Lemma find_loop_wp ps s whole : forall fuel k t (Q : option Z -> ocf_rb_tree -> Prop),
  (depth t < fuel)%nat -> holds ps s whole -> ascending cmp (inorder whole) -> whole = plug k t ->
  (forall z, z ∈ before k -> key z > 0) -> (forall z, z ∈ after k -> key z < 0) ->
  (forall y, y ∈ inorder whole -> key y = 0 -> Q (Some y) s) ->
  ((forall y, y ∈ inorder whole -> key y <> 0) -> Q None s) ->
  wp (find_loop key fuel (ptr t)) Q s.
Proof.
  induction fuel as [|fuel IH]; intros k t Q Hf Hs Ha Ew Hb Haf HS HN; [lia|].
  destruct t as [|c l y r]; cbn [ptr find_loop].
  { apply wp_ret, HN. intros y Hy. rewrite Ew, inorder_plug in Hy. cbn in Hy.
    apply elem_of_app in Hy as [Hy|Hy]; [specialize (Hb y Hy)|specialize (Haf y Hy)]; lia. }
  cbn in Hf. pose proof Ha as Ha'. rewrite Ew, inorder_plug in Ha'.
  apply ascending_app in Ha' as (_ & Ha' & _). apply ascending_app in Ha' as (Ha' & _ & _). cbn in Ha'.
  apply ascending_app in Ha' as (_ & Hr & Hl). apply StronglySorted_inv in Hr as [_ Hr]. rewrite Forall_forall in Hr.
  wp_step. eapply (wp_tree_node _ s k); [rewrite <- Ew; exact Hs|]. intros n _ El Er _.
  case_bool_decide as H0.
  { apply wp_ret, HS; [|done]. rewrite Ew, inorder_plug. cbn. set_solver. }
  case_bool_decide as Hlt.
  - rewrite El. apply (IH (FL c y r :: k)); [lia|done|done|exact Ew|exact Hb| |done|done].
    intros z [->|[Hz|Hz]%elem_of_app]%elem_of_cons; [done|apply (item_lt y z); [lia|by apply Hr]|by apply Haf].
  - rewrite Er. apply (IH (FR c l y :: k)); [lia|done|done|exact Ew| |exact Haf|done|done].
    intros z [Hz|[Hz|Hz%list_elem_of_singleton]%elem_of_app]%elem_of_app; [by apply Hb| |subst z; lia].
    apply (item_gt z y); [lia|]. apply Hl; [done|left].
Qed.

(** The loop of [ocf_rb_tree_find] visits a number of nodes that is logarithmic
    in the number of classes. *)
Lemma find_loop_log s cs (Q : option Z -> ocf_rb_tree -> Prop) :
  index s cs -> Q (fst <$> find_class cs) s ->
  wp (find_loop key (S (2 * Nat.log2 (S (length cs)))) (root s)) Q s.
Proof.
  intros Hi HQ. destruct (ix_tree _ _ _ Hi) as (t & col & Ht & Et & Hrb).
  pose proof (ix_ascending _ _ _ Hi) as Ha. rewrite (ho_root _ _ _ Ht).
  eapply (find_loop_wp _ s t _ [] t); [|exact Ht|by rewrite Et|done|..].
  { pose proof (red_black_depth _ Hrb) as Hd. rewrite Et in Hd. unfold heads in Hd. rewrite length_fmap in Hd. lia. }
  1,2: intros z Hz; by apply elem_of_nil in Hz.
  - intros y Hy H0. rewrite Et in Hy. apply list_elem_of_fmap in Hy as ([y' l] & -> & Hin).
    by rewrite (find_class_some cs y' l) in HQ.
  - intros H. rewrite Et in H. by rewrite find_class_none in HQ.
Qed.

(** [ocf_rb_tree_find] looks the class up; a ring is left to the callback. *)
Lemma find_wp s cs find (Q : option Z -> ocf_rb_tree -> Prop) :
  index s cs ->
  match find_class cs with
  | None => Q None s
  | Some (y, []) => Q (Some y) s
  | Some (y, _) => wp (find y) Q s
  end -> wp (ocf_rb_tree_find key find) Q s.
Proof.
  intros Hi HQ. destruct (ix_tree _ _ _ Hi) as (t & col & Ht & Et & _).
  pose proof (ix_ascending _ _ _ Hi) as Ha. unfold ocf_rb_tree_find. wp_step. apply wp_get. wp_step.
  rewrite (ho_root _ _ _ Ht). eapply (find_loop_wp _ s t _ [] t); [|exact Ht|by rewrite Et|done|..].
  { pose proof (holds_size _ _ _ Ht). pose proof (depth_length t). lia. }
  1,2: intros z Hz; by apply elem_of_nil in Hz.
  - intros y Hy H0. rewrite Et in Hy. apply list_elem_of_fmap in Hy as ([y' l] & -> & Hin). cbn in *.
    rewrite (find_class_some cs y' l) in HQ by done. wp_step. eapply list_empty_wp; [exact Hi|exact Hin|].
    destruct l; [by apply wp_ret|exact HQ].
  - intros H. rewrite Et in H. rewrite find_class_none in HQ by done. by apply wp_ret.
Qed.
End Item.

(** ** Update in place *)

Section Update.
Context (key : Z -> Z) `{!ItemOrder key}.

Lemma plug_node c l y r k c' l' x r' : T c l y r = plug k (T c' l' x r') ->
  (k = [] /\ x = y) \/
  (exists k', k = k' ++ [FL c y r] /\ l = plug k' (T c' l' x r')) \/ (exists k', k = k' ++ [FR c l y] /\ r = plug k' (T c' l' x r')).
Proof.
  destruct k as [|f k _] using rev_ind; [intros [= -> -> -> ->]; by left|]. rewrite plug_app. intros E. right.
  destruct f; injection E as -> -> -> ->; [left|right]; eauto.
Qed.

Lemma in_plug k c l x r : x ∈ inorder (plug k (T c l x r)).
Proof. rewrite inorder_plug. cbn. set_solver. Qed.

(** The way from the root to [x]. *)
Lemma path_to_wp ps s whole x : key x >= 0 -> ascending cmp (inorder whole) -> holds ps s whole ->
  forall fuel k0 t0 (Q : bool -> ocf_rb_tree -> Prop),
  (length (inorder t0) < fuel)%nat -> whole = plug k0 t0 ->
  (forall b, (x ∉ inorder t0 -> b = false) ->
    (forall k c l r, t0 = plug k (T c l x r) -> b = bool_decide (Forall (fun z => key z < 0) (after k))) -> Q b s) ->
  wp (path_to key fuel x (ptr t0)) Q s.
Proof.
  intros Hx Ha Hs. induction fuel as [|fuel IH]; intros k0 t0 Q Hf Ew HQ; [lia|].
  destruct t0 as [|c l y r]; cbn [ptr path_to].
  { apply wp_ret, HQ; [done|]. intros k c l r E. exfalso. apply (f_equal inorder) in E. rewrite inorder_plug in E. cbn in E.
    destruct (before k), (inorder l); done. }
  cbn in Hf. rewrite length_app in Hf. cbn in Hf. pose proof Ha as Ha'. rewrite Ew, inorder_plug in Ha'.
  apply ascending_app in Ha' as (_ & Ha' & _). apply ascending_app in Ha' as (Ha' & _ & _). cbn in Ha'.
  apply ascending_app in Ha' as (_ & Hr & Hl). apply StronglySorted_inv in Hr as [_ Hr]. rewrite Forall_forall in Hr.
  pose proof (holds_nodup _ _ _ Hs) as Hnd. rewrite Ew in Hnd. apply nodup_plug in Hnd as [Hnd _]. cbn in Hnd.
  apply NoDup_app in Hnd as (_ & Hnl & Hnr). apply NoDup_cons in Hnr as [Hnr _].
  case_bool_decide as Exy.
  { subst y. apply wp_ret, HQ; [intros H; destruct H; cbn; set_solver|].
    intros k c' l' r' [[-> _]|[(k' & _ & ->)|(k' & _ & ->)]]%plug_node; [done|exfalso..].
    - apply (Hnl x); [apply in_plug|left].
    - apply Hnr, in_plug. }
  wp_step. eapply (wp_tree_node _ s k0); [rewrite <- Ew; exact Hs|]. intros n _ El Er _.
  case_bool_decide as Hlt.
  - rewrite El. apply (IH (FL c y r :: k0) l); [lia|exact Ew|]. intros b Hb1 Hb2. apply HQ.
    + intros H. apply Hb1. cbn in H. set_solver.
    + intros k c' l' r' [[_ ->]|[(k' & -> & El')|(k' & _ & ->)]]%plug_node; [done| |exfalso].
      * rewrite (Hb2 _ _ _ _ El'), after_app. apply bool_decide_ext. rewrite Forall_app. split; [|tauto].
        intros H. split; [done|]. cbn. rewrite app_nil_r. constructor; [done|]. apply Forall_forall. intros z Hz.
        apply (item_lt y z); [lia|by apply Hr].
      * enough (key y > 0) by lia. apply (item_gt y x); [done|]. apply Hr, in_plug.
  - rewrite Er. apply (IH (FR c l y :: k0) r); [lia|exact Ew|]. intros b Hb1 Hb2. apply HQ.
    + intros H. apply Hb1. cbn in H. set_solver.
    + intros k c' l' r' [[_ ->]|[(k' & -> & ->)|(k' & -> & Er')]]%plug_node; [done| |].
      * rewrite Hb1, bool_decide_eq_false_2; [done| |].
        -- rewrite after_app, Forall_app. cbn. intros [_ H]. apply Forall_cons in H as [H _]. lia.
        -- intros H. apply (Hnl x); [apply in_plug|by right].
      * rewrite (Hb2 _ _ _ _ Er'), after_app. cbn. by rewrite app_nil_r.
Qed.

(** May the node [x] take the new key where it is?  The new key is not smaller
    than the old one. *)
Lemma can_update_wp s cs1 x l cs2 (Q : bool -> ocf_rb_tree -> Prop) :
  index s (cs1 ++ (x, l) :: cs2) -> key x >= 0 ->
  Q (match l with [] => bool_decide (Forall (fun z => key z < 0) (heads cs2)) | _ => false end) s ->
  wp (ocf_rb_tree_can_update key x) Q s.
Proof.
  intros Hi Hx HQ. destruct (ix_tree _ _ _ Hi) as (t & col & Ht & Et & _).
  pose proof (ix_ascending _ _ _ Hi) as Ha. unfold heads in Et, Ha. rewrite fmap_app in Et, Ha. cbn in Et, Ha.
  unfold ocf_rb_tree_can_update. wp_step. eapply (list_empty_wp _ _ x l); [exact Hi|set_solver|].
  destruct l as [|n l]; cbn [negb]; [|by apply wp_ret]. wp_step. apply wp_get. wp_step.
  rewrite (ho_root _ _ _ Ht). eapply (path_to_wp _ s t x Hx ltac:(by rewrite Et) Ht _ [] t); [|done|].
  { pose proof (holds_size _ _ _ Ht). lia. }
  intros b _ Hb. destruct (tree_at x t _ _ Et (holds_nodup _ _ _ Ht)) as (k & c & tl & tr & Ep & _ & Ea).
  specialize (Hb _ _ _ _ Ep). fold (heads cs2) in Ea, Ha. rewrite Ep in Ht.
  apply ascending_app in Ha as (_ & Ha & _). apply StronglySorted_inv in Ha as [Ha Hxa]. rewrite Forall_forall in Hxa.
  destruct b; cbn [negb].
  2: { apply wp_ret. symmetry in Hb. apply bool_decide_eq_false in Hb. rewrite bool_decide_eq_false_2 in HQ; [done|].
       rewrite <- Ea, Forall_app. tauto. }
  symmetry in Hb. apply bool_decide_eq_true in Hb. rewrite bool_decide_eq_false_2 by lia.
  destruct (decide (key x > 0)) as [Hgt|Hgt]; [rewrite (bool_decide_eq_true_2 (key x > 0)) by done|rewrite (bool_decide_eq_false_2 (key x > 0)) by done].
  - wp_step. destruct tr as [|rc rl ry rr].
    + unfold ocf_rb_tree_successor. wp_step. eapply wp_tree_node; [exact Ht|]. intros n _ _ -> _. apply wp_ret. apply wp_ret.
      rewrite bool_decide_eq_true_2 in HQ; [done|]. by rewrite <- Ea.
    + destruct (leftmost_split rc rl ry rr) as (g & d & y & b & Er & Hg).
      eapply successor_wp; [exact Er|exact Hg|exact Ht|]. apply wp_ret.
      assert (Eh : heads cs2 = y :: inorder b ++ after g ++ after k).
      { rewrite <- Ea, Er, inorder_plug, Hg. flat. }
      rewrite Eh in HQ, Ha. apply StronglySorted_inv in Ha as [_ Ha].
      rewrite (bool_decide_ext (key y < 0) (Forall (fun z => key z < 0) (y :: inorder b ++ after g ++ after k))); [done|].
      rewrite Forall_cons. split; [|tauto]. intros Hy. split; [done|]. eapply Forall_impl; [exact Ha|]. cbn. intros z Hz.
      apply (item_lt y z); [lia|done].
  - apply wp_ret. rewrite bool_decide_eq_true_2 in HQ; [done|]. apply Forall_forall. intros z Hz.
    apply (item_lt x z); [lia|by apply Hxa].
Qed.

End Update.

End Classes.

(** ** Histories of a red-black tree

    Whatever is inserted and removed, the tree refines the sorted list of
    classes, is balanced, and a lookup visits a logarithmic number of nodes. *)

(** What a client calls, and what it means for the classes.  A node is inserted
    when it is in no class, and removed when it is in one. *)
Inductive rb_op := Insert (x : Z) | Remove (x : Z).
Definition op_node (o : rb_op) : Z := match o with Insert x | Remove x => x end.

Section History.
Context (cmp : Z -> Z -> Z) `{!NodeOrder cmp}.

Definition rb_step (o : rb_op) : RB unit :=
  match o with Insert x => ocf_rb_tree_insert cmp x | Remove x => ocf_rb_tree_remove x end.
Fixpoint rb_run (os : list rb_op) : RB unit :=
  match os with [] => mret tt | o :: os => _ ← rb_step o; rb_run os end.

Definition class_step (o : rb_op) (cs : classes) : option classes :=
  match o with
  | Insert x => if decide (x ∈ heads cs ++ members cs) then None else Some (insert_class cmp x cs)
  | Remove x => if decide (x ∈ heads cs ++ members cs) then Some (remove_class x cs) else None
  end.
Fixpoint class_run (os : list rb_op) (cs : classes) : option classes :=
  match os with [] => Some cs | o :: os => cs' ← class_step o cs; class_run os cs' end.

Lemma index_empty s : root s = None -> index cmp s [].
Proof.
  intros Hr. split; [|intros y l Hin; by apply elem_of_nil in Hin|intros y l m Hin; by apply elem_of_nil in Hin|constructor].
  exists E, (fun _ => false). split; [|split; [done|split; [done|by exists 0%nat]]]. split; [done|done|constructor|constructor].
Qed.

Lemma dom_links s : dom (links s) = dom (rb_nodes s).
Proof. unfold links. apply dom_fmap_L. Qed.

Lemma rb_step_wp o s cs cs' :
  index cmp s cs -> op_node o ∈ dom (rb_nodes s) -> class_step o cs = Some cs' ->
  wp (rb_step o) (fun _ s' => index cmp s' cs' /\ dom (rb_nodes s') = dom (rb_nodes s)) s.
Proof.
  intros Hi Hn. rewrite <- dom_links. destruct o as [x|x]; cbn; case_decide as Hx; [done| |..|done]; intros [= <-].
  - eapply wp_mono; [apply rb_insert_wp; [done|exact Hi|done|by apply elem_of_dom]|].
    intros _ s' [? E]. split; [done|]. by rewrite <- !dom_links.
  - eapply wp_mono; [by apply rb_remove_wp|]. intros _ s' [? E]. split; [done|]. by rewrite <- !dom_links.
Qed.

Lemma rb_run_wp os s cs cs' :
  index cmp s cs -> (forall o, o ∈ os -> op_node o ∈ dom (rb_nodes s)) -> class_run os cs = Some cs' ->
  wp (rb_run os) (fun _ s' => index cmp s' cs' /\ dom (rb_nodes s') = dom (rb_nodes s)) s.
Proof.
  revert s cs. induction os as [|o os IH]; intros s cs Hi Hn Hr; cbn in *.
  - injection Hr as <-. by apply wp_ret.
  - apply bind_Some in Hr as (cs1 & Hc & Hr). wp_step.
    eapply wp_mono; [eapply rb_step_wp; [exact Hi|apply Hn; left|exact Hc]|]. intros _ s1 [Hi1 Ed]. cbn.
    eapply wp_mono; [eapply (IH s1 cs1); [exact Hi1| |exact Hr]|].
    + intros o' Ho'. rewrite Ed. apply Hn. by right.
    + intros _ s' [? Ed']. split; [done|congruence].
Qed.
End History.

(** A balanced tree over the heads of the classes. *)
Definition balanced (s : ocf_rb_tree) (n : nat) : Prop :=
  exists t, root s = ptr t /\ rep s None t /\ red_black t /\ length (inorder t) = n /\
    (depth t <= 2 * Nat.log2 (S n))%nat.

Lemma index_balanced cmp s cs : index cmp s cs -> balanced s (length cs).
Proof.
  intros [(t & col & [H1 H2 _ _] & Ei & Hrb) _ _ _]. exists t. split; [done|]. split; [done|]. split; [done|].
  assert (El : length (inorder t) = length cs) by (rewrite Ei; unfold heads; apply length_fmap).
  split; [done|]. rewrite <- El. by apply red_black_depth.
Qed.
