(* ===== verification/RbProps.v ===== *)
(** * What a red-black tree promises

    The property of [src/utils/utils_rbtree.c] over whole histories, and the tree
    on concrete nodes. *)

From S2P Require Import Prelude RbTree RbShape RbInsert RbIndex RbClasses.
Open Scope Z_scope.

(** A lookup that finds a lone node returns it; a ring is left to the callback. *)
Definition found (find : Z -> RB (option Z)) (c : option (Z * list Z)) : RB (option Z) :=
  match c with
  | None => mret None
  | Some (y, []) => mret (Some y)
  | Some (y, _ :: _) => find y
  end.

(** May the lone node [x] take a key that is not smaller where it is?  [cs] are
    the classes behind it. *)
Definition fits (key : Z -> Z) (l : list Z) (cs : classes) : bool :=
  bool_decide (l = []) && bool_decide (Forall (fun z => key z < 0) (heads cs)).

(** A tree answers as its classes do.  [key]: the comparison of the item of a
    lookup with a node. *)
Record answers (cmp : Z -> Z -> Z) (s : ocf_rb_tree) (cs : classes) : Prop := {
  an_walk key : ItemOrder cmp key ->
    find_loop key (S (2 * Nat.log2 (S (length cs)))) (root s) s = Some (fst <$> find_class key cs, s);
  an_find key find r : ItemOrder cmp key ->
    found find (find_class key cs) s = Some r -> ocf_rb_tree_find key find s = Some r;
  an_update key cs1 x l cs2 : ItemOrder cmp key -> cs = cs1 ++ (x, l) :: cs2 -> key x >= 0 ->
    ocf_rb_tree_can_update key x s = Some (fits key l cs2, s)
}.

Lemma wp_exact {A} (m : RB A) (r : A * ocf_rb_tree) s :
  (forall Q : A -> ocf_rb_tree -> Prop, Q r.1 r.2 -> wp m Q s) -> m s = Some r.
Proof.
  intros H. specialize (H (fun b s2 => (b, s2) = r)). unfold wp in H.
  destruct (m s) as [[b s2]|]; [|destruct H; by destruct r].
  f_equal. apply H. by destruct r.
Qed.

Lemma index_answers cmp `{!NodeOrder cmp} s cs : index cmp s cs -> answers cmp s cs.
Proof.
  intros Hi. split.
  - intros key Ho. apply wp_exact. intros Q HQ. by apply (find_loop_log cmp).
  - intros key find [a s'] Ho Hr. apply wp_exact. cbn. intros Q HQ. apply (find_wp cmp key s cs); [done|].
    destruct (find_class key cs) as [[y [|n l]]|]; cbn in Hr; [by injection Hr as <- <-| |by injection Hr as <- <-].
    unfold wp. by rewrite Hr.
  - intros key cs1 x l cs2 Ho -> Hx. apply wp_exact. cbn. intros Q HQ.
    apply (can_update_wp cmp key s cs1 x l cs2); [done|done|]. by destruct l.
Qed.

(** C39. The red-black tree refines a sorted list of classes of equal nodes.
    Take any comparison that is a preorder, any store of nodes with whatever in
    them, an empty tree, and any history that inserts nodes that are in no class
    and removes nodes that are in one.  Every insertion and removal returns, and
    the tree is left over the heads of the classes in ascending order, with the
    other members of each class in the ring of its head, in the order of their
    insertion; a removed head hands its place to the next member.  The tree is
    balanced: no red node has a red child, every path has the same number of black
    nodes, and the depth is at most twice the logarithm of the number of classes.
    Then for every item that the order can place, the walk of a lookup takes a
    logarithmic number of steps and finds the class of the item when there is one;
    a lone node is returned and a ring is given to the callback; and a node is said
    to keep its place under a key that is not smaller exactly when it is alone and
    the new key is below those of all classes behind it. *)
Theorem rbtree_refines_classes (cmp : Z -> Z -> Z) (Hcmp : NodeOrder cmp) (s : ocf_rb_tree) (os : list rb_op)
    (cs : classes) (Hroot : root s = None) (Hnodes : forall o, o ∈ os -> op_node o ∈ dom (rb_nodes s))
    (Hrun : class_run cmp os [] = Some cs) :
  exists s', rb_run cmp os s = Some (tt, s') /\ dom (rb_nodes s') = dom (rb_nodes s) /\
    index cmp s' cs /\ balanced s' (length cs) /\ answers cmp s' cs.
Proof.
  pose proof (rb_run_wp cmp os s [] cs (index_empty cmp s Hroot) Hnodes Hrun) as Hwp. apply wp_run in Hwp as ([] & s' & E & Hi & Hd).
  exists s'. split; [done|]. split; [done|]. split; [done|]. split; [by eapply index_balanced|by apply index_answers].
Qed.

Module Sample.
(** Nodes with four different keys, in memory that was never initialised. *)
Definition cmp (x y : Z) : Z := x mod 4 - y mod 4.
Lemma cmp_order : NodeOrder cmp.
Proof. split; unfold cmp; lia. Qed.

Definition nodes : list Z := [10; 11; 12; 13; 14; 15; 16; 17].
Definition memory : ocf_rb_tree :=
  RbTree None (list_to_map ((fun x => (x, RbNode true (Some 99) None (Some x) 0 0)) <$> nodes)).
Definition history : list rb_op :=
  (Insert <$> nodes) ++ [Remove 10; Remove 12; Remove 15; Insert 10; Remove 17; Remove 13].

Definition left_over : classes := [(16, []); (14, [10]); (11, [])].

Lemma rbtree_refines_classes_witness :
  class_run cmp history [] = Some left_over /\
  exists s', rb_run cmp history memory = Some (tt, s') /\ dom (rb_nodes s') = dom (rb_nodes memory) /\
    index cmp s' left_over /\ balanced s' 3 /\ answers cmp s' left_over.
Proof.
  split; [by vm_compute|].
  apply (rbtree_refines_classes cmp cmp_order memory history left_over);
    [reflexivity| |vm_compute; reflexivity].
  apply (Forall_forall (fun o => op_node o ∈ dom (rb_nodes memory))), (bool_decide_unpack _). by vm_compute.
Defined.

(** What the callback is given when the item is at 2. *)
Example look_up : forall s, rb_run cmp history memory = Some (tt, s) ->
  fst <$> ocf_rb_tree_find (fun y => 2 - y mod 4) ocf_rb_tree_list_find_first s = Some (Some 14).
Proof. intros s E. vm_compute in E. injection E as <-. by vm_compute. Qed.
End Sample.
