(* ===== verification/SeqDetect.v ===== *)
(** * Sequential streams: [src/ocf_seq_detect.c], [src/ocf_seq_cutoff.c]

    A detector keeps its streams in a red-black tree ordered by the address where
    they end, and in a list by the time of their last request.  A core has one and
    each queue has one; a stream that grows moves from the queue to the core.  The
    functions run one after the other, as under the detectors' locks; what another
    thread does between two critical sections is not modelled. *)

From S2P Require Import Prelude RbTree.
Open Scope Z_scope.



(** The fields [node] and [list] are in the tree and in the list of the detector. *)
Record ocf_seq_detect_stream := Stream {
  last : Z;
  bytes : Z;
  rw : Z;
  valid : bool;
  req_count : Z
}.
#[export] Instance stream_eq_dec : EqDecision ocf_seq_detect_stream.
Proof. solve_decision. Defined.
#[export] Instance stream_inhabited : Inhabited ocf_seq_detect_stream := populate (Stream 0 0 0 false 0).

(** A stream is named by its index in [streams]; [lru] starts with the least
    recently used one. *)
Record ocf_seq_detect := SeqDetect {
  tree : ocf_rb_tree;
  lru : list Z;
  promotion_count : Z;
  promotion_threshold : Z;
  consumer_count : Z;
  streams : gmap Z ocf_seq_detect_stream
}.

Definition with_tree t s := SeqDetect t (lru s) (promotion_count s) (promotion_threshold s) (consumer_count s) (streams s).
Definition with_lru l s := SeqDetect (tree s) l (promotion_count s) (promotion_threshold s) (consumer_count s) (streams s).
Definition with_promotion c t s := SeqDetect (tree s) (lru s) c t (consumer_count s) (streams s).
Definition with_consumers c s := SeqDetect (tree s) (lru s) (promotion_count s) (promotion_threshold s) c (streams s).
Definition with_streams m s := SeqDetect (tree s) (lru s) (promotion_count s) (promotion_threshold s) (consumer_count s) m.

Definition SD := Prelude.M ocf_seq_detect.

(** ** The order of the tree *)

Definition ocf_seq_detect_stream_cmp (s1 s2 : ocf_seq_detect_stream) : Z :=
  if negb (valid s1) && valid s2 then -1
  else if valid s1 && negb (valid s2) then 1
  else if bool_decide (rw s1 < rw s2) then -1
  else if bool_decide (rw s1 > rw s2) then 1
  else if bool_decide (last s1 < last s2) then -1
  else if bool_decide (last s1 > last s2) then 1
  else 0.

Section Tree.
Context (sts : gmap Z ocf_seq_detect_stream).

Definition node_cmp (x y : Z) : Z := ocf_seq_detect_stream_cmp (sts !!! x) (sts !!! y).
Definition item_cmp (item : ocf_seq_detect_stream) (y : Z) : Z := ocf_seq_detect_stream_cmp item (sts !!! y).

(** The loop of [ocf_seq_detect_stream_list_find]: [list_for_each_entry] starts
    behind [node_list] and stops when it is there again. *)
Fixpoint list_find_loop (fuel : nat) (node node_list : Z) (max_stream : option Z) : RB (option Z) :=
  if bool_decide (node = node_list) then mret max_stream
  else
    match fuel with
    | O => env_bug
    | S fuel =>
        let max := default node max_stream in
        let max := if bool_decide (bytes (sts !!! node) > bytes (sts !!! max)) then node else max in
        n ← node_at node;
        list_find_loop fuel (list_next n) node_list (Some max)
    end.
Definition ocf_seq_detect_stream_list_find (node_list : Z) : RB (option Z) :=
  t ← get;
  n ← node_at node_list;
  list_find_loop (size (rb_nodes t)) (list_next n) node_list None.
End Tree.

(** A call on the tree; the comparison reads the streams as they are. *)
Definition in_tree {A} (m : gmap Z ocf_seq_detect_stream -> RB A) : SD A := fun s =>
  match m (streams s) (tree s) with Some (a, t) => Some (a, with_tree t s) | None => None end.

Definition tree_insert (x : Z) : SD unit := in_tree (fun sts => ocf_rb_tree_insert (node_cmp sts) x).
Definition tree_remove (x : Z) : SD unit := in_tree (fun _ => ocf_rb_tree_remove x).
Definition tree_find (item : ocf_seq_detect_stream) : SD (option Z) :=
  in_tree (fun sts => ocf_rb_tree_find (item_cmp sts item) (ocf_seq_detect_stream_list_find sts)).
Definition tree_can_update (x : Z) (item : ocf_seq_detect_stream) : SD bool :=
  in_tree (fun sts => ocf_rb_tree_can_update (item_cmp sts item) x).

(** Fields of a stream. *)
Definition stream_at (x : Z) : SD ocf_seq_detect_stream := load (fun s => streams s !! x).
Definition set_stream (x : Z) (f : ocf_seq_detect_stream -> ocf_seq_detect_stream) : SD unit :=
  st ← stream_at x; modify (fun s => with_streams (<[x := f st]> (streams s)) s).

(** [list_first_entry] of the list, and the moves in it. *)
Definition lru_first : SD Z := load (fun s => head (lru s)).
Definition others (x : Z) (l : list Z) : list Z := filter (fun y => y <> x) l.
Definition list_move_tail (x : Z) : SD unit := modify (fun s => with_lru (others x (lru s) ++ [x]) s).
Definition list_move (x : Z) : SD unit := modify (fun s => with_lru (x :: others x (lru s)) s).

(** ** Detectors *)

(** [stream->req_count] keeps what the memory holds. *)
Definition initial_stream (i : Z) (st : ocf_seq_detect_stream) : ocf_seq_detect_stream :=
  Stream (4096 * i) 0 0 false (req_count st).

Definition ocf_seq_detect_init (nstreams : Z) : SD unit :=
  _ ← modify (fun s => with_tree (with_root None (tree s)) s);
  _ ← modify (with_lru []);
  _ ← modify (with_consumers 0);
  m_for (seqZ 0 nstreams) (fun i =>
    _ ← set_stream i (initial_stream i);
    _ ← tree_insert i;
    modify (fun s => with_lru (lru s ++ [i]) s)).

Definition ocf_seq_detect_register_consumer : SD unit := modify (fun s => with_consumers (consumer_count s + 1) s).
Definition ocf_seq_detect_unregister_consumer : SD unit := modify (fun s => with_consumers (consumer_count s - 1) s).

(** [count] and [threshold]: the core's promotion settings. *)
Definition ocf_seq_detect_sync_config (count threshold : Z) : SD unit := modify (with_promotion count threshold).

Definition seq_item (addr rw : Z) : ocf_seq_detect_stream := Stream addr 0 (rw mod 2) true 0.

(** The request that extends a stream, and the one that starts one. *)
Definition extended (addr len : Z) (st : ocf_seq_detect_stream) : ocf_seq_detect_stream :=
  Stream (u64 (addr + len)) (u64 (bytes st + len)) (rw st) (valid st) (u16 (req_count st + 1)).
Definition started (addr len rw : Z) : ocf_seq_detect_stream := Stream (u64 (addr + len)) len (rw mod 2) true 1.

Definition ocf_seq_detect_update (addr len rw : Z) (insert : bool) : SD (option Z) :=
  node ← tree_find (seq_item addr rw);
  match node with
  | Some stream =>
      can_update ← tree_can_update stream (seq_item (u64 (addr + len)) rw);
      _ ← set_stream stream (extended addr len);
      _ ← when (negb (can_update : bool)) (_ ← tree_remove stream; tree_insert stream);
      _ ← list_move_tail stream;
      mret (Some stream)
  | None =>
      if insert then
        stream ← lru_first;
        _ ← tree_remove stream;
        _ ← set_stream stream (fun _ => started addr len rw);
        _ ← tree_insert stream;
        _ ← list_move_tail stream;
        mret (Some stream)
      else mret None
  end.

Definition ocf_seq_detect_should_promote (stream : Z) : SD bool :=
  s ← get;
  st ← stream_at stream;
  mret (if bool_decide (promotion_threshold s > 0) && bool_decide (bytes st >= promotion_threshold s) then true
        else bool_decide (req_count st >= promotion_count s)).

Definition ocf_seq_detect_find (addr rw : Z) : SD (option Z) := tree_find (seq_item addr rw).

(** ** A queue and its core *)

Record detectors := Detectors { queue_sd : ocf_seq_detect; core_sd : ocf_seq_detect }.
Definition DS := Prelude.M detectors.
Definition on_queue {A} (m : SD A) : DS A := fun d =>
  match m (queue_sd d) with Some (a, s) => Some (a, Detectors s (core_sd d)) | None => None end.
Definition on_core {A} (m : SD A) : DS A := fun d =>
  match m (core_sd d) with Some (a, s) => Some (a, Detectors (queue_sd d) s) | None => None end.

(** The part of [ocf_seq_detect_promote] on [dst]: [st] is the source stream. *)
Definition promote_into (st : ocf_seq_detect_stream) : SD unit :=
  dst_stream ← lru_first;
  _ ← tree_remove dst_stream;
  _ ← set_stream dst_stream (fun _ => Stream (last st) (bytes st) (rw st) true (req_count st));
  _ ← tree_insert dst_stream;
  list_move_tail dst_stream.

Definition ocf_seq_detect_promote (src_stream : Z) : DS unit :=
  st ← on_queue (stream_at src_stream);
  _ ← on_core (promote_into st);
  _ ← on_queue (set_stream src_stream (fun st => Stream (last st) (bytes st) (rw st) false (req_count st)));
  on_queue (list_move src_stream).

Definition ocf_core_seq_detect_update (count threshold addr len rw : Z) : DS unit :=
  d ← get;
  if bool_decide (consumer_count (core_sd d) = 0) then mret tt
  else
    _ ← on_queue (ocf_seq_detect_sync_config count threshold);
    _ ← on_core (ocf_seq_detect_sync_config count threshold);
    stream ← on_core (ocf_seq_detect_update addr len rw false);
    match stream with
    | Some _ => mret tt
    | None =>
        stream ← on_queue (ocf_seq_detect_update addr len rw true);
        stream ← load (fun _ => stream);
        promote ← on_queue (ocf_seq_detect_should_promote stream);
        when promote (ocf_seq_detect_promote stream)
    end.

(** ** The cutoff *)

(** [ocf_seq_cutoff_policy_max] stands for every value that is no policy. *)
Inductive ocf_seq_cutoff_policy :=
  | ocf_seq_cutoff_policy_always | ocf_seq_cutoff_policy_full | ocf_seq_cutoff_policy_never
  | ocf_seq_cutoff_policy_max.
#[export] Instance policy_eq_dec : EqDecision ocf_seq_cutoff_policy.
Proof. solve_decision. Defined.

Definition SEQ_CUTOFF_FULL_MARGIN : Z := 512.

(** [attached]: is the cache attached; [num_free]: its free lines;
    [core_line_count]: the lines of the request. *)
Definition ocf_seq_cutoff_is_on (attached : bool) (num_free core_line_count : Z) : bool :=
  if negb attached then false
  else bool_decide (num_free <= u32 (SEQ_CUTOFF_FULL_MARGIN + core_line_count)).

Definition over_threshold (stream : option Z) (len threshold : Z) : SD bool :=
  match stream with
  | None => mret false
  | Some x => st ← stream_at x; mret (bool_decide (u64 (bytes st + len) >= threshold))
  end.

(** The answer, and whether the request is marked with [seq_cutoff_core]. *)
Definition ocf_core_seq_cutoff_check (policy : ocf_seq_cutoff_policy) (threshold : Z) (is_on : bool)
    (addr len rw : Z) : DS (bool * bool) :=
  let check :=
    stream ← on_queue (ocf_seq_detect_find addr rw);
    result ← on_queue (over_threshold stream len threshold);
    match stream with
    | Some _ => mret (result, false)
    | None =>
        stream ← on_core (ocf_seq_detect_find addr rw);
        result ← on_core (over_threshold stream len threshold);
        mret (result, bool_decide (is_Some stream))
    end in
  match policy with
  | ocf_seq_cutoff_policy_always => check
  | ocf_seq_cutoff_policy_full => if is_on then check else mret (false, false)
  | ocf_seq_cutoff_policy_never => mret (false, false)
  | ocf_seq_cutoff_policy_max => mret (false, false)
  end.

(** [core->seq_cutoff_active] beside the core's detector. *)
Record cutoff := Cutoff { cutoff_policy : ocf_seq_cutoff_policy; seq_cutoff_active : bool; cutoff_sd : ocf_seq_detect }.
Definition CO := Prelude.M cutoff.
Definition on_sd {A} (m : SD A) : CO A := fun c =>
  match m (cutoff_sd c) with Some (a, s) => Some (a, Cutoff (cutoff_policy c) (seq_cutoff_active c) s) | None => None end.
Definition set_active (b : bool) : CO unit := modify (fun c => Cutoff (cutoff_policy c) b (cutoff_sd c)).
Definition set_policy (p : ocf_seq_cutoff_policy) : CO unit := modify (fun c => Cutoff p (seq_cutoff_active c) (cutoff_sd c)).

Definition ocf_core_seq_cutoff_init : CO unit :=
  c ← get;
  when (bool_decide (cutoff_policy c <> ocf_seq_cutoff_policy_never))
    (_ ← on_sd ocf_seq_detect_register_consumer; set_active true).
Definition ocf_core_seq_cutoff_deinit : CO unit :=
  c ← get;
  if negb (seq_cutoff_active c) then mret tt
  else _ ← on_sd ocf_seq_detect_unregister_consumer; set_active false.
Definition ocf_seq_cutoff_set_policy (policy : ocf_seq_cutoff_policy) : CO unit :=
  _ ← set_policy policy;
  c ← get;
  if negb (seq_cutoff_active c) && bool_decide (policy <> ocf_seq_cutoff_policy_never) then
    _ ← on_sd ocf_seq_detect_register_consumer; set_active true
  else if seq_cutoff_active c && bool_decide (policy = ocf_seq_cutoff_policy_never) then
    _ ← on_sd ocf_seq_detect_unregister_consumer; set_active false
  else mret tt.
