(* ===== verification/SeqTrack.v ===== *)
(** * Detectors track their streams

    The comparison of streams orders the nodes of the tree, and a lookup finds a
    stream that ends where the request starts.  A detector refines a list of
    streams by the time of their last request: an update extends a stream, or
    starts one in place of the oldest. *)

From Stdlib Require Import Sorting.Sorted.
From S2P Require Import Prelude Links RbTree RbShape RbInsert RbIndex RbClasses SeqDetect.
Open Scope Z_scope.

(** ** The order of streams *)

Definition below (a b : ocf_seq_detect_stream) : Prop :=
  Z.b2z (valid a) < Z.b2z (valid b) \/
  (Z.b2z (valid a) = Z.b2z (valid b) /\ (rw a < rw b \/ (rw a = rw b /\ last a < last b))).
Definition alike (a b : ocf_seq_detect_stream) : Prop :=
  Z.b2z (valid a) = Z.b2z (valid b) /\ rw a = rw b /\ last a = last b.

Lemma cmp_cases a b :
  (ocf_seq_detect_stream_cmp a b = -1 /\ below a b) \/ (ocf_seq_detect_stream_cmp a b = 0 /\ alike a b) \/
  (ocf_seq_detect_stream_cmp a b = 1 /\ below b a).
Proof.
  unfold ocf_seq_detect_stream_cmp, below, alike.
  destruct (valid a), (valid b); cbn; repeat case_bool_decide; lia.
Qed.

Lemma cmp_below a b : ocf_seq_detect_stream_cmp a b < 0 <-> below a b.
Proof. pose proof (cmp_cases a b). unfold below, alike in *. lia. Qed.
Lemma cmp_above a b : ocf_seq_detect_stream_cmp a b > 0 <-> below b a.
Proof. pose proof (cmp_cases a b). unfold below, alike in *. lia. Qed.
Lemma cmp_alike a b : ocf_seq_detect_stream_cmp a b = 0 <-> alike a b.
Proof. pose proof (cmp_cases a b). unfold below, alike in *. lia. Qed.

#[export] Instance node_cmp_order sts : NodeOrder (node_cmp sts).
Proof.
  split; unfold node_cmp.
  - intros x. by apply cmp_alike.
  - intros x y. by rewrite cmp_below, cmp_above.
  - intros x y z. pose proof (cmp_cases (sts !!! x) (sts !!! y)). pose proof (cmp_cases (sts !!! y) (sts !!! z)).
    pose proof (cmp_cases (sts !!! x) (sts !!! z)). unfold below, alike in *. lia.
Qed.

#[export] Instance item_cmp_order sts item : ItemOrder (node_cmp sts) (item_cmp sts item).
Proof.
  split; intros x y; unfold node_cmp, item_cmp; pose proof (cmp_cases (sts !!! x) (sts !!! y));
    pose proof (cmp_cases item (sts !!! x)); pose proof (cmp_cases item (sts !!! y)); unfold below, alike in *; lia.
Qed.

(** ** Classes under another order *)

Lemma index_ext cmp cmp' t cs : index cmp t cs ->
  (forall x y, x ∈ heads cs ++ members cs -> y ∈ heads cs ++ members cs -> cmp' x y = cmp x y) -> index cmp' t cs.
Proof.
  intros [H1 H2 H3 H4] He. split; [done|done| |].
  - intros y l m Hin Hm. rewrite He; [by apply (H3 y l m)|eapply in_class; [done|by right]|eapply in_class; [done|left]].
  - assert (Hh : forall x y, x ∈ heads cs -> y ∈ heads cs -> cmp' x y = cmp x y) by (intros; apply He; set_solver).
    clear -H4 Hh. induction H4 as [|x l Hs IH Hx]; [constructor|]. constructor; [apply IH; intros; apply Hh; by right|].
    rewrite Forall_forall in *. intros y Hy. rewrite Hh; [by apply Hx|left|by right].
Qed.

(** A lone node takes a key that is between its neighbours. *)
Lemma index_rekey cmp cmp' t cs1 x cs2 : index cmp t (cs1 ++ (x, []) :: cs2) ->
  (forall y z, y <> x -> z <> x -> cmp' y z = cmp y z) ->
  (forall z, z ∈ heads cs1 -> cmp' z x < 0) -> (forall z, z ∈ heads cs2 -> cmp' x z < 0) ->
  index cmp' t (cs1 ++ (x, []) :: cs2).
Proof.
  intros Hi He Hb Ha. pose proof (index_nodup _ _ _ Hi) as Hnd. destruct Hi as [H1 H2 H3 H4].
  assert (Hh : heads (cs1 ++ (x, []) :: cs2) = heads cs1 ++ x :: heads cs2) by (unfold heads; by rewrite fmap_app).
  rewrite Hh in Hnd, H4. rewrite <- app_assoc in Hnd. cbn in Hnd. pose proof (nodup_pivot _ _ _ Hnd) as Hx.
  split; [done|done| |].
  - intros y l m Hin Hm. assert (Hmm : m ∈ members (cs1 ++ (x, []) :: cs2)) by (apply list_elem_of_bind; by exists (y, l)).
    rewrite He; [by eapply H3|intros ->; set_solver|].
    intros ->. assert (l = []) as ->; [|by apply elem_of_nil in Hm].
    apply elem_of_app in Hin as [Hin|[[= ->]|Hin]%elem_of_cons]; [|done|]; apply heads_in in Hin; cbn in Hin; set_solver.
  - rewrite Hh. apply ascending_app in H4 as (S1 & S2 & S3). apply StronglySorted_inv in S2 as [S2 S4]. rewrite Forall_forall in S4.
    assert (Hsub : forall l, ascending cmp l -> x ∉ l -> ascending cmp' l).
    { clear -He. intros l Hl Hx. induction Hl as [|y l Hs IH Hy]; [constructor|]. constructor; [apply IH; set_solver|].
      rewrite Forall_forall in *. intros z Hz. rewrite He; [by apply Hy|set_solver..]. }
    apply ascending_app. split; [apply Hsub; [done|set_solver]|]. split.
    + constructor; [apply Hsub; [done|set_solver]|by apply Forall_forall].
    + intros y z Hy [->|Hz]%elem_of_cons; [by apply Hb|]. rewrite He; [apply S3; [done|by right]|set_solver..].
Qed.

Lemma in_insert_class cmp x cs z : z ∈ heads (insert_class cmp x cs) ++ members (insert_class cmp x cs) <-> z = x \/ z ∈ heads cs ++ members cs.
Proof.
  unfold heads, members. induction cs as [|[y l] cs IH]; cbn; [set_solver|]. repeat case_decide; cbn; set_solver.
Qed.

Lemma in_remove_class x cs z : NoDup (heads cs ++ members cs) ->
  z ∈ heads (remove_class x cs) ++ members (remove_class x cs) <-> z <> x /\ z ∈ heads cs ++ members cs.
Proof.
  unfold heads, members. induction cs as [|[y l] cs IH]; cbn; [set_solver|]. intros Hnd.
  assert (E : y :: cs.*1 ++ l ++ cs ≫= snd ≡ₚ y :: l ++ (cs.*1 ++ cs ≫= snd)) by solve_Permutation.
  rewrite E in Hnd. apply NoDup_cons in Hnd as [Hy Hnd']. apply NoDup_app in Hnd' as (Hl & Hlc & Hc). specialize (IH Hc).
  case_decide as Hxy; [|case_decide as Hxl].
  - subst y. destruct l as [|n l]; cbn; set_solver.
  - pose proof (Hlc x Hxl) as Hxc. cbn [fmap list_fmap mbind list_bind fst snd]. clear IH Hlc Hc Hl.
    cbn. rewrite !elem_of_cons, !elem_of_app, list_elem_of_filter. rewrite elem_of_app in Hxc.
    destruct (decide (z = x)) as [->|]; tauto.
  - cbn. set_solver.
Qed.

(** ** The stream of a ring *)

(** The greatest of a ring, its head aside. *)
Definition greatest (sts : gmap Z ocf_seq_detect_stream) (x : Z) (l : list Z) : Prop :=
  x ∈ l /\ forall y, y ∈ l -> bytes (sts !!! y) <= bytes (sts !!! x).

Lemma list_find_loop_wp sts t y l l1 l2 fuel max (Q : option Z -> ocf_rb_tree -> Prop) :
  ring (links t) y l -> NoDup (y :: l) -> l = l1 ++ l2 -> (length l2 <= fuel)%nat ->
  match max with None => l1 = [] | Some m => greatest sts m l1 end ->
  (forall m, greatest sts m l -> Q (Some m) t) -> (l = [] -> Q None t) ->
  wp (list_find_loop sts fuel (hdd y l2) y max) Q t.
Proof.
  intros Hr Hnd El. revert l2 l1 max El. induction fuel as [|fuel IH]; intros l2 l1 max El Hf Hm HS HN.
  - destruct l2; cbn in Hf; [|lia]. cbn. rewrite bool_decide_eq_true_2 by done. rewrite app_nil_r in El. subst l1. apply wp_ret.
    destruct max; [by apply HS|by apply HN].
  - destruct l2 as [|x l2]; cbn [hdd list_find_loop].
    { rewrite bool_decide_eq_true_2 by done. rewrite app_nil_r in El. subst l1. apply wp_ret.
      destruct max; [by apply HS|by apply HN]. }
    change (hdd y (x :: l2)) with x.
    rewrite bool_decide_eq_false_2; [|intros ->; apply NoDup_cons in Hnd as [Hy _]; apply Hy; set_solver].
    rewrite El in Hr. destruct (links_node t x _ (ring_at _ _ _ _ _ Hr)) as (n & Hn & En & _). rewrite <- El in Hr.
    wp_step. eapply wp_load; [exact Hn|]. cbn in En. rewrite En.
    apply (IH l2 (l1 ++ [x])); [by rewrite <- app_assoc|cbn in Hf; lia| |done|done].
    destruct max as [m|]; cbn.
    + destruct Hm as [Hm1 Hm2]. case_bool_decide; (split; [set_solver|]);
        intros z [Hz%Hm2|Hz%list_elem_of_singleton]%elem_of_app; try subst z; lia.
    + subst l1. rewrite bool_decide_eq_false_2 by lia. split; [set_solver|].
      intros z [Hz|Hz%list_elem_of_singleton]%elem_of_app; [by apply elem_of_nil in Hz|subst z; lia].
Qed.

(** Every member of a class is a node of the store. *)
Lemma index_nodes cmp t cs x : index cmp t cs -> x ∈ heads cs ++ members cs -> x ∈ dom (links t).
Proof.
  intros Hi [Hx|Hx]%elem_of_app; apply elem_of_dom.
  - apply list_elem_of_fmap in Hx as ([y l] & -> & Hin). eapply ring_is_Some; [by eapply ix_ring|left].
  - apply list_elem_of_bind in Hx as ([y l] & Hx & Hin). eapply ring_is_Some; [by eapply ix_ring|by right].
Qed.

Lemma class_size cmp t cs y l : index cmp t cs -> (y, l) ∈ cs -> (length l <= size (rb_nodes t))%nat.
Proof.
  intros Hi Hin. pose proof (class_nodup _ _ _ _ _ Hi Hin) as Hnd. apply NoDup_cons in Hnd as [_ Hnd].
  rewrite <- (size_list_to_set (C:=gset Z)) by done. rewrite <- size_dom, <- (dom_fmap_L (fun n => (list_next n, list_prev n))).
  apply subseteq_size. intros z Hz%elem_of_list_to_set. eapply (index_nodes cmp t cs z Hi), in_class; [done|by right].
Qed.

(** [ocf_rb_tree_find] with the callback of the detectors. *)
Lemma find_stream_wp sts item t cs (Q : option Z -> ocf_rb_tree -> Prop) :
  index (node_cmp sts) t cs ->
  (forall x h, x ∈ heads cs ++ members cs -> alike item (sts !!! x) ->
    (forall y, y ∈ heads cs ++ members cs -> alike item (sts !!! y) -> y <> h -> bytes (sts !!! y) <= bytes (sts !!! x)) -> Q (Some x) t) ->
  ((forall x, x ∈ heads cs ++ members cs -> ~ alike item (sts !!! x)) -> Q None t) ->
  wp (ocf_rb_tree_find (item_cmp sts item) (ocf_seq_detect_stream_list_find sts)) Q t.
Proof.
  intros Hi HS HN. apply (find_wp (node_cmp sts) (item_cmp sts item) t cs _ Q Hi).
  assert (Hal : forall y l m, (y, l) ∈ cs -> m ∈ y :: l -> alike item (sts !!! m) <-> item_cmp sts item y = 0).
  { intros y l m Hin Hm. unfold item_cmp. rewrite cmp_alike. apply elem_of_cons in Hm as [->|Hm]; [done|].
    pose proof (ix_equal _ _ _ Hi _ _ _ Hin Hm) as E. unfold node_cmp in E. apply cmp_alike in E. unfold alike in *. lia. }
  destruct (find_class (item_cmp sts item) cs) as [[y l]|] eqn:E.
  - assert (Hy : (y, l) ∈ cs /\ item_cmp sts item y = 0).
    { clear -E. induction cs as [|[z k] cs IH]; [done|]. cbn in E. case_decide; [injection E as -> ->; split; [left|done]|].
      destruct (IH E). split; [by right|done]. }
    destruct Hy as [Hin H0].
    assert (Honly : forall z, z ∈ heads cs ++ members cs -> alike item (sts !!! z) -> z ∈ y :: l).
    { intros z Hz Ha. destruct (class_of _ _ _ _ Hi Hz) as (cs1 & y' & l' & cs2 & Ecs & Hz' & _).
      assert (Hin' : (y', l') ∈ cs) by (rewrite Ecs; set_solver).
      apply (proj1 (Hal _ _ _ Hin' Hz')) in Ha.
      pose proof (find_class_some (node_cmp sts) (item_cmp sts item) cs y' l' (ix_ascending _ _ _ Hi) Hin' Ha) as E'. congruence. }
    destruct l as [|n l].
    + apply (HS y y); [eapply in_class; [done|left]|apply (Hal y []); [done|left|done]|].
      intros z Hz Ha Hne. specialize (Honly z Hz Ha). apply list_elem_of_singleton in Honly. done.
    + pose proof (ix_ring _ _ _ Hi _ _ Hin) as Hr. pose proof (class_nodup _ _ _ _ _ Hi Hin) as Hnd.
      unfold ocf_seq_detect_stream_list_find. wp_step. apply wp_get. wp_step.
      destruct (links_node t y _ (ring_head _ _ _ Hr)) as (m & Hm & En & _). cbn in En. eapply wp_load; [exact Hm|]. rewrite En.
      apply (list_find_loop_wp sts t y (n :: l) [] (n :: l)); [done|done|done|by eapply class_size|done| |done].
      intros x [Hx1 Hx2]. apply (HS x y); [eapply in_class; [done|by right]|apply (Hal y (n :: l)); [done|by right|done]|].
      intros z Hz Ha Hne. apply Hx2. specialize (Honly z Hz Ha). set_solver.
  - apply HN. intros x Hx Ha. destruct (class_of _ _ _ _ Hi Hx) as (cs1 & y & l & cs2 & Ecs & Hxy & _).
    assert (Hin : (y, l) ∈ cs) by (rewrite Ecs; set_solver). apply (proj1 (Hal _ _ _ Hin Hxy)) in Ha.
    pose proof (find_class_some (node_cmp sts) (item_cmp sts item) cs y l (ix_ascending _ _ _ Hi) Hin Ha). congruence.
Qed.

(** ** The specification *)

(** The oldest stream comes first. *)
Record view := View { v_lru : list Z; v_streams : gmap Z ocf_seq_detect_stream }.

(** A stream that a request at [addr] continues. *)
Definition matching (addr rw : Z) (v : view) (x : Z) : Prop :=
  let st := v_streams v !!! x in
  x ∈ v_lru v /\ valid st = true /\ SeqDetect.rw st = rw mod 2 /\ last st = addr.

(** The longest of them, one of them aside. *)
Definition longest (addr rw : Z) (v : view) (x : Z) : Prop :=
  matching addr rw v x /\
  exists h, forall y, matching addr rw v y -> y <> h -> bytes (v_streams v !!! y) <= bytes (v_streams v !!! x).

Definition touch (x : Z) (f : ocf_seq_detect_stream -> ocf_seq_detect_stream) (v : view) : view :=
  View (others x (v_lru v) ++ [x]) (alter f x (v_streams v)).

(** What a detector is asked: to take a request into account, or to take a stream
    over from another detector. *)
Inductive seq_event :=
  | Request (addr len rw : Z) (insert : bool)
  | TakeOver (st : ocf_seq_detect_stream).

Definition taken_over (st : ocf_seq_detect_stream) : ocf_seq_detect_stream := Stream (last st) (bytes st) (rw st) true (req_count st).

Inductive track : seq_event -> view -> option Z -> view -> Prop :=
  | track_extend addr len rw insert v x :
      longest addr rw v x -> track (Request addr len rw insert) v (Some x) (touch x (extended addr len) v)
  | track_start addr len rw v x l :
      (forall y, ~ matching addr rw v y) -> v_lru v = x :: l ->
      track (Request addr len rw true) v (Some x) (touch x (fun _ => started addr len rw) v)
  | track_ignore addr len rw v :
      (forall y, ~ matching addr rw v y) -> track (Request addr len rw false) v None v
  | track_take_over st v x l :
      v_lru v = x :: l -> track (TakeOver st) v None (touch x (fun _ => taken_over st) v).

Inductive tracks : list seq_event -> view -> list (option Z) -> view -> Prop :=
  | tracks_nil v : tracks [] v [] v
  | tracks_cons e es v r v1 rs v2 : track e v r v1 -> tracks es v1 rs v2 -> tracks (e :: es) v (r :: rs) v2.

(** Addresses do not wrap around. *)
Definition in_bounds (e : seq_event) : Prop :=
  match e with Request addr len _ _ => 0 <= addr /\ 0 <= len /\ addr + len < 2 ^ 64 | TakeOver _ => True end.

Definition seq_step (e : seq_event) : SD (option Z) :=
  match e with
  | Request addr len rw insert => ocf_seq_detect_update addr len rw insert
  | TakeOver st => _ ← promote_into st; mret None
  end.
Fixpoint seq_run (es : list seq_event) : SD (list (option Z)) :=
  match es with [] => mret [] | e :: es => r ← seq_step e; rs ← seq_run es; mret (r :: rs) end.

(** ** The invariant *)

Definition view_of (s : ocf_seq_detect) : view := View (lru s) (streams s).

Record tracked (s : ocf_seq_detect) : Prop := {
  tr_index : exists cs, index (node_cmp (streams s)) (tree s) cs /\ heads cs ++ members cs ≡ₚ lru s;
  tr_stream x : x ∈ lru s -> is_Some (streams s !! x)
}.

Lemma tracked_nodup s : tracked s -> NoDup (lru s).
Proof. intros [(cs & Hi & <-) _]. by eapply index_nodup. Qed.

Lemma wp_in_tree {A} (m : gmap Z ocf_seq_detect_stream -> RB A) s (Q : A -> ocf_seq_detect -> Prop) :
  wp (m (streams s)) (fun a t => Q a (with_tree t s)) (tree s) -> wp (in_tree m) Q s.
Proof. unfold wp, in_tree. destruct (m (streams s) (tree s)) as [[a t]|]; done. Qed.

Lemma with_same_tree s : with_tree (tree s) s = s.
Proof. by destruct s. Qed.

Lemma others_perm x l : NoDup l -> x ∈ l -> x :: others x l ≡ₚ l.
Proof.
  intros Hnd Hx. apply list_elem_of_split in Hx as (l1 & l2 & ->). unfold others. rewrite filter_other by done. solve_Permutation.
Qed.

Lemma in_others x y l : y ∈ others x l <-> y <> x /\ y ∈ l.
Proof. unfold others. by rewrite list_elem_of_filter. Qed.

(** A lookup. *)
Lemma tree_find_wp s addr rw (Q : option Z -> ocf_seq_detect -> Prop) : tracked s ->
  (forall x, longest addr rw (view_of s) x -> Q (Some x) s) -> ((forall y, ~ matching addr rw (view_of s) y) -> Q None s) ->
  wp (tree_find (seq_item addr rw)) Q s.
Proof.
  intros [(cs & Hi & Hp) _] HS HN. apply wp_in_tree.
  assert (Hm : forall y, matching addr rw (view_of s) y <-> y ∈ heads cs ++ members cs /\ alike (seq_item addr rw) (streams s !!! y)).
  { intros y. unfold matching, alike. cbn. rewrite Hp. destruct (valid (streams s !!! y)); cbn; intuition congruence. }
  eapply find_stream_wp; [exact Hi| |]; rewrite with_same_tree.
  - intros x h Hx Ha Hmax. apply HS. split; [by apply Hm|]. exists h. intros y [Hy1 Hy2]%Hm Hne. by apply Hmax.
  - intros Hno. apply HN. intros y [Hy1 Hy2]%Hm. by apply (Hno y).
Qed.

(** The tree orders the streams [l] by the keys in [sts]. *)
Definition indexed (sts : gmap Z ocf_seq_detect_stream) (t : ocf_rb_tree) (l : list Z) : Prop :=
  exists cs, index (node_cmp sts) t cs /\ heads cs ++ members cs ≡ₚ l.

Lemma indexed_nodup sts t l : indexed sts t l -> NoDup l.
Proof. intros (cs & Hi & <-). by eapply index_nodup. Qed.

Lemma indexed_other sts sts' t l : (forall x, x ∈ l -> sts' !!! x = sts !!! x) -> indexed sts t l -> indexed sts' t l.
Proof.
  intros He (cs & Hi & Hp). exists cs. split; [|done]. eapply index_ext; [exact Hi|].
  intros x y Hx Hy. rewrite Hp in Hx, Hy. unfold node_cmp. by rewrite !He.
Qed.

Lemma indexed_node sts t l x : indexed sts t l -> x ∈ l -> x ∈ dom (links t).
Proof. intros (cs & Hi & Hp) Hx. rewrite <- Hp in Hx. by eapply index_nodes. Qed.

Lemma tree_remove_wp sts s l x : indexed sts (tree s) l -> x ∈ l ->
  wp (tree_remove x) (fun _ s' => exists t, s' = with_tree t s /\ indexed sts t (others x l) /\ x ∈ dom (links t)) s.
Proof.
  intros Hx Hin. pose proof (indexed_node _ _ _ _ Hx Hin) as Hd. destruct Hx as (cs & Hi & Hp). apply wp_in_tree.
  pose proof (index_nodup _ _ _ Hi) as Hnd.
  eapply wp_mono; [apply (rb_remove_wp (node_cmp sts)); [exact Hi|by rewrite Hp]|]. intros _ t [Hi' Ed].
  exists t. split; [done|]. split; [|by rewrite Ed]. exists (remove_class x cs). split; [done|].
  apply NoDup_Permutation; [by eapply index_nodup|apply NoDup_filter; by rewrite <- Hp|].
  intros z. by rewrite in_remove_class, in_others, Hp.
Qed.

Lemma tree_insert_wp s l x : indexed (streams s) (tree s) l -> x ∉ l -> x ∈ dom (links (tree s)) ->
  wp (tree_insert x) (fun _ s' => exists t, s' = with_tree t s /\ indexed (streams s) t (x :: l) /\ dom (links t) = dom (links (tree s))) s.
Proof.
  intros (cs & Hi & Hp) Hx Hd. apply wp_in_tree. pose proof (index_nodup _ _ _ Hi) as Hnd.
  eapply wp_mono; [apply (rb_insert_wp (node_cmp (streams s))); [exact Hi|by rewrite Hp|]|].
  { unfold links in Hd. rewrite dom_fmap in Hd. by apply elem_of_dom. }
  intros _ t [Hi' Ed]. exists t. split; [done|]. split; [|done]. exists (insert_class (node_cmp (streams s)) x cs). split; [done|].
  apply NoDup_Permutation; [by eapply index_nodup|constructor; [done|by rewrite <- Hp]|].
  intros z. by rewrite in_insert_class, elem_of_cons, Hp.
Qed.

Lemma wp_set_stream s x f (Q : unit -> ocf_seq_detect -> Prop) :
  is_Some (streams s !! x) -> Q tt (with_streams (alter f x (streams s)) s) -> wp (set_stream x f) Q s.
Proof.
  intros [st Hst] HQ. unfold set_stream. wp_step. eapply wp_load; [exact Hst|]. apply wp_modify.
  replace (<[x:=f st]> (streams s)) with (alter f x (streams s)); [done|].
  apply map_eq. intros y. destruct (decide (y = x)) as [->|]; [by rewrite lookup_alter_eq, Hst, lookup_insert_eq|by rewrite lookup_alter_ne, lookup_insert_ne].
Qed.

Lemma alter_other (f : ocf_seq_detect_stream -> ocf_seq_detect_stream) x (sts : gmap Z ocf_seq_detect_stream) y :
  y <> x -> alter f x sts !!! y = sts !!! y.
Proof. intros Hy. rewrite !lookup_total_alt. by rewrite lookup_alter_ne. Qed.

(** The stream is in the tree again, and last in the list. *)
Lemma tracked_touched s t x f : tracked s -> x ∈ lru s -> indexed (alter f x (streams s)) t (lru s) ->
  tracked (SeqDetect t (others x (lru s) ++ [x]) (promotion_count s) (promotion_threshold s) (consumer_count s) (alter f x (streams s))).
Proof.
  intros Ht Hx (cs & Hi & Hp). pose proof (tracked_nodup s Ht) as Hnd.
  assert (Hpo : others x (lru s) ++ [x] ≡ₚ lru s) by (rewrite <- (others_perm x (lru s) Hnd Hx) at 2; by rewrite Permutation_app_comm).
  split; cbn.
  - exists cs. split; [done|]. by rewrite Hp, Hpo.
  - intros y Hy. rewrite Hpo in Hy. apply (tr_stream _ Ht) in Hy.
    destruct (decide (y = x)) as [->|]; [rewrite lookup_alter_eq; by apply fmap_is_Some|by rewrite lookup_alter_ne].
Qed.

(** A stream that is out of the tree comes back under another key, and becomes the
    last of the list. *)
Definition moved (x : Z) (s : ocf_seq_detect) : ocf_seq_detect := with_lru (others x (lru s) ++ [x]) s.

Lemma come_back_wp s t x f (Q : unit -> ocf_seq_detect -> Prop) :
  tracked s -> x ∈ lru s -> indexed (streams s) t (others x (lru s)) -> x ∈ dom (links t) ->
  (forall s', tracked (moved x s') -> view_of (moved x s') = touch x f (view_of s) -> Q tt s') ->
  wp (tree_insert x) Q (with_streams (alter f x (streams s)) (with_tree t s)).
Proof.
  intros Ht Hx Hix Hd HQ. pose proof (tracked_nodup s Ht) as Hnd.
  eapply wp_mono; [apply (tree_insert_wp _ (others x (lru s))); [|by intros [H _]%in_others|done]|].
  - eapply indexed_other; [|exact Hix]. intros y [Hy _]%in_others. by apply alter_other.
  - intros [] s2 (t2 & -> & (cs & Hi & Hp) & _). apply HQ; [|done].
    apply (tracked_touched s); [done|done|]. exists cs. split; [done|]. by rewrite Hp, others_perm.
Qed.

Lemma replace_wp {A} s x f (k : SD A) (Q : A -> ocf_seq_detect -> Prop) : tracked s -> x ∈ lru s ->
  (forall s', tracked (moved x s') -> view_of (moved x s') = touch x f (view_of s) -> wp k Q s') ->
  wp (_ ← tree_remove x; _ ← set_stream x f; _ ← tree_insert x; k) Q s.
Proof.
  intros Ht Hx HQ. wp_step.
  eapply wp_mono; [apply (tree_remove_wp (streams s) _ (lru s)); [by destruct Ht|done]|].
  intros _ s1 (t & -> & Hix & Hd). wp_step. apply wp_set_stream; [by apply (tr_stream s)|]. wp_step.
  by apply (come_back_wp s t x f).
Qed.

(** ** Update in place *)

(** A member of a ring cannot be updated in place. *)
Lemma can_update_member cmp key t cs y l x (Q : bool -> ocf_rb_tree -> Prop) :
  index cmp t cs -> (y, l) ∈ cs -> x ∈ l -> Q false t -> wp (ocf_rb_tree_can_update key x) Q t.
Proof.
  intros Hi Hin Hx HQ. pose proof (ix_ring _ _ _ Hi _ _ Hin) as Hr. pose proof (class_nodup _ _ _ _ _ Hi Hin) as Hnd.
  apply list_elem_of_split in Hx as (l1 & l2 & ->).
  destruct (links_node t x _ (ring_at _ _ _ _ _ Hr)) as (n & Hn & En & _). cbn in En.
  unfold ocf_rb_tree_can_update, list_empty. wp_step. wp_step. eapply wp_load; [exact Hn|]. apply wp_ret. rewrite En.
  rewrite bool_decide_eq_false_2; [by apply wp_ret|]. rewrite app_comm_cons in Hnd. apply nodup_pivot in Hnd.
  intros E. apply Hnd. rewrite <- E. destruct l2; cbn; set_solver.
Qed.

(** When the tree lets a stream be changed in place, it is still in order. *)
Lemma in_place_wp s x item f (Q : bool -> ocf_seq_detect -> Prop) : tracked s -> x ∈ lru s ->
  (forall st, streams s !! x = Some st -> alike item (f st) /\ ~ below (f st) st) ->
  (forall b, (b = true -> indexed (alter f x (streams s)) (tree s) (lru s)) -> Q b s) ->
  wp (tree_can_update x item) Q s.
Proof.
  intros Ht Hx Hf HQ. destruct (tr_stream s Ht x Hx) as [st Hst]. destruct (Hf st Hst) as [Hal Hup].
  destruct (tr_index s Ht) as (cs & Hi & Hp). apply wp_in_tree. rewrite <- Hp in Hx.
  destruct (class_of _ _ _ _ Hi Hx) as (cs1 & y & l & cs2 & -> & [->|Hl]%elem_of_cons & _ & _).
  2: { eapply (can_update_member _ _ _ _ y l); [exact Hi|set_solver|done|]. rewrite with_same_tree. by apply HQ. }
  assert (Esx : streams s !!! y = st) by (by rewrite lookup_total_alt, Hst).
  eapply (can_update_wp (node_cmp (streams s)) (item_cmp (streams s) item)); [exact Hi| |].
  { unfold item_cmp. rewrite Esx. pose proof (cmp_cases item st). unfold alike, below in *. lia. }
  rewrite with_same_tree. apply HQ. destruct l as [|n l]; [|done]. intros Hfit%bool_decide_eq_true. rewrite Forall_forall in Hfit.
  exists (cs1 ++ (y, []) :: cs2). split; [|done].
  assert (Hnew : alter f y (streams s) !!! y = f st) by (by rewrite lookup_total_alt, lookup_alter_eq, Hst).
  pose proof (index_nodup _ _ _ Hi) as Hnd. assert (Hne : forall z, z ∈ heads cs1 \/ z ∈ heads cs2 -> z <> y).
  { intros z Hz ->. unfold heads in Hnd. rewrite fmap_app in Hnd. cbn in Hnd. rewrite <- app_assoc in Hnd.
    apply nodup_pivot in Hnd. apply Hnd. unfold heads in Hz. set_solver. }
  pose proof (ix_ascending _ _ _ Hi) as Ha. unfold heads in Ha. rewrite fmap_app in Ha.
  apply ascending_app in Ha as (_ & _ & Ha).
  eapply index_rekey; [exact Hi| | |]; unfold node_cmp.
  - intros a b Ha' Hb. by rewrite !alter_other.
  - intros z Hz. rewrite Hnew, alter_other by (apply Hne; by left). specialize (Ha z y Hz ltac:(left)). unfold node_cmp in Ha.
    rewrite Esx in Ha. apply cmp_below. apply cmp_below in Ha. unfold alike, below in *. lia.
  - intros z Hz. rewrite Hnew, alter_other by (apply Hne; by right). specialize (Hfit z Hz). unfold item_cmp in Hfit.
    apply cmp_below. apply cmp_below in Hfit. unfold alike, below in *. lia.
Qed.

(** ** Steps *)

Lemma update_wp s addr len rw insert : tracked s -> lru s <> [] -> in_bounds (Request addr len rw insert) ->
  wp (ocf_seq_detect_update addr len rw insert)
    (fun r s' => tracked s' /\ track (Request addr len rw insert) (view_of s) r (view_of s')) s.
Proof.
  intros Ht Hne (Ha & Hl & Hb). unfold ocf_seq_detect_update. wp_step. apply tree_find_wp; [done|..].
  - intros x Hx. pose proof Hx as [(Hin & Hv & Hrw & Hlast) _]. cbn in Hin, Hv, Hrw, Hlast.
    assert (Etrack : track (Request addr len rw insert) (view_of s) (Some x) (touch x (extended addr len) (view_of s))) by (by constructor).
    wp_step. apply (in_place_wp s x _ (extended addr len)); [done|done| |].
    { intros st Hst. assert (Est : streams s !!! x = st) by (by rewrite lookup_total_alt, Hst). rewrite Est in Hv, Hrw, Hlast.
      unfold alike, below. cbn [valid SeqDetect.rw last seq_item extended]. unfold wrap.
      rewrite (Z.mod_small (addr + len)) by lia. rewrite Hv, Hrw. lia. }
    intros b Hib. destruct b; cbn [negb when].
    + wp_step. apply wp_set_stream; [by apply tr_stream|]. wp_step. apply wp_ret. wp_step. apply wp_modify. apply wp_ret.
      split; [by apply (tracked_touched s), Hib|done].
    + wp_step. apply wp_set_stream; [by apply tr_stream|]. wp_step. wp_step.
      eapply wp_mono; [apply (tree_remove_wp (streams s) _ (lru s)); [by destruct Ht|done]|]. intros _ s1 (t & -> & Hix & Hd).
      apply (come_back_wp s t x (extended addr len)); [done..|]. intros s' Ht' Ev.
      wp_step. apply wp_modify. wp_step. split; [done|]. exact (eq_ind_r (track _ _ _) Etrack Ev).
  - intros Hno. destruct insert; [|apply wp_ret; split; [done|by constructor]].
    destruct (lru s) as [|x l] eqn:El; [done|]. assert (Hx : x ∈ lru s) by (rewrite El; left).
    wp_step. eapply wp_load; [by rewrite El|].
    apply (replace_wp s x (fun _ => started addr len rw)); [done|done|]. intros s' Ht' Ev.
    wp_step. apply wp_modify. wp_step. split; [done|]. refine (eq_ind_r (track _ _ _) _ Ev). by econstructor.
Qed.

Lemma take_over_wp s st : tracked s -> lru s <> [] ->
  wp (seq_step (TakeOver st)) (fun r s' => tracked s' /\ track (TakeOver st) (view_of s) r (view_of s')) s.
Proof.
  intros Ht Hne. destruct (lru s) as [|x l] eqn:El; [done|]. assert (Hx : x ∈ lru s) by (rewrite El; left).
  cbn. unfold promote_into. wp_step. wp_step. eapply wp_load; [by rewrite El|].
  apply (replace_wp s x (fun _ => taken_over st)); [done|done|]. intros s' Ht' Ev.
  apply wp_modify. wp_step. split; [done|]. refine (eq_ind_r (track _ _ _) _ Ev). by econstructor.
Qed.

Lemma seq_step_wp s e : tracked s -> lru s <> [] -> in_bounds e ->
  wp (seq_step e) (fun r s' => tracked s' /\ track e (view_of s) r (view_of s')) s.
Proof. destruct e; intros Ht Hl Hb; [by apply update_wp|by apply take_over_wp]. Qed.

Lemma track_nonempty e v r v' : track e v r v' -> v_lru v <> [] -> v_lru v' <> [].
Proof. intros Ht Hl. destruct Ht; [|  |done|]; by destruct (others x (v_lru v)) eqn:E; cbn; rewrite E. Qed.

Lemma seq_run_wp es s : tracked s -> lru s <> [] -> Forall in_bounds es ->
  wp (seq_run es) (fun rs s' => tracked s' /\ tracks es (view_of s) rs (view_of s')) s.
Proof.
  revert s. induction es as [|e es IH]; intros s Ht Hl Hb; cbn.
  - apply wp_ret. split; [done|constructor].
  - apply Forall_cons in Hb as [He Hb]. wp_step. eapply wp_mono; [by apply seq_step_wp|].
    intros r s1 [Ht1 Hr]. cbn. wp_step. eapply wp_mono; [apply (IH s1)|]; [done|by eapply (track_nonempty _ _ _ _ Hr)|done|].
    intros rs s2 [Ht2 Hrs]. apply wp_ret. split; [done|]. by econstructor.
Qed.

(** ** A new detector *)

(** The detector while its first streams, [l], are initialised; [s0] is the memory. *)
Record initialising (s0 : ocf_seq_detect) (l : list Z) (s : ocf_seq_detect) : Prop := {
  in_tracked : tracked s;
  in_lru : lru s = l;
  in_nodes : dom (links (tree s)) = dom (links (tree s0));
  in_streams i : streams s !! i = (if decide (i ∈ l) then initial_stream i else id) <$> streams s0 !! i
}.

Lemma init_one_wp s0 l i s : initialising s0 l s -> i ∉ l -> i ∈ dom (streams s0) -> i ∈ dom (links (tree s0)) ->
  wp (_ ← set_stream i (initial_stream i); _ ← tree_insert i; modify (fun s => with_lru (lru s ++ [i]) s))
    (fun _ => initialising s0 (l ++ [i])) s.
Proof.
  intros [Ht El Ed Hs] Hi [st Hst]%elem_of_dom Hn.
  assert (Hsi : is_Some (streams s !! i)) by (rewrite Hs, Hst; by eexists).
  wp_step. apply wp_set_stream; [done|]. wp_step.
  eapply wp_mono; [apply (tree_insert_wp _ l); [|done|]|].
  - eapply indexed_other; [|rewrite <- El; by destruct Ht]. intros y Hy. apply alter_other. by intros ->.
  - cbn. by rewrite Ed.
  - intros _ s2 (t & -> & (cs & Hix & Hp) & Edt). apply wp_modify.
    assert (Hst' : forall y, alter (initial_stream i) i (streams s) !! y =
      (if decide (y ∈ l ++ [i]) then initial_stream y else id) <$> streams s0 !! y).
    { intros y. destruct (decide (y = i)) as [->|Hy].
      - rewrite lookup_alter_eq, Hs, decide_False, decide_True by set_solver. by rewrite option_fmap_id.
      - rewrite lookup_alter_ne, Hs by done. destruct (decide (y ∈ l)), (decide (y ∈ l ++ [i])); [done|set_solver|set_solver|done]. }
    split; cbn; [split; cbn| |by rewrite Edt|done].
    + exists cs. split; [done|]. rewrite Hp, El. solve_Permutation.
    + rewrite El. intros y Hy. rewrite Hst'. rewrite decide_True by done. apply fmap_is_Some.
      apply elem_of_app in Hy as [Hy| ->%list_elem_of_singleton]; [|by eexists].
      rewrite <- El in Hy. apply (tr_stream _ Ht) in Hy. rewrite Hs in Hy. by apply fmap_is_Some in Hy.
    + by rewrite El.
Qed.

Lemma seq_init_wp n s : (forall i, 0 <= i < n -> i ∈ dom (streams s) /\ i ∈ dom (rb_nodes (tree s))) ->
  wp (ocf_seq_detect_init n) (fun _ s' => tracked s' /\ lru s' = seqZ 0 n /\
    forall i, 0 <= i < n -> streams s' !! i = initial_stream i <$> streams s !! i) s.
Proof.
  intros Hmem. unfold ocf_seq_detect_init. wp_step. apply wp_modify. wp_step. apply wp_modify. wp_step. apply wp_modify.
  eapply wp_mono; [apply (wp_for (seqZ 0 n) _ (fun l => initialising s l))|].
  - split; cbn; [split| |done|].
    + exists []. split; [by apply index_empty|done].
    + intros x Hx. by apply elem_of_nil in Hx.
    + done.
    + intros i. by rewrite option_fmap_id.
  - intros pre i post s' El Hs'. assert (Hi : 0 <= i < n) by (assert (Hin : i ∈ seqZ 0 n) by (rewrite El; set_solver); apply elem_of_seqZ in Hin; lia).
    apply Hmem in Hi as [Hi1 Hi2]. apply (init_one_wp s); [done| |done|by rewrite dom_links].
    pose proof (NoDup_seqZ 0 n) as Hnd. rewrite El in Hnd. apply nodup_pivot in Hnd. set_solver.
  - intros _ s' [Ht El _ Hst]. split; [done|]. split; [done|]. intros i Hi. rewrite Hst, decide_True; [done|]. apply elem_of_seqZ. lia.
Qed.
