(* ===== verification/SeqProps.v ===== *)
(** * What sequential detection promises

    The property of a detector over whole histories, a detector on concrete
    requests, and what a promotion does to the detector of the queue. *)

From S2P Require Import Prelude RbTree SeqDetect SeqTrack.
Open Scope Z_scope.

(** C40. A detector tracks its streams.  Take a new detector of at least one
    stream, in any memory, and any sequence of requests and of streams taken over
    from another detector, where addresses do not wrap around.  Every step returns.
    A request extends a valid stream of its direction that ends where it starts,
    whenever there is one: of several, all but one are not longer than the chosen
    one.  Otherwise it starts a stream in place of the one that was used longest
    ago, or changes nothing when it may not start one.  The stream becomes the most
    recently used; the others and their order stay.  At the end the tree is still in
    the order of the streams, and a lookup returns such a stream for every address
    and direction for which there is one, and none otherwise. *)
Theorem seq_detect_tracks (mem : ocf_seq_detect) (n : Z) (es : list seq_event) (Hn : 0 < n)
    (Hmem : forall i, 0 <= i < n -> i ∈ dom (streams mem) /\ i ∈ dom (rb_nodes (tree mem)))
    (Hes : Forall in_bounds es) :
  exists v rs s', (_ ← ocf_seq_detect_init n; seq_run es) mem = Some (rs, s') /\
    (v_lru v = seqZ 0 n /\ forall i, 0 <= i < n -> v_streams v !! i = initial_stream i <$> streams mem !! i) /\
    tracks es v rs (view_of s') /\ tracked s' /\
    forall addr rw, exists r, ocf_seq_detect_find addr rw s' = Some (r, s') /\
      match r with Some x => longest addr rw (view_of s') x | None => forall y, ~ matching addr rw (view_of s') y end.
Proof.
  pose proof (seq_init_wp n mem Hmem) as Hinit. apply wp_run in Hinit as ([] & s0 & E0 & Ht0 & El & Hst).
  assert (Hne : lru s0 <> []) by (rewrite El, seqZ_cons by lia; done).
  pose proof (seq_run_wp es s0 Ht0 Hne Hes) as Hrun. apply wp_run in Hrun as (rs & s' & E & Ht & Htr).
  exists (view_of s0), rs, s'. split; [unfold mbind, M_bind; by rewrite E0|]. split; [done|]. split; [done|]. split; [done|].
  intros addr rw. pose proof (tree_find_wp s' addr rw (fun r s => s = s' /\
    match r with Some x => longest addr rw (view_of s') x | None => forall y, ~ matching addr rw (view_of s') y end) Ht) as Hf.
  destruct (proj1 (wp_run _ _ _) (Hf (fun x H => conj eq_refl H) (fun H => conj eq_refl H))) as (r & s2 & Ef & -> & Hr). eauto.
Qed.

(** ** The cutoff *)

Definition over (s : ocf_seq_detect) (x len threshold : Z) : bool :=
  bool_decide (u64 (bytes (streams s !!! x) + len) >= threshold).

(** The answer of one detector: the stream, and whether it is over the threshold. *)
Definition answer (s : ocf_seq_detect) (addr rw len threshold : Z) (p : option Z * bool) : Prop :=
  match p.1 with
  | Some x => longest addr rw (view_of s) x /\ p.2 = over s x len threshold
  | None => (forall y, ~ matching addr rw (view_of s) y) /\ p.2 = false
  end.

Lemma over_threshold_wp s stream addr rw len threshold (Q : bool -> ocf_seq_detect -> Prop) : tracked s ->
  (forall x, stream = Some x -> longest addr rw (view_of s) x) ->
  Q (match stream with Some x => over s x len threshold | None => false end) s -> wp (over_threshold stream len threshold) Q s.
Proof.
  intros Ht Hl HQ. destruct stream as [x|]; cbn; [|by apply wp_ret]. destruct (Hl x eq_refl) as [[Hx _] _].
  apply (tr_stream _ Ht) in Hx as [st Hst]. wp_step. eapply wp_load; [exact Hst|]. apply wp_ret. unfold over in HQ.
  by rewrite lookup_total_alt, Hst in HQ.
Qed.

Lemma wp_on_queue {A} (m : SD A) d (Q : A -> detectors -> Prop) :
  wp m (fun a s => Q a (Detectors s (core_sd d))) (queue_sd d) -> wp (on_queue m) Q d.
Proof. unfold wp, on_queue. destruct (m (queue_sd d)) as [[a s]|]; done. Qed.
Lemma wp_on_core {A} (m : SD A) d (Q : A -> detectors -> Prop) :
  wp m (fun a s => Q a (Detectors (queue_sd d) s)) (core_sd d) -> wp (on_core m) Q d.
Proof. unfold wp, on_core. destruct (m (core_sd d)) as [[a s]|]; done. Qed.

(** The policies under which the streams are asked. *)
Definition asks (policy : ocf_seq_cutoff_policy) (is_on : bool) : bool :=
  match policy with
  | ocf_seq_cutoff_policy_always => true
  | ocf_seq_cutoff_policy_full => is_on
  | _ => false
  end.

(** The request is cut off when its stream, with the request, reaches the
    threshold.  The queue is asked first; the core only when the queue has no such
    stream, and a stream of the core marks the request. *)
Lemma cutoff_check_wp policy threshold is_on addr len rw d : tracked (queue_sd d) -> tracked (core_sd d) ->
  wp (ocf_core_seq_cutoff_check policy threshold is_on addr len rw) (fun ans d' => d' = d /\
    (if asks policy is_on then
      exists q, answer (queue_sd d) addr rw len threshold q /\
        match q.1 with
        | Some _ => ans = (q.2, false)
        | None => exists c, answer (core_sd d) addr rw len threshold c /\ ans = (c.2, bool_decide (is_Some c.1))
        end
    else ans = (false, false))) d.
Proof.
  intros Hq Hc. destruct d as [q c]. cbn in Hq, Hc.
  set (check := fun _ : unit => ocf_core_seq_cutoff_check ocf_seq_cutoff_policy_always threshold is_on addr len rw).
  assert (Hcheck : wp (check tt) (fun ans d' => d' = Detectors q c /\
    exists p, answer q addr rw len threshold p /\
      match p.1 with
      | Some _ => ans = (p.2, false)
      | None => exists r, answer c addr rw len threshold r /\ ans = (r.2, bool_decide (is_Some r.1))
      end) (Detectors q c)).
  { unfold check, ocf_core_seq_cutoff_check. wp_step. apply wp_on_queue. cbn. apply tree_find_wp; [done|intros x Hx|intros Hno].
    - wp_step. apply wp_on_queue. apply (over_threshold_wp q (Some x) addr rw); [done|by intros ? [= <-]|].
      apply wp_ret. split; [done|]. by exists (Some x, over q x len threshold).
    - wp_step. apply wp_on_queue. apply wp_ret. wp_step. apply wp_on_core. apply tree_find_wp; [done|intros x Hx|intros Hno2].
      + wp_step. apply wp_on_core. apply (over_threshold_wp c (Some x) addr rw); [done|by intros ? [= <-]|].
        apply wp_ret. split; [done|]. exists (None, false). split; [done|]. by exists (Some x, over c x len threshold).
      + wp_step. apply wp_on_core. apply wp_ret. apply wp_ret. split; [done|]. exists (None, false). split; [done|].
        by exists (None, false). }
  destruct policy; [exact Hcheck|destruct is_on; [exact Hcheck|done]|done|done].
Qed.

(** ** Who keeps the detectors running *)

(** The core's detector counts the cutoff as a consumer while its policy is not
    [never]. *)
Definition registered (others : Z) (c : cutoff) : Prop :=
  seq_cutoff_active c = bool_decide (cutoff_policy c <> ocf_seq_cutoff_policy_never) /\
  consumer_count (cutoff_sd c) = others + Z.b2z (seq_cutoff_active c).

Lemma cutoff_init_registers k c : seq_cutoff_active c = false -> consumer_count (cutoff_sd c) = k ->
  wp ocf_core_seq_cutoff_init (fun _ => registered k) c.
Proof.
  intros Ha Hc. destruct c as [p a sd]. cbn in Ha, Hc. subst a k. unfold registered.
  destruct p; (split; [by vm_compute|cbn; lia]).
Qed.

Lemma set_policy_registered k p c : registered k c -> wp (ocf_seq_cutoff_set_policy p) (fun _ c' => registered k c' /\ cutoff_policy c' = p) c.
Proof.
  intros [Ha Hc]. destruct c as [p0 a sd]. cbn in Ha, Hc. subst a. unfold registered.
  destruct p0, p; cbv -[Z.add Z.sub] in Hc |- *; (split; [split; [done|lia]|done]).
Qed.

Lemma cutoff_deinit_leaves k c : registered k c ->
  wp ocf_core_seq_cutoff_deinit (fun _ c' => seq_cutoff_active c' = false /\ consumer_count (cutoff_sd c') = k) c.
Proof.
  intros [Ha Hc]. destruct c as [p0 [] sd]; cbv -[Z.add Z.sub] in Hc |- *; (split; [done|lia]).
Qed.

Module Sample.
(** Memory for four streams, never initialised. *)
Definition memory : ocf_seq_detect :=
  SeqDetect (RbTree (Some 7) (list_to_map ((fun x => (x, RbNode true (Some 99) None (Some x) 0 0)) <$> seqZ 0 4)))
    [3] 0 0 0 (list_to_map ((fun x => (x, Stream 1 2 1 true 3)) <$> seqZ 0 4)).

(** Two streams grow to meet at 3000. *)
Definition requests : list seq_event :=
  [Request 1000 500 0 true; Request 2000 500 0 true; Request 2500 500 0 false; Request 1500 1500 0 true; Request 9 9 1 false;
   TakeOver (Stream 4096 8 1 false 2); Request 3000 8 0 true].

Lemma seq_detect_tracks_witness :
  exists v rs s', (_ ← ocf_seq_detect_init 4; seq_run requests) memory = Some (rs, s') /\
    (v_lru v = seqZ 0 4 /\ forall i, 0 <= i < 4 -> v_streams v !! i = initial_stream i <$> streams memory !! i) /\
    tracks requests v rs (view_of s') /\ tracked s' /\
    forall addr rw, exists r, ocf_seq_detect_find addr rw s' = Some (r, s') /\
      match r with Some x => longest addr rw (view_of s') x | None => forall y, ~ matching addr rw (view_of s') y end.
Proof.
  apply (seq_detect_tracks memory 4 requests); [lia| |repeat constructor; cbn; lia].
  intros i Hi. assert (Hall : Forall (fun i => i ∈ dom (streams memory) /\ i ∈ dom (rb_nodes (tree memory))) (seqZ 0 4))
    by (apply (bool_decide_unpack _); by vm_compute).
  rewrite Forall_forall in Hall. apply Hall, elem_of_seqZ. lia.
Defined.

(** The streams that answered, and the list of streams with their lengths. *)
Example requests_run :
  (fun p => (p.1, (fun x => (x, bytes (streams p.2 !!! x))) <$> lru p.2)) <$> (_ ← ocf_seq_detect_init 4; seq_run requests) memory =
  Some ([Some 0; Some 1; Some 1; Some 0; None; None; Some 0], [(3, 0); (1, 1000); (2, 8); (0, 2008)]).
Proof. by vm_compute. Qed.

(** The callback passes over the head of the ring, also when it is the longest:
    stream 0 has 3000 bytes and stream 1 has 500. *)
Example ring_head_passed_over :
  fst <$> (_ ← ocf_seq_detect_init 4;
    seq_run [Request 0 3000 0 true; Request 2500 500 0 true; Request 3000 8 0 true]) memory =
  Some [Some 0; Some 1; Some 1].
Proof. by vm_compute. Qed.

(** A queue and a core with new detectors.  A stream is promoted at its second
    request. *)
Definition start : DS unit :=
  _ ← on_queue (ocf_seq_detect_init 4); _ ← on_core (ocf_seq_detect_init 4); on_core ocf_seq_detect_register_consumer.
Definition request (addr len rw : Z) : DS unit := ocf_core_seq_detect_update 2 0 addr len rw.

(** The second stream is promoted, and its node stays where it was in the tree of
    the queue with [valid] cleared: the first stream, which ends at 1500, is not
    found any more. *)
Definition promoted : DS unit :=
  _ ← start; _ ← request 1000 500 0; _ ← request 2000 500 0; _ ← request 3000 500 0; _ ← request 4000 500 0; request 2500 8 0.
Example promotion_hides_stream :
  fst <$> (_ ← promoted; q ← on_queue (gets (fun s => streams s !! 0)); r ← on_queue (ocf_seq_detect_find 1500 0); mret (q, r))
    (Detectors memory memory) = Some (Some (Stream 1500 500 0 true 1), None).
Proof. by vm_compute. Qed.
End Sample.
